(* ===== verification/_CoqProject ===== *)
-Q . S2P
Prelude.v
NtTypes.v
Streams.v
Leb128.v
Base64.v
UidVector.v
Message3.v
WireEncoder3.v
WireDecoder3.v
WireDecoder3Proofs.v
Wire3RoundTrip.v
CircularBuffer.v
Handles.v
Monads.v
LocalTypes.v
LocalStorage.v
LocalShape.v
LocalFrames.v
LocalInv.v
LocalObjects.v
LocalOps.v
LocalSafety.v
LocalValues.v
LocalExample.v
LocalProps.v
LocalTopics.v
Json.v
Events.v
ListenerStorage.v
ListenerProofs.v
ConnectionList.v
Logger.v
Instance.v
Api.v
InstanceProofs.v
ApiProofs.v
EndToEnd.v
Logs.v
Modes.v
ApiExample.v
Mpack.v
JsonParser.v
JsonRoundTrip.v
WireEncoder4.v
WireDecoder4.v
Wire4Text.v
WireConnection4.v
NetworkQueue.v
Frames4.v
ClientImpl.v
ClientProofs.v
ClientState.v
ClientExample.v
ServerTypes.v
ServerImpl.v
ServerNt3.v
ServerPersistent.v
ServerCore.v
ServerValues.v
ServerTopics.v
ServerSafety.v
ServerClients.v
ServerFrames.v
ServerProps.v
ServerNt3Proofs.v
ServerDelivery.v
ServerRestore.v
ServerExample.v
Http.v
HttpUrl.v
HttpSafety.v
Sha1.v
WebSocket.v
WebSocketLoop.v
WebSocketProofs.v
WebSocketServer.v
NetExample.v
