(* ===== verification/Prelude.v ===== *)
(** * ntcore: a verification library for the NetworkTables core

    NetworkTables is a publish/subscribe library for robots.  Its core, [ntcore]
    (with the support libraries [wpiutil] and [wpinet]), keeps the topics of a process, delivers
    published values to local subscribers and listeners, and exchanges them with
    other processes over two network protocols.  This library translates the
    parts named below into executable definitions, one per function of the
    sources, and proves what they guarantee.  Paths are relative to
    [ntcore/src/main/native/cpp] unless they start with [wpiutil].

    ** Conventions

    A [w]-bit integer is a [Z] with its wrap-around written out ([wrap]), a byte is
    a [Byte.byte], [std::string] is [string], a [double] is its bit pattern
    ([NtTypes.v]).  A record update [r <| f := v |>] is an assignment to a field.
    Stateful code is in the monad [M] of [Monads.v]: a function from states to an
    optional result, where [None] is undefined behaviour (an access through a null
    or dangling pointer) or an uncaught exception.  [wp m Q s] is total
    correctness: [m] is free of undefined behaviour in [s] and ends in [Q].  A
    pointer to an object that lives in a handle map is the index of its slot, so
    that an access after the object is freed is visible as an access to an empty
    slot.  A public function that holds its mutex throughout is one atomic step;
    where the code releases a mutex in the middle, the model has two steps.

    ** Values and the version 3 protocol

    - [NtTypes.v]: value types, binary floating point, [nt::Value] and its comparison and
      numeric conversion ([Types_internal.cpp], [Value.cpp], [Value_internal.cpp]).
    - [Streams.v]: incremental readers and their contract, [chunkable].
    - [Leb128.v]: [wpiutil] [leb128.cpp], with its round trip.
    - [Message3.v], [WireEncoder3.v], [WireDecoder3.v]: the messages of
      [net3/Message3.h], their encoder and the automaton that decodes them.
    - [WireDecoder3Proofs.v], [Wire3RoundTrip.v]: the decoder terminates on every
      input, does not depend on how its input is cut, and inverts the encoder up to
      what the format cannot carry; errors stop it.

    The loops of the decoders run on fuel computed from the bytes at hand.  The
    theorems [Execute_total] and [Execute_chunking] are about results, not about
    runs that happen to end: the fuel is proved to be enough.

    ** The local storage

    - [CircularBuffer.v]: [wpiutil] [circular_buffer.h], a refinement of bounded
      lists.
    - [Handles.v]: [Handle.h], [HandleMap.h] and [wpiutil] [UidVector.h].
    - [LocalTypes.v], [LocalStorage.v]: the data and every member function of
      [LocalStorage.cpp].  What the storage tells the network, the listener storage
      and the data log is a trace ([out]) in the order of the calls.
    - [LocalShape.v], [LocalFrames.v], [LocalInv.v],
      [LocalObjects.v], [LocalOps.v], [LocalSafety.v]: the invariant of the object
      graph ([Struct], [EntryPub], [Typed]) and its preservation by every
      operation.
    - [LocalValues.v], [LocalProps.v], [LocalTopics.v]: the exact effect of publishing, reading, properties and
      unpublishing; [LocalExample.v] has a concrete client.

    ** Listeners, connections, log messages

    - [Json.v]: the JSON text of [wpi::json] (the serializer).
    - [Events.v]: events, and the interface [IListenerStorage] as a type class with
      laws.  [ListenerStorage.v] implements it and [ListenerProofs.v] discharges the
      laws; [ConnectionList.v] and [Logger.v] are written
      against the interface.

    ** Instances and the public interface

    - [Instance.v]: [InstanceImpl.cpp].  The four components of an instance share
      one listener storage; [on_local] and its likes run a component's operation
      on its part of the state and deliver what it announces.
    - [Api.v]: the functions of [ntcore_cpp.cpp] over the table of instances.
    - [InstanceProofs.v], [ApiProofs.v]: every sequence of calls of the library,
      interleaved with its own threads, is safe ([library_safe]).
    - [EndToEnd.v], [Logs.v], [Modes.v]: values reach listeners, log messages reach
      exactly the listeners of their level, and the network mode is a state
      machine.  [ApiExample.v] has concrete runs.

    ** The version 4 protocol

    - [Mpack.v], [JsonParser.v], [Base64.v]: the functions of MessagePack, of the
      JSON parser and of Base64 that the protocol uses.  [JsonRoundTrip.v]: what the
      serializer writes, the parser reads back.
    - [WireEncoder4.v], [WireDecoder4.v]: [net/Message.h],
      [net/WireEncoder.cpp], [net/WireDecoder.cpp]; [Wire4Text.v] has the round trips of values and control messages.
    - [WireConnection4.v]: [net/WebSocketConnection.cpp], frames and when they are
      cut; [Frames4.v]: what a peer reads from the frames of a connection.
    - [NetworkQueue.v]: [net/NetworkLoopQueue.cpp], and the interface of the local
      storage towards the network as a type class ([LocalInterface]); constants and
      conversions shared by client and server.
    - [ClientImpl.v]: [net/ClientImpl.cpp].  [ClientProofs.v] and [ClientState.v]:
      what a client hands to its connection is what the server reads, what it tells
      the local storage is what the server sent, and its timer fits its publishers.
      [ClientExample.v] has instances of the interfaces and a session.

    ** The server

    - [UidVector.v]: the vector of topics ([wpiutil] [UidVector.h]).
    - [ServerTypes.v] (with [net3/UvStreamConnection3.cpp]), [ServerImpl.v], [ServerNt3.v], [ServerPersistent.v]: the
      objects and all operations of [net/ServerImpl.cpp]: the server, its clients of
      version 4, of version 3 and the local one, and the file of persistent topics.
      Topics, publishers, subscribers and clients live in heaps, and a pointer is
      an address, so that the use of a dangling pointer is [None].  The class
      [Machine] has the choices that the language leaves open: the addresses of new
      objects, which may be used again, and the order of iteration over a
      [DenseMap].
    - [ServerCore.v] (the invariant [core_ok]: no pointer dangles, and sending keeps
      it), [ServerTopics.v], [ServerSafety.v],
      [ServerClients.v] (so do topics, publishers, subscribers and clients that come
      and go), [ServerFrames.v] (who is connected) lead to [ServerProps.v]: every run
      of permitted operations is safe ([server_safe]).
    - [ServerDelivery.v]: what setting a value does to its topic, and to every client of
      version 4 by its subscriptions ([server_delivers]).
    - [ServerValues.v] (which operations leave the values of topics alone) and
      [ServerRestore.v]: storable topics that one server has dumped are recreated by
      another that loads the text ([persistent_roundtrip]).
    - [ServerNt3Proofs.v]: the handshake of clients of version 3, and that a refused message
      changes nothing but for the answer to a [ClientHello] of another revision.
    - [ServerExample.v]: concrete sessions, and those in which the server goes
      wrong.

    The recursion of [DeleteTopic] runs on fuel, one more than the number of
    topics; that it is enough is part of [server_safe], as running out is [None].

    ** The network library

    Paths here are relative to [wpinet/src/main/native].
    - [Http.v]: [cpp/http_parser.cpp].  A mark, the pointer to where the data of a
      callback begins, is the bytes since then; the body of the switch is one
      definition for each state.  Also [cpp/HttpParser.cpp], whose slots are a
      parameter: a slot changes a state of its own and may pause, reset or abort
      the parser and set its maximum length, upon which the parser goes on as the
      macros for callbacks say.  [HttpSafety.v]: an invariant of the parser, by which
      no assertion fails and the data is never overrun ([http_parser_safe]).
    - [HttpUrl.v]: [http_parser_parse_url] and
      [wpinet/UrlParser.h], and that a URL is taken apart into its parts.
    - [Sha1.v]: [wpiutil] [sha1.cpp] and its equivalence with FIPS 180-4, which is a
      definition of its own (module [Fips]).
    - [WebSocket.v]: [cpp/WebSocket.cpp]: handshake, frames, closing.
      [WebSocketLoop.v]: data may be cut into pieces anywhere
      ([incoming_in_pieces]), and when the loop over it ends.
      [WebSocketProofs.v]: messages sent are received ([websocket_delivers]); and a
      frame for which the loop does not end ([endless_frame]).
    - [WebSocketServer.v]: [cpp/WebSocketServer.cpp].  [NetExample.v] has a
      connection from the request of the client on.

    The loop over received data runs on fuel.  [receive] gives it the length of the
    data: where it is not enough, the loop does not end ([message_loop_ends]).

    ** Not modelled

    Log messages; threads and mutexes, but for the steps they make visible; the
    libuv event loop, sockets and DNS ([wpinet]); JNI, Java and the C interface, which only convert and forward; the parts of the libraries under
    [thirdparty] that the modelled code does not call.  Conversion between decimal
    text and floating point numbers is a parameter with its round trip as a law
    ([JsonFloat]); so are the clocks ([Env], [WpiClock]).  A pointer into
    [m_topics3] of a client of version 3 is the address of its topic: that such a
    pointer is held across insertions into the map is not modelled.  Nor are slots
    that call [Execute] of the HTTP parser they are called from, the exception that
    [json::dump] throws in the local storage for properties that are not UTF-8, and the
    byte that [Base64Decode] reads behind the end of its text, which does not change
    its result. *)

From Stdlib Require Export ZArith Lia.
From Stdlib Require Strings.Byte.
From stdpp Require Export base tactics numbers list gmap strings pretty.

(** ** Record updates

    [r <| f := v |>] is [r] with field [f] set to [v], the assignment
    [r.f = v] of the C++ sources.  [Eta R] names the eta expansion of a record
    type; the update of a field is computed from it, so an updated record
    unfolds to constructor form and every projection of it computes. *)

Class Eta (R : Type) := eta : R -> R.
Class FieldUpd {R E : Type} (getter : R -> E) := fupd : (E -> E) -> R -> R.
#[global] Hint Mode Eta ! : typeclass_instances.

Ltac solve_field_upd :=
  lazymatch goal with
  | |- @FieldUpd ?R ?E ?g =>
      let inst := constr:(_ : Eta R) in
      let i := eval red in inst in
      lazymatch eval pattern g in i with
      | ?f _ =>
          let u := eval cbv beta in (fun up : E -> E => f (fun r => up (g r))) in
          exact u
      end
  end.
#[global] Hint Extern 1 (FieldUpd _) => solve_field_upd : typeclass_instances.
Arguments fupd {R E} getter {_} up r : rename.

Declare Scope nt_scope.
Delimit Scope nt_scope with nt.
#[warnings="-postfix-notation-not-level-1"]
Notation "r <| f := v |>" := (fupd f (fun _ => v) r)
  (at level 12, f at next level, left associativity,
   format "r  <| f  :=  v |>") : nt_scope.
#[warnings="-postfix-notation-not-level-1"]
Notation "r <| f ::= g |>" := (fupd f g r)
  (at level 12, f at next level, left associativity,
   format "r  <| f  ::=  g |>") : nt_scope.
#[global] Open Scope nt_scope.

(** ** Machine integers

    A [w]-bit unsigned integer is a [Z] in [[0, 2^w)]; [wrap w] is the
    conversion to it, which C++ defines as reduction modulo [2^w].  An [int64_t]
    is a [Z]; [swrap 64] is the two's complement reading of 64 bits. *)

Definition wrap (w z : Z) : Z := z `mod` 2 ^ w.
Definition swrap (w z : Z) : Z := (z + 2 ^ (w - 1)) `mod` 2 ^ w - 2 ^ (w - 1).

Lemma wrap_range w z : (0 <= w)%Z -> (0 <= wrap w z < 2 ^ w)%Z.
Proof. intros Hw. apply Z.mod_pos_bound. by apply Z.pow_pos_nonneg. Qed.

Lemma wrap_small w z : (0 <= z < 2 ^ w)%Z -> wrap w z = z.
Proof. intros Hz. by apply Z.mod_small. Qed.

Lemma wrap_wrap w z : wrap w (wrap w z) = wrap w z.
Proof.
  unfold wrap. destruct (decide (2 ^ w = 0)%Z) as [->|Hw].
  - by rewrite !Z.mod_0_r.
  - by rewrite Z.mod_mod.
Qed.

Lemma wrap_wrap_le w v z : (0 <= w <= v)%Z -> wrap w (wrap v z) = wrap w z.
Proof.
  intros Hw. unfold wrap.
  replace (2 ^ v)%Z with (2 ^ (v - w) * 2 ^ w)%Z
    by (rewrite <- Z.pow_add_r by lia; f_equal; lia).
  assert (0 < 2 ^ w)%Z by (apply Z.pow_pos_nonneg; lia).
  assert (0 < 2 ^ (v - w))%Z by (apply Z.pow_pos_nonneg; lia).
  apply Z.mod_mod_divide. by exists (2 ^ (v - w))%Z.
Qed.

Lemma swrap_small w z :
  (0 < w)%Z -> (- 2 ^ (w - 1) <= z < 2 ^ (w - 1))%Z -> swrap w z = z.
Proof.
  intros Hw Hz. unfold swrap.
  assert (2 ^ w = 2 ^ (w - 1) + 2 ^ (w - 1))%Z as E.
  { replace w with (Z.succ (w - 1)) at 1 by lia.
    rewrite Z.pow_succ_r by lia. lia. }
  rewrite Z.mod_small by lia. lia.
Qed.

(** The accumulation step [(acc << k) | b] of the byte readers is
    positional notation as long as [b] fits in the low [k] bits. *)
Lemma lor_shiftl_add acc b k :
  (0 <= k)%Z -> (0 <= b < 2 ^ k)%Z ->
  Z.lor (Z.shiftl acc k) b = (acc * 2 ^ k + b)%Z.
Proof.
  intros Hk Hb. rewrite <- Z.shiftl_mul_pow2 by lia.
  rewrite <- Z.add_lor_land.
  enough (Z.land (Z.shiftl acc k) b = 0)%Z by lia. apply Z.bits_inj'. intros i Hi.
  rewrite Z.land_spec, Z.bits_0, Z.shiftl_spec by lia.
  destruct (decide (i < k)%Z).
  - by rewrite Z.testbit_neg_r by lia.
  - destruct (decide (b = 0)%Z) as [->|]; [by rewrite Z.bits_0, andb_false_r|].
    rewrite (Z.bits_above_log2 b); [by rewrite andb_false_r|lia|].
    apply Z.log2_lt_pow2; [lia|].
    eapply Z.lt_le_trans; [apply Hb|]. apply Z.pow_le_mono_r; lia.
Qed.

(** ** Bytes and strings

    The wire and [std::string] carry bytes; [ub] is the value of a [uint8_t]
    and [u8] the conversion [static_cast<uint8_t>]. *)

Abbreviation byte := Corelib.Init.Byte.byte.
Abbreviation bytes := (list byte).

#[global] Instance byte_eq_dec : EqDecision byte := Byte.byte_eq_dec.

Definition ub (b : byte) : Z := Z.of_N (Byte.to_N b).
Definition u8 (z : Z) : byte := default Byte.x00 (Byte.of_N (Z.to_N (wrap 8 z))).

Lemma ub_range b : (0 <= ub b < 256)%Z.
Proof. unfold ub. pose proof (Byte.to_N_bounded b). lia. Qed.

Lemma ub_u8 z : ub (u8 z) = wrap 8 z.
Proof.
  unfold u8, ub. pose proof (wrap_range 8 z ltac:(lia)) as Hz.
  destruct (Byte.of_N (Z.to_N (wrap 8 z))) as [b|] eqn:E; simpl.
  - apply Byte.to_of_N in E. lia.
  - apply Byte.of_N_None_iff in E. change (2 ^ 8)%Z with 256%Z in Hz. lia.
Qed.

Lemma u8_ub b : u8 (ub b) = b.
Proof.
  unfold u8. rewrite wrap_small by apply ub_range.
  unfold ub. by rewrite N2Z.id, Byte.of_to_N.
Qed.

#[global] Instance ub_inj : Inj (=) (=) ub.
Proof. intros a b E. by rewrite <- (u8_ub a), E, u8_ub. Qed.

Lemma u8_wrap w z : (8 <= w)%Z -> u8 (wrap w z) = u8 z.
Proof. intros Hw. apply (inj ub). by rewrite !ub_u8, wrap_wrap_le by lia. Qed.

Definition bytes_of_string : string -> bytes := String.list_byte_of_string.
Definition string_of_bytes : bytes -> string := String.string_of_list_byte.

Lemma string_of_bytes_of_string s : string_of_bytes (bytes_of_string s) = s.
Proof. apply String.string_of_list_byte_of_string. Qed.

Lemma bytes_of_string_of_bytes bs : bytes_of_string (string_of_bytes bs) = bs.
Proof. apply String.list_byte_of_string_of_list_byte. Qed.

Lemma bytes_of_string_app a b : bytes_of_string (a +:+ b) = bytes_of_string a ++ bytes_of_string b.
Proof. induction a as [|c a IH]; [done|]. change (bytes_of_string (String c a +:+ b)) with (Ascii.byte_of_ascii c :: bytes_of_string (a +:+ b)). by rewrite IH. Qed.
Lemma length_bytes_of_string s : length (bytes_of_string s) = String.length s.
Proof.
  unfold bytes_of_string, String.list_byte_of_string.
  rewrite length_map. induction s; simpl; congruence.
Qed.

(** The double quote *)
Definition dq : string := string_of_bytes [u8 0x22].

(** The length of a container as a [size_t]. *)
Definition zlen {A} (l : list A) : Z := Z.of_nat (length l).

Lemma zlen_nonneg {A} (l : list A) : (0 <= zlen l)%Z.
Proof. unfold zlen. lia. Qed.
Lemma zlen_app {A} (l k : list A) : zlen (l ++ k) = (zlen l + zlen k)%Z.
Proof. unfold zlen. rewrite length_app. lia. Qed.
Lemma zlen_cons {A} (x : A) l : zlen (x :: l) = (1 + zlen l)%Z.
Proof. unfold zlen. simpl. lia. Qed.
Lemma zlen_nil {A} : zlen (@nil A) = 0%Z.
Proof. done. Qed.

(** ** Big-endian bytes *)

Section BigEndian.
Local Open Scope Z_scope.
Definition be_combine (bs : bytes) : Z := foldl (fun acc b => acc * 256 + ub b) 0 bs.

Fixpoint be_split (n : nat) (v : Z) : bytes :=
  match n with
  | O => []
  | S n => be_split n (Z.shiftr v 8) ++ [u8 v]
  end.

Lemma length_be_split n v : length (be_split n v) = n.
Proof.
  revert v. induction n as [|n IH]; intros v; [done|]. simpl.
  rewrite length_app, IH. simpl. lia.
Qed.

Lemma be_combine_split n v : be_combine (be_split n v) = wrap (8 * Z.of_nat n) v.
Proof.
  unfold be_combine. revert v. induction n as [|n IH]; intros v.
  - unfold wrap. simpl. by rewrite Z.mod_1_r.
  - cbn [be_split]. rewrite foldl_app, IH. simpl. rewrite ub_u8. unfold wrap.
    replace (8 * Z.of_nat (S n)) with (8 + 8 * Z.of_nat n) by lia.
    rewrite Z.pow_add_r by lia. change (2 ^ 8) with 256.
    rewrite Z.shiftr_div_pow2 by lia. change (2 ^ 8) with 256.
    rewrite Z.rem_mul_r; [lia|lia|]. apply Z.pow_pos_nonneg; lia.
Qed.
End BigEndian.

(** ** Loops

    [while_ body n s] runs the C++ loop whose iteration is [body]: [Some s']
    after one more turn, [None] when the loop is left.  The fuel [n] is only a
    bound for the kernel; under a measure that the body decreases the loop has
    really been left when [while_] returns ([while_exit]), and the fuel does not
    matter ([while_fuel]). *)

Section While.
Context {S : Type} (body : S -> option S).

Fixpoint while_ (n : nat) (s : S) : S :=
  match n with
  | O => s
  | Datatypes.S n =>
      match body s with
      | None => s
      | Some s' => while_ n s'
      end
  end.

Context (P : S -> Prop) (mu : S -> nat).
Hypothesis body_dec : forall s s', P s -> body s = Some s' -> P s' /\ mu s' < mu s.

Lemma while_exit n s : P s -> mu s < n -> body (while_ n s) = None /\ P (while_ n s).
Proof using body_dec.
  revert s. induction n as [|n IH]; intros s HP Hn; [lia|]. simpl.
  destruct (body s) as [s'|] eqn:E; [|done].
  destruct (body_dec s s' HP E). apply IH; [done|lia].
Qed.

Lemma while_fuel n m s : P s -> mu s < n -> mu s < m -> while_ n s = while_ m s.
Proof using body_dec.
  revert m s. induction n as [|n IH]; intros [|m] s HP Hn Hm; try lia. simpl.
  destruct (body s) as [s'|] eqn:E; [|done].
  destruct (body_dec s s' HP E). apply IH; [done|lia|lia].
Qed.

Lemma while_unfold n s :
  P s -> mu s < n ->
  while_ n s = match body s with None => s | Some s' => while_ n s' end.
Proof using body_dec.
  intros HP Hn. rewrite (while_fuel n (Datatypes.S n)) by (done || lia). done.
Qed.
End While.
