(* ===== verification/NtTypes.v ===== *)
(** * NtTypes: value types and values

    [NT_Type] and the flag enumerations of [ntcore_c.h], the type-string
    functions of [Types_internal.cpp], and [nt::Value] ([NetworkTableValue.h],
    [Value.cpp], [Value_internal.cpp]).  A value is its typed data together with
    its two time stamps; the [shared_ptr] storage behind the C struct is
    immutable once a value is made, so it is modelled by the data it holds. *)

From Stdlib Require Import Floats.SpecFloat.
From S2P Require Import Prelude.

(** * Ieee754: the [float] and [double] conversions of the sources

    A [float] or [double] is its bit pattern, a 32- or 64-bit [Z]: the wire
    formats, [memcmp] in [operator==] and [wpi::BitsToDouble] /
    [wpi::DoubleToBits] work on it.  The conversions C++ performs implicitly
    ([static_cast<double>] and the like) are computed from the Standard Library's
    specification of binary floating point arithmetic ([SpecFloat]), rounding to
    nearest, ties to even. *)

Local Open Scope Z_scope.

(** A binary interchange format: [mw] mantissa bits, [ew] exponent bits. *)
Record format := Format { mw : Z; ew : Z }.
Definition binary32 : format := Format 23 8.
Definition binary64 : format := Format 52 11.

Section Format.
Context (fmt : format).
Definition prec : Z := mw fmt + 1.
Definition emax : Z := 2 ^ (ew fmt - 1).
Definition bias : Z := emax - 1.

Definition sign_bit (x : Z) : bool := Z.testbit x (mw fmt + ew fmt).
Definition exp_field (x : Z) : Z := Z.shiftr x (mw fmt) `mod` 2 ^ ew fmt.
Definition man_field (x : Z) : Z := x `mod` 2 ^ mw fmt.

Definition join (s : bool) (e m : Z) : Z :=
  (if s then 2 ^ (mw fmt + ew fmt) else 0) + e * 2 ^ mw fmt + m.

(** The value of a bit pattern. *)
Definition of_bits (x : Z) : spec_float :=
  let s := sign_bit x in
  let e := exp_field x in
  let m := man_field x in
  if e =? 2 ^ ew fmt - 1 then
    if m =? 0 then S754_infinity s else S754_nan
  else if e =? 0 then
    match m with
    | Z.pos p => S754_finite s p (1 - bias - mw fmt)
    | _ => S754_zero s
    end
  else
    match m + 2 ^ mw fmt with
    | Z.pos p => S754_finite s p (e - bias - mw fmt)
    | _ => S754_nan
    end.

(** The bit pattern of a value; the not-a-number value gets the quiet
    pattern with an empty payload. *)
Definition to_bits (f : spec_float) : Z :=
  match f with
  | S754_zero s => join s 0 0
  | S754_infinity s => join s (2 ^ ew fmt - 1) 0
  | S754_nan => join false (2 ^ ew fmt - 1) (2 ^ (mw fmt - 1))
  | S754_finite s m e =>
      if Z.pos m <? 2 ^ mw fmt then join s 0 (Z.pos m)
      else join s (e + bias + mw fmt) (Z.pos m - 2 ^ mw fmt)
  end.

(** [static_cast] from a signed integer. *)
Definition of_int (z : Z) : Z := to_bits (binary_normalize prec emax z 0 false).

(** [static_cast<int64_t>]: truncation towards zero; [None] where C++ leaves
    the conversion undefined. *)
Definition to_int64 (x : Z) : option Z :=
  match of_bits x with
  | S754_zero _ => Some 0
  | S754_finite s m e =>
      let a := if 0 <=? e then Z.pos m * 2 ^ e else Z.pos m / 2 ^ (- e) in
      let z := if s then - a else a in
      if (- 2 ^ 63 <=? z) && (z <? 2 ^ 63) then Some z else None
  | _ => None
  end.

(** [==] on two numbers: not-a-number is unequal to everything and the two
    zeros are equal. *)
Definition feqb (x y : Z) : bool := SFeqb (of_bits x) (of_bits y).
End Format.

(** Conversion between formats. *)
Definition convert (src dst : format) (x : Z) : Z :=
  match of_bits src x with
  | S754_finite s m e =>
      to_bits dst (binary_normalize (prec dst) (emax dst)
                     (if s then Z.neg m else Z.pos m) e s)
  | f => to_bits dst f
  end.

Definition f64_of_f32 : Z -> Z := convert binary32 binary64.
Definition f32_of_f64 : Z -> Z := convert binary64 binary32.
Definition f64_of_int : Z -> Z := of_int binary64.
Definition f32_of_int : Z -> Z := of_int binary32.
Definition int_of_f64 : Z -> option Z := to_int64 binary64.
Definition int_of_f32 : Z -> option Z := to_int64 binary32.

Example f64_of_int_ex : f64_of_int 3 = 0x4008000000000000.
Proof. reflexivity. Qed.
Example f64_of_int_neg : f64_of_int (-1) = 0xbff0000000000000.
Proof. reflexivity. Qed.
Example f64_of_f32_ex : f64_of_f32 0x40490fdb = 0x400921fb60000000.
Proof. reflexivity. Qed.
Example f32_of_f64_ex : f32_of_f64 0x400921fb54442d18 = 0x40490fdb.
Proof. reflexivity. Qed.
Example int_of_f64_ex : int_of_f64 0xc009000000000000 = Some (-3).
Proof. reflexivity. Qed.
Example feqb_zeros : feqb binary64 0 0x8000000000000000 = true.
Proof. reflexivity. Qed.
Example feqb_nan : feqb binary64 0x7ff8000000000000 0x7ff8000000000000 = false.
Proof. reflexivity. Qed.

(** A 64-bit pattern produced by [to_bits] fits its width. *)
Lemma join_range fmt s e m :
  0 <= mw fmt -> 0 <= ew fmt ->
  0 <= e < 2 ^ ew fmt -> 0 <= m < 2 ^ mw fmt ->
  0 <= join fmt s e m < 2 ^ (mw fmt + ew fmt + 1).
Proof.
  intros Hm He Hef Hmf. unfold join.
  replace (mw fmt + ew fmt + 1) with (Z.succ (mw fmt + ew fmt)) by lia.
  rewrite Z.pow_succ_r by lia.
  assert (2 ^ (mw fmt + ew fmt) = 2 ^ mw fmt * 2 ^ ew fmt) as E
    by (rewrite Z.pow_add_r by lia; lia).
  assert (0 < 2 ^ mw fmt) by (apply Z.pow_pos_nonneg; lia).
  assert (e * 2 ^ mw fmt + m < 2 ^ mw fmt * 2 ^ ew fmt) by nia.
  destruct s; rewrite ?E; nia.
Qed.

Local Open Scope Z_scope.

(** ** Types *)

Inductive NT_Type :=
| NT_UNASSIGNED | NT_BOOLEAN | NT_DOUBLE | NT_STRING | NT_RAW
| NT_BOOLEAN_ARRAY | NT_DOUBLE_ARRAY | NT_STRING_ARRAY | NT_RPC
| NT_INTEGER | NT_FLOAT | NT_INTEGER_ARRAY | NT_FLOAT_ARRAY.

#[global] Instance NT_Type_eq_dec : EqDecision NT_Type.
Proof. solve_decision. Defined.

(** The enumerators' values; they are bits, so that sets of types are masks. *)
Definition NT_Type_bits (t : NT_Type) : Z :=
  match t with
  | NT_UNASSIGNED => 0 | NT_BOOLEAN => 0x01 | NT_DOUBLE => 0x02
  | NT_STRING => 0x04 | NT_RAW => 0x08 | NT_BOOLEAN_ARRAY => 0x10
  | NT_DOUBLE_ARRAY => 0x20 | NT_STRING_ARRAY => 0x40 | NT_RPC => 0x80
  | NT_INTEGER => 0x100 | NT_FLOAT => 0x200 | NT_INTEGER_ARRAY => 0x400
  | NT_FLOAT_ARRAY => 0x800
  end.

Definition NT_PERSISTENT : Z := 0x01.
Definition NT_RETAINED : Z := 0x02.

Definition NT_EVENT_NONE : Z := 0.
Definition NT_EVENT_IMMEDIATE : Z := 0x01.
Definition NT_EVENT_CONNECTED : Z := 0x02.
Definition NT_EVENT_DISCONNECTED : Z := 0x04.
Definition NT_EVENT_CONNECTION : Z := Z.lor NT_EVENT_CONNECTED NT_EVENT_DISCONNECTED.
Definition NT_EVENT_PUBLISH : Z := 0x08.
Definition NT_EVENT_UNPUBLISH : Z := 0x10.
Definition NT_EVENT_PROPERTIES : Z := 0x20.
Definition NT_EVENT_TOPIC : Z :=
  Z.lor NT_EVENT_PUBLISH (Z.lor NT_EVENT_UNPUBLISH NT_EVENT_PROPERTIES).
Definition NT_EVENT_VALUE_REMOTE : Z := 0x40.
Definition NT_EVENT_VALUE_LOCAL : Z := 0x80.
Definition NT_EVENT_VALUE_ALL : Z := Z.lor NT_EVENT_VALUE_REMOTE NT_EVENT_VALUE_LOCAL.
Definition NT_EVENT_LOGMESSAGE : Z := 0x100.
Definition NT_EVENT_TIMESYNC : Z := 0x200.

(** [(x & m) != 0] *)
Definition has_bits (x m : Z) : bool := negb (Z.land x m =? 0).

Definition TypeToString (type : NT_Type) : string :=
  match type with
  | NT_BOOLEAN => "boolean"
  | NT_DOUBLE => "double"
  | NT_STRING => "string"
  | NT_BOOLEAN_ARRAY => "boolean[]"
  | NT_DOUBLE_ARRAY => "double[]"
  | NT_STRING_ARRAY => "string[]"
  | NT_RPC => "rpc"
  | NT_INTEGER => "int"
  | NT_FLOAT => "float"
  | NT_INTEGER_ARRAY => "int[]"
  | NT_FLOAT_ARRAY => "float"
  | NT_UNASSIGNED | NT_RAW => "raw"
  end.

Definition StringToType (typeStr : string) : NT_Type :=
  if String.eqb typeStr "boolean" then NT_BOOLEAN
  else if String.eqb typeStr "double" then NT_DOUBLE
  else if String.eqb typeStr "string" || String.eqb typeStr "json" then NT_STRING
  else if String.eqb typeStr "boolean[]" then NT_BOOLEAN_ARRAY
  else if String.eqb typeStr "double[]" then NT_DOUBLE_ARRAY
  else if String.eqb typeStr "string[]" then NT_STRING_ARRAY
  else if String.eqb typeStr "rpc" then NT_RPC
  else if String.eqb typeStr "int" then NT_INTEGER
  else if String.eqb typeStr "float" then NT_FLOAT
  else if String.eqb typeStr "int[]" then NT_INTEGER_ARRAY
  else if String.eqb typeStr "float[]" then NT_FLOAT_ARRAY
  else NT_RAW.

Definition StringToType3 (typeStr : string) : NT_Type :=
  if String.eqb typeStr "boolean" then NT_BOOLEAN
  else if String.eqb typeStr "double" || String.eqb typeStr "int"
          || String.eqb typeStr "float" then NT_DOUBLE
  else if String.eqb typeStr "string" || String.eqb typeStr "json" then NT_STRING
  else if String.eqb typeStr "boolean[]" then NT_BOOLEAN_ARRAY
  else if String.eqb typeStr "double[]" || String.eqb typeStr "int[]"
          || String.eqb typeStr "float[]" then NT_DOUBLE_ARRAY
  else if String.eqb typeStr "string[]" then NT_STRING_ARRAY
  else if String.eqb typeStr "rpc" then NT_RPC
  else NT_RAW.

Definition IsNumeric (type : NT_Type) : bool :=
  has_bits (NT_Type_bits type)
    (Z.lor (NT_Type_bits NT_INTEGER)
       (Z.lor (NT_Type_bits NT_FLOAT) (NT_Type_bits NT_DOUBLE))).

Definition IsNumericArray (type : NT_Type) : bool :=
  has_bits (NT_Type_bits type)
    (Z.lor (NT_Type_bits NT_INTEGER_ARRAY)
       (Z.lor (NT_Type_bits NT_FLOAT_ARRAY) (NT_Type_bits NT_DOUBLE_ARRAY))).

Definition IsNumericCompatible (a b : NT_Type) : bool :=
  (IsNumeric a && IsNumeric b) || (IsNumericArray a && IsNumericArray b).

(** ** Values *)

(** The data of a value; [VBooleanArray] holds [int]s, as the C struct does. *)
Inductive ValueData :=
| VUnassigned
| VBoolean (b : bool)
| VInteger (z : Z)
| VFloat (bits : Z)
| VDouble (bits : Z)
| VString (s : string)
| VRaw (data : bytes)
| VBooleanArray (arr : list Z)
| VIntegerArray (arr : list Z)
| VFloatArray (arr : list Z)
| VDoubleArray (arr : list Z)
| VStringArray (arr : list string).

#[global] Instance ValueData_eq_dec : EqDecision ValueData.
Proof. solve_decision. Defined.

Record Value := MkValue {
  data : ValueData;
  last_change : Z;
  server_time : Z;
}.
#[global] Instance eta_Value : Eta Value :=
  fun v => MkValue (data v) (last_change v) (server_time v).
#[global] Instance Value_eq_dec : EqDecision Value.
Proof. solve_decision. Defined.

Definition data_type (d : ValueData) : NT_Type :=
  match d with
  | VUnassigned => NT_UNASSIGNED | VBoolean _ => NT_BOOLEAN
  | VInteger _ => NT_INTEGER | VFloat _ => NT_FLOAT | VDouble _ => NT_DOUBLE
  | VString _ => NT_STRING | VRaw _ => NT_RAW
  | VBooleanArray _ => NT_BOOLEAN_ARRAY | VIntegerArray _ => NT_INTEGER_ARRAY
  | VFloatArray _ => NT_FLOAT_ARRAY | VDoubleArray _ => NT_DOUBLE_ARRAY
  | VStringArray _ => NT_STRING_ARRAY
  end.

Definition value_type (v : Value) : NT_Type := data_type (data v).
Definition value_time (v : Value) : Z := last_change v.

(** [explicit operator bool] *)
Definition value_valid (v : Value) : bool :=
  negb (bool_decide (value_type v = NT_UNASSIGNED)).

(** [Value::Value()] *)
Definition Value_empty : Value := MkValue VUnassigned 0 0.

(** [Value::Value(type, time)] followed by the assignment of the data: a zero
    time reads the clock, whose value is [now], and the server time is 1. *)
Definition Value_make (now : Z) (d : ValueData) (time : Z) : Value :=
  MkValue d (if time =? 0 then now else time) 1.

(** The factory functions; [now] is what [nt::Now()] returns if it is called. *)
Definition MakeBoolean (now : Z) (value : bool) := Value_make now (VBoolean value).
Definition MakeInteger (now : Z) (value : Z) := Value_make now (VInteger value).
Definition MakeFloat (now : Z) (value : Z) := Value_make now (VFloat value).
Definition MakeDouble (now : Z) (value : Z) := Value_make now (VDouble value).
Definition MakeString (now : Z) (value : string) := Value_make now (VString value).
Definition MakeRaw (now : Z) (value : bytes) := Value_make now (VRaw value).
Definition MakeBooleanArray (now : Z) (value : list Z) := Value_make now (VBooleanArray value).
Definition MakeIntegerArray (now : Z) (value : list Z) := Value_make now (VIntegerArray value).
Definition MakeFloatArray (now : Z) (value : list Z) := Value_make now (VFloatArray value).
Definition MakeDoubleArray (now : Z) (value : list Z) := Value_make now (VDoubleArray value).
Definition MakeStringArray (now : Z) (value : list string) := Value_make now (VStringArray value).

Definition SetTime (t : Z) (v : Value) : Value := v <| last_change := t |>.
Definition SetServerTime (t : Z) (v : Value) : Value := v <| server_time := t |>.

(** [operator==]: scalars compare by value, arrays by [memcmp]. *)
Definition value_eqb (lhs rhs : Value) : bool :=
  match data lhs, data rhs with
  | VUnassigned, VUnassigned => true
  | VBoolean a, VBoolean b => Bool.eqb a b
  | VInteger a, VInteger b => a =? b
  | VFloat a, VFloat b => feqb binary32 a b
  | VDouble a, VDouble b => feqb binary64 a b
  | VString a, VString b => String.eqb a b
  | VRaw a, VRaw b => bool_decide (a = b)
  | VBooleanArray a, VBooleanArray b => bool_decide (a = b)
  | VIntegerArray a, VIntegerArray b => bool_decide (a = b)
  | VFloatArray a, VFloatArray b => bool_decide (a = b)
  | VDoubleArray a, VDoubleArray b => bool_decide (a = b)
  | VStringArray a, VStringArray b => bool_decide (a = b)
  | _, _ => false
  end.

(** ** Numeric conversion ([Value_internal])

    [cast_ub] is what the target produces for a floating point number that
    [int64_t] cannot hold; C++ leaves it undefined. *)

Section Convert.
Context (cast_ub : Z -> Z).

Definition int_of_float (x : Z) : Z := default (cast_ub x) (int_of_f32 x).
Definition int_of_double (x : Z) : Z := default (cast_ub x) (int_of_f64 x).

(** [GetNumericAs<int64_t>], [<float>] and [<double>] *)
Definition GetNumericAs_int (v : Value) : Z :=
  match data v with
  | VInteger z => z
  | VFloat x => int_of_float x
  | VDouble x => int_of_double x
  | _ => 0
  end.
Definition GetNumericAs_float (v : Value) : Z :=
  match data v with
  | VInteger z => f32_of_int z
  | VFloat x => x
  | VDouble x => f32_of_f64 x
  | _ => 0
  end.
Definition GetNumericAs_double (v : Value) : Z :=
  match data v with
  | VInteger z => f64_of_int z
  | VFloat x => f64_of_f32 x
  | VDouble x => x
  | _ => 0
  end.

Definition GetNumericArrayAs_int (v : Value) : list Z :=
  match data v with
  | VIntegerArray a => a
  | VFloatArray a => int_of_float <$> a
  | VDoubleArray a => int_of_double <$> a
  | _ => []
  end.
Definition GetNumericArrayAs_float (v : Value) : list Z :=
  match data v with
  | VIntegerArray a => f32_of_int <$> a
  | VFloatArray a => a
  | VDoubleArray a => f32_of_f64 <$> a
  | _ => []
  end.
Definition GetNumericArrayAs_double (v : Value) : list Z :=
  match data v with
  | VIntegerArray a => f64_of_int <$> a
  | VFloatArray a => f64_of_f32 <$> a
  | VDoubleArray a => a
  | _ => []
  end.

(** A value with time 0 is re-stamped with the clock reading [now] by the
    [Make] functions. *)
Definition ConvertNumericValue (now : Z) (v : Value) (type : NT_Type) : Value :=
  let server := SetServerTime (server_time v) in
  match type with
  | NT_INTEGER => server (MakeInteger now (GetNumericAs_int v) (value_time v))
  | NT_FLOAT => server (MakeFloat now (GetNumericAs_float v) (value_time v))
  | NT_DOUBLE => server (MakeDouble now (GetNumericAs_double v) (value_time v))
  | NT_INTEGER_ARRAY =>
      server (MakeIntegerArray now (GetNumericArrayAs_int v) (value_time v))
  | NT_FLOAT_ARRAY =>
      server (MakeFloatArray now (GetNumericArrayAs_float v) (value_time v))
  | NT_DOUBLE_ARRAY =>
      server (MakeDoubleArray now (GetNumericArrayAs_double v) (value_time v))
  | _ => Value_empty
  end.
End Convert.

(** ** Theorems *)

Lemma convert_type (cast_ub : Z -> Z) (now : Z) (v : Value) (t : NT_Type) :
  IsNumericCompatible t (value_type v) = true ->
  value_type (ConvertNumericValue cast_ub now v t) = t.
Proof.
  unfold value_type. destruct v as [d ? ?]. simpl. by destruct d, t.
Qed.

(** [StringToType] is a left inverse of [TypeToString] on the data types, with
    one exception: the name of a float array is printed as ["float"], which reads
    back as a float. *)
Theorem type_string_roundtrip (t : NT_Type) :
  t <> NT_UNASSIGNED ->
  StringToType (TypeToString t)
  = (if decide (t = NT_FLOAT_ARRAY) then NT_FLOAT else t).
Proof. by destruct t. Qed.

Lemma type_string_roundtrip_witness : StringToType (TypeToString NT_INTEGER_ARRAY) = NT_INTEGER_ARRAY.
Proof. apply (type_string_roundtrip NT_INTEGER_ARRAY). discriminate. Defined.

(** Converting a value to a numerically compatible type gives a value of that
    type with the same server time, the same time unless it was 0, and the same
    number of elements; converting a value with a time to its own type changes
    nothing. *)
Theorem ConvertNumericValue_spec (cast_ub : Z -> Z) (now : Z) (v : Value) (t : NT_Type) :
  IsNumericCompatible (value_type v) t = true ->
  let r := ConvertNumericValue cast_ub now v t in
  value_type r = t /\ server_time r = server_time v /\
  value_time r = (if value_time v =? 0 then now else value_time v) /\
  (value_type v = t -> value_time v <> 0 -> r = v) /\
  length (GetNumericArrayAs_double r) = length (GetNumericArrayAs_double v).
Proof.
  intros Hc r. unfold r, value_type in *. destruct v as [d lc st]. simpl in *.
  destruct d, t; try discriminate Hc; simpl;
    split_and!; try done.
  all: first
    [ intros _ Hz; cbv [SetServerTime fupd Value_make]; unfold value_time in *;
      simpl in *; by rewrite (proj2 (Z.eqb_neq _ _) Hz)
    | cbv [GetNumericArrayAs_double GetNumericArrayAs_float GetNumericArrayAs_int
           SetServerTime Value_make MakeIntegerArray MakeFloatArray MakeDoubleArray
           fupd data]; by rewrite !length_fmap ].
Qed.

Lemma ConvertNumericValue_spec_witness :
  ConvertNumericValue (fun _ => 0) 9 (MkValue (VInteger 3) 5 7) NT_DOUBLE
  = MkValue (VDouble 0x4008000000000000) 5 7 /\
  value_type (ConvertNumericValue (fun _ => 0) 9 (MkValue (VInteger 3) 5 7) NT_DOUBLE)
  = NT_DOUBLE.
Proof.
  split; [reflexivity|].
  apply (ConvertNumericValue_spec (fun _ => 0) 9 (MkValue (VInteger 3) 5 7) NT_DOUBLE).
  reflexivity.
Defined.
