(* ===== verification/Streams.v ===== *)
(** * Streams: incremental readers

    The decoders consume a [std::span<const uint8_t>]: they are called with
    whatever bytes have arrived, keep partial state between calls, and leave the
    unread rest in the span.  [reader S A] is such a function with explicit
    state; [chunkable] is the contract every detail decoder offers to the message
    decoder: cutting the input in two does not change what is read. *)

From S2P Require Import Prelude.

Definition reader (S A : Type) : Type := S -> bytes -> option A * S * bytes.

Section Chunkable.
Context {S A : Type} (I : S -> Prop).

(** A reader that returns a value would have returned the same value with more
    input behind; a reader that returns none has consumed everything, and
    resuming it on further input is the same as having had that input from the
    start.  [I] is the reader's state invariant. *)
Definition chunkable (rd : reader S A) : Prop :=
  forall s a, I s ->
    match rd s a with
    | (Some v, s', r) => I s' /\ forall b, rd s (a ++ b) = (Some v, s', r ++ b)
    | (None, s', r) => I s' /\ r = [] /\ forall b, b <> [] -> rd s (a ++ b) = rd s' b
    end.

(** A reader that returns a value has consumed at least one byte. *)
Definition progress (rd : reader S A) : Prop :=
  forall s a v s' r, I s -> rd s a = (Some v, s', r) -> length r < length a.

Lemma chunkable_some rd s a v s' r :
  chunkable rd -> I s -> rd s a = (Some v, s', r) ->
  I s' /\ forall b, rd s (a ++ b) = (Some v, s', r ++ b).
Proof. intros Hc HI E. specialize (Hc s a HI). by rewrite E in Hc. Qed.

Lemma chunkable_none rd s a s' r :
  chunkable rd -> I s -> rd s a = (None, s', r) ->
  I s' /\ r = [] /\ forall b, b <> [] -> rd s (a ++ b) = rd s' b.
Proof. intros Hc HI E. specialize (Hc s a HI). by rewrite E in Hc. Qed.
End Chunkable.

(** Mapping a function over the value read. *)
Definition rmap {S A B} (f : A -> B) (rd : reader S A) : reader S B :=
  fun s a => let '(o, s', r) := rd s a in (f <$> o, s', r).

Lemma chunkable_rmap {S A B} (I : S -> Prop) (f : A -> B) rd :
  chunkable I rd -> chunkable I (rmap f rd).
Proof.
  intros Hc s a HI. unfold rmap.
  specialize (Hc s a HI). destruct (rd s a) as [[[v|] s'] r]; simpl in *.
  - destruct Hc as (? & Hc). split; [done|]. intros b. by rewrite Hc.
  - destruct Hc as (? & ? & Hc). split_and!; try done.
    intros b Hb. by rewrite Hc.
Qed.

Lemma progress_rmap {S A B} (I : S -> Prop) (f : A -> B) rd :
  progress I rd -> progress I (rmap f rd).
Proof.
  intros Hp s a v s' r HI. unfold rmap.
  destruct (rd s a) as [[[w|] t] q] eqn:E; simpl; intros ?; simplify_eq.
  by eapply Hp.
Qed.

(** One byte. *)
Definition read_byte {S} : reader S Z := fun s inp =>
  match inp with
  | [] => (None, s, [])
  | b :: inp => (Some (ub b), s, inp)
  end.

Lemma read_byte_chunkable {S} (I : S -> Prop) : chunkable I read_byte.
Proof. intros s [|x a] HI; simpl; [|done]. split_and!; try done. Qed.

Lemma read_byte_progress {S} (I : S -> Prop) : progress I read_byte.
Proof. intros s [|x a] v s' r HI; simpl; intros ?; simplify_eq; simpl; lia. Qed.

(** ** Arrays of elements

    The loops [while (!in->empty() && arr.size() < size) if (auto val = rd(in))
    arr.emplace_back(...)] of [WDImpl::ReadValue]: the array [arr] and the size are
    part of the state. *)

Section Elems.
Context {S A : Type} (rd : reader S A).
Context (size : S -> Z) (count : S -> Z) (push : A -> S -> S).

Definition elems_body (st : S * bytes) : option (S * bytes) :=
  let '(s, inp) := st in
  if bool_decide (inp = []) || (size s <=? count s)%Z then None
  else
    let '(o, s', inp') := rd s inp in
    Some (match o with Some v => push v s' | None => s' end, inp').

Definition read_elems (s : S) (inp : bytes) : S * bytes :=
  while_ elems_body (Datatypes.S (length inp)) (s, inp).

Context (I : S -> Prop) (Hc : chunkable I rd) (Hp : progress I rd).
Context (Hpush : forall v s, I s -> (count s < size s)%Z -> I (push v s)).
Context (size_push : forall v s, size (push v s) = size s).
Context (count_push : forall v s, count (push v s) = (count s + 1)%Z).
Context (rd_keeps : forall s inp,
  size (rd s inp).1.2 = size s /\ count (rd s inp).1.2 = count s).

Lemma rd_keeps' s inp o s' r :
  rd s inp = (o, s', r) -> size s' = size s /\ count s' = count s.
Proof using rd_keeps. intros E. pose proof (rd_keeps s inp) as Hk. by rewrite E in Hk. Qed.

Lemma elems_body_dec st st' :
  I st.1 -> elems_body st = Some st' -> I st'.1 /\ length st'.2 < length st.2.
Proof using Hc Hp Hpush rd_keeps.
  destruct st as [s inp]. simpl. intros HI.
  destruct (bool_decide (inp = []) || _) eqn:E; [done|].
  apply orb_false_iff in E as [E1 E2]. apply bool_decide_eq_false in E1.
  apply Z.leb_gt in E2.
  destruct (rd s inp) as [[[v|] s'] r] eqn:Er; intros ?; simplify_eq; simpl;
    destruct (rd_keeps' _ _ _ _ _ Er) as [Es Ec].
  - destruct (chunkable_some I rd s inp v s' r Hc HI Er) as [? _].
    split; [apply Hpush; [done|lia]|]. by apply (Hp s inp v s' r).
  - destruct (chunkable_none I rd s inp s' r Hc HI Er) as (? & -> & _).
    split; [done|]. destruct inp; simpl; [done|lia].
Qed.

Lemma read_elems_unfold s inp :
  I s ->
  read_elems s inp =
  match elems_body (s, inp) with
  | None => (s, inp)
  | Some (s', inp') => read_elems s' inp'
  end.
Proof using Hc Hp Hpush rd_keeps.
  intros HI. unfold read_elems.
  rewrite (while_unfold elems_body (fun st => I st.1) (fun st => length st.2)
    elems_body_dec) by (done || simpl; lia).
  destruct (elems_body (s, inp)) as [[s' inp']|] eqn:E; [|done].
  destruct (elems_body_dec (s, inp) _ HI E) as [HI' Hl]. simpl in HI', Hl.
  apply (while_fuel elems_body (fun st => I st.1) (fun st => length st.2)
    elems_body_dec); simpl; (done || lia).
Qed.

Lemma read_elems_stop s inp :
  I s -> (size s <= count s)%Z -> read_elems s inp = (s, inp).
Proof using Hc Hp Hpush rd_keeps.
  intros HI Hs. rewrite read_elems_unfold by done. simpl.
  by rewrite (proj2 (Z.leb_le _ _) Hs), orb_true_r.
Qed.

Lemma read_elems_nil s : I s -> read_elems s [] = (s, []).
Proof using Hc Hp Hpush rd_keeps. intros HI. by rewrite read_elems_unfold. Qed.

Lemma read_elems_cons s inp :
  I s -> inp <> [] -> (count s < size s)%Z ->
  read_elems s inp =
  let '(o, s', inp') := rd s inp in
  read_elems (match o with Some v => push v s' | None => s' end) inp'.
Proof using Hc Hp Hpush rd_keeps.
  intros HI Hne Hs. rewrite read_elems_unfold by done. simpl.
  rewrite (proj2 (Z.leb_gt _ _) Hs), bool_decide_eq_false_2 by done. simpl.
  by destruct (rd s inp) as [[o s'] inp'].
Qed.

(** The loop either has filled the array, and then more input behind changes
    nothing, or it has used up the input and can be resumed. *)
Lemma read_elems_chunk s a :
  I s -> (count s <= size s)%Z ->
  let '(s1, r1) := read_elems s a in
  I s1 /\ length r1 <= length a /\ size s1 = size s /\
  ((count s1 = size s /\ forall b, read_elems s (a ++ b) = (s1, r1 ++ b)) \/
   ((count s1 < size s)%Z /\ r1 = [] /\
    forall b, read_elems s (a ++ b) = read_elems s1 b)).
Proof using Hc Hp Hpush rd_keeps size_push count_push.
  remember (length a) as n eqn:Hn. revert s a Hn.
  induction n as [n IH] using lt_wf_ind; intros s a Hn HI Hs.
  destruct (decide (count s < size s)%Z) as [Hlt|Hge].
  2:{ rewrite read_elems_stop by (done || lia). split_and!; [done|lia|done|].
      left. split; [lia|]. intros b. apply read_elems_stop; [done|lia]. }
  destruct (decide (a = [])) as [->|Ha].
  { rewrite read_elems_nil by done. split_and!; [done|simpl; lia|done|]. right.
    split_and!; done. }
  rewrite read_elems_cons by done.
  destruct (rd s a) as [[[v|] s'] r] eqn:Er; destruct (rd_keeps' _ _ _ _ _ Er) as [Es Ec].
  - destruct (chunkable_some I rd s a v s' r Hc HI Er) as [HI' Hb].
    assert (length r < length a) by (by apply (Hp s a v s' r)).
    specialize (IH (length r) ltac:(lia) (push v s') r eq_refl
      (Hpush _ _ HI' ltac:(lia))).
    rewrite size_push, count_push in IH. specialize (IH ltac:(lia)).
    destruct (read_elems (push v s') r) as [s1 r1].
    destruct IH as (? & ? & ? & IH). rewrite Es in *.
    split_and!; [done|lia|done|].
    assert (Hab : forall b, read_elems s (a ++ b) = read_elems (push v s') (r ++ b)).
    { intros b. rewrite read_elems_cons by (done || by destruct a). by rewrite Hb. }
    destruct IH as [[? IH]|(? & ? & IH)]; [left|right]; split_and!; try done;
      intros b; by rewrite Hab, IH.
  - destruct (chunkable_none I rd s a s' r Hc HI Er) as (HI' & -> & Hb).
    rewrite read_elems_nil by done. split_and!; [done|simpl; lia|done|]. right.
    split_and!; [lia|done|]. intros b.
    destruct (decide (b = [])) as [->|Hne].
    { rewrite app_nil_r, read_elems_nil, read_elems_cons by done. rewrite Er.
      by rewrite read_elems_nil. }
    rewrite !read_elems_cons by (done || (by destruct a) || lia). by rewrite Hb.
Qed.

(** What the reader and [push] leave alone, the loop leaves alone. *)
Lemma read_elems_keeps {T} (f : S -> T) s a :
  (forall s inp, f (rd s inp).1.2 = f s) -> (forall v s, f (push v s) = f s) ->
  f (read_elems s a).1 = f s.
Proof.
  intros Hr Hpu. unfold read_elems. generalize (Datatypes.S (length a)). intros n.
  revert s a. induction n as [|n IH]; intros s a; [done|]. simpl.
  destruct (bool_decide (a = []) || _); [done|]. specialize (Hr s a).
  destruct (rd s a) as [[[v|] s'] r]; simpl in *; rewrite IH; congruence.
Qed.
End Elems.
