(* ===== verification/Leb128.v ===== *)
(** * Leb128: variable-length integers ([wpiutil/.../leb128.cpp])

    String and raw lengths travel as unsigned LEB128 numbers. *)

From S2P Require Import Prelude Streams.
Local Open Scope Z_scope.

(** ** Writing *)

(** The bound on the [do ... while (val != 0)] loops: a [uint64_t] is zero after
    ten shifts by seven. *)
Definition uleb_fuel : nat := 10.

Fixpoint SizeUleb128_loop (fuel : nat) (val : Z) : Z :=
  match fuel with
  | O => 0
  | S fuel =>
      let val := Z.shiftr val 7 in
      if val =? 0 then 1 else 1 + SizeUleb128_loop fuel val
  end.
Definition SizeUleb128 (val : Z) : Z := SizeUleb128_loop uleb_fuel val.

Fixpoint WriteUleb128_loop (fuel : nat) (val : Z) : bytes :=
  match fuel with
  | O => []
  | S fuel =>
      let byte := Z.land val 0x7f in
      let val := Z.shiftr val 7 in
      if val =? 0 then [u8 byte]
      else u8 (Z.lor byte 0x80) :: WriteUleb128_loop fuel val
  end.
Definition WriteUleb128 (val : Z) : bytes := WriteUleb128_loop uleb_fuel val.

(** ** Reading *)

(** [Uleb128Reader]; [m_undef] records that a shift by 64 or more, which C++
    leaves undefined, has been evaluated. *)
Record Uleb128Reader := MkUleb {
  m_result : Z;
  m_shift : Z;
  m_undef : bool;
}.
Definition Uleb128Reader_init : Uleb128Reader := MkUleb 0 0 false.

Fixpoint ReadOne (rd : Uleb128Reader) (inp : bytes)
  : option Z * Uleb128Reader * bytes :=
  match inp with
  | [] => (None, rd, [])
  | byte :: inp =>
      let result :=
        Z.lor (m_result rd)
          (wrap 64 (Z.shiftl (Z.land (ub byte) 0x7f) (m_shift rd))) in
      let undef := m_undef rd || (64 <=? m_shift rd) in
      if Z.land (ub byte) 0x80 =? 0 then
        (Some result, MkUleb 0 0 undef, inp)
      else
        ReadOne (MkUleb result (m_shift rd + 7) undef) inp
  end.

(** The [raw_istream] overload of [ReadUleb128]: [None] is the [false] returned on a
    stream error (the stream ends inside the number). *)
Fixpoint ReadUleb128_loop (result shift : Z) (inp : bytes) : option (Z * bytes) :=
  match inp with
  | [] => None
  | byte :: inp =>
      let result :=
        Z.lor result (wrap 64 (Z.shiftl (Z.land (ub byte) 0x7f) shift)) in
      let shift := shift + 7 in
      if Z.land (ub byte) 0x80 =? 0 then Some (result, inp)
      else ReadUleb128_loop result shift inp
  end.
Definition ReadUleb128 (inp : bytes) : option (Z * bytes) := ReadUleb128_loop 0 0 inp.

(** ** Theorems *)

Lemma land_7f z : Z.land z 0x7f = z `mod` 128.
Proof. change 0x7f with (Z.ones 7). by rewrite Z.land_ones by lia. Qed.

Lemma shiftr_7 z : Z.shiftr z 7 = z `div` 128.
Proof. by rewrite Z.shiftr_div_pow2 by lia. Qed.

(** The two kinds of bytes the writer emits, as the reader sees them. *)
Lemma uleb_last_byte z :
  0 <= z < 128 -> Z.land (ub (u8 z)) 0x80 = 0 /\ Z.land (ub (u8 z)) 0x7f = z.
Proof.
  intros Hz. rewrite ub_u8, wrap_small by (change (2 ^ 8) with 256; lia).
  split; [|rewrite land_7f, Z.mod_small by lia; lia].
  apply Z.bits_inj'. intros i Hi. rewrite Z.land_spec, Z.bits_0.
  change 0x80 with (2 ^ 7). rewrite Z.pow2_bits_eqb by lia.
  destruct (Z.eqb_spec 7 i) as [<-|]; [|by rewrite andb_false_r].
  rewrite andb_true_r. destruct (decide (z = 0)) as [->|]; [done|].
  apply Z.bits_above_log2; [lia|]. apply Z.log2_lt_pow2; lia.
Qed.

Lemma uleb_more_byte z :
  0 <= z < 128 ->
  Z.land (ub (u8 (Z.lor z 0x80))) 0x80 <> 0 /\
  Z.land (ub (u8 (Z.lor z 0x80))) 0x7f = z.
Proof.
  intros Hz.
  assert (Z.lor z 0x80 = z + 128) as ->.
  { rewrite Z.lor_comm. change 0x80 with (Z.shiftl 1 7) at 1.
    rewrite lor_shiftl_add by lia. lia. }
  rewrite ub_u8, wrap_small by (change (2 ^ 8) with 256; lia). split.
  - intros E. apply (f_equal (fun x => Z.testbit x 7)) in E.
    rewrite Z.land_spec, Z.bits_0 in E.
    change (Z.testbit 0x80 7) with true in E. rewrite andb_true_r in E.
    rewrite Z.testbit_false in E by lia. change (2 ^ 7) with 128 in E.
    replace (z + 128) with (1 * 128 + z) in E by lia.
    rewrite Z.div_add_l, Z.div_small in E by lia. done.
  - rewrite land_7f. replace (z + 128) with (z + 1 * 128) by lia.
    rewrite Z.mod_add, Z.mod_small by lia. lia.
Qed.

Lemma ReadOne_chunkable I : (forall s, I s) -> chunkable I ReadOne.
Proof.
  intros HI s a _. revert s. induction a as [|x a IH]; intros s; simpl; [done|].
  destruct (Z.land (ub x) 0x80 =? 0); [done|].
  specialize (IH (MkUleb
    (Z.lor (m_result s) (wrap 64 (Z.shiftl (Z.land (ub x) 0x7f) (m_shift s))))
    (m_shift s + 7) (m_undef s || (64 <=? m_shift s)))).
  destruct (ReadOne _ a) as [[[v|] s'] r]; [by destruct IH|].
  destruct IH as (?&?&?). split_and!; try done.
Qed.

Lemma ReadOne_progress I : progress I ReadOne.
Proof.
  intros s a v s' r _. revert s. induction a as [|x a IH]; intros s; simpl; [done|].
  case_match; intros ?; simplify_eq; [lia|].
  assert (length r < length a)%nat by (by eapply IH). lia.
Qed.

Lemma ReadOne_write_gen fuel k r v rest :
  0 <= v -> 0 <= r < 2 ^ (7 * Z.of_nat k) ->
  v < 2 ^ (7 * Z.of_nat fuel) -> v * 2 ^ (7 * Z.of_nat k) < 2 ^ 64 ->
  (0 < fuel)%nat -> (k + fuel <= 10)%nat ->
  ReadOne (MkUleb r (7 * Z.of_nat k) false) (WriteUleb128_loop fuel v ++ rest)
  = (Some (r + v * 2 ^ (7 * Z.of_nat k)), Uleb128Reader_init, rest).
Proof.
  revert k r v. induction fuel as [|fuel IH]; intros k r v Hv Hr Hf H64 Hpos Hk; [lia|].
  cbn [WriteUleb128_loop]. rewrite land_7f, shiftr_7.
  pose proof (Z.mod_pos_bound v 128 ltac:(lia)) as Hm.
  pose proof (Z.div_mod v 128 ltac:(lia)) as Hdm.
  assert (0 < 2 ^ (7 * Z.of_nat k)) as Hp by (apply Z.pow_pos_nonneg; lia).
  set (p := 2 ^ (7 * Z.of_nat k)) in *.
  assert (Hw : wrap 64 (Z.shiftl (v `mod` 128) (7 * Z.of_nat k)) = v `mod` 128 * p).
  { rewrite Z.shiftl_mul_pow2 by lia. apply wrap_small. fold p. split; [nia|].
    eapply Z.le_lt_trans; [|exact H64]. pose proof (Z.mod_le v 128). nia. }
  assert (Hl : Z.lor r (v `mod` 128 * p) = r + v `mod` 128 * p).
  { rewrite Z.lor_comm. unfold p. rewrite <- Z.shiftl_mul_pow2 by lia.
    rewrite lor_shiftl_add by lia. rewrite Z.shiftl_mul_pow2 by lia. lia. }
  assert (Hsh : (64 <=? 7 * Z.of_nat k) = false) by lia.
  destruct (Z.eqb_spec (v `div` 128) 0) as [E|E].
  - simpl. destruct (uleb_last_byte (v `mod` 128)) as [-> ->]; [lia|].
    rewrite Hw, Hl, Hsh. simpl.
    unfold Uleb128Reader_init. repeat f_equal. nia.
  - simpl. destruct (uleb_more_byte (v `mod` 128)) as [E1 ->]; [lia|].
    rewrite (proj2 (Z.eqb_neq _ _) E1), Hw, Hl, Hsh. simpl.
    assert (2 ^ (7 * Z.of_nat (S k)) = 128 * p) as Ep.
    { replace (7 * Z.of_nat (S k)) with (7 + 7 * Z.of_nat k) by lia.
      by rewrite Z.pow_add_r by lia. }
    assert (2 ^ (7 * Z.of_nat (S fuel)) = 128 * 2 ^ (7 * Z.of_nat fuel)) as Ef.
    { replace (7 * Z.of_nat (S fuel)) with (7 + 7 * Z.of_nat fuel) by lia.
      by rewrite Z.pow_add_r by lia. }
    replace (7 * Z.of_nat k + 7) with (7 * Z.of_nat (S k)) by lia.
    assert (0 < v `div` 128) by (pose proof (Z.div_pos v 128); lia).
    assert (0 < fuel)%nat.
    { destruct fuel; [|lia]. change (2 ^ (7 * Z.of_nat 0)) with 1 in Ef. lia. }
    rewrite Ef in Hf.
    set (q := v `div` 128) in *. set (m := v `mod` 128) in *.
    assert (0 <= m * p <= 127 * p) by (split; [|apply Z.mul_le_mono_nonneg_r]; lia).
    assert (q * (128 * p) <= v * p).
    { rewrite Z.mul_assoc. apply Z.mul_le_mono_nonneg_r; lia. }
    rewrite IH; rewrite ?Ep; try lia.
    do 3 f_equal. rewrite Hdm. ring.
Qed.

(** The streaming reader reads back what the writer wrote. *)
Lemma ReadOne_WriteUleb128 v rest :
  0 <= v < 2 ^ 64 ->
  ReadOne Uleb128Reader_init (WriteUleb128 v ++ rest)
  = (Some v, Uleb128Reader_init, rest).
Proof.
  intros Hv. change Uleb128Reader_init with (MkUleb 0 (7 * Z.of_nat 0) false) at 1.
  unfold WriteUleb128, uleb_fuel. rewrite ReadOne_write_gen; try lia.
  by rewrite Z.mul_1_r.
Qed.

(** The writer emits exactly [SizeUleb128] bytes, and never more than ten. *)
Lemma length_WriteUleb128_loop fuel v :
  zlen (WriteUleb128_loop fuel v) = SizeUleb128_loop fuel v.
Proof.
  revert v. induction fuel as [|fuel IH]; intros v; [done|]. simpl.
  destruct (Z.shiftr v 7 =? 0); [done|]. by rewrite zlen_cons, IH.
Qed.

Lemma SizeUleb128_loop_le fuel v : SizeUleb128_loop fuel v <= Z.of_nat fuel.
Proof.
  revert v. induction fuel as [|fuel IH]; intros v; cbn [SizeUleb128_loop]; [lia|].
  specialize (IH (Z.shiftr v 7)). destruct (Z.shiftr v 7 =? 0); lia.
Qed.

(** The streaming reader, started afresh on a buffer that holds the whole
    number, agrees with the one-shot [ReadUleb128]. *)
Lemma ReadOne_ReadUleb128_loop r sh u inp :
  match ReadUleb128_loop r sh inp with
  | Some (v, rest) => exists u', ReadOne (MkUleb r sh u) inp = (Some v, MkUleb 0 0 u', rest)
  | None => exists s', ReadOne (MkUleb r sh u) inp = (None, s', [])
  end.
Proof.
  revert r sh u. induction inp as [|b inp IH]; intros r sh u; simpl; [by eexists|].
  destruct (Z.land (ub b) 0x80 =? 0); [by eexists|]. apply IH.
Qed.

(** A written number never starts with no bytes. *)
Lemma WriteUleb128_nonnil v : WriteUleb128 v <> [].
Proof. unfold WriteUleb128, uleb_fuel. cbn [WriteUleb128_loop]. by case_match. Qed.

(** C39. Every [uint64_t] written by [WriteUleb128] is read back, with nothing of
    what follows consumed, by the streaming reader and by [ReadUleb128] alike; its
    encoding has [SizeUleb128] bytes, ten at most. *)
Theorem leb128_roundtrip (v : Z) (rest : bytes) :
  0 <= v < 2 ^ 64 ->
  ReadOne Uleb128Reader_init (WriteUleb128 v ++ rest)
    = (Some v, Uleb128Reader_init, rest) /\
  ReadUleb128 (WriteUleb128 v ++ rest) = Some (v, rest) /\
  zlen (WriteUleb128 v) = SizeUleb128 v /\ SizeUleb128 v <= 10.
Proof.
  intros Hv. pose proof (ReadOne_WriteUleb128 v rest Hv) as Hr.
  split_and!; [done| |apply length_WriteUleb128_loop|apply SizeUleb128_loop_le].
  pose proof (ReadOne_ReadUleb128_loop 0 0 false (WriteUleb128 v ++ rest)) as Hl.
  change (MkUleb 0 0 false) with Uleb128Reader_init in Hl. rewrite Hr in Hl.
  unfold ReadUleb128. destruct (ReadUleb128_loop _ _ _) as [[v' r]|];
    destruct Hl as [? Hl]; by simplify_eq.
Qed.

Lemma leb128_roundtrip_witness :
  ReadUleb128 (WriteUleb128 624485 ++ [u8 1]) = Some (624485, [u8 1]) /\
  WriteUleb128 624485 = [u8 0xe5; u8 0x8e; u8 0x26].
Proof. split; [apply leb128_roundtrip; lia|reflexivity]. Defined.

Definition continues (b : byte) : bool := negb (Z.land (ub b) 0x80 =? 0).

Lemma ReadOne_undef bs b rest r sh u :
  Forall (fun b => continues b = true) bs -> continues b = false ->
  exists v,
    ReadOne (MkUleb r sh u) (bs ++ b :: rest) =
    (Some v, MkUleb 0 0 (u || (64 <=? sh + 7 * zlen bs)), rest).
Proof.
  unfold continues. intros Hbs Hb. apply negb_false_iff in Hb.
  revert r sh u. induction Hbs as [|x bs Hx _ IH]; intros r sh u; simpl.
  - rewrite Hb. eexists. unfold zlen. simpl. by rewrite Z.add_0_r.
  - apply negb_true_iff in Hx. rewrite Hx. destruct (IH
      (Z.lor r (wrap 64 (Z.shiftl (Z.land (ub x) 0x7f) sh))) (sh + 7)
      (u || (64 <=? sh))) as [v E]. exists v. rewrite E, zlen_cons.
    replace (sh + 7 + 7 * zlen bs) with (sh + 7 * (zlen bs + 1)) by lia.
    do 3 f_equal. rewrite <- orb_assoc. f_equal. pose proof (zlen_nonneg bs).
    destruct (Z.leb_spec 64 sh), (Z.leb_spec 64 (sh + 7 * (zlen bs + 1))); simpl; lia || done.
Qed.

(** The reader does not bound the length of a number: it evaluates a shift by
    64 or more, which is undefined behaviour in C++, exactly when ten or more
    continuation bytes precede the last byte. *)
Theorem leb128_overlong_undefined (bs : bytes) (b : byte) (rest : bytes) :
  Forall (fun b => continues b = true) bs -> continues b = false ->
  m_undef (ReadOne Uleb128Reader_init (bs ++ b :: rest)).1.2 = (10 <=? zlen bs).
Proof.
  intros Hbs Hb. destruct (ReadOne_undef bs b rest 0 0 false Hbs Hb) as [v E].
  unfold Uleb128Reader_init. rewrite E. simpl.
  destruct (Z.leb_spec 10 (zlen bs)), (Z.leb_spec 64 (7 * zlen bs)); lia || done.
Qed.

Lemma leb128_overlong_undefined_witness :
  m_undef (ReadOne Uleb128Reader_init (repeat (u8 0x80) 10 ++ [u8 1])).1.2 = true.
Proof.
  rewrite (leb128_overlong_undefined (repeat (u8 0x80) 10) (u8 1) []);
    [reflexivity| |reflexivity].
  repeat constructor.
Defined.
