(* ===== verification/Base64.v ===== *)
(** * Base64: binary data as text ([Base64.cpp] of wpiutil)

    The decoder stops at the first character that is not a digit, such as the padding. *)

From S2P Require Import Prelude.
Local Open Scope Z_scope.
Local Ltac Zify.zify_post_hook ::= Z.to_euclidean_division_equations.

(** ** Digits *)

Definition basis_64 : bytes :=
  bytes_of_string "ABCDEFGHIJKLMNOPQRSTUVWXYZabcdefghijklmnopqrstuvwxyz0123456789+/".
Definition basis (i : Z) : byte := default (u8 0) (basis_64 !! Z.to_nat i).

(** The table [pr2six]; 64 stands for characters that are no digits. *)
Definition pr2six (b : byte) : Z :=
  let c := ub b in
  if (0x41 <=? c) && (c <=? 0x5a) then c - 0x41
  else if (0x61 <=? c) && (c <=? 0x7a) then c - 0x61 + 26
  else if (0x30 <=? c) && (c <=? 0x39) then c - 0x30 + 52
  else if c =? 0x2b then 62
  else if c =? 0x2f then 63
  else 64.
Definition is_digit64 (b : byte) : bool := pr2six b <=? 63.
Definition padding : byte := u8 0x3d.

(** ** Encoding *)

(** The parts of two neighbouring bytes that make the middle digits *)
Definition digit1 (a : Z) : Z := Z.land (Z.shiftr a 2) 0x3f.
Definition digit2 (a b : Z) : Z := Z.lor (Z.shiftl (Z.land a 0x3) 4) (Z.shiftr (Z.land b 0xf0) 4).
Definition digit3 (b c : Z) : Z := Z.lor (Z.shiftl (Z.land b 0xf) 2) (Z.shiftr (Z.land c 0xc0) 6).
Definition digit4 (c : Z) : Z := Z.land c 0x3f.

Fixpoint Base64Encode (plain : bytes) : bytes :=
  match plain with
  | [] => []
  | [a] => [basis (digit1 (ub a)); basis (Z.shiftl (Z.land (ub a) 0x3) 4); padding; padding]
  | [a; b] =>
      [basis (digit1 (ub a)); basis (digit2 (ub a) (ub b)); basis (Z.shiftl (Z.land (ub b) 0xf) 2); padding]
  | a :: b :: c :: plain =>
      basis (digit1 (ub a)) :: basis (digit2 (ub a) (ub b)) :: basis (digit3 (ub b) (ub c)) ::
      basis (digit4 (ub c)) :: Base64Encode plain
  end.

(** ** Decoding *)

Definition byte1 (a b : byte) : byte := u8 (Z.lor (Z.shiftl (pr2six a) 2) (Z.shiftr (pr2six b) 4)).
Definition byte2 (b c : byte) : byte := u8 (Z.lor (Z.shiftl (pr2six b) 4) (Z.shiftr (pr2six c) 2)).
Definition byte3 (c d : byte) : byte := u8 (Z.lor (Z.shiftl (pr2six c) 6) (pr2six d)).

Fixpoint leading_digits (s : bytes) : bytes :=
  match s with
  | b :: s => if is_digit64 b then b :: leading_digits s else []
  | [] => []
  end.

(** The loop over groups of four while more than four digits are left, and the rest; the
    result is the plain data and how many digits were left *)
Fixpoint decode_digits (s : bytes) : bytes * Z :=
  match s with
  | a :: b :: c :: d :: ((_ :: _) as s') =>
      let '(plain, n) := decode_digits s' in (byte1 a b :: byte2 b c :: byte3 c d :: plain, n)
  | [a; b; c; d] => ([byte1 a b; byte2 b c; byte3 c d], 4)
  | [a; b; c] => ([byte1 a b; byte2 b c], 3)
  | [a; b] => ([byte1 a b], 2)
  | s => ([], zlen s)
  end.

(** The number of characters read, padding included, and the plain data *)
Definition Base64Decode (encoded : bytes) : Z * bytes :=
  let digits := leading_digits encoded in
  match digits with
  | [] => (0, [])
  | _ => let '(plain, n) := decode_digits digits in (zlen digits + Z.land (4 - n) 3, plain)
  end.

(** ** Round trip *)

Lemma pr2six_basis i : 0 <= i < 64 -> pr2six (basis i) = i.
Proof.
  intros Hi. assert (forallb (fun n => pr2six (basis (Z.of_nat n)) =? Z.of_nat n) (seq 0 64) = true) as H by (vm_compute; reflexivity).
  rewrite forallb_forall in H. specialize (H (Z.to_nat i)). rewrite Z2Nat.id in H by lia.
  apply Z.eqb_eq, H, in_seq. lia.
Qed.
Lemma basis_digit i : 0 <= i < 64 -> is_digit64 (basis i) = true.
Proof. intros Hi. unfold is_digit64. rewrite pr2six_basis by done. lia. Qed.

(** The digits as arithmetic *)
Lemma digit1_eq a : 0 <= a < 256 -> digit1 a = a / 4.
Proof. intros Ha. unfold digit1. rewrite Z.shiftr_div_pow2 by lia. change 0x3f with (Z.ones 6). rewrite Z.land_ones by lia. change (2 ^ 2) with 4. change (2 ^ 6) with 64. apply Z.mod_small. lia. Qed.
Lemma high4 b : 0 <= b < 256 -> Z.shiftr (Z.land b 0xf0) 4 = b / 16.
Proof.
  intros Hb. rewrite Z.shiftr_land. change (Z.shiftr 0xf0 4) with (Z.ones 4). rewrite Z.land_ones, Z.shiftr_div_pow2 by lia.
  change (2 ^ 4) with 16. change (2 ^ 6) with 64. change (2 ^ 2) with 4. apply Z.mod_small. lia.
Qed.
Lemma high2 b : 0 <= b < 256 -> Z.shiftr (Z.land b 0xc0) 6 = b / 64.
Proof.
  intros Hb. rewrite Z.shiftr_land. change (Z.shiftr 0xc0 6) with (Z.ones 2). rewrite Z.land_ones, Z.shiftr_div_pow2 by lia.
  change (2 ^ 4) with 16. change (2 ^ 6) with 64. change (2 ^ 2) with 4. apply Z.mod_small. lia.
Qed.
Lemma low2 a : Z.land a 0x3 = a mod 4.
Proof. change 0x3 with (Z.ones 2). by rewrite Z.land_ones. Qed.
Lemma low4 a : Z.land a 0xf = a mod 16.
Proof. change 0xf with (Z.ones 4). by rewrite Z.land_ones. Qed.
Lemma digit2_eq a b : 0 <= a < 256 -> 0 <= b < 256 -> digit2 a b = a mod 4 * 16 + b / 16.
Proof. intros Ha Hb. unfold digit2. rewrite high4, low2 by done. rewrite lor_shiftl_add; [done|lia|]. change (2 ^ 4) with 16. lia. Qed.
Lemma digit3_eq b c : 0 <= b < 256 -> 0 <= c < 256 -> digit3 b c = b mod 16 * 4 + c / 64.
Proof. intros Hb Hc. unfold digit3. rewrite high2, low4 by done. rewrite lor_shiftl_add; [done|lia|]. change (2 ^ 2) with 4. lia. Qed.
Lemma digit4_eq c : digit4 c = c mod 64.
Proof. unfold digit4. change 0x3f with (Z.ones 6). by rewrite Z.land_ones. Qed.

(** Two digits side by side *)
Lemma byte_of_digits i j k l b : 0 <= i < 64 -> 0 <= j < 64 -> k + l = 8 -> 0 <= k -> 2 <= l <= 6 ->
  i * 2 ^ l mod 256 + j / 2 ^ (6 - l) = ub b ->
  u8 (Z.lor (Z.shiftl (pr2six (basis i)) l) (Z.shiftr (pr2six (basis j)) (6 - l))) = b.
Proof.
  intros Hi Hj Hk Hk0 Hl Hb. rewrite !pr2six_basis by done. rewrite Z.shiftr_div_pow2 by lia.
  assert (2 ^ 6 = 2 ^ l * 2 ^ (6 - l)) as E by (rewrite <- Z.pow_add_r by lia; f_equal; lia).
  assert (0 < 2 ^ l) by (apply Z.pow_pos_nonneg; lia). assert (0 < 2 ^ (6 - l)) by (apply Z.pow_pos_nonneg; lia).
  assert (0 <= j / 2 ^ (6 - l) < 2 ^ l).
  { split; [apply Z.div_pos; lia|]. apply Z.div_lt_upper_bound; [lia|]. change (2 ^ 6) with 64 in E. lia. }
  rewrite lor_shiftl_add by lia. apply (inj ub). rewrite ub_u8, <- Hb. unfold wrap. change (2 ^ 8) with 256.
  pose proof (ub_range b). pose proof (Z.mod_pos_bound (i * 2 ^ l) 256 ltac:(lia)).
  rewrite <- Z.add_mod_idemp_l by lia. apply Z.mod_small. lia.
Qed.

Lemma group_bytes a b c :
  let d1 := basis (digit1 (ub a)) in let d2 := basis (digit2 (ub a) (ub b)) in
  let d3 := basis (digit3 (ub b) (ub c)) in let d4 := basis (digit4 (ub c)) in
  byte1 d1 d2 = a /\ byte2 d2 d3 = b /\ byte3 d3 d4 = c /\
  is_digit64 d1 = true /\ is_digit64 d2 = true /\ is_digit64 d3 = true /\ is_digit64 d4 = true.
Proof.
  pose proof (ub_range a). pose proof (ub_range b). pose proof (ub_range c). cbv zeta.
  rewrite digit1_eq, digit2_eq, digit3_eq, digit4_eq by done. split_and!; try (apply basis_digit; lia).
  - apply (byte_of_digits _ _ 6 2); lia.
  - apply (byte_of_digits _ _ 4 4); lia.
  - pose proof (byte_of_digits (ub b mod 16 * 4 + ub c / 64) (ub c mod 64) 2 6 c) as E. rewrite Z.shiftr_0_r in E.
    apply E; lia.
Qed.
Lemma last2_bytes a b :
  let d1 := basis (digit1 (ub a)) in let d2 := basis (digit2 (ub a) (ub b)) in
  let d3 := basis (Z.shiftl (Z.land (ub b) 0xf) 2) in
  byte1 d1 d2 = a /\ byte2 d2 d3 = b /\ is_digit64 d1 = true /\ is_digit64 d2 = true /\ is_digit64 d3 = true.
Proof.
  pose proof (ub_range a). pose proof (ub_range b). cbv zeta. rewrite Z.shiftl_mul_pow2, low4 by lia.
  rewrite digit1_eq, digit2_eq by done. change (2 ^ 2) with 4. split_and!; try (apply basis_digit; lia).
  - apply (byte_of_digits _ _ 6 2); lia.
  - apply (byte_of_digits _ _ 4 4); lia.
Qed.
Lemma last1_bytes a :
  let d1 := basis (digit1 (ub a)) in let d2 := basis (Z.shiftl (Z.land (ub a) 0x3) 4) in
  byte1 d1 d2 = a /\ is_digit64 d1 = true /\ is_digit64 d2 = true.
Proof.
  pose proof (ub_range a). cbv zeta. rewrite Z.shiftl_mul_pow2, low2 by lia. rewrite digit1_eq by done.
  change (2 ^ 4) with 16. split_and!; try (apply basis_digit; lia).
  apply (byte_of_digits _ _ 6 2); lia.
Qed.

Lemma decode_digits_more a b c d y ys : decode_digits (a :: b :: c :: d :: y :: ys) =
  let '(plain, n) := decode_digits (y :: ys) in (byte1 a b :: byte2 b c :: byte3 c d :: plain, n).
Proof. done. Qed.

(** The digits of an encoding, and what is decoded from them *)
Lemma decode_encode64 plain : plain <> [] ->
  let d := leading_digits (Base64Encode plain) in
  d <> [] /\ (decode_digits d).1 = plain /\ zlen d + Z.land (4 - (decode_digits d).2) 3 = zlen (Base64Encode plain).
Proof.
  induction plain as [plain IH] using (induction_ltof1 _ (@length byte)). unfold ltof in IH. intros Hn.
  destruct plain as [|a [|b [|c rest]]]; [done| | |].
  - destruct (last1_bytes a) as (E1 & D1 & D2). cbv zeta in *. cbn [Base64Encode leading_digits]. rewrite D1, D2.
    change (is_digit64 padding) with false. cbn iota. cbn [decode_digits fst snd]. by rewrite E1.
  - destruct (last2_bytes a b) as (E1 & E2 & D1 & D2 & D3). cbv zeta in *. cbn [Base64Encode leading_digits].
    rewrite D1, D2, D3. change (is_digit64 padding) with false. cbn iota. cbn [decode_digits fst snd]. by rewrite E1, E2.
  - destruct (group_bytes a b c) as (E1 & E2 & E3 & D1 & D2 & D3 & D4). cbv zeta in *. cbn [Base64Encode leading_digits].
    rewrite D1, D2, D3, D4. destruct rest as [|x rest].
    + cbn [Base64Encode leading_digits decode_digits fst snd]. by rewrite E1, E2, E3.
    + destruct (IH (x :: rest)) as (K1 & K2 & K3); [cbn; lia|done|]. cbv zeta in *.
      destruct (leading_digits (Base64Encode (x :: rest))) as [|y ys] eqn:Ey; [done|].
      rewrite decode_digits_more. destruct (decode_digits (y :: ys)) as [pl n] eqn:Ed. cbn [fst snd] in *.
      rewrite E1, E2, E3, K2. split; [done|]. split; [done|]. rewrite !zlen_cons in *. lia.
Qed.

Lemma base64_decode_encode plain : Base64Decode (Base64Encode plain) = (zlen (Base64Encode plain), plain).
Proof.
  destruct (decide (plain = [])) as [->|Hn]; [done|]. destruct (decode_encode64 plain Hn) as (K1 & K2 & K3). cbv zeta in *.
  unfold Base64Decode. destruct (leading_digits (Base64Encode plain)) as [|y ys] eqn:Ey; [done|].
  destruct (decode_digits (y :: ys)) as [pl n]. cbn [fst snd] in *. by rewrite K2, K3.
Qed.

(** C18.  Data encoded as Base64 is decoded to itself, and the decoder reports having read all of
    the text, padding included. *)
Theorem base64_roundtrip plain :
  Base64Decode (Base64Encode plain) = (zlen (Base64Encode plain), plain).
Proof. apply base64_decode_encode. Qed.
