(* ===== verification/UidVector.v ===== *)
(** * UidVector: a vector with reuse of indices ([wpi/UidVector.h])

    The indices of removed elements are used again, oldest first, once more than a threshold
    of them are free. *)

From S2P Require Import Prelude.

Section UidVector.
Context {A : Type} (reuse_threshold : nat).

Record UidVector := MkUidVector {
  u_vector : list (option A);
  u_free : list nat;
  u_active_count : nat;
}.
#[global] Instance eta_UidVector : Eta UidVector := fun v => MkUidVector (u_vector v) (u_free v) (u_active_count v).

Definition UidVector_make : UidVector := MkUidVector [] [] 0.
Definition uid_empty (v : UidVector) : bool := bool_decide (u_active_count v = 0).
Definition uid_size (v : UidVector) : nat := length (u_vector v).
(** [operator[]]: the element, if the index is in range and not free *)
Definition uid_get (v : UidVector) (i : nat) : option A := default None (u_vector v !! i).

(** The threshold is positive, so that there is a free index to take once it is reached. *)
Definition uid_emplace_back (x : A) (v : UidVector) : nat * UidVector :=
  match (if bool_decide (length (u_free v) < reuse_threshold) then [] else u_free v) with
  | [] => (uid_size v, v <| u_vector ::= fun l => l ++ [Some x] |> <| u_active_count ::= S |>)
  | uid :: free => (uid, v <| u_free := free |> <| u_vector ::= <[uid := Some x]> |> <| u_active_count ::= S |>)
  end.

Definition uid_erase (uid : nat) (v : UidVector) : option A * UidVector :=
  match uid_get v uid with
  | None => (None, v)
  | Some x =>
      (Some x, v <| u_free ::= fun l => l ++ [uid] |> <| u_vector ::= <[uid := None]> |> <| u_active_count ::= pred |>)
  end.

Definition uid_clear (v : UidVector) : UidVector := UidVector_make.

(** The elements in the order of the iterator *)
Definition uid_elements (v : UidVector) : list A := omap id (u_vector v).

(** ** Invariant *)

(** The free indices are those of empty slots, each once. *)
Record uid_ok (v : UidVector) : Prop := {
  uid_free_nodup : NoDup (u_free v);
  uid_free_empty i : i ∈ u_free v <-> u_vector v !! i = Some None;
  uid_active : u_active_count v = length (uid_elements v);
}.

Lemma uid_make_ok : uid_ok UidVector_make.
Proof. split; [constructor| |done]. intros i. cbn. rewrite lookup_nil. split; [by intros ?%not_elem_of_nil|done]. Qed.

Lemma uid_get_lookup v i x : uid_get v i = Some x <-> u_vector v !! i = Some (Some x).
Proof. unfold uid_get. destruct (u_vector v !! i) as [[y|]|]; cbn; split; congruence. Qed.

Lemma elements_insert_some (l : list (option A)) i x : l !! i = Some None ->
  length (omap id (<[i := Some x]> l)) = S (length (omap id l)).
Proof. revert i. induction l as [|o l IH]; intros [|i] Hi; cbn in *; try done; [by injection Hi as ->|]. destruct o; cbn; by rewrite IH. Qed.
Lemma elements_insert_none (l : list (option A)) i x : l !! i = Some (Some x) ->
  S (length (omap id (<[i := None]> l))) = length (omap id l).
Proof. revert i. induction l as [|o l IH]; intros [|i] Hi; cbn in *; try done; [by injection Hi as ->|]. destruct o; cbn; by rewrite IH. Qed.

(** A new element gets an index that is not in use, and nothing else changes. *)
Lemma uid_emplace_back_spec v x : uid_ok v ->
  let '(i, v') := uid_emplace_back x v in
  uid_get v i = None /\ uid_ok v' /\ forall j, uid_get v' j = if decide (j = i) then Some x else uid_get v j.
Proof.
  intros [Hn He Ha]. unfold uid_emplace_back.
  assert (forall i, i ∈ (if bool_decide (length (u_free v) < reuse_threshold) then [] else u_free v) -> i ∈ u_free v) as Hsub
    by (intros i; destruct (bool_decide _); [by intros ?%not_elem_of_nil|done]).
  destruct (if bool_decide _ then [] else u_free v) as [|uid free] eqn:E.
  - split; [unfold uid_get, uid_size; by rewrite lookup_ge_None_2|]. split; [split; unfold fupd; cbn|].
    + done.
    + intros i. rewrite He. destruct (decide (i < length (u_vector v))).
      * by rewrite lookup_app_l.
      * rewrite lookup_app_r, (lookup_ge_None_2 (u_vector v)) by lia. destruct (i - length (u_vector v)) as [|[|]]; done.
    + unfold uid_elements. cbn. rewrite omap_app, length_app, Ha. cbn. unfold uid_elements. lia.
    + intros j. unfold uid_get, uid_size, fupd. cbn.
      destruct (decide (j = length (u_vector v))) as [->|Hj]; [by rewrite lookup_app_r, Nat.sub_diag by lia|].
      destruct (decide (j < length (u_vector v))); [by rewrite lookup_app_l|].
      rewrite lookup_app_r, (lookup_ge_None_2 (u_vector v)) by lia. destruct (j - length (u_vector v)) as [|[|]] eqn:Ej; [lia|done..].
  - assert (u_free v = uid :: free) as Ef by (destruct (bool_decide _); done).
    assert (u_vector v !! uid = Some None) as Hu by (apply He; rewrite Ef; left).
    rewrite Ef in Hn. apply NoDup_cons in Hn as [Hnin Hn].
    split; [unfold uid_get; by rewrite Hu|]. split; [split; unfold fupd; cbn|].
    + done.
    + intros i. destruct (decide (i = uid)) as [->|Hi].
      * rewrite list_lookup_insert_eq by (by eapply lookup_lt_Some). split; [done|discriminate].
      * rewrite list_lookup_insert_ne, <- He, Ef by done. set_solver.
    + unfold uid_elements. cbn. rewrite elements_insert_some by done. by rewrite Ha.
    + intros j. unfold uid_get, fupd. cbn.
      destruct (decide (j = uid)) as [->|Hj]; [by rewrite list_lookup_insert_eq by (by eapply lookup_lt_Some)|].
      by rewrite list_lookup_insert_ne.
Qed.

(** An erased element is gone, and nothing else changes. *)
Lemma vector_erase_spec v i : uid_ok v ->
  let '(o, v') := uid_erase i v in
  o = uid_get v i /\ uid_ok v' /\ forall j, uid_get v' j = if decide (j = i) then None else uid_get v j.
Proof.
  intros [Hn He Ha]. unfold uid_erase. destruct (uid_get v i) as [x|] eqn:E.
  2:{ split; [done|]. split; [done|]. intros j. by destruct (decide (j = i)) as [->|]. }
  apply uid_get_lookup in E. split; [done|]. split; [split; unfold fupd; cbn|].
  - apply NoDup_app. split; [done|]. split; [|apply NoDup_singleton].
    intros j Hj ->%list_elem_of_singleton. apply He in Hj. congruence.
  - intros j. rewrite elem_of_app, list_elem_of_singleton, He. destruct (decide (j = i)) as [->|Hj].
    + rewrite list_lookup_insert_eq by (by eapply lookup_lt_Some). naive_solver.
    + rewrite list_lookup_insert_ne by done. naive_solver.
  - unfold uid_elements in *. cbn. rewrite Ha. rewrite <- (elements_insert_none _ _ _ E). done.
  - intros j. unfold uid_get, fupd. cbn.
    destruct (decide (j = i)) as [->|Hj]; [by rewrite list_lookup_insert_eq by (by eapply lookup_lt_Some)|].
    by rewrite list_lookup_insert_ne.
Qed.

Lemma elem_of_uid_elements v x : x ∈ uid_elements v <-> exists i, uid_get v i = Some x.
Proof.
  unfold uid_elements. rewrite list_elem_of_omap. setoid_rewrite uid_get_lookup. split.
  - intros (o & Ho & E). cbn in E. subst o. apply list_elem_of_lookup in Ho as [i Hi]. eauto.
  - intros [i Hi]. exists (Some x). split; [|done]. by eapply list_elem_of_lookup_2.
Qed.
End UidVector.
Arguments UidVector : clear implicits.
