(* ===== verification/Message3.v ===== *)
(** * Message3: the messages of the version 3 protocol

    [net3/Message3.h] and the handler interface of [net3/WireDecoder3.h]. *)

From S2P Require Import Prelude NtTypes.
Local Open Scope Z_scope.

Inductive MsgType :=
| kUnknown | kKeepAlive | kClientHello | kProtoUnsup | kServerHelloDone
| kServerHello | kClientHelloDone | kEntryAssign | kEntryUpdate | kFlagsUpdate
| kEntryDelete | kClearEntries | kExecuteRpc | kRpcResponse.

Definition MsgType_code (t : MsgType) : Z :=
  match t with
  | kUnknown => -1
  | kKeepAlive => 0x00 | kClientHello => 0x01 | kProtoUnsup => 0x02
  | kServerHelloDone => 0x03 | kServerHello => 0x04 | kClientHelloDone => 0x05
  | kEntryAssign => 0x10 | kEntryUpdate => 0x11 | kFlagsUpdate => 0x12
  | kEntryDelete => 0x13 | kClearEntries => 0x14
  | kExecuteRpc => 0x20 | kRpcResponse => 0x21
  end.

(** [enum DataType] *)
Definition kBoolean : Z := 0x00.
Definition kDouble : Z := 0x01.
Definition kString : Z := 0x02.
Definition kRaw : Z := 0x03.
Definition kBooleanArray : Z := 0x10.
Definition kDoubleArray : Z := 0x11.
Definition kStringArray : Z := 0x12.
Definition kRpcDef : Z := 0x20.

Definition kClearAllMagic : Z := 0xD06CB27A.

Record Message3 := MkMessage3 {
  m_type : MsgType;
  m_str : string;
  m_value : Value;
  m_id : Z;
  m_flags : Z;
  m_seq_num_uid : Z;
}.
#[global] Instance eta_Message3 : Eta Message3 := fun m =>
  MkMessage3 (m_type m) (m_str m) (m_value m) (m_id m) (m_flags m) (m_seq_num_uid m).

Definition Message3_of_type (t : MsgType) : Message3 :=
  MkMessage3 t "" Value_empty 0 0 0.

(** [Message3::bytes()] and the inverse conversion of the RPC factories: the
    same storage read as [char] or [uint8_t]. *)
Definition msg_bytes (m : Message3) : bytes := bytes_of_string (m_str m).

(** The methods of [MessageHandler3], one constructor per virtual function. *)
Inductive Call3 :=
| KeepAlive
| ServerHelloDone
| ClientHelloDone
| ClearEntries
| ProtoUnsup (proto_rev : Z)
| ClientHello (self_id : string) (proto_rev : Z)
| ServerHello (flags : Z) (self_id : string)
| EntryAssign (name : string) (id seq_num : Z) (value : Value) (flags : Z)
| EntryUpdate (id seq_num : Z) (value : Value)
| FlagsUpdate (id flags : Z)
| EntryDelete (id : Z)
| ExecuteRpc (id uid : Z) (params : bytes)
| RpcResponse (id uid : Z) (result : bytes).

#[global] Instance Call3_eq_dec : EqDecision Call3.
Proof. solve_decision. Defined.

(** The static factories of [Message3]; they take the arguments of the handler
    methods of the same name. *)
Definition Message3_make (c : Call3) : Message3 :=
  match c with
  | KeepAlive => Message3_of_type kKeepAlive
  | ServerHelloDone => Message3_of_type kServerHelloDone
  | ClientHelloDone => Message3_of_type kClientHelloDone
  | ClearEntries => Message3_of_type kClearEntries
  | ProtoUnsup proto_rev => Message3_of_type kProtoUnsup <| m_id := proto_rev |>
  | ClientHello self_id proto_rev =>
      Message3_of_type kClientHello <| m_str := self_id |> <| m_id := proto_rev |>
  | ServerHello flags self_id =>
      Message3_of_type kServerHello <| m_str := self_id |> <| m_flags := flags |>
  | EntryAssign name id seq_num value flags =>
      Message3_of_type kEntryAssign <| m_str := name |> <| m_value := value |>
        <| m_id := id |> <| m_flags := flags |> <| m_seq_num_uid := seq_num |>
  | EntryUpdate id seq_num value =>
      Message3_of_type kEntryUpdate <| m_value := value |> <| m_id := id |>
        <| m_seq_num_uid := seq_num |>
  | FlagsUpdate id flags =>
      Message3_of_type kFlagsUpdate <| m_id := id |> <| m_flags := flags |>
  | EntryDelete id => Message3_of_type kEntryDelete <| m_id := id |>
  | ExecuteRpc id uid params =>
      Message3_of_type kExecuteRpc <| m_str := string_of_bytes params |>
        <| m_id := id |> <| m_seq_num_uid := uid |>
  | RpcResponse id uid result =>
      Message3_of_type kRpcResponse <| m_str := string_of_bytes result |>
        <| m_id := id |> <| m_seq_num_uid := uid |>
  end.

(** What a decoder promises nothing about: the object behind [m_out].  A handler
    has a state; handling a message yields the next state and, when it rejects
    the message, the text it passes to [WireDecoder3::SetError]. *)
Class MessageHandler3 (H : Type) := handle3 : Call3 -> H -> H * option string.
#[global] Hint Mode MessageHandler3 ! : typeclass_instances.
