(* ===== verification/WireEncoder3.v ===== *)
(** * WireEncoder3: encoding of version 3 messages ([net3/WireEncoder3.cpp])

    The [raw_ostream] is the list of bytes written to it: a [Write...] function
    is the bytes it appends. *)

From S2P Require Import Prelude NtTypes Leb128 Message3.
Local Open Scope Z_scope.

Definition Write8 (val : Z) : bytes := [u8 val].

Definition Write16 (val : Z) : bytes :=
  let val := wrap 16 val in
  [u8 (Z.land (Z.shiftr val 8) 0xff); u8 (Z.land val 0xff)].

Definition Write32 (val : Z) : bytes :=
  let val := wrap 32 val in
  [u8 (Z.land (Z.shiftr val 24) 0xff); u8 (Z.land (Z.shiftr val 16) 0xff);
   u8 (Z.land (Z.shiftr val 8) 0xff); u8 (Z.land val 0xff)].

(** The argument is the bit pattern of the double. *)
Definition WriteDouble (val : Z) : bytes :=
  let v := wrap 64 val in
  [u8 (Z.land (Z.shiftr v 56) 0xff); u8 (Z.land (Z.shiftr v 48) 0xff);
   u8 (Z.land (Z.shiftr v 40) 0xff); u8 (Z.land (Z.shiftr v 32) 0xff);
   u8 (Z.land (Z.shiftr v 24) 0xff); u8 (Z.land (Z.shiftr v 16) 0xff);
   u8 (Z.land (Z.shiftr v 8) 0xff); u8 (Z.land v 0xff)].

Definition WriteString (str : string) : bytes :=
  WriteUleb128 (zlen (bytes_of_string str)) ++ bytes_of_string str.

Definition WriteRaw (str : bytes) : bytes := WriteUleb128 (zlen str) ++ str.

(** The result and the bytes written. *)
Definition WriteType (type : NT_Type) : bool * bytes :=
  match type with
  | NT_BOOLEAN => (true, [u8 kBoolean])
  | NT_INTEGER | NT_FLOAT | NT_DOUBLE => (true, [u8 kDouble])
  | NT_STRING => (true, [u8 kString])
  | NT_RAW => (true, [u8 kRaw])
  | NT_BOOLEAN_ARRAY => (true, [u8 kBooleanArray])
  | NT_INTEGER_ARRAY | NT_FLOAT_ARRAY | NT_DOUBLE_ARRAY => (true, [u8 kDoubleArray])
  | NT_STRING_ARRAY => (true, [u8 kStringArray])
  | NT_RPC => (true, [u8 kRpcDef])
  | NT_UNASSIGNED => (false, [])
  end.

(** The array cases of [WriteValue]: the size is one byte, so an array is cut
    to 255 elements. *)
Definition WriteArray {A} (wr : A -> bytes) (v : list A) : bytes :=
  let size := zlen v in
  let size := if 0xff <? size then 0xff else size in
  Write8 size ++ concat (wr <$> take (Z.to_nat size) v).

Definition WriteValue (value : Value) : bool * bytes :=
  match data value with
  | VBoolean b => (true, Write8 (if b then 1 else 0))
  | VInteger z => (true, WriteDouble (f64_of_int z))
  | VFloat x => (true, WriteDouble (f64_of_f32 x))
  | VDouble x => (true, WriteDouble x)
  | VString s => (true, WriteString s)
  | VRaw bs => (true, WriteRaw bs)
  | VBooleanArray v => (true, WriteArray (fun x => Write8 (if x =? 0 then 0 else 1)) v)
  | VIntegerArray v => (true, WriteArray (fun x => WriteDouble (f64_of_int x)) v)
  | VFloatArray v => (true, WriteArray (fun x => WriteDouble (f64_of_f32 x)) v)
  | VDoubleArray v => (true, WriteArray WriteDouble v)
  | VStringArray v => (true, WriteArray WriteString v)
  | VUnassigned => (false, [])
  end.

Definition WireEncodeKeepAlive : bytes := Write8 (MsgType_code kKeepAlive).
Definition WireEncodeServerHelloDone : bytes := Write8 (MsgType_code kServerHelloDone).
Definition WireEncodeClientHelloDone : bytes := Write8 (MsgType_code kClientHelloDone).

Definition WireEncodeClearEntries : bytes :=
  Write8 (MsgType_code kClearEntries) ++ Write32 kClearAllMagic.

Definition WireEncodeProtoUnsup (proto_rev : Z) : bytes :=
  Write8 (MsgType_code kProtoUnsup) ++ Write16 proto_rev.

Definition WireEncodeClientHello (self_id : string) (proto_rev : Z) : bytes :=
  Write8 (MsgType_code kClientHello) ++ Write16 proto_rev ++ WriteString self_id.

Definition WireEncodeServerHello (flags : Z) (self_id : string) : bytes :=
  Write8 (MsgType_code kServerHello) ++ Write8 flags ++ WriteString self_id.

Definition WireEncodeEntryAssign (name : string) (id seq_num : Z) (value : Value)
    (flags : Z) : bool * bytes :=
  let '(ok, val) := WriteValue value in
  (ok, Write8 (MsgType_code kEntryAssign) ++ WriteString name ++
       snd (WriteType (value_type value)) ++ Write16 id ++ Write16 seq_num ++
       Write8 flags ++ val).

Definition WireEncodeEntryUpdate (id seq_num : Z) (value : Value) : bool * bytes :=
  let '(ok, val) := WriteValue value in
  (ok, Write8 (MsgType_code kEntryUpdate) ++ Write16 id ++ Write16 seq_num ++
       snd (WriteType (value_type value)) ++ val).

Definition WireEncodeFlagsUpdate (id flags : Z) : bytes :=
  Write8 (MsgType_code kFlagsUpdate) ++ Write16 id ++ Write8 flags.

Definition WireEncodeEntryDelete (id : Z) : bytes :=
  Write8 (MsgType_code kEntryDelete) ++ Write16 id.

Definition WireEncodeExecuteRpc (id uid : Z) (params : bytes) : bytes :=
  Write8 (MsgType_code kExecuteRpc) ++ Write16 id ++ Write16 uid ++ WriteRaw params.

Definition WireEncodeRpcResponse (id uid : Z) (result : bytes) : bytes :=
  Write8 (MsgType_code kRpcResponse) ++ Write16 id ++ Write16 uid ++ WriteRaw result.

Definition WireEncode (msg : Message3) : bool * bytes :=
  match m_type msg with
  | kKeepAlive => (true, WireEncodeKeepAlive)
  | kServerHelloDone => (true, WireEncodeServerHelloDone)
  | kClientHelloDone => (true, WireEncodeClientHelloDone)
  | kClientHello => (true, WireEncodeClientHello (m_str msg) (m_id msg))
  | kProtoUnsup => (true, WireEncodeProtoUnsup (m_id msg))
  | kServerHello => (true, WireEncodeServerHello (m_flags msg) (m_str msg))
  | kEntryAssign =>
      WireEncodeEntryAssign (m_str msg) (m_id msg) (m_seq_num_uid msg)
        (m_value msg) (m_flags msg)
  | kEntryUpdate => WireEncodeEntryUpdate (m_id msg) (m_seq_num_uid msg) (m_value msg)
  | kFlagsUpdate => (true, WireEncodeFlagsUpdate (m_id msg) (m_flags msg))
  | kEntryDelete => (true, WireEncodeEntryDelete (m_id msg))
  | kClearEntries => (true, WireEncodeClearEntries)
  | kExecuteRpc =>
      (true, WireEncodeExecuteRpc (m_id msg) (m_seq_num_uid msg) (msg_bytes msg))
  | kRpcResponse =>
      (true, WireEncodeRpcResponse (m_id msg) (m_seq_num_uid msg) (msg_bytes msg))
  | kUnknown => (true, [])
  end.

(** ** Big-endian bytes

    The three fixed-width writers are the big-endian representation of their
    argument ([be_split]). *)

Lemma u8_land z : u8 (Z.land z 0xff) = u8 z.
Proof.
  apply (inj ub). rewrite !ub_u8. change 0xff with (Z.ones 8).
  rewrite Z.land_ones by lia. apply wrap_wrap.
Qed.

Lemma u8_shiftr_wrap w k z :
  0 <= k -> k + 8 <= w -> u8 (Z.shiftr (wrap w z) k) = u8 (Z.shiftr z k).
Proof.
  intros Hk Hw. apply (inj ub). rewrite !ub_u8. unfold wrap.
  rewrite <- !Z.land_ones by lia. apply Z.bits_inj'. intros i Hi.
  rewrite !Z.land_spec, !Z.shiftr_spec, Z.land_spec by lia.
  destruct (decide (i < 8)).
  - by rewrite (Z.ones_spec_low w), andb_true_r by lia.
  - by rewrite (Z.ones_spec_high 8), !andb_false_r by lia.
Qed.

Ltac be_bytes :=
  cbv zeta; rewrite !u8_land, ?u8_shiftr_wrap, u8_wrap by lia; cbn [be_split app];
  rewrite ?Z.shiftr_shiftr by lia; reflexivity.

Lemma Write16_be v : Write16 v = be_split 2 v.
Proof. unfold Write16. be_bytes. Qed.
Lemma Write32_be v : Write32 v = be_split 4 v.
Proof. unfold Write32. be_bytes. Qed.
Lemma WriteDouble_be v : WriteDouble v = be_split 8 v.
Proof. unfold WriteDouble. be_bytes. Qed.

(** Encoding fails exactly on a message that carries an unassigned value. *)
Lemma WriteValue_ok v : fst (WriteValue v) = value_valid v.
Proof. unfold WriteValue, value_valid, value_type. by destruct (data v). Qed.
