(* ===== verification/WireDecoder3.v ===== *)
(** * WireDecoder3: the streaming decoder of version 3 ([net3/WireDecoder3.cpp])

    [WDImpl] is a hand-written automaton: a message state, the detail readers
    that keep a partly read number, string or value between two calls, and the
    fields of the message under construction.  [Execute] runs it over the bytes at
    hand and calls the message handler for every complete message. *)

From S2P Require Import Prelude NtTypes Streams Leb128 Message3.
Local Open Scope Z_scope.

(** ** Detail readers *)

Record SimpleValueReader := MkSimple { sv_value : Z; sv_count : Z }.
Definition SimpleValueReader_init : SimpleValueReader := MkSimple 0 0.

(** [Read16], [Read32] and [Read64] are the same loop for [n] = 2, 4 and 8. *)
Fixpoint ReadSimple (n : Z) (sv : SimpleValueReader) (inp : bytes)
  : option Z * SimpleValueReader * bytes :=
  match inp with
  | [] => (None, sv, [])
  | b :: inp =>
      let value := wrap 64 (Z.lor (Z.shiftl (sv_value sv) 8) (Z.land (ub b) 0xff)) in
      let count := sv_count sv + 1 in
      if n <=? count then (Some value, MkSimple 0 0, inp)
      else ReadSimple n (MkSimple value count) inp
  end.

Definition Read16 : reader SimpleValueReader Z := rmap (wrap 16) (ReadSimple 2).
Definition Read32 : reader SimpleValueReader Z := rmap (wrap 32) (ReadSimple 4).
Definition Read64 : reader SimpleValueReader Z := ReadSimple 8.
(** [wpi::BitsToDouble] is the identity: a double is its bit pattern. *)
Definition ReadDouble : reader SimpleValueReader Z := Read64.

(** [StringReader] and [RawReader]: the same structure, the first with a
    [std::string] and the second with a [std::vector<uint8_t>] as buffer. *)
Record LenReader := MkLen { len : option Z; buf : bytes }.
Definition LenReader_init : LenReader := MkLen None [].
Definition SetLen (len_ : Z) : LenReader := MkLen (Some len_) [].

(** The data part of [ReadString] and [ReadRaw], with [l] the length to reach;
    the buffer that is moved out is left empty. *)
Definition ReadData (l : Z) (lr : LenReader) (inp : bytes)
  : option bytes * LenReader * bytes :=
  let toCopy := Z.min (zlen inp) (wrap 64 (l - zlen (buf lr))) in
  let buf' := buf lr ++ take (Z.to_nat toCopy) inp in
  let inp' := drop (Z.to_nat toCopy) inp in
  if l <=? zlen buf' then (Some buf', MkLen None [], inp')
  else (None, MkLen (Some l) buf', inp').

(** [ReadString] and [ReadRaw] over the length reader they share. *)
Definition ReadBuf : reader (Uleb128Reader * LenReader) bytes := fun s inp =>
  let '(ul, lr) := s in
  match len lr with
  | Some l =>
      let '(o, lr', inp') := ReadData l lr inp in (o, (ul, lr'), inp')
  | None =>
      match ReadOne ul inp with
      | (Some val, ul', inp') =>
          let '(o, lr', inp'') := ReadData val (SetLen val) inp' in
          (o, (ul', lr'), inp'')
      | (None, ul', inp') => (None, (ul', lr), inp')
      end
  end.

Record ValueReader := MkValueReader {
  vr_type : NT_Type;
  haveSize : bool;
  vr_size : Z;
  ints : list Z;
  doubles : list Z;
  strings : list string;
}.
#[global] Instance eta_ValueReader : Eta ValueReader := fun r =>
  MkValueReader (vr_type r) (haveSize r) (vr_size r) (ints r) (doubles r) (strings r).
Definition ValueReader_make (type_ : NT_Type) : ValueReader :=
  MkValueReader type_ false 0 [] [] [].
Definition SetSize (size_ : Z) (r : ValueReader) : ValueReader :=
  MkValueReader (vr_type r) true size_ [] [] [].

(** ** The decoder *)

Inductive State :=
| kStart
| kClientHello_1ProtoRev | kClientHello_2Id
| kProtoUnsup_1ProtoRev
| kServerHello_1Flags | kServerHello_2Id
| kEntryAssign_1Name | kEntryAssign_2Type | kEntryAssign_3Id
| kEntryAssign_4SeqNum | kEntryAssign_5Flags | kEntryAssign_6Value
| kEntryUpdate_1Id | kEntryUpdate_2SeqNum | kEntryUpdate_3Type | kEntryUpdate_4Value
| kFlagsUpdate_1Id | kFlagsUpdate_2Flags
| kEntryDelete_1Id
| kClearEntries_1Magic
| kExecuteRpc_1Id | kExecuteRpc_2Uid | kExecuteRpc_3Params
| kRpcResponse_1Id | kRpcResponse_2Uid | kRpcResponse_3Result
| kError.
#[global] Instance State_eq_dec : EqDecision State.
Proof. solve_decision. Defined.

(** [m_clock] counts the readings of [nt::Now()] the decoder has made. *)
Record WDImpl := MkWD {
  m_state : State;
  m_ulebReader : Uleb128Reader;
  m_simpleReader : SimpleValueReader;
  m_stringReader : LenReader;
  m_rawReader : LenReader;
  m_valueReader : ValueReader;
  m_error : string;
  m_str : string;
  m_id : Z;
  m_flags : Z;
  m_seq_num_uid : Z;
  m_clock : nat;
}.
#[global] Instance eta_WDImpl : Eta WDImpl := fun d =>
  MkWD (m_state d) (m_ulebReader d) (m_simpleReader d) (m_stringReader d)
    (m_rawReader d) (m_valueReader d) (m_error d) (m_str d) (m_id d) (m_flags d)
    (m_seq_num_uid d) (m_clock d).

Definition WDImpl_init : WDImpl :=
  MkWD kStart Uleb128Reader_init SimpleValueReader_init LenReader_init
    LenReader_init (ValueReader_make NT_UNASSIGNED) "" "" 0 0 0 0.

Definition EmitError (msg : string) (d : WDImpl) : WDImpl :=
  d <| m_state := kError |> <| m_error := msg |>.

(** The detail readers as members of the decoder. *)
Definition on_simple {A} (rd : reader SimpleValueReader A) : reader WDImpl A :=
  fun d inp =>
    let '(o, s, inp') := rd (m_simpleReader d) inp in
    (o, d <| m_simpleReader := s |>, inp').

Definition ReadString : reader WDImpl string := fun d inp =>
  let '(o, (ul, lr), inp') := ReadBuf (m_ulebReader d, m_stringReader d) inp in
  (string_of_bytes <$> o, d <| m_ulebReader := ul |> <| m_stringReader := lr |>, inp').

Definition ReadRaw : reader WDImpl bytes := fun d inp =>
  let '(o, (ul, lr), inp') := ReadBuf (m_ulebReader d, m_rawReader d) inp in
  (o, d <| m_ulebReader := ul |> <| m_rawReader := lr |>, inp').

(** The byte-to-type switch of [ReadType]; [None] is the unrecognized type. *)
Definition DataType_type (code : Z) : option NT_Type :=
  match code with
  | 0x00 => Some NT_BOOLEAN
  | 0x01 => Some NT_DOUBLE
  | 0x02 => Some NT_STRING
  | 0x03 => Some NT_RAW
  | 0x10 => Some NT_BOOLEAN_ARRAY
  | 0x11 => Some NT_DOUBLE_ARRAY
  | 0x12 => Some NT_STRING_ARRAY
  | 0x20 => Some NT_RPC
  | _ => None
  end.

Section Decoder.
Context (Now : nat -> Z).
Context `{MessageHandler3 H}.

(** [Value::MakeX(...)] with the default time: the clock is read. *)
Definition make (v : ValueData) (d : WDImpl) : option Value * WDImpl :=
  (Some (Value_make (Now (m_clock d)) v 0), d <| m_clock ::= S |>).

(** The outcome of one turn of the loop of [ReadValue]: leave the switch and
    go round again, or return. *)
Inductive turn := Break (d : WDImpl) (inp : bytes)
                | Return (o : option Value) (d : WDImpl) (inp : bytes).

Definition ret_make (v : ValueData) (d : WDImpl) (inp : bytes) : turn :=
  let '(o, d') := make v d in Return o d' inp.

Definition of_read {A} (f : A -> ValueData) (x : option A * WDImpl * bytes) : turn :=
  match x with
  | (Some v, d, inp) => ret_make (f v) d inp
  | (None, d, inp) => Break d inp
  end.

(** [m_valueReader.SetSize(Read8(in))] *)
Definition read_size (d : WDImpl) (inp : bytes) : turn :=
  match inp with
  | [] => Break d inp
  | b :: inp => Break (d <| m_valueReader ::= SetSize (ub b) |>) inp
  end.

(** The array cases.  [count] is the size of the array under construction,
    [push] its [emplace_back], and [take] the value made of it, with the array
    moved out. *)
Definition read_array {A} (rd : reader WDImpl A)
    (count : ValueReader -> Z) (push : A -> ValueReader -> ValueReader)
    (take : ValueReader -> ValueData * ValueReader)
    (d : WDImpl) (inp : bytes) : turn :=
  if haveSize (m_valueReader d) then
    let '(d, inp) :=
      read_elems rd (fun d => vr_size (m_valueReader d))
        (fun d => count (m_valueReader d))
        (fun v d => d <| m_valueReader ::= push v |>) d inp in
    if count (m_valueReader d) =? vr_size (m_valueReader d) then
      let '(v, r) := take (m_valueReader d) in
      ret_make v (d <| m_valueReader := r |>) inp
    else Break d inp
  else read_size d inp.

Definition ReadValue_turn (d : WDImpl) (inp : bytes) : turn :=
  match vr_type (m_valueReader d) with
  | NT_BOOLEAN => of_read (fun b => VBoolean (negb (b =? 0))) (read_byte d inp)
  | NT_DOUBLE => of_read VDouble (on_simple ReadDouble d inp)
  | NT_STRING => of_read VString (ReadString d inp)
  | NT_RAW | NT_RPC => of_read VRaw (ReadRaw d inp)
  | NT_BOOLEAN_ARRAY =>
      read_array (rmap (fun b => if b =? 0 then 0 else 1) read_byte)
        (fun r => zlen (ints r)) (fun v r => r <| ints ::= fun l => l ++ [v] |>)
        (fun r => (VBooleanArray (ints r), r <| ints := [] |>)) d inp
  | NT_DOUBLE_ARRAY =>
      read_array (on_simple ReadDouble)
        (fun r => zlen (doubles r)) (fun v r => r <| doubles ::= fun l => l ++ [v] |>)
        (fun r => (VDoubleArray (doubles r), r <| doubles := [] |>)) d inp
  | NT_STRING_ARRAY =>
      read_array ReadString
        (fun r => zlen (strings r)) (fun v r => r <| strings ::= fun l => l ++ [v] |>)
        (fun r => (VStringArray (strings r), r <| strings := [] |>)) d inp
  | _ => Return None (EmitError "invalid type when trying to read value" d) inp
  end.

(** [while (!in->empty()) switch ...]; a turn that goes round again has
    consumed a byte, so the length of the input bounds the turns. *)
Fixpoint ReadValue_loop (fuel : nat) (d : WDImpl) (inp : bytes)
  : option Value * WDImpl * bytes :=
  match fuel, inp with
  | O, _ | _, [] => (None, d, inp)
  | S fuel, _ =>
      match ReadValue_turn d inp with
      | Break d inp => ReadValue_loop fuel d inp
      | Return o d inp => (o, d, inp)
      end
  end.
Definition ReadValue : reader WDImpl Value := fun d inp =>
  ReadValue_loop (S (length inp)) d inp.

(** A call on [m_out]; the handler may call [SetError] on this decoder. *)
Definition emit (c : Call3) (d : WDImpl) (h : H) : WDImpl * H :=
  let '(h, err) := handle3 c h in
  (match err with Some msg => EmitError msg d | None => d end, h).

(** [if (auto val = rd(in)) { k }] *)
Definition with_read {A} (rd : reader WDImpl A)
    (k : A -> WDImpl -> H -> WDImpl * H) (d : WDImpl) (h : H) (inp : bytes)
  : WDImpl * H * bytes :=
  match rd d inp with
  | (Some val, d, inp) => (k val d h, inp)
  | (None, d, inp) => (d, h, inp)
  end.

(** The continuations of the cases: move to state [st], or to [st] after
    storing the value read. *)
Definition goto (st : State) (d : WDImpl) (h : H) : WDImpl * H :=
  (d <| m_state := st |>, h).
Definition goto_id (st : State) (val : Z) (d : WDImpl) (h : H) : WDImpl * H :=
  (d <| m_state := st |> <| m_id := val |>, h).
Definition goto_uid (st : State) (val : Z) (d : WDImpl) (h : H) : WDImpl * H :=
  (d <| m_state := st |> <| m_seq_num_uid := val |>, h).
Definition goto_flags (st : State) (val : Z) (d : WDImpl) (h : H) : WDImpl * H :=
  (d <| m_state := st |> <| m_flags := val |>, h).

(** Case [kStart]: dispatch on the message type byte. *)
Definition dispatch (msgType : Z) (d : WDImpl) (h : H) : WDImpl * H :=
  match msgType with
  | 0x00 => emit KeepAlive d h
  | 0x01 => goto kClientHello_1ProtoRev d h
  | 0x02 => goto kProtoUnsup_1ProtoRev d h
  | 0x04 => goto kServerHello_1Flags d h
  | 0x03 => emit ServerHelloDone d h
  | 0x05 => emit ClientHelloDone d h
  | 0x10 => goto kEntryAssign_1Name d h
  | 0x11 => goto kEntryUpdate_1Id d h
  | 0x12 => goto kFlagsUpdate_1Id d h
  | 0x13 => goto kEntryDelete_1Id d h
  | 0x14 => goto kClearEntries_1Magic d h
  | 0x20 => goto kExecuteRpc_1Id d h
  | 0x21 => goto kRpcResponse_1Id d h
  | _ => (EmitError ("unrecognized message type: " +:+ pretty msgType) d, h)
  end.

(** [if (auto val = ReadType(in)) { m_state = st; m_valueReader = ... }] *)
Definition goto_type (st : State) (code : Z) (d : WDImpl) (h : H) : WDImpl * H :=
  match DataType_type code with
  | Some t => (d <| m_state := st |> <| m_valueReader := ValueReader_make t |>, h)
  | None => (EmitError "unrecognized value type" d, h)
  end.

(** One turn of the loop of [Execute]. *)
Definition Execute_step (d : WDImpl) (h : H) (inp : bytes) : WDImpl * H * bytes :=
  match m_state d with
  | kStart => with_read read_byte dispatch d h inp
  | kClientHello_1ProtoRev =>
      with_read (on_simple Read16) (fun val d h =>
        if val <? 0x0300
        then emit (ClientHello "" val) (d <| m_state := kStart |>) h
        else goto_id kClientHello_2Id val d h) d h inp
  | kClientHello_2Id =>
      with_read ReadString (fun val d h =>
        emit (ClientHello val (m_id d)) (d <| m_state := kStart |>) h) d h inp
  | kProtoUnsup_1ProtoRev =>
      with_read (on_simple Read16) (fun val d h =>
        emit (ProtoUnsup val) (d <| m_state := kStart |>) h) d h inp
  | kServerHello_1Flags =>
      with_read read_byte (goto_flags kServerHello_2Id) d h inp
  | kServerHello_2Id =>
      with_read ReadString (fun val d h =>
        emit (ServerHello (m_flags d) val) (d <| m_state := kStart |>) h) d h inp
  | kEntryAssign_1Name =>
      with_read ReadString (fun val d h =>
        (d <| m_state := kEntryAssign_2Type |> <| m_str := val |>, h)) d h inp
  | kEntryAssign_2Type => with_read read_byte (goto_type kEntryAssign_3Id) d h inp
  | kEntryAssign_3Id =>
      with_read (on_simple Read16) (goto_id kEntryAssign_4SeqNum) d h inp
  | kEntryAssign_4SeqNum =>
      with_read (on_simple Read16) (goto_uid kEntryAssign_5Flags) d h inp
  | kEntryAssign_5Flags =>
      with_read read_byte (goto_flags kEntryAssign_6Value) d h inp
  | kEntryAssign_6Value =>
      with_read ReadValue (fun val d h =>
        emit (EntryAssign (m_str d) (m_id d) (m_seq_num_uid d) val (m_flags d))
          (d <| m_state := kStart |>) h) d h inp
  | kEntryUpdate_1Id =>
      with_read (on_simple Read16) (goto_id kEntryUpdate_2SeqNum) d h inp
  | kEntryUpdate_2SeqNum =>
      with_read (on_simple Read16) (goto_uid kEntryUpdate_3Type) d h inp
  | kEntryUpdate_3Type => with_read read_byte (goto_type kEntryUpdate_4Value) d h inp
  | kEntryUpdate_4Value =>
      with_read ReadValue (fun val d h =>
        emit (EntryUpdate (m_id d) (m_seq_num_uid d) val)
          (d <| m_state := kStart |>) h) d h inp
  | kFlagsUpdate_1Id =>
      with_read (on_simple Read16) (goto_id kFlagsUpdate_2Flags) d h inp
  | kFlagsUpdate_2Flags =>
      with_read read_byte (fun val d h =>
        emit (FlagsUpdate (m_id d) val) (d <| m_state := kStart |>) h) d h inp
  | kEntryDelete_1Id =>
      with_read (on_simple Read16) (fun val d h =>
        emit (EntryDelete val) (d <| m_state := kStart |>) h) d h inp
  | kClearEntries_1Magic =>
      with_read (on_simple Read32) (fun val d h =>
        if val =? kClearAllMagic
        then emit ClearEntries (d <| m_state := kStart |>) h
        else (EmitError "received incorrect CLEAR_ENTRIES magic value" d, h)) d h inp
  | kExecuteRpc_1Id =>
      with_read (on_simple Read16) (goto_id kExecuteRpc_2Uid) d h inp
  | kExecuteRpc_2Uid =>
      with_read (on_simple Read16) (goto_uid kExecuteRpc_3Params) d h inp
  | kExecuteRpc_3Params =>
      with_read ReadRaw (fun val d h =>
        emit (ExecuteRpc (m_id d) (m_seq_num_uid d) val)
          (d <| m_state := kStart |>) h) d h inp
  | kRpcResponse_1Id =>
      with_read (on_simple Read16) (goto_id kRpcResponse_2Uid) d h inp
  | kRpcResponse_2Uid =>
      with_read (on_simple Read16) (goto_uid kRpcResponse_3Result) d h inp
  | kRpcResponse_3Result =>
      with_read ReadRaw (fun val d h =>
        emit (RpcResponse (m_id d) (m_seq_num_uid d) val)
          (d <| m_state := kStart |>) h) d h inp
  | kError => (d, h, inp)
  end.

(** [while (!in->empty()) switch (m_state) ...]: the loop is left when the
    input is used up or in the error state. *)
Definition Execute_body (s : WDImpl * H * bytes) : option (WDImpl * H * bytes) :=
  let '(d, h, inp) := s in
  if bool_decide (inp = []) || bool_decide (m_state d = kError) then None
  else Some (Execute_step d h inp).

(** Every turn consumes a byte, except that a value may be completed without
    one (see [Execute_measure] below): two turns per byte and one more are
    enough. *)
Definition WDImpl_Execute (d : WDImpl) (h : H) (inp : bytes) : WDImpl * H * bytes :=
  while_ Execute_body (2 * length inp + 2)%nat (d, h, inp).

(** [WireDecoder3::Execute]: the result is [false] if an error occurred. *)
Definition Execute (d : WDImpl) (h : H) (inp : bytes) : bool * (WDImpl * H * bytes) :=
  let '(d, h, inp) := WDImpl_Execute d h inp in
  (negb (bool_decide (m_state d = kError)), (d, h, inp)).
End Decoder.

(** [WireDecoder3::SetError] and [GetError]. *)
Definition SetError (message : string) (d : WDImpl) : WDImpl := EmitError message d.
Definition GetError (d : WDImpl) : string := m_error d.
