(* ===== verification/WireDecoder3Proofs.v ===== *)
(** * WireDecoder3Proofs: the decoder is independent of how its input is cut

    The state invariant of the decoder, termination of its loops, and the
    theorem that feeding a byte stream in pieces gives the same handler calls
    and the same final state as feeding it at once. *)

From S2P Require Import Prelude NtTypes Streams Leb128 Message3 WireDecoder3.
Local Open Scope Z_scope.

(** ** Invariants of the detail readers *)

Definition uleb_ok (u : Uleb128Reader) : Prop := 0 <= m_result u < 2 ^ 64.

Definition len_ok (lr : LenReader) : Prop :=
  match len lr with
  | Some l => zlen (buf lr) < l < 2 ^ 64
  | None => True
  end.

Definition max_count (r : ValueReader) : Z :=
  Z.max (zlen (ints r)) (Z.max (zlen (doubles r)) (zlen (strings r))).

Definition array_ok (r : ValueReader) : Prop :=
  haveSize r = true -> max_count r <= vr_size r.

Definition readable (t : NT_Type) : bool :=
  match t with
  | NT_BOOLEAN | NT_DOUBLE | NT_STRING | NT_RAW | NT_RPC
  | NT_BOOLEAN_ARRAY | NT_DOUBLE_ARRAY | NT_STRING_ARRAY => true
  | _ => false
  end.

Record core_ok (d : WDImpl) : Prop := {
  ok_uleb : uleb_ok (m_ulebReader d);
  ok_string : len_ok (m_stringReader d);
  ok_raw : len_ok (m_rawReader d);
  ok_array : array_ok (m_valueReader d);
}.

Record value_ok (d : WDImpl) : Prop := {
  ok_core : core_ok d;
  ok_readable : readable (vr_type (m_valueReader d)) = true;
}.

(** Once the type byte of an entry message has been read the value reader has a
    type it can read. *)
Definition expects_value (st : State) : bool :=
  match st with
  | kEntryAssign_3Id | kEntryAssign_4SeqNum | kEntryAssign_5Flags
  | kEntryAssign_6Value | kEntryUpdate_4Value => true
  | _ => false
  end.

Record decoder_ok (d : WDImpl) : Prop := {
  ok_dcore : core_ok d;
  ok_expects : expects_value (m_state d) = true ->
               readable (vr_type (m_valueReader d)) = true;
}.

Create HintDb nt3 discriminated.
#[export] Hint Resolve ok_uleb ok_string ok_raw ok_array ok_core ok_dcore : nt3.

Lemma lor_range a b w :
  0 <= w -> 0 <= a < 2 ^ w -> 0 <= b < 2 ^ w -> 0 <= Z.lor a b < 2 ^ w.
Proof.
  intros Hw Ha Hb. split; [apply Z.lor_nonneg; lia|].
  destruct (decide (Z.lor a b = 0)) as [->|Hne]; [lia|].
  assert (0 <= Z.lor a b) by (apply Z.lor_nonneg; lia).
  apply Z.log2_lt_pow2; [lia|]. rewrite Z.log2_lor by lia.
  destruct (decide (a = 0)) as [->|]; destruct (decide (b = 0)) as [->|]; try done.
  - simpl. rewrite Z.max_r by apply Z.log2_nonneg. apply Z.log2_lt_pow2; lia.
  - rewrite Z.max_l by apply Z.log2_nonneg. apply Z.log2_lt_pow2; lia.
  - apply Z.max_lub_lt; apply Z.log2_lt_pow2; lia.
Qed.

(** The reader keeps its result, and returns one, below [2^64]. *)
Lemma ReadOne_ok u inp :
  uleb_ok u ->
  let '(o, u', _) := ReadOne u inp in
  uleb_ok u' /\ forall v, o = Some v -> 0 <= v < 2 ^ 64.
Proof.
  revert u. induction inp as [|b inp IH]; intros u Hu; simpl; [done|].
  assert (Hr : uleb_ok (MkUleb (Z.lor (m_result u)
    (wrap 64 (Z.shiftl (Z.land (ub b) 0x7f) (m_shift u)))) (m_shift u + 7)
    (m_undef u || (64 <=? m_shift u)))).
  { apply lor_range; [lia|done|apply wrap_range; lia]. }
  destruct (Z.land (ub b) 0x80 =? 0).
  - split; [|intros v [= <-]; done]. unfold uleb_ok. simpl. lia.
  - by apply IH.
Qed.

Lemma ReadSimple_chunkable n : chunkable (fun _ => True) (ReadSimple n).
Proof.
  intros s a _. revert s. induction a as [|x a IH]; intros s; simpl; [done|].
  destruct (n <=? sv_count s + 1); [done|]. apply IH.
Qed.

Lemma ReadSimple_progress n I : progress I (ReadSimple n).
Proof.
  intros s a v s' r _. revert s. induction a as [|x a IH]; intros s; simpl; [done|].
  case_match; intros ?; simplify_eq; [lia|].
  assert (length r < length a)%nat by (by eapply IH). lia.
Qed.

(** [ReadData] either completes the buffer or swallows the input. *)
Lemma ReadData_eq l lr inp :
  zlen (buf lr) <= l < 2 ^ 64 ->
  ReadData l lr inp =
  if l - zlen (buf lr) <=? zlen inp
  then (Some (buf lr ++ take (Z.to_nat (l - zlen (buf lr))) inp), MkLen None [],
        drop (Z.to_nat (l - zlen (buf lr))) inp)
  else (None, MkLen (Some l) (buf lr ++ inp), []).
Proof.
  intros Hl. unfold ReadData. pose proof (zlen_nonneg (buf lr)).
  rewrite wrap_small by lia. destruct (Z.leb_spec (l - zlen (buf lr)) (zlen inp)).
  - rewrite Z.min_r by lia.
    rewrite (proj2 (Z.leb_le _ _)); [done|].
    rewrite zlen_app. unfold zlen in *. rewrite length_take. lia.
  - rewrite Z.min_l by lia. unfold zlen in *. rewrite Nat2Z.id, firstn_all, drop_all.
    rewrite (proj2 (Z.leb_gt _ _)); [done|]. rewrite length_app. lia.
Qed.

(** Splitting the input of [ReadData]. *)
Lemma ReadData_chunk l lr a :
  zlen (buf lr) <= l < 2 ^ 64 ->
  match ReadData l lr a with
  | (Some v, lr', r) =>
      lr' = MkLen None [] /\ (length r <= length a)%nat /\
      forall b, ReadData l lr (a ++ b) = (Some v, lr', r ++ b)
  | (None, lr', r) =>
      len lr' = Some l /\ len_ok lr' /\ r = [] /\
      forall b, ReadData l lr (a ++ b) = ReadData l lr' b
  end.
Proof.
  intros Hl. rewrite ReadData_eq by done.
  destruct (Z.leb_spec (l - zlen (buf lr)) (zlen a)) as [Hle|Hlt].
  - split_and!; [done|rewrite length_drop; lia|]. intros b.
    rewrite ReadData_eq, zlen_app by done. pose proof (zlen_nonneg b).
    rewrite (proj2 (Z.leb_le _ _)) by lia.
    unfold zlen in *. rewrite take_app_le, drop_app_le by lia. done.
  - unfold len_ok. simpl. rewrite zlen_app. split_and!; [done|lia|lia|done|].
    intros b. rewrite !ReadData_eq; simpl; rewrite ?zlen_app; try lia.
    destruct (Z.leb_spec (l - zlen (buf lr)) (zlen a + zlen b));
      destruct (Z.leb_spec (l - (zlen (buf lr) + zlen a)) (zlen b)); try lia.
    + unfold zlen in *. rewrite take_app_ge, drop_app_ge, <- app_assoc by lia.
      replace (Z.to_nat (l - Z.of_nat (length (buf lr))) - length a)%nat
        with (Z.to_nat (l - (Z.of_nat (length (buf lr)) + Z.of_nat (length a)))) by lia.
      done.
    + by rewrite <- app_assoc.
Qed.

Definition buf_ok (s : Uleb128Reader * LenReader) : Prop := uleb_ok s.1 /\ len_ok s.2.

Lemma ReadBuf_chunkable : chunkable buf_ok ReadBuf.
Proof.
  intros [ul lr] a [Hu Hl]. simpl in *. unfold len_ok in Hl.
  destruct (len lr) as [l|] eqn:El.
  - pose proof (ReadData_chunk l lr a ltac:(lia)) as Hc.
    destruct (ReadData l lr a) as [[[v|] lr'] r].
    + destruct Hc as (-> & _ & Hc). split; [done|]. intros b. by rewrite Hc.
    + destruct Hc as (El' & ? & -> & Hc). split_and!; [done|done|].
      intros b _. rewrite Hc. simpl. by rewrite El'.
  - pose proof (ReadOne_ok ul a Hu) as Hok.
    pose proof (ReadOne_chunkable (fun _ => True) ltac:(done) ul a I) as Hc.
    destruct (ReadOne ul a) as [[[v|] ul'] r].
    + destruct Hc as [_ Hc]. destruct Hok as [Hu' Hv]. specialize (Hv v eq_refl).
      pose proof (ReadData_chunk v (SetLen v) r ltac:(simpl; rewrite zlen_nil; lia)) as Hd.
      destruct (ReadData v (SetLen v) r) as [[[w|] lr'] r'].
      * destruct Hd as (-> & _ & Hd). split; [done|]. intros b. by rewrite Hc, Hd.
      * destruct Hd as (El' & ? & -> & Hd). split_and!; [done|done|].
        intros b _. rewrite Hc, Hd. simpl. by rewrite El'.
    + destruct Hc as (_ & -> & Hc). destruct Hok as [Hu' _].
      split_and!; [split; [done|]|done|].
      * simpl. unfold len_ok. by rewrite El.
      * intros b Hb. rewrite Hc by done. simpl. by rewrite El.
Qed.

Lemma ReadBuf_progress : progress buf_ok ReadBuf.
Proof.
  intros [ul lr] a v s' r [Hu Hl]. simpl in *. unfold len_ok in Hl.
  destruct (len lr) as [l|] eqn:El.
  - rewrite ReadData_eq by lia.
    destruct (Z.leb_spec (l - zlen (buf lr)) (zlen a)); intros ?; simplify_eq.
    rewrite length_drop. unfold zlen in *. lia.
  - pose proof (ReadOne_ok ul a Hu) as Hok.
    destruct (ReadOne ul a) as [[[w|] ul'] q] eqn:E; [|done].
    destruct Hok as [Hu' Hv]. specialize (Hv w eq_refl).
    apply (ReadOne_progress (fun _ => True)) in E; [|done].
    rewrite ReadData_eq by (simpl; rewrite zlen_nil; lia).
    destruct (w - zlen (buf (SetLen w)) <=? zlen q); intros ?; simplify_eq.
    rewrite length_drop. lia.
Qed.

(** ** Members of the decoder *)

#[global] Arguments ReadBuf : simpl never.

(** An invariant the detail readers cannot break. *)
Record stable (P : WDImpl -> Prop) : Prop := {
  st_core : forall d, P d -> core_ok d;
  st_simple : forall d s, P d -> P (d <| m_simpleReader := s |>);
  st_string : forall d ul lr, P d -> buf_ok (ul, lr) ->
    P (d <| m_ulebReader := ul |> <| m_stringReader := lr |>);
  st_raw : forall d ul lr, P d -> buf_ok (ul, lr) ->
    P (d <| m_ulebReader := ul |> <| m_rawReader := lr |>);
}.

Lemma core_ok_stable : stable core_ok.
Proof.
  split; [done|..]; intros d; [intros s []|intros ul lr [] []..]; by constructor.
Qed.

Lemma value_ok_stable : stable value_ok.
Proof.
  destruct core_ok_stable as [_ Hs Hst Hr].
  split; [by intros d []|..]; intros d; [intros s []|intros ul lr [] ?..];
    (constructor; [|done]); auto.
Qed.

Lemma decoder_ok_stable : stable decoder_ok.
Proof.
  destruct core_ok_stable as [_ Hs Hst Hr].
  split; [by intros d []|..]; intros d; [intros s []|intros ul lr [] ?..];
    (constructor; [|done]); auto.
Qed.

(** A reader of the decoder that leaves the message state alone. *)
Definition keeps_state {A} (rd : reader WDImpl A) : Prop :=
  forall d inp, m_state (rd d inp).1.2 = m_state d.

Lemma on_simple_keeps {A} (rd : reader SimpleValueReader A) : keeps_state (on_simple rd).
Proof. intros d inp. unfold on_simple. by destruct (rd _ _) as [[??]?]. Qed.
Lemma ReadString_keeps : keeps_state ReadString.
Proof. intros d inp. unfold ReadString. by destruct (ReadBuf _ _) as [[?[??]]?]. Qed.
Lemma ReadRaw_keeps : keeps_state ReadRaw.
Proof. intros d inp. unfold ReadRaw. by destruct (ReadBuf _ _) as [[?[??]]?]. Qed.
Lemma read_byte_keeps : keeps_state read_byte.
Proof. by intros d [|b inp]. Qed.

Section Members.
Context (P : WDImpl -> Prop) (HP : stable P).

Lemma on_simple_chunkable {A} (rd : reader SimpleValueReader A) :
  chunkable (fun _ => True) rd -> chunkable P (on_simple rd).
Proof using HP.
  intros Hc d a Hd. unfold on_simple. specialize (Hc (m_simpleReader d) a I).
  destruct (rd (m_simpleReader d) a) as [[[v|] s] r].
  - destruct Hc as [_ Hc]. split; [by apply HP|]. intros b. by rewrite Hc.
  - destruct Hc as (_ & -> & Hc). split_and!; [by apply HP|done|].
    intros b Hb. by rewrite Hc.
Qed.

Lemma on_simple_progress {A} (rd : reader SimpleValueReader A) :
  progress (fun _ => True) rd -> progress P (on_simple rd).
Proof.
  intros Hp d a v d' r Hd. unfold on_simple.
  destruct (rd (m_simpleReader d) a) as [[[w|] s] q] eqn:E; intros ?; simplify_eq.
  by apply (Hp (m_simpleReader d) a v s r).
Qed.

Lemma string_buf_ok d : P d -> buf_ok (m_ulebReader d, m_stringReader d).
Proof using HP. intros Hd. apply (st_core P HP) in Hd. split; apply Hd. Qed.
Lemma raw_buf_ok d : P d -> buf_ok (m_ulebReader d, m_rawReader d).
Proof using HP. intros Hd. apply (st_core P HP) in Hd. split; apply Hd. Qed.

Lemma ReadString_chunkable : chunkable P ReadString.
Proof using HP.
  intros d a Hd. unfold ReadString.
  pose proof (ReadBuf_chunkable _ a (string_buf_ok d Hd)) as Hc.
  destruct (ReadBuf _ a) as [[[v|] [ul lr]] r]; simpl.
  - destruct Hc as [? Hc]. split; [by apply HP|]. intros b. by rewrite Hc.
  - destruct Hc as (? & -> & Hc). split_and!; [by apply HP|done|].
    intros b Hb. rewrite Hc by done. by destruct (ReadBuf _ b) as [[?[??]]?].
Qed.

Lemma ReadRaw_chunkable : chunkable P ReadRaw.
Proof using HP.
  intros d a Hd. unfold ReadRaw.
  pose proof (ReadBuf_chunkable _ a (raw_buf_ok d Hd)) as Hc.
  destruct (ReadBuf _ a) as [[[v|] [ul lr]] r]; simpl.
  - destruct Hc as [? Hc]. split; [by apply HP|]. intros b. by rewrite Hc.
  - destruct Hc as (? & -> & Hc). split_and!; [by apply HP|done|].
    intros b Hb. rewrite Hc by done. by destruct (ReadBuf _ b) as [[?[??]]?].
Qed.

Lemma ReadString_progress : progress P ReadString.
Proof using HP.
  intros d a v d' r Hd. unfold ReadString.
  destruct (ReadBuf _ a) as [[[w|] [ul lr]] q] eqn:E; intros ?; simplify_eq.
  eapply ReadBuf_progress; [|exact E]. by apply string_buf_ok.
Qed.

Lemma ReadRaw_progress : progress P ReadRaw.
Proof using HP.
  intros d a v d' r Hd. unfold ReadRaw.
  destruct (ReadBuf _ a) as [[[w|] [ul lr]] q] eqn:E; intros ?; simplify_eq.
  eapply ReadBuf_progress; [|exact E]. by apply raw_buf_ok.
Qed.

Lemma Read16_chunkable : chunkable P (on_simple Read16).
Proof using HP. apply on_simple_chunkable, chunkable_rmap, ReadSimple_chunkable. Qed.
Lemma Read32_chunkable : chunkable P (on_simple Read32).
Proof using HP. apply on_simple_chunkable, chunkable_rmap, ReadSimple_chunkable. Qed.
Lemma ReadDouble_chunkable : chunkable P (on_simple ReadDouble).
Proof using HP. apply on_simple_chunkable, ReadSimple_chunkable. Qed.
Lemma Read16_progress : progress P (on_simple Read16).
Proof. apply on_simple_progress, progress_rmap, ReadSimple_progress. Qed.
Lemma Read32_progress : progress P (on_simple Read32).
Proof. apply on_simple_progress, progress_rmap, ReadSimple_progress. Qed.
Lemma ReadDouble_progress : progress P (on_simple ReadDouble).
Proof. apply on_simple_progress, ReadSimple_progress. Qed.
End Members.

#[export] Hint Resolve core_ok_stable value_ok_stable decoder_ok_stable
  on_simple_keeps ReadString_keeps ReadRaw_keeps read_byte_keeps
  ReadString_chunkable ReadRaw_chunkable Read16_chunkable Read32_chunkable
  ReadDouble_chunkable read_byte_chunkable chunkable_rmap
  ReadString_progress ReadRaw_progress Read16_progress Read32_progress
  ReadDouble_progress read_byte_progress progress_rmap : nt3.

(** ** Reading a value *)

(** A reader that leaves the value reader alone. *)
Definition keeps_value {A} (rd : reader WDImpl A) : Prop :=
  forall d inp, m_valueReader (rd d inp).1.2 = m_valueReader d.

Lemma on_simple_keeps_value {A} (rd : reader SimpleValueReader A) :
  keeps_value (on_simple rd).
Proof. intros d inp. unfold on_simple. by destruct (rd _ _) as [[??]?]. Qed.
Lemma ReadString_keeps_value : keeps_value ReadString.
Proof. intros d inp. unfold ReadString. by destruct (ReadBuf _ _) as [[?[??]]?]. Qed.
Lemma ReadRaw_keeps_value : keeps_value ReadRaw.
Proof. intros d inp. unfold ReadRaw. by destruct (ReadBuf _ _) as [[?[??]]?]. Qed.
Lemma read_byte_keeps_value : keeps_value read_byte.
Proof. by intros d [|b inp]. Qed.
Lemma rmap_keeps_value {A B} (f : A -> B) rd : keeps_value rd -> keeps_value (rmap f rd).
Proof.
  intros Hk d inp. specialize (Hk d inp). unfold rmap.
  by destruct (rd d inp) as [[??]?].
Qed.
Lemma rmap_keeps_state {A B} (f : A -> B) rd : keeps_state rd -> keeps_state (rmap f rd).
Proof.
  intros Hk d inp. specialize (Hk d inp). unfold rmap.
  by destruct (rd d inp) as [[??]?].
Qed.
#[export] Hint Resolve on_simple_keeps_value ReadString_keeps_value
  ReadRaw_keeps_value read_byte_keeps_value rmap_keeps_value rmap_keeps_state : nt3.

(** What a turn of the loop of [ReadValue] may do. *)
Definition same_frame (d d' : WDImpl) : Prop :=
  m_state d' = m_state d /\ vr_type (m_valueReader d') = vr_type (m_valueReader d).

Definition turn_chunk (T : WDImpl -> bytes -> turn) (d : WDImpl) (a : bytes) : Prop :=
  match T d a with
  | Return o d' r =>
      is_Some o /\ value_ok d' /\ m_state d' = m_state d /\ (length r <= length a)%nat /\
      forall b, T d (a ++ b) = Return o d' (r ++ b)
  | Break d' r =>
      value_ok d' /\ same_frame d d' /\ (length r < length a)%nat /\
      ((forall b, T d (a ++ b) = Break d' (r ++ b)) \/
       (r = [] /\ forall b, b <> [] -> T d (a ++ b) = T d' b))
  end.

Section Value.
Context (Now : nat -> Z).

Lemma of_read_chunk {A} (f : A -> ValueData) (rd : reader WDImpl A) d a :
  chunkable value_ok rd -> progress value_ok rd -> keeps_state rd -> keeps_value rd ->
  value_ok d -> a <> [] ->
  turn_chunk (fun d a => of_read Now f (rd d a)) d a.
Proof.
  intros Hc Hp Hs Hv Hd Ha. unfold turn_chunk, of_read.
  specialize (Hs d a). specialize (Hv d a).
  destruct (rd d a) as [[[v|] d'] r] eqn:E; simpl in Hs, Hv.
  - destruct (chunkable_some _ _ _ _ _ _ _ Hc Hd E) as [[[] ?] Hb].
    pose proof (Hp _ _ _ _ _ Hd E).
    cbn. split_and!; [done|by (split; [split|])|done|lia|].
    intros b. by rewrite Hb.
  - destruct (chunkable_none _ _ _ _ _ _ Hc Hd E) as (? & -> & Hb).
    split_and!; [done|split; congruence|destruct a; simpl; [done|lia]|].
    right. split; [done|]. intros b Hne. by rewrite Hb.
Qed.

(** The array under construction, for each of the three array types. *)
Record array_lens {A} (count : ValueReader -> Z) (push : A -> ValueReader -> ValueReader)
    (take : ValueReader -> ValueData * ValueReader) : Prop := {
  al_count : forall v r, count (push v r) = count r + 1;
  al_size : forall v r, vr_size (push v r) = vr_size r;
  al_type : forall v r, vr_type (push v r) = vr_type r;
  al_have : forall v r, haveSize (push v r) = haveSize r;
  al_le : forall r, array_ok r -> haveSize r = true -> count r <= vr_size r;
  al_push : forall v r, array_ok r -> count r < vr_size r -> array_ok (push v r);
  al_take : forall r, array_ok r -> 
    array_ok (take r).2 /\ vr_type (take r).2 = vr_type r;
}.

(** Enough that the three counts stay under the bound. *)
Lemma array_lens_intro {A} (count : ValueReader -> Z) push (take : ValueReader -> _) :
  (forall (v : A) r, count (push v r) = count r + 1) ->
  (forall v r, vr_size (push v r) = vr_size r) ->
  (forall v r, vr_type (push v r) = vr_type r) ->
  (forall v r, haveSize (push v r) = haveSize r) ->
  (forall v r, max_count r <= vr_size r -> count r < vr_size r ->
               max_count (push v r) <= vr_size r) ->
  (forall r, count r <= max_count r) ->
  (forall r, max_count (take r).2 <= max_count r) ->
  (forall r, vr_size (take r).2 = vr_size r /\ vr_type (take r).2 = vr_type r /\
             haveSize (take r).2 = haveSize r) ->
  array_lens count push take.
Proof.
  intros Hc Hs Ht Hh Hm Hle Htk Htf. split; try done.
  - intros r Hr E. specialize (Hr E). specialize (Hle r). lia.
  - intros v r Hr Hlt E. rewrite Hh in E. rewrite Hs. auto.
  - intros r Hr. destruct (Htf r) as (E1 & E2 & E3). split; [|done].
    intros E. rewrite E3 in E. specialize (Hr E). specialize (Htk r). lia.
Qed.

Lemma value_ok_valueReader d r :
  value_ok d -> array_ok r -> vr_type r = vr_type (m_valueReader d) ->
  value_ok (d <| m_valueReader := r |>).
Proof.
  intros [[] Hr] Ha Ht. split; [by split|]. cbn. congruence.
Qed.

Lemma read_size_chunk d a :
  value_ok d -> a <> [] -> turn_chunk read_size d a.
Proof.
  intros Hd Ha. destruct a as [|x a]; [done|]. unfold turn_chunk. simpl.
  split_and!; [|split; done|lia|by left].
  apply value_ok_valueReader; [done| |done].
  intros _. unfold max_count, zlen. cbn. pose proof (ub_range x). lia.
Qed.

Lemma read_array_chunk {A} (rd : reader WDImpl A) count push take d a :
  array_lens count push take ->
  chunkable value_ok rd -> progress value_ok rd -> keeps_state rd -> keeps_value rd ->
  value_ok d -> a <> [] ->
  turn_chunk (read_array Now rd count push take) d a.
Proof.
  intros Hl Hc Hp Hks Hkv Hd Ha. unfold turn_chunk, read_array.
  destruct (haveSize (m_valueReader d)) eqn:Hh.
  2:{ pose proof (read_size_chunk d a Hd Ha) as Hsz. unfold turn_chunk in Hsz.
      destruct a as [|x a]; [done|]. simpl in *.
      destruct Hsz as (? & ? & ? & _). split_and!; try done. by left. }
  set (sz := fun d : WDImpl => vr_size (m_valueReader d)).
  set (ct := fun d : WDImpl => count (m_valueReader d)).
  set (pu := fun (v : A) (d : WDImpl) => d <| m_valueReader ::= push v |>).
  assert (Hpush : forall v d, value_ok d -> ct d < sz d -> value_ok (pu v d)).
  { intros v d0 Hd0 Hlt. apply value_ok_valueReader; [done| |by apply Hl].
    apply Hl; [apply Hd0|done]. }
  assert (Hkeep : forall d inp, sz (rd d inp).1.2 = sz d /\ ct (rd d inp).1.2 = ct d).
  { intros d0 i0. unfold sz, ct. by rewrite (Hkv d0 i0). }
  pose proof (read_elems_chunk rd sz ct pu value_ok Hc Hp Hpush
    (fun v d => al_size _ _ _ Hl v _) (fun v d => al_count _ _ _ Hl v _) Hkeep d a Hd) as Hel.
  specialize (Hel (al_le _ _ _ Hl _ (ok_array _ (ok_core _ Hd)) Hh)).
  assert (Hst : m_state (read_elems rd sz ct pu d a).1 = m_state d)
    by (apply read_elems_keeps; done).
  assert (Hty : vr_type (m_valueReader (read_elems rd sz ct pu d a).1)
                = vr_type (m_valueReader d)).
  { apply (read_elems_keeps rd sz ct pu (fun d => vr_type (m_valueReader d))).
    - intros. by rewrite (Hkv _ _).
    - intros. apply Hl. }
  assert (Hhv : haveSize (m_valueReader (read_elems rd sz ct pu d a).1) = true).
  { rewrite <- Hh. apply (read_elems_keeps rd sz ct pu (fun d => haveSize (m_valueReader d))).
    - intros. by rewrite (Hkv _ _).
    - intros. apply Hl. }
  destruct (read_elems rd sz ct pu d a) as [d1 r1]. simpl in Hst, Hty, Hhv.
  destruct Hel as (Hd1 & Hr1 & Hs1 & [[Hfull Hab]|(Hlt & -> & Hab)]).
  - change (count (m_valueReader d1)) with (ct d1).
    change (vr_size (m_valueReader d1)) with (sz d1).
    rewrite (proj2 (Z.eqb_eq (ct d1) (sz d1))) by congruence.
    destruct (al_take _ _ _ Hl _ (ok_array _ (ok_core _ Hd1))) as [Htk Htt].
    destruct (take (m_valueReader d1)) as [v r] eqn:Et. simpl in Htk, Htt.
    unfold ret_make, make. cbv beta iota. split_and!; [done| |done|done|].
    + destruct (value_ok_valueReader d1 r) as [[] ?]; [done..|].
      by (split; [split|]).
    + intros b. rewrite Hab. fold (ct d1) (sz d1).
      rewrite (proj2 (Z.eqb_eq (ct d1) (sz d1))) by congruence. by rewrite Et.
  - fold (ct d1) (sz d1).
    rewrite (proj2 (Z.eqb_neq (ct d1) (sz d1))) by (rewrite Hs1; lia).
    split_and!; [done|split; congruence|destruct a; simpl; [done|lia]|].
    right. split; [done|]. intros b _. by rewrite Hab, Hhv.
Qed.

Lemma ints_lens : array_lens (fun r => zlen (ints r))
  (fun v r => r <| ints ::= fun l => l ++ [v] |>)
  (fun r => (VBooleanArray (ints r), r <| ints := [] |>)).
Proof.
  apply array_lens_intro; try done; unfold max_count, zlen; cbn; intros;
    rewrite ?length_app; simpl; lia.
Qed.
Lemma doubles_lens : array_lens (fun r => zlen (doubles r))
  (fun v r => r <| doubles ::= fun l => l ++ [v] |>)
  (fun r => (VDoubleArray (doubles r), r <| doubles := [] |>)).
Proof.
  apply array_lens_intro; try done; unfold max_count, zlen; cbn; intros;
    rewrite ?length_app; simpl; lia.
Qed.
Lemma strings_lens : array_lens (fun r => zlen (strings r))
  (fun v r => r <| strings ::= fun l => l ++ [v] |>)
  (fun r => (VStringArray (strings r), r <| strings := [] |>)).
Proof.
  apply array_lens_intro; try done; unfold max_count, zlen; cbn; intros;
    rewrite ?length_app; simpl; lia.
Qed.
Hint Resolve ints_lens doubles_lens strings_lens : nt3.

Lemma turn_chunk_ext T T' d a :
  (forall d' b, vr_type (m_valueReader d') = vr_type (m_valueReader d) ->
                T' d' b = T d' b) ->
  turn_chunk T d a -> turn_chunk T' d a.
Proof.
  intros Heq. unfold turn_chunk. rewrite Heq by done.
  destruct (T d a) as [d' r|o d' r].
  - intros (? & [? Hty] & ? & Hb). split_and!; [done..|].
    destruct Hb as [Hb|[-> Hb]]; [left|right].
    + intros b. by rewrite Heq.
    + split; [done|]. intros b ?. rewrite !Heq by done. by apply Hb.
  - intros (? & ? & ? & ? & Hb). split_and!; try done.
    intros b. by rewrite Heq.
Qed.

Lemma ReadValue_turn_chunk d a :
  value_ok d -> a <> [] -> turn_chunk (ReadValue_turn Now) d a.
Proof.
  intros Hd Ha. pose proof (ok_readable d Hd) as Hr.
  destruct (vr_type (m_valueReader d)) eqn:Ht; try done;
  [ apply (turn_chunk_ext (fun d a =>
      of_read Now (fun b => VBoolean (negb (b =? 0))) (read_byte d a)))
  | apply (turn_chunk_ext (fun d a => of_read Now VDouble (on_simple ReadDouble d a)))
  | apply (turn_chunk_ext (fun d a => of_read Now VString (ReadString d a)))
  | apply (turn_chunk_ext (fun d a => of_read Now VRaw (ReadRaw d a)))
  | eapply turn_chunk_ext | eapply turn_chunk_ext | eapply turn_chunk_ext
  | apply (turn_chunk_ext (fun d a => of_read Now VRaw (ReadRaw d a))) ];
  try (intros d' b E; rewrite Ht in E; unfold ReadValue_turn; rewrite E; reflexivity).
  all: first [ apply of_read_chunk | apply read_array_chunk ]; auto with nt3.
Qed.

(** Enough fuel: the input is longer than the number of turns left. *)
Lemma ReadValue_loop_fuel n m d a :
  value_ok d -> (length a < n)%nat -> (length a < m)%nat ->
  ReadValue_loop Now n d a = ReadValue_loop Now m d a.
Proof.
  revert m d a. induction n as [|n IH]; intros [|m] d a Hd Hn Hm; try lia.
  destruct a as [|x a]; [done|]. cbn [ReadValue_loop].
  pose proof (ReadValue_turn_chunk d (x :: a) Hd ltac:(done)) as Ht.
  unfold turn_chunk in Ht. destruct (ReadValue_turn Now d (x :: a)) as [d' r|]; [|done].
  destruct Ht as (? & _ & ? & _). apply IH; [done|simpl in *; lia..].
Qed.

Lemma ReadValue_unfold d a :
  value_ok d -> a <> [] ->
  ReadValue Now d a =
  match ReadValue_turn Now d a with
  | Break d' r => ReadValue Now d' r
  | Return o d' r => (o, d', r)
  end.
Proof.
  intros Hd Ha. destruct a as [|x a]; [done|]. unfold ReadValue at 1.
  cbn [ReadValue_loop].
  pose proof (ReadValue_turn_chunk d (x :: a) Hd ltac:(done)) as Ht.
  unfold turn_chunk in Ht. destruct (ReadValue_turn Now d (x :: a)) as [d' r|]; [|done].
  destruct Ht as (? & _ & ? & _). apply ReadValue_loop_fuel; [done|simpl in *; lia..].
Qed.

Lemma ReadValue_nil d : ReadValue Now d [] = (None, d, []).
Proof. done. Qed.

Lemma ReadValue_chunkable : chunkable value_ok (ReadValue Now).
Proof.
  intros d a. remember (length a) as n eqn:Hn. revert d a Hn.
  induction n as [n IH] using lt_wf_ind; intros d a Hn Hd.
  destruct (decide (a = [])) as [->|Ha]; [done|].
  assert (Hab : forall b, a ++ b <> []) by (by destruct a).
  pose proof (ReadValue_turn_chunk d a Hd Ha) as Ht. unfold turn_chunk in Ht.
  rewrite ReadValue_unfold by done.
  destruct (ReadValue_turn Now d a) as [d' r|o d' r].
  - destruct Ht as (Hd' & Hf & Hl & [Hb|[-> Hb]]).
    + specialize (IH (length r) ltac:(lia) d' r eq_refl Hd').
      assert (E : forall b, ReadValue Now d (a ++ b) = ReadValue Now d' (r ++ b)).
      { intros b. rewrite ReadValue_unfold by done. by rewrite Hb. }
      destruct (ReadValue Now d' r) as [[[v|] d''] r''].
      * destruct IH as [? IH]. split; [done|]. intros b. by rewrite E.
      * destruct IH as (? & ? & IH). split_and!; [done..|].
        intros b Hb'. rewrite E. by apply IH.
    + rewrite ReadValue_nil. split_and!; [done..|]. intros b Hb'.
      rewrite !ReadValue_unfold by done. by rewrite Hb.
  - destruct Ht as ([v ->] & ? & ? & ? & Hb). split; [done|]. intros b.
    rewrite ReadValue_unfold by done. by rewrite Hb.
Qed.

(** The message state is left alone, and no input is made up. *)
Lemma ReadValue_frame d a :
  value_ok d ->
  m_state (ReadValue Now d a).1.2 = m_state d /\
  (length (ReadValue Now d a).2 <= length a)%nat.
Proof.
  remember (length a) as n eqn:Hn. revert d a Hn.
  induction n as [n IH] using lt_wf_ind; intros d a Hn Hd.
  destruct (decide (a = [])) as [->|Ha]; [simpl; split; [done|lia]|].
  pose proof (ReadValue_turn_chunk d a Hd Ha) as Ht. unfold turn_chunk in Ht.
  rewrite ReadValue_unfold by done.
  destruct (ReadValue_turn Now d a) as [d' r|o d' r]; simpl.
  - destruct Ht as (Hd' & [Hs _] & Hl & _).
    destruct (IH (length r) ltac:(lia) d' r eq_refl Hd') as [Hs' Hl'].
    split; [congruence|lia].
  - destruct Ht as (_ & _ & ? & ? & _). split; [done|lia].
Qed.
End Value.

(** ** The message loop *)

(** In these two states a turn may complete a value without consuming a byte
    (the elements of an empty array). *)
Definition value_state (st : State) : nat :=
  match st with
  | kEntryAssign_6Value | kEntryUpdate_4Value => 1
  | _ => 0
  end.

Definition Execute_measure (d : WDImpl) (inp : bytes) : nat :=
  (2 * length inp + value_state (m_state d))%nat.

Lemma DataType_type_readable code t : DataType_type code = Some t -> readable t = true.
Proof.
  unfold DataType_type. intros Hc.
  repeat match type of Hc with
         | (match ?x with _ => _ end) = _ => destruct x; try discriminate Hc
         end; by simplify_eq.
Qed.

Lemma decoder_ok_EmitError msg d : core_ok d -> decoder_ok (EmitError msg d).
Proof. intros []. by split. Qed.

Lemma decoder_ok_value d :
  decoder_ok d -> expects_value (m_state d) = true -> value_ok d.
Proof. intros [? He] Hs. split; auto. Qed.

Section Message.
Context (Now : nat -> Z) `{MessageHandler3 H}.

Definition step_ok (T : WDImpl -> H -> bytes -> WDImpl * H * bytes) d h a : Prop :=
  let '(d', h', r) := T d h a in
  decoder_ok d' /\ (Execute_measure d' r < Execute_measure d a)%nat /\
  ((forall b, T d h (a ++ b) = (d', h', r ++ b)) \/
   (r = [] /\ h' = h /\ m_state d' = m_state d /\
    forall b, b <> [] -> T d h (a ++ b) = T d' h b)).

Lemma step_ok_ext T T' d h a :
  (forall d' h b, m_state d' = m_state d -> T' d' h b = T d' h b) ->
  step_ok T d h a -> step_ok T' d h a.
Proof.
  intros Heq. unfold step_ok. rewrite Heq by done. destruct (T d h a) as [[d' h'] r].
  intros (? & ? & Hb). split_and!; [done..|].
  destruct Hb as [Hb|(-> & -> & Hs & Hb)]; [left|right].
  - intros b. by rewrite Heq.
  - split_and!; try done. intros b ?. rewrite !Heq by done. by apply Hb.
Qed.

Lemma with_read_step {A} (P : WDImpl -> Prop) (rd : reader WDImpl A) k d h a :
  chunkable P rd -> m_state (rd d a).1.2 = m_state d -> P d -> a <> [] ->
  (forall d', P d' -> m_state d' = m_state d -> decoder_ok d') ->
  (forall v d', P d' -> m_state d' = m_state d -> decoder_ok (k v d' h).1) ->
  (forall v d' r, rd d a = (Some v, d', r) ->
     (Execute_measure (k v d' h).1 r < Execute_measure d a)%nat) ->
  step_ok (with_read rd k) d h a.
Proof.
  intros Hc Hs Hd Ha HP Hk Hm. unfold step_ok, with_read.
  destruct (rd d a) as [[[v|] d'] r] eqn:E; simpl in Hs.
  - destruct (chunkable_some _ _ _ _ _ _ _ Hc Hd E) as [Hd' Hb].
    specialize (Hk v d' Hd' Hs). specialize (Hm v d' r eq_refl).
    destruct (k v d' h) as [d'' h'] eqn:Ek. simpl in *. split_and!; [done..|].
    left. intros b. by rewrite Hb, Ek.
  - destruct (chunkable_none _ _ _ _ _ _ Hc Hd E) as (Hd' & -> & Hb).
    split_and!; [auto|..].
    + unfold Execute_measure. rewrite Hs. destruct a; simpl; [done|lia].
    + right. split_and!; [done..|]. intros b Hne. by rewrite Hb.
Qed.

Lemma read_step {A} (rd : reader WDImpl A) k d h a :
  chunkable decoder_ok rd -> progress decoder_ok rd -> keeps_state rd ->
  decoder_ok d -> a <> [] ->
  (forall v d', decoder_ok d' -> m_state d' = m_state d -> decoder_ok (k v d' h).1) ->
  step_ok (with_read rd k) d h a.
Proof.
  intros Hc Hp Hs Hd Ha Hk. apply (with_read_step decoder_ok); try done.
  intros v d' r E. pose proof (Hp _ _ _ _ _ Hd E). unfold Execute_measure.
  destruct (m_state (k v d' h).1); simpl; lia.
Qed.

Lemma emit_ok c d (h : H) :
  core_ok d -> m_state d = kStart ->
  decoder_ok (emit c d h).1 /\ value_state (m_state (emit c d h).1) = 0%nat.
Proof.
  intros Hc Hs. unfold emit. destruct (handle3 c h) as [h' [msg|]]; simpl.
  - split; [by apply decoder_ok_EmitError|done].
  - rewrite Hs. split; [|done]. split; [done|]. by rewrite Hs.
Qed.

Lemma core_ok_state d st : core_ok d -> core_ok (d <| m_state := st |>).
Proof. intros []. by split. Qed.

Lemma value_step (k : Value -> WDImpl -> H -> WDImpl * H) d h a :
  decoder_ok d -> a <> [] -> expects_value (m_state d) = true ->
  value_state (m_state d) = 1%nat ->
  (forall v d', core_ok d' ->
     decoder_ok (k v d' h).1 /\ value_state (m_state (k v d' h).1) = 0%nat) ->
  step_ok (with_read (ReadValue Now) k) d h a.
Proof.
  intros Hd Ha He Hv Hk. pose proof (decoder_ok_value d Hd He) as Hvd.
  apply (with_read_step value_ok); try done.
  - apply ReadValue_chunkable.
  - by apply ReadValue_frame.
  - intros d' [? ?] _. by split.
  - intros v d' [? ?] _. by apply Hk.
  - intros v d' r E. destruct (ReadValue_frame Now d a Hvd) as [_ Hl].
    pose proof (ReadValue_chunkable Now d a Hvd) as Hc. rewrite E in Hl, Hc. simpl in Hl.
    destruct Hc as [[Hc _] _]. unfold Execute_measure.
    rewrite (proj2 (Hk v d' Hc)), Hv. lia.
Qed.

Lemma dispatch_ok v d (h : H) :
  core_ok d -> m_state d = kStart -> decoder_ok (dispatch v d h).1.
Proof.
  intros Hd Hs. unfold dispatch, goto.
  repeat match goal with |- decoder_ok (fst (match ?x with _ => _ end)) => destruct x end.
  all: first [ by apply emit_ok
             | by apply decoder_ok_EmitError
             | split; [by apply core_ok_state|done] ].
Qed.

Lemma goto_type_ok st v d (h : H) : core_ok d -> decoder_ok (goto_type st v d h).1.
Proof.
  intros Hd. unfold goto_type. destruct (DataType_type v) eqn:E.
  - destruct Hd. split; [by split|]. intros _. by apply DataType_type_readable in E.
  - by apply decoder_ok_EmitError.
Qed.

Lemma Execute_step_ok d (h : H) a :
  decoder_ok d -> a <> [] -> m_state d <> kError -> step_ok (Execute_step Now) d h a.
Proof.
  intros Hd Ha Hne. destruct (m_state d) eqn:Hs; try done.
  all: eapply step_ok_ext;
    [ intros d' h' b E; rewrite Hs in E; unfold Execute_step; rewrite E; reflexivity | ].
  all: first [ apply value_step; rewrite ?Hs; try done;
               intros v d' Hd'; apply emit_ok; [by apply core_ok_state|done]
             | apply read_step; eauto with nt3 ].
  all: intros v d' [Hc He] Hs'; rewrite Hs in Hs'; rewrite Hs' in He.
  all: first
    [ by apply dispatch_ok
    | by apply goto_type_ok
    | apply emit_ok; [by apply core_ok_state|done]
    | by (destruct Hc; split; [split|])
    | case_match; first [ by apply decoder_ok_EmitError
                        | apply emit_ok; [by apply core_ok_state|done]
                        | by (destruct Hc; split; [split|]) ] ].
Qed.

(** *** Termination and chunking *)

Definition run_ok (s : WDImpl * H * bytes) : Prop := decoder_ok s.1.1.
Definition run_measure (s : WDImpl * H * bytes) : nat := Execute_measure s.1.1 s.2.

Lemma Execute_body_dec s s' :
  run_ok s -> Execute_body Now s = Some s' ->
  run_ok s' /\ (run_measure s' < run_measure s)%nat.
Proof.
  destruct s as [[d h] inp]. unfold Execute_body, run_ok, run_measure. intros Hd Hb.
  destruct (bool_decide_reflect (inp = [])); [done|].
  destruct (bool_decide_reflect (m_state d = kError)); [done|]. simplify_eq/=.
  pose proof (Execute_step_ok d h inp Hd ltac:(done) ltac:(done)) as Hs.
  unfold step_ok in Hs. destruct (Execute_step Now d h inp) as [[d' h'] r].
  destruct Hs as (? & ? & _). done.
Qed.

Lemma Execute_fuel_enough (d : WDImpl) (h : H) inp :
  (run_measure (d, h, inp) < 2 * length inp + 2)%nat.
Proof. unfold run_measure, Execute_measure. simpl. destruct (m_state d); simpl; lia. Qed.

Lemma WDImpl_Execute_exit d (h : H) inp :
  decoder_ok d ->
  Execute_body Now (WDImpl_Execute Now d h inp) = None /\
  decoder_ok (WDImpl_Execute Now d h inp).1.1.
Proof.
  intros Hd. apply (while_exit _ run_ok run_measure Execute_body_dec); [done|].
  apply Execute_fuel_enough.
Qed.

Lemma WDImpl_Execute_unfold d (h : H) inp :
  decoder_ok d ->
  WDImpl_Execute Now d h inp =
  match Execute_body Now (d, h, inp) with
  | None => (d, h, inp)
  | Some (d', h', inp') => WDImpl_Execute Now d' h' inp'
  end.
Proof.
  intros Hd. unfold WDImpl_Execute at 1.
  rewrite (while_unfold _ run_ok run_measure Execute_body_dec);
    [|done|apply Execute_fuel_enough].
  destruct (Execute_body Now (d, h, inp)) as [[[d' h'] r]|] eqn:E; [|done].
  destruct (Execute_body_dec (d, h, inp) (d', h', r) Hd E) as [Hd' Hm].
  pose proof (Execute_fuel_enough d h inp).
  apply (while_fuel _ run_ok run_measure Execute_body_dec); [done|lia|].
  apply Execute_fuel_enough.
Qed.

Lemma WDImpl_Execute_nil d (h : H) : WDImpl_Execute Now d h [] = (d, h, []).
Proof. done. Qed.

Lemma WDImpl_Execute_error d (h : H) inp :
  m_state d = kError -> WDImpl_Execute Now d h inp = (d, h, inp).
Proof.
  intros Hs. unfold WDImpl_Execute. rewrite Nat.add_comm. simpl.
  rewrite (bool_decide_eq_true_2 _ Hs), orb_true_r. done.
Qed.

Lemma WDImpl_Execute_step d (h : H) inp :
  decoder_ok d -> inp <> [] -> m_state d <> kError ->
  WDImpl_Execute Now d h inp =
  let '(d', h', r) := Execute_step Now d h inp in WDImpl_Execute Now d' h' r.
Proof.
  intros Hd Hi Hs. rewrite WDImpl_Execute_unfold by done. unfold Execute_body.
  rewrite !bool_decide_eq_false_2 by done. simpl.
  by destruct (Execute_step Now d h inp) as [[??]?].
Qed.

Lemma WDImpl_Execute_app d (h : H) a b :
  decoder_ok d ->
  WDImpl_Execute Now d h (a ++ b) =
  let '(d1, h1, r1) := WDImpl_Execute Now d h a in WDImpl_Execute Now d1 h1 (r1 ++ b).
Proof.
  remember (Execute_measure d a) as n eqn:Hn. revert d h a Hn.
  induction n as [n IH] using lt_wf_ind; intros d h a Hn Hd.
  destruct (decide (a = [])) as [->|Ha]; [done|].
  destruct (decide (b = [])) as [->|Hb].
  { rewrite app_nil_r. destruct (WDImpl_Execute_exit d h a Hd) as [He Hd'].
    destruct (WDImpl_Execute Now d h a) as [[d1 h1] r1]. rewrite app_nil_r.
    rewrite WDImpl_Execute_unfold by done. by rewrite He. }
  destruct (decide (m_state d = kError)) as [Hs|Hs].
  { rewrite (WDImpl_Execute_error d h a) by done.
    by rewrite !WDImpl_Execute_error. }
  assert (a ++ b <> []) by (by destruct a).
  rewrite !(WDImpl_Execute_step d h) by done.
  pose proof (Execute_step_ok d h a Hd Ha Hs) as Hst. unfold step_ok in Hst.
  destruct (Execute_step Now d h a) as [[d' h'] r].
  destruct Hst as (Hd' & Hm & [Hc|(-> & -> & Hs' & Hc)]).
  - rewrite Hc. apply (IH (Execute_measure d' r)); [lia|done|done].
  - rewrite Hc by done. rewrite WDImpl_Execute_nil. simpl.
    rewrite (WDImpl_Execute_step d') by congruence. done.
Qed.
End Message.

(** ** What the decoder promises *)

(** The bytes as they come from the stream, one read at a time. *)
Definition feed (Now : nat -> Z) `{MessageHandler3 H} (d : WDImpl) (h : H)
    (chunks : list bytes) : WDImpl * H :=
  foldl (fun '(d, h) c => (WDImpl_Execute Now d h c).1) (d, h) chunks.

Section Promises.
Context (Now : nat -> Z) `{MessageHandler3 H}.

Lemma WDImpl_Execute_rest d (h : H) inp :
  decoder_ok d ->
  (WDImpl_Execute Now d h inp).2 = [] \/
  m_state (WDImpl_Execute Now d h inp).1.1 = kError.
Proof.
  intros Hd. destruct (WDImpl_Execute_exit Now d h inp Hd) as [He _].
  destruct (WDImpl_Execute Now d h inp) as [[d' h'] r]. unfold Execute_body in He.
  destruct (bool_decide_reflect (r = [])); [by left|].
  destruct (bool_decide_reflect (m_state d' = kError)); [by right|done].
Qed.

Lemma feed_concat chunks d (h : H) :
  decoder_ok d -> feed Now d h chunks = (WDImpl_Execute Now d h (concat chunks)).1.
Proof.
  revert d h. induction chunks as [|c cs IH]; intros d h Hd; [done|]. simpl.
  rewrite WDImpl_Execute_app by done. unfold feed. simpl.
  pose proof (WDImpl_Execute_rest d h c Hd) as Hr.
  pose proof (proj2 (WDImpl_Execute_exit Now d h c Hd)) as Hd'.
  destruct (WDImpl_Execute Now d h c) as [[d' h'] r]. simpl in *.
  fold (feed Now d' h' cs). rewrite IH by done. destruct Hr as [->|Hr]; [done|].
  by rewrite !WDImpl_Execute_error.
Qed.
End Promises.

Lemma decoder_ok_init : decoder_ok WDImpl_init.
Proof. split; [|done]. split; try done. Qed.
