(* ===== verification/Wire3RoundTrip.v ===== *)
(** * Wire3RoundTrip: what the version 3 decoder makes of encoded messages

    The encoder of [WireEncoder3.v] against the decoder of [WireDecoder3.v]: a
    sequence of messages that is encoded, cut into arbitrary chunks and decoded
    reaches the handler as the same sequence of messages, up to what the wire
    format cannot carry. *)

From S2P Require Import Prelude NtTypes Streams Leb128 Message3.
From S2P Require Import WireEncoder3 WireDecoder3 WireDecoder3Proofs.
Local Open Scope Z_scope.

(** ** What the wire carries *)

(** The wire has one byte for the number of elements. *)
Definition cut {A} (l : list A) : list A := take 255 l.

(** Integers and floats travel as doubles; boolean array elements as 0 or 1. *)
Definition wire_data (v : ValueData) : ValueData :=
  match v with
  | VInteger z => VDouble (wrap 64 (f64_of_int z))
  | VFloat x => VDouble (wrap 64 (f64_of_f32 x))
  | VDouble x => VDouble (wrap 64 x)
  | VBooleanArray l => VBooleanArray ((fun x => if x =? 0 then 0 else 1) <$> cut l)
  | VIntegerArray l => VDoubleArray ((fun x => wrap 64 (f64_of_int x)) <$> cut l)
  | VFloatArray l => VDoubleArray ((fun x => wrap 64 (f64_of_f32 x)) <$> cut l)
  | VDoubleArray l => VDoubleArray (wrap 64 <$> cut l)
  | VStringArray l => VStringArray (cut l)
  | v => v
  end.

(** The message as the receiver sees it; a value is stamped with the time [t] of
    its decoding. *)
Definition wire_call (t : Z) (c : Call3) : Call3 :=
  match c with
  | ProtoUnsup rev => ProtoUnsup (wrap 16 rev)
  | ClientHello self_id rev => ClientHello self_id (wrap 16 rev)
  | ServerHello flags self_id => ServerHello (wrap 8 flags) self_id
  | EntryAssign name id seq_num value flags =>
      EntryAssign name (wrap 16 id) (wrap 16 seq_num)
        (Value_make t (wire_data (data value)) 0) (wrap 8 flags)
  | EntryUpdate id seq_num value =>
      EntryUpdate (wrap 16 id) (wrap 16 seq_num) (Value_make t (wire_data (data value)) 0)
  | FlagsUpdate id flags => FlagsUpdate (wrap 16 id) (wrap 8 flags)
  | EntryDelete id => EntryDelete (wrap 16 id)
  | ExecuteRpc id uid params => ExecuteRpc (wrap 16 id) (wrap 16 uid) params
  | RpcResponse id uid result => RpcResponse (wrap 16 id) (wrap 16 uid) result
  | c => c
  end.

Definition call_value (c : Call3) : option Value :=
  match c with
  | EntryAssign _ _ _ v _ | EntryUpdate _ _ v => Some v
  | _ => None
  end.

(** Lengths of objects in memory fit a [size_t]. *)
Definition fits (n : nat) : Prop := Z.of_nat n < 2 ^ 64.

Definition data_fits (v : ValueData) : Prop :=
  match v with
  | VString s => fits (length (bytes_of_string s))
  | VRaw bs => fits (length bs)
  | VStringArray l => Forall (fun s => fits (length (bytes_of_string s))) l
  | _ => True
  end.

(** The messages that can be sent: a value must be assigned, and the hello of a
    protocol before 3.0 has no identity on the wire. *)
Definition sendable (c : Call3) : Prop :=
  match c with
  | ClientHello self_id rev =>
      0x300 <= wrap 16 rev /\ fits (length (bytes_of_string self_id))
  | ServerHello _ self_id => fits (length (bytes_of_string self_id))
  | EntryAssign name _ _ v _ =>
      fits (length (bytes_of_string name)) /\ value_valid v = true /\ data_fits (data v)
  | EntryUpdate _ _ v => value_valid v = true /\ data_fits (data v)
  | ExecuteRpc _ _ bs | RpcResponse _ _ bs => fits (length bs)
  | _ => True
  end.

Definition empty_array (v : ValueData) : bool :=
  match v with
  | VBooleanArray [] | VIntegerArray [] | VFloatArray [] | VDoubleArray []
  | VStringArray [] => true
  | _ => false
  end.

Definition encode (c : Call3) : bytes := snd (WireEncode (Message3_make c)).

(** The items of a message, in order. *)
Definition encode_items (c : Call3) : bytes :=
  match c with
  | KeepAlive => Write8 0x00
  | ServerHelloDone => Write8 0x03
  | ClientHelloDone => Write8 0x05
  | ClearEntries => Write8 0x14 ++ Write32 kClearAllMagic
  | ProtoUnsup rev => Write8 0x02 ++ Write16 rev
  | ClientHello self_id rev => Write8 0x01 ++ Write16 rev ++ WriteString self_id
  | ServerHello flags self_id => Write8 0x04 ++ Write8 flags ++ WriteString self_id
  | EntryAssign name id seq_num v flags =>
      Write8 0x10 ++ WriteString name ++ snd (WriteType (value_type v)) ++
      Write16 id ++ Write16 seq_num ++ Write8 flags ++ snd (WriteValue v)
  | EntryUpdate id seq_num v =>
      Write8 0x11 ++ Write16 id ++ Write16 seq_num ++
      snd (WriteType (value_type v)) ++ snd (WriteValue v)
  | FlagsUpdate id flags => Write8 0x12 ++ Write16 id ++ Write8 flags
  | EntryDelete id => Write8 0x13 ++ Write16 id
  | ExecuteRpc id uid params => Write8 0x20 ++ Write16 id ++ Write16 uid ++ WriteRaw params
  | RpcResponse id uid res => Write8 0x21 ++ Write16 id ++ Write16 uid ++ WriteRaw res
  end.

Lemma encode_eq c : encode c = encode_items c.
Proof.
  destruct c; try reflexivity.
  - change (encode _) with (snd (WireEncodeEntryAssign name id seq_num value flags)).
    unfold WireEncodeEntryAssign, encode_items. by destruct (WriteValue value).
  - change (encode _) with (snd (WireEncodeEntryUpdate id seq_num value)).
    unfold WireEncodeEntryUpdate, encode_items. by destruct (WriteValue value).
  - change (encode _) with
      (WireEncodeExecuteRpc id uid (bytes_of_string (string_of_bytes params))).
    by rewrite bytes_of_string_of_bytes.
  - change (encode _) with
      (WireEncodeRpcResponse id uid (bytes_of_string (string_of_bytes result))).
    by rewrite bytes_of_string_of_bytes.
Qed.

(** ** Detail readers on what the writers wrote *)

Lemma ReadSimple_spec n bs v c rest :
  bs <> [] -> 0 <= v < 2 ^ (8 * c) -> 0 <= c -> n = c + zlen bs -> n <= 8 ->
  ReadSimple n (MkSimple v c) (bs ++ rest)
  = (Some (foldl (fun acc b => acc * 256 + ub b) v bs), MkSimple 0 0, rest).
Proof.
  revert v c. induction bs as [|b bs IH]; intros v c Hne Hv Hc Hn H8; [done|].
  rewrite zlen_cons in Hn. pose proof (zlen_nonneg bs). pose proof (ub_range b) as Hb.
  assert (E8 : 2 ^ (8 * (c + 1)) = 256 * 2 ^ (8 * c)).
  { replace (8 * (c + 1)) with (8 + 8 * c) by lia. by rewrite Z.pow_add_r by lia. }
  assert (2 ^ (8 * (c + 1)) <= 2 ^ 64) by (apply Z.pow_le_mono_r; lia).
  simpl. change 255 with (Z.ones 8). rewrite Z.land_ones by lia. change (2 ^ 8) with 256.
  rewrite (Z.mod_small (ub b)) by lia.
  rewrite lor_shiftl_add by (change (2 ^ 8) with 256; lia). change (2 ^ 8) with 256.
  rewrite wrap_small by lia.
  destruct (Z.leb_spec n (c + 1)).
  - destruct bs; [done|]. rewrite zlen_cons in *. pose proof (zlen_nonneg bs). lia.
  - apply IH; try lia. intros ->. unfold zlen in *. simpl in *. lia.
Qed.

Lemma ReadSimple_be n v rest :
  (0 < n <= 8)%nat ->
  ReadSimple (Z.of_nat n) SimpleValueReader_init (be_split n v ++ rest)
  = (Some (wrap (8 * Z.of_nat n) v), SimpleValueReader_init, rest).
Proof.
  intros Hn. rewrite <- be_combine_split. unfold SimpleValueReader_init, be_combine.
  pose proof (length_be_split n v) as Hl.
  apply ReadSimple_spec; unfold zlen; rewrite ?Hl; try (simpl; lia).
  intros E. rewrite E in Hl. simpl in Hl. lia.
Qed.

Lemma ReadBuf_spec bs rest :
  fits (length bs) ->
  ReadBuf (Uleb128Reader_init, LenReader_init) ((WriteUleb128 (zlen bs) ++ bs) ++ rest)
  = (Some bs, (Uleb128Reader_init, LenReader_init), rest).
Proof.
  intros Hf. unfold ReadBuf, fits, zlen in *. cbn [len LenReader_init].
  rewrite <- app_assoc, ReadOne_WriteUleb128 by lia.
  rewrite ReadData_eq by (unfold zlen; simpl; lia). unfold zlen. simpl.
  rewrite Z.sub_0_r, Nat2Z.id, length_app.
  rewrite (proj2 (Z.leb_le _ _)) by lia. by rewrite take_app_length, drop_app_length.
Qed.

(** The decoder with nothing half read. *)
Definition fresh (st : State) (vr : ValueReader) (err str : string)
    (id flags seq : Z) (clock : nat) : WDImpl :=
  MkWD st Uleb128Reader_init SimpleValueReader_init LenReader_init LenReader_init
    vr err str id flags seq clock.

Lemma fresh_ok st vr err str id flags seq clock :
  array_ok vr -> (expects_value st = true -> readable (vr_type vr) = true) ->
  decoder_ok (fresh st vr err str id flags seq clock).
Proof. intros Hv He. split; [|done]. by split. Qed.

(** [wrote rd w v]: a fresh decoder reads [v] from what was written as [w]. *)
Definition wrote {A} (rd : reader WDImpl A) (w : bytes) (v : A) : Prop :=
  w <> [] /\
  forall st vr err str id flags seq clock rest,
    rd (fresh st vr err str id flags seq clock) (w ++ rest)
    = (Some v, fresh st vr err str id flags seq clock, rest).

Create HintDb wrote discriminated.

Lemma wrote_8 v : wrote read_byte (Write8 v) (wrap 8 v).
Proof. split; [done|]. intros. unfold Write8. simpl. by rewrite ub_u8. Qed.

Lemma wrote_16 v : wrote (on_simple Read16) (Write16 v) (wrap 16 v).
Proof.
  split; [done|]. intros. rewrite Write16_be. unfold on_simple, Read16, rmap. cbn [m_simpleReader fresh].
  change 2 with (Z.of_nat 2). rewrite ReadSimple_be by lia. cbn -[wrap].
  by rewrite wrap_wrap.
Qed.

Lemma wrote_32 v : wrote (on_simple Read32) (Write32 v) (wrap 32 v).
Proof.
  split; [done|]. intros. rewrite Write32_be. unfold on_simple, Read32, rmap. cbn [m_simpleReader fresh].
  change 4 with (Z.of_nat 4). rewrite ReadSimple_be by lia. cbn -[wrap].
  by rewrite wrap_wrap.
Qed.

Lemma wrote_Double v : wrote (on_simple ReadDouble) (WriteDouble v) (wrap 64 v).
Proof.
  split; [done|]. intros. rewrite WriteDouble_be.
  unfold on_simple, ReadDouble, Read64. cbn [m_simpleReader fresh].
  change 8 with (Z.of_nat 8). by rewrite ReadSimple_be by lia.
Qed.

Lemma wrote_Raw bs : fits (length bs) -> wrote ReadRaw (WriteRaw bs) bs.
Proof.
  intros Hf. split.
  - unfold WriteRaw. by destruct (WriteUleb128 (zlen bs)) eqn:E;
      [apply WriteUleb128_nonnil in E|].
  - intros. unfold ReadRaw, WriteRaw. cbn [m_ulebReader m_rawReader fresh].
    by rewrite ReadBuf_spec.
Qed.

Lemma wrote_String s :
  fits (length (bytes_of_string s)) -> wrote ReadString (WriteString s) s.
Proof.
  intros Hf. split.
  - unfold WriteString. by destruct (WriteUleb128 _) eqn:E;
      [apply WriteUleb128_nonnil in E|].
  - intros. unfold ReadString, WriteString. cbn [m_ulebReader m_stringReader fresh].
    rewrite ReadBuf_spec by done. simpl. by rewrite string_of_bytes_of_string.
Qed.

Lemma wrote_rmap {A B} (f : A -> B) rd w v : wrote rd w v -> wrote (rmap f rd) w (f v).
Proof. intros [? Hw]. split; [done|]. intros. unfold rmap. by rewrite Hw. Qed.

#[export] Hint Resolve wrote_8 wrote_16 wrote_32 wrote_Double wrote_Raw wrote_String : wrote.

(** ** Values *)

Section Arrays.
Context (Now : nat -> Z) {A B : Type} (t : NT_Type) (rd : reader WDImpl A).
Context (count : ValueReader -> Z) (push : A -> ValueReader -> ValueReader).
Context (take : ValueReader -> ValueData * ValueReader).
Context (Hlens : array_lens count push take).
Context (Hc : chunkable value_ok rd) (Hp : progress value_ok rd).
Context (Hks : keeps_state rd) (Hkv : keeps_value rd).
Context (wr : B -> bytes) (val : B -> A).

Let sz (d : WDImpl) := vr_size (m_valueReader d).
Let ct (d : WDImpl) := count (m_valueReader d).
Let pu (v : A) (d : WDImpl) := d <| m_valueReader ::= push v |>.

Lemma pu_ok v d : value_ok d -> ct d < sz d -> value_ok (pu v d).
Proof using Hlens.
  intros Hd Hlt. apply value_ok_valueReader; [done| |by apply Hlens].
  apply Hlens; [apply Hd|done].
Qed.

Lemma rd_keeps_size d inp : sz (rd d inp).1.2 = sz d /\ ct (rd d inp).1.2 = ct d.
Proof using Hkv. unfold sz, ct. by rewrite (Hkv d inp). Qed.

Lemma read_elems_wrote l st vr err str id flags seq clock rest :
  Forall (fun x => wrote rd (wr x) (val x)) l ->
  array_ok vr -> readable (vr_type vr) = true -> count vr + zlen l = vr_size vr ->
  read_elems rd sz ct pu (fresh st vr err str id flags seq clock)
    (concat (wr <$> l) ++ rest)
  = (fresh st (foldl (fun r x => push (val x) r) vr l) err str id flags seq clock, rest).
Proof using Hlens Hc Hp Hkv.
  intros Hl. revert vr.
  induction Hl as [|x l [Hne Hx] Hl IH]; intros vr Ha Hr Hn.
  - apply (read_elems_stop rd sz ct pu value_ok Hc Hp pu_ok rd_keeps_size).
    + split; [by split|done].
    + unfold sz, ct. cbn. unfold zlen in Hn. simpl in Hn. lia.
  - rewrite zlen_cons in Hn. pose proof (zlen_nonneg l). simpl.
    rewrite (read_elems_cons rd sz ct pu value_ok Hc Hp pu_ok rd_keeps_size).
    + rewrite <- app_assoc, Hx. apply IH.
      * apply Hlens; [done|lia].
      * by rewrite (al_type _ _ _ Hlens).
      * rewrite (al_count _ _ _ Hlens), (al_size _ _ _ Hlens). lia.
    + split; [by split|done].
    + by destruct (wr x).
    + unfold sz, ct. cbn. lia.
Qed.

Context (Ht : forall d inp, vr_type (m_valueReader d) = t ->
  ReadValue_turn Now d inp = read_array Now rd count push take d inp).
Context (Hreadable : readable t = true).
Context (Hcount : forall n, count (SetSize n (ValueReader_make t)) = 0).

Lemma ReadValue_array V r' l st err str id flags seq clock rest :
  Forall (fun x => wrote rd (wr x) (val x)) l -> zlen l <= 255 ->
  take (foldl (fun r x => push (val x) r) (SetSize (zlen l) (ValueReader_make t)) l)
    = (V, r') ->
  l <> [] \/ rest <> [] ->
  ReadValue Now (fresh st (ValueReader_make t) err str id flags seq clock)
    ((Write8 (zlen l) ++ concat (wr <$> l)) ++ rest)
  = (Some (Value_make (Now clock) V 0), fresh st r' err str id flags seq (S clock), rest).
Proof using All.
  intros Hl Hn Htk Hne. pose proof (zlen_nonneg l).
  set (vr := SetSize (zlen l) (ValueReader_make t)) in *.
  assert (Hvr : array_ok vr) by (intros _; unfold max_count, zlen; simpl; lia).
  rewrite ReadValue_unfold; [|split; [by split|done]|done].
  rewrite Ht by done. unfold read_array, Write8. simpl.
  rewrite ub_u8, wrap_small by (change (2 ^ 8) with 256; lia).
  change (_ <| m_valueReader ::= _ |>) with (fresh st vr err str id flags seq clock).
  rewrite ReadValue_unfold.
  2:{ split; [by split|done]. }
  2:{ destruct Hl as [|x l [Hx _] _]; [by destruct Hne|]. simpl. by destruct (wr x). }
  rewrite Ht by done. unfold read_array. cbn [m_valueReader fresh haveSize vr SetSize].
  fold vr. rewrite (read_elems_wrote l); try done; [|unfold vr; rewrite Hcount; done].
  cbn [m_valueReader fresh]. rewrite Htk.
  assert (E : forall l r, count (foldl (fun r x => push (val x) r) r l) = count r + zlen l
            /\ vr_size (foldl (fun r x => push (val x) r) r l) = vr_size r).
  { clear -Hlens. induction l as [|x l IH]; intros r; [unfold zlen; simpl; lia|]. simpl.
    destruct (IH (push (val x) r)) as [-> ->].
    rewrite (al_count _ _ _ Hlens), (al_size _ _ _ Hlens), zlen_cons. lia. }
  destruct (E l vr) as [-> ->]. unfold vr at 1 2. rewrite Hcount. simpl.
  by rewrite Z.eqb_refl.
Qed.
End Arrays.

Lemma WriteArray_cut {A} (wr : A -> bytes) l :
  WriteArray wr l = Write8 (zlen (cut l)) ++ concat (wr <$> cut l).
Proof.
  unfold WriteArray, cut, zlen. rewrite length_take.
  destruct (Z.ltb_spec 255 (Z.of_nat (length l))).
  - by replace (Z.of_nat (255 `min` length l)) with 255 by lia.
  - rewrite Nat.min_r by lia. rewrite Nat2Z.id. by rewrite !take_ge by lia.
Qed.

Lemma zlen_cut {A} (l : list A) : zlen (cut l) <= 255.
Proof. unfold cut, zlen. rewrite length_take. lia. Qed.

Lemma cut_nil {A} (l : list A) : cut l = [] -> l = [].
Proof. by destruct l. Qed.

Section Push.
Context {B : Type}.
Lemma push_ints (val : B -> Z) l r :
  foldl (fun r x => r <| ints ::= fun l => l ++ [val x] |>) r l
  = r <| ints ::= fun l0 => l0 ++ (val <$> l) |>.
Proof.
  revert r. induction l as [|x l IH]; intros r; simpl.
  - destruct r. unfold fupd. cbn. by rewrite app_nil_r.
  - rewrite IH. destruct r. unfold fupd. cbn. by rewrite <- app_assoc.
Qed.
Lemma push_doubles (val : B -> Z) l r :
  foldl (fun r x => r <| doubles ::= fun l => l ++ [val x] |>) r l
  = r <| doubles ::= fun l0 => l0 ++ (val <$> l) |>.
Proof.
  revert r. induction l as [|x l IH]; intros r; simpl.
  - destruct r. unfold fupd. cbn. by rewrite app_nil_r.
  - rewrite IH. destruct r. unfold fupd. cbn. by rewrite <- app_assoc.
Qed.
Lemma push_strings (val : B -> string) l r :
  foldl (fun r x => r <| strings ::= fun l => l ++ [val x] |>) r l
  = r <| strings ::= fun l0 => l0 ++ (val <$> l) |>.
Proof.
  revert r. induction l as [|x l IH]; intros r; simpl.
  - destruct r. unfold fupd. cbn. by rewrite app_nil_r.
  - rewrite IH. destruct r. unfold fupd. cbn. by rewrite <- app_assoc.
Qed.
End Push.

Section Values.
Context (Now : nat -> Z).

(** The arrays are moved out of the value reader. *)
Definition after (t : NT_Type) (n : Z) : ValueReader := MkValueReader t true n [] [] [].

Lemma after_ok t n : 0 <= n -> array_ok (after t n).
Proof. intros ? _. unfold max_count, zlen. simpl. lia. Qed.


Definition wire_type (v : Value) : NT_Type := data_type (wire_data (data v)).

Lemma wire_type_code v :
  value_valid v = true ->
  exists code, snd (WriteType (value_type v)) = Write8 code /\
               DataType_type (wrap 8 code) = Some (wire_type v).
Proof.
  unfold value_valid, value_type, wire_type.
  destruct (data v); try done; intros _; eexists; split; reflexivity.
Qed.

Lemma ReadValue_scalar {A} t (f : A -> ValueData) (rd : reader WDImpl A) w v V
    st err str id flags seq clock rest :
  readable t = true ->
  (forall d inp, vr_type (m_valueReader d) = t ->
     ReadValue_turn Now d inp = of_read Now f (rd d inp)) ->
  wrote rd w v -> f v = V ->
  ReadValue Now (fresh st (ValueReader_make t) err str id flags seq clock) (w ++ rest)
  = (Some (Value_make (Now clock) V 0),
     fresh st (ValueReader_make t) err str id flags seq (S clock), rest).
Proof.
  intros Hr Ht [Hne Hw] <-. rewrite ReadValue_unfold.
  - rewrite Ht by done. by rewrite Hw.
  - by split.
  - by destruct w.
Qed.

Ltac turn_of := intros d inp E; unfold ReadValue_turn; rewrite E; reflexivity.
Ltac scalar f rd :=
  eexists; split;
    [|eapply (ReadValue_scalar _ f rd); [done|turn_of|by eauto with wrote|]];
    [done|].
Ltac array lens push :=
  intros Hl Hne; rewrite WriteArray_cut;
  eapply (ReadValue_array Now _ _ _ _ _ lens); try turn_of; eauto with nt3;
  [ apply zlen_cut | by rewrite push
  | destruct Hne as [Hne|]; [left; contradict Hne; by apply cut_nil|by right] ].

Lemma ReadValue_ints wr val (l : list Z) st err str id flags seq clock rest :
  Forall (fun x => wrote (rmap (fun b => if b =? 0 then 0 else 1) read_byte) (wr x) (val x)) (cut l) -> l <> [] \/ rest <> [] ->
  ReadValue Now (fresh st (ValueReader_make NT_BOOLEAN_ARRAY) err str id flags seq clock)
    (WriteArray wr l ++ rest)
  = (Some (Value_make (Now clock) (VBooleanArray (val <$> cut l)) 0),
     fresh st (after NT_BOOLEAN_ARRAY (zlen (cut l))) err str id flags seq (S clock), rest).
Proof. array ints_lens (@push_ints Z). Qed.

Lemma ReadValue_doubles wr val (l : list Z) st err str id flags seq clock rest :
  Forall (fun x => wrote (on_simple ReadDouble) (wr x) (val x)) (cut l) -> l <> [] \/ rest <> [] ->
  ReadValue Now (fresh st (ValueReader_make NT_DOUBLE_ARRAY) err str id flags seq clock)
    (WriteArray wr l ++ rest)
  = (Some (Value_make (Now clock) (VDoubleArray (val <$> cut l)) 0),
     fresh st (after NT_DOUBLE_ARRAY (zlen (cut l))) err str id flags seq (S clock), rest).
Proof. array doubles_lens (@push_doubles Z). Qed.

Lemma ReadValue_strings wr val (l : list string) st err str id flags seq clock rest :
  Forall (fun x => wrote ReadString (wr x) (val x)) (cut l) -> l <> [] \/ rest <> [] ->
  ReadValue Now (fresh st (ValueReader_make NT_STRING_ARRAY) err str id flags seq clock)
    (WriteArray wr l ++ rest)
  = (Some (Value_make (Now clock) (VStringArray (val <$> cut l)) 0),
     fresh st (after NT_STRING_ARRAY (zlen (cut l))) err str id flags seq (S clock), rest).
Proof. array strings_lens (@push_strings string). Qed.

Ltac moved_out L Hne :=
  eexists; split;
    [|eapply L; [|destruct Hne; [left; intros ->; done|by right]]];
    [apply after_ok, zlen_nonneg|].

Lemma ReadValue_wire v st err str id flags seq clock rest :
  value_valid v = true -> data_fits (data v) ->
  empty_array (data v) = false \/ rest <> [] ->
  exists r', array_ok r' /\
  ReadValue Now (fresh st (ValueReader_make (wire_type v)) err str id flags seq clock)
    (snd (WriteValue v) ++ rest)
  = (Some (Value_make (Now clock) (wire_data (data v)) 0),
     fresh st r' err str id flags seq (S clock), rest).
Proof.
  unfold value_valid, value_type, wire_type, WriteValue.
  destruct (data v) as [|b|z|x|x|s|bs|l|l|l|l|l]; try done; intros _ Hf Hne;
    cbn [snd wire_data data_type].
  - scalar (fun b => VBoolean (negb (b =? 0))) (@read_byte WDImpl). by destruct b.
  - scalar VDouble (on_simple ReadDouble). done.
  - scalar VDouble (on_simple ReadDouble). done.
  - scalar VDouble (on_simple ReadDouble). done.
  - scalar VString ReadString. done.
  - scalar VRaw ReadRaw. done.
  - moved_out ReadValue_ints Hne. apply Forall_true. intros x.
    pose proof (wrote_rmap (fun b => if b =? 0 then 0 else 1) _ _ _
      (wrote_8 (if x =? 0 then 0 else 1))) as Hw. by destruct (x =? 0).
  - moved_out ReadValue_doubles Hne. apply Forall_true. auto with wrote.
  - moved_out ReadValue_doubles Hne. apply Forall_true. auto with wrote.
  - moved_out ReadValue_doubles Hne. apply Forall_true. auto with wrote.
  - rewrite <- (list_fmap_id (cut l)). moved_out ReadValue_strings Hne. apply Forall_take.
    eapply Forall_impl; [exact Hf|]. auto with wrote.
Qed.
End Values.

(** ** Messages *)

Definition idle (d : WDImpl) : Prop :=
  exists vr err str id flags seq clock,
    d = fresh kStart vr err str id flags seq clock /\ array_ok vr.

Section Messages.
Context (Now : nat -> Z) `{MessageHandler3 H}.

(** A turn of the message loop on a complete item. *)
Lemma exec_read {A} (rd : reader WDImpl A) k w v
    st vr err str id flags seq clock (h : H) rest :
  let d := fresh st vr err str id flags seq clock in
  (forall inp, Execute_step Now d h inp = with_read rd k d h inp) ->
  st <> kError -> decoder_ok d -> wrote rd w v ->
  WDImpl_Execute Now d h (w ++ rest) =
  let '(d', h') := k v d h in WDImpl_Execute Now d' h' rest.
Proof.
  intros d Hs Hst Hd [Hne Hw]. rewrite WDImpl_Execute_step; [|done|by destruct w|done].
  rewrite Hs. unfold with_read, d. rewrite Hw. by destruct (k v _ h).
Qed.

Lemma exec_value k v st err str id flags seq clock (h : H) rest :
  let d := fresh st (ValueReader_make (wire_type v)) err str id flags seq clock in
  (forall inp, Execute_step Now d h inp = with_read (ReadValue Now) k d h inp) ->
  st <> kError -> decoder_ok d -> value_valid v = true -> data_fits (data v) ->
  empty_array (data v) = false \/ rest <> [] ->
  exists r', array_ok r' /\
  WDImpl_Execute Now d h (snd (WriteValue v) ++ rest) =
  let '(d', h') := k (Value_make (Now clock) (wire_data (data v)) 0)
                     (fresh st r' err str id flags seq (S clock)) h in
  WDImpl_Execute Now d' h' rest.
Proof.
  intros d Hs Hst Hd Hv Hf Hne.
  destruct (ReadValue_wire Now v st err str id flags seq clock rest Hv Hf Hne)
    as (r' & Hr' & E).
  exists r'. split; [done|]. rewrite WDImpl_Execute_step; [|done| |done].
  - rewrite Hs. unfold with_read, d. rewrite E. by destruct (k _ _ _).
  - intros Hnil. rewrite Hnil in E. done.
Qed.

(** The type of a value on the wire can be read back. *)
Lemma wire_type_readable v : value_valid v = true -> readable (wire_type v) = true.
Proof. unfold value_valid, value_type, wire_type. by destruct (data v). Qed.
Lemma fresh_value_ok st t err str id flags seq clock :
  readable t = true ->
  decoder_ok (fresh st (ValueReader_make t) err str id flags seq clock).
Proof. intros. by apply fresh_ok. Qed.

(** One item: [rd] reads it in the state at hand. *)
Ltac fresh_state :=
  first [ apply fresh_ok; done | apply fresh_value_ok; by apply wire_type_readable ].
Ltac refresh :=
  match goal with
  | |- context [WDImpl_Execute Now ?d _ (_ ++ _)] =>
      let d' := eval cbv beta iota delta
        [fupd fresh m_state m_ulebReader m_simpleReader m_stringReader m_rawReader
         m_valueReader m_error m_str m_id m_flags m_seq_num_uid m_clock] in d in
      match d' with
      | MkWD ?st _ _ _ _ ?vr ?err ?str ?id ?flags ?seq ?clock =>
          change d with (fresh st vr err str id flags seq clock)
      end
  end.
Ltac item L :=
  rewrite <- ?app_assoc; refresh;
  erewrite exec_read; [|intros; reflexivity|done|fresh_state|by apply L];
  cbn beta iota delta [dispatch goto goto_id goto_uid goto_flags].

Ltac start :=
  item wrote_8;
  match goal with
  | |- context [dispatch (wrap 8 ?n)] =>
      let m := eval vm_compute in (wrap 8 n) in change (wrap 8 n) with m
  end;
  cbn beta iota delta [dispatch goto].

Ltac arrives Hidle tac :=
  eexists; split;
    [ rewrite encode_eq; unfold encode_items; start; tac; reflexivity
    | split_and!; [by apply Hidle|done|simpl; lia] ].

Lemma Execute_encode c d (h : H) rest :
  idle d -> sendable c ->
  (forall v, call_value c = Some v -> empty_array (data v) = false \/ rest <> []) ->
  exists d1,
    WDImpl_Execute Now d h (encode c ++ rest) =
    (let '(d2, h2) := emit (wire_call (Now (m_clock d)) c) d1 h in
     WDImpl_Execute Now d2 h2 rest) /\
    idle d1 /\ m_error d1 = m_error d /\
    m_clock d1 = (m_clock d + if call_value c is Some _ then 1 else 0)%nat.
Proof.
  intros (vr & err & str & id & flags & seq & clock & -> & Ha) Hs Hv.
  assert (Hidle : forall vr str id flags seq clock, array_ok vr ->
            idle (fresh kStart vr err str id flags seq clock)) by (unfold idle; eauto 12).
  destruct c; simpl in Hs.
  - arrives Hidle idtac.
  - arrives Hidle idtac.
  - arrives Hidle idtac.
  - arrives Hidle ltac:(item wrote_32).
  - arrives Hidle ltac:(item wrote_16).
  - destruct Hs as [Hrev Hs]. arrives Hidle ltac:(item wrote_16;
      rewrite (proj2 (Z.ltb_ge _ _)) by lia; unfold goto_id; cbn beta iota;
      item wrote_String).
  - arrives Hidle ltac:(item wrote_8; item wrote_String).
  - destruct Hs as (Hname & Hval & Hfit).
    destruct (wire_type_code value Hval) as (code & Ecode & Etype).
    destruct (exec_value (fun val d h =>
        emit (EntryAssign (m_str d) (m_id d) (m_seq_num_uid d) val (m_flags d))
          (d <| m_state := kStart |>) h) value kEntryAssign_6Value err name
        (wrap 16 id0) (wrap 8 flags0) (wrap 16 seq_num) clock h rest)
      as (r' & Hr' & E);
      [by intros; reflexivity|done|fresh_state|done|done|by apply Hv|].
    arrives Hidle ltac:(rewrite Ecode; item wrote_String; item wrote_8;
      unfold goto_type; rewrite Etype; cbn beta iota;
      item wrote_16; item wrote_16; item wrote_8; refresh; rewrite E).
  - destruct Hs as (Hval & Hfit).
    destruct (wire_type_code value Hval) as (code & Ecode & Etype).
    destruct (exec_value (fun val d h =>
        emit (EntryUpdate (m_id d) (m_seq_num_uid d) val)
          (d <| m_state := kStart |>) h) value kEntryUpdate_4Value err str
        (wrap 16 id0) flags (wrap 16 seq_num) clock h rest)
      as (r' & Hr' & E);
      [by intros; reflexivity|done|fresh_state|done|done|by apply Hv|].
    arrives Hidle ltac:(rewrite Ecode; item wrote_16; item wrote_16; item wrote_8;
      unfold goto_type; rewrite Etype; cbn beta iota; refresh; rewrite E).
  - arrives Hidle ltac:(item wrote_16; item wrote_8).
  - arrives Hidle ltac:(item wrote_16).
  - arrives Hidle ltac:(item wrote_16; item wrote_16; item wrote_Raw).
  - arrives Hidle ltac:(item wrote_16; item wrote_16; item wrote_Raw).
Qed.

(** What reaches the handler: the messages in order, up to and including the
    first one it rejects. *)
Fixpoint deliver (clock : nat) (h : H) (cs : list Call3) : H * option string :=
  match cs with
  | [] => (h, None)
  | c :: cs =>
      match handle3 (wire_call (Now clock) c) h with
      | (h', Some msg) => (h', Some msg)
      | (h', None) =>
          deliver (clock + if call_value c is Some _ then 1 else 0) h' cs
      end
  end.

Lemma encode_nonnil c : encode c <> [].
Proof. rewrite encode_eq. by destruct c. Qed.

(** The last message does not end in an empty array. *)
Definition ends_complete (cs : list Call3) : Prop :=
  forall c v, last cs = Some c -> call_value c = Some v -> empty_array (data v) = false.

Lemma Execute_encode_list cs d (h : H) :
  idle d -> Forall sendable cs -> ends_complete cs ->
  let '(d', h', rest) := WDImpl_Execute Now d h (concat (encode <$> cs)) in
  let '(h2, err) := deliver (m_clock d) h cs in
  h' = h2 /\
  match err with
  | None => idle d' /\ rest = [] /\ GetError d' = GetError d
  | Some msg => m_state d' = kError /\ GetError d' = msg
  end.
Proof.
  intros Hd Hs. revert d h Hd. induction Hs as [|c cs Hc Hs IH]; intros d h Hd Hl; [done|].
  rewrite fmap_cons. cbn [concat deliver].
  destruct (Execute_encode c d h (concat (encode <$> cs)) Hd Hc)
    as (d1 & E & Hd1 & Herr & Hck).
  { intros v Hv. destruct cs as [|c' cs]; [left; by apply (Hl c)|right].
    simpl. destruct (encode c') eqn:Ec; [by apply encode_nonnil in Ec|done]. }
  rewrite E. unfold emit.
  destruct (handle3 (wire_call (Now (m_clock d)) c) h) as [h1 [msg|]].
  - rewrite WDImpl_Execute_error by done. done.
  - rewrite <- Hck. unfold GetError. rewrite <- Herr. apply IH; [done|]. intros c' v Hc'. apply Hl.
    destruct cs; [done|]. by rewrite last_cons_cons.
Qed.
End Messages.

(** ** Messages the wire carries unchanged *)

Definition u16 (z : Z) : Prop := 0 <= z < 2 ^ 16.
Definition u8_range (z : Z) : Prop := 0 <= z < 2 ^ 8.
Definition u64 (z : Z) : Prop := 0 <= z < 2 ^ 64.

(** A value of a version 3 type with at most 255 elements. *)
Definition exact_data (v : ValueData) : Prop :=
  match v with
  | VBoolean _ | VString _ | VRaw _ => True
  | VDouble x => u64 x
  | VBooleanArray l => (length l <= 255)%nat /\ Forall (fun x => x = 0 \/ x = 1) l
  | VDoubleArray l => (length l <= 255)%nat /\ Forall u64 l
  | VStringArray l => (length l <= 255)%nat
  | _ => False
  end.

Definition exact_call (c : Call3) : Prop :=
  match c with
  | ProtoUnsup rev | ClientHello _ rev => u16 rev
  | ServerHello flags _ => u8_range flags
  | EntryAssign _ id seq v flags =>
      u16 id /\ u16 seq /\ exact_data (data v) /\ u8_range flags
  | EntryUpdate id seq v => u16 id /\ u16 seq /\ exact_data (data v)
  | FlagsUpdate id flags => u16 id /\ u8_range flags
  | EntryDelete id => u16 id
  | ExecuteRpc id uid _ | RpcResponse id uid _ => u16 id /\ u16 uid
  | _ => True
  end.

(** The same message, its value stamped with [t]. *)
Definition restamp (t : Z) (c : Call3) : Call3 :=
  match c with
  | EntryAssign name id seq v flags => EntryAssign name id seq (Value_make t (data v) 0) flags
  | EntryUpdate id seq v => EntryUpdate id seq (Value_make t (data v) 0)
  | c => c
  end.

Lemma fmap_wrap_id w l : Forall (fun z => 0 <= z < 2 ^ w) l -> wrap w <$> l = l.
Proof.
  induction 1; [done|]. rewrite fmap_cons. f_equal; [by apply wrap_small|done].
Qed.

Lemma exact_wire_data v : exact_data v -> wire_data v = v.
Proof.
  destruct v; simpl; try done.
  - intros Hx. by rewrite wrap_small.
  - intros [Hl Hx]. f_equal. unfold cut. rewrite take_ge by lia.
    induction Hx as [|x l [->| ->] _ IH]; simpl in *; [done|..];
      f_equal; apply IH; lia.
  - intros [Hl Hx]. f_equal. unfold cut. rewrite take_ge by lia. by apply fmap_wrap_id.
  - intros Hl. f_equal. unfold cut. by rewrite take_ge by lia.
Qed.

Lemma exact_wire_call t c : exact_call c -> wire_call t c = restamp t c.
Proof.
  unfold u16, u8_range.
  destruct c; simpl; intros; destruct_and?; rewrite ?exact_wire_data by done;
    rewrite ?wrap_small by done; done.
Qed.

(** ** Theorems *)

(** A handler that accepts and records every message. *)
#[global] Instance record3 : MessageHandler3 (list Call3) := fun c h => (h ++ [c], None).

Lemma deliver_record t n h cs :
  Forall exact_call cs -> deliver (fun _ => t) n h cs = (h ++ (restamp t <$> cs), None).
Proof.
  intros Hc. revert n h. induction Hc as [|c cs Hc _ IH]; intros n h; simpl.
  - by rewrite app_nil_r.
  - rewrite IH, <- app_assoc, exact_wire_call by done. done.
Qed.

Lemma idle_init : idle WDImpl_init.
Proof. by do 7 eexists. Qed.

(** C20. Encoding a sequence of messages with [WireEncode], cutting the bytes into
    arbitrary chunks and passing them one by one to the decoder delivers to the
    handler exactly these messages, in order, up to and including the first one the
    handler rejects: ids, sequence numbers and flags modulo their width, values as
    the wire carries them.  If none is rejected the decoder is idle again;
    otherwise it is in the error state with the handler's text. *)
Theorem wire3_roundtrip (Now : nat -> Z) `{MessageHandler3 H} (h : H)
    (cs : list Call3) (chunks : list bytes) :
  Forall sendable cs -> ends_complete cs ->
  concat chunks = concat ((fun c => snd (WireEncode (Message3_make c))) <$> cs) ->
  let '(d', h') := feed Now WDImpl_init h chunks in
  let '(h2, err) := deliver Now 0 h cs in
  h' = h2 /\
  match err with
  | None => m_state d' = kStart /\ GetError d' = EmptyString
  | Some msg => m_state d' = kError /\ GetError d' = msg
  end.
Proof.
  intros Hs He Hc. rewrite feed_concat by apply decoder_ok_init. rewrite Hc.
  pose proof (Execute_encode_list Now cs WDImpl_init h idle_init Hs He) as Hr.
  change (encode <$> cs) with ((fun c => snd (WireEncode (Message3_make c))) <$> cs) in Hr.
  destruct (WDImpl_Execute _ _ _ _) as [[d' h'] rest]. simpl in Hr |- *.
  destruct (deliver Now 0 h cs) as [h2 [msg|]]; [done|].
  destruct Hr as (? & (? & ? & ? & ? & ? & ? & ? & -> & _) & _ & ?). done.
Qed.

Lemma wire3_roundtrip_witness :
  let cs := [ClientHello "rio" 0x300;
             EntryAssign "/a" 1 7 (MkValue (VStringArray ["x"; "y"]) 5 0) 1;
             EntryUpdate 70000 8 (MkValue (VInteger 3) 5 0); KeepAlive] in
  let bs := concat ((fun c => snd (WireEncode (Message3_make c))) <$> cs) in
  (feed (fun _ => 9) WDImpl_init [] [take 10 bs; drop 10 bs]).2
  = [ClientHello "rio" 0x300;
     EntryAssign "/a" 1 7 (MkValue (VStringArray ["x"; "y"]) 9 1) 1;
     EntryUpdate 4464 8 (MkValue (VDouble 0x4008000000000000) 9 1); KeepAlive].
Proof.
  intros cs bs.
  pose proof (wire3_roundtrip (fun _ => 9) [] cs [take 10 bs; drop 10 bs]) as Hr.
  destruct (feed _ _ _ _) as [d' h'].
  destruct Hr as [Hr _].
  - unfold cs. repeat constructor; vm_compute; congruence.
  - intros c v Hc. unfold cs in Hc. simpl in Hc. by simplify_eq.
  - change (take 10 bs ++ drop 10 bs ++ [] = bs). by rewrite app_nil_r, take_drop.
  - cbn [snd]. rewrite Hr. vm_compute. reflexivity.
Defined.

(** A sequence of messages of the version 3 protocol (ids of 16 bits, flags of
    8 bits, values of a version 3 type with at most 255 elements) that is encoded,
    cut into chunks and decoded arrives unchanged, but for the time stamps of the
    values. *)
Theorem wire3_exact (t : Z) (cs : list Call3) (chunks : list bytes) :
  Forall sendable cs -> Forall exact_call cs -> ends_complete cs ->
  concat chunks = concat ((fun c => snd (WireEncode (Message3_make c))) <$> cs) ->
  (feed (fun _ => t) WDImpl_init [] chunks).2 = restamp t <$> cs.
Proof.
  intros Hs Hx He Hc. rewrite feed_concat by apply decoder_ok_init. rewrite Hc.
  pose proof (Execute_encode_list (fun _ => t) cs WDImpl_init [] idle_init Hs He) as Hr.
  rewrite deliver_record in Hr by done.
  change (encode <$> cs) with ((fun c => snd (WireEncode (Message3_make c))) <$> cs) in Hr.
  destruct (WDImpl_Execute _ _ _ _) as [[d' h'] rest]. by destruct Hr as [-> _].
Qed.

Lemma wire3_exact_witness :
  let cs := [FlagsUpdate 3 1; EntryUpdate 3 9 (MkValue (VDoubleArray [1; 2]) 4 4)] in
  let bs := concat ((fun c => snd (WireEncode (Message3_make c))) <$> cs) in
  (feed (fun _ => 6) WDImpl_init [] [bs]).2 = restamp 6 <$> cs.
Proof.
  intros cs bs. apply wire3_exact.
  - unfold cs. repeat constructor; vm_compute; congruence.
  - unfold cs, exact_call, exact_data, u16, u8_range, u64.
    repeat constructor; vm_compute; congruence.
  - intros c v Hc. unfold cs in Hc. simpl in Hc. intros ?. by simplify_eq/=.
  - apply app_nil_r.
Defined.

(** C23. The decoding loop terminates: from a well-formed decoder it stops within
    [2 * length inp + 2] turns, more fuel changes nothing, and then either all input
    has been consumed or the decoder is in the error state, which is what the
    result of [Execute] says.  The decoder stays well-formed. *)
Theorem Execute_total (Now : nat -> Z) `{MessageHandler3 H} d (h : H) inp n :
  decoder_ok d -> (2 * length inp + 2 <= n)%nat ->
  while_ (Execute_body Now) n (d, h, inp) = WDImpl_Execute Now d h inp /\
  Execute_body Now (WDImpl_Execute Now d h inp) = None /\
  let '(ok, (d', _, rest)) := Execute Now d h inp in
  decoder_ok d' /\ ok = negb (bool_decide (m_state d' = kError)) /\
  (ok = true -> rest = []).
Proof.
  intros Hd Hn. pose proof (Execute_fuel_enough d h inp).
  destruct (WDImpl_Execute_exit Now d h inp Hd) as [He Hok].
  pose proof (WDImpl_Execute_rest Now d h inp Hd) as Hrest.
  split_and!; [|done|].
  - apply (while_fuel _ run_ok run_measure (Execute_body_dec Now)); [done|lia|lia].
  - unfold Execute. destruct (WDImpl_Execute Now d h inp) as [[d' h'] r].
    simpl in *. split_and!; [done..|]. intros Hb. destruct Hrest; [done|].
    by rewrite bool_decide_eq_true_2 in Hb.
Qed.

Lemma Execute_total_witness :
  exists d' : WDImpl, decoder_ok d' /\
    Execute (fun _ => 1) WDImpl_init [] [u8 0; u8 7] = (false, (d', [KeepAlive], [])).
Proof.
  pose proof (Execute_total (fun _ => 1) WDImpl_init [] [u8 0; u8 7] 6
    decoder_ok_init ltac:(vm_compute; lia)) as (_ & _ & Ht).
  destruct (Execute _ _ _ _) as [ok [[d' h'] rest]] eqn:E. vm_compute in E.
  destruct Ht as (Hd & _). exists d'. split; [done|]. by simplify_eq.
Defined.

(** C21. Chunking is invisible: passing a byte stream to the decoder in any number
    of pieces leaves the decoder and the handler in the same state as passing it at
    once. *)
Theorem Execute_chunking (Now : nat -> Z) `{MessageHandler3 H} d (h : H) chunks :
  decoder_ok d ->
  feed Now d h chunks = (WDImpl_Execute Now d h (concat chunks)).1.
Proof. apply feed_concat. Qed.

Lemma Execute_chunking_witness :
  feed (fun _ => 1) WDImpl_init [] [[u8 0x12; u8 0]; [u8 5]; []; [u8 1; u8 0]]
  = (WDImpl_Execute (fun _ => 1) WDImpl_init []
       [u8 0x12; u8 0; u8 5; u8 1; u8 0]).1.
Proof. apply (Execute_chunking (fun _ => 1) WDImpl_init []), decoder_ok_init. Defined.

(** The message type codes of the protocol. *)
Definition known_msg_code (code : Z) : bool :=
  existsb (Z.eqb code) (MsgType_code <$>
    [kKeepAlive; kClientHello; kProtoUnsup; kServerHelloDone; kServerHello;
     kClientHelloDone; kEntryAssign; kEntryUpdate; kFlagsUpdate; kEntryDelete;
     kClearEntries; kExecuteRpc; kRpcResponse]).

Lemma dispatch_unknown `{MessageHandler3 H} code d (h : H) :
  known_msg_code code = false ->
  dispatch code d h = (EmitError ("unrecognized message type: " +:+ pretty code) d, h).
Proof.
  intros Hk. unfold dispatch.
  repeat match goal with
  | |- match ?x with _ => _ end = _ => destruct x; try discriminate Hk
  end; reflexivity.
Qed.

(** A byte that is no message type of the protocol, where a message should
    start, is an error: [Execute] returns false, the rest of the input is not
    looked at and the handler is not called. *)
Theorem Execute_unknown_message (Now : nat -> Z) `{MessageHandler3 H}
    vr err str id flags seq clock (h : H) b rest :
  array_ok vr -> known_msg_code (ub b) = false ->
  let d := fresh kStart vr err str id flags seq clock in
  Execute Now d h (b :: rest) =
  (false, (EmitError ("unrecognized message type: " +:+ pretty (ub b)) d, h, rest)).
Proof.
  intros Ha Hk d. unfold Execute.
  rewrite WDImpl_Execute_step; [|by apply fresh_ok|done|done].
  cbn [Execute_step d fresh m_state with_read read_byte]. unfold with_read. simpl.
  rewrite dispatch_unknown by done. rewrite WDImpl_Execute_error by done. done.
Qed.

Lemma Execute_unknown_message_witness :
  known_msg_code (ub (u8 6)) = false /\
  Execute (fun _ => 1) WDImpl_init [] [u8 6; u8 0] =
  (false, (EmitError ("unrecognized message type: " +:+ pretty (ub (u8 6))) WDImpl_init,
           [], [u8 0])).
Proof.
  split; [reflexivity|].
  apply (Execute_unknown_message (fun _ => 1) (ValueReader_make NT_UNASSIGNED)
    EmptyString EmptyString 0 0 0 0 []); [|reflexivity].
  intros Hh. discriminate Hh.
Defined.

(** A value that is an empty array is not complete for the decoder when its
    last byte has been read: an update with an empty array at the end of the bytes
    at hand is delivered only with the next message. *)
Theorem empty_array_delivered_late (id seq : Z) :
  let upd := EntryUpdate id seq (MkValue (VDoubleArray []) 1 1) in
  let bs := snd (WireEncode (Message3_make upd)) in
  (feed (fun _ => 5) WDImpl_init [] [bs]).2 = [] /\
  (feed (fun _ => 5) WDImpl_init [] [bs; WireEncodeKeepAlive]).2
  = [EntryUpdate (wrap 16 id) (wrap 16 seq) (MkValue (VDoubleArray []) 5 1); KeepAlive].
Proof.
  intros upd bs. split.
  - change bs with (Write8 0x11 ++ Write16 id ++ Write16 seq ++ [u8 0x11; u8 0]).
    unfold Write16. cbn [app Write8].
    generalize (u8 (Z.land (Z.shiftr (wrap 16 id) 8) 0xff)) (u8 (Z.land (wrap 16 id) 0xff))
      (u8 (Z.land (Z.shiftr (wrap 16 seq) 8) 0xff)) (u8 (Z.land (wrap 16 seq) 0xff)).
    intros. vm_compute. reflexivity.
  - rewrite feed_concat by apply decoder_ok_init.
    pose proof (Execute_encode_list (fun _ => 5) [upd; KeepAlive] WDImpl_init [] idle_init)
      as Hr.
    change (concat [bs; WireEncodeKeepAlive]) with (concat (encode <$> [upd; KeepAlive])).
    destruct (WDImpl_Execute _ _ _ _) as [[d' h'] rest].
    destruct Hr as [-> _]; [by repeat constructor| |done].
    intros c v Hc. simpl in Hc. by simplify_eq.
Qed.
