(* ===== verification/CircularBuffer.v ===== *)
(** * CircularBuffer: [wpi::circular_buffer]

    The queue behind the [ReadQueue] functions of a subscriber
    ([wpiutil/.../circular_buffer.h] and [.inc]).  [contents] is the abstraction
    to the list of elements from front to back; every operation is proved to
    refine the corresponding operation on bounded lists. *)

From S2P Require Import Prelude.

Record circular_buffer (T : Type) := MkCB {
  m_data : list T;
  m_front : nat;
  m_length : nat;
}.
Arguments MkCB {T} _ _ _.
Arguments m_data {T} _.
Arguments m_front {T} _.
Arguments m_length {T} _.

Section Ops.
Context {T : Type} (dflt : T).

(** [dflt] is [T{}]. *)
Definition cb_make (size : nat) : circular_buffer T := MkCB (replicate size dflt) 0 0.

Definition cb_size (b : circular_buffer T) : nat := m_length b.

Definition ModuloInc (b : circular_buffer T) (index : nat) : nat :=
  (index + 1) `mod` length (m_data b).
Definition ModuloDec (b : circular_buffer T) (index : nat) : nat :=
  if decide (index = 0) then length (m_data b) - 1 else index - 1.

(** [operator[]]; [None] where the index is outside of the vector. *)
Definition cb_at (b : circular_buffer T) (index : nat) : option T :=
  m_data b !! ((m_front b + index) `mod` length (m_data b)).

Definition cb_front (b : circular_buffer T) : option T := cb_at b 0.
Definition cb_back (b : circular_buffer T) : option T :=
  m_data b !! ((m_front b + m_length b - 1) `mod` length (m_data b)).

(** [push_front] and [emplace_front] *)
Definition cb_push_front (v : T) (b : circular_buffer T) : circular_buffer T :=
  if decide (length (m_data b) = 0) then b
  else
    let front := ModuloDec b (m_front b) in
    MkCB (<[front := v]> (m_data b)) front
      (if decide (m_length b < length (m_data b)) then m_length b + 1 else m_length b).

(** [push_back] and [emplace_back] *)
Definition cb_push_back (v : T) (b : circular_buffer T) : circular_buffer T :=
  if decide (length (m_data b) = 0) then b
  else
    let data := <[(m_front b + m_length b) `mod` length (m_data b) := v]> (m_data b) in
    if decide (m_length b < length (m_data b))
    then MkCB data (m_front b) (m_length b + 1)
    else MkCB data (ModuloInc b (m_front b)) (m_length b).

(** The buffer must not be empty; [None] is an access outside of the vector. *)
Definition cb_pop_front (b : circular_buffer T) : option T * circular_buffer T :=
  (m_data b !! m_front b,
   MkCB (m_data b) (ModuloInc b (m_front b)) (m_length b - 1)).
Definition cb_pop_back (b : circular_buffer T) : option T * circular_buffer T :=
  let len := m_length b - 1 in
  (m_data b !! ((m_front b + len) `mod` length (m_data b)),
   MkCB (m_data b) (m_front b) len).

Definition cb_reset (b : circular_buffer T) : circular_buffer T := MkCB (m_data b) 0 0.

(** [circular_buffer::resize]; the erasures and the insertion of the vector are
    written with [take] and [drop]. *)
Definition cb_resize (size : nat) (b : circular_buffer T) : circular_buffer T :=
  let data := m_data b in
  if decide (length data < size) then
    let insertLocation := (m_front b + m_length b) `mod` length data in
    let front := if decide (insertLocation <= m_front b)
                 then m_front b + (size - length data) else m_front b in
    MkCB (take insertLocation data ++ replicate (size - length data) dflt
            ++ drop insertLocation data) front (m_length b)
  else if decide (size < length data) then
    let elemsToRemove := length data - size in
    let '(data', front) :=
      if decide (m_front b < elemsToRemove)
      then (drop (m_front b) (take (m_front b + size) data), 0)
      else (take (m_front b - elemsToRemove) data ++ drop (m_front b) data,
            m_front b - elemsToRemove) in
    MkCB data' front (if decide (size < m_length b) then size else m_length b)
  else b.

(** What iterating from [begin()] to [end()] visits. *)
Definition contents (b : circular_buffer T) : list T :=
  omap (cb_at b) (seq 0 (m_length b)).

Definition cb_ok (b : circular_buffer T) : Prop :=
  m_length b <= length (m_data b) /\
  (m_front b < length (m_data b) \/ length (m_data b) = 0 /\ m_front b = 0).

(** ** Lemmas *)

(** One wrap of an index is a subtraction. *)
Lemma mod_wrap k n : k < n + n -> k `mod` n = if decide (k < n) then k else k - n.
Proof.
  intros Hk. destruct (decide (k < n)); [by apply Nat.mod_small|].
  replace k with (k - n + 1 * n) at 1 by lia. rewrite Nat.Div0.mod_add.
  apply Nat.mod_small. lia.
Qed.

Lemma cb_at_eq b i :
  cb_ok b -> i < length (m_data b) ->
  cb_at b i =
  m_data b !! (if decide (m_front b + i < length (m_data b)) then m_front b + i
               else m_front b + i - length (m_data b)).
Proof. intros [? ?] Hi. unfold cb_at. rewrite mod_wrap by lia. done. Qed.

Lemma cb_at_is_Some b i : cb_ok b -> i < length (m_data b) -> is_Some (cb_at b i).
Proof.
  intros Hb Hi. rewrite cb_at_eq by done. apply lookup_lt_is_Some.
  destruct Hb. case_decide; lia.
Qed.

Lemma omap_seq_lookup (f : nat -> option T) n k i :
  (forall j, k <= j < k + n -> is_Some (f j)) ->
  omap f (seq k n) !! i = if decide (i < n) then f (k + i) else None.
Proof.
  revert k i. induction n as [|n IH]; intros k i Hf.
  { destruct (decide (i < 0)); [lia|]. apply lookup_nil. }
  destruct (Hf k ltac:(lia)) as [v Hv].
  assert (omap f (seq k (S n)) = v :: omap f (seq (S k) n)) as ->
    by (unfold omap; simpl; by rewrite Hv).
  destruct i as [|i].
  - destruct (decide (0 < S n)); [|lia]. by rewrite Nat.add_0_r.
  - rewrite lookup_cons. rewrite IH by (intros j ?; apply Hf; lia).
    replace (S k + i) with (k + S i) by lia.
    destruct (decide (i < n)), (decide (S i < S n)); try lia; done.
Qed.

Lemma contents_lookup b i :
  cb_ok b -> contents b !! i = if decide (i < m_length b) then cb_at b i else None.
Proof.
  intros Hb. unfold contents. rewrite omap_seq_lookup; [done|].
  intros j Hj. apply cb_at_is_Some; [done|]. destruct Hb. lia.
Qed.

Lemma length_contents b : cb_ok b -> length (contents b) = m_length b.
Proof.
  intros Hb. unfold contents.
  assert (Hf : forall j, 0 <= j < 0 + m_length b -> is_Some (cb_at b j)).
  { intros j Hj. apply cb_at_is_Some; [done|]. destruct Hb. lia. }
  revert Hf. generalize (m_length b) 0. intros n.
  induction n as [|n IH]; intros k Hf; [done|]. simpl.
  destruct (Hf k ltac:(lia)) as [v ->]. simpl. rewrite IH; [done|].
  intros j ?. apply Hf. lia.
Qed.

(** The capacity is the size of the vector. *)
Definition capacity (b : circular_buffer T) : nat := length (m_data b).

(** The bounded queue the buffer implements: pushing beyond the capacity drops
    the oldest element. *)
Definition bounded_push (cap : nat) (v : T) (l : list T) : list T :=
  drop (length (l ++ [v]) - cap) (l ++ [v]).

Lemma cb_make_ok n : cb_ok (cb_make n).
Proof.
  unfold cb_ok, cb_make. simpl. rewrite length_replicate. destruct n; lia.
Qed.

Lemma cb_push_back_ok v b : cb_ok b -> cb_ok (cb_push_back v b).
Proof.
  intros [Hl Hf]. unfold cb_push_back. case_decide; [done|]. unfold cb_ok, ModuloInc.
  case_decide; simpl; rewrite length_insert; [lia|].
  pose proof (Nat.mod_upper_bound (m_front b + 1) (length (m_data b))). lia.
Qed.

Lemma cb_reset_ok b : cb_ok b -> cb_ok (cb_reset b).
Proof. unfold cb_ok, cb_reset. simpl. lia. Qed.

Lemma contents_reset b : contents (cb_reset b) = [].
Proof. done. Qed.
Lemma contents_make n : contents (cb_make n) = [].
Proof. done. Qed.

Lemma capacity_push_back v b : capacity (cb_push_back v b) = capacity b.
Proof.
  unfold capacity, cb_push_back. case_decide; [done|]. case_decide; simpl; apply length_insert.
Qed.

(** Reading a buffer one of whose slots has been overwritten. *)
Lemma cb_at_insert b d f l j v i :
  cb_ok (MkCB d f l) -> length d = length (m_data b) -> i < length d ->
  d = <[j := v]> (m_data b) -> j < length d ->
  cb_at (MkCB d f l) i =
  let k := if decide (f + i < length d) then f + i else f + i - length d in
  if decide (k = j) then Some v else m_data b !! k.
Proof.
  intros Hok Hlen Hi -> Hj. rewrite cb_at_eq by done. simpl in *.
  rewrite length_insert in *. case_decide; case_decide; subst;
    rewrite ?list_lookup_insert_eq, ?list_lookup_insert_ne by lia; done.
Qed.

Lemma contents_push_back v b :
  cb_ok b -> contents (cb_push_back v b) = bounded_push (capacity b) v (contents b).
Proof.
  intros Hb. pose proof (cb_push_back_ok v b Hb) as Hb'. apply list_eq. intros i.
  pose proof (length_contents b Hb) as Hlc. unfold bounded_push, capacity.
  rewrite lookup_drop, length_app, Hlc. simpl. rewrite (contents_lookup _ i Hb').
  revert Hb'. unfold cb_push_back. destruct Hb as [Hl Hf].
  case_decide as Hn.
  { intros _. case_decide; [lia|]. symmetry. apply lookup_ge_None.
    rewrite length_app, Hlc. simpl. lia. }
  rewrite (mod_wrap (m_front b + m_length b)) by lia.
  set (j := if decide (m_front b + m_length b < _) then _ else _).
  assert (Hj : j < length (m_data b)) by (unfold j; case_decide; lia).
  assert (Hok : cb_ok b) by done.
  destruct (decide (m_length b < length (m_data b))) as [Hlt|Hge]; intros Hb'; simpl.
  - replace (m_length b + 1 - length (m_data b) + i) with i by lia.
    destruct (decide (i < m_length b + 1)) as [Hi|Hi].
    2:{ symmetry. apply lookup_ge_None. rewrite length_app, Hlc. simpl. lia. }
    rewrite (cb_at_insert b _ _ _ j v i Hb') by (rewrite ?length_insert; lia || done).
    rewrite length_insert.
    destruct (decide (i = m_length b)) as [->|Hne].
    + rewrite lookup_app_r, Hlc, Nat.sub_diag by lia. unfold j.
      repeat case_decide; lia || done.
    + rewrite lookup_app_l, contents_lookup, (decide_True (P := i < m_length b)), cb_at_eq
        by (done || lia).
      unfold j. repeat case_decide; lia || done.
  - assert (m_length b = length (m_data b)) as El by lia.
    replace (m_length b + 1 - length (m_data b) + i) with (S i) by lia.
    destruct (decide (i < m_length b)) as [Hi|Hi].
    2:{ symmetry. apply lookup_ge_None. rewrite length_app, Hlc. simpl. lia. }
    rewrite (cb_at_insert b _ _ _ j v i Hb') by (rewrite ?length_insert; lia || done).
    rewrite length_insert. unfold ModuloInc. rewrite (mod_wrap (m_front b + 1)) by lia.
    destruct (decide (S i = m_length b)) as [Hl1|Hne].
    + rewrite lookup_app_r, Hlc, Hl1, Nat.sub_diag by lia. unfold j.
      repeat case_decide; lia || done.
    + rewrite lookup_app_l, contents_lookup, (decide_True (P := S i < _)), cb_at_eq
        by (done || lia).
      unfold j. repeat case_decide; try lia; f_equal; lia.
Qed.

Lemma cb_push_front_ok v b : cb_ok b -> cb_ok (cb_push_front v b).
Proof.
  intros [Hl Hf]. unfold cb_push_front, ModuloDec. case_decide; [done|].
  unfold cb_ok. simpl. rewrite length_insert. repeat case_decide; lia.
Qed.

Lemma contents_push_front v b :
  cb_ok b -> contents (cb_push_front v b) = take (capacity b) (v :: contents b).
Proof.
  intros Hb. pose proof (cb_push_front_ok v b Hb) as Hb'. apply list_eq. intros i.
  pose proof (length_contents b Hb) as Hlc. unfold capacity.
  rewrite (contents_lookup _ i Hb'). revert Hb'. unfold cb_push_front.
  assert (Hok : cb_ok b) by done. destruct Hb as [Hl Hf].
  case_decide as Hn.
  { intros _. rewrite Hn. destruct (decide (i < m_length b)); [lia|].
    symmetry. apply lookup_nil. }
  unfold ModuloDec. set (j := if decide (m_front b = 0) then _ else _).
  assert (Hj : j < length (m_data b)) by (unfold j; case_decide; lia).
  intros Hb'. simpl.
  destruct (decide (i < length (m_data b))) as [Hi|Hi].
  2:{ rewrite lookup_take_ge by lia. repeat case_decide; lia || done. }
  rewrite lookup_take_lt by lia.
  rewrite (cb_at_insert b _ _ _ j v i Hb') by (rewrite ?length_insert; lia || done).
  rewrite length_insert. destruct i as [|i].
  - simpl. unfold j. repeat case_decide; try lia; done.
  - change ((v :: contents b) !! S i) with (contents b !! i).
    rewrite contents_lookup by done.
    destruct (decide (i < m_length b)) as [Hi'|Hi'].
    + rewrite cb_at_eq by (done || lia). unfold j.
      repeat case_decide; try lia; f_equal; lia.
    + repeat case_decide; lia || done.
Qed.

Lemma contents_pop_front b :
  cb_ok b -> m_length b <> 0 ->
  cb_ok (cb_pop_front b).2 /\
  exists v, (cb_pop_front b).1 = Some v /\ contents b = v :: contents (cb_pop_front b).2.
Proof.
  intros Hb Hne. assert (Hok : cb_ok b) by done. destruct Hb as [Hl Hf].
  assert (Hok' : cb_ok (cb_pop_front b).2).
  { unfold cb_ok. simpl. split; [lia|]. unfold ModuloInc.
    pose proof (Nat.mod_upper_bound (m_front b + 1) (length (m_data b))). lia. }
  split; [done|].
  destruct (lookup_lt_is_Some_2 (m_data b) (m_front b) ltac:(lia)) as [v Hv].
  exists v. split; [done|]. apply list_eq. intros i.
  rewrite contents_lookup by done. destruct i as [|i].
  - rewrite decide_True, cb_at_eq by (done || lia). simpl.
    rewrite Nat.add_0_r, decide_True by lia. done.
  - change ((v :: ?l) !! S i) with (l !! i). rewrite contents_lookup by done.
    simpl. destruct (decide (S i < m_length b)), (decide (i < m_length b - 1));
      try lia; [|done].
    rewrite !cb_at_eq by (done || simpl; lia). simpl.
    unfold ModuloInc. rewrite (mod_wrap (m_front b + 1)) by lia.
    repeat case_decide; try lia; f_equal; lia.
Qed.

Lemma contents_pop_back b :
  cb_ok b -> m_length b <> 0 ->
  cb_ok (cb_pop_back b).2 /\
  exists v, (cb_pop_back b).1 = Some v /\ contents b = contents (cb_pop_back b).2 ++ [v].
Proof.
  intros Hb Hne. assert (Hok : cb_ok b) by done. destruct Hb as [Hl Hf].
  assert (Hok' : cb_ok (cb_pop_back b).2) by (unfold cb_ok; simpl; lia).
  split; [done|].
  destruct (cb_at_is_Some b (m_length b - 1) Hok ltac:(lia)) as [v Hv].
  exists v. split; [done|]. apply list_eq. intros i.
  pose proof (length_contents _ Hok') as Hlc.
  change (m_length (cb_pop_back b).2) with (m_length b - 1) in Hlc.
  rewrite contents_lookup by done.
  destruct (decide (i < m_length b - 1)).
  - rewrite lookup_app_l, contents_lookup by (done || lia). simpl.
    rewrite !decide_True by lia. done.
  - rewrite lookup_app_r by lia. rewrite Hlc. case_decide.
    + replace i with (m_length b - 1) by lia. by rewrite Nat.sub_diag.
    + symmetry. apply lookup_ge_None. simpl. lia.
Qed.

(** *** Resizing *)

Lemma three_parts (d : list T) loc n k :
  loc <= length d ->
  (take loc d ++ replicate n dflt ++ drop loc d) !! k =
  if decide (k < loc) then d !! k
  else if decide (k < loc + n) then Some dflt else d !! (k - n).
Proof.
  intros Hl. assert (length (take loc d) = loc) as Ht by (rewrite length_take; lia).
  case_decide.
  - rewrite lookup_app_l by lia. apply lookup_take_lt. lia.
  - rewrite lookup_app_r, Ht by lia. case_decide.
    + rewrite lookup_app_l by (rewrite length_replicate; lia).
      apply lookup_replicate_2. lia.
    + rewrite lookup_app_r, length_replicate, lookup_drop by (rewrite length_replicate; lia).
      f_equal. lia.
Qed.

Lemma resize_grow n b :
  cb_ok b -> capacity b <> 0 -> capacity b < n ->
  cb_ok (cb_resize n b) /\ capacity (cb_resize n b) = n /\
  contents (cb_resize n b) = contents b.
Proof.
  unfold capacity. intros Hb Hc Hn. assert (Hok : cb_ok b) by done. destruct Hb as [Hl Hf].
  unfold cb_resize. rewrite decide_True by done. rewrite mod_wrap by lia.
  set (loc := if decide (m_front b + m_length b < _) then _ else _).
  assert (Hloc : loc <= length (m_data b)) by (unfold loc; case_decide; lia).
  set (b' := MkCB _ _ _).
  assert (Hlen : length (m_data b') = n).
  { unfold b'. cbn [m_data]. rewrite !length_app, length_take, length_replicate, length_drop.
    lia. }
  assert (Hok' : cb_ok b').
  { unfold cb_ok. rewrite Hlen. unfold b'. simpl. case_decide; lia. }
  split_and!; [done|done|]. apply list_eq. intros i.
  rewrite !contents_lookup by done. change (m_length b') with (m_length b).
  destruct (decide (i < m_length b)); [|done].
  rewrite !cb_at_eq by (done || lia). rewrite Hlen. unfold b'. cbn [m_data m_front].
  rewrite three_parts by done. unfold loc.
  repeat case_decide; try lia; f_equal; lia.
Qed.

Lemma resize_shrink n b :
  cb_ok b -> n < capacity b ->
  cb_ok (cb_resize n b) /\ capacity (cb_resize n b) = n /\
  contents (cb_resize n b) = take n (contents b).
Proof.
  unfold capacity. intros Hb Hn. assert (Hok : cb_ok b) by done. destruct Hb as [Hl Hf].
  unfold cb_resize. rewrite decide_False by lia. rewrite decide_True by done.
  set (b' := let '(_, _) := _ in _).
  assert (Hlen : length (m_data b') = n).
  { unfold b'. case_decide; simpl;
      rewrite ?length_app, ?length_drop, ?length_take; lia. }
  assert (Hok' : cb_ok b').
  { unfold cb_ok. rewrite Hlen. unfold b'. repeat case_decide; simpl; lia. }
  split_and!; [done|done|]. apply list_eq. intros i.
  rewrite contents_lookup by done.
  destruct (decide (i < m_length b')) as [Hi|Hi].
  2:{ symmetry. apply lookup_ge_None. rewrite length_take, length_contents by done.
      revert Hi. unfold b'. repeat case_decide; simpl; lia. }
  assert (i < n /\ i < m_length b) as [Hi1 Hi2]
    by (revert Hi; unfold b'; repeat case_decide; simpl; lia).
  rewrite lookup_take_lt, contents_lookup, decide_True, !cb_at_eq by (done || lia).
  rewrite Hlen. unfold b'. destruct (decide (m_front b < length (m_data b) - n)); simpl.
  - rewrite decide_True, lookup_drop, lookup_take_lt, decide_True by lia. done.
  - assert (Ht : length (take (m_front b - (length (m_data b) - n)) (m_data b))
                 = m_front b - (length (m_data b) - n)) by (rewrite length_take; lia).
    destruct (decide (m_front b - (length (m_data b) - n) + i < n)).
    + rewrite lookup_app_r, Ht, lookup_drop, decide_True by lia. f_equal. lia.
    + rewrite lookup_app_l, lookup_take_lt, decide_False by lia. f_equal. lia.
Qed.
End Ops.

(** ** Refinement of bounded queues *)

Inductive cb_op (T : Type) :=
| PushBack (v : T) | PushFront (v : T) | PopFront | PopBack | Reset | Resize (n : nat).
Arguments PushBack {T} _.
Arguments PushFront {T} _.
Arguments PopFront {T}.
Arguments PopBack {T}.
Arguments Reset {T}.
Arguments Resize {T} _.

Section Refinement.
Context {T : Type} (dflt : T).

(** The operations of the buffer, with the element popped. *)
Definition cb_step (o : cb_op T) (b : circular_buffer T)
  : option T * circular_buffer T :=
  match o with
  | PushBack v => (None, cb_push_back v b)
  | PushFront v => (None, cb_push_front v b)
  | PopFront => cb_pop_front b
  | PopBack => cb_pop_back b
  | Reset => (None, cb_reset b)
  | Resize n => (None, cb_resize dflt n b)
  end.

(** The specification: a capacity and the queued elements.  No result where the
    buffer's behaviour is undefined: popping from an empty buffer, and growing a
    buffer without storage, which divides by its size. *)
Definition queue_step (o : cb_op T) (q : nat * list T)
  : option (option T * (nat * list T)) :=
  let '(cap, l) := q in
  match o with
  | PushBack v => Some (None, (cap, bounded_push cap v l))
  | PushFront v => Some (None, (cap, take cap (v :: l)))
  | PopFront => match l with [] => None | v :: l => Some (Some v, (cap, l)) end
  | PopBack =>
      match last l with None => None | Some v => Some (Some v, (cap, removelast l)) end
  | Reset => Some (None, (cap, []))
  | Resize n =>
      if decide (cap = 0 /\ n <> 0) then None else Some (None, (n, take n l))
  end.

Definition cb_refines (b : circular_buffer T) (q : nat * list T) : Prop :=
  cb_ok b /\ capacity b = q.1 /\ contents b = q.2.

Lemma refines_nonempty b q : cb_refines b q -> q.2 <> [] -> m_length b <> 0.
Proof.
  intros (Hok & _ & <-) Hne Hl. pose proof (length_contents b Hok).
  destruct (contents b); [done|]. simpl in *. lia.
Qed.

Lemma capacity_push_front v (b : circular_buffer T) :
  capacity (cb_push_front v b) = capacity b.
Proof. unfold capacity, cb_push_front. case_decide; [done|]. apply length_insert. Qed.

Lemma cb_step_refines o b q out q' :
  cb_refines b q -> queue_step o q = Some (out, q') ->
  (cb_step o b).1 = out /\ cb_refines (cb_step o b).2 q'.
Proof.
  intros Hr. pose proof (refines_nonempty b q Hr) as Hne. destruct q as [cap l].
  destruct Hr as (Hok & Hcap & Hl). simpl in *.
  destruct o as [v|v| | | |n]; simpl; intros Hs.
  - simplify_eq. split; [done|]. split_and!; simpl.
    + by apply cb_push_back_ok.
    + apply capacity_push_back.
    + by apply contents_push_back.
  - simplify_eq. split; [done|]. split_and!; simpl.
    + by apply cb_push_front_ok.
    + apply capacity_push_front.
    + by apply contents_push_front.
  - destruct l as [|v l]; simplify_eq.
    destruct (contents_pop_front b Hok (Hne ltac:(done))) as (Hok' & v' & Hv & Hc).
    rewrite Hl in Hc. simplify_eq/=. done.
  - destruct (last l) as [v|] eqn:Hlast; [|done]. injection Hs as <- <-.
    assert (l <> []) by (by intros ->).
    destruct (contents_pop_back b Hok (Hne ltac:(done))) as (Hok' & v' & Hv & Hc).
    rewrite Hl in Hc. rewrite Hc, last_snoc in Hlast. simplify_eq.
    rewrite Hc, removelast_last. done.
  - simplify_eq. split; [done|]. split_and!; [by apply cb_reset_ok|done|done].
  - case_decide as Hd; [done|]. injection Hs as <- <-. split; [done|].
    rewrite <- Hl, <- Hcap in *.
    destruct (decide (n < capacity b)).
    + destruct (resize_shrink dflt n b Hok) as (? & ? & ?); done.
    + destruct (decide (capacity b < n)).
      * destruct (resize_grow dflt n b Hok) as (? & ? & Hc); [lia|done|].
        split_and!; [done..|]. simpl. rewrite Hc, take_ge; [done|].
        rewrite length_contents by done. destruct Hok. unfold capacity in *. lia.
      * unfold cb_resize. unfold capacity in *. rewrite !decide_False by lia.
        split_and!; [done|simpl; unfold capacity; lia|]. simpl.
        rewrite take_ge; [done|]. rewrite length_contents by done. destruct Hok. lia.
Qed.

Fixpoint cb_run (os : list (cb_op T)) (b : circular_buffer T)
  : list (option T) * circular_buffer T :=
  match os with
  | [] => ([], b)
  | o :: os =>
      let '(out, b) := cb_step o b in
      let '(outs, b) := cb_run os b in (out :: outs, b)
  end.

Fixpoint queue_run (os : list (cb_op T)) (q : nat * list T)
  : option (list (option T) * (nat * list T)) :=
  match os with
  | [] => Some ([], q)
  | o :: os =>
      '(out, q) ← queue_step o q; '(outs, q) ← queue_run os q; Some (out :: outs, q)
  end.
End Refinement.

(** C40. Every sequence of operations on a circular buffer of capacity [n] that the
    bounded queue defines produces the same outputs as the queue, and leaves the
    same elements in the same order: pushing on a full buffer drops the element at
    the other end, resizing keeps the front elements that fit. *)
Theorem circular_buffer_refines_queue {T} (dflt : T) (n : nat) (os : list (cb_op T))
    (outs : list (option T)) (cap : nat) (l : list T) :
  queue_run os (n, []) = Some (outs, (cap, l)) ->
  (cb_run dflt os (cb_make dflt n)).1 = outs /\
  contents (cb_run dflt os (cb_make dflt n)).2 = l /\ length l <= cap.
Proof.
  assert (Hr : cb_refines (cb_make dflt n) (n, [])).
  { split_and!; [apply cb_make_ok|apply length_replicate|done]. }
  revert Hr. generalize (cb_make dflt n) (n, @nil T).
  intros b q Hr. revert b q outs Hr.
  induction os as [|o os IH]; intros b q outs Hr; simpl.
  - intros ?. simplify_eq. destruct Hr as (Hok & Hc & Hl). simpl in *.
    split_and!; [done..|]. subst. rewrite length_contents by done. apply Hok.
  - destruct (queue_step o q) as [[out q1]|] eqn:Eq; [|done]. simpl.
    destruct (queue_run os q1) as [[outs1 q2]|] eqn:Er; [|done]. simpl.
    intros ?. simplify_eq.
    destruct (cb_step_refines dflt o b q out q1 Hr Eq) as [Ho Hr'].
    specialize (IH _ _ _ Hr' Er).
    destruct (cb_step dflt o b) as [out' b']. simpl in *.
    destruct (cb_run dflt os b') as [outs' b'']. simpl in *.
    destruct IH as (-> & -> & ?). subst. done.
Qed.

Lemma circular_buffer_refines_queue_witness :
  let os := [PushBack 1; PushBack 2; PushBack 3; PushFront 7; PopFront; Resize 4; PushBack 5] in
  (cb_run 0 os (cb_make 0 2)).1 = [None; None; None; None; Some 7; None; None] /\
  contents (cb_run 0 os (cb_make 0 2)).2 = [2; 5].
Proof.
  intros os. destruct (circular_buffer_refines_queue 0 2 os
    [None; None; None; None; Some 7; None; None] 4 [2; 5] eq_refl) as (H1 & H2 & _).
  split; [exact H1|exact H2].
Defined.
