(* ===== verification/Handles.v ===== *)
(** * Handles: handle values, [wpi::UidVector] and [HandleMap]

    [Handle.h], [wpiutil/.../UidVector.h] and [HandleMap.h].  The objects of the
    API live in a [HandleMap]: a vector with a free list, addressed by handles that
    pack the type, the instance and the index. *)

From S2P Require Import Prelude.
Local Open Scope Z_scope.

(** ** Handle values *)

Inductive HandleType :=
| kListener | kListenerPoller | kEntry | kInstance | kDataLogger
| kConnectionDataLogger | kMultiSubscriber | kTopic | kSubscriber | kPublisher.
#[global] Instance HandleType_eq_dec : EqDecision HandleType.
Proof. solve_decision. Defined.

(** [wpi::kHandleTypeNTBase] *)
Definition kHandleTypeNTBase : Z := 16.

Definition HandleType_code (t : HandleType) : Z :=
  kHandleTypeNTBase +
  match t with
  | kListener => 0 | kListenerPoller => 1 | kEntry => 2 | kInstance => 3
  | kDataLogger => 4 | kConnectionDataLogger => 5 | kMultiSubscriber => 6
  | kTopic => 7 | kSubscriber => 8 | kPublisher => 9
  end.

Definition kIndexMax : Z := 0xfffff.

(** [Handle(int inst, int index, Type type)] *)
Definition Handle (inst index : Z) (type : HandleType) : Z :=
  if (inst <? 0) || (index <? 0) then 0
  else Z.lor (Z.lor (Z.shiftl (Z.land (HandleType_code type) 0x7f) 24)
                (Z.shiftl (Z.land inst 0xf) 20))
             (Z.land index 0xfffff).

Definition GetIndex (h : Z) : Z := Z.land h 0xfffff.
(** The type as its code; a handle is an [unsigned int] converted to [int]. *)
Definition GetType (h : Z) : Z := Z.land (Z.shiftr (swrap 32 h) 24) 0x7f.
Definition GetInst (h : Z) : Z := Z.land (Z.shiftr (swrap 32 h) 20) 0xf.
Definition IsType (type : HandleType) (h : Z) : bool := GetType h =? HandleType_code type.
Definition GetTypedIndex (type : HandleType) (h : Z) : Z :=
  if IsType type h then GetIndex h else -1.
Definition GetTypedInst (type : HandleType) (h : Z) : Z :=
  if IsType type h then GetInst h else -1.

Lemma land_ones_mod z k m : m = Z.ones k -> 0 <= k -> Z.land z m = z mod 2 ^ k.
Proof. intros -> ?. by apply Z.land_ones. Qed.

Lemma HandleType_code_range t : 16 <= HandleType_code t < 26.
Proof. by destruct t. Qed.

Lemma HandleType_code_inj t t' : HandleType_code t = HandleType_code t' -> t = t'.
Proof. by destruct t, t'. Qed.

(** The three fields do not overlap. *)
Lemma Handle_sum inst index t :
  0 <= inst -> 0 <= index ->
  Handle inst index t =
  HandleType_code t * 2 ^ 24 + (inst mod 2 ^ 4) * 2 ^ 20 + index mod 2 ^ 20.
Proof.
  intros Hi Hx. unfold Handle. pose proof (HandleType_code_range t).
  rewrite (proj2 (Z.ltb_ge inst 0)), (proj2 (Z.ltb_ge index 0)) by lia. simpl orb.
  rewrite (land_ones_mod _ 7), (land_ones_mod inst 4), (land_ones_mod index 20)
    by (reflexivity || lia).
  rewrite (Z.mod_small (HandleType_code t)) by lia.
  assert (0 <= inst mod 2 ^ 4 < 2 ^ 4) by (apply Z.mod_pos_bound; lia).
  assert (0 <= index mod 2 ^ 20 < 2 ^ 20) by (apply Z.mod_pos_bound; lia).
  replace (Z.shiftl (HandleType_code t) 24)
    with (Z.shiftl (Z.shiftl (HandleType_code t) 4) 20)
    by (by rewrite Z.shiftl_shiftl by lia).
  rewrite <- Z.shiftl_lor, !lor_shiftl_add by lia. lia.
Qed.

Lemma Handle_range inst index t :
  0 <= inst -> 0 <= index -> 0 < Handle inst index t < 2 ^ 31.
Proof.
  intros Hi Hx. rewrite Handle_sum by done. pose proof (HandleType_code_range t).
  pose proof (Z.mod_pos_bound inst (2 ^ 4)). pose proof (Z.mod_pos_bound index (2 ^ 20)).
  lia.
Qed.

(** Arithmetic on the packed fields, with the powers of two evaluated. *)
Ltac handle_lia :=
  change (2 ^ 24) with 16777216 in *; change (2 ^ 20) with 1048576 in *;
  change (2 ^ 7) with 128 in *; change (2 ^ 4) with 16 in *;
  Z.div_mod_to_equations; lia.

Lemma GetIndex_Handle inst index t :
  0 <= inst -> 0 <= index -> GetIndex (Handle inst index t) = index mod 2 ^ 20.
Proof.
  intros Hi Hx. unfold GetIndex. rewrite (land_ones_mod _ 20), Handle_sum by (done || lia).
  handle_lia.
Qed.

Lemma GetType_Handle inst index t :
  0 <= inst -> 0 <= index -> GetType (Handle inst index t) = HandleType_code t.
Proof.
  intros Hi Hx. unfold GetType. pose proof (Handle_range inst index t Hi Hx).
  rewrite swrap_small, (land_ones_mod _ 7), Z.shiftr_div_pow2, Handle_sum by (done || lia).
  pose proof (HandleType_code_range t).
  pose proof (Z.mod_pos_bound inst (2 ^ 4)). pose proof (Z.mod_pos_bound index (2 ^ 20)).
  handle_lia.
Qed.

Lemma GetInst_Handle inst index t :
  0 <= inst -> 0 <= index -> GetInst (Handle inst index t) = inst mod 2 ^ 4.
Proof.
  intros Hi Hx. unfold GetInst. pose proof (Handle_range inst index t Hi Hx).
  rewrite swrap_small, (land_ones_mod _ 4), Z.shiftr_div_pow2, Handle_sum by (done || lia).
  pose proof (HandleType_code_range t).
  pose proof (Z.mod_pos_bound inst (2 ^ 4)). pose proof (Z.mod_pos_bound index (2 ^ 20)).
  handle_lia.
Qed.

Lemma IsType_Handle inst index t t' :
  0 <= inst -> 0 <= index -> IsType t (Handle inst index t') = bool_decide (t = t').
Proof.
  intros Hi Hx. unfold IsType. rewrite GetType_Handle by done.
  case_bool_decide as Ht; [subst; apply Z.eqb_refl|]. apply Z.eqb_neq.
  intros E. by apply HandleType_code_inj in E.
Qed.

(** The fields packed into a handle are read back, for indexes up to
    [kIndexMax] and the sixteen instances; handles of different types, instances or
    indexes differ and none is the invalid handle 0. *)
Theorem handle_roundtrip (inst index : Z) (t : HandleType) :
  0 <= inst < 16 -> 0 <= index <= kIndexMax ->
  let h := Handle inst index t in
  GetIndex h = index /\ GetInst h = inst /\ GetType h = HandleType_code t /\
  (forall t', GetTypedIndex t' h = if decide (t' = t) then index else -1) /\
  h <> 0.
Proof.
  intros Hi Hx h. unfold h. unfold kIndexMax in Hx.
  pose proof (Handle_range inst index t ltac:(lia) ltac:(lia)).
  unfold GetTypedIndex.
  rewrite GetIndex_Handle, GetInst_Handle, GetType_Handle by lia.
  rewrite !Z.mod_small by lia. split_and!; [done..| |lia].
  intros t'. rewrite IsType_Handle by lia. destruct (decide (t' = t)) as [->|Hne].
  - by rewrite bool_decide_eq_true_2.
  - by rewrite bool_decide_eq_false_2.
Qed.

Lemma handle_roundtrip_witness :
  GetIndex (Handle 3 70000 kTopic) = 70000 /\ GetTypedIndex kEntry (Handle 3 70000 kTopic) = -1.
Proof.
  destruct (handle_roundtrip 3 70000 kTopic) as (H1 & _ & _ & H2 & _); [lia|unfold kIndexMax; lia|].
  split; [exact H1|exact (H2 kEntry)].
Defined.

(** ** [UidVector] and [HandleMap]

    The elements are [std::unique_ptr]s: a slot is [None] when it is empty.  A
    pointer to an object of the map is the index of its slot. *)

Local Open Scope nat_scope.

Record HandleMap (T : Type) := MkHM {
  m_vector : list (option T);
  m_free : list nat;
  m_active_count : nat;
}.
Arguments MkHM {T} _ _ _.
Arguments m_vector {T} _.
Arguments m_free {T} _.
Arguments m_active_count {T} _.

Definition hm_empty {T} : HandleMap T := MkHM [] [] 0.

Section HandleMap.
Context {T : Type} (kType : HandleType) (reuse_threshold : nat).

(** [UidVector::empty] and [size] *)
Definition uid_empty (m : HandleMap T) : bool := m_active_count m =? 0.
Definition uid_size (m : HandleMap T) : nat := length (m_vector m).

(** [UidVector::emplace_back]; the threshold is positive, so that the free list is
    not empty where its front is taken. *)
Definition uid_emplace_back (v : option T) (m : HandleMap T) : nat * HandleMap T :=
  let append :=
    (length (m_vector m), MkHM (m_vector m ++ [v]) (m_free m) (m_active_count m + 1)) in
  if length (m_free m) <? reuse_threshold then append
  else
    match m_free m with
    | [] => append
    | uid :: free => (uid, MkHM (<[uid := v]> (m_vector m)) free (m_active_count m + 1))
    end.

(** [UidVector::erase] *)
Definition uid_erase (uid : nat) (m : HandleMap T) : option T * HandleMap T :=
  match m_vector m !! uid with
  | Some (Some v) =>
      (Some v, MkHM (<[uid := None]> (m_vector m)) (m_free m ++ [uid]) (m_active_count m - 1))
  | _ => (None, m)
  end.

(** The object a pointer points to, and a write through the pointer. *)
Definition hm_at (m : HandleMap T) (i : nat) : option T := mjoin (m_vector m !! i).
Definition hm_set (i : nat) (v : T) (m : HandleMap T) : HandleMap T :=
  MkHM (<[i := Some v]> (m_vector m)) (m_free m) (m_active_count m).

(** Iteration skips the empty slots. *)
Definition hm_live (m : HandleMap T) : list nat :=
  filter (fun i => is_Some (hm_at m i)) (seq 0 (length (m_vector m))).

(** [HandleMap::Add], with the constructor of [T] applied to its arguments but
    the handle *)
Definition hm_Add (inst : Z) (mk : Z -> T) (m : HandleMap T) : nat * HandleMap T :=
  let '(i, m) := uid_emplace_back None m in
  (i, hm_set i (mk (Handle inst (Z.of_nat i) kType)) m).

(** The check shared by [Remove] and [Get]. *)
Definition hm_index (handle : Z) (m : HandleMap T) : option nat :=
  if IsType kType handle then
    let i := Z.to_nat (GetIndex handle) in
    if uid_size m <=? i then None else Some i
  else None.

Definition hm_Remove (handle : Z) (m : HandleMap T) : option T * HandleMap T :=
  match hm_index handle m with
  | Some i => uid_erase i m
  | None => (None, m)
  end.

(** A pointer, or [None] for a null pointer. *)
Definition hm_Get (handle : Z) (m : HandleMap T) : option nat :=
  i ← hm_index handle m; _ ← hm_at m i; Some i.

(** ** Invariant: the free list holds the empty slots, once each. *)
Record hm_ok (m : HandleMap T) : Prop := {
  hm_nodup : NoDup (m_free m);
  hm_free : forall i, i ∈ m_free m <-> m_vector m !! i = Some None;
  hm_count : m_active_count m + length (m_free m) = length (m_vector m);
}.

Lemma hm_at_Some m i v : hm_at m i = Some v <-> m_vector m !! i = Some (Some v).
Proof. unfold hm_at. destruct (m_vector m !! i) as [[]|]; simpl; naive_solver. Qed.

Lemma hm_at_lt m i : is_Some (hm_at m i) -> i < length (m_vector m).
Proof. intros [v Hv]. apply hm_at_Some in Hv. by eapply lookup_lt_Some. Qed.

Lemma hm_at_set m i v j :
  is_Some (hm_at m i) ->
  hm_at (hm_set i v m) j = if decide (i = j) then Some v else hm_at m j.
Proof.
  intros Hi. apply hm_at_lt in Hi. unfold hm_at, hm_set. simpl. case_decide.
  - subst. by rewrite list_lookup_insert_eq.
  - by rewrite list_lookup_insert_ne.
Qed.

Lemma hm_set_id m i v : hm_at m i = Some v -> hm_set i v m = m.
Proof.
  intros Hi. unfold hm_set. apply hm_at_Some in Hi. rewrite list_insert_id by done.
  by destruct m.
Qed.

Lemma hm_set_set m i v w : hm_set i v (hm_set i w m) = hm_set i v m.
Proof. unfold hm_set. simpl. by rewrite list_insert_insert_eq. Qed.

Lemma hm_set_ok m i v : hm_ok m -> is_Some (hm_at m i) -> hm_ok (hm_set i v m).
Proof.
  intros [Hn Hf Hc] Hi. pose proof (hm_at_lt m i Hi). destruct Hi as [w Hw].
  apply hm_at_Some in Hw. split; simpl; [done| |by rewrite length_insert].
  intros j. rewrite Hf. destruct (decide (i = j)) as [->|].
  - rewrite list_lookup_insert_eq by done. naive_solver.
  - by rewrite list_lookup_insert_ne.
Qed.

Lemma elem_of_hm_live m i : i ∈ hm_live m <-> is_Some (hm_at m i).
Proof.
  unfold hm_live. rewrite list_elem_of_filter, elem_of_seq. split; [naive_solver|].
  intros Hi. pose proof (hm_at_lt m i Hi). split; [done|lia].
Qed.

Lemma NoDup_hm_live m : NoDup (hm_live m).
Proof. apply NoDup_filter, NoDup_seq. Qed.

Lemma emplace_ok v m i m' :
  hm_ok m -> uid_emplace_back (Some v) m = (i, m') ->
  hm_ok m' /\ hm_at m i = None /\ i <= uid_size m /\ uid_size m' <= S (uid_size m) /\
  forall j, hm_at m' j = if decide (i = j) then Some v else hm_at m j.
Proof.
  intros [Hn Hf Hc]. unfold uid_emplace_back, uid_size.
  assert (Happ : forall i' m'', (length (m_vector m),
      MkHM (m_vector m ++ [Some v]) (m_free m) (m_active_count m + 1)) = (i', m'') ->
    hm_ok m'' /\ hm_at m i' = None /\ i' <= length (m_vector m) /\
    length (m_vector m'') <= S (length (m_vector m)) /\
    forall j, hm_at m'' j = if decide (i' = j) then Some v else hm_at m j).
  { intros i' m'' E. injection E as <- <-. unfold hm_at.
    rewrite lookup_ge_None_2 by done. split_and!; [|done|done|simpl; rewrite length_app; simpl; lia|].
    - split; simpl; [done| |rewrite length_app; simpl; lia].
      intros j. rewrite Hf, lookup_snoc_Some. split; [|naive_solver].
      intros Hj. pose proof (lookup_lt_Some _ _ _ Hj). by left.
    - intros j. simpl. case_decide; [subst; by rewrite lookup_app_r, Nat.sub_diag|].
      destruct (decide (j < length (m_vector m))); [by rewrite lookup_app_l|].
      rewrite !lookup_ge_None_2; [done|lia|]. rewrite length_app. simpl. lia. }
  destruct (length (m_free m) <? reuse_threshold); [apply Happ|].
  destruct (m_free m) as [|uid free] eqn:Efree; [apply Happ|]. clear Happ.
  intros E. injection E as <- <-.
  assert (Hu : m_vector m !! uid = Some None) by (apply Hf; left).
  pose proof (lookup_lt_Some _ _ _ Hu). unfold hm_at. rewrite Hu. simpl.
  rewrite length_insert. split_and!; [|done|lia|lia|].
  - apply NoDup_cons in Hn as [Hni Hn]. split; simpl; [done| |rewrite length_insert; simpl in Hc; lia].
    intros j. destruct (decide (uid = j)) as [->|Hne].
    + rewrite list_lookup_insert_eq by done. naive_solver.
    + rewrite list_lookup_insert_ne by done. rewrite <- Hf, elem_of_cons. naive_solver.
  - intros j. case_decide; [subst; by rewrite list_lookup_insert_eq|].
    by rewrite list_lookup_insert_ne.
Qed.

(** Adding an empty slot and filling it is adding the filled slot. *)
Lemma hm_Add_emplace inst mk m :
  hm_ok m ->
  hm_Add inst mk m =
  (let i := (uid_emplace_back None m).1 in
   uid_emplace_back (Some (mk (Handle inst (Z.of_nat i) kType))) m).
Proof.
  intros [Hn Hf Hc]. unfold hm_Add, uid_emplace_back, hm_set.
  destruct (length (m_free m) <? reuse_threshold).
  { simpl. f_equal. f_equal. by rewrite insert_app_r_alt, Nat.sub_diag. }
  destruct (m_free m) as [|uid free] eqn:Efree.
  { simpl. f_equal. f_equal. by rewrite insert_app_r_alt, Nat.sub_diag. }
  simpl. by rewrite list_insert_insert_eq.
Qed.

Lemma hm_Add_spec inst mk m i m' :
  hm_ok m -> hm_Add inst mk m = (i, m') ->
  hm_ok m' /\ hm_at m i = None /\ i <= uid_size m /\ uid_size m' <= S (uid_size m) /\
  forall j, hm_at m' j =
    if decide (i = j) then Some (mk (Handle inst (Z.of_nat i) kType)) else hm_at m j.
Proof.
  intros Hok. rewrite hm_Add_emplace by done. cbv zeta.
  set (v := mk _). intros E.
  assert (Ei : (uid_emplace_back None m).1 = i).
  { revert E. unfold uid_emplace_back. destruct (_ <? _); [by intros [=]|].
    destruct (m_free m); by intros [=]. }
  subst v. rewrite Ei in *. by apply emplace_ok.
Qed.

Lemma hm_Get_Some handle m i :
  hm_Get handle m = Some i -> is_Some (hm_at m i) /\ IsType kType handle = true.
Proof.
  unfold hm_Get, hm_index. destruct (IsType kType handle); [|done].
  destruct (_ <=? _); simpl; [done|].
  destruct (hm_at m _) eqn:E; simpl; [|done]. intros ?. by simplify_eq.
Qed.

Lemma hm_Get_Handle inst i m :
  (0 <= inst)%Z -> is_Some (hm_at m i) -> (Z.of_nat i <= kIndexMax)%Z ->
  hm_Get (Handle inst (Z.of_nat i) kType) m = Some i.
Proof.
  unfold kIndexMax. intros Hinst Hi Hx. unfold hm_Get, hm_index.
  rewrite IsType_Handle, GetIndex_Handle, Z.mod_small, Nat2Z.id by lia.
  rewrite bool_decide_eq_true_2 by done. pose proof (hm_at_lt m i Hi).
  unfold uid_size. rewrite (proj2 (Nat.leb_gt _ _)) by done. simpl.
  by destruct Hi as [v ->].
Qed.

(** An object leaves the free list shorter than the vector. *)
Lemma hm_free_lt m i v :
  hm_ok m -> m_vector m !! i = Some (Some v) -> S (length (m_free m)) <= length (m_vector m).
Proof.
  intros [Hn Hf Hc] Hi. pose proof (lookup_lt_Some _ _ _ Hi).
  assert (Hsub : i :: m_free m ⊆+ seq 0 (length (m_vector m))).
  { apply NoDup_submseteq.
    - apply NoDup_cons. split; [|done]. rewrite Hf. congruence.
    - intros j. rewrite elem_of_cons, Hf, elem_of_seq.
      intros [->|Hj]; [lia|]. apply lookup_lt_Some in Hj. lia. }
  apply submseteq_length in Hsub. by rewrite length_seq in Hsub.
Qed.

Lemma uid_erase_spec i m o m' :
  hm_ok m -> uid_erase i m = (o, m') ->
  match o with
  | None => m' = m /\ hm_at m i = None
  | Some v =>
      hm_at m i = Some v /\ hm_ok m' /\ uid_size m' = uid_size m /\
      forall j, hm_at m' j = if decide (i = j) then None else hm_at m j
  end.
Proof.
  intros [Hn Hf Hc].
  unfold uid_erase. destruct (m_vector m !! i) as [[v|]|] eqn:Ei; intros ?; simplify_eq.
  2,3: unfold hm_at; by rewrite Ei.
  pose proof (lookup_lt_Some _ _ _ Ei). unfold hm_at at 1. rewrite Ei. simpl.
  split_and!; [done| |unfold uid_size; simpl; apply length_insert|].
  - split; simpl.
    + apply NoDup_app. split_and!; [done| |apply NoDup_singleton].
      intros j Hj ?%list_elem_of_singleton. subst. apply Hf in Hj. congruence.
    + intros j. rewrite elem_of_app, list_elem_of_singleton, Hf.
      destruct (decide (i = j)) as [->|].
      * rewrite list_lookup_insert_eq by done. naive_solver.
      * rewrite list_lookup_insert_ne by done. naive_solver.
    + rewrite length_app, length_insert. simpl.
      assert (S (length (m_free m)) <= length (m_vector m)); [|lia].
      by apply (hm_free_lt m i v).
  - intros j. unfold hm_at. simpl. case_decide.
    + subst. by rewrite list_lookup_insert_eq.
    + by rewrite list_lookup_insert_ne.
Qed.

Lemma hm_Remove_spec handle m o m' :
  hm_ok m -> hm_Remove handle m = (o, m') ->
  match o with
  | None => m' = m /\ hm_Get handle m = None
  | Some v =>
      exists i, hm_Get handle m = Some i /\ hm_at m i = Some v /\ hm_ok m' /\
        uid_size m' = uid_size m /\
        forall j, hm_at m' j = if decide (i = j) then None else hm_at m j
  end.
Proof.
  intros Hok. unfold hm_Remove, hm_Get.
  destruct (hm_index handle m) as [i|]; [|intros ?; by simplify_eq]. simpl.
  intros He. pose proof (uid_erase_spec i m o m' Hok He) as Hs.
  destruct o as [v|]; [|destruct Hs as [-> ->]; done].
  destruct Hs as [Hi Hs]. exists i. by rewrite Hi.
Qed.

Lemma uid_empty_iff m : hm_ok m -> uid_empty m = true <-> forall i, hm_at m i = None.
Proof.
  intros [Hn Hf Hc]. unfold uid_empty. rewrite Nat.eqb_eq. split.
  - intros H0 i. unfold hm_at. destruct (m_vector m !! i) as [[v|]|] eqn:Ei; [|done|done].
    pose proof (hm_free_lt m i v ltac:(done) Ei). lia.
  - intros Hnone. assert (Hsub : seq 0 (length (m_vector m)) ⊆+ m_free m).
    { apply NoDup_submseteq; [apply NoDup_seq|]. intros i [_ Hi]%elem_of_seq. apply Hf.
      destruct (lookup_lt_is_Some_2 (m_vector m) i Hi) as [[v|] Hv]; [|done].
      specialize (Hnone i). apply hm_at_Some in Hv. congruence. }
    apply submseteq_length in Hsub. rewrite length_seq in Hsub. lia.
Qed.
End HandleMap.

Lemma hm_empty_ok {T} : hm_ok (@hm_empty T).
Proof. split; simpl; [apply NoDup_nil_2| |done]. intros i. rewrite lookup_nil. set_solver. Qed.

Lemma hm_Get_at {T} t (m m' : HandleMap T) h i :
  hm_Get t h m = Some i -> is_Some (hm_at m' i) -> hm_Get t h m' = Some i.
Proof.
  unfold hm_Get, hm_index. destruct (IsType t h); [|done].
  destruct (uid_size m <=? _); [done|]. simpl.
  destruct (hm_at m _) eqn:E; [|done]. intros ? Hi. simplify_eq/=.
  pose proof (hm_at_lt m' _ Hi). unfold uid_size.
  rewrite (proj2 (Nat.leb_gt _ _)) by done. simpl. by destruct Hi as [? ->].
Qed.

(** The pointer depends on the handle only. *)
Lemma hm_Get_index {T} t (m : HandleMap T) h i :
  hm_Get t h m = Some i -> i = Z.to_nat (GetIndex h).
Proof.
  unfold hm_Get, hm_index. destruct (IsType t h); [|done].
  destruct (uid_size m <=? _); [done|]. simpl. destruct (hm_at m _); [|done].
  by intros [= <-].
Qed.
Lemma hm_Get_fun {T} t (m m' : HandleMap T) h i j :
  hm_Get t h m = Some i -> hm_Get t h m' = Some j -> i = j.
Proof. intros ->%hm_Get_index ->%hm_Get_index. done. Qed.

(** ** Mapping a function over the objects *)

Definition hm_map {A B} (f : A -> B) (m : HandleMap A) : HandleMap B :=
  MkHM (fmap (M := list) (fmap (M := option) f) (m_vector m)) (m_free m) (m_active_count m).

Section Map.
Context {A B : Type} (f : A -> B).
Implicit Types m : HandleMap A.

Lemma hm_at_map m i : hm_at (hm_map f m) i = f <$> hm_at m i.
Proof. unfold hm_at. simpl. rewrite list_lookup_fmap. by destruct (m_vector m !! i) as [[]|]. Qed.

Lemma hm_map_set m i v : hm_map f (hm_set i v m) = hm_set i (f v) (hm_map f m).
Proof. unfold hm_map, hm_set. simpl. by rewrite list_fmap_insert. Qed.

Lemma uid_size_map m : uid_size (hm_map f m) = uid_size m.
Proof. apply length_fmap. Qed.

Lemma hm_live_map m : hm_live (hm_map f m) = hm_live m.
Proof.
  unfold hm_live. simpl. rewrite length_fmap. apply list_filter_iff. intros i.
  rewrite hm_at_map. apply fmap_is_Some.
Qed.

Lemma hm_index_map t h m : hm_index t h (hm_map f m) = hm_index t h m.
Proof. unfold hm_index. by rewrite uid_size_map. Qed.

Lemma hm_Get_map t h m : hm_Get t h (hm_map f m) = hm_Get t h m.
Proof.
  unfold hm_Get. rewrite hm_index_map. destruct (hm_index t h m) as [i|]; [|done].
  simpl. rewrite hm_at_map. by destruct (hm_at m i).
Qed.

Lemma hm_Add_map t thr inst mk m :
  hm_Add t thr inst (fun h => f (mk h)) (hm_map f m)
  = prod_map id (hm_map f) (hm_Add t thr inst mk m).
Proof.
  unfold hm_Add, uid_emplace_back. simpl. rewrite length_fmap.
  assert (Ha : forall i, hm_set i (f (mk (Handle inst (Z.of_nat i) t)))
      (MkHM (fmap (M := list) (fmap (M := option) f) (m_vector m) ++ [None]) (m_free m) (m_active_count m + 1))
    = hm_map f (hm_set i (mk (Handle inst (Z.of_nat i) t))
        (MkHM (m_vector m ++ [None]) (m_free m) (m_active_count m + 1)))).
  { intros i. rewrite hm_map_set. f_equal. unfold hm_map. simpl. by rewrite fmap_app. }
  destruct (length (m_free m) <? thr); [by rewrite Ha|].
  destruct (m_free m) as [|uid free]; simpl; [by rewrite Ha|].
  rewrite hm_map_set. unfold hm_map at 1. simpl. by rewrite list_fmap_insert.
Qed.

Lemma hm_Remove_map t h m :
  hm_Remove t h (hm_map f m) = prod_map (fmap f) (hm_map f) (hm_Remove t h m).
Proof.
  unfold hm_Remove. rewrite hm_index_map. destruct (hm_index t h m) as [i|]; [|done].
  unfold uid_erase. simpl. rewrite list_lookup_fmap.
  destruct (m_vector m !! i) as [[v|]|]; try done. simpl.
  unfold hm_map. simpl. by rewrite list_fmap_insert.
Qed.

(** Writing an object with the same image changes nothing. *)
Lemma hm_map_set_same m i v w :
  hm_at m i = Some v -> f w = f v -> hm_map f (hm_set i w m) = hm_map f m.
Proof.
  intros Hi Hf. rewrite hm_map_set, Hf. unfold hm_set, hm_map. simpl. f_equal.
  apply list_insert_id. rewrite list_lookup_fmap. apply hm_at_Some in Hi. by rewrite Hi.
Qed.
End Map.

Lemma hm_map_map_eq {A B} (f g : A -> B) m :
  (forall i v, hm_at m i = Some v -> f v = g v) -> hm_map f m = hm_map g m.
Proof.
  intros Hfg. unfold hm_map. f_equal. apply list_fmap_ext. intros i [v|] Hi; [|done].
  simpl. f_equal. by apply (Hfg i), hm_at_Some.
Qed.

(** ** Tables: a handle map whose objects know their handle *)

(** The index of a new object fits in a handle. *)
Definition room {A} (m : HandleMap A) : Prop := (Z.of_nat (uid_size m) <= kIndexMax)%Z.

Record table {A} (inst : Z) (t : HandleType) (get : A -> Z) (m : HandleMap A) : Prop := {
  tb_ok : hm_ok m;
  tb_size : (Z.of_nat (uid_size m) <= kIndexMax + 1)%Z;
  tb_handle : forall k a, hm_at m k = Some a -> get a = Handle inst (Z.of_nat k) t;
}.

Section Table.
Context {A : Type} (inst : Z) (t : HandleType) (get : A -> Z).
Implicit Types m : HandleMap A.

Lemma table_empty : table inst t get hm_empty.
Proof. split; [apply hm_empty_ok|done|]. by intros [|k] a. Qed.

Lemma table_set m k a a' :
  table inst t get m -> hm_at m k = Some a -> get a' = get a ->
  table inst t get (hm_set k a' m).
Proof.
  intros [Hok Hsz Hh] Hk Hg. split.
  - by apply hm_set_ok.
  - unfold uid_size, hm_set in *. simpl. by rewrite length_insert.
  - intros j b. rewrite hm_at_set by done. case_decide; [|by apply Hh].
    intros [= <-]. subst. rewrite Hg. by apply Hh.
Qed.

Lemma table_Add m thr mk i m' :
  table inst t get m -> (Z.of_nat (uid_size m) <= kIndexMax)%Z ->
  hm_Add t thr inst mk m = (i, m') -> (forall h, get (mk h) = h) ->
  table inst t get m' /\ hm_at m i = None /\
  (forall j, hm_at m' j = if decide (i = j)
             then Some (mk (Handle inst (Z.of_nat i) t)) else hm_at m j).
Proof.
  intros [Hok Hsz Hh] Hroom Ha Hmk.
  destruct (hm_Add_spec _ _ _ _ _ _ _ Hok Ha) as (Hok' & Hn & _ & Hsz' & Hat).
  split; [|done]. split; [done|lia|]. intros k a. rewrite Hat.
  case_decide; [intros [= <-]; subst; apply Hmk|apply Hh].
Qed.

Lemma table_Remove m h o m' :
  table inst t get m -> hm_Remove t h m = (o, m') ->
  table inst t get m' /\
  match o with
  | None => m' = m /\ hm_Get t h m = None
  | Some a => exists k, hm_Get t h m = Some k /\ hm_index t h m = Some k /\
      hm_at m k = Some a /\
      forall j, hm_at m' j = if decide (k = j) then None else hm_at m j
  end.
Proof.
  intros [Hok Hsz Hh] Hr. pose proof (hm_Remove_spec _ _ _ _ _ Hok Hr) as H.
  destruct o as [a|]; [|destruct H as [-> H]; split; [by split|done]].
  destruct H as (k & Hg & Hk & Hok' & Hsz' & Hat). split.
  - split; [done|lia|]. intros j b. rewrite Hat. case_decide; [done|apply Hh].
  - exists k. split_and!; try done. unfold hm_Get in Hg.
    destruct (hm_index t h m) as [j|]; [|done]. simpl in Hg.
    by destruct (hm_at m j); simplify_eq/=.
Qed.

(** An object is found under its handle. *)
Lemma table_Get m k a :
  (0 <= inst)%Z -> table inst t get m -> hm_at m k = Some a -> hm_Get t (get a) m = Some k.
Proof.
  intros Hi [Hok Hsz Hh] Hk. rewrite (Hh _ _ Hk). apply hm_Get_Handle; [done|done|].
  assert (k < uid_size m) by (by apply hm_at_lt). lia.
Qed.
End Table.

(** A [HandleMap] is a finite map from handles to objects: adding an object
    returns a handle that was not in use, looking that handle up yields the object,
    objects added before keep their handles, and removing the handle returns the
    object and restores the lookups of all others. *)
Theorem handle_map_roundtrip {T} (kType : HandleType) (thr : nat) (inst : Z)
    (mk : Z -> T) (m : HandleMap T) :
  hm_ok m -> (0 <= inst)%Z -> (Z.of_nat (uid_size m) <= kIndexMax)%Z ->
  let '(i, m1) := hm_Add kType thr inst mk m in
  let h := Handle inst (Z.of_nat i) kType in
  let '(o, m2) := hm_Remove kType h m1 in
  hm_ok m1 /\ hm_ok m2 /\
  hm_Get kType h m = None /\ hm_Get kType h m1 = Some i /\ hm_at m1 i = Some (mk h) /\
  o = Some (mk h) /\ hm_Get kType h m2 = None /\
  (forall h' j v, hm_Get kType h' m = Some j -> hm_at m j = Some v ->
     hm_Get kType h' m1 = Some j /\ hm_at m1 j = Some v /\
     hm_Get kType h' m2 = Some j /\ hm_at m2 j = Some v).
Proof.
  intros Hok Hinst Hsz. destruct (hm_Add kType thr inst mk m) as [i m1] eqn:Ea.
  destruct (hm_Add_spec _ _ _ _ _ _ _ Hok Ea) as (Hok1 & Hfree & Hi & _ & Hat).
  intros h.
  assert (Hlive : hm_at m1 i = Some (mk h)) by (by rewrite Hat, decide_True).
  assert (Hg1 : hm_Get kType h m1 = Some i) by (apply hm_Get_Handle; [done|done|lia]).
  destruct (hm_Remove kType h m1) as [o m2] eqn:Er.
  pose proof (hm_Remove_spec _ _ _ _ _ Hok1 Er) as Hr. destruct o as [v|];
    [|destruct Hr; congruence].
  destruct Hr as (i' & Hg & Hv & Hok2 & _ & Hat2). rewrite Hg1 in Hg. simplify_eq.
  assert (Hno : forall m0 : HandleMap T, hm_at m0 i' = None -> hm_Get kType h m0 = None).
  { intros m0 H0. destruct (hm_Get kType h m0) as [k|] eqn:E; [|done].
    pose proof (hm_Get_fun _ _ _ _ _ _ Hg1 E). subst k.
    destruct (hm_Get_Some _ _ _ _ E) as [[? ?] _]. congruence. }
  split; [exact Hok1|]. split; [exact Hok2|]. split; [by apply Hno|].
  split; [exact Hg1|]. split; [exact Hlive|]. split; [congruence|].
  split; [apply Hno; by rewrite Hat2, decide_True|].
  intros h' j v' Hj Hvj. assert (i' <> j) by (intros ->; congruence).
  assert (H1 : hm_at m1 j = Some v') by (by rewrite Hat, decide_False).
  assert (H2 : hm_at m2 j = Some v') by (by rewrite Hat2, decide_False).
  split_and!; [by apply (hm_Get_at _ m)|done|by apply (hm_Get_at _ m)|done].
Qed.

Lemma handle_map_roundtrip_witness :
  let '(i, m1) := hm_Add kTopic 16 2 (fun h => h) (@hm_empty Z) in
  i = 0 /\ hm_Get kTopic (Handle 2 0 kTopic) m1 = Some 0.
Proof.
  pose proof (handle_map_roundtrip kTopic 16 2 (fun h => h) (@hm_empty Z)
    hm_empty_ok ltac:(lia) ltac:(unfold uid_size, kIndexMax; simpl; lia)) as H.
  split; [reflexivity|]. exact (proj1 (proj2 (proj2 (proj2 H)))).
Defined.
