(* ===== verification/Monads.v ===== *)
(** * Monads: stateful code with undefined behaviour

    [M S A] is code that reads and writes a state [S] and returns an [A].  The
    result [None] is undefined behaviour: the use of a null or dangling pointer.
    [wp m Q s] says that [m], run in state [s], is free of undefined behaviour and
    ends in a result and a state that satisfy [Q]. *)

From S2P Require Import Prelude.

Definition M (S A : Type) : Type := S -> option (A * S).

Definition ret {S A} (a : A) : M S A := fun s => Some (a, s).
Definition bind {S A B} (m : M S A) (k : A -> M S B) : M S B := fun s =>
  match m s with Some (a, s') => k a s' | None => None end.

Declare Scope monad_scope.
Delimit Scope monad_scope with monad.
Notation "'let*' x ':=' m 'in' k" := (bind m (fun x => k))
  (at level 10, x name, m at level 100, k at level 200,
   format "'[v' 'let*'  x  ':='  m  'in' '/' k ']'") : monad_scope.
Notation "'let*' ' p ':=' m 'in' k" := (bind m (fun x => match x with p => k end))
  (at level 10, p strict pattern, m at level 100, k at level 200) : monad_scope.
Notation "m1 ;; m2" := (bind m1 (fun _ => m2)) : monad_scope.
Abbreviation skip := (ret tt).
#[global] Open Scope monad_scope.

Section Ops.
Context {S : Type}.

Definition get : M S S := fun s => Some (s, s).
Definition gets {A} (f : S -> A) : M S A := fun s => Some (f s, s).
Definition modify (f : S -> S) : M S unit := fun s => Some (tt, f s).

(** Dereference: [None] is a null or dangling pointer. *)
Definition deref {A} (o : option A) : M S A := fun s =>
  match o with Some a => Some (a, s) | None => None end.

Definition when (b : bool) (m : M S unit) : M S unit := if b then m else skip.

(** [for (auto&& x : l) body] *)
Fixpoint for_each {X} (l : list X) (body : X -> M S unit) : M S unit :=
  match l with
  | [] => skip
  | x :: l => body x ;; for_each l body
  end.

(** A loop that collects a result for each element *)
Fixpoint for_map {X A} (l : list X) (body : X -> M S A) : M S (list A) :=
  match l with
  | [] => ret []
  | x :: l => let* a := body x in let* r := for_map l body in ret (a :: r)
  end.
End Ops.

(** The first step of a computation, where its result is known. *)
Lemma bind_run {S A B} (m : M S A) (k : A -> M S B) s a s' :
  m s = Some (a, s') -> bind m k s = k a s'.
Proof. unfold bind. by intros ->. Qed.

(** ** Weakest preconditions *)

Definition wp {S A} (m : M S A) (Q : A -> S -> Prop) (s : S) : Prop :=
  match m s with Some (a, s') => Q a s' | None => False end.

Section Wp.
Context {S : Type}.
Implicit Types s : S.

Lemma wp_ret {A} (a : A) Q s : Q a s -> wp (ret a) Q s.
Proof. done. Qed.

Lemma wp_bind {A B} (m : M S A) (k : A -> M S B) Q s :
  wp m (fun a s' => wp (k a) Q s') s -> wp (bind m k) Q s.
Proof. unfold wp, bind. by destruct (m s) as [[a s']|]. Qed.

Lemma wp_mono {A} (m : M S A) (Q Q' : A -> S -> Prop) s :
  wp m Q s -> (forall a s', Q a s' -> Q' a s') -> wp m Q' s.
Proof. unfold wp. destruct (m s) as [[a s']|]; auto. Qed.

Lemma wp_get Q s : Q s s -> wp get Q s.
Proof. done. Qed.
Lemma wp_gets {A} (f : S -> A) Q s : Q (f s) s -> wp (gets f) Q s.
Proof. done. Qed.
Lemma wp_modify (f : S -> S) Q s : Q tt (f s) -> wp (modify f) Q s.
Proof. done. Qed.
Lemma wp_deref {A} (o : option A) a (Q : A -> S -> Prop) s :
  o = Some a -> Q a s -> wp (deref o) Q s.
Proof. by intros ->. Qed.
Lemma wp_when b (m : M S unit) Q s :
  (b = true -> wp m Q s) -> (b = false -> Q tt s) -> wp (when b m) Q s.
Proof. intros H1 H2. destruct b; [by apply H1|by apply wp_ret, H2]. Qed.

(** Loops: an invariant over the part of the list already visited. *)
Lemma wp_for_each {X} (l : list X) (body : X -> M S unit) (I : list X -> S -> Prop) Q s :
  I [] s ->
  (forall done x rest s', l = done ++ x :: rest -> I done s' ->
     wp (body x) (fun _ s'' => I (done ++ [x]) s'') s') ->
  (forall s', I l s' -> Q tt s') ->
  wp (for_each l body) Q s.
Proof.
  intros H0 Hb HQ.
  cut (forall done rest s', l = done ++ rest -> I done s' -> wp (for_each rest body) Q s').
  { intros Hc. by apply (Hc [] l). }
  intros done rest. revert done. induction rest as [|x rest IH]; intros dn s' Hl HI; simpl.
  - apply wp_ret, HQ. by rewrite Hl, app_nil_r.
  - apply wp_bind. eapply wp_mono; [by apply (Hb dn x rest)|]. intros [] s'' HI'.
    apply (IH (dn ++ [x])); [|done]. by rewrite <- app_assoc.
Qed.

(** Loops: an invariant that does not mention the elements visited. *)
Lemma wp_for_each_inv {X} (l : list X) (body : X -> M S unit) (I : S -> Prop) Q s :
  I s -> (forall x s', x ∈ l -> I s' -> wp (body x) (fun _ => I) s') ->
  (forall s', I s' -> Q tt s') -> wp (for_each l body) Q s.
Proof.
  intros H0 Hb HQ. apply (wp_for_each l body (fun _ => I)); [done| |done].
  intros dn x rest s' -> HI. apply Hb; [set_solver|done].
Qed.

Lemma wp_for_map {X A} (l : list X) (body : X -> M S A) (I : S -> Prop) (P : A -> Prop) s :
  I s -> (forall x s', x ∈ l -> I s' -> wp (body x) (fun a s'' => I s'' /\ P a) s') ->
  wp (for_map l body) (fun r s' => I s' /\ Forall P r) s.
Proof.
  revert s. induction l as [|x l IH]; intros s HI Hb; cbn [for_map]; [by apply wp_ret|].
  apply wp_bind. eapply wp_mono; [apply Hb; [left|done]|]. intros a s1 [HI1 Ha]. apply wp_bind.
  eapply wp_mono; [apply IH; [done|intros; apply Hb; [by right|done]]|]. intros r s2 [HI2 Hr]. apply wp_ret. split; [done|by constructor].
Qed.

Lemma wp_and {A} (m : M S A) (Q Q' : A -> S -> Prop) s :
  wp m Q s -> wp m Q' s -> wp m (fun a s' => Q a s' /\ Q' a s') s.
Proof. unfold wp. destruct (m s) as [[a s']|]; tauto. Qed.

(** [wp] of a total computation is about its result. *)
Lemma wp_run {A} (m : M S A) Q s :
  wp m Q s <-> exists a s', m s = Some (a, s') /\ Q a s'.
Proof.
  unfold wp. destruct (m s) as [[a s']|]; split; try naive_solver.
Qed.
End Wp.

(** One step through a program. *)
Ltac wp_step :=
  lazymatch goal with
  | |- wp (ret _) _ _ => apply wp_ret
  | |- wp (bind _ _) _ _ => apply wp_bind
  | |- wp get _ _ => apply wp_get
  | |- wp (gets _) _ _ => apply wp_gets
  | |- wp (modify _) _ _ => apply wp_modify
  | |- wp (deref _) _ _ => eapply wp_deref
  | |- wp (when _ _) _ _ => apply wp_when
  | |- wp (if ?b then _ else _) _ _ => destruct b eqn:?
  | |- wp (match ?o with _ => _ end) _ _ => destruct o eqn:?
  end.

(** ** Partial correctness *)

(** [wlp m Q s]: if [m] is free of undefined behaviour it ends in a state that satisfies [Q]. *)
Definition wlp {S A} (m : M S A) (Q : A -> S -> Prop) (s : S) : Prop :=
  match m s with Some (a, s') => Q a s' | None => True end.

Section Wlp.
Context {S : Type}.
Implicit Types s : S.

Lemma wlp_bind {A B} (m : M S A) (k : A -> M S B) Q s :
  wlp m (fun a s' => wlp (k a) Q s') s -> wlp (bind m k) Q s.
Proof. unfold wlp, bind. by destruct (m s) as [[a s']|]. Qed.
Lemma wlp_mono {A} (m : M S A) (Q Q' : A -> S -> Prop) s :
  wlp m Q s -> (forall a s', Q a s' -> Q' a s') -> wlp m Q' s.
Proof. unfold wlp. destruct (m s) as [[a s']|]; auto. Qed.
Lemma wlp_ret {A} (a : A) Q s : Q a s -> wlp (ret a) Q s.
Proof. done. Qed.
Lemma wlp_get Q s : Q s s -> wlp get Q s.
Proof. done. Qed.
Lemma wlp_modify (f : S -> S) (Q : unit -> S -> Prop) s : Q tt (f s) -> wlp (modify f) Q s.
Proof. done. Qed.
Lemma wlp_deref {A} (o : option A) (Q : A -> S -> Prop) s : (forall a, o = Some a -> Q a s) -> wlp (deref o) Q s.
Proof. unfold wlp, deref. destruct o; auto. Qed.
Lemma wlp_when b (m : M S unit) Q s : (b = true -> wlp m Q s) -> (b = false -> Q tt s) -> wlp (when b m) Q s.
Proof. intros H1 H2. destruct b; [by apply H1|by apply wlp_ret, H2]. Qed.
Lemma wlp_for_each {X} (l : list X) (body : X -> M S unit) (I : S -> Prop) s :
  I s -> (forall x s', x ∈ l -> I s' -> wlp (body x) (fun _ => I) s') -> wlp (for_each l body) (fun _ => I) s.
Proof.
  revert s. induction l as [|x l IH]; intros s HI Hb; [done|]. cbn [for_each]. apply wlp_bind.
  eapply wlp_mono; [apply Hb; [set_solver|done]|]. intros [] s' HI'. apply IH; [done|]. intros. apply Hb; [set_solver|done].
Qed.
Lemma wlp_run {A} (m : M S A) Q s a s' : wlp m Q s -> m s = Some (a, s') -> Q a s'.
Proof. unfold wlp. intros W E. by rewrite E in W. Qed.
Lemma wp_wlp {A} (m : M S A) Q s : wp m Q s -> wlp m Q s.
Proof. unfold wp, wlp. by destruct (m s) as [[a s']|]. Qed.
End Wlp.

Ltac wlp_step :=
  lazymatch goal with
  | |- wlp (ret _) _ _ => apply wlp_ret
  | |- wlp (bind _ _) _ _ => apply wlp_bind
  | |- wlp get _ _ => apply wlp_get
  | |- wlp (modify _) _ _ => apply wlp_modify
  | |- wlp (deref _) _ _ => apply wlp_deref; intros ? ?
  | |- wlp (when _ _) _ _ => apply wlp_when; intros ?
  | |- wlp (if ?b then _ else _) _ _ => destruct b eqn:?
  | |- wlp (match ?o with _ => _ end) _ _ => destruct o eqn:?
  end.
