(* ===== verification/LocalTypes.v ===== *)
(** * LocalTypes: the data of the local storage

    The structures of [LocalStorage.cpp] and [PubSubOptions.h], the collaborators
    of the local storage as an interface, and the state of [LSImpl].  A pointer to
    a topic, publisher, subscriber, entry or multi-subscriber is the index of its
    slot in the corresponding handle map; [wpi::SignalObject] is the handle it
    wraps. *)

From Stdlib Require Import Floats.SpecFloat.
From S2P Require Import Prelude NtTypes CircularBuffer Handles Monads.
Local Open Scope Z_scope.

(** ** Collaborators *)

(** What the storage uses of [wpi::json]: property values are of an opaque type
    [J]; an object is a finite map from strings to [J].  [jdump] is the text that
    [dump()] writes of an object whose strings are UTF-8.  For others [dump()] throws
    [json::type_error]; that exception is not modelled, so that what is proved of the
    storage is about properties whose strings are UTF-8. *)
Class Json (J : Type) := {
  jnull : J;
  jbool : bool -> J;
  j_is_null : J -> bool;
  j_get_bool : J -> option bool;
  j_eqb : J -> J -> bool;
  jdump : gmap string J -> string;
}.
#[global] Hint Mode Json ! : typeclass_instances.

(** The documented behaviour of [wpi::json] the theorems rely on. *)
Class JsonLaws (J : Type) `{Json J} : Prop := {
  j_is_null_jnull : j_is_null (jnull : J) = true;
  j_is_null_jbool b : j_is_null (jbool b : J) = false;
  j_get_bool_jbool b : j_get_bool (jbool b : J) = Some b;
}.

(** The clock [nt::Now()], the entry numbers [wpi::log::DataLog::Start] returns, and
    what the target produces for floating point conversions C++ leaves
    undefined. *)
Class Env := {
  env_Now : nat -> Z;
  env_DataLogStart : nat -> Z;
  env_cast_ub : Z -> Z;
}.

(** ** Options *)

Record PubSubOptions := MkOptions {
  pollStorage : Z;
  periodic : Z;  (** a [double], as its bits *)
  excludePublisher : Z;
  sendAll : bool;
  topicsOnly : bool;
  keepDuplicates : bool;
  prefixMatch : bool;
  disableRemote : bool;
  disableLocal : bool;
  excludeSelf : bool;
}.
#[global] Instance eta_PubSubOptions : Eta PubSubOptions := fun o =>
  MkOptions (pollStorage o) (periodic o) (excludePublisher o) (sendAll o) (topicsOnly o)
    (keepDuplicates o) (prefixMatch o) (disableRemote o) (disableLocal o) (excludeSelf o).

(** 0.1 *)
Definition kDefaultPeriodic : Z := 0x3fb999999999999a.
Definition kDefaultPubSubOptions : PubSubOptions :=
  MkOptions 0 kDefaultPeriodic 0 false false false false false false false.

Record PubSubOptionsImpl := MkOptionsImpl {
  o_options : PubSubOptions;
  periodicMs : Z;
}.
#[global] Instance eta_PubSubOptionsImpl : Eta PubSubOptionsImpl := fun o =>
  MkOptionsImpl (o_options o) (periodicMs o).

Definition f64_mul (x y : Z) : Z :=
  to_bits binary64 (SFmul (prec binary64) (emax binary64)
                      (of_bits binary64 x) (of_bits binary64 y)).

(** The converting constructor of [PubSubOptionsImpl] *)
Definition PubSubOptionsImpl_make `{Env} (options : PubSubOptions) : PubSubOptionsImpl :=
  let options :=
    if feqb binary64 (periodic options) 0
    then options <| periodic := kDefaultPeriodic |> else options in
  let ms := f64_mul (periodic options) (f64_of_int 1000) in
  let periodicMs :=
    match int_of_f64 ms with
    | Some z => if (0 <=? z) && (z <? 2 ^ 32) then z else env_cast_ub ms
    | None => env_cast_ub ms
    end in
  let options :=
    if pollStorage options =? 0
    then options <| pollStorage := if sendAll options then 20 else 1 |> else options in
  MkOptionsImpl options periodicMs.

Record PubSubConfig := MkConfig {
  c_options : PubSubOptionsImpl;
  c_type : NT_Type;
  c_typeStr : string;
}.
#[global] Instance eta_PubSubConfig : Eta PubSubConfig := fun c =>
  MkConfig (c_options c) (c_type c) (c_typeStr c).

(** The two constructors of [PubSubConfig] *)
Definition PubSubConfig_default `{Env} : PubSubConfig :=
  MkConfig (PubSubOptionsImpl_make kDefaultPubSubOptions) NT_UNASSIGNED EmptyString.
Definition PubSubConfig_make `{Env} (type : NT_Type) (typeStr : string)
    (options : PubSubOptions) : PubSubConfig :=
  MkConfig (PubSubOptionsImpl_make options <| o_options ::= fun o => o <| prefixMatch := false |> |>)
    type typeStr.

(** The options of a configuration. *)
Definition c_opts (c : PubSubConfig) : PubSubOptions := o_options (c_options c).

(** ** Objects *)

Record DataLoggerEntry := MkDataLoggerEntry { de_log : Z; de_entry : Z; de_logger : Z }.

Section Types.
Context {J : Type}.

Record TopicData := MkTopic {
  t_handle : Z;
  t_name : string;
  t_special : bool;
  t_lastValue : Value;
  t_lastValueNetwork : Value;
  t_type : NT_Type;
  t_typeStr : string;
  t_flags : Z;
  t_propertiesStr : string;
  t_properties : gmap string J;
  t_entry : Z;
  t_onNetwork : bool;
  t_lastValueFromNetwork : bool;
  t_datalogs : list DataLoggerEntry;
  t_datalogType : NT_Type;
  t_localPublishers : list nat;
  t_localSubscribers : list nat;
  t_multiSubscribers : list nat;
  t_entries : list nat;
  t_listeners : list Z;
}.
#[global] Instance eta_TopicData : Eta TopicData := fun t =>
  MkTopic (t_handle t) (t_name t) (t_special t) (t_lastValue t) (t_lastValueNetwork t)
    (t_type t) (t_typeStr t) (t_flags t) (t_propertiesStr t) (t_properties t) (t_entry t)
    (t_onNetwork t) (t_lastValueFromNetwork t) (t_datalogs t) (t_datalogType t)
    (t_localPublishers t) (t_localSubscribers t) (t_multiSubscribers t) (t_entries t)
    (t_listeners t).

Record PublisherData := MkPublisher {
  p_handle : Z;
  p_topic : nat;
  p_config : PubSubConfig;
  p_active : bool;
}.
#[global] Instance eta_PublisherData : Eta PublisherData := fun p =>
  MkPublisher (p_handle p) (p_topic p) (p_config p) (p_active p).

Record SubscriberData := MkSubscriber {
  s_handle : Z;
  s_topic : nat;
  s_config : PubSubConfig;
  s_active : bool;
  s_pollStorage : circular_buffer Value;
  s_valueListeners : list Z;
}.
#[global] Instance eta_SubscriberData : Eta SubscriberData := fun d =>
  MkSubscriber (s_handle d) (s_topic d) (s_config d) (s_active d) (s_pollStorage d)
    (s_valueListeners d).

Record EntryData := MkEntry {
  e_handle : Z;
  e_topic : nat;
  e_subscriber : nat;
  e_publisher : option nat;
}.
#[global] Instance eta_EntryData : Eta EntryData := fun e =>
  MkEntry (e_handle e) (e_topic e) (e_subscriber e) (e_publisher e).

Record MultiSubscriberData := MkMultiSubscriber {
  ms_handle : Z;
  ms_prefixes : list string;
  ms_options : PubSubOptionsImpl;
  ms_valueListeners : list Z;
}.
#[global] Instance eta_MultiSubscriberData : Eta MultiSubscriberData := fun d =>
  MkMultiSubscriber (ms_handle d) (ms_prefixes d) (ms_options d) (ms_valueListeners d).

Record ListenerData := MkListener {
  l_handle : Z;
  l_eventMask : Z;
  l_subscriber : option nat;
  l_multiSubscriber : option nat;
  l_subscriberOwned : bool;
}.
#[global] Instance eta_ListenerData : Eta ListenerData := fun l =>
  MkListener (l_handle l) (l_eventMask l) (l_subscriber l) (l_multiSubscriber l)
    (l_subscriberOwned l).

(** A [wpi::log::DataLog] is an object of the caller, identified by a number. *)
Record DataLoggerData := MkDataLogger {
  d_handle : Z;
  d_log : Z;
  d_prefix : string;
  d_logPrefix : string;
}.

Record TopicInfo := MkTopicInfo {
  info_topic : Z;
  info_name : string;
  info_type : NT_Type;
  info_type_str : string;
  info_properties : string;
}.

(** ** Outgoing calls

    What the storage calls on [net::NetworkInterface], [IListenerStorage], the
    signal objects and the data logs. *)
Inductive Out :=
| NetPublish (pubHandle topicHandle : Z) (name typeStr : string)
    (properties : gmap string J) (options : PubSubOptionsImpl)
| NetUnpublish (pubHandle topicHandle : Z)
| NetSetProperties (topicHandle : Z) (name : string) (update : gmap string J)
| NetSubscribe (subHandle : Z) (topicNames : list string) (options : PubSubOptionsImpl)
| NetUnsubscribe (subHandle : Z)
| NetSetValue (pubHandle : Z) (value : Value)
| ListenerActivate (listener mask : Z) (subentry : option Z)
| ListenerNotifyTopics (handles : list Z) (flags : Z) (infos : list TopicInfo)
| ListenerNotifyValue (handles : list Z) (flags topic subentry : Z) (value : Value)
| SignalSet (handle : Z)
| LogStart (log : Z) (name type metadata : string) (time : Z)
| LogFinish (log entry time : Z)
| LogSetMetadata (log entry : Z) (metadata : string)
| LogAppend (log entry : Z) (value : Value).

(** ** State *)

(** [LSImpl].  [m_network] says whether a network is attached; [out] is the trace of
    the outgoing calls and the two counters say how often the clock has been read
    and a log entry started. *)
Record LSImpl := MkLS {
  m_inst : Z;
  m_network : bool;
  m_topics : HandleMap TopicData;
  m_publishers : HandleMap PublisherData;
  m_subscribers : HandleMap SubscriberData;
  m_entries : HandleMap EntryData;
  m_multiSubscribers : HandleMap MultiSubscriberData;
  m_dataloggers : HandleMap DataLoggerData;
  m_nameTopics : gmap string nat;
  m_listeners : gmap Z ListenerData;
  m_topicPrefixListeners : list Z;
  m_clock : nat;
  m_logStarts : nat;
  out : list Out;
}.
#[global] Instance eta_LSImpl : Eta LSImpl := fun s =>
  MkLS (m_inst s) (m_network s) (m_topics s) (m_publishers s) (m_subscribers s)
    (m_entries s) (m_multiSubscribers s) (m_dataloggers s) (m_nameTopics s)
    (m_listeners s) (m_topicPrefixListeners s) (m_clock s) (m_logStarts s) (out s).

Definition LSImpl_init (inst : Z) : LSImpl :=
  MkLS inst false hm_empty hm_empty hm_empty hm_empty hm_empty hm_empty ∅ ∅ [] 0 0 [].
End Types.
Arguments TopicData : clear implicits.
Arguments Out : clear implicits.
Arguments LSImpl : clear implicits.
