(* ===== verification/LocalStorage.v ===== *)
(** * LocalStorage: the local storage of topics ([LocalStorage.cpp])

    The member functions of [LSImpl] and, at the end, those of [LocalStorage].  Each
    runs under the storage's mutex, so the operations are atomic; logging is left
    out.  An index where the source has a pointer is dereferenced through the
    handle maps of the current state. *)

From Stdlib Require Import Strings.Ascii.
From S2P Require Import Prelude NtTypes CircularBuffer Handles Monads LocalTypes.
Local Open Scope Z_scope.

Definition kMaxPublishers : nat := 512.
Definition kMaxSubscribers : nat := 512.
Definition kMaxMultiSubscribers : nat := 512.
Definition kMaxListeners : nat := 512.

(** The reuse threshold of all handle maps. *)
Definition kReuse : nat := 16.

Definition IsSpecial (name : string) : bool :=
  match name with
  | EmptyString => false
  | String c _ => Ascii.eqb c "$"%char
  end.

Definition starts_with (str prefix : string) : bool := String.prefix prefix str.

Definition PrefixMatch (name prefix : string) (special : bool) : bool :=
  (negb special || negb (String.eqb prefix EmptyString)) && starts_with name prefix.

Definition Matches (d : MultiSubscriberData) (name : string) (special : bool) : bool :=
  existsb (fun prefix => PrefixMatch name prefix special) (ms_prefixes d).

(** [VectorSet] *)
Definition vs_Add {A} (x : A) (l : list A) : list A := l ++ [x].
Definition vs_Remove {A} `{EqDecision A} (x : A) (l : list A) : list A :=
  filter (fun y => y <> x) l.

(** [DataLoggerEntry::MakeMetadata] *)
Definition MakeMetadata (properties : string) : string :=
  "{" +:+ dq +:+ "properties" +:+ dq +:+ ":" +:+ properties +:+ "," +:+
  dq +:+ "source" +:+ dq +:+ ":" +:+ dq +:+ "NT" +:+ dq +:+ "}".

(** [wpi::drop_front] *)
Definition drop_front (s : string) (n : nat) : string :=
  string_of_bytes (drop n (bytes_of_string s)).

(** A [wpi::json] argument as far as the storage looks into it. *)
Inductive json (J : Type) := JsonNull | JsonObject (m : gmap string J) | JsonOther.
Arguments JsonNull {J}.
Arguments JsonObject {J} _.
Arguments JsonOther {J}.

Section LocalStorage.
Context {J : Type} `{Json J} `{Env}.

Abbreviation LS := (LSImpl J).
Abbreviation Topic := (TopicData J).

(** ** Constructors *)

Definition TopicData_make (name : string) (handle : Z) : Topic :=
  MkTopic handle name (IsSpecial name) Value_empty Value_empty NT_UNASSIGNED EmptyString
    0 "{}" ∅ 0 false false [] NT_UNASSIGNED [] [] [] [] [].

Definition PublisherData_make (topic : nat) (config : PubSubConfig) (handle : Z)
  : PublisherData := MkPublisher handle topic config false.

Definition SubscriberData_make (topic : nat) (config : PubSubConfig) (handle : Z)
  : SubscriberData :=
  MkSubscriber handle topic config false
    (cb_make Value_empty (Z.to_nat (pollStorage (c_opts config)))) [].

Definition EntryData_make (topic subscriber : nat) (handle : Z) : EntryData :=
  MkEntry handle topic subscriber None.

Definition MultiSubscriberData_make (prefixes : list string) (options : PubSubOptions)
    (handle : Z) : MultiSubscriberData :=
  MkMultiSubscriber handle prefixes
    (PubSubOptionsImpl_make options <| o_options ::= fun o => o <| prefixMatch := true |> |>) [].

Definition DataLoggerData_make (log : Z) (prefix logPrefix : string) (handle : Z)
  : DataLoggerData := MkDataLogger handle log prefix logPrefix.

(** ** Access through pointers *)

Definition topic (i : nat) : M LS Topic :=
  let* s := get in deref (hm_at (m_topics s) i).
Definition set_topic (i : nat) (f : Topic -> Topic) : M LS unit :=
  let* t := topic i in modify (fun s => s <| m_topics ::= hm_set i (f t) |>).

Definition publisher (i : nat) : M LS PublisherData :=
  let* s := get in deref (hm_at (m_publishers s) i).
Definition set_publisher (i : nat) (f : PublisherData -> PublisherData) : M LS unit :=
  let* p := publisher i in modify (fun s => s <| m_publishers ::= hm_set i (f p) |>).

Definition subscriber (i : nat) : M LS SubscriberData :=
  let* s := get in deref (hm_at (m_subscribers s) i).
Definition set_subscriber (i : nat) (f : SubscriberData -> SubscriberData) : M LS unit :=
  let* d := subscriber i in modify (fun s => s <| m_subscribers ::= hm_set i (f d) |>).

Definition entry (i : nat) : M LS EntryData :=
  let* s := get in deref (hm_at (m_entries s) i).
Definition set_entry (i : nat) (f : EntryData -> EntryData) : M LS unit :=
  let* e := entry i in modify (fun s => s <| m_entries ::= hm_set i (f e) |>).

Definition multiSubscriber (i : nat) : M LS MultiSubscriberData :=
  let* s := get in deref (hm_at (m_multiSubscribers s) i).
Definition set_multiSubscriber (i : nat)
    (f : MultiSubscriberData -> MultiSubscriberData) : M LS unit :=
  let* d := multiSubscriber i in
  modify (fun s => s <| m_multiSubscribers ::= hm_set i (f d) |>).

Definition datalogger (i : nat) : M LS DataLoggerData :=
  let* s := get in deref (hm_at (m_dataloggers s) i).

(** A [ListenerData] pointer is the handle it is stored under. *)
Definition listener (h : Z) : M LS ListenerData :=
  let* s := get in deref (m_listeners s !! h).

Definition emit (o : Out J) : M LS unit := modify (fun s => s <| out ::= fun l => l ++ [o] |>).

(** [nt::Now()] *)
Definition Now : M LS Z :=
  let* n := gets m_clock in modify (fun s => s <| m_clock ::= S |>) ;; ret (env_Now n).

(** ** Topic and publisher functions *)

Definition nonempty {A} (l : list A) : bool :=
  match l with [] => false | _ => true end.

Definition Exists (t : Topic) : bool := t_onNetwork t || nonempty (t_localPublishers t).

Definition GetTopicInfo (t : Topic) : TopicInfo :=
  MkTopicInfo (t_handle t) (t_name t) (t_type t) (t_typeStr t) (t_propertiesStr t).

Definition type_is (a b : NT_Type) : bool := bool_decide (a = b).

(** The conditions for a publisher and a subscriber of a topic to be active. *)
Definition pub_active (config : PubSubConfig) (type : NT_Type) (typeStr : string) : bool :=
  type_is (c_type config) type && String.eqb (c_typeStr config) typeStr.
Definition sub_active (config : PubSubConfig) (type : NT_Type) (typeStr : string) : bool :=
  type_is (c_type config) NT_UNASSIGNED ||
  (type_is (c_type config) type && String.eqb (c_typeStr config) typeStr) ||
  IsNumericCompatible (c_type config) type.

(** [PublisherData::UpdateActive] and [SubscriberData::UpdateActive] *)
Definition Publisher_UpdateActive (i : nat) : M LS unit :=
  let* p := publisher i in
  let* t := topic (p_topic p) in
  set_publisher i (fun p => p <| p_active := pub_active (p_config p) (t_type t) (t_typeStr t) |>).
Definition Subscriber_UpdateActive (i : nat) : M LS unit :=
  let* d := subscriber i in
  let* t := topic (s_topic d) in
  set_subscriber i (fun d => d <| s_active := sub_active (s_config d) (t_type t) (t_typeStr t) |>).

(** [DataLoggerData::Start] *)
Definition DataLogger_Start (d : DataLoggerData) (t : Topic) (time : Z) : M LS Z :=
  emit (LogStart (d_log d)
    (d_logPrefix d +:+ drop_front (t_name t) (String.length (d_prefix d)))
    (if String.eqb (t_typeStr t) "int" then "int64" else t_typeStr t)
    (MakeMetadata (t_propertiesStr t)) time) ;;
  let* n := gets m_logStarts in
  modify (fun s => s <| m_logStarts ::= S |>) ;;
  ret (env_DataLogStart n).

(** [DataLoggerEntry::Append] *)
Definition Append (e : DataLoggerEntry) (v : Value) : M LS unit :=
  when (value_valid v) (emit (LogAppend (de_log e) (de_entry e) v)).

Definition find_datalog (logger : Z) (t : Topic) : option (nat * DataLoggerEntry) :=
  list_find (fun e => de_logger e = logger) (t_datalogs t).

(** The loop of [NotifyTopic] that collects the prefix listeners. *)
Fixpoint collect_listeners (l : list Z) (name : string) (special : bool) : M LS (list Z) :=
  match l with
  | [] => ret []
  | h :: l =>
      let* d := listener h in
      let* m := (match l_multiSubscriber d with
                 | Some k => let* ms := multiSubscriber k in ret (Matches ms name special)
                 | None => ret false
                 end) in
      let* rest := collect_listeners l name special in
      ret (if m : bool then l_handle d :: rest else rest)
  end.

(** The body of its loop over the data loggers. *)
Definition NotifyDatalogger (i : nat) (eventFlags now : Z) (k : nat) : M LS unit :=
  let* d := datalogger k in
  let* t := topic i in
  when (starts_with (t_name t) (d_prefix d))
    (let it := find_datalog (d_handle d) t in
     match it with
     | None =>
         when (has_bits eventFlags NT_EVENT_PUBLISH)
           (let* e := DataLogger_Start d t now in
            set_topic i (fun t =>
              t <| t_datalogs ::= fun l => l ++ [MkDataLoggerEntry (d_log d) e (d_handle d)] |>
                <| t_datalogType := t_type t |>))
     | Some (n, e) =>
         when (has_bits eventFlags NT_EVENT_UNPUBLISH)
           (emit (LogFinish (de_log e) (de_entry e) now) ;;
            set_topic i (fun t =>
              t <| t_datalogType := NT_UNASSIGNED |> <| t_datalogs ::= delete n |>))
     end).

Definition NotifyTopic (i : nat) (eventFlags : Z) : M LS unit :=
  let* t := topic i in
  let topicInfo := GetTopicInfo t in
  when (nonempty (t_listeners t))
    (emit (ListenerNotifyTopics (t_listeners t) eventFlags [topicInfo])) ;;
  let* l := gets m_topicPrefixListeners in
  let* listeners := collect_listeners l (t_name t) (t_special t) in
  when (nonempty listeners) (emit (ListenerNotifyTopics listeners eventFlags [topicInfo])) ;;
  if has_bits eventFlags (Z.lor NT_EVENT_PUBLISH NT_EVENT_UNPUBLISH) then
    let* loggers := gets m_dataloggers in
    when (negb (uid_empty loggers))
      (let* now := Now in
       for_each (hm_live loggers) (NotifyDatalogger i eventFlags now))
  else
    when (has_bits eventFlags NT_EVENT_PROPERTIES)
      (let metadata := MakeMetadata (t_propertiesStr t) in
       for_each (t_datalogs t) (fun e =>
         emit (LogSetMetadata (de_log e) (de_entry e) metadata))).

Definition CheckReset (i : nat) : M LS unit :=
  let* t := topic i in
  if Exists t then skip
  else
    set_topic i (fun t =>
      t <| t_lastValue := Value_empty |> <| t_lastValueNetwork := Value_empty |>
        <| t_lastValueFromNetwork := false |> <| t_type := NT_UNASSIGNED |>
        <| t_typeStr := EmptyString |> <| t_flags := 0 |> <| t_properties := ∅ |>
        <| t_propertiesStr := "{}" |>).

(** The body of the first loop of [NotifyValue]. *)
Definition NotifySubscriber (i : nat) (eventFlags : Z) (isDuplicate : bool)
    (pub : option nat) (k : nat) : M LS unit :=
  let isNetwork := has_bits eventFlags NT_EVENT_VALUE_REMOTE in
  let* d := subscriber k in
  let o := c_opts (s_config d) in
  if s_active d && (keepDuplicates o || negb isDuplicate) &&
     ((isNetwork && negb (disableRemote o)) || (negb isNetwork && negb (disableLocal o)))
  then
    let* excluded := (match pub with
                      | None => ret false
                      | Some p => let* p := publisher p in
                                  ret (excludePublisher o =? p_handle p)
                      end) in
    when (negb excluded)
      (let* t := topic i in
       set_subscriber k (fun d => d <| s_pollStorage ::= cb_push_back (t_lastValue t) |>) ;;
       emit (SignalSet (s_handle d)) ;;
       when (nonempty (s_valueListeners d))
         (emit (ListenerNotifyValue (s_valueListeners d) eventFlags (t_handle t) 0
                  (t_lastValue t))))
  else skip.

(** The body of the second loop of [NotifyValue]. *)
Definition NotifyMultiSubscriber (i : nat) (eventFlags : Z) (isDuplicate : bool) (k : nat)
  : M LS unit :=
  let* d := multiSubscriber k in
  when (keepDuplicates (o_options (ms_options d)) || negb isDuplicate)
    (emit (SignalSet (ms_handle d)) ;;
     let* t := topic i in
     when (nonempty (ms_valueListeners d))
       (emit (ListenerNotifyValue (ms_valueListeners d) eventFlags (t_handle t) 0
                (t_lastValue t)))).

Definition NotifyValue (i : nat) (eventFlags : Z) (isDuplicate : bool)
    (pub : option nat) : M LS unit :=
  let* t := topic i in
  for_each (t_localSubscribers t) (NotifySubscriber i eventFlags isDuplicate pub) ;;
  for_each (t_multiSubscribers t) (NotifyMultiSubscriber i eventFlags isDuplicate).

(** The test of [SetValue] whether a value replaces the last one. *)
Definition newer (t : Topic) (value : Value) : bool :=
  negb (value_valid (t_lastValue t)) || (value_time (t_lastValue t) =? 0) ||
  (value_time (t_lastValue t) <=? value_time value).

Definition SetValue (i : nat) (value : Value) (eventFlags : Z) (isDuplicate : bool)
    (pub : option nat) : M LS bool :=
  let* t := topic i in
  if negb (type_is (t_type t) NT_UNASSIGNED) && negb (type_is (t_type t) (value_type value))
  then ret false
  else
    when (newer t value)
      (set_topic i (fun t =>
         t <| t_type := value_type value |> <| t_lastValue := value |>
           <| t_lastValueFromNetwork := false |>) ;;
       NotifyValue i eventFlags isDuplicate pub) ;;
    let* t := topic i in
    when (negb isDuplicate && type_is (t_datalogType t) (value_type value))
      (for_each (t_datalogs t) (fun e => Append e value)) ;;
    ret true.

(** The part of [PropertiesUpdated] that sets a flag from a property. *)
Definition flag_of_property (key : string) (bit : Z) (t : Topic) : Topic :=
  match t_properties t !! key with
  | Some v =>
      match j_get_bool v with
      | Some true => t <| t_flags ::= fun f => Z.lor f bit |>
      | Some false => t <| t_flags ::= fun f => Z.ldiff f bit |>
      | None => t
      end
  | None => t
  end.

Definition PropertiesUpdated (i : nat) (update : gmap string J) (eventFlags : Z)
    (sendNetwork updateFlags : bool) : M LS unit :=
  when updateFlags
    (set_topic i (fun t =>
       flag_of_property "retained" NT_RETAINED
         (flag_of_property "persistent" NT_PERSISTENT t))) ;;
  set_topic i (fun t => t <| t_propertiesStr := jdump (t_properties t) |>) ;;
  NotifyTopic i (Z.lor eventFlags NT_EVENT_PROPERTIES) ;;
  let* network := gets m_network in
  let* t := topic i in
  when (network && sendNetwork) (emit (NetSetProperties (t_handle t) (t_name t) update)).

(** The two branches of [SetFlags], [SetPersistent] and [SetRetained] for one
    property: the topic's properties and the update. *)
Definition put_flag (key : string) (value : bool) (m : gmap string J) : gmap string J :=
  if value then <[key := jbool true]> m else delete key m.
Definition flag_update (key : string) (value : bool) (m : gmap string J) : gmap string J :=
  <[key := if value then jbool true else jnull]> m.

Definition SetFlags (i : nat) (flags : Z) : M LS unit :=
  let persistent := has_bits flags NT_PERSISTENT in
  let retained := has_bits flags NT_RETAINED in
  let update := flag_update "retained" retained (flag_update "persistent" persistent ∅) in
  set_topic i (fun t =>
    t <| t_properties ::= fun m =>
           put_flag "retained" retained (put_flag "persistent" persistent m) |>
      <| t_flags := flags |>) ;;
  when (negb (size update =? 0)%nat) (PropertiesUpdated i update NT_EVENT_NONE true false).

Definition SetPersistent (i : nat) (value : bool) : M LS unit :=
  set_topic i (fun t =>
    t <| t_flags ::= fun f =>
           if value then Z.lor f NT_PERSISTENT else Z.ldiff f NT_PERSISTENT |>
      <| t_properties ::= put_flag "persistent" value |>) ;;
  PropertiesUpdated i (flag_update "persistent" value ∅) NT_EVENT_NONE true false.

Definition SetRetained (i : nat) (value : bool) : M LS unit :=
  set_topic i (fun t =>
    t <| t_flags ::= fun f =>
           if value then Z.lor f NT_RETAINED else Z.ldiff f NT_RETAINED |>
      <| t_properties ::= put_flag "retained" value |>) ;;
  PropertiesUpdated i (flag_update "retained" value ∅) NT_EVENT_NONE true false.

(** The loop of [SetProperties] over the items of the update. *)
Definition apply_update (update m : gmap string J) : gmap string J :=
  merge (fun u v => match u with
                    | Some x => if j_is_null x then None else Some x
                    | None => v
                    end) update m.

Definition SetProperties (i : nat) (update : json J) (sendNetwork : bool) : M LS unit :=
  match update with
  | JsonObject update =>
      set_topic i (fun t => t <| t_properties ::= apply_update update |>) ;;
      PropertiesUpdated i update NT_EVENT_NONE sendNetwork true
  | _ => skip
  end.

Definition RefreshPubSubActive (i : nat) : M LS unit :=
  let* t := topic i in
  for_each (t_localPublishers t) Publisher_UpdateActive ;;
  for_each (t_localSubscribers t) Subscriber_UpdateActive.

(** The update a set of announced properties amounts to: added or changed ones with
    their value, removed ones with null. *)
Definition announce_update (properties old : gmap string J) : gmap string J :=
  merge (fun new old => match new, old with
                        | Some v, Some w => if j_eqb w v then None else Some v
                        | Some v, None => Some v
                        | None, Some _ => Some jnull
                        | None, None => None
                        end) properties old.

Definition NetworkAnnounce_topic (i : nat) (typeStr : string) (properties : gmap string J)
    (pubHandle : Z) : M LS unit :=
  if negb (pubHandle =? 0) then skip
  else
    let* t := topic i in
    let didExist := Exists t in
    set_topic i (fun t => t <| t_onNetwork := true |>) ;;
    let type := StringToType typeStr in
    when (negb (type_is (t_type t) type) || negb (String.eqb (t_typeStr t) typeStr))
      (set_topic i (fun t => t <| t_type := type |> <| t_typeStr := typeStr |>) ;;
       RefreshPubSubActive i) ;;
    let event := if didExist then NT_EVENT_NONE else NT_EVENT_PUBLISH in
    let update := announce_update properties (t_properties t) in
    if negb (size update =? 0)%nat then
      set_topic i (fun t => t <| t_properties := properties |>) ;;
      PropertiesUpdated i update event false true
    else when (negb (event =? NT_EVENT_NONE)) (NotifyTopic i event).

(** The end of [RemoveNetworkPublisher] and of [RemoveLocalPublisher]: if the first
    of the remaining publishers has another type, the topic takes it. *)
Definition NextPublisher (i : nat) : M LS unit :=
  let* t := topic i in
  match t_localPublishers t with
  | [] => skip
  | k :: _ =>
      let* p := publisher k in
      let config := p_config p in
      when (negb (type_is (c_type config) (t_type t)) ||
            negb (String.eqb (c_typeStr config) (t_typeStr t)))
        (set_topic i (fun t =>
           t <| t_type := c_type config |> <| t_typeStr := c_typeStr config |>) ;;
         RefreshPubSubActive i ;;
         let* p := publisher k in
         let* t := topic i in
         let* network := gets m_network in
         when (p_active p && network)
           (emit (NetPublish (p_handle p) (t_handle t) (t_name t) (t_typeStr t)
                    (t_properties t) (c_options (p_config p)))))
  end.

Definition RemoveNetworkPublisher (i : nat) : M LS unit :=
  let* t := topic i in
  let didExist := Exists t in
  set_topic i (fun t => t <| t_onNetwork := false |>) ;;
  let* t := topic i in
  when (didExist && negb (Exists t))
    (CheckReset i ;; NotifyTopic i NT_EVENT_UNPUBLISH) ;;
  NextPublisher i.

Definition NetworkPropertiesUpdate_topic (i : nat) (update : json J) (ack : bool)
  : M LS unit :=
  if ack then skip else SetProperties i update false.

(** [HandleMap::Add] on the maps of the storage. *)
Definition add_topic (mk : Z -> Topic) : M LS nat :=
  let* s := get in
  let '(i, m) := hm_Add kTopic kReuse (m_inst s) mk (m_topics s) in
  modify (fun s => s <| m_topics := m |>) ;; ret i.
Definition add_publisher (mk : Z -> PublisherData) : M LS nat :=
  let* s := get in
  let '(i, m) := hm_Add kPublisher kReuse (m_inst s) mk (m_publishers s) in
  modify (fun s => s <| m_publishers := m |>) ;; ret i.
Definition add_subscriber (mk : Z -> SubscriberData) : M LS nat :=
  let* s := get in
  let '(i, m) := hm_Add kSubscriber kReuse (m_inst s) mk (m_subscribers s) in
  modify (fun s => s <| m_subscribers := m |>) ;; ret i.
Definition add_entry (mk : Z -> EntryData) : M LS nat :=
  let* s := get in
  let '(i, m) := hm_Add kEntry kReuse (m_inst s) mk (m_entries s) in
  modify (fun s => s <| m_entries := m |>) ;; ret i.
Definition add_multiSubscriber (mk : Z -> MultiSubscriberData) : M LS nat :=
  let* s := get in
  let '(i, m) := hm_Add kMultiSubscriber kReuse (m_inst s) mk (m_multiSubscribers s) in
  modify (fun s => s <| m_multiSubscribers := m |>) ;; ret i.

(** [HandleMap::Remove]: the object moved out of the map, with the pointer that is
    dangling from now on. *)
Definition remove_publisher (h : Z) : M LS (option (nat * PublisherData)) :=
  let* s := get in
  let '(o, m) := hm_Remove kPublisher h (m_publishers s) in
  modify (fun s => s <| m_publishers := m |>) ;;
  ret (p ← o; i ← hm_index kPublisher h (m_publishers s); Some (i, p)).
Definition remove_subscriber (h : Z) : M LS (option (nat * SubscriberData)) :=
  let* s := get in
  let '(o, m) := hm_Remove kSubscriber h (m_subscribers s) in
  modify (fun s => s <| m_subscribers := m |>) ;;
  ret (p ← o; i ← hm_index kSubscriber h (m_subscribers s); Some (i, p)).
Definition remove_entry (h : Z) : M LS (option (nat * EntryData)) :=
  let* s := get in
  let '(o, m) := hm_Remove kEntry h (m_entries s) in
  modify (fun s => s <| m_entries := m |>) ;;
  ret (p ← o; i ← hm_index kEntry h (m_entries s); Some (i, p)).
Definition remove_multiSubscriber (h : Z) : M LS (option (nat * MultiSubscriberData)) :=
  let* s := get in
  let '(o, m) := hm_Remove kMultiSubscriber h (m_multiSubscribers s) in
  modify (fun s => s <| m_multiSubscribers := m |>) ;;
  ret (p ← o; i ← hm_index kMultiSubscriber h (m_multiSubscribers s); Some (i, p)).

Definition AddLocalPublisher (i : nat) (properties : json J) (config : PubSubConfig)
  : M LS nat :=
  let* t := topic i in
  let didExist := Exists t in
  let* k := add_publisher (PublisherData_make i config) in
  set_topic i (fun t => t <| t_localPublishers ::= vs_Add k |>) ;;
  (if didExist then Publisher_UpdateActive k
   else
     set_topic i (fun t =>
       t <| t_type := c_type config |> <| t_typeStr := c_typeStr config |>) ;;
     RefreshPubSubActive i ;;
     let props := match properties with JsonObject m => m | _ => ∅ end in
     set_topic i (fun t => t <| t_properties := props |>) ;;
     if (size props =? 0)%nat then NotifyTopic i NT_EVENT_PUBLISH
     else PropertiesUpdated i props NT_EVENT_PUBLISH false true) ;;
  let* p := publisher k in
  let* t := topic i in
  let* network := gets m_network in
  when (p_active p && network)
    (emit (NetPublish (p_handle p) (t_handle t) (t_name t) (t_typeStr t) (t_properties t)
             (c_options config))) ;;
  ret k.

Definition RemoveLocalPublisher (pubHandle : Z) : M LS unit :=
  let* r := remove_publisher pubHandle in
  match r with
  | None => skip
  | Some (k, p) =>
      let i := p_topic p in
      let* t := topic i in
      let didExist := Exists t in
      set_topic i (fun t => t <| t_localPublishers ::= vs_Remove k |>) ;;
      let* t := topic i in
      when (didExist && negb (Exists t))
        (CheckReset i ;; NotifyTopic i NT_EVENT_UNPUBLISH) ;;
      let* network := gets m_network in
      let* t := topic i in
      when (p_active p && network) (emit (NetUnpublish (p_handle p) (t_handle t))) ;;
      when (p_active p) (NextPublisher i)
  end.

Definition AddLocalSubscriber (i : nat) (config : PubSubConfig) : M LS nat :=
  let* k := add_subscriber (SubscriberData_make i config) in
  set_topic i (fun t => t <| t_localSubscribers ::= vs_Add k |>) ;;
  Subscriber_UpdateActive k ;;
  let* d := subscriber k in
  let* t := topic i in
  let* network := gets m_network in
  when network (emit (NetSubscribe (s_handle d) [t_name t] (c_options config))) ;;
  when (s_active d)
    (if negb (t_lastValueFromNetwork t) && negb (disableLocal (c_opts config)) then
       set_subscriber k (fun d => d <| s_pollStorage ::= cb_push_back (t_lastValue t) |>) ;;
       emit (SignalSet (s_handle d))
     else if t_lastValueFromNetwork t && negb (disableRemote (c_opts config)) then
       set_subscriber k (fun d =>
         d <| s_pollStorage ::= cb_push_back (t_lastValueNetwork t) |>) ;;
       emit (SignalSet (s_handle d))
     else skip) ;;
  ret k.

(** [listener.getSecond()->subscriber = nullptr] where it points to [k]. *)
Definition forget_subscriber (k : nat) (l : ListenerData) : ListenerData :=
  if decide (l_subscriber l = Some k) then l <| l_subscriber := None |> else l.
Definition forget_multiSubscriber (k : nat) (l : ListenerData) : ListenerData :=
  if decide (l_multiSubscriber l = Some k) then l <| l_multiSubscriber := None |> else l.

Definition RemoveLocalSubscriber (subHandle : Z) : M LS unit :=
  let* r := remove_subscriber subHandle in
  match r with
  | None => skip
  | Some (k, d) =>
      set_topic (s_topic d) (fun t => t <| t_localSubscribers ::= vs_Remove k |>) ;;
      modify (fun s => s <| m_listeners ::= fmap (forget_subscriber k) |>) ;;
      let* network := gets m_network in
      when network (emit (NetUnsubscribe (s_handle d)))
  end.

Definition AddEntry (k : nat) : M LS nat :=
  let* d := subscriber k in
  let* e := add_entry (EntryData_make (s_topic d) k) in
  set_topic (s_topic d) (fun t => t <| t_entries ::= vs_Add e |>) ;;
  ret e.

Definition RemoveEntry (entryHandle : Z) : M LS (option EntryData) :=
  let* r := remove_entry entryHandle in
  match r with
  | None => ret None
  | Some (k, e) =>
      set_topic (e_topic e) (fun t => t <| t_entries ::= vs_Remove k |>) ;;
      ret (Some e)
  end.

Definition AddMultiSubscriber (prefixes : list string) (options : PubSubOptions) : M LS nat :=
  let* k := add_multiSubscriber (MultiSubscriberData_make prefixes options) in
  let* d := multiSubscriber k in
  let* topics := gets m_topics in
  for_each (hm_live topics) (fun i =>
    let* t := topic i in
    when (Matches d (t_name t) (t_special t))
      (set_topic i (fun t => t <| t_multiSubscribers ::= vs_Add k |>))) ;;
  let* network := gets m_network in
  when network (emit (NetSubscribe (ms_handle d) (ms_prefixes d) (ms_options d))) ;;
  ret k.

Definition RemoveMultiSubscriber (subHandle : Z) : M LS unit :=
  let* r := remove_multiSubscriber subHandle in
  match r with
  | None => skip
  | Some (k, d) =>
      let* topics := gets m_topics in
      for_each (hm_live topics) (fun i =>
        set_topic i (fun t => t <| t_multiSubscribers ::= vs_Remove k |>)) ;;
      modify (fun s => s <| m_listeners ::= fmap (forget_multiSubscriber k) |>) ;;
      let* network := gets m_network in
      when network (emit (NetUnsubscribe (ms_handle d)))
  end.

(** ** Listeners *)

(** [m_listeners.try_emplace]: an existing element is kept. *)
Definition try_emplace (h : Z) (l : ListenerData) : M LS unit :=
  modify (fun s => s <| m_listeners ::= fun m =>
    match m !! h with Some _ => m | None => <[h := l]> m end |>).

Definition NT_EVENT_IMMEDIATE_PUBLISH : Z := Z.lor NT_EVENT_PUBLISH NT_EVENT_IMMEDIATE.

(** [AddListenerImpl] for a subscriber.  The two early returns leave [proceed]
    false. *)
Definition AddListener_subscriber (listenerHandle : Z) (k : nat) (eventMask subentryHandle : Z)
    (subscriberOwned : bool) : M LS unit :=
  try_emplace listenerHandle
    (MkListener listenerHandle eventMask (Some k) None subscriberOwned) ;;
  let* d := subscriber k in
  let i := s_topic d in
  let* t := topic i in
  let* proceed :=
    (if has_bits eventMask NT_EVENT_TOPIC then
       if (kMaxListeners <=? length (t_listeners t))%nat then ret false
       else
         emit (ListenerActivate listenerHandle
                 (Z.land eventMask (Z.lor NT_EVENT_TOPIC NT_EVENT_IMMEDIATE)) None) ;;
         set_topic i (fun t => t <| t_listeners ::= vs_Add listenerHandle |>) ;;
         when ((Z.land eventMask NT_EVENT_IMMEDIATE_PUBLISH =? NT_EVENT_IMMEDIATE_PUBLISH)
               && Exists t)
           (emit (ListenerNotifyTopics [listenerHandle] NT_EVENT_IMMEDIATE_PUBLISH
                    [GetTopicInfo t])) ;;
         ret true
     else ret true) in
  when (proceed && has_bits eventMask NT_EVENT_VALUE_ALL)
    (if (kMaxListeners <=? length (s_valueListeners d))%nat then skip
     else
       emit (ListenerActivate listenerHandle
               (Z.land eventMask (Z.lor NT_EVENT_VALUE_ALL NT_EVENT_IMMEDIATE))
               (Some subentryHandle)) ;;
       set_subscriber k (fun d => d <| s_valueListeners ::= vs_Add listenerHandle |>) ;;
       when (has_bits eventMask NT_EVENT_IMMEDIATE && value_valid (t_lastValue t))
         (emit (ListenerNotifyValue [listenerHandle]
                  (Z.lor NT_EVENT_IMMEDIATE NT_EVENT_VALUE_ALL) (t_handle t)
                  subentryHandle (t_lastValue t)))).

(** [AddListenerImpl] for a topic *)
Definition AddListener_topic (listenerHandle : Z) (i : nat) (eventMask : Z) : M LS unit :=
  let* t := topic i in
  if (kMaxSubscribers <=? length (t_localSubscribers t))%nat then skip
  else
    let config := PubSubConfig_default <| c_options ::= fun o =>
      o <| o_options ::= fun o =>
        o <| topicsOnly := negb (has_bits eventMask NT_EVENT_VALUE_ALL) |> |> |> in
    let* k := AddLocalSubscriber i config in
    let* d := subscriber k in
    AddListener_subscriber listenerHandle k eventMask (s_handle d) true.

(** The topics an immediate notification is about. *)
Fixpoint matching_topics (l : list nat) (d : MultiSubscriberData) : M LS (list Topic) :=
  match l with
  | [] => ret []
  | i :: l =>
      let* t := topic i in
      let* rest := matching_topics l d in
      ret (if Exists t && Matches d (t_name t) (t_special t) then t :: rest else rest)
  end.

(** [AddListenerImpl] for a multi-subscriber *)
Definition AddListener_multi (listenerHandle : Z) (k : nat) (eventMask : Z)
    (subscriberOwned : bool) : M LS unit :=
  try_emplace listenerHandle
    (MkListener listenerHandle eventMask None (Some k) subscriberOwned) ;;
  let* d := multiSubscriber k in
  let* topicMap := gets m_topics in
  let* topics :=
    (if has_bits eventMask NT_EVENT_IMMEDIATE &&
        has_bits eventMask (Z.lor NT_EVENT_PUBLISH NT_EVENT_VALUE_ALL)
     then matching_topics (hm_live topicMap) d else ret []) in
  let* prefixListeners := gets m_topicPrefixListeners in
  let* proceed :=
    (if has_bits eventMask NT_EVENT_TOPIC then
       if (kMaxListeners <=? length prefixListeners)%nat then ret false
       else
         emit (ListenerActivate listenerHandle
                 (Z.land eventMask (Z.lor NT_EVENT_TOPIC NT_EVENT_IMMEDIATE)) None) ;;
         modify (fun s => s <| m_topicPrefixListeners ::= vs_Add listenerHandle |>) ;;
         when ((Z.land eventMask NT_EVENT_IMMEDIATE_PUBLISH =? NT_EVENT_IMMEDIATE_PUBLISH)
               && nonempty topics)
           (emit (ListenerNotifyTopics [listenerHandle] NT_EVENT_IMMEDIATE_PUBLISH
                    (GetTopicInfo <$> topics))) ;;
         ret true
     else ret true) in
  when (proceed && has_bits eventMask NT_EVENT_VALUE_ALL)
    (if (kMaxListeners <=? length (ms_valueListeners d))%nat then skip
     else
       emit (ListenerActivate listenerHandle
               (Z.land eventMask (Z.lor NT_EVENT_VALUE_ALL NT_EVENT_IMMEDIATE))
               (Some (ms_handle d))) ;;
       set_multiSubscriber k (fun d => d <| ms_valueListeners ::= vs_Add listenerHandle |>) ;;
       when (has_bits eventMask NT_EVENT_IMMEDIATE)
         (for_each topics (fun t =>
            when (value_valid (t_lastValue t))
              (emit (ListenerNotifyValue [listenerHandle]
                       (Z.lor NT_EVENT_VALUE_ALL NT_EVENT_IMMEDIATE) (t_handle t)
                       (ms_handle d) (t_lastValue t)))))).

(** [LSImpl::AddListener] for prefixes and for a handle *)
Definition AddListener_prefixes (listenerHandle : Z) (prefixes : list string)
    (eventMask : Z) : M LS unit :=
  let* subs := gets m_multiSubscribers in
  if (kMaxMultiSubscribers <=? uid_size subs)%nat then skip
  else
    let* k := AddMultiSubscriber prefixes
      (kDefaultPubSubOptions <| topicsOnly := negb (has_bits eventMask NT_EVENT_VALUE_ALL) |>) in
    AddListener_multi listenerHandle k eventMask true.

Definition AddListener_handle (listenerHandle handle mask : Z) : M LS unit :=
  let* s := get in
  match hm_Get kTopic handle (m_topics s) with
  | Some i => AddListener_topic listenerHandle i mask
  | None =>
  match hm_Get kMultiSubscriber handle (m_multiSubscribers s) with
  | Some k => AddListener_multi listenerHandle k mask false
  | None =>
  match hm_Get kSubscriber handle (m_subscribers s) with
  | Some k =>
      let* d := subscriber k in
      AddListener_subscriber listenerHandle k mask (s_handle d) false
  | None =>
  match hm_Get kEntry handle (m_entries s) with
  | Some k =>
      let* e := entry k in
      AddListener_subscriber listenerHandle (e_subscriber e) mask (e_handle e) false
  | None => skip
  end end end end.

Definition RemoveListener_impl (listenerHandle : Z) : M LS unit :=
  let* s := get in
  match m_listeners s !! listenerHandle with
  | None => skip
  | Some l =>
      modify (fun s => s <| m_listeners ::= delete listenerHandle |>) ;;
      modify (fun s => s <| m_topicPrefixListeners ::= vs_Remove listenerHandle |>) ;;
      match l_subscriber l with
      | None => skip
      | Some k =>
          set_subscriber k (fun d => d <| s_valueListeners ::= vs_Remove listenerHandle |>) ;;
          let* d := subscriber k in
          set_topic (s_topic d) (fun t => t <| t_listeners ::= vs_Remove listenerHandle |>) ;;
          when (l_subscriberOwned l) (RemoveLocalSubscriber (s_handle d))
      end ;;
      match l_multiSubscriber l with
      | None => skip
      | Some k =>
          set_multiSubscriber k (fun d =>
            d <| ms_valueListeners ::= vs_Remove listenerHandle |>) ;;
          let* d := multiSubscriber k in
          when (l_subscriberOwned l) (RemoveMultiSubscriber (ms_handle d))
      end
  end.

(** ** Lookups *)

Fixpoint attach_multiSubscribers (l : list nat) (i : nat) (name : string) (special : bool)
  : M LS unit :=
  match l with
  | [] => skip
  | k :: l =>
      let* d := multiSubscriber k in
      when (Matches d name special)
        (set_topic i (fun t => t <| t_multiSubscribers ::= vs_Add k |>)) ;;
      attach_multiSubscribers l i name special
  end.

Definition GetOrCreateTopic (name : string) : M LS nat :=
  let* s := get in
  match m_nameTopics s !! name with
  | Some i => ret i
  | None =>
      let* i := add_topic (TopicData_make name) in
      modify (fun s => s <| m_nameTopics ::= insert name i |>) ;;
      let* t := topic i in
      let* subs := gets m_multiSubscribers in
      attach_multiSubscribers (hm_live subs) i name (t_special t) ;;
      ret i
  end.

(** [LSImpl::GetTopic]: the topic of an entry, subscriber, publisher or topic
    handle *)
Definition GetTopic_handle (handle : Z) : M LS (option nat) :=
  let* s := get in
  if IsType kEntry handle then
    match hm_Get kEntry handle (m_entries s) with
    | Some k => let* e := entry k in ret (Some (e_topic e))
    | None => ret None
    end
  else if IsType kSubscriber handle then
    match hm_Get kSubscriber handle (m_subscribers s) with
    | Some k => let* d := subscriber k in ret (Some (s_topic d))
    | None => ret None
    end
  else if IsType kPublisher handle then
    match hm_Get kPublisher handle (m_publishers s) with
    | Some k => let* p := publisher k in ret (Some (p_topic p))
    | None => ret None
    end
  else if IsType kTopic handle then ret (hm_Get kTopic handle (m_topics s))
  else ret None.

Definition GetSubEntry (handle : Z) : M LS (option nat) :=
  let* s := get in
  if IsType kSubscriber handle then ret (hm_Get kSubscriber handle (m_subscribers s))
  else if IsType kEntry handle then
    match hm_Get kEntry handle (m_entries s) with
    | Some k => let* e := entry k in ret (Some (e_subscriber e))
    | None => ret None
    end
  else ret None.

(** ** Publishing values *)

Definition PublishEntry (k : nat) (type : NT_Type) : M LS (option nat) :=
  let* e := entry k in
  match e_publisher e with
  | Some p => ret (Some p)
  | None =>
      let typeStr := TypeToString type in
      let* d := subscriber (e_subscriber e) in
      let config := s_config d in
      let* proceed :=
        (if type_is (c_type config) NT_UNASSIGNED then
           set_subscriber (e_subscriber e) (fun d =>
             d <| s_config ::= fun c => c <| c_type := type |> <| c_typeStr := typeStr |> |>) ;;
           ret true
         else if negb (type_is (c_type config) type) ||
                 negb (String.eqb (c_typeStr config) typeStr)
         then ret (IsNumericCompatible type (c_type config))
         else ret true) in
      if negb proceed then ret None
      else
        let* d := subscriber (e_subscriber e) in
        let* p := AddLocalPublisher (e_topic e) (JsonObject ∅) (s_config d) in
        set_entry k (fun e => e <| e_publisher := Some p |>) ;;
        let* d := subscriber (e_subscriber e) in
        let* pd := publisher p in
        when (excludeSelf (c_opts (s_config d)))
          (set_subscriber (e_subscriber e) (fun d =>
             d <| s_config ::= fun c => c <| c_options ::= fun o =>
               o <| o_options ::= fun o => o <| excludePublisher := p_handle pd |> |> |> |>)) ;;
        ret (Some p)
  end.

Definition GetSubEntryValue (handle : Z) : M LS (option Value) :=
  let* o := GetSubEntry handle in
  match o with
  | Some k =>
      let* d := subscriber k in
      let* t := topic (s_topic d) in
      ret (Some (t_lastValue t))
  | None => ret None
  end.

(** [ConvertNumericValue]; the clock is read if the value has no time. *)
Definition convert_value (value : Value) (type : NT_Type) : M LS Value :=
  let* now := (if value_time value =? 0 then Now else ret 0) in
  ret (ConvertNumericValue env_cast_ub now value type).

(** The recursive call converts the value to the type of the topic, so that it
    does not recurse again: [fuel] is 2. *)
Fixpoint PublishLocalValue_rec (fuel : nat) (p : nat) (value : Value) (force : bool)
  : M LS bool :=
  match fuel with
  | O => ret false
  | S fuel =>
      if negb (value_valid value) then ret false
      else
        let* pd := publisher p in
        let* t := topic (p_topic pd) in
        if negb (type_is (t_type t) NT_UNASSIGNED) &&
           negb (type_is (t_type t) (value_type value)) then
          if IsNumericCompatible (t_type t) (value_type value) then
            let* v := convert_value value (t_type t) in
            PublishLocalValue_rec fuel p v false
          else ret false
        else if p_active pd then
          let unchecked := force || keepDuplicates (c_opts (p_config pd)) in
          let isDuplicate := negb unchecked && value_eqb (t_lastValue t) value in
          let isNetworkDuplicate := negb unchecked && value_eqb (t_lastValueNetwork t) value in
          let* network := gets m_network in
          when (negb isNetworkDuplicate && network)
            (set_topic (p_topic pd) (fun t => t <| t_lastValueNetwork := value |>) ;;
             emit (NetSetValue (p_handle pd) value)) ;;
          SetValue (p_topic pd) value NT_EVENT_VALUE_LOCAL isDuplicate (Some p)
        else ret false
  end.
Definition PublishLocalValue (p : nat) (value : Value) (force : bool) : M LS bool :=
  PublishLocalValue_rec 2 p value force.

(** [m_publishers.Get], or the publisher of an entry, created on demand *)
Definition GetOrPublish (handle : Z) (type : NT_Type) : M LS (option nat) :=
  let* s := get in
  match hm_Get kPublisher handle (m_publishers s) with
  | Some p => ret (Some p)
  | None =>
      match hm_Get kEntry handle (m_entries s) with
      | Some k => PublishEntry k type
      | None => ret None
      end
  end.

Definition SetEntryValue (pubentryHandle : Z) (value : Value) : M LS bool :=
  if negb (value_valid value) then ret false
  else
    let* o := GetOrPublish pubentryHandle (value_type value) in
    match o with
    | Some p => PublishLocalValue p value false
    | None => ret false
    end.

Definition SetDefaultEntryValue (pubsubentryHandle : Z) (value : Value) : M LS bool :=
  if negb (value_valid value) then ret false
  else
    let* o := GetTopic_handle pubsubentryHandle in
    match o with
    | None => ret false
    | Some i =>
        let* t := topic i in
        if negb (value_valid (t_lastValue t)) &&
           (type_is (t_type t) NT_UNASSIGNED || type_is (t_type t) (value_type value) ||
            IsNumericCompatible (t_type t) (value_type value))
        then
          let* pub := GetOrPublish pubsubentryHandle (value_type value) in
          let* t := topic i in
          when (type_is (t_type t) NT_UNASSIGNED)
            (set_topic i (fun t => t <| t_type := value_type value |>)) ;;
          let* t := topic i in
          let* v := (if type_is (t_type t) (value_type value) then ret (Some value)
                     else if IsNumericCompatible (t_type t) (value_type value) then
                       let* v := convert_value value (t_type t) in ret (Some v)
                     else ret None) in
          match v with
          | None => ret true
          | Some v =>
              let v := SetServerTime 0 (SetTime 0 v) in
              set_topic i (fun t => t <| t_lastValue := v |>) ;;
              match pub with
              | Some p => PublishLocalValue p v true ;; ret true
              | None => ret true
              end
          end
        else ret false
    end.

Definition RemoveSubEntry (handle : Z) : M LS unit :=
  if IsType kSubscriber handle then RemoveLocalSubscriber handle
  else if IsType kMultiSubscriber handle then RemoveMultiSubscriber handle
  else if IsType kEntry handle then
    let* o := RemoveEntry handle in
    match o with
    | None => skip
    | Some e =>
        let* d := subscriber (e_subscriber e) in
        RemoveLocalSubscriber (s_handle d) ;;
        match e_publisher e with
        | Some p => let* pd := publisher p in RemoveLocalPublisher (p_handle pd)
        | None => skip
        end
    end
  else skip.

(** ** The public interface: network side *)

Definition NetworkAnnounce (name typeStr : string) (properties : gmap string J)
    (pubHandle : Z) : M LS Z :=
  let* i := GetOrCreateTopic name in
  NetworkAnnounce_topic i typeStr properties pubHandle ;;
  let* t := topic i in
  ret (t_handle t).

Definition NetworkUnannounce (name : string) : M LS unit :=
  let* i := GetOrCreateTopic name in
  RemoveNetworkPublisher i.

Definition NetworkPropertiesUpdate (name : string) (update : json J) (ack : bool) : M LS unit :=
  let* s := get in
  match m_nameTopics s !! name with
  | Some i => NetworkPropertiesUpdate_topic i update ack
  | None => skip
  end.

Definition NetworkSetValue (topicHandle : Z) (value : Value) : M LS unit :=
  let* s := get in
  match hm_Get kTopic topicHandle (m_topics s) with
  | None => skip
  | Some i =>
      let* t := topic i in
      let* b := SetValue i value NT_EVENT_VALUE_REMOTE (value_eqb value (t_lastValue t)) None in
      when b
        (set_topic i (fun t =>
           t <| t_lastValueNetwork := value |> <| t_lastValueFromNetwork := true |>))
  end.

(** The loop of [StartNetwork] over the publishers of a topic; the result is
    [anyPublisher]. *)
Fixpoint announce_publishers (l : list nat) (t : Topic) (any : option Z) : M LS (option Z) :=
  match l with
  | [] => ret any
  | k :: l =>
      let* p := publisher k in
      if p_active p then
        emit (NetPublish (p_handle p) (t_handle t) (t_name t) (t_typeStr t) (t_properties t)
                (c_options (p_config p))) ;;
        announce_publishers l t (Some (p_handle p))
      else announce_publishers l t any
  end.

Definition StartNetwork : M LS unit :=
  modify (fun s => s <| m_network := true |>) ;;
  let* s := get in
  for_each (hm_live (m_topics s)) (fun i =>
    let* t := topic i in
    let* any := announce_publishers (t_localPublishers t) t None in
    match any with
    | Some h => when (value_valid (t_lastValue t)) (emit (NetSetValue h (t_lastValue t)))
    | None => skip
    end) ;;
  for_each (hm_live (m_subscribers s)) (fun k =>
    let* d := subscriber k in
    let* t := topic (s_topic d) in
    emit (NetSubscribe (s_handle d) [t_name t] (c_options (s_config d)))) ;;
  for_each (hm_live (m_multiSubscribers s)) (fun k =>
    let* d := multiSubscriber k in
    emit (NetSubscribe (ms_handle d) (ms_prefixes d) (ms_options d))).

Definition ClearNetwork : M LS unit :=
  modify (fun s => s <| m_network := false |>) ;;
  let* topics := gets m_topics in
  for_each (hm_live topics) RemoveNetworkPublisher.

(** ** The public interface: topics *)

(** The live topics the loops of the two [ForEachTopic] select. *)
Definition hm_elements {A} (m : HandleMap A) : list A := omap (hm_at m) (hm_live m).

Definition ForEachTopic_types (prefix : string) (types : Z) (s : LS) : list Topic :=
  filter (fun t => Exists t && starts_with (t_name t) prefix &&
                   ((types =? 0) || has_bits types (NT_Type_bits (t_type t))) = true)
    (hm_elements (m_topics s)).
Definition ForEachTopic_typeStrs (prefix : string) (types : list string) (s : LS) : list Topic :=
  filter (fun t => Exists t && starts_with (t_name t) prefix &&
                   (negb (nonempty types) || existsb (String.eqb (t_typeStr t)) types) = true)
    (hm_elements (m_topics s)).

Definition GetTopics_types (prefix : string) (types : Z) : M LS (list Z) :=
  gets (fun s => t_handle <$> ForEachTopic_types prefix types s).
Definition GetTopics_typeStrs (prefix : string) (types : list string) : M LS (list Z) :=
  gets (fun s => t_handle <$> ForEachTopic_typeStrs prefix types s).
Definition GetTopicInfo_types (prefix : string) (types : Z) : M LS (list TopicInfo) :=
  gets (fun s => GetTopicInfo <$> ForEachTopic_types prefix types s).
Definition GetTopicInfo_typeStrs (prefix : string) (types : list string)
  : M LS (list TopicInfo) :=
  gets (fun s => GetTopicInfo <$> ForEachTopic_typeStrs prefix types s).

Definition GetTopic (name : string) : M LS Z :=
  if String.eqb name EmptyString then ret 0
  else
    let* i := GetOrCreateTopic name in
    let* t := topic i in
    ret (t_handle t).

(** [if (auto topic = m_topics.Get(handle)) f(topic) else d] *)
Definition with_topic {A} (topicHandle : Z) (d : A) (f : nat -> M LS A) : M LS A :=
  let* s := get in
  match hm_Get kTopic topicHandle (m_topics s) with
  | Some i => f i
  | None => ret d
  end.
Definition get_of_topic {A} (topicHandle : Z) (d : A) (f : Topic -> A) : M LS A :=
  with_topic topicHandle d (fun i => let* t := topic i in ret (f t)).

Definition GetTopicName (h : Z) : M LS string := get_of_topic h EmptyString t_name.
Definition GetTopicType (h : Z) : M LS NT_Type := get_of_topic h NT_UNASSIGNED t_type.
Definition GetTopicTypeString (h : Z) : M LS string := get_of_topic h EmptyString t_typeStr.

Definition SetTopicPersistent (h : Z) (value : bool) : M LS unit :=
  with_topic h tt (fun i => SetPersistent i value).
Definition GetTopicPersistent (h : Z) : M LS bool :=
  get_of_topic h false (fun t => has_bits (t_flags t) NT_PERSISTENT).
Definition SetTopicRetained (h : Z) (value : bool) : M LS unit :=
  with_topic h tt (fun i => SetRetained i value).
Definition GetTopicRetained (h : Z) : M LS bool :=
  get_of_topic h false (fun t => has_bits (t_flags t) NT_RETAINED).

Definition GetTopicExists (handle : Z) : M LS bool :=
  let* o := GetTopic_handle handle in
  match o with
  | Some i => let* t := topic i in ret (Exists t)
  | None => ret false
  end.

Definition GetTopicProperty (h : Z) (name : string) : M LS J :=
  get_of_topic h jnull (fun t => default jnull (t_properties t !! name)).

Definition SetTopicProperty (h : Z) (name : string) (value : J) : M LS unit :=
  with_topic h tt (fun i =>
    set_topic i (fun t => t <| t_properties ::= fun m =>
      if j_is_null value then delete name m else <[name := value]> m |>) ;;
    PropertiesUpdated i {[name := value]} NT_EVENT_NONE true true).

Definition DeleteTopicProperty (h : Z) (name : string) : M LS unit :=
  with_topic h tt (fun i =>
    set_topic i (fun t => t <| t_properties ::= delete name |>) ;;
    PropertiesUpdated i {[name := jnull]} NT_EVENT_NONE true true).

Definition GetTopicProperties (h : Z) : M LS (gmap string J) := get_of_topic h ∅ t_properties.

Definition SetTopicProperties (h : Z) (update : json J) : M LS bool :=
  match update with
  | JsonObject _ => with_topic h false (fun i => SetProperties i update true ;; ret true)
  | _ => ret false
  end.

(** [TopicInfo{}] *)
Definition TopicInfo_empty : TopicInfo :=
  MkTopicInfo 0 EmptyString NT_UNASSIGNED EmptyString EmptyString.
Definition GetTopicInfo_handle (h : Z) : M LS TopicInfo :=
  get_of_topic h TopicInfo_empty GetTopicInfo.

(** ** The public interface: publishers, subscribers and entries *)

Definition Subscribe (topicHandle : Z) (type : NT_Type) (typeStr : string)
    (options : PubSubOptions) : M LS Z :=
  with_topic topicHandle 0 (fun i =>
    let* t := topic i in
    if (kMaxSubscribers <=? length (t_localSubscribers t))%nat then ret 0
    else
      let* k := AddLocalSubscriber i (PubSubConfig_make type typeStr options) in
      let* d := subscriber k in
      ret (s_handle d)).

Definition Unsubscribe (subHandle : Z) : M LS unit := RemoveSubEntry subHandle.

Definition SubscribeMultiple (prefixes : list string) (options : PubSubOptions) : M LS Z :=
  let* subs := gets m_multiSubscribers in
  if (kMaxMultiSubscribers <=? uid_size subs)%nat then ret 0
  else
    let* k := AddMultiSubscriber prefixes options in
    let* d := multiSubscriber k in
    ret (ms_handle d).

Definition UnsubscribeMultiple (subHandle : Z) : M LS unit := RemoveMultiSubscriber subHandle.

Definition Publish (topicHandle : Z) (type : NT_Type) (typeStr : string)
    (properties : json J) (options : PubSubOptions) : M LS Z :=
  with_topic topicHandle 0 (fun i =>
    if type_is type NT_UNASSIGNED || String.eqb typeStr EmptyString then ret 0
    else
      let* t := topic i in
      if (kMaxPublishers <=? length (t_localPublishers t))%nat then ret 0
      else
        let* k := AddLocalPublisher i properties (PubSubConfig_make type typeStr options) in
        let* p := publisher k in
        ret (p_handle p)).

Definition Unpublish (pubentryHandle : Z) : M LS unit :=
  if IsType kPublisher pubentryHandle then RemoveLocalPublisher pubentryHandle
  else
    let* s := get in
    match hm_Get kEntry pubentryHandle (m_entries s) with
    | None => skip
    | Some k =>
        let* e := entry k in
        match e_publisher e with
        | None => skip
        | Some p =>
            let* pd := publisher p in
            RemoveLocalPublisher (p_handle pd) ;;
            set_entry k (fun e => e <| e_publisher := None |>)
        end
    end.

Definition GetEntry_topic (topicHandle : Z) (type : NT_Type) (typeStr : string)
    (options : PubSubOptions) : M LS Z :=
  with_topic topicHandle 0 (fun i =>
    let* t := topic i in
    if (kMaxSubscribers <=? length (t_localSubscribers t))%nat then ret 0
    else
      let* k := AddLocalSubscriber i (PubSubConfig_make type typeStr options) in
      let* e := AddEntry k in
      let* e := entry e in
      ret (e_handle e)).

Definition ReleaseEntry (entryHandle : Z) : M LS unit := RemoveSubEntry entryHandle.

Definition Release (handle : Z) : M LS unit :=
  if IsType kEntry handle then ReleaseEntry handle
  else if IsType kPublisher handle then Unpublish handle
  else if IsType kSubscriber handle then Unsubscribe handle
  else if IsType kMultiSubscriber handle then UnsubscribeMultiple handle
  else skip.

Definition GetTopicFromHandle (handle : Z) : M LS Z :=
  let* o := GetTopic_handle handle in
  match o with
  | Some i => let* t := topic i in ret (t_handle t)
  | None => ret 0
  end.

(** ** The public interface: reading values *)

(** [Timestamped<T>] *)
Record Timestamped (A : Type) := MkTimestamped { ts_time : Z; ts_serverTime : Z; ts_value : A }.
#[global] Arguments MkTimestamped {A} _ _ _.

(** What a typed reader sees in a value: nothing if the type does not fit. *)
Definition as_Boolean (v : Value) : option bool :=
  match data v with VBoolean b => Some b | _ => None end.
Definition as_String (v : Value) : option string :=
  match data v with VString x => Some x | _ => None end.
Definition as_Raw (v : Value) : option bytes :=
  match data v with VRaw x => Some x | _ => None end.
Definition as_BooleanArray (v : Value) : option (list Z) :=
  match data v with VBooleanArray x => Some x | _ => None end.
Definition as_StringArray (v : Value) : option (list string) :=
  match data v with VStringArray x => Some x | _ => None end.

(** The numeric readers convert each of the three numeric types. *)
Definition as_Integer (v : Value) : option Z :=
  match data v with
  | VInteger z => Some z
  | VFloat x => Some (int_of_float env_cast_ub x)
  | VDouble x => Some (int_of_double env_cast_ub x)
  | _ => None
  end.
Definition as_Float (v : Value) : option Z :=
  match data v with
  | VInteger z => Some (f32_of_int z)
  | VFloat x => Some x
  | VDouble x => Some (f32_of_f64 x)
  | _ => None
  end.
Definition as_Double (v : Value) : option Z :=
  match data v with
  | VInteger z => Some (f64_of_int z)
  | VFloat x => Some (f64_of_f32 x)
  | VDouble x => Some x
  | _ => None
  end.
Definition as_IntegerArray (v : Value) : option (list Z) :=
  match data v with
  | VIntegerArray a => Some a
  | VFloatArray a => Some (int_of_float env_cast_ub <$> a)
  | VDoubleArray a => Some (int_of_double env_cast_ub <$> a)
  | _ => None
  end.
Definition as_FloatArray (v : Value) : option (list Z) :=
  match data v with
  | VIntegerArray a => Some (f32_of_int <$> a)
  | VFloatArray a => Some a
  | VDoubleArray a => Some (f32_of_f64 <$> a)
  | _ => None
  end.
Definition as_DoubleArray (v : Value) : option (list Z) :=
  match data v with
  | VIntegerArray a => Some (f64_of_int <$> a)
  | VFloatArray a => Some (f64_of_f32 <$> a)
  | VDoubleArray a => Some a
  | _ => None
  end.

(** The common body of the [GetAtomic] functions. *)
Definition GetAtomic {A} (as_ : Value -> option A) (subentry : Z) (defaultValue : A)
  : M LS (Timestamped A) :=
  let* o := GetSubEntryValue subentry in
  match o with
  | Some v =>
      match as_ v with
      | Some a => ret (MkTimestamped (value_time v) (server_time v) a)
      | None => ret (MkTimestamped 0 0 defaultValue)
      end
  | None => ret (MkTimestamped 0 0 defaultValue)
  end.
Definition GetAtomicBoolean := GetAtomic as_Boolean.
Definition GetAtomicString := GetAtomic as_String.
Definition GetAtomicInteger := GetAtomic as_Integer.
Definition GetAtomicFloat := GetAtomic as_Float.
Definition GetAtomicDouble := GetAtomic as_Double.
Definition GetAtomicIntegerArray := GetAtomic as_IntegerArray.
Definition GetAtomicFloatArray := GetAtomic as_FloatArray.
Definition GetAtomicDoubleArray := GetAtomic as_DoubleArray.
Definition GetAtomicRaw := GetAtomic as_Raw.
Definition GetAtomicBooleanArray := GetAtomic as_BooleanArray.
Definition GetAtomicStringArray := GetAtomic as_StringArray.

Definition ReadQueueValue (subentry : Z) : M LS (list Value) :=
  let* o := GetSubEntry subentry in
  match o with
  | None => ret []
  | Some k =>
      let* d := subscriber k in
      set_subscriber k (fun d => d <| s_pollStorage ::= cb_reset |>) ;;
      ret (contents (s_pollStorage d))
  end.

(** The common body of the typed [ReadQueue] functions: values of another type are
    dropped. *)
Definition ReadQueue {A} (as_ : Value -> option A) (subentry : Z) : M LS (list (Timestamped A)) :=
  let* o := GetSubEntry subentry in
  match o with
  | None => ret []
  | Some k =>
      let* d := subscriber k in
      set_subscriber k (fun d => d <| s_pollStorage ::= cb_reset |>) ;;
      ret (omap (fun v => a ← as_ v; Some (MkTimestamped (value_time v) (server_time v) a))
             (contents (s_pollStorage d)))
  end.
Definition ReadQueueBoolean := ReadQueue as_Boolean.
Definition ReadQueueString := ReadQueue as_String.
Definition ReadQueueRaw := ReadQueue as_Raw.
Definition ReadQueueBooleanArray := ReadQueue as_BooleanArray.
Definition ReadQueueStringArray := ReadQueue as_StringArray.
Definition ReadQueueInteger := ReadQueue as_Integer.
Definition ReadQueueFloat := ReadQueue as_Float.
Definition ReadQueueDouble := ReadQueue as_Double.
Definition ReadQueueIntegerArray := ReadQueue as_IntegerArray.
Definition ReadQueueFloatArray := ReadQueue as_FloatArray.
Definition ReadQueueDoubleArray := ReadQueue as_DoubleArray.

Definition GetEntryValue (subentry : Z) : M LS Value :=
  let* o := GetSubEntry subentry in
  match o with
  | None => ret Value_empty
  | Some k =>
      let* d := subscriber k in
      let* t := topic (s_topic d) in
      let type := c_type (s_config d) in
      let v := t_lastValue t in
      if type_is type NT_UNASSIGNED || negb (value_valid v) || type_is type (value_type v)
      then ret v
      else if IsNumericCompatible type (value_type v) then convert_value v type
      else ret Value_empty
  end.

(** The topic of an entry's subscriber. *)
Definition with_entry {A} (entryHandle : Z) (d : A) (f : nat -> M LS A) : M LS A :=
  let* s := get in
  match hm_Get kEntry entryHandle (m_entries s) with
  | Some k =>
      let* e := entry k in
      let* d := subscriber (e_subscriber e) in
      f (s_topic d)
  | None => ret d
  end.
Definition SetEntryFlags (entryHandle flags : Z) : M LS unit :=
  with_entry entryHandle tt (fun i => SetFlags i flags).
Definition GetEntryFlags (entryHandle : Z) : M LS Z :=
  with_entry entryHandle 0 (fun i => let* t := topic i in ret (t_flags t)).

Definition GetEntry_name (name : string) : M LS Z :=
  if String.eqb name EmptyString then ret 0
  else
    let* i := GetOrCreateTopic name in
    let* t := topic i in
    if negb (t_entry t =? 0) then ret (t_entry t)
    else if (kMaxSubscribers <=? length (t_localSubscribers t))%nat then ret 0
    else
      let* k := AddLocalSubscriber i PubSubConfig_default in
      let* e := AddEntry k in
      let* e := entry e in
      set_topic i (fun t => t <| t_entry := e_handle e |>) ;;
      ret (e_handle e).

Definition get_of_subentry {A} (subentry : Z) (d : A) (f : Topic -> A) : M LS A :=
  let* o := GetSubEntry subentry in
  match o with
  | Some k =>
      let* d := subscriber k in
      let* t := topic (s_topic d) in
      ret (f t)
  | None => ret d
  end.
Definition GetEntryName (h : Z) : M LS string := get_of_subentry h EmptyString t_name.
Definition GetEntryType (h : Z) : M LS NT_Type := get_of_subentry h NT_UNASSIGNED t_type.
Definition GetEntryLastChange (h : Z) : M LS Z :=
  get_of_subentry h 0 (fun t => value_time (t_lastValue t)).

(** ** The public interface: listeners and data logs *)

Definition listener_mask : Z :=
  Z.lor NT_EVENT_TOPIC (Z.lor NT_EVENT_VALUE_ALL NT_EVENT_IMMEDIATE).
Definition AddListener (h : Z) (prefixes : list string) (mask : Z) : M LS unit :=
  AddListener_prefixes h prefixes (Z.land mask listener_mask).
Definition AddListener' (h handle mask : Z) : M LS unit :=
  AddListener_handle h handle (Z.land mask listener_mask).
Definition RemoveListener (h mask : Z) : M LS unit := RemoveListener_impl h.

(** The body of the loop of [StartDataLog]. *)
Definition StartDataLog_topic (d : DataLoggerData) (prefix : string) (now : Z) (i : nat)
  : M LS unit :=
  let* t := topic i in
  if negb (starts_with (t_name t) prefix) || type_is (t_type t) NT_UNASSIGNED ||
     String.eqb (t_typeStr t) EmptyString
  then skip
  else
    let* e := DataLogger_Start d t now in
    let entry := MkDataLoggerEntry (d_log d) e (d_handle d) in
    set_topic i (fun t => t <| t_datalogs ::= fun l => l ++ [entry] |>) ;;
    if negb (value_valid (t_lastValue t)) then skip
    else
      set_topic i (fun t => t <| t_datalogType := t_type t |>) ;;
      Append entry (t_lastValue t).

Definition StartDataLog (log : Z) (prefix logPrefix : string) : M LS Z :=
  let* s := get in
  let '(k, m) := hm_Add kDataLogger kReuse (m_inst s) (DataLoggerData_make log prefix logPrefix)
                   (m_dataloggers s) in
  modify (fun s => s <| m_dataloggers := m |>) ;;
  let* d := datalogger k in
  let* now := Now in
  for_each (hm_live (m_topics s)) (StartDataLog_topic d prefix now) ;;
  ret (d_handle d).

(** The body of the loop of [StopDataLog]. *)
Definition StopDataLog_topic (logger now : Z) (i : nat) : M LS unit :=
  let* t := topic i in
  match find_datalog logger t with
  | Some (n, e) =>
      emit (LogFinish (de_log e) (de_entry e) now) ;;
      set_topic i (fun t => t <| t_datalogs ::= delete n |>)
  | None => skip
  end.

Definition StopDataLog (logger : Z) : M LS unit :=
  let* s := get in
  let '(o, m) := hm_Remove kDataLogger logger (m_dataloggers s) in
  modify (fun s => s <| m_dataloggers := m |>) ;;
  match o with
  | None => skip
  | Some _ =>
      let* now := Now in
      for_each (hm_live (m_topics s)) (StopDataLog_topic logger now)
  end.

(** The trace and the counters are not part of the storage. *)
Definition Reset : M LS unit :=
  modify (fun s =>
    LSImpl_init (m_inst s) <| m_clock := m_clock s |> <| m_logStarts := m_logStarts s |>
      <| out := out s |>).
End LocalStorage.
