(* ===== verification/LocalShape.v ===== *)
(** * LocalShape: the object graph of the local storage and its invariant

    [shape] is the part of the state that says which objects exist, which object
    refers to which, and how topics and publishers are typed.  [Struct] is the
    invariant of that graph: no pointer dangles, and the lists of a topic hold
    exactly the objects that belong to it.  [EntryPub] is the part about the
    publishers of entries and [Typed] the part about types.  The lemmas say which
    changes of the graph preserve it. *)

From S2P Require Import Prelude NtTypes CircularBuffer Handles Monads LocalTypes LocalStorage.
Local Open Scope nat_scope.

(** ** Owner lists

    [linked f own topics m]: the list [f t] of every topic [t] holds, once each,
    exactly the objects of [m] whose owner is the topic. *)

Record linked {T A} (f : T -> list nat) (own : A -> nat) (topics : HandleMap T)
    (m : HandleMap A) : Prop := {
  lk_obj : forall k a, hm_at m k = Some a -> exists t, hm_at topics (own a) = Some t /\ k ∈ f t;
  lk_nodup : forall i t, hm_at topics i = Some t -> NoDup (f t);
  lk_list : forall i t k, hm_at topics i = Some t -> k ∈ f t ->
    exists a, hm_at m k = Some a /\ own a = i;
}.

Section Linked.
Context {T A : Type} (f : T -> list nat) (own : A -> nat).
Implicit Types (ts : HandleMap T) (m : HandleMap A).

Lemma linked_empty : linked f own hm_empty hm_empty.
Proof. split; by intros [|?] ?. Qed.

(** Topics and objects may change what is not about the link. *)
Lemma linked_topics ts ts' m :
  linked f own ts m ->
  (forall i t, hm_at ts i = Some t -> exists t', hm_at ts' i = Some t' /\ f t' = f t) ->
  (forall i t', hm_at ts' i = Some t' ->
     f t' = [] \/ exists t, hm_at ts i = Some t /\ f t' = f t) ->
  linked f own ts' m.
Proof.
  intros [Ho Hn Hl] H1 H2. split.
  - intros k a (t & Ht & Hk)%Ho. destruct (H1 _ _ Ht) as (t' & ? & E). exists t'. by rewrite E.
  - intros i t' [->|(t & Ht & ->)]%H2; [apply NoDup_nil_2|by eapply Hn].
  - intros i t' k [->|(t & Ht & ->)]%H2; [by intros ?%not_elem_of_nil|by eapply Hl].
Qed.

Lemma linked_topic ts m i t t' :
  linked f own ts m -> hm_at ts i = Some t -> f t' = f t -> linked f own (hm_set i t' ts) m.
Proof.
  intros Hl Hi Hf. apply (linked_topics ts); [done| |]; intros j u.
  - rewrite hm_at_set by done. case_decide; naive_solver.
  - rewrite hm_at_set by done. case_decide; naive_solver.
Qed.

Lemma linked_new_topic ts ts' m i t :
  linked f own ts m -> hm_at ts i = None -> f t = [] ->
  (forall j, hm_at ts' j = if decide (i = j) then Some t else hm_at ts j) ->
  linked f own ts' m.
Proof.
  intros Hl Hi Hf Hat. apply (linked_topics ts); [done| |]; intros j u; rewrite Hat;
    case_decide; subst; naive_solver.
Qed.

Lemma linked_set ts m k a a' :
  linked f own ts m -> hm_at m k = Some a -> own a' = own a -> linked f own ts (hm_set k a' m).
Proof.
  intros [Ho Hn Hl] Hk Ha. split; [|done|].
  - intros j b. rewrite hm_at_set by done. case_decide; [|by apply Ho].
    intros [= <-]. subst. rewrite Ha. by apply Ho.
  - intros i t j Hi Hj. destruct (Hl i t j Hi Hj) as (b & Hb & Hob).
    rewrite hm_at_set by done. case_decide; [|by eauto]. subst j.
    rewrite Hk in Hb. injection Hb as <-. exists a'. split; [done|congruence].
Qed.

Lemma linked_add ts m m' k a t t' :
  linked f own ts m -> hm_at m k = None -> hm_at ts (own a) = Some t ->
  f t' = f t ++ [k] ->
  (forall j, hm_at m' j = if decide (k = j) then Some a else hm_at m j) ->
  linked f own (hm_set (own a) t' ts) m'.
Proof.
  intros [Ho Hn Hl] Hk Ht Hf Hat.
  assert (Hfresh : forall i u, hm_at ts i = Some u -> k ∉ f u).
  { intros i u Hu Hin. destruct (Hl _ _ _ Hu Hin) as (b & Hb & _). congruence. }
  split.
  - intros j b. rewrite Hat. case_decide.
    + intros [= <-]. subst j. rewrite hm_at_set, decide_True by done. exists t'.
      rewrite Hf. set_solver.
    + intros (u & Hu & Hj)%Ho. rewrite hm_at_set by done. case_decide as E; [|by eauto].
      exists t'. rewrite E, Hu in Ht. simplify_eq. rewrite Hf. set_solver.
  - intros i u. rewrite hm_at_set by done. case_decide; [|by apply Hn].
    intros [= <-]. rewrite Hf. apply NoDup_app. split_and!.
    + by eapply Hn.
    + intros x Hx ->%list_elem_of_singleton. by eapply Hfresh.
    + apply NoDup_singleton.
  - intros i u j. rewrite hm_at_set by done. rewrite Hat. case_decide as E.
    + intros [= <-]. rewrite Hf, elem_of_app, list_elem_of_singleton. intros [Hj| ->].
      * rewrite decide_False by (intros ->; by eapply Hfresh). subst i. by eapply Hl.
      * rewrite decide_True by done. eauto.
    + intros Hu Hj. rewrite decide_False by (intros ->; by eapply Hfresh). by eapply Hl.
Qed.

Lemma linked_remove ts m m' k a t t' :
  linked f own ts m -> hm_at m k = Some a -> hm_at ts (own a) = Some t ->
  f t' = filter (fun j => j <> k) (f t) ->
  (forall j, hm_at m' j = if decide (k = j) then None else hm_at m j) ->
  linked f own (hm_set (own a) t' ts) m'.
Proof.
  intros [Ho Hn Hl] Hk Ht Hf Hat. split.
  - intros j b. rewrite Hat. case_decide as Ej; [done|]. intros (u & Hu & Hj)%Ho.
    rewrite hm_at_set by done. case_decide as E; [|by eauto].
    exists t'. rewrite <- E, Ht in Hu. simplify_eq. rewrite Hf, list_elem_of_filter. auto.
  - intros i u. rewrite hm_at_set by done. case_decide; [|by apply Hn].
    intros [= <-]. rewrite Hf. apply NoDup_filter. by eapply Hn.
  - intros i u j. rewrite hm_at_set by done. rewrite Hat. case_decide as E.
    + intros [= <-]. rewrite Hf, list_elem_of_filter. intros [Hne Hj].
      rewrite decide_False by done. subst i. by eapply Hl.
    + intros Hu Hj. destruct (Hl _ _ _ Hu Hj) as (b & Hb & Hob).
      rewrite decide_False; [by eauto|]. intros ->. congruence.
Qed.
End Linked.

(** ** The object graph *)

Record TopicShape := MkTS {
  ts_handle : Z;
  ts_name : string;
  ts_special : bool;
  ts_type : NT_Type;
  ts_typeStr : string;
  ts_onNetwork : bool;
  ts_pubs : list nat;
  ts_subs : list nat;
  ts_multis : list nat;
  ts_entries : list nat;
}.
#[global] Instance eta_TopicShape : Eta TopicShape := fun t =>
  MkTS (ts_handle t) (ts_name t) (ts_special t) (ts_type t) (ts_typeStr t) (ts_onNetwork t)
    (ts_pubs t) (ts_subs t) (ts_multis t) (ts_entries t).

(** [sub_queue] is the capacity of the queue, if it is well formed. *)
Record SubShape := MkSS {
  sub_handle : Z;
  sub_topic : nat;
  sub_poll : Z;
  sub_queue : option nat;
}.

Record Shape := MkShape {
  sh_inst : Z;
  sh_topics : HandleMap TopicShape;
  sh_pubs : HandleMap PublisherData;
  sh_subs : HandleMap SubShape;
  sh_entries : HandleMap EntryData;
  sh_multis : HandleMap (Z * list string);
  sh_loggers : HandleMap DataLoggerData;
  sh_names : gmap string nat;
  sh_listeners : gmap Z ListenerData;
  sh_prefix : list Z;
}.
#[global] Instance eta_Shape : Eta Shape := fun s =>
  MkShape (sh_inst s) (sh_topics s) (sh_pubs s) (sh_subs s) (sh_entries s) (sh_multis s)
    (sh_loggers s) (sh_names s) (sh_listeners s) (sh_prefix s).

#[global] Instance cb_ok_dec {T} (b : circular_buffer T) : Decision (cb_ok b).
Proof. unfold cb_ok. apply _. Defined.

Definition sub_shape (d : SubscriberData) : SubShape :=
  MkSS (s_handle d) (s_topic d) (pollStorage (c_opts (s_config d)))
    (if decide (cb_ok (s_pollStorage d)) then Some (capacity (s_pollStorage d)) else None).

Definition multi_shape (d : MultiSubscriberData) : Z * list string :=
  (ms_handle d, ms_prefixes d).

Section Shape.
Context {J : Type}.

Definition topic_shape (t : TopicData J) : TopicShape :=
  MkTS (t_handle t) (t_name t) (t_special t) (t_type t) (t_typeStr t) (t_onNetwork t)
    (t_localPublishers t) (t_localSubscribers t) (t_multiSubscribers t) (t_entries t).

Definition shape (s : LSImpl J) : Shape :=
  MkShape (m_inst s) (hm_map topic_shape (m_topics s)) (m_publishers s)
    (hm_map sub_shape (m_subscribers s)) (m_entries s)
    (hm_map multi_shape (m_multiSubscribers s)) (m_dataloggers s) (m_nameTopics s)
    (m_listeners s) (m_topicPrefixListeners s).
End Shape.

(** ** The invariant *)

(** [MultiSubscriberData::Matches] of a multi-subscriber with the given prefixes for
    the topic with the given name. *)
Definition matches_name (prefixes : list string) (name : string) : bool :=
  existsb (fun prefix => PrefixMatch name prefix (IsSpecial name)) prefixes.

Definition ts_exists (t : TopicShape) : bool := ts_onNetwork t || nonempty (ts_pubs t).

(** A listener refers to live subscribers only; a subscriber it owns is not the
    subscriber of an entry. *)
Record listener_ok (sh : Shape) (h : Z) (l : ListenerData) : Prop := {
  lo_handle : l_handle l = h;
  lo_sub : forall k, l_subscriber l = Some k -> is_Some (hm_at (sh_subs sh) k);
  lo_multi : forall k, l_multiSubscriber l = Some k -> is_Some (hm_at (sh_multis sh) k);
  lo_owned : forall k j e, l_subscriberOwned l = true -> l_subscriber l = Some k ->
    hm_at (sh_entries sh) j = Some e -> e_subscriber e <> k;
}.

(** The multi-subscribers of a topic are the live ones that match its name. *)
Record multis_ok (multis : HandleMap (Z * list string)) (t : TopicShape) : Prop := {
  mo_special : ts_special t = IsSpecial (ts_name t);
  mo_nodup : NoDup (ts_multis t);
  mo_match : forall k, k ∈ ts_multis t <->
    exists d, hm_at multis k = Some d /\ matches_name d.2 (ts_name t) = true;
}.

Record Struct (sh : Shape) : Prop := {
  st_inst : (0 <= sh_inst sh)%Z;
  st_t : table (sh_inst sh) kTopic ts_handle (sh_topics sh);
  st_p : table (sh_inst sh) kPublisher p_handle (sh_pubs sh);
  st_s : table (sh_inst sh) kSubscriber sub_handle (sh_subs sh);
  st_e : table (sh_inst sh) kEntry e_handle (sh_entries sh);
  st_m : table (sh_inst sh) kMultiSubscriber fst (sh_multis sh);
  st_l : table (sh_inst sh) kDataLogger d_handle (sh_loggers sh);
  st_names : forall n i, sh_names sh !! n = Some i <->
    exists t, hm_at (sh_topics sh) i = Some t /\ ts_name t = n;
  st_pubs : linked ts_pubs p_topic (sh_topics sh) (sh_pubs sh);
  st_subs : linked ts_subs sub_topic (sh_topics sh) (sh_subs sh);
  st_entries : linked ts_entries e_topic (sh_topics sh) (sh_entries sh);
  st_entry_sub : forall k e, hm_at (sh_entries sh) k = Some e ->
    exists d, hm_at (sh_subs sh) (e_subscriber e) = Some d /\ sub_topic d = e_topic e;
  st_entry_inj : forall k k' e e', hm_at (sh_entries sh) k = Some e ->
    hm_at (sh_entries sh) k' = Some e' -> e_subscriber e = e_subscriber e' -> k = k';
  st_queue : forall k d, hm_at (sh_subs sh) k = Some d ->
    sub_queue d = Some (Z.to_nat (sub_poll d));
  st_multis : forall i t, hm_at (sh_topics sh) i = Some t -> multis_ok (sh_multis sh) t;
  st_listener : forall h l, sh_listeners sh !! h = Some l -> listener_ok sh h l;
  st_prefix : forall h, h ∈ sh_prefix sh -> is_Some (sh_listeners sh !! h);
}.

(** The publisher of an entry is live, on the same topic, and its own. *)
Record EntryPub (sh : Shape) : Prop := {
  ep_live : forall k e p, hm_at (sh_entries sh) k = Some e -> e_publisher e = Some p ->
    exists d, hm_at (sh_pubs sh) p = Some d /\ p_topic d = e_topic e;
  ep_inj : forall k k' e e' p, hm_at (sh_entries sh) k = Some e ->
    hm_at (sh_entries sh) k' = Some e' ->
    e_publisher e = Some p -> e_publisher e' = Some p -> k = k';
}.

(** A topic that exists has a type; a publisher is active if and only if it has the
    type of its topic; a topic published only locally has an active publisher. *)
Record Typed (sh : Shape) : Prop := {
  ty_exists : forall i t, hm_at (sh_topics sh) i = Some t -> ts_exists t = true ->
    ts_type t <> NT_UNASSIGNED;
  ty_config : forall k p, hm_at (sh_pubs sh) k = Some p -> c_type (p_config p) <> NT_UNASSIGNED;
  ty_active : forall k p t, hm_at (sh_pubs sh) k = Some p ->
    hm_at (sh_topics sh) (p_topic p) = Some t ->
    p_active p = pub_active (p_config p) (ts_type t) (ts_typeStr t);
  ty_local : forall i t, hm_at (sh_topics sh) i = Some t -> ts_onNetwork t = false ->
    ts_pubs t <> [] ->
    exists k p, k ∈ ts_pubs t /\ hm_at (sh_pubs sh) k = Some p /\ p_active p = true;
}.

Definition Inv {J} (s : LSImpl J) : Prop :=
  Struct (shape s) /\ EntryPub (shape s) /\ Typed (shape s).

(** ** Changes of the graph that preserve [Struct] *)

Ltac shape_simpl := unfold fupd in *; cbn in *.

(** [t'] is [t] up to its type and its presence on the network. *)
Definition retyped (t t' : TopicShape) : Prop :=
  t' = t <| ts_type := ts_type t' |> <| ts_typeStr := ts_typeStr t' |>
         <| ts_onNetwork := ts_onNetwork t' |>.

Lemma multis_ok_set multis t t' :
  multis_ok multis t -> ts_name t' = ts_name t -> ts_special t' = ts_special t ->
  ts_multis t' = ts_multis t -> multis_ok multis t'.
Proof. intros [H1 H2 H3] En Es Em. split; rewrite ?Em, ?En, ?Es; done. Qed.

(** The changes of one topic that keep its name, all other things being equal. *)
Lemma names_set (ts : HandleMap TopicShape) (names : gmap string nat) i t t' :
  (forall n j, names !! n = Some j <-> exists t, hm_at ts j = Some t /\ ts_name t = n) ->
  hm_at ts i = Some t -> ts_name t' = ts_name t ->
  forall n j, names !! n = Some j <->
    exists t, hm_at (hm_set i t' ts) j = Some t /\ ts_name t = n.
Proof.
  intros H Hi Hn n j. rewrite H, hm_at_set by done. case_decide; [|done]. subst j.
  rewrite Hi. naive_solver.
Qed.

Lemma multis_set (ts : HandleMap TopicShape) multis i t t' :
  (forall j t, hm_at ts j = Some t -> multis_ok multis t) ->
  hm_at ts i = Some t -> ts_name t' = ts_name t -> ts_special t' = ts_special t ->
  ts_multis t' = ts_multis t ->
  forall j u, hm_at (hm_set i t' ts) j = Some u -> multis_ok multis u.
Proof.
  intros H Hi Hn Hs Hm j u. rewrite hm_at_set by done. case_decide; [|apply H].
  intros [= <-]. by apply (multis_ok_set _ t); [eapply H|..].
Qed.

Lemma Struct_retype sh i t t' :
  Struct sh -> hm_at (sh_topics sh) i = Some t -> retyped t t' ->
  Struct (sh <| sh_topics ::= hm_set i t' |>).
Proof.
  intros HS Hi Hr. unfold retyped in Hr. destruct HS. split; shape_simpl; try done.
  - by eapply table_set; [| |rewrite Hr].
  - by eapply names_set; [| |rewrite Hr].
  - by eapply linked_topic; [| |rewrite Hr].
  - by eapply linked_topic; [| |rewrite Hr].
  - by eapply linked_topic; [| |rewrite Hr].
  - by eapply multis_set; [| |rewrite Hr..].
  - intros h l [? ? ? ?]%st_listener0. by split.
Qed.

Lemma Struct_pub sh k p p' :
  Struct sh -> hm_at (sh_pubs sh) k = Some p ->
  p_handle p' = p_handle p -> p_topic p' = p_topic p ->
  Struct (sh <| sh_pubs ::= hm_set k p' |>).
Proof.
  intros HS Hk Hh Ht. destruct HS. split; shape_simpl; try done.
  - by eapply table_set.
  - by eapply linked_set.
  - intros h l [? ? ? ?]%st_listener0. by split.
Qed.

(** Adding an object to a table of the graph and to the list of its topic *)
Section Add.
Context (sh : Shape) (HS : Struct sh).

Lemma Struct_add_pub k p m t t' :
  table (sh_inst sh) kPublisher p_handle m -> hm_at (sh_pubs sh) k = None ->
  (forall j, hm_at m j = if decide (k = j) then Some p else hm_at (sh_pubs sh) j) ->
  hm_at (sh_topics sh) (p_topic p) = Some t ->
  t' = t <| ts_pubs ::= vs_Add k |> ->
  Struct (sh <| sh_pubs := m |> <| sh_topics ::= hm_set (p_topic p) t' |>).
Proof using HS.
  intros Hm Hk Hat Ht ->. destruct HS. split; shape_simpl; try done.
  - by eapply table_set.
  - by eapply names_set.
  - by eapply linked_add.
  - by eapply linked_topic.
  - by eapply linked_topic.
  - by eapply multis_set.
  - intros h l [? ? ? ?]%st_listener0. by split.
Qed.

Lemma Struct_remove_pub k p m t t' :
  table (sh_inst sh) kPublisher p_handle m -> hm_at (sh_pubs sh) k = Some p ->
  (forall j, hm_at m j = if decide (k = j) then None else hm_at (sh_pubs sh) j) ->
  hm_at (sh_topics sh) (p_topic p) = Some t ->
  t' = t <| ts_pubs ::= vs_Remove k |> ->
  Struct (sh <| sh_pubs := m |> <| sh_topics ::= hm_set (p_topic p) t' |>).
Proof using HS.
  intros Hm Hk Hat Ht ->. destruct HS. split; shape_simpl; try done.
  - by eapply table_set.
  - by eapply names_set.
  - by eapply linked_remove.
  - by eapply linked_topic.
  - by eapply linked_topic.
  - by eapply multis_set.
  - intros h l [? ? ? ?]%st_listener0. by split.
Qed.

Lemma Struct_add_sub k d m t t' :
  table (sh_inst sh) kSubscriber sub_handle m -> hm_at (sh_subs sh) k = None ->
  (forall j, hm_at m j = if decide (k = j) then Some d else hm_at (sh_subs sh) j) ->
  hm_at (sh_topics sh) (sub_topic d) = Some t ->
  t' = t <| ts_subs ::= vs_Add k |> ->
  sub_queue d = Some (Z.to_nat (sub_poll d)) ->
  Struct (sh <| sh_subs := m |> <| sh_topics ::= hm_set (sub_topic d) t' |>).
Proof using HS.
  intros Hm Hk Hat Ht -> Hq. destruct HS.
  assert (Hkeep : forall j a, hm_at (sh_subs sh) j = Some a -> hm_at m j = Some a).
  { intros j a Hj. rewrite Hat, decide_False by congruence. done. }
  split; shape_simpl; try done.
  - by eapply table_set.
  - by eapply names_set.
  - by eapply linked_topic.
  - by eapply linked_add.
  - by eapply linked_topic.
  - intros j e (b & Hb & ?)%st_entry_sub0. exists b. auto.
  - intros j b. rewrite Hat. case_decide; [by intros [= <-]|apply st_queue0].
  - by eapply multis_set.
  - intros h l [? Hl ? ?]%st_listener0. split; try done. shape_simpl.
    intros j [b Hb]%Hl. exists b. auto.
Qed.

(** Removing a subscriber that no entry uses; listeners forget it. *)
Lemma Struct_remove_sub k d m t t' :
  table (sh_inst sh) kSubscriber sub_handle m -> hm_at (sh_subs sh) k = Some d ->
  (forall j, hm_at m j = if decide (k = j) then None else hm_at (sh_subs sh) j) ->
  hm_at (sh_topics sh) (sub_topic d) = Some t ->
  t' = t <| ts_subs ::= vs_Remove k |> ->
  (forall j e, hm_at (sh_entries sh) j = Some e -> e_subscriber e <> k) ->
  Struct (sh <| sh_subs := m |> <| sh_topics ::= hm_set (sub_topic d) t' |>
             <| sh_listeners ::= fmap (forget_subscriber k) |>).
Proof using HS.
  intros Hm Hk Hat Ht -> Hfree. destruct HS. split; shape_simpl; try done.
  - by eapply table_set.
  - by eapply names_set.
  - by eapply linked_topic.
  - by eapply linked_remove.
  - by eapply linked_topic.
  - intros j e He. destruct (st_entry_sub0 j e He) as (b & Hb & ?). exists b.
    rewrite Hat, decide_False by (symmetry; by eapply Hfree). done.
  - intros j b. rewrite Hat. case_decide; [done|apply st_queue0].
  - by eapply multis_set.
  - intros h l'. rewrite lookup_fmap, fmap_Some. intros (l & Hl & ->).
    destruct (st_listener0 h l Hl) as [H1 H2 H3 H4]. unfold forget_subscriber.
    case_decide as E; split; shape_simpl; try done.
    intros j Hj. rewrite Hat, decide_False by congruence. auto.
  - intros h Hh. rewrite lookup_fmap. apply fmap_is_Some. auto.
Qed.
End Add.

Section AddEntry.
Context (sh : Shape) (HS : Struct sh).

(** Adding an entry for a subscriber that no entry and no listener owns *)
Lemma Struct_add_entry k e m t t' d :
  table (sh_inst sh) kEntry e_handle m -> hm_at (sh_entries sh) k = None ->
  (forall j, hm_at m j = if decide (k = j) then Some e else hm_at (sh_entries sh) j) ->
  hm_at (sh_topics sh) (e_topic e) = Some t ->
  t' = t <| ts_entries ::= vs_Add k |> ->
  hm_at (sh_subs sh) (e_subscriber e) = Some d -> sub_topic d = e_topic e ->
  (forall j e', hm_at (sh_entries sh) j = Some e' -> e_subscriber e' <> e_subscriber e) ->
  (forall h l, sh_listeners sh !! h = Some l -> l_subscriber l <> Some (e_subscriber e)) ->
  Struct (sh <| sh_entries := m |> <| sh_topics ::= hm_set (e_topic e) t' |>).
Proof using HS.
  intros Hm Hk Hat Ht -> Hd Hdt Hfree Hown. destruct HS. split; shape_simpl; try done.
  - by eapply table_set.
  - by eapply names_set.
  - by eapply linked_topic.
  - by eapply linked_topic.
  - by eapply linked_add.
  - intros j e'. rewrite Hat. case_decide; [|apply st_entry_sub0].
    intros [= <-]. eauto.
  - intros j j' a a'. rewrite !Hat. repeat case_decide; try naive_solver.
    all: intros; simplify_eq; exfalso; by eapply Hfree.
  - by eapply multis_set.
  - intros h l Hl. destruct (st_listener0 h l Hl) as [H1 H2 H3 H4].
    split; try done. shape_simpl. intros k' j a Ho Hs. rewrite Hat.
    case_decide; [|by eapply H4]. intros [= <-] <-. by eapply Hown.
Qed.

Lemma Struct_remove_entry k e m t t' :
  table (sh_inst sh) kEntry e_handle m -> hm_at (sh_entries sh) k = Some e ->
  (forall j, hm_at m j = if decide (k = j) then None else hm_at (sh_entries sh) j) ->
  hm_at (sh_topics sh) (e_topic e) = Some t ->
  t' = t <| ts_entries ::= vs_Remove k |> ->
  Struct (sh <| sh_entries := m |> <| sh_topics ::= hm_set (e_topic e) t' |>).
Proof using HS.
  intros Hm Hk Hat Ht ->. destruct HS.
  assert (Hsub : forall j a, hm_at m j = Some a -> hm_at (sh_entries sh) j = Some a).
  { intros j a. rewrite Hat. by case_decide. }
  split; shape_simpl; try done.
  - by eapply table_set.
  - by eapply names_set.
  - by eapply linked_topic.
  - by eapply linked_topic.
  - by eapply linked_remove.
  - intros j a Ha. by eapply st_entry_sub0, Hsub.
  - intros j j' a a' Ha Ha'. by eapply st_entry_inj0; apply Hsub.
  - by eapply multis_set.
  - intros h l Hl. destruct (st_listener0 h l Hl) as [H1 H2 H3 H4].
    split; try done. shape_simpl. intros k' j a Ho Hs Ha. by eapply H4; [..|apply Hsub].
Qed.

Lemma Struct_set_entry k e e' :
  hm_at (sh_entries sh) k = Some e -> e_handle e' = e_handle e ->
  e_topic e' = e_topic e -> e_subscriber e' = e_subscriber e ->
  Struct (sh <| sh_entries ::= hm_set k e' |>).
Proof using HS.
  intros Hk Hh Ht Hs. destruct HS.
  assert (Hat : forall j a, hm_at (hm_set k e' (sh_entries sh)) j = Some a ->
    exists a', hm_at (sh_entries sh) j = Some a' /\ e_subscriber a = e_subscriber a' /\
      e_topic a = e_topic a').
  { intros j a. rewrite hm_at_set by done. case_decide; [|by eauto].
    intros [= <-]. subst. eauto. }
  split; shape_simpl; try done.
  - by eapply table_set.
  - by eapply linked_set.
  - intros j a (a' & Ha & -> & ->)%Hat. eauto.
  - intros j j' a b (a' & Ha & -> & _)%Hat (b' & Hb & -> & _)%Hat. eauto.
  - intros h l Hl. destruct (st_listener0 h l Hl) as [H1 H2 H3 H4].
    split; try done. shape_simpl. intros k' j a Ho Hsb (a' & Ha & -> & _)%Hat. eauto.
Qed.

(** ** Listeners *)

Lemma Struct_add_listener h l :
  listener_ok sh h l -> Struct (sh <| sh_listeners ::= <[h := l]> |>).
Proof using HS.
  intros Hl. destruct HS. split; shape_simpl; try done.
  - intros h' l'. rewrite lookup_insert. case_decide.
    + intros [= <-]. subst. destruct Hl. by split.
    + intros [? ? ? ?]%st_listener0. by split.
  - intros h' Hh'. rewrite lookup_insert. case_decide; [by eexists|]. by apply st_prefix0.
Qed.

Lemma Struct_add_prefix h :
  is_Some (sh_listeners sh !! h) -> Struct (sh <| sh_prefix ::= vs_Add h |>).
Proof using HS.
  intros Hh. destruct HS. split; shape_simpl; try done.
  - intros h' l [? ? ? ?]%st_listener0. by split.
  - intros h'. unfold vs_Add. rewrite elem_of_app, list_elem_of_singleton.
    intros [?| ->]; auto.
Qed.

Lemma Struct_remove_listener h :
  Struct (sh <| sh_listeners ::= delete h |> <| sh_prefix ::= vs_Remove h |>).
Proof using HS.
  destruct HS. split; shape_simpl; try done.
  - intros h' l [_ Hl]%lookup_delete_Some. destruct (st_listener0 h' l Hl). by split.
  - intros h'. unfold vs_Remove. rewrite list_elem_of_filter. intros [Hne Hh].
    rewrite lookup_delete_ne by done. auto.
Qed.

Lemma Struct_loggers m :
  table (sh_inst sh) kDataLogger d_handle m -> Struct (sh <| sh_loggers := m |>).
Proof using HS.
  intros Hm. destruct HS. split; shape_simpl; try done.
  intros h' l [? ? ? ?]%st_listener0. by split.
Qed.
End AddEntry.

(** ** Multi-subscribers and topics *)

(** All topics change at once, in their list of multi-subscribers only. *)
Definition remulti (t t' : TopicShape) : Prop := t' = t <| ts_multis := ts_multis t' |>.

Section Multi.
Context (sh : Shape) (HS : Struct sh).

Lemma Struct_remulti (g : TopicShape -> TopicShape) ts ms listeners :
  (forall t, remulti t (g t)) -> table (sh_inst sh) kTopic ts_handle ts ->
  (forall i, hm_at ts i = g <$> hm_at (sh_topics sh) i) ->
  table (sh_inst sh) kMultiSubscriber fst ms ->
  (forall i t, hm_at (sh_topics sh) i = Some t -> multis_ok ms (g t)) ->
  (forall h l, listeners !! h = Some l ->
     listener_ok (sh <| sh_multis := ms |>) h l) ->
  (forall h, is_Some (sh_listeners sh !! h) -> is_Some (listeners !! h)) ->
  Struct (sh <| sh_topics := ts |> <| sh_multis := ms |> <| sh_listeners := listeners |>).
Proof using HS.
  intros Hg Hts Hat Hms Hmo Hl Hdom. destruct HS.
  assert (H1 : forall i t, hm_at (sh_topics sh) i = Some t -> hm_at ts i = Some (g t)).
  { intros i t Ht. by rewrite Hat, Ht. }
  assert (H2 : forall i t', hm_at ts i = Some t' ->
    exists t, hm_at (sh_topics sh) i = Some t /\ t' = g t).
  { intros i t'. rewrite Hat, fmap_Some. naive_solver. }
  assert (Hlk : forall A (f : TopicShape -> list nat) (own : A -> nat) m,
    (forall t, f (g t) = f t) -> linked f own (sh_topics sh) m -> linked f own ts m).
  { intros A f own m Hf Hlk. eapply linked_topics; [done|..].
    - intros i t Ht. eauto.
    - intros i t' (t & Ht & ->)%H2. eauto. }
  split; shape_simpl; try done.
  - intros n i. rewrite st_names0. split.
    + intros (t & Ht & <-). exists (g t). split; [by apply H1|by rewrite Hg].
    + intros (t' & (t & Ht & ->)%H2 & <-). exists t. split; [done|by rewrite Hg].
  - apply Hlk; [intros t; by rewrite Hg|done].
  - apply Hlk; [intros t; by rewrite Hg|done].
  - apply Hlk; [intros t; by rewrite Hg|done].
  - intros i t' (t & Ht & ->)%H2. eauto.
  - intros h l Hh. destruct (Hl h l Hh). by split.
  - intros h Hh. auto.
Qed.

(** The list a new multi-subscriber is added to, and the effect of its removal. *)
Definition attach_multi (k : nat) (prefixes : list string) (t : TopicShape) : TopicShape :=
  if matches_name prefixes (ts_name t) then t <| ts_multis ::= vs_Add k |> else t.
Definition detach_multi (k : nat) (t : TopicShape) : TopicShape :=
  t <| ts_multis ::= vs_Remove k |>.

Lemma Struct_add_multi k d ts m :
  table (sh_inst sh) kMultiSubscriber fst m -> hm_at (sh_multis sh) k = None ->
  (forall j, hm_at m j = if decide (k = j) then Some d else hm_at (sh_multis sh) j) ->
  table (sh_inst sh) kTopic ts_handle ts ->
  (forall i, hm_at ts i = attach_multi k d.2 <$> hm_at (sh_topics sh) i) ->
  Struct (sh <| sh_topics := ts |> <| sh_multis := m |>).
Proof using HS.
  intros Hm Hk Hat Hts Hti. pose proof HS as HS'. destruct HS'.
  apply (Struct_remulti (attach_multi k d.2) ts m (sh_listeners sh)); try done.
  - intros t. unfold remulti, attach_multi. by destruct (matches_name _ _), t.
  - intros i t Ht. destruct (st_multis0 i t Ht) as [H1 H2 H3].
    assert (Hnew : k ∉ ts_multis t).
    { intros (x & Hx & _)%H3. congruence. }
    assert (Hold : forall j, j <> k -> (j ∈ ts_multis t <->
      exists x, hm_at m j = Some x /\ matches_name x.2 (ts_name t) = true)).
    { intros j Hj. rewrite H3, Hat, decide_False by done. done. }
    unfold attach_multi. destruct (matches_name d.2 (ts_name t)) eqn:Em; split; shape_simpl;
      try done; unfold vs_Add in *.
    + apply NoDup_app. split_and!; [done| |apply NoDup_singleton].
      by intros x Hx ->%list_elem_of_singleton.
    + intros j. rewrite elem_of_app, list_elem_of_singleton.
      destruct (decide (j = k)) as [->|Hne]; [|rewrite <- (Hold j Hne); naive_solver].
      split; [|by right]. intros _. exists d. by rewrite Hat, decide_True.
    + intros j. destruct (decide (j = k)) as [->|Hne]; [|by apply Hold].
      split; [done|]. intros (x & Hx & Hm'). rewrite Hat, decide_True in Hx by done.
      congruence.
  - intros h l Hl. destruct (st_listener0 h l Hl) as [H1 H2 H3 H4]. split; try done.
    shape_simpl. intros j [x Hx]%H3. exists x. rewrite Hat, decide_False by congruence. done.
Qed.

Lemma Struct_remove_multi k ts m :
  table (sh_inst sh) kMultiSubscriber fst m ->
  (forall j, hm_at m j = if decide (k = j) then None else hm_at (sh_multis sh) j) ->
  table (sh_inst sh) kTopic ts_handle ts ->
  (forall i, hm_at ts i = detach_multi k <$> hm_at (sh_topics sh) i) ->
  Struct (sh <| sh_topics := ts |> <| sh_multis := m |>
             <| sh_listeners ::= fmap (forget_multiSubscriber k) |>).
Proof using HS.
  intros Hm Hat Hts Hti. pose proof HS as HS'. destruct HS'.
  apply (Struct_remulti (detach_multi k) ts m
           (forget_multiSubscriber k <$> sh_listeners sh)); try done.
  - intros i t Ht. destruct (st_multis0 i t Ht) as [H1 H2 H3]. split; shape_simpl; try done.
    + by apply NoDup_filter.
    + intros j. unfold vs_Remove. rewrite list_elem_of_filter, Hat, H3.
      case_decide; naive_solver.
  - intros h l'. rewrite lookup_fmap, fmap_Some. intros (l & Hl & ->).
    destruct (st_listener0 h l Hl) as [H1 H2 H3 H4]. unfold forget_multiSubscriber.
    case_decide as E; split; shape_simpl; try done.
    intros j Hj. rewrite Hat, decide_False by congruence. auto.
  - intros h Hh. rewrite lookup_fmap. by apply fmap_is_Some.
Qed.

(** A new topic, without publishers, subscribers and entries *)
Lemma Struct_add_topic i t ts :
  table (sh_inst sh) kTopic ts_handle ts -> hm_at (sh_topics sh) i = None ->
  (forall j, hm_at ts j = if decide (i = j) then Some t else hm_at (sh_topics sh) j) ->
  sh_names sh !! ts_name t = None -> multis_ok (sh_multis sh) t ->
  ts_pubs t = [] -> ts_subs t = [] -> ts_entries t = [] ->
  Struct (sh <| sh_topics := ts |> <| sh_names ::= <[ts_name t := i]> |>).
Proof using HS.
  intros Hts Hi Hat Hn Hmo Hp Hs He. destruct HS. split; shape_simpl; try done.
  - intros n j. rewrite lookup_insert, Hat. repeat case_decide; subst.
    + naive_solver.
    + split; [by intros [= ->]|]. intros (u & Hu & Eu).
      assert (sh_names sh !! ts_name t = Some j) by (apply st_names0; eauto). congruence.
    + split; [|naive_solver]. intros (u & Hu & _)%st_names0. congruence.
    + apply st_names0.
  - by eapply linked_new_topic.
  - by eapply linked_new_topic.
  - by eapply linked_new_topic.
  - intros j u. rewrite Hat. case_decide; [by intros [= <-]|apply st_multis0].
  - intros h l [? ? ? ?]%st_listener0. by split.
Qed.
End Multi.

Lemma Struct_init inst : (0 <= inst)%Z ->
  Struct (MkShape inst hm_empty hm_empty hm_empty hm_empty hm_empty hm_empty ∅ ∅ []).
Proof.
  intros Hi. split; simpl; try (apply table_empty || apply linked_empty); try done;
    try by intros [|?].
  - intros n i. rewrite lookup_empty. split; [done|]. by destruct i; intros (? & ? & _).
  - intros h Hh. by apply not_elem_of_nil in Hh.
Qed.
