(* ===== verification/LocalFrames.v ===== *)
(** * LocalFrames: operations of the local storage that keep the object graph

    [frames m sh]: from every state of shape [sh] the operation [m] is free of
    undefined behaviour and leaves the shape as it is.  Notifications, values,
    properties and data logs are of this kind. *)

From S2P Require Import Prelude NtTypes CircularBuffer Handles Monads LocalTypes LocalStorage.
From S2P Require Import LocalShape.

Local Open Scope Z_scope.

Section Frames.
Context {J : Type} `{Json J} `{Env}.
Implicit Types (s : LSImpl J) (sh : Shape).

Definition frames {A} (m : M (LSImpl J) A) (sh : Shape) : Prop :=
  forall s, shape s = sh -> wp m (fun _ s' => shape s' = sh) s.

(** ** Reading and writing through pointers *)

Lemma wp_topic i ts (Q : TopicData J -> LSImpl J -> Prop) s sh :
  shape s = sh -> hm_at (sh_topics sh) i = Some ts ->
  (forall t, hm_at (m_topics s) i = Some t -> topic_shape t = ts -> Q t s) ->
  wp (topic i) Q s.
Proof.
  intros <- Hi HQ. simpl in Hi. rewrite hm_at_map in Hi. apply fmap_Some in Hi as (t & Ht & ->).
  unfold topic. repeat wp_step; [done|]. by apply HQ.
Qed.

Lemma wp_set_topic i f ts ts' (Q : unit -> LSImpl J -> Prop) s sh :
  shape s = sh -> hm_at (sh_topics sh) i = Some ts ->
  (forall t, hm_at (m_topics s) i = Some t -> topic_shape t = ts -> topic_shape (f t) = ts') ->
  (forall s', shape s' = sh <| sh_topics ::= hm_set i ts' |> -> Q tt s') ->
  wp (set_topic i f) Q s.
Proof.
  intros Hs Hi Hf HQ. unfold set_topic. wp_step. eapply wp_topic; [done..|].
  intros t Ht Hts. wp_step. apply HQ. subst sh. unfold shape, fupd. cbn.
  by rewrite hm_map_set, (Hf t).
Qed.

(** A write that the shape does not see *)
Lemma wp_set_topic_frame i f ts (Q : unit -> LSImpl J -> Prop) s sh :
  shape s = sh -> hm_at (sh_topics sh) i = Some ts ->
  (forall t, hm_at (m_topics s) i = Some t -> topic_shape t = ts ->
     topic_shape (f t) = topic_shape t) ->
  (forall s', shape s' = sh -> Q tt s') ->
  wp (set_topic i f) Q s.
Proof.
  intros Hs Hi Hf HQ. unfold set_topic. wp_step. eapply wp_topic; [done..|].
  intros t Ht Hts. wp_step. apply HQ. rewrite <- Hs. unfold shape, fupd. cbn.
  by rewrite (hm_map_set_same _ _ _ t) by auto.
Qed.

Lemma wp_publisher k p (Q : PublisherData -> LSImpl J -> Prop) s sh :
  shape s = sh -> hm_at (sh_pubs sh) k = Some p ->
  (hm_at (m_publishers s) k = Some p -> Q p s) -> wp (publisher k) Q s.
Proof. intros <- Hk HQ. unfold publisher. repeat wp_step; [done|]. by apply HQ. Qed.

Lemma wp_set_publisher k f p (Q : unit -> LSImpl J -> Prop) s sh :
  shape s = sh -> hm_at (sh_pubs sh) k = Some p ->
  (forall s', shape s' = sh <| sh_pubs ::= hm_set k (f p) |> -> Q tt s') ->
  wp (set_publisher k f) Q s.
Proof.
  intros Hs Hk HQ. unfold set_publisher. wp_step. eapply wp_publisher; [done..|].
  intros Hp. wp_step. apply HQ. by subst sh.
Qed.

Lemma wp_subscriber k ss (Q : SubscriberData -> LSImpl J -> Prop) s sh :
  shape s = sh -> hm_at (sh_subs sh) k = Some ss ->
  (forall d, hm_at (m_subscribers s) k = Some d -> sub_shape d = ss -> Q d s) ->
  wp (subscriber k) Q s.
Proof.
  intros <- Hk HQ. simpl in Hk. rewrite hm_at_map in Hk. apply fmap_Some in Hk as (d & Hd & ->).
  unfold subscriber. repeat wp_step; [done|]. by apply HQ.
Qed.

Lemma wp_set_subscriber_frame k f ss (Q : unit -> LSImpl J -> Prop) s sh :
  shape s = sh -> hm_at (sh_subs sh) k = Some ss ->
  (forall d, hm_at (m_subscribers s) k = Some d -> sub_shape d = ss ->
     sub_shape (f d) = sub_shape d) ->
  (forall s', shape s' = sh -> Q tt s') ->
  wp (set_subscriber k f) Q s.
Proof.
  intros Hs Hk Hf HQ. unfold set_subscriber. wp_step. eapply wp_subscriber; [done..|].
  intros d Hd Hds. wp_step. apply HQ. rewrite <- Hs. unfold shape, fupd. cbn.
  by rewrite (hm_map_set_same _ _ _ d) by auto.
Qed.

Lemma wp_entry k e (Q : EntryData -> LSImpl J -> Prop) s sh :
  shape s = sh -> hm_at (sh_entries sh) k = Some e ->
  (hm_at (m_entries s) k = Some e -> Q e s) -> wp (entry k) Q s.
Proof. intros <- Hk HQ. unfold entry. repeat wp_step; [done|]. by apply HQ. Qed.

Lemma wp_set_entry k f e (Q : unit -> LSImpl J -> Prop) s sh :
  shape s = sh -> hm_at (sh_entries sh) k = Some e ->
  (forall s', shape s' = sh <| sh_entries ::= hm_set k (f e) |> -> Q tt s') ->
  wp (set_entry k f) Q s.
Proof.
  intros Hs Hk HQ. unfold set_entry. wp_step. eapply wp_entry; [done..|].
  intros Hp. wp_step. apply HQ. by subst sh.
Qed.

Lemma wp_multiSubscriber k x (Q : MultiSubscriberData -> LSImpl J -> Prop) s sh :
  shape s = sh -> hm_at (sh_multis sh) k = Some x ->
  (forall d, hm_at (m_multiSubscribers s) k = Some d -> multi_shape d = x -> Q d s) ->
  wp (multiSubscriber k) Q s.
Proof.
  intros <- Hk HQ. simpl in Hk. rewrite hm_at_map in Hk. apply fmap_Some in Hk as (d & Hd & ->).
  unfold multiSubscriber. repeat wp_step; [done|]. by apply HQ.
Qed.

Lemma wp_set_multiSubscriber_frame k f x (Q : unit -> LSImpl J -> Prop) s sh :
  shape s = sh -> hm_at (sh_multis sh) k = Some x ->
  (forall d, multi_shape (f d) = multi_shape d) ->
  (forall s', shape s' = sh -> Q tt s') ->
  wp (set_multiSubscriber k f) Q s.
Proof.
  intros Hs Hk Hf HQ. unfold set_multiSubscriber. wp_step.
  eapply wp_multiSubscriber; [done..|]. intros d Hd Hds. wp_step. apply HQ.
  rewrite <- Hs. unfold shape, fupd. cbn. by rewrite (hm_map_set_same _ _ _ d) by auto.
Qed.

Lemma wp_datalogger k d (Q : DataLoggerData -> LSImpl J -> Prop) s sh :
  shape s = sh -> hm_at (sh_loggers sh) k = Some d -> Q d s -> wp (datalogger k) Q s.
Proof. intros <- Hk HQ. unfold datalogger. by repeat wp_step. Qed.

Lemma wp_listener h l (Q : ListenerData -> LSImpl J -> Prop) s sh :
  shape s = sh -> sh_listeners sh !! h = Some l -> Q l s -> wp (listener h) Q s.
Proof. intros <- Hk HQ. unfold listener. by repeat wp_step. Qed.

Lemma wp_emit o (Q : unit -> LSImpl J -> Prop) s sh :
  shape s = sh -> (forall s', shape s' = sh -> Q tt s') -> wp (emit o) Q s.
Proof. intros Hs HQ. unfold emit. wp_step. by apply HQ. Qed.

Lemma wp_Now (Q : Z -> LSImpl J -> Prop) s sh :
  shape s = sh -> (forall n s', shape s' = sh -> Q n s') -> wp Now Q s.
Proof. intros Hs HQ. unfold Now. repeat wp_step. by apply HQ. Qed.

Lemma wp_frames {A} (m : M (LSImpl J) A) (Q : A -> LSImpl J -> Prop) s sh :
  frames m sh -> shape s = sh -> (forall a s', shape s' = sh -> Q a s') -> wp m Q s.
Proof. intros Hm Hs HQ. eapply wp_mono; [by apply Hm|]. auto. Qed.

Lemma frames_for_each {X} (l : list X) (body : X -> M (LSImpl J) unit) sh :
  (forall x, x ∈ l -> frames (body x) sh) -> frames (for_each l body) sh.
Proof.
  intros Hb s Hs. apply (wp_for_each_inv _ _ (fun s => shape s = sh)); [done| |done].
  intros x s' Hx Hs'. by apply Hb.
Qed.

Lemma frames_when b (m : M (LSImpl J) unit) sh :
  (b = true -> frames m sh) -> frames (when b m) sh.
Proof. intros Hm s Hs. apply wp_when; [|done]. intros Hb. by apply Hm. Qed.
End Frames.

(** One step through an operation: facts about the shape are found in the context. *)
Ltac ls_step :=
  lazymatch goal with
  | |- wp (topic _) _ _ => eapply wp_topic; [eassumption|eassumption|intros ? ? ?]
  | |- wp (publisher _) _ _ => eapply wp_publisher; [eassumption|eassumption|intros ?]
  | |- wp (subscriber _) _ _ => eapply wp_subscriber; [eassumption|eassumption|intros ? ? ?]
  | |- wp (entry _) _ _ => eapply wp_entry; [eassumption|eassumption|intros ?]
  | |- wp (multiSubscriber _) _ _ =>
      eapply wp_multiSubscriber; [eassumption|eassumption|intros ? ? ?]
  | |- wp (datalogger _) _ _ => eapply wp_datalogger; [eassumption|eassumption|]
  | |- wp (listener _) _ _ => eapply wp_listener; [eassumption|eassumption|]
  | |- wp (emit _) _ _ => eapply wp_emit; [eassumption|intros ? ?]
  | |- wp Now _ _ => eapply wp_Now; [eassumption|intros ? ? ?]
  | |- wp (set_topic _ _) _ _ =>
      eapply wp_set_topic_frame; [eassumption|eassumption|by intros|intros ? ?]
  | |- wp (set_multiSubscriber _ _) _ _ =>
      eapply wp_set_multiSubscriber_frame; [eassumption|eassumption|by intros|intros ? ?]
  | |- wp (set_subscriber _ _) _ _ =>
      eapply wp_set_subscriber_frame; [eassumption|eassumption|by intros|intros ? ?]
  | |- wp (when _ _) _ _ => apply wp_when; intros ?
  | |- wp _ _ _ => wp_step
  end; cbn beta iota;
  try lazymatch goal with |- wp _ _ _ => fail | |- _ => eassumption end.

(** ** Notifications *)

Section Notify.
Context {J : Type} `{Json J} `{Env} (sh : Shape) (HS : Struct sh).
Implicit Types (s : LSImpl J).

Lemma frames_Append e v : frames (J := J) (Append e v) sh.
Proof. intros s Hs. unfold Append. by repeat ls_step. Qed.

Lemma frames_DataLogger_Start d t now : frames (J := J) (DataLogger_Start d t now) sh.
Proof. intros s Hs. unfold DataLogger_Start. by repeat ls_step. Qed.

Lemma frames_collect_listeners l name special :
  (forall h, h ∈ l -> is_Some (sh_listeners sh !! h)) ->
  frames (J := J) (collect_listeners l name special) sh.
Proof using HS.
  induction l as [|h l IH]; intros Hl s Hs; simpl; [by ls_step|].
  destruct (Hl h) as [d Hd]; [by left|]. ls_step. ls_step. ls_step.
  eapply (wp_mono _ (fun _ s' => shape s' = sh)).
  - ls_step; [|by ls_step].
    destruct (lo_multi _ _ _ (st_listener sh HS h d Hd) n) as [x Hx]; [done|].
    by repeat ls_step.
  - intros b s' Hs'. ls_step. eapply wp_frames; [apply IH; set_solver|done|].
    intros. by ls_step.
Qed.

Lemma frames_NotifyDatalogger i ts flags now k :
  hm_at (sh_topics sh) i = Some ts -> k ∈ hm_live (sh_loggers sh) ->
  frames (J := J) (NotifyDatalogger i flags now k) sh.
Proof.
  intros Hi [d Hd]%elem_of_hm_live s Hs. unfold NotifyDatalogger.
  ls_step. ls_step. ls_step. ls_step. ls_step. ls_step.
  - destruct p as [n e]. by repeat ls_step.
  - ls_step. ls_step. eapply wp_frames; [apply frames_DataLogger_Start|done|].
    intros e s' Hs'. by repeat ls_step.
Qed.

Lemma frames_NotifyTopic i ts flags :
  hm_at (sh_topics sh) i = Some ts -> frames (J := J) (NotifyTopic i flags) sh.
Proof using HS.
  intros Hi s Hs. unfold NotifyTopic. ls_step. ls_step. ls_step.
  eapply (wp_frames _ _ _ sh); [apply frames_when; intros _ s0 Hs0; by ls_step|done|].
  intros _ s1 Hs1. ls_step. ls_step. ls_step.
  eapply (wp_frames _ _ _ sh); [|done|].
  { apply frames_collect_listeners. intros h Hh. apply (st_prefix sh HS).
    by rewrite <- Hs1. }
  intros ls s2 Hs2. ls_step.
  eapply (wp_frames _ _ _ sh); [apply frames_when; intros _ s0 Hs0; by ls_step|done|].
  intros _ s3 Hs3. ls_step.
  - ls_step. ls_step. ls_step. ls_step. ls_step. apply frames_for_each; [|done].
    intros k Hk. eapply frames_NotifyDatalogger; [done|]. by rewrite <- Hs3.
  - ls_step. apply frames_for_each; [|done]. intros e _ s4 Hs4. by ls_step.
Qed.

(** The queue of a subscriber stays well formed. *)
Lemma sub_shape_push d v ss k :
  hm_at (sh_subs sh) k = Some ss -> sub_shape d = ss ->
  sub_shape (d <| s_pollStorage ::= cb_push_back v |>) = sub_shape d.
Proof using HS.
  intros Hk <-. pose proof (st_queue sh HS _ _ Hk) as Hq. unfold sub_shape, fupd in *.
  cbn in *. destruct (decide (cb_ok (s_pollStorage d))) as [Hok|]; [|done].
  rewrite decide_True by (by apply cb_push_back_ok). by rewrite capacity_push_back.
Qed.

Lemma sub_shape_reset d ss k :
  hm_at (sh_subs sh) k = Some ss -> sub_shape d = ss ->
  sub_shape (d <| s_pollStorage ::= cb_reset |>) = sub_shape d.
Proof using HS.
  intros Hk <-. pose proof (st_queue sh HS _ _ Hk) as Hq. unfold sub_shape, fupd in *.
  cbn in *. destruct (decide (cb_ok (s_pollStorage d))) as [Hok|]; [|done].
  by rewrite decide_True by (by apply cb_reset_ok).
Qed.

Lemma frames_NotifySubscriber i ts flags dup pub k ss :
  hm_at (sh_topics sh) i = Some ts -> hm_at (sh_subs sh) k = Some ss ->
  (forall p, pub = Some p -> is_Some (hm_at (sh_pubs sh) p)) ->
  frames (J := J) (NotifySubscriber i flags dup pub k) sh.
Proof using HS.
  intros Hi Hk Hp s Hs. unfold NotifySubscriber. ls_step. ls_step. ls_step; [|by ls_step].
  ls_step. eapply (wp_mono _ (fun _ s' => shape s' = sh)).
  { destruct pub as [p|]; [|by ls_step]. destruct (Hp p) as [d' Hd']; [done|].
    by repeat ls_step. }
  intros b s1 Hs1. ls_step. ls_step. ls_step. ls_step.
  eapply wp_set_subscriber_frame; [done..| |].
  { intros d' _ Hd'. by eapply sub_shape_push. }
  intros s2 Hs2. by repeat ls_step.
Qed.

Lemma frames_NotifyMultiSubscriber i ts flags dup k x :
  hm_at (sh_topics sh) i = Some ts -> hm_at (sh_multis sh) k = Some x ->
  frames (J := J) (NotifyMultiSubscriber i flags dup k) sh.
Proof. intros Hi Hk s Hs. unfold NotifyMultiSubscriber. by repeat ls_step. Qed.

Lemma frames_NotifyValue i ts flags dup pub :
  hm_at (sh_topics sh) i = Some ts ->
  (forall p, pub = Some p -> is_Some (hm_at (sh_pubs sh) p)) ->
  frames (J := J) (NotifyValue i flags dup pub) sh.
Proof using HS.
  intros Hi Hp s Hs. unfold NotifyValue. ls_step. ls_step. subst ts. ls_step.
  eapply (wp_frames _ _ _ sh); [|done|].
  - apply frames_for_each. intros k Hk.
    destruct (lk_list _ _ _ _ (st_subs sh HS) i _ k Hi Hk) as (ss & Hss & _).
    by eapply frames_NotifySubscriber.
  - intros _ s1 Hs1. apply frames_for_each; [|done]. intros k Hk.
    apply (mo_match _ _ (st_multis sh HS i _ Hi)) in Hk as (x & Hx & _).
    by eapply frames_NotifyMultiSubscriber.
Qed.

(** ** Properties *)

Lemma topic_shape_flag key bit (t : TopicData J) :
  topic_shape (flag_of_property key bit t) = topic_shape t.
Proof.
  unfold flag_of_property. destruct (_ !! key) as [v|]; [|done].
  by destruct (j_get_bool v) as [[]|].
Qed.

Lemma frames_PropertiesUpdated i ts update flags send upd :
  hm_at (sh_topics sh) i = Some ts ->
  frames (J := J) (PropertiesUpdated i update flags send upd) sh.
Proof using HS.
  intros Hi s Hs. unfold PropertiesUpdated. ls_step.
  eapply (wp_frames _ _ _ sh); [apply frames_when; intros _ s0 Hs0|done|].
  { eapply wp_set_topic_frame; [done..| |done]. intros t _ _. by rewrite !topic_shape_flag. }
  intros _ s1 Hs1. ls_step. ls_step. ls_step.
  eapply (wp_frames _ _ _ sh); [by eapply frames_NotifyTopic|done|].
  intros _ s2 Hs2. by repeat ls_step.
Qed.

Lemma frames_SetFlags i ts flags :
  hm_at (sh_topics sh) i = Some ts -> frames (J := J) (SetFlags i flags) sh.
Proof using HS.
  intros Hi s Hs. unfold SetFlags. ls_step. ls_step. ls_step.
  by eapply frames_PropertiesUpdated.
Qed.
Lemma frames_SetPersistent i ts value :
  hm_at (sh_topics sh) i = Some ts -> frames (J := J) (SetPersistent i value) sh.
Proof using HS.
  intros Hi s Hs. unfold SetPersistent. ls_step. ls_step. by eapply frames_PropertiesUpdated.
Qed.
Lemma frames_SetRetained i ts value :
  hm_at (sh_topics sh) i = Some ts -> frames (J := J) (SetRetained i value) sh.
Proof using HS.
  intros Hi s Hs. unfold SetRetained. ls_step. ls_step. by eapply frames_PropertiesUpdated.
Qed.
Lemma frames_SetProperties i ts update send :
  hm_at (sh_topics sh) i = Some ts -> frames (J := J) (SetProperties i update send) sh.
Proof using HS.
  intros Hi s Hs. unfold SetProperties. destruct update; [by ls_step| |by ls_step].
  ls_step. ls_step. by eapply frames_PropertiesUpdated.
Qed.
End Notify.

(** * LocalTyped: changes of the object graph that preserve its typing

    The typing part of the invariant under the changes of a topic's type, its
    presence on the network, and its publishers. *)

Local Open Scope nat_scope.

(** [Typed] but for the existence of an active publisher of topic [i]. *)
Record TypedL (i : nat) (sh : Shape) : Prop := {
  tl_exists : forall j t, hm_at (sh_topics sh) j = Some t -> ts_exists t = true ->
    ts_type t <> NT_UNASSIGNED;
  tl_config : forall k p, hm_at (sh_pubs sh) k = Some p -> c_type (p_config p) <> NT_UNASSIGNED;
  tl_active : forall k p t, hm_at (sh_pubs sh) k = Some p ->
    hm_at (sh_topics sh) (p_topic p) = Some t ->
    p_active p = pub_active (p_config p) (ts_type t) (ts_typeStr t);
  tl_local : forall j t, j <> i -> hm_at (sh_topics sh) j = Some t -> ts_onNetwork t = false ->
    ts_pubs t <> [] ->
    exists k p, k ∈ ts_pubs t /\ hm_at (sh_pubs sh) k = Some p /\ p_active p = true;
}.

(** [Typed] but for topic [i] and its publishers. *)
Record TypedX (i : nat) (sh : Shape) : Prop := {
  tx_exists : forall j t, j <> i -> hm_at (sh_topics sh) j = Some t -> ts_exists t = true ->
    ts_type t <> NT_UNASSIGNED;
  tx_config : forall k p, hm_at (sh_pubs sh) k = Some p -> c_type (p_config p) <> NT_UNASSIGNED;
  tx_active : forall k p t, p_topic p <> i -> hm_at (sh_pubs sh) k = Some p ->
    hm_at (sh_topics sh) (p_topic p) = Some t ->
    p_active p = pub_active (p_config p) (ts_type t) (ts_typeStr t);
  tx_local : forall j t, j <> i -> hm_at (sh_topics sh) j = Some t -> ts_onNetwork t = false ->
    ts_pubs t <> [] ->
    exists k p, k ∈ ts_pubs t /\ hm_at (sh_pubs sh) k = Some p /\ p_active p = true;
}.

Lemma Typed_L i sh : Typed sh -> TypedL i sh.
Proof. intros [? ? ? ?]. split; eauto. Qed.
Lemma TypedL_X i sh : TypedL i sh -> TypedX i sh.
Proof. intros [? ? ? ?]. split; eauto. Qed.

(** What is known of topics and publishers other than those of [i] carries over. *)
Lemma TypedX_change i sh sh' :
  TypedX i sh ->
  (forall j, j <> i -> hm_at (sh_topics sh') j = hm_at (sh_topics sh) j) ->
  (forall k p, hm_at (sh_pubs sh') k = Some p -> p_topic p <> i -> hm_at (sh_pubs sh) k = Some p) ->
  (forall k p, hm_at (sh_pubs sh) k = Some p -> p_topic p <> i -> hm_at (sh_pubs sh') k = Some p) ->
  (forall k p, hm_at (sh_pubs sh') k = Some p -> p_topic p = i ->
     c_type (p_config p) <> NT_UNASSIGNED) ->
  linked ts_pubs p_topic (sh_topics sh) (sh_pubs sh) ->
  TypedX i sh'.
Proof.
  intros [He Hc Ha Hl] Ht Hp Hp' Hci Hlk. split.
  - intros j t Hj. rewrite Ht by done. by apply He.
  - intros k p Hk. destruct (decide (p_topic p = i)); [by eapply Hci|by eapply Hc, Hp].
  - intros k p t Hne Hk. rewrite Ht by done. by eapply Ha; [|apply Hp].
  - intros j t Hj. rewrite Ht by done. intros Hjt Hn Hne.
    destruct (Hl j t Hj Hjt Hn Hne) as (k & p & Hk & Hkp & Hact). exists k, p.
    split_and!; [done| |done]. apply Hp'; [done|].
    destruct (lk_list _ _ _ _ Hlk j t k Hjt Hk) as (p' & Hp0 & <-). congruence.
Qed.

(** [sh'] is [sh] with the publishers of topic [i] updated to its type. *)
Definition refresh_pub (i : nat) (ts : TopicShape) (p : PublisherData) : PublisherData :=
  if decide (p_topic p = i)
  then p <| p_active := pub_active (p_config p) (ts_type ts) (ts_typeStr ts) |> else p.

Record refreshed (i : nat) (ts : TopicShape) (sh sh' : Shape) : Prop := {
  rf_shape : sh' = sh <| sh_pubs := sh_pubs sh' |>;
  rf_pubs : forall k, hm_at (sh_pubs sh') k = refresh_pub i ts <$> hm_at (sh_pubs sh) k;
}.

Lemma p_topic_refresh i ts p : p_topic (refresh_pub i ts p) = p_topic p.
Proof. unfold refresh_pub. by case_decide. Qed.
Lemma p_config_refresh i ts p : p_config (refresh_pub i ts p) = p_config p.
Proof. unfold refresh_pub. by case_decide. Qed.

Lemma Typed_refreshed i ts sh sh' :
  TypedX i sh -> linked ts_pubs p_topic (sh_topics sh) (sh_pubs sh) ->
  hm_at (sh_topics sh) i = Some ts -> refreshed i ts sh sh' ->
  (ts_exists ts = true -> ts_type ts <> NT_UNASSIGNED) ->
  (ts_onNetwork ts = false -> ts_pubs ts <> [] ->
     exists k p, k ∈ ts_pubs ts /\ hm_at (sh_pubs sh) k = Some p /\
       pub_active (p_config p) (ts_type ts) (ts_typeStr ts) = true) ->
  Typed sh'.
Proof.
  intros HX Hlk Hi [Hsh Hp] Hex Hloc.
  assert (Ht : sh_topics sh' = sh_topics sh) by (by rewrite Hsh).
  assert (Hp1 : forall k p, hm_at (sh_pubs sh') k = Some p ->
    exists q, hm_at (sh_pubs sh) k = Some q /\ p = refresh_pub i ts q).
  { intros k p. rewrite Hp, fmap_Some. naive_solver. }
  destruct HX as [He Hc Ha Hl]. split.
  - intros j t. rewrite Ht. destruct (decide (j = i)) as [->|]; [|by apply He].
    rewrite Hi. intros [= <-]. done.
  - intros k p (q & Hq & ->)%Hp1. rewrite p_config_refresh. eauto.
  - intros k p t (q & Hq & ->)%Hp1. rewrite p_topic_refresh, p_config_refresh, Ht.
    unfold refresh_pub. case_decide as E; [|by eapply Ha]. rewrite E, Hi. by intros [= <-].
  - intros j t. rewrite Ht. destruct (decide (j = i)) as [->|Hj].
    + rewrite Hi. intros [= <-] Hn Hne. destruct (Hloc Hn Hne) as (k & p & Hk & Hkp & Hact).
      exists k, (refresh_pub i ts p). rewrite Hp, Hkp. split_and!; [done..|].
      destruct (lk_list _ _ _ _ Hlk i ts k Hi Hk) as (q & Hq & Eq).
      unfold refresh_pub. rewrite decide_True by congruence. done.
    + intros Hjt Hn Hne. destruct (Hl j t Hj Hjt Hn Hne) as (k & p & Hk & Hkp & Hact).
      exists k, p. rewrite Hp, Hkp. split_and!; [done| |done]. simpl.
      destruct (lk_list _ _ _ _ Hlk j t k Hjt Hk) as (q & Hq & Eq).
      unfold refresh_pub. rewrite decide_False by congruence. done.
Qed.

(** [EntryPub] depends on the entries and on the topics of the publishers. *)
Lemma EntryPub_keep sh sh' :
  EntryPub sh -> sh_entries sh' = sh_entries sh ->
  (forall k p, hm_at (sh_pubs sh) k = Some p ->
     exists p', hm_at (sh_pubs sh') k = Some p' /\ p_topic p' = p_topic p) ->
  EntryPub sh'.
Proof.
  intros [Hl Hi] He Hp. split; rewrite He; [|done].
  intros k e p Hk Hep. destruct (Hl k e p Hk Hep) as (d & Hd & Ed).
  destruct (Hp p d Hd) as (d' & Hd' & Ed'). exists d'. split; [done|congruence].
Qed.

(** The typing part does not see subscribers, entries and multi-subscribers. *)
Lemma Typed_keep sh sh' :
  Typed sh -> linked ts_pubs p_topic (sh_topics sh) (sh_pubs sh) ->
  sh_pubs sh' = sh_pubs sh ->
  (forall i t', hm_at (sh_topics sh') i = Some t' ->
     (hm_at (sh_topics sh) i = None /\ ts_pubs t' = [] /\ ts_onNetwork t' = false) \/
     exists t, hm_at (sh_topics sh) i = Some t /\ ts_type t' = ts_type t /\
       ts_typeStr t' = ts_typeStr t /\ ts_onNetwork t' = ts_onNetwork t /\
       ts_pubs t' = ts_pubs t) ->
  Typed sh'.
Proof.
  intros [He Hc Ha Hl] Hlk Hp Ht. split.
  - intros i t' [(_ & Hps & Hn)|(t & Hi & Ety & _ & En & Eps)]%Ht; unfold ts_exists.
    + by rewrite Hps, Hn.
    + rewrite En, Eps, Ety. by apply (He i).
  - rewrite Hp. done.
  - rewrite Hp. intros k p t' Hk [(Hnone & _)|(t & Hi & -> & -> & _)]%Ht; [|by eapply Ha].
    destruct (lk_obj _ _ _ _ Hlk k p Hk) as (u & Hu & _). congruence.
  - rewrite Hp. intros i t' [(_ & Hps & Hn)|(t & Hi & _ & _ & En & Eps)]%Ht; [by rewrite Hps|].
    rewrite En, Eps. by apply (Hl i).
Qed.

(** A topic that does not exist may take any type. *)
Lemma Typed_no_publisher i sh t t' :
  TypedX i sh -> linked ts_pubs p_topic (sh_topics sh) (sh_pubs sh) ->
  hm_at (sh_topics sh) i = Some t -> ts_pubs t = [] -> ts_pubs t' = [] ->
  ts_onNetwork t' = false -> Typed (sh <| sh_topics ::= hm_set i t' |>).
Proof.
  intros [He Hc Ha Hl] Hlk Hi Hps Hps' Hn. split; unfold fupd; cbn.
  - intros j u. rewrite hm_at_set by done. case_decide; [|by apply He].
    intros [= <-]. unfold ts_exists. by rewrite Hps', Hn.
  - done.
  - intros k p u Hk. rewrite hm_at_set by done. case_decide as E; [|by eapply Ha].
    destruct (lk_obj _ _ _ _ Hlk k p Hk) as (v & Hv & Hin). subst i.
    rewrite Hi in Hv. injection Hv as <-. rewrite Hps in Hin. by apply not_elem_of_nil in Hin.
  - intros j u. rewrite hm_at_set by done. case_decide; [|by apply Hl].
    intros [= <-]. done.
Qed.

(** A topic goes on or off the network without a change of type. *)
Lemma Typed_onNetwork i sh t t' :
  TypedL i sh -> hm_at (sh_topics sh) i = Some t ->
  ts_type t' = ts_type t -> ts_typeStr t' = ts_typeStr t -> ts_pubs t' = ts_pubs t ->
  (ts_exists t' = true -> ts_type t' <> NT_UNASSIGNED) ->
  TypedL i (sh <| sh_topics ::= hm_set i t' |>).
Proof.
  intros [He Hc Ha Hl] Hi Ety Est Eps Hex. split; unfold fupd; cbn.
  - intros j u. rewrite hm_at_set by done. case_decide; [|by apply He]. by intros [= <-].
  - done.
  - intros k p u Hk. rewrite hm_at_set by done. case_decide as E; [|by eapply Ha].
    intros [= <-]. rewrite Ety, Est. eapply Ha; [done|]. congruence.
  - intros j u Hj. rewrite hm_at_set, decide_False by done. by apply Hl.
Qed.

Lemma TypedL_Typed i sh t :
  TypedL i sh -> hm_at (sh_topics sh) i = Some t ->
  (ts_onNetwork t = false -> ts_pubs t <> [] ->
   exists k p, k ∈ ts_pubs t /\ hm_at (sh_pubs sh) k = Some p /\ p_active p = true) ->
  Typed sh.
Proof.
  intros [He Hc Ha Hl] Hi Hloc. split; try done.
  intros j u Hj. destruct (decide (j = i)) as [->|]; [|by eapply Hl].
  rewrite Hi in Hj. by injection Hj as <-.
Qed.

(** Adding a publisher to a topic that exists; its activity is computed. *)
Lemma TypedL_add_pub i sh k p m t t' :
  Typed sh -> linked ts_pubs p_topic (sh_topics sh) (sh_pubs sh) ->
  hm_at (sh_pubs sh) k = None ->
  (forall j, hm_at m j = if decide (k = j) then Some p else hm_at (sh_pubs sh) j) ->
  p_topic p = i -> hm_at (sh_topics sh) i = Some t -> t' = t <| ts_pubs ::= vs_Add k |> ->
  c_type (p_config p) <> NT_UNASSIGNED ->
  TypedX i (sh <| sh_pubs := m |> <| sh_topics ::= hm_set i t' |>) /\
  (ts_exists t = true -> p_active p = pub_active (p_config p) (ts_type t) (ts_typeStr t) ->
   Typed (sh <| sh_pubs := m |> <| sh_topics ::= hm_set i t' |>)).
Proof.
  intros HT Hlk Hk Hat Ept Hi -> Hcfg. split.
  - eapply (TypedX_change i sh); [by apply TypedL_X, Typed_L|..]; unfold fupd; cbn; try done.
    + intros j Hj. by rewrite hm_at_set, decide_False by done.
    + intros j q. rewrite Hat. case_decide; [naive_solver|done].
    + intros j q Hj. by rewrite Hat, decide_False by congruence.
    + intros j q. rewrite Hat. case_decide; [by intros [= <-]|]. intros Hj _.
      by eapply (ty_config sh).
  - intros Hex Hact. destruct HT as [He Hc Ha Hl]. split; unfold fupd; cbn.
    + intros j u. rewrite hm_at_set by done. case_decide; [|by apply He].
      intros [= <-] _. cbn. by eapply He.
    + intros j q. rewrite Hat. case_decide; [by intros [= <-]|apply Hc].
    + intros j q u. rewrite Hat, hm_at_set by done. case_decide as Ej.
      { intros [= <-]. rewrite decide_True by done. by intros [= <-]. }
      case_decide as Eq; [|by apply Ha]. intros Hq [= <-]. cbn. eapply Ha; [done|congruence].
    + intros j u. rewrite hm_at_set by done.
      assert (Hold : forall j' v, hm_at (sh_topics sh) j' = Some v -> ts_onNetwork v = false ->
        ts_pubs v <> [] -> exists k' q, k' ∈ ts_pubs v /\ hm_at m k' = Some q /\ p_active q = true).
      { intros j' v Hj' Hn Hne. destruct (Hl j' v Hj' Hn Hne) as (k' & q & ? & Hq & ?).
        exists k', q. rewrite Hat, decide_False by congruence. done. }
      case_decide; [|by apply Hold]. intros [= <-] Hn _. cbn in *.
      destruct (Hold i t Hi Hn) as (k' & q & ? & ? & ?).
      { unfold ts_exists in Hex. rewrite Hn in Hex. by destruct (ts_pubs t). }
      exists k', q. unfold vs_Add. set_solver.
Qed.

(** Removing a publisher *)
Lemma TypedL_remove_pub i sh k p m t t' :
  Typed sh -> hm_at (sh_pubs sh) k = Some p ->
  (forall j, hm_at m j = if decide (k = j) then None else hm_at (sh_pubs sh) j) ->
  p_topic p = i -> linked ts_pubs p_topic (sh_topics sh) (sh_pubs sh) ->
  hm_at (sh_topics sh) i = Some t -> t' = t <| ts_pubs ::= vs_Remove k |> ->
  TypedL i (sh <| sh_pubs := m |> <| sh_topics ::= hm_set i t' |>) /\
  (p_active p = false -> Typed (sh <| sh_pubs := m |> <| sh_topics ::= hm_set i t' |>)).
Proof.
  intros HT Hk Hat Ept Hlk Hi ->. pose proof HT as [He Hc Ha Hl].
  assert (Hm : forall j q, hm_at m j = Some q -> hm_at (sh_pubs sh) j = Some q).
  { intros j q. rewrite Hat. by case_decide. }
  assert (HTL : TypedL i (sh <| sh_pubs := m |>
    <| sh_topics ::= hm_set i (t <| ts_pubs ::= vs_Remove k |>) |>)).
  { split; unfold fupd; cbn.
    - intros j u. rewrite hm_at_set by done. case_decide; [|by apply He].
      intros [= <-] Hx. cbn. eapply He; [done|]. unfold ts_exists in *. cbn in Hx.
      destruct (ts_onNetwork t); [done|]. simpl in *. by destruct (ts_pubs t).
    - intros j q Hq. eauto.
    - intros j q u Hq. rewrite hm_at_set by done. case_decide; [|by eapply Ha, Hm].
      intros [= <-]. cbn. eapply Ha; [by apply Hm|]. congruence.
    - intros j u Hj. rewrite hm_at_set, decide_False by done. intros Hu Hn Hne.
      destruct (Hl j u Hu Hn Hne) as (k' & q & Hk' & Hq & ?). exists k', q.
      split_and!; [done| |done]. rewrite Hat, decide_False; [done|]. intros <-.
      destruct (lk_list _ _ _ _ Hlk j u k Hu Hk') as (q' & Hq' & ?). congruence. }
  split; [done|]. intros Hina. eapply (TypedL_Typed i); [done|unfold fupd; cbn; by rewrite hm_at_set, decide_True by done|].
  cbn. intros Hn Hne. destruct (Hl i t Hi Hn) as (k' & q & Hk' & Hq & Hact).
  { intros E. apply Hne. unfold vs_Remove. by rewrite E. }
  exists k', q. unfold vs_Remove. rewrite list_elem_of_filter, Hat, decide_False by congruence.
  split_and!; try done. congruence.
Qed.

(** The test for a change of type is the negation of activity. *)
Lemma mismatch_active c type typeStr :
  negb (type_is (c_type c) type) || negb (String.eqb (c_typeStr c) typeStr)
  = negb (pub_active c type typeStr).
Proof. unfold pub_active. by rewrite negb_andb. Qed.

Lemma pub_active_self c : pub_active c (c_type c) (c_typeStr c) = true.
Proof. unfold pub_active, type_is. by rewrite bool_decide_eq_true_2, String.eqb_refl. Qed.
