(* ===== verification/LocalInv.v ===== *)
(** * LocalInv: the local storage operations preserve the invariant

    Every operation is free of undefined behaviour in a state that satisfies the
    invariant, and leads to such a state again. *)

From S2P Require Import Prelude NtTypes CircularBuffer Handles Monads LocalTypes LocalStorage.
From S2P Require Import LocalShape LocalFrames.
Local Open Scope Z_scope.

Definition Good (sh : Shape) : Prop := Struct sh /\ EntryPub sh /\ Typed sh.

(** [sh'] is [sh] with other types of topics and activity of publishers. *)
Record retypes (sh sh' : Shape) : Prop := {
  rt_shape : sh' = sh <| sh_topics := sh_topics sh' |> <| sh_pubs := sh_pubs sh' |>;
  rt_topics : forall i t, hm_at (sh_topics sh) i = Some t ->
    exists t', hm_at (sh_topics sh') i = Some t' /\ retyped t t';
  rt_pubs : forall k p, hm_at (sh_pubs sh) k = Some p ->
    exists p', hm_at (sh_pubs sh') k = Some p' /\ p_handle p' = p_handle p /\
      p_topic p' = p_topic p /\ p_config p' = p_config p;
}.

#[global] Instance retypes_preorder : PreOrder retypes.
Proof.
  split.
  - intros sh. split; [by destruct sh| |by eauto].
    intros i t Ht. exists t. split; [done|]. by destruct t.
  - intros a b c [Sab Tab Pab] [Sbc Tbc Pbc]. split.
    + rewrite Sbc, Sab. done.
    + intros i t (t1 & H1 & R1)%Tab. destruct (Tbc i t1 H1) as (t2 & H2 & R2).
      exists t2. split; [done|]. unfold retyped in *. rewrite R2, R1. done.
    + intros k p (p1 & H1 & E1 & E1' & E1'')%Pab.
      destruct (Pbc k p1 H1) as (p2 & H2 & E2 & E2' & E2''). exists p2.
      split_and!; [done|congruence..].
Qed.

Lemma EntryPub_retypes sh sh' : EntryPub sh -> retypes sh sh' -> EntryPub sh'.
Proof.
  intros He [Hs _ Hp]. eapply EntryPub_keep; [done|by rewrite Hs|].
  intros k p (p' & ? & _ & ? & _)%Hp. eauto.
Qed.

Lemma retypes_topic sh i t t' :
  hm_at (sh_topics sh) i = Some t -> retyped t t' ->
  retypes sh (sh <| sh_topics ::= hm_set i t' |>).
Proof.
  intros Hi Hr. split; unfold fupd; cbn; [by destruct sh| |by eauto].
  intros j u Hj. rewrite hm_at_set by done. case_decide; [|exists u; split; [done|by destruct u]].
  exists t'. subst. rewrite Hi in Hj. by injection Hj as <-.
Qed.

Lemma refreshed_retypes i ts sh sh' : refreshed i ts sh sh' -> retypes sh sh'.
Proof.
  intros [Hs Hp]. split.
  - assert (Ht : sh_topics sh' = sh_topics sh) by (by rewrite Hs).
    rewrite Hs at 1. unfold fupd. cbn. by rewrite Ht.
  - intros j t Hj. exists t. rewrite Hs. split; [done|by destruct t].
  - intros k p Hk. exists (refresh_pub i ts p). rewrite Hp, Hk. split; [done|].
    unfold refresh_pub. by case_decide.
Qed.

Section Inv.
Context {J : Type} `{Json J} `{Env}.
Implicit Types (s : LSImpl J) (sh : Shape).

(** ** Types and activity *)

Lemma wp_Publisher_UpdateActive k p ts (Q : unit -> LSImpl J -> Prop) s sh :
  shape s = sh -> hm_at (sh_pubs sh) k = Some p -> hm_at (sh_topics sh) (p_topic p) = Some ts ->
  (forall s', shape s' = sh <| sh_pubs ::= hm_set k
     (p <| p_active := pub_active (p_config p) (ts_type ts) (ts_typeStr ts) |>) |> -> Q tt s') ->
  wp (Publisher_UpdateActive k) Q s.
Proof.
  intros Hs Hk Ht HQ. unfold Publisher_UpdateActive. repeat ls_step. subst ts.
  eapply wp_set_publisher; [done..|]. intros s' Hs'. by apply HQ.
Qed.

Lemma frames_Subscriber_UpdateActive k sh :
  Struct sh -> is_Some (hm_at (sh_subs sh) k) -> frames (J := J) (Subscriber_UpdateActive k) sh.
Proof.
  intros HS [ss Hk] s Hs. unfold Subscriber_UpdateActive. ls_step. ls_step. subst ss.
  destruct (lk_obj _ _ _ _ (st_subs sh HS) _ _ Hk) as (ts & Hts & _). cbn in Hts.
  by repeat ls_step.
Qed.

(** The invariant of the loop over the publishers *)
Definition refreshing (i : nat) (ts : TopicShape) (sh : Shape) (dn : list nat) s : Prop :=
  exists sh', shape s = sh' /\ Struct sh' /\ sh' = sh <| sh_pubs := sh_pubs sh' |> /\
    forall k, hm_at (sh_pubs sh') k =
      (if decide (k ∈ dn) then refresh_pub i ts else id) <$> hm_at (sh_pubs sh) k.

Lemma wp_refresh_publishers i ts sh s :
  Struct sh -> hm_at (sh_topics sh) i = Some ts -> shape s = sh ->
  wp (for_each (ts_pubs ts) (Publisher_UpdateActive (J := J)))
    (fun _ => refreshing i ts sh (ts_pubs ts)) s.
Proof.
  intros HS Hi Hs. apply (wp_for_each _ _ (refreshing i ts sh)); [| |done].
  - exists sh. split_and!; [done|done|by destruct sh|]. intros k.
    rewrite decide_False by apply not_elem_of_nil. by destruct (hm_at _ k).
  - intros dn k rest s' Hl (sh1 & Hs1 & HS1 & E1 & Hp1).
    assert (Hin : k ∈ ts_pubs ts) by (rewrite Hl; set_solver).
    assert (Hnd : k ∉ dn).
    { pose proof (lk_nodup _ _ _ _ (st_pubs sh HS) i ts Hi) as Hn. rewrite Hl in Hn.
      apply NoDup_app in Hn as (_ & Hn & _). intros Hk. apply (Hn k Hk). left. }
    destruct (lk_list _ _ _ _ (st_pubs sh HS) i ts k Hi Hin) as (p & Hk & Ept).
    assert (Hk1 : hm_at (sh_pubs sh1) k = Some p) by (by rewrite Hp1, decide_False, Hk by done).
    eapply wp_Publisher_UpdateActive; [done|done|rewrite E1, Ept; done|].
    intros s2 Hs2. exists (shape s2). split; [done|]. rewrite Hs2. split_and!.
    + by eapply Struct_pub.
    + rewrite E1. done.
    + intros j. unfold fupd. cbn. rewrite hm_at_set by done. case_decide as E.
      * subst j. rewrite decide_True by set_solver. rewrite Hk. simpl.
        unfold refresh_pub. by rewrite decide_True by done.
      * rewrite Hp1. repeat case_decide; try done; set_solver.
Qed.

Lemma wp_RefreshPubSubActive i ts sh s :
  Struct sh -> hm_at (sh_topics sh) i = Some ts -> shape s = sh ->
  wp (RefreshPubSubActive (J := J) i)
    (fun _ s' => Struct (shape s') /\ refreshed i ts sh (shape s')) s.
Proof.
  intros HS Hi Hs. unfold RefreshPubSubActive. ls_step. ls_step. subst ts. ls_step.
  eapply wp_mono; [by apply (wp_refresh_publishers i (topic_shape t) sh)|].
  intros _ s1 (sh1 & Hs1 & HS1 & E1 & Hp1). eapply (wp_frames _ _ _ sh1); [|done|].
  - apply frames_for_each. intros k Hk. apply frames_Subscriber_UpdateActive; [done|].
    assert (Hk' : k ∈ ts_subs (topic_shape t)) by done. rewrite E1. cbn.
    destruct (lk_list _ _ _ _ (st_subs sh HS) i _ k Hi Hk') as (d & -> & _). done.
  - intros _ s2 ->. split; [done|]. split; [done|]. intros k. rewrite Hp1.
    case_decide as Hk; [done|]. destruct (hm_at (sh_pubs sh) k) as [p|] eqn:Ep; [|done].
    simpl. unfold refresh_pub. rewrite decide_False; [done|]. intros E.
    destruct (lk_obj _ _ _ _ (st_pubs sh HS) k p Ep) as (u & Hu & Hin).
    rewrite E, Hi in Hu. injection Hu as <-. done.
Qed.

Lemma wp_CheckReset i ts (Q : unit -> LSImpl J -> Prop) s sh :
  shape s = sh -> hm_at (sh_topics sh) i = Some ts -> ts_exists ts = false ->
  (forall s', shape s' = sh <| sh_topics ::= hm_set i
     (ts <| ts_type := NT_UNASSIGNED |> <| ts_typeStr := EmptyString |>) |> -> Q tt s') ->
  wp (CheckReset i) Q s.
Proof.
  intros Hs Hi Hx HQ. unfold CheckReset. ls_step. ls_step.
  assert (Ex : Exists t = false) by (by subst ts). rewrite Ex.
  eapply wp_set_topic; [done..| |exact HQ]. by intros t' _ <-.
Qed.

(** The topic [i] has been given another type; refreshing restores the typing. *)
Lemma wp_retype_refresh i ts t' sh s :
  Struct sh -> TypedX i sh -> hm_at (sh_topics sh) i = Some ts -> retyped ts t' ->
  (ts_exists t' = true -> ts_type t' <> NT_UNASSIGNED) ->
  (ts_onNetwork t' = false -> ts_pubs t' <> [] ->
     exists k p, k ∈ ts_pubs t' /\ hm_at (sh_pubs sh) k = Some p /\
       pub_active (p_config p) (ts_type t') (ts_typeStr t') = true) ->
  shape s = sh <| sh_topics ::= hm_set i t' |> ->
  wp (RefreshPubSubActive (J := J) i)
    (fun _ s' => Struct (shape s') /\ Typed (shape s') /\ retypes sh (shape s')) s.
Proof.
  intros HS HX Hi Hr Hex Hloc Hs.
  assert (Hi1 : hm_at (sh_topics (shape s)) i = Some t').
  { rewrite Hs. unfold fupd. cbn. by rewrite hm_at_set, decide_True by done. }
  assert (HS1 : Struct (shape s)) by (rewrite Hs; by eapply Struct_retype).
  eapply wp_mono; [by apply (wp_RefreshPubSubActive i t' (shape s))|].
  intros _ s2 [HS2 Hrf]. split_and!; [done| |].
  - apply (Typed_refreshed i t' (shape s)); [|apply HS1|done|done|done|by rewrite Hs].
    apply (TypedX_change i sh); [done|..]; rewrite ?Hs; unfold fupd; cbn; try done.
    + intros j Hj. by rewrite hm_at_set, decide_False by done.
    + intros j q Hq _. by eapply (tx_config _ _ HX).
    + apply HS.
  - etrans; [by apply (retypes_topic sh i ts t')|]. rewrite <- Hs. by eapply refreshed_retypes.
Qed.

(** If the topic has publishers and is not on the network, one of them is active
    afterwards. *)
Lemma wp_NextPublisher i ts sh s :
  Struct sh -> TypedL i sh -> hm_at (sh_topics sh) i = Some ts -> shape s = sh ->
  wp (NextPublisher (J := J) i)
    (fun _ s' => Struct (shape s') /\ Typed (shape s') /\ retypes sh (shape s')) s.
Proof.
  intros HS HT Hi Hs. unfold NextPublisher. ls_step. ls_step. subst ts.
  destruct (t_localPublishers t) as [|k l] eqn:El.
  { ls_step. rewrite Hs. split_and!; [done| |reflexivity]. eapply TypedL_Typed; [done..|].
    cbn. by rewrite El. }
  assert (Hin : k ∈ ts_pubs (topic_shape t)) by (cbn; rewrite El; left).
  destruct (lk_list _ _ _ _ (st_pubs sh HS) i _ k Hi Hin) as (p & Hk & Ept).
  assert (Hi' : hm_at (sh_topics sh) (p_topic p) = Some (topic_shape t)) by (by rewrite Ept).
  ls_step. ls_step. cbn zeta. rewrite mismatch_active. ls_step.
  2: { rewrite Hs. split_and!; [done| |reflexivity]. eapply TypedL_Typed; [done..|].
    intros _ _. exists k, p. split_and!; [done..|]. rewrite (tl_active _ _ HT k p _ Hk Hi').
    by apply negb_false_iff. }
  set (t' := topic_shape t <| ts_type := c_type (p_config p) |>
                           <| ts_typeStr := c_typeStr (p_config p) |>).
  assert (Hr : retyped (topic_shape t) t') by done.
  ls_step. eapply (wp_set_topic _ _ _ t'); [done..|intros u _ Eu; unfold t'; by rewrite <- Eu|].
  intros s1 Hs1. ls_step. eapply wp_mono.
  { apply (wp_retype_refresh i (topic_shape t) t' sh); try done; [by apply TypedL_X|..].
    - intros _. by apply (tl_config _ _ HT k p).
    - intros _ _. exists k, p. split_and!; [done..|apply pub_active_self]. }
  intros _ s2 (HS2 & HT2 & Hrt).
  eapply (wp_mono _ (fun _ s' => shape s' = shape s2)); [|by intros _ s3 ->].
  destruct (rt_pubs _ _ Hrt k p Hk) as (p2 & Hk2 & _).
  destruct (rt_topics _ _ Hrt i _ Hi) as (t2 & Hi2 & _).
  assert (Hs2 : shape s2 = shape s2) by done. by repeat ls_step.
Qed.

Lemma Exists_shape (t : TopicData J) : Exists t = ts_exists (topic_shape t).
Proof. done. Qed.

Lemma ts_exists_false ts : ts_exists ts = false -> ts_pubs ts = [] /\ ts_onNetwork ts = false.
Proof. unfold ts_exists. destruct (ts_onNetwork ts), (ts_pubs ts); naive_solver. Qed.

(** A topic that ceases to exist is reset and its listeners are notified. *)
Lemma wp_unpublished i ts sh s :
  Struct sh -> TypedL i sh -> hm_at (sh_topics sh) i = Some ts -> ts_exists ts = false ->
  shape s = sh ->
  wp (CheckReset i ;; NotifyTopic (J := J) i NT_EVENT_UNPUBLISH)
    (fun _ s' => Struct (shape s') /\ Typed (shape s') /\ retypes sh (shape s')) s.
Proof.
  intros HS HT Hi Hx Hs. apply ts_exists_false in Hx as Hx'. destruct Hx' as [Hps Hn].
  set (t' := ts <| ts_type := NT_UNASSIGNED |> <| ts_typeStr := EmptyString |>).
  assert (Hr : retyped ts t') by done.
  ls_step. eapply wp_CheckReset; [done..|]. intros s1 Hs1. fold t' in Hs1.
  assert (HS1 : Struct (sh <| sh_topics ::= hm_set i t' |>)) by (by eapply Struct_retype).
  eapply wp_frames; [|exact Hs1|].
  - eapply (frames_NotifyTopic _ HS1 i t'). unfold fupd. cbn.
    by rewrite hm_at_set, decide_True by done.
  - intros _ s2 ->. split_and!; [done| |by eapply retypes_topic].
    eapply Typed_no_publisher; [by apply TypedL_X|apply HS|done..].
Qed.

Lemma wp_RemoveNetworkPublisher i ts sh s :
  Good sh -> hm_at (sh_topics sh) i = Some ts -> shape s = sh ->
  wp (RemoveNetworkPublisher (J := J) i)
    (fun _ s' => Good (shape s') /\ retypes sh (shape s')) s.
Proof.
  intros (HS & HE & HT) Hi Hs. unfold RemoveNetworkPublisher. ls_step. ls_step. ls_step.
  set (t' := ts <| ts_onNetwork := false |>).
  assert (Hr : retyped ts t') by (by destruct ts).
  eapply (wp_set_topic _ _ _ t'); [done..|by intros u _ <-|]. intros s1 Hs1.
  set (sh1 := sh <| sh_topics ::= hm_set i t' |>) in Hs1.
  assert (Hi1 : hm_at (sh_topics sh1) i = Some t').
  { unfold sh1, fupd. cbn. by rewrite hm_at_set, decide_True by done. }
  assert (HS1 : Struct sh1) by (by eapply Struct_retype).
  assert (Hrt1 : retypes sh sh1) by (by eapply retypes_topic).
  assert (HT1 : TypedL i sh1).
  { eapply Typed_onNetwork; [by apply Typed_L|done..|]. intros Hx. eapply (ty_exists _ HT i ts Hi).
    unfold ts_exists in *. cbn in Hx. rewrite Hx. apply orb_true_r. }
  ls_step. ls_step. ls_step.
  eapply (wp_mono _ (fun _ s' => Struct (shape s') /\ TypedL i (shape s') /\ retypes sh (shape s'))).
  - ls_step; [|by rewrite Hs1]. revert select (_ && _ = true).
    rewrite !Exists_shape, H4. intros [_ Hx%negb_true_iff]%andb_true_iff.
    eapply wp_mono; [by apply (wp_unpublished i t' sh1)|].
    intros _ s2 (? & ? & ?). split_and!; [done|by apply Typed_L|by etrans].
  - intros _ s2 (HS2 & HT2 & Hrt2). destruct (rt_topics _ _ Hrt2 i ts Hi) as (t2 & Hi2 & _).
    eapply wp_mono; [by apply (wp_NextPublisher i t2 (shape s2))|].
    intros _ s3 (HS3 & HT3 & Hrt3). assert (retypes sh (shape s3)) by (by etrans).
    split; [|done]. split_and!; [done| |done]. by eapply EntryPub_retypes.
Qed.

Lemma Good_same sh s :
  Struct sh -> EntryPub sh -> Typed sh -> shape s = sh ->
  Good (shape s) /\ retypes sh (shape s).
Proof. intros ? ? ? ->. by split. Qed.

Lemma StringToType_assigned typeStr : StringToType typeStr <> NT_UNASSIGNED.
Proof. unfold StringToType. by repeat case_match. Qed.

Lemma TypedX_set i t' sh :
  TypedX i sh -> linked ts_pubs p_topic (sh_topics sh) (sh_pubs sh) ->
  is_Some (hm_at (sh_topics sh) i) ->
  TypedX i (sh <| sh_topics ::= hm_set i t' |>).
Proof.
  intros HX Hl Hi. apply (TypedX_change i sh); unfold fupd; cbn; try done.
  - intros j Hj. by rewrite hm_at_set, decide_False by done.
  - intros k p Hk _. by eapply (tx_config _ _ HX).
Qed.

Lemma wp_NetworkAnnounce_topic i ts typeStr properties pub sh s :
  Good sh -> hm_at (sh_topics sh) i = Some ts -> shape s = sh ->
  wp (NetworkAnnounce_topic (J := J) i typeStr properties pub)
    (fun _ s' => Good (shape s') /\ retypes sh (shape s')) s.
Proof.
  intros (HS & HE & HT) Hi Hs. unfold NetworkAnnounce_topic. ls_step.
  { ls_step. by apply Good_same. }
  ls_step. ls_step. ls_step.
  set (t' := ts <| ts_onNetwork := true |>).
  assert (Hr : retyped ts t') by (by destruct ts).
  eapply (wp_set_topic _ _ _ t'); [done..|by intros u _ <-|]. intros s1 Hs1.
  set (sh1 := sh <| sh_topics ::= hm_set i t' |>) in Hs1.
  assert (Hi1 : hm_at (sh_topics sh1) i = Some t').
  { unfold sh1, fupd. cbn. by rewrite hm_at_set, decide_True by done. }
  assert (HS1 : Struct sh1) by (by eapply Struct_retype).
  assert (Hrt1 : retypes sh sh1) by (by eapply retypes_topic).
  ls_step.
  eapply (wp_mono _ (fun _ s' => Struct (shape s') /\ Typed (shape s') /\ retypes sh (shape s'))).
  - ls_step.
    + ls_step. set (t2 := t' <| ts_type := StringToType typeStr |> <| ts_typeStr := typeStr |>).
      eapply (wp_set_topic _ _ _ t2); [done..|intros u _ Eu; unfold t2; by rewrite <- Eu|].
      intros s2 Hs2. eapply wp_mono.
      * apply (wp_retype_refresh i t' t2 sh1); try done.
        -- apply TypedX_set; [by apply TypedL_X, Typed_L|apply HS|done].
        -- intros _. apply StringToType_assigned.
      * intros _ s3 (? & ? & ?). split_and!; [done..|by etrans].
    + rewrite Hs1. split_and!; [done| |done]. revert select (_ || _ = false).
      intros [Et%negb_false_iff%bool_decide_eq_true_1 _]%orb_false_iff.
      eapply TypedL_Typed; [|done|done]. eapply Typed_onNetwork; [by apply Typed_L|done..|].
      intros _. unfold t'. subst ts. cbn. rewrite Et. apply StringToType_assigned.
  - intros _ s2 (HS2 & HT2 & Hrt2). destruct (rt_topics _ _ Hrt2 i ts Hi) as (t2 & Hi2 & _).
    eapply (wp_mono _ (fun _ s' => shape s' = shape s2)).
    + assert (Hs2 : shape s2 = shape s2) by done. ls_step.
      * ls_step. ls_step. by eapply frames_PropertiesUpdated.
      * ls_step. by eapply frames_NotifyTopic.
    + intros _ s3 ->. split; [|done]. split_and!; [done| |done]. by eapply EntryPub_retypes.
Qed.

(** ** Values *)

Definition pub_live sh (pub : option nat) : Prop :=
  forall p, pub = Some p -> is_Some (hm_at (sh_pubs sh) p).

Lemma wp_SetValue i ts value flags dup pub sh s :
  Good sh -> hm_at (sh_topics sh) i = Some ts -> pub_live sh pub -> shape s = sh ->
  wp (SetValue (J := J) i value flags dup pub)
    (fun _ s' => Good (shape s') /\ retypes sh (shape s')) s.
Proof.
  intros (HS & HE & HT) Hi Hp Hs. unfold SetValue. ls_step. ls_step. ls_step.
  { ls_step. by apply Good_same. }
  ls_step. eapply (wp_mono _ (fun _ s' => Good (shape s') /\ retypes sh (shape s'))).
  - ls_step; [|by apply Good_same].
    set (t' := ts <| ts_type := value_type value |>).
    assert (Hr : retyped ts t') by (by destruct ts).
    ls_step. eapply (wp_set_topic _ _ _ t'); [done..|by intros u _ <-|]. intros s1 Hs1.
    set (sh1 := sh <| sh_topics ::= hm_set i t' |>) in Hs1.
    assert (Hi1 : hm_at (sh_topics sh1) i = Some t').
    { unfold sh1, fupd. cbn. by rewrite hm_at_set, decide_True by done. }
    assert (HS1 : Struct sh1) by (by eapply Struct_retype).
    assert (Hrt1 : retypes sh sh1) by (by eapply retypes_topic).
    eapply wp_frames; [by eapply (frames_NotifyValue sh1 HS1 i t')|done|].
    intros _ s2 ->. split; [|done]. split_and!; [done|by eapply EntryPub_retypes|].
    subst ts. revert select (_ && _ = false).
    intros [Hu|Hu]%andb_false_iff; apply negb_false_iff, bool_decide_eq_true_1 in Hu.
    + assert (Hx : ts_exists (topic_shape t) = false).
      { destruct (ts_exists (topic_shape t)) eqn:Ex; [|done].
        by destruct (ty_exists _ HT i _ Hi Ex). }
      apply ts_exists_false in Hx as [Hps Hn].
      eapply Typed_no_publisher; [by apply TypedL_X, Typed_L|apply HS|done..].
    + assert (t' = topic_shape t) as Et by (unfold t'; rewrite <- Hu; by destruct t).
      unfold sh1. rewrite Et. eapply (Typed_keep sh); [done|apply HS|done|].
      intros j u. unfold fupd. cbn. rewrite hm_at_set by done. case_decide; [|by eauto 10].
      intros [= <-]. subst. right. eauto 10.
  - intros _ s1 [HG1 Hrt1]. destruct (rt_topics _ _ Hrt1 i ts Hi) as (t1 & Hi1 & _).
    eapply (wp_mono _ (fun _ s' => shape s' = shape s1)); [|by intros _ s2 ->].
    assert (Hs1 : shape s1 = shape s1) by done. ls_step. ls_step. ls_step.
    ls_step; [|by ls_step].
    eapply (wp_frames _ _ _ (shape s1)); [|done|intros; by ls_step].
    apply frames_for_each. intros e _. apply frames_Append.
Qed.

(** ** Publishers *)

(** What adding a publisher leaves in place *)
Record keeps sh sh' : Prop := {
  kp_inst : sh_inst sh' = sh_inst sh;
  kp_topics : forall i, is_Some (hm_at (sh_topics sh) i) -> is_Some (hm_at (sh_topics sh') i);
  kp_pubs : forall k p, hm_at (sh_pubs sh) k = Some p ->
    exists p', hm_at (sh_pubs sh') k = Some p' /\ p_topic p' = p_topic p;
  kp_subs : sh_subs sh' = sh_subs sh;
  kp_entries : sh_entries sh' = sh_entries sh;
}.

Lemma wp_add_publisher mk (Q : nat -> LSImpl J -> Prop) s sh :
  Struct sh -> shape s = sh -> room (sh_pubs sh) -> (forall h, p_handle (mk h) = h) ->
  (forall k p m s', table (sh_inst sh) kPublisher p_handle m -> hm_at (sh_pubs sh) k = None ->
     (exists h, p = mk h) ->
     (forall j, hm_at m j = if decide (k = j) then Some p else hm_at (sh_pubs sh) j) ->
     shape s' = sh <| sh_pubs := m |> -> Q k s') ->
  wp (add_publisher mk) Q s.
Proof.
  intros HS Hs Hroom Hmk HQ. unfold add_publisher. ls_step. ls_step.
  destruct (hm_Add kPublisher kReuse (m_inst s) mk (m_publishers s)) as [k m] eqn:Ea.
  assert (Ei : sh_inst sh = m_inst s) by (by subst sh).
  destruct (table_Add (sh_inst sh) kPublisher p_handle (sh_pubs sh) kReuse mk k m)
    as (Ht & Hk & Hat); [apply HS|done|by rewrite Ei; subst sh|done|].
  repeat ls_step. eapply HQ; [done|done|by eexists|done|]. by subst sh.
Qed.

(** The two branches of [AddLocalPublisher]: the topic existed, or it takes the type
    of the new publisher. *)
Section AddLocalPublisher.
Context (i : nat) (ts : TopicShape) (config : PubSubConfig) (sh : Shape).
Context (k : nat) (p : PublisherData) (m : HandleMap PublisherData).
Hypothesis HS : Struct sh.
Hypothesis HT : Typed sh.
Hypothesis Hi : hm_at (sh_topics sh) i = Some ts.
Hypothesis Htab : table (sh_inst sh) kPublisher p_handle m.
Hypothesis Hk : hm_at (sh_pubs sh) k = None.
Hypothesis Hp : exists h, p = PublisherData_make i config h.
Hypothesis Hat : forall j, hm_at m j = if decide (k = j) then Some p else hm_at (sh_pubs sh) j.
Hypothesis Hcfg : c_type config <> NT_UNASSIGNED.

Let t1 : TopicShape := ts <| ts_pubs ::= vs_Add k |>.
Let sh1 : Shape := sh <| sh_pubs := m |> <| sh_topics ::= hm_set i t1 |>.

Lemma added_topic : hm_at (sh_topics sh1) i = Some t1.
Proof using Hi. unfold sh1, fupd. cbn. by rewrite hm_at_set, decide_True by done. Qed.

Lemma added_pub : hm_at (sh_pubs sh1) k = Some p.
Proof using Hat. unfold sh1, fupd. cbn. by rewrite Hat, decide_True by done. Qed.

Lemma added_Struct : Struct sh1.
Proof using HS Hi Htab Hk Hp Hat.
  destruct Hp as [h Eh]. assert (Ei : p_topic p = i) by (by rewrite Eh).
  unfold sh1. rewrite <- Ei. eapply Struct_add_pub; try done. by rewrite Ei.
Qed.

Lemma wp_add_existing s :
  ts_exists ts = true -> shape s = sh1 ->
  wp (Publisher_UpdateActive (J := J) k)
    (fun _ s' => Struct (shape s') /\ Typed (shape s') /\ retypes sh1 (shape s')) s.
Proof using HS HT Hi Htab Hk Hp Hat Hcfg.
  intros Hx Hs. destruct Hp as [h Eh]. assert (Ei : p_topic p = i) by (by rewrite Eh).
  eapply wp_Publisher_UpdateActive; [done|apply added_pub|rewrite Ei; apply added_topic|].
  intros s' Hs'. rewrite Hs'.
  set (p' := p <| p_active := pub_active (p_config p) (ts_type t1) (ts_typeStr t1) |>).
  split_and!.
  - by eapply Struct_pub; [apply added_Struct|apply added_pub|..].
  - eapply (TypedL_add_pub i sh k p' (hm_set k p' m)); try done.
    + apply HS.
    + intros j. rewrite hm_at_set; [|by rewrite Hat, decide_True by done].
      rewrite Hat. by repeat case_decide.
    + unfold p', fupd. cbn. by rewrite Eh.
  - split; unfold fupd; cbn; [done| |].
    + intros j t Hj. exists t. split; [done|]. by destruct t.
    + intros j q Hj. rewrite hm_at_set; [|by rewrite Hat, decide_True by done].
      case_decide as E; [|by eauto]. subst j. rewrite Hat, decide_True in Hj by done.
      injection Hj as <-. eauto.
Qed.

Lemma wp_add_first s :
  shape s = sh1 <| sh_topics ::= hm_set i
    (t1 <| ts_type := c_type config |> <| ts_typeStr := c_typeStr config |>) |> ->
  wp (RefreshPubSubActive (J := J) i)
    (fun _ s' => Struct (shape s') /\ Typed (shape s') /\ retypes sh1 (shape s')) s.
Proof using HS HT Hi Htab Hk Hp Hat Hcfg.
  intros Hs. destruct Hp as [h Eh]. eapply wp_retype_refresh; [apply added_Struct| |apply added_topic|..|exact Hs].
  - eapply (TypedL_add_pub i sh k p m); try done; [apply HS|by rewrite Eh|by rewrite Eh].
  - done.
  - done.
  - intros _ _. exists k, p. cbn. split_and!; [unfold vs_Add; set_solver|apply added_pub|].
    rewrite Eh. apply pub_active_self.
Qed.
End AddLocalPublisher.

Lemma wp_AddLocalPublisher i ts properties config sh s :
  Struct sh -> Typed sh -> hm_at (sh_topics sh) i = Some ts -> room (sh_pubs sh) ->
  c_type config <> NT_UNASSIGNED -> shape s = sh ->
  wp (AddLocalPublisher (J := J) i properties config)
    (fun k s' => Struct (shape s') /\ Typed (shape s') /\ keeps sh (shape s') /\
       hm_at (sh_pubs sh) k = None /\
       exists p, hm_at (sh_pubs (shape s')) k = Some p /\ p_topic p = i) s.
Proof.
  intros HS HT Hi Hroom Hcfg Hs. unfold AddLocalPublisher. ls_step. ls_step. ls_step.
  eapply wp_add_publisher; [done..|]. intros k p m s1 Htab Hk Hp Hat Hs1. ls_step.
  pose proof (added_topic i ts sh k m Hi) as Hi1. pose proof (added_pub i ts sh k p m Hat) as Hk1.
  pose proof (added_Struct i ts config sh k p m HS Hi Htab Hk Hp Hat) as HS1.
  set (t1 := ts <| ts_pubs ::= vs_Add k |>) in *.
  set (sh1 := sh <| sh_pubs := m |> <| sh_topics ::= hm_set i t1 |>) in *.
  eapply (wp_set_topic i _ ts t1); [done..|by intros u _ <-|]. intros s2 Hs2. ls_step.
  eapply (wp_mono _ (fun _ s' => Struct (shape s') /\ Typed (shape s') /\ retypes sh1 (shape s'))).
  - rewrite Exists_shape. replace (topic_shape t) with ts by done.
    destruct (ts_exists ts) eqn:Hx; [by eapply wp_add_existing|]. ls_step.
    eapply (wp_set_topic i _ t1
      (t1 <| ts_type := c_type config |> <| ts_typeStr := c_typeStr config |>));
      [exact Hs2|done|intros u _ Eu; by rewrite <- Eu|].
    intros s3 Hs3. ls_step. eapply wp_mono; [by apply (wp_add_first i ts config sh k p m)|].
    intros _ s4 (HS4 & HT4 & Hrt4). destruct (rt_topics _ _ Hrt4 i _ Hi1) as (t4 & Hi4 & _).
    eapply (wp_mono _ (fun _ s' => shape s' = shape s4)); [|by intros _ s5 ->].
    assert (Hs4 : shape s4 = shape s4) by done. ls_step. ls_step.
    destruct (size _ =? 0)%nat; [by eapply frames_NotifyTopic|by eapply frames_PropertiesUpdated].
  - intros _ s3 (HS3 & HT3 & Hrt3). destruct (rt_topics _ _ Hrt3 i _ Hi1) as (t3 & Hi3 & _).
    destruct (rt_pubs _ _ Hrt3 k _ Hk1) as (p3 & Hk3 & _ & Ep3 & _).
    eapply (wp_mono _ (fun r s' => r = k /\ shape s' = shape s3)).
    { assert (Hs3 : shape s3 = shape s3) by done. ls_step. ls_step. ls_step. ls_step. ls_step.
      ls_step. ls_step. by repeat ls_step. }
    intros r s4 [-> ->]. split_and!; [done..| |done|].
    + destruct Hrt3 as [Esh Htp Hpb]. split; try (rewrite Esh; done).
      * intros j Hj. destruct (hm_at (sh_topics sh1) j) as [u|] eqn:Eu.
        -- destruct (Htp j u Eu) as (u' & -> & _). done.
        -- unfold sh1, fupd in Eu. cbn in Eu. rewrite hm_at_set in Eu by done.
           case_decide; [done|]. rewrite Eu in Hj. by destruct Hj.
      * intros j q Hj. destruct (Hpb j q) as (q' & Hq' & _ & ? & _); [|by eauto].
        unfold sh1, fupd. cbn. rewrite Hat, decide_False by congruence. done.
    + exists p3. split; [done|]. rewrite Ep3. by destruct Hp as [h ->].
Qed.

Lemma wp_remove_publisher h (Q : option (nat * PublisherData) -> LSImpl J -> Prop) s sh :
  Struct sh -> shape s = sh ->
  (hm_Get kPublisher h (sh_pubs sh) = None -> forall s', shape s' = sh -> Q None s') ->
  (forall k p m s', hm_Get kPublisher h (sh_pubs sh) = Some k -> hm_at (sh_pubs sh) k = Some p ->
     table (sh_inst sh) kPublisher p_handle m ->
     (forall j, hm_at m j = if decide (k = j) then None else hm_at (sh_pubs sh) j) ->
     shape s' = sh <| sh_pubs := m |> -> Q (Some (k, p)) s') ->
  wp (remove_publisher h) Q s.
Proof.
  intros HS Hs HN HQ. unfold remove_publisher. ls_step. ls_step.
  destruct (hm_Remove kPublisher h (m_publishers s)) as [o m] eqn:Er.
  assert (Ep : sh_pubs sh = m_publishers s) by (by subst sh).
  destruct (table_Remove _ _ _ (sh_pubs sh) h o m (st_p sh HS)) as [Htab Ho]; [by rewrite Ep|].
  ls_step. ls_step. ls_step. rewrite <- Ep. destruct o as [p|]; cbn [mbind option_bind].
  - destruct Ho as (k & Hg & -> & Hk & Hat). cbn [mbind option_bind]. eapply HQ; [done..|]. by subst sh.
  - destruct Ho as [-> Hg]. apply HN; [done|]. by subst sh.
Qed.

(** What removing publisher [k] leaves in place *)
Record dropped_pub (k : nat) sh sh' : Prop := {
  dp_topics : forall i, is_Some (hm_at (sh_topics sh) i) -> is_Some (hm_at (sh_topics sh') i);
  dp_pubs : forall j p, j <> k -> hm_at (sh_pubs sh) j = Some p ->
    exists p', hm_at (sh_pubs sh') j = Some p' /\ p_topic p' = p_topic p;
  dp_entries : sh_entries sh' = sh_entries sh;
}.

Lemma wp_RemoveLocalPublisher h sh s :
  Struct sh -> Typed sh -> shape s = sh ->
  wp (RemoveLocalPublisher (J := J) h)
    (fun _ s' => Struct (shape s') /\ Typed (shape s') /\
       match hm_Get kPublisher h (sh_pubs sh) with
       | Some k => dropped_pub k sh (shape s')
       | None => shape s' = sh
       end) s.
Proof.
  intros HS HT Hs. unfold RemoveLocalPublisher. ls_step.
  eapply wp_remove_publisher; [done..| |].
  { intros Hg s1 Hs1. ls_step. by rewrite Hg, Hs1. }
  intros k p m s1 Hg Hk Htab Hat Hs1. rewrite Hg. cbn zeta.
  destruct (lk_obj _ _ _ _ (st_pubs sh HS) k p Hk) as (ts & Hi & Hin).
  set (i := p_topic p) in *. set (t1 := ts <| ts_pubs ::= vs_Remove k |>).
  set (sh1 := sh <| sh_pubs := m |> <| sh_topics ::= hm_set i t1 |>).
  assert (Hi1 : hm_at (sh_topics sh1) i = Some t1).
  { unfold sh1, fupd. cbn. by rewrite hm_at_set, decide_True by done. }
  assert (HS1 : Struct sh1) by (by eapply Struct_remove_pub).
  destruct (TypedL_remove_pub i sh k p m ts t1 HT Hk Hat eq_refl (st_pubs sh HS) Hi eq_refl)
    as [HT1 HT1'].
  ls_step. ls_step. ls_step.
  eapply (wp_set_topic i _ ts t1); [done..|by intros u _ <-|]. intros s2 Hs2. fold sh1 in Hs2.
  ls_step. ls_step. ls_step.
  eapply (wp_mono _ (fun _ s' => Struct (shape s') /\ TypedL i (shape s') /\
    (p_active p = false -> Typed (shape s')) /\ retypes sh1 (shape s'))).
  - ls_step; [|by rewrite Hs2]. revert select (_ && _ = true).
    rewrite !Exists_shape, H4. intros [_ Hx%negb_true_iff]%andb_true_iff.
    eapply wp_mono; [by apply (wp_unpublished i t1 sh1)|].
    intros _ s3 (? & ? & ?). split_and!; [done|by apply Typed_L|done|done].
  - intros _ s3 (HS3 & HT3 & HT3' & Hrt3). destruct (rt_topics _ _ Hrt3 i _ Hi1) as (t3 & Hi3 & _).
    eapply (wp_mono _ (fun _ s' => Struct (shape s') /\ Typed (shape s') /\
      retypes sh1 (shape s'))).
    + assert (Hs3 : shape s3 = shape s3) by done. ls_step. ls_step. ls_step. ls_step. ls_step.
      eapply (wp_frames _ _ _ (shape s3)); [apply frames_when; intros _ s0 Hs0; by ls_step|done|].
      intros _ s4 Hs4. ls_step; [|rewrite Hs4; auto].
      eapply wp_mono; [by apply (wp_NextPublisher i t3 (shape s3))|].
      intros _ s5 (? & ? & ?). split_and!; [done..|by etrans].
    + intros _ s4 (HS4 & HT4 & [Esh Htp Hpb]). split_and!; [done..|]. split; [..|by rewrite Esh].
      * intros j Hj. destruct (hm_at (sh_topics sh1) j) as [u|] eqn:Eu.
        -- destruct (Htp j u Eu) as (u' & -> & _). done.
        -- unfold sh1, fupd in Eu. cbn in Eu. rewrite hm_at_set in Eu by done.
           case_decide; [done|]. rewrite Eu in Hj. by destruct Hj.
      * intros j q Hne Hj. destruct (Hpb j q) as (q' & Hq' & _ & ? & _); [|by eauto].
        unfold sh1, fupd. cbn. rewrite Hat, decide_False by congruence. done.
Qed.
End Inv.
