(* ===== verification/LocalObjects.v ===== *)
(** * LocalObjects: subscribers, entries, topics and listeners

    The operations that add and remove the other objects of the local storage
    preserve the invariant. *)

From S2P Require Import Prelude NtTypes CircularBuffer Handles Monads LocalTypes LocalStorage.
From S2P Require Import LocalShape LocalFrames LocalInv.
Local Open Scope Z_scope.

(** The graph changes in the lists of subscribers, entries and multi-subscribers of
    topics only, as far as typing and publishers of entries are concerned. *)
Definition same_typing (t t' : TopicShape) : Prop :=
  ts_type t' = ts_type t /\ ts_typeStr t' = ts_typeStr t /\
  ts_onNetwork t' = ts_onNetwork t /\ ts_pubs t' = ts_pubs t.

Lemma Typed_set_lists sh sh' i t t' :
  Typed sh -> Struct sh -> sh_pubs sh' = sh_pubs sh ->
  sh_topics sh' = hm_set i t' (sh_topics sh) -> hm_at (sh_topics sh) i = Some t ->
  same_typing t t' -> Typed sh'.
Proof.
  intros HT HS Hp Ht Hi Hsame. eapply Typed_keep; [done|apply HS|done|].
  intros j u. rewrite Ht, hm_at_set by done. case_decide; intros Hj; right.
  - injection Hj as <-. subst. exists t. split; [done|apply Hsame].
  - exists u. done.
Qed.

Lemma set_topic_live (ts : HandleMap TopicShape) i t' j :
  is_Some (hm_at ts i) -> is_Some (hm_at ts j) -> is_Some (hm_at (hm_set i t' ts) j).
Proof. intros Hi Hj. rewrite hm_at_set by done. by case_decide. Qed.

Section Objects.
Context {J : Type} `{Json J} `{Env}.
Implicit Types (s : LSImpl J) (sh : Shape).

Lemma shape_listeners s f :
  shape (s <| m_listeners ::= f |>) = shape s <| sh_listeners ::= f |>.
Proof. done. Qed.
Lemma shape_prefix s f :
  shape (s <| m_topicPrefixListeners ::= f |>) = shape s <| sh_prefix ::= f |>.
Proof. done. Qed.
Lemma shape_names s f : shape (s <| m_nameTopics ::= f |>) = shape s <| sh_names ::= f |>.
Proof. done. Qed.

(** ** Subscribers *)

Lemma wp_add_subscriber mk (Q : nat -> LSImpl J -> Prop) s sh :
  Struct sh -> shape s = sh -> room (sh_subs sh) -> (forall h, s_handle (mk h) = h) ->
  (forall k d m s', table (sh_inst sh) kSubscriber sub_handle m -> hm_at (sh_subs sh) k = None ->
     (exists h, d = sub_shape (mk h)) ->
     (forall j, hm_at m j = if decide (k = j) then Some d else hm_at (sh_subs sh) j) ->
     shape s' = sh <| sh_subs := m |> -> Q k s') ->
  wp (add_subscriber mk) Q s.
Proof.
  intros HS Hs Hroom Hmk HQ. unfold add_subscriber. ls_step. ls_step.
  destruct (hm_Add kSubscriber kReuse (m_inst s) mk (m_subscribers s)) as [k m] eqn:Ea.
  assert (Ei : sh_inst sh = m_inst s) by (by subst sh).
  assert (Es : sh_subs sh = hm_map sub_shape (m_subscribers s)) by (by subst sh).
  destruct (table_Add (sh_inst sh) kSubscriber sub_handle (sh_subs sh) kReuse
    (fun h => sub_shape (mk h)) k (hm_map sub_shape m)) as (Ht & Hk & Hat);
    [apply HS|done|by rewrite Ei, Es, hm_Add_map, Ea|done|].
  repeat ls_step. eapply HQ; [done|done|by eexists|done|]. by subst sh.
Qed.

Lemma sub_queue_make i config h :
  sub_queue (sub_shape (SubscriberData_make i config h))
  = Some (Z.to_nat (sub_poll (sub_shape (SubscriberData_make i config h)))).
Proof.
  unfold sub_shape. cbn. rewrite decide_True by apply cb_make_ok.
  unfold capacity. cbn. by rewrite length_replicate.
Qed.

(** The new subscriber is not yet referred to. *)
Lemma wp_AddLocalSubscriber i ts config sh s :
  Good sh -> hm_at (sh_topics sh) i = Some ts -> room (sh_subs sh) -> shape s = sh ->
  wp (AddLocalSubscriber (J := J) i config)
    (fun k s' => Good (shape s') /\ hm_at (sh_subs sh) k = None /\
       (exists d, hm_at (sh_subs (shape s')) k = Some d /\ sub_topic d = i) /\
       sh_entries (shape s') = sh_entries sh /\ sh_listeners (shape s') = sh_listeners sh /\
       is_Some (hm_at (sh_topics (shape s')) i)) s.
Proof.
  intros (HS & HE & HT) Hi Hroom Hs. unfold AddLocalSubscriber. ls_step.
  eapply wp_add_subscriber; [done..|]. intros k d m s1 Htab Hk [h Ed] Hat Hs1.
  assert (Ei : sub_topic d = i) by (by rewrite Ed).
  set (t1 := ts <| ts_subs ::= vs_Add k |>).
  set (sh1 := sh <| sh_subs := m |> <| sh_topics ::= hm_set i t1 |>).
  assert (Hi1 : hm_at (sh_topics sh1) i = Some t1).
  { unfold sh1, fupd. cbn. by rewrite hm_at_set, decide_True by done. }
  assert (Hk1 : hm_at (sh_subs sh1) k = Some d).
  { unfold sh1, fupd. cbn. by rewrite Hat, decide_True by done. }
  assert (HS1 : Struct sh1).
  { unfold sh1. rewrite <- Ei. eapply Struct_add_sub; try done; [by rewrite Ei|].
    rewrite Ed. apply sub_queue_make. }
  ls_step. eapply (wp_set_topic i _ ts t1); [done..|by intros u _ <-|].
  intros s2 Hs2. fold sh1 in Hs2.
  eapply (wp_mono _ (fun r s' => r = k /\ shape s' = sh1)).
  - ls_step. eapply (wp_frames _ _ _ sh1); [by apply frames_Subscriber_UpdateActive|done|].
    intros _ s3 Hs3. ls_step. ls_step. ls_step. ls_step. ls_step. ls_step. ls_step.
    eapply (wp_frames _ _ _ sh1); [apply frames_when; intros _ s0 Hs0; by ls_step|done|].
    intros _ s4 Hs4. ls_step.
    eapply (wp_frames _ _ _ sh1); [apply frames_when; intros _ s0 Hs0|done|].
    + assert (Hq : forall d' v, sub_shape d' = d ->
        sub_shape (d' <| s_pollStorage ::= cb_push_back v |>) = sub_shape d').
      { intros d' v. by apply (sub_shape_push sh1 HS1 d' v d k). }
      ls_step; [|ls_step; [|by ls_step]]; ls_step;
        (eapply wp_set_subscriber_frame; [done..|by intros; apply Hq|]; intros s5 Hs5; by ls_step).
    + intros _ s5 Hs5. by ls_step.
  - intros r s3 [-> ->]. split_and!; try done.
    + split_and!; [done| |].
      * by eapply EntryPub_keep; [exact HE|done|eauto].
      * by eapply (Typed_set_lists sh sh1 i ts t1).
    + by exists d.
Qed.

Lemma wp_remove_subscriber h (Q : option (nat * SubscriberData) -> LSImpl J -> Prop) s sh :
  Struct sh -> shape s = sh ->
  (hm_Get kSubscriber h (sh_subs sh) = None -> forall s', shape s' = sh -> Q None s') ->
  (forall k d m s', hm_Get kSubscriber h (sh_subs sh) = Some k ->
     hm_at (sh_subs sh) k = Some (sub_shape d) ->
     table (sh_inst sh) kSubscriber sub_handle m ->
     (forall j, hm_at m j = if decide (k = j) then None else hm_at (sh_subs sh) j) ->
     shape s' = sh <| sh_subs := m |> -> Q (Some (k, d)) s') ->
  wp (remove_subscriber h) Q s.
Proof.
  intros HS Hs HN HQ. unfold remove_subscriber. ls_step. ls_step.
  destruct (hm_Remove kSubscriber h (m_subscribers s)) as [o m] eqn:Er.
  assert (Ep : sh_subs sh = hm_map sub_shape (m_subscribers s)) by (by subst sh).
  destruct (table_Remove _ _ _ (sh_subs sh) h (sub_shape <$> o) (hm_map sub_shape m) (st_s sh HS))
    as [Htab Ho]; [by rewrite Ep, hm_Remove_map, Er|].
  ls_step. ls_step. ls_step. destruct o as [d|]; cbn [mbind option_bind].
  - destruct Ho as (k & Hg & Hx & Hk & Hat). rewrite Ep, hm_index_map in Hx. rewrite Hx.
    cbn [mbind option_bind]. eapply HQ; [done..|]. by subst sh.
  - destruct Ho as [Em Hg]. apply HN; [done|]. subst sh. unfold shape, fupd. cbn. by rewrite Em.
Qed.

(** No entry uses the subscriber. *)
Definition sub_free sh (h : Z) : Prop :=
  forall k j e, hm_Get kSubscriber h (sh_subs sh) = Some k ->
    hm_at (sh_entries sh) j = Some e -> e_subscriber e <> k.

Lemma wp_RemoveLocalSubscriber h sh s :
  Good sh -> sub_free sh h -> shape s = sh ->
  wp (RemoveLocalSubscriber (J := J) h)
    (fun _ s' => Good (shape s') /\ sh_pubs (shape s') = sh_pubs sh /\
       sh_entries (shape s') = sh_entries sh /\ sh_multis (shape s') = sh_multis sh) s.
Proof.
  intros (HS & HE & HT) Hfree Hs. unfold RemoveLocalSubscriber. ls_step.
  eapply wp_remove_subscriber; [done..| |].
  { intros Hg s1 Hs1. ls_step. by rewrite Hs1. }
  intros k d m s1 Hg Hk Htab Hat Hs1.
  destruct (lk_obj _ _ _ _ (st_subs sh HS) k _ Hk) as (ts & Hi & Hin). cbn in Hi.
  set (t1 := ts <| ts_subs ::= vs_Remove k |>).
  set (sh1 := sh <| sh_subs := m |> <| sh_topics ::= hm_set (s_topic d) t1 |>
                 <| sh_listeners ::= fmap (forget_subscriber k) |>).
  assert (HS1 : Struct sh1).
  { eapply (Struct_remove_sub sh HS k (sub_shape d)); try done. intros j e. by eapply Hfree. }
  ls_step. eapply (wp_set_topic _ _ ts t1); [done..|by intros u _ <-|].
  intros s2 Hs2. ls_step. ls_step. ls_step. ls_step.
  eapply (wp_frames _ _ _ sh1); [apply frames_when; intros _ s0 Hs0; by ls_step| |].
  - by rewrite shape_listeners, Hs2.
  - intros _ s3 ->. split_and!; try done. split_and!; [done| |].
    + by eapply EntryPub_keep; [exact HE|done|eauto].
    + by eapply (Typed_set_lists sh sh1 (s_topic d) ts t1).
Qed.

(** ** Entries *)

(** New entries have no publisher. *)
Lemma EntryPub_entries sh sh' :
  EntryPub sh -> sh_pubs sh' = sh_pubs sh ->
  (forall k e, hm_at (sh_entries sh') k = Some e ->
     hm_at (sh_entries sh) k = Some e \/ e_publisher e = None) ->
  EntryPub sh'.
Proof.
  intros [Hl Hi] Hp He. split.
  - intros k e p Hk Hep. rewrite Hp. destruct (He k e Hk) as [Hk'|]; [by eapply Hl|congruence].
  - intros k k' e e' p Hk Hk' Hep Hep'.
    destruct (He k e Hk) as [?|]; [|congruence]. destruct (He k' e' Hk') as [?|]; [|congruence].
    by eapply Hi.
Qed.

Lemma wp_AddEntry k d sh s :
  Good sh -> hm_at (sh_subs sh) k = Some d -> room (sh_entries sh) ->
  (forall j e, hm_at (sh_entries sh) j = Some e -> e_subscriber e <> k) ->
  (forall h l, sh_listeners sh !! h = Some l -> l_subscriber l <> Some k) ->
  shape s = sh ->
  wp (AddEntry (J := J) k)
    (fun x s' => Good (shape s') /\ is_Some (hm_at (sh_entries (shape s')) x) /\
       forall i, is_Some (hm_at (sh_topics sh) i) -> is_Some (hm_at (sh_topics (shape s')) i)) s.
Proof.
  intros (HS & HE & HT) Hk Hroom Hfree Hlis Hs. unfold AddEntry. ls_step. ls_step. subst d.
  rename d0 into d. destruct (lk_obj _ _ _ _ (st_subs sh HS) k _ Hk) as (ts & Hi & _). cbn in Hi.
  ls_step. unfold add_entry. ls_step. ls_step.
  destruct (hm_Add _ _ _ _ _) as [x m] eqn:Ea.
  assert (Ei : sh_inst sh = m_inst s) by (by subst sh).
  destruct (table_Add (sh_inst sh) kEntry e_handle (sh_entries sh) kReuse
    (EntryData_make (s_topic d) k) x m) as (Htab & Hx & Hat);
    [apply HS|done|by rewrite Ei; subst sh|done|].
  set (e := EntryData_make (s_topic d) k (Handle (sh_inst sh) (Z.of_nat x) kEntry)) in Hat.
  set (t1 := ts <| ts_entries ::= vs_Add x |>).
  set (sh1 := sh <| sh_entries := m |> <| sh_topics ::= hm_set (e_topic e) t1 |>).
  assert (HS1 : Struct sh1) by (by eapply (Struct_add_entry sh HS x e)).
  ls_step. ls_step. ls_step. ls_step.
  eapply (wp_set_topic _ _ ts t1 _ _ (sh <| sh_entries := m |>)); [by subst sh|done|by intros u _ <-|].
  intros s2 Hs2. ls_step. replace (shape s2) with sh1 by done. split_and!.
  - split_and!; [done| |by eapply (Typed_set_lists sh sh1 (s_topic d) ts t1)].
    eapply EntryPub_entries; [exact HE|done|]. intros j a. unfold sh1, fupd. cbn. rewrite Hat.
    case_decide; [intros [= <-]; by right|by left].
  - unfold sh1, fupd. cbn. by rewrite Hat, decide_True by done.
  - intros j Hj. unfold sh1, fupd. cbn. by apply set_topic_live.
Qed.

Lemma wp_RemoveEntry h sh s :
  Good sh -> shape s = sh ->
  wp (RemoveEntry (J := J) h)
    (fun r s' => Good (shape s') /\
       match r with
       | None => True
       | Some e => exists k, hm_at (sh_entries sh) k = Some e /\
           sh_subs (shape s') = sh_subs sh /\ sh_pubs (shape s') = sh_pubs sh /\
           sh_inst (shape s') = sh_inst sh /\
           forall j a, hm_at (sh_entries (shape s')) j = Some a ->
             j <> k /\ hm_at (sh_entries sh) j = Some a
       end) s.
Proof.
  intros (HS & HE & HT) Hs. unfold RemoveEntry. ls_step. unfold remove_entry. ls_step. ls_step.
  destruct (hm_Remove kEntry h (m_entries s)) as [o m] eqn:Er.
  assert (Ep : sh_entries sh = m_entries s) by (by subst sh).
  destruct (table_Remove _ _ _ (sh_entries sh) h o m (st_e sh HS)) as [Htab Ho]; [by rewrite Ep|].
  ls_step. ls_step. ls_step. destruct o as [e|]; cbn [mbind option_bind].
  2: { ls_step. destruct Ho as [-> Hg]. split; [|done]. by subst sh. }
  destruct Ho as (k & Hg & Hx & Hk & Hat). rewrite <- Ep, Hx. cbn [mbind option_bind].
  destruct (lk_obj _ _ _ _ (st_entries sh HS) k e Hk) as (ts & Hi & _).
  set (t1 := ts <| ts_entries ::= vs_Remove k |>).
  set (sh1 := sh <| sh_entries := m |> <| sh_topics ::= hm_set (e_topic e) t1 |>).
  assert (HS1 : Struct sh1) by (by eapply (Struct_remove_entry sh HS k e)).
  assert (Hsub : forall j a, hm_at m j = Some a -> j <> k /\ hm_at (sh_entries sh) j = Some a).
  { intros j a. rewrite Hat. case_decide; [done|]. split; [congruence|done]. }
  ls_step. eapply (wp_set_topic _ _ ts t1 _ _ (sh <| sh_entries := m |>));
    [by subst sh|done|by intros u _ <-|].
  intros s2 Hs2. ls_step. replace (shape s2) with sh1 by done. split.
  - split_and!; [done| |by eapply (Typed_set_lists sh sh1 (e_topic e) ts t1)].
    eapply EntryPub_entries; [exact HE|done|]. intros j a Ha. left. by eapply Hsub.
  - exists k. by split_and!.
Qed.

(** No entry uses the publisher. *)
Definition pub_free sh (h : Z) : Prop :=
  forall k j e, hm_Get kPublisher h (sh_pubs sh) = Some k ->
    hm_at (sh_entries sh) j = Some e -> e_publisher e <> Some k.

Lemma wp_RemoveLocalPublisher_free h sh s :
  Good sh -> pub_free sh h -> shape s = sh ->
  wp (RemoveLocalPublisher (J := J) h) (fun _ s' => Good (shape s')) s.
Proof.
  intros (HS & HE & HT) Hfree Hs. eapply wp_mono; [by apply (wp_RemoveLocalPublisher h sh)|].
  intros _ s' (HS' & HT' & Hd). split_and!; [done| |done].
  destruct (hm_Get kPublisher h (sh_pubs sh)) as [k|] eqn:Hg; [|by rewrite Hd].
  destruct Hd as [_ Hp He]. split; rewrite He; [|by apply HE].
  intros j e p Hj Hep. destruct (ep_live _ HE j e p Hj Hep) as (d & Hd & Ed).
  destruct (Hp p d) as (d' & Hd' & Ed'); [|done|exists d'; split; [done|congruence]].
  intros ->. by eapply Hfree.
Qed.

(** ** Multi-subscribers *)

(** A loop that updates each topic of [l] *)
Lemma wp_update_topics (g : TopicShape -> TopicShape) (body : nat -> M (LSImpl J) unit) l sh s :
  table (sh_inst sh) kTopic ts_handle (sh_topics sh) -> NoDup l ->
  (forall t, ts_handle (g t) = ts_handle t) ->
  (forall i, i ∈ l -> is_Some (hm_at (sh_topics sh) i)) ->
  (forall i t s' ts', hm_at (sh_topics sh) i = Some t -> hm_at ts' i = Some t ->
     shape s' = sh <| sh_topics := ts' |> ->
     wp (body i) (fun _ s2 => shape s2 = sh <| sh_topics := hm_set i (g t) ts' |>) s') ->
  shape s = sh ->
  wp (for_each l body)
    (fun _ s' => exists ts', shape s' = sh <| sh_topics := ts' |> /\
       table (sh_inst sh) kTopic ts_handle ts' /\
       forall i, hm_at ts' i = (if decide (i ∈ l) then g else id) <$> hm_at (sh_topics sh) i) s.
Proof.
  intros Htab Hnd Hg Hl Hb Hs.
  apply (wp_for_each _ _ (fun dn s' => exists ts', shape s' = sh <| sh_topics := ts' |> /\
    table (sh_inst sh) kTopic ts_handle ts' /\
    forall i, hm_at ts' i = (if decide (i ∈ dn) then g else id) <$> hm_at (sh_topics sh) i)).
  - exists (sh_topics sh). split_and!; [by destruct sh|done|]. intros i.
    rewrite decide_False by apply not_elem_of_nil. by destruct (hm_at _ i).
  - intros dn i rest s' El (ts' & Hs' & Htab' & Hat).
    assert (Hni : i ∉ dn).
    { rewrite El in Hnd. apply NoDup_app in Hnd as (_ & Hn & _). intros Hin. apply (Hn i Hin). left. }
    destruct (Hl i) as [t Ht]; [rewrite El; set_solver|].
    assert (Hi : hm_at ts' i = Some t) by (by rewrite Hat, decide_False, Ht by done).
    eapply wp_mono; [by eapply Hb|]. intros [] s2 Hs2. cbn in Hs2. eexists. split; [exact Hs2|]. split.
    + by eapply table_set.
    + intros j. rewrite hm_at_set by done. case_decide as E.
      * rewrite <- E. by rewrite decide_True, Ht by set_solver.
      * rewrite Hat. repeat case_decide; try done; set_solver.
  - done.
Qed.

Lemma live_topics s sh i : shape s = sh -> i ∈ hm_live (m_topics s) -> is_Some (hm_at (sh_topics sh) i).
Proof. intros <- Hi%elem_of_hm_live. cbn. rewrite hm_at_map. by apply fmap_is_Some. Qed.

Lemma live_all s sh (g : TopicShape -> TopicShape) i :
  shape s = sh ->
  (if decide (i ∈ hm_live (m_topics s)) then g else id) <$> hm_at (sh_topics sh) i
  = g <$> hm_at (sh_topics sh) i.
Proof.
  intros <-. case_decide as Hi; [done|]. cbn. rewrite elem_of_hm_live in Hi. rewrite hm_at_map.
  destruct (hm_at (m_topics s) i); [|done]. by destruct Hi.
Qed.

Lemma Typed_remulti sh sh' (g : TopicShape -> TopicShape) :
  Typed sh -> Struct sh -> sh_pubs sh' = sh_pubs sh -> (forall t, remulti t (g t)) ->
  (forall i, hm_at (sh_topics sh') i = g <$> hm_at (sh_topics sh) i) -> Typed sh'.
Proof.
  intros HT HS Hp Hg Hat. eapply Typed_keep; [done|apply HS|done|].
  intros i t'. rewrite Hat, fmap_Some. intros (t & Ht & ->). right. exists t.
  by rewrite (Hg t).
Qed.

Lemma wp_add_multiSubscriber mk (Q : nat -> LSImpl J -> Prop) s sh :
  Struct sh -> shape s = sh -> room (sh_multis sh) -> (forall h, ms_handle (mk h) = h) ->
  (forall k d m s', table (sh_inst sh) kMultiSubscriber fst m -> hm_at (sh_multis sh) k = None ->
     (exists h, d = multi_shape (mk h)) ->
     (forall j, hm_at m j = if decide (k = j) then Some d else hm_at (sh_multis sh) j) ->
     shape s' = sh <| sh_multis := m |> -> Q k s') ->
  wp (add_multiSubscriber mk) Q s.
Proof.
  intros HS Hs Hroom Hmk HQ. unfold add_multiSubscriber. ls_step. ls_step.
  destruct (hm_Add kMultiSubscriber kReuse (m_inst s) mk (m_multiSubscribers s)) as [k m] eqn:Ea.
  assert (Ei : sh_inst sh = m_inst s) by (by subst sh).
  assert (Es : sh_multis sh = hm_map multi_shape (m_multiSubscribers s)) by (by subst sh).
  destruct (table_Add (sh_inst sh) kMultiSubscriber fst (sh_multis sh) kReuse
    (fun h => multi_shape (mk h)) k (hm_map multi_shape m)) as (Ht & Hk & Hat);
    [apply HS|done|by rewrite Ei, Es, hm_Add_map, Ea|done|].
  repeat ls_step. eapply HQ; [done|done|by eexists|done|]. by subst sh.
Qed.

Lemma wp_AddMultiSubscriber prefixes options sh s :
  Good sh -> room (sh_multis sh) -> shape s = sh ->
  wp (AddMultiSubscriber (J := J) prefixes options)
    (fun k s' => Good (shape s') /\ is_Some (hm_at (sh_multis (shape s')) k)) s.
Proof.
  intros (HS & HE & HT) Hroom Hs. unfold AddMultiSubscriber. ls_step.
  eapply wp_add_multiSubscriber; [done..|]. intros k d m s1 Htab Hk [h Ed] Hat Hs1.
  set (sh0 := sh <| sh_multis := m |>) in Hs1.
  assert (Hk0 : hm_at (sh_multis sh0) k = Some d).
  { unfold sh0, fupd. cbn. by rewrite Hat, decide_True by done. }
  ls_step. ls_step. rename d0 into x. ls_step. ls_step. ls_step.
  assert (Ex : ms_prefixes x = d.2) by (revert select (multi_shape x = d); by intros <-).
  eapply wp_mono.
  - apply (wp_update_topics (attach_multi k d.2) _ _ sh0); [apply HS|apply NoDup_hm_live|..|done].
    + intros t. unfold attach_multi. by destruct (matches_name _ _).
    + intros i. by apply live_topics.
    + intros i t s2 ts' Ht Hi Hs2.
      assert (Hi' : hm_at (sh_topics (sh0 <| sh_topics := ts' |>)) i = Some t) by done.
      ls_step. ls_step. assert (Esp : t_special t0 = IsSpecial (t_name t0)).
      { subst t. apply (mo_special _ _ (st_multis sh HS i _ Ht)). }
      rewrite Esp. unfold Matches. rewrite Ex. change (existsb _ d.2) with (matches_name d.2 (t_name t0)).
      unfold attach_multi. subst t. cbn [ts_name topic_shape]. ls_step.
      * eapply (wp_set_topic _ _ _ (topic_shape t0 <| ts_multis ::= vs_Add k |>));
          [done..|by intros u _ Eu; rewrite <- Eu|]. intros s3 Hs3.
        revert select (matches_name _ _ = true). intros ->. done.
      * revert select (matches_name _ _ = false). intros ->. rewrite Hs2.
        by rewrite hm_set_id by done.
  - intros _ s2 (ts' & Hs2 & Htt & Hti).
    set (sh2 := sh <| sh_topics := ts' |> <| sh_multis := m |>).
    assert (Hs2' : shape s2 = sh2) by done.
    assert (Hti' : forall i, hm_at ts' i = attach_multi k d.2 <$> hm_at (sh_topics sh) i).
    { intros i. rewrite Hti. by apply (live_all s1 sh0). }
    eapply (wp_mono _ (fun r s' => r = k /\ shape s' = sh2)).
    { repeat ls_step; by repeat ls_step. }
    intros r s3 [-> ->]. split; [|done]. split_and!.
    + by eapply (Struct_add_multi sh HS k d).
    + by eapply EntryPub_keep; [exact HE|done|eauto].
    + eapply (Typed_remulti sh sh2 (attach_multi k d.2)); try done.
      intros t. unfold remulti, attach_multi. by destruct (matches_name _ _), t.
Qed.

Lemma wp_RemoveMultiSubscriber h sh s :
  Good sh -> shape s = sh ->
  wp (RemoveMultiSubscriber (J := J) h) (fun _ s' => Good (shape s')) s.
Proof.
  intros (HS & HE & HT) Hs. unfold RemoveMultiSubscriber. ls_step. unfold remove_multiSubscriber.
  ls_step. ls_step.
  destruct (hm_Remove kMultiSubscriber h (m_multiSubscribers s)) as [o m] eqn:Er.
  assert (Ep : sh_multis sh = hm_map multi_shape (m_multiSubscribers s)) by (by subst sh).
  destruct (table_Remove _ _ _ (sh_multis sh) h (multi_shape <$> o) (hm_map multi_shape m)
    (st_m sh HS)) as [Htab Ho]; [by rewrite Ep, hm_Remove_map, Er|].
  ls_step. ls_step. ls_step. destruct o as [d|]; cbn [mbind option_bind].
  2: { ls_step. destruct Ho as [Em Hg]. subst sh. unfold shape, fupd. cbn. rewrite Em. done. }
  destruct Ho as (k & Hg & Hx & Hk & Hat). rewrite Ep, hm_index_map in Hx. rewrite Hx.
  cbn [mbind option_bind]. ls_step. ls_step. ls_step.
  set (s1 := fupd m_multiSubscribers (fun _ => m) s).
  set (sh1 := sh <| sh_multis := hm_map multi_shape m |>).
  assert (Hs1 : shape s1 = sh1) by (by subst sh). eapply wp_mono.
  - apply (wp_update_topics (detach_multi k) _ _ sh1); [apply HS|apply NoDup_hm_live|..|done];
      [done|intros i; by apply live_topics|].
    intros i t s2 ts' Ht Hi Hs2.
    eapply (wp_set_topic _ _ t (detach_multi k t)); [done|done|by intros u _ <-|done].
  - intros _ s2 (ts' & Hs2 & Htt & Hti).
    assert (Hti' : forall i, hm_at ts' i = detach_multi k <$> hm_at (sh_topics sh) i).
    { intros i. rewrite Hti. by apply (live_all s1 sh1). }
    set (sh2 := sh <| sh_topics := ts' |> <| sh_multis := hm_map multi_shape m |>
                   <| sh_listeners ::= fmap (forget_multiSubscriber k) |>).
    eapply (wp_mono _ (fun _ s' => shape s' = sh2)).
    + ls_step. ls_step. ls_step. ls_step.
      eapply (wp_frames _ _ _ sh2); [apply frames_when; intros _ s0 Hs0; by ls_step| |done].
      by rewrite shape_listeners, Hs2.
    + intros _ s3 ->. split_and!.
      * by eapply (Struct_remove_multi sh HS k).
      * by eapply EntryPub_keep; [exact HE|done|eauto].
      * by eapply (Typed_remulti sh sh2 (detach_multi k)).
Qed.

Lemma wp_RemoveSubEntry h sh s :
  Good sh -> sub_free sh h -> shape s = sh ->
  wp (RemoveSubEntry (J := J) h) (fun _ s' => Good (shape s')) s.
Proof.
  intros HG Hfree Hs. unfold RemoveSubEntry. ls_step.
  { eapply wp_mono; [by apply (wp_RemoveLocalSubscriber h sh)|]. naive_solver. }
  ls_step; [by eapply wp_RemoveMultiSubscriber|]. ls_step; [|ls_step; by rewrite Hs].
  ls_step. eapply wp_mono; [by apply (wp_RemoveEntry h sh)|].
  intros [e|] s1 [HG1 He]; [|by ls_step].
  destruct He as (k & Hk & Esub & Epub & Einst & Hrest). pose proof HG as (HS & HE & HT).
  destruct (st_entry_sub sh HS k e Hk) as (ss & Hss & _). rewrite <- Esub in Hss.
  assert (Hs1 : shape s1 = shape s1) by done. ls_step. ls_step. ls_step.
  assert (Hfree1 : sub_free (shape s1) (s_handle d)).
  { intros k' j a Hg (Hne & Ha)%Hrest Ea. subst ss.
    assert (Hg' : hm_Get kSubscriber (s_handle d) (sh_subs (shape s1)) = Some (e_subscriber e)).
    { apply (table_Get (sh_inst (shape s1)) kSubscriber sub_handle _ _ (sub_shape d));
        [apply HG1|apply HG1|done]. }
    rewrite Hg in Hg'. injection Hg' as ->. by eapply Hne, (st_entry_inj sh HS). }
  eapply wp_mono; [by apply (wp_RemoveLocalSubscriber _ (shape s1))|].
  intros _ s2 (HG2 & Epub2 & Eent2 & _). destruct (e_publisher e) as [p|] eqn:Ep; [|by ls_step].
  destruct (ep_live sh HE k e p Hk Ep) as (pd & Hp & _). rewrite <- Epub, <- Epub2 in Hp.
  assert (Hs2 : shape s2 = shape s2) by done. ls_step. ls_step.
  eapply wp_RemoveLocalPublisher_free; [done| |done].
  intros k' j a Hg Ha Ea. rewrite Eent2 in Ha. apply Hrest in Ha as [Hne Ha].
  assert (Hg' : hm_Get kPublisher (p_handle pd) (sh_pubs (shape s2)) = Some p).
  { apply (table_Get (sh_inst (shape s2)) kPublisher p_handle _ _ pd); [apply HG2|apply HG2|done]. }
  rewrite Hg in Hg'. injection Hg' as ->. by eapply Hne, (ep_inj sh HE).
Qed.

(** ** Topics *)

(** The live multi-subscribers of [l] that match a name *)
Definition selects (multis : HandleMap (Z * list string)) (name : string) (k : nat) : bool :=
  match hm_at multis k with Some d => matches_name d.2 name | None => false end.

Lemma wp_attach_multiSubscribers l i name sh ts t s :
  (forall k, k ∈ l -> is_Some (hm_at (sh_multis sh) k)) ->
  hm_at ts i = Some t -> shape s = sh <| sh_topics := ts |> ->
  wp (attach_multiSubscribers (J := J) l i name (IsSpecial name))
    (fun _ s' => shape s' = sh <| sh_topics := hm_set i (t <| ts_multis ::= fun ms =>
       ms ++ filter (fun k => selects (sh_multis sh) name k = true) l |>) ts |>) s.
Proof.
  revert ts t s. induction l as [|k l IH]; intros ts t s Hl Hi Hs; simpl.
  - ls_step. rewrite Hs, hm_set_id; [done|]. rewrite Hi. unfold fupd. cbn.
    rewrite app_nil_r. by destruct t.
  - destruct (Hl k) as [d Hd]; [by left|].
    assert (Hk : hm_at (sh_multis (sh <| sh_topics := ts |>)) k = Some d) by done.
    assert (Hi' : hm_at (sh_topics (sh <| sh_topics := ts |>)) i = Some t) by done.
    ls_step. ls_step. ls_step.
    assert (Em : Matches d0 name (IsSpecial name) = selects (sh_multis sh) name k).
    { unfold selects. rewrite Hd. revert select (multi_shape d0 = d). by intros <-. }
    rewrite Em, filter_cons. ls_step.
    + rewrite decide_True by done.
      eapply (wp_set_topic _ _ t (t <| ts_multis ::= vs_Add k |>)); [done..|by intros u _ <-|].
      intros s1 Hs1. eapply wp_mono.
      * apply (IH (hm_set i (t <| ts_multis ::= vs_Add k |>) ts)
          (t <| ts_multis ::= vs_Add k |>)); [set_solver| |done].
        by rewrite hm_at_set, decide_True by done.
      * intros [] s2 ->. rewrite hm_set_set. unfold fupd, vs_Add. cbn.
        by rewrite <- app_assoc.
    + rewrite decide_False by congruence. apply IH; [set_solver|done|done].
Qed.

Lemma multis_ok_new (multis : HandleMap (Z * list string)) t :
  ts_special t = IsSpecial (ts_name t) ->
  ts_multis t = filter (fun k => selects multis (ts_name t) k = true) (hm_live multis) ->
  multis_ok multis t.
Proof.
  intros Hsp Hm. split; [done|rewrite Hm; apply NoDup_filter, NoDup_hm_live|].
  intros k. rewrite Hm, list_elem_of_filter, elem_of_hm_live. unfold selects.
  destruct (hm_at multis k) as [d|]; naive_solver.
Qed.

Lemma wp_GetOrCreateTopic name sh s :
  Good sh -> room (sh_topics sh) -> shape s = sh ->
  wp (GetOrCreateTopic (J := J) name)
    (fun i s' => Good (shape s') /\
       (exists t, hm_at (sh_topics (shape s')) i = Some t /\ ts_name t = name) /\
       sh_subs (shape s') = sh_subs sh /\ sh_entries (shape s') = sh_entries sh) s.
Proof.
  intros (HS & HE & HT) Hroom Hs. unfold GetOrCreateTopic. ls_step. ls_step.
  assert (En : sh_names sh = m_nameTopics s) by (by subst sh).
  destruct (m_nameTopics s !! name) as [i|] eqn:Ei.
  { ls_step. rewrite Hs. split_and!; try done. apply (st_names sh HS). by rewrite En. }
  ls_step. unfold add_topic. ls_step. ls_step.
  destruct (hm_Add _ _ _ _ _) as [i m] eqn:Ea.
  assert (Ein : sh_inst sh = m_inst s) by (by subst sh).
  assert (Et : sh_topics sh = hm_map topic_shape (m_topics s)) by (by subst sh).
  destruct (table_Add (sh_inst sh) kTopic ts_handle (sh_topics sh) kReuse
    (fun h => topic_shape (TopicData_make (J := J) name h)) i (hm_map topic_shape m))
    as (Htab & Hi & Hat); [apply HS|done|by rewrite Ein, Et, hm_Add_map, Ea|done|].
  ls_step. ls_step. ls_step. ls_step. ls_step. ls_step.
  set (t := topic_shape _) in Hat.
  match goal with |- wp _ _ ?x => assert (Hs1 : shape x =
    sh <| sh_names ::= <[name := i]> |> <| sh_topics := hm_map topic_shape m |>) by (by subst sh) end.
  assert (Hi1 : hm_at (hm_map topic_shape m) i = Some t) by (by rewrite Hat, decide_True by done).
  eapply wp_topic; [exact Hs1|done|]. intros t' _ Et'. ls_step. ls_step. ls_step.
  assert (Esp : t_special t' = IsSpecial name).
  { change (ts_special (topic_shape t') = IsSpecial name). by rewrite Et'. }
  rewrite Esp. eapply wp_mono.
  { eapply wp_attach_multiSubscribers; [|exact Hi1|exact Hs1]. intros k Hk%elem_of_hm_live.
    subst sh. cbn. rewrite hm_at_map. by apply fmap_is_Some. }
  intros [] s2 Hs2. cbn beta in Hs2. ls_step. rewrite Hs2.
  set (t2 := fupd ts_multis _ t). set (ts' := hm_set i t2 _).
  assert (Hat' : forall j, hm_at ts' j = if decide (i = j) then Some t2 else hm_at (sh_topics sh) j).
  { intros j. unfold ts'. rewrite hm_at_set, Hat by done. by repeat case_decide. }
  split; [|split_and!; [|done|done]].
  2: { exists t2. unfold fupd. cbn. by rewrite Hat', decide_True by done. }
  assert (HSt : Struct (sh <| sh_topics := ts' |> <| sh_names ::= <[ts_name t2 := i]> |>)).
  { eapply (Struct_add_topic sh HS i t2); try done.
    - by eapply table_set.
    - cbn. by rewrite En.
    - apply multis_ok_new; [done|]. subst sh.
      cbn [sh_multis shape]. rewrite hm_live_map. done. }
  split_and!; [done|by eapply EntryPub_keep; [exact HE|done|eauto]|].
  eapply Typed_keep; [exact HT|apply HS|done|]. intros j u. unfold fupd. cbn. rewrite Hat'.
  case_decide; [|intros Hj; right; by exists u]. intros [= <-]. subst. by left.
Qed.
End Objects.
