(* ===== verification/LocalOps.v ===== *)
(** * LocalOps: listeners and values

    The operations on listeners and the operations that publish values preserve
    the invariant. *)

From S2P Require Import Prelude NtTypes CircularBuffer Handles Monads LocalTypes LocalStorage.
From S2P Require Import LocalShape LocalFrames LocalInv LocalObjects.
Local Open Scope Z_scope.

(** The goal is about a state of known shape. *)
Ltac by_shape :=
  match goal with E : shape ?x = _ |- context [shape ?x] => by rewrite E end.

Section Ops.
Context {J : Type} `{Json J} `{Env}.
Implicit Types (s : LSImpl J) (sh : Shape).

(** ** Listeners *)

Lemma wp_try_emplace h l sh s :
  Good sh -> listener_ok sh h l -> shape s = sh ->
  wp (try_emplace (J := J) h l)
    (fun _ s' => Good (shape s') /\ is_Some (sh_listeners (shape s') !! h) /\
       exists ls, shape s' = sh <| sh_listeners := ls |>) s.
Proof.
  intros (HS & HE & HT) Hl Hs. unfold try_emplace. ls_step. rewrite shape_listeners, Hs.
  assert (Ekeep : forall ls, Typed (sh <| sh_listeners := ls |>) /\ EntryPub (sh <| sh_listeners := ls |>)).
  { intros ls. destruct HT, HE. by repeat split. }
  destruct (sh_listeners sh !! h) as [l0|] eqn:El.
  - assert (E : (sh <| sh_listeners ::= fun m => match m !! h with Some _ => m | None => <[h := l]> m end |>) = sh).
    { unfold fupd. cbn. rewrite El. by destruct sh. }
    rewrite E. split_and!; [done|by eexists|]. exists (sh_listeners sh). by destruct sh.
  - assert (E : (sh <| sh_listeners ::= fun m => match m !! h with Some _ => m | None => <[h := l]> m end |>)
      = sh <| sh_listeners ::= <[h := l]> |>).
    { unfold fupd. cbn. by rewrite El. }
    rewrite E. split_and!; [|unfold fupd; cbn; by rewrite lookup_insert_eq|by eexists].
    destruct (Ekeep (<[h := l]> (sh_listeners sh))). split_and!; [|done|done].
    by apply Struct_add_listener.
Qed.

Lemma wp_AddListener_subscriber h k mask subentry owned d sh s :
  Good sh -> hm_at (sh_subs sh) k = Some d ->
  (owned = true -> forall j e, hm_at (sh_entries sh) j = Some e -> e_subscriber e <> k) ->
  shape s = sh ->
  wp (AddListener_subscriber (J := J) h k mask subentry owned) (fun _ s' => Good (shape s')) s.
Proof.
  intros HG Hk Hown Hs. unfold AddListener_subscriber. ls_step.
  eapply wp_mono; [apply (wp_try_emplace _ _ sh); [done| |done]|].
  { split; cbn; [done| |done|].
    - intros k' [= <-]. by eexists.
    - intros k' j e Ho [= <-]. by apply Hown. }
  intros _ s1 (HG1 & _ & ls & Hs1). remember (shape s1) as sh1 eqn:Esh1.
  assert (Hk1 : hm_at (sh_subs sh1) k = Some d) by (by rewrite Hs1).
  symmetry in Esh1. eapply (wp_mono _ (fun _ s' => shape s' = sh1)); [|by intros _ s2 ->].
  clear Hs1 Hk Hown HG. destruct HG1 as (HS & _ & _). ls_step. ls_step. subst d.
  destruct (lk_obj _ _ _ _ (st_subs sh1 HS) k _ Hk1) as (ts & Hi & _). cbn in Hi.
  ls_step. ls_step. ls_step. eapply (wp_mono _ (fun _ s' => shape s' = sh1)).
  - by repeat ls_step.
  - intros b s2 Hs2. by repeat ls_step.
Qed.

Lemma entry_sub_live sh j e :
  Struct sh -> hm_at (sh_entries sh) j = Some e -> is_Some (hm_at (sh_subs sh) (e_subscriber e)).
Proof. intros HS He. by destruct (st_entry_sub sh HS j e He) as (d & -> & _). Qed.

(** A subscriber that did not exist is not the subscriber of an entry. *)
Lemma fresh_sub sh k j e :
  Struct sh -> hm_at (sh_subs sh) k = None -> hm_at (sh_entries sh) j = Some e ->
  e_subscriber e <> k.
Proof. intros HS Hk He <-. destruct (entry_sub_live sh j e HS He). congruence. Qed.

Lemma wp_AddListener_topic h i mask ts sh s :
  Good sh -> hm_at (sh_topics sh) i = Some ts -> room (sh_subs sh) -> shape s = sh ->
  wp (AddListener_topic (J := J) h i mask) (fun _ s' => Good (shape s')) s.
Proof.
  intros HG Hi Hroom Hs. unfold AddListener_topic. ls_step. ls_step.
  ls_step; [ls_step; by rewrite Hs|]. ls_step.
  eapply wp_mono; [by apply (wp_AddLocalSubscriber i ts _ sh)|].
  intros k s1 (HG1 & Hk & (d & Hd & _) & He & _). cbn beta.
  assert (Hs1 : shape s1 = shape s1) by done. ls_step. ls_step.
  eapply wp_AddListener_subscriber; [done..| |done].
  intros _ j e. rewrite He. apply fresh_sub; [apply HG|done].
Qed.

Lemma frames_matching_topics l d sh :
  (forall i, i ∈ l -> is_Some (hm_at (sh_topics sh) i)) ->
  frames (J := J) (matching_topics l d) sh.
Proof.
  induction l as [|i l IH]; intros Hl s Hs; simpl; [by ls_step|].
  destruct (Hl i) as [t Ht]; [by left|]. ls_step. ls_step. ls_step.
  eapply wp_frames; [apply IH; set_solver|done|]. intros r s1 Hs1. by ls_step.
Qed.

Lemma wp_AddListener_multi h k mask owned sh s :
  Good sh -> is_Some (hm_at (sh_multis sh) k) -> shape s = sh ->
  wp (AddListener_multi (J := J) h k mask owned) (fun _ s' => Good (shape s')) s.
Proof.
  intros HG Hk Hs. unfold AddListener_multi. ls_step.
  eapply wp_mono; [apply (wp_try_emplace _ _ sh); [done| |done]|].
  { split; cbn; try done. by intros k' [= <-]. }
  intros _ s1 (HG1 & Hlis & ls & Hs1). destruct Hk as [d Hk].
  assert (Hk1 : hm_at (sh_multis (shape s1)) k = Some d) by (by rewrite Hs1).
  clear Hs1 Hk HG. assert (Hs1 : shape s1 = shape s1) by done. ls_step. ls_step. ls_step. ls_step. ls_step.
  eapply (wp_frames _ _ _ (shape s1)); [|done|].
  { intros s0 Hs0. ls_step; [|by ls_step]. apply frames_matching_topics; [|done].
    intros i. by apply live_topics. }
  intros tl s2 Hs2. ls_step. ls_step. ls_step.
  eapply (wp_mono _ (fun _ s' => Good (shape s') /\ is_Some (hm_at (sh_multis (shape s')) k))).
  - ls_step; [|ls_step; by rewrite Hs2]. ls_step; [ls_step; by rewrite Hs2|].
    ls_step. ls_step. ls_step. ls_step.
    set (sh3 := shape s1 <| sh_prefix ::= vs_Add h |>).
    eapply (wp_mono _ (fun _ s' => shape s' = sh3)).
    + assert (Hs3 : shape (fupd m_topicPrefixListeners (vs_Add h) s') = sh3)
        by (rewrite shape_prefix; by subst sh3; f_equal).
      repeat ls_step.
    + intros _ s4 ->. split; [|by eexists]. destruct HG1 as (HS & HE & HT).
      split_and!; [by apply Struct_add_prefix|by destruct HE|by destruct HT].
  - intros b s3 [HG3 [d3 Hd3]]. eapply (wp_mono _ (fun _ s' => shape s' = shape s3)); [|by intros _ s4 ->].
    assert (Hs3 : shape s3 = shape s3) by done. ls_step. ls_step; [by ls_step|].
    ls_step. ls_step. ls_step. ls_step. ls_step.
    apply frames_for_each; [|done]. intros t _ s0 Hs0. by repeat ls_step.
Qed.

Lemma multis_room s sh :
  (kMaxMultiSubscribers <=? uid_size (m_multiSubscribers s))%nat = false -> shape s = sh ->
  room (sh_multis sh).
Proof.
  intros Em%Nat.leb_gt <-. unfold room, kMaxMultiSubscribers, kIndexMax in *.
  cbn [sh_multis shape]. rewrite uid_size_map. lia.
Qed.

Lemma wp_AddListener_prefixes h prefixes mask sh s :
  Good sh -> shape s = sh ->
  wp (AddListener_prefixes (J := J) h prefixes mask) (fun _ s' => Good (shape s')) s.
Proof.
  intros HG Hs. unfold AddListener_prefixes. ls_step. ls_step.
  destruct (kMaxMultiSubscribers <=? uid_size (m_multiSubscribers s))%nat eqn:Em;
    [ls_step; by rewrite Hs|].
  ls_step. eapply wp_mono; [apply (wp_AddMultiSubscriber _ _ sh); [done| |done]|].
  { by eapply multis_room. }
  intros k s1 [HG1 Hk]. by eapply wp_AddListener_multi.
Qed.

Lemma Get_live {A} (m : HandleMap A) t h k : hm_Get t h m = Some k -> exists a, hm_at m k = Some a.
Proof. by intros [[a Ha] _]%hm_Get_Some; eauto. Qed.

(** A handle is looked up in the shape as in the state. *)
Lemma Get_topics s h : hm_Get kTopic h (m_topics s) = hm_Get kTopic h (sh_topics (shape s)).
Proof. cbn. by rewrite hm_Get_map. Qed.
Lemma Get_subs s h :
  hm_Get kSubscriber h (m_subscribers s) = hm_Get kSubscriber h (sh_subs (shape s)).
Proof. cbn. by rewrite hm_Get_map. Qed.
Lemma Get_multis s h :
  hm_Get kMultiSubscriber h (m_multiSubscribers s) = hm_Get kMultiSubscriber h (sh_multis (shape s)).
Proof. cbn. by rewrite hm_Get_map. Qed.

Lemma wp_AddListener_handle h handle mask sh s :
  Good sh -> room (sh_subs sh) -> shape s = sh ->
  wp (AddListener_handle (J := J) h handle mask) (fun _ s' => Good (shape s')) s.
Proof.
  intros HG Hroom Hs. unfold AddListener_handle. ls_step. ls_step.
  rewrite Get_topics, Get_multis, Get_subs, Hs.
  destruct (hm_Get kTopic _ _) as [i|] eqn:Et.
  { destruct (Get_live _ _ _ _ Et) as [ts Hts]. by eapply wp_AddListener_topic. }
  destruct (hm_Get kMultiSubscriber _ _) as [k|] eqn:Em.
  { eapply wp_AddListener_multi; [done| |done]. by apply (Get_live _ _ _ _ Em). }
  destruct (hm_Get kSubscriber _ _) as [k|] eqn:Es.
  { destruct (Get_live _ _ _ _ Es) as [d Hd]. ls_step. ls_step.
    by eapply wp_AddListener_subscriber. }
  destruct (hm_Get kEntry _ _) as [k|] eqn:Ee; [|ls_step; by rewrite Hs].
  replace (m_entries s) with (sh_entries sh) in Ee by (by subst sh).
  destruct (Get_live _ _ _ _ Ee) as [e He].
  destruct (entry_sub_live sh k e (proj1 HG) He) as [d Hd]. ls_step. ls_step.
  by eapply wp_AddListener_subscriber.
Qed.

(** Removing an owned subscriber, if there is one *)
Lemma wp_RemoveListener_impl h sh s :
  Good sh -> shape s = sh ->
  wp (RemoveListener_impl (J := J) h) (fun _ s' => Good (shape s')) s.
Proof.
  intros HG Hs. unfold RemoveListener_impl. ls_step. ls_step.
  destruct (m_listeners s !! h) as [l|] eqn:El; [|ls_step; by rewrite Hs].
  assert (El' : sh_listeners sh !! h = Some l) by (by subst sh).
  destruct HG as (HS & HE & HT). destruct (st_listener sh HS h l El') as [_ Hsub Hmul Hown].
  ls_step. ls_step. ls_step. ls_step. ls_step.
  set (sh1 := sh <| sh_listeners ::= delete h |> <| sh_prefix ::= vs_Remove h |>).
  assert (HG1 : Good sh1).
  { split_and!; [by apply Struct_remove_listener|by destruct HE|by destruct HT]. }
  match goal with |- wp _ _ ?x => assert (Hs1 : shape x = sh1) by (by subst sh); set (s1 := x) in * end.
  eapply (wp_mono _ (fun _ s' => Good (shape s') /\ sh_multis (shape s') = sh_multis sh)).
  - destruct (l_subscriber l) as [k|] eqn:Ek; [|ls_step; by rewrite Hs1].
    destruct (Hsub k eq_refl) as [d Hd].
    assert (Hd1 : hm_at (sh_subs sh1) k = Some d) by done.
    ls_step. ls_step. ls_step. ls_step. ls_step.
    destruct (lk_obj _ _ _ _ (st_subs sh HS) k _ Hd) as (ts & Hi & _).
    assert (Hi1 : hm_at (sh_topics sh1) (s_topic d0) = Some ts) by (by subst d).
    ls_step. ls_step; [|by_shape].
    eapply wp_mono; [apply (wp_RemoveLocalSubscriber _ sh1); [done| |done]|
      by intros _ s5 (? & _ & _ & ->)].
    intros k' j e Hg He. subst d.
    assert (Hg' : hm_Get kSubscriber (s_handle d0) (sh_subs sh1) = Some k).
    { apply (table_Get (sh_inst sh1) kSubscriber sub_handle _ _ (sub_shape d0));
        [apply HG1|apply HG1|done]. }
    rewrite Hg in Hg'. injection Hg' as ->. by eapply Hown.
  - intros _ s2 [HG2 Em2]. destruct (l_multiSubscriber l) as [k|]; [|by ls_step].
    destruct (Hmul k eq_refl) as [d Hd]. rewrite <- Em2 in Hd.
    assert (Hs2 : shape s2 = shape s2) by done. ls_step. ls_step. ls_step. ls_step.
    ls_step; [|by_shape]. by eapply wp_RemoveMultiSubscriber.
Qed.

(** ** Lookups *)

Lemma wp_GetTopic_handle h sh s :
  Struct sh -> shape s = sh ->
  wp (GetTopic_handle (J := J) h)
    (fun r s' => shape s' = sh /\ forall i, r = Some i -> is_Some (hm_at (sh_topics sh) i)) s.
Proof.
  intros HS Hs. unfold GetTopic_handle. ls_step. ls_step. rewrite Get_topics, Get_subs.
  assert (Ee : m_entries s = sh_entries sh) by (by subst sh).
  assert (Ep : m_publishers s = sh_pubs sh) by (by subst sh).
  rewrite Ee, Ep, Hs. ls_step.
  { destruct (hm_Get kEntry _ _) as [k|] eqn:E; [|by ls_step].
    destruct (Get_live _ _ _ _ E) as [e He]. ls_step. ls_step. ls_step. split; [done|].
    intros i [= <-]. by destruct (lk_obj _ _ _ _ (st_entries sh HS) k e He) as (t & -> & _). }
  ls_step.
  { destruct (hm_Get kSubscriber _ _) as [k|] eqn:E; [|by ls_step].
    destruct (Get_live _ _ _ _ E) as [d Hd]. ls_step. ls_step. ls_step. split; [done|].
    intros i [= <-]. subst d.
    destruct (lk_obj _ _ _ _ (st_subs sh HS) k _ Hd) as (t & Ht & _). by exists t. }
  ls_step.
  { destruct (hm_Get kPublisher _ _) as [k|] eqn:E; [|by ls_step].
    destruct (Get_live _ _ _ _ E) as [d Hd]. ls_step. ls_step. ls_step. split; [done|].
    intros i [= <-]. by destruct (lk_obj _ _ _ _ (st_pubs sh HS) k _ Hd) as (t & -> & _). }
  ls_step; ls_step; (split; [done|]); [|done]. intros i E. apply (Get_live _ _ _ _ E).
Qed.

Lemma wp_GetSubEntry h sh s :
  Struct sh -> shape s = sh ->
  wp (GetSubEntry (J := J) h)
    (fun r s' => shape s' = sh /\ forall k, r = Some k -> is_Some (hm_at (sh_subs sh) k)) s.
Proof.
  intros HS Hs. unfold GetSubEntry. ls_step. ls_step. rewrite Get_subs.
  assert (Ee : m_entries s = sh_entries sh) by (by subst sh). rewrite Ee, Hs. ls_step.
  { ls_step. split; [done|]. intros k E. apply (Get_live _ _ _ _ E). }
  ls_step; [|by ls_step]. destruct (hm_Get kEntry _ _) as [k|] eqn:E; [|by ls_step].
  destruct (Get_live _ _ _ _ E) as [e He]. ls_step. ls_step. ls_step. split; [done|].
  intros i [= <-]. by eapply entry_sub_live.
Qed.

Lemma sub_topic_live sh k d :
  Struct sh -> hm_at (sh_subs sh) k = Some (sub_shape d) ->
  exists ts, hm_at (sh_topics sh) (s_topic d) = Some ts.
Proof. intros HS Hk. destruct (lk_obj _ _ _ _ (st_subs sh HS) k _ Hk) as (ts & ? & _). eauto. Qed.

(** ** Publishing *)

(** An entry gets a new publisher. *)
Lemma EntryPub_publish sh sh' k e p pd :
  EntryPub sh -> keeps sh sh' -> hm_at (sh_entries sh) k = Some e ->
  hm_at (sh_pubs sh) p = None -> hm_at (sh_pubs sh') p = Some pd -> p_topic pd = e_topic e ->
  EntryPub (sh' <| sh_entries ::= hm_set k (e <| e_publisher := Some p |>) |>).
Proof.
  intros HE [_ _ Hpb _ Hen] Hk Hpn Hp Ept. set (e' := e <| e_publisher := Some p |>).
  set (sh3 := sh' <| sh_entries ::= hm_set k e' |>).
  assert (Hat : forall j a, hm_at (sh_entries sh3) j = Some a ->
    if decide (k = j) then a = e' else hm_at (sh_entries sh) j = Some a).
  { intros j a. change (sh_entries sh3) with (hm_set k e' (sh_entries sh')).
    rewrite Hen, hm_at_set by done. case_decide; [by intros [= <-]|done]. }
  assert (Hfr : forall j a, hm_at (sh_entries sh) j = Some a -> e_publisher a <> Some p).
  { intros j a Ha Hpa. destruct (ep_live sh HE j a p Ha Hpa) as (x & Hx & _). congruence. }
  split.
  - intros j a q Ha%Hat. case_decide; [subst a|].
    + intros [= <-]. by exists pd.
    + intros Hq. destruct (ep_live sh HE j a q Ha Hq) as (x & Hx & Ex).
      destruct (Hpb q x Hx) as (x' & Hx' & Ex'). exists x'. split; [done|congruence].
  - intros j j' a a' q Ha%Hat Ha'%Hat Hq Hq'.
    destruct (decide (k = j)) as [E|E], (decide (k = j')) as [E'|E']; [congruence|..].
    + subst a. injection Hq as <-. by destruct (Hfr j' a').
    + subst a'. injection Hq' as <-. by destruct (Hfr j a).
    + by eapply (ep_inj sh HE).
Qed.

(** The first part of [PublishEntry]: the subscriber of the entry has a type if it
    proceeds. *)
Lemma wp_adopt_type k type typeStr d sh s :
  type <> NT_UNASSIGNED -> shape s = sh -> hm_at (m_subscribers s) k = Some d ->
  wp (if type_is (c_type (s_config d)) NT_UNASSIGNED then
        set_subscriber (J := J) k (fun d =>
          d <| s_config ::= fun c => c <| c_type := type |> <| c_typeStr := typeStr |> |>) ;;
        ret true
      else if negb (type_is (c_type (s_config d)) type) ||
              negb (String.eqb (c_typeStr (s_config d)) typeStr)
      then ret (IsNumericCompatible type (c_type (s_config d)))
      else ret true)
    (fun (proceed : bool) s' => shape s' = sh /\ (proceed = true -> forall d',
       hm_at (m_subscribers s') k = Some d' -> c_type (s_config d') <> NT_UNASSIGNED)) s.
Proof.
  intros Htype Hs Hk. destruct (type_is (c_type (s_config d)) NT_UNASSIGNED) eqn:Eu.
  - unfold set_subscriber. ls_step. ls_step. unfold subscriber. ls_step. ls_step. ls_step. ls_step. ls_step. split.
    + rewrite <- Hs. unfold shape, fupd. cbn. by rewrite (hm_map_set_same sub_shape _ _ d).
    + intros _ d'. unfold fupd. cbn. rewrite hm_at_set, decide_True by done.
      by intros [= <-].
  - assert (Hd : c_type (s_config d) <> NT_UNASSIGNED).
    { intros E. unfold type_is in Eu. by rewrite bool_decide_eq_true_2 in Eu. }
    assert (Hsame : forall d', hm_at (m_subscribers s) k = Some d' ->
      c_type (s_config d') <> NT_UNASSIGNED) by (intros d' Hd'; congruence).
    by ls_step; ls_step.
Qed.

Lemma wp_PublishEntry k e type sh s :
  Good sh -> hm_at (sh_entries sh) k = Some e -> room (sh_pubs sh) -> type <> NT_UNASSIGNED ->
  shape s = sh ->
  wp (PublishEntry (J := J) k type)
    (fun r s' => Good (shape s') /\ pub_live (shape s') r /\
       forall i, is_Some (hm_at (sh_topics sh) i) -> is_Some (hm_at (sh_topics (shape s')) i)) s.
Proof.
  intros (HS & HE & HT) Hk Hroom Htype Hs. unfold PublishEntry. ls_step. ls_step.
  destruct (e_publisher e) as [p|] eqn:Ep.
  { ls_step. rewrite Hs. split_and!; [done| |done]. intros p' [= <-].
    destruct (ep_live sh HE k e p Hk Ep) as (pd & -> & _). done. }
  destruct (st_entry_sub sh HS k e Hk) as (ss & Hss & Est).
  destruct (lk_obj _ _ _ _ (st_entries sh HS) k e Hk) as (ts & Hi & _).
  ls_step. ls_step. ls_step. eapply wp_mono; [by apply (wp_adopt_type _ _ _ d sh)|].
  intros proceed s1 [Hs1 Hcfg]. destruct proceed; cbn [negb];
    [|ls_step; rewrite Hs1; by split_and!].
  ls_step. ls_step. ls_step.
  eapply wp_mono; [by apply (wp_AddLocalPublisher (e_topic e) ts _ _ sh); eauto|].
  intros p s2 (HS2 & HT2 & Hkeep & Hpn & pd & Hp & Ept). pose proof Hkeep as [_ Htp Hpb Hsb Hen].
  cbn beta. assert (Hk2 : hm_at (sh_entries (shape s2)) k = Some e) by (by rewrite Hen).
  assert (Hs2 : shape s2 = shape s2) by done. ls_step.
  eapply wp_set_entry; [done..|]. intros s3 Hs3.
  set (sh3 := shape s2 <| sh_entries ::= hm_set k (e <| e_publisher := Some p |>) |>) in Hs3.
  assert (HG3 : Good sh3).
  { split_and!; [by eapply Struct_set_entry|by eapply EntryPub_publish|by destruct HT2]. }
  rewrite <- Hsb in Hss.
  assert (Hss3 : hm_at (sh_subs sh3) (e_subscriber e) = Some ss) by done.
  assert (Hp3 : hm_at (sh_pubs sh3) p = Some pd) by done.
  eapply (wp_mono _ (fun r s' => r = Some p /\ shape s' = sh3)).
  { ls_step. ls_step. ls_step. ls_step. ls_step.
    eapply (wp_frames _ _ _ sh3); [apply frames_when; intros _ s0 Hs0|done|intros _ s4 Hs4; by ls_step].
    by ls_step. }
  intros r s4 [-> ->]. split_and!; [done| |done]. intros q [= <-]. by eexists.
Qed.

Lemma frames_convert_value v type sh : frames (J := J) (convert_value v type) sh.
Proof.
  intros s Hs. unfold convert_value. ls_step. eapply (wp_mono _ (fun _ s' => shape s' = sh)).
  - by repeat ls_step.
  - intros n s1 Hs1. by ls_step.
Qed.

Lemma wp_PublishLocalValue_rec fuel p value force sh s :
  Good sh -> is_Some (hm_at (sh_pubs sh) p) -> shape s = sh ->
  wp (PublishLocalValue_rec (J := J) fuel p value force)
    (fun _ s' => Good (shape s') /\ retypes sh (shape s')) s.
Proof.
  intros HG Hp. pose proof HG as (HS & HE & HT). revert value force s.
  assert (Hsame : forall s, shape s = sh -> Good (shape s) /\ retypes sh (shape s)).
  { intros s Hs. by apply Good_same. }
  induction fuel as [|fuel IH]; intros value force s Hs; simpl; [by ls_step; apply Hsame|].
  destruct Hp as [pd Hp]. destruct (lk_obj _ _ _ _ (st_pubs sh HS) p pd Hp) as (ts & Hi & _).
  ls_step; [ls_step; by apply Hsame|]. ls_step. ls_step. ls_step. ls_step. ls_step.
  { ls_step; [|ls_step; by apply Hsame]. ls_step.
    eapply wp_frames; [apply frames_convert_value|done|]. intros v s1 Hs1.
    by apply IH. }
  ls_step; [|ls_step; by apply Hsame]. ls_step. ls_step. ls_step.
  eapply (wp_frames _ _ _ sh); [apply frames_when; intros _ s0 Hs0; by repeat ls_step|done|].
  intros _ s1 Hs1. eapply wp_SetValue; [done..| |done]. intros q [= <-]. by eexists.
Qed.

Lemma wp_GetOrPublish h type sh s :
  Good sh -> room (sh_pubs sh) -> type <> NT_UNASSIGNED -> shape s = sh ->
  wp (GetOrPublish (J := J) h type)
    (fun r s' => Good (shape s') /\ pub_live (shape s') r /\
       forall i, is_Some (hm_at (sh_topics sh) i) -> is_Some (hm_at (sh_topics (shape s')) i)) s.
Proof.
  intros HG Hroom Htype Hs. unfold GetOrPublish. ls_step. ls_step.
  assert (Ee : m_entries s = sh_entries sh) by (by subst sh).
  assert (Ep : m_publishers s = sh_pubs sh) by (by subst sh). rewrite Ee, Ep.
  destruct (hm_Get kPublisher _ _) as [p|] eqn:E.
  { ls_step. rewrite Hs. split_and!; [done| |done]. intros q [= <-].
    destruct (Get_live _ _ _ _ E) as [pd ->]. done. }
  destruct (hm_Get kEntry _ _) as [k|] eqn:E'; [|ls_step; by rewrite Hs].
  destruct (Get_live _ _ _ _ E') as [e He]. by eapply wp_PublishEntry.
Qed.

Lemma value_valid_type v : value_valid v = true -> value_type v <> NT_UNASSIGNED.
Proof. unfold value_valid. by intros E%negb_true_iff%bool_decide_eq_false_1. Qed.

Lemma wp_SetEntryValue h value sh s :
  Good sh -> room (sh_pubs sh) -> shape s = sh ->
  wp (SetEntryValue (J := J) h value) (fun _ s' => Good (shape s')) s.
Proof.
  intros HG Hroom Hs. unfold SetEntryValue. ls_step; [ls_step; by rewrite Hs|].
  apply negb_false_iff, value_valid_type in Heqb. ls_step.
  eapply wp_mono; [by apply (wp_GetOrPublish _ _ sh)|].
  intros [p|] s1 (HG1 & Hp & _); [|by ls_step].
  eapply wp_mono; [apply (wp_PublishLocalValue_rec 2 p value false (shape s1)); [done|by apply Hp|done]|].
  by intros b s2 [? _].
Qed.

(** A topic without a type takes one. *)
Lemma wp_take_type i ts type sh s :
  Good sh -> hm_at (sh_topics sh) i = Some ts -> shape s = sh ->
  ts_type ts = NT_UNASSIGNED ->
  wp (set_topic (J := J) i (fun t => t <| t_type := type |>))
    (fun _ s' => Good (shape s') /\ retypes sh (shape s')) s.
Proof.
  intros (HS & HE & HT) Hi Hs Hu. set (t' := ts <| ts_type := type |>).
  assert (Hr : retyped ts t') by (by destruct ts).
  eapply (wp_set_topic _ _ ts t'); [done..|by intros u _ <-|]. intros s1 ->.
  assert (Hx : ts_exists ts = false).
  { destruct (ts_exists ts) eqn:Ex; [|done]. by destruct (ty_exists _ HT i _ Hi Ex). }
  apply ts_exists_false in Hx as [Hps Hn].
  assert (Hrt : retypes sh (sh <| sh_topics ::= hm_set i t' |>)) by (by eapply retypes_topic).
  split; [|done]. split_and!.
  - by eapply Struct_retype.
  - by eapply EntryPub_retypes.
  - by eapply Typed_no_publisher; [apply TypedL_X, Typed_L|apply HS|..].
Qed.

Lemma wp_SetDefaultEntryValue h value sh s :
  Good sh -> room (sh_pubs sh) -> shape s = sh ->
  wp (SetDefaultEntryValue (J := J) h value) (fun _ s' => Good (shape s')) s.
Proof.
  intros HG Hroom Hs. unfold SetDefaultEntryValue. ls_step; [ls_step; by rewrite Hs|].
  apply negb_false_iff, value_valid_type in Heqb. ls_step.
  eapply wp_mono; [by apply (wp_GetTopic_handle h sh); [apply HG|]|].
  intros [i|] s1 [Hs1 Hlive]; [|ls_step; by rewrite Hs1]. destruct (Hlive i eq_refl) as [ts Hi].
  ls_step. ls_step. ls_step; [|ls_step; by rewrite Hs1]. ls_step.
  eapply wp_mono; [by apply (wp_GetOrPublish h (value_type value) sh)|].
  intros pub s2 (HG2 & Hp2 & Ht2). destruct (Ht2 i) as [t2 Hi2]; [by eexists|].
  assert (Hs2 : shape s2 = shape s2) by done. ls_step. ls_step. ls_step.
  eapply (wp_mono _ (fun _ s' => Good (shape s') /\ retypes (shape s2) (shape s'))).
  { ls_step; [|done]. eapply wp_take_type; [done..|]. subst t2. by eapply bool_decide_eq_true_1. }
  intros _ s3 (HG3 & Hrt). destruct (rt_topics _ _ Hrt i t2 Hi2) as (t3 & Hi3 & _).
  assert (Hs3 : shape s3 = shape s3) by done. ls_step. ls_step. ls_step.
  eapply (wp_mono _ (fun _ s' => shape s' = shape s3)).
  { ls_step; [by ls_step|]. ls_step; [|by ls_step]. ls_step.
    eapply wp_frames; [apply frames_convert_value|done|]. intros v s4 Hs4. by ls_step. }
  intros [v|] s4 Hs4; [|ls_step; by rewrite Hs4]. ls_step. ls_step.
  destruct pub as [p|]; [|ls_step; by_shape]. destruct (Hp2 p eq_refl) as [pd Hp].
  destruct (rt_pubs _ _ Hrt p pd Hp) as (p3 & Hp3 & _). ls_step.
  eapply wp_mono; [eapply (wp_PublishLocalValue_rec 2 p _ true (shape s3)); by eauto|].
  intros b s5 [? _]. by ls_step.
Qed.
End Ops.
