(* ===== verification/LocalSafety.v ===== *)
(** * LocalSafety: memory safety of the local storage

    Every sequence of calls of the public interface is free of undefined behaviour
    and keeps the invariant, provided that the handle maps have room and that the
    client does not release the subscriber or the publisher of an entry behind the
    entry's back. *)

From S2P Require Import Prelude NtTypes CircularBuffer Handles Monads LocalTypes LocalStorage.
From S2P Require Import LocalShape LocalFrames LocalInv LocalObjects LocalOps.
Local Open Scope Z_scope.

(** ** The public interface as a data type *)

(** [CGetAtomic], [CReadQueue], [COfTopic] and [COfSubentry] stand for the readers that
    are instances of [GetAtomic], [ReadQueue], [get_of_topic] and
    [get_of_subentry]. *)
Inductive api (J : Type) : Type :=
| CNetworkAnnounce (name typeStr : string) (properties : gmap string J) (pub : Z)
| CNetworkUnannounce (name : string)
| CNetworkPropertiesUpdate (name : string) (update : json J) (ack : bool)
| CNetworkSetValue (topic : Z) (value : Value)
| CStartNetwork
| CClearNetwork
| CGetTopic (name : string)
| COfTopic (A : Type) (h : Z) (d : A) (f : TopicData J -> A)
| CGetTopicExists (h : Z)
| CSetTopicPersistent (h : Z) (value : bool)
| CSetTopicRetained (h : Z) (value : bool)
| CSetTopicProperty (h : Z) (name : string) (value : J)
| CDeleteTopicProperty (h : Z) (name : string)
| CSetTopicProperties (h : Z) (update : json J)
| CSubscribe (topic : Z) (type : NT_Type) (typeStr : string) (options : PubSubOptions)
| CUnsubscribe (h : Z)
| CSubscribeMultiple (prefixes : list string) (options : PubSubOptions)
| CUnsubscribeMultiple (h : Z)
| CPublish (topic : Z) (type : NT_Type) (typeStr : string) (properties : json J)
    (options : PubSubOptions)
| CUnpublish (h : Z)
| CGetEntry (topic : Z) (type : NT_Type) (typeStr : string) (options : PubSubOptions)
| CGetEntryByName (name : string)
| CReleaseEntry (h : Z)
| CRelease (h : Z)
| CGetTopicFromHandle (h : Z)
| CSetEntryValue (h : Z) (value : Value)
| CSetDefaultEntryValue (h : Z) (value : Value)
| CGetAtomic (A : Type) (as_ : Value -> option A) (h : Z) (d : A)
| CReadQueueValue (h : Z)
| CReadQueue (A : Type) (as_ : Value -> option A) (h : Z)
| CGetEntryValue (h : Z)
| CSetEntryFlags (h flags : Z)
| CGetEntryFlags (h : Z)
| COfSubentry (A : Type) (h : Z) (d : A) (f : TopicData J -> A)
| CAddListenerPrefixes (h : Z) (prefixes : list string) (mask : Z)
| CAddListener (h handle mask : Z)
| CRemoveListener (h mask : Z)
| CStartDataLog (log : Z) (prefix logPrefix : string)
| CStopDataLog (logger : Z)
| CReset.
Arguments CNetworkAnnounce {J} _ _ _ _.
Arguments CNetworkUnannounce {J} _.
Arguments CNetworkPropertiesUpdate {J} _ _ _.
Arguments CNetworkSetValue {J} _ _.
Arguments CStartNetwork {J}.
Arguments CClearNetwork {J}.
Arguments CGetTopic {J} _.
Arguments COfTopic {J} {A} _ _ _.
Arguments CGetTopicExists {J} _.
Arguments CSetTopicPersistent {J} _ _.
Arguments CSetTopicRetained {J} _ _.
Arguments CSetTopicProperty {J} _ _ _.
Arguments CDeleteTopicProperty {J} _ _.
Arguments CSetTopicProperties {J} _ _.
Arguments CSubscribe {J} _ _ _ _.
Arguments CUnsubscribe {J} _.
Arguments CSubscribeMultiple {J} _ _.
Arguments CUnsubscribeMultiple {J} _.
Arguments CPublish {J} _ _ _ _ _.
Arguments CUnpublish {J} _.
Arguments CGetEntry {J} _ _ _ _.
Arguments CGetEntryByName {J} _.
Arguments CReleaseEntry {J} _.
Arguments CRelease {J} _.
Arguments CGetTopicFromHandle {J} _.
Arguments CSetEntryValue {J} _ _.
Arguments CSetDefaultEntryValue {J} _ _.
Arguments CGetAtomic {J} {A} _ _ _.
Arguments CReadQueueValue {J} _.
Arguments CReadQueue {J} {A} _ _.
Arguments CGetEntryValue {J} _.
Arguments CSetEntryFlags {J} _ _.
Arguments CGetEntryFlags {J} _.
Arguments COfSubentry {J} {A} _ _ _.
Arguments CAddListenerPrefixes {J} _ _ _.
Arguments CAddListener {J} _ _ _.
Arguments CRemoveListener {J} _ _.
Arguments CStartDataLog {J} _ _ _.
Arguments CStopDataLog {J} _.
Arguments CReset {J}.

Section Safety.
Context {J : Type} `{Json J} `{Env}.
Implicit Types (s : LSImpl J) (sh : Shape).

(** A call; its result is dropped. *)
Definition call (c : api J) : M (LSImpl J) unit :=
  match c with
  | CNetworkAnnounce n ty props pub => NetworkAnnounce n ty props pub ;; skip
  | CNetworkUnannounce n => NetworkUnannounce n
  | CNetworkPropertiesUpdate n update ack => NetworkPropertiesUpdate n update ack
  | CNetworkSetValue h v => NetworkSetValue h v
  | CStartNetwork => StartNetwork
  | CClearNetwork => ClearNetwork
  | CGetTopic n => GetTopic n ;; skip
  | COfTopic h d f => get_of_topic h d f ;; skip
  | CGetTopicExists h => GetTopicExists h ;; skip
  | CSetTopicPersistent h b => SetTopicPersistent h b
  | CSetTopicRetained h b => SetTopicRetained h b
  | CSetTopicProperty h n v => SetTopicProperty h n v
  | CDeleteTopicProperty h n => DeleteTopicProperty h n
  | CSetTopicProperties h u => SetTopicProperties h u ;; skip
  | CSubscribe h ty str o => Subscribe h ty str o ;; skip
  | CUnsubscribe h => Unsubscribe h
  | CSubscribeMultiple ps o => SubscribeMultiple ps o ;; skip
  | CUnsubscribeMultiple h => UnsubscribeMultiple h
  | CPublish h ty str props o => Publish h ty str props o ;; skip
  | CUnpublish h => Unpublish h
  | CGetEntry h ty str o => GetEntry_topic h ty str o ;; skip
  | CGetEntryByName n => GetEntry_name n ;; skip
  | CReleaseEntry h => ReleaseEntry h
  | CRelease h => Release h
  | CGetTopicFromHandle h => GetTopicFromHandle h ;; skip
  | CSetEntryValue h v => SetEntryValue h v ;; skip
  | CSetDefaultEntryValue h v => SetDefaultEntryValue h v ;; skip
  | CGetAtomic f h d => GetAtomic f h d ;; skip
  | CReadQueueValue h => ReadQueueValue h ;; skip
  | CReadQueue f h => ReadQueue f h ;; skip
  | CGetEntryValue h => GetEntryValue h ;; skip
  | CSetEntryFlags h flags => SetEntryFlags h flags
  | CGetEntryFlags h => GetEntryFlags h ;; skip
  | COfSubentry h d f => get_of_subentry h d f ;; skip
  | CAddListenerPrefixes h ps mask => AddListener h ps mask
  | CAddListener h handle mask => AddListener' h handle mask
  | CRemoveListener h mask => RemoveListener h mask
  | CStartDataLog log p lp => StartDataLog log p lp ;; skip
  | CStopDataLog h => StopDataLog h
  | CReset => Reset
  end.

Fixpoint calls (cs : list (api J)) : M (LSImpl J) unit :=
  match cs with [] => skip | c :: cs => call c ;; calls cs end.

(** ** What is asked of the client *)

(** The handle is that of a subscriber or of a publisher that belongs to an entry. *)
Definition sub_owned s (h : Z) : bool :=
  match hm_Get kSubscriber h (m_subscribers s) with
  | Some k => existsb (fun e => Nat.eqb (e_subscriber e) k) (hm_elements (m_entries s))
  | None => false
  end.
Definition pub_owned s (h : Z) : bool :=
  match hm_Get kPublisher h (m_publishers s) with
  | Some k => existsb (fun e => bool_decide (e_publisher e = Some k)) (hm_elements (m_entries s))
  | None => false
  end.

(** Each map can hold one more object with an index of 20 bits. *)
Definition has_room s : bool :=
  let fits n := Z.of_nat n <=? kIndexMax in
  fits (uid_size (m_topics s)) && fits (uid_size (m_publishers s)) &&
  fits (uid_size (m_subscribers s)) && fits (uid_size (m_entries s)) &&
  fits (uid_size (m_dataloggers s)).

Definition permitted s (c : api J) : bool :=
  has_room s &&
  match c with
  | CUnsubscribe h | CReleaseEntry h => negb (sub_owned s h)
  | CUnpublish h => negb (pub_owned s h)
  | CRelease h => negb (sub_owned s h) && negb (pub_owned s h)
  | _ => true
  end.

Fixpoint all_permitted (cs : list (api J)) s : bool :=
  match cs with
  | [] => true
  | c :: cs => permitted s c && match call c s with Some (_, s') => all_permitted cs s' | None => true end
  end.

Lemma elem_of_hm_elements {A} (m : HandleMap A) a :
  a ∈ hm_elements m <-> exists k, hm_at m k = Some a.
Proof.
  unfold hm_elements. rewrite list_elem_of_omap. split.
  - intros (k & _ & Hk). eauto.
  - intros [k Hk]. exists k. split; [|done]. apply elem_of_hm_live. eauto.
Qed.

Lemma sub_owned_free s h : sub_owned s h = false -> sub_free (shape s) h.
Proof.
  unfold sub_owned, sub_free. rewrite Get_subs. intros Hf k j e Hg He Ee. rewrite Hg in Hf.
  rewrite (proj2 (existsb_exists _ _)) in Hf; [done|]. exists e. split.
  - apply list_elem_of_In, elem_of_hm_elements. by exists j.
  - by apply Nat.eqb_eq.
Qed.

Lemma pub_owned_free s h : pub_owned s h = false -> pub_free (shape s) h.
Proof.
  unfold pub_owned, pub_free. intros Hf k j e Hg He Ee. cbn in Hg. rewrite Hg in Hf.
  rewrite (proj2 (existsb_exists _ _)) in Hf; [done|]. exists e. split.
  - apply list_elem_of_In, elem_of_hm_elements. by exists j.
  - by apply bool_decide_eq_true_2.
Qed.

Lemma has_room_shape s sh : has_room s = true -> shape s = sh ->
  room (sh_topics sh) /\ room (sh_pubs sh) /\ room (sh_subs sh) /\ room (sh_entries sh) /\
  room (sh_loggers sh).
Proof.
  unfold has_room, room. rewrite !andb_true_iff, !Z.leb_le. intros [[[[? ?] ?] ?] ?] <-.
  cbn [shape sh_topics sh_pubs sh_subs sh_entries sh_loggers]. rewrite !uid_size_map. done.
Qed.

(** ** Each call is safe *)

Definition safe {A} (m : M (LSImpl J) A) s : Prop := wp m (fun _ s' => Good (shape s')) s.

Lemma safe_frames {A} (m : M (LSImpl J) A) sh s :
  Good sh -> frames m sh -> shape s = sh -> safe m s.
Proof. intros HG Hm Hs. eapply wp_frames; [done..|]. intros a s' ->. done. Qed.

Lemma safe_skip {A} (m : M (LSImpl J) A) s : safe m s -> safe (m ;; skip) s.
Proof. intros Hm. unfold safe. ls_step. eapply wp_mono; [done|]. intros a s' Hs'. by ls_step. Qed.

Lemma with_topic_frames {A} h (d : A) f sh :
  (forall i ts, hm_at (sh_topics sh) i = Some ts -> frames (J := J) (f i) sh) ->
  frames (with_topic h d f) sh.
Proof.
  intros Hf s Hs. unfold with_topic. ls_step. ls_step. rewrite Get_topics, Hs.
  destruct (hm_Get kTopic _ _) as [i|] eqn:E; [|by ls_step].
  destruct (Get_live _ _ _ _ E) as [ts Hts]. by eapply Hf.
Qed.

Lemma safe_with_topic {A} h (d : A) f sh s :
  Good sh ->
  (forall i ts, hm_at (sh_topics sh) i = Some ts -> safe (f i) s) ->
  shape s = sh -> safe (with_topic h d f) s.
Proof.
  intros HG Hf Hs. unfold safe, with_topic. ls_step. ls_step. rewrite Get_topics, Hs.
  destruct (hm_Get kTopic _ _) as [i|] eqn:E; [|ls_step; by rewrite Hs].
  destruct (Get_live _ _ _ _ E) as [ts Hts]. by eapply Hf.
Qed.

Lemma frames_get_of_topic {A} h (d : A) f sh : frames (get_of_topic (J := J) h d f) sh.
Proof. apply with_topic_frames. intros i ts Hi s Hs. by repeat ls_step. Qed.

(** The publisher [p] of entry [k] has been removed, and the entry forgets it. *)
Lemma EntryPub_unpublish sh sh' k e p :
  EntryPub sh -> hm_at (sh_entries sh) k = Some e -> e_publisher e = Some p ->
  sh_entries sh' = sh_entries sh ->
  (forall j d, j <> p -> hm_at (sh_pubs sh) j = Some d ->
     exists d', hm_at (sh_pubs sh') j = Some d' /\ p_topic d' = p_topic d) ->
  EntryPub (sh' <| sh_entries ::= hm_set k (e <| e_publisher := None |>) |>).
Proof.
  intros HE Hk Hp Hen Hpb.
  assert (Hat : forall j a, hm_at (hm_set k (e <| e_publisher := None |>) (sh_entries sh)) j = Some a ->
    e_publisher a = None \/ j <> k /\ hm_at (sh_entries sh) j = Some a).
  { intros j a. rewrite hm_at_set by done. case_decide; [intros [= <-]; by left|]. right. by split. }
  split; unfold fupd; cbn; rewrite Hen.
  - intros j a q [Ha|[Hj Ha]]%Hat Hq; [congruence|].
    destruct (ep_live sh HE j a q Ha Hq) as (x & Hx & Ex).
    destruct (Hpb q x) as (x' & Hx' & Ex'); [|done|exists x'; split; [done|congruence]].
    intros ->. by eapply Hj, (ep_inj sh HE).
  - intros j j' a a' q [Ha|[Hj Ha]]%Hat [Ha'|[Hj' Ha']]%Hat Hq Hq'; try congruence.
    by eapply (ep_inj sh HE).
Qed.

(** *** Network *)

Lemma safe_NetworkAnnounce name typeStr props pub sh s :
  Good sh -> room (sh_topics sh) -> shape s = sh ->
  safe (NetworkAnnounce (J := J) name typeStr props pub) s.
Proof.
  intros HG Hroom Hs. unfold safe, NetworkAnnounce. ls_step.
  eapply wp_mono; [by apply (wp_GetOrCreateTopic name sh)|].
  intros i s1 (HG1 & (t & Ht & _) & _). ls_step.
  eapply wp_mono; [by apply (wp_NetworkAnnounce_topic i t _ _ _ (shape s1))|].
  intros _ s2 [HG2 Hrt]. destruct (rt_topics _ _ Hrt i t Ht) as (t2 & Ht2 & _).
  assert (Hs2 : shape s2 = shape s2) by done. by repeat ls_step.
Qed.

Lemma safe_NetworkUnannounce name sh s :
  Good sh -> room (sh_topics sh) -> shape s = sh -> safe (NetworkUnannounce (J := J) name) s.
Proof.
  intros HG Hroom Hs. unfold safe, NetworkUnannounce. ls_step.
  eapply wp_mono; [by apply (wp_GetOrCreateTopic name sh)|].
  intros i s1 (HG1 & (t & Ht & _) & _).
  eapply wp_mono; [by apply (wp_RemoveNetworkPublisher i t (shape s1))|]. by intros _ s2 [? _].
Qed.

Lemma safe_NetworkPropertiesUpdate name update ack sh s :
  Good sh -> shape s = sh -> safe (NetworkPropertiesUpdate (J := J) name update ack) s.
Proof.
  intros HG Hs. unfold safe, NetworkPropertiesUpdate. ls_step. ls_step.
  destruct (m_nameTopics s !! name) as [i|] eqn:E; [|ls_step; by rewrite Hs].
  destruct (proj1 (st_names sh (proj1 HG) name i)) as (t & Ht & _); [by subst sh|].
  unfold NetworkPropertiesUpdate_topic. destruct ack; [ls_step; by rewrite Hs|].
  eapply safe_frames; [done| |done]. eapply frames_SetProperties; [apply HG|done].
Qed.

Lemma safe_NetworkSetValue h value sh s :
  Good sh -> shape s = sh -> safe (NetworkSetValue (J := J) h value) s.
Proof.
  intros HG Hs. unfold safe, NetworkSetValue. ls_step. ls_step. rewrite Get_topics, Hs.
  destruct (hm_Get kTopic _ _) as [i|] eqn:E; [|ls_step; by rewrite Hs].
  destruct (Get_live _ _ _ _ E) as [ts Hts]. ls_step. ls_step. ls_step.
  eapply wp_mono; [by apply (wp_SetValue i ts _ _ _ None sh)|].
  intros b s1 [HG1 Hrt]. destruct (rt_topics _ _ Hrt i ts Hts) as (t1 & Ht1 & _).
  assert (Hs1 : shape s1 = shape s1) by done. ls_step. ls_step. by_shape.
Qed.

Lemma frames_announce_publishers l t any sh :
  (forall k, k ∈ l -> is_Some (hm_at (sh_pubs sh) k)) ->
  frames (J := J) (announce_publishers l t any) sh.
Proof.
  revert any. induction l as [|k l IH]; intros any Hl s Hs; simpl; [by ls_step|].
  destruct (Hl k) as [p Hp]; [by left|]. ls_step. ls_step. ls_step.
  - ls_step. ls_step. apply IH; [set_solver|done].
  - apply IH; [set_solver|done].
Qed.

Lemma frames_StartNetwork sh : Struct sh -> frames (J := J) StartNetwork sh.
Proof.
  intros HS s Hs. unfold StartNetwork. ls_step. ls_step. ls_step. ls_step.
  set (s0 := fupd m_network _ s). assert (Hs0 : shape s0 = sh) by done. ls_step.
  eapply (wp_frames _ _ _ sh); [|done|].
  { apply frames_for_each. intros i Hi s1 Hs1.
    destruct (live_topics s0 sh i Hs0 Hi) as [ts Hts]. ls_step. ls_step. subst ts. ls_step.
    eapply wp_frames; [apply frames_announce_publishers|done|].
    - intros k Hk. destruct (lk_list _ _ _ _ (st_pubs sh HS) i _ k Hts Hk) as (p & -> & _). done.
    - intros [h|] s2 Hs2; by repeat ls_step. }
  intros _ s2 Hs2. ls_step. eapply (wp_frames _ _ _ sh); [|done|].
  { apply frames_for_each. intros k Hk s3 Hs3. apply elem_of_hm_live in Hk.
    assert (Hd : is_Some (hm_at (sh_subs sh) k)).
    { rewrite <- Hs0. cbn. rewrite hm_at_map. by apply fmap_is_Some. }
    destruct Hd as [d Hd]. ls_step. ls_step. subst d.
    destruct (sub_topic_live sh k _ HS Hd) as [ts Hts]. by repeat ls_step. }
  intros _ s3 Hs3. apply frames_for_each; [|done]. intros k Hk s4 Hs4. apply elem_of_hm_live in Hk.
  assert (Hd : is_Some (hm_at (sh_multis sh) k)).
  { rewrite <- Hs0. cbn. rewrite hm_at_map. by apply fmap_is_Some. }
  destruct Hd as [d Hd]. by repeat ls_step.
Qed.

Lemma safe_ClearNetwork sh s : Good sh -> shape s = sh -> safe (ClearNetwork (J := J)) s.
Proof.
  intros HG Hs. unfold safe, ClearNetwork. ls_step. ls_step. ls_step. ls_step.
  set (s0 := fupd m_network _ s). assert (Hs0 : shape s0 = sh) by done.
  apply (wp_for_each_inv _ _ (fun s' => Good (shape s') /\ retypes sh (shape s'))).
  - by rewrite Hs0.
  - intros i s1 Hi [HG1 Hrt1]. destruct (live_topics s0 sh i Hs0 Hi) as [ts Hts].
    destruct (rt_topics _ _ Hrt1 i ts Hts) as (t1 & Ht1 & _).
    eapply wp_mono; [by apply (wp_RemoveNetworkPublisher i t1 (shape s1))|].
    intros _ s2 [HG2 Hrt2]. split; [done|by etrans].
  - by intros s1 [? _].
Qed.

(** *** Topics *)

Lemma safe_GetTopic name sh s :
  Good sh -> room (sh_topics sh) -> shape s = sh -> safe (GetTopic (J := J) name) s.
Proof.
  intros HG Hroom Hs. unfold safe, GetTopic. ls_step; [ls_step; by rewrite Hs|]. ls_step.
  eapply wp_mono; [by apply (wp_GetOrCreateTopic name sh)|].
  intros i s1 (HG1 & (t & Ht & _) & _). assert (Hs1 : shape s1 = shape s1) by done.
  by repeat ls_step.
Qed.

Lemma frames_GetTopicExists h sh : Struct sh -> frames (J := J) (GetTopicExists h) sh.
Proof.
  intros HS s Hs. unfold GetTopicExists. ls_step.
  eapply wp_mono; [by apply (wp_GetTopic_handle h sh)|].
  intros [i|] s1 [Hs1 Hi]; [|by ls_step]. destruct (Hi i eq_refl) as [t Ht]. by repeat ls_step.
Qed.

Lemma frames_GetTopicFromHandle h sh : Struct sh -> frames (J := J) (GetTopicFromHandle h) sh.
Proof.
  intros HS s Hs. unfold GetTopicFromHandle. ls_step.
  eapply wp_mono; [by apply (wp_GetTopic_handle h sh)|].
  intros [i|] s1 [Hs1 Hi]; [|by ls_step]. destruct (Hi i eq_refl) as [t Ht]. by repeat ls_step.
Qed.

(** Writing a property and telling about it *)
Lemma frames_change_properties h f update sh :
  Struct sh -> (forall t, topic_shape (f t) = topic_shape t) ->
  frames (with_topic (J := J) h tt (fun i =>
    set_topic i f ;; PropertiesUpdated i update NT_EVENT_NONE true true)) sh.
Proof.
  intros HS Hf. apply with_topic_frames. intros i ts Hi s Hs. ls_step.
  eapply wp_set_topic_frame; [done..|by intros; apply Hf|]. intros s1 Hs1.
  by eapply frames_PropertiesUpdated.
Qed.

(** *** Publishers, subscribers and entries *)

Lemma safe_Subscribe h type typeStr options sh s :
  Good sh -> room (sh_subs sh) -> shape s = sh -> safe (Subscribe (J := J) h type typeStr options) s.
Proof.
  intros HG Hroom Hs. eapply safe_with_topic; [done| |done]. intros i ts Hi.
  unfold safe. ls_step. ls_step. ls_step; [ls_step; by rewrite Hs|]. ls_step.
  eapply wp_mono; [by apply (wp_AddLocalSubscriber i ts _ sh)|].
  intros k s1 (HG1 & _ & (d & Hd & _) & _). assert (Hs1 : shape s1 = shape s1) by done.
  by repeat ls_step.
Qed.

Lemma safe_SubscribeMultiple prefixes options sh s :
  Good sh -> shape s = sh -> safe (SubscribeMultiple (J := J) prefixes options) s.
Proof.
  intros HG Hs. unfold safe, SubscribeMultiple. ls_step. ls_step.
  destruct (kMaxMultiSubscribers <=? uid_size (m_multiSubscribers s))%nat eqn:Em;
    [ls_step; by rewrite Hs|].
  ls_step. eapply wp_mono; [apply (wp_AddMultiSubscriber _ _ sh); [done| |done]|].
  { by eapply multis_room. }
  intros k s1 [HG1 [d Hd]]. assert (Hs1 : shape s1 = shape s1) by done. by repeat ls_step.
Qed.

Lemma safe_Publish h type typeStr properties options sh s :
  Good sh -> room (sh_pubs sh) -> shape s = sh ->
  safe (Publish (J := J) h type typeStr properties options) s.
Proof.
  intros HG Hroom Hs. eapply safe_with_topic; [done| |done]. intros i ts Hi.
  unfold safe. ls_step; [ls_step; by rewrite Hs|].
  apply orb_false_iff in Heqb as [Hty%bool_decide_eq_false_1 _].
  ls_step. ls_step. ls_step; [ls_step; by rewrite Hs|]. ls_step. destruct HG as (HS & HE & HT).
  eapply wp_mono; [by apply (wp_AddLocalPublisher i ts _ _ sh)|].
  intros k s1 (HS1 & HT1 & Hkeep & _ & p & Hp & _). assert (Hs1 : shape s1 = shape s1) by done.
  assert (HE1 : EntryPub (shape s1)) by (eapply EntryPub_keep; [done|apply Hkeep..]).
  by repeat ls_step.
Qed.

Lemma safe_Unpublish h sh s :
  Good sh -> pub_free sh h -> shape s = sh -> safe (Unpublish (J := J) h) s.
Proof.
  intros HG Hfree Hs. unfold safe, Unpublish. ls_step; [by eapply wp_RemoveLocalPublisher_free|].
  ls_step. ls_step. assert (Ee : m_entries s = sh_entries sh) by (by subst sh). rewrite Ee.
  destruct (hm_Get kEntry _ _) as [k|] eqn:E; [|ls_step; by rewrite Hs].
  destruct (Get_live _ _ _ _ E) as [e He]. ls_step. ls_step.
  destruct (e_publisher e) as [p|] eqn:Ep; [|ls_step; by rewrite Hs].
  destruct HG as (HS & HE & HT). destruct (ep_live sh HE k e p He Ep) as (pd & Hp & _).
  ls_step. ls_step. ls_step. eapply wp_mono; [by apply (wp_RemoveLocalPublisher _ sh)|].
  intros _ s1 (HS1 & HT1 & Hd).
  rewrite (table_Get (sh_inst sh) kPublisher p_handle _ p pd) in Hd; [|apply HS|apply HS|done].
  destruct Hd as [_ Hpb Hen]. assert (He1 : hm_at (sh_entries (shape s1)) k = Some e) by (by rewrite Hen).
  eapply wp_set_entry; [done|done|]. intros s2 ->. split_and!; [by eapply Struct_set_entry| |by destruct HT1].
  by eapply (EntryPub_unpublish sh (shape s1) k e p).
Qed.

Lemma safe_add_entry i ts config sh s :
  Good sh -> hm_at (sh_topics sh) i = Some ts -> room (sh_subs sh) -> room (sh_entries sh) ->
  shape s = sh ->
  wp (let* k := AddLocalSubscriber (J := J) i config in AddEntry k)
    (fun e s' => Good (shape s') /\ is_Some (hm_at (sh_entries (shape s')) e) /\
       is_Some (hm_at (sh_topics (shape s')) i)) s.
Proof.
  intros HG Hi Hroom Hroom' Hs. ls_step.
  eapply wp_mono; [by apply (wp_AddLocalSubscriber i ts _ sh)|].
  intros k s1 (HG1 & Hk & (d & Hd & _) & Een & Elis & Hi1). destruct HG as (HS & _).
  eapply wp_mono; [apply (wp_AddEntry k d (shape s1)); try done|].
  - by rewrite Een.
  - intros j e. rewrite Een. by apply fresh_sub.
  - intros h l. rewrite Elis. intros Hl Hlk. destruct (st_listener sh HS h l Hl) as [_ Hs' _ _].
    destruct (Hs' k Hlk). congruence.
  - intros e s2 (HG2 & He & Ht). split_and!; [done..|]. by apply Ht.
Qed.

(** Subscribing and adding an entry, then reading the entry *)
Lemma bind_assoc {A B C} (m : M (LSImpl J) A) (f : A -> M (LSImpl J) B) (g : B -> M (LSImpl J) C) Q s :
  wp (bind (bind m f) g) Q s -> wp (bind m (fun a => bind (f a) g)) Q s.
Proof. unfold wp, bind. by destruct (m s) as [[a s']|]. Qed.

Lemma safe_GetEntry_topic h type typeStr options sh s :
  Good sh -> room (sh_subs sh) -> room (sh_entries sh) -> shape s = sh ->
  safe (GetEntry_topic (J := J) h type typeStr options) s.
Proof.
  intros HG Hroom Hroom' Hs. eapply safe_with_topic; [done| |done]. intros i ts Hi.
  unfold safe. ls_step. ls_step. ls_step; [ls_step; by rewrite Hs|]. apply bind_assoc. ls_step.
  eapply wp_mono; [by apply (safe_add_entry i ts _ sh)|].
  intros e s1 (HG1 & [x He] & _). assert (Hs1 : shape s1 = shape s1) by done. by repeat ls_step.
Qed.

Lemma safe_GetEntry_name name sh s :
  Good sh -> room (sh_topics sh) -> room (sh_subs sh) -> room (sh_entries sh) -> shape s = sh ->
  safe (GetEntry_name (J := J) name) s.
Proof.
  intros HG Hrt Hrs Hre Hs. unfold safe, GetEntry_name. ls_step; [ls_step; by rewrite Hs|]. ls_step.
  eapply wp_mono; [by apply (wp_GetOrCreateTopic name sh)|].
  intros i s1 (HG1 & (t & Ht & _) & Es & Ee). assert (Hs1 : shape s1 = shape s1) by done.
  ls_step. ls_step. ls_step; [by ls_step|]. ls_step; [by ls_step|]. apply bind_assoc. ls_step.
  eapply wp_mono; [apply (safe_add_entry i t _ (shape s1)); try done; by rewrite ?Es, ?Ee|].
  intros e s2 (HG2 & [x He] & [t2 Ht2]). assert (Hs2 : shape s2 = shape s2) by done.
  ls_step. ls_step. ls_step. ls_step. ls_step. by_shape.
Qed.

Lemma safe_Release h sh s :
  Good sh -> sub_free sh h -> pub_free sh h -> shape s = sh -> safe (Release (J := J) h) s.
Proof.
  intros HG Hsf Hpf Hs. unfold safe, Release. ls_step; [by eapply wp_RemoveSubEntry|].
  ls_step; [by eapply safe_Unpublish|]. ls_step; [by eapply wp_RemoveSubEntry|].
  ls_step; [by eapply wp_RemoveMultiSubscriber|]. ls_step. by rewrite Hs.
Qed.

(** *** Reading values *)

Lemma frames_GetSubEntryValue h sh : Struct sh -> frames (J := J) (GetSubEntryValue h) sh.
Proof.
  intros HS s Hs. unfold GetSubEntryValue. ls_step.
  eapply wp_mono; [by apply (wp_GetSubEntry h sh)|].
  intros [k|] s1 [Hs1 Hk]; [|by ls_step]. destruct (Hk k eq_refl) as [d Hd]. ls_step. ls_step. subst d.
  destruct (sub_topic_live sh k _ HS Hd) as [ts Hts]. by repeat ls_step.
Qed.

Lemma frames_GetAtomic {A} (as_ : Value -> option A) h d sh :
  Struct sh -> frames (J := J) (GetAtomic as_ h d) sh.
Proof.
  intros HS s Hs. unfold GetAtomic. ls_step. eapply wp_frames; [by apply frames_GetSubEntryValue|done|].
  intros [v|] s1 Hs1; [|by ls_step]. by destruct (as_ v); ls_step.
Qed.

Lemma frames_reset_queue k sh :
  Struct sh -> is_Some (hm_at (sh_subs sh) k) ->
  frames (J := J) (set_subscriber k (fun d => d <| s_pollStorage ::= cb_reset |>)) sh.
Proof.
  intros HS [d Hd] s Hs. eapply wp_set_subscriber_frame; [done..| |done].
  intros d' _ Ed. by eapply sub_shape_reset.
Qed.

Lemma frames_ReadQueueValue h sh : Struct sh -> frames (J := J) (ReadQueueValue h) sh.
Proof.
  intros HS s Hs. unfold ReadQueueValue. ls_step.
  eapply wp_mono; [by apply (wp_GetSubEntry h sh)|].
  intros [k|] s1 [Hs1 Hk]; [|by ls_step]. pose proof (Hk k eq_refl) as Hd. destruct (Hk k eq_refl) as [d Hd'].
  ls_step. ls_step. ls_step. eapply wp_frames; [by apply frames_reset_queue|done|].
  intros _ s2 Hs2. by ls_step.
Qed.

Lemma frames_ReadQueue {A} (as_ : Value -> option A) h sh :
  Struct sh -> frames (J := J) (ReadQueue as_ h) sh.
Proof.
  intros HS s Hs. unfold ReadQueue. ls_step.
  eapply wp_mono; [by apply (wp_GetSubEntry h sh)|].
  intros [k|] s1 [Hs1 Hk]; [|by ls_step]. pose proof (Hk k eq_refl) as Hd. destruct (Hk k eq_refl) as [d Hd'].
  ls_step. ls_step. ls_step. eapply wp_frames; [by apply frames_reset_queue|done|].
  intros _ s2 Hs2. by ls_step.
Qed.

Lemma frames_GetEntryValue h sh : Struct sh -> frames (J := J) (GetEntryValue h) sh.
Proof.
  intros HS s Hs. unfold GetEntryValue. ls_step.
  eapply wp_mono; [by apply (wp_GetSubEntry h sh)|].
  intros [k|] s1 [Hs1 Hk]; [|by ls_step]. destruct (Hk k eq_refl) as [d Hd]. ls_step. ls_step. subst d.
  destruct (sub_topic_live sh k _ HS Hd) as [ts Hts]. ls_step. ls_step. cbn zeta.
  ls_step; [by ls_step|]. ls_step; [by apply frames_convert_value|by ls_step].
Qed.

Lemma frames_with_entry {A} h (d : A) f sh :
  Struct sh -> (forall i ts, hm_at (sh_topics sh) i = Some ts -> frames (J := J) (f i) sh) ->
  frames (with_entry h d f) sh.
Proof.
  intros HS Hf s Hs. unfold with_entry. ls_step. ls_step.
  assert (Ee : m_entries s = sh_entries sh) by (by subst sh). rewrite Ee.
  destruct (hm_Get kEntry _ _) as [k|] eqn:E; [|by ls_step].
  destruct (Get_live _ _ _ _ E) as [e He]. destruct (entry_sub_live sh k e HS He) as [ss Hss].
  ls_step. ls_step. ls_step. ls_step. subst ss. destruct (sub_topic_live sh _ _ HS Hss) as [ts Hts].
  by eapply Hf.
Qed.

Lemma frames_get_of_subentry {A} h (d : A) f sh :
  Struct sh -> frames (get_of_subentry (J := J) h d f) sh.
Proof.
  intros HS s Hs. unfold get_of_subentry. ls_step.
  eapply wp_mono; [by apply (wp_GetSubEntry h sh)|].
  intros [k|] s1 [Hs1 Hk]; [|by ls_step]. destruct (Hk k eq_refl) as [x Hd]. ls_step. ls_step. subst x.
  destruct (sub_topic_live sh k _ HS Hd) as [ts Hts]. by repeat ls_step.
Qed.

(** *** Data logs *)

Lemma frames_StartDataLog_topic d prefix now i ts sh :
  hm_at (sh_topics sh) i = Some ts -> frames (J := J) (StartDataLog_topic d prefix now i) sh.
Proof.
  intros Hi s Hs. unfold StartDataLog_topic. ls_step. ls_step. ls_step; [by ls_step|]. ls_step.
  eapply wp_frames; [apply frames_DataLogger_Start|done|]. intros e s1 Hs1. cbn zeta.
  ls_step. ls_step. ls_step; [by ls_step|]. ls_step. ls_step. by apply frames_Append.
Qed.

Lemma Good_loggers sh m :
  Good sh -> table (sh_inst sh) kDataLogger d_handle m -> Good (sh <| sh_loggers := m |>).
Proof.
  intros (HS & HE & HT) Hm. split_and!; [by apply Struct_loggers|by destruct HE|by destruct HT].
Qed.

Lemma safe_StartDataLog log prefix logPrefix sh s :
  Good sh -> room (sh_loggers sh) -> shape s = sh -> safe (StartDataLog (J := J) log prefix logPrefix) s.
Proof.
  intros HG Hroom Hs. unfold safe, StartDataLog. ls_step. ls_step.
  destruct (hm_Add _ _ _ _ _) as [k m] eqn:Ea.
  assert (Ein : sh_inst sh = m_inst s) by (by subst sh).
  destruct (table_Add (sh_inst sh) kDataLogger d_handle (sh_loggers sh) kReuse
    (DataLoggerData_make log prefix logPrefix) k m) as (Htab & _ & Hat);
    [apply HG|done|by rewrite Ein; subst sh|done|].
  ls_step. ls_step. set (sh1 := sh <| sh_loggers := m |>).
  match goal with |- wp _ _ ?x => assert (Hs1 : shape x = sh1) by (by subst sh) end.
  assert (Hk : exists d, hm_at (sh_loggers sh1) k = Some d).
  { eexists. unfold sh1, fupd. cbn. by rewrite Hat, decide_True. }
  destruct Hk as [d Hk]. ls_step. ls_step. ls_step. ls_step. ls_step.
  eapply (wp_frames _ _ _ sh1); [|done|].
  - apply frames_for_each. intros i Hi. destruct (live_topics s sh i Hs Hi) as [ts Hts].
    by eapply (frames_StartDataLog_topic _ _ _ i ts).
  - intros _ s2 Hs2. ls_step. rewrite Hs2. by apply Good_loggers.
Qed.

Lemma safe_StopDataLog h sh s : Good sh -> shape s = sh -> safe (StopDataLog (J := J) h) s.
Proof.
  intros HG Hs. unfold safe, StopDataLog. ls_step. ls_step.
  destruct (hm_Remove kDataLogger h (m_dataloggers s)) as [o m] eqn:Er.
  assert (El : sh_loggers sh = m_dataloggers s) by (by subst sh).
  destruct (table_Remove _ _ _ (sh_loggers sh) h o m (st_l sh (proj1 HG))) as [Htab _]; [by rewrite El|].
  ls_step. ls_step. set (sh1 := sh <| sh_loggers := m |>).
  match goal with |- wp _ _ ?x => assert (Hs1 : shape x = sh1) by (by subst sh) end.
  assert (HG1 : Good sh1) by (by apply Good_loggers).
  destruct o as [d|]; [|ls_step; by rewrite Hs1]. ls_step. ls_step.
  eapply (safe_frames _ sh1); [done| |done]. apply frames_for_each. intros i Hi s2 Hs2.
  destruct (live_topics s sh i Hs Hi) as [ts Hts].
  assert (Hts1 : hm_at (sh_topics sh1) i = Some ts) by done.
  unfold StopDataLog_topic. ls_step. ls_step.
  destruct (find_datalog h _) as [[x e]|]; by repeat ls_step.
Qed.

Lemma Good_init inst : 0 <= inst -> Good (shape (LSImpl_init (J := J) inst)).
Proof.
  intros Hi. split_and!; [by apply Struct_init|split; by intros [|?] ?|split; by intros [|?] ?].
Qed.

(** *** All calls *)

Lemma call_safe c s :
  Good (shape s) -> permitted s c = true -> safe (call c) s.
Proof.
  intros HG [Hroom Hc]%andb_true_iff.
  destruct (has_room_shape s _ Hroom eq_refl) as (Rt & Rp & Rs & Re & Rl).
  pose proof (proj1 HG) as HS. pose proof (eq_refl (shape s)) as Hs.
  destruct c; cbn [call]; try apply safe_skip.
  - by eapply safe_NetworkAnnounce.
  - by eapply safe_NetworkUnannounce.
  - by eapply safe_NetworkPropertiesUpdate.
  - by eapply safe_NetworkSetValue.
  - by eapply safe_frames; [done|apply frames_StartNetwork|].
  - by eapply safe_ClearNetwork.
  - by eapply safe_GetTopic.
  - by eapply safe_frames; [done|apply frames_get_of_topic|].
  - by eapply safe_frames; [done|apply frames_GetTopicExists|].
  - eapply safe_frames; [done|apply with_topic_frames; intros; by eapply frames_SetPersistent|done].
  - eapply safe_frames; [done|apply with_topic_frames; intros; by eapply frames_SetRetained|done].
  - by eapply safe_frames; [done|apply frames_change_properties|].
  - by eapply safe_frames; [done|apply frames_change_properties|].
  - unfold SetTopicProperties. destruct update; try (unfold safe; by ls_step).
    eapply safe_frames; [done| |done]. apply with_topic_frames. intros i ts Hi s0 Hs0. ls_step.
    eapply wp_frames; [by eapply frames_SetProperties|done|]. intros. by ls_step.
  - by eapply safe_Subscribe.
  - eapply wp_RemoveSubEntry; [done| |done]. by apply sub_owned_free, negb_true_iff.
  - by eapply safe_SubscribeMultiple.
  - by eapply wp_RemoveMultiSubscriber.
  - by eapply safe_Publish.
  - eapply safe_Unpublish; [done| |done]. by apply pub_owned_free, negb_true_iff.
  - by eapply safe_GetEntry_topic.
  - by eapply safe_GetEntry_name.
  - eapply wp_RemoveSubEntry; [done| |done]. by apply sub_owned_free, negb_true_iff.
  - apply andb_true_iff in Hc as [Hc1 Hc2].
    eapply safe_Release; [done|by apply sub_owned_free, negb_true_iff|
      by apply pub_owned_free, negb_true_iff|done].
  - by eapply safe_frames; [done|apply frames_GetTopicFromHandle|].
  - by eapply wp_SetEntryValue.
  - by eapply wp_SetDefaultEntryValue.
  - by eapply safe_frames; [done|apply frames_GetAtomic|].
  - by eapply safe_frames; [done|apply frames_ReadQueueValue|].
  - by eapply safe_frames; [done|apply frames_ReadQueue|].
  - by eapply safe_frames; [done|apply frames_GetEntryValue|].
  - eapply safe_frames; [done|apply frames_with_entry; [done|intros; by eapply frames_SetFlags]|done].
  - eapply safe_frames; [done|apply frames_with_entry; [done|intros i ts Hi s0 Hs0; by repeat ls_step]|done].
  - by eapply safe_frames; [done|apply frames_get_of_subentry|].
  - by eapply wp_AddListener_prefixes.
  - by eapply wp_AddListener_handle.
  - by eapply wp_RemoveListener_impl.
  - by eapply safe_StartDataLog.
  - by eapply safe_StopDataLog.
  - unfold safe, Reset. ls_step. apply (Good_init (m_inst s)). apply HS.
Qed.

Lemma calls_safe cs s :
  Good (shape s) -> all_permitted cs s = true -> safe (calls cs) s.
Proof.
  revert s. induction cs as [|c cs IH]; intros s HG Hp; simpl; [unfold safe; by ls_step|].
  cbn [all_permitted] in Hp. apply andb_true_iff in Hp as [Hc Hp]. unfold safe. ls_step.
  pose proof (call_safe c s HG Hc) as Hsafe. unfold safe, wp in *.
  destruct (call c s) as [[a s1]|]; [|done]. by apply IH.
Qed.
End Safety.
