(* ===== verification/LocalValues.v ===== *)
(** * LocalValues: what setting a value does

    The exact effect of [SetValue] on the queues of the subscribers, the last value
    of the topic and the network, and from it the behaviour of the publishing
    functions of the interface. *)

From S2P Require Import Prelude NtTypes CircularBuffer Handles Monads LocalTypes LocalStorage.
From S2P Require Import LocalShape LocalFrames LocalInv LocalObjects LocalOps LocalSafety.

Local Open Scope Z_scope.

(** ** What a subscriber accepts *)

(** A value from the network or from the publisher with the given handle, which may
    equal the last value, is queued for the subscriber. *)
Definition accepts (d : SubscriberData) (remote dup : bool) (pub : option Z) : bool :=
  let o := c_opts (s_config d) in
  s_active d && (keepDuplicates o || negb dup) &&
  (if remote then negb (disableRemote o) else negb (disableLocal o)) &&
  match pub with Some h => negb (excludePublisher o =? h) | None => true end.

Definition receive (remote dup : bool) (pub : option Z) (v : Value) (d : SubscriberData)
  : SubscriberData :=
  if accepts d remote dup pub then d <| s_pollStorage ::= cb_push_back v |> else d.

(** The events of the trace that go to the network. *)
Definition is_net {J} (o : Out J) : bool :=
  match o with
  | NetPublish _ _ _ _ _ _ | NetUnpublish _ _ | NetSetProperties _ _ _
  | NetSubscribe _ _ _ | NetUnsubscribe _ | NetSetValue _ _ => true
  | _ => false
  end.
Definition net_out {J} (s : LSImpl J) : list (Out J) := filter (fun o => is_net o = true) (out s).

Section Values.
Context {J : Type} `{Json J} `{Env}.
Implicit Types (s : LSImpl J) (sh : Shape).

(** ** Steps on known states *)

(** Objects and their shapes *)
Lemma shape_topic s i t :
  hm_at (m_topics s) i = Some t -> hm_at (sh_topics (shape s)) i = Some (topic_shape t).
Proof. intros Hi. cbn. by rewrite hm_at_map, Hi. Qed.

Lemma topic_of_shape s i ts :
  hm_at (sh_topics (shape s)) i = Some ts ->
  exists t, hm_at (m_topics s) i = Some t /\ ts = topic_shape t.
Proof. cbn. rewrite hm_at_map, fmap_Some. naive_solver. Qed.

Lemma shape_sub s k d :
  hm_at (m_subscribers s) k = Some d -> hm_at (sh_subs (shape s)) k = Some (sub_shape d).
Proof. intros Hi. cbn. by rewrite hm_at_map, Hi. Qed.

Lemma shape_set_topic s i t :
  shape (s <| m_topics ::= hm_set i t |>) = shape s <| sh_topics ::= hm_set i (topic_shape t) |>.
Proof. unfold shape, fupd. cbn. by rewrite hm_map_set. Qed.

(** Reading an object, as an equation *)
Lemma topic_run s i t : hm_at (m_topics s) i = Some t -> topic i s = Some (t, s).
Proof. unfold topic, bind, get, deref. by intros ->. Qed.
Lemma publisher_run s p pd : hm_at (m_publishers s) p = Some pd -> publisher p s = Some (pd, s).
Proof. unfold publisher, bind, get, deref. by intros ->. Qed.

Lemma run_topic i t (Q : TopicData J -> LSImpl J -> Prop) s :
  hm_at (m_topics s) i = Some t -> Q t s -> wp (topic i) Q s.
Proof. intros Ht HQ. unfold topic. by repeat wp_step. Qed.

Lemma run_set_topic i f t (Q : unit -> LSImpl J -> Prop) s :
  hm_at (m_topics s) i = Some t -> Q tt (s <| m_topics ::= hm_set i (f t) |>) ->
  wp (set_topic i f) Q s.
Proof. intros Ht HQ. unfold set_topic. wp_step. eapply run_topic; [done|]. by wp_step. Qed.

Lemma run_subscriber k d (Q : SubscriberData -> LSImpl J -> Prop) s :
  hm_at (m_subscribers s) k = Some d -> Q d s -> wp (subscriber k) Q s.
Proof. intros Ht HQ. unfold subscriber. by repeat wp_step. Qed.

Lemma run_set_subscriber k f d (Q : unit -> LSImpl J -> Prop) s :
  hm_at (m_subscribers s) k = Some d -> Q tt (s <| m_subscribers ::= hm_set k (f d) |>) ->
  wp (set_subscriber k f) Q s.
Proof. intros Ht HQ. unfold set_subscriber. wp_step. eapply run_subscriber; [done|]. by wp_step. Qed.

Lemma run_publisher k p (Q : PublisherData -> LSImpl J -> Prop) s :
  hm_at (m_publishers s) k = Some p -> Q p s -> wp (publisher k) Q s.
Proof. intros Ht HQ. unfold publisher. by repeat wp_step. Qed.

Lemma run_multiSubscriber k d (Q : MultiSubscriberData -> LSImpl J -> Prop) s :
  hm_at (m_multiSubscribers s) k = Some d -> Q d s -> wp (multiSubscriber k) Q s.
Proof. intros Ht HQ. unfold multiSubscriber. by repeat wp_step. Qed.

Lemma run_emit o (Q : unit -> LSImpl J -> Prop) s :
  Q tt (s <| out ::= fun l => l ++ [o] |>) -> wp (emit o) Q s.
Proof. intros HQ. unfold emit. by wp_step. Qed.

(** [s'] is [s] but for its subscribers and events that do not go to the network. *)
Record local_step s s' : Prop := {
  ls_state : s' = s <| m_subscribers := m_subscribers s' |> <| out := out s' |>;
  ls_net : net_out s' = net_out s;
}.

Lemma local_step_refl s : local_step s s.
Proof. split; [by destruct s|done]. Qed.

Lemma local_step_trans s1 s2 s3 : local_step s1 s2 -> local_step s2 s3 -> local_step s1 s3.
Proof. intros [E1 N1] [E2 N2]. split; [rewrite E2, E1; done|congruence]. Qed.

Lemma local_step_emit s s' o :
  local_step s s' -> is_net o = false -> local_step s (s' <| out ::= fun l => l ++ [o] |>).
Proof.
  intros [E N] Ho. split; [rewrite E; done|]. unfold net_out, fupd in *. cbn.
  rewrite filter_app, filter_cons, decide_False, filter_nil, app_nil_r by congruence. done.
Qed.

Lemma local_step_subs s s' f :
  local_step s s' -> local_step s (s' <| m_subscribers ::= f |>).
Proof. intros [E N]. split; [rewrite E; done|done]. Qed.

(** ** Notification of subscribers *)

(** The handle of the publisher a value comes from. *)
Definition pub_handle s (pub : option nat) : option Z :=
  k ← pub; p ← hm_at (m_publishers s) k; Some (p_handle p).

Lemma run_NotifySubscriber i t flags dup pub k d s :
  hm_at (m_topics s) i = Some t -> hm_at (m_subscribers s) k = Some d ->
  (forall p, pub = Some p -> is_Some (hm_at (m_publishers s) p)) ->
  wp (NotifySubscriber i flags dup pub k)
    (fun _ s' => local_step s s' /\ m_subscribers s' = hm_set k
       (receive (has_bits flags NT_EVENT_VALUE_REMOTE) dup (pub_handle s pub) (t_lastValue t) d)
       (m_subscribers s)) s.
Proof.
  intros Ht Hd Hp. unfold NotifySubscriber. wp_step. eapply run_subscriber; [done|]. cbn zeta.
  set (o := c_opts (s_config d)).
  set (remote := has_bits flags NT_EVENT_VALUE_REMOTE).
  assert (Hrej : receive remote dup (pub_handle s pub) (t_lastValue t) d = d ->
    local_step s s /\ m_subscribers s = hm_set k
      (receive remote dup (pub_handle s pub) (t_lastValue t) d) (m_subscribers s)).
  { intros ->. rewrite hm_set_id by done. split; [apply local_step_refl|done]. }
  assert (Ea : accepts d remote dup (pub_handle s pub) =
    (s_active d && (keepDuplicates o || negb dup) &&
      ((remote && negb (disableRemote o)) || (negb remote && negb (disableLocal o)))) &&
    match pub_handle s pub with Some h => negb (excludePublisher o =? h) | None => true end).
  { unfold accepts. fold o. by destruct remote; simpl; rewrite ?orb_false_r. }
  wp_step; [|wp_step; apply Hrej; unfold receive; by rewrite Ea].
  rewrite andb_true_l in Ea. wp_step.
  eapply (wp_mono _ (fun b s' => s' = s /\ b = negb (accepts d remote dup (pub_handle s pub)))).
  { destruct pub as [p|]; [|by wp_step; rewrite Ea]. destruct (Hp p eq_refl) as [pd Hpd].
    wp_step. eapply run_publisher; [done|]. wp_step. split; [done|].
    rewrite Ea. unfold pub_handle. cbn. rewrite Hpd. cbn. by rewrite negb_involutive. }
  intros b s1 [-> ->]. rewrite negb_involutive.
  wp_step; [|intros E; apply Hrej; unfold receive; by rewrite E].
  intros E. unfold receive. rewrite E. wp_step. eapply run_topic; [done|]. wp_step.
  eapply run_set_subscriber; [done|]. wp_step. apply run_emit.
  assert (Hls : local_step s (s <| m_subscribers ::=
    hm_set k (d <| s_pollStorage ::= cb_push_back (t_lastValue t) |>) |>
    <| out ::= fun l => l ++ [SignalSet (s_handle d)] |>)).
  { apply local_step_emit; [|done]. apply local_step_subs, local_step_refl. }
  wp_step; [|by intros _]. intros _. apply run_emit. split; [by apply local_step_emit|done].
Qed.

(** The loop over the subscribers of the topic *)
Lemma run_notify_subscribers i t flags dup pub l s :
  hm_at (m_topics s) i = Some t -> NoDup l ->
  (forall k, k ∈ l -> is_Some (hm_at (m_subscribers s) k)) ->
  (forall p, pub = Some p -> is_Some (hm_at (m_publishers s) p)) ->
  wp (for_each l (NotifySubscriber i flags dup pub))
    (fun _ s' => local_step s s' /\ forall k, hm_at (m_subscribers s') k =
       (if decide (k ∈ l) then receive (has_bits flags NT_EVENT_VALUE_REMOTE) dup
          (pub_handle s pub) (t_lastValue t) else id) <$> hm_at (m_subscribers s) k) s.
Proof.
  intros Ht Hnd Hl Hp. set (f := receive _ _ _ _).
  apply (wp_for_each _ _ (fun dn s' => local_step s s' /\ forall k, hm_at (m_subscribers s') k =
    (if decide (k ∈ dn) then f else id) <$> hm_at (m_subscribers s) k)); [| |done].
  - split; [apply local_step_refl|]. intros k. rewrite decide_False by apply not_elem_of_nil.
    by destruct (hm_at _ k).
  - intros dn k rest s1 El [Hls Hat].
    assert (Hnk : k ∉ dn).
    { rewrite El in Hnd. apply NoDup_app in Hnd as (_ & Hn & _). intros Hin. apply (Hn k Hin). left. }
    destruct (Hl k) as [d Hd]; [rewrite El; set_solver|].
    assert (Hd1 : hm_at (m_subscribers s1) k = Some d) by (by rewrite Hat, decide_False, Hd by done).
    assert (Et : m_topics s1 = m_topics s) by (by rewrite (ls_state _ _ Hls)).
    assert (Ep : m_publishers s1 = m_publishers s) by (by rewrite (ls_state _ _ Hls)).
    eapply wp_mono; [apply (run_NotifySubscriber i t _ _ _ k d); rewrite ?Et, ?Ep; done|].
    intros [] s2 [Hls2 Es2]. split; [by eapply local_step_trans|]. intros j.
    replace (pub_handle s1 pub) with (pub_handle s pub) in Es2 by (unfold pub_handle; by rewrite Ep).
    rewrite Es2, hm_at_set by done. case_decide as E.
    + rewrite <- E, Hd, decide_True by set_solver. done.
    + rewrite Hat. repeat case_decide; try done; set_solver.
Qed.

Lemma run_notify_multis i t flags dup l s :
  hm_at (m_topics s) i = Some t ->
  (forall k, k ∈ l -> is_Some (hm_at (m_multiSubscribers s) k)) ->
  wp (for_each l (NotifyMultiSubscriber i flags dup))
    (fun _ s' => local_step s s' /\ m_subscribers s' = m_subscribers s) s.
Proof.
  intros Ht Hl.
  apply (wp_for_each_inv _ _ (fun s' => local_step s s' /\ m_subscribers s' = m_subscribers s)).
  - split; [apply local_step_refl|done].
  - intros k s1 Hk [Hls Es]. destruct (Hl k Hk) as [d Hd].
    assert (Et : m_topics s1 = m_topics s) by (by rewrite (ls_state _ _ Hls)).
    assert (Em : m_multiSubscribers s1 = m_multiSubscribers s) by (by rewrite (ls_state _ _ Hls)).
    rewrite <- Et in Ht. rewrite <- Em in Hd. unfold NotifyMultiSubscriber. wp_step.
    eapply run_multiSubscriber; [done|]. wp_step; [|by intros _]. intros _. wp_step. apply run_emit.
    wp_step. eapply run_topic; [done|].
    assert (Hls' : local_step s (s1 <| out ::= fun l => l ++ [SignalSet (ms_handle d)] |>))
      by (by apply local_step_emit).
    wp_step; [|by intros _]. intros _. apply run_emit. split; [by apply local_step_emit|done].
  - done.
Qed.

(** ** SetValue *)

(** The topic after it has taken a value. *)
Definition stored (v : Value) (t : TopicData J) : TopicData J :=
  t <| t_type := value_type v |> <| t_lastValue := v |> <| t_lastValueFromNetwork := false |>.

(** The topic accepts values of the type. *)
Definition type_fits (t : TopicData J) (v : Value) : bool :=
  type_is (t_type t) NT_UNASSIGNED || type_is (t_type t) (value_type v).

(** [s'] is [s] but for topics, subscribers and events that do not go to the
    network. *)
Record value_step s s' : Prop := {
  vs_state : s' = s <| m_topics := m_topics s' |> <| m_subscribers := m_subscribers s' |>
                    <| out := out s' |>;
  vs_net : net_out s' = net_out s;
}.

(** Topic [i] holds the value [v] and its subscribers that accept it have it in their
    queue; nothing else has changed. *)
Record value_set (i : nat) (t : TopicData J) (v : Value) (remote dup : bool) (pub : option Z)
    s s' : Prop := {
  vd_topics : m_topics s' = hm_set i (stored v t) (m_topics s);
  vd_subs : forall k, hm_at (m_subscribers s') k =
    (if decide (k ∈ t_localSubscribers t) then receive remote dup pub v else id)
      <$> hm_at (m_subscribers s) k;
}.

Lemma run_append_logs (l : list DataLoggerEntry) v s :
  wp (for_each l (fun e => Append e v))
    (fun _ s' => value_step s s' /\ m_topics s' = m_topics s /\ m_subscribers s' = m_subscribers s) s.
Proof.
  apply (wp_for_each_inv _ _ (fun s' => value_step s s' /\ m_topics s' = m_topics s /\
    m_subscribers s' = m_subscribers s)); [| |done].
  - split_and!; [split; [by destruct s|done]|done|done].
  - intros e s1 _ ([E N] & Et & Es). unfold Append. wp_step; [|by intros _]. intros _. apply run_emit.
    split_and!; [|done|done]. split; [rewrite E; done|].
    unfold net_out, fupd in *. cbn. by rewrite filter_app, filter_cons, decide_False, filter_nil, app_nil_r.
Qed.

Lemma run_NotifyValue i t flags dup pub s :
  Struct (shape s) -> hm_at (m_topics s) i = Some t ->
  (forall p, pub = Some p -> is_Some (hm_at (m_publishers s) p)) ->
  wp (NotifyValue i flags dup pub)
    (fun _ s' => local_step s s' /\ forall k, hm_at (m_subscribers s') k =
       (if decide (k ∈ t_localSubscribers t) then receive (has_bits flags NT_EVENT_VALUE_REMOTE) dup
          (pub_handle s pub) (t_lastValue t) else id) <$> hm_at (m_subscribers s) k) s.
Proof.
  intros HS Ht Hp. assert (Hts : hm_at (sh_topics (shape s)) i = Some (topic_shape t)).
  { cbn. by rewrite hm_at_map, Ht. }
  unfold NotifyValue. wp_step. eapply run_topic; [done|]. wp_step. eapply wp_mono.
  - apply (run_notify_subscribers i t); [done| | |done].
    + apply (lk_nodup _ _ _ _ (st_subs _ HS) i _ Hts).
    + intros k Hk. destruct (lk_list _ _ _ _ (st_subs _ HS) i _ k Hts Hk) as (d & Hd & _).
      cbn in Hd. rewrite hm_at_map in Hd. by apply fmap_Some in Hd as (x & -> & _).
  - intros [] s1 [Hls Hat].
    assert (Et : m_topics s1 = m_topics s) by (by rewrite (ls_state _ _ Hls)).
    assert (Em : m_multiSubscribers s1 = m_multiSubscribers s) by (by rewrite (ls_state _ _ Hls)).
    eapply wp_mono; [apply (run_notify_multis i t); rewrite ?Et, ?Em; [done|]|].
    + intros k Hk. apply (mo_match _ _ (st_multis _ HS i _ Hts)) in Hk as (x & Hx & _).
      cbn in Hx. rewrite hm_at_map in Hx. by apply fmap_Some in Hx as (y & -> & _).
    + intros [] s2 [Hls2 ->]. split; [by eapply local_step_trans|done].
Qed.

Lemma run_SetValue i t v flags dup pub s :
  Struct (shape s) -> hm_at (m_topics s) i = Some t ->
  (forall p, pub = Some p -> is_Some (hm_at (m_publishers s) p)) ->
  wp (SetValue i v flags dup pub)
    (fun b s' => b = type_fits t v /\ value_step s s' /\
       if type_fits t v && newer t v
       then value_set i t v (has_bits flags NT_EVENT_VALUE_REMOTE) dup (pub_handle s pub) s s'
       else m_topics s' = m_topics s /\ m_subscribers s' = m_subscribers s) s.
Proof.
  intros HS Ht Hp. assert (Hrefl : value_step s s) by (split; [by destruct s|done]).
  unfold SetValue. wp_step. eapply run_topic; [done|].
  replace (negb (type_is (t_type t) NT_UNASSIGNED) && negb (type_is (t_type t) (value_type v)))
    with (negb (type_fits t v)) by (unfold type_fits; by rewrite negb_orb).
  destruct (type_fits t v) eqn:Ef; cbn [negb andb]; [|by wp_step]. wp_step.
  eapply (wp_mono _ (fun _ s' => value_step s s' /\ (if newer t v
    then value_set i t v (has_bits flags NT_EVENT_VALUE_REMOTE) dup (pub_handle s pub) s s'
    else m_topics s' = m_topics s /\ m_subscribers s' = m_subscribers s))).
  - destruct (newer t v); cbn [when]; [|by wp_step]. wp_step.
    eapply run_set_topic; [done|]. set (s1 := fupd m_topics _ s).
    assert (Ht1 : hm_at (m_topics s1) i = Some (stored v t)).
    { unfold s1, fupd. cbn. by rewrite hm_at_set, decide_True by done. }
    eapply wp_mono; [apply (run_NotifyValue i (stored v t)); [|done|done]|].
    + assert (Hts : hm_at (sh_topics (shape s)) i = Some (topic_shape t)).
      { cbn. by rewrite hm_at_map, Ht. }
      replace (shape s1) with (shape s <| sh_topics ::= hm_set i (topic_shape (stored v t)) |>).
      * eapply Struct_retype; [done..|]. by destruct t.
      * unfold s1, shape, fupd. cbn. by rewrite hm_map_set.
    + intros [] s2 [[E N] Hat].
      assert (Et : m_topics s2 = hm_set i (stored v t) (m_topics s)) by (by rewrite E).
      split; [|by split]. split; [|exact N]. rewrite E at 1. unfold s1, fupd. cbn. by rewrite Et.
  - intros [] s1 [Hvs Hpost]. wp_step.
    assert (Ht1 : exists t1, hm_at (m_topics s1) i = Some t1).
    { destruct (newer t v); [destruct Hpost as [-> _]|destruct Hpost as [-> _]; by eexists].
      rewrite hm_at_set, decide_True by done. by eexists. }
    destruct Ht1 as [t1 Ht1]. eapply run_topic; [done|]. wp_step.
    eapply (wp_mono _ (fun _ s' => value_step s1 s' /\ m_topics s' = m_topics s1 /\
      m_subscribers s' = m_subscribers s1)).
    + wp_step; [intros _; apply run_append_logs|]. intros _.
      split_and!; [split; [by destruct s1|done]|done|done].
    + intros [] s2 ([E2 N2] & Et2 & Es2). wp_step. split; [done|]. destruct Hvs as [E1 N1]. split.
      * split; [|congruence]. rewrite E2 at 1. rewrite E1 at 1. unfold fupd. cbn. by rewrite Et2, Es2.
      * destruct (newer t v); [|rewrite Et2, Es2; done].
        destruct Hpost as [Hpt Hps]. split; [by rewrite Et2|]. by rewrite Es2.
Qed.

(** ** PublishLocalValue *)

(** The value is dropped as a duplicate of [last]. *)
Definition is_dup (pd : PublisherData) (force : bool) (last v : Value) : bool :=
  negb (force || keepDuplicates (c_opts (p_config pd))) && value_eqb last v.

(** What is sent to the network when publisher [pd] of topic [t] sets [v]. *)
Definition net_set s (pd : PublisherData) (t : TopicData J) (force : bool) (v : Value)
  : list (Out J) :=
  if negb (is_dup pd force (t_lastValueNetwork t) v) && m_network s
  then [NetSetValue (p_handle pd) v] else [].

Lemma net_out_snoc s (o : Out J) :
  is_net o = true -> net_out (s <| out ::= fun l => l ++ [o] |>) = net_out s ++ [o].
Proof.
  intros Ho. unfold net_out, fupd. cbn. by rewrite filter_app, filter_cons, decide_True, filter_nil.
Qed.

(** The effect of a value of the type of the topic on topic, queues and network *)
Record published (p : nat) (pd : PublisherData) (t : TopicData J) (force : bool) (v : Value)
    s s' : Prop := {
  pv_net : net_out s' = net_out s ++ net_set s pd t force v;
  pv_last : exists t', hm_at (m_topics s') (p_topic pd) = Some t' /\
    t_lastValue t' = (if newer t v then v else t_lastValue t) /\ t_type t' = t_type t;
  pv_others : forall i, i <> p_topic pd -> hm_at (m_topics s') i = hm_at (m_topics s) i;
  pv_subs : forall k, hm_at (m_subscribers s') k =
    (if decide (k ∈ t_localSubscribers t /\ newer t v = true)
     then receive false (is_dup pd force (t_lastValue t) v) (Some (p_handle pd)) v else id)
      <$> hm_at (m_subscribers s) k;
  pv_pubs : m_publishers s' = m_publishers s;
}.

Lemma run_PublishLocalValue p pd t v force fuel s :
  Struct (shape s) -> hm_at (m_publishers s) p = Some pd -> hm_at (m_topics s) (p_topic pd) = Some t ->
  value_valid v = true -> t_type t = value_type v -> p_active pd = true ->
  wp (PublishLocalValue_rec (S fuel) p v force)
    (fun b s' => b = true /\ published p pd t force v s s') s.
Proof.
  intros HS Hp Ht Hv Hty Hact. cbn [PublishLocalValue_rec]. rewrite Hv. cbn [negb].
  wp_step. eapply run_publisher; [done|]. wp_step. eapply run_topic; [done|].
  assert (Eq : type_is (t_type t) (value_type v) = true) by (by apply bool_decide_eq_true_2).
  rewrite Eq, andb_false_r, Hact. cbn zeta. wp_step. wp_step. wp_step.
  set (i := p_topic pd) in *.
  set (t1 := if negb (is_dup pd force (t_lastValueNetwork t) v) && m_network s
             then t <| t_lastValueNetwork := v |> else t).
  eapply (wp_mono _ (fun _ s' => exists o, s' = s <| m_topics ::= hm_set i t1 |> <| out := o |> /\
    net_out s' = net_out s ++ net_set s pd t force v)).
  { unfold net_set. fold (is_dup pd force (t_lastValueNetwork t) v). unfold t1.
    destruct (negb _ && m_network s); cbn [when].
    - wp_step. eapply run_set_topic; [done|]. apply run_emit. eexists. split; [done|].
      by rewrite net_out_snoc.
    - wp_step. exists (out s). rewrite app_nil_r. split; [|done].
      unfold fupd. cbn. rewrite hm_set_id by done. by destruct s. }
  intros [] s1 (o & Hs1 & Hnet). fold (is_dup pd force (t_lastValue t) v).
  assert (Ht1 : hm_at (m_topics s1) i = Some t1).
  { rewrite Hs1. unfold fupd. cbn. by rewrite hm_at_set, decide_True by done. }
  assert (Esame : t_lastValue t1 = t_lastValue t /\ t_type t1 = t_type t /\
    t_localSubscribers t1 = t_localSubscribers t).
  { unfold t1. by destruct (negb _ && _). }
  destruct Esame as (El & Ety & Esub).
  assert (Esh : shape s1 = shape s).
  { rewrite Hs1. unfold shape, fupd. cbn. rewrite (hm_map_set_same _ _ _ t) by
      (done || unfold t1; by destruct (negb _ && _)). done. }
  eapply wp_mono; [apply (run_SetValue i t1); [by rewrite Esh|done|]|].
  { intros q [= <-]. rewrite Hs1. by eexists. }
  intros b s2 (-> & [E2 N2] & Hpost).
  assert (Ef : type_fits t1 v = true) by (unfold type_fits; by rewrite Ety, Eq, orb_true_r).
  rewrite Ef in *. split; [done|]. cbn [andb] in Hpost.
  replace (newer t1 v) with (newer t v) in Hpost by (unfold newer; by rewrite El).
  assert (Eph : pub_handle s1 (Some p) = Some (p_handle pd)).
  { unfold pub_handle. cbn. rewrite Hs1. cbn. by rewrite Hp. }
  assert (Esubs : m_subscribers s1 = m_subscribers s) by (by rewrite Hs1).
  split; [congruence|..].
  - destruct (newer t v).
    + destruct Hpost as [-> _]. rewrite hm_at_set, decide_True by done. by eexists.
    + destruct Hpost as [-> _]. exists t1. by split_and!.
  - intros j Hj. assert (E1 : hm_at (m_topics s1) j = hm_at (m_topics s) j).
    { rewrite Hs1. unfold fupd. cbn. by rewrite hm_at_set, decide_False by done. }
    destruct (newer t v); destruct Hpost as [-> _]; [|done].
    by rewrite hm_at_set, decide_False by done.
  - intros k. destruct (newer t v).
    + destruct Hpost as [_ Hsubs]. rewrite Hsubs, Esubs, Eph, Esub. repeat case_decide; naive_solver.
    + destruct Hpost as [_ ->]. rewrite Esubs, decide_False by naive_solver. by destruct (hm_at _ k).
  - by rewrite E2, Hs1.
Qed.
End Values.

(** * LocalNotify: which listeners a value is announced to

    The calls of the local storage to the listener storage when a publisher sets a
    value. *)

Local Open Scope Z_scope.

(** The calls of the trace that go to the listener storage *)
Definition is_note {J} (o : Out J) : bool :=
  match o with
  | ListenerActivate _ _ _ | ListenerNotifyTopics _ _ _ | ListenerNotifyValue _ _ _ _ _ => true
  | _ => false
  end.
Definition notes {J} (s : LSImpl J) : list (Out J) := filter (fun o => is_note o = true) (out s).

Section Notify.
Context {J : Type} `{Json J} `{Env}.
Implicit Types (s : LSImpl J).

Lemma notes_snoc s (o : Out J) :
  notes (s <| out ::= fun l => l ++ [o] |>) = notes s ++ (if is_note o then [o] else []).
Proof.
  unfold notes, fupd. cbn. rewrite filter_app, filter_cons, filter_nil.
  destruct (is_note o); [by rewrite decide_True|by rewrite decide_False].
Qed.

(** The call for one list of listeners *)
Definition note (hs : list Z) (flags topic : Z) (v : Value) : list (Out J) :=
  if nonempty hs then [ListenerNotifyValue hs flags topic 0 v] else [].

(** The listeners of the subscribers that accept the value, and those of the
    multi-subscribers *)
Definition sub_listeners (remote dup : bool) (pub : option Z) (d : SubscriberData) : list Z :=
  if accepts d remote dup pub then s_valueListeners d else [].
Definition multi_listeners (dup : bool) (d : MultiSubscriberData) : list Z :=
  if keepDuplicates (o_options (ms_options d)) || negb dup then ms_valueListeners d else [].
Definition at_sub {B} s (f : SubscriberData -> list B) (k : nat) : list B :=
  match hm_at (m_subscribers s) k with Some d => f d | None => [] end.
Definition at_multi {B} s (f : MultiSubscriberData -> list B) (k : nat) : list B :=
  match hm_at (m_multiSubscribers s) k with Some d => f d | None => [] end.

Lemma notes_NotifySubscriber i t flags dup pub k d s :
  hm_at (m_topics s) i = Some t -> hm_at (m_subscribers s) k = Some d ->
  (forall p, pub = Some p -> is_Some (hm_at (m_publishers s) p)) ->
  wp (NotifySubscriber i flags dup pub k)
    (fun _ s' => notes s' = notes s ++
       note (sub_listeners (has_bits flags NT_EVENT_VALUE_REMOTE) dup (pub_handle s pub) d)
         flags (t_handle t) (t_lastValue t)) s.
Proof.
  intros Ht Hd Hp. unfold NotifySubscriber. wp_step. eapply run_subscriber; [done|]. cbn zeta.
  set (o := c_opts (s_config d)). set (remote := has_bits flags NT_EVENT_VALUE_REMOTE).
  unfold sub_listeners.
  assert (Ea : accepts d remote dup (pub_handle s pub) =
    (s_active d && (keepDuplicates o || negb dup) &&
      ((remote && negb (disableRemote o)) || (negb remote && negb (disableLocal o)))) &&
    match pub_handle s pub with Some h => negb (excludePublisher o =? h) | None => true end).
  { unfold accepts. fold o. by destruct remote; simpl; rewrite ?orb_false_r. }
  wp_step; [|wp_step; rewrite Ea; cbn; by rewrite app_nil_r].
  rewrite andb_true_l in Ea. wp_step.
  eapply (wp_mono _ (fun b s' => s' = s /\ b = negb (accepts d remote dup (pub_handle s pub)))).
  { destruct pub as [p|]; [|by wp_step; rewrite Ea]. destruct (Hp p eq_refl) as [pd Hpd].
    wp_step. eapply run_publisher; [done|]. wp_step. split; [done|].
    rewrite Ea. unfold pub_handle. cbn. rewrite Hpd. cbn. by rewrite negb_involutive. }
  intros b s1 [-> ->]. rewrite negb_involutive.
  wp_step; [|intros ->; cbn; by rewrite app_nil_r].
  intros ->. wp_step. eapply run_topic; [done|]. wp_step.
  eapply run_set_subscriber; [done|]. wp_step. apply run_emit.
  unfold note. wp_step; [|intros ->; rewrite notes_snoc; by rewrite !app_nil_r].
  intros ->. apply run_emit. rewrite !notes_snoc. cbn [is_note]. by rewrite app_nil_r.
Qed.

Lemma receive_listeners remote dup pub v r b p d :
  sub_listeners remote dup pub (receive r b p v d) = sub_listeners remote dup pub d.
Proof. unfold receive. by destruct (accepts d r b p). Qed.

Lemma notes_subscribers i t flags dup pub l s :
  hm_at (m_topics s) i = Some t -> NoDup l ->
  (forall k, k ∈ l -> is_Some (hm_at (m_subscribers s) k)) ->
  (forall p, pub = Some p -> is_Some (hm_at (m_publishers s) p)) ->
  wp (for_each l (NotifySubscriber i flags dup pub))
    (fun _ s' => local_step s s' /\ notes s' = notes s ++
       flat_map (fun k => note (at_sub s (sub_listeners (has_bits flags NT_EVENT_VALUE_REMOTE) dup
                   (pub_handle s pub)) k) flags (t_handle t) (t_lastValue t)) l) s.
Proof.
  intros Ht Hnd Hl Hp. set (ls := sub_listeners _ _ _).
  set (f := receive (has_bits flags NT_EVENT_VALUE_REMOTE) dup (pub_handle s pub) (t_lastValue t)).
  apply (wp_for_each _ _ (fun dn s' => (local_step s s' /\ forall k, hm_at (m_subscribers s') k =
    (if decide (k ∈ dn) then f else id) <$> hm_at (m_subscribers s) k) /\
    notes s' = notes s ++ flat_map (fun k => note (at_sub s ls k) flags (t_handle t) (t_lastValue t)) dn)).
  - cbn. rewrite app_nil_r. split_and!; [apply local_step_refl| |done].
    intros k. rewrite decide_False by apply not_elem_of_nil. by destruct (hm_at _ k).
  - intros dn k rest s1 El [[Hls Hat] Hn].
    assert (Hnk : k ∉ dn).
    { rewrite El in Hnd. apply NoDup_app in Hnd as (_ & Hnn & _). intros Hin. apply (Hnn k Hin). left. }
    destruct (Hl k) as [d Hd]; [rewrite El; set_solver|].
    assert (Hd1 : hm_at (m_subscribers s1) k = Some d) by (by rewrite Hat, decide_False, Hd by done).
    assert (Et : m_topics s1 = m_topics s) by (by rewrite (ls_state _ _ Hls)).
    assert (Ep : m_publishers s1 = m_publishers s) by (by rewrite (ls_state _ _ Hls)).
    assert (Eh : pub_handle s1 pub = pub_handle s pub) by (unfold pub_handle; by rewrite Ep).
    apply wp_and.
    + eapply wp_mono; [apply (run_NotifySubscriber i t _ _ _ k d); rewrite ?Et, ?Ep; done|].
      intros [] s2 [Hls2 Es2]. split; [by eapply local_step_trans|]. intros j.
      rewrite Eh in Es2. rewrite Es2, hm_at_set by done. case_decide as E.
      * rewrite <- E, Hd, decide_True by set_solver. done.
      * rewrite Hat. repeat case_decide; try done; set_solver.
    + eapply wp_mono; [apply (notes_NotifySubscriber i t _ _ _ k d); rewrite ?Et, ?Ep; done|].
      intros [] s2 Hs2. rewrite Hs2, Hn, flat_map_app, <- app_assoc, Eh. cbn. unfold at_sub at 3. by rewrite Hd, app_nil_r.
  - intros s' [[Hls _] Hn]. done.
Qed.

Lemma notes_multis i t flags dup l s :
  hm_at (m_topics s) i = Some t ->
  (forall k, k ∈ l -> is_Some (hm_at (m_multiSubscribers s) k)) ->
  wp (for_each l (NotifyMultiSubscriber i flags dup))
    (fun _ s' => notes s' = notes s ++
       flat_map (fun k => note (at_multi s (multi_listeners dup) k) flags (t_handle t) (t_lastValue t)) l) s.
Proof.
  intros Ht Hl.
  apply (wp_for_each _ _ (fun dn s' => m_topics s' = m_topics s /\ m_multiSubscribers s' = m_multiSubscribers s /\
    notes s' = notes s ++
    flat_map (fun k => note (at_multi s (multi_listeners dup) k) flags (t_handle t) (t_lastValue t)) dn)).
  - cbn. by rewrite app_nil_r.
  - intros dn k rest s1 El (Et & Em & Hn). destruct (Hl k) as [d Hd]; [rewrite El; set_solver|].
    rewrite flat_map_app, app_assoc, <- Hn. cbn. unfold at_multi. rewrite Hd, app_nil_r.
    rewrite <- Em in Hd. rewrite <- Et in Ht.
    unfold NotifyMultiSubscriber, multi_listeners, note. wp_step. eapply run_multiSubscriber; [done|].
    wp_step; intros ->; [|cbn; by rewrite app_nil_r].
    wp_step. apply run_emit. wp_step. eapply run_topic; [done|].
    wp_step; intros ->; [apply run_emit|]; rewrite !notes_snoc; cbn [is_note]; by rewrite !app_nil_r.
  - by intros s' (_ & _ & Hn).
Qed.

(** The lists of listeners that topic [t] announces a value to, in order *)
Definition value_listeners s (t : TopicData J) (remote dup : bool) (pub : option Z) : list (list Z) :=
  (at_sub s (sub_listeners remote dup pub) <$> t_localSubscribers t) ++
  (at_multi s (multi_listeners dup) <$> t_multiSubscribers t).

Definition value_notes s (t : TopicData J) (flags : Z) (dup : bool) (pub : option Z) (v : Value)
  : list (Out J) :=
  flat_map (fun hs => note hs flags (t_handle t) v)
    (value_listeners s t (has_bits flags NT_EVENT_VALUE_REMOTE) dup pub).

Lemma flat_map_fmap {A B C} (f : A -> B) (g : B -> list C) l :
  flat_map g (f <$> l) = flat_map (fun x => g (f x)) l.
Proof. induction l as [|x l IH]; cbn; [done|]. f_equal. exact IH. Qed.

Lemma notes_NotifyValue i t flags dup pub s :
  Struct (shape s) -> hm_at (m_topics s) i = Some t ->
  (forall p, pub = Some p -> is_Some (hm_at (m_publishers s) p)) ->
  wp (NotifyValue i flags dup pub)
    (fun _ s' => notes s' = notes s ++ value_notes s t flags dup (pub_handle s pub) (t_lastValue t)) s.
Proof.
  intros HS Ht Hp. pose proof (shape_topic s i t Ht) as Hts.
  unfold NotifyValue. wp_step. eapply run_topic; [done|]. wp_step. eapply wp_mono.
  - apply (notes_subscribers i t); [done| | |done].
    + apply (lk_nodup _ _ _ _ (st_subs _ HS) i _ Hts).
    + intros k Hk. destruct (lk_list _ _ _ _ (st_subs _ HS) i _ k Hts Hk) as (d & Hd & _).
      cbn in Hd. rewrite hm_at_map in Hd. by apply fmap_Some in Hd as (x & -> & _).
  - intros [] s1 [Hls Hn]. pose proof (ls_state _ _ Hls) as Es1.
    assert (Et : m_topics s1 = m_topics s) by (by rewrite Es1).
    assert (Em : m_multiSubscribers s1 = m_multiSubscribers s) by (by rewrite Es1).
    eapply wp_mono; [apply (notes_multis i t); rewrite ?Et, ?Em; [done|]|].
    + intros k Hk. apply (mo_match _ _ (st_multis _ HS i _ Hts)) in Hk as (x & Hx & _).
      cbn in Hx. rewrite hm_at_map in Hx. by apply fmap_Some in Hx as (y & -> & _).
    + intros [] s2 ->. rewrite Hn, <- app_assoc. f_equal. unfold value_notes, value_listeners.
      rewrite flat_map_app, !flat_map_fmap. unfold at_multi. by rewrite Em.
Qed.

Lemma notes_append_logs (l : list DataLoggerEntry) v s :
  wp (for_each l (fun e => Append e v)) (fun _ s' => notes s' = notes s) s.
Proof.
  apply (wp_for_each_inv _ _ (fun s' => notes s' = notes s)); [done| |done].
  intros e s1 _ Hn. unfold Append. wp_step; [|by intros _]. intros _. apply run_emit.
  by rewrite notes_snoc, app_nil_r.
Qed.

Lemma notes_SetValue i t v flags dup pub s :
  Struct (shape s) -> hm_at (m_topics s) i = Some t -> type_fits t v = true -> newer t v = true ->
  (forall p, pub = Some p -> is_Some (hm_at (m_publishers s) p)) ->
  wp (SetValue i v flags dup pub)
    (fun _ s' => notes s' = notes s ++ value_notes s t flags dup (pub_handle s pub) v) s.
Proof.
  intros HS Ht Hf Hnew Hp. unfold SetValue. wp_step. eapply run_topic; [done|].
  replace (negb (type_is (t_type t) NT_UNASSIGNED) && negb (type_is (t_type t) (value_type v)))
    with (negb (type_fits t v)) by (unfold type_fits; by rewrite negb_orb).
  rewrite Hf, Hnew. cbn [negb when]. wp_step. wp_step. eapply run_set_topic; [done|].
  set (s1 := fupd m_topics _ s).
  assert (Ht1 : hm_at (m_topics s1) i = Some (stored v t)).
  { unfold s1, fupd. cbn. by rewrite hm_at_set, decide_True by done. }
  assert (HS1 : Struct (shape s1)).
  { unfold s1. rewrite shape_set_topic. eapply Struct_retype; [done|by apply shape_topic|by destruct t]. }
  eapply wp_mono; [apply wp_and; [apply (notes_NotifyValue i (stored v t) flags dup pub s1); done|
                                  apply (run_NotifyValue i (stored v t) flags dup pub s1); done]|].
  intros [] s2 [Hn [Hls _]]. wp_step. assert (Ht2 : hm_at (m_topics s2) i = Some (stored v t)).
  { by rewrite (ls_state _ _ Hls). }
  eapply run_topic; [done|]. wp_step.
  eapply (wp_mono _ (fun _ s' => notes s' = notes s2)).
  { wp_step; [intros _; apply notes_append_logs|by intros _]. }
  intros [] s3 Hs3. wp_step. by rewrite Hs3, Hn.
Qed.

(** What a publisher's value is announced to *)
Lemma notes_publish h p pd t v s :
  Struct (shape s) -> hm_Get kPublisher h (m_publishers s) = Some p ->
  hm_at (m_publishers s) p = Some pd -> hm_at (m_topics s) (p_topic pd) = Some t ->
  p_active pd = true -> value_valid v = true -> t_type t = value_type v -> newer t v = true ->
  wp (SetEntryValue h v)
    (fun _ s' => notes s' = notes s ++ value_notes s t NT_EVENT_VALUE_LOCAL
       (is_dup pd false (t_lastValue t) v) (Some (p_handle pd)) v) s.
Proof.
  intros HS Hg Hp Ht Hact Hv Hty Hnew. unfold SetEntryValue. rewrite Hv. cbn [negb]. wp_step.
  unfold GetOrPublish. wp_step. wp_step. rewrite Hg. wp_step.
  unfold PublishLocalValue. cbn [PublishLocalValue_rec]. rewrite Hv. cbn [negb].
  wp_step. eapply run_publisher; [done|]. wp_step. eapply run_topic; [done|].
  assert (Eq : type_is (t_type t) (value_type v) = true) by (by apply bool_decide_eq_true_2).
  rewrite Eq, andb_false_r, Hact. cbn zeta. wp_step. wp_step. wp_step.
  set (i := p_topic pd) in *.
  set (t1 := if negb (is_dup pd false (t_lastValueNetwork t) v) && m_network s
             then t <| t_lastValueNetwork := v |> else t).
  eapply (wp_mono _ (fun _ s' => exists o, s' = s <| m_topics ::= hm_set i t1 |> <| out := o |> /\
    notes s' = notes s)).
  { fold (is_dup pd false (t_lastValueNetwork t) v). unfold t1.
    destruct (negb _ && m_network s); cbn [when].
    - wp_step. eapply run_set_topic; [done|]. apply run_emit. eexists. split; [done|].
      by rewrite notes_snoc, app_nil_r.
    - wp_step. exists (out s). split; [|done]. unfold fupd. cbn. rewrite hm_set_id by done. by destruct s. }
  intros [] s1 (o & Hs1 & Hn). fold (is_dup pd false (t_lastValue t) v).
  assert (Ht1 : hm_at (m_topics s1) i = Some t1).
  { rewrite Hs1. unfold fupd. cbn. by rewrite hm_at_set, decide_True by done. }
  assert (Esh : shape s1 = shape s).
  { rewrite Hs1. unfold shape, fupd. cbn. rewrite (hm_map_set_same _ _ _ t) by
      (done || unfold t1; by destruct (negb _ && _)). done. }
  eapply wp_mono; [apply (notes_SetValue i t1); [by rewrite Esh|done|..]|].
  - unfold type_fits, t1. destruct (negb _ && _); cbn; by rewrite Eq, orb_true_r.
  - unfold t1, newer. by destruct (negb _ && _).
  - intros q [= <-]. rewrite Hs1. by eexists.
  - intros b s2 ->. rewrite Hn. f_equal.
    assert (Eph : pub_handle s1 (Some p) = Some (p_handle pd)).
    { unfold pub_handle. cbn. rewrite Hs1. cbn. by rewrite Hp. }
    rewrite Eph, Hs1. unfold value_notes, value_listeners, t1. by destruct (negb _ && _).
Qed.
End Notify.
