(* ===== verification/LocalExample.v ===== *)
(** * LocalExample: a concrete local storage

    Instances of the collaborators of the local storage (JSON values, clock and data
    log) and a client session, on which the theorems about it are evaluated. *)

From S2P Require Import Prelude NtTypes Handles Monads LocalTypes LocalStorage LocalShape.
From S2P Require Import LocalInv LocalSafety.
Local Open Scope Z_scope.

Module Example.
Inductive js := JsNull | JsBool (b : bool) | JsNumber (z : Z).

#[global] Instance js_eq_dec : EqDecision js.
Proof. solve_decision. Defined.

(** The text lists the keys. *)
#[global] Instance js_Json : Json js := {
  jnull := JsNull;
  jbool := JsBool;
  j_is_null v := match v with JsNull => true | _ => false end;
  j_get_bool v := match v with JsBool b => Some b | _ => None end;
  j_eqb v w := bool_decide (v = w);
  jdump m := "{" +:+ String.concat "," (map fst (map_to_list m)) +:+ "}";
}.

#[global] Instance js_JsonLaws : JsonLaws js.
Proof. by split. Qed.

(** A clock that ticks, and log entries numbered from 1 *)
#[global] Instance ticking : Env := {
  env_Now n := 1000 + Z.of_nat n;
  env_DataLogStart n := 1 + Z.of_nat n;
  env_cast_ub _ := 0;
}.

Definition init : LSImpl js := LSImpl_init 1.
Definition run {A} (m : M (LSImpl js) A) : option A := fst <$> m init.

Definition dbl (bits time : Z) : Value := MkValue (VDouble bits) time 0.
Definition topic_h (i : Z) : Z := Handle 1 i kTopic.
Definition pub_h (i : Z) : Z := Handle 1 i kPublisher.
Definition sub_h (i : Z) : Z := Handle 1 i kSubscriber.
Definition entry_h (i : Z) : Z := Handle 1 i kEntry.

(** A client of every kind of object *)
Definition session : list (api js) :=
  [CGetTopic "/a"; CPublish (topic_h 0) NT_DOUBLE "double" JsonNull kDefaultPubSubOptions;
   CSubscribe (topic_h 0) NT_DOUBLE "double" kDefaultPubSubOptions;
   CGetEntryByName "/b"; CSetEntryValue (entry_h 0) (dbl 5 7);
   CSubscribeMultiple ["/"] kDefaultPubSubOptions; CAddListener 99 (topic_h 0) 0xff;
   CStartNetwork; CNetworkAnnounce "/c" "int" ∅ 0; CSetEntryValue (pub_h 0) (dbl 3 4);
   CReadQueueValue (sub_h 0); CUnsubscribe (sub_h 0); CRemoveListener 99 0;
   CReleaseEntry (entry_h 0); CUnpublish (pub_h 0); CClearNetwork].

(** A topic with a publisher and a subscriber that keeps the last three values, and
    an entry for another topic, on the network *)
Definition history : PubSubOptions :=
  MkOptions 3 kDefaultPeriodic 0 true false true false false false false.
Definition demo : list (api js) :=
  [CGetTopic "/a"; CPublish (topic_h 0) NT_DOUBLE "double" JsonNull kDefaultPubSubOptions;
   CSubscribe (topic_h 0) NT_DOUBLE "double" history; CGetEntryByName "/b";
   CSubscribeMultiple ["/"] kDefaultPubSubOptions; CStartNetwork].

(** The state a client reaches. *)
Definition state (cs : list (api js)) : LSImpl js :=
  match calls cs init with Some (_, s) => s | None => init end.

Lemma state_calls cs : all_permitted cs init = true -> calls cs init = Some (tt, state cs).
Proof.
  intros Hp. pose proof (calls_safe cs init (Good_init 1 ltac:(lia)) Hp) as Hs.
  unfold safe, wp in Hs. unfold state. by destruct (calls cs init) as [[[] s]|].
Qed.

Lemma state_Inv cs : all_permitted cs init = true -> Inv (state cs).
Proof.
  intros Hp. pose proof (calls_safe cs init (Good_init 1 ltac:(lia)) Hp) as Hs.
  unfold safe, wp in Hs. by rewrite (state_calls cs Hp) in Hs.
Qed.

(** Evaluate a premise. *)
Ltac by_eval := vm_compute; reflexivity.
End Example.

