(* ===== verification/LocalProps.v ===== *)
(** * LocalProps: what the local storage guarantees

    The properties of the local storage as seen through its public interface, with
    runs of concrete clients. *)

From Stdlib Require Import Sorting.Sorted.
From S2P Require Import Prelude NtTypes CircularBuffer Handles Monads LocalTypes LocalStorage.
From S2P Require Import LocalShape LocalFrames LocalInv LocalObjects LocalOps.
From S2P Require Import LocalSafety LocalValues LocalExample.
Local Open Scope Z_scope.

Section Props.
Context {J : Type} `{Json J} `{Env}.
Implicit Types (s : LSImpl J).

(** ** Safety *)

(** C11. Memory safety: from a new local storage, every sequence of permitted calls of
    the public interface, however interleaved, runs without using a null or dangling
    pointer, and ends in a state that satisfies the invariant [Inv].  Permitted are
    all calls but those that exceed the range of handle indices and those that release
    the subscriber or publisher of an entry behind the entry's back. *)
Theorem local_storage_safe (inst : Z) (cs : list (api J)) :
  0 <= inst -> all_permitted cs (LSImpl_init inst) = true ->
  exists s, calls cs (LSImpl_init inst) = Some (tt, s) /\ Inv s.
Proof.
  intros Hi Hp. pose proof (calls_safe cs (LSImpl_init inst) (Good_init inst Hi) Hp) as Hs.
  apply wp_run in Hs as ([] & s & Hr & HG). by exists s.
Qed.

(** *** Consequences of the invariant *)

Definition reachable s : Prop :=
  exists inst cs, 0 <= inst /\ all_permitted cs (LSImpl_init inst) = true /\
    calls cs (LSImpl_init inst) = Some (tt, s).

Lemma reachable_Inv s : reachable s -> Inv s.
Proof.
  intros (inst & cs & Hi & Hp & Hr).
  pose proof (calls_safe cs (LSImpl_init inst) (Good_init inst Hi) Hp) as Hs.
  unfold safe, wp in Hs. by rewrite Hr in Hs.
Qed.

(** C28. In every reachable state a publisher is active if and only if its type is the
    current type of its topic, a published topic has a type, and a topic that is
    published only locally has at least one active publisher. *)
Theorem publisher_activity s :
  reachable s ->
  (forall k p, hm_at (m_publishers s) k = Some p ->
     exists t, hm_at (m_topics s) (p_topic p) = Some t /\ k ∈ t_localPublishers t /\
       t_type t <> NT_UNASSIGNED /\
       p_active p = pub_active (p_config p) (t_type t) (t_typeStr t)) /\
  (forall i t, hm_at (m_topics s) i = Some t -> t_onNetwork t = false ->
     t_localPublishers t <> [] ->
     exists k p, k ∈ t_localPublishers t /\ hm_at (m_publishers s) k = Some p /\
       p_active p = true).
Proof.
  intros (HS & _ & HT)%reachable_Inv. split.
  - intros k p Hk. destruct (lk_obj _ _ _ _ (st_pubs _ HS) k p Hk) as (ts & Hts & Hin).
    destruct (topic_of_shape s _ _ Hts) as (t & Ht & ->). exists t. split_and!; [done|done| |].
    + apply (ty_exists _ HT _ _ Hts). unfold ts_exists. cbn in Hin |- *.
      destruct (t_localPublishers t); [by apply not_elem_of_nil in Hin|apply orb_true_r].
    + apply (ty_active _ HT k p _ Hk Hts).
  - intros i t Ht Hn Hne. apply (ty_local _ HT i _ (shape_topic s i t Ht) Hn Hne).
Qed.

(** C29. In every reachable state the multi-subscribers a topic notifies are exactly the
    live ones one of whose prefixes matches the name of the topic, once each. *)
Theorem multi_subscribers_exact s i t :
  reachable s -> hm_at (m_topics s) i = Some t ->
  NoDup (t_multiSubscribers t) /\
  forall k, k ∈ t_multiSubscribers t <->
    exists d, hm_at (m_multiSubscribers s) k = Some d /\
      Matches d (t_name t) (t_special t) = true.
Proof.
  intros (HS & _ & _)%reachable_Inv Ht.
  destruct (st_multis _ HS i _ (shape_topic s i t Ht)) as [Hsp Hnd Hm]. split; [done|].
  intros k. cbn in Hm, Hsp. rewrite Hm, Hsp. split.
  - intros (x & Hx & Hmt). rewrite hm_at_map in Hx. apply fmap_Some in Hx as (d & Hd & ->). eauto.
  - intros (d & Hd & Hmt). exists (multi_shape d). by rewrite hm_at_map, Hd.
Qed.

(** ** Values *)

(** The values queued for a subscriber, and how many it can hold. *)
Definition queue (d : SubscriberData) : list Value := contents (s_pollStorage d).
Definition queue_size (d : SubscriberData) : nat := Z.to_nat (pollStorage (c_opts (s_config d))).

Lemma Inv_queue s k d :
  Inv s -> hm_at (m_subscribers s) k = Some d ->
  cb_ok (s_pollStorage d) /\ capacity (s_pollStorage d) = queue_size d.
Proof.
  intros (HS & _ & _) Hk. pose proof (st_queue _ HS k _ (shape_sub s k d Hk)) as Hq.
  unfold sub_shape in Hq. cbn in Hq. case_decide; [|done]. split; [done|]. by injection Hq.
Qed.

Lemma queue_receive s k d remote dup pub v :
  Inv s -> hm_at (m_subscribers s) k = Some d ->
  queue (receive remote dup pub v d) =
    if accepts d remote dup pub then bounded_push (queue_size d) v (queue d) else queue d.
Proof.
  intros HI Hk. destruct (Inv_queue s k d HI Hk) as [Hok Hcap]. unfold receive, queue.
  destruct (accepts d remote dup pub); [|done]. unfold fupd. cbn. by rewrite contents_push_back, Hcap.
Qed.

(** The subscriber belongs to the topic if and only if the topic lists it. *)
Lemma sub_of_topic s i t k d :
  Inv s -> hm_at (m_topics s) i = Some t -> hm_at (m_subscribers s) k = Some d ->
  k ∈ t_localSubscribers t <-> s_topic d = i.
Proof.
  intros (HS & _ & _) Ht Hd. split.
  - intros Hin. destruct (lk_list _ _ _ _ (st_subs _ HS) i _ k (shape_topic s i t Ht) Hin)
      as (x & Hx & <-). rewrite (shape_sub s k d Hd) in Hx. by injection Hx as <-.
  - intros <-. destruct (lk_obj _ _ _ _ (st_subs _ HS) k _ (shape_sub s k d Hd)) as (ts & Hts & Hin).
    assert (ts = topic_shape t) as -> by (pose proof (shape_topic _ _ _ Ht); cbn in *; congruence).
    done.
Qed.

(** A value of the topic's type set through an active publisher. *)
Lemma publish_step s (h : Z) (v : Value) p pd t :
  Inv s -> hm_Get kPublisher h (m_publishers s) = Some p ->
  hm_at (m_publishers s) p = Some pd -> hm_at (m_topics s) (p_topic pd) = Some t ->
  p_active pd = true -> value_valid v = true -> t_type t = value_type v ->
  exists s', SetEntryValue h v s = Some (true, s') /\ published p pd t false v s s' /\ Inv s'.
Proof.
  intros HI Hg Hp Ht Hact Hv Hty. pose proof HI as (HS & _ & _).
  assert (Hwp : wp (SetEntryValue h v)
    (fun b s' => (b = true /\ published p pd t false v s s') /\ Inv s') s).
  { unfold SetEntryValue. rewrite Hv. cbn [negb]. wp_step. unfold GetOrPublish. wp_step. wp_step.
    rewrite Hg. wp_step. apply wp_and; [by apply (run_PublishLocalValue p pd t v false 1)|].
    eapply wp_mono; [apply (wp_PublishLocalValue_rec 2 p v false (shape s)); [done|by eexists|done]|].
    by intros b s' [? _]. }
  apply wp_run in Hwp as (b & s' & Hr & [-> Hpub] & HI'). by exists s'.
Qed.

(** What a published value does to a subscriber. *)
Lemma published_sub p pd t v s s' k d :
  Inv s -> hm_at (m_topics s) (p_topic pd) = Some t -> published p pd t false v s s' ->
  hm_at (m_subscribers s) k = Some d ->
  exists d', hm_at (m_subscribers s') k = Some d' /\
    s_config d' = s_config d /\ s_topic d' = s_topic d /\ s_active d' = s_active d /\
    queue d' = if bool_decide (s_topic d = p_topic pd) && newer t v &&
                  accepts d false (is_dup pd false (t_lastValue t) v) (Some (p_handle pd))
               then bounded_push (queue_size d) v (queue d) else queue d.
Proof.
  intros HI Ht [_ _ _ Hsubs _] Hd. rewrite Hsubs, Hd.
  pose proof (sub_of_topic s _ t k d HI Ht Hd) as Hin. eexists. split; [done|].
  destruct (decide (k ∈ t_localSubscribers t /\ newer t v = true)) as [[Hc ->]|Hc].
  - rewrite bool_decide_eq_true_2 by (by apply Hin).
    split_and!; [..|by apply (queue_receive s k)]; unfold receive; by destruct (accepts d _ _ _).
  - split_and!; [done..|]. destruct (bool_decide (s_topic d = p_topic pd)) eqn:Eb; [|done].
    apply bool_decide_eq_true_1 in Eb. destruct (newer t v); [|done].
    exfalso. apply Hc. split; [by apply Hin|done].
Qed.

(** C27. Setting a value of the topic's type through an active publisher succeeds.  Unless
    the value is older than the topic's last value it becomes the last value, and it
    is appended to the queue of exactly those subscribers of the topic that accept it
    (dropping the oldest value of a full queue); queues of other subscribers and
    values of other topics stay as they are.  The network is told once, unless it has
    the same value already. *)
Theorem publish_delivers s (h : Z) (v : Value) (p : nat) (pd : PublisherData) (t : TopicData J) :
  Inv s -> hm_Get kPublisher h (m_publishers s) = Some p ->
  hm_at (m_publishers s) p = Some pd -> hm_at (m_topics s) (p_topic pd) = Some t ->
  p_active pd = true -> value_valid v = true -> t_type t = value_type v ->
  exists s', SetEntryValue h v s = Some (true, s') /\
    (exists t', hm_at (m_topics s') (p_topic pd) = Some t' /\
       t_lastValue t' = if newer t v then v else t_lastValue t) /\
    (forall i, i <> p_topic pd -> hm_at (m_topics s') i = hm_at (m_topics s) i) /\
    (forall k d, hm_at (m_subscribers s) k = Some d ->
       exists d', hm_at (m_subscribers s') k = Some d' /\
         queue d' = if bool_decide (s_topic d = p_topic pd) && newer t v &&
                       accepts d false (is_dup pd false (t_lastValue t) v) (Some (p_handle pd))
                    then bounded_push (queue_size d) v (queue d) else queue d) /\
    net_out s' = net_out s ++
      (if negb (is_dup pd false (t_lastValueNetwork t) v) && m_network s
       then [NetSetValue (p_handle pd) v] else []).
Proof.
  intros HI Hg Hp Ht Hact Hv Hty.
  destruct (publish_step s h v p pd t HI Hg Hp Ht Hact Hv Hty) as (s' & Hr & Hpub & _).
  pose proof Hpub as [Hnet (t' & Ht' & El & _) Hoth _ _]. exists s'. split_and!; [done|by eauto|done| |done].
  intros k d Hd. destruct (published_sub p pd t v s s' k d HI Ht Hpub Hd) as (d' & Hd' & _ & _ & _ & Hq).
  by exists d'.
Qed.

(** The last [n] elements *)
Definition last_n {A} (n : nat) (l : list A) : list A := drop (length l - n) l.

Lemma last_n_app {A} n (l l' : list A) : last_n n (last_n n l ++ l') = last_n n (l ++ l').
Proof.
  unfold last_n. rewrite !length_app, length_drop.
  destruct (decide (length l <= n)%nat).
  - replace (length l - n)%nat with 0%nat by lia. by rewrite drop_0, Nat.sub_0_r.
  - replace (l ++ l') with (take (length l - n) l ++ (drop (length l - n) l ++ l'))
      by (by rewrite app_assoc, take_drop).
    replace (length l + length l' - n)%nat with
      (length (take (length l - n) l) + (length l - (length l - n) + length l' - n))%nat
      by (rewrite length_take; lia).
    by rewrite <- drop_drop, drop_app_length.
Qed.

Lemma last_n_all {A} n (l : list A) : (length l <= n)%nat -> last_n n l = l.
Proof. intros Hl. unfold last_n. by replace (length l - n)%nat with 0%nat by lia. Qed.

Definition set_all (h : Z) (vs : list Value) : M (LSImpl J) unit :=
  for_each vs (fun v => let* _ := SetEntryValue h v in skip).

Lemma queue_bound s k d :
  Inv s -> hm_at (m_subscribers s) k = Some d -> (length (queue d) <= queue_size d)%nat.
Proof.
  intros HI Hk. destruct (Inv_queue s k d HI Hk) as [Hok <-]. unfold queue.
  rewrite length_contents by done. by destruct Hok.
Qed.

(** The subscriber takes every value of the publisher, duplicates included. *)
Definition takes_all (d : SubscriberData) (pd : PublisherData) : Prop :=
  let o := c_opts (s_config d) in
  s_active d = true /\ s_topic d = p_topic pd /\ keepDuplicates o = true /\
  disableLocal o = false /\ excludePublisher o <> p_handle pd.

Lemma takes_all_accepts d pd dup :
  takes_all d pd -> accepts d false dup (Some (p_handle pd)) = true.
Proof.
  intros (Ha & _ & Hk & Hl & He). unfold accepts. cbn zeta. rewrite Ha, Hk, Hl. cbn.
  by apply negb_true_iff, Z.eqb_neq.
Qed.

Lemma newer_le (t : TopicData J) v :
  value_time (t_lastValue t) <= value_time v -> newer t v = true.
Proof. intros Hle. unfold newer. by rewrite (proj2 (Z.leb_le _ _) Hle), !orb_true_r. Qed.

Lemma set_all_queue h p pd k vs s t d :
  Inv s -> hm_Get kPublisher h (m_publishers s) = Some p ->
  hm_at (m_publishers s) p = Some pd -> hm_at (m_topics s) (p_topic pd) = Some t ->
  p_active pd = true -> Forall (fun v => value_valid v = true /\ t_type t = value_type v) vs ->
  Sorted Z.le (map value_time (t_lastValue t :: vs)) ->
  hm_at (m_subscribers s) k = Some d -> takes_all d pd ->
  wp (set_all h vs) (fun _ s' => Inv s' /\ exists d', hm_at (m_subscribers s') k = Some d' /\
    queue d' = last_n (queue_size d) (queue d ++ vs)) s.
Proof.
  intros HI Hg Hp Ht Hact Hvs. revert s t d HI Hg Hp Ht Hvs.
  induction vs as [|v vs IH]; intros s t d HI Hg Hp Ht Hvs Hsort Hd Hta.
  { apply wp_ret. split; [done|]. exists d. rewrite app_nil_r. split; [done|].
    by rewrite last_n_all by (by eapply queue_bound). }
  apply Forall_cons in Hvs as [[Hv Hty] Hvs].
  apply Sorted_inv in Hsort as [Hsort Hle%HdRel_inv].
  destruct (publish_step s h v p pd t HI Hg Hp Ht Hact Hv Hty) as (s1 & Hr & Hpub & HI1).
  destruct (published_sub p pd t v s s1 k d HI Ht Hpub Hd) as (d1 & Hd1 & Ec & Et & Ea & Hq).
  pose proof Hpub as [_ (t1 & Ht1 & El & Ety) _ _ Epubs].
  rewrite newer_le in El by done.
  rewrite newer_le, takes_all_accepts, bool_decide_eq_true_2 in Hq by (done || apply Hta).
  cbn [andb] in Hq. unfold set_all. cbn [for_each]. apply wp_bind, wp_bind, wp_run.
  exists true, s1. split; [done|]. apply wp_ret. eapply wp_mono.
  - apply (IH s1 t1 d1); rewrite ?Epubs, ?Ety; try done; [cbn; by rewrite El|].
    unfold takes_all. by rewrite Ec, Et, Ea.
  - intros _ s2 (HI2 & d2 & Hd2 & Hq2). split; [done|]. exists d2. split; [done|].
    assert (Eqs : queue_size d1 = queue_size d) by (unfold queue_size; by rewrite Ec).
    rewrite Hq2, Hq, Eqs. unfold bounded_push. fold (last_n (queue_size d) (queue d ++ [v])).
    by rewrite last_n_app, <- app_assoc.
Qed.

(** [ReadQueueValue] returns the queue and empties it. *)
Lemma run_ReadQueueValue s hs k d :
  hm_Get kSubscriber hs (m_subscribers s) = Some k -> hm_at (m_subscribers s) k = Some d ->
  ReadQueueValue hs s =
    Some (queue d, s <| m_subscribers ::= hm_set k (d <| s_pollStorage ::= cb_reset |>) |>).
Proof.
  intros Hg Hd.
  enough (Hwp : wp (ReadQueueValue hs) (fun r s' => r = queue d /\ s' =
    s <| m_subscribers ::= hm_set k (d <| s_pollStorage ::= cb_reset |>) |>) s).
  { by apply wp_run in Hwp as (r & s' & -> & -> & ->). }
  unfold ReadQueueValue, GetSubEntry. wp_step. wp_step. wp_step.
  assert (Ety : IsType kSubscriber hs = true).
  { unfold hm_Get, hm_index in Hg. by destruct (IsType kSubscriber hs). }
  rewrite Ety. wp_step. rewrite Hg. wp_step. eapply run_subscriber; [done|]. wp_step.
  eapply run_set_subscriber; [done|]. by wp_step.
Qed.

(** C26. Queues are first-in first-out: the values set one after the other through an
    active publisher, with times that do not decrease, are what a subscriber to all
    changes of the topic reads from its queue next, in the same order, after what was
    queued before and up to the capacity of the queue, of which the oldest are
    dropped.  Reading again returns nothing. *)
Theorem publish_then_read s (h hs : Z) (vs : list Value) (p k : nat) (pd : PublisherData)
    (d : SubscriberData) (t : TopicData J) :
  Inv s -> hm_Get kPublisher h (m_publishers s) = Some p ->
  hm_at (m_publishers s) p = Some pd -> hm_at (m_topics s) (p_topic pd) = Some t ->
  p_active pd = true -> Forall (fun v => value_valid v = true /\ t_type t = value_type v) vs ->
  Sorted Z.le (map value_time (t_lastValue t :: vs)) ->
  hm_Get kSubscriber hs (m_subscribers s) = Some k ->
  hm_at (m_subscribers s) k = Some d -> takes_all d pd ->
  exists s1 s2, set_all h vs s = Some (tt, s1) /\
    ReadQueueValue hs s1 = Some (last_n (queue_size d) (queue d ++ vs), s2) /\
    exists s3, ReadQueueValue hs s2 = Some ([], s3).
Proof.
  intros HI Hg Hp Ht Hact Hvs Hsort Hgs Hd Hta.
  pose proof (set_all_queue h p pd k vs s t d HI Hg Hp Ht Hact Hvs Hsort Hd Hta) as Hwp.
  apply wp_run in Hwp as ([] & s1 & Hr & HI1 & d1 & Hd1 & Hq). exists s1.
  assert (Hg1 : hm_Get kSubscriber hs (m_subscribers s1) = Some k) by (by eapply hm_Get_at).
  eexists. split; [done|]. split; [rewrite (run_ReadQueueValue s1 hs k d1), Hq by done; reflexivity|].
  set (d2 := d1 <| s_pollStorage ::= cb_reset |>). set (s2 := fupd m_subscribers _ s1).
  assert (Hd2 : hm_at (m_subscribers s2) k = Some d2).
  { unfold s2, fupd. cbn. by rewrite hm_at_set, decide_True by done. }
  eexists. rewrite (run_ReadQueueValue s2 hs k d2); [|by eapply hm_Get_at|done].
  by replace (queue d2) with (@nil Value) by (symmetry; apply (contents_reset (s_pollStorage d1))).
Qed.

(** ** Types of values *)

Lemma run_SetEntryValue_pub s h v p :
  hm_Get kPublisher h (m_publishers s) = Some p -> value_valid v = true ->
  SetEntryValue h v s = PublishLocalValue p v false s.
Proof.
  intros Hg Hv. unfold SetEntryValue. rewrite Hv. cbn [negb].
  unfold GetOrPublish, bind, get. by rewrite Hg.
Qed.

(** The first two lines of [PublishLocalValue]. *)
Lemma run_PublishLocalValue_head s p pd t v force fuel :
  hm_at (m_publishers s) p = Some pd -> hm_at (m_topics s) (p_topic pd) = Some t ->
  value_valid v = true -> t_type t <> NT_UNASSIGNED -> t_type t <> value_type v ->
  PublishLocalValue_rec (S fuel) p v force s =
    (if IsNumericCompatible (t_type t) (value_type v) then
       let* v := convert_value v (t_type t) in PublishLocalValue_rec fuel p v false
     else ret false) s.
Proof.
  intros Hp Ht Hv Hu Hne. cbn [PublishLocalValue_rec]. rewrite Hv. cbn [negb].
  rewrite (bind_run _ _ s pd s), (bind_run _ _ s t s) by (by apply publisher_run || apply topic_run).
  unfold type_is. by rewrite !bool_decide_eq_false_2.
Qed.

(** C36. A value of another type than the topic's is rejected, unless both types are numeric
    or both are numeric arrays: the result is false and nothing changes, for values
    set through a publisher and for values from the network (which are not converted
    either).  An inactive publisher cannot set a value of the topic's type. *)
Theorem set_mismatch_rejected s (h ht : Z) (v : Value) (p : nat) (pd : PublisherData)
    (t : TopicData J) :
  hm_Get kPublisher h (m_publishers s) = Some p -> hm_at (m_publishers s) p = Some pd ->
  hm_Get kTopic ht (m_topics s) = Some (p_topic pd) ->
  hm_at (m_topics s) (p_topic pd) = Some t ->
  t_type t <> NT_UNASSIGNED ->
  (value_type v <> t_type t -> IsNumericCompatible (t_type t) (value_type v) = false ->
     SetEntryValue h v s = Some (false, s)) /\
  (value_type v = t_type t -> p_active pd = false -> SetEntryValue h v s = Some (false, s)) /\
  (value_type v <> t_type t -> NetworkSetValue ht v s = Some (tt, s)).
Proof.
  intros Hg Hp Hgt Ht Hu.
  assert (Hnv : value_valid v = false -> SetEntryValue h v s = Some (false, s)).
  { intros Hv. unfold SetEntryValue. by rewrite Hv. }
  assert (Hnet : value_type v <> t_type t -> NetworkSetValue ht v s = Some (tt, s)).
  { intros Hne. unfold NetworkSetValue. rewrite (bind_run _ _ s s s), Hgt by done.
    rewrite (bind_run _ _ s t s) by (by apply topic_run). unfold SetValue.
    rewrite (bind_run _ _ s false s); [done|].
    rewrite (bind_run _ _ s t s) by (by apply topic_run).
    unfold type_is. by rewrite !bool_decide_eq_false_2. }
  destruct (value_valid v) eqn:Hv; split_and!; try by intros; apply Hnv.
  - intros Hne Hc. rewrite (run_SetEntryValue_pub s h v p) by done. unfold PublishLocalValue.
    by rewrite (run_PublishLocalValue_head s p pd t), Hc by done.
  - intros Hty Hact. rewrite (run_SetEntryValue_pub s h v p) by done. unfold PublishLocalValue.
    cbn [PublishLocalValue_rec]. rewrite Hv. cbn [negb]. 
    rewrite (bind_run _ _ s pd s), (bind_run _ _ s t s) by (by apply publisher_run || apply topic_run).
    unfold type_is. rewrite Hty, (bool_decide_eq_true_2 (t_type t = t_type t)) by done.
    rewrite andb_false_r. by rewrite Hact.
  - by apply Hnet.
  - by apply Hnet.
Qed.

(** Setting a value whose type differs from the topic's but is numerically compatible
    with it is the same as setting the value converted to the type of the topic. *)
Theorem set_numeric_converts s (h : Z) (v : Value) (p : nat) (pd : PublisherData) (t : TopicData J) :
  hm_Get kPublisher h (m_publishers s) = Some p -> hm_at (m_publishers s) p = Some pd ->
  hm_at (m_topics s) (p_topic pd) = Some t ->
  value_type v <> t_type t -> IsNumericCompatible (t_type t) (value_type v) = true ->
  value_time v <> 0 ->
  SetEntryValue h v s
  = SetEntryValue h (ConvertNumericValue env_cast_ub 0 v (t_type t)) s.
Proof.
  intros Hg Hp Ht Hne Hc Htime. set (w := ConvertNumericValue _ _ _ _).
  assert (Hw : value_type w = t_type t) by (by apply convert_type).
  assert (Hu : t_type t <> NT_UNASSIGNED) by (intros E; by rewrite E in Hc).
  assert (Hvw : value_valid w = true).
  { unfold value_valid. by rewrite Hw, bool_decide_eq_false_2. }
  assert (Hvv : value_valid v = true).
  { unfold value_valid. rewrite bool_decide_eq_false_2; [done|]. intros E. rewrite E in Hc.
    by destruct (t_type t). }
  rewrite !(run_SetEntryValue_pub s h _ p) by done. unfold PublishLocalValue.
  rewrite (run_PublishLocalValue_head s p pd t v), Hc by done.
  unfold convert_value, bind at 1 2, ret. rewrite (proj2 (Z.eqb_neq _ _) Htime). fold w.
  cbn [PublishLocalValue_rec]. rewrite Hvw. cbn [negb]. 
  rewrite !(bind_run (publisher p) _ s pd s), !(bind_run (topic (p_topic pd)) _ s t s)
    by (by apply publisher_run || apply topic_run). unfold type_is. rewrite Hw, (bool_decide_eq_true_2 (t_type t = t_type t)) by done.
  by rewrite andb_false_r.
Qed.

(** ** Values from the network *)

(** C30. A value from the network of the topic's type (or of any type if the topic has none
    yet) becomes the topic's value unless it is older than the current one, is queued
    for exactly the subscribers of the topic that accept remote values, and is not sent
    back to the network.  A subscriber that excludes a publisher still gets it. *)
Theorem network_value_delivers s (h : Z) (v : Value) (i : nat) (t : TopicData J) :
  Inv s -> hm_Get kTopic h (m_topics s) = Some i -> hm_at (m_topics s) i = Some t ->
  type_fits t v = true ->
  exists s', NetworkSetValue h v s = Some (tt, s') /\ net_out s' = net_out s /\
    (exists t', hm_at (m_topics s') i = Some t' /\
       t_lastValue t' = (if newer t v then v else t_lastValue t) /\
       t_type t' = (if newer t v then value_type v else t_type t) /\
       t_lastValueNetwork t' = v /\ t_lastValueFromNetwork t' = true) /\
    (forall j, j <> i -> hm_at (m_topics s') j = hm_at (m_topics s) j) /\
    (forall k d, hm_at (m_subscribers s) k = Some d ->
       exists d', hm_at (m_subscribers s') k = Some d' /\
         queue d' = if bool_decide (s_topic d = i) && newer t v &&
                       accepts d true (value_eqb v (t_lastValue t)) None
                    then bounded_push (queue_size d) v (queue d) else queue d).
Proof.
  intros HI Hg Ht Hf. pose proof HI as (HS & _ & _).
  pose proof (run_SetValue i t v NT_EVENT_VALUE_REMOTE (value_eqb v (t_lastValue t)) None s HS Ht)
    as Hwp. apply wp_run in Hwp as (b & s1 & Hr & -> & [Evs Enet] & Hpost); [|done].
  rewrite Hf in Hr, Hpost. cbn [andb] in Hpost. unfold NetworkSetValue.
  rewrite (bind_run _ _ s s s), Hg by done. rewrite (bind_run _ _ s t s) by (by apply topic_run).
  rewrite (bind_run _ _ s true s1) by done. cbn [when].
  assert (Hs1 : exists t1, hm_at (m_topics s1) i = Some t1 /\
    t_lastValue t1 = (if newer t v then v else t_lastValue t) /\
    t_type t1 = (if newer t v then value_type v else t_type t)).
  { destruct (newer t v); destruct Hpost as [-> _]; [|by exists t].
    rewrite hm_at_set, decide_True by done. by eexists. }
  destruct Hs1 as (t1 & Ht1 & El1 & Ety1). unfold set_topic.
  rewrite (bind_run _ _ s1 t1 s1) by (by apply topic_run). eexists. split; [done|]. split_and!.
  - done.
  - unfold fupd. cbn. rewrite hm_at_set, decide_True by done. by eexists.
  - intros j Hj. unfold fupd. cbn. rewrite hm_at_set, decide_False by done.
    destruct (newer t v); destruct Hpost as [-> _]; [|done]. by rewrite hm_at_set, decide_False.
  - intros k d Hd. pose proof (sub_of_topic s i t k d HI Ht Hd) as Hin. unfold fupd. cbn.
    destruct (newer t v); destruct Hpost as [_ Hsubs]; [|rewrite Hsubs, andb_false_r; by exists d].
    rewrite Hsubs, Hd. eexists. split; [done|]. rewrite andb_true_r.
    destruct (decide (k ∈ t_localSubscribers t)) as [Hc|Hc].
    + rewrite bool_decide_eq_true_2 by (by apply Hin). by apply (queue_receive s k).
    + rewrite bool_decide_eq_false_2; [done|]. by rewrite <- Hin.
Qed.

(** ** Default values *)

(** [SetDefaultEntryValue] never replaces a value: if the topic of a publisher,
    subscriber or entry has one, the result is false and nothing changes. *)
Theorem default_keeps_value s (h : Z) (v : Value) (i : nat) (t : TopicData J) :
  GetTopic_handle h s = Some (Some i, s) -> hm_at (m_topics s) i = Some t ->
  value_valid (t_lastValue t) = true -> SetDefaultEntryValue h v s = Some (false, s).
Proof.
  intros Hh Ht Hv. unfold SetDefaultEntryValue. destruct (negb (value_valid v)); [done|].
  rewrite (bind_run _ _ s (Some i) s) by done. rewrite (bind_run _ _ s t s) by (by apply topic_run).
  by rewrite Hv.
Qed.

Lemma IsType_unique t t' h : IsType t h = true -> t <> t' -> IsType t' h = false.
Proof.
  unfold IsType. intros ->%Z.eqb_eq Hne. apply Z.eqb_neq. intros E.
  by apply Hne, HandleType_code_inj.
Qed.

Lemma GetTopic_handle_pub s h p pd :
  hm_Get kPublisher h (m_publishers s) = Some p -> hm_at (m_publishers s) p = Some pd ->
  GetTopic_handle h s = Some (Some (p_topic pd), s).
Proof.
  intros Hg Hp. assert (Ety : IsType kPublisher h = true).
  { unfold hm_Get, hm_index in Hg. by destruct (IsType kPublisher h). }
  unfold GetTopic_handle. rewrite (bind_run _ _ s s s) by done.
  rewrite (IsType_unique kPublisher kEntry), (IsType_unique kPublisher kSubscriber), Ety, Hg by done.
  by rewrite (bind_run _ _ s pd s) by (by apply publisher_run).
Qed.

(** Setting the default of a topic that has no value, through an active publisher of
    the value's type, succeeds: the topic then has the value with time 0, so that any
    other value replaces it. *)
Theorem default_sets_value s (h : Z) (v : Value) (p : nat) (pd : PublisherData) (t : TopicData J) :
  Inv s -> hm_Get kPublisher h (m_publishers s) = Some p ->
  hm_at (m_publishers s) p = Some pd -> hm_at (m_topics s) (p_topic pd) = Some t ->
  p_active pd = true -> value_valid v = true -> t_type t = value_type v ->
  value_valid (t_lastValue t) = false ->
  exists s' t', SetDefaultEntryValue h v s = Some (true, s') /\
    hm_at (m_topics s') (p_topic pd) = Some t' /\
    t_lastValue t' = SetServerTime 0 (SetTime 0 v) /\ (forall w, newer t' w = true).
Proof.
  intros HI Hg Hp Ht Hact Hv Hty Hno. pose proof HI as (HS & _ & _).
  set (w := SetServerTime 0 (SetTime 0 v)). set (i := p_topic pd) in *.
  pose proof (GetTopic_handle_pub s h p pd Hg Hp) as Eh. fold i in Eh.
  unfold SetDefaultEntryValue. rewrite Hv. cbn [negb].
  rewrite (bind_run _ _ s (Some i) s) by done. rewrite (bind_run _ _ s t s) by (by apply topic_run).
  assert (Eu : type_is (t_type t) NT_UNASSIGNED = false).
  { apply bool_decide_eq_false_2. rewrite Hty. by apply value_valid_type. }
  assert (Et : type_is (t_type t) (value_type v) = true) by (by apply bool_decide_eq_true_2).
  rewrite Hno, Eu, Et. cbn [negb andb orb]. unfold GetOrPublish.
  rewrite (bind_run _ _ s (Some p) s) by (by rewrite (bind_run _ _ s s s), Hg by done).
  rewrite (bind_run _ _ s t s) by (by apply topic_run). rewrite Eu. cbn [when].
  rewrite (bind_run _ _ s tt s) by done. rewrite (bind_run _ _ s t s) by (by apply topic_run).
  rewrite Et. rewrite (bind_run _ _ s (Some v) s) by done. cbn beta iota zeta. fold w.
  set (t1 := t <| t_lastValue := w |>). set (s1 := s <| m_topics ::= hm_set i t1 |>).
  rewrite (bind_run _ _ s tt s1) by (unfold set_topic; by rewrite (bind_run _ _ s t s) by (by apply topic_run)).
  assert (Ht1 : hm_at (m_topics s1) i = Some t1).
  { unfold s1, fupd. cbn. by rewrite hm_at_set, decide_True by done. }
  assert (Es1 : shape s1 = shape s).
  { unfold s1, shape, fupd. cbn. by rewrite (hm_map_set_same _ _ _ t). }
  assert (Hwp : wp (PublishLocalValue_rec 2 p w true) (fun b s' => b = true /\ published p pd t1 true w s1 s') s1).
  { apply run_PublishLocalValue; try done. by rewrite Es1. }
  apply wp_run in Hwp as (b & s2 & Hr & -> & [_ (t2 & Ht2 & El & _) _ _ _]).
  exists s2, t2. unfold PublishLocalValue. rewrite (bind_run _ _ s1 true s2) by done.
  assert (El2 : t_lastValue t2 = w) by (rewrite El; by destruct (newer t1 w)).
  split_and!; [done..|]. intros x. unfold newer. rewrite El2. by rewrite orb_true_r.
Qed.
End Props.

(** ** The theorems on concrete clients *)

Import Example.

Lemma local_storage_safe_witness :
  all_permitted session init = true /\ exists s, calls session init = Some (tt, s) /\ Inv s.
Proof.
  split; [by_eval|]. apply (local_storage_safe 1 session); [lia|by_eval].
Defined.

Lemma demo_reachable : reachable (state demo).
Proof. exists 1, demo. split_and!; [lia|by_eval|apply state_calls; by_eval]. Qed.

Lemma publisher_activity_witness :
  exists p t, hm_at (m_publishers (state demo)) 0 = Some p /\
    hm_at (m_topics (state demo)) (p_topic p) = Some t /\ t_type t <> NT_UNASSIGNED.
Proof.
  destruct (publisher_activity (state demo) demo_reachable) as [Hp _].
  eassert (Hk : hm_at (m_publishers (state demo)) 0 = Some _) by by_eval.
  destruct (Hp _ _ Hk) as (t & Ht & _ & Hty & _).
  exact (ex_intro _ _ (ex_intro _ t (conj Hk (conj Ht Hty)))).
Defined.

Lemma multi_subscribers_exact_witness :
  exists t, hm_at (m_topics (state demo)) 0 = Some t /\ t_multiSubscribers t = [0%nat] /\
    NoDup (t_multiSubscribers t).
Proof.
  eexists. split; [by_eval|]. split; [by_eval|].
  apply (multi_subscribers_exact (state demo) 0); [apply demo_reachable|by_eval].
Defined.

Lemma publish_delivers_witness :
  exists s', SetEntryValue (pub_h 0) (dbl 3 4) (state demo) = Some (true, s') /\
    net_out s' = net_out (state demo) ++ [NetSetValue (pub_h 0) (dbl 3 4)].
Proof.
  eassert (Hd : _) by (eapply (publish_delivers (state demo) (pub_h 0) (dbl 3 4) 0);
    [apply state_Inv; by_eval|by_eval..]).
  destruct Hd as (s' & Hr & _ & _ & _ & Hn). exists s'. split; [exact Hr|]. rewrite Hn. by_eval.
Defined.

(** A queue of three values keeps the last three of four. *)
Lemma publish_then_read_witness :
  let vs := [dbl 1 1; dbl 2 2; dbl 3 3; dbl 4 4] in
  exists s1 s2, set_all (pub_h 0) vs (state demo) = Some (tt, s1) /\
    ReadQueueValue (sub_h 0) s1 = Some ([dbl 2 2; dbl 3 3; dbl 4 4], s2).
Proof.
  intros vs.
  eassert (Hd : _) by (eapply (publish_then_read (state demo) (pub_h 0) (sub_h 0) vs 0 0);
    [apply state_Inv; by_eval|by_eval|by_eval|by_eval|by_eval
    |repeat constructor|repeat constructor; vm_compute; discriminate
    |by_eval|by_eval|repeat split; vm_compute; discriminate]).
  destruct Hd as (s1 & s2 & Hs & Hr & _). exists s1, s2. exact (conj Hs Hr).
Defined.

(** A string for a double is rejected, an integer is converted. *)
Lemma set_mismatch_rejected_witness :
  SetEntryValue (pub_h 0) (MkValue (VString "x") 4 0) (state demo) = Some (false, state demo).
Proof.
  eassert (Hd : _) by (eapply (set_mismatch_rejected (state demo) (pub_h 0) (topic_h 0)
    (MkValue (VString "x") 4 0) 0); [by_eval|by_eval|by_eval|by_eval|vm_compute; discriminate]).
  apply (proj1 Hd); [vm_compute; discriminate|by_eval].
Defined.

Lemma set_numeric_converts_witness :
  SetEntryValue (pub_h 0) (MkValue (VInteger 3) 4 0) (state demo)
  = SetEntryValue (pub_h 0) (dbl 0x4008000000000000 4) (state demo).
Proof.
  eassert (Hd : _) by (eapply (set_numeric_converts (state demo) (pub_h 0) (MkValue (VInteger 3) 4 0) 0);
    [by_eval|by_eval|by_eval|vm_compute; discriminate|by_eval|vm_compute; discriminate]).
  rewrite Hd. by_eval.
Defined.

Lemma network_value_delivers_witness :
  exists s', NetworkSetValue (topic_h 0) (dbl 3 4) (state demo) = Some (tt, s') /\
    net_out s' = net_out (state demo).
Proof.
  eassert (Hd : _) by (eapply (network_value_delivers (state demo) (topic_h 0) (dbl 3 4) 0);
    [apply state_Inv; by_eval|by_eval..]).
  destruct Hd as (s' & Hr & Hn & _). exact (ex_intro _ s' (conj Hr Hn)).
Defined.

Definition valued : list (api js) := demo ++ [CSetEntryValue (pub_h 0) (dbl 3 4)].

Lemma default_keeps_value_witness :
  SetDefaultEntryValue (sub_h 0) (dbl 5 6) (state valued) = Some (false, state valued).
Proof.
  eapply (default_keeps_value (state valued) (sub_h 0) (dbl 5 6) 0); by_eval.
Defined.

Lemma default_sets_value_witness :
  exists s' t', SetDefaultEntryValue (pub_h 0) (dbl 5 6) (state demo) = Some (true, s') /\
    hm_at (m_topics s') 0 = Some t' /\ t_lastValue t' = dbl 5 0.
Proof.
  eassert (Hd : _) by (eapply (default_sets_value (state demo) (pub_h 0) (dbl 5 6) 0);
    [apply state_Inv; by_eval|by_eval..]).
  destruct Hd as (s' & t' & Hr & Ht & El & _).
  exact (ex_intro _ s' (ex_intro _ t' (conj Hr (conj Ht El)))).
Defined.
