(* ===== verification/LocalTopics.v ===== *)
(** * LocalTopics: topics, their properties and their life cycle

    The exact effect of [NotifyTopic], and what the functions on topics do: names and
    handles, properties, and the removal of the last publisher. *)

From S2P Require Import Prelude NtTypes CircularBuffer Handles Monads LocalTypes LocalStorage.
From S2P Require Import LocalShape LocalFrames LocalInv LocalObjects LocalOps LocalSafety.
From S2P Require Import LocalValues LocalExample.

Local Open Scope Z_scope.

Section Topics.
Context {J : Type} `{Json J} `{Env}.
Implicit Types (s : LSImpl J) (sh : Shape).

(** ** NotifyTopic *)

(** The topic apart from its data logs. *)
Definition unlog (t : TopicData J) : TopicData J :=
  t <| t_datalogs := [] |> <| t_datalogType := NT_UNASSIGNED |>.

(** Nothing has changed but the data logs of topics, the clock and events that do not
    go to the network. *)
Record notified s s' : Prop := {
  nf_state : s' = s <| m_topics := m_topics s' |> <| out := out s' |>
                    <| m_clock := m_clock s' |> <| m_logStarts := m_logStarts s' |>;
  nf_net : net_out s' = net_out s;
  nf_topics : hm_map unlog (m_topics s') = hm_map unlog (m_topics s);
}.

Lemma notified_refl s : notified s s.
Proof. split; [by destruct s|done|done]. Qed.

Lemma notified_trans s1 s2 s3 : notified s1 s2 -> notified s2 s3 -> notified s1 s3.
Proof. intros [E1 N1 T1] [E2 N2 T2]. split; [|congruence..]. rewrite E2, E1. done. Qed.

Lemma notified_emit s s' o :
  is_net o = false -> notified s s' -> notified s (s' <| out ::= fun l => l ++ [o] |>).
Proof.
  intros Ho [E N T]. split; [rewrite E; done| |done]. unfold net_out, fupd in *. cbn.
  by rewrite filter_app, filter_cons, decide_False, filter_nil, app_nil_r by (by rewrite Ho).
Qed.

Lemma notified_clock s s' : notified s s' -> notified s (s' <| m_clock ::= S |>).
Proof. intros [E N T]. split; [rewrite E; done|done|done]. Qed.
Lemma notified_logStarts s s' : notified s s' -> notified s (s' <| m_logStarts ::= S |>).
Proof. intros [E N T]. split; [rewrite E; done|done|done]. Qed.

Lemma notified_topic s s' i t t' :
  hm_at (m_topics s') i = Some t -> unlog t' = unlog t -> notified s s' ->
  notified s (s' <| m_topics ::= hm_set i t' |>).
Proof.
  intros Hi Hf [E N T]. split; [rewrite E; done|done|]. unfold fupd. cbn.
  by rewrite (hm_map_set_same _ _ _ t).
Qed.

Lemma notified_at s s' i t :
  notified s s' -> hm_at (m_topics s) i = Some t ->
  exists t', hm_at (m_topics s') i = Some t' /\ unlog t' = unlog t.
Proof.
  intros [_ _ T] Hi. apply (f_equal (fun m => hm_at m i)) in T. rewrite !hm_at_map, Hi in T.
  apply fmap_Some in T as (t' & Ht' & E). by exists t'.
Qed.

Lemma notified_loggers s s' : notified s s' -> m_dataloggers s' = m_dataloggers s.
Proof. intros [E _ _]. by rewrite E. Qed.

Lemma run_collect_listeners l name special s :
  Struct (shape s) -> (forall h, h ∈ l -> is_Some (m_listeners s !! h)) ->
  wp (collect_listeners l name special) (fun _ s' => s' = s) s.
Proof.
  intros HS. induction l as [|h l IH]; intros Hl; cbn [collect_listeners]; [by wp_step|].
  destruct (Hl h) as [d Hd]; [by left|]. wp_step. unfold listener. wp_step. wp_step. wp_step; [done|].
  wp_step. eapply (wp_mono _ (fun _ s' => s' = s)).
  - destruct (l_multiSubscriber d) as [k|] eqn:Ek; [|by wp_step].
    destruct (lo_multi _ _ _ (st_listener _ HS h d Hd) k Ek) as [x Hx].
    cbn in Hx. rewrite hm_at_map in Hx. apply fmap_Some in Hx as (ms & Hms & _).
    wp_step. eapply run_multiSubscriber; [done|]. by wp_step.
  - intros b s1 ->. wp_step. eapply wp_mono; [apply IH; set_solver|]. intros r s2 ->. by wp_step.
Qed.

Lemma run_DataLogger_Start d t now s s0 :
  notified s0 s ->
  wp (DataLogger_Start d t now) (fun _ s' => notified s0 s' /\ m_topics s' = m_topics s) s.
Proof.
  intros Hn. unfold DataLogger_Start. wp_step. apply run_emit. wp_step. wp_step. wp_step. wp_step.
  wp_step. split; [|done]. by apply notified_logStarts, notified_emit.
Qed.

Lemma run_NotifyDatalogger i flags now k s s0 :
  notified s0 s -> is_Some (hm_at (m_topics s) i) -> is_Some (hm_at (m_dataloggers s) k) ->
  wp (NotifyDatalogger i flags now k) (fun _ s' => notified s0 s') s.
Proof.
  intros Hn [t Ht] [d Hd]. unfold NotifyDatalogger. wp_step. unfold datalogger. wp_step. wp_step.
  wp_step; [done|]. wp_step. eapply run_topic; [done|]. wp_step; [intros _|done].
  cbn zeta. destruct (find_datalog _ t) as [[n e]|].
  - wp_step; [intros _|done]. wp_step. apply run_emit. eapply run_set_topic; [done|].
    eapply notified_topic; [done|done|]. by apply notified_emit.
  - wp_step; [intros _|done]. wp_step. eapply wp_mono; [by apply (run_DataLogger_Start _ _ _ _ s0)|].
    intros e s1 [Hn1 Et]. eapply run_set_topic; [by rewrite Et|].
    eapply notified_topic; [by rewrite Et|done|done].
Qed.

Lemma run_NotifyTopic i flags s :
  Struct (shape s) -> is_Some (hm_at (m_topics s) i) ->
  wp (NotifyTopic i flags) (fun _ s' => notified s s' /\
    (has_bits flags (Z.lor NT_EVENT_PUBLISH NT_EVENT_UNPUBLISH) = false ->
       m_topics s' = m_topics s)) s.
Proof.
  intros HS [t Ht]. unfold NotifyTopic. wp_step. eapply run_topic; [done|]. cbn zeta. wp_step.
  eapply (wp_mono _ (fun _ s' => notified s s' /\ m_topics s' = m_topics s /\ shape s' = shape s)).
  { wp_step; intros _; [|by split; [apply notified_refl|]].
    apply run_emit. by split; [apply notified_emit, notified_refl|]. }
  intros [] s1 (Hn1 & Et1 & Es1). wp_step. wp_step. wp_step. eapply wp_mono.
  { apply run_collect_listeners; [by rewrite Es1|]. intros h Hh. rewrite <- Es1 in HS.
    by apply (st_prefix _ HS h). }
  intros ls s2 ->. wp_step.
  eapply (wp_mono _ (fun _ s' => notified s s' /\ m_topics s' = m_topics s)).
  { wp_step; intros _; [|done]. apply run_emit. by split; [apply notified_emit|]. }
  intros [] s3 (Hn3 & Et3). wp_step.
  - apply (wp_mono _ (fun _ s' => notified s s')); [|by intros [] s4 Hn4]. wp_step. wp_step.
    wp_step; [intros _|done]. wp_step. unfold Now. repeat wp_step.
    apply (wp_for_each_inv _ _ (fun s' => notified s s')); [by apply notified_clock| |done].
    + intros k s5 [d Hk]%elem_of_hm_live Hn5. apply run_NotifyDatalogger; [done| |].
      * destruct (notified_at s s5 i t Hn5 Ht) as (t5 & -> & _). done.
      * by rewrite (notified_loggers _ _ Hn5), <- (notified_loggers _ _ Hn3), Hk.
  - wp_step; intros _; [|done].
    apply (wp_for_each_inv _ _ (fun s' => notified s s' /\ m_topics s' = m_topics s));
      [done| |by intros s' []].
    intros e s4 _ [Hn4 Et4]. apply run_emit. by split; [apply notified_emit|].
Qed.

(** The flags of a topic as its properties say. *)
Definition with_flags (t : TopicData J) : TopicData J :=
  flag_of_property "retained" NT_RETAINED (flag_of_property "persistent" NT_PERSISTENT t).

Lemma with_flags_same t :
  t_properties (with_flags t) = t_properties t /\ t_name (with_flags t) = t_name t /\
  t_handle (with_flags t) = t_handle t /\ topic_shape (with_flags t) = topic_shape t.
Proof.
  unfold with_flags, flag_of_property.
  destruct (t_properties t !! "persistent") as [v|]; [destruct (j_get_bool v) as [[]|]|];
    unfold fupd; cbn; destruct (t_properties t !! "retained") as [w|];
    try destruct (j_get_bool w) as [[]|]; done.
Qed.

(** The topic after its properties have changed *)
Definition properties_set (upd : bool) (t : TopicData J) : TopicData J :=
  (if upd then with_flags t else t) <| t_propertiesStr := jdump (t_properties t) |>.

Lemma run_PropertiesUpdated i t update send upd s :
  Struct (shape s) -> hm_at (m_topics s) i = Some t ->
  wp (PropertiesUpdated i update NT_EVENT_NONE send upd)
    (fun _ s' => m_topics s' = hm_set i (properties_set upd t) (m_topics s) /\
       net_out s' = net_out s ++ (if m_network s && send
         then [NetSetProperties (t_handle t) (t_name t) update] else [])) s.
Proof.
  intros HS Ht. destruct (with_flags_same t) as (Ep & En & Eh & Esh).
  set (t1 := if upd then with_flags t else t). unfold PropertiesUpdated. wp_step.
  eapply (wp_mono _ (fun _ s' => s' = s <| m_topics ::= hm_set i t1 |>)).
  { subst t1. destruct upd; cbn [when]; [by eapply run_set_topic|]. wp_step.
    unfold fupd. cbn. rewrite hm_set_id by done. by destruct s. }
  intros [] s1 ->. wp_step. eapply run_set_topic.
  { unfold fupd. cbn. by rewrite hm_at_set, decide_True by done. }
  set (t2 := t1 <| t_propertiesStr := jdump (t_properties t1) |>). set (s2 := fupd m_topics _ _).
  assert (E2 : s2 = s <| m_topics ::= hm_set i t2 |>).
  { unfold s2, fupd. cbn. by rewrite hm_set_set. }
  assert (Et2 : t2 = properties_set upd t).
  { unfold t2, properties_set, t1. destruct upd; [by rewrite Ep|done]. }
  assert (Ht2 : hm_at (m_topics s2) i = Some t2).
  { rewrite E2. unfold fupd. cbn. by rewrite hm_at_set, decide_True by done. }
  clearbody s2. wp_step. eapply wp_mono; [apply run_NotifyTopic; [|by eexists]|].
  { replace (shape s2) with (shape s); [done|]. rewrite E2. unfold shape, fupd. cbn.
    rewrite (hm_map_set_same _ _ _ t); [done|done|]. unfold t2, t1. by destruct upd. }
  intros [] s3 [[E3 N3 _] T3]. specialize (T3 eq_refl). wp_step. wp_step. wp_step.
  eapply run_topic; [by rewrite T3|].
  assert (En3 : m_network s3 = m_network s) by (by rewrite E3, E2).
  assert (Enet : net_out s3 = net_out s) by (by rewrite N3, E2).
  assert (Em3 : m_topics s3 = hm_set i (properties_set upd t) (m_topics s)).
  { by rewrite T3, E2, <- Et2. }
  rewrite En3. destruct (m_network s && send); cbn [when].
  - apply run_emit. split; [done|]. rewrite net_out_snoc, Enet by done.
    rewrite Et2. unfold properties_set. by destruct upd; cbn; rewrite ?Eh, ?En.
  - wp_step. by rewrite app_nil_r.
Qed.

(** Properties round trip: after [SetTopicProperty] the property reads as it was set
    (a null erases it), all other properties of this and of other topics are as
    before, and the network is told of the change. *)
Theorem topic_property_roundtrip s (h : Z) (name : string) (value : J) (i : nat) (t : TopicData J) :
  Inv s -> hm_Get kTopic h (m_topics s) = Some i -> hm_at (m_topics s) i = Some t ->
  let props := if j_is_null value then delete name (t_properties t)
               else <[name := value]> (t_properties t) in
  exists s', SetTopicProperty h name value s = Some (tt, s') /\
    GetTopicProperty h name s' = Some (if j_is_null value then jnull else value, s') /\
    GetTopicProperties h s' = Some (props, s') /\
    (forall j, j <> i -> hm_at (m_topics s') j = hm_at (m_topics s) j) /\
    net_out s' = net_out s ++
      (if m_network s then [NetSetProperties (t_handle t) (t_name t) {[name := value]}] else []).
Proof.
  intros (HS & _ & _) Hg Ht props. unfold SetTopicProperty, with_topic.
  rewrite (bind_run _ _ s s s), Hg by done.
  set (t1 := t <| t_properties := props |>). set (s1 := s <| m_topics ::= hm_set i t1 |>).
  rewrite (bind_run _ _ s tt s1); [|unfold set_topic; by rewrite (bind_run _ _ s t s) by (by apply topic_run)].
  assert (Ht1 : hm_at (m_topics s1) i = Some t1).
  { unfold s1, fupd. cbn. by rewrite hm_at_set, decide_True by done. }
  assert (Es : shape s1 = shape s).
  { unfold s1, shape, fupd. cbn. by rewrite (hm_map_set_same _ _ _ t). }
  pose proof (run_PropertiesUpdated i t1 {[name := value]} true true s1) as Hwp.
  rewrite Es in Hwp. apply wp_run in Hwp as ([] & s2 & Hr & Em & Hnet); [|done|done].
  exists s2. set (t2 := properties_set true t1) in Em.
  assert (Ep2 : t_properties t2 = props).
  { unfold t2, properties_set. cbn. by destruct (with_flags_same t1) as (-> & _). }
  assert (Ht2 : hm_at (m_topics s2) i = Some t2).
  { rewrite Em, hm_at_set, decide_True by done. done. }
  assert (Hget : forall A (d : A) f, get_of_topic h d f s2 = Some (f t2, s2)).
  { intros A d f. unfold get_of_topic, with_topic. rewrite (bind_run _ _ s2 s2 s2) by done.
    rewrite (hm_Get_at _ (m_topics s) _ _ i) by (done || by rewrite Ht2).
    by rewrite (bind_run _ _ s2 t2 s2) by (by apply topic_run). }
  split_and!; [done| | | |].
  - unfold GetTopicProperty. rewrite Hget, Ep2. unfold props. destruct (j_is_null value).
    + by rewrite lookup_delete_eq.
    + by rewrite lookup_insert_eq.
  - unfold GetTopicProperties. by rewrite Hget, Ep2.
  - intros j Hj. rewrite Em, hm_at_set, decide_False by done. unfold s1, fupd. cbn.
    by rewrite hm_at_set, decide_False.
  - rewrite Hnet, andb_true_r. done.
Qed.

(** ** Names and handles *)

(** The name map and the handles resolve to the same topic. *)
Lemma name_handle s name i :
  Inv s -> m_nameTopics s !! name = Some i ->
  exists t, hm_at (m_topics s) i = Some t /\ t_name t = name /\
    hm_Get kTopic (t_handle t) (m_topics s) = Some i.
Proof.
  intros (HS & _ & _) Hn. apply (st_names _ HS) in Hn as (ts & Hts & En).
  destruct (topic_of_shape s i ts Hts) as (t & Ht & ->). exists t. split_and!; [done|done|].
  rewrite <- (table_Get _ _ _ _ _ _ (st_inst _ HS) (st_t _ HS) Hts). cbn. by rewrite hm_Get_map.
Qed.

Lemma GetTopic_known s name i t :
  name <> EmptyString -> m_nameTopics s !! name = Some i -> hm_at (m_topics s) i = Some t ->
  GetTopic name s = Some (t_handle t, s).
Proof.
  intros Hne Hn Ht. unfold GetTopic. rewrite (proj2 (String.eqb_neq _ _) Hne). unfold GetOrCreateTopic.
  rewrite (bind_run _ _ s i s) by (by rewrite (bind_run _ _ s s s), Hn by done).
  by rewrite (bind_run _ _ s t s) by (by apply topic_run).
Qed.

(** Topic handles name topics: the handle [GetTopic] returns for a name has that name,
    asking again returns the same handle, and no other known name resolves to it. *)
Theorem topic_name_roundtrip s (name : string) :
  Inv s -> name <> EmptyString -> room (m_topics s) ->
  exists h s', GetTopic name s = Some (h, s') /\ GetTopicName h s' = Some (name, s') /\
    GetTopic name s' = Some (h, s') /\
    forall name', is_Some (m_nameTopics s' !! name') ->
      GetTopic name' s' = Some (h, s') -> name' = name.
Proof.
  intros HI Hne Hroom. pose proof (wp_GetOrCreateTopic name (shape s) s HI) as Hwp.
  apply wp_run in Hwp as (i & s' & Hr & HI' & (ts & Hts & En) & _); [| |done].
  2:{ unfold room in *. cbn [shape sh_topics]. by rewrite uid_size_map. }
  assert (Hn' : m_nameTopics s' !! name = Some i) by (apply (st_names _ (proj1 HI')); eauto).
  destruct (name_handle s' name i HI' Hn') as (t & Ht & Etn & Hg). exists (t_handle t), s'.
  split_and!.
  - unfold GetTopic. rewrite (proj2 (String.eqb_neq _ _) Hne). rewrite (bind_run _ _ s i s') by done.
    by rewrite (bind_run _ _ s' t s') by (by apply topic_run).
  - unfold GetTopicName, get_of_topic, with_topic. rewrite (bind_run _ _ s' s' s'), Hg by done.
    by rewrite (bind_run _ _ s' t s'), Etn by (by apply topic_run).
  - by eapply GetTopic_known.
  - intros name' [i' Hi'] Hr'. destruct (name_handle s' name' i' HI' Hi') as (t' & Ht' & Etn' & Hg').
    destruct (decide (name' = EmptyString)) as [->|Hne'].
    + injection Hr' as E. rewrite <- E in Hg. by cbv in Hg.
    + rewrite (GetTopic_known s' name' i' t') in Hr' by done. injection Hr' as E.
      rewrite E in Hg'. assert (i' = i) by (by eapply hm_Get_fun). congruence.
Qed.

(** ** The last publisher *)

(** [CheckReset] of a topic that does not exist *)
Definition reset_topic (t : TopicData J) : TopicData J :=
  t <| t_lastValue := Value_empty |> <| t_lastValueNetwork := Value_empty |>
    <| t_lastValueFromNetwork := false |> <| t_type := NT_UNASSIGNED |>
    <| t_typeStr := EmptyString |> <| t_flags := 0 |> <| t_properties := ∅ |>
    <| t_propertiesStr := "{}" |>.

Lemma run_CheckReset i t (Q : unit -> LSImpl J -> Prop) s :
  hm_at (m_topics s) i = Some t -> Exists t = false ->
  Q tt (s <| m_topics ::= hm_set i (reset_topic t) |>) -> wp (CheckReset i) Q s.
Proof.
  intros Ht Hx HQ. unfold CheckReset. wp_step. eapply run_topic; [done|]. rewrite Hx.
  by eapply run_set_topic.
Qed.

(** The publisher [p] is taken out of the table. *)
Lemma run_remove_publisher h p pd s (Q : option (nat * PublisherData) -> LSImpl J -> Prop) :
  Inv s -> hm_Get kPublisher h (m_publishers s) = Some p -> hm_at (m_publishers s) p = Some pd ->
  (forall m, table (m_inst s) kPublisher p_handle m ->
     (forall j, hm_at m j = if decide (p = j) then None else hm_at (m_publishers s) j) ->
     Q (Some (p, pd)) (s <| m_publishers := m |>)) ->
  wp (remove_publisher h) Q s.
Proof.
  intros (HS & _ & _) Hg Hp HQ. unfold remove_publisher. wp_step. wp_step.
  destruct (hm_Remove kPublisher h (m_publishers s)) as [o m] eqn:Er.
  destruct (table_Remove _ _ _ _ h o m (st_p _ HS) Er) as [Htab Ho]. cbn [shape sh_pubs] in Ho.
  destruct o as [x|]; [|destruct Ho as [_ Ho]; congruence].
  destruct Ho as (k & Hk & Hx & Hat & Hm). assert (k = p) as -> by congruence.
  assert (x = pd) as -> by congruence. wp_step. wp_step. wp_step.
  rewrite Hx. cbn [mbind option_bind]. by apply HQ.
Qed.

(** The topic after it has lost its only publisher *)
Definition unpublished (t : TopicData J) : TopicData J :=
  reset_topic (t <| t_localPublishers := [] |>).

Lemma run_Unpublish_last s h p pd t :
  Inv s -> hm_Get kPublisher h (m_publishers s) = Some p ->
  hm_at (m_publishers s) p = Some pd -> hm_at (m_topics s) (p_topic pd) = Some t ->
  t_localPublishers t = [p] -> t_onNetwork t = false ->
  wp (Unpublish h) (fun _ s' => hm_at (m_publishers s') p = None /\
    hm_map unlog (m_topics s') = hm_map unlog (hm_set (p_topic pd) (unpublished t) (m_topics s)) /\
    net_out s' = net_out s ++
      (if p_active pd && m_network s then [NetUnpublish (p_handle pd) (t_handle t)] else [])) s.
Proof.
  intros HI Hg Hp Ht Hpubs Hnet. pose proof HI as (HS & _ & _). set (i := p_topic pd) in *.
  unfold Unpublish. assert (Ety : IsType kPublisher h = true).
  { unfold hm_Get, hm_index in Hg. by destruct (IsType kPublisher h). }
  rewrite Ety. unfold RemoveLocalPublisher. wp_step. eapply run_remove_publisher; [done..|].
  intros m Hm Hat. cbn zeta. fold i. set (s1 := fupd m_publishers _ s). wp_step.
  eapply run_topic; [done|]. wp_step. eapply run_set_topic; [done|].
  set (t1 := t <| t_localPublishers := [] |>).
  replace (t <| t_localPublishers ::= vs_Remove p |>) with t1.
  2:{ unfold t1, fupd. cbn. rewrite Hpubs. unfold vs_Remove. by rewrite filter_cons, decide_False by auto. }
  set (s2 := fupd m_topics _ s1).
  assert (Ht1 : hm_at (m_topics s2) i = Some t1).
  { unfold s2, fupd. cbn. by rewrite hm_at_set, decide_True by done. }
  assert (HS2 : Struct (shape s2)).
  { replace (shape s2) with (shape s <| sh_pubs := m |> <| sh_topics ::= hm_set i (topic_shape t1) |>).
    - eapply (Struct_remove_pub _ HS p pd m (topic_shape t)); try done; [by apply shape_topic|].
      unfold t1, topic_shape, fupd. cbn. rewrite Hpubs. unfold vs_Remove.
      by rewrite filter_cons, decide_False by auto.
    - unfold s2. by rewrite shape_set_topic. }
  wp_step. eapply run_topic; [done|]. wp_step.
  replace (Exists t && negb (Exists t1)) with true by (unfold Exists; cbn; by rewrite Hpubs, Hnet).
  cbn [when]. wp_step. eapply run_CheckReset; [done|by unfold Exists; cbn; rewrite Hnet|].
  fold (unpublished t). set (s3 := fupd m_topics _ s2).
  assert (Em3 : m_topics s3 = hm_set i (unpublished t) (m_topics s)).
  { unfold s3, s2, s1, fupd. cbn. by rewrite hm_set_set. }
  assert (Ht3 : hm_at (m_topics s3) i = Some (unpublished t)).
  { rewrite Em3, hm_at_set, decide_True by done. done. }
  eapply wp_mono; [apply run_NotifyTopic; [|by eexists]|].
  { replace (shape s3) with (shape s2 <| sh_topics ::= hm_set i (topic_shape (unpublished t)) |>).
    - eapply Struct_retype; [done|exact (shape_topic s2 i t1 Ht1)|by destruct t].
    - by rewrite <- shape_set_topic. }
  intros [] s4 [Hn _]. destruct (notified_at _ _ _ _ Hn Ht3) as (t4 & Ht4 & E4).
  destruct Hn as [Es4 N4 T4]. wp_step. wp_step. wp_step. eapply run_topic; [done|].
  assert (Hf : forall B (f : TopicData J -> B), (forall u, f (unlog u) = f u) -> f t4 = f (unpublished t)).
  { intros B f Hf. by rewrite <- Hf, E4, Hf. }
  assert (En : m_network s4 = m_network s) by (by rewrite Es4).
  assert (Ep : hm_at (m_publishers s4) p = None) by (rewrite Es4; cbn; by rewrite Hat, decide_True).
  rewrite (Hf _ t_handle), En by done. change (t_handle (unpublished t)) with (t_handle t).
  rewrite Em3 in T4. clear Es4. wp_step.
  eapply (wp_mono _ (fun _ s' => exists o, s' = s4 <| out := o |> /\ net_out s' = net_out s ++
    (if p_active pd && m_network s then [NetUnpublish (p_handle pd) (t_handle t)] else []))).
  { wp_step; intros ->; [|exists (out s4); rewrite app_nil_r; split; [by destruct s4|done]].
    apply run_emit. eexists. split; [done|]. by rewrite net_out_snoc, N4. }
  intros [] s5 (o & -> & Hnet5). wp_step; intros _; [|done].
  unfold NextPublisher. wp_step. eapply run_topic; [done|]. rewrite (Hf _ t_localPublishers) by done.
  by wp_step.
Qed.

(** When the only publisher of a topic that is not on the network is removed, the topic
    ceases to exist: it has no publisher, type, value, flags or properties, all other
    topics are as before but for data logs, the handle is no longer valid, and the
    network is told. *)
Theorem unpublish_last_resets s (h : Z) (p : nat) (pd : PublisherData) (t : TopicData J) :
  Inv s -> hm_Get kPublisher h (m_publishers s) = Some p ->
  hm_at (m_publishers s) p = Some pd -> hm_at (m_topics s) (p_topic pd) = Some t ->
  t_localPublishers t = [p] -> t_onNetwork t = false ->
  exists s' t', Unpublish h s = Some (tt, s') /\ hm_Get kPublisher h (m_publishers s') = None /\
    hm_at (m_topics s') (p_topic pd) = Some t' /\ Exists t' = false /\
    t_type t' = NT_UNASSIGNED /\ t_lastValue t' = Value_empty /\ t_properties t' = ∅ /\
    t_flags t' = 0 /\ t_localSubscribers t' = t_localSubscribers t /\
    (forall j, j <> p_topic pd ->
       unlog <$> hm_at (m_topics s') j = unlog <$> hm_at (m_topics s) j) /\
    net_out s' = net_out s ++
      (if p_active pd && m_network s then [NetUnpublish (p_handle pd) (t_handle t)] else []).
Proof.
  intros HI Hg Hp Ht Hpubs Hnet. set (i := p_topic pd) in *.
  pose proof (run_Unpublish_last s h p pd t HI Hg Hp Ht Hpubs Hnet) as Hwp.
  apply wp_run in Hwp as ([] & s' & Hr & Hm & El & Hn). fold i in El.
  assert (Hat : forall j, unlog <$> hm_at (m_topics s') j =
    unlog <$> hm_at (hm_set i (unpublished t) (m_topics s)) j).
  { intros j. by rewrite <- !hm_at_map, El. }
  pose proof (Hat i) as Hi. rewrite hm_at_set, decide_True in Hi by done.
  apply fmap_Some in Hi as (t' & Ht' & E'). exists s', t'.
  assert (Hgone : hm_Get kPublisher h (m_publishers s') = None).
  { destruct (hm_Get kPublisher h (m_publishers s')) as [q|] eqn:Eq; [|done].
    destruct (Get_live _ _ _ _ Eq) as [x Hx]. assert (q = p) as -> by (by eapply hm_Get_fun).
    congruence. }
  assert (Es : unlog t' = unlog (unpublished t)) by done.
  assert (Hf : forall B (f : TopicData J -> B), (forall u, f (unlog u) = f u) -> f t' = f (unpublished t)).
  { intros B f Hf. by rewrite <- Hf, Es, Hf. }
  split_and!; try done; try by apply Hf.
  - rewrite (Hf _ Exists) by done. unfold Exists. cbn. by rewrite Hnet.
  - intros j Hj. by rewrite Hat, hm_at_set, decide_False.
Qed.

(** ** Starting the network *)

(** In state [s], whatever the trace, [m] emits [es] and changes nothing else. *)
Definition emits {A} (m : M (LSImpl J) A) (a : A) s (es : list (Out J)) : Prop :=
  forall o, m (s <| out := o |>) = Some (a, s <| out := o ++ es |>).

Lemma emits_bind {A B} (m : M (LSImpl J) A) (k : A -> M (LSImpl J) B) a b s es es' :
  emits m a s es -> emits (k a) b s es' -> emits (bind m k) b s (es ++ es').
Proof. intros Hm Hk o. unfold bind. rewrite Hm, Hk. by rewrite app_assoc. Qed.

Lemma emits_ret {A} (a : A) s : emits (ret a) a s [].
Proof. intros o. by rewrite app_nil_r. Qed.

Lemma emits_emit (e : Out J) s : emits (emit e) tt s [e].
Proof. intros o. done. Qed.

Lemma emits_read {A B} (m : M (LSImpl J) A) (k : A -> M (LSImpl J) B) a b s es :
  emits m a s [] -> emits (k a) b s es -> emits (bind m k) b s es.
Proof. intros Hm Hk. by apply (emits_bind _ _ _ _ _ _ _ Hm Hk). Qed.

Lemma emits_deref {A} (get : LSImpl J -> option A) a s :
  (forall o, get (s <| out := o |>) = get s) -> get s = Some a ->
  emits (let* s := Monads.get in deref (get s)) a s [].
Proof. intros Hg Ha o. unfold bind, Monads.get, deref. by rewrite Hg, Ha, app_nil_r. Qed.

Lemma emits_topic i t s : hm_at (m_topics s) i = Some t -> emits (topic i) t s [].
Proof. intros Ht. by apply (emits_deref (fun s => hm_at (m_topics s) i)). Qed.
Lemma emits_publisher k p s : hm_at (m_publishers s) k = Some p -> emits (publisher k) p s [].
Proof. intros Ht. by apply (emits_deref (fun s => hm_at (m_publishers s) k)). Qed.
Lemma emits_subscriber k d s : hm_at (m_subscribers s) k = Some d -> emits (subscriber k) d s [].
Proof. intros Ht. by apply (emits_deref (fun s => hm_at (m_subscribers s) k)). Qed.
Lemma emits_multiSubscriber k d s :
  hm_at (m_multiSubscribers s) k = Some d -> emits (multiSubscriber k) d s [].
Proof. intros Ht. by apply (emits_deref (fun s => hm_at (m_multiSubscribers s) k)). Qed.

(** A loop over the live objects of a table *)
Lemma emits_for_each {A} (m : HandleMap A) (body : nat -> M (LSImpl J) unit)
    (f : A -> list (Out J)) s :
  (forall k a, hm_at m k = Some a -> emits (body k) tt s (f a)) ->
  emits (for_each (hm_live m) body) tt s (flat_map f (hm_elements m)).
Proof.
  intros Hb. unfold hm_elements. assert (Hl : forall k, k ∈ hm_live m -> is_Some (hm_at m k)).
  { intros k. by rewrite elem_of_hm_live. }
  induction (hm_live m) as [|k l IH]; [apply emits_ret|].
  destruct (Hl k) as [a Ha]; [by left|]. cbn [omap list_omap for_each]. rewrite Ha. cbn [flat_map].
  eapply emits_bind; [by apply Hb|]. apply IH. intros j Hj. apply Hl. by right.
Qed.

(** What the network is told about a topic: each active publisher, and the last value
    on behalf of the last of them. *)
Definition active_publishers s (t : TopicData J) : list PublisherData :=
  filter (fun p => p_active p = true) (omap (hm_at (m_publishers s)) (t_localPublishers t)).
Definition publish_msg (t : TopicData J) (p : PublisherData) : Out J :=
  NetPublish (p_handle p) (t_handle t) (t_name t) (t_typeStr t) (t_properties t) (c_options (p_config p)).
Definition topic_announcement s (t : TopicData J) : list (Out J) :=
  map (publish_msg t) (active_publishers s t) ++
  match last (active_publishers s t) with
  | Some p => if value_valid (t_lastValue t) then [NetSetValue (p_handle p) (t_lastValue t)] else []
  | None => []
  end.
Definition subscribe_msg s (d : SubscriberData) : list (Out J) :=
  match hm_at (m_topics s) (s_topic d) with
  | Some t => [NetSubscribe (s_handle d) [t_name t] (c_options (s_config d))]
  | None => []
  end.
Definition subscribe_multi_msg (d : MultiSubscriberData) : list (Out J) :=
  [NetSubscribe (ms_handle d) (ms_prefixes d) (ms_options d)].

Lemma emits_announce_publishers l t any s :
  (forall k, k ∈ l -> is_Some (hm_at (m_publishers s) k)) ->
  let act := filter (fun p => p_active p = true) (omap (hm_at (m_publishers s)) l) in
  emits (announce_publishers l t any)
    (match last act with Some p => Some (p_handle p) | None => any end) s (map (publish_msg t) act).
Proof.
  revert any. induction l as [|k l IH]; intros any Hl act; [apply emits_ret|].
  destruct (Hl k) as [p Hp]; [by left|]. cbn [announce_publishers].
  assert (Hl' : forall j, j ∈ l -> is_Some (hm_at (m_publishers s) j)) by (intros; apply Hl; by right).
  eapply emits_read; [by apply emits_publisher|]. unfold act. cbn [omap list_omap]. rewrite Hp.
  rewrite filter_cons. destruct (p_active p) eqn:Ea.
  - rewrite decide_True by done. cbn [map]. apply (emits_bind _ _ tt _ _ [_]); [apply emits_emit|].
    specialize (IH (Some (p_handle p)) Hl'). cbn zeta in IH. rewrite last_cons.
    by destruct (last (filter _ _)).
  - rewrite decide_False by done. by apply IH.
Qed.

Lemma emits_announce_topic i t s :
  Struct (shape s) -> hm_at (m_topics s) i = Some t ->
  emits (let* t := topic i in
         let* any := announce_publishers (t_localPublishers t) t None in
         match any with
         | Some h => when (value_valid (t_lastValue t)) (emit (NetSetValue h (t_lastValue t)))
         | None => skip
         end) tt s (topic_announcement s t).
Proof.
  intros HS Ht. eapply emits_read; [by apply emits_topic|]. eapply emits_bind.
  - apply emits_announce_publishers. intros k Hk.
    destruct (lk_list _ _ _ _ (st_pubs _ HS) i _ k (shape_topic s i t Ht) Hk) as (p & Hp & _).
    by exists p.
  - fold (active_publishers s t). destruct (last (active_publishers s t)); [|apply emits_ret].
    destruct (value_valid (t_lastValue t)); [apply emits_emit|apply emits_ret].
Qed.

(** C31. Connecting announces the whole local state and nothing else: in the order of the
    handles, every active publisher of every topic (with type and properties) followed
    by the topic's value, then every subscriber and every multi-subscriber. *)
Theorem start_network_announces s :
  Inv s ->
  StartNetwork s = Some (tt, s <| m_network := true |> <| out := out s ++
    flat_map (topic_announcement s) (hm_elements (m_topics s)) ++
    flat_map (subscribe_msg s) (hm_elements (m_subscribers s)) ++
    flat_map subscribe_multi_msg (hm_elements (m_multiSubscribers s)) |>).
Proof.
  intros (HS & _ & _). set (s1 := s <| m_network := true |>). assert (HS1 : Struct (shape s1)) by done.
  assert (Hem : emits (for_each (hm_live (m_topics s1)) (fun i =>
      let* t := topic i in
      let* any := announce_publishers (t_localPublishers t) t None in
      match any with
      | Some h => when (value_valid (t_lastValue t)) (emit (NetSetValue h (t_lastValue t)))
      | None => skip
      end) ;;
    for_each (hm_live (m_subscribers s1)) (fun k =>
      let* d := subscriber k in
      let* t := topic (s_topic d) in
      emit (NetSubscribe (s_handle d) [t_name t] (c_options (s_config d)))) ;;
    for_each (hm_live (m_multiSubscribers s1)) (fun k =>
      let* d := multiSubscriber k in
      emit (NetSubscribe (ms_handle d) (ms_prefixes d) (ms_options d)))) tt s1
    (flat_map (topic_announcement s1) (hm_elements (m_topics s1)) ++
     flat_map (subscribe_msg s1) (hm_elements (m_subscribers s1)) ++
     flat_map subscribe_multi_msg (hm_elements (m_multiSubscribers s1)))).
  { eapply emits_bind; [apply emits_for_each; intros; by apply emits_announce_topic|].
    eapply emits_bind; apply emits_for_each.
    - intros k d Hd. eapply emits_read; [by apply emits_subscriber|].
      destruct (lk_obj _ _ _ _ (st_subs _ HS1) k _ (shape_sub s1 k d Hd)) as (ts & Hts & _).
      destruct (topic_of_shape s1 _ _ Hts) as (t & Ht & _). cbn [sub_shape sub_topic] in Ht.
      eapply emits_read; [by apply emits_topic|]. unfold subscribe_msg. rewrite Ht. apply emits_emit.
    - intros k d Hd. eapply emits_read; [by apply emits_multiSubscriber|]. apply emits_emit. }
  specialize (Hem (out s)). replace (s1 <| out := out s |>) with s1 in Hem by (by destruct s).
  unfold StartNetwork. rewrite (bind_run _ _ s tt s1), (bind_run _ _ s1 s1 s1) by done. apply Hem.
Qed.
End Topics.

(** ** The theorems on concrete clients *)

Import Example.

Lemma topic_property_roundtrip_witness :
  exists s', SetTopicProperty (topic_h 0) "unit" (JsNumber 7) (state demo) = Some (tt, s') /\
    GetTopicProperty (topic_h 0) "unit" s' = Some (JsNumber 7, s').
Proof.
  eassert (Hd : _) by (eapply (topic_property_roundtrip (state demo) (topic_h 0) "unit" (JsNumber 7) 0);
    [apply state_Inv; by_eval|by_eval..]).
  destruct Hd as (s' & Hs & Hg & _). exact (ex_intro _ s' (conj Hs Hg)).
Defined.

Lemma topic_name_roundtrip_witness :
  exists h s', GetTopic "/new" (state demo) = Some (h, s') /\ GetTopicName h s' = Some ("/new", s').
Proof.
  destruct (topic_name_roundtrip (state demo) "/new") as (h & s' & Hs & Hn & _);
    [apply state_Inv; by_eval|discriminate|vm_compute; discriminate|].
  exact (ex_intro _ h (ex_intro _ s' (conj Hs Hn))).
Defined.

Lemma unpublish_last_resets_witness :
  exists s' t', Unpublish (pub_h 0) (state demo) = Some (tt, s') /\
    hm_at (m_topics s') 0 = Some t' /\ t_type t' = NT_UNASSIGNED.
Proof.
  eassert (Hd : _) by (eapply (unpublish_last_resets (state demo) (pub_h 0) 0);
    [apply state_Inv; by_eval|by_eval..]).
  destruct Hd as (s' & t' & Hs & _ & Ht & _ & Ety & _).
  exact (ex_intro _ s' (ex_intro _ t' (conj Hs (conj Ht Ety)))).
Defined.

Lemma start_network_announces_witness :
  exists s', StartNetwork (state (removelast demo)) = Some (tt, s') /\ length (out s') = 6%nat.
Proof.
  eexists. split; [apply (start_network_announces (state (removelast demo))); apply state_Inv; by_eval|].
  by_eval.
Defined.

(** * LocalFindings: runs of the local storage that miss their purpose

    Concrete runs in which the storage does something its callers and its own comments
    do not expect. *)

Local Open Scope Z_scope.
Import Example.

Definition is_append (o : Out js) : bool := match o with LogAppend _ _ _ => true | _ => false end.
Definition is_start (o : Out js) : bool := match o with LogStart _ _ _ _ _ => true | _ => false end.

(** A topic with a type but no value when logging starts: *)
Definition publish_log_set : M (LSImpl js) bool :=
  let* h := GetTopic "/a" in
  let* p := Publish h NT_DOUBLE "double" JsonNull kDefaultPubSubOptions in
  StartDataLog 1 EmptyString EmptyString ;;
  SetEntryValue p (dbl 3 4).

(** its log entry is started, but the value set afterwards is not logged. *)
Example datalog_misses_first_values :
  match publish_log_set init with
  | Some (true, s) => existsb is_start (out s) = true /\ existsb is_append (out s) = false
  | _ => False
  end.
Proof. vm_compute. split; reflexivity. Qed.

(** Erasing the property leaves the flag. *)
Example deleted_property_keeps_flag :
  run (let* h := GetTopic "/a" in
       SetTopicPersistent h true ;;
       DeleteTopicProperty h "persistent" ;;
       let* flag := GetTopicPersistent h in
       let* props := GetTopicProperties h in
       ret (flag, props)) = Some (true, ∅).
Proof. vm_compute. reflexivity. Qed.

(** The handle of a released entry is returned again, and values set through it are
    lost. *)
Example released_entry_is_returned :
  run (let* h := GetEntry_name "/a" in
       ReleaseEntry h ;;
       let* h' := GetEntry_name "/a" in
       let* b := SetEntryValue h' (dbl 3 4) in
       ret (h =? h', b)) = Some (true, false).
Proof. vm_compute. reflexivity. Qed.
