(* ===== verification/Json.v ===== *)
(** * Json: JSON values and their text

    The values of [wpi::json] and its serializer ([json_serializer.cpp]): escaping of
    strings with the UTF-8 automaton, integers and compact text.  The text of a
    floating point number is a parameter ([JsonFloat]). *)

From S2P Require Import Prelude.
Local Open Scope Z_scope.

(** ** Values *)

(** Objects list their members by increasing key, the order of the serializer. *)
#[warnings="-register-all"]
Inductive jvalue :=
| JNull
| JBoolean (b : bool)
| JInteger (z : Z)   (** [number_integer], an [int64_t] *)
| JUnsigned (z : Z)  (** [number_unsigned], a [uint64_t] *)
| JFloat (bits : Z)  (** [number_float], a [double] by its bits *)
| JString (s : bytes)
| JArray (l : list jvalue)
| JObject (l : list (bytes * jvalue)).

(** ** The UTF-8 automaton *)

Definition UTF8_ACCEPT : Z := 0.
Definition UTF8_REJECT : Z := 1.

(** The classes of the bytes, and the transitions by state and class *)
Definition utf8_class (b : Z) : Z :=
  if b <? 0x80 then 0
  else if b <? 0x90 then 1
  else if b <? 0xa0 then 9
  else if b <? 0xc0 then 7
  else if b <? 0xc2 then 8
  else if b <? 0xe0 then 2
  else if b =? 0xe0 then 0xa
  else if b =? 0xed then 4
  else if b <? 0xf0 then 3
  else if b =? 0xf0 then 0xb
  else if b <? 0xf4 then 6
  else if b =? 0xf4 then 5
  else 8.
Definition utf8_states : list Z :=
  [0x0; 0x1; 0x2; 0x3; 0x5; 0x8; 0x7; 0x1; 0x1; 0x1; 0x4; 0x6; 0x1; 0x1; 0x1; 0x1;
   1; 1; 1; 1; 1; 1; 1; 1; 1; 1; 1; 1; 1; 1; 1; 1;
   1; 0; 1; 1; 1; 1; 1; 0; 1; 0; 1; 1; 1; 1; 1; 1;
   1; 2; 1; 1; 1; 1; 1; 2; 1; 2; 1; 1; 1; 1; 1; 1;
   1; 1; 1; 1; 1; 1; 1; 2; 1; 1; 1; 1; 1; 1; 1; 1;
   1; 2; 1; 1; 1; 1; 1; 1; 1; 2; 1; 1; 1; 1; 1; 1;
   1; 1; 1; 1; 1; 1; 1; 3; 1; 3; 1; 1; 1; 1; 1; 1;
   1; 3; 1; 1; 1; 1; 1; 3; 1; 3; 1; 1; 1; 1; 1; 1;
   1; 3; 1; 1; 1; 1; 1; 1; 1; 1; 1; 1; 1; 1; 1; 1].

Definition decode (state codep : Z) (b : byte) : Z * Z :=
  let byte := ub b in
  let type := utf8_class byte in
  let codep :=
    if negb (state =? UTF8_ACCEPT)
    then Z.lor (Z.land byte 0x3f) (wrap 32 (Z.shiftl codep 6))
    else Z.land (Z.shiftr 0xff type) byte in
  (default 0 (utf8_states !! Z.to_nat (state * 16 + type)), codep).

(** ** Text *)

Definition chr (c : Ascii.ascii) : byte := Ascii.byte_of_ascii c.
Definition backslash : byte := u8 0x5c.

(** [fmt::format("\\u{:04x}", z)] for [z < 0x10000] *)
Definition hex_digit (z : Z) : byte := u8 (if z <? 10 then 0x30 + z else 0x57 + z).
Definition dump_u (z : Z) : bytes :=
  [backslash; u8 0x75; hex_digit (Z.land (Z.shiftr z 12) 0xf); hex_digit (Z.land (Z.shiftr z 8) 0xf);
   hex_digit (Z.land (Z.shiftr z 4) 0xf); hex_digit (Z.land z 0xf)].

(** The text of a code point whose last byte is [b] *)
Definition dump_codepoint (ensure_ascii : bool) (codepoint : Z) (b : byte) : bytes :=
  if codepoint =? 0x08 then [backslash; u8 0x62]
  else if codepoint =? 0x09 then [backslash; u8 0x74]
  else if codepoint =? 0x0a then [backslash; u8 0x6e]
  else if codepoint =? 0x0c then [backslash; u8 0x66]
  else if codepoint =? 0x0d then [backslash; u8 0x72]
  else if codepoint =? 0x22 then [backslash; u8 0x22]
  else if codepoint =? 0x5c then [backslash; backslash]
  else if (codepoint <=? 0x1f) || (ensure_ascii && (0x7f <=? codepoint)) then
    if codepoint <=? 0xffff then dump_u codepoint
    else dump_u (0xd7c0 + Z.shiftr codepoint 10) ++ dump_u (0xdc00 + Z.land codepoint 0x3ff)
  else [b].

(** The loop of [dump_escaped]; [None] is the exception for invalid UTF-8. *)
Fixpoint dump_escaped_loop (ensure_ascii : bool) (s : bytes) (state codep : Z) : option bytes :=
  match s with
  | [] => if state =? UTF8_ACCEPT then Some [] else None
  | b :: s =>
      let '(state, codep) := decode state codep b in
      if state =? UTF8_REJECT then None
      else
        let text :=
          if state =? UTF8_ACCEPT then dump_codepoint ensure_ascii codep b
          else if ensure_ascii then [] else [b] in
        rest ← dump_escaped_loop ensure_ascii s state codep; Some (text ++ rest)
  end.
Definition dump_escaped (s : bytes) (ensure_ascii : bool) : option bytes :=
  dump_escaped_loop ensure_ascii s UTF8_ACCEPT 0.

(** [dump_integer]: the digits from the last to the first, then reversed.  A 64-bit
    number has at most 20 digits. *)
Fixpoint digits_loop (fuel : nat) (x : Z) : bytes :=
  match fuel with
  | O => []
  | S fuel =>
      if x =? 0 then []
      else u8 (0x30 + Z.abs (Z.rem x 10)) :: digits_loop fuel (Z.quot x 10)
  end.
Definition dump_integer (x : Z) : bytes :=
  if x =? 0 then [u8 0x30]
  else rev (digits_loop 20 x ++ (if x <? 0 then [u8 0x2d] else [])).

(** The text of a [double] (Grisu2), and the reading of such a text *)
Class JsonFloat := {
  float_text : Z -> bytes;
  float_value : bytes -> Z;
}.

Section Dump.
Context `{JsonFloat}.

Definition isfinite (bits : Z) : bool := negb (Z.land (Z.shiftr bits 52) 0x7ff =? 0x7ff).

Definition quote : byte := u8 0x22.
Definition comma : byte := u8 0x2c.
Definition colon : byte := u8 0x3a.

Definition quoted (ensure_ascii : bool) (s : bytes) : option bytes :=
  t ← dump_escaped s ensure_ascii; Some (quote :: t ++ [quote]).

(** Elements separated by commas *)
Fixpoint join (l : list bytes) : bytes :=
  match l with
  | [] => []
  | [x] => x
  | x :: l => x ++ comma :: join l
  end.

(** [serializer::dump] without pretty printing *)
Fixpoint dump (ensure_ascii : bool) (v : jvalue) : option bytes :=
  match v with
  | JObject l =>
      ts ← mapM (fun kv : bytes * jvalue =>
             k ← quoted ensure_ascii kv.1; t ← dump ensure_ascii kv.2; Some (k ++ colon :: t)) l;
      Some (u8 0x7b :: join ts ++ [u8 0x7d])
  | JArray l => ts ← mapM (dump ensure_ascii) l; Some (u8 0x5b :: join ts ++ [u8 0x5d])
  | JString s => quoted ensure_ascii s
  | JBoolean b => Some (bytes_of_string (if b then "true" else "false"))
  | JInteger z | JUnsigned z => Some (dump_integer z)
  | JFloat x => Some (if isfinite x then float_text x else bytes_of_string "null")
  | JNull => Some (bytes_of_string "null")
  end.

(** [serializer::dump] with pretty printing *)
Definition newline (indent : nat) : bytes := u8 0x0a :: replicate indent (u8 0x20).
Fixpoint dump_pretty (ensure_ascii : bool) (indent_step current_indent : nat) (v : jvalue) : option bytes :=
  let new_indent := (current_indent + indent_step)%nat in
  match v with
  | JObject ((_ :: _) as l) =>
      ts ← mapM (fun kv : bytes * jvalue =>
             k ← quoted ensure_ascii kv.1; t ← dump_pretty ensure_ascii indent_step new_indent kv.2;
             Some (newline new_indent ++ k ++ colon :: u8 0x20 :: t)) l;
      Some (u8 0x7b :: join ts ++ newline current_indent ++ [u8 0x7d])
  | JArray ((_ :: _) as l) =>
      ts ← mapM (fun v => t ← dump_pretty ensure_ascii indent_step new_indent v; Some (newline new_indent ++ t)) l;
      Some (u8 0x5b :: join ts ++ newline current_indent ++ [u8 0x5d])
  | v => dump ensure_ascii v
  end.
End Dump.
