(* ===== verification/Events.v ===== *)
(** * Events: listener events and the interface of the listener storage

    The events of [ntcore_cpp.h] and the abstract class [IListenerStorage], through
    which the local storage, the connection list, the logger and the instance notify
    listeners.  [IListenerStorageLaws] is what they rely on. *)

From S2P Require Import Prelude NtTypes Monads LocalTypes.
Local Open Scope Z_scope.

Record ConnectionInfo := MkConnectionInfo {
  remote_id : string;
  remote_ip : string;
  remote_port : Z;
  last_update : Z;
  protocol_version : Z;
}.

(** The [std::variant] of [Event] *)
Inductive EventData :=
| ConnectionEvent (info : ConnectionInfo)
| TopicEvent (info : TopicInfo)
| ValueEvent (topic subentry : Z) (value : Value)
| LogMessage (level : Z) (filename : string) (line : Z) (message : string)
| TimeSyncEvent (serverTimeOffset rtt2 : Z) (valid : bool).

Record Event := MkEvent {
  ev_listener : Z;
  ev_flags : Z;
  ev_data : EventData;
}.
#[global] Instance eta_Event : Eta Event := fun e =>
  MkEvent (ev_listener e) (ev_flags e) (ev_data e).

(** [FinishEventFunc]: the result and the event it leaves behind the pointer. *)
Definition FinishEventFunc : Type := Z -> Event -> bool * Event.

(** The function that [LSImpl::AddListenerImpl] passes with a value listener. *)
Definition finish_subentry (subentry : Z) : FinishEventFunc := fun _ e =>
  (true, match ev_data e with
         | ValueEvent topic _ value => e <| ev_data := ValueEvent topic subentry value |>
         | _ => e
         end).

(** The function that [LoggerImpl::AddListener] passes. *)
Definition finish_log : FinishEventFunc := fun _ e =>
  (true, e <| ev_flags := NT_EVENT_LOGMESSAGE |>).

Class IListenerStorage (L : Type) := {
  il_Activate : Z -> Z -> option FinishEventFunc -> M L unit;
  il_Notify_connections : list Z -> Z -> list ConnectionInfo -> M L unit;
  il_Notify_topics : list Z -> Z -> list TopicInfo -> M L unit;
  il_Notify_value : list Z -> Z -> Z -> Z -> Value -> M L unit;
  il_Notify_log : Z -> Z -> string -> Z -> string -> M L unit;
  il_NotifyTimeSync : list Z -> Z -> Z -> Z -> bool -> M L unit;
}.

(** Every call is defined and keeps the storage well formed; [il_timeSync] is the
    condition for notifications of time synchronisation. *)
Class IListenerStorageLaws (L : Type) `{IListenerStorage L} := {
  il_ok : L -> Prop;
  il_timeSync : L -> Prop;
  il_Activate_ok h mask f s :
    il_ok s -> wp (il_Activate h mask f) (fun _ s' => il_ok s' /\ (il_timeSync s -> il_timeSync s')) s;
  il_connections_ok hs flags infos s :
    il_ok s -> wp (il_Notify_connections hs flags infos)
      (fun _ s' => il_ok s' /\ (il_timeSync s -> il_timeSync s')) s;
  il_topics_ok hs flags infos s :
    il_ok s -> wp (il_Notify_topics hs flags infos)
      (fun _ s' => il_ok s' /\ (il_timeSync s -> il_timeSync s')) s;
  il_value_ok hs flags t sub v s :
    il_ok s -> wp (il_Notify_value hs flags t sub v)
      (fun _ s' => il_ok s' /\ (il_timeSync s -> il_timeSync s')) s;
  il_log_ok flags level file line msg s :
    il_ok s -> wp (il_Notify_log flags level file line msg)
      (fun _ s' => il_ok s' /\ (il_timeSync s -> il_timeSync s')) s;
  il_timeSync_ok hs flags off rtt2 valid s :
    il_ok s -> il_timeSync s -> wp (il_NotifyTimeSync hs flags off rtt2 valid)
      (fun _ s' => il_ok s' /\ il_timeSync s') s;
}.
