(* ===== verification/ListenerStorage.v ===== *)
(** * ListenerStorage: listeners, pollers and their event queues

    [ListenerStorage] of [ListenerStorage.cpp].  Objects live in handle maps and a
    pointer to one is the index of its slot; an access through a pointer to an empty
    slot is undefined behaviour.  Every public function holds the mutex throughout,
    so a function is one step; the callback thread alternates steps that take the
    queue ([Thread_read]) and steps that call back for one event ([Thread_next]),
    between which it releases the mutex. *)

From S2P Require Import Prelude NtTypes Handles Monads LocalTypes Events.
Local Open Scope Z_scope.

(** ** State *)

Record PollerData := MkPoller {
  pl_handle : Z;
  pl_queue : list Event;
}.
#[global] Instance eta_PollerData : Eta PollerData := fun p =>
  MkPoller (pl_handle p) (pl_queue p).

Record ListenerData := MkListenerData {
  ln_handle : Z;
  ln_poller : nat;
  ln_sources : list (option FinishEventFunc * Z);
  ln_eventMask : Z;
}.
#[global] Instance eta_ListenerData : Eta ListenerData := fun l =>
  MkListenerData (ln_handle l) (ln_poller l) (ln_sources l) (ln_eventMask l).

(** [ListenerStorage::Thread]: the poller, the callbacks by listener (a callback is a
    number), where [Main] is, and the two events of [WaitForListenerQueue].  [th_run] is
    [None] while [Main] waits, and otherwise holds the events it still has to handle
    and whether the wake-up event was signaled. *)
Record Thread := MkThread {
  th_poller : Z;
  th_callbacks : gmap Z Z;
  th_run : option (list Event * bool);
  th_wakeup : bool;
  th_waiter : bool;
}.
#[global] Instance eta_Thread : Eta Thread := fun t =>
  MkThread (th_poller t) (th_callbacks t) (th_run t) (th_wakeup t) (th_waiter t).

(** [signals] is the trace of [SignalObject::Set], [calls] that of the callbacks. *)
Record ListenerStorage := MkListenerStorage {
  m_inst : Z;
  m_pollers : HandleMap PollerData;
  m_listeners : HandleMap ListenerData;
  m_connListeners : list nat;
  m_topicListeners : list nat;
  m_valueListeners : list nat;
  m_logListeners : list nat;
  m_timeSyncListeners : list nat;
  m_thread : option Thread;
  signals : list Z;
  calls : list (Z * Event);
}.
#[global] Instance eta_ListenerStorage : Eta ListenerStorage := fun s =>
  MkListenerStorage (m_inst s) (m_pollers s) (m_listeners s) (m_connListeners s)
    (m_topicListeners s) (m_valueListeners s) (m_logListeners s) (m_timeSyncListeners s)
    (m_thread s) (signals s) (calls s).

Definition ListenerStorage_make (inst : Z) : ListenerStorage :=
  MkListenerStorage inst hm_empty hm_empty [] [] [] [] [] None [] [].

Abbreviation LM := (M ListenerStorage).

Definition kReuse : nat := 8.

(** [VectorSet] *)
Definition vs_Add {A} (x : A) (l : list A) : list A := l ++ [x].
Definition vs_Remove {A} `{EqDecision A} (x : A) (l : list A) : list A :=
  filter (fun y => y <> x) l.

(** Pointers *)
Definition poller (k : nat) : LM PollerData := let* s := get in deref (hm_at (m_pollers s) k).
Definition listener (k : nat) : LM ListenerData :=
  let* s := get in deref (hm_at (m_listeners s) k).
Definition set_poller (k : nat) (f : PollerData -> PollerData) : LM unit :=
  let* p := poller k in modify (fun s => s <| m_pollers ::= hm_set k (f p) |>).
Definition set_listener (k : nat) (f : ListenerData -> ListenerData) : LM unit :=
  let* l := listener k in modify (fun s => s <| m_listeners ::= hm_set k (f l) |>).
Definition signal (h : Z) : LM unit := modify (fun s => s <| signals ::= fun l => l ++ [h] |>).

(** ** Activate *)

(** The log bits; see [LoggerImpl]. *)
Definition kLogBits : Z := 0x1ff0000.

Definition Activate (listenerHandle mask : Z) (finishEvent : option FinishEventFunc) : LM unit :=
  let* s := get in
  match hm_Get kListener listenerHandle (m_listeners s) with
  | None => skip
  | Some k =>
      let* l := listener k in
      let deltaMask := Z.ldiff mask (ln_eventMask l) in
      set_listener k (fun l =>
        l <| ln_sources ::= fun x => x ++ [(finishEvent, mask)] |>
          <| ln_eventMask ::= fun m => Z.lor m mask |>) ;;
      when (has_bits deltaMask NT_EVENT_CONNECTION)
        (modify (fun s => s <| m_connListeners ::= vs_Add k |>)) ;;
      when (has_bits deltaMask NT_EVENT_TOPIC)
        (modify (fun s => s <| m_topicListeners ::= vs_Add k |>)) ;;
      when (has_bits deltaMask NT_EVENT_VALUE_ALL)
        (modify (fun s => s <| m_valueListeners ::= vs_Add k |>)) ;;
      when (has_bits deltaMask NT_EVENT_LOGMESSAGE || has_bits deltaMask kLogBits)
        (modify (fun s => s <| m_logListeners ::= vs_Add k |>)) ;;
      when (has_bits deltaMask NT_EVENT_TIMESYNC)
        (modify (fun s => s <| m_timeSyncListeners ::= vs_Add k |>))
  end.

(** ** Notify *)

(** [poller->queue.emplace_back] *)
Definition push_event (k : nat) (e : Event) : LM unit :=
  set_poller k (fun p => p <| pl_queue ::= fun q => q ++ [e] |>).

Definition set_signals (l : ListenerData) : LM unit :=
  signal (ln_handle l) ;;
  let* p := poller (ln_poller l) in
  signal (pl_handle p).

(** [doSignal] of the notifications without [finishEvent]: the listener is signaled
    even if no source matches. *)
Definition doSignal_plain (flags : Z) (datas : list EventData) (k : nat) : LM unit :=
  let* l := listener k in
  when (has_bits flags (ln_eventMask l))
    (for_each (ln_sources l) (fun '(_, mask) =>
       when (has_bits flags mask)
         (for_each datas (fun d => push_event (ln_poller l) (MkEvent (ln_handle l) flags d)))) ;;
     set_signals l).

(** One event for one source: [emplace_back], [finishEvent] on the new element, and
    [pop_back] if it returns false.  The result is what is added to [count]. *)
Definition push_finish (l : ListenerData) (flags : Z) (finishEvent : option FinishEventFunc)
    (mask : Z) (d : EventData) : LM nat :=
  let e := MkEvent (ln_handle l) flags d in
  match finishEvent with
  | None => push_event (ln_poller l) e ;; ret 1%nat
  | Some f =>
      let '(keep, e) := f mask e in
      if keep then push_event (ln_poller l) e ;; ret 1%nat else ret 0%nat
  end.

Fixpoint sum_each {X} (l : list X) (body : X -> LM nat) : LM nat :=
  match l with
  | [] => ret 0%nat
  | x :: l => let* n := body x in let* m := sum_each l body in ret (n + m)%nat
  end.

(** [doSignal] of the notifications with [finishEvent] *)
Definition doSignal_finish (flags : Z) (datas : list EventData) (k : nat) : LM unit :=
  let* l := listener k in
  when (has_bits flags (ln_eventMask l))
    (let* count := sum_each (ln_sources l) (fun '(finishEvent, mask) =>
       if has_bits flags mask then sum_each datas (push_finish l flags finishEvent mask)
       else ret 0%nat) in
     when (0 <? count)%nat (set_signals l)).

(** The listeners with the given handles, or those of the list if there are none *)
Definition for_listeners (handles : list Z) (all : ListenerStorage -> list nat)
    (doSignal : nat -> LM unit) : LM unit :=
  if (0 <? length handles)%nat then
    for_each handles (fun h =>
      let* s := get in
      match hm_Get kListener h (m_listeners s) with
      | Some k => doSignal k
      | None => skip
      end)
  else
    let* s := get in for_each (all s) doSignal.

Definition Notify_connections (handles : list Z) (flags : Z) (infos : list ConnectionInfo)
  : LM unit :=
  if flags =? 0 then skip
  else for_listeners handles m_connListeners (doSignal_plain flags (ConnectionEvent <$> infos)).

Definition Notify_topics (handles : list Z) (flags : Z) (infos : list TopicInfo) : LM unit :=
  if flags =? 0 then skip
  else for_listeners handles m_topicListeners (doSignal_finish flags (TopicEvent <$> infos)).

Definition Notify_value (handles : list Z) (flags topic subentry : Z) (value : Value) : LM unit :=
  if flags =? 0 then skip
  else for_listeners handles m_valueListeners
         (doSignal_finish flags [ValueEvent topic subentry value]).

Definition Notify_log (flags level : Z) (filename : string) (line : Z) (message : string)
  : LM unit :=
  if flags =? 0 then skip
  else for_listeners [] m_logListeners
         (doSignal_finish flags [LogMessage level filename line message]).

Definition NotifyTimeSync (handles : list Z) (flags serverTimeOffset rtt2 : Z) (valid : bool)
  : LM unit :=
  if flags =? 0 then skip
  else for_listeners handles m_timeSyncListeners
         (doSignal_plain flags [TimeSyncEvent serverTimeOffset rtt2 valid]).

#[global] Instance ListenerStorage_interface : IListenerStorage ListenerStorage := {
  il_Activate := Activate;
  il_Notify_connections := Notify_connections;
  il_Notify_topics := Notify_topics;
  il_Notify_value := Notify_value;
  il_Notify_log := Notify_log;
  il_NotifyTimeSync := NotifyTimeSync;
}.

(** ** The user-facing functions *)

(** [m_pollers.Add(m_inst)->handle] *)
Definition add_poller : LM Z :=
  let* s := get in
  let '(k, m) := hm_Add kListenerPoller kReuse (m_inst s) (fun h => MkPoller h []) (m_pollers s) in
  modify (fun s => s <| m_pollers := m |>) ;;
  let* p := poller k in
  ret (pl_handle p).

Definition DoAddListener (pollerHandle : Z) : LM Z :=
  let* s := get in
  match hm_Get kListenerPoller pollerHandle (m_pollers s) with
  | None => ret 0
  | Some k =>
      let '(j, m) := hm_Add kListener kReuse (m_inst s)
                       (fun h => MkListenerData h k [] 0) (m_listeners s) in
      modify (fun s => s <| m_listeners := m |>) ;;
      let* l := listener j in
      ret (ln_handle l)
  end.

Definition set_thread (f : Thread -> Thread) : LM unit :=
  modify (fun s => s <| m_thread ::= fmap f |>).

(** [AddListener] with a callback starts the thread when there is none. *)
Definition AddListener_callback (callback : Z) : LM Z :=
  let* s := get in
  match m_thread s with
  | Some _ => skip
  | None =>
      let* h := add_poller in
      modify (fun s => s <| m_thread := Some (MkThread h ∅ None false false) |>)
  end ;;
  let* s := get in
  match m_thread s with
  | None => ret 0
  | Some thr =>
      let* l := DoAddListener (th_poller thr) in
      when (negb (l =? 0))
        (set_thread (fun t => t <| th_callbacks ::= fun m =>
           match m !! l with Some _ => m | None => <[l := callback]> m end |>)) ;;
      ret l
  end.

Definition AddListener (pollerHandle : Z) : LM Z := DoAddListener pollerHandle.

Definition CreateListenerPoller : LM Z := add_poller.

(** The loop body of [DoRemoveListeners].  [removed] is the poller that
    [DestroyListenerPoller] has taken out of the table, which is still allocated. *)
Definition DoRemoveListener (removed : option (nat * PollerData)) (handle : Z)
  : LM (list (Z * Z)) :=
  let* s := get in
  let '(o, m) := hm_Remove kListener handle (m_listeners s) in
  match o, hm_index kListener handle (m_listeners s) with
  | Some l, Some k =>
      modify (fun s => s <| m_listeners := m |>) ;;
      match m_thread s with
      | None => skip
      | Some thr =>
          let* p := (match removed with
                     | Some (j, p) => if (j =? ln_poller l)%nat then ret p else poller (ln_poller l)
                     | None => poller (ln_poller l)
                     end) in
          when (th_poller thr =? pl_handle p)
            (set_thread (fun t => t <| th_callbacks ::= delete handle |>))
      end ;;
      when (has_bits (ln_eventMask l) NT_EVENT_CONNECTION)
        (modify (fun s => s <| m_connListeners ::= vs_Remove k |>)) ;;
      when (has_bits (ln_eventMask l) NT_EVENT_TOPIC)
        (modify (fun s => s <| m_topicListeners ::= vs_Remove k |>)) ;;
      when (has_bits (ln_eventMask l) NT_EVENT_VALUE_ALL)
        (modify (fun s => s <| m_valueListeners ::= vs_Remove k |>)) ;;
      when (has_bits (ln_eventMask l) NT_EVENT_LOGMESSAGE || has_bits (ln_eventMask l) kLogBits)
        (modify (fun s => s <| m_logListeners ::= vs_Remove k |>)) ;;
      ret [(handle, ln_eventMask l)]
  | _, _ => ret []
  end.

Fixpoint DoRemoveListeners (removed : option (nat * PollerData)) (handles : list Z)
  : LM (list (Z * Z)) :=
  match handles with
  | [] => ret []
  | h :: handles =>
      let* r := DoRemoveListener removed h in
      let* rv := DoRemoveListeners removed handles in
      ret (r ++ rv)
  end.

(** The handles of the listeners that use a poller *)
Definition listeners_of (k : nat) (s : ListenerStorage) : list Z :=
  omap (fun j => l ← hm_at (m_listeners s) j;
                 if (ln_poller l =? k)%nat then Some (ln_handle l) else None)
    (hm_live (m_listeners s)).

Definition DestroyListenerPoller (pollerHandle : Z) : LM (list (Z * Z)) :=
  let* s := get in
  let '(o, m) := hm_Remove kListenerPoller pollerHandle (m_pollers s) in
  match o, hm_index kListenerPoller pollerHandle (m_pollers s) with
  | Some p, Some k =>
      modify (fun s => s <| m_pollers := m |>) ;;
      let* s := get in
      DoRemoveListeners (Some (k, p)) (listeners_of k s)
  | _, _ => ret []
  end.

Definition ReadListenerQueue (pollerHandle : Z) : LM (list Event) :=
  let* s := get in
  match hm_Get kListenerPoller pollerHandle (m_pollers s) with
  | None => ret []
  | Some k =>
      let* p := poller k in
      set_poller k (fun p => p <| pl_queue := [] |>) ;;
      ret (pl_queue p)
  end.

Definition RemoveListener (listenerHandle : Z) : LM (list (Z * Z)) :=
  DoRemoveListeners None [listenerHandle].

(** The part of [WaitForListenerQueue] before it blocks; the result is false if there
    is no thread to wait for. *)
Definition WaitForListenerQueue_begin : LM bool :=
  let* s := get in
  match m_thread s with
  | None => ret false
  | Some _ => set_thread (fun t => t <| th_wakeup := true |>) ;; ret true
  end.

(** [m_timeSyncListeners] is not cleared. *)
Definition Reset : LM unit :=
  modify (fun s => s <| m_pollers := hm_empty |> <| m_listeners := hm_empty |>
    <| m_connListeners := [] |> <| m_topicListeners := [] |> <| m_valueListeners := [] |>
    <| m_logListeners := [] |> <| m_thread := None |>).

(** ** The callback thread *)

(** [Thread::Main]: [WaitForObjects] has returned, which resets the wake-up event; take
    the queue, *)
Definition Thread_read : LM unit :=
  let* s := get in
  match m_thread s with
  | Some thr =>
      match th_run thr with
      | None =>
          let* events := ReadListenerQueue (th_poller thr) in
          set_thread (fun t => t <| th_run := Some (events, th_wakeup thr) |>
                                 <| th_wakeup := false |>)
      | Some _ => skip
      end
  | None => skip
  end.

(** call back for the next event, and after the last one signal the waiter. *)
Definition Thread_next : LM unit :=
  let* s := get in
  match m_thread s with
  | Some thr =>
      match th_run thr with
      | None => skip
      | Some (e :: events, w) =>
          set_thread (fun t => t <| th_run := Some (events, w) |>) ;;
          match th_callbacks thr !! ev_listener e with
          | Some cb => modify (fun s => s <| calls ::= fun l => l ++ [(cb, e)] |>)
          | None => skip
          end
      | Some ([], w) =>
          set_thread (fun t => t <| th_run := None |>
                                 <| th_waiter := w || th_waiter t |>)
      end
  | None => skip
  end.
