(* ===== verification/ListenerProofs.v ===== *)
(** * ListenerProofs: what the listener storage guarantees

    The invariant of the listener storage, the events that a notification adds to
    each queue, the safety of every sequence of calls, and the delivery of queued
    events to callbacks. *)

From S2P Require Import Prelude NtTypes Handles Monads LocalTypes Events ListenerStorage.
Local Open Scope Z_scope.

Implicit Types s : ListenerStorage.

(** ** Invariant *)

(** The list holds exactly the live listeners with one of the bits. *)
Definition lists (l : list nat) (bits : Z) (m : HandleMap ListenerData) : Prop :=
  forall k, k ∈ l <-> exists d, hm_at m k = Some d /\ has_bits (ln_eventMask d) bits = true.

(** [removed] is a poller that is being destroyed. *)
Record InvX (removed : option nat) s : Prop := {
  iv_inst : 0 <= m_inst s;
  iv_pollers : table (m_inst s) kListenerPoller pl_handle (m_pollers s);
  iv_listeners : table (m_inst s) kListener ln_handle (m_listeners s);
  iv_poller : forall k l, hm_at (m_listeners s) k = Some l ->
    removed = Some (ln_poller l) \/ is_Some (hm_at (m_pollers s) (ln_poller l));
  iv_conn : lists (m_connListeners s) NT_EVENT_CONNECTION (m_listeners s);
  iv_topic : lists (m_topicListeners s) NT_EVENT_TOPIC (m_listeners s);
  iv_value : lists (m_valueListeners s) NT_EVENT_VALUE_ALL (m_listeners s);
  iv_log : lists (m_logListeners s) (Z.lor NT_EVENT_LOGMESSAGE kLogBits) (m_listeners s);
  iv_timeSync : forall k l, hm_at (m_listeners s) k = Some l ->
    has_bits (ln_eventMask l) NT_EVENT_TIMESYNC = true -> k ∈ m_timeSyncListeners s;
}.

Abbreviation Inv := (InvX None).

Lemma Inv_poller s k l :
  Inv s -> hm_at (m_listeners s) k = Some l -> is_Some (hm_at (m_pollers s) (ln_poller l)).
Proof. intros HI Hk. by destruct (iv_poller _ s HI k l Hk). Qed.

(** No pointer in the list of time synchronisation listeners is dangling. *)
Definition timeSync_live s : Prop :=
  forall k, k ∈ m_timeSyncListeners s -> is_Some (hm_at (m_listeners s) k).

(** ** What a notification adds to the queues *)

(** [s'] is [s] with the events [ev k] appended to the queue of poller [k], and more
    signals. *)
Record pushed (ev : nat -> list Event) s s' : Prop := {
  ps_state : s' = s <| m_pollers := m_pollers s' |> <| signals := signals s' |>;
  ps_queues : forall k, hm_at (m_pollers s') k =
    (fun p => p <| pl_queue ::= fun q => q ++ ev k |>) <$> hm_at (m_pollers s) k;
  ps_table : forall inst, table inst kListenerPoller pl_handle (m_pollers s) ->
    table inst kListenerPoller pl_handle (m_pollers s');
}.

Definition one (k : nat) (es : list Event) : nat -> list Event := fun j =>
  if decide (k = j) then es else [].

Lemma pushed_ext ev ev' s s' : (forall k, ev k = ev' k) -> pushed ev s s' -> pushed ev' s s'.
Proof. intros He [E Q T]. split; [done| |done]. intros k. by rewrite Q, He. Qed.

Lemma pushed_refl s : pushed (fun _ => []) s s.
Proof.
  split; [by destruct s| |done]. intros k. destruct (hm_at (m_pollers s) k) as [[h q]|]; [|done].
  unfold fupd. cbn. by rewrite app_nil_r.
Qed.

Lemma pushed_none k s : pushed (one k []) s s.
Proof.
  apply (pushed_ext (fun _ => [])); [|apply pushed_refl]. intros j. unfold one. by case_decide.
Qed.

Lemma pushed_trans ev ev' s1 s2 s3 :
  pushed ev s1 s2 -> pushed ev' s2 s3 -> pushed (fun k => ev k ++ ev' k) s1 s3.
Proof.
  intros [E1 Q1 T1] [E2 Q2 T2]. split; [rewrite E2, E1; done| |auto]. intros k.
  rewrite Q2, Q1. destruct (hm_at (m_pollers s1) k) as [[h q]|]; [|done].
  unfold fupd. cbn. by rewrite app_assoc.
Qed.

Lemma pushed_app k es es' s1 s2 s3 :
  pushed (one k es) s1 s2 -> pushed (one k es') s2 s3 -> pushed (one k (es ++ es')) s1 s3.
Proof.
  intros H1 H2. eapply pushed_ext; [|exact (pushed_trans _ _ _ _ _ H1 H2)].
  intros j. unfold one. by case_decide.
Qed.

Lemma pushed_live ev s s' k :
  pushed ev s s' -> is_Some (hm_at (m_pollers s) k) -> is_Some (hm_at (m_pollers s') k).
Proof. intros [_ Q _] Hk. rewrite Q. by apply fmap_is_Some. Qed.

Lemma pushed_listeners ev s s' : pushed ev s s' -> m_listeners s' = m_listeners s.
Proof. intros [E _ _]. by rewrite E. Qed.

Lemma run_push_event k e s :
  is_Some (hm_at (m_pollers s) k) -> wp (push_event k e) (fun _ s' => pushed (one k [e]) s s') s.
Proof.
  intros [p Hp]. unfold push_event, set_poller, poller. repeat wp_step; [done|]. repeat wp_step.
  split; [done| |].
  - intros j. unfold fupd, one. cbn. rewrite hm_at_set by done. case_decide as Hj.
    + subst j. by rewrite Hp.
    + destruct (hm_at (m_pollers s) j) as [[h q]|]; [|done]. cbn. by rewrite app_nil_r.
  - intros inst Ht. by eapply table_set.
Qed.

Lemma run_signal h s k : wp (signal h) (fun _ s' => pushed (one k []) s s') s.
Proof.
  unfold signal. wp_step. destruct (pushed_none k s) as [E Q T]. split; [|exact Q|exact T].
  by rewrite E at 1.
Qed.

Lemma run_set_signals l s :
  is_Some (hm_at (m_pollers s) (ln_poller l)) ->
  wp (set_signals l) (fun _ s' => pushed (one (ln_poller l) []) s s') s.
Proof.
  intros Hp. unfold set_signals. wp_step. eapply wp_mono; [apply run_signal|].
  intros [] s1 H1. wp_step. destruct (pushed_live _ _ _ _ H1 Hp) as [p Hp1].
  unfold poller. repeat wp_step; [done|]. eapply wp_mono; [apply run_signal|].
  intros [] s2 H2. exact (pushed_app _ _ _ _ _ _ H1 H2).
Qed.

(** Loops that push to one queue *)
Lemma run_push_each {X} (l : list X) (body : X -> LM unit) (f : X -> list Event) k s :
  (forall x s', x ∈ l -> is_Some (hm_at (m_pollers s') k) ->
     wp (body x) (fun _ s'' => pushed (one k (f x)) s' s'') s') ->
  is_Some (hm_at (m_pollers s) k) ->
  wp (for_each l body) (fun _ s' => pushed (one k (flat_map f l)) s s') s.
Proof.
  revert s. induction l as [|x l IH]; intros s Hb Hk; cbn [for_each flat_map].
  { wp_step. apply pushed_none. }
  wp_step. eapply wp_mono; [apply Hb; [by left|done]|]. intros [] s1 H1.
  eapply wp_mono; [apply IH; [intros; apply Hb; [by right|done]|by eapply pushed_live]|].
  intros [] s2 H2. exact (pushed_app _ _ _ _ _ _ H1 H2).
Qed.

Lemma run_sum_each {X} (l : list X) (body : X -> LM nat) (f : X -> list Event) k s :
  (forall x s', x ∈ l -> is_Some (hm_at (m_pollers s') k) ->
     wp (body x) (fun n s'' => n = length (f x) /\ pushed (one k (f x)) s' s'') s') ->
  is_Some (hm_at (m_pollers s) k) ->
  wp (sum_each l body)
    (fun n s' => n = length (flat_map f l) /\ pushed (one k (flat_map f l)) s s') s.
Proof.
  revert s. induction l as [|x l IH]; intros s Hb Hk; cbn [sum_each flat_map].
  { wp_step. split; [done|apply pushed_none]. }
  wp_step. eapply wp_mono; [apply Hb; [by left|done]|]. intros n s1 [-> H1]. wp_step.
  eapply wp_mono; [apply IH; [intros; apply Hb; [by right|done]|by eapply pushed_live]|].
  intros m s2 [-> H2]. wp_step. rewrite length_app. split; [done|].
  exact (pushed_app _ _ _ _ _ _ H1 H2).
Qed.

(** The events a listener gets: one for each source that matches and each datum,
    finished by the function of the source. *)
Definition finish (f : option FinishEventFunc) (mask : Z) (e : Event) : list Event :=
  match f with
  | None => [e]
  | Some f => let '(keep, e) := f mask e in if keep : bool then [e] else []
  end.
Definition source_events (fin : bool) (flags : Z) (datas : list EventData) (l : ListenerData)
    (source : option FinishEventFunc * Z) : list Event :=
  if has_bits flags source.2 then
    flat_map (fun d => finish (if fin then source.1 else None) source.2
                         (MkEvent (ln_handle l) flags d)) datas
  else [].
Definition listener_events (fin : bool) (flags : Z) (datas : list EventData) (l : ListenerData)
  : list Event :=
  if has_bits flags (ln_eventMask l)
  then flat_map (source_events fin flags datas l) (ln_sources l) else [].

Lemma run_doSignal_plain flags datas k l s :
  hm_at (m_listeners s) k = Some l -> is_Some (hm_at (m_pollers s) (ln_poller l)) ->
  wp (doSignal_plain flags datas k)
    (fun _ s' => pushed (one (ln_poller l) (listener_events false flags datas l)) s s') s.
Proof.
  intros Hl Hp. unfold doSignal_plain, listener. do 3 wp_step. wp_step; [done|]. unfold listener_events.
  destruct (has_bits flags (ln_eventMask l)); cbn [when]; [|wp_step; apply pushed_none].
  wp_step. eapply wp_mono.
  { apply (run_push_each _ _ (source_events false flags datas l)); [|done].
    intros [f mask] s' _ Hp'. unfold source_events. cbn [fst snd].
    destruct (has_bits flags mask); cbn [when]; [|wp_step; apply pushed_none].
    eapply (run_push_each _ _ (fun d => finish None mask (MkEvent (ln_handle l) flags d))); [|done].
    intros d s'' _ Hp''. by apply run_push_event. }
  intros [] s1 H1. eapply wp_mono; [apply run_set_signals; by eapply pushed_live|].
  intros [] s2 H2. pose proof (pushed_app _ _ _ _ _ _ H1 H2) as H3. by rewrite app_nil_r in H3.
Qed.

Lemma run_doSignal_finish flags datas k l s :
  hm_at (m_listeners s) k = Some l -> is_Some (hm_at (m_pollers s) (ln_poller l)) ->
  wp (doSignal_finish flags datas k)
    (fun _ s' => pushed (one (ln_poller l) (listener_events true flags datas l)) s s') s.
Proof.
  intros Hl Hp. unfold doSignal_finish, listener. do 3 wp_step. wp_step; [done|]. unfold listener_events.
  destruct (has_bits flags (ln_eventMask l)); cbn [when]; [|wp_step; apply pushed_none].
  wp_step. eapply wp_mono.
  { apply (run_sum_each _ _ (source_events true flags datas l)); [|done].
    intros [f mask] s' _ Hp'. unfold source_events. cbn [fst snd].
    destruct (has_bits flags mask); [|wp_step; split; [done|apply pushed_none]].
    eapply (run_sum_each _ _ (fun d => finish f mask (MkEvent (ln_handle l) flags d))); [|done].
    intros d s'' _ Hp''. unfold push_finish, finish.
    assert (Hpush : forall e, wp (push_event (ln_poller l) e ;; ret 1%nat)
      (fun n s3 => n = length [e] /\ pushed (one (ln_poller l) [e]) s'' s3) s'').
    { intros e. wp_step. eapply wp_mono; [by apply run_push_event|]. intros [] s3 H3. by wp_step. }
    destruct f as [f|]; [|apply Hpush]. destruct (f mask _) as [[] e]; [apply Hpush|].
    wp_step. split; [done|apply pushed_none]. }
  intros n s1 [_ H1]. wp_step; intros _; [|done].
  eapply wp_mono; [apply run_set_signals; by eapply pushed_live|].
  intros [] s2 H2. pose proof (pushed_app _ _ _ _ _ _ H1 H2) as H3. by rewrite app_nil_r in H3.
Qed.

(** ** Notifications *)

(** The listeners that a notification addresses, in order *)
Definition targets (handles : list Z) (all : ListenerStorage -> list nat) s : list nat :=
  if (0 <? length handles)%nat then omap (fun h => hm_Get kListener h (m_listeners s)) handles
  else all s.

(** What poller [k] gets for a list of listeners *)
Definition deliveries (events : ListenerData -> list Event) (m : HandleMap ListenerData)
    (l : list nat) (k : nat) : list Event :=
  flat_map (fun j => match hm_at m j with Some d => one (ln_poller d) (events d) k | None => [] end) l.

Lemma run_pushes {X} (l : list X) (body : X -> LM unit) (ev : X -> nat -> list Event) s :
  (forall x s1 e0, x ∈ l -> pushed e0 s s1 -> wp (body x) (fun _ s2 => pushed (ev x) s1 s2) s1) ->
  wp (for_each l body) (fun _ s' => pushed (fun k => flat_map (fun x => ev x k) l) s s') s.
Proof.
  intros Hb. enough (Hgen : forall s1 e0, pushed e0 s s1 -> wp (for_each l body)
    (fun _ s' => pushed (fun k => e0 k ++ flat_map (fun x => ev x k) l) s s') s1).
  { eapply wp_mono; [exact (Hgen s _ (pushed_refl s))|]. intros [] s1. by apply pushed_ext. }
  induction l as [|x l IH]; intros s1 e0 H1; cbn [for_each].
  { wp_step. eapply pushed_ext; [|exact H1]. intros k. cbn. by rewrite app_nil_r. }
  wp_step. eapply wp_mono; [by apply (Hb x s1 e0); [left|]|]. intros [] s2 H2. eapply wp_mono.
  { apply IH; [intros; eapply Hb; [by right|done]|]. exact (pushed_trans _ _ _ _ _ H1 H2). }
  intros [] s3. apply pushed_ext. intros j. cbn [flat_map]. by rewrite app_assoc.
Qed.

Lemma Get_at {A} t h (m : HandleMap A) k : hm_Get t h m = Some k -> is_Some (hm_at m k).
Proof.
  unfold hm_Get. destruct (hm_index t h m); [|done]. cbn. destruct (hm_at m n) eqn:En; [|done].
  intros [= <-]. by rewrite En.
Qed.

(** The events of one listener, by the index of its slot *)
Definition events_at (events : ListenerData -> list Event) (m : HandleMap ListenerData)
    (j k : nat) : list Event :=
  match hm_at m j with Some d => one (ln_poller d) (events d) k | None => [] end.

Lemma run_for_listeners handles all (doSignal : nat -> LM unit) events s :
  Inv s ->
  (forall k d s', hm_at (m_listeners s') k = Some d -> is_Some (hm_at (m_pollers s') (ln_poller d)) ->
     wp (doSignal k) (fun _ s'' => pushed (one (ln_poller d) (events d)) s' s'') s') ->
  (handles = [] -> forall k, k ∈ all s -> is_Some (hm_at (m_listeners s) k)) ->
  wp (for_listeners handles all doSignal)
    (fun _ s' => pushed (deliveries events (m_listeners s) (targets handles all s)) s s') s.
Proof.
  intros HI Hd Hall.
  assert (Hone : forall k s1 e0, is_Some (hm_at (m_listeners s) k) -> pushed e0 s s1 ->
    wp (doSignal k) (fun _ s2 => pushed (events_at events (m_listeners s) k) s1 s2) s1).
  { intros k s1 e0 [d Hk] H1. eapply wp_mono.
    - apply (Hd k d); [by rewrite (pushed_listeners _ _ _ H1)|].
      eapply pushed_live; [done|]. by apply (Inv_poller s k).
    - intros [] s2. apply pushed_ext. intros j. unfold events_at. by rewrite Hk. }
  unfold for_listeners, targets. destruct handles as [|h0 hs]; cbn [length Nat.ltb Nat.leb].
  - wp_step. wp_step. eapply wp_mono; [eapply run_pushes|].
    + intros k s1 e0 Hk H1. apply (Hone k s1 e0); [by apply Hall|done].
    + done.
  - set (handles := h0 :: hs). eapply wp_mono.
    + apply (run_pushes handles _ (fun h k => match hm_Get kListener h (m_listeners s) with
        | Some j => events_at events (m_listeners s) j k | None => [] end)).
      intros h s1 e0 _ H1. wp_step. wp_step. rewrite (pushed_listeners _ _ _ H1).
      destruct (hm_Get kListener h (m_listeners s)) as [k|] eqn:Eg.
      * apply (Hone k s1 e0); [by eapply Get_at|done].
      * wp_step. apply pushed_refl.
    + intros [] s1. apply pushed_ext. intros k. unfold deliveries.
      induction handles as [|h l IH]; [done|]. cbn [flat_map omap list_omap]. rewrite IH.
      by destruct (hm_Get kListener h (m_listeners s)).
Qed.

Lemma lists_live l bits m k : lists l bits m -> k ∈ l -> is_Some (hm_at m k).
Proof. intros Hl (d & -> & _)%Hl. done. Qed.

(** The effect of a notification: nothing for flags 0 *)
Definition notified (fin : bool) (flags : Z) (datas : list EventData) (l : list nat) s s' : Prop :=
  pushed (deliveries (listener_events fin flags datas) (m_listeners s)
            (if flags =? 0 then [] else l)) s s'.

Lemma run_notify (fin : bool) hs flags datas all s :
  Inv s -> (hs = [] -> forall k, k ∈ all s -> is_Some (hm_at (m_listeners s) k)) ->
  wp (if flags =? 0 then skip
      else for_listeners hs all (if fin then doSignal_finish flags datas else doSignal_plain flags datas))
    (fun _ s' => notified fin flags datas (targets hs all s) s s') s.
Proof.
  intros HI Hall. unfold notified. destruct (flags =? 0); [wp_step; apply pushed_refl|].
  apply run_for_listeners; [done| |done]. intros k d s' Hk Hp.
  destruct fin; [by apply run_doSignal_finish|by apply run_doSignal_plain].
Qed.

Lemma run_Notify_connections hs flags infos s :
  Inv s -> wp (Notify_connections hs flags infos) (fun _ s' =>
    notified false flags (ConnectionEvent <$> infos) (targets hs m_connListeners s) s s') s.
Proof.
  intros HI. apply (run_notify false); [done|]. intros _ k. by eapply lists_live, iv_conn.
Qed.

Lemma run_Notify_topics hs flags infos s :
  Inv s -> wp (Notify_topics hs flags infos) (fun _ s' =>
    notified true flags (TopicEvent <$> infos) (targets hs m_topicListeners s) s s') s.
Proof.
  intros HI. apply (run_notify true); [done|]. intros _ k. by eapply lists_live, iv_topic.
Qed.

Lemma run_Notify_value hs flags t sub v s :
  Inv s -> wp (Notify_value hs flags t sub v) (fun _ s' =>
    notified true flags [ValueEvent t sub v] (targets hs m_valueListeners s) s s') s.
Proof.
  intros HI. apply (run_notify true); [done|]. intros _ k. by eapply lists_live, iv_value.
Qed.

Lemma run_Notify_log flags level file line msg s :
  Inv s -> wp (Notify_log flags level file line msg) (fun _ s' =>
    notified true flags [LogMessage level file line msg] (m_logListeners s) s s') s.
Proof.
  intros HI. apply (run_notify true []); [done|]. intros _ k. by eapply lists_live, iv_log.
Qed.

Lemma run_NotifyTimeSync hs flags off rtt2 valid s :
  Inv s -> (hs = [] -> timeSync_live s) ->
  wp (NotifyTimeSync hs flags off rtt2 valid) (fun _ s' =>
    notified false flags [TimeSyncEvent off rtt2 valid] (targets hs m_timeSyncListeners s) s s') s.
Proof. intros HI Hts. by apply (run_notify false). Qed.

(** ** The invariant is kept *)

Lemma pushed_Inv ev s s' : pushed ev s s' -> Inv s -> Inv s'.
Proof.
  intros [E Q T] [? Hp ? Hlp ? ? ? ? ?].
  assert (Hq : forall k, is_Some (hm_at (m_pollers s) k) -> is_Some (hm_at (m_pollers s') k)).
  { intros k Hk. rewrite Q. by apply fmap_is_Some. }
  apply T in Hp. generalize (m_pollers s'), (signals s'), E, Hp, Hq. intros m sg -> Hp' Hq'.
  split; cbn; try done. intros k l Hk. right. destruct (Hlp k l Hk); [done|by apply Hq'].
Qed.

Lemma pushed_timeSync ev s s' : pushed ev s s' -> timeSync_live s -> timeSync_live s'.
Proof. intros [E _ _] Hts. rewrite E. exact Hts. Qed.

Lemma has_bits_lor a b bits :
  has_bits (Z.lor a b) bits = has_bits a bits || has_bits b bits.
Proof.
  unfold has_bits. rewrite Z.land_lor_distr_l. destruct (Z.land a bits =? 0) eqn:Ea; cbn.
  - apply Z.eqb_eq in Ea. by rewrite Ea, Z.lor_0_l.
  - apply negb_true_iff, Z.eqb_neq. apply Z.eqb_neq in Ea.
    intros [? _]%Z.lor_eq_0_iff. done.
Qed.

Lemma has_bits_ldiff a b bits :
  has_bits b bits || has_bits (Z.ldiff a b) bits = has_bits (Z.lor b a) bits.
Proof.
  rewrite <- has_bits_lor. f_equal. apply Z.bits_inj'. intros n Hn.
  rewrite !Z.lor_spec, Z.ldiff_spec. by destruct (Z.testbit a n), (Z.testbit b n).
Qed.

Lemma has_bits_lor_r a b c : has_bits a (Z.lor b c) = has_bits a b || has_bits a c.
Proof.
  unfold has_bits. rewrite !(Z.land_comm a).
  exact (has_bits_lor b c a).
Qed.

(** [when b (s.field = f(s.field))] *)
Lemma run_when_upd {E} (g : ListenerStorage -> E) {U : FieldUpd g} (b : bool) (f : E -> E)
    (Q : unit -> ListenerStorage -> Prop) s :
  fupd g (fun x => x) s = s -> Q tt (fupd g (if b then f else fun x => x) s) ->
  wp (when b (modify (fun s => fupd g f s))) Q s.
Proof. intros Hid HQ. destruct b; cbn [when]; wp_step; [done|by rewrite Hid in HQ]. Qed.

(** A listener gets more bits and joins the lists for the new ones. *)
Lemma lists_activate l bits m k d d' mask :
  hm_at m k = Some d -> ln_eventMask d' = Z.lor (ln_eventMask d) mask ->
  lists l bits m ->
  lists ((if has_bits (Z.ldiff mask (ln_eventMask d)) bits then vs_Add k else fun x => x) l) bits (hm_set k d' m).
Proof.
  intros Hk Hm Hl j. pose proof (has_bits_ldiff mask (ln_eventMask d) bits) as Hb. rewrite <- Hm in Hb.
  rewrite hm_at_set by done. destruct (decide (k = j)) as [->|Hj].
  - transitivity (has_bits (ln_eventMask d') bits = true); [|naive_solver]. rewrite <- Hb.
    destruct (has_bits (Z.ldiff _ _) bits).
    + rewrite orb_true_r. unfold vs_Add. split; [done|]. intros _. apply elem_of_app. right. by left.
    + rewrite orb_false_r. pose proof (Hl j). naive_solver.
  - destruct (has_bits (Z.ldiff _ _) bits); [|apply Hl]. unfold vs_Add.
    rewrite elem_of_app, list_elem_of_singleton. pose proof (Hl j). naive_solver.
Qed.

Lemma run_Activate h mask f s :
  Inv s -> wp (Activate h mask f) (fun _ s' => Inv s' /\ (timeSync_live s -> timeSync_live s')) s.
Proof.
  intros HI. unfold Activate. wp_step. wp_step.
  destruct (hm_Get kListener h (m_listeners s)) as [k|] eqn:Eg; [|by wp_step].
  destruct (Get_at _ _ _ _ Eg) as [d Hd]. unfold set_listener, listener.
  do 3 wp_step. wp_step; [done|]. cbn zeta. do 5 wp_step; [done|]. wp_step.
  match goal with |- context [hm_set k ?x] => set (d' := x) end. set (delta := Z.ldiff mask (ln_eventMask d)).
  assert (Hm : ln_eventMask d' = Z.lor (ln_eventMask d) mask) by done.
  do 4 (wp_step; eapply run_when_upd; [by destruct s|]). eapply run_when_upd; [by destruct s|].
  rewrite <- has_bits_lor_r. destruct HI as [Hi Hp Hl Hlp Hc Ht Hv Hg Hs]. split; [split|]; cbn; try done.
  - by eapply table_set.
  - intros j l. rewrite hm_at_set by done. case_decide; [|apply Hlp]. intros [= <-]. by apply (Hlp k d).
  - by apply (lists_activate _ _ _ k d).
  - by apply (lists_activate _ _ _ k d).
  - by apply (lists_activate _ _ _ k d).
  - by apply (lists_activate _ _ _ k d).
  - intros j l. rewrite hm_at_set by done. unfold vs_Add. case_decide as Hj.
    + intros [= <-]. subst j. rewrite Hm, <- has_bits_ldiff. fold delta.
      destruct (has_bits delta _); [set_solver|]. rewrite orb_false_r. by apply Hs.
    + intros Hjl Hb. specialize (Hs j l Hjl Hb). destruct (has_bits delta _); set_solver.
  - intros Hts j. cbn. rewrite hm_at_set by done. case_decide; [done|].
    unfold vs_Add. destruct (has_bits delta _); [rewrite elem_of_app, list_elem_of_singleton|];
      intros; apply Hts; naive_solver.
Qed.

(** ** Adding and removing *)

Lemma run_add_poller s :
  Inv s -> room (m_pollers s) ->
  wp add_poller (fun h s' => Inv s' /\ m_listeners s' = m_listeners s /\
    m_timeSyncListeners s' = m_timeSyncListeners s /\ m_thread s' = m_thread s /\
    exists k, hm_Get kListenerPoller h (m_pollers s') = Some k) s.
Proof.
  intros [Hi Hp Hl Hlp Hc Ht Hv Hg Hs] Hroom. unfold add_poller. wp_step. wp_step.
  destruct (hm_Add _ _ _ _ _) as [k m] eqn:Ea.
  destruct (table_Add _ _ _ _ _ _ _ _ Hp Hroom Ea ltac:(done)) as (Hp' & Hn & Hat).
  assert (Hk : hm_at m k = Some (MkPoller (Handle (m_inst s) (Z.of_nat k) kListenerPoller) [])).
  { by rewrite Hat, decide_True. }
  wp_step. wp_step. wp_step. unfold poller. do 2 wp_step. wp_step; [exact Hk|]. wp_step.
  split; [|split_and!; try done; exists k; by eapply (table_Get _ _ pl_handle)].
  split; cbn; try done. intros j l Hj. right. rewrite Hat. case_decide; [done|].
  by destruct (Hlp j l Hj).
Qed.

Lemma lists_add l bits m m' k d :
  (forall j, hm_at m' j = if decide (k = j) then Some d else hm_at m j) -> hm_at m k = None ->
  ln_eventMask d = 0 -> lists l bits m -> lists l bits m'.
Proof.
  intros Hat Hn Hd Hl j. rewrite Hat, (Hl j). case_decide as Hj; [|done]. subst. split.
  - intros (x & Hx & _). congruence.
  - intros (x & [= <-] & Hb). rewrite Hd in Hb. done.
Qed.

Lemma run_DoAddListener ph s :
  Inv s -> room (m_listeners s) ->
  wp (DoAddListener ph) (fun h s' => Inv s' /\ (timeSync_live s -> timeSync_live s') /\
    m_thread s' = m_thread s /\ m_pollers s' = m_pollers s /\
    (is_Some (hm_Get kListenerPoller ph (m_pollers s)) ->
       is_Some (hm_Get kListener h (m_listeners s')))) s.
Proof.
  intros [Hi Hp Hl Hlp Hc Ht Hv Hg Hs] Hroom. unfold DoAddListener. wp_step. wp_step.
  destruct (hm_Get kListenerPoller ph (m_pollers s)) as [k|] eqn:Eg.
  2:{ wp_step. by split_and!. }
  destruct (hm_Add _ _ _ _ _) as [j m] eqn:Ea.
  destruct (table_Add _ _ _ _ _ _ _ _ Hl Hroom Ea ltac:(done)) as (Hl' & Hn & Hat).
  set (d := MkListenerData (Handle (m_inst s) (Z.of_nat j) kListener) k [] 0) in *.
  assert (Hj : hm_at m j = Some d) by (by rewrite Hat, decide_True).
  wp_step. wp_step. wp_step. unfold listener. do 2 wp_step. wp_step; [exact Hj|]. wp_step.
  split_and!; [| |done|done|intros _; exists j; by eapply (table_Get _ _ ln_handle)].
  - split; cbn; try done; try (by eapply lists_add).
    + intros i l. rewrite Hat. case_decide; [intros [= <-]; right; by eapply Get_at|apply Hlp].
    + intros i l. rewrite Hat. case_decide; [|apply Hs]. by intros [= <-].
  - intros Hts i Hi'. cbn. rewrite Hat. case_decide; [done|]. by apply Hts.
Qed.

Lemma lists_remove l bits m m' k d :
  (forall j, hm_at m' j = if decide (k = j) then None else hm_at m j) -> hm_at m k = Some d ->
  lists l bits m ->
  lists ((if has_bits (ln_eventMask d) bits then vs_Remove k else fun x => x) l) bits m'.
Proof.
  intros Hat Hk Hl j. rewrite Hat. pose proof (Hl j) as Hj. destruct (decide (k = j)) as [->|Hne].
  - split; [|naive_solver]. destruct (has_bits (ln_eventMask d) bits) eqn:Eb.
    + unfold vs_Remove. rewrite list_elem_of_filter. naive_solver.
    + cbn beta. intros (x & Hx & Hb)%Hj. congruence.
  - rewrite <- Hj. destruct (has_bits (ln_eventMask d) bits); [|done].
    unfold vs_Remove. rewrite list_elem_of_filter. naive_solver.
Qed.

(** What removing listeners leaves in place *)
Record removed_from (hs : list Z) s s' : Prop := {
  rf_listeners : forall j l, hm_at (m_listeners s') j = Some l ->
    hm_at (m_listeners s) j = Some l /\
    forall h, h ∈ hs -> hm_Get kListener h (m_listeners s) <> Some j;
  rf_pollers : m_pollers s' = m_pollers s;
  rf_timeSync : m_timeSyncListeners s' = m_timeSyncListeners s;
}.

Lemma run_DoRemoveListener removed h s :
  InvX (fst <$> removed) s ->
  wp (DoRemoveListener removed h) (fun r s' => InvX (fst <$> removed) s' /\ removed_from [h] s s') s.
Proof.
  intros HI. pose proof HI as [Hi Hp Hl Hlp Hc Ht Hv Hg Hs]. unfold DoRemoveListener. wp_step. wp_step.
  destruct (hm_Remove kListener h (m_listeners s)) as [o m] eqn:Er.
  destruct (table_Remove _ _ _ _ h o m Hl Er) as [Hl' Ho]. destruct o as [l|].
  2:{ destruct Ho as [-> Hn]. assert (Hrf : removed_from [h] s s).
      { split; [|done|done]. intros j l Hj. split; [done|]. intros h' ->%list_elem_of_singleton. congruence. }
      by wp_step. }
  destruct Ho as (k & Hgk & -> & Hk & Hat). wp_step. wp_step.
  set (thread' := fun s' => s' = s <| m_listeners := m |> <| m_thread := m_thread s' |>).
  wp_step. eapply (wp_mono _ (fun _ s' => thread' s')).
  { unfold thread'. destruct (m_thread s) as [thr|] eqn:Eth; [|by wp_step].
    wp_step. eapply (wp_mono _ (fun _ s' => s' = s <| m_listeners := m |>)).
    - assert (Hpl : fst <$> removed <> Some (ln_poller l) ->
        wp (poller (ln_poller l)) (fun _ s' => s' = s <| m_listeners := m |>) (s <| m_listeners := m |>)).
      { intros Hne. destruct (Hlp k l Hk) as [|[p Hpl]]; [done|]. unfold poller.
        do 2 wp_step. by wp_step. }
      destruct removed as [[j p]|]; [|by apply Hpl]. destruct (Nat.eqb_spec j (ln_poller l)) as [->|Hne].
      + by wp_step.
      + apply Hpl. cbn. congruence.
    - intros p s1 ->. wp_step; intros _; [|done]. unfold set_thread. by wp_step. }
  intros [] s1 ->. do 4 (wp_step; eapply run_when_upd; [done|]). wp_step. rewrite <- has_bits_lor_r.
  split; [split|split]; cbn; try done; try (by apply (lists_remove _ _ (m_listeners s) _ k)).
  - intros j d. rewrite Hat. case_decide; [done|]. apply Hlp.
  - intros j d. rewrite Hat. case_decide; [done|]. apply Hs.
  - intros j d. rewrite Hat. case_decide as Hj; [done|]. intros Hd. split; [done|].
    intros h' ->%list_elem_of_singleton. congruence.
Qed.

Lemma run_DoRemoveListeners removed hs s :
  InvX (fst <$> removed) s ->
  wp (DoRemoveListeners removed hs)
    (fun _ s' => InvX (fst <$> removed) s' /\ removed_from hs s s') s.
Proof.
  revert s. induction hs as [|h hs IH]; intros s HI; cbn [DoRemoveListeners].
  { wp_step. split; [done|]. split; [|done|done]. intros j l Hj. split; [done|]. by intros h ?%elem_of_nil. }
  wp_step. eapply wp_mono; [by apply run_DoRemoveListener|]. intros r s1 (HI1 & [R1 P1 T1]). wp_step.
  eapply wp_mono; [by apply IH|]. intros rv s2 (HI2 & [R2 P2 T2]). wp_step. split; [done|].
  split; [|congruence..]. intros j l Hj. destruct (R2 j l Hj) as [Hj1 Hne]. destruct (R1 j l Hj1) as [Hj0 Hne0].
  split; [done|]. intros h' [->|Hin]%elem_of_cons; [apply Hne0; by left|].
  intros Hg. apply (Hne h' Hin). by eapply hm_Get_at.
Qed.

Lemma run_RemoveListener h s : Inv s -> wp (RemoveListener h) (fun _ s' => Inv s') s.
Proof.
  intros HI. eapply wp_mono; [by apply (run_DoRemoveListeners None)|]. by intros r s' [? _].
Qed.

Lemma run_DestroyListenerPoller h s : Inv s -> wp (DestroyListenerPoller h) (fun _ s' => Inv s') s.
Proof.
  intros HI. pose proof HI as [Hi Hp Hl Hlp Hc Ht Hv Hg Hs]. unfold DestroyListenerPoller. wp_step. wp_step.
  destruct (hm_Remove kListenerPoller h (m_pollers s)) as [o m] eqn:Er.
  destruct (table_Remove _ _ _ _ h o m Hp Er) as [Hp' Ho]. destruct o as [p|]; [|by wp_step].
  destruct Ho as (k & Hgk & -> & Hk & Hat). wp_step. wp_step. wp_step. wp_step.
  set (s1 := s <| m_pollers := m |>).
  assert (HI1 : InvX (Some k) s1).
  { split; cbn; try done. intros j l Hj. rewrite Hat. destruct (decide (k = ln_poller l)) as [->|]; [by left|].
    right. by apply (Inv_poller s j). }
  eapply wp_mono; [by apply (run_DoRemoveListeners (Some (k, p)))|].
  intros r s2 ([Hi2 Hp2 Hl2 Hlp2 Hc2 Ht2 Hv2 Hg2 Hs2] & [R2 P2 T2]). split; try done.
  intros j l Hj. right. destruct (Hlp2 j l Hj) as [[= Ek]|]; [|done]. exfalso.
  destruct (R2 j l Hj) as [Hj1 Hne]. apply (Hne (ln_handle l)).
  - unfold listeners_of. apply list_elem_of_omap. exists j. split; [apply elem_of_hm_live; by rewrite Hj1|].
    rewrite Hj1. cbn. by rewrite Ek, Nat.eqb_refl.
  - by eapply (table_Get (m_inst s) _ ln_handle).
Qed.

(** [s'] is [s] but for the thread, its callbacks and the traces. *)
Lemma Inv_thread s s' :
  s' = s <| m_thread := m_thread s' |> <| calls := calls s' |> -> Inv s ->
  Inv s' /\ (timeSync_live s -> timeSync_live s').
Proof.
  intros E [Hi Hp Hl Hlp Hc Ht Hv Hg Hs]. revert E. generalize (m_thread s'), (calls s').
  intros th cs ->. split; [by split|done].
Qed.

Lemma run_ReadListenerQueue h s :
  Inv s -> wp (ReadListenerQueue h) (fun _ s' => Inv s' /\ (timeSync_live s -> timeSync_live s') /\
    m_thread s' = m_thread s /\ calls s' = calls s) s.
Proof.
  intros HI. pose proof HI as [Hi Hp Hl Hlp Hc Ht Hv Hg Hs]. unfold ReadListenerQueue. wp_step. wp_step.
  destruct (hm_Get _ h _) as [k|] eqn:Eg; [|by wp_step]. destruct (Get_at _ _ _ _ Eg) as [p Hk].
  unfold set_poller, poller. do 3 wp_step. wp_step; [done|]. do 4 wp_step. wp_step; [done|]. wp_step. wp_step.
  split_and!; [|done|done|done]. split; cbn; try done.
  - by eapply table_set.
  - intros j l Hj. right. rewrite hm_at_set by done. case_decide; [done|]. by apply (Inv_poller s j).
Qed.

(** ** Sequences of calls *)

(** The calls of the storage and the steps of its thread *)
Inductive lcall :=
| LActivate (h mask : Z) (f : option FinishEventFunc)
| LNotifyConnections (hs : list Z) (flags : Z) (infos : list ConnectionInfo)
| LNotifyTopics (hs : list Z) (flags : Z) (infos : list TopicInfo)
| LNotifyValue (hs : list Z) (flags topic subentry : Z) (value : Value)
| LNotifyLog (flags level : Z) (filename : string) (line : Z) (message : string)
| LNotifyTimeSync (hs : list Z) (flags off rtt2 : Z) (valid : bool)
| LAddListenerCallback (callback : Z)
| LAddListener (poller : Z)
| LCreateListenerPoller
| LDestroyListenerPoller (poller : Z)
| LReadListenerQueue (poller : Z)
| LRemoveListener (listener : Z)
| LWaitForListenerQueue
| LReset
| LThreadRead
| LThreadNext.

Definition lrun (c : lcall) : LM unit :=
  match c with
  | LActivate h mask f => Activate h mask f
  | LNotifyConnections hs flags infos => Notify_connections hs flags infos
  | LNotifyTopics hs flags infos => Notify_topics hs flags infos
  | LNotifyValue hs flags t sub v => Notify_value hs flags t sub v
  | LNotifyLog flags level file line msg => Notify_log flags level file line msg
  | LNotifyTimeSync hs flags off rtt2 valid => NotifyTimeSync hs flags off rtt2 valid
  | LAddListenerCallback cb => AddListener_callback cb ;; skip
  | LAddListener p => AddListener p ;; skip
  | LCreateListenerPoller => CreateListenerPoller ;; skip
  | LDestroyListenerPoller p => DestroyListenerPoller p ;; skip
  | LReadListenerQueue p => ReadListenerQueue p ;; skip
  | LRemoveListener l => RemoveListener l ;; skip
  | LWaitForListenerQueue => WaitForListenerQueue_begin ;; skip
  | LReset => Reset
  | LThreadRead => Thread_read
  | LThreadNext => Thread_next
  end.

Definition roomb {A} (m : HandleMap A) : bool := Z.of_nat (uid_size m) <=? kIndexMax.

(** What a call needs of the state: a notification of time synchronisation to all listeners
    that the pointers of their list are live, an addition that there is room. *)
Definition lpermitted (c : lcall) s : bool :=
  match c with
  | LNotifyTimeSync [] _ _ _ _ =>
      forallb (fun k => bool_decide (is_Some (hm_at (m_listeners s) k))) (m_timeSyncListeners s)
  | LAddListenerCallback _ => roomb (m_pollers s) && roomb (m_listeners s)
  | LAddListener _ => roomb (m_listeners s)
  | LCreateListenerPoller => roomb (m_pollers s)
  | _ => true
  end.

Fixpoint lpermitted_all (cs : list lcall) s : bool :=
  match cs with
  | [] => true
  | c :: cs => lpermitted c s && match lrun c s with Some (_, s') => lpermitted_all cs s' | None => true end
  end.

Lemma roomb_spec {A} (m : HandleMap A) : roomb m = true -> room m.
Proof. apply Z.leb_le. Qed.

Lemma run_AddListener_callback cb s :
  Inv s -> room (m_pollers s) -> room (m_listeners s) ->
  wp (AddListener_callback cb) (fun _ s' => Inv s') s.
Proof.
  intros HI Hrp Hrl. unfold AddListener_callback. wp_step. wp_step. wp_step.
  eapply (wp_mono _ (fun _ s' => Inv s' /\ m_listeners s' = m_listeners s)).
  { destruct (m_thread s); [by wp_step|]. wp_step. eapply wp_mono; [by apply run_add_poller|].
    intros h s1 (HI1 & El & _). wp_step. split; [|done]. by apply (Inv_thread s1). }
  intros [] s1 [HI1 El]. wp_step. wp_step. destruct (m_thread s1) as [thr|]; [|by wp_step].
  wp_step. eapply wp_mono; [apply run_DoAddListener; [done|by rewrite El]|].
  intros l s2 (HI2 & _). wp_step. eapply (wp_mono _ (fun _ s' => Inv s')); [|intros [] s3 H3; by wp_step].
  wp_step; intros _; [|done]. unfold set_thread. wp_step. by apply (Inv_thread s2).
Qed.

Lemma run_Reset s : Inv s -> wp Reset (fun _ s' => Inv s') s.
Proof.
  intros [Hi Hp Hl Hlp Hc Ht Hv Hg Hs]. unfold Reset. wp_step.
  assert (He : forall k l, hm_at (@hm_empty ListenerData) k = Some l -> False) by (by intros [|k] l).
  assert (Hll : forall bits, lists [] bits hm_empty).
  { intros bits k. split; [by intros ?%elem_of_nil|]. intros (d & Hd & _). by apply He in Hd. }
  split; cbn; try done; try apply table_empty; try apply Hll; intros k l Hk; by apply He in Hk.
Qed.

Lemma run_Thread_read s : Inv s -> wp Thread_read (fun _ s' => Inv s') s.
Proof.
  intros HI. unfold Thread_read. wp_step. wp_step. destruct (m_thread s) as [thr|]; [|by wp_step].
  destruct (th_run thr); [by wp_step|]. wp_step. eapply wp_mono; [by apply run_ReadListenerQueue|].
  intros events s1 (HI1 & _). unfold set_thread. wp_step. by apply (Inv_thread s1).
Qed.

Lemma run_Thread_next s : Inv s -> wp Thread_next (fun _ s' => Inv s') s.
Proof.
  intros HI. unfold Thread_next. wp_step. wp_step. destruct (m_thread s) as [thr|]; [|by wp_step].
  destruct (th_run thr) as [[[|e es] w]|]; [| |by wp_step]; unfold set_thread.
  - wp_step. by apply (Inv_thread s).
  - wp_step. wp_step. destruct (th_callbacks thr !! _); wp_step; by apply (Inv_thread s).
Qed.

Lemma lrun_safe c s : Inv s -> lpermitted c s = true -> wp (lrun c) (fun _ s' => Inv s') s.
Proof.
  intros HI Hp.
  assert (Hs : forall {A} (m : LM A), wp m (fun _ s' => Inv s') s -> wp (m ;; skip) (fun _ s' => Inv s') s).
  { intros A m Hm. wp_step. eapply wp_mono; [exact Hm|]. intros a s' HI'. by wp_step. }
  assert (Hw : forall {A} (m : LM A) (P : A -> ListenerStorage -> Prop),
    wp m P s -> (forall a s', P a s' -> Inv s') -> wp m (fun _ s' => Inv s') s).
  { intros A m P Hm HP. eapply wp_mono; [exact Hm|]. exact HP. }
  destruct c; cbn [lrun lpermitted] in *.
  - eapply Hw; [by apply run_Activate|]. by intros [] s' [? _].
  - eapply wp_mono; [by apply run_Notify_connections|]. intros [] s' Hx; exact (pushed_Inv _ _ _ Hx HI).
  - eapply wp_mono; [by apply run_Notify_topics|]. intros [] s' Hx; exact (pushed_Inv _ _ _ Hx HI).
  - eapply wp_mono; [by apply run_Notify_value|]. intros [] s' Hx; exact (pushed_Inv _ _ _ Hx HI).
  - eapply wp_mono; [by apply run_Notify_log|]. intros [] s' Hx; exact (pushed_Inv _ _ _ Hx HI).
  - eapply wp_mono; [apply run_NotifyTimeSync; [done|]|intros [] s' Hx; exact (pushed_Inv _ _ _ Hx HI)].
    intros -> k Hk. rewrite forallb_forall in Hp. specialize (Hp k).
    apply (bool_decide_eq_true_1 _). by apply Hp, list_elem_of_In.
  - apply andb_true_iff in Hp as [H1%roomb_spec H2%roomb_spec]. apply Hs. by apply run_AddListener_callback.
  - apply Hs. eapply Hw; [apply run_DoAddListener; [done|by apply roomb_spec]|]. by intros h s' [? _].
  - apply Hs. eapply Hw; [apply run_add_poller; [done|by apply roomb_spec]|]. by intros h s' [? _].
  - apply Hs. by apply run_DestroyListenerPoller.
  - apply Hs. eapply Hw; [by apply run_ReadListenerQueue|]. by intros h s' [? _].
  - apply Hs. by apply run_RemoveListener.
  - apply Hs. unfold WaitForListenerQueue_begin. wp_step. wp_step. destruct (m_thread s); [|by wp_step].
    wp_step. unfold set_thread. wp_step. wp_step. by apply (Inv_thread s).
  - by apply run_Reset.
  - by apply run_Thread_read.
  - by apply run_Thread_next.
Qed.

Lemma Inv_make inst : 0 <= inst -> Inv (ListenerStorage_make inst).
Proof.
  intros Hi.
  assert (He : forall k l, hm_at (@hm_empty ListenerData) k = Some l -> False) by (by intros [|k] l).
  assert (Hll : forall bits, lists [] bits hm_empty).
  { intros bits k. split; [by intros ?%elem_of_nil|]. intros (d & Hd & _). by apply He in Hd. }
  split; cbn; try done; try apply table_empty; try apply Hll; intros k l Hk; by apply He in Hk.
Qed.

Lemma lruns_safe cs s :
  Inv s -> lpermitted_all cs s = true -> exists s', for_each cs lrun s = Some (tt, s') /\ Inv s'.
Proof.
  revert s. induction cs as [|c cs IH]; intros s HI Hp; cbn [lpermitted_all for_each] in *; [by exists s|].
  apply andb_true_iff in Hp as [Hc Hp]. pose proof (lrun_safe c s HI Hc) as Hw.
  apply wp_run in Hw as ([] & s1 & Hr & HI1). rewrite Hr in Hp.
  destruct (IH s1 HI1 Hp) as (s2 & Hr2 & HI2). exists s2. by rewrite (bind_run _ _ s tt s1).
Qed.

(** ** The list of time synchronisation listeners *)

(** Nothing but [Activate] changes it. *)
Definition ts_kept {A} (m : LM A) : Prop := forall s, wlp m (fun _ s' => m_timeSyncListeners s' = m_timeSyncListeners s) s.
Lemma tk_ret {A} (a : A) : ts_kept (ret a).
Proof. intros s. by apply wlp_ret. Qed.
Lemma tk_bind {A B} (m : LM A) (k : A -> LM B) : ts_kept m -> (forall a, ts_kept (k a)) -> ts_kept (bind m k).
Proof.
  intros Hm Hk s. apply wlp_bind. eapply wlp_mono; [apply Hm|]. intros a s1 E1. eapply wlp_mono; [apply Hk|].
  intros b s2 E2. by rewrite E2.
Qed.
Lemma tk_get : ts_kept get.
Proof. intros s. by apply wlp_get. Qed.
Lemma tk_modify f : (forall s, m_timeSyncListeners (f s) = m_timeSyncListeners s) -> ts_kept (modify f).
Proof. intros Hf s. by apply wlp_modify. Qed.
Lemma tk_deref {A} (o : option A) : ts_kept (deref o).
Proof. intros s. by apply wlp_deref. Qed.
Lemma tk_for_each {X} (l : list X) body : (forall x, ts_kept (body x)) -> ts_kept (for_each l body).
Proof. intros Hb. induction l as [|x l IH]; cbn; [apply tk_ret|by apply tk_bind]. Qed.
Lemma tk_sum_each {X} (l : list X) body : (forall x, ts_kept (body x)) -> ts_kept (sum_each l body).
Proof.
  intros Hb. induction l as [|x l IH]; cbn; [apply tk_ret|]. apply tk_bind; [done|]. intros n. apply tk_bind; [done|]. intros m. apply tk_ret.
Qed.
Create HintDb ts.
Ltac ts_kept :=
  repeat first
    [ solve [auto with ts nocore]
    | progress unfold when, poller, listener, set_poller, set_listener, signal, set_signals, push_event, push_finish, set_thread
    | lazymatch goal with
      | |- ts_kept (ret _) => apply tk_ret
      | |- ts_kept get => apply tk_get
      | |- ts_kept (deref _) => apply tk_deref
      | |- ts_kept (bind _ _) => apply tk_bind; [|intros ?]
      | |- ts_kept (modify _) => apply tk_modify; intros ?; reflexivity
      | |- ts_kept (for_each _ _) => apply tk_for_each; intros ?
      | |- ts_kept (sum_each _ _) => apply tk_sum_each; intros ?
      | |- ts_kept (let '(_, _) := ?p in _) => destruct p
      | |- ts_kept (match ?o with _ => _ end) => destruct o
      end ].
Lemma tk_for_listeners hs all (doSignal : nat -> LM unit) : (forall k, ts_kept (doSignal k)) -> ts_kept (for_listeners hs all doSignal).
Proof. intros Hd. unfold for_listeners. ts_kept. Qed.
Lemma tk_plain flags datas k : ts_kept (doSignal_plain flags datas k).
Proof. unfold doSignal_plain. ts_kept. Qed.
Lemma tk_finish flags datas k : ts_kept (doSignal_finish flags datas k).
Proof. unfold doSignal_finish. ts_kept. Qed.
Lemma tk_DoAddListener h : ts_kept (DoAddListener h).
Proof. unfold DoAddListener. ts_kept. Qed.
Lemma tk_add_poller : ts_kept add_poller.
Proof. unfold add_poller. ts_kept. Qed.
Hint Resolve tk_DoAddListener tk_add_poller : ts.
Lemma tk_DoRemoveListeners removed hs : ts_kept (DoRemoveListeners removed hs).
Proof. induction hs as [|h hs IH]; cbn; [apply tk_ret|]. unfold DoRemoveListener. ts_kept. Qed.
Lemma tk_ReadListenerQueue h : ts_kept (ReadListenerQueue h).
Proof. unfold ReadListenerQueue. ts_kept. Qed.
Hint Resolve tk_DoRemoveListeners tk_ReadListenerQueue : ts.
Lemma tk_lrun c : match c with LActivate _ _ _ => False | _ => True end -> ts_kept (lrun c).
Proof.
  intros Hc. destruct c; cbn [lrun]; try destruct Hc.
  1-5: unfold Notify_connections, Notify_topics, Notify_value, Notify_log, NotifyTimeSync; case_match; [apply tk_ret|];
    apply tk_for_listeners; intros ?; first [apply tk_plain|apply tk_finish].
  all: unfold AddListener_callback, AddListener, CreateListenerPoller, DestroyListenerPoller, RemoveListener,
    WaitForListenerQueue_begin, Reset, Thread_read, Thread_next; ts_kept.
Qed.

(** The listener is live and activated for time synchronisation. *)
Definition ts_listener s (k : nat) : bool :=
  match hm_at (m_listeners s) k with Some l => has_bits (ln_eventMask l) NT_EVENT_TIMESYNC | None => false end.
Lemma ts_Activate h mask f s :
  wlp (Activate h mask f) (fun _ s' => forall k, k ∈ m_timeSyncListeners s' -> k ∈ m_timeSyncListeners s \/ ts_listener s' k = true) s.
Proof.
  unfold Activate. do 2 wlp_step. destruct (hm_Get kListener h (m_listeners s)) as [k|] eqn:Eg; [|apply wlp_ret; auto].
  destruct (Get_at _ _ _ _ Eg) as [d Hd]. unfold set_listener, listener. do 9 wlp_step. cbn zeta. simplify_eq. wlp_step.
  set (d' := d <| ln_sources ::= _ |> <| ln_eventMask ::= _ |>).
  assert (has_bits (Z.ldiff mask (ln_eventMask d)) NT_EVENT_TIMESYNC = true -> has_bits (ln_eventMask d') NT_EVENT_TIMESYNC = true) as Hb.
  { intros Hd'. change (ln_eventMask d') with (Z.lor (ln_eventMask d) mask). by rewrite <- has_bits_ldiff, Hd', orb_true_r. }
  do 4 (wlp_step; wlp_step; [wlp_step|]).
  all: wlp_step; [wlp_step|]; intros j; cbn; unfold vs_Add; [rewrite elem_of_app, list_elem_of_singleton; intros [Hj| ->]|]; auto.
  all: right; unfold ts_listener; cbn; rewrite hm_at_set by done; rewrite decide_True by done; auto.
Qed.

(** A listener for time synchronisation has gone. *)
Definition ts_dropped s s' : bool := existsb (fun k => ts_listener s k && negb (ts_listener s' k)) (m_timeSyncListeners s).
(** Notifications of time synchronisation to all listeners are permitted as long as no listener
    for them has been removed, by itself, with its poller or by [Reset]; additions require that
    there is room. *)
Definition lpermitted_since (dropped : bool) (c : lcall) s : bool :=
  match c with LNotifyTimeSync [] _ _ _ _ => negb dropped | _ => lpermitted c s end.
Fixpoint lpermitted_run (dropped : bool) (cs : list lcall) s : bool :=
  match cs with
  | [] => true
  | c :: cs =>
      lpermitted_since dropped c s &&
      match lrun c s with Some (_, s') => lpermitted_run (dropped || ts_dropped s s') cs s' | None => true end
  end.
(** Whether a listener for time synchronisation is removed in the course of the calls *)
Fixpoint ts_removed (cs : list lcall) s : bool :=
  match cs with
  | [] => false
  | c :: cs => match lrun c s with Some (_, s') => ts_dropped s s' || ts_removed cs s' | None => false end
  end.

Definition ts_exact s : Prop := forall k, k ∈ m_timeSyncListeners s <-> ts_listener s k = true.
Lemma ts_step c s s' : Inv s -> Inv s' -> lrun c s = Some (tt, s') -> ts_exact s -> ts_dropped s s' = false -> ts_exact s'.
Proof.
  intros HI HI' Hr He Hd k. split.
  - intros Hk. assert (k ∈ m_timeSyncListeners s \/ ts_listener s' k = true) as [Hin|Hl]; [|clear Hk|done].
    { pose proof (tk_lrun c) as Ht.
      destruct c; [exact (wlp_run _ _ _ _ _ (ts_Activate _ _ _ s) Hr k Hk)|left; by rewrite <- (wlp_run _ _ _ _ _ (Ht I s) Hr)..]. }
    pose proof (proj1 (He k) Hin) as Hl. destruct (ts_listener s' k) eqn:E; [done|]. exfalso.
    unfold ts_dropped in Hd. apply not_true_iff_false in Hd. apply Hd, existsb_exists. exists k.
    split; [by apply list_elem_of_In|]. by rewrite Hl, E.
  - unfold ts_listener. destruct (hm_at (m_listeners s') k) as [l|] eqn:E; [|done]. intros Hb. by apply (iv_timeSync _ s' HI' k l).
Qed.

Lemma lruns_since cs s dropped : Inv s -> (dropped = false -> ts_exact s) -> lpermitted_run dropped cs s = true ->
  exists s', for_each cs lrun s = Some (tt, s') /\ Inv s' /\ (dropped || ts_removed cs s = false -> ts_exact s').
Proof.
  revert s dropped. induction cs as [|c cs IH]; intros s dropped HI He Hp; cbn [lpermitted_run ts_removed for_each] in *.
  { exists s. rewrite orb_false_r. auto. }
  apply andb_true_iff in Hp as [Hc Hp].
  assert (lpermitted c s = true) as Hl.
  { destruct c as [| | | | |[] flags off rtt2 valid| | | | | | | | | |]; try done. cbn in Hc |- *. apply negb_true_iff in Hc.
    apply forallb_forall. intros k Hk%list_elem_of_In%(He Hc). apply bool_decide_eq_true_2. unfold ts_listener in Hk.
    by destruct (hm_at (m_listeners s) k). }
  pose proof (lrun_safe c s HI Hl) as Hw. apply wp_run in Hw as ([] & s1 & Hr & HI1). rewrite Hr in *.
  destruct (IH s1 (dropped || ts_dropped s s1)) as (s2 & Hr2 & HI2 & He2); [done| |done|].
  { intros [Hd1 Hd2]%orb_false_iff. by eapply ts_step; [| | |apply He|]. }
  exists s2. rewrite (bind_run _ _ s tt s1) by done. split_and!; [done|done|]. by rewrite orb_assoc.
Qed.

(** C37. The listener storage is memory safe.  Take a sequence of calls and thread steps on a
    new storage in which additions happen while there is room, and time synchronisation is
    notified to all listeners only as long as no listener activated for it has been removed
    earlier in the sequence.  It runs without using a dangling pointer.  In the state it
    reaches, every listener has a live poller; the lists of connection, topic, value and log
    listeners hold exactly the live listeners activated for them; the list of time
    synchronisation listeners holds all of its live listeners, and exactly these if none has
    been removed. *)
Theorem listener_storage_safe (inst : Z) (cs : list lcall) :
  0 <= inst -> lpermitted_run false cs (ListenerStorage_make inst) = true ->
  exists s, for_each cs lrun (ListenerStorage_make inst) = Some (tt, s) /\ Inv s /\
    (ts_removed cs (ListenerStorage_make inst) = false -> ts_exact s).
Proof.
  intros Hi Hp. destruct (lruns_since cs (ListenerStorage_make inst) false) as (s & Hr & HI & He); [by apply Inv_make| |done|by exists s].
  intros _ k. split; [by intros ?%elem_of_nil|]. unfold ts_listener, ListenerStorage_make. cbn. by destruct k.
Qed.

(** The laws the clients of the storage rely on *)
#[global] Instance ListenerStorage_laws : IListenerStorageLaws ListenerStorage.
Proof.
  refine (Build_IListenerStorageLaws _ _ Inv timeSync_live _ _ _ _ _ _).
  - apply run_Activate.
  - intros hs flags infos s HI. eapply wp_mono; [by apply run_Notify_connections|].
    intros [] s' Hx. split; [exact (pushed_Inv _ _ _ Hx HI)|exact (pushed_timeSync _ _ _ Hx)].
  - intros hs flags infos s HI. eapply wp_mono; [by apply run_Notify_topics|].
    intros [] s' Hx. split; [exact (pushed_Inv _ _ _ Hx HI)|exact (pushed_timeSync _ _ _ Hx)].
  - intros hs flags t sub v s HI. eapply wp_mono; [by apply run_Notify_value|].
    intros [] s' Hx. split; [exact (pushed_Inv _ _ _ Hx HI)|exact (pushed_timeSync _ _ _ Hx)].
  - intros flags level file line msg s HI. eapply wp_mono; [by apply run_Notify_log|].
    intros [] s' Hx. split; [exact (pushed_Inv _ _ _ Hx HI)|exact (pushed_timeSync _ _ _ Hx)].
  - intros hs flags off rtt2 valid s HI Hts. eapply wp_mono; [by apply run_NotifyTimeSync|].
    intros [] s' Hx. split; [exact (pushed_Inv _ _ _ Hx HI)|by apply (pushed_timeSync _ _ _ Hx)].
Defined.

(** C32. Notifications are delivered exactly: a value or topic notification appends to the
    queue of each poller, in order of the addressed listeners and of their sources, one
    event for every source whose mask has one of the flags, as left by the source's
    finishing function, unless that drops it; nothing else changes but signals. *)
Theorem notify_delivers s (hs : list Z) (flags topic sub : Z) (v : Value) (infos : list TopicInfo) :
  Inv s -> flags <> 0 ->
  (exists s', Notify_value hs flags topic sub v s = Some (tt, s') /\
     m_listeners s' = m_listeners s /\
     forall k p, hm_at (m_pollers s) k = Some p -> exists p', hm_at (m_pollers s') k = Some p' /\
       pl_queue p' = pl_queue p ++ deliveries (listener_events true flags [ValueEvent topic sub v])
         (m_listeners s) (targets hs m_valueListeners s) k) /\
  (exists s', Notify_topics hs flags infos s = Some (tt, s') /\
     m_listeners s' = m_listeners s /\
     forall k p, hm_at (m_pollers s) k = Some p -> exists p', hm_at (m_pollers s') k = Some p' /\
       pl_queue p' = pl_queue p ++ deliveries (listener_events true flags (TopicEvent <$> infos))
         (m_listeners s) (targets hs m_topicListeners s) k).
Proof.
  intros HI Hf%Z.eqb_neq. split.
  - pose proof (run_Notify_value hs flags topic sub v s HI) as Hw.
    apply wp_run in Hw as ([] & s' & Hr & Hx). unfold notified in Hx. rewrite Hf in Hx.
    exists s'. split_and!; [done|by eapply pushed_listeners|]. intros k p Hk.
    rewrite (ps_queues _ _ _ Hx), Hk. by eexists.
  - pose proof (run_Notify_topics hs flags infos s HI) as Hw.
    apply wp_run in Hw as ([] & s' & Hr & Hx). unfold notified in Hx. rewrite Hf in Hx.
    exists s'. split_and!; [done|by eapply pushed_listeners|]. intros k p Hk.
    rewrite (ps_queues _ _ _ Hx), Hk. by eexists.
Qed.

(** ** Removed time synchronisation listeners *)

(** A loop over pointers of which one is dangling *)
Lemma for_each_dangling flags datas l k s :
  Inv s -> k ∈ l -> hm_at (m_listeners s) k = None ->
  for_each l (doSignal_plain flags datas) s = None.
Proof.
  revert s. induction l as [|x l IH]; intros s HI Hk Hn; [by apply elem_of_nil in Hk|]. cbn [for_each].
  destruct (hm_at (m_listeners s) x) as [d|] eqn:Ex.
  - pose proof (run_doSignal_plain flags datas x d s Ex (Inv_poller s x d HI Ex)) as Hw.
    apply wp_run in Hw as ([] & s1 & Hr & Hx). rewrite (bind_run _ _ s tt s1) by done.
    apply IH; [exact (pushed_Inv _ _ _ Hx HI)| |by rewrite (pushed_listeners _ _ _ Hx)].
    apply elem_of_cons in Hk as [->|]; [congruence|done].
  - unfold doSignal_plain, listener, bind, get, deref. by rewrite Ex.
Qed.

(** A time synchronisation listener that is removed stays in the list of such
    listeners: the next notification to all of them uses a dangling pointer. *)
Theorem time_sync_use_after_remove s (h : Z) (k : nat) (l : ListenerData) (flags off rtt2 : Z) (valid : bool) :
  Inv s -> hm_Get kListener h (m_listeners s) = Some k -> hm_at (m_listeners s) k = Some l ->
  has_bits (ln_eventMask l) NT_EVENT_TIMESYNC = true -> flags <> 0 ->
  exists r s', RemoveListener h s = Some (r, s') /\ NotifyTimeSync [] flags off rtt2 valid s' = None.
Proof.
  intros HI Hg Hk Hb Hf%Z.eqb_neq. pose proof (run_DoRemoveListeners None [h] s HI) as Hw.
  apply wp_run in Hw as (r & s' & Hr & HI' & [Hl _ Hts]). exists r, s'. split; [done|].
  unfold NotifyTimeSync, for_listeners. rewrite Hf. cbn [length Nat.ltb Nat.leb].
  rewrite (bind_run _ _ s' s' s') by done. apply (for_each_dangling _ _ _ k); [done| |].
  - rewrite Hts. by apply (iv_timeSync _ s HI k l).
  - destruct (hm_at (m_listeners s') k) as [d|] eqn:Ek; [|done].
    destruct (Hl k d Ek) as [_ Hne]. exfalso. by apply (Hne h); [left|].
Qed.

(** ** Callbacks *)

(** The callbacks for a list of events *)
Definition callbacks_for (cbs : gmap Z Z) (events : list Event) : list (Z * Event) :=
  omap (fun e => cb ← cbs !! ev_listener e; Some (cb, e)) events.

Lemma Thread_next_call e events w thr s :
  m_thread s = Some (thr <| th_run := Some (e :: events, w) |>) ->
  Thread_next s = Some (tt, s <| m_thread := Some (thr <| th_run := Some (events, w) |>) |>
    <| calls ::= fun l => l ++ callbacks_for (th_callbacks thr) [e] |>).
Proof.
  intros Ht. unfold Thread_next. rewrite (bind_run _ _ s s s), Ht by done. cbn.
  unfold callbacks_for, bind, set_thread, modify, ret.
  destruct (th_callbacks thr !! ev_listener e); unfold fupd; cbn; rewrite Ht; [done|].
  by rewrite app_nil_r.
Qed.

Lemma Thread_next_end w thr s :
  m_thread s = Some (thr <| th_run := Some ([], w) |>) ->
  Thread_next s = Some (tt, s <| m_thread :=
    Some (thr <| th_run := None |> <| th_waiter := w || th_waiter thr |>) |>).
Proof.
  intros Ht. unfold Thread_next. rewrite (bind_run _ _ s s s), Ht by done. cbn.
  unfold set_thread, modify, fupd. cbn. by rewrite Ht.
Qed.

Lemma run_Thread_nexts events w thr s :
  m_thread s = Some (thr <| th_run := Some (events, w) |>) ->
  for_each (replicate (S (length events)) tt) (fun _ => Thread_next) s = Some (tt,
    s <| m_thread := Some (thr <| th_run := None |> <| th_waiter := w || th_waiter thr |>) |>
      <| calls ::= fun l => l ++ callbacks_for (th_callbacks thr) events |>).
Proof.
  revert s. induction events as [|e events IH]; intros s Ht; cbn [length]; rewrite replicate_S; cbn [for_each].
  - erewrite bind_run by (by apply Thread_next_end). unfold ret, fupd. cbn.
    by rewrite app_nil_r.
  - erewrite bind_run by (by apply Thread_next_call). rewrite IH by done. do 2 f_equal.
    unfold fupd. cbn. f_equal. rewrite <- app_assoc. unfold callbacks_for.
    cbn [omap list_omap]. by destruct (th_callbacks thr !! ev_listener e).
Qed.

Lemma poller_run k p s : hm_at (m_pollers s) k = Some p -> poller k s = Some (p, s).
Proof. unfold poller, bind, get, deref. by intros ->. Qed.

Lemma ReadListenerQueue_run h k p s :
  hm_Get kListenerPoller h (m_pollers s) = Some k -> hm_at (m_pollers s) k = Some p ->
  ReadListenerQueue h s =
    Some (pl_queue p, s <| m_pollers ::= hm_set k (p <| pl_queue := [] |>) |>).
Proof.
  intros Hg Hk. unfold ReadListenerQueue. rewrite (bind_run _ _ s s s), Hg by done.
  rewrite (bind_run _ _ s p s) by (by apply poller_run). unfold set_poller.
  erewrite bind_run by (by erewrite bind_run by (by apply poller_run)). done.
Qed.

(** C38. The callback thread delivers the queue: one round of the thread takes all queued
    events, calls the registered callback for each of them once and in order, leaves the
    queue empty, and wakes up a caller of [WaitForListenerQueue] that asked before. *)
Theorem callbacks_in_order s (thr : Thread) (k : nat) (p : PollerData) :
  m_thread s = Some thr -> th_run thr = None ->
  hm_Get kListenerPoller (th_poller thr) (m_pollers s) = Some k ->
  hm_at (m_pollers s) k = Some p ->
  exists s', (Thread_read ;;
    for_each (replicate (S (length (pl_queue p))) tt) (fun _ => Thread_next)) s = Some (tt, s') /\
    calls s' = calls s ++ callbacks_for (th_callbacks thr) (pl_queue p) /\
    hm_at (m_pollers s') k = Some (p <| pl_queue := [] |>) /\
    m_thread s' = Some (thr <| th_wakeup := false |> <| th_waiter := th_wakeup thr || th_waiter thr |>).
Proof.
  intros Ht Hrun Hg Hk. set (q := pl_queue p).
  set (thr1 := thr <| th_wakeup := false |>).
  set (s1 := s <| m_pollers ::= hm_set k (p <| pl_queue := [] |>) |>
    <| m_thread := Some (thr1 <| th_run := Some (q, th_wakeup thr) |>) |>).
  assert (Hread : Thread_read s = Some (tt, s1)).
  { unfold Thread_read. rewrite (bind_run _ _ s s s), Ht, Hrun by done.
    erewrite bind_run by (by apply (ReadListenerQueue_run _ k p)).
    unfold set_thread, modify, fupd. cbn. by rewrite Ht. }
  rewrite (bind_run _ _ s tt s1), (run_Thread_nexts q (th_wakeup thr) thr1 s1) by done.
  eexists. split_and!; [done|done| |].
  - unfold s1, fupd. cbn. by rewrite hm_at_set, decide_True.
  - unfold thr1, fupd. cbn. by rewrite Hrun.
Qed.

(** ** The theorems on a concrete storage *)

Module ListenerExample.
Definition listener_h (i : Z) : Z := Handle 1 i kListener.
Definition poller_h (i : Z) : Z := Handle 1 i kListenerPoller.
Definition v : Value := MkValue (VDouble 3) 4 0.

(** A polled listener for values and time synchronisation, one with a callback for
    values, and a value for each *)
Definition setup : list lcall :=
  [LCreateListenerPoller; LAddListener (poller_h 0);
   LActivate (listener_h 0) NT_EVENT_VALUE_ALL (Some (finish_subentry 7));
   LActivate (listener_h 0) NT_EVENT_TIMESYNC None;
   LAddListenerCallback 42; LActivate (listener_h 1) NT_EVENT_VALUE_ALL None;
   LNotifyTimeSync [] NT_EVENT_TIMESYNC 1 2 true;
   LNotifyValue [listener_h 0; listener_h 1] NT_EVENT_VALUE_LOCAL 5 0 v].

Definition state : ListenerStorage :=
  match for_each setup lrun (ListenerStorage_make 1) with Some (_, s) => s | None => ListenerStorage_make 1 end.

Lemma example_Inv : Inv state.
Proof.
  destruct (lruns_safe setup (ListenerStorage_make 1)) as (s & Hr & HI);
    [by apply Inv_make|vm_compute; reflexivity|]. unfold state. by rewrite Hr.
Qed.
End ListenerExample.
Import ListenerExample.

Lemma listener_storage_safe_witness :
  exists s, for_each setup lrun (ListenerStorage_make 1) = Some (tt, s) /\ Inv s /\ ts_exact s.
Proof.
  destruct (listener_storage_safe 1 setup) as (s & Hr & HI & He); [lia|vm_compute; reflexivity|].
  exists s. split; [exact Hr|]. split; [exact HI|]. apply He. vm_compute. reflexivity.
Defined.

(** The finishing function of the source sets the subscriber handle. *)
Lemma notify_delivers_witness :
  exists s' p', Notify_value [listener_h 0] NT_EVENT_VALUE_LOCAL 6 0 v state = Some (tt, s') /\
    hm_at (m_pollers s') 0 = Some p' /\
    last (pl_queue p') = Some (MkEvent (listener_h 0) NT_EVENT_VALUE_LOCAL (ValueEvent 6 7 v)).
Proof.
  destruct (notify_delivers state [listener_h 0] NT_EVENT_VALUE_LOCAL 6 0 v [] example_Inv
    ltac:(discriminate)) as [(s' & Hr & _ & Hq) _].
  eassert (Hk : hm_at (m_pollers state) 0 = Some _) by (vm_compute; reflexivity).
  destruct (Hq 0%nat _ Hk) as (p' & Hp' & Eq). exists s', p'. split; [exact Hr|]. split; [exact Hp'|].
  rewrite Eq. vm_compute. reflexivity.
Defined.

Lemma time_sync_use_after_remove_witness :
  exists r s', RemoveListener (listener_h 0) state = Some (r, s') /\
    NotifyTimeSync [] NT_EVENT_TIMESYNC 0 0 false s' = None.
Proof.
  eapply (time_sync_use_after_remove state (listener_h 0) 0);
    [exact example_Inv|vm_compute; reflexivity|vm_compute; reflexivity|vm_compute; reflexivity|discriminate].
Defined.

Lemma callbacks_in_order_witness :
  exists s' n, (Thread_read ;; for_each (replicate n tt) (fun _ => Thread_next)) state = Some (tt, s') /\
    calls s' = [(42, MkEvent (listener_h 1) NT_EVENT_VALUE_LOCAL (ValueEvent 5 0 v))].
Proof.
  eassert (Ht : m_thread state = Some _) by (vm_compute; reflexivity).
  eassert (Hk : hm_at (m_pollers state) 1 = Some _) by (vm_compute; reflexivity).
  destruct (callbacks_in_order state _ 1 _ Ht ltac:(vm_compute; reflexivity)
    ltac:(vm_compute; reflexivity) Hk) as (s' & Hr & Hc & _). exists s'. eexists. split; [exact Hr|]. rewrite Hc. vm_compute. reflexivity.
Defined.
