(* ===== verification/ConnectionList.v ===== *)
(** * ConnectionList: the connections of an instance

    [ConnectionList] of [ConnectionList.cpp], for any implementation [L] of the
    listener storage.  The data logs are a trace of their calls; [None] is an uncaught
    exception or undefined behaviour. *)

From S2P Require Import Prelude NtTypes Handles Monads LocalTypes Json Events ListenerStorage.
From S2P Require Import ListenerProofs.

Local Open Scope Z_scope.

(** [StringLogEntry] of a data log: its constructor, [Append] and [Finish] *)
Inductive LogCall :=
| CLogStart (log : Z) (name metadata type : string) (time : Z)
| CLogAppend (entry : nat) (text : bytes) (time : Z)
| CLogFinish (entry : nat) (time : Z).

Definition is_start (c : LogCall) : bool :=
  match c with CLogStart _ _ _ _ _ => true | _ => false end.

(** [ConnectionList::DataLoggerData]; the entry is numbered by its start. *)
Record DataLoggerData := MkConnLogger {
  cd_handle : Z;
  cd_entry : nat;
}.

Section ConnectionList.
Context {L : Type} `{IListenerStorage L} `{Env}.

Record ConnectionList := MkConnectionList {
  c_inst : Z;
  c_storage : L;
  c_connected : bool;
  c_connections : HandleMap ConnectionInfo;
  c_dataloggers : HandleMap DataLoggerData;
  c_clock : nat;
  c_logs : list LogCall;
}.
#[global] Instance eta_ConnectionList : Eta ConnectionList := fun s =>
  MkConnectionList (c_inst s) (c_storage s) (c_connected s) (c_connections s)
    (c_dataloggers s) (c_clock s) (c_logs s).

Definition ConnectionList_make (inst : Z) (storage : L) : ConnectionList :=
  MkConnectionList inst storage false hm_empty hm_empty 0 [].

Abbreviation CM := (M ConnectionList).

Definition kThreshold : nat := 8.

(** A call of the listener storage *)
Definition storage (m : M L unit) : CM unit := fun s =>
  match m (c_storage s) with
  | Some (_, l) => Some (tt, s <| c_storage := l |>)
  | None => None
  end.

Definition Now : CM Z :=
  let* n := gets c_clock in modify (fun s => s <| c_clock ::= S |>) ;; ret (env_Now n).
Definition log (c : LogCall) : CM unit := modify (fun s => s <| c_logs ::= fun l => l ++ [c] |>).

(** The text is written piece by piece; an invalid UTF-8 string throws. *)
Definition ConnInfoToJson (connected : bool) (info : ConnectionInfo) : option bytes :=
  id ← dump_escaped (bytes_of_string (remote_id info)) false;
  ip ← dump_escaped (bytes_of_string (remote_ip info)) false;
  let q := [quote] in
  let field (comma : string) (name : string) :=
    bytes_of_string comma ++ q ++ bytes_of_string name ++ q ++ bytes_of_string ":" in
  Some (field "{" "connected" ++ bytes_of_string (if connected then "true" else "false") ++
        field "," "remote_id" ++ q ++ id ++ q ++ field "," "remote_ip" ++ q ++ ip ++ q ++
        field "," "remote_port" ++ dump_integer (remote_port info) ++
        field "," "protocol_version" ++ dump_integer (protocol_version info) ++
        bytes_of_string "}").

(** The two loops that append the text to every data log *)
Definition log_connection (connected : bool) (info : ConnectionInfo) : CM unit :=
  let* s := get in
  when (negb (uid_empty (c_dataloggers s)))
    (let* now := Now in
     for_each (hm_live (c_dataloggers s)) (fun k =>
       let* d := deref (hm_at (c_dataloggers s) k) in
       let* text := deref (ConnInfoToJson connected info) in
       log (CLogAppend (cd_entry d) text now))).

Definition AddConnection (info : ConnectionInfo) : CM nat :=
  modify (fun s => s <| c_connected := true |>) ;;
  storage (il_Notify_connections [] NT_EVENT_CONNECTED [info]) ;;
  log_connection true info ;;
  let* s := get in
  let '(k, m) := uid_emplace_back kThreshold (Some info) (c_connections s) in
  modify (fun s => s <| c_connections := m |>) ;;
  ret k.

Definition RemoveConnection (handle : nat) : CM unit :=
  let* s := get in
  let '(val, m) := uid_erase handle (c_connections s) in
  modify (fun s => s <| c_connections := m |>) ;;
  when (uid_empty m) (modify (fun s => s <| c_connected := false |>)) ;;
  match val with
  | None => skip
  | Some info =>
      storage (il_Notify_connections [] NT_EVENT_DISCONNECTED [info]) ;;
      log_connection false info
  end.

(** The connections in the order of their handles *)
Definition connections (s : ConnectionList) : list ConnectionInfo :=
  omap (hm_at (c_connections s)) (hm_live (c_connections s)).

Definition ClearConnections : CM unit :=
  modify (fun s => s <| c_connected := false |>) ;;
  let* s := get in
  for_each (connections s) (fun info =>
    storage (il_Notify_connections [] NT_EVENT_DISCONNECTED [info])) ;;
  modify (fun s => s <| c_connections := hm_empty |>).

Definition GetConnections : CM (list ConnectionInfo) := gets connections.
Definition IsConnected : CM bool := gets c_connected.

Definition NT_EVENT_CONNECTED_IMMEDIATE : Z := Z.lor NT_EVENT_CONNECTED NT_EVENT_IMMEDIATE.

Definition AddListener (listener eventMask : Z) : CM unit :=
  let eventMask := Z.land eventMask (Z.lor NT_EVENT_CONNECTION NT_EVENT_IMMEDIATE) in
  storage (il_Activate listener eventMask None) ;;
  let* s := get in
  when ((Z.land eventMask NT_EVENT_CONNECTED_IMMEDIATE =? NT_EVENT_CONNECTED_IMMEDIATE) &&
        negb (uid_empty (c_connections s)))
    (storage (il_Notify_connections [listener] NT_EVENT_CONNECTED_IMMEDIATE (connections s))).

Definition metadata_text : string :=
  "{" +:+ dq +:+ "schema" +:+ dq +:+ ":" +:+ dq +:+ "NTConnectionInfo" +:+ dq +:+ "," +:+
  dq +:+ "source" +:+ dq +:+ ":" +:+ dq +:+ "NT" +:+ dq +:+ "}".

Definition StartDataLog (lg : Z) (name : string) : CM Z :=
  let* now := Now in
  let* s := get in
  let entry := length (filter (fun c => is_start c = true) (c_logs s)) in
  log (CLogStart lg name metadata_text "json" now) ;;
  let '(k, m) := hm_Add kConnectionDataLogger kThreshold (c_inst s)
                   (fun h => MkConnLogger h entry) (c_dataloggers s) in
  modify (fun s => s <| c_dataloggers := m |>) ;;
  let* d := deref (hm_at m k) in
  for_each (connections s) (fun info =>
    let* text := deref (ConnInfoToJson true info) in
    log (CLogAppend (cd_entry d) text now)) ;;
  ret (cd_handle d).

Definition StopDataLog (logger : Z) : CM unit :=
  let* s := get in
  let '(o, m) := hm_Remove kConnectionDataLogger logger (c_dataloggers s) in
  modify (fun s => s <| c_dataloggers := m |>) ;;
  match o with
  | None => skip
  | Some d => let* now := Now in log (CLogFinish (cd_entry d) now)
  end.
End ConnectionList.

(** * ConnectionProofs: the connection list is a finite map

    The connection list implements a finite map from handles to connections, for every
    lawful listener storage. *)

Local Open Scope Z_scope.

Section Proofs.
Context {L : Type} `{IListenerStorageLaws L} `{Env}.
Implicit Types (s : ConnectionList (L := L)) (m : gmap nat ConnectionInfo).

(** ** The abstract list *)

Inductive conn_op :=
| OAdd (info : ConnectionInfo)
| ORemove (handle : nat)
| OClear
| OAddListener (listener mask : Z)
| OStartDataLog (log : Z) (name : string)
| OStopDataLog (logger : Z).

Definition conn_run (op : conn_op) : M ConnectionList (option nat) :=
  match op with
  | OAdd info => let* k := AddConnection info in ret (Some k)
  | ORemove k => RemoveConnection k ;; ret None
  | OClear => ClearConnections ;; ret None
  | OAddListener l mask => AddListener l mask ;; ret None
  | OStartDataLog lg name => StartDataLog lg name ;; ret None
  | OStopDataLog h => StopDataLog h ;; ret None
  end.

(** A new connection gets a handle that is not in use. *)
Inductive conn_step : conn_op -> gmap nat ConnectionInfo -> option nat ->
    gmap nat ConnectionInfo -> Prop :=
| step_add info m k : m !! k = None -> conn_step (OAdd info) m (Some k) (<[k := info]> m)
| step_remove k m : conn_step (ORemove k) m None (delete k m)
| step_clear m : conn_step OClear m None ∅
| step_listener l mask m : conn_step (OAddListener l mask) m None m
| step_start lg name m : conn_step (OStartDataLog lg name) m None m
| step_stop h m : conn_step (OStopDataLog h) m None m.

(** The strings of a connection are UTF-8. *)
Definition valid_info (info : ConnectionInfo) : bool := bool_decide (is_Some (ConnInfoToJson true info)).

(** ** The invariant and the abstraction *)

Record conn_inv s : Prop := {
  ci_inst : 0 <= c_inst s;
  ci_storage : il_ok (c_storage s);
  ci_connections : hm_ok (c_connections s);
  ci_loggers : table (c_inst s) kConnectionDataLogger cd_handle (c_dataloggers s);
  ci_connected : c_connected s = negb (uid_empty (c_connections s));
  ci_valid : forall k info, hm_at (c_connections s) k = Some info -> valid_info info = true;
}.

Definition conn_abs s m : Prop := forall k, hm_at (c_connections s) k = m !! k.

Definition conn_permitted (op : conn_op) s : Prop :=
  match op with
  | OAdd info => valid_info info = true
  | OStartDataLog _ _ => room (c_dataloggers s)
  | _ => True
  end.

(** ** Steps *)

(** Nothing has changed but the listener storage, the clock and the data logs. *)
Definition logged s s' : Prop :=
  il_ok (c_storage s') /\
  s' = s <| c_storage := c_storage s' |> <| c_clock := c_clock s' |> <| c_logs := c_logs s' |>.

Lemma logged_refl s : il_ok (c_storage s) -> logged s s.
Proof. intros Hok. split; [done|by destruct s]. Qed.
Lemma logged_trans s1 s2 s3 : logged s1 s2 -> logged s2 s3 -> logged s1 s3.
Proof. intros [? E1] [? E2]. split; [done|]. rewrite E2, E1. done. Qed.

Lemma run_storage (m : M L unit) s :
  wp m (fun _ l => il_ok l) (c_storage s) -> wp (storage m) (fun _ s' => logged s s') s.
Proof.
  intros (? & l & Hr & Hl)%wp_run. unfold storage, wp. rewrite Hr. by split.
Qed.

Lemma run_conn_notify hs flags infos s :
  il_ok (c_storage s) ->
  wp (storage (il_Notify_connections hs flags infos)) (fun _ s' => logged s s') s.
Proof.
  intros Hok. apply run_storage. eapply wp_mono; [by apply il_connections_ok|]. by intros [] l [? _].
Qed.

Lemma valid_any b info : valid_info info = true -> is_Some (ConnInfoToJson b info).
Proof.
  intros Hv%bool_decide_eq_true_1. unfold ConnInfoToJson in *.
  destruct (dump_escaped (bytes_of_string (remote_id info)) false); [|by destruct Hv].
  destruct (dump_escaped (bytes_of_string (remote_ip info)) false); [|by destruct Hv]. by eexists.
Qed.

Lemma run_log c s : il_ok (c_storage s) -> wp (log c) (fun _ s' => logged s s') s.
Proof. intros Hok. unfold log. wp_step. split; [done|by destruct s]. Qed.

Lemma run_Now s : il_ok (c_storage s) -> wp Now (fun _ s' => logged s s') s.
Proof. intros Hok. unfold Now. repeat wp_step. split; [done|by destruct s]. Qed.

Lemma run_log_connection b info s :
  il_ok (c_storage s) -> valid_info info = true ->
  wp (log_connection b info) (fun _ s' => logged s s') s.
Proof.
  intros Hok Hv. unfold log_connection. wp_step. wp_step.
  wp_step; intros _; [|by apply logged_refl]. wp_step. eapply wp_mono; [by apply run_Now|].
  intros now s1 Hl1. apply (wp_for_each_inv _ _ (logged s)); [done| |done].
  intros k s2 [d Hd]%elem_of_hm_live Hl2. wp_step. wp_step; [exact Hd|].
  destruct (valid_any b info Hv) as [text Ht]. wp_step. wp_step; [exact Ht|].
  eapply wp_mono; [apply run_log, Hl2|]. intros [] s3 Hl3. by eapply logged_trans.
Qed.

Lemma logged_inv s s' : logged s s' -> conn_inv s -> conn_inv s'.
Proof.
  intros [Hok E] []. rewrite E. by split; try done; rewrite E in Hok.
Qed.
Lemma logged_abs s s' m : logged s s' -> conn_abs s m -> conn_abs s' m.
Proof. intros [_ E] Ha k. rewrite E. apply Ha. Qed.

Lemma conn_abs_empty s m : conn_inv s -> conn_abs s m -> c_connected s = bool_decide (m <> ∅).
Proof.
  intros Hi Ha. rewrite (ci_connected _ Hi). apply eq_true_iff_eq.
  rewrite bool_decide_eq_true, negb_true_iff, <- not_true_iff_false.
  rewrite (uid_empty_iff _ (ci_connections _ Hi)). apply not_iff_compat. split.
  - intros Hn. apply map_eq. intros k. by rewrite <- Ha, Hn, lookup_empty.
  - intros -> k. by rewrite Ha, lookup_empty.
Qed.

(** ** The simulation, operation by operation *)

Definition sim (op : conn_op) m (r : option nat) s' : Prop :=
  exists m', conn_step op m r m' /\ conn_inv s' /\ conn_abs s' m'.

Lemma sim_Add info s m :
  conn_inv s -> conn_abs s m -> valid_info info = true ->
  wp (conn_run (OAdd info)) (sim (OAdd info) m) s.
Proof.
  intros Hi Ha Hv. simpl. unfold AddConnection. repeat wp_step.
  eapply wp_mono; [apply run_conn_notify, Hi|]. intros [] s1 [Hok1 E1]. wp_step.
  eapply wp_mono; [by apply run_log_connection|]. intros [] s2 [Hok2 E2]. wp_step. wp_step. 
  destruct (uid_emplace_back _ _ _) as [k mm] eqn:Em. repeat wp_step.
  rewrite E2, E1 in Em. simpl in Em.
  destruct (emplace_ok _ _ _ _ _ (ci_connections _ Hi) Em) as (Hok & Hk & _ & _ & Hat).
  exists (<[k := info]> m). split; [constructor; by rewrite <- Ha|]. split.
  - destruct Hi. rewrite E2, E1. split; simpl; try done.
    + symmetry. apply negb_true_iff, not_true_iff_false.
      intros Hn. apply (uid_empty_iff _ Hok) with (i := k) in Hn. rewrite Hat, decide_True in Hn; done.
    + intros j info'. rewrite Hat. case_decide; [by intros [= <-]|by apply ci_valid0].
  - intros j. simpl. rewrite Hat. case_decide as Hj; [subst; by rewrite lookup_insert_eq|].
    rewrite lookup_insert_ne by done. apply Ha.
Qed.

(** Erasing a connection does not make the list non-empty. *)
Lemma erase_connected k s o mm :
  conn_inv s -> uid_erase k (c_connections s) = (o, mm) -> uid_empty mm = false ->
  c_connected s = true.
Proof.
  intros Hi Em Hn. rewrite (ci_connected _ Hi). apply negb_true_iff, not_true_iff_false. intros He.
  pose proof (uid_erase_spec _ _ _ _ (ci_connections _ Hi) Em) as Hs.
  destruct o as [v|]; [|destruct Hs; congruence]. destruct Hs as [Hk _].
  rewrite (proj1 (uid_empty_iff _ (ci_connections _ Hi)) He) in Hk. done.
Qed.

(** The state before the notification of a removal. *)
Lemma erase_inv k s m o mm :
  conn_inv s -> conn_abs s m -> uid_erase k (c_connections s) = (o, mm) ->
  let s1 := s <| c_connections := mm |> <| c_connected := negb (uid_empty mm) |> in
  conn_inv s1 /\ conn_abs s1 (delete k m) /\ forall info, o = Some info -> valid_info info = true.
Proof.
  intros Hi Ha Em s1. pose proof (uid_erase_spec _ _ _ _ (ci_connections _ Hi) Em) as Hs.
  destruct o as [v|].
  - destruct Hs as (Hk & Hok & _ & Hat). split_and!.
    + destruct Hi. split; simpl; try done. intros j info. rewrite Hat. case_decide; [done|apply ci_valid0].
    + intros j. simpl. rewrite Hat. case_decide as Hj; [subst; by rewrite lookup_delete_eq|].
      rewrite lookup_delete_ne by done. apply Ha.
    + intros info [= <-]. by eapply ci_valid.
  - destruct Hs as [-> Hk]. split_and!; [by destruct Hi| |done]. intros j.
    rewrite delete_id; [apply Ha|]. by rewrite <- Ha.
Qed.

Lemma sim_Remove k s m :
  conn_inv s -> conn_abs s m -> wp (conn_run (ORemove k)) (sim (ORemove k) m) s.
Proof.
  intros Hi Ha. simpl. unfold RemoveConnection. do 3 wp_step.
  destruct (uid_erase k (c_connections s)) as [o mm] eqn:Em.
  pose proof (erase_connected k s o mm Hi Em) as Hc.
  destruct (erase_inv k s m o mm Hi Ha Em) as (Hi1 & Ha1 & Hv).
  set (s1 := s <| c_connections := mm |> <| c_connected := negb (uid_empty mm) |>) in *.
  do 2 wp_step.
  assert (Es : when (uid_empty mm) (modify (fun s : ConnectionList => s <| c_connected := false |>))
                 (s <| c_connections := mm |>) = Some (tt, s1)).
  { subst s1. unfold when. destruct (uid_empty mm); [done|]. specialize (Hc eq_refl).
    unfold skip, ret. by destruct s; simpl in *; subst. }
  apply wp_run. exists tt.
  assert (Hw : wp (match o with
    | Some info => storage (il_Notify_connections [] NT_EVENT_DISCONNECTED [info]) ;; log_connection false info
    | None => skip end) (fun _ s' => logged s1 s') s1).
  { destruct o as [info|]; [|apply wp_ret, logged_refl, Hi1]. apply wp_bind.
    eapply wp_mono; [apply run_conn_notify, Hi1|]. intros [] s2 HH2.
    eapply wp_mono; [apply run_log_connection; [apply HH2|by apply Hv]|]. intros [] s3 HH3.
    by eapply logged_trans. }
  apply wp_run in Hw as ([] & s' & Hr & Hl). exists s'. split.
  - by rewrite (bind_run _ _ _ _ _ Es), Hr.
  - apply wp_ret. exists (delete k m). split; [constructor|]. split; [by eapply logged_inv|by eapply logged_abs].
Qed.

Lemma elem_of_connections s info :
  info ∈ connections s <-> exists k, hm_at (c_connections s) k = Some info.
Proof.
  unfold connections. rewrite list_elem_of_omap. split; [naive_solver|].
  intros [k Hk]. exists k. split; [|done]. apply elem_of_hm_live. by eexists.
Qed.

Lemma connections_perm s m : conn_abs s m -> connections s ≡ₚ (map_to_list m).*2.
Proof.
  intros Ha. unfold connections. set (ks := hm_live (c_connections s)).
  assert (Hk : ks ≡ₚ (map_to_list m).*1).
  { apply NoDup_Permutation; [apply NoDup_hm_live|apply NoDup_fst_map_to_list|].
    intros k. unfold ks. rewrite elem_of_hm_live, Ha, list_elem_of_fmap. split.
    - intros [v Hv]. exists (k, v). by rewrite elem_of_map_to_list.
    - intros [[k' v] [-> Hv%elem_of_map_to_list]]. by eexists. }
  rewrite Hk. assert (Hl : forall l, (forall p, p ∈ l -> m !! p.1 = Some p.2) ->
    omap (hm_at (c_connections s)) l.*1 = l.*2).
  { induction l as [|[k v] l IH]; intros Hl; [done|]. simpl.
    rewrite Ha, (Hl (k, v) ltac:(set_solver) : m !! k = Some v). f_equal. apply IH. set_solver. }
  rewrite Hl; [done|]. by intros [k v] ?%elem_of_map_to_list.
Qed.

Lemma sim_Clear s m : conn_inv s -> conn_abs s m -> wp (conn_run OClear) (sim OClear m) s.
Proof.
  intros Hi Ha. simpl. unfold ClearConnections. do 6 wp_step.
  set (s0 := s <| c_connected := false |>). apply (wp_for_each_inv _ _ (logged s0)).
  - apply logged_refl, Hi.
  - intros info s1 _ HH1. eapply wp_mono; [apply run_conn_notify, HH1|]. intros [] s2 HH2.
    by eapply logged_trans.
  - intros s1 [Hok E]. do 2 wp_step. exists ∅. split; [constructor|]. split.
    + destruct Hi. rewrite E. split; simpl; try done; apply hm_empty_ok.
    + intros k. rewrite E. unfold hm_at. simpl. by rewrite lookup_empty.
Qed.

Lemma sim_AddListener l mask s m :
  conn_inv s -> conn_abs s m -> wp (conn_run (OAddListener l mask)) (sim (OAddListener l mask) m) s.
Proof.
  intros Hi Ha. simpl. unfold AddListener. do 2 wp_step.
  eapply wp_mono.
  { apply run_storage. eapply wp_mono; [apply il_Activate_ok, Hi|]. by intros [] l' [? _]. }
  intros [] s1 HH1. do 2 wp_step.
  assert (Hs : forall s', logged s1 s' -> wp (ret None) (sim (OAddListener l mask) m) s').
  { intros s' HH2. apply wp_ret. pose proof (logged_trans _ _ _ HH1 HH2) as HH3. exists m.
    split; [constructor|]. split; [by eapply logged_inv|by eapply logged_abs]. }
  wp_step; intros _; [|apply Hs, logged_refl, HH1].
  eapply wp_mono; [apply run_conn_notify, HH1|]. intros [] s2 HH2. by apply Hs.
Qed.
Lemma sim_StartDataLog lg name s m :
  conn_inv s -> conn_abs s m -> room (c_dataloggers s) ->
  wp (conn_run (OStartDataLog lg name)) (sim (OStartDataLog lg name) m) s.
Proof.
  intros Hi Ha Hroom. simpl. unfold StartDataLog. do 2 wp_step.
  eapply wp_mono; [apply run_Now, Hi|]. intros now s1 HH1. cbv beta in HH1. do 3 wp_step.
  eapply wp_mono; [apply run_log, HH1|]. intros [] s2 HH2.
  assert (Hi1 : conn_inv s1) by (by eapply logged_inv).
  assert (Hi2 : conn_inv s2) by (by eapply logged_inv).
  assert (Ha2 : conn_abs s2 m) by (eapply logged_abs; [done|]; by eapply logged_abs).
  destruct (hm_Add _ _ _ _ _) as [k mm] eqn:Em.
  destruct (table_Add _ _ cd_handle _ _ _ _ _ (ci_loggers _ Hi1)
    ltac:(destruct HH1 as [_ ->]; exact Hroom) Em ltac:(done)) as (Ht & _ & Hat).
  do 3 wp_step. wp_step; [by rewrite Hat, decide_True|].
  set (s3 := s2 <| c_dataloggers := mm |>).
  assert (Hi3 : conn_inv s3) by (destruct Hi2, HH2 as [_ E]; split; try done; unfold s3; by rewrite E).
  wp_step. apply (wp_for_each_inv _ _ (logged s3)); [apply logged_refl, Hi3| |].
  - intros info s4 [j Hj]%elem_of_connections HH4. wp_step.
    destruct (valid_any true info (ci_valid _ Hi1 _ _ Hj)) as [text Htx].
    wp_step; [exact Htx|]. eapply wp_mono; [apply run_log, HH4|].
    intros [] s5 HH5. by eapply logged_trans.
  - intros s4 HH4. do 2 wp_step. exists m. split; [constructor|].
    split; [by eapply logged_inv|by eapply logged_abs].
Qed.

Lemma sim_StopDataLog h s m :
  conn_inv s -> conn_abs s m -> wp (conn_run (OStopDataLog h)) (sim (OStopDataLog h) m) s.
Proof.
  intros Hi Ha. simpl. unfold StopDataLog. do 3 wp_step.
  destruct (hm_Remove _ _ _) as [o mm] eqn:Em.
  destruct (table_Remove _ _ cd_handle _ _ _ _ (ci_loggers _ Hi) Em) as [Ht _].
  do 2 wp_step. set (s1 := s <| c_dataloggers := mm |>).
  assert (Hi1 : conn_inv s1) by (by destruct Hi).
  assert (Hs : forall s', logged s1 s' -> wp (ret None) (sim (OStopDataLog h) m) s').
  { intros s' Hl. apply wp_ret. exists m. split; [constructor|].
    split; [by eapply logged_inv|by eapply logged_abs]. }
  destruct o as [d|]; [|apply wp_ret, Hs, logged_refl, Hi1]. wp_step.
  eapply wp_mono; [apply run_Now, Hi1|]. intros now s2 HH2. cbv beta in HH2.
  eapply wp_mono; [apply run_log, HH2|]. intros [] s3 HH3. by apply Hs, (logged_trans _ s2).
Qed.

Lemma sim_step op s m :
  conn_inv s -> conn_abs s m -> conn_permitted op s -> wp (conn_run op) (sim op m) s.
Proof.
  intros Hi Ha Hp. destruct op.
  - by apply sim_Add.
  - by apply sim_Remove.
  - by apply sim_Clear.
  - by apply sim_AddListener.
  - by apply sim_StartDataLog.
  - by apply sim_StopDataLog.
Qed.

Lemma conn_abs_exists s : exists m, conn_abs s m.
Proof.
  exists (omap id (map_seq 0 (m_vector (c_connections s)))). intros k. unfold hm_at.
  rewrite lookup_omap, lookup_map_seq_0. by destruct (_ !! k).
Qed.

Lemma conn_run_safe op s :
  conn_inv s -> conn_permitted op s -> wp (conn_run op) (fun _ s' => conn_inv s') s.
Proof.
  intros Hi Hp. destruct (conn_abs_exists s) as [m Ha].
  eapply wp_mono; [by apply sim_step|]. by intros r s' (m' & _ & Hi' & _).
Qed.

(** ** The theorem *)

(** C35. The connection list refines a finite map from handles to connections, whichever
    lawful listener storage it notifies, as long as the strings of the connections that are
    added are UTF-8 and data logs are started while there is room for their handles: every
    such call runs to the end, a new connection gets a handle that is not in use, a removal
    deletes that entry and nothing else, a clear deletes all; afterwards [IsConnected] says
    whether the map is not empty and [GetConnections] returns exactly its connections.  (With
    other strings [AddConnection] throws between setting the flag and storing the
    connection.) *)
Theorem connection_list_refines_map (op : conn_op) (s : ConnectionList (L := L)) (m : gmap nat ConnectionInfo) :
  conn_inv s -> conn_abs s m -> conn_permitted op s ->
  exists r s' m',
    conn_run op s = Some (r, s') /\ conn_step op m r m' /\ conn_inv s' /\ conn_abs s' m' /\
    IsConnected s' = Some (bool_decide (m' <> ∅), s') /\
    exists infos, GetConnections s' = Some (infos, s') /\ infos ≡ₚ (map_to_list m').*2.
Proof.
  intros Hi Ha Hp. destruct (proj1 (wp_run _ _ _) (sim_step op s m Hi Ha Hp)) as (r & s' & Hr & m' & Hs & Hi' & Ha').
  exists r, s', m'. split_and!; [done|done|done|done| |].
  - unfold IsConnected, gets. by rewrite (conn_abs_empty s' m').
  - exists (connections s'). split; [done|]. by apply connections_perm.
Qed.
End Proofs.

(** ** With the listener storage of the library *)

Module ConnExample.
#[export] Instance clock : Env :=
  {| env_Now n := Z.of_nat n; env_DataLogStart n := Z.of_nat n; env_cast_ub z := z |}.

Definition alice : ConnectionInfo := MkConnectionInfo "alice" "10.0.0.2" 5810 7 1024.
Definition bob : ConnectionInfo := MkConnectionInfo "bob" "10.0.0.3" 5810 8 1024.

(** A storage with a polled listener for connections *)
Definition listeners : ListenerStorage :=
  let calls := [LCreateListenerPoller; LAddListener (ListenerExample.poller_h 0);
    LActivate (ListenerExample.listener_h 0) NT_EVENT_CONNECTION None] in
  match for_each calls lrun (ListenerStorage_make 1) with Some (_, s) => s | None => ListenerStorage_make 1 end.
Lemma listeners_Inv : Inv listeners.
Proof.
  unfold listeners. set (calls := [_; _; _]).
  destruct (lruns_safe calls (ListenerStorage_make 1)) as (s & Hr & HI);
    [by apply Inv_make|vm_compute; reflexivity|]. by rewrite Hr.
Qed.

Lemma make_inv : conn_inv (ConnectionList_make 1 listeners).
Proof.
  split; [by simpl|apply listeners_Inv|apply hm_empty_ok|by apply table_empty|done|].
  by intros k info.
Qed.
Lemma make_abs : conn_abs (ConnectionList_make 1 listeners) ∅.
Proof. intros k. unfold hm_at. simpl. by rewrite lookup_empty. Qed.
End ConnExample.
Import ConnExample.

Lemma connection_list_refines_map_witness :
  exists r s' m',
    conn_run (OAdd alice) (ConnectionList_make 1 listeners) = Some (r, s') /\
    conn_step (OAdd alice) ∅ r m' /\ conn_inv s' /\ conn_abs s' m' /\
    IsConnected s' = Some (bool_decide (m' <> ∅), s') /\
    exists infos, GetConnections s' = Some (infos, s') /\ infos ≡ₚ (map_to_list m').*2.
Proof.
  apply connection_list_refines_map; [apply make_inv|apply make_abs|vm_compute; reflexivity].
Defined.
