(* ===== verification/Logger.v ===== *)
(** * Logger: log messages and their listeners

    [wpi::Logger] of [wpiutil] and [LoggerImpl] of [LoggerImpl.cpp].  The listener
    storage is any implementation of [IListenerStorage]; [printed] is what has been
    written to the standard error stream. *)

From S2P Require Import Prelude NtTypes Handles Monads LocalTypes Events.
Local Open Scope Z_scope.

(** ** Levels *)

Definition WPI_LOG_CRITICAL : Z := 50.
Definition WPI_LOG_ERROR : Z := 40.
Definition WPI_LOG_WARNING : Z := 30.
Definition WPI_LOG_INFO : Z := 20.
Definition WPI_LOG_DEBUG : Z := 10.
Definition WPI_LOG_DEBUG1 : Z := 9.
Definition WPI_LOG_DEBUG2 : Z := 8.
Definition WPI_LOG_DEBUG3 : Z := 7.
Definition WPI_LOG_DEBUG4 : Z := 6.

Definition kFlagCritical : Z := Z.shiftl 1 16.
Definition kFlagError : Z := Z.shiftl 1 17.
Definition kFlagWarning : Z := Z.shiftl 1 18.
Definition kFlagInfo : Z := Z.shiftl 1 19.
Definition kFlagDebug : Z := Z.shiftl 1 20.
Definition kFlagDebug1 : Z := Z.shiftl 1 21.
Definition kFlagDebug2 : Z := Z.shiftl 1 22.
Definition kFlagDebug3 : Z := Z.shiftl 1 23.
Definition kFlagDebug4 : Z := Z.shiftl 1 24.

Definition LevelToFlag (level : Z) : Z :=
  if WPI_LOG_CRITICAL <=? level then Z.lor NT_EVENT_LOGMESSAGE kFlagCritical
  else if WPI_LOG_ERROR <=? level then Z.lor NT_EVENT_LOGMESSAGE kFlagError
  else if WPI_LOG_WARNING <=? level then Z.lor NT_EVENT_LOGMESSAGE kFlagWarning
  else if WPI_LOG_INFO <=? level then Z.lor NT_EVENT_LOGMESSAGE kFlagInfo
  else if WPI_LOG_DEBUG <=? level then Z.lor NT_EVENT_LOGMESSAGE kFlagDebug
  else if WPI_LOG_DEBUG1 <=? level then Z.lor NT_EVENT_LOGMESSAGE kFlagDebug1
  else if WPI_LOG_DEBUG2 <=? level then Z.lor NT_EVENT_LOGMESSAGE kFlagDebug2
  else if WPI_LOG_DEBUG3 <=? level then Z.lor NT_EVENT_LOGMESSAGE kFlagDebug3
  else if WPI_LOG_DEBUG4 <=? level then Z.lor NT_EVENT_LOGMESSAGE kFlagDebug4
  else NT_EVENT_LOGMESSAGE.

Definition LevelsToEventMask (minLevel maxLevel : Z) : Z :=
  let add (level flag mask : Z) : Z :=
    if (minLevel <=? level) && (level <=? maxLevel) then Z.lor mask flag else mask in
  let mask := 0 in
  let mask := add WPI_LOG_CRITICAL kFlagCritical mask in
  let mask := add WPI_LOG_ERROR kFlagError mask in
  let mask := add WPI_LOG_WARNING kFlagWarning mask in
  let mask := add WPI_LOG_INFO kFlagInfo mask in
  let mask := add WPI_LOG_DEBUG kFlagDebug mask in
  let mask := add WPI_LOG_DEBUG1 kFlagDebug1 mask in
  let mask := add WPI_LOG_DEBUG2 kFlagDebug2 mask in
  let mask := add WPI_LOG_DEBUG3 kFlagDebug3 mask in
  let mask := add WPI_LOG_DEBUG4 kFlagDebug4 mask in
  if mask =? 0 then NT_EVENT_LOGMESSAGE else mask.

(** ** Text *)

Definition newline : string := string_of_bytes [u8 10].

(** What [DefaultLogger] prints, if anything *)
Definition DefaultLogger (level : Z) (file : string) (line : Z) (msg : string) : option string :=
  let text (levelmsg : string) : option string :=
    Some ("NT: " +:+ levelmsg +:+ ": " +:+ msg +:+ " (" +:+ file +:+ ":" +:+ pretty line +:+ ")" +:+ newline) in
  if level =? WPI_LOG_INFO then Some ("NT: " +:+ msg +:+ newline)
  else if WPI_LOG_CRITICAL <=? level then text "CRITICAL"
  else if WPI_LOG_ERROR <=? level then text "ERROR"
  else if WPI_LOG_WARNING <=? level then text "WARNING"
  else None.

(** [fs::path::filename] of a POSIX path: what follows the last slash *)
Fixpoint filename (path : string) : string :=
  match path with
  | EmptyString => EmptyString
  | String c rest =>
      if bool_decide (Ascii.ascii_of_nat 47 ∈ String.list_ascii_of_string path)
      then filename rest else path
  end.

(** ** [LoggerImpl] *)

Record ListenerLevels := MkLevels {
  lv_listener : Z;
  lv_minLevel : Z;
  lv_maxLevel : Z;
}.

Section LoggerImpl.
Context {L : Type} `{IListenerStorage L}.

Record LoggerImpl := MkLoggerImpl {
  lg_storage : L;
  m_listenerCount : Z;
  m_listenerLevels : list ListenerLevels;
  printed : list string;
}.
#[global] Instance eta_LoggerImpl : Eta LoggerImpl := fun s =>
  MkLoggerImpl (lg_storage s) (m_listenerCount s) (m_listenerLevels s) (printed s).

Definition LoggerImpl_make (storage : L) : LoggerImpl := MkLoggerImpl storage 0 [] [].

Definition lg_call (m : M L unit) : M LoggerImpl unit := fun s =>
  match m (lg_storage s) with
  | Some (_, l) => Some (tt, s <| lg_storage := l |>)
  | None => None
  end.

Definition AddListener (listener minLevel maxLevel : Z) : M LoggerImpl unit :=
  modify (fun s => s <| m_listenerCount ::= fun n => swrap 32 (n + 1) |>) ;;
  modify (fun s => s <| m_listenerLevels ::= fun l => l ++ [MkLevels listener minLevel maxLevel] |>) ;;
  lg_call (il_Activate listener (LevelsToEventMask minLevel maxLevel) (Some finish_log)).

Definition RemoveListener (listener : Z) : M LoggerImpl unit :=
  modify (fun s => s <| m_listenerCount ::= fun n => swrap 32 (n - 1) |>) ;;
  modify (fun s => s <| m_listenerLevels ::= filter (fun v => lv_listener v <> listener) |>).

Definition min_level_loop (levels : list ListenerLevels) : Z :=
  foldl (fun level v => if lv_minLevel v <? level then lv_minLevel v else level)
    WPI_LOG_INFO levels.
Definition GetMinLevel : M LoggerImpl Z := gets (fun s => min_level_loop (m_listenerLevels s)).

Definition Log (level : Z) (file : string) (line : Z) (msg : string) : M LoggerImpl unit :=
  let filename := filename file in
  let* s := get in
  if m_listenerCount s =? 0 then
    match DefaultLogger level filename line msg with
    | Some text => modify (fun s => s <| printed ::= fun l => l ++ [text] |>)
    | None => skip
    end
  else lg_call (il_Notify_log (LevelToFlag level) level filename line msg).

(** [wpi::Logger::DoLog], with a function set *)
Definition DoLog (min_level level : Z) (file : string) (line : Z) (msg : string)
  : M LoggerImpl unit :=
  if level <? min_level then skip else Log level file line msg.
End LoggerImpl.
Arguments LoggerImpl : clear implicits.

(** ** Levels and masks *)

(** The levels with a name *)
Definition levels : list (Z * Z) :=
  [(WPI_LOG_CRITICAL, kFlagCritical); (WPI_LOG_ERROR, kFlagError); (WPI_LOG_WARNING, kFlagWarning);
   (WPI_LOG_INFO, kFlagInfo); (WPI_LOG_DEBUG, kFlagDebug); (WPI_LOG_DEBUG1, kFlagDebug1);
   (WPI_LOG_DEBUG2, kFlagDebug2); (WPI_LOG_DEBUG3, kFlagDebug3); (WPI_LOG_DEBUG4, kFlagDebug4)].
