(* ===== verification/Instance.v ===== *)
(** * Instance: one instance of the library

    [InstanceImpl] of [InstanceImpl.cpp]: the local storage, the listener storage, the
    connection list and the logger of an instance, which share the listener storage,
    and its network mode.  The network server and clients are represented by what they
    are constructed with; [i_net] is the trace of the calls to them. *)

From S2P Require Import Prelude NtTypes Handles Monads LocalTypes LocalStorage Events.
From S2P Require Import ListenerStorage ConnectionList Logger.
Local Open Scope Z_scope.

Definition NT_NET_MODE_NONE : Z := 0x00.
Definition NT_NET_MODE_SERVER : Z := 0x01.
Definition NT_NET_MODE_CLIENT3 : Z := 0x02.
Definition NT_NET_MODE_CLIENT4 : Z := 0x04.
Definition NT_NET_MODE_STARTING : Z := 0x08.
Definition NT_NET_MODE_LOCAL : Z := 0x10.

Abbreviation Servers := (list (string * Z)).

Record NetworkServer := MkServer {
  sv_persistFilename : string;
  sv_listenAddress : string;
  sv_port3 : Z;
  sv_port4 : Z;
}.

(** [NetworkClient3] or [NetworkClient] *)
Record NetworkClient := MkClient {
  cl_v4 : bool;
  cl_identity : string;
}.

Inductive NetCall :=
| NewServer (server : NetworkServer)
| DeleteServer (server : NetworkServer)
| ServerFlushLocal
| ServerFlush
| NewClient (client : NetworkClient)
| DeleteClient (client : NetworkClient)
| ClientSetServers (servers : Servers)
| ClientDisconnect
| ClientStartDSClient (port : Z)
| ClientStopDSClient
| ClientFlushLocal
| ClientFlush.

(** ** Sharing the listener storage *)

(** A connection list and a logger without the storage they refer to, and with it *)
Definition conn_attach {L} (l : L) (c : ConnectionList (L := unit)) : ConnectionList (L := L) :=
  MkConnectionList (c_inst c) l (c_connected c) (c_connections c) (c_dataloggers c) (c_clock c) (c_logs c).
Definition conn_detach {L} (c : ConnectionList (L := L)) : ConnectionList (L := unit) :=
  MkConnectionList (c_inst c) tt (c_connected c) (c_connections c) (c_dataloggers c) (c_clock c) (c_logs c).
Definition logger_attach {L} (l : L) (g : LoggerImpl unit) : LoggerImpl L :=
  MkLoggerImpl l (m_listenerCount g) (m_listenerLevels g) (printed g).
Definition logger_detach {L} (g : LoggerImpl L) : LoggerImpl unit :=
  MkLoggerImpl tt (m_listenerCount g) (m_listenerLevels g) (printed g).

Section Instance.
Context {J : Type} `{Json J} `{Env}.

(** [i_out] is the trace of the calls of the local storage to the network, to signal
    objects and to data logs. *)
Record InstanceImpl := MkInstance {
  listenerStorage : ListenerStorage;
  logger_impl : LoggerImpl unit;
  logger_min_level : Z;
  connectionList : ConnectionList (L := unit);
  localStorage : LSImpl J;
  networkMode : Z;
  m_networkServer : option NetworkServer;
  m_networkClient : option NetworkClient;
  m_servers : Servers;
  m_serverTimeOffset : option Z;
  m_rtt2 : Z;
  i_out : list (Out J);
  i_net : list NetCall;
}.
#[global] Instance eta_InstanceImpl : Eta InstanceImpl := fun i =>
  MkInstance (listenerStorage i) (logger_impl i) (logger_min_level i) (connectionList i)
    (localStorage i) (networkMode i) (m_networkServer i) (m_networkClient i) (m_servers i)
    (m_serverTimeOffset i) (m_rtt2 i) (i_out i) (i_net i).

Abbreviation IM := (M InstanceImpl).

Definition InstanceImpl_make (inst : Z) : InstanceImpl :=
  MkInstance (ListenerStorage_make inst) (LoggerImpl_make tt) (min_level_loop [])
    (ConnectionList_make inst tt) (LSImpl_init inst) NT_NET_MODE_NONE None None [] None 0 [] [].

(** ** Calls to the components *)

Definition on_listeners {A} (m : M ListenerStorage A) : IM A := fun i =>
  match m (listenerStorage i) with
  | Some (a, l) => Some (a, i <| listenerStorage := l |>)
  | None => None
  end.

Definition on_connections {A} (m : M (ConnectionList (L := ListenerStorage)) A) : IM A := fun i =>
  match m (conn_attach (listenerStorage i) (connectionList i)) with
  | Some (a, c) => Some (a, i <| listenerStorage := c_storage c |> <| connectionList := conn_detach c |>)
  | None => None
  end.

Definition on_logger {A} (m : M (LoggerImpl ListenerStorage) A) : IM A := fun i =>
  match m (logger_attach (listenerStorage i) (logger_impl i)) with
  | Some (a, g) => Some (a, i <| listenerStorage := lg_storage g |> <| logger_impl := logger_detach g |>)
  | None => None
  end.

(** A call that the local storage has made: those to the listener storage are carried
    out.  None of them returns anything, so they can follow the call that makes them. *)
Definition deliver (o : Out J) : IM unit :=
  match o with
  | ListenerActivate listener mask subentry =>
      on_listeners (ListenerStorage.Activate listener mask (finish_subentry <$> subentry))
  | ListenerNotifyTopics handles flags infos =>
      on_listeners (ListenerStorage.Notify_topics handles flags infos)
  | ListenerNotifyValue handles flags topic subentry value =>
      on_listeners (ListenerStorage.Notify_value handles flags topic subentry value)
  | o => modify (fun i => i <| i_out ::= fun l => l ++ [o] |>)
  end.

Definition on_local {A} (m : M (LSImpl J) A) : IM A := fun i =>
  match m (localStorage i <| out := [] |>) with
  | Some (a, s) => (for_each (out s) deliver ;; ret a) (i <| localStorage := s |>)
  | None => None
  end.

Definition net (c : NetCall) : IM unit := modify (fun i => i <| i_net ::= fun l => l ++ [c] |>).

(** ** Operations *)

Definition set_mode (mode : Z) : IM unit := modify (fun i => i <| networkMode := mode |>).
Definition set_time (offset : option Z) (rtt2 : Z) : IM unit :=
  modify (fun i => i <| m_serverTimeOffset := offset |> <| m_rtt2 := rtt2 |>).

Definition StartLocal : IM unit :=
  let* i := get in
  if negb (networkMode i =? NT_NET_MODE_NONE) then skip else set_mode NT_NET_MODE_LOCAL.

Definition StopLocal : IM unit :=
  let* i := get in
  if negb (has_bits (networkMode i) NT_NET_MODE_LOCAL) then skip else set_mode NT_NET_MODE_NONE.

Definition StartServer (persistFilename listenAddress : string) (port3 port4 : Z) : IM unit :=
  let* i := get in
  if negb (networkMode i =? NT_NET_MODE_NONE) then skip else
  let server := MkServer persistFilename listenAddress port3 port4 in
  net (NewServer server) ;;
  modify (fun i => i <| m_networkServer := Some server |>) ;;
  set_mode (Z.lor NT_NET_MODE_SERVER NT_NET_MODE_STARTING) ;;
  on_listeners (NotifyTimeSync [] NT_EVENT_TIMESYNC 0 0 true) ;;
  set_time (Some 0) 0.

(** The function passed to the server, which calls it when it is ready *)
Definition server_ready : IM unit :=
  modify (fun i => i <| networkMode ::= fun m => Z.ldiff m NT_NET_MODE_STARTING |>).

(** Destruction of an object held by a [std::shared_ptr] *)
Definition delete_server (o : option NetworkServer) : IM unit :=
  match o with Some server => net (DeleteServer server) | None => skip end.
Definition delete_client (o : option NetworkClient) : IM unit :=
  match o with Some client => net (DeleteClient client) | None => skip end.

Definition StopServer : IM unit :=
  let* i := get in
  if negb (has_bits (networkMode i) NT_NET_MODE_SERVER) then skip else
  let server := m_networkServer i in
  modify (fun i => i <| m_networkServer := None |>) ;;
  set_mode NT_NET_MODE_NONE ;;
  on_listeners (NotifyTimeSync [] NT_EVENT_TIMESYNC 0 0 false) ;;
  set_time None 0 ;;
  delete_server server.

Definition start_client (client : NetworkClient) (mode : Z) : IM unit :=
  let* i := get in
  if negb (networkMode i =? NT_NET_MODE_NONE) then skip else
  net (NewClient client) ;;
  modify (fun i => i <| m_networkClient := Some client |>) ;;
  when (nonempty (m_servers i)) (net (ClientSetServers (m_servers i))) ;;
  set_mode mode.
Definition StartClient3 (identity : string) : IM unit :=
  start_client (MkClient false identity) NT_NET_MODE_CLIENT3.
Definition StartClient4 (identity : string) : IM unit :=
  start_client (MkClient true identity) NT_NET_MODE_CLIENT4.

(** The function passed to the client, which calls it with the time of the server *)
Definition time_sync (serverTimeOffset rtt2 : Z) (valid : bool) : IM unit :=
  on_listeners (NotifyTimeSync [] NT_EVENT_TIMESYNC serverTimeOffset rtt2 valid) ;;
  if valid then set_time (Some serverTimeOffset) rtt2 else set_time None 0.

(** [StopClient] releases the mutex while it destroys the client: the two locked parts.
    The first returns the pointer it has taken unless it returns early. *)
Definition StopClient_take : IM (option (option NetworkClient)) :=
  let* i := get in
  if negb (has_bits (networkMode i) (Z.lor NT_NET_MODE_CLIENT3 NT_NET_MODE_CLIENT4))
  then ret None else
  let client := m_networkClient i in
  modify (fun i => i <| m_networkClient := None |>) ;;
  set_mode NT_NET_MODE_NONE ;;
  ret (Some client).
Definition StopClient_finish : IM unit :=
  on_listeners (NotifyTimeSync [] NT_EVENT_TIMESYNC 0 0 false) ;;
  set_time None 0.
Definition StopClient : IM unit :=
  let* o := StopClient_take in
  match o with
  | None => skip
  | Some client => delete_client client ;; StopClient_finish
  end.

Definition SetServers (servers : Servers) : IM unit :=
  modify (fun i => i <| m_servers := servers |>) ;;
  let* i := get in
  match m_networkClient i with
  | Some _ => net (ClientSetServers servers)
  | None => skip
  end.

Definition GetServer : IM (option NetworkServer) := gets m_networkServer.
Definition GetClient : IM (option NetworkClient) := gets m_networkClient.
Definition GetServerTimeOffset : IM (option Z) := gets m_serverTimeOffset.

Definition NT_EVENT_TIMESYNC_IMMEDIATE : Z := Z.lor NT_EVENT_TIMESYNC NT_EVENT_IMMEDIATE.
Definition AddTimeSyncListener (listener eventMask : Z) : IM unit :=
  let eventMask := Z.land eventMask NT_EVENT_TIMESYNC_IMMEDIATE in
  on_listeners (ListenerStorage.Activate listener eventMask None) ;;
  let* i := get in
  match m_serverTimeOffset i with
  | Some offset =>
      when (Z.land eventMask NT_EVENT_TIMESYNC_IMMEDIATE =? NT_EVENT_TIMESYNC_IMMEDIATE)
        (on_listeners (NotifyTimeSync [listener] NT_EVENT_TIMESYNC_IMMEDIATE offset (m_rtt2 i) true))
  | None => skip
  end.

Definition Reset : IM unit :=
  let* i := get in
  delete_server (m_networkServer i) ;;
  modify (fun i => i <| m_networkServer := None |>) ;;
  delete_client (m_networkClient i) ;;
  modify (fun i => i <| m_networkClient := None |> <| m_servers := [] |>) ;;
  set_mode NT_NET_MODE_NONE ;;
  set_time None 0 ;;
  on_listeners ListenerStorage.Reset ;;
  on_local LocalStorage.Reset.

End Instance.
Arguments InstanceImpl : clear implicits.
