(* ===== verification/Api.v ===== *)
(** * Api: the functions of the library

    [ntcore_cpp.cpp]: every function finds the instance of a handle and calls one of its
    components.  [Library] holds the static data of the library: the table of
    instances, the default instance and the time that [SetNow] overrides. *)

From S2P Require Import Prelude NtTypes Handles Monads LocalTypes LocalStorage Events.
From S2P Require Import ListenerStorage ConnectionList Logger Instance.
Local Open Scope Z_scope.

Definition kNumInstances : nat := 16.

(** [nt::Now]: the time that was set, or the clock *)
Definition now_env (base : Env) (gNow : option Z) : Env := {|
  env_Now n := match gNow with Some t => t | None => env_Now (Env := base) n end;
  env_DataLogStart := env_DataLogStart (Env := base);
  env_cast_ub := env_cast_ub (Env := base);
|}.

Section Api.
Context {J : Type} `{Json J}.

Record Library := MkLibrary {
  s_default : Z;
  s_instances : list (option (InstanceImpl J));
  gNow : option Z;
}.
#[global] Instance eta_Library : Eta Library := fun l =>
  MkLibrary (s_default l) (s_instances l) (gNow l).

Definition Library_make : Library := MkLibrary (-1) (replicate kNumInstances None) None.

Abbreviation NM := (M Library).

(** ** The table of instances *)

Definition Get (inst : Z) (l : Library) : option (InstanceImpl J) :=
  if (inst <? 0) || (Z.of_nat kNumInstances <=? inst) then None
  else mjoin (s_instances l !! Z.to_nat inst).

(** The loop of [AllocImpl]: the first free slot, from [inst] on *)
Fixpoint free_slot (inst : nat) (slots : list (option (InstanceImpl J))) : option nat :=
  match slots with
  | [] => None
  | None :: _ => Some inst
  | Some _ :: slots => free_slot (S inst) slots
  end.

Definition AllocImpl : NM Z :=
  let* l := get in
  match free_slot 0 (s_instances l) with
  | Some k =>
      modify (fun l => l <| s_instances ::= <[k := Some (InstanceImpl_make (Z.of_nat k))]> |>) ;;
      ret (Z.of_nat k)
  | None => ret (-1)
  end.
Definition Alloc : NM Z := AllocImpl.

Definition GetDefaultIndex : NM Z :=
  let* l := get in
  if 0 <=? s_default l then ret (s_default l) else
  let* inst := AllocImpl in
  modify (fun l => l <| s_default := inst |>) ;;
  ret inst.

Definition Destroy (inst : Z) : NM unit :=
  if (inst <? 0) || (Z.of_nat kNumInstances <=? inst) then skip
  else modify (fun l => l <| s_instances ::= <[Z.to_nat inst := None]> |>).

Section Calls.
Context (base : Env).

(** A call of an instance, or the value [d] if there is none *)
Definition with_inst {A} (inst : Z) (d : A) (f : Env -> M (InstanceImpl J) A) : NM A := fun l =>
  match Get inst l with
  | None => Some (d, l)
  | Some i =>
      match f (now_env base (gNow l)) i with
      | Some (a, i) => Some (a, l <| s_instances ::= <[Z.to_nat inst := Some i]> |>)
      | None => None
      end
  end.

(** [if (auto ii = InstanceImpl::GetTyped(h, type))] and [GetHandle(h)] *)
Definition GetTyped {A} (h : Z) (type : HandleType) (d : A) (f : Env -> M (InstanceImpl J) A) : NM A :=
  with_inst (GetTypedInst type h) d f.
Definition GetHandle {A} (h : Z) (d : A) (f : Env -> M (InstanceImpl J) A) : NM A :=
  with_inst (GetInst h) d f.

(** ** Instances *)

Definition GetDefaultInstance : NM Z := let* i := GetDefaultIndex in ret (Handle i 0 kInstance).
Definition CreateInstance : NM Z := let* i := Alloc in ret (Handle i 0 kInstance).
Definition ResetInstance (inst : Z) : NM unit := GetTyped inst kInstance tt (fun _ => Instance.Reset).
Definition DestroyInstance (inst : Z) : NM unit :=
  let i := GetTypedInst kInstance inst in
  if i <? 0 then skip else Destroy i.
Definition GetInstanceFromHandle (handle : Z) : Z :=
  let type := GetType handle in
  if (HandleType_code kListener <=? type) && (type <? HandleType_code kPublisher + 1)
  then Handle (GetInst handle) 0 kInstance else 0.

(** ** Entries *)

Definition GetEntry_name (inst : Z) (name : string) : NM Z :=
  GetTyped inst kInstance 0 (fun _ => on_local (LocalStorage.GetEntry_name name)).
Definition GetEntryName (entry : Z) : NM string :=
  GetHandle entry EmptyString (fun _ => on_local (LocalStorage.GetEntryName entry)).
Definition GetEntryType (entry : Z) : NM NT_Type :=
  GetHandle entry NT_UNASSIGNED (fun _ => on_local (LocalStorage.GetEntryType entry)).
Definition GetEntryLastChange (subentry : Z) : NM Z :=
  GetHandle subentry 0 (fun _ => on_local (LocalStorage.GetEntryLastChange subentry)).
Definition GetEntryValue (subentry : Z) : NM Value :=
  GetHandle subentry Value_empty (fun _ => on_local (LocalStorage.GetEntryValue subentry)).
Definition SetDefaultEntryValue (entry : Z) (value : Value) : NM bool :=
  GetHandle entry false (fun _ => on_local (LocalStorage.SetDefaultEntryValue entry value)).
Definition SetEntryValue (entry : Z) (value : Value) : NM bool :=
  GetHandle entry false (fun _ => on_local (LocalStorage.SetEntryValue entry value)).
Definition SetEntryFlags (entry flags : Z) : NM unit :=
  GetHandle entry tt (fun _ => on_local (LocalStorage.SetEntryFlags entry flags)).
Definition GetEntryFlags (entry : Z) : NM Z :=
  GetHandle entry 0 (fun _ => on_local (LocalStorage.GetEntryFlags entry)).
Definition ReadQueueValue (subentry : Z) : NM (list Value) :=
  GetHandle subentry [] (fun _ => on_local (LocalStorage.ReadQueueValue subentry)).

(** ** Topics *)

Definition GetTopics_types (inst : Z) (prefix : string) (types : Z) : NM (list Z) :=
  GetTyped inst kInstance [] (fun _ => on_local (LocalStorage.GetTopics_types prefix types)).
Definition GetTopics_typeStrs (inst : Z) (prefix : string) (types : list string) : NM (list Z) :=
  GetTyped inst kInstance [] (fun _ => on_local (LocalStorage.GetTopics_typeStrs prefix types)).
Definition GetTopicInfo_types (inst : Z) (prefix : string) (types : Z) : NM (list TopicInfo) :=
  GetTyped inst kInstance [] (fun _ => on_local (LocalStorage.GetTopicInfo_types prefix types)).
Definition GetTopicInfo_typeStrs (inst : Z) (prefix : string) (types : list string)
  : NM (list TopicInfo) :=
  GetTyped inst kInstance [] (fun _ => on_local (LocalStorage.GetTopicInfo_typeStrs prefix types)).
Definition GetTopicInfo (topic : Z) : NM TopicInfo :=
  GetTyped topic kTopic TopicInfo_empty (fun _ => on_local (LocalStorage.GetTopicInfo_handle topic)).
Definition GetTopic (inst : Z) (name : string) : NM Z :=
  GetTyped inst kInstance 0 (fun _ => on_local (LocalStorage.GetTopic name)).
Definition GetTopicName (topic : Z) : NM string :=
  GetTyped topic kTopic EmptyString (fun _ => on_local (LocalStorage.GetTopicName topic)).
Definition GetTopicType (topic : Z) : NM NT_Type :=
  GetTyped topic kTopic NT_UNASSIGNED (fun _ => on_local (LocalStorage.GetTopicType topic)).
Definition GetTopicTypeString (topic : Z) : NM string :=
  GetTyped topic kTopic EmptyString (fun _ => on_local (LocalStorage.GetTopicTypeString topic)).
Definition SetTopicPersistent (topic : Z) (value : bool) : NM unit :=
  GetTyped topic kTopic tt (fun _ => on_local (LocalStorage.SetTopicPersistent topic value)).
Definition GetTopicPersistent (topic : Z) : NM bool :=
  GetTyped topic kTopic false (fun _ => on_local (LocalStorage.GetTopicPersistent topic)).
Definition SetTopicRetained (topic : Z) (value : bool) : NM unit :=
  GetTyped topic kTopic tt (fun _ => on_local (LocalStorage.SetTopicRetained topic value)).
Definition GetTopicRetained (topic : Z) : NM bool :=
  GetTyped topic kTopic false (fun _ => on_local (LocalStorage.GetTopicRetained topic)).
Definition GetTopicExists (handle : Z) : NM bool :=
  GetHandle handle false (fun _ => on_local (LocalStorage.GetTopicExists handle)).
Definition GetTopicProperty (topic : Z) (name : string) : NM J :=
  GetTyped topic kTopic jnull (fun _ => on_local (LocalStorage.GetTopicProperty topic name)).
Definition SetTopicProperty (topic : Z) (name : string) (value : J) : NM unit :=
  GetTyped topic kTopic tt (fun _ => on_local (LocalStorage.SetTopicProperty topic name value)).
Definition DeleteTopicProperty (topic : Z) (name : string) : NM unit :=
  GetTyped topic kTopic tt (fun _ => on_local (LocalStorage.DeleteTopicProperty topic name)).
Definition GetTopicProperties (topic : Z) : NM (json J) :=
  GetTyped topic kTopic JsonNull
    (fun _ => let* m := on_local (LocalStorage.GetTopicProperties topic) in ret (JsonObject m)).
Definition SetTopicProperties (topic : Z) (properties : json J) : NM bool :=
  GetTyped topic kTopic false (fun _ => on_local (LocalStorage.SetTopicProperties topic properties)).

(** ** Publishers, subscribers and entries *)

Definition Subscribe (topic : Z) (type : NT_Type) (typeStr : string) (options : PubSubOptions) : NM Z :=
  GetTyped topic kTopic 0 (fun _ => on_local (LocalStorage.Subscribe topic type typeStr options)).
Definition Unsubscribe (sub : Z) : NM unit :=
  GetTyped sub kSubscriber tt (fun _ => on_local (LocalStorage.Unsubscribe sub)).
Definition PublishEx (topic : Z) (type : NT_Type) (typeStr : string) (properties : json J)
    (options : PubSubOptions) : NM Z :=
  GetTyped topic kTopic 0
    (fun _ => on_local (LocalStorage.Publish topic type typeStr properties options)).
Definition Publish (topic : Z) (type : NT_Type) (typeStr : string) (options : PubSubOptions) : NM Z :=
  PublishEx topic type typeStr (JsonObject ∅) options.
Definition Unpublish (pubentry : Z) : NM unit :=
  GetHandle pubentry tt (fun _ => on_local (LocalStorage.Unpublish pubentry)).
Definition GetEntry (topic : Z) (type : NT_Type) (typeStr : string) (options : PubSubOptions) : NM Z :=
  GetTyped topic kTopic 0 (fun _ => on_local (LocalStorage.GetEntry_topic topic type typeStr options)).
Definition ReleaseEntry (entry : Z) : NM unit :=
  GetTyped entry kEntry tt (fun _ => on_local (LocalStorage.ReleaseEntry entry)).
Definition Release (pubsubentry : Z) : NM unit :=
  GetHandle pubsubentry tt (fun _ => on_local (LocalStorage.Release pubsubentry)).
Definition GetTopicFromHandle (pubsubentry : Z) : NM Z :=
  GetHandle pubsubentry 0 (fun _ => on_local (LocalStorage.GetTopicFromHandle pubsubentry)).
Definition SubscribeMultiple (inst : Z) (prefixes : list string) (options : PubSubOptions) : NM Z :=
  GetTyped inst kInstance 0 (fun _ => on_local (LocalStorage.SubscribeMultiple prefixes options)).
Definition UnsubscribeMultiple (sub : Z) : NM unit :=
  GetTyped sub kMultiSubscriber tt (fun _ => on_local (LocalStorage.UnsubscribeMultiple sub)).

(** ** Listeners *)

Abbreviation IM := (M (InstanceImpl J)).
Definition NT_EVENT_TOPIC_VALUE : Z := Z.lor NT_EVENT_TOPIC NT_EVENT_VALUE_ALL.

Definition set_min_level (level : Z) : IM unit := modify (fun i => i <| logger_min_level := level |>).

(** The loop of [CleanupListeners]; the result is [updateMinLevel]. *)
Fixpoint cleanup_loop (listeners : list (Z * Z)) (updateMinLevel : bool) : IM bool :=
  match listeners with
  | [] => ret updateMinLevel
  | (listener, mask) :: listeners =>
      when (has_bits mask NT_EVENT_TOPIC_VALUE) (on_local (LocalStorage.RemoveListener listener mask)) ;;
      if has_bits mask NT_EVENT_LOGMESSAGE
      then on_logger (Logger.RemoveListener listener) ;; cleanup_loop listeners true
      else cleanup_loop listeners updateMinLevel
  end.
Definition CleanupListeners (listeners : list (Z * Z)) : IM unit :=
  let* updateMinLevel := cleanup_loop listeners false in
  when updateMinLevel
    (let* level := on_logger GetMinLevel in set_min_level level).

Definition kUintMax : Z := 2 ^ 32 - 1.

Definition DoAddListener `{Env} (listener handle mask : Z) : IM unit :=
  if IsType kInstance handle then
    when (has_bits mask NT_EVENT_CONNECTION)
      (on_connections (ConnectionList.AddListener listener mask)) ;;
    when (has_bits mask NT_EVENT_LOGMESSAGE)
      (on_logger (Logger.AddListener listener WPI_LOG_INFO kUintMax)) ;;
    when (has_bits mask NT_EVENT_TIMESYNC) (AddTimeSyncListener listener mask)
  else
    when (has_bits mask NT_EVENT_TOPIC_VALUE)
      (on_local (LocalStorage.AddListener' listener handle mask)).

Definition CreateListenerPoller (inst : Z) : NM Z :=
  GetTyped inst kInstance 0 (fun _ => on_listeners ListenerStorage.CreateListenerPoller).
Definition DestroyListenerPoller (poller : Z) : NM unit :=
  GetTyped poller kListenerPoller tt (fun _ =>
    let* listeners := on_listeners (ListenerStorage.DestroyListenerPoller poller) in
    CleanupListeners listeners).
Definition ReadListenerQueue (poller : Z) : NM (list Event) :=
  GetTyped poller kListenerPoller [] (fun _ => on_listeners (ListenerStorage.ReadListenerQueue poller)).
Definition RemoveListener (listener : Z) : NM unit :=
  GetTyped listener kListener tt (fun _ =>
    let* listeners := on_listeners (ListenerStorage.RemoveListener listener) in
    CleanupListeners listeners).

Definition AddListener_prefixes (inst : Z) (prefixes : list string) (mask callback : Z) : NM Z :=
  GetTyped inst kInstance 0 (fun _ =>
    if has_bits mask NT_EVENT_TOPIC_VALUE then
      let* listener := on_listeners (AddListener_callback callback) in
      on_local (LocalStorage.AddListener listener prefixes mask) ;;
      ret listener
    else ret 0).
Definition AddListener (handle mask callback : Z) : NM Z :=
  GetHandle handle 0 (fun _ =>
    let* listener := on_listeners (AddListener_callback callback) in
    DoAddListener listener handle mask ;;
    ret listener).
Definition AddPolledListener_prefixes (poller : Z) (prefixes : list string) (mask : Z) : NM Z :=
  GetTyped poller kListenerPoller 0 (fun _ =>
    if has_bits mask NT_EVENT_TOPIC_VALUE then
      let* listener := on_listeners (ListenerStorage.AddListener poller) in
      on_local (LocalStorage.AddListener listener prefixes mask) ;;
      ret listener
    else ret 0).

(** [WPI_ERROR(ii->logger, ...)] *)
Definition error (line : Z) (text : string) : IM unit :=
  let* i := get in
  on_logger (DoLog (logger_min_level i) WPI_LOG_ERROR "ntcore_cpp.cpp" line text).

Definition AddPolledListener (poller handle mask : Z) : NM Z :=
  GetTyped poller kListenerPoller 0 (fun _ =>
    if negb (GetInst handle =? GetInst poller) then
      error 510 ("AddPolledListener(): trying to listen to handle " +:+ pretty handle +:+
        " (instance " +:+ pretty (GetInst handle) +:+ ") with poller " +:+ pretty poller +:+
        " (instance " +:+ pretty (GetInst poller) +:+
        "), ignored due to different instance") ;;
      ret 0
    else
      let* listener := on_listeners (ListenerStorage.AddListener poller) in
      DoAddListener listener handle mask ;;
      ret listener).

(** ** Time and types *)

Definition SetNow (timestamp : Z) : NM unit := modify (fun l => l <| gNow := Some timestamp |>).

Definition GetTypeFromString (typeString : string) : NT_Type :=
  if (typeString =? EmptyString)%string then NT_UNASSIGNED else StringToType typeString.
Definition GetStringFromType (type : NT_Type) : string :=
  if type_is type NT_UNASSIGNED then EmptyString else TypeToString type.

(** ** Data logs *)

Definition StartEntryDataLog (inst log : Z) (prefix logPrefix : string) : NM Z :=
  GetTyped inst kInstance 0 (fun _ => on_local (LocalStorage.StartDataLog log prefix logPrefix)).
Definition StopEntryDataLog (logger : Z) : NM unit :=
  GetTyped logger kDataLogger tt (fun _ => on_local (LocalStorage.StopDataLog logger)).
Definition StartConnectionDataLog (inst log : Z) (name : string) : NM Z :=
  GetTyped inst kInstance 0 (fun _ => on_connections (ConnectionList.StartDataLog log name)).
Definition StopConnectionDataLog (logger : Z) : NM unit :=
  GetTyped logger kConnectionDataLogger tt (fun _ => on_connections (ConnectionList.StopDataLog logger)).

(** ** Clients and servers *)

Definition GetNetworkMode (inst : Z) : NM Z := GetTyped inst kInstance 0 (fun _ => gets networkMode).
Definition StartLocal (inst : Z) : NM unit := GetTyped inst kInstance tt (fun _ => Instance.StartLocal).
Definition StopLocal (inst : Z) : NM unit := GetTyped inst kInstance tt (fun _ => Instance.StopLocal).
Definition StartServer (inst : Z) (persist_filename listen_address : string) (port3 port4 : Z) : NM unit :=
  GetTyped inst kInstance tt
    (fun _ => Instance.StartServer persist_filename listen_address port3 port4).
Definition StopServer (inst : Z) : NM unit := GetTyped inst kInstance tt (fun _ => Instance.StopServer).
Definition StartClient3 (inst : Z) (identity : string) : NM unit :=
  GetTyped inst kInstance tt (fun _ => Instance.StartClient3 identity).
Definition StartClient4 (inst : Z) (identity : string) : NM unit :=
  GetTyped inst kInstance tt (fun _ => Instance.StartClient4 identity).
Definition StopClient (inst : Z) : NM unit := GetTyped inst kInstance tt (fun _ => Instance.StopClient).
Definition SetServer (inst : Z) (servers : Servers) : NM unit :=
  GetTyped inst kInstance tt (fun _ => SetServers servers).

Definition team_servers (team port : Z) : Servers :=
  [("10." +:+ pretty (swrap 32 (team / 100)) +:+ "." +:+ pretty (swrap 32 (team mod 100)) +:+ ".2", port);
   ("172.22.11.2", port);
   ("roboRIO-" +:+ pretty team +:+ "-FRC.local", port);
   ("roboRIO-" +:+ pretty team +:+ "-FRC.lan", port);
   ("roboRIO-" +:+ pretty team +:+ "-FRC.frc-field.local", port)].
Definition SetServerTeam (inst team port : Z) : NM unit :=
  GetTyped inst kInstance tt (fun _ => SetServers (team_servers team port)).

(** A call to the client if there is one *)
Definition on_client (c : NetCall) : IM unit :=
  let* client := GetClient in
  match client with Some _ => net c | None => skip end.
(** A call to the client, or else one to the server *)
Definition on_network (c c' : NetCall) : IM unit :=
  let* client := GetClient in
  match client with
  | Some _ => net c
  | None => let* server := GetServer in match server with Some _ => net c' | None => skip end
  end.

Definition Disconnect (inst : Z) : NM unit :=
  GetTyped inst kInstance tt (fun _ => on_client ClientDisconnect).
Definition StartDSClient (inst port : Z) : NM unit :=
  GetTyped inst kInstance tt (fun _ => on_client (ClientStartDSClient port)).
Definition StopDSClient (inst : Z) : NM unit :=
  GetTyped inst kInstance tt (fun _ => on_client ClientStopDSClient).
Definition FlushLocal (inst : Z) : NM unit :=
  GetTyped inst kInstance tt (fun _ => on_network ClientFlushLocal ServerFlushLocal).
Definition Flush (inst : Z) : NM unit :=
  GetTyped inst kInstance tt (fun _ => on_network ClientFlush ServerFlush).

Definition GetConnections (inst : Z) : NM (list ConnectionInfo) :=
  GetTyped inst kInstance [] (fun _ => on_connections ConnectionList.GetConnections).
Definition IsConnected (inst : Z) : NM bool :=
  GetTyped inst kInstance false (fun _ =>
    let* i := get in
    if networkMode i =? NT_NET_MODE_LOCAL then ret true
    else on_connections ConnectionList.IsConnected).
Definition GetServerTimeOffset (inst : Z) : NM (option Z) :=
  GetTyped inst kInstance None (fun _ => Instance.GetServerTimeOffset).

(** ** Loggers *)

(** The minimum level is lowered to that of the new logger. *)
Definition lower_min_level (minLevel : Z) : IM unit :=
  let* i := get in
  when (minLevel <? logger_min_level i) (set_min_level minLevel).
Definition AddLogger (inst minLevel maxLevel func : Z) : NM Z :=
  GetTyped inst kInstance 0 (fun _ =>
    lower_min_level minLevel ;;
    let* listener := on_listeners (AddListener_callback func) in
    on_logger (Logger.AddListener listener minLevel maxLevel) ;;
    ret listener).
Definition AddPolledLogger (poller minLevel maxLevel : Z) : NM Z :=
  GetTyped poller kListenerPoller 0 (fun _ =>
    lower_min_level minLevel ;;
    let* listener := on_listeners (ListenerStorage.AddListener poller) in
    on_logger (Logger.AddListener listener minLevel maxLevel) ;;
    ret listener).
End Calls.
End Api.
Arguments Library : clear implicits.
