(* ===== verification/InstanceProofs.v ===== *)
(** * InstanceProofs: the invariant of an instance

    The components of an instance keep their invariants when they call each other,
    the network mode agrees with the network objects, and the minimum level of the
    logger is below that of every log listener. *)

From S2P Require Import Prelude NtTypes Handles Monads LocalTypes LocalStorage LocalShape.
From S2P Require Import LocalInv LocalOps LocalSafety.
From S2P Require Import Events ListenerStorage ListenerProofs ConnectionList.
From S2P Require Import Logger Instance.
Local Open Scope Z_scope.

Section Proofs.
Context {J : Type} `{Json J} `{Env}.
Implicit Types (i : InstanceImpl J).

(** ** The invariant *)

Definition mode_ok i : Prop :=
  match m_networkServer i, m_networkClient i with
  | None, None => networkMode i = NT_NET_MODE_NONE \/ networkMode i = NT_NET_MODE_LOCAL
  | Some _, None =>
      networkMode i = NT_NET_MODE_SERVER \/
      networkMode i = Z.lor NT_NET_MODE_SERVER NT_NET_MODE_STARTING
  | None, Some c => networkMode i = if cl_v4 c then NT_NET_MODE_CLIENT4 else NT_NET_MODE_CLIENT3
  | Some _, Some _ => False
  end.

Record inst_inv i : Prop := {
  ii_listeners : ListenerProofs.Inv (listenerStorage i);
  ii_conn : conn_inv (conn_attach (listenerStorage i) (connectionList i));
  ii_local : Good (shape (localStorage i));
  ii_levels : forall v, v ∈ m_listenerLevels (logger_impl i) -> logger_min_level i <= lv_minLevel v;
  ii_info : logger_min_level i <= WPI_LOG_INFO;
  ii_mode : mode_ok i;
}.

Lemma inst_inv_make inst : 0 <= inst -> inst_inv (InstanceImpl_make inst).
Proof.
  intros Hi. split; cbn; [by apply Inv_make| |by apply Good_init|by intros v ?%elem_of_nil|done|by left].
  split; [done|by apply Inv_make|apply hm_empty_ok|by apply table_empty|done|by intros k info].
Qed.

(** ** Calls to the components *)

Lemma conn_storage (l l' : ListenerStorage) c :
  conn_inv (conn_attach l c) -> ListenerProofs.Inv l' -> conn_inv (conn_attach l' c).
Proof. intros [] Hl. by split. Qed.

Lemma inst_inv_listeners i l :
  inst_inv i -> ListenerProofs.Inv l -> inst_inv (i <| listenerStorage := l |>).
Proof. intros [] Hl. split; try done. by eapply conn_storage. Qed.

Lemma wp_on_listeners {A} (m : M ListenerStorage A) Q i :
  inst_inv i -> wp m (fun a l => ListenerProofs.Inv l /\ (inst_inv (i <| listenerStorage := l |>) ->
    Q a (i <| listenerStorage := l |>))) (listenerStorage i) ->
  wp (on_listeners m) Q i.
Proof.
  intros HI (a & l & Hr & Hl & HQ)%wp_run. unfold on_listeners, wp. rewrite Hr.
  by apply HQ, inst_inv_listeners.
Qed.

(** The parts of an instance that a call to the listeners or to the local storage leaves
    alone *)
Definition same_rest i i' : Prop :=
  i' = i <| listenerStorage := listenerStorage i' |> <| localStorage := localStorage i' |>
         <| i_out := i_out i' |>.

Lemma same_rest_trans i1 i2 i3 : same_rest i1 i2 -> same_rest i2 i3 -> same_rest i1 i3.
Proof. unfold same_rest. intros E1 E2. rewrite E2, E1. done. Qed.

Lemma wp_deliver o i :
  inst_inv i -> wp (deliver o) (fun _ i' => inst_inv i' /\ same_rest i i' /\
    localStorage i' = localStorage i) i.
Proof.
  intros HI. pose proof (ii_listeners i HI) as HL.
  assert (Hl : forall m : M ListenerStorage unit,
    wp m (fun _ l => ListenerProofs.Inv l) (listenerStorage i) ->
    wp (on_listeners m) (fun _ i' => inst_inv i' /\ same_rest i i' /\ localStorage i' = localStorage i) i).
  { intros m Hm. apply wp_on_listeners; [done|]. eapply wp_mono; [exact Hm|]. intros [] l HL'.
    split; [done|]. intros HI'. split_and!; [done|by destruct i|done]. }
  destruct o; cbn [deliver]; try (wp_step; split_and!; [by destruct HI|by destruct i|done]).
  - apply Hl. eapply wp_mono; [by apply run_Activate|]. by intros [] l [? _].
  - apply Hl. eapply wp_mono; [by apply run_Notify_topics|]. intros [] l Hx. exact (pushed_Inv _ _ _ Hx HL).
  - apply Hl. eapply wp_mono; [by apply run_Notify_value|]. intros [] l Hx. exact (pushed_Inv _ _ _ Hx HL).
Qed.

Lemma wp_on_local {A} (m : M (LSImpl J) A) i :
  inst_inv i -> safe m (localStorage i <| out := [] |>) ->
  wp (on_local m) (fun _ i' => inst_inv i' /\ same_rest i i') i.
Proof.
  intros HI (a & s & Hr & HG)%wp_run. unfold on_local, wp. rewrite Hr.
  set (i1 := i <| localStorage := s |>).
  assert (HI1 : inst_inv i1) by (by destruct HI).
  enough (Hw : wp (for_each (out s) deliver ;; ret a) (fun _ i' => inst_inv i' /\ same_rest i i') i1) by done.
  wp_step. apply (wp_for_each_inv _ _ (fun i' => inst_inv i' /\ same_rest i i')).
  - split; [done|]. by destruct i.
  - intros o i2 _ [HI2 Hs2]. eapply wp_mono; [by apply wp_deliver|]. intros [] i3 (HI3 & Hs3 & _).
    split; [done|]. by eapply same_rest_trans.
  - intros i2 Hi2. by wp_step.
Qed.

Lemma wp_on_connections {A} (m : M (ConnectionList (L := ListenerStorage)) A) i :
  inst_inv i -> wp m (fun _ c => conn_inv c) (conn_attach (listenerStorage i) (connectionList i)) ->
  wp (on_connections m) (fun _ i' => inst_inv i' /\ localStorage i' = localStorage i) i.
Proof.
  intros HI (a & c & Hr & HC)%wp_run. unfold on_connections, wp. rewrite Hr. split; [|done].
  destruct HI. split; cbn; try done; [apply HC|]. by destruct c.
Qed.

Lemma wp_on_logger {A} (m : M (LoggerImpl ListenerStorage) A) Q i :
  wp m (fun a g => Q a (i <| listenerStorage := lg_storage g |> <| logger_impl := logger_detach g |>))
    (logger_attach (listenerStorage i) (logger_impl i)) ->
  wp (on_logger m) Q i.
Proof. intros (a & g & Hr & HQ)%wp_run. unfold on_logger, wp. by rewrite Hr. Qed.

(** ** Operations *)

(** No removed listener is in the list for time synchronisation. *)
Definition time_sync_ok i : bool :=
  forallb (fun k => bool_decide (is_Some (hm_at (m_listeners (listenerStorage i)) k)))
    (m_timeSyncListeners (listenerStorage i)).

Lemma wp_NotifyTimeSync hs flags off rtt2 valid i :
  inst_inv i -> (hs = [] -> time_sync_ok i = true) ->
  wp (on_listeners (NotifyTimeSync hs flags off rtt2 valid))
    (fun _ i' => exists l, ListenerProofs.Inv l /\ i' = i <| listenerStorage := l |>) i.
Proof.
  intros HI Ht. apply wp_on_listeners; [done|]. pose proof (ii_listeners i HI) as HL.
  assert (Hp : lpermitted (LNotifyTimeSync hs flags off rtt2 valid) (listenerStorage i) = true).
  { destruct hs; [by apply Ht|done]. }
  eapply wp_mono; [exact (lrun_safe _ _ HL Hp)|]. intros [] l HL'. split; [done|]. by exists l.
Qed.

(** An operation on the network mode changes nothing else but the listeners' queues. *)
Lemma inst_inv_mode i i' :
  inst_inv i -> ListenerProofs.Inv (listenerStorage i') -> mode_ok i' ->
  logger_impl i' = logger_impl i -> logger_min_level i' = logger_min_level i ->
  connectionList i' = connectionList i -> localStorage i' = localStorage i -> inst_inv i'.
Proof.
  intros [] HL Hm El Em Ec Es. split; [done|rewrite Ec; by eapply conn_storage|by rewrite Es| | |done].
  - rewrite El, Em. done.
  - by rewrite Em.
Qed.

Definition isafe {A} (m : M (InstanceImpl J) A) i : Prop := wp m (fun _ i' => inst_inv i') i.

Ltac mode_step HI :=
  apply (inst_inv_mode _ _ HI); cbn; try done; try apply (ii_listeners _ HI).

Lemma mode_none i :
  inst_inv i -> networkMode i = NT_NET_MODE_NONE -> m_networkServer i = None /\ m_networkClient i = None.
Proof.
  intros HI E. pose proof (ii_mode i HI) as Hm. unfold mode_ok in Hm. rewrite E in Hm.
  destruct (m_networkServer i), (m_networkClient i) as [c|]; try done.
  - by destruct Hm.
  - by destruct (cl_v4 c).
Qed.

Lemma isafe_StartLocal i : inst_inv i -> isafe StartLocal i.
Proof.
  intros HI. unfold isafe, StartLocal. do 2 wp_step.
  destruct (Z.eqb_spec (networkMode i) NT_NET_MODE_NONE) as [E|]; cbn [negb]; [|by wp_step].
  destruct (mode_none i HI E) as [Es Ec]. unfold set_mode. wp_step. mode_step HI.
  unfold mode_ok. cbn. rewrite Es, Ec. by right.
Qed.

Lemma isafe_StopLocal i : inst_inv i -> isafe StopLocal i.
Proof.
  intros HI. unfold isafe, StopLocal. do 2 wp_step.
  destruct (has_bits (networkMode i) NT_NET_MODE_LOCAL) eqn:E; cbn [negb]; [|by wp_step].
  unfold set_mode. wp_step. pose proof (ii_mode i HI) as Hm. mode_step HI. unfold mode_ok in *. cbn.
  destruct (m_networkServer i), (m_networkClient i) as [c|]; try done.
  - by destruct Hm as [Em|Em]; rewrite Em in E.
  - by destruct (cl_v4 c); rewrite Hm in E.
  - by left.
Qed.

Lemma isafe_StartServer f a p3 p4 i :
  inst_inv i -> time_sync_ok i = true -> isafe (StartServer f a p3 p4) i.
Proof.
  intros HI Ht. unfold isafe, StartServer. do 2 wp_step.
  destruct (Z.eqb_spec (networkMode i) NT_NET_MODE_NONE) as [E|]; cbn [negb]; [|by wp_step].
  destruct (mode_none i HI E) as [_ Ec]. unfold net, set_mode, set_time. do 6 wp_step. wp_step.
  eapply wp_mono; [apply wp_NotifyTimeSync; [|done]|].
  - mode_step HI. unfold mode_ok. cbn. rewrite Ec. by right.
  - intros [] i' (l & HL & ->). wp_step. mode_step HI. unfold mode_ok. cbn. rewrite Ec. by right.
Qed.

Lemma isafe_server_ready i : inst_inv i -> isafe server_ready i.
Proof.
  intros HI. unfold isafe, server_ready. wp_step. mode_step HI. pose proof (ii_mode i HI) as Hm.
  unfold mode_ok in *. cbn. destruct (m_networkServer i), (m_networkClient i) as [c|]; try done.
  - destruct Hm as [->| ->]; by left.
  - rewrite Hm. by destruct (cl_v4 c).
  - destruct Hm as [->| ->]; [by left|by right].
Qed.

Lemma isafe_StopServer i : inst_inv i -> time_sync_ok i = true -> isafe StopServer i.
Proof.
  intros HI Ht. unfold isafe, StopServer. do 2 wp_step.
  destruct (has_bits (networkMode i) NT_NET_MODE_SERVER) eqn:E; cbn [negb]; [|by wp_step].
  pose proof (ii_mode i HI) as Hm. unfold set_mode, set_time. do 4 wp_step. wp_step.
  assert (Hc : m_networkClient i = None).
  { unfold mode_ok in Hm. destruct (m_networkServer i), (m_networkClient i) as [c|]; try done.
    by destruct (cl_v4 c); rewrite Hm in E. }
  eapply wp_mono; [apply wp_NotifyTimeSync; [|done]|].
  - mode_step HI. unfold mode_ok. cbn. rewrite Hc. by left.
  - intros [] i' (l & HL & ->). do 2 wp_step.
    destruct (m_networkServer i); cbn [delete_server]; unfold net; wp_step; mode_step HI;
      unfold mode_ok; cbn; rewrite Hc; by left.
Qed.

Lemma isafe_start_client c i :
  inst_inv i -> isafe (start_client c (if cl_v4 c then NT_NET_MODE_CLIENT4 else NT_NET_MODE_CLIENT3)) i.
Proof.
  intros HI. unfold isafe, start_client. do 2 wp_step.
  destruct (Z.eqb_spec (networkMode i) NT_NET_MODE_NONE) as [E|]; cbn [negb]; [|by wp_step].
  destruct (mode_none i HI E) as [Es _]. unfold net, set_mode. do 5 wp_step.
  wp_step; intros _; repeat wp_step; mode_step HI; unfold mode_ok; cbn; by rewrite Es.
Qed.

Lemma isafe_time_sync off rtt2 valid i :
  inst_inv i -> time_sync_ok i = true -> isafe (time_sync off rtt2 valid) i.
Proof.
  intros HI Ht. unfold isafe, time_sync, set_time. wp_step. eapply wp_mono; [by apply wp_NotifyTimeSync|].
  intros [] i' (l & HL & ->). destruct valid; wp_step; mode_step HI; apply (ii_mode i HI).
Qed.

Lemma isafe_StopClient_take i : inst_inv i -> isafe StopClient_take i.
Proof.
  intros HI. unfold isafe, StopClient_take. do 2 wp_step.
  destruct (has_bits (networkMode i) (Z.lor NT_NET_MODE_CLIENT3 NT_NET_MODE_CLIENT4)) eqn:E; cbn [negb]; [|by wp_step].
  pose proof (ii_mode i HI) as Hm. unfold set_mode. repeat wp_step. mode_step HI.
  unfold mode_ok in *. cbn. destruct (m_networkServer i), (m_networkClient i) as [c|]; try done; [|by left..].
  by destruct Hm as [Em|Em]; rewrite Em in E.
Qed.

Lemma isafe_StopClient_finish i : inst_inv i -> time_sync_ok i = true -> isafe StopClient_finish i.
Proof.
  intros HI Ht. unfold isafe, StopClient_finish, set_time. wp_step. eapply wp_mono; [by apply wp_NotifyTimeSync|].
  intros [] i' (l & HL & ->). wp_step. mode_step HI. apply (ii_mode i HI).
Qed.

Lemma isafe_SetServers servers i : inst_inv i -> isafe (SetServers servers) i.
Proof.
  intros HI. unfold isafe, SetServers, net. do 4 wp_step. destruct (m_networkClient _); wp_step;
    mode_step HI; apply (ii_mode i HI).
Qed.

Lemma StopClient_take_listeners i o i' :
  StopClient_take i = Some (o, i') -> listenerStorage i' = listenerStorage i.
Proof.
  unfold StopClient_take, bind, get, ret, set_mode, modify. destruct (negb _); intros Hr; by simplify_eq/=.
Qed.

Lemma isafe_StopClient i : inst_inv i -> time_sync_ok i = true -> isafe StopClient i.
Proof.
  intros HI Ht. unfold isafe, StopClient. wp_step.
  destruct (proj1 (wp_run _ _ _) (isafe_StopClient_take i HI)) as (o & i1 & Hr & HI1).
  apply wp_run. exists o, i1. split; [done|]. destruct o as [client|]; [|by wp_step].
  assert (Ht1 : forall c, wp (delete_client c) (fun _ i' => inst_inv i' /\ time_sync_ok i' = true) i1).
  { intros c. assert (Ht1 : time_sync_ok i1 = true)
      by (unfold time_sync_ok; by rewrite (StopClient_take_listeners i _ i1 Hr)).
    destruct c; cbn [delete_client]; unfold net; wp_step; [|done].
    split; [|done]. mode_step HI1. apply (ii_mode _ HI1). }
  wp_step. eapply wp_mono; [apply Ht1|]. intros [] i2 [HI2 Ht2]. by apply isafe_StopClient_finish.
Qed.

Lemma isafe_AddTimeSyncListener h mask i : inst_inv i -> isafe (AddTimeSyncListener h mask) i.
Proof.
  intros HI. unfold isafe, AddTimeSyncListener. wp_step. apply wp_on_listeners; [done|].
  eapply wp_mono; [apply run_Activate, (ii_listeners i HI)|]. intros [] l [HL _]. split; [done|]. intros HI1.
  do 2 wp_step. destruct (m_serverTimeOffset _); [|by wp_step]. wp_step; intros _; [|done].
  eapply wp_mono; [by apply wp_NotifyTimeSync|]. intros [] i' (l' & HL' & ->). by apply inst_inv_listeners.
Qed.

Lemma isafe_Reset i : inst_inv i -> isafe Reset i.
Proof.
  intros HI. unfold isafe, Reset, set_mode, set_time. do 3 wp_step.
  assert (Hs : forall o (j : InstanceImpl J), wp (delete_server o) (fun _ (j' : InstanceImpl J) => j' = j <| i_net := i_net j' |>) j).
  { intros o j. destruct o; cbn [delete_server]; unfold net; wp_step; by destruct j. }
  assert (Hc : forall o (j : InstanceImpl J), wp (delete_client o) (fun _ (j' : InstanceImpl J) => j' = j <| i_net := i_net j' |>) j).
  { intros o j. destruct o; cbn [delete_client]; unfold net; wp_step; by destruct j. }
  eapply wp_mono; [apply Hs|]. intros [] i1 ->. do 3 wp_step.
  eapply wp_mono; [apply Hc|]. intros [] i2 ->. do 6 wp_step. wp_step.
  apply wp_on_listeners; [mode_step HI; by left|]. eapply wp_mono; [apply run_Reset, (ii_listeners i HI)|].
  intros [] l HL. split; [done|]. intros HI3.
  eapply wp_mono; [apply wp_on_local; [done|]|by intros [] i' [? _]].
  unfold safe, LocalStorage.Reset. wp_step. apply Good_init, (ii_local _ HI3).
Qed.

(** ** The logger *)

Lemma min_level_loop_le levels x :
  foldl (fun level v => if lv_minLevel v <? level then lv_minLevel v else level) x levels <= x /\
  forall v, v ∈ levels ->
    foldl (fun level v => if lv_minLevel v <? level then lv_minLevel v else level) x levels <= lv_minLevel v.
Proof.
  revert x. induction levels as [|v levels IH]; intros x; cbn; [split; [lia|by intros v ?%elem_of_nil]|].
  destruct (IH (if lv_minLevel v <? x then lv_minLevel v else x)) as [H1 H2].
  destruct (Z.ltb_spec (lv_minLevel v) x); (split; [lia|]); intros w [->|Hw]%elem_of_cons; auto; lia.
Qed.

Lemma wp_Logger_AddListener h lo hi i :
  inst_inv i -> logger_min_level i <= lo ->
  isafe (on_logger (Logger.AddListener h lo hi)) i.
Proof.
  intros HI Hlo. unfold isafe. apply wp_on_logger. unfold Logger.AddListener, lg_call.
  do 4 wp_step. pose proof (run_Activate h (LevelsToEventMask lo hi) (Some finish_log) _ (ii_listeners i HI))
    as ([] & l & Hr & HL & _)%wp_run. unfold wp. cbn. cbn in Hr. rewrite Hr. destruct HI. split; cbn; try done.
  - by eapply conn_storage.
  - intros v [Hv|Hv%list_elem_of_singleton]%elem_of_app; [by apply ii_levels0|by subst].
Qed.

Lemma wp_Logger_RemoveListener h i : inst_inv i -> isafe (on_logger (Logger.RemoveListener h)) i.
Proof.
  intros HI. unfold isafe. apply wp_on_logger. unfold Logger.RemoveListener. do 3 wp_step.
  destruct HI. split; cbn; try done. intros v [_ Hv]%list_elem_of_filter. by apply ii_levels0.
Qed.

Lemma wp_Log min level file line msg i : inst_inv i -> isafe (on_logger (DoLog min level file line msg)) i.
Proof.
  intros HI. unfold isafe. apply wp_on_logger. unfold DoLog.
  destruct (level <? min); [wp_step; cbn; by destruct HI, i|]. unfold Log, lg_call. do 2 wp_step. cbn.
  destruct (m_listenerCount _ =? 0).
  - destruct (DefaultLogger _ _ _ _); wp_step; by destruct HI, i.
  - pose proof (run_Notify_log (LevelToFlag level) level (filename file) line msg _ (ii_listeners i HI))
      as ([] & l & Hr & Hx)%wp_run. unfold wp. cbn. cbn in Hr. rewrite Hr. cbn.
    pose proof (pushed_Inv _ _ _ Hx (ii_listeners i HI)). destruct HI. split; cbn; try done.
    by eapply conn_storage.
Qed.
End Proofs.
