(* ===== verification/ApiProofs.v ===== *)
(** * ApiProofs: the library as a whole

    Every sequence of calls of the library, interleaved with the steps of its network
    and callback threads, is safe and keeps the invariant of every instance. *)

From S2P Require Import Prelude NtTypes Handles Monads LocalTypes LocalStorage LocalShape.
From S2P Require Import LocalInv LocalOps LocalSafety.
From S2P Require Import Events ListenerStorage ListenerProofs ConnectionList.
From S2P Require Import Logger Instance.
From S2P Require Import InstanceProofs Api.
Local Open Scope Z_scope.

(** ** Calls *)

(** What the threads of the library do with an instance: the network announces topics,
    sets values, adds and removes connections, reports that the server is ready and
    what the time of the server is; any component logs; the callback thread runs. *)
Inductive internal (J : Type) :=
| INetwork (c : api J)
| IConnection (op : conn_op)
| IServerReady
| ITimeSync (offset rtt2 : Z) (valid : bool)
| ILog (level : Z) (file : string) (line : Z) (msg : string)
| IThreadRead
| IThreadNext.
Arguments INetwork {J} _.
Arguments IConnection {J} _.
Arguments IServerReady {J}.
Arguments ITimeSync {J} _ _ _.
Arguments ILog {J} _ _ _ _.
Arguments IThreadRead {J}.
Arguments IThreadNext {J}.

Section ApiProofs.
Context {J : Type} `{Json J} (base : Env).
Implicit Types (l : Library J) (i : InstanceImpl J).

Definition irun `{Env} (c : internal J) : M (InstanceImpl J) unit :=
  match c with
  | INetwork c => on_local (call c)
  | IConnection op => on_connections (conn_run op) ;; skip
  | IServerReady => server_ready
  | ITimeSync offset rtt2 valid => time_sync offset rtt2 valid
  | ILog level file line msg =>
      let* i := get in on_logger (DoLog (logger_min_level i) level file line msg)
  | IThreadRead => on_listeners Thread_read
  | IThreadNext => on_listeners Thread_next
  end.

Inductive ncall :=
| NGetEntryByName (inst : Z) (name : string)
| NGetEntryName (h : Z)
| NGetEntryType (h : Z)
| NGetEntryLastChange (h : Z)
| NGetEntryValue (h : Z)
| NSetDefaultEntryValue (h : Z) (value : Value)
| NSetEntryValue (h : Z) (value : Value)
| NSetEntryFlags (h flags : Z)
| NGetEntryFlags (h : Z)
| NReadQueueValue (h : Z)
| NGetTopicInfo (h : Z)
| NGetTopic (inst : Z) (name : string)
| NGetTopicName (h : Z)
| NGetTopicType (h : Z)
| NGetTopicTypeString (h : Z)
| NSetTopicPersistent (h : Z) (value : bool)
| NSetTopicRetained (h : Z) (value : bool)
| NGetTopicPersistent (h : Z)
| NGetTopicRetained (h : Z)
| NGetTopicProperty (h : Z) (name : string)
| NGetTopicExists (h : Z)
| NSetTopicProperty (h : Z) (name : string) (value : J)
| NDeleteTopicProperty (h : Z) (name : string)
| NSetTopicProperties (h : Z) (update : json J)
| NSubscribe (h : Z) (type : NT_Type) (typeStr : string) (options : PubSubOptions)
| NUnsubscribe (h : Z)
| NPublishEx (h : Z) (type : NT_Type) (typeStr : string) (properties : json J) (options : PubSubOptions)
| NUnpublish (h : Z)
| NGetEntry (h : Z) (type : NT_Type) (typeStr : string) (options : PubSubOptions)
| NReleaseEntry (h : Z)
| NRelease (h : Z)
| NGetTopicFromHandle (h : Z)
| NSubscribeMultiple (inst : Z) (prefixes : list string) (options : PubSubOptions)
| NUnsubscribeMultiple (h : Z)
| NStartEntryDataLog (inst log : Z) (prefix logPrefix : string)
| NStopEntryDataLog (h : Z)
| NGetDefaultInstance
| NCreateInstance
| NResetInstance (inst : Z)
| NDestroyInstance (inst : Z)
| NSetNow (time : Z)
| NCreateListenerPoller (inst : Z)
| NDestroyListenerPoller (h : Z)
| NReadListenerQueue (h : Z)
| NRemoveListener (h : Z)
| NAddListenerPrefixes (inst : Z) (prefixes : list string) (mask callback : Z)
| NAddListener (h mask callback : Z)
| NAddPolledListenerPrefixes (poller : Z) (prefixes : list string) (mask : Z)
| NAddPolledListener (poller h mask : Z)
| NStartConnectionDataLog (inst log : Z) (name : string)
| NStopConnectionDataLog (h : Z)
| NStartLocal (inst : Z)
| NStopLocal (inst : Z)
| NStartServer (inst : Z) (file address : string) (port3 port4 : Z)
| NStopServer (inst : Z)
| NStartClient3 (inst : Z) (identity : string)
| NStartClient4 (inst : Z) (identity : string)
| NStopClient (inst : Z)
| NSetServer (inst : Z) (servers : Servers)
| NSetServerTeam (inst team port : Z)
| NDisconnect (inst : Z)
| NFlush (inst : Z)
| NGetConnections (inst : Z)
| NIsConnected (inst : Z)
| NGetTopics (inst : Z) (prefix : string) (types : Z)
| NGetTopicsTypeStrs (inst : Z) (prefix : string) (types : list string)
| NGetTopicInfos (inst : Z) (prefix : string) (types : Z)
| NGetTopicInfosTypeStrs (inst : Z) (prefix : string) (types : list string)
| NGetTopicProperties (h : Z)
| NGetNetworkMode (inst : Z)
| NStartDSClient (inst port : Z)
| NStopDSClient (inst : Z)
| NFlushLocal (inst : Z)
| NGetServerTimeOffset (inst : Z)
| NAddLogger (inst minLevel maxLevel callback : Z)
| NAddPolledLogger (poller minLevel maxLevel : Z)
| NInternal (inst : Z) (c : internal J).

Definition nrun (c : ncall) : M (Library J) unit :=
  match c with
  | NGetEntryByName inst name => GetEntry_name base inst name ;; skip
  | NGetEntryName h => GetEntryName base h ;; skip
  | NGetEntryType h => GetEntryType base h ;; skip
  | NGetEntryLastChange h => GetEntryLastChange base h ;; skip
  | NGetEntryValue h => GetEntryValue base h ;; skip
  | NSetDefaultEntryValue h value => SetDefaultEntryValue base h value ;; skip
  | NSetEntryValue h value => SetEntryValue base h value ;; skip
  | NSetEntryFlags h flags => SetEntryFlags base h flags ;; skip
  | NGetEntryFlags h => GetEntryFlags base h ;; skip
  | NReadQueueValue h => ReadQueueValue base h ;; skip
  | NGetTopicInfo h => GetTopicInfo base h ;; skip
  | NGetTopic inst name => GetTopic base inst name ;; skip
  | NGetTopicName h => GetTopicName base h ;; skip
  | NGetTopicType h => GetTopicType base h ;; skip
  | NGetTopicTypeString h => GetTopicTypeString base h ;; skip
  | NSetTopicPersistent h value => SetTopicPersistent base h value ;; skip
  | NSetTopicRetained h value => SetTopicRetained base h value ;; skip
  | NGetTopicPersistent h => GetTopicPersistent base h ;; skip
  | NGetTopicRetained h => GetTopicRetained base h ;; skip
  | NGetTopicProperty h name => GetTopicProperty base h name ;; skip
  | NGetTopicExists h => GetTopicExists base h ;; skip
  | NSetTopicProperty h name value => SetTopicProperty base h name value ;; skip
  | NDeleteTopicProperty h name => DeleteTopicProperty base h name ;; skip
  | NSetTopicProperties h update => SetTopicProperties base h update ;; skip
  | NSubscribe h type typeStr options => Subscribe base h type typeStr options ;; skip
  | NUnsubscribe h => Unsubscribe base h ;; skip
  | NPublishEx h type typeStr properties options => PublishEx base h type typeStr properties options ;; skip
  | NUnpublish h => Unpublish base h ;; skip
  | NGetEntry h type typeStr options => GetEntry base h type typeStr options ;; skip
  | NReleaseEntry h => ReleaseEntry base h ;; skip
  | NRelease h => Release base h ;; skip
  | NGetTopicFromHandle h => GetTopicFromHandle base h ;; skip
  | NSubscribeMultiple inst prefixes options => SubscribeMultiple base inst prefixes options ;; skip
  | NUnsubscribeMultiple h => UnsubscribeMultiple base h ;; skip
  | NStartEntryDataLog inst log prefix logPrefix => StartEntryDataLog base inst log prefix logPrefix ;; skip
  | NStopEntryDataLog h => StopEntryDataLog base h ;; skip
  | NGetDefaultInstance => GetDefaultInstance ;; skip
  | NCreateInstance => CreateInstance ;; skip
  | NResetInstance inst => ResetInstance base inst ;; skip
  | NDestroyInstance inst => DestroyInstance inst ;; skip
  | NSetNow time => SetNow time ;; skip
  | NCreateListenerPoller inst => CreateListenerPoller base inst ;; skip
  | NDestroyListenerPoller h => DestroyListenerPoller base h ;; skip
  | NReadListenerQueue h => ReadListenerQueue base h ;; skip
  | NRemoveListener h => RemoveListener base h ;; skip
  | NAddListenerPrefixes inst prefixes mask callback => AddListener_prefixes base inst prefixes mask callback ;; skip
  | NAddListener h mask callback => AddListener base h mask callback ;; skip
  | NAddPolledListenerPrefixes poller prefixes mask => AddPolledListener_prefixes base poller prefixes mask ;; skip
  | NAddPolledListener poller h mask => AddPolledListener base poller h mask ;; skip
  | NStartConnectionDataLog inst log name => StartConnectionDataLog base inst log name ;; skip
  | NStopConnectionDataLog h => StopConnectionDataLog base h ;; skip
  | NStartLocal inst => StartLocal base inst ;; skip
  | NStopLocal inst => StopLocal base inst ;; skip
  | NStartServer inst file address port3 port4 => StartServer base inst file address port3 port4 ;; skip
  | NStopServer inst => StopServer base inst ;; skip
  | NStartClient3 inst identity => StartClient3 base inst identity ;; skip
  | NStartClient4 inst identity => StartClient4 base inst identity ;; skip
  | NStopClient inst => StopClient base inst ;; skip
  | NSetServer inst servers => SetServer base inst servers ;; skip
  | NSetServerTeam inst team port => SetServerTeam base inst team port ;; skip
  | NDisconnect inst => Disconnect base inst ;; skip
  | NFlush inst => Flush base inst ;; skip
  | NGetConnections inst => GetConnections base inst ;; skip
  | NIsConnected inst => IsConnected base inst ;; skip
  | NGetTopics inst prefix types => GetTopics_types base inst prefix types ;; skip
  | NGetTopicsTypeStrs inst prefix types => GetTopics_typeStrs base inst prefix types ;; skip
  | NGetTopicInfos inst prefix types => GetTopicInfo_types base inst prefix types ;; skip
  | NGetTopicInfosTypeStrs inst prefix types => GetTopicInfo_typeStrs base inst prefix types ;; skip
  | NGetTopicProperties h => GetTopicProperties base h ;; skip
  | NGetNetworkMode inst => GetNetworkMode base inst ;; skip
  | NStartDSClient inst port => StartDSClient base inst port ;; skip
  | NStopDSClient inst => StopDSClient base inst ;; skip
  | NFlushLocal inst => FlushLocal base inst ;; skip
  | NGetServerTimeOffset inst => GetServerTimeOffset base inst ;; skip
  | NAddLogger inst minLevel maxLevel callback => AddLogger base inst minLevel maxLevel callback ;; skip
  | NAddPolledLogger poller minLevel maxLevel => AddPolledLogger base poller minLevel maxLevel ;; skip
  | NInternal inst c => with_inst base inst tt (fun _ => irun c)
  end.

(** ** What is asked of the caller

    That no table of handles is full, that the parts of an entry are not released
    behind its back, that no time synchronisation is reported after a listener for it
    has been removed, and that the strings of connections are UTF-8. *)

Definition at_inst (inst : Z) l (p : InstanceImpl J -> bool) : bool :=
  match Get inst l with Some i => p i | None => true end.

Definition room_for_listener i : bool :=
  roomb (m_pollers (listenerStorage i)) && roomb (m_listeners (listenerStorage i)) &&
  has_room (localStorage i).

Definition ipermitted (c : internal J) i : bool :=
  match c with
  | INetwork c => permitted (localStorage i) c
  | IConnection (OAdd info) => valid_info info
  | IConnection (OStartDataLog _ _) => roomb (c_dataloggers (connectionList i))
  | ITimeSync _ _ _ => time_sync_ok i
  | _ => true
  end.

(** The instance and the call of a function that only calls the local storage *)
Definition local_call (c : ncall) : option (Z * api J) :=
  match c with
  | NGetEntryByName inst name => Some (GetTypedInst kInstance inst, CGetEntryByName name)
  | NGetEntryName h => Some (GetInst h, COfSubentry h EmptyString t_name)
  | NGetEntryType h => Some (GetInst h, COfSubentry h NT_UNASSIGNED t_type)
  | NGetEntryLastChange h => Some (GetInst h, COfSubentry h 0 (fun t => value_time (t_lastValue t)))
  | NGetEntryValue h => Some (GetInst h, CGetEntryValue h)
  | NSetDefaultEntryValue h value => Some (GetInst h, CSetDefaultEntryValue h value)
  | NSetEntryValue h value => Some (GetInst h, CSetEntryValue h value)
  | NSetEntryFlags h flags => Some (GetInst h, CSetEntryFlags h flags)
  | NGetEntryFlags h => Some (GetInst h, CGetEntryFlags h)
  | NReadQueueValue h => Some (GetInst h, CReadQueueValue h)
  | NGetTopicInfo h => Some (GetTypedInst kTopic h, COfTopic h TopicInfo_empty LocalStorage.GetTopicInfo)
  | NGetTopic inst name => Some (GetTypedInst kInstance inst, CGetTopic name)
  | NGetTopicName h => Some (GetTypedInst kTopic h, COfTopic h EmptyString t_name)
  | NGetTopicType h => Some (GetTypedInst kTopic h, COfTopic h NT_UNASSIGNED t_type)
  | NGetTopicTypeString h => Some (GetTypedInst kTopic h, COfTopic h EmptyString t_typeStr)
  | NSetTopicPersistent h value => Some (GetTypedInst kTopic h, CSetTopicPersistent h value)
  | NSetTopicRetained h value => Some (GetTypedInst kTopic h, CSetTopicRetained h value)
  | NGetTopicPersistent h => Some (GetTypedInst kTopic h, COfTopic h false (fun t => has_bits (t_flags t) NT_PERSISTENT))
  | NGetTopicRetained h => Some (GetTypedInst kTopic h, COfTopic h false (fun t => has_bits (t_flags t) NT_RETAINED))
  | NGetTopicProperty h name => Some (GetTypedInst kTopic h, COfTopic h jnull (fun t => default jnull (t_properties t !! name)))
  | NGetTopicExists h => Some (GetInst h, CGetTopicExists h)
  | NSetTopicProperty h name value => Some (GetTypedInst kTopic h, CSetTopicProperty h name value)
  | NDeleteTopicProperty h name => Some (GetTypedInst kTopic h, CDeleteTopicProperty h name)
  | NSetTopicProperties h update => Some (GetTypedInst kTopic h, CSetTopicProperties h update)
  | NSubscribe h type typeStr options => Some (GetTypedInst kTopic h, CSubscribe h type typeStr options)
  | NUnsubscribe h => Some (GetTypedInst kSubscriber h, CUnsubscribe h)
  | NPublishEx h type typeStr properties options => Some (GetTypedInst kTopic h, CPublish h type typeStr properties options)
  | NUnpublish h => Some (GetInst h, CUnpublish h)
  | NGetEntry h type typeStr options => Some (GetTypedInst kTopic h, CGetEntry h type typeStr options)
  | NReleaseEntry h => Some (GetTypedInst kEntry h, CReleaseEntry h)
  | NRelease h => Some (GetInst h, CRelease h)
  | NGetTopicFromHandle h => Some (GetInst h, CGetTopicFromHandle h)
  | NSubscribeMultiple inst prefixes options => Some (GetTypedInst kInstance inst, CSubscribeMultiple prefixes options)
  | NUnsubscribeMultiple h => Some (GetTypedInst kMultiSubscriber h, CUnsubscribeMultiple h)
  | NStartEntryDataLog inst log prefix logPrefix => Some (GetTypedInst kInstance inst, CStartDataLog log prefix logPrefix)
  | NStopEntryDataLog h => Some (GetTypedInst kDataLogger h, CStopDataLog h)
  | _ => None
  end.

Definition npermitted (c : ncall) (l : Library J) : bool :=
  match local_call c with
  | Some (inst, a) => at_inst inst l (fun i => permitted (localStorage i) a)
  | None =>
  match c with
  | NCreateListenerPoller inst => at_inst (GetTypedInst kInstance inst) l (fun i => roomb (m_pollers (listenerStorage i)))
  | NAddListenerPrefixes inst prefixes mask callback => at_inst (GetTypedInst kInstance inst) l room_for_listener
  | NAddListener h mask callback => at_inst (GetInst h) l room_for_listener
  | NAddPolledListenerPrefixes poller prefixes mask => at_inst (GetTypedInst kListenerPoller poller) l room_for_listener
  | NAddPolledListener poller h mask => at_inst (GetTypedInst kListenerPoller poller) l room_for_listener
  | NStartConnectionDataLog inst log name => at_inst (GetTypedInst kInstance inst) l (fun i => roomb (c_dataloggers (connectionList i)))
  | NStartServer inst file address port3 port4 => at_inst (GetTypedInst kInstance inst) l time_sync_ok
  | NStopServer inst => at_inst (GetTypedInst kInstance inst) l time_sync_ok
  | NStopClient inst => at_inst (GetTypedInst kInstance inst) l time_sync_ok
  | NAddLogger inst minLevel maxLevel callback => at_inst (GetTypedInst kInstance inst) l room_for_listener
  | NAddPolledLogger poller minLevel maxLevel => at_inst (GetTypedInst kListenerPoller poller) l room_for_listener
  | NInternal inst c => at_inst inst l (ipermitted c)
  | _ => true
  end end.

Fixpoint npermitted_all (cs : list ncall) l : bool :=
  match cs with
  | [] => true
  | c :: cs => npermitted c l && match nrun c l with Some (_, l') => npermitted_all cs l' | None => true end
  end.

(** ** The invariant *)

Record lib_inv l : Prop := {
  li_length : length (s_instances l) = kNumInstances;
  li_default : -1 <= s_default l < Z.of_nat kNumInstances;
  li_inst : forall k i, s_instances l !! k = Some (Some i) -> inst_inv i;
}.

Lemma lib_inv_make : lib_inv Library_make.
Proof.
  split; [done|cbn; lia|]. intros k i. cbn [s_instances Library_make]. by intros [[=] _]%lookup_replicate.
Qed.

Definition nsafe {A} (m : M (Library J) A) l : Prop := wp m (fun _ l' => lib_inv l') l.

Lemma nsafe_skip {A} (m : M (Library J) A) l : nsafe m l -> nsafe (m ;; skip) l.
Proof. intros Hm. unfold nsafe. wp_step. eapply wp_mono; [exact Hm|]. intros a l' HL. by wp_step. Qed.

Lemma Get_lookup inst l i : Get inst l = Some i -> s_instances l !! Z.to_nat inst = Some (Some i).
Proof.
  unfold Get. destruct (_ || _); [done|]. destruct (s_instances l !! _) as [[]|]; by intros [= ->].
Qed.

(** A call of an instance is safe if it keeps the invariant of the instance. *)
Lemma nsafe_with_inst {A} inst (d : A) f l :
  lib_inv l ->
  (forall i e, Get inst l = Some i -> inst_inv i -> isafe (f e) i) ->
  nsafe (with_inst base inst d f) l.
Proof.
  intros HL Hf. unfold nsafe, with_inst, wp. destruct (Get inst l) as [i|] eqn:Eg; [|done].
  pose proof (Get_lookup _ _ _ Eg) as Hk. pose proof (li_inst l HL _ _ Hk) as HI.
  destruct (proj1 (wp_run _ _ _) (Hf i (now_env base (gNow l)) eq_refl HI)) as (a & i' & Hr & HI'). rewrite Hr.
  destruct HL as [Hlen Hd Hin]. split; cbn; [by rewrite length_insert|done|].
  intros k j [(_ & [= <-] & _)|(_ & Hj)]%list_lookup_insert_Some; [done|by eapply Hin].
Qed.

Lemma safe_unskip {A} (m : M (LSImpl J) A) s : safe (m ;; skip) s -> safe m s.
Proof.
  unfold safe, wp, bind. destruct (m s) as [[a s']|]; [|done]. cbn. done.
Qed.

Lemma isafe_local `{Env} {A} (m : M (LSImpl J) A) i :
  inst_inv i -> safe m (localStorage i <| out := [] |>) -> isafe (on_local m) i.
Proof. intros HI Hs. eapply wp_mono; [by apply wp_on_local|]. by intros a i' [? _]. Qed.

Lemma call_safe_out `{Env} (c : api J) i :
  inst_inv i -> permitted (localStorage i) c = true -> safe (call c) (localStorage i <| out := [] |>).
Proof. intros HI Hp. apply call_safe; [apply (ii_local i HI)|done]. Qed.

(** Solves [isafe (on_local m) i] when [call c] is [m], or [m] followed by [skip]. *)
Ltac by_call c :=
  let Hs := fresh in
  apply isafe_local; [done|];
  pose proof (call_safe_out c _ ltac:(eassumption) ltac:(eassumption)) as Hs; cbn [call] in Hs;
  lazymatch type of Hs with
  | safe (bind _ (fun _ => skip)) _ => exact (safe_unskip _ _ Hs)
  | _ => exact Hs
  end.

Lemma nsafe_local c inst a l :
  lib_inv l -> local_call c = Some (inst, a) ->
  at_inst inst l (fun i => permitted (localStorage i) a) = true -> nsafe (nrun c) l.
Proof.
  intros HL Hc Hp. destruct c; cbn [local_call] in Hc; try discriminate Hc; injection Hc as <- <-; cbn [nrun];
    apply nsafe_skip; (apply nsafe_with_inst; [done|]); intros i e Hg HI;
    unfold at_inst in Hp; rewrite Hg in Hp;
    lazymatch type of Hp with permitted _ ?a = true => by_call a end.
Qed.

(** ** Listeners *)

Lemma isafe_on_listeners {A} (m : M ListenerStorage A) i :
  inst_inv i -> wp m (fun _ s => ListenerProofs.Inv s) (listenerStorage i) ->
  wp (on_listeners m) (fun _ i' => inst_inv i' /\ localStorage i' = localStorage i) i.
Proof.
  intros HI Hm. apply wp_on_listeners; [done|]. eapply wp_mono; [exact Hm|]. intros a s Hs.
  by split.
Qed.

Lemma isafe_lcall c i :
  inst_inv i -> lpermitted c (listenerStorage i) = true -> isafe (on_listeners (lrun c)) i.
Proof.
  intros HI Hp. eapply wp_mono; [apply isafe_on_listeners; [done|]|by intros [] i' [? _]].
  apply lrun_safe; [apply (ii_listeners i HI)|done].
Qed.

Lemma isafe_RemoveListener `{Env} h mask i :
  inst_inv i -> isafe (on_local (LocalStorage.RemoveListener h mask)) i.
Proof.
  intros HI. apply isafe_local; [done|].
  by apply (wp_RemoveListener_impl h (shape (localStorage i))); [apply (ii_local i HI)|].
Qed.

Lemma isafe_cleanup_loop `{Env} hs b i : inst_inv i -> isafe (cleanup_loop hs b) i.
Proof.
  unfold isafe. revert b i. induction hs as [|[h mask] hs IH]; intros b i HI; cbn [cleanup_loop]; [by wp_step|].
  wp_step. eapply (wp_mono _ (fun _ i' => inst_inv i')).
  { wp_step; intros _; [|done]. by apply isafe_RemoveListener. }
  intros [] i1 HI1. destruct (has_bits mask NT_EVENT_LOGMESSAGE); [|by apply IH].
  wp_step. eapply wp_mono; [by apply wp_Logger_RemoveListener|]. intros [] i2 HI2. by apply IH.
Qed.

Lemma isafe_CleanupListeners `{Env} hs i : inst_inv i -> isafe (CleanupListeners hs) i.
Proof.
  intros HI. unfold isafe, CleanupListeners. wp_step. eapply wp_mono; [by apply isafe_cleanup_loop|].
  intros b i1 HI1. wp_step; intros _; [|done]. wp_step. apply wp_on_logger. unfold GetMinLevel. wp_step.
  unfold set_min_level. wp_step.
  destruct (min_level_loop_le (m_listenerLevels (logger_impl i1)) WPI_LOG_INFO) as [Hle Hv].
  destruct HI1. split; cbn; try done.
Qed.

(** The calls of the connection list keep its invariant; [conn_run] adds a result. *)
Lemma conn_unret {A} (m : M (ConnectionList (L := ListenerStorage)) A) (r : A -> option nat) c :
  wp (let* a := m in ret (r a)) (fun _ c' => conn_inv c') c -> wp m (fun _ c' => conn_inv c') c.
Proof. unfold wp, bind. destruct (m c) as [[a c']|]; [|done]. cbn. done. Qed.

Lemma isafe_DoAddListener `{Env} h handle mask i :
  inst_inv i -> has_room (localStorage i) = true -> isafe (DoAddListener h handle mask) i.
Proof.
  intros HI Hr. unfold isafe, DoAddListener. destruct (IsType kInstance handle).
  - wp_step. eapply (wp_mono _ (fun _ i' => inst_inv i')).
    { wp_step; intros _; [|done]. eapply wp_mono; [apply wp_on_connections; [done|]|by intros [] i' [? _]].
      exact (conn_unret _ _ _ (conn_run_safe (OAddListener h mask) _ (ii_conn i HI) I)). }
    intros [] i1 HI1. wp_step. eapply (wp_mono _ (fun _ i' => inst_inv i')).
    { wp_step; intros _; [|done]. apply wp_Logger_AddListener; [done|apply (ii_info i1 HI1)]. }
    intros [] i2 HI2. wp_step; intros _; [|done]. by apply isafe_AddTimeSyncListener.
  - wp_step; intros _; [|done]. apply isafe_local; [done|].
    apply (wp_AddListener_handle _ _ _ (shape (localStorage i))); [apply (ii_local i HI)| |done].
    by apply (has_room_shape (localStorage i)).
Qed.

(** A new listener, then what is done with it *)
Lemma isafe_new_listener {A} (new : M ListenerStorage Z) (c : lcall) (k : Z -> M (InstanceImpl J) A) i :
  inst_inv i -> lrun c = (new ;; skip) -> lpermitted c (listenerStorage i) = true ->
  (forall h i', inst_inv i' -> localStorage i' = localStorage i ->
     logger_min_level i' = logger_min_level i -> isafe (k h) i') ->
  isafe (let* h := on_listeners new in k h) i.
Proof.
  intros HI Ec Hp Hk. unfold isafe. wp_step. apply wp_on_listeners; [done|].
  pose proof (lrun_safe c _ (ii_listeners i HI) Hp) as Hw. rewrite Ec in Hw. revert Hw. unfold wp, bind.
  destruct (new (listenerStorage i)) as [[h s]|]; [|done]. cbn. intros HS. split; [done|].
  intros HI1. by apply Hk.
Qed.

(** ** The table of instances *)

Lemma free_slot_lookup n slots k :
  free_slot (J := J) n slots = Some k -> (n <= k < n + length slots)%nat /\ slots !! (k - n)%nat = Some None.
Proof.
  revert n. induction slots as [|[i|] slots IH]; intros n; cbn [free_slot]; [done| |].
  - intros [Hr Hl]%IH. cbn. split; [lia|]. by replace (k - n)%nat with (S (k - S n)) by lia.
  - intros [= <-]. cbn. rewrite Nat.sub_diag. split; [lia|done].
Qed.

Lemma nsafe_AllocImpl l :
  lib_inv l -> wp AllocImpl (fun inst l' => lib_inv l' /\ -1 <= inst < Z.of_nat kNumInstances) l.
Proof.
  intros HL. unfold AllocImpl. do 2 wp_step.
  destruct (free_slot 0 (s_instances l)) as [k|] eqn:Ek; [|wp_step; split; [done|cbn; lia]].
  apply free_slot_lookup in Ek as [Hk _]. destruct HL as [Hlen Hd Hin]. rewrite Hlen in Hk.
  do 3 wp_step. split; [|lia]. split; cbn; [by rewrite length_insert|done|].
  intros j i [(_ & [= <-] & _)|(_ & Hj)]%list_lookup_insert_Some; [|by eapply Hin].
  apply inst_inv_make. lia.
Qed.

Lemma nsafe_GetDefaultIndex l : lib_inv l -> nsafe GetDefaultIndex l.
Proof.
  intros HL. unfold nsafe, GetDefaultIndex. do 2 wp_step. destruct (0 <=? s_default l); [by wp_step|].
  wp_step. eapply wp_mono; [by apply nsafe_AllocImpl|]. intros inst l' [[] Hr]. do 3 wp_step. by split.
Qed.

Lemma nsafe_Destroy inst l : lib_inv l -> nsafe (Destroy inst) l.
Proof.
  intros [Hlen Hd Hin]. unfold nsafe, Destroy. destruct (_ || _); wp_step; [done|].
  split; cbn; [by rewrite length_insert|done|].
  intros j i [(_ & [=] & _)|(_ & Hj)]%list_lookup_insert_Some. by eapply Hin.
Qed.

(** ** All calls *)

Lemma isafe_internal `{Env} c i : inst_inv i -> ipermitted c i = true -> isafe (irun c) i.
Proof.
  intros HI Hp. destruct c; cbn [irun ipermitted] in *.
  - apply isafe_local; [done|]. by apply call_safe_out.
  - unfold isafe. wp_step. eapply (wp_mono _ (fun _ i' => inst_inv i')); [|intros o i' HI'; by wp_step].
    eapply wp_mono; [apply wp_on_connections; [done|]|by intros o i' [? _]].
    apply conn_run_safe; [apply (ii_conn i HI)|]. destruct op; try done. by apply roomb_spec.
  - by apply isafe_server_ready.
  - by apply isafe_time_sync.
  - unfold isafe. do 2 wp_step. by apply wp_Log.
  - by apply (isafe_lcall LThreadRead).
  - by apply (isafe_lcall LThreadNext).
Qed.

Lemma isafe_ret {A} (m : M (InstanceImpl J) unit) (a : A) i : isafe m i -> isafe (m ;; ret a) i.
Proof. intros Hm. unfold isafe. wp_step. eapply wp_mono; [exact Hm|]. intros [] i' HI. by wp_step. Qed.

(** The four functions that add a listener for topics or values *)
Lemma isafe_AddListener_prefixes `{Env} h prefixes mask i :
  inst_inv i -> isafe (on_local (LocalStorage.AddListener h prefixes mask)) i.
Proof.
  intros HI. apply isafe_local; [done|].
  by apply (wp_AddListener_prefixes _ _ _ (shape (localStorage i))); [apply (ii_local i HI)|].
Qed.

Lemma isafe_lower_min_level {A} lo (k : M (InstanceImpl J) A) i :
  inst_inv i ->
  (forall i', inst_inv i' -> listenerStorage i' = listenerStorage i -> logger_min_level i' <= lo ->
     isafe k i') ->
  isafe (lower_min_level lo ;; k) i.
Proof.
  intros HI Hk. unfold isafe, lower_min_level. do 3 wp_step. wp_step; intros Hlt.
  - unfold set_min_level. wp_step. apply Z.ltb_lt in Hlt. apply Hk; [|done|cbn; lia].
    pose proof (ii_levels i HI) as Hlv. pose proof (ii_info i HI). destruct HI.
    split; cbn; try done; [|lia]. intros v Hv. specialize (Hlv v Hv). lia.
  - apply Z.ltb_ge in Hlt. by apply Hk.
Qed.

Lemma at_inst_true inst l p i : Get inst l = Some i -> at_inst inst l p = true -> p i = true.
Proof. intros Hg. unfold at_inst. by rewrite Hg. Qed.

Lemma room_for_listener_true i :
  room_for_listener i = true ->
  lpermitted (LAddListenerCallback 0) (listenerStorage i) = true /\
  lpermitted (LAddListener 0) (listenerStorage i) = true /\ has_room (localStorage i) = true.
Proof.
  unfold room_for_listener, lpermitted. intros [[-> ->]%andb_true_iff ->]%andb_true_iff. done.
Qed.

Lemma nsafe_listener_call c l :
  lib_inv l -> npermitted c l = true -> 
  match c with
  | NAddListenerPrefixes _ _ _ _ | NAddListener _ _ _ | NAddPolledListenerPrefixes _ _ _
  | NAddPolledListener _ _ _ | NAddLogger _ _ _ _ | NAddPolledLogger _ _ _ => nsafe (nrun c) l
  | _ => True
  end.
Proof.
  intros HL Hp. destruct c; cbv beta iota; lazymatch goal with |- True => exact I | _ => cbn [nrun] end;
    apply nsafe_skip; (apply nsafe_with_inst; [done|]);
    intros i e Hg HI;
    pose proof (at_inst_true _ _ _ _ Hg Hp) as (Hcb & Hl & Hr)%room_for_listener_true.
  - destruct (has_bits _ NT_EVENT_TOPIC_VALUE); [|by apply wp_ret].
    eapply (isafe_new_listener _ (LAddListenerCallback _)); [done|reflexivity|exact Hcb|]. intros h i1 HI1 _ _.
    by apply isafe_ret, isafe_AddListener_prefixes.
  - eapply (isafe_new_listener _ (LAddListenerCallback _)); [done|reflexivity|exact Hcb|]. intros h1 i1 HI1 El _.
    apply isafe_ret, isafe_DoAddListener; [done|]. by rewrite El.
  - destruct (has_bits _ NT_EVENT_TOPIC_VALUE); [|by apply wp_ret].
    eapply (isafe_new_listener _ (LAddListener _)); [done|reflexivity|exact Hl|]. intros h i1 HI1 _ _.
    by apply isafe_ret, isafe_AddListener_prefixes.
  - destruct (negb _).
    + apply isafe_ret. unfold error, isafe. do 2 wp_step. by apply wp_Log.
    + eapply (isafe_new_listener _ (LAddListener _)); [done|reflexivity|exact Hl|]. intros h1 i1 HI1 El _.
      apply isafe_ret, isafe_DoAddListener; [done|]. by rewrite El.
  - apply isafe_lower_min_level; [done|]. intros i1 HI1 Es Hlo.
    eapply (isafe_new_listener _ (LAddListenerCallback _)); [done|reflexivity|rewrite Es; exact Hcb|].
    intros h i2 HI2 _ Em. apply isafe_ret, wp_Logger_AddListener; [done|by rewrite Em].
  - apply isafe_lower_min_level; [done|]. intros i1 HI1 Es Hlo.
    eapply (isafe_new_listener _ (LAddListener _)); [done|reflexivity|rewrite Es; exact Hl|].
    intros h i2 HI2 _ Em. apply isafe_ret, wp_Logger_AddListener; [done|by rewrite Em].
Qed.

Lemma isafe_gets {A} (f : InstanceImpl J -> A) i : inst_inv i -> isafe (gets f) i.
Proof. intros HI. by apply wp_gets. Qed.

Lemma isafe_local_gets {A} (f : LSImpl J -> A) i : inst_inv i -> isafe (on_local (gets f)) i.
Proof. intros HI. apply isafe_local; [done|]. apply wp_gets, (ii_local i HI). Qed.

Lemma isafe_GetTopicProperties h i :
  inst_inv i -> isafe (let* m := on_local (LocalStorage.GetTopicProperties h) in ret (JsonObject m)) i.
Proof.
  intros HI. unfold isafe. wp_step. eapply wp_mono; [apply isafe_local; [done|]|intros m i' HI'; by wp_step].
  by eapply safe_frames; [apply (ii_local i HI)|apply frames_get_of_topic|].
Qed.

Lemma isafe_net c i : inst_inv i -> isafe (net c) i.
Proof. intros HI. apply wp_modify. by destruct HI. Qed.

Lemma isafe_on_client c i : inst_inv i -> isafe (on_client c) i.
Proof.
  intros HI. unfold isafe, on_client, GetClient. do 2 wp_step.
  destruct (m_networkClient i); [by apply isafe_net|by wp_step].
Qed.
Lemma isafe_on_network c c' i : inst_inv i -> isafe (on_network c c') i.
Proof.
  intros HI. unfold isafe, on_network, GetClient, GetServer. do 2 wp_step.
  destruct (m_networkClient i); [by apply isafe_net|]. do 2 wp_step.
  destruct (m_networkServer i); [by apply isafe_net|by wp_step].
Qed.

Lemma isafe_on_connections {A} (m : M (ConnectionList (L := ListenerStorage)) A) i :
  inst_inv i -> wp m (fun _ c => conn_inv c) (conn_attach (listenerStorage i) (connectionList i)) ->
  isafe (on_connections m) i.
Proof. intros HI Hm. eapply wp_mono; [by apply wp_on_connections|]. by intros a i' [? _]. Qed.

Lemma isafe_removed `{Env} (m : M ListenerStorage (list (Z * Z))) (c : lcall) i :
  inst_inv i -> lrun c = (m ;; skip) -> lpermitted c (listenerStorage i) = true ->
  isafe (let* listeners := on_listeners m in CleanupListeners listeners) i.
Proof.
  intros HI Ec Hp. unfold isafe. wp_step. apply wp_on_listeners; [done|].
  pose proof (lrun_safe c _ (ii_listeners i HI) Hp) as Hw. rewrite Ec in Hw. revert Hw. unfold wp, bind.
  destruct (m (listenerStorage i)) as [[hs s]|]; [|done]. cbn. intros HS. split; [done|].
  intros HI1. by apply isafe_CleanupListeners.
Qed.

Lemma isafe_listeners {A} (m : M ListenerStorage A) (c : lcall) i :
  inst_inv i -> lrun c = (m ;; skip) -> lpermitted c (listenerStorage i) = true -> isafe (on_listeners m) i.
Proof.
  intros HI Ec Hp. apply wp_on_listeners; [done|].
  pose proof (lrun_safe c _ (ii_listeners i HI) Hp) as Hw. rewrite Ec in Hw. revert Hw. unfold wp, bind.
  destruct (m (listenerStorage i)) as [[hs s]|]; [|done]. cbn. by intros HS.
Qed.

Lemma nsafe_table_call c l :
  lib_inv l ->
  match c with
  | NGetDefaultInstance | NCreateInstance | NDestroyInstance _ | NSetNow _ => nsafe (nrun c) l
  | _ => True
  end.
Proof.
  intros HL. destruct c; cbv beta iota; lazymatch goal with |- True => exact I | _ => cbn [nrun] end;
    apply nsafe_skip.
  - unfold nsafe, GetDefaultInstance. wp_step. eapply wp_mono; [by apply nsafe_GetDefaultIndex|].
    intros k l' HL'. by wp_step.
  - unfold nsafe, CreateInstance, Alloc. wp_step. eapply wp_mono; [by apply nsafe_AllocImpl|].
    intros k l' [HL' _]. by wp_step.
  - unfold DestroyInstance. cbv zeta. destruct (_ <? 0); [by apply wp_ret|by apply nsafe_Destroy].
  - unfold nsafe, SetNow. wp_step. by destruct HL.
Qed.

Lemma nsafe_call c l : lib_inv l -> npermitted c l = true -> nsafe (nrun c) l.
Proof.
  intros HL Hp. destruct (local_call c) as [[inst a]|] eqn:El.
  { eapply nsafe_local; [done|exact El|]. unfold npermitted in Hp. by rewrite El in Hp. }
  pose proof (nsafe_listener_call c l HL Hp) as Hs. pose proof (nsafe_table_call c l HL) as Hs'.
  destruct c; cbn [local_call] in El; try discriminate El; cbv beta iota in Hs, Hs';
    lazymatch type of Hs with True => idtac | _ => exact Hs end;
    lazymatch type of Hs' with True => idtac | _ => exact Hs' end; clear Hs Hs' El;
    cbn [npermitted local_call] in Hp; cbn [nrun]; try apply nsafe_skip;
    (apply nsafe_with_inst; [done|]); intros i e Hg HI; try apply (at_inst_true _ _ _ _ Hg) in Hp.
  - by apply isafe_Reset.
  - by apply (isafe_listeners _ LCreateListenerPoller).
  - by eapply (isafe_removed _ (LDestroyListenerPoller _)).
  - by eapply (isafe_listeners _ (LReadListenerQueue _)).
  - by eapply (isafe_removed _ (LRemoveListener _)).
  - apply isafe_on_connections; [done|]. eapply conn_unret.
    eapply (conn_run_safe (OStartDataLog _ _)); [apply (ii_conn i HI)|by apply roomb_spec].
  - apply isafe_on_connections; [done|]. eapply conn_unret.
    by eapply (conn_run_safe (OStopDataLog _)); [apply (ii_conn i HI)|].
  - by apply isafe_StartLocal.
  - by apply isafe_StopLocal.
  - by apply isafe_StartServer.
  - by apply isafe_StopServer.
  - by apply (isafe_start_client (MkClient false _)).
  - by apply (isafe_start_client (MkClient true _)).
  - by apply isafe_StopClient.
  - by apply isafe_SetServers.
  - by apply isafe_SetServers.
  - by apply isafe_on_client.
  - by apply isafe_on_network.
  - apply isafe_on_connections; [done|]. apply wp_gets, (ii_conn i HI).
  - unfold isafe. do 2 wp_step. destruct (networkMode i =? NT_NET_MODE_LOCAL); [by wp_step|].
    apply isafe_on_connections; [done|]. apply wp_gets, (ii_conn i HI).
  - by apply isafe_local_gets.
  - by apply isafe_local_gets.
  - by apply isafe_local_gets.
  - by apply isafe_local_gets.
  - by apply isafe_GetTopicProperties.
  - by apply isafe_gets.
  - by apply isafe_on_client.
  - by apply isafe_on_client.
  - by apply isafe_on_network.
  - by apply isafe_gets.
  - by apply isafe_internal.
Qed.

Lemma ncalls_safe cs l :
  lib_inv l -> npermitted_all cs l = true -> nsafe (for_each cs nrun) l.
Proof.
  revert l. induction cs as [|c cs IH]; intros l HL Hp; cbn [for_each]; [by apply wp_ret|].
  cbn [npermitted_all] in Hp. apply andb_true_iff in Hp as [Hc Hp]. unfold nsafe. wp_step.
  pose proof (nsafe_call c l HL Hc) as Hs. unfold nsafe, wp in *.
  destruct (nrun c l) as [[[] l1]|]; [|done]. by apply IH.
Qed.

(** ** The theorems *)


(** The instance a call is addressed to *)
Definition ncall_inst (c : ncall) : option Z :=
  match local_call c with
  | Some (inst, _) => Some inst
  | None =>
  match c with
  | NResetInstance inst => Some (GetTypedInst kInstance inst)
  | NDestroyInstance inst => Some (GetTypedInst kInstance inst)
  | NCreateListenerPoller inst => Some (GetTypedInst kInstance inst)
  | NDestroyListenerPoller h => Some (GetTypedInst kListenerPoller h)
  | NReadListenerQueue h => Some (GetTypedInst kListenerPoller h)
  | NRemoveListener h => Some (GetTypedInst kListener h)
  | NAddListenerPrefixes inst _ _ _ => Some (GetTypedInst kInstance inst)
  | NAddListener h _ _ => Some (GetInst h)
  | NAddPolledListenerPrefixes poller _ _ => Some (GetTypedInst kListenerPoller poller)
  | NAddPolledListener poller _ _ => Some (GetTypedInst kListenerPoller poller)
  | NStartConnectionDataLog inst _ _ => Some (GetTypedInst kInstance inst)
  | NStopConnectionDataLog h => Some (GetTypedInst kConnectionDataLogger h)
  | NStartLocal inst => Some (GetTypedInst kInstance inst)
  | NStopLocal inst => Some (GetTypedInst kInstance inst)
  | NStartServer inst _ _ _ _ => Some (GetTypedInst kInstance inst)
  | NStopServer inst => Some (GetTypedInst kInstance inst)
  | NStartClient3 inst _ => Some (GetTypedInst kInstance inst)
  | NStartClient4 inst _ => Some (GetTypedInst kInstance inst)
  | NStopClient inst => Some (GetTypedInst kInstance inst)
  | NSetServer inst _ => Some (GetTypedInst kInstance inst)
  | NSetServerTeam inst _ _ => Some (GetTypedInst kInstance inst)
  | NDisconnect inst => Some (GetTypedInst kInstance inst)
  | NFlush inst => Some (GetTypedInst kInstance inst)
  | NGetConnections inst => Some (GetTypedInst kInstance inst)
  | NIsConnected inst => Some (GetTypedInst kInstance inst)
  | NGetTopics inst _ _ => Some (GetTypedInst kInstance inst)
  | NGetTopicsTypeStrs inst _ _ => Some (GetTypedInst kInstance inst)
  | NGetTopicInfos inst _ _ => Some (GetTypedInst kInstance inst)
  | NGetTopicInfosTypeStrs inst _ _ => Some (GetTypedInst kInstance inst)
  | NGetTopicProperties h => Some (GetTypedInst kTopic h)
  | NGetNetworkMode inst => Some (GetTypedInst kInstance inst)
  | NStartDSClient inst _ => Some (GetTypedInst kInstance inst)
  | NStopDSClient inst => Some (GetTypedInst kInstance inst)
  | NFlushLocal inst => Some (GetTypedInst kInstance inst)
  | NGetServerTimeOffset inst => Some (GetTypedInst kInstance inst)
  | NAddLogger inst _ _ _ => Some (GetTypedInst kInstance inst)
  | NAddPolledLogger poller _ _ => Some (GetTypedInst kListenerPoller poller)
  | NInternal inst _ => Some inst
  | _ => None
  end end.

Lemma with_inst_other {A} inst (d : A) f l a l' k :
  with_inst base inst d f l = Some (a, l') -> inst <> Z.of_nat k ->
  s_instances l' !! k = s_instances l !! k.
Proof.
  unfold with_inst. intros Hr Hk. destruct (Get inst l) as [i|] eqn:Eg; [|by simplify_eq].
  destruct (f _ i) as [[b i']|]; [|done]. simplify_eq. cbn. apply list_lookup_insert_ne.
  revert Eg. unfold Get. destruct (Z.ltb_spec inst 0); [done|]. lia.
Qed.

Lemma unskip_run {A} (m : M (Library J) A) l l' :
  (m ;; skip) l = Some (tt, l') -> exists a, m l = Some (a, l').
Proof.
  unfold bind, skip, ret. destruct (m l) as [[a l1]|]; [|done]. intros ?. simplify_eq/=. by exists a.
Qed.

Lemma AllocImpl_other l a l' k i :
  AllocImpl l = Some (a, l') -> s_instances l !! k = Some (Some i) ->
  s_instances l' !! k = Some (Some i) /\ gNow l' = gNow l.
Proof.
  unfold AllocImpl, bind, get, modify, ret. intros Hr Hk.
  destruct (free_slot 0 (s_instances l)) as [j|] eqn:Ej; simplify_eq/=; [|done].
  apply free_slot_lookup in Ej as [_ Ej]. rewrite Nat.sub_0_r in Ej. split; [|done].
  rewrite list_lookup_insert_ne; [done|]. congruence.
Qed.

(** C25. Instances do not interfere: a call addressed to one instance by its handle leaves
    every other instance exactly as it is, and creating an instance never reuses the
    slot of a live one. *)
Theorem instances_isolated (c : ncall) l l' (k : nat) i :
  nrun c l = Some (tt, l') -> s_instances l !! k = Some (Some i) ->
  ncall_inst c <> Some (Z.of_nat k) -> s_instances l' !! k = Some (Some i).
Proof.
  intros Hr Hk Hc. rewrite <- Hk.
  destruct c; cbn [nrun] in Hr; try (apply unskip_run in Hr as [a Hr]);
    try (eapply with_inst_other; [exact Hr|]; intros E; apply Hc; cbn [ncall_inst local_call]; by rewrite E).
  - revert Hr. unfold GetDefaultInstance, GetDefaultIndex, bind, get. destruct (0 <=? s_default l).
    { by intros [= _ <-]. }
    destruct (AllocImpl l) as [[b l1]|] eqn:Ea; [|done]. intros [= _ <-].
    rewrite Hk. by destruct (AllocImpl_other _ _ _ _ _ Ea Hk).
  - revert Hr. unfold CreateInstance, Alloc, bind. destruct (AllocImpl l) as [[b l1]|] eqn:Ea; [|done].
    intros [= _ <-]. rewrite Hk. by destruct (AllocImpl_other _ _ _ _ _ Ea Hk).
  - revert Hr. unfold DestroyInstance, Destroy. cbv zeta. cbn [ncall_inst local_call] in Hc.
    destruct (Z.ltb_spec (GetTypedInst kInstance inst) 0); [by intros [= _ <-]|].
    destruct (_ <=? _); cbn [orb]; intros [= _ <-]; [done|]. cbn. apply list_lookup_insert_ne.
    intros E. apply Hc. f_equal. lia.
  - revert Hr. unfold SetNow. by intros [= _ <-].
Qed.
End ApiProofs.
