(* ===== verification/EndToEnd.v ===== *)
(** * EndToEnd: from a publisher to the queues of listeners

    The local storage announces a value to the listener storage, which queues events for
    the pollers: the two together. *)

From S2P Require Import Prelude NtTypes Handles Monads LocalTypes LocalStorage LocalShape.
From S2P Require Import LocalInv LocalSafety.
From S2P Require Import LocalValues LocalProps Events ListenerStorage ListenerProofs.
From S2P Require Import ConnectionList.
From S2P Require Import Logger Instance InstanceProofs Api ApiProofs.
Local Open Scope Z_scope.

Section EndToEnd.
Context {J : Type} `{Json J}.
Implicit Types (i : InstanceImpl J) (l : Library J).

(** The events that poller [k] gets for an announcement to the listeners [hs] *)
Definition announced (m : HandleMap ListenerData) (flags : Z) (data : EventData) (k : nat) (hs : list Z)
  : list Event :=
  deliveries (listener_events true flags [data]) m (omap (fun h => hm_Get kListener h m) hs) k.

Definition out_events (m : HandleMap ListenerData) (k : nat) (o : Out J) : list Event :=
  match o with
  | ListenerNotifyValue hs flags topic sub v =>
      if flags =? 0 then [] else announced m flags (ValueEvent topic sub v) k hs
  | _ => []
  end.

(** Calls that only announce values *)
Definition only_values (os : list (Out J)) : Prop :=
  forall o, o ∈ os -> is_note o = true ->
    exists hs flags topic sub v, o = ListenerNotifyValue hs flags topic sub v /\ hs <> [].

Lemma run_delivers os i :
  inst_inv i -> only_values os ->
  wp (for_each os deliver) (fun _ i' => inst_inv i' /\ same_rest i i' /\ localStorage i' = localStorage i /\
    pushed (fun k => flat_map (out_events (m_listeners (listenerStorage i)) k) os)
      (listenerStorage i) (listenerStorage i')) i.
Proof.
  intros HI Hos.
  apply (wp_for_each _ _ (fun dn i' => inst_inv i' /\ same_rest i i' /\ localStorage i' = localStorage i /\
    pushed (fun k => flat_map (out_events (m_listeners (listenerStorage i)) k) dn)
      (listenerStorage i) (listenerStorage i'))); [| |done].
  - split_and!; [done|by destruct i|done|apply pushed_refl].
  - intros dn o rest i1 El (HI1 & Hr1 & Es1 & Hp1).
    assert (Hm1 : m_listeners (listenerStorage i1) = m_listeners (listenerStorage i))
      by (by eapply pushed_listeners).
    eapply wp_mono; [apply wp_and; [by apply (wp_deliver o i1)|]|].
    + instantiate (1 := fun _ i2 => pushed (fun k => out_events (m_listeners (listenerStorage i)) k o)
        (listenerStorage i1) (listenerStorage i2)).
      destruct (is_note o) eqn:Eo.
      * destruct (Hos o) as (hs & flags & topic & sub & v & -> & Hne); [rewrite El; set_solver|done|].
        cbn [deliver]. apply wp_on_listeners; [done|].
        eapply wp_mono; [apply run_Notify_value, (ii_listeners i1 HI1)|]. intros [] s Hx.
        split; [exact (pushed_Inv _ _ _ Hx (ii_listeners i1 HI1))|]. intros _. cbn.
        eapply pushed_ext; [|exact Hx]. intros k. cbn. rewrite Hm1. unfold announced, targets.
        destruct hs; [done|]. cbn [length Nat.ltb]. rewrite Hm1. by destruct (flags =? 0).
      * destruct o; try discriminate Eo; cbn [deliver]; wp_step; apply pushed_refl.
    + intros [] i2 [(HI2 & Hr2 & Es2) Hp2]. split_and!; [done|by eapply same_rest_trans|congruence|].
      eapply pushed_ext; [|exact (pushed_trans _ _ _ _ _ Hp1 Hp2)]. intros k.
      rewrite flat_map_app. cbn. by rewrite app_nil_r.
Qed.

Lemma flat_map_notes (f : Out J -> list Event) (os : list (Out J)) :
  (forall o, is_note o = false -> f o = []) ->
  flat_map f os = flat_map f (filter (fun o => is_note o = true) os).
Proof.
  intros Hf. induction os as [|o os IH]; [done|]. cbn [flat_map]. rewrite filter_cons.
  destruct (is_note o) eqn:Eo.
  - rewrite decide_True by done. cbn. by rewrite IH.
  - rewrite decide_False by done. by rewrite Hf, IH.
Qed.

(** A call of the local storage that announces values *)
Lemma run_on_local {A} (m : M (LSImpl J) A) Q ns i :
  inst_inv i ->
  wp m (fun a s => (Q a s /\ notes s = ns) /\ Good (shape s)) (localStorage i <| out := [] |>) ->
  only_values ns ->
  wp (on_local m) (fun a i' => Q a (localStorage i') /\ inst_inv i' /\
    pushed (fun k => flat_map (out_events (m_listeners (listenerStorage i)) k) ns)
      (listenerStorage i) (listenerStorage i')) i.
Proof.
  intros HI (a & s & Hr & [HQ Hn] & HG)%wp_run Hov. unfold on_local, wp. rewrite Hr.
  set (i1 := i <| localStorage := s |>). assert (HI1 : inst_inv i1) by (by destruct HI).
  assert (Hos : only_values (out s)).
  { intros o Ho Hno. apply Hov; [|done]. rewrite <- Hn. by apply list_elem_of_filter. }
  destruct (proj1 (wp_run _ _ _) (run_delivers (out s) i1 HI1 Hos)) as ([] & i2 & Hr2 & HI2 & _ & Es & Hp).
  rewrite (bind_run _ _ _ _ _ Hr2). cbn. split_and!; [by rewrite Es|done|].
  eapply pushed_ext; [|exact Hp]. intros k. cbn. rewrite flat_map_notes by (by intros []).
  unfold notes in Hn. by rewrite Hn.
Qed.

Lemma only_values_notes s (t : TopicData J) flags dup pub v :
  only_values (value_notes s t flags dup pub v).
Proof.
  intros o Ho _. unfold value_notes in Ho. apply list_elem_of_In, in_flat_map in Ho as (hs & _ & Ho%list_elem_of_In).
  unfold note in Ho. destruct hs as [|h hs]; cbn in Ho; [by apply elem_of_nil in Ho|].
  apply list_elem_of_singleton in Ho as ->. by eexists _, _, _, _, _.
Qed.

Lemma Get_insert inst l i' :
  is_Some (Get inst l) -> Get inst (l <| s_instances ::= <[Z.to_nat inst := Some i']> |>) = Some i'.
Proof.
  unfold Get. destruct (_ || _); [by intros []|]. cbn. intros [i Hi].
  destruct (s_instances l !! Z.to_nat inst) as [o|] eqn:E; [|done].
  by rewrite list_lookup_insert_eq by (by eapply lookup_lt_Some).
Qed.

Lemma value_events s (t : TopicData J) dup pub v m k :
  flat_map (out_events m k) (value_notes s t NT_EVENT_VALUE_LOCAL dup pub v) =
  flat_map (announced m NT_EVENT_VALUE_LOCAL (ValueEvent (t_handle t) 0 v) k)
    (value_listeners s t false dup pub).
Proof.
  unfold value_notes. change (has_bits NT_EVENT_VALUE_LOCAL NT_EVENT_VALUE_REMOTE) with false.
  induction (value_listeners s t false dup pub) as [|hs hss IH]; [done|]. cbn [flat_map].
  rewrite flat_map_app, IH. f_equal. unfold note. destruct hs; [done|]. cbn. by rewrite app_nil_r.
Qed.

(** C6. From publisher to listener: a value that an active publisher sets and that is not
    older than the topic's last value is queued, in this call, for exactly the
    listeners it is meant for.  Every poller's queue grows by one event for each listener
    of each subscriber of the topic that accepts the value, then for each listener of
    each multi-subscriber that matches the topic, as far as they want local values
    ([listener_events]), and by nothing else. *)
Theorem value_reaches_listeners (base : Env) l (h : Z) (v : Value) i (p : nat) (pd : PublisherData)
    (t : TopicData J) :
  lib_inv l -> Get (GetInst h) l = Some i ->
  hm_Get kPublisher h (m_publishers (localStorage i)) = Some p ->
  hm_at (m_publishers (localStorage i)) p = Some pd ->
  hm_at (m_topics (localStorage i)) (p_topic pd) = Some t ->
  p_active pd = true -> value_valid v = true -> t_type t = value_type v -> newer t v = true ->
  exists l' i', Api.SetEntryValue base h v l = Some (true, l') /\ Get (GetInst h) l' = Some i' /\
    m_listeners (listenerStorage i') = m_listeners (listenerStorage i) /\
    forall k q, hm_at (m_pollers (listenerStorage i)) k = Some q ->
      exists q', hm_at (m_pollers (listenerStorage i')) k = Some q' /\
        pl_queue q' = pl_queue q ++
          flat_map (announced (m_listeners (listenerStorage i)) NT_EVENT_VALUE_LOCAL
                      (ValueEvent (t_handle t) 0 v) k)
            (value_listeners (localStorage i) t false (is_dup pd false (t_lastValue t) v)
               (Some (p_handle pd))).
Proof.
  intros HL Hi Hg Hp Ht Hact Hv Hty Hnew. set (e := now_env base (gNow l)).
  pose proof (li_inst l HL _ _ (Get_lookup _ _ _ Hi)) as HI.
  set (s0 := localStorage i <| out := [] |>).
  assert (HI0 : LocalShape.Inv s0) by (apply (ii_local i HI)).
  assert (Hwp : wp (on_local (LocalStorage.SetEntryValue h v))
    (fun b i' => b = true /\ inst_inv i' /\
       pushed (fun k => flat_map (out_events (m_listeners (listenerStorage i)) k)
         (value_notes s0 t NT_EVENT_VALUE_LOCAL (is_dup pd false (t_lastValue t) v) (Some (p_handle pd)) v))
         (listenerStorage i) (listenerStorage i')) i).
  { apply (run_on_local _ (fun b _ => b = true)); [done| |apply only_values_notes].
    destruct (publish_step s0 h v p pd t HI0) as (s' & Hr & _ & HG); try done.
    pose proof (notes_publish h p pd t v s0 (proj1 HI0)) as Hn. apply wp_run.
    exists true, s'. split; [done|]. split; [|done]. split; [done|].
    specialize (Hn Hg Hp Ht Hact Hv Hty Hnew). apply wp_run in Hn as (b & s1 & Hr1 & Hn).
    rewrite Hr in Hr1. simplify_eq. exact Hn. }
  apply wp_run in Hwp as (b & i' & Hr & -> & HI' & Hpush).
  eexists _, i'. split; [|split; [|split; [by eapply pushed_listeners|]]].
  - unfold Api.SetEntryValue, GetHandle, with_inst. rewrite Hi. fold e. by rewrite Hr.
  - apply Get_insert. by rewrite Hi.
  - intros k q Hk. rewrite (ps_queues _ _ _ Hpush), Hk. eexists. split; [done|]. cbn. by rewrite value_events.
Qed.
End EndToEnd.
