(* ===== verification/Logs.v ===== *)
(** * Logs: which log messages a log listener gets *)

From S2P Require Import Prelude NtTypes Handles Monads LocalTypes LocalStorage LocalShape.
From S2P Require Import LocalInv LocalSafety.
From S2P Require Import Events ListenerStorage ListenerProofs ConnectionList Logger Instance.
From S2P Require Import InstanceProofs Api ApiProofs EndToEnd.
Local Open Scope Z_scope.

(** ** Levels and masks *)

(** A level with a name lies between the two. *)
Definition covers (lo hi : Z) : bool := existsb (fun x => (lo <=? x.1) && (x.1 <=? hi)) levels.

(** Case analysis on which of the nine levels lie between [lo] and [hi] *)
Ltac by_levels lo hi :=
  generalize ((lo <=? WPI_LOG_CRITICAL) && (WPI_LOG_CRITICAL <=? hi)) ((lo <=? WPI_LOG_ERROR) && (WPI_LOG_ERROR <=? hi))
    ((lo <=? WPI_LOG_WARNING) && (WPI_LOG_WARNING <=? hi)) ((lo <=? WPI_LOG_INFO) && (WPI_LOG_INFO <=? hi))
    ((lo <=? WPI_LOG_DEBUG) && (WPI_LOG_DEBUG <=? hi)) ((lo <=? WPI_LOG_DEBUG1) && (WPI_LOG_DEBUG1 <=? hi))
    ((lo <=? WPI_LOG_DEBUG2) && (WPI_LOG_DEBUG2 <=? hi)) ((lo <=? WPI_LOG_DEBUG3) && (WPI_LOG_DEBUG3 <=? hi))
    ((lo <=? WPI_LOG_DEBUG4) && (WPI_LOG_DEBUG4 <=? hi));
  intros b1 b2 b3 b4 b5 b6 b7 b8 b9; clear lo hi;
  destruct b1, b2, b3, b4, b5, b6, b7, b8, b9; first [intros; reflexivity | intros [=]].

Lemma levels_mask level lo hi :
  level ∈ levels.*1 -> covers lo hi = true ->
  has_bits (LevelToFlag level) (LevelsToEventMask lo hi) = (lo <=? level) && (level <=? hi).
Proof.
  intros Hl. unfold covers, levels, LevelsToEventMask. cbn [existsb fst].
  unfold levels in Hl. cbn [fmap list_fmap fst] in Hl.
  repeat (apply elem_of_cons in Hl as [Hl|Hl]); [..|by apply elem_of_nil in Hl]; subst level; by_levels lo hi.
Qed.

Lemma mask_log lo hi : has_bits (LevelsToEventMask lo hi) (Z.lor NT_EVENT_LOGMESSAGE kLogBits) = true.
Proof. unfold LevelsToEventMask. by_levels lo hi. Qed.

(** ** A new listener and its activation, exactly *)

Lemma run_AddListener_new ph k s :
  ListenerProofs.Inv s -> room (m_listeners s) -> hm_Get kListenerPoller ph (m_pollers s) = Some k ->
  wp (ListenerStorage.AddListener ph) (fun h s' => exists j m, s' = s <| m_listeners := m |> /\
    hm_at (m_listeners s) j = None /\ hm_Get kListener h m = Some j /\
    forall x, hm_at m x = if decide (j = x) then Some (MkListenerData h k [] 0) else hm_at (m_listeners s) x) s.
Proof.
  intros HI Hroom Hg. unfold ListenerStorage.AddListener, ListenerStorage.DoAddListener. do 2 wp_step. rewrite Hg.
  destruct (hm_Add _ _ _ _ _) as [j m] eqn:Ea.
  destruct (table_Add _ _ _ _ _ _ _ _ (iv_listeners _ _ HI) Hroom Ea ltac:(done)) as (Hl' & Hn & Hat).
  set (h := Handle _ _ _) in Hat.
  assert (Hj : hm_at m j = Some (MkListenerData h k [] 0)) by (by rewrite Hat, decide_True).
  do 3 wp_step. unfold listener. do 2 wp_step. wp_step; [exact Hj|]. wp_step. exists j, m.
  split_and!; [done|done|exact (table_Get _ _ ln_handle _ _ _ (iv_inst _ _ HI) Hl' Hj)|done].
Qed.

Lemma run_Activate_new h j k mask f s :
  hm_Get kListener h (m_listeners s) = Some j -> hm_at (m_listeners s) j = Some (MkListenerData h k [] 0) ->
  wp (Activate h mask f) (fun _ s' => m_pollers s' = m_pollers s /\
    m_listeners s' = hm_set j (MkListenerData h k [(f, mask)] mask) (m_listeners s) /\
    m_logListeners s' = (if has_bits mask (Z.lor NT_EVENT_LOGMESSAGE kLogBits) then vs_Add j else fun x => x)
      (m_logListeners s)) s.
Proof.
  intros Hg Hd. unfold Activate. wp_step. wp_step. rewrite Hg. unfold set_listener, listener.
  do 3 wp_step. wp_step; [done|]. cbn zeta. do 5 wp_step; [done|]. wp_step.
  cbn [ln_eventMask]. rewrite Z.ldiff_0_r.
  do 4 (wp_step; eapply run_when_upd; [by destruct s|]). eapply run_when_upd; [by destruct s|].
  rewrite <- has_bits_lor_r. split_and!; reflexivity.
Qed.

(** ** The theorem *)

Section Logs.
Context {J : Type} `{Json J}.
Implicit Types (i : InstanceImpl J) (l : Library J).

(** What a log message adds to the queue of a poller, from the listeners in the list *)
Definition log_events (m : HandleMap ListenerData) (ls : list nat) (level : Z) (file : string) (line : Z)
    (msg : string) (k : nat) : list Event :=
  deliveries (listener_events true (LevelToFlag level) [LogMessage level (filename file) line msg]) m ls k.

Lemma LevelToFlag_nonzero level : (LevelToFlag level =? 0) = false.
Proof. unfold LevelToFlag. by repeat case_match. Qed.

Lemma run_Log level file line msg (g : LoggerImpl ListenerStorage) :
  ListenerProofs.Inv (lg_storage g) -> m_listenerCount g <> 0 ->
  wp (Log level file line msg) (fun _ g' =>
    pushed (log_events (m_listeners (lg_storage g)) (m_logListeners (lg_storage g)) level file line msg)
      (lg_storage g) (lg_storage g')) g.
Proof.
  intros HI Hc%Z.eqb_neq. unfold Log. do 2 wp_step. rewrite Hc. unfold lg_call, wp.
  pose proof (run_Notify_log (LevelToFlag level) level (filename file) line msg _ HI) as ([] & s & Hr & Hx)%wp_run.
  cbn. cbn in Hr. rewrite Hr. unfold notified in Hx. rewrite LevelToFlag_nonzero in Hx. exact Hx.
Qed.

(** The state after a log listener has been added *)
Record log_added (h : Z) (j k : nat) (lo hi : Z) i i' : Prop := {
  la_inv : inst_inv i';
  la_min : logger_min_level i' = Z.min lo (logger_min_level i);
  la_count : m_listenerCount (logger_impl i') = swrap 32 (m_listenerCount (logger_impl i) + 1);
  la_pollers : m_pollers (listenerStorage i') = m_pollers (listenerStorage i);
  la_fresh : hm_at (m_listeners (listenerStorage i)) j = None;
  la_listeners : forall x, hm_at (m_listeners (listenerStorage i')) x =
    if decide (j = x)
    then Some (MkListenerData h k [(Some finish_log, LevelsToEventMask lo hi)] (LevelsToEventMask lo hi))
    else hm_at (m_listeners (listenerStorage i)) x;
  la_log : m_logListeners (listenerStorage i') = m_logListeners (listenerStorage i) ++ [j];
}.

Lemma run_Logger_AddListener h j k lo hi i :
  hm_Get kListener h (m_listeners (listenerStorage i)) = Some j ->
  hm_at (m_listeners (listenerStorage i)) j = Some (MkListenerData h k [] 0) ->
  wp (on_logger (Logger.AddListener h lo hi)) (fun _ i' =>
    logger_min_level i' = logger_min_level i /\
    m_listenerCount (logger_impl i') = swrap 32 (m_listenerCount (logger_impl i) + 1) /\
    m_pollers (listenerStorage i') = m_pollers (listenerStorage i) /\
    m_listeners (listenerStorage i') = hm_set j
      (MkListenerData h k [(Some finish_log, LevelsToEventMask lo hi)] (LevelsToEventMask lo hi))
      (m_listeners (listenerStorage i)) /\
    m_logListeners (listenerStorage i') = m_logListeners (listenerStorage i) ++ [j]) i.
Proof.
  intros Hg Hj. apply wp_on_logger. unfold Logger.AddListener. do 4 wp_step. unfold lg_call, wp.
  pose proof (mask_log lo hi) as Hm. revert Hm. generalize (LevelsToEventMask lo hi). intros mask Hm.
  destruct (proj1 (wp_run _ _ _) (run_Activate_new h j k mask (Some finish_log)
    (listenerStorage i) Hg Hj)) as ([] & s2 & Hr2 & Hp2 & Hl2 & Hg2).
  cbn in Hr2 |- *. rewrite Hr2. rewrite Hm in Hg2. by split_and!.
Qed.

Lemma run_add_logger poller k lo hi i :
  inst_inv i -> room (m_listeners (listenerStorage i)) ->
  hm_Get kListenerPoller poller (m_pollers (listenerStorage i)) = Some k ->
  wp (lower_min_level lo ;;
      let* listener := on_listeners (ListenerStorage.AddListener poller) in
      on_logger (Logger.AddListener listener lo hi) ;;
      ret listener)
    (fun h i' => exists j, log_added h j k lo hi i i') i.
Proof.
  intros HI Hroom Hg. wp_step. unfold lower_min_level. do 2 wp_step.
  set (i1 := i <| logger_min_level := Z.min lo (logger_min_level i) |>).
  assert (HI1 : inst_inv i1).
  { pose proof (ii_levels i HI) as Hlv. pose proof (ii_info i HI). destruct HI. split; try done.
    - intros v Hv. specialize (Hlv v Hv). cbn. lia.
    - cbn. lia. }
  apply wp_run. exists tt, i1. split.
  { unfold when. destruct (Z.ltb_spec lo (logger_min_level i)); unfold set_min_level, modify, skip, ret, i1.
    - by rewrite Z.min_l by lia.
    - rewrite Z.min_r by lia. by destruct i. }
  wp_step. apply wp_on_listeners; [done|].
  eapply wp_mono; [apply wp_and; [apply (run_AddListener_new poller k); [apply (ii_listeners i HI)|done|done]|
    apply run_DoAddListener; [apply (ii_listeners i HI)|done]]|].
  intros h s1 [(j & m & -> & Hn & Hgj & Hat) [HS1 _]]. split; [done|]. intros HI2.
  set (i2 := i1 <| listenerStorage := _ |>) in *. wp_step.
  assert (Hj : hm_at (m_listeners (listenerStorage i2)) j = Some (MkListenerData h k [] 0)).
  { unfold i2, fupd. cbn [listenerStorage m_listeners]. by rewrite Hat, decide_True. }
  eapply wp_mono.
  { apply wp_and; [apply (wp_Logger_AddListener h lo hi i2); [done|apply Z.le_min_l]|].
    by apply (run_Logger_AddListener h j k lo hi i2). }
  intros [] i3 (HI3 & Em & Ec & Ep & El & Eg). wp_step. exists j.
  split; [done|by rewrite Em|by rewrite Ec|by rewrite Ep|done| |by rewrite Eg].
  intros x. rewrite El, hm_at_set by (by rewrite Hj). case_decide; [done|].
  unfold i2, fupd. cbn [listenerStorage m_listeners]. by rewrite Hat, decide_False.
Qed.

Lemma flat_map_ext_elem {A B} (f g : A -> list B) ls :
  (forall y, y ∈ ls -> f y = g y) -> flat_map f ls = flat_map g ls.
Proof.
  induction ls as [|x ls IH]; intros Hf; cbn; [done|]. rewrite Hf, IH; [done| |left].
  intros y Hy. apply Hf. by right.
Qed.

(** The other listeners' events do not depend on the new listener. *)
Lemma log_events_old h j k lo hi i i' level file line msg x :
  inst_inv i -> log_added h j k lo hi i i' ->
  log_events (m_listeners (listenerStorage i')) (m_logListeners (listenerStorage i)) level file line msg x =
  log_events (m_listeners (listenerStorage i)) (m_logListeners (listenerStorage i)) level file line msg x.
Proof.
  intros HI Ha. unfold log_events, deliveries. apply flat_map_ext_elem. intros y Hy.
  rewrite (la_listeners _ _ _ _ _ _ _ Ha). case_decide as E; [|done]. subst y. exfalso.
  apply (iv_log _ _ (ii_listeners i HI)) in Hy as (d & Hd & _).
  rewrite (la_fresh _ _ _ _ _ _ _ Ha) in Hd. done.
Qed.

Lemma log_events_new h j k lo hi i i' level file line msg :
  log_added h j k lo hi i i' -> level ∈ levels.*1 -> covers lo hi = true ->
  log_events (m_listeners (listenerStorage i')) [j] level file line msg k =
  if (lo <=? level) && (level <=? hi)
  then [MkEvent h NT_EVENT_LOGMESSAGE (LogMessage level (filename file) line msg)] else [].
Proof.
  intros Ha Hl Hc. unfold log_events, deliveries. cbn [flat_map].
  rewrite (la_listeners _ _ _ _ _ _ _ Ha), decide_True, app_nil_r by done. unfold one.
  cbn [ln_poller]. rewrite decide_True by done. unfold listener_events. cbn [ln_eventMask ln_sources flat_map].
  unfold source_events. cbn [ln_handle fst snd]. rewrite !levels_mask by done.
  by destruct (_ && _).
Qed.

(** C24. Log listeners get the levels they ask for: after [AddPolledLogger] for levels [lo] to
    [hi] returns [h], a message of a named level that any component logs is appended to
    the poller's queue as an event for [h] exactly if [lo <= level <= hi], after the events of the listeners
    that were there before; the minimum level of the logger never holds back a message
    the new listener asks for. *)
Theorem log_listener_exact (base : Env) l (poller lo hi level line : Z) (file msg : string) i (k : nat) (q : PollerData) :
  let inst := GetTypedInst kListenerPoller poller in
  lib_inv l -> Get inst l = Some i ->
  hm_Get kListenerPoller poller (m_pollers (listenerStorage i)) = Some k ->
  hm_at (m_pollers (listenerStorage i)) k = Some q ->
  room (m_listeners (listenerStorage i)) -> 0 <= m_listenerCount (logger_impl i) < 2 ^ 31 - 1 ->
  covers lo hi = true -> level ∈ levels.*1 ->
  exists h l1 l2 i2 q2,
    AddPolledLogger base poller lo hi l = Some (h, l1) /\
    nrun base (NInternal inst (ILog level file line msg)) l1 = Some (tt, l2) /\
    Get inst l2 = Some i2 /\ hm_at (m_pollers (listenerStorage i2)) k = Some q2 /\
    pl_queue q2 = pl_queue q ++
      (if level <? Z.min lo (logger_min_level i) then []
       else log_events (m_listeners (listenerStorage i)) (m_logListeners (listenerStorage i))
              level file line msg k ++
            (if (lo <=? level) && (level <=? hi)
             then [MkEvent h NT_EVENT_LOGMESSAGE (LogMessage level (filename file) line msg)] else [])).
Proof.
  intros inst HL Hi Hg Hq Hroom Hcount Hc Hl.
  pose proof (li_inst l HL _ _ (Get_lookup _ _ _ Hi)) as HI.
  pose proof (run_add_logger poller k lo hi i HI Hroom Hg) as (h & i1 & Hr1 & j & Ha)%wp_run.
  set (l1 := l <| s_instances ::= <[Z.to_nat inst := Some i1]> |>).
  assert (Hi1 : Get inst l1 = Some i1) by (apply Get_insert; by rewrite Hi).
  assert (Hadd : AddPolledLogger base poller lo hi l = Some (h, l1)).
  { unfold AddPolledLogger, GetTyped, with_inst. fold inst. by rewrite Hi, Hr1. }
  assert (Hcnt : m_listenerCount (logger_impl i1) <> 0).
  { rewrite (la_count _ _ _ _ _ _ _ Ha), swrap_small by lia. lia. }
  set (quiet := level <? logger_min_level i1).
  assert (Hlog : wp (@irun J _ (now_env base (gNow l1)) (ILog level file line msg)) (fun _ i2 => pushed (fun x => if quiet then [] else
    log_events (m_listeners (listenerStorage i1)) (m_logListeners (listenerStorage i1)) level file line msg x)
      (listenerStorage i1) (listenerStorage i2)) i1).
  { cbn [irun]. do 2 wp_step. apply wp_on_logger. unfold DoLog. fold quiet. destruct quiet.
    - wp_step. apply pushed_refl.
    - eapply wp_mono; [apply run_Log; [apply (ii_listeners i1 (la_inv _ _ _ _ _ _ _ Ha))|done]|]. done. }
  apply wp_run in Hlog as ([] & i2 & Hr2 & Hp).
  eexists h, l1, _, i2, _. split; [done|]. split_and!.
  - cbn [nrun]. unfold with_inst. by rewrite Hi1, Hr2.
  - apply Get_insert. by rewrite Hi1.
  - by rewrite (ps_queues _ _ _ Hp), (la_pollers _ _ _ _ _ _ _ Ha), Hq.
  - cbn. f_equal. unfold quiet. rewrite (la_min _ _ _ _ _ _ _ Ha). destruct (level <? Z.min lo (logger_min_level i)); [reflexivity|].
    rewrite (la_log _ _ _ _ _ _ _ Ha). unfold log_events, deliveries. rewrite flat_map_app. f_equal.
    + by apply (log_events_old h j k lo hi).
    + by apply (log_events_new h j k lo hi i).
Qed.
End Logs.
