(* ===== verification/Modes.v ===== *)
(** * Modes: the network mode as a state machine

    The operations of [InstanceImpl] that start and stop the network refine a small
    state machine, in every interleaving of threads: [StopClient] is two steps, between
    which it destroys the client, and the server and the client call back at any time. *)

From S2P Require Import Prelude NtTypes Handles Monads LocalTypes LocalStorage Events.
From S2P Require Import ListenerStorage ConnectionList Logger Instance InstanceProofs.
Local Open Scope Z_scope.

(** ** Specification *)

Inductive network := Stopped | Local | Server (ready : bool) | Client (v4 : bool).

(** [time] is the offset of the server's clock, if known; [stopping] are the clients that
    are being destroyed. *)
Record Modes := MkModes {
  a_net : network;
  a_time : option Z;
  a_stopping : list NetworkClient;
}.

Inductive mode_op :=
| OStartLocal
| OStopLocal
| OStartServer (file address : string) (port3 port4 : Z)
| OServerReady
| OStopServer
| OStartClient (client : NetworkClient)
| OTakeClient
| OFinishClient (client : NetworkClient)
| OTimeSync (offset rtt2 : Z) (valid : bool)
| OSetServers (servers : Servers)
| OReset.

Inductive mode_step : mode_op -> Modes -> Modes -> Prop :=
| s_start_local t st : mode_step OStartLocal (MkModes Stopped t st) (MkModes Local t st)
| s_stop_local t st : mode_step OStopLocal (MkModes Local t st) (MkModes Stopped t st)
| s_start_server f a p3 p4 t st :
    mode_step (OStartServer f a p3 p4) (MkModes Stopped t st) (MkModes (Server false) (Some 0) st)
| s_server_ready r t st : mode_step OServerReady (MkModes (Server r) t st) (MkModes (Server true) t st)
| s_stop_server r t st : mode_step OStopServer (MkModes (Server r) t st) (MkModes Stopped None st)
| s_start_client c t st : mode_step (OStartClient c) (MkModes Stopped t st) (MkModes (Client (cl_v4 c)) t st)
| s_take_client c t st :
    mode_step OTakeClient (MkModes (Client (cl_v4 c)) t st) (MkModes Stopped t (c :: st))
| s_finish_client c n t st1 st2 :
    mode_step (OFinishClient c) (MkModes n t (st1 ++ c :: st2)) (MkModes n None (st1 ++ st2))
| s_time_sync off rtt2 valid n t st :
    n = Client true \/ existsb cl_v4 st = true ->
    mode_step (OTimeSync off rtt2 valid) (MkModes n t st) (MkModes n (if valid then Some off else None) st)
| s_reset n t st : mode_step OReset (MkModes n t st) (MkModes Stopped None st)
(** starting what is running or stopping what is not does nothing *)
| s_busy op n t st :
    match op with
    | OStartLocal | OStartServer _ _ _ _ | OStartClient _ => n <> Stopped
    | OStopLocal => n <> Local
    | OServerReady | OStopServer => forall r, n <> Server r
    | OTakeClient => forall v4, n <> Client v4
    | OSetServers _ => True
    | _ => False
    end ->
    mode_step op (MkModes n t st) (MkModes n t st).

(** ** Implementation *)

Section Modes.
Context {J : Type} `{Json J}.
Implicit Types (i : InstanceImpl J).

(** An operation and the clients it leaves to be destroyed *)
Definition mode_run (op : mode_op) (st : list NetworkClient) : M (InstanceImpl J) (list NetworkClient) :=
  match op with
  | OStartLocal => StartLocal ;; ret st
  | OStopLocal => StopLocal ;; ret st
  | OStartServer f a p3 p4 => StartServer f a p3 p4 ;; ret st
  | OServerReady => server_ready ;; ret st
  | OStopServer => StopServer ;; ret st
  | OStartClient c =>
      (if cl_v4 c then StartClient4 (cl_identity c) else StartClient3 (cl_identity c)) ;; ret st
  | OTakeClient =>
      let* o := StopClient_take in
      ret (match o with Some (Some c) => c :: st | _ => st end)
  | OFinishClient c => delete_client (Some c) ;; StopClient_finish ;; ret st
  | OTimeSync off rtt2 valid => time_sync off rtt2 valid ;; ret st
  | OSetServers servers => SetServers servers ;; ret st
  | OReset => Reset ;; ret st
  end.

(** The instance is in the given state. *)
Definition represents i (n : network) (t : option Z) : Prop :=
  m_serverTimeOffset i = t /\
  match n with
  | Stopped => networkMode i = NT_NET_MODE_NONE /\ m_networkServer i = None /\ m_networkClient i = None
  | Local => networkMode i = NT_NET_MODE_LOCAL /\ m_networkServer i = None /\ m_networkClient i = None
  | Server ready =>
      networkMode i = (if ready then NT_NET_MODE_SERVER else Z.lor NT_NET_MODE_SERVER NT_NET_MODE_STARTING) /\
      is_Some (m_networkServer i) /\ m_networkClient i = None
  | Client v4 =>
      networkMode i = (if v4 then NT_NET_MODE_CLIENT4 else NT_NET_MODE_CLIENT3) /\
      m_networkServer i = None /\ exists c, m_networkClient i = Some c /\ cl_v4 c = v4
  end.

(** ** Refinement *)

Lemma wlp_on_listeners {A} (m : M ListenerStorage A) (Q : A -> InstanceImpl J -> Prop) i :
  (forall a s, Q a (i <| listenerStorage := s |>)) -> wlp (on_listeners m) Q i.
Proof. intros HQ. unfold wlp, on_listeners. by destruct (m _) as [[a s]|]. Qed.

Lemma on_local_represents {A} (m : M (LSImpl J) A) i n t :
  represents i n t -> wlp (on_local m) (fun _ i' => represents i' n t) i.
Proof.
  intros Hr. unfold wlp at 1, on_local. destruct (m _) as [[a s]|]; [|done].
  assert (Hd : forall os i1, represents i1 n t -> wlp (for_each os deliver) (fun _ i' => represents i' n t) i1).
  { induction os as [|o os IH]; intros i1 H1; [done|]. cbn [for_each]. apply wlp_bind.
    assert (Ho : wlp (deliver o) (fun _ i' => represents i' n t) i1).
    { destruct o; cbn [deliver]; try (apply wlp_on_listeners; by intros []); exact H1. }
    eapply wlp_mono; [exact Ho|]. intros [] i2. apply IH. }
  enough (Hw : wlp (for_each (out s) deliver ;; ret a) (fun _ i' => represents i' n t) (i <| localStorage := s |>)).
  { unfold wlp in Hw. destruct (_ ;; _) as [[b i']|]; done. }
  apply wlp_bind. eapply wlp_mono; [by apply Hd|]. done.
Qed.

(** A client reports the time while it exists, including while it is destroyed. *)
Inductive inst_step : mode_op -> InstanceImpl J * list NetworkClient -> InstanceImpl J * list NetworkClient -> Prop :=
| i_op op i st i' st' :
    match op with OFinishClient _ | OTimeSync _ _ _ => False | _ => True end ->
    mode_run op st i = Some (st', i') -> inst_step op (i, st) (i', st')
| i_finish c i st1 st2 i' :
    mode_run (OFinishClient c) (st1 ++ st2) i = Some (st1 ++ st2, i') ->
    inst_step (OFinishClient c) (i, st1 ++ c :: st2) (i', st1 ++ st2)
| i_time off rtt2 valid c i st i' :
    cl_v4 c = true -> m_networkClient i = Some c \/ c ∈ st ->
    mode_run (OTimeSync off rtt2 valid) st i = Some (st, i') ->
    inst_step (OTimeSync off rtt2 valid) (i, st) (i', st).

(** What an operation does to an instance in a given state *)
Definition refines (op : mode_op) n t st : list NetworkClient -> InstanceImpl J -> Prop := fun st' i' =>
  exists n' t', mode_step op (MkModes n t st) (MkModes n' t' st') /\ represents i' n' t'.

Lemma refines_same op n t st i :
  represents i n t ->
  match op with
  | OStartLocal | OStartServer _ _ _ _ | OStartClient _ => n <> Stopped
  | OStopLocal => n <> Local
  | OServerReady | OStopServer => forall r, n <> Server r
  | OTakeClient => forall v4, n <> Client v4
  | OSetServers _ => True
  | _ => False
  end -> refines op n t st st i.
Proof. intros Hr Hn. exists n, t. split; [by apply s_busy|done]. Qed.

Lemma represents_mode i n t :
  represents i n t ->
  (networkMode i =? NT_NET_MODE_NONE) = match n with Stopped => true | _ => false end /\
  has_bits (networkMode i) NT_NET_MODE_LOCAL = match n with Local => true | _ => false end /\
  has_bits (networkMode i) NT_NET_MODE_SERVER = match n with Server _ => true | _ => false end /\
  has_bits (networkMode i) (Z.lor NT_NET_MODE_CLIENT3 NT_NET_MODE_CLIENT4) =
    match n with Client _ => true | _ => false end.
Proof. intros [_ Hn]. destruct n as [| |[]|[]]; destruct Hn as [-> _]; done. Qed.

Lemma refines_local op n t st i :
  represents i n t -> op = OStartLocal \/ op = OStopLocal \/ op = OServerReady ->
  wlp (mode_run op st) (refines op n t st) i.
Proof.
  intros Hr Hop. destruct (represents_mode i n t Hr) as (Hnone & Hloc & Hsrv & _).
  destruct Hop as [->|[->| ->]]; cbn [mode_run]; apply wlp_bind.
  - unfold StartLocal, wlp, bind, get. rewrite Hnone. destruct n; cbn; try by apply refines_same.
    exists Local, t. split; [constructor|]. by destruct Hr as (? & ? & ? & ?).
  - unfold StopLocal, wlp, bind, get. rewrite Hloc. destruct n; cbn; try by apply refines_same.
    exists Stopped, t. split; [constructor|]. by destruct Hr as (? & ? & ? & ?).
  - unfold server_ready, wlp. cbn. destruct n as [| |r|v4].
    + apply refines_same; [|done]. destruct Hr as (? & E & ? & ?). split; [done|]. cbn. by rewrite E.
    + apply refines_same; [|done]. destruct Hr as (? & E & ? & ?). split; [done|]. cbn. by rewrite E.
    + exists (Server true), t. split; [constructor|]. destruct Hr as (? & E & ? & ?). split; [done|].
      cbn. rewrite E. by destruct r.
    + apply refines_same; [|done]. destruct Hr as (? & E & ? & ?). split; [done|]. cbn. rewrite E. by destruct v4.
Qed.

Lemma refines_StartServer f a p3 p4 n t st i :
  represents i n t -> wlp (mode_run (OStartServer f a p3 p4) st) (refines (OStartServer f a p3 p4) n t st) i.
Proof.
  intros Hr. destruct (represents_mode i n t Hr) as (Hnone & _). cbn [mode_run]. apply wlp_bind.
  unfold StartServer. apply wlp_bind. cbn [wlp get]. unfold wlp at 1, get. rewrite Hnone.
  destruct n; cbn [negb]; try (by apply refines_same). destruct Hr as (? & ? & ? & Hc).
  do 3 apply wlp_bind. cbn. apply wlp_bind, wlp_on_listeners. intros _ s.
  exists (Server false), (Some 0). split; [constructor|]. by split_and!.
Qed.

Lemma refines_StopServer n t st i :
  represents i n t -> wlp (mode_run OStopServer st) (refines OStopServer n t st) i.
Proof.
  intros Hr. destruct (represents_mode i n t Hr) as (_ & _ & Hs & _). cbn [mode_run]. apply wlp_bind.
  unfold StopServer. apply wlp_bind. unfold wlp at 1, get. rewrite Hs.
  destruct n; cbn [negb]; try (by apply refines_same). destruct Hr as (? & ? & [srv Hsrv] & Hc).
  do 2 apply wlp_bind. cbn. apply wlp_bind, wlp_on_listeners. intros _ s. rewrite Hsrv.
  exists Stopped, None. split; [constructor|]. by split_and!.
Qed.

Lemma refines_StartClient c n t st i :
  represents i n t -> wlp (mode_run (OStartClient c) st) (refines (OStartClient c) n t st) i.
Proof.
  intros Hr. destruct (represents_mode i n t Hr) as (Hnone & _). cbn [mode_run]. apply wlp_bind.
  replace (if cl_v4 c then StartClient4 (cl_identity c) else StartClient3 (cl_identity c))
    with (start_client (J := J) c (if cl_v4 c then NT_NET_MODE_CLIENT4 else NT_NET_MODE_CLIENT3))
    by (by destruct c as [[] ?]).
  unfold start_client. apply wlp_bind. unfold wlp at 1, get. rewrite Hnone.
  destruct n; cbn [negb]; try (by apply refines_same). destruct Hr as (? & ? & ? & Hc).
  do 2 apply wlp_bind. cbn. apply wlp_bind.
  destruct (nonempty (m_servers i)); cbn; (exists (Client (cl_v4 c)), t; split; [constructor|]);
    (split; [done|]); split_and!; try done; by exists c.
Qed.

Lemma refines_TakeClient n t st i :
  represents i n t -> wlp (mode_run OTakeClient st) (refines OTakeClient n t st) i.
Proof.
  intros Hr. destruct (represents_mode i n t Hr) as (_ & _ & _ & Hc). cbn [mode_run]. apply wlp_bind.
  unfold StopClient_take. apply wlp_bind. unfold wlp at 1, get. rewrite Hc.
  destruct n; cbn [negb]; try (by apply refines_same). destruct Hr as (? & ? & ? & c & Hcl & <-).
  cbn. rewrite Hcl. exists Stopped, t. split; [constructor|]. by split_and!.
Qed.

Lemma refines_FinishClient c n t st1 st2 i :
  represents i n t -> wlp (mode_run (OFinishClient c) (st1 ++ st2)) (refines (OFinishClient c) n t (st1 ++ c :: st2)) i.
Proof.
  intros Hr. cbn [mode_run]. do 2 apply wlp_bind. cbn. unfold StopClient_finish. apply wlp_bind, wlp_on_listeners.
  intros _ s. cbn. exists n, None. split; [constructor|]. by destruct Hr.
Qed.

Lemma refines_TimeSync off rtt2 valid n t st i :
  represents i n t -> n = Client true \/ existsb cl_v4 st = true ->
  wlp (mode_run (OTimeSync off rtt2 valid) st) (refines (OTimeSync off rtt2 valid) n t st) i.
Proof.
  intros Hr Hc. cbn [mode_run]. apply wlp_bind. unfold time_sync. apply wlp_bind, wlp_on_listeners. intros _ s.
  pose proof (s_time_sync off rtt2 valid n t st Hc) as Hst.
  destruct valid; [exists n, (Some off)|exists n, None]; (split; [exact Hst|]); by destruct Hr.
Qed.

Lemma refines_SetServers servers n t st i :
  represents i n t -> wlp (mode_run (OSetServers servers) st) (refines (OSetServers servers) n t st) i.
Proof.
  intros Hr. cbn [mode_run]. apply wlp_bind. unfold SetServers, wlp, bind, modify, get, net. cbn.
  destruct (m_networkClient i); by apply refines_same.
Qed.

Lemma refines_Reset n t st i : represents i n t -> wlp (mode_run OReset st) (refines OReset n t st) i.
Proof.
  intros Hr. cbn [mode_run]. apply wlp_bind. unfold Reset, set_mode, set_time. apply wlp_bind, wlp_get.
  assert (Hs : forall o (Q : unit -> InstanceImpl J -> Prop) j,
    (forall c, Q tt (j <| i_net ::= c |>)) -> wlp (delete_server o) Q j).
  { intros o Q j HQ. destruct o; [apply HQ|]. specialize (HQ id). by destruct j. }
  assert (Hc : forall o (Q : unit -> InstanceImpl J -> Prop) j,
    (forall c, Q tt (j <| i_net ::= c |>)) -> wlp (delete_client o) Q j).
  { intros o Q j HQ. destruct o; [apply HQ|]. specialize (HQ id). by destruct j. }
  apply wlp_bind, Hs. intros n1. apply wlp_bind, wlp_modify.
  apply wlp_bind, Hc. intros n2. do 3 apply wlp_bind, wlp_modify.
  apply wlp_bind, wlp_on_listeners. intros _ s.
  eapply wlp_mono; [apply (on_local_represents _ _ Stopped None)|].
  - split; [reflexivity|]. split; [reflexivity|]. split; reflexivity.
  - intros [] i' Hr'. exists Stopped, None. split; [constructor|done].
Qed.

Lemma inst_step_refines op i st i' st' n t :
  inst_step op (i, st) (i', st') -> represents i n t ->
  exists n' t', mode_step op (MkModes n t st) (MkModes n' t' st') /\ represents i' n' t'.
Proof.
  intros Hs Hr.
  assert (Hw : forall m, wlp m (refines op n t st) i -> m i = Some (st', i') -> refines op n t st st' i').
  { intros m Hw Hm. unfold wlp in Hw. by rewrite Hm in Hw. }
  inversion Hs; subst.
  - eapply Hw; [|eassumption]. rename select (match op with _ => _ end) into Hop. clear Hs Hw.
    destruct op; try (destruct Hop);
      first [ apply refines_local; [exact Hr|tauto] | apply refines_StartServer, Hr | apply refines_StopServer, Hr
            | apply refines_StartClient, Hr | apply refines_TakeClient, Hr | apply refines_SetServers, Hr
            | apply refines_Reset, Hr ].
  - eapply Hw; [|eassumption]. by apply refines_FinishClient.
  - eapply Hw; [|eassumption]. apply refines_TimeSync; [done|]. rename select (_ \/ _) into Hc.
    destruct Hc as [Hc|Hc].
    + left. destruct Hr as [_ Hn]. destruct n; destruct Hn as (_ & ? & Hx); try congruence.
      destruct Hx as (c' & Hc' & <-). congruence.
    + right. apply existsb_exists. exists c. split; [by apply list_elem_of_In|done].
Qed.

(** ** Reachable states *)

Inductive inst_reach : InstanceImpl J * list NetworkClient -> Prop :=
| r_make inst : inst_reach (InstanceImpl_make inst, [])
| r_step op x y : inst_reach x -> inst_step op x y -> inst_reach y.

Inductive mode_reach : Modes -> Prop :=
| m_make : mode_reach (MkModes Stopped None [])
| m_step op a b : mode_reach a -> mode_step op a b -> mode_reach b.

(** The offset of the server's clock is known only while there is a server or a client of
    version 4. *)
Lemma mode_time a :
  mode_reach a -> is_Some (a_time a) ->
  (exists r, a_net a = Server r) \/ a_net a = Client true \/ existsb cl_v4 (a_stopping a) = true.
Proof.
  induction 1 as [|op a b _ IH Hs]; [by intros []|]. destruct Hs; cbn in *; try (by intros []); intros Ht.
  - destruct (IH Ht) as [[? ?]|[?|?]]; [done|done|by right; right].
  - destruct (IH Ht) as [[? ?]|[?|?]]; [done|done|by right; right].
  - left. by exists false.
  - left. by exists true.
  - destruct (IH Ht) as [[? ?]|[?|?]]; [done|done|by right; right].
  - right; right. destruct (IH Ht) as [[? ?]|[[= ->]| ->]]; [done|done|apply orb_true_r].
  - right. rename select (_ \/ _) into Hc. by destruct Hc; [left|right].
  - by apply IH.
Qed.

End Modes.

(** ** A client started, a server in its place *)

Section Example.
Context {J : Type} `{Json J}.

Definition alice : NetworkClient := MkClient true "alice".

(** [StopClient] in one thread and [StartServer] in another: the second half of
    [StopClient] takes the time offset away from the server. *)
Definition race : list mode_op :=
  [OStartClient alice; OTakeClient; OStartServer "f" EmptyString 1735 5810; OFinishClient alice].

Definition race_at (k : nat) : InstanceImpl J * list NetworkClient :=
  foldl (fun '(i, st) op =>
    let st0 := match op with OFinishClient _ => [] | _ => st end in
    match mode_run op st0 i with Some (st', i') => (i', st') | None => (i, st) end)
    (InstanceImpl_make 0, []) (take k race).
Definition race_state : InstanceImpl J * list NetworkClient := race_at 4.

Lemma race_at_reach k : (k <= 4)%nat -> inst_reach (race_at k).
Proof.
  assert (E : forall k st, (race_at k).2 = st -> race_at k = ((race_at k).1, st)).
  { intros k' st <-. apply surjective_pairing. }
  assert (E0 := E 0%nat [] ltac:(vm_compute; reflexivity)).
  assert (E1 := E 1%nat [] ltac:(vm_compute; reflexivity)).
  assert (E2 := E 2%nat [alice] ltac:(vm_compute; reflexivity)).
  assert (E3 := E 3%nat [alice] ltac:(vm_compute; reflexivity)).
  assert (E4 := E 4%nat [] ltac:(vm_compute; reflexivity)).
  assert (H1 : inst_step (OStartClient alice) (race_at 0) (race_at 1)).
  { rewrite E0, E1. apply i_op; [exact I|vm_compute; reflexivity]. }
  assert (H2 : inst_step OTakeClient (race_at 1) (race_at 2)).
  { rewrite E1, E2. apply i_op; [exact I|vm_compute; reflexivity]. }
  assert (H3 : inst_step (OStartServer "f" EmptyString 1735 5810) (race_at 2) (race_at 3)).
  { rewrite E2, E3. apply i_op; [exact I|vm_compute; reflexivity]. }
  assert (H4 : inst_step (OFinishClient alice) (race_at 3) (race_at 4)).
  { rewrite E3, E4. apply (i_finish alice _ [] []). vm_compute. reflexivity. }
  pose proof (r_make 0 : inst_reach (race_at 0)) as R0. pose proof (r_step _ _ _ R0 H1) as R1. pose proof (r_step _ _ _ R1 H2) as R2.
  pose proof (r_step _ _ _ R2 H3) as R3. pose proof (r_step _ _ _ R3 H4) as R4.
  intros Hk. do 5 (destruct k as [|k]; [assumption|]). lia.
Qed.
Lemma race_reach k st : (k <= 4)%nat -> (race_at k).2 = st -> inst_reach ((race_at k).1, st).
Proof. intros Hk <-. rewrite <- surjective_pairing. by apply race_at_reach. Qed.

(** The server runs and its time offset, 0, is not stored. *)
Example server_without_time :
  inst_reach (race_state.1, []) /\ represents (J := J) race_state.1 (Server false) None.
Proof. split; [apply race_reach; [lia|vm_compute; reflexivity]|]. vm_compute. split_and!; try done. by eexists. Qed.
End Example.

