(* ===== verification/ApiExample.v ===== *)
(** * ApiExample: the library in use

    A client of the whole library, on which the theorems about it are evaluated, and a run
    that shows what removing a log listener leaves behind. *)

From S2P Require Import Prelude NtTypes Handles Monads LocalTypes LocalStorage LocalShape.
From S2P Require Import LocalInv LocalSafety.
From S2P Require Import LocalValues LocalProps LocalExample Events ListenerStorage.
From S2P Require Import ListenerProofs.
From S2P Require Import ConnectionList Logger Instance InstanceProofs Api.
From S2P Require Import ApiProofs EndToEnd Logs.
Local Open Scope Z_scope.

Module ApiExample.
Import Example.

Definition inst_h : Z := Handle 0 0 kInstance.
Definition topic0 : Z := Handle 0 0 kTopic.
Definition pub0 : Z := Handle 0 0 kPublisher.
Definition sub0 : Z := Handle 0 0 kSubscriber.
Definition poller0 : Z := Handle 0 0 kListenerPoller.
Definition listener0 : Z := Handle 0 0 kListener.
Definition alice : ConnectionInfo := MkConnectionInfo "alice" "10.0.0.2" 5810 7 1024.

(** A topic with a publisher and a subscriber, and a poller that listens to the
    subscriber *)
Definition setup : list (ncall (J := js)) :=
  [NGetDefaultInstance; NCreateInstance; NGetTopic inst_h "/a";
   NPublishEx topic0 NT_DOUBLE "double" JsonNull kDefaultPubSubOptions;
   NSubscribe topic0 NT_DOUBLE "double" kDefaultPubSubOptions;
   NCreateListenerPoller inst_h; NAddPolledListener poller0 sub0 NT_EVENT_VALUE_ALL].

(** All kinds of calls *)
Definition session : list (ncall (J := js)) :=
  setup ++
  [NSetEntryValue pub0 (dbl 3 4); NReadListenerQueue poller0;
   NAddListener inst_h NT_EVENT_CONNECTION 42; NStartServer inst_h "f" EmptyString 1735 5810;
   NInternal 0 IServerReady; NInternal 0 (IConnection (OAdd alice)); NInternal 0 IThreadRead;
   NInternal 0 IThreadNext; NAddPolledLogger poller0 10 50;
   NInternal 0 (ILog WPI_LOG_ERROR "src/x.cpp" 7 "oops");
   NInternal 0 (INetwork (CNetworkAnnounce "/c" "int" ∅ 0)); NStopServer inst_h;
   NRemoveListener listener0; NDestroyListenerPoller poller0; NResetInstance inst_h;
   NDestroyInstance inst_h].

Definition state : Library js :=
  match for_each setup (nrun ticking) Library_make with Some (_, l) => l | None => Library_make end.

Lemma state_inv : lib_inv state.
Proof.
  destruct (proj1 (wp_run _ _ _) (ncalls_safe ticking setup Library_make lib_inv_make ltac:(by_eval)))
    as ([] & l & Hr & HL).
  unfold state. by rewrite Hr.
Qed.
End ApiExample.
Import Example ApiExample.


Lemma instances_isolated_witness :
  exists l i, nrun ticking (NSetEntryValue pub0 (dbl 3 4)) state = Some (tt, l) /\
    s_instances state !! 1%nat = Some (Some i) /\ s_instances l !! 1%nat = Some (Some i).
Proof.
  eassert (Hr : nrun ticking (NSetEntryValue pub0 (dbl 3 4)) state = Some (tt, _)) by by_eval.
  eassert (Hi : s_instances state !! 1%nat = Some (Some _)) by by_eval.
  eexists _, _. split; [exact Hr|]. split; [exact Hi|].
  eapply (instances_isolated ticking _ _ _ 1%nat _ Hr Hi). by vm_compute.
Defined.

(** The instance of the example *)
Definition inst0 : InstanceImpl js := match Get 0 state with Some i => i | None => InstanceImpl_make 0 end.

Lemma value_reaches_listeners_witness :
  exists l i q, Api.SetEntryValue ticking pub0 (dbl 3 4) state = Some (true, l) /\ Get 0 l = Some i /\
    hm_at (m_pollers (listenerStorage i)) 0 = Some q /\
    pl_queue q = [MkEvent listener0 NT_EVENT_VALUE_LOCAL (ValueEvent topic0 sub0 (dbl 3 4))].
Proof.
  assert (Hg : Get (GetInst pub0) state = Some inst0) by by_eval.
  assert (Hp : hm_Get kPublisher pub0 (m_publishers (localStorage inst0)) = Some 0%nat) by by_eval.
  eassert (Hpd : hm_at (m_publishers (localStorage inst0)) 0 = Some _) by by_eval.
  eassert (Ht : hm_at (m_topics (localStorage inst0)) 0 = Some _) by by_eval.
  eassert (Hq : hm_at (m_pollers (listenerStorage inst0)) 0 = Some _) by by_eval.
  destruct (value_reaches_listeners ticking state pub0 (dbl 3 4) inst0 0 _ _ state_inv Hg Hp Hpd Ht
    eq_refl eq_refl eq_refl eq_refl) as (l & i & Hr & Hi & _ & Hqs).
  destruct (Hqs _ _ Hq) as (q & Hq' & Eq).
  exists l, i, q. split; [exact Hr|]. split; [exact Hi|]. split; [exact Hq'|]. rewrite Eq. by_eval.
Defined.

Lemma log_listener_exact_witness :
  exists h l1 l2 i q, AddPolledLogger ticking poller0 10 50 state = Some (h, l1) /\
    nrun ticking (NInternal 0 (ILog WPI_LOG_ERROR "src/x.cpp" 7 "oops")) l1 = Some (tt, l2) /\
    Get 0 l2 = Some i /\ hm_at (m_pollers (listenerStorage i)) 0 = Some q /\
    pl_queue q = [MkEvent h NT_EVENT_LOGMESSAGE (LogMessage WPI_LOG_ERROR "x.cpp" 7 "oops")].
Proof.
  assert (Hg : Get (GetTypedInst kListenerPoller poller0) state = Some inst0) by by_eval.
  assert (Hp : hm_Get kListenerPoller poller0 (m_pollers (listenerStorage inst0)) = Some 0%nat) by by_eval.
  eassert (Hq : hm_at (m_pollers (listenerStorage inst0)) 0 = Some _) by by_eval.
  destruct (log_listener_exact ticking state poller0 10 50 WPI_LOG_ERROR 7 "src/x.cpp" "oops" inst0 0 _
    state_inv Hg Hp Hq) as (h & l1 & l2 & i & q & H1 & H2 & H3 & H4 & Eq).
  - unfold room. by apply Z.leb_le.
  - split; [by apply Z.leb_le|by apply Z.ltb_lt].
  - reflexivity.
  - right. left.
  - exists h, l1, l2, i, q. split_and!; [exact H1|exact H2|exact H3|exact H4|]. rewrite Eq. by_eval.
Defined.

(** ** A removed log listener *)

(** A log listener is added and removed, and then an error is logged. *)
Definition log_removed : list (ncall (J := js)) :=
  [NGetDefaultInstance; NCreateListenerPoller inst_h; NAddPolledLogger poller0 WPI_LOG_DEBUG 50;
   NRemoveListener listener0; NInternal 0 (ILog WPI_LOG_ERROR "src/x.cpp" 7 "oops")].

(** The logger still counts the listener and keeps its level: the message is neither
    printed nor delivered. *)
Example removed_logger_is_counted :
  match for_each log_removed (nrun ticking) Library_make with
  | Some (_, l) =>
      match Get 0 l with
      | Some i => m_listenerCount (logger_impl i) = 1 /\ logger_min_level i = WPI_LOG_DEBUG /\
          printed (logger_impl i) = [] /\
          hm_elements (m_pollers (listenerStorage i)) = [MkPoller poller0 []]
      | None => False
      end
  | None => False
  end.
Proof. vm_compute. by split_and!. Qed.
