(* ===== verification/Mpack.v ===== *)
(** * Mpack: the MessagePack reader and writer

    What the network code uses of the bundled [mpack] library, in the configuration the
    library is built with: no tracking, no extensions, a reader over bytes in memory.  A
    writer function is the bytes it appends; a reader function returns its result and
    the reader that is left. *)

From S2P Require Import Prelude NtTypes.
Local Open Scope Z_scope.

(** ** Writer *)

(** The integer is written in the shortest form that holds it. *)
Definition mpack_write_i64 (value : Z) : bytes :=
  if -32 <=? value then
    if value <=? 127 then [u8 value]
    else if value <=? 0xff then u8 0xcc :: be_split 1 value
    else if value <=? 0xffff then u8 0xcd :: be_split 2 value
    else if value <=? 0xffffffff then u8 0xce :: be_split 4 value
    else u8 0xcf :: be_split 8 value
  else if -0x80 <=? value then u8 0xd0 :: be_split 1 value
  else if -0x8000 <=? value then u8 0xd1 :: be_split 2 value
  else if -0x80000000 <=? value then u8 0xd2 :: be_split 4 value
  else u8 0xd3 :: be_split 8 value.
Definition mpack_write_int : Z -> bytes := mpack_write_i64.

Definition mpack_write_u8 (value : Z) : bytes :=
  if value <=? 127 then [u8 value] else u8 0xcc :: be_split 1 value.

Definition mpack_write_u16 (value : Z) : bytes :=
  if value <=? 127 then [u8 value] else if value <=? 0xff then u8 0xcc :: be_split 1 value else u8 0xcd :: be_split 2 value.

Definition mpack_write_bool (value : bool) : bytes := [u8 (Z.lor 0xc2 (if value then 1 else 0))].
Definition mpack_write_float (bits : Z) : bytes := u8 0xca :: be_split 4 bits.
Definition mpack_write_double (bits : Z) : bytes := u8 0xcb :: be_split 8 bits.

(** The counts are [uint32_t]. *)
Definition mpack_start_array (count : Z) : bytes :=
  let count := wrap 32 count in
  if count <=? 15 then [u8 (Z.lor 0x90 count)]
  else if count <=? 0xffff then u8 0xdc :: be_split 2 count
  else u8 0xdd :: be_split 4 count.
Definition mpack_start_map (count : Z) : bytes :=
  let count := wrap 32 count in
  if count <=? 15 then [u8 (Z.lor 0x80 count)]
  else if count <=? 0xffff then u8 0xde :: be_split 2 count
  else u8 0xdf :: be_split 4 count.

Definition str_header (count : Z) : bytes :=
  if count <=? 31 then [u8 (Z.lor 0xa0 count)]
  else if count <=? 0xff then u8 0xd9 :: be_split 1 count
  else if count <=? 0xffff then u8 0xda :: be_split 2 count
  else u8 0xdb :: be_split 4 count.
Definition bin_header (count : Z) : bytes :=
  if count <=? 0xff then u8 0xc4 :: be_split 1 count
  else if count <=? 0xffff then u8 0xc5 :: be_split 2 count
  else u8 0xc6 :: be_split 4 count.
(** [mpack_write_str(writer, s.data(), s.size())]: as many bytes follow the header as it
    says. *)
Definition mpack_write_str (s : bytes) : bytes :=
  let count := wrap 32 (zlen s) in str_header count ++ take (Z.to_nat count) s.
Definition mpack_write_bin (s : bytes) : bytes :=
  let count := wrap 32 (zlen s) in bin_header count ++ take (Z.to_nat count) s.

(** ** Reader *)

Inductive mpack_error := mpack_ok | mpack_error_invalid | mpack_error_unsupported | mpack_error_type.
#[global] Instance mpack_error_eq_dec : EqDecision mpack_error.
Proof. solve_decision. Defined.
Definition mpack_error_to_string (e : mpack_error) : string :=
  match e with
  | mpack_ok => "mpack_ok"
  | mpack_error_invalid => "mpack_error_invalid"
  | mpack_error_unsupported => "mpack_error_unsupported"
  | mpack_error_type => "mpack_error_type"
  end.

(** The bytes from [data] to [end] *)
Record mpack_reader := MkReader { rd_error : mpack_error; rd_data : bytes }.
Definition mpack_reader_init_data (data : bytes) : mpack_reader := MkReader mpack_ok data.

Definition is_ok (r : mpack_reader) : bool := bool_decide (rd_error r = mpack_ok).

(** The first error stays; what is left to read is dropped. *)
Definition flag_error (e : mpack_error) (r : mpack_reader) : mpack_reader :=
  if is_ok r then MkReader e [] else r.

Inductive mpack_tag :=
| TNil
| TBool (b : bool)
| TInt (z : Z)
| TUint (z : Z)
| TFloat (bits : Z)
| TDouble (bits : Z)
| TStr (l : Z)
| TBin (l : Z)
| TArray (n : Z)
| TMap (n : Z).

(** The big-endian number in the [n] bytes after the type byte *)
Definition with_number (n : nat) (data : bytes) (mk : Z -> mpack_tag) : mpack_error + mpack_tag * bytes :=
  if decide (length data < n)%nat then inl mpack_error_invalid
  else inr (mk (be_combine (take n data)), drop n data).

Definition mpack_parse_tag (data : bytes) : mpack_error + mpack_tag * bytes :=
  match data with
  | [] => inl mpack_error_invalid
  | b :: data =>
      let type := ub b in
      if type <=? 0x7f then inr (TUint type, data)
      else if type <=? 0x8f then inr (TMap (Z.land type 0x0f), data)
      else if type <=? 0x9f then inr (TArray (Z.land type 0x0f), data)
      else if type <=? 0xbf then inr (TStr (Z.land type 0x1f), data)
      else if type =? 0xc0 then inr (TNil, data)
      else if type =? 0xc1 then inl mpack_error_invalid
      else if type <=? 0xc3 then inr (TBool (Z.testbit type 0), data)
      else if type =? 0xc4 then with_number 1 data TBin
      else if type =? 0xc5 then with_number 2 data TBin
      else if type =? 0xc6 then with_number 4 data TBin
      else if type <=? 0xc9 then inl mpack_error_unsupported
      else if type =? 0xca then with_number 4 data TFloat
      else if type =? 0xcb then with_number 8 data TDouble
      else if type =? 0xcc then with_number 1 data TUint
      else if type =? 0xcd then with_number 2 data TUint
      else if type =? 0xce then with_number 4 data TUint
      else if type =? 0xcf then with_number 8 data TUint
      else if type =? 0xd0 then with_number 1 data (fun z => TInt (swrap 8 z))
      else if type =? 0xd1 then with_number 2 data (fun z => TInt (swrap 16 z))
      else if type =? 0xd2 then with_number 4 data (fun z => TInt (swrap 32 z))
      else if type =? 0xd3 then with_number 8 data (fun z => TInt (swrap 64 z))
      else if type <=? 0xd8 then inl mpack_error_unsupported
      else if type =? 0xd9 then with_number 1 data TStr
      else if type =? 0xda then with_number 2 data TStr
      else if type =? 0xdb then with_number 4 data TStr
      else if type =? 0xdc then with_number 2 data TArray
      else if type =? 0xdd then with_number 4 data TArray
      else if type =? 0xde then with_number 2 data TMap
      else if type =? 0xdf then with_number 4 data TMap
      else inr (TInt (swrap 8 type), data)
  end.

Definition mpack_read_tag (r : mpack_reader) : mpack_tag * mpack_reader :=
  if is_ok r then
    match mpack_parse_tag (rd_data r) with
    | inl e => (TNil, flag_error e r)
    | inr (tag, data) => (tag, MkReader mpack_ok data)
    end
  else (TNil, r).

(** [mpack_expect_i64], [_i32]: an integer of either sign, in range *)
Definition mpack_expect_i64 (r : mpack_reader) : Z * mpack_reader :=
  let '(var, r) := mpack_read_tag r in
  match var with
  | TUint z => if z <=? 2 ^ 63 - 1 then (z, r) else (0, flag_error mpack_error_type r)
  | TInt z => (z, r)
  | _ => (0, flag_error mpack_error_type r)
  end.
Definition mpack_expect_i32 (r : mpack_reader) : Z * mpack_reader :=
  let '(var, r) := mpack_read_tag r in
  match var with
  | TUint z => if z <=? 2 ^ 31 - 1 then (z, r) else (0, flag_error mpack_error_type r)
  | TInt z => if (- 2 ^ 31 <=? z) && (z <=? 2 ^ 31 - 1) then (z, r) else (0, flag_error mpack_error_type r)
  | _ => (0, flag_error mpack_error_type r)
  end.
Definition mpack_expect_int := mpack_expect_i32.

Definition mpack_expect_float (r : mpack_reader) : Z * mpack_reader :=
  let '(var, r) := mpack_read_tag r in
  match var with
  | TUint z | TInt z => (f32_of_int z, r)
  | TFloat x => (x, r)
  | TDouble x => (f32_of_f64 x, r)
  | _ => (0, flag_error mpack_error_type r)
  end.
Definition mpack_expect_double (r : mpack_reader) : Z * mpack_reader :=
  let '(var, r) := mpack_read_tag r in
  match var with
  | TUint z | TInt z => (f64_of_int z, r)
  | TFloat x => (f64_of_f32 x, r)
  | TDouble x => (x, r)
  | _ => (0, flag_error mpack_error_type r)
  end.

(** [mpack_expect_native_u8], [_u16] and [_u32] *)
Definition mpack_expect_native (n : nat) (r : mpack_reader) : Z * mpack_reader :=
  if is_ok r then
    if decide (length (rd_data r) < n)%nat then (0, flag_error mpack_error_invalid r)
    else (be_combine (take n (rd_data r)), MkReader mpack_ok (drop n (rd_data r)))
  else (0, r).

Definition mpack_expect_bool (r : mpack_reader) : bool * mpack_reader :=
  let '(type, r) := mpack_expect_native 1 r in
  (Z.testbit type 0,
   if negb (Z.land type 0xfe =? 0xc2) then flag_error mpack_error_type r else r).

Definition mpack_expect_array (r : mpack_reader) : Z * mpack_reader :=
  let '(var, r) := mpack_read_tag r in
  match var with
  | TArray n => (n, r)
  | _ => (0, flag_error mpack_error_type r)
  end.
Definition mpack_expect_array_match (count : Z) (r : mpack_reader) : mpack_reader :=
  let '(n, r) := mpack_expect_array r in
  if n =? count then r else flag_error mpack_error_type r.

Definition mpack_expect_str (r : mpack_reader) : Z * mpack_reader :=
  let '(type, r) := mpack_expect_native 1 r in
  if Z.shiftr type 5 =? 5 then (Z.land type 0x1f, r)
  else if type =? 0xd9 then mpack_expect_native 1 r
  else if type =? 0xda then mpack_expect_native 2 r
  else if type =? 0xdb then mpack_expect_native 4 r
  else (0, flag_error mpack_error_type r).
Definition mpack_expect_bin (r : mpack_reader) : Z * mpack_reader :=
  let '(var, r) := mpack_read_tag r in
  match var with
  | TBin l => (l, r)
  | _ => (0, flag_error mpack_error_type r)
  end.

(** [None] is the null pointer. *)
Definition mpack_read_bytes_inplace (count : Z) (r : mpack_reader) : option bytes * mpack_reader :=
  if is_ok r then
    if count <=? zlen (rd_data r)
    then (Some (take (Z.to_nat count) (rd_data r)), MkReader mpack_ok (drop (Z.to_nat count) (rd_data r)))
    else (None, flag_error mpack_error_invalid r)
  else (None, r).

(** ** What is written is read back *)

Definition ok_reader (data : bytes) : mpack_reader := MkReader mpack_ok data.

Lemma swrap_wrap w v : 0 < w -> swrap w (wrap w v) = swrap w v.
Proof.
  intros Hw. unfold swrap, wrap. f_equal. rewrite Zplus_mod_idemp_l. done.
Qed.

Lemma with_number_be n v rest mk :
  with_number n (be_split n v ++ rest) mk = inr (mk (wrap (8 * Z.of_nat n) v), rest).
Proof.
  unfold with_number. pose proof (length_be_split n v) as Hl.
  rewrite decide_False by (rewrite length_app; lia).
  rewrite take_app_length', drop_app_length', be_combine_split by done. done.
Qed.

Lemma native_be n v rest :
  mpack_expect_native n (ok_reader (be_split n v ++ rest)) = (wrap (8 * Z.of_nat n) v, ok_reader rest).
Proof.
  unfold mpack_expect_native. change (is_ok (ok_reader (be_split n v ++ rest))) with true. cbn [rd_data ok_reader].
  pose proof (length_be_split n v) as Hl. rewrite decide_False by (rewrite length_app; lia).
  rewrite take_app_length', drop_app_length', be_combine_split by done. done.
Qed.

Lemma read_tag_inr data t rest :
  mpack_parse_tag data = inr (t, rest) -> mpack_read_tag (ok_reader data) = (t, ok_reader rest).
Proof. intros E. unfold mpack_read_tag. change (is_ok (ok_reader data)) with true. cbn [rd_data ok_reader]. by rewrite E. Qed.

(** The tag of an integer *)
Definition int_tag (z : Z) : mpack_tag := if 0 <=? z then TUint z else TInt z.

Lemma parse_fixint z rest : -32 <= z <= 127 -> mpack_parse_tag (u8 z :: rest) = inr (int_tag z, rest).
Proof.
  intros Hz. unfold mpack_parse_tag, int_tag. rewrite ub_u8. destruct (Z.leb_spec 0 z).
  - rewrite wrap_small by lia. by replace (z <=? 127) with true by lia.
  - assert (wrap 8 z = z + 256) as ->.
    { unfold wrap. symmetry. apply (Z.mod_unique _ _ (-1)); lia. }
    repeat match goal with
    | |- context [z + 256 <=? ?n] => replace (z + 256 <=? n) with false by lia
    | |- context [z + 256 =? ?n] => replace (z + 256 =? n) with false by lia
    end. unfold swrap. do 2 f_equal.
    rewrite <- (Z.mod_unique (z + 256 + 2 ^ (8 - 1)) (2 ^ 8) 1 (z + 2 ^ (8 - 1))) by lia. f_equal. lia.
Qed.

Lemma parse_headers rest :
  mpack_parse_tag (u8 0xcc :: rest) = with_number 1 rest TUint /\
  mpack_parse_tag (u8 0xcd :: rest) = with_number 2 rest TUint /\
  mpack_parse_tag (u8 0xce :: rest) = with_number 4 rest TUint /\
  mpack_parse_tag (u8 0xcf :: rest) = with_number 8 rest TUint /\
  mpack_parse_tag (u8 0xd0 :: rest) = with_number 1 rest (fun z => TInt (swrap 8 z)) /\
  mpack_parse_tag (u8 0xd1 :: rest) = with_number 2 rest (fun z => TInt (swrap 16 z)) /\
  mpack_parse_tag (u8 0xd2 :: rest) = with_number 4 rest (fun z => TInt (swrap 32 z)) /\
  mpack_parse_tag (u8 0xd3 :: rest) = with_number 8 rest (fun z => TInt (swrap 64 z)).
Proof. split_and!; reflexivity. Qed.

Lemma parse_write_i64 z rest : - 2 ^ 63 <= z < 2 ^ 63 ->
  mpack_parse_tag (mpack_write_i64 z ++ rest) = inr (int_tag z, rest).
Proof.
  intros Hz. unfold mpack_write_i64.
  destruct (parse_headers (be_split 1 z ++ rest)) as (H1 & _ & _ & _ & H5 & _ & _ & _).
  destruct (parse_headers (be_split 2 z ++ rest)) as (_ & H2 & _ & _ & _ & H6 & _ & _).
  destruct (parse_headers (be_split 4 z ++ rest)) as (_ & _ & H3 & _ & _ & _ & H7 & _).
  destruct (parse_headers (be_split 8 z ++ rest)) as (_ & _ & _ & H4 & _ & _ & _ & H8).
  destruct (Z.leb_spec (-32) z).
  - destruct (Z.leb_spec z 127); [by apply parse_fixint|].
    unfold int_tag. replace (0 <=? z) with true by lia.
    repeat (case_match; cbn [app]); rewrite ?H1, ?H2, ?H3, ?H4, with_number_be, wrap_small by lia; done.
  - unfold int_tag. replace (0 <=? z) with false by lia.
    repeat (case_match; cbn [app]); rewrite ?H5, ?H6, ?H7, ?H8, with_number_be;
      rewrite (swrap_wrap 8) || rewrite (swrap_wrap 16) || rewrite (swrap_wrap 32) || rewrite (swrap_wrap 64);
      try lia; rewrite swrap_small by lia; done.
Qed.

Lemma expect_write_i64 z rest : - 2 ^ 63 <= z < 2 ^ 63 ->
  mpack_expect_i64 (ok_reader (mpack_write_i64 z ++ rest)) = (z, ok_reader rest).
Proof.
  intros Hz. unfold mpack_expect_i64. rewrite (read_tag_inr _ _ _ (parse_write_i64 z rest Hz)).
  unfold int_tag. destruct (Z.leb_spec 0 z); [|done]. by replace (z <=? _) with true by lia.
Qed.

Lemma expect_write_u8 z rest : 0 <= z <= 127 ->
  mpack_expect_int (ok_reader (mpack_write_u8 z ++ rest)) = (z, ok_reader rest).
Proof.
  intros Hz. unfold mpack_write_u8. replace (z <=? 127) with true by lia.
  unfold mpack_expect_int, mpack_expect_i32. cbn [app]. rewrite (read_tag_inr _ _ _ (parse_fixint z rest ltac:(lia))).
  unfold int_tag. replace (0 <=? z) with true by lia. by replace (z <=? _) with true by lia.
Qed.

Lemma expect_write_bool b rest :
  mpack_expect_bool (ok_reader (mpack_write_bool b ++ rest)) = (b, ok_reader rest).
Proof. destruct b; reflexivity. Qed.

Lemma expect_write_float x rest : 0 <= x < 2 ^ 32 ->
  mpack_expect_float (ok_reader (mpack_write_float x ++ rest)) = (x, ok_reader rest).
Proof.
  intros Hx. unfold mpack_expect_float, mpack_write_float. cbn [app].
  rewrite (read_tag_inr _ (TFloat x) rest); [done|].
  change (mpack_parse_tag (u8 0xca :: be_split 4 x ++ rest)) with (with_number 4 (be_split 4 x ++ rest) TFloat).
  rewrite with_number_be, wrap_small by lia. done.
Qed.

Lemma expect_write_double x rest : 0 <= x < 2 ^ 64 ->
  mpack_expect_double (ok_reader (mpack_write_double x ++ rest)) = (x, ok_reader rest).
Proof.
  intros Hx. unfold mpack_expect_double, mpack_write_double. cbn [app].
  rewrite (read_tag_inr _ (TDouble x) rest); [done|].
  change (mpack_parse_tag (u8 0xcb :: be_split 8 x ++ rest)) with (with_number 8 (be_split 8 x ++ rest) TDouble).
  rewrite with_number_be, wrap_small by lia. done.
Qed.

Lemma ub_lor k w n : 0 <= w <= 8 -> 0 <= n < 2 ^ w -> 0 <= k -> k * 2 ^ w + n < 256 ->
  ub (u8 (Z.lor (Z.shiftl k w) n)) = k * 2 ^ w + n.
Proof.
  intros Hw Hn Hk Hb. assert (0 < 2 ^ w) by (apply Z.pow_pos_nonneg; lia).
  rewrite lor_shiftl_add, ub_u8, wrap_small by nia. done.
Qed.

Lemma land_low k w n : 0 <= w -> 0 <= n < 2 ^ w -> Z.land (k * 2 ^ w + n) (Z.ones w) = n.
Proof. intros Hw Hn. rewrite Z.land_ones, Z.add_comm, Z.mod_add by lia. by apply Z.mod_small. Qed.

Lemma expect_start_array n rest : 0 <= n < 2 ^ 32 ->
  mpack_expect_array (ok_reader (mpack_start_array n ++ rest)) = (n, ok_reader rest).
Proof.
  intros Hn. unfold mpack_start_array. cbv zeta. rewrite (wrap_small 32) by lia.
  unfold mpack_expect_array. rewrite (read_tag_inr _ (TArray n) rest); [done|].
  destruct (Z.leb_spec n 15); [|destruct (Z.leb_spec n 0xffff)]; cbn [app].
  - unfold mpack_parse_tag. change 0x90 with (Z.shiftl 9 4). rewrite ub_lor by lia. change (9 * 2 ^ 4) with 144.
    replace (144 + n <=? 127) with false by lia. replace (144 + n <=? 143) with false by lia.
    replace (144 + n <=? 159) with true by lia. do 2 f_equal. f_equal. apply (land_low 9 4); lia.
  - change (mpack_parse_tag (u8 0xdc :: be_split 2 n ++ rest)) with (with_number 2 (be_split 2 n ++ rest) TArray).
    rewrite with_number_be, wrap_small by lia. done.
  - change (mpack_parse_tag (u8 0xdd :: be_split 4 n ++ rest)) with (with_number 4 (be_split 4 n ++ rest) TArray).
    rewrite with_number_be, wrap_small by lia. done.
Qed.

Lemma expect_byte z data : 0 <= z < 256 ->
  mpack_expect_native 1 (ok_reader (u8 z :: data)) = (z, ok_reader data).
Proof. intros Hz. rewrite <- (wrap_small 8 z Hz) at 2. exact (native_be 1 z data). Qed.

Lemma expect_str_header n rest : 0 <= n < 2 ^ 32 ->
  mpack_expect_str (ok_reader (str_header n ++ rest)) = (n, ok_reader rest).
Proof.
  intros Hn. unfold str_header, mpack_expect_str.
  destruct (Z.leb_spec n 31); [|destruct (Z.leb_spec n 0xff); [|destruct (Z.leb_spec n 0xffff)]]; cbn [app].
  - change 0xa0 with (Z.shiftl 5 5). rewrite lor_shiftl_add by lia. change (5 * 2 ^ 5) with 160.
    rewrite expect_byte by lia. rewrite Z.shiftr_div_pow2 by lia.
    replace ((160 + n) / 2 ^ 5) with 5 by (apply (Z.div_unique _ _ _ n); lia). cbn [Z.eqb].
    f_equal. apply (land_low 5 5); lia.
  - rewrite expect_byte by lia. change (Z.shiftr 0xd9 5 =? 5) with false. change (0xd9 =? 0xd9) with true. cbn iota.
    rewrite native_be, wrap_small by lia. done.
  - rewrite expect_byte by lia. change (Z.shiftr 0xda 5 =? 5) with false. change (0xda =? 0xd9) with false.
    change (0xda =? 0xda) with true. cbn iota. rewrite native_be, wrap_small by lia. done.
  - rewrite expect_byte by lia. change (Z.shiftr 0xdb 5 =? 5) with false. change (0xdb =? 0xd9) with false.
    change (0xdb =? 0xda) with false. change (0xdb =? 0xdb) with true. cbn iota.
    rewrite native_be, wrap_small by lia. done.
Qed.

Lemma expect_bin_header n rest : 0 <= n < 2 ^ 32 ->
  mpack_expect_bin (ok_reader (bin_header n ++ rest)) = (n, ok_reader rest).
Proof.
  intros Hn. unfold bin_header, mpack_expect_bin. rewrite (read_tag_inr _ (TBin n) rest); [done|].
  destruct (Z.leb_spec n 0xff); [|destruct (Z.leb_spec n 0xffff)]; cbn [app].
  - change (mpack_parse_tag (u8 0xc4 :: be_split 1 n ++ rest)) with (with_number 1 (be_split 1 n ++ rest) TBin).
    rewrite with_number_be, wrap_small by lia. done.
  - change (mpack_parse_tag (u8 0xc5 :: be_split 2 n ++ rest)) with (with_number 2 (be_split 2 n ++ rest) TBin).
    rewrite with_number_be, wrap_small by lia. done.
  - change (mpack_parse_tag (u8 0xc6 :: be_split 4 n ++ rest)) with (with_number 4 (be_split 4 n ++ rest) TBin).
    rewrite with_number_be, wrap_small by lia. done.
Qed.

Lemma read_bytes_app s rest :
  mpack_read_bytes_inplace (zlen s) (ok_reader (s ++ rest)) = (Some s, ok_reader rest).
Proof.
  unfold mpack_read_bytes_inplace. change (is_ok (ok_reader (s ++ rest))) with true. cbn [rd_data ok_reader].
  rewrite zlen_app. pose proof (zlen_nonneg rest). replace (zlen s <=? _) with true by lia.
  unfold zlen. rewrite Nat2Z.id, take_app_length, drop_app_length. done.
Qed.

(** ** A reader consumes its input *)

Lemma flag_error_not_ok e r : e <> mpack_ok -> is_ok (flag_error e r) = false.
Proof.
  intros He. unfold flag_error. destruct (is_ok r) eqn:E; [|done]. unfold is_ok. cbn. by apply bool_decide_eq_false_2.
Qed.

Definition consumes {A} (m : mpack_reader -> A * mpack_reader) : Prop :=
  forall r, is_ok (m r).2 = true -> is_ok r = true /\ (length (rd_data (m r).2) < length (rd_data r))%nat.

Lemma with_number_length n data mk t rest :
  with_number n data mk = inr (t, rest) -> (length rest <= length data)%nat.
Proof. unfold with_number. case_match; [done|]. intros [= <- <-]. rewrite length_drop. lia. Qed.

Lemma read_tag_consumes : consumes mpack_read_tag.
Proof.
  intros r. unfold mpack_read_tag. destruct (is_ok r) eqn:E; [|cbn; by rewrite E].
  destruct (mpack_parse_tag (rd_data r)) as [e|[t rest]] eqn:Et; cbn [fst snd rd_data].
  - intros Hok. split; [done|]. exfalso.
    assert (e <> mpack_ok) as He; [|by rewrite flag_error_not_ok in Hok].
    unfold mpack_parse_tag in Et. destruct (rd_data r); [by simplify_eq|].
    repeat case_match; simplify_eq; try done; unfold with_number in Et; case_match; by simplify_eq.
  - intros _. split; [done|]. unfold mpack_parse_tag in Et. destruct (rd_data r) as [|b d]; [done|]. cbn [length].
    repeat case_match; simplify_eq; try lia; apply with_number_length in Et; lia.
Qed.
