(* ===== verification/JsonParser.v ===== *)
(** * JsonParser: reading JSON text

    The lexer and the recursive descent parser of [wpi::json] ([json_parser.cpp]), as
    [json::parse] uses them: without a callback, and throwing on errors.  The lexer's
    position is the text that is left.  How the digits of a floating point number are
    read ([strtod]) is the parameter [float_value]. *)

From S2P Require Import Prelude Json.
Local Open Scope Z_scope.

(** ** Objects

    Keys of an object are unique; they are kept in the order the serializer sorts them
    into. *)

Fixpoint bytes_ltb (a b : bytes) : bool :=
  match a, b with
  | [], [] => false
  | [], _ :: _ => true
  | _ :: _, [] => false
  | x :: a, y :: b => (ub x <? ub y) || ((ub x =? ub y) && bytes_ltb a b)
  end.

(** [StringMap::try_emplace]: a key that is present keeps its value. *)
Fixpoint obj_try_emplace (k : bytes) (v : jvalue) (l : list (bytes * jvalue)) :=
  match l with
  | [] => [(k, v)]
  | (k', v') :: l' =>
      if bytes_ltb k k' then (k, v) :: l
      else if bool_decide (k = k') then l
      else (k', v') :: obj_try_emplace k v l'
  end.

(** [object_t::find] *)
Fixpoint obj_find (k : bytes) (l : list (bytes * jvalue)) : option jvalue :=
  match l with
  | [] => None
  | (k', v) :: l => if bool_decide (k = k') then Some v else obj_find k l
  end.

(** ** Lexer *)

Inductive token :=
| literal_true | literal_false | literal_null
| value_string (s : bytes)
| value_unsigned (z : Z)
| value_integer (z : Z)
| value_float (bits : Z)
| begin_array | begin_object | end_array | end_object
| name_separator | value_separator
| parse_error | end_of_input.

Definition in_range (lo hi : Z) (b : byte) : bool := (lo <=? ub b) && (ub b <=? hi).

(** A digit of [get_codepoint] *)
Definition hex_value (b : byte) : option Z :=
  if in_range 0x30 0x39 b then Some (ub b - 0x30)
  else if in_range 0x41 0x46 b then Some (ub b - 0x37)
  else if in_range 0x61 0x66 b then Some (ub b - 0x57)
  else None.
Definition get_codepoint (a b c d : byte) : option Z :=
  a ← hex_value a; b ← hex_value b; c ← hex_value c; d ← hex_value d;
  Some (Z.shiftl a 12 + Z.shiftl b 8 + Z.shiftl c 4 + d).

Definition utf8_encode (codepoint : Z) : bytes :=
  if codepoint <? 0x80 then [u8 codepoint]
  else if codepoint <=? 0x7ff then
    [u8 (Z.lor 0xc0 (Z.shiftr codepoint 6)); u8 (Z.lor 0x80 (Z.land codepoint 0x3f))]
  else if codepoint <=? 0xffff then
    [u8 (Z.lor 0xe0 (Z.shiftr codepoint 12)); u8 (Z.lor 0x80 (Z.land (Z.shiftr codepoint 6) 0x3f));
     u8 (Z.lor 0x80 (Z.land codepoint 0x3f))]
  else
    [u8 (Z.lor 0xf0 (Z.shiftr codepoint 18)); u8 (Z.lor 0x80 (Z.land (Z.shiftr codepoint 12) 0x3f));
     u8 (Z.lor 0x80 (Z.land (Z.shiftr codepoint 6) 0x3f)); u8 (Z.lor 0x80 (Z.land codepoint 0x3f))].

(** The escapes of one character *)
Definition escape_char (b : byte) : option byte :=
  if ub b =? 0x22 then Some (u8 0x22)
  else if ub b =? 0x5c then Some (u8 0x5c)
  else if ub b =? 0x2f then Some (u8 0x2f)
  else if ub b =? 0x62 then Some (u8 0x08)
  else if ub b =? 0x66 then Some (u8 0x0c)
  else if ub b =? 0x6e then Some (u8 0x0a)
  else if ub b =? 0x72 then Some (u8 0x0d)
  else if ub b =? 0x74 then Some (u8 0x09)
  else None.

(** The ranges of the bytes that follow a byte of more than seven bits *)
Definition next_bytes (b : byte) : option (list (Z * Z)) :=
  if in_range 0xc2 0xdf b then Some [(0x80, 0xbf)]
  else if in_range 0xe0 0xe0 b then Some [(0xa0, 0xbf); (0x80, 0xbf)]
  else if in_range 0xe1 0xec b || in_range 0xee 0xef b then Some [(0x80, 0xbf); (0x80, 0xbf)]
  else if in_range 0xed 0xed b then Some [(0x80, 0x9f); (0x80, 0xbf)]
  else if in_range 0xf0 0xf0 b then Some [(0x90, 0xbf); (0x80, 0xbf); (0x80, 0xbf)]
  else if in_range 0xf1 0xf3 b then Some [(0x80, 0xbf); (0x80, 0xbf); (0x80, 0xbf)]
  else if in_range 0xf4 0xf4 b then Some [(0x80, 0x8f); (0x80, 0xbf); (0x80, 0xbf)]
  else None.

(** [scan_string] after the opening quote.  [pending] is what [next_byte_in_range] still
    expects; [buf] is [token_buffer].  [None] is a parse error. *)
Fixpoint scan_string_loop (s : bytes) (pending : list (Z * Z)) (buf : bytes) : option (bytes * bytes) :=
  match s with
  | [] => None
  | b :: s =>
      match pending with
      | (lo, hi) :: pending => if in_range lo hi b then scan_string_loop s pending (buf ++ [b]) else None
      | [] =>
          if ub b =? 0x22 then Some (buf, s)
          else if ub b =? 0x5c then
            match s with
            | [] => None
            | e :: s =>
                if ub e =? 0x75 then
                  match s with
                  | a1 :: a2 :: a3 :: a4 :: s =>
                      codepoint1 ← get_codepoint a1 a2 a3 a4;
                      if (0xd800 <=? codepoint1) && (codepoint1 <=? 0xdbff) then
                        match s with
                        | bs :: u :: c1 :: c2 :: c3 :: c4 :: s =>
                            if (ub bs =? 0x5c) && (ub u =? 0x75) then
                              codepoint2 ← get_codepoint c1 c2 c3 c4;
                              if (0xdc00 <=? codepoint2) && (codepoint2 <=? 0xdfff)
                              then scan_string_loop s []
                                     (buf ++ utf8_encode (Z.shiftl codepoint1 10 + codepoint2 - 0x35fdc00))
                              else None
                            else None
                        | _ => None
                        end
                      else if (0xdc00 <=? codepoint1) && (codepoint1 <=? 0xdfff) then None
                      else scan_string_loop s [] (buf ++ utf8_encode codepoint1)
                  | _ => None
                  end
                else
                  match escape_char e with
                  | Some c => scan_string_loop s [] (buf ++ [c])
                  | None => None
                  end
            end
          else if ub b <? 0x20 then None
          else if ub b <? 0x80 then scan_string_loop s [] (buf ++ [b])
          else
            match next_bytes b with
            | Some ranges => scan_string_loop s ranges (buf ++ [b])
            | None => None
            end
      end
  end.

(** *** Numbers *)

Inductive number_state := sn_minus | sn_zero | sn_any1 | sn_decimal1 | sn_decimal2 | sn_exponent | sn_sign | sn_any2.
Inductive number_type := nt_unsigned | nt_integer | nt_float.

Definition is_digit (b : byte) : bool := in_range 0x30 0x39 b.
Definition is_exp (b : byte) : bool := (ub b =? 0x65) || (ub b =? 0x45).
Definition is_dot (b : byte) : bool := ub b =? 0x2e.
Definition is_sign (b : byte) : bool := (ub b =? 0x2b) || (ub b =? 0x2d).

Inductive number_move := Goto (st : number_state) | Done | Error.

(** What the label of a state does with the next character *)
Definition scan_number_step (st : number_state) (b : byte) : number_move :=
  match st with
  | sn_minus => if ub b =? 0x30 then Goto sn_zero else if is_digit b then Goto sn_any1 else Error
  | sn_zero => if is_dot b then Goto sn_decimal1 else if is_exp b then Goto sn_exponent else Done
  | sn_any1 =>
      if is_digit b then Goto sn_any1 else if is_dot b then Goto sn_decimal1
      else if is_exp b then Goto sn_exponent else Done
  | sn_decimal1 => if is_digit b then Goto sn_decimal2 else Error
  | sn_decimal2 => if is_digit b then Goto sn_decimal2 else if is_exp b then Goto sn_exponent else Done
  | sn_exponent => if is_sign b then Goto sn_sign else if is_digit b then Goto sn_any2 else Error
  | sn_sign => if is_digit b then Goto sn_any2 else Error
  | sn_any2 => if is_digit b then Goto sn_any2 else Done
  end.
(** ... and at the end of the input *)
Definition scan_number_end (st : number_state) : bool :=
  match st with sn_minus | sn_decimal1 | sn_exponent | sn_sign => false | _ => true end.

Definition enter (st : number_state) (type : number_type) : number_type :=
  match st with
  | sn_minus => nt_integer
  | sn_decimal1 | sn_exponent => nt_float
  | _ => type
  end.

Fixpoint scan_number_loop (st : number_state) (type : number_type) (s buf : bytes) :
    option (number_type * bytes * bytes) :=
  let type := enter st type in
  match s with
  | [] => if scan_number_end st then Some (type, buf, []) else None
  | b :: s' =>
      match scan_number_step st b with
      | Goto st => scan_number_loop st type s' (buf ++ [b])
      | Done => Some (type, buf, s)
      | Error => None
      end
  end.

(** The number in a string of digits, with or without a minus sign ([strtoull], [strtoll]) *)
Definition digits_value (s : bytes) : Z := foldl (fun acc b => acc * 10 + (ub b - 0x30)) 0 s.
Definition decimal_value (s : bytes) : Z :=
  match s with
  | b :: s' => if ub b =? 0x2d then - digits_value s' else digits_value s
  | [] => 0
  end.

(** The exceptions [json::parse_error] and [json::out_of_range]; [PFuel] does not occur
    ([json_parse_fuel]). *)
Inductive presult (A : Type) := POk (v : A) (s : bytes) | PError | PRange | PFuel.
Arguments POk {A} v s.
Arguments PError {A}.
Arguments PRange {A}.
Arguments PFuel {A}.

Section Scan.
Context `{JsonFloat}.

Definition number_token (type : number_type) (buf : bytes) : token :=
  let x := decimal_value buf in
  match type with
  | nt_unsigned => if x <=? 2 ^ 64 - 1 then value_unsigned x else value_float (float_value buf)
  | nt_integer => if (- 2 ^ 63 <=? x) && (x <=? 2 ^ 63 - 1) then value_integer x else value_float (float_value buf)
  | nt_float => value_float (float_value buf)
  end.

(** The state (init) of [scan_number] *)
Definition number_start (b : byte) : number_state :=
  if ub b =? 0x2d then sn_minus else if ub b =? 0x30 then sn_zero else sn_any1.

(** [scan_number] with the first character [b] *)
Definition scan_number (b : byte) (s : bytes) : token * bytes :=
  match scan_number_loop (number_start b) nt_unsigned s [b] with
  | Some (type, buf, s) => (number_token type buf, s)
  | None => (parse_error, [])
  end.

(** The rest of a literal; after a parse error nothing more is read. *)
Fixpoint scan_literal (text s : bytes) (t : token) : token * bytes :=
  match text, s with
  | [], s => (t, s)
  | c :: text, b :: s => if bool_decide (b = c) then scan_literal text s t else (parse_error, [])
  | _, [] => (parse_error, [])
  end.

Definition is_space (b : byte) : bool :=
  (ub b =? 0x20) || (ub b =? 0x09) || (ub b =? 0x0a) || (ub b =? 0x0d).

(** [lexer::scan]: the next token, and the text after it.  A null character ends the
    input. *)
Fixpoint scan (s : bytes) : token * bytes :=
  match s with
  | [] => (end_of_input, [])
  | b :: s =>
      if is_space b then scan s
      else if ub b =? 0x5b then (begin_array, s)
      else if ub b =? 0x5d then (end_array, s)
      else if ub b =? 0x7b then (begin_object, s)
      else if ub b =? 0x7d then (end_object, s)
      else if ub b =? 0x3a then (name_separator, s)
      else if ub b =? 0x2c then (value_separator, s)
      else if ub b =? 0x74 then scan_literal (bytes_of_string "rue") s literal_true
      else if ub b =? 0x66 then scan_literal (bytes_of_string "alse") s literal_false
      else if ub b =? 0x6e then scan_literal (bytes_of_string "ull") s literal_null
      else if ub b =? 0x22 then
        match scan_string_loop s [] [] with
        | Some (t, s) => (value_string t, s)
        | None => (parse_error, [])
        end
      else if (ub b =? 0x2d) || is_digit b then scan_number b s
      else if ub b =? 0 then (end_of_input, s)
      else (parse_error, [])
  end.

(** ** Parser *)

(** [parse_internal] with the last token and the text after it; the loops over the members
    of an object and the elements of an array *)
Fixpoint parse_internal (fuel : nat) (last_token : token) (s : bytes) : presult jvalue :=
  match fuel with
  | O => PFuel
  | S fuel =>
      match last_token with
      | begin_object =>
          match scan s with
          | (end_object, s) => POk (JObject []) s
          | (t, s) => parse_members fuel t s []
          end
      | begin_array =>
          match scan s with
          | (end_array, s) => POk (JArray []) s
          | (t, s) => parse_elements fuel t s []
          end
      | literal_null => POk JNull s
      | value_string t => POk (JString t) s
      | literal_true => POk (JBoolean true) s
      | literal_false => POk (JBoolean false) s
      | value_unsigned z => POk (JUnsigned z) s
      | value_integer z => POk (JInteger z) s
      | value_float x => if isfinite x then POk (JFloat x) s else PRange
      | _ => PError
      end
  end
with parse_members (fuel : nat) (last_token : token) (s : bytes) (obj : list (bytes * jvalue)) : presult jvalue :=
  match fuel with
  | O => PFuel
  | S fuel =>
      match last_token with
      | value_string key =>
          match scan s with
          | (name_separator, s) =>
              let '(t, s) := scan s in
              match parse_internal fuel t s with
              | POk v s =>
                  let obj := obj_try_emplace key v obj in
                  match scan s with
                  | (value_separator, s) => let '(t, s) := scan s in parse_members fuel t s obj
                  | (end_object, s) => POk (JObject obj) s
                  | _ => PError
                  end
              | e => e
              end
          | _ => PError
          end
      | _ => PError
      end
  end
with parse_elements (fuel : nat) (last_token : token) (s : bytes) (arr : list jvalue) : presult jvalue :=
  match fuel with
  | O => PFuel
  | S fuel =>
      match parse_internal fuel last_token s with
      | POk v s =>
          let arr := arr ++ [v] in
          match scan s with
          | (value_separator, s) => let '(t, s) := scan s in parse_elements fuel t s arr
          | (end_array, s) => POk (JArray arr) s
          | _ => PError
          end
      | e => e
      end
  end.

(** The constructor of the lexer skips a byte order mark. *)
Definition skip_bom (s : bytes) : bytes :=
  match s with
  | a :: b :: c :: s' => if (ub a =? 0xef) && (ub b =? 0xbb) && (ub c =? 0xbf) then s' else s
  | _ => s
  end.

(** [json::parse]: one value and then the end of the input *)
Definition json_parse (text : bytes) : presult jvalue :=
  let '(t, s) := scan (skip_bom text) in
  match parse_internal (2 * length text + 2) t s with
  | POk v s =>
      match scan s with
      | (end_of_input, s) => POk v s
      | _ => PError
      end
  | e => e
  end.
End Scan.
