(* ===== verification/JsonRoundTrip.v ===== *)
(** * JsonRoundTrip: the parser reads what the serializer writes

    The parser ends on every input, and [json::parse] of the text of a value is the value,
    up to the sign type of integers and non-finite numbers. *)

From S2P Require Import Prelude Json JsonParser.
Local Open Scope Z_scope.

Lemma Forall2_weaken {A B} (P Q : A -> B -> Prop) l k :
  Forall2 P l k -> (forall x y, x ∈ l -> P x y -> Q x y) -> Forall2 Q l k.
Proof.
  intros Hl. induction Hl as [|x y l k Hx Hl IH]; intros HQ; constructor.
  - apply HQ; [set_solver|done].
  - apply IH. intros. apply HQ; [set_solver|done].
Qed.

(** ** Strings *)

(** What the lexer expects in a state of the serializer's automaton *)
Definition pending_of (st : Z) : list (Z * Z) :=
  if st =? 2 then [(0x80, 0xbf)]
  else if st =? 3 then [(0x80, 0xbf); (0x80, 0xbf)]
  else if st =? 4 then [(0xa0, 0xbf); (0x80, 0xbf)]
  else if st =? 5 then [(0x80, 0x9f); (0x80, 0xbf)]
  else if st =? 6 then [(0x90, 0xbf); (0x80, 0xbf); (0x80, 0xbf)]
  else if st =? 7 then [(0x80, 0xbf); (0x80, 0xbf); (0x80, 0xbf)]
  else if st =? 8 then [(0x80, 0x8f); (0x80, 0xbf); (0x80, 0xbf)]
  else [].

(** The least code point so far *)
Definition least (st : Z) : Z :=
  if st =? 0 then 0x80 else if (st =? 4) || (st =? 6) then 0 else if st =? 2 then 2 else 1.

(** A byte in the initial state *)
Definition lead_ok (b : byte) : bool :=
  let '(st, cp) := decode 0 0 b in
  if st =? 1 then true
  else if st =? 0 then (ub b <? 0x80) && (cp =? ub b)
  else (0x80 <=? ub b) && (2 <=? st) && (st <=? 8) && (least st <=? cp) && (cp <? 2 ^ 8)
       && bool_decide (next_bytes b = Some (pending_of st)).

Lemma lead_all b : lead_ok b = true.
Proof. destruct b; vm_compute; reflexivity. Qed.

(** A byte in another state *)
Definition next_ok (st : Z) (b : byte) : bool :=
  let st' := (decode st 0 b).1 in
  if st' =? 1 then true
  else match pending_of st with
       | (lo, hi) :: p => bool_decide (p = pending_of st') && in_range lo hi b
           && ((st' =? 0) || ((2 <=? st') && (st' <=? 8)))
           && (least st' <=? 64 * least st + Z.land (ub b) 0x3f)
       | [] => false
       end.

Lemma next_all st b : 2 <= st <= 8 -> next_ok st b = true.
Proof.
  intros Hst. assert (st = 2 \/ st = 3 \/ st = 4 \/ st = 5 \/ st = 6 \/ st = 7 \/ st = 8) as E by lia.
  destruct E as [->|[->|[->|[->|[->|[->| ->]]]]]]; destruct b; vm_compute; reflexivity.
Qed.

Lemma lor_codep b cp : 0 <= cp < 2 ^ 26 ->
  Z.lor (Z.land (ub b) 0x3f) (wrap 32 (Z.shiftl cp 6)) = 64 * cp + Z.land (ub b) 0x3f.
Proof.
  intros Hc. change 0x3f with (Z.ones 6). rewrite Z.land_ones by lia.
  pose proof (Z.mod_pos_bound (ub b) (2 ^ 6) ltac:(lia)).
  rewrite wrap_small by (rewrite Z.shiftl_mul_pow2; lia).
  rewrite Z.lor_comm, lor_shiftl_add by lia. lia.
Qed.

(** The characters below 0x80 *)
Lemma scan_ascii b tail buf : ub b < 0x80 ->
  scan_string_loop (dump_codepoint false (ub b) b ++ tail) [] buf = scan_string_loop tail [] (buf ++ [b]).
Proof. destruct b; intros Hb; first [reflexivity|exfalso; vm_compute in Hb; discriminate]. Qed.

Lemma dump_high cp b : 0x80 <= cp -> dump_codepoint false cp b = [b].
Proof.
  intros Hc. unfold dump_codepoint.
  repeat match goal with |- context [cp =? ?n] => replace (cp =? n) with false by lia end.
  replace (cp <=? 0x1f) with false by lia. reflexivity.
Qed.

(** The automaton has read the start of a character. *)
Definition inside (st cp : Z) : Prop :=
  2 <= st <= 8 /\ least st <= cp < 2 ^ (26 - 6 * zlen (pending_of st)).

Lemma pending_bound st : 2 <= st <= 8 -> 1 <= zlen (pending_of st) <= 3.
Proof.
  intros Hst. unfold pending_of.
  repeat (match goal with |- context [if st =? ?n then _ else _] => destruct (Z.eqb_spec st n) end;
    [vm_compute; split; discriminate|]). lia.
Qed.

Lemma decode_lead b cp st cp' : decode 0 cp b = (st, cp') -> st <> 1 ->
  (st = 0 /\ ub b < 0x80 /\ cp' = ub b) \/
  (inside st cp' /\ 0x80 <= ub b /\ next_bytes b = Some (pending_of st)).
Proof.
  intros Hd H1. change (decode 0 cp b) with (decode 0 0 b) in Hd.
  pose proof (lead_all b) as Hl. unfold lead_ok in Hl. rewrite Hd in Hl.
  destruct (Z.eqb_spec st 1); [done|]. destruct (Z.eqb_spec st 0).
  - left. apply andb_true_iff in Hl. lia.
  - right. rewrite !andb_true_iff in Hl. destruct Hl as [[[[[H2 H3] H4] H5] H6] H7].
    apply bool_decide_eq_true in H7. pose proof (pending_bound st ltac:(lia)).
    split; [|split; [lia|done]]. split; [lia|]. split; [lia|].
    eapply Z.lt_le_trans; [apply Z.ltb_lt, H6|]. apply Z.pow_le_mono_r; lia.
Qed.

Lemma decode_next b st cp st' cp' : inside st cp -> decode st cp b = (st', cp') -> st' <> 1 ->
  (exists lo hi, pending_of st = (lo, hi) :: pending_of st' /\ in_range lo hi b = true) /\
  (st' = 0 /\ 0x80 <= cp' \/ inside st' cp').
Proof.
  intros [Hst Hcp] Hd H1. pose proof (next_all st b Hst) as Hn. unfold next_ok in Hn.
  pose proof (pending_bound st Hst) as Hp.
  assert (cp < 2 ^ 20) as Hc.
  { eapply Z.lt_le_trans; [apply Hcp|]. apply Z.pow_le_mono_r; lia. }
  assert (0 <= least st) by (unfold least; repeat case_match; lia).
  unfold decode in Hd. destruct (Z.eqb_spec st UTF8_ACCEPT); [unfold UTF8_ACCEPT in *; lia|]. cbn [negb] in Hd.
  rewrite lor_codep in Hd by lia. injection Hd as E <-.
  change ((decode st 0 b).1) with (default 0 (utf8_states !! Z.to_nat (st * 16 + utf8_class (ub b)))) in Hn.
  rewrite E in Hn. destruct (Z.eqb_spec st' 1); [done|].
  destruct (pending_of st) as [|[lo hi] p] eqn:Ep; [discriminate|].
  rewrite !andb_true_iff, orb_true_iff, andb_true_iff in Hn. destruct Hn as [[[H2 H3] H4] H5].
  apply bool_decide_eq_true in H2. subst p.
  assert (0 <= Z.land (ub b) 63 < 64) as Hl.
  { change 63 with (Z.ones 6). rewrite Z.land_ones by lia. apply Z.mod_pos_bound. lia. }
  split; [by exists lo, hi|]. destruct H4 as [H4|H4].
  - left. apply Z.eqb_eq in H4. split; [done|]. rewrite H4 in H5. change (least 0) with 0x80 in H5. lia.
  - right. split; [lia|]. split; [lia|]. rewrite zlen_cons in Hcp.
    replace (26 - 6 * zlen (pending_of st')) with (6 + (26 - 6 * (1 + zlen (pending_of st')))) by lia.
    pose proof (zlen_nonneg (pending_of st')). rewrite zlen_cons in Hp.
    rewrite Z.pow_add_r by lia. lia.
Qed.

Lemma scan_dump_loop s st cp t rest buf :
  dump_escaped_loop false s st cp = Some t -> st = 0 \/ inside st cp ->
  scan_string_loop (t ++ quote :: rest) (pending_of st) buf = Some (buf ++ s, rest).
Proof.
  revert st cp t buf. induction s as [|b s IH]; intros st cp t buf Hd Hst.
  { cbn in Hd. destruct (st =? UTF8_ACCEPT) eqn:E; [|discriminate]. injection Hd as <-.
    apply Z.eqb_eq in E. subst st. cbn. by rewrite app_nil_r. }
  cbn [dump_escaped_loop] in Hd. destruct (decode st cp b) as [st' cp'] eqn:E.
  destruct (Z.eqb_spec st' UTF8_REJECT) as [|H1]; [discriminate|].
  destruct (dump_escaped_loop false s st' cp') as [t'|] eqn:E'; [|discriminate].
  injection Hd as <-. rewrite <- app_assoc. replace (buf ++ b :: s) with ((buf ++ [b]) ++ s) by by rewrite <- app_assoc.
  destruct Hst as [->|Hin].
  - destruct (decode_lead b cp st' cp' E H1) as [(-> & Hb & ->)|(Hin & Hb & Hn)].
    + change (pending_of 0) with (@nil (Z * Z)). cbn [Z.eqb UTF8_ACCEPT]. rewrite scan_ascii by done.
      apply (IH 0 (ub b)); [done|by left].
    + destruct (Z.eqb_spec st' UTF8_ACCEPT) as [->|]; [destruct Hin; unfold UTF8_ACCEPT in *; lia|].
      change (pending_of 0) with (@nil (Z * Z)). cbn [app scan_string_loop].
      replace (ub b =? 0x22) with false by lia. replace (ub b =? 0x5c) with false by lia.
      replace (ub b <? 0x20) with false by lia. replace (ub b <? 0x80) with false by lia.
      rewrite Hn. eapply IH; [done|by right].
  - destruct (decode_next b st cp st' cp' Hin E H1) as ((lo & hi & Ep & Hr) & Hn).
    assert ((if st' =? UTF8_ACCEPT then dump_codepoint false cp' b else [b]) = [b]) as ->.
    { destruct Hn as [(-> & Hc)|Hn]; [by apply dump_high|].
      destruct (Z.eqb_spec st' UTF8_ACCEPT); [|done]. destruct Hn. unfold UTF8_ACCEPT in *. lia. }
    rewrite Ep. cbn [app scan_string_loop]. rewrite Hr. eapply IH; [done|tauto].
Qed.

Lemma scan_dump_escaped s t rest :
  dump_escaped s false = Some t -> scan_string_loop (t ++ quote :: rest) [] [] = Some (s, rest).
Proof. intros Hd. apply (scan_dump_loop s 0 0 t rest []); [done|by left]. Qed.

(** ** The parser ends *)

Lemma scan_string_length s p buf t s' :
  scan_string_loop s p buf = Some (t, s') -> (length s' < length s)%nat.
Proof.
  revert s p buf. assert (forall n s p buf, (length s <= n)%nat ->
    scan_string_loop s p buf = Some (t, s') -> (length s' < length s)%nat) as Hn; [|intros; by eapply Hn].
  induction n as [|n IH]; intros s p buf Hl Hs; (destruct s as [|b s]; [discriminate|]); cbn [length] in *; [lia|].
  cbn [scan_string_loop] in Hs.
  repeat first [apply bind_Some in Hs as (? & _ & Hs) | case_match; simplify_eq; try discriminate];
    cbn [length] in *; try lia; apply IH in Hs; cbn [length] in *; lia.
Qed.

Section RoundTrip.
Context `{JsonFloat}.

Lemma scan_number_length st type s buf ty b s' :
  scan_number_loop st type s buf = Some (ty, b, s') -> (length s' <= length s)%nat.
Proof.
  revert st type buf. induction s as [|c s IH]; intros st type buf Hs; cbn [scan_number_loop] in Hs.
  - case_match; simplify_eq. done.
  - case_match; simplify_eq; [|done]. apply IH in Hs. cbn. lia.
Qed.

Lemma scan_literal_length text s t t' s' : scan_literal text s t = (t', s') -> (length s' <= length s)%nat.
Proof.
  revert s. induction text as [|c text IH]; intros [|b s] Hs; cbn in Hs; simplify_eq; try (cbn; lia).
  case_match; simplify_eq; [|cbn; lia]. apply IH in Hs. cbn. lia.
Qed.

Definition ends (t : token) : Prop := t = end_of_input \/ t = parse_error.

Lemma scan_length s t s' : scan s = (t, s') ->
  (length s' <= length s)%nat /\ (ends t \/ (length s' < length s)%nat).
Proof.
  induction s as [|b s IH]; intros Hs; cbn [scan] in Hs; [simplify_eq; split; [done|by left; left]|].
  unfold ends, scan_number in *. cbn [length].
  repeat (case_match; simplify_eq; try (split; [cbn; lia|auto with lia]));
    try (apply scan_literal_length in Hs; lia).
  1: destruct (IH Hs); intuition lia.
  all: match goal with
       | E : scan_string_loop _ _ _ = _ |- _ => apply scan_string_length in E; lia
       | E : scan_number_loop _ _ _ _ = _ |- _ => apply scan_number_length in E; lia
       end.
Qed.

(** Enough fuel for the text that is left *)
Definition enough (r : presult jvalue) (s : bytes) : Prop :=
  r <> PFuel /\ forall v s', r = POk v s' -> (length s' <= length s)%nat.

Lemma enough_error s : enough PError s.
Proof. done. Qed.
Lemma enough_ok v s s' : (length s' <= length s)%nat -> enough (POk v s') s.
Proof. intros Hl. split; [done|]. by intros ? ? [= <- <-]. Qed.
Lemma enough_le r s s' : enough r s -> (length s <= length s')%nat -> enough r s'.
Proof. intros [H1 H2] Hl. split; [done|]. intros v t E. specialize (H2 v t E). lia. Qed.

Lemma parse_enough f :
  (forall t s, 2 * length s + 3 <= f -> enough (parse_internal f t s) s)%nat /\
  (forall t s o, 2 * length s + 4 <= f -> enough (parse_members f t s o) s)%nat /\
  (forall t s a, 2 * length s + 4 <= f -> enough (parse_elements f t s a) s)%nat.
Proof.
  induction f as [|f (IHi & IHm & IHe)]; [split_and!; intros; lia|].
  split_and!; intros t s *; intros Hf; cbn [parse_internal parse_members parse_elements].
  - destruct t; try (by apply enough_error || by apply enough_ok); try (case_match; [by apply enough_ok|done]);
      destruct (scan s) as [t s'] eqn:E; destruct (scan_length _ _ _ E) as [E1 E2].
    + assert (enough (parse_elements f t s' []) s).
      { destruct E2 as [[-> | ->]|E2]; [by destruct f as [|[|]]; [lia|lia|]..|].
        eapply enough_le; [apply IHe; lia|lia]. }
      destruct t; try done. by apply enough_ok.
    + assert (enough (parse_members f t s' []) s).
      { destruct E2 as [[-> | ->]|E2]; [by destruct f as [|[|]]; [lia|lia|]..|].
        eapply enough_le; [apply IHm; lia|lia]. }
      destruct t; try done. by apply enough_ok.
  - destruct t as [| | |key| | | | | | | | | | |]; try by apply enough_error.
    destruct (scan s) as [t s1] eqn:E1. destruct (scan_length _ _ _ E1) as [L1 L1'].
    destruct t; try by apply enough_error. destruct L1' as [[|]|L1']; [done..|].
    destruct (scan s1) as [t s2] eqn:E2. destruct (scan_length _ _ _ E2) as [L2 _].
    destruct (IHi t s2 ltac:(lia)) as [N1 N2]. destruct (parse_internal f t s2) as [v s3| | |]; try done.
    specialize (N2 v s3 eq_refl). destruct (scan s3) as [t3 s4] eqn:E3. destruct (scan_length _ _ _ E3) as [L3 _].
    destruct t3; try (by apply enough_error); [by apply enough_ok; lia|].
    destruct (scan s4) as [t5 s5] eqn:E4. destruct (scan_length _ _ _ E4) as [L4 _].
    eapply enough_le; [apply IHm; lia|lia].
  - destruct (IHi t s ltac:(lia)) as [N1 N2]. destruct (parse_internal f t s) as [v s1| | |]; try done.
    specialize (N2 v s1 eq_refl). destruct (scan s1) as [t1 s2] eqn:E1. destruct (scan_length _ _ _ E1) as [L1 L1'].
    destruct t1; try (by apply enough_error); [by apply enough_ok; lia|]. destruct L1' as [[|]|L1']; [done..|].
    destruct (scan s2) as [t2 s3] eqn:E2. destruct (scan_length _ _ _ E2) as [L2 _].
    eapply enough_le; [apply IHe; lia|lia].
Qed.

(** [json::parse] ends on every input. *)
Lemma json_parse_fuel text : json_parse text <> PFuel.
Proof.
  unfold json_parse. destruct (scan (skip_bom text)) as [t s] eqn:E. destruct (scan_length _ _ _ E) as [L1 L2].
  assert (length (skip_bom text) <= length text)%nat.
  { unfold skip_bom. repeat case_match; cbn; lia. }
  assert (parse_internal (2 * length text + 2) t s <> PFuel).
  { destruct L2 as [[-> | ->]|L2]; [by rewrite Nat.add_comm; cbn..|].
    by apply (parse_enough _); lia. }
  destruct (parse_internal _ t s) as [v s'| | |]; try done. destruct (scan s') as [[]]; done.
Qed.

(** More fuel gives the same result. *)
Lemma parse_more f : forall f', (f <= f')%nat ->
  (forall t s r, parse_internal f t s = r -> r <> PFuel -> parse_internal f' t s = r) /\
  (forall t s o r, parse_members f t s o = r -> r <> PFuel -> parse_members f' t s o = r) /\
  (forall t s a r, parse_elements f t s a = r -> r <> PFuel -> parse_elements f' t s a = r).
Proof.
  induction f as [|f IH]; intros f' Hf; [by split_and!; intros; subst|].
  destruct f' as [|f']; [lia|]. destruct (IH f' ltac:(lia)) as (IHi & IHm & IHe).
  split_and!; intros t s *; cbn [parse_internal parse_members parse_elements]; intros <- Hr.
  - destruct t; try done; destruct (scan s) as [t s1]; destruct t; try done; by (apply IHe || apply IHm).
  - destruct t; try done. destruct (scan s) as [t s1]. destruct t; try done.
    destruct (scan s1) as [t s2]. destruct (parse_internal f t s2) as [v s3| | |] eqn:E; try done;
      rewrite (IHi _ _ _ E) by done; try done.
    destruct (scan s3) as [t3 s4]. destruct t3; try done. destruct (scan s4). by apply IHm.
  - destruct (parse_internal f t s) as [v s3| | |] eqn:E; try done; rewrite (IHi _ _ _ E) by done; try done.
    destruct (scan s3) as [t3 s4]. destruct t3; try done. destruct (scan s4). by apply IHe.
Qed.

(** ** Numbers *)

(** The text after a number does not continue it. *)
Definition stops (rest : bytes) : bool :=
  match rest with
  | [] => true
  | b :: _ => negb (is_digit b || is_dot b || is_exp b)
  end.

Lemma scan_digits ds ty rest buf : forallb is_digit ds = true -> stops rest = true ->
  scan_number_loop sn_any1 ty (ds ++ rest) buf = Some (ty, buf ++ ds, rest).
Proof.
  intros Hd Hr. revert buf. induction ds as [|d ds IH]; intros buf; cbn [app].
  - rewrite app_nil_r. destruct rest as [|b rest]; [done|]. cbn in Hr |- *.
    destruct (is_digit b), (is_dot b), (is_exp b); done.
  - cbn in Hd |- *. apply andb_true_iff in Hd as [-> Hd]. rewrite (IH Hd). by rewrite <- app_assoc.
Qed.

Lemma digits_loop_opp f z : digits_loop f (- z) = digits_loop f z.
Proof.
  revert z. induction f as [|f IH]; intros z; cbn; [done|].
  rewrite Z.rem_opp_l, Z.quot_opp_l, Z.abs_opp, IH by done.
  by destruct (Z.eqb_spec (- z) 0), (Z.eqb_spec z 0); try lia.
Qed.

Lemma is_digit_u8 d : 0 <= d < 10 -> is_digit (u8 (0x30 + d)) = true /\ ub (u8 (0x30 + d)) = 0x30 + d.
Proof. intros Hd. unfold is_digit, in_range. rewrite ub_u8, wrap_small by lia. lia. Qed.

Lemma digits_spec f z : 0 < z < 10 ^ Z.of_nat f ->
  exists h t, rev (digits_loop f z) = h :: t /\ is_digit h = true /\ ub h <> 0x30 /\
    forallb is_digit t = true /\ digits_value (h :: t) = z.
Proof.
  revert z. induction f as [|f IH]; intros z Hz; [cbn in Hz; lia|].
  rewrite Nat2Z.inj_succ, Z.pow_succ_r in Hz by lia. cbn [digits_loop].
  replace (z =? 0) with false by lia. rewrite Z.rem_mod_nonneg, Z.quot_div_nonneg by lia.
  pose proof (Z.mod_pos_bound z 10 ltac:(lia)). rewrite Z.abs_eq by lia.
  destruct (is_digit_u8 (z `mod` 10) ltac:(lia)) as [D1 D2]. cbn [rev].
  destruct (decide (z / 10 = 0)) as [E|E].
  - rewrite E. assert (digits_loop f 0 = []) as -> by (by destruct f). cbn [rev app].
    exists (u8 (48 + z `mod` 10)), []. unfold digits_value. cbn [foldl]. rewrite D2.
    pose proof (Z.div_mod z 10). split_and!; try done; lia.
  - assert (0 < z / 10 < 10 ^ Z.of_nat f) as Hq.
    { split; [pose proof (Z.div_pos z 10); lia|]. apply Z.div_lt_upper_bound; lia. }
    destruct (IH _ Hq) as (h & t & Et & Hh & Hz0 & Ht & Hv). rewrite Et.
    exists h, (t ++ [u8 (48 + z `mod` 10)]). split_and!; try done.
    + rewrite forallb_app, Ht. cbn. by rewrite D1.
    + unfold digits_value in *. rewrite app_comm_cons, foldl_app, Hv. cbn [foldl]. rewrite D2.
      pose proof (Z.div_mod z 10). lia.
Qed.

Lemma scan_dump_integer z rest : - 2 ^ 63 <= z < 2 ^ 64 -> stops rest = true ->
  scan (dump_integer z ++ rest) = (if z <? 0 then value_integer z else value_unsigned z, rest).
Proof.
  intros Hz Hr. unfold dump_integer. destruct (Z.eqb_spec z 0) as [->|Hn].
  { destruct rest as [|b rest]; [done|]. cbn [stops] in Hr.
    apply negb_true_iff in Hr. rewrite !orb_false_iff in Hr. destruct Hr as [[_ Hd] He].
    change (scan ([u8 48] ++ b :: rest)) with (scan_number (u8 48) (b :: rest)).
    unfold scan_number, number_start. change (ub (u8 48) =? 45) with false. change (ub (u8 48) =? 48) with true.
    cbn [scan_number_loop scan_number_step]. by rewrite Hd, He. }
  rewrite rev_app_distr. destruct (Z.ltb_spec z 0).
  - rewrite <- digits_loop_opp. destruct (digits_spec 20 (- z) ltac:(lia)) as (h & t & -> & Hh & Hz0 & Ht & Hv).
    cbn [rev app]. change (scan (u8 45 :: h :: t ++ rest)) with (scan_number (u8 45) (h :: t ++ rest)).
    unfold scan_number, number_start. change (ub (u8 45) =? 45) with true. cbn [scan_number_loop enter scan_number_step].
    replace (ub h =? 48) with false by lia. rewrite Hh, scan_digits by done.
    unfold number_token, decimal_value. cbn [app]. change (ub (u8 45) =? 45) with true. cbn iota.
    rewrite Hv, Z.opp_involutive. replace (_ && _) with true by lia. done.
  - destruct (digits_spec 20 z ltac:(lia)) as (h & t & -> & Hh & Hz0 & Ht & Hv). cbn [rev app].
    assert (scan (h :: t ++ rest) = scan_number h (t ++ rest)) as ->.
    { unfold is_digit, in_range in Hh. cbn [scan]. unfold is_space.
      repeat match goal with |- context [ub h =? ?n] => replace (ub h =? n) with false by lia end.
      unfold is_digit, in_range. by rewrite Hh. }
    unfold scan_number, number_start. replace (ub h =? 45) with false by (unfold is_digit, in_range in Hh; lia).
    replace (ub h =? 48) with false by lia. rewrite scan_digits by done.
    unfold number_token, decimal_value. cbn [app].
    replace (ub h =? 45) with false by (unfold is_digit, in_range in Hh; lia).
    rewrite Hv. replace (z <=? _) with true by lia. done.
Qed.

Lemma scan_number_app st ty s buf ty' buf' rest :
  scan_number_loop st ty s buf = Some (ty', buf', []) -> stops rest = true ->
  scan_number_loop st ty (s ++ rest) buf = Some (ty', buf', rest).
Proof.
  intros Hs Hr. revert st ty buf Hs. induction s as [|b s IH]; intros st ty buf Hs; cbn in Hs |- *.
  - destruct rest as [|b rest]; [done|]. cbn in Hr. apply negb_true_iff in Hr. rewrite !orb_false_iff in Hr.
    destruct Hr as [[Hd Hp] He]. destruct st; cbn in Hs |- *; try done; by rewrite ?Hd, ?Hp, ?He; simplify_eq.
  - destruct (scan_number_step st b); try done. by apply IH.
Qed.

(** Printed floating point numbers are read back ([dump_float] prints enough digits). *)
Class JsonFloatLaws : Prop := {
  float_text_scans x : 0 <= x < 2 ^ 64 -> isfinite x = true ->
    exists b s, float_text x = b :: s /\ (ub b =? 0x2d) || is_digit b = true /\
      scan_number_loop (number_start b) nt_unsigned s [b] = Some (nt_float, float_text x, []);
  float_value_text x : 0 <= x < 2 ^ 64 -> isfinite x = true -> float_value (float_text x) = x;
}.

Lemma scan_first_digit b s : (ub b =? 0x2d) || is_digit b = true -> scan (b :: s) = scan_number b s.
Proof.
  intros Hb. cbn [scan]. rewrite Hb. unfold is_digit, in_range, is_space in *.
  repeat match goal with |- context [ub b =? ?n] => replace (ub b =? n) with false by lia end. done.
Qed.

Lemma scan_float `{!JsonFloatLaws} x rest : 0 <= x < 2 ^ 64 -> isfinite x = true -> stops rest = true ->
  scan (float_text x ++ rest) = (value_float x, rest).
Proof.
  intros Hx Hf Hr. destruct (float_text_scans x Hx Hf) as (b & s & E & Hb & Hs).
  rewrite E at 1. cbn [app]. rewrite scan_first_digit by done. unfold scan_number.
  rewrite (scan_number_app _ _ _ _ _ _ _ Hs Hr). cbn. by rewrite float_value_text.
Qed.

(** ** Values *)

(** What a value is read back as: an integer is signed only if it is negative, a number
    that is not finite has become [null], and of the members of an object with the same
    key the first stays. *)
Definition obj_add (obj : list (bytes * jvalue)) (kv : bytes * jvalue) := obj_try_emplace kv.1 kv.2 obj.
Fixpoint norm (v : jvalue) : jvalue :=
  match v with
  | JInteger z => if z <? 0 then JInteger z else JUnsigned z
  | JFloat x => if isfinite x then JFloat x else JNull
  | JArray l => JArray (norm <$> l)
  | JObject l => JObject (foldl obj_add [] ((fun kv => (kv.1, norm kv.2)) <$> l))
  | v => v
  end.

(** The numbers fit their types. *)
Fixpoint json_ok (v : jvalue) : bool :=
  match v with
  | JInteger z => (- 2 ^ 63 <=? z) && (z <? 2 ^ 63)
  | JUnsigned z => (0 <=? z) && (z <? 2 ^ 64)
  | JFloat x => (0 <=? x) && (x <? 2 ^ 64)
  | JArray l => forallb json_ok l
  | JObject l => forallb (fun kv => json_ok kv.2) l
  | _ => true
  end.

Section Ind.
Context (P : jvalue -> Prop).
Hypothesis Hscalar : forall v, match v with JArray _ | JObject _ => True | _ => P v end.
Hypothesis Harray : forall l, Forall P l -> P (JArray l).
Hypothesis Hobject : forall l, Forall (fun kv => P kv.2) l -> P (JObject l).

Fixpoint jvalue_nested_ind (v : jvalue) : P v.
Proof using Hscalar Harray Hobject.
  destruct v as [| | | | | |l|l]; [exact (Hscalar JNull)|exact (Hscalar (JBoolean b))|exact (Hscalar (JInteger z))
    |exact (Hscalar (JUnsigned z))|exact (Hscalar (JFloat bits))|exact (Hscalar (JString s))| |].
  - apply Harray. induction l as [|v l IH]; constructor; [apply jvalue_nested_ind|exact IH].
  - apply Hobject. induction l as [|kv l IH]; constructor; [apply jvalue_nested_ind|exact IH].
Qed.
End Ind.

Definition parses (v : jvalue) (s rest : bytes) : Prop :=
  exists f, let '(t, s') := scan s in parse_internal f t s' = POk v rest.

Definition value_parses (v : jvalue) (t : bytes) : Prop :=
  forall rest, stops rest = true -> parses (norm v) (t ++ rest) rest.

Lemma scan_comma s : scan (comma :: s) = (value_separator, s).
Proof. reflexivity. Qed.
Lemma scan_colon s : scan (colon :: s) = (name_separator, s).
Proof. reflexivity. Qed.

(** White space between the tokens *)
Definition blank (w : bytes) : Prop := forallb is_space w = true.
Lemma scan_blank w s : blank w -> scan (w ++ s) = scan s.
Proof. unfold blank. induction w as [|b w IH]; [done|]. cbn [forallb app]. intros [Hb Hw]%andb_true_iff. cbn [scan]. rewrite Hb. by apply IH. Qed.
Lemma stops_blank w b s : blank w -> stops (b :: s) = true -> stops (w ++ b :: s) = true.
Proof.
  unfold blank. destruct w as [|c w]; [done|]. cbn [forallb app stops]. intros [Hc _]%andb_true_iff _.
  unfold is_space, is_digit, is_dot, is_exp, in_range in *. lia.
Qed.
Lemma value_parses_blank v w t : blank w -> value_parses v t -> value_parses v (w ++ t).
Proof. intros Hw Hv rest Hr. unfold parses. rewrite <- app_assoc, scan_blank by done. by apply Hv. Qed.

Lemma parses_elements w l ts arr rest : blank w -> Forall2 value_parses l ts -> l <> [] ->
  exists f, let '(t, s) := scan (join ts ++ w ++ u8 0x5d :: rest) in
    parse_elements f t s arr = POk (JArray (arr ++ (norm <$> l))) rest.
Proof.
  intros Hw Hl. revert arr. induction Hl as [|v t l ts Hv Hl IH]; intros arr Hn; [done|].
  destruct Hl as [|v' t' l ts Hv' Hl].
  - destruct (Hv (w ++ u8 0x5d :: rest) ltac:(by apply stops_blank)) as [f Hf]. exists (S f). cbn [join].
    destruct (scan (t ++ w ++ u8 93 :: rest)) as [tk s]. cbn [parse_elements]. by rewrite Hf, scan_blank.
  - destruct (IH (arr ++ [norm v]) ltac:(done)) as [f2 Hf2].
    change (join (t :: t' :: ts)) with (t ++ comma :: join (t' :: ts)). rewrite <- app_assoc. cbn [app].
    destruct (Hv (comma :: join (t' :: ts) ++ w ++ u8 0x5d :: rest) eq_refl) as [f1 Hf1].
    exists (S (f1 `max` f2)). destruct (scan (t ++ _)) as [tk s]. cbn [parse_elements].
    rewrite (proj1 (parse_more f1 (f1 `max` f2) ltac:(lia)) _ _ _ Hf1) by done.
    rewrite scan_comma.
    destruct (scan (join (t' :: ts) ++ _)) as [tk2 s2].
    rewrite (proj2 (proj2 (parse_more f2 (f1 `max` f2) ltac:(lia))) _ _ _ _ Hf2) by done.
    by rewrite <- app_assoc.
Qed.

Lemma scan_quoted k t rest : quoted false k = Some t -> scan (t ++ rest) = (value_string k, rest).
Proof.
  unfold quoted. intros Hq. apply bind_Some in Hq as (t' & Ht & [= <-]). cbn [app].
  change (scan (quote :: (t' ++ [quote]) ++ rest)) with
    (match scan_string_loop ((t' ++ [quote]) ++ rest) [] [] with
     | Some (t, s) => (value_string t, s) | None => (parse_error, []) end).
  rewrite <- app_assoc. cbn [app]. by rewrite (scan_dump_escaped k).
Qed.

Definition member_parses (kv : bytes * jvalue) (t : bytes) : Prop :=
  exists w k u, blank w /\ quoted false kv.1 = Some k /\ value_parses kv.2 u /\ t = w ++ k ++ colon :: u.

Definition norm_member (kv : bytes * jvalue) : bytes * jvalue := (kv.1, norm kv.2).

Lemma parses_members w l ts obj rest : blank w -> Forall2 member_parses l ts -> l <> [] ->
  exists f, let '(t, s) := scan (join ts ++ w ++ u8 0x7d :: rest) in
    parse_members f t s obj = POk (JObject (foldl obj_add obj (norm_member <$> l))) rest.
Proof.
  intros Hw Hl. revert obj. induction Hl as [|[k v] t l ts Hv Hl IH]; intros obj Hn; [done|].
  destruct Hv as (w' & kt & u & Hw' & Eq & Hv & ->). cbn [fst snd] in *. cbn [fmap list_fmap foldl].
  destruct Hl as [|v' t' l ts Hv' Hl].
  - destruct (Hv (w ++ u8 0x7d :: rest) ltac:(by apply stops_blank)) as [f Hf]. exists (S f). cbn [join].
    rewrite <- !app_assoc, scan_blank, (scan_quoted k) by done. cbn [app parse_members]. rewrite scan_colon.
    destruct (scan (u ++ w ++ u8 125 :: rest)) as [tk s]. by rewrite Hf, scan_blank.
  - destruct (IH (obj_add obj (norm_member (k, v))) ltac:(done)) as [f2 Hf2].
    change (join ((w' ++ kt ++ colon :: u) :: t' :: ts)) with ((w' ++ kt ++ colon :: u) ++ comma :: join (t' :: ts)).
    rewrite <- !app_assoc. cbn [app]. rewrite scan_blank, (scan_quoted k) by done.
    destruct (Hv (comma :: join (t' :: ts) ++ w ++ u8 0x7d :: rest) eq_refl) as [f1 Hf1].
    exists (S (f1 `max` f2)). cbn [parse_members]. rewrite scan_colon.
    destruct (scan (u ++ _)) as [tk s].
    rewrite (proj1 (parse_more f1 (f1 `max` f2) ltac:(lia)) _ _ _ Hf1) by done. rewrite scan_comma.
    destruct (scan (join (t' :: ts) ++ _)) as [tk2 s2].
    exact (proj1 (proj2 (parse_more f2 (f1 `max` f2) ltac:(lia))) _ _ _ _ Hf2 ltac:(done)).
Qed.

Lemma parses_not_end v s rest t s' : parses v s rest -> scan s = (t, s') -> t <> end_array.
Proof. intros [f Hf] E ->. rewrite E in Hf. by destruct f. Qed.

Lemma parses_scalar `{!JsonFloatLaws} v t :
  match v with
  | JArray _ | JObject _ => True
  | _ => json_ok v = true -> dump false v = Some t -> value_parses v t
  end.
Proof.
  destruct v as [|b|z|z|x|s|l|l]; try done; cbn [json_ok dump]; intros Hok Hd rest Hr; exists 1%nat.
  - by injection Hd as <-.
  - injection Hd as <-. by destruct b.
  - injection Hd as <-. rewrite scan_dump_integer by (done || lia). cbn [norm]. by destruct (z <? 0).
  - injection Hd as <-. rewrite scan_dump_integer by (done || lia). by replace (z <? 0) with false by lia.
  - apply (inj Some) in Hd as <-. cbn [norm]. destruct (isfinite x) eqn:E; [|done].
    rewrite scan_float by (done || lia). cbn. by rewrite E.
  - by rewrite (scan_quoted s).
Qed.

Lemma parses_array w l ts rest : blank w -> Forall2 value_parses l ts ->
  parses (norm (JArray l)) ((u8 0x5b :: join ts ++ w ++ [u8 0x5d]) ++ rest) rest.
Proof.
  intros Hw Hl. cbn [app norm]. rewrite <- !app_assoc. cbn [app]. unfold parses.
  assert (forall s, scan (u8 91 :: s) = (begin_array, s)) as -> by done.
  destruct (decide (l = [])) as [->|Hn].
  { apply Forall2_nil_inv_l in Hl as ->. exists 1%nat. cbn [parse_internal join app]. by rewrite scan_blank. }
  destruct (parses_elements w l ts [] rest Hw Hl Hn) as [f Hf]. exists (S f). cbn [parse_internal].
  destruct (scan (join ts ++ w ++ u8 93 :: rest)) as [t s] eqn:E.
  destruct t; try done. exfalso. destruct f as [|[|]]; done.
Qed.

Lemma parses_object w l ts rest : blank w -> Forall2 member_parses l ts ->
  parses (norm (JObject l)) ((u8 0x7b :: join ts ++ w ++ [u8 0x7d]) ++ rest) rest.
Proof.
  intros Hw Hl. cbn [app norm]. rewrite <- !app_assoc. cbn [app]. unfold parses.
  assert (forall s, scan (u8 123 :: s) = (begin_object, s)) as -> by done.
  destruct (decide (l = [])) as [->|Hn].
  { apply Forall2_nil_inv_l in Hl as ->. exists 1%nat. cbn [parse_internal join app]. by rewrite scan_blank. }
  destruct (parses_members w l ts [] rest Hw Hl Hn) as [f Hf]. exists (S f). cbn [parse_internal].
  destruct (scan (join ts ++ w ++ u8 125 :: rest)) as [t s] eqn:E.
  destruct t; try done. exfalso. by destruct f.
Qed.

Lemma parses_dump `{!JsonFloatLaws} v :
  json_ok v = true -> forall t, dump false v = Some t -> value_parses v t.
Proof.
  apply (jvalue_nested_ind (fun v => json_ok v = true -> forall t, dump false v = Some t -> value_parses v t)).
  - intros u. pose proof (parses_scalar u) as Hp. destruct u; first [exact I|intros Hok t; exact (Hp t Hok)].
  - intros l IH Hok t Hd rest Hr. cbn [dump] in Hd. apply bind_Some in Hd as (ts & Hts & [= <-]).
    apply (parses_array []); [done|]. apply mapM_Some in Hts. cbn [json_ok] in Hok. rewrite forallb_forall in Hok.
    rewrite Forall_forall in IH. eapply Forall2_weaken; [exact Hts|].
    intros x y Hx E. apply IH; [done| |done]. apply Hok. by apply list_elem_of_In.
  - intros l IH Hok t Hd rest Hr. cbn [dump] in Hd. apply bind_Some in Hd as (ts & Hts & [= <-]).
    cbn [json_ok] in Hok. apply (parses_object []); [done|]. apply mapM_Some in Hts. rewrite forallb_forall in Hok.
    rewrite Forall_forall in IH. eapply Forall2_weaken; [exact Hts|].
    intros x y Hx E. apply bind_Some in E as (k & Ek & E). apply bind_Some in E as (u & Eu & [= <-]).
    exists [], k, u. split_and!; [done|done| |done]. apply IH; [done| |done]. apply Hok. by apply list_elem_of_In.
Qed.

Lemma newline_blank n : blank (newline n).
Proof. unfold blank, newline. rewrite forallb_forall. intros b [<-|Hb]; [done|]. apply list_elem_of_In, elem_of_replicate in Hb as [-> _]; done. Qed.

Lemma parses_pretty `{!JsonFloatLaws} step v :
  json_ok v = true -> forall cur t, dump_pretty false step cur v = Some t -> value_parses v t.
Proof.
  apply (jvalue_nested_ind (fun v => json_ok v = true -> forall cur t, dump_pretty false step cur v = Some t -> value_parses v t)).
  - intros u. destruct u; first [exact I|intros Hok cur t Hd; apply (parses_dump _ Hok t); exact Hd].
  - intros [|x l] IH Hok cur t Hd rest Hr; [by apply (parses_dump (JArray []))|]. cbn [dump_pretty] in Hd.
    apply bind_Some in Hd as (ts & Hts & [= <-]).
    apply (parses_array (newline cur)); [apply newline_blank|]. apply mapM_Some in Hts. cbn [json_ok] in Hok. rewrite forallb_forall in Hok.
    rewrite Forall_forall in IH. eapply Forall2_weaken; [exact Hts|].
    intros y u Hy E. apply bind_Some in E as (u' & E & [= <-]). apply value_parses_blank; [apply newline_blank|].
    eapply IH; [done| |done]. apply Hok. by apply list_elem_of_In.
  - intros [|x l] IH Hok cur t Hd rest Hr; [by apply (parses_dump (JObject []))|]. cbn [dump_pretty] in Hd.
    apply bind_Some in Hd as (ts & Hts & [= <-]).
    apply (parses_object (newline cur)); [apply newline_blank|]. apply mapM_Some in Hts. cbn [json_ok] in Hok. rewrite forallb_forall in Hok.
    rewrite Forall_forall in IH. eapply Forall2_weaken; [exact Hts|].
    intros y u Hy E. apply bind_Some in E as (k & Ek & E). apply bind_Some in E as (u' & Eu & [= <-]).
    exists (newline (cur + step)), k, (u8 0x20 :: u'). split_and!; [apply newline_blank|done| |done].
    apply (value_parses_blank _ [u8 0x20]); [done|]. eapply IH; [done| |done]. apply Hok. by apply list_elem_of_In.
Qed.

(** The text of a value does not start with a byte order mark. *)
Lemma dump_no_bom `{!JsonFloatLaws} v t : json_ok v = true -> dump false v = Some t -> skip_bom t = t.
Proof.
  intros Hok Hd. destruct (parses_dump v Hok t Hd [] eq_refl) as [f Hf]. rewrite app_nil_r in Hf.
  destruct t as [|b [|b2 [|b3 t]]]; try done. cbn [skip_bom]. destruct (Z.eqb_spec (ub b) 0xef) as [E|]; [|done].
  cbn [scan] in Hf. unfold is_space, is_digit, in_range in Hf. rewrite E in Hf. cbn in Hf. by destruct f.
Qed.

Lemma scan_spaces w : blank w -> scan w = (end_of_input, []).
Proof. intros Hw. rewrite <- (app_nil_r w). by rewrite scan_blank. Qed.

(** A text that is parsed up to trailing white space *)
Lemma json_parse_parses v t w : parses v t w -> blank w -> skip_bom t = t -> json_parse t = POk v [].
Proof.
  intros [f Hf] Hw Hb. pose proof (json_parse_fuel t) as Hn. unfold json_parse in *. rewrite Hb in *.
  destruct (scan t) as [tk s]. set (g := (2 * length t + 2)%nat) in *.
  assert (parse_internal g tk s = POk v w) as ->; [|by rewrite scan_spaces].
  assert (parse_internal g tk s <> PFuel) as Hg by (by intros E; rewrite E in Hn).
  pose proof (proj1 (parse_more g (g `max` f) ltac:(lia)) _ _ _ eq_refl Hg) as E1.
  pose proof (proj1 (parse_more f (g `max` f) ltac:(lia)) _ _ _ Hf ltac:(done)) as E2. congruence.
Qed.

(** [json::parse] inverts [dump]. *)
Lemma json_parse_dump `{!JsonFloatLaws} v t :
  json_ok v = true -> dump false v = Some t -> json_parse t = POk (norm v) [].
Proof.
  intros Hok Hd. apply (json_parse_parses _ _ []); [|done|by eapply dump_no_bom].
  rewrite <- (app_nil_r t) at 1. by apply (parses_dump v Hok t Hd []).
Qed.
End RoundTrip.

(** ** Objects in order *)

Fixpoint keys_sorted (l : list (bytes * jvalue)) : bool :=
  match l with
  | [] => true
  | kv :: l => forallb (fun kv' => bytes_ltb kv.1 kv'.1) l && keys_sorted l
  end.

(** Keys in order are appended. *)
Lemma ltb_asym a b : bytes_ltb a b = true -> bytes_ltb b a = false /\ b <> a.
Proof.
  revert b. induction a as [|x a IH]; intros [|y b] Hab; cbn in Hab |- *; try done.
  destruct (Z.ltb_spec (ub x) (ub y)); cbn in Hab.
  - split; [|by intros [= -> _]; lia]. apply orb_false_iff. lia.
  - apply andb_true_iff in Hab as [E Hab]. destruct (IH b Hab) as [-> Hn]. split; [lia|]. by intros [= _ ->].
Qed.

Lemma obj_append k v l : forallb (fun kv => bytes_ltb kv.1 k) l = true ->
  obj_try_emplace k v l = l ++ [(k, v)].
Proof.
  induction l as [|[k' v'] l IH]; intros Hl; cbn in Hl |- *; [done|]. apply andb_true_iff in Hl as [Hk Hl].
  destruct (ltb_asym _ _ Hk) as [-> Hn]. rewrite bool_decide_eq_false_2 by done. by rewrite IH.
Qed.


Lemma ltb_trans a b c : bytes_ltb a b = true -> bytes_ltb b c = true -> bytes_ltb a c = true.
Proof.
  revert b c. induction a as [|x a IH]; intros [|y b] [|z c]; cbn; try done.
  rewrite !orb_true_iff, !andb_true_iff. intros [?|[? ?]] [?|[? ?]]; [left; lia..|].
  right. split; [lia|]. by eapply IH.
Qed.

Lemma ltb_total a b : bytes_ltb a b = false -> a <> b -> bytes_ltb b a = true.
Proof.
  revert b. induction a as [|x a IH]; intros [|y b]; cbn; try done.
  rewrite orb_false_iff, orb_true_iff, andb_true_iff. intros [H1 H2] Hn.
  destruct (Z.eqb_spec (ub x) (ub y)) as [E|E]; [|left; lia].
  right. split; [lia|]. apply IH; [done|]. intros ->. apply Hn. f_equal. by apply (inj ub).
Qed.

Lemma foldl_sorted l acc : keys_sorted (acc ++ l) = true -> foldl obj_add acc l = acc ++ l.
Proof.
  revert acc. induction l as [|[k v] l IH]; intros acc Hs; cbn; [by rewrite app_nil_r|].
  replace (acc ++ (k, v) :: l) with ((acc ++ [(k, v)]) ++ l) in * by by rewrite <- app_assoc.
  unfold obj_add at 2. cbn. rewrite obj_append; [by apply IH|]. clear -Hs. rewrite <- app_assoc in Hs.
  induction acc as [|kv acc IH]; cbn in *; [done|]. apply andb_true_iff in Hs as [Hk Hs].
  rewrite forallb_app in Hk. cbn in Hk. rewrite (IH Hs). by destruct (bytes_ltb kv.1 k), (forallb _ acc).
Qed.

Lemma keys_sorted_map (f : jvalue -> jvalue) l :
  keys_sorted ((fun kv => (kv.1, f kv.2)) <$> l) = keys_sorted l.
Proof.
  induction l as [|kv l IH]; cbn; [done|]. rewrite IH. f_equal. clear. induction l; cbn; congruence.
Qed.

Lemma emplace_below k0 k v l : bytes_ltb k0 k = true ->
  forallb (fun kv => bytes_ltb k0 kv.1) l = true -> forallb (fun kv => bytes_ltb k0 kv.1) (obj_try_emplace k v l) = true.
Proof.
  intros Hk. induction l as [|[k' v'] l IH]; cbn; [by rewrite Hk|]. rewrite andb_true_iff. intros [H1 H2].
  repeat case_match; cbn; rewrite ?Hk, ?H1, ?H2; cbn; [done..|]. by apply IH.
Qed.

Lemma emplace_sorted k v l : keys_sorted l = true -> keys_sorted (obj_try_emplace k v l) = true.
Proof.
  induction l as [|[k' v'] l IH]; cbn; [done|]. rewrite andb_true_iff. intros [H1 H2].
  destruct (bytes_ltb k k') eqn:E.
  - cbn. rewrite E, H1, H2. cbn. rewrite andb_true_r. apply forallb_forall. intros kv Hin.
    rewrite forallb_forall in H1. eapply ltb_trans; [exact E|]. by apply H1.
  - case_bool_decide as E2; cbn; [by rewrite H1, H2|]. rewrite (IH H2), andb_true_r.
    apply emplace_below; [|done]. by apply ltb_total.
Qed.

Lemma emplace_perm k v l : k ∉ l.*1 -> obj_try_emplace k v l ≡ₚ (k, v) :: l.
Proof.
  induction l as [|[k' v'] l IH]; cbn; [done|]. rewrite not_elem_of_cons. intros [Hk Hl].
  repeat case_match; [done|by apply bool_decide_eq_true in H0|]. rewrite IH by done. by rewrite Permutation_swap.
Qed.

Lemma emplace_map (f : jvalue -> jvalue) k v l :
  obj_try_emplace k (f v) ((fun kv => (kv.1, f kv.2)) <$> l) = (fun kv => (kv.1, f kv.2)) <$> obj_try_emplace k v l.
Proof. induction l as [|[k' v'] l IH]; cbn; [done|]. repeat case_match; cbn; congruence. Qed.

(** The object of a finite map, and the map of an object *)
Definition obj_members (m : gmap string jvalue) : list (bytes * jvalue) :=
  foldl obj_add [] ((fun kv => (bytes_of_string kv.1, kv.2)) <$> map_to_list m).
Definition obj_json (m : gmap string jvalue) : jvalue := JObject (obj_members m).
Definition members_obj (l : list (bytes * jvalue)) : gmap string jvalue :=
  list_to_map ((fun kv => (string_of_bytes kv.1, kv.2)) <$> l).

Lemma fold_add_sorted l acc : keys_sorted acc = true -> keys_sorted (foldl obj_add acc l) = true.
Proof. revert acc. induction l as [|kv l IH]; cbn; [done|]. intros acc Ha. by apply IH, emplace_sorted. Qed.

Lemma fold_add_perm l acc : NoDup (acc.*1 ++ l.*1) -> foldl obj_add acc l ≡ₚ acc ++ l.
Proof.
  revert acc. induction l as [|[k v] l IH]; intros acc Hn; cbn; [by rewrite app_nil_r|].
  assert (obj_add acc (k, v) ≡ₚ (k, v) :: acc) as Hp.
  { apply emplace_perm. cbn in Hn. apply NoDup_app in Hn as (_ & Hn & _). intros Hk. apply (Hn k Hk). set_solver. }
  rewrite IH; [rewrite Hp; cbn; by rewrite Permutation_middle|].
  rewrite Hp. cbn in Hn |- *. by rewrite Permutation_middle.
Qed.

Lemma members_obj_members m : members_obj (obj_members m) = m.
Proof.
  unfold members_obj, obj_members. rewrite <- (list_to_map_to_list m) at 2.
  set (l := (fun kv => (bytes_of_string kv.1, kv.2)) <$> map_to_list m).
  assert (NoDup l.*1) as Hl.
  { unfold l. rewrite <- list_fmap_compose.
    change (NoDup (bytes_of_string ∘ fst <$> map_to_list m)).
    rewrite list_fmap_compose. apply NoDup_fmap; [|apply NoDup_fst_map_to_list].
    intros a b E. by rewrite <- (string_of_bytes_of_string a), E, string_of_bytes_of_string. }
  assert ((fun kv : bytes * jvalue => (string_of_bytes kv.1, kv.2)) <$> foldl obj_add [] l ≡ₚ map_to_list m) as Hp.
  { rewrite (fold_add_perm l []) by done. unfold l. cbn [app]. rewrite <- list_fmap_compose.
    rewrite (list_fmap_ext _ id); [by rewrite list_fmap_id|].
    intros i [k v] _. unfold compose. cbn [fst snd]. by rewrite string_of_bytes_of_string. }
  apply list_to_map_proper; [|done]. rewrite Hp. apply NoDup_fst_map_to_list.
Qed.

Lemma norm_obj_json m : norm (obj_json m) = obj_json (norm <$> m).
Proof.
  unfold obj_json. cbn [norm]. f_equal.
  assert (keys_sorted (obj_members m) = true) as Hs by (by apply fold_add_sorted).
  rewrite foldl_sorted by (cbn [app]; by rewrite keys_sorted_map). cbn [app].
  unfold obj_members. rewrite map_to_list_fmap.
  change (@nil (bytes * jvalue)) with ((fun kv => (kv.1, norm kv.2)) <$> @nil (bytes * jvalue)) at 2.
  generalize (@nil (bytes * jvalue)). induction (map_to_list m) as [|[k v] l IH]; intros acc; cbn; [done|].
  rewrite IH. f_equal. unfold obj_add. cbn. by rewrite emplace_map.
Qed.
