(* ===== verification/WireEncoder4.v ===== *)
(** * WireEncoder4: encoding of version 4 messages ([net/WireEncoder.cpp])

    Control messages are JSON text, values are MessagePack.  A function is the bytes it
    appends to the stream; [None] is the exception the JSON serializer throws for text that
    is not UTF-8. *)

From Stdlib Require Import Floats.SpecFloat.
From S2P Require Import Prelude NtTypes Handles LocalTypes Json JsonParser JsonRoundTrip Mpack.

(** * Message4: the messages of the version 4 protocol

    [net/Message.h], and the handler interfaces of [net/WireDecoder.h].  The properties of
    a topic are a JSON object: a finite map to values of type [J]. *)

Local Open Scope Z_scope.

Section Messages.
Context {J : Type}.

(** [ClientMessage]; [ClientNone] is the empty variant. *)
Inductive ClientMessage :=
| ClientNone
| PublishMsg (pubHandle topicHandle : Z) (name typeStr : string) (properties : gmap string J)
    (options : PubSubOptionsImpl)
| UnpublishMsg (pubHandle topicHandle : Z)
| SetPropertiesMsg (topicHandle : Z) (name : string) (update : gmap string J)
| SubscribeMsg (subHandle : Z) (topicNames : list string) (options : PubSubOptionsImpl)
| UnsubscribeMsg (subHandle : Z)
| ClientValueMsg (pubHandle : Z) (value : Value).

(** [ServerMessage] *)
Inductive ServerMessage :=
| ServerNone
| AnnounceMsg (name : string) (id : Z) (typeStr : string) (pubuid : option Z) (properties : gmap string J)
| UnannounceMsg (name : string) (id : Z)
| PropertiesUpdateMsg (name : string) (update : gmap string J) (ack : bool)
| ServerValueMsg (topic : Z) (value : Value).

(** The methods of [ClientMessageHandler] and [ServerMessageHandler] *)
Inductive ClientCall :=
| ClientPublish (pubuid : Z) (name typeStr : string) (properties : gmap string J)
| ClientUnpublish (pubuid : Z)
| ClientSetProperties (name : string) (update : gmap string J)
| ClientSubscribe (subuid : Z) (topicNames : list string) (options : PubSubOptionsImpl)
| ClientUnsubscribe (subuid : Z).
Inductive ServerCall :=
| ServerAnnounce (name : string) (id : Z) (typeStr : string) (properties : gmap string J) (pubuid : option Z)
| ServerUnannounce (name : string) (id : Z)
| ServerPropertiesUpdate (name : string) (update : gmap string J) (ack : bool).
End Messages.
Arguments ClientMessage : clear implicits.
Arguments ServerMessage : clear implicits.
Arguments ClientCall : clear implicits.
Arguments ServerCall : clear implicits.

(** [kMethodStr] *)
Definition publish_str : string := "publish".
Definition unpublish_str : string := "unpublish".
Definition setproperties_str : string := "setproperties".
Definition subscribe_str : string := "subscribe".
Definition unsubscribe_str : string := "unsubscribe".
Definition announce_str : string := "announce".
Definition unannounce_str : string := "unannounce".
Definition properties_str : string := "properties".

Local Open Scope Z_scope.

Definition f64_div (x y : Z) : Z :=
  to_bits binary64 (SFdiv (prec binary64) (emax binary64) (of_bits binary64 x) (of_bits binary64 y)).

(** Pieces of text: a literal, a name in quotes, a member name *)
Definition lit (s : string) : bytes := bytes_of_string s.
Definition qlit (s : string) : bytes := quote :: lit s ++ [quote].
Definition key (s : string) : bytes := qlit s ++ [colon].
Definition lbrace : byte := u8 0x7b.
Definition rbrace : byte := u8 0x7d.
Definition lbracket : byte := u8 0x5b.
Definition rbracket : byte := u8 0x5d.

(** The opening of a message, up to its parameters *)
Definition header (method : string) : bytes :=
  lbrace :: key "method" ++ qlit method ++ comma :: key "params" ++ [lbrace].

Section Encode.
Context `{JsonFloat}.

(** [s.dump_escaped(str, false)] between quotes, and [s.dump(j, false, false, 0, 0)] *)
Definition qstr (str : string) : option bytes := quoted false (bytes_of_string str).
Definition dump_obj (m : gmap string jvalue) : option bytes := dump false (obj_json m).

Definition WireEncodePublish (pubuid : Z) (name typeStr : string) (properties : gmap string jvalue) : option bytes :=
  n ← qstr name; p ← dump_obj properties; t ← qstr typeStr;
  Some (header publish_str ++ key "name" ++ n ++ comma :: key "properties" ++ p ++
        comma :: key "pubuid" ++ dump_integer pubuid ++ comma :: key "type" ++ t ++ [rbrace; rbrace]).

Definition WireEncodeUnpublish (pubuid : Z) : option bytes :=
  Some (header unpublish_str ++ key "pubuid" ++ dump_integer pubuid ++ [rbrace; rbrace]).

Definition WireEncodeSetProperties (name : string) (update : gmap string jvalue) : option bytes :=
  n ← qstr name; u ← dump_obj update;
  Some (header setproperties_str ++ key "name" ++ n ++ comma :: key "update" ++ u ++ [rbrace; rbrace]).

(** The members of the options that are not at their defaults *)
Definition dump_float (x : Z) : bytes := if isfinite x then float_text x else lit "null".
Definition kDefaultPeriodicMs : Z := 100.
Definition option_texts (options : PubSubOptionsImpl) : list bytes :=
  (if sendAll (o_options options) then [key "all" ++ lit "true"] else []) ++
  (if topicsOnly (o_options options) then [key "topicsonly" ++ lit "true"] else []) ++
  (if prefixMatch (o_options options) then [key "prefix" ++ lit "true"] else []) ++
  (if negb (periodicMs options =? kDefaultPeriodicMs)
   then [key "periodic" ++ dump_float (f64_div (f64_of_int (periodicMs options)) (f64_of_int 1000))] else []).

Definition EncodePrefixes (topicNames : list string) : option bytes :=
  ns ← mapM qstr topicNames; Some (lbracket :: join ns ++ [rbracket]).

Definition WireEncodeSubscribe (subuid : Z) (topicNames : list string) (options : PubSubOptionsImpl) : option bytes :=
  ns ← EncodePrefixes topicNames;
  Some (header subscribe_str ++ key "options" ++ lbrace :: join (option_texts options) ++
        rbrace :: comma :: key "topics" ++ ns ++ comma :: key "subuid" ++ dump_integer subuid ++ [rbrace; rbrace]).

Definition WireEncodeUnsubscribe (subHandle : Z) : option bytes :=
  Some (header unsubscribe_str ++ key "subuid" ++ dump_integer subHandle ++ [rbrace; rbrace]).

(** [WireEncodeText] for client messages; the result is whether a message was written. *)
Definition WireEncodeText_client (msg : ClientMessage jvalue) : option (bool * bytes) :=
  match msg with
  | PublishMsg pubHandle _ name typeStr properties _ =>
      t ← WireEncodePublish (GetIndex pubHandle) name typeStr properties; Some (true, t)
  | UnpublishMsg pubHandle _ => t ← WireEncodeUnpublish (GetIndex pubHandle); Some (true, t)
  | SetPropertiesMsg _ name update => t ← WireEncodeSetProperties name update; Some (true, t)
  | SubscribeMsg subHandle topicNames options => t ← WireEncodeSubscribe subHandle topicNames options; Some (true, t)
  | UnsubscribeMsg subHandle => t ← WireEncodeUnsubscribe subHandle; Some (true, t)
  | _ => Some (false, [])
  end.

Definition WireEncodeAnnounce (name : string) (id : Z) (typeStr : string) (properties : gmap string jvalue)
    (pubHandle : option Z) : option bytes :=
  n ← qstr name; p ← dump_obj properties; t ← qstr typeStr;
  Some (header announce_str ++ key "id" ++ dump_integer id ++ comma :: key "name" ++ n ++
        comma :: key "properties" ++ p ++
        match pubHandle with Some h => comma :: key "pubuid" ++ dump_integer h | None => [] end ++
        comma :: key "type" ++ t ++ [rbrace; rbrace]).

Definition WireEncodeUnannounce (name : string) (id : Z) : option bytes :=
  n ← qstr name;
  Some (header unannounce_str ++ key "id" ++ dump_integer id ++ comma :: key "name" ++ n ++ [rbrace; rbrace]).

Definition WireEncodePropertiesUpdate (name : string) (update : gmap string jvalue) (ack : bool) : option bytes :=
  n ← qstr name; u ← dump_obj update;
  Some (header properties_str ++ key "name" ++ n ++ comma :: key "update" ++ u ++
        (if ack then comma :: key "ack" ++ lit "true" else []) ++ [rbrace; rbrace]).

(** [WireEncodeText] for server messages *)
Definition WireEncodeText_server (msg : ServerMessage jvalue) : option (bool * bytes) :=
  match msg with
  | AnnounceMsg name id typeStr pubuid properties =>
      t ← WireEncodeAnnounce name id typeStr properties pubuid; Some (true, t)
  | UnannounceMsg name id => t ← WireEncodeUnannounce name id; Some (true, t)
  | PropertiesUpdateMsg name update ack => t ← WireEncodePropertiesUpdate name update ack; Some (true, t)
  | _ => Some (false, [])
  end.
End Encode.

(** The array cases of [WireEncodeBinary] *)
Definition write_array {A} (wr : A -> bytes) (v : list A) : bytes :=
  mpack_start_array (zlen v) ++ concat (wr <$> v).

(** The type number and the data of a value; nothing for an unassigned one *)
Definition binary_value (d : ValueData) : option (Z * bytes) :=
  match d with
  | VBoolean b => Some (0, mpack_write_bool b)
  | VInteger z => Some (2, mpack_write_int z)
  | VFloat x => Some (3, mpack_write_float x)
  | VDouble x => Some (1, mpack_write_double x)
  | VString s => Some (4, mpack_write_str (bytes_of_string s))
  | VRaw data => Some (5, mpack_write_bin data)
  | VBooleanArray v => Some (16, write_array (fun val => mpack_write_bool (negb (val =? 0))) v)
  | VIntegerArray v => Some (18, write_array mpack_write_int v)
  | VFloatArray v => Some (19, write_array mpack_write_float v)
  | VDoubleArray v => Some (17, write_array mpack_write_double v)
  | VStringArray v => Some (20, write_array (fun s => mpack_write_str (bytes_of_string s)) v)
  | VUnassigned => None
  end.

(** The result and the bytes written.  For an unassigned value the function returns before
    its buffer has reached the stream. *)
Definition WireEncodeBinary (id time : Z) (value : Value) : bool * bytes :=
  match binary_value (data value) with
  | Some (type, text) =>
      (true, mpack_start_array 4 ++ mpack_write_int id ++ mpack_write_int time ++ mpack_write_u8 type ++ text)
  | None => (false, [])
  end.
