(* ===== verification/WireDecoder4.v ===== *)
(** * WireDecoder4: decoding of version 4 messages ([net/WireDecoder.cpp])

    A text frame is a JSON array of messages; the result is what happens in order: calls of
    the message handler, and warnings.  A binary frame is a sequence of MessagePack values,
    decoded one at a time. *)

From S2P Require Import Prelude NtTypes LocalTypes Json JsonParser JsonRoundTrip Mpack.
From S2P Require Import WireEncoder4.
Local Open Scope Z_scope.

(** ** Text *)

(** A result or an error message *)
Definition err_bind {A B} (m : string + A) (k : A -> string + B) : string + B :=
  match m with inl e => inl e | inr x => k x end.
Notation "'let?' x := m 'in' k" := (err_bind m (fun x => k))
  (at level 10, x pattern, m at level 100, k at level 200) : nt_scope.

(** [get_ptr<const int64_t*>]: an unsigned number is read as a signed one. *)
Definition get_int (v : jvalue) : option Z :=
  match v with JInteger z => Some z | JUnsigned z => Some (swrap 64 z) | _ => None end.
Definition get_bool (v : jvalue) : option bool := match v with JBoolean b => Some b | _ => None end.
Definition get_string (v : jvalue) : option string := match v with JString s => Some (string_of_bytes s) | _ => None end.

(** [GetNumber] for [double] and [int64_t] *)
Definition GetNumber_double (v : jvalue) : option Z :=
  match get_int v with
  | Some z => Some (f64_of_int z)
  | None => match v with JFloat x => Some x | _ => None end
  end.
Definition GetNumber_int (v : jvalue) : option Z := get_int v.

Definition object := list (bytes * jvalue).
Definition find (obj : object) (k : string) : option jvalue := obj_find (bytes_of_string k) obj.

Definition or_error {A} (o : option A) (e : string) : string + A :=
  match o with Some x => inr x | None => inl e end.

Definition ObjGet (obj : object) (k : string) : string + jvalue :=
  or_error (find obj k) ("no " ++ k ++ " key").
Definition ObjGetString (obj : object) (k : string) : string + string :=
  let? v := ObjGet obj k in or_error (get_string v) (k ++ " must be a string").
Definition ObjGetNumber (obj : object) (k : string) : string + Z :=
  let? v := ObjGet obj k in or_error (GetNumber_int v) (k ++ " must be a number").

Fixpoint string_elements (k : string) (n : nat) (l : list jvalue) : string + list string :=
  match l with
  | [] => inr []
  | v :: l =>
      let? s := or_error (get_string v) (k ++ "/" ++ pretty n ++ " must be a string") in
      let? ss := string_elements k (S n) l in inr (s :: ss)
  end.
Definition ObjGetStringArray (obj : object) (k : string) : string + list string :=
  let? v := ObjGet obj k in
  match v with
  | JArray l => string_elements k 0 l
  | _ => inl (k ++ " must be an array")%string
  end.

(** A member that must be an object *)
Definition ObjGetObject (obj : object) (k : string) : string + object :=
  let? v := ObjGet obj k in
  match v with JObject l => inr l | _ => inl (k ++ " must be an object")%string end.

(** What decoding a message leads to *)
Inductive Decoded (C : Type) := DCall (c : C) | DWarning (text : string).
Arguments DCall {C} c.
Arguments DWarning {C} text.

Section Text.
Context `{Env}.

(** An optional boolean option *)
Definition bool_option (joptions : object) (k : string) (set : bool -> PubSubOptionsImpl -> PubSubOptionsImpl)
    (options : PubSubOptionsImpl) : string + PubSubOptionsImpl :=
  match find joptions k with
  | None => inr options
  | Some v => let? b := or_error (get_bool v) (k ++ " value must be a boolean") in inr (set b options)
  end.

(** [options.periodicMs = val * 1000], a conversion to [unsigned int] *)
Definition periodic_ms (val : Z) : Z :=
  let ms := f64_mul val (f64_of_int 1000) in
  match int_of_f64 ms with
  | Some z => if (0 <=? z) && (z <? 2 ^ 32) then z else env_cast_ub ms
  | None => env_cast_ub ms
  end.

Definition decode_options (params : object) : string + PubSubOptionsImpl :=
  let options := PubSubOptionsImpl_make kDefaultPubSubOptions in
  match find params "options" with
  | None => inr options
  | Some (JObject joptions) =>
      let? options :=
        match find joptions "periodic" with
        | None => inr options
        | Some v =>
            let? val := or_error (GetNumber_double v) "periodic value must be a number" in
            inr (options <| o_options ::= fun o => o <| periodic := val |> |> <| periodicMs := periodic_ms val |>)
        end in
      let? options := bool_option joptions "all" (fun b o => o <| o_options ::= fun o => o <| sendAll := b |> |>) options in
      let? options := bool_option joptions "topicsonly" (fun b o => o <| o_options ::= fun o => o <| topicsOnly := b |> |>) options in
      bool_option joptions "prefix" (fun b o => o <| o_options ::= fun o => o <| prefixMatch := b |> |>) options
  | Some _ => inl "options must be an object"
  end.

(** The messages of clients *)
Definition decode_client (method : string) (params : object) : string + ClientCall jvalue :=
  if String.eqb method publish_str then
    let? name := ObjGetString params "name" in
    let? typeStr := ObjGetString params "type" in
    let? pubuid := ObjGetNumber params "pubuid" in
    let? properties :=
      match find params "properties" with
      | None => inr []
      | Some (JObject l) => inr l
      | Some _ => inl "properties must be an object"
      end in
    inr (ClientPublish pubuid name typeStr (members_obj properties))
  else if String.eqb method unpublish_str then
    let? pubuid := ObjGetNumber params "pubuid" in inr (ClientUnpublish pubuid)
  else if String.eqb method setproperties_str then
    let? name := ObjGetString params "name" in
    let? update := ObjGetObject params "update" in
    inr (ClientSetProperties name (members_obj update))
  else if String.eqb method subscribe_str then
    let? subuid := ObjGetNumber params "subuid" in
    let? options := decode_options params in
    let? topicNames := ObjGetStringArray params "topics" in
    inr (ClientSubscribe subuid topicNames options)
  else if String.eqb method unsubscribe_str then
    let? subuid := ObjGetNumber params "subuid" in inr (ClientUnsubscribe subuid)
  else inl ("unrecognized method '" ++ method ++ "'")%string.

(** The messages of the server; properties that are not an object only cause a warning. *)
Definition decode_server (method : string) (params : object) : string + list (Decoded (ServerCall jvalue)) :=
  if String.eqb method announce_str then
    let? name := ObjGetString params "name" in
    let? id := ObjGetNumber params "id" in
    let? typeStr := ObjGetString params "type" in
    let? pubuid :=
      match find params "pubuid" with
      | None => inr None
      | Some v => let? val := or_error (GetNumber_int v) "pubuid value must be a number" in inr (Some val)
      end in
    let? properties := ObjGet params "properties" in
    let call l := DCall (ServerAnnounce name id typeStr (members_obj l) pubuid) in
    inr (match properties with
         | JObject l => [call l]
         | _ => [DWarning (name ++ ": properties is not an object"); call []]
         end)
  else if String.eqb method unannounce_str then
    let? name := ObjGetString params "name" in
    let? id := ObjGetNumber params "id" in
    inr [DCall (ServerUnannounce name id)]
  else if String.eqb method properties_str then
    let? name := ObjGetString params "name" in
    let? update := ObjGetObject params "update" in
    let? ack :=
      match find params "ack" with
      | None => inr false
      | Some v => or_error (get_bool v) "ack must be a boolean"
      end in
    inr [DCall (ServerPropertiesUpdate name (members_obj update) ack)]
  else inl ("unrecognized method '" ++ method ++ "'")%string.

(** One message of the array *)
Definition decode_message {A} (decode : string -> object -> string + A) (jmsg : jvalue) : string + A :=
  match jmsg with
  | JObject obj =>
      let? method := ObjGetString obj "method" in
      let? params := ObjGetObject obj "params" in
      decode method params
  | _ => inl "expected message to be an object"
  end.

Definition decode_messages {C} (decode : string -> object -> string + list (Decoded C)) (l : list jvalue) :
    list (Decoded C) :=
  concat (imap (fun i jmsg =>
    match decode_message decode jmsg with
    | inr ds => ds
    | inl error => [DWarning (pretty i ++ ": " ++ error)]
    end) l).

(** [WireDecodeTextImpl].  Only [json::parse_error] is caught: [None] is the exception for a
    number out of range, which leaves the function. *)
Definition WireDecodeTextImpl `{JsonFloat} {C} (decode : string -> object -> string + list (Decoded C)) (text : bytes) :
    option (list (Decoded C)) :=
  match json_parse text with
  | POk (JArray l) _ => Some (decode_messages decode l)
  | POk _ _ => Some [DWarning "expected JSON array at top level"]
  | PError => Some [DWarning "could not decode JSON message"]
  | PRange | PFuel => None
  end.

(** [WireDecodeText] for the two kinds of handlers *)
Definition WireDecodeText_client `{JsonFloat} : bytes -> option (list (Decoded (ClientCall jvalue))) :=
  WireDecodeTextImpl (fun method params => let? c := decode_client method params in inr [DCall c]).
Definition WireDecodeText_server `{JsonFloat} : bytes -> option (list (Decoded (ServerCall jvalue))) :=
  WireDecodeTextImpl decode_server.
End Text.

(** ** Binary *)

(** The loop over the elements of an array, which is left at an error.  Every element has
    at least one byte, so the bytes that are left bound the number of turns. *)
Fixpoint read_elements {A} (rd : mpack_reader -> A * mpack_reader) (fuel : nat) (i length : Z) (arr : list A)
    (r : mpack_reader) : list A * mpack_reader :=
  match fuel with
  | O => (arr, r)
  | S fuel =>
      if i <? length then
        let '(x, r) := rd r in
        if is_ok r then read_elements rd fuel (i + 1) length (arr ++ [x]) r else (arr ++ [x], r)
      else (arr, r)
  end.
Definition read_array {A} (rd : mpack_reader -> A * mpack_reader) (mk : list A -> ValueData) (r : mpack_reader) :
    ValueData * mpack_reader :=
  let '(length, r) := mpack_expect_array r in
  let '(arr, r) := read_elements rd (S (S (List.length (rd_data r)))) 0 length [] r in
  (if is_ok r then mk arr else VUnassigned, r).

(** [mpack_expect_str] and the bytes it announces *)
Definition read_str (r : mpack_reader) : string * mpack_reader :=
  let '(length, r) := mpack_expect_str r in
  let '(bs, r) := mpack_read_bytes_inplace length r in
  (string_of_bytes (default [] bs), r).
Definition read_bin (r : mpack_reader) : bytes * mpack_reader :=
  let '(length, r) := mpack_expect_bin r in
  let '(bs, r) := mpack_read_bytes_inplace length r in
  (default [] bs, r).

Definition read_map {A B} (f : A -> B) (rd : mpack_reader -> A * mpack_reader) (r : mpack_reader) : B * mpack_reader :=
  let '(x, r) := rd r in (f x, r).

(** The data of a value of a type; [None] for an unknown type *)
Definition read_value (type : Z) (r : mpack_reader) : option (ValueData * mpack_reader) :=
  match type with
  | 0 => Some (read_map VBoolean mpack_expect_bool r)
  | 2 => Some (read_map VInteger mpack_expect_i64 r)
  | 3 => Some (read_map VFloat mpack_expect_float r)
  | 1 => Some (read_map VDouble mpack_expect_double r)
  | 4 => Some (read_map VString read_str r)
  | 5 => Some (read_map VRaw read_bin r)
  | 16 => Some (read_array (read_map (fun b : bool => if b then 1 else 0) mpack_expect_bool) VBooleanArray r)
  | 18 => Some (read_array mpack_expect_i64 VIntegerArray r)
  | 19 => Some (read_array mpack_expect_float VFloatArray r)
  | 17 => Some (read_array mpack_expect_double VDoubleArray r)
  | 20 => Some (read_array read_str VStringArray r)
  | _ => None
  end.

(** A sum of [int64_t]; [None] is signed overflow. *)
Definition add64 (a b : Z) : option Z :=
  let s := a + b in if (- 2 ^ 63 <=? s) && (s <? 2 ^ 63) then Some s else None.

Inductive DecodeBinary :=
| BinaryError (error : string)
| BinaryValue (id : Z) (value : Value) (rest : bytes).

(** [WireDecodeBinary]: a value and the bytes after it; [None] is the undefined behaviour of
    an overflow in the local time. *)
Definition WireDecodeBinary (data : bytes) (localTimeOffset : Z) : option DecodeBinary :=
  let r := mpack_reader_init_data data in
  let r := mpack_expect_array_match 4 r in
  let '(id, r) := mpack_expect_i64 r in
  let '(time, r) := mpack_expect_i64 r in
  let '(type, r) := mpack_expect_int r in
  match read_value type r with
  | None => Some (BinaryError ("unrecognized type " ++ pretty type))
  | Some (d, r) =>
      if is_ok r then
        t ← (if time =? 0 then Some 0 else add64 time localTimeOffset);
        Some (BinaryValue id (MkValue d t time) (rd_data r))
      else Some (BinaryError (mpack_error_to_string (rd_error r)))
  end.
