(* ===== verification/Wire4Text.v ===== *)
(** * Wire4Text: control messages of version 4 survive the wire

    The text of a message is the text of a JSON object, so that the frame of a sequence of
    messages parses, and the decoder makes the calls the messages stand for. *)

From S2P Require Import Prelude NtTypes Handles LocalTypes Json JsonParser JsonRoundTrip.
From S2P Require Import WireEncoder4 WireDecoder4 Mpack.

(** * Wire4RoundTrip: what the version 4 decoder makes of encoded messages

    Values and control messages that are encoded, put into a frame and decoded arrive as
    they were sent, up to what the formats cannot carry. *)

Local Open Scope Z_scope.

(** ** Values *)

Definition int64 (z : Z) : bool := (- 2 ^ 63 <=? z) && (z <? 2 ^ 63).
Definition fits (w z : Z) : bool := (0 <=? z) && (z <? 2 ^ w).

(** The data of a value is in the range of its C++ type, and not longer than the format
    allows. *)
Definition data_ok (d : ValueData) : bool :=
  match d with
  | VUnassigned => false
  | VBoolean _ => true
  | VInteger z => int64 z
  | VFloat x => fits 32 x
  | VDouble x => fits 64 x
  | VString s => fits 32 (zlen (bytes_of_string s))
  | VRaw data => fits 32 (zlen data)
  | VBooleanArray v => fits 32 (zlen v)
  | VIntegerArray v => fits 32 (zlen v) && forallb int64 v
  | VFloatArray v => fits 32 (zlen v) && forallb (fits 32) v
  | VDoubleArray v => fits 32 (zlen v) && forallb (fits 64) v
  | VStringArray v => fits 32 (zlen v) && forallb (fun s => fits 32 (zlen (bytes_of_string s))) v
  end.

(** The elements of a boolean array are sent as booleans. *)
Definition bool_data (d : ValueData) : ValueData :=
  match d with
  | VBooleanArray v => VBooleanArray ((fun z => if z =? 0 then 0 else 1) <$> v)
  | d => d
  end.

Lemma read_elements_concat {A B} (rd : mpack_reader -> B * mpack_reader) (wr : A -> bytes) (f : A -> B)
    l fuel i arr rest :
  (forall x rest, x ∈ l -> rd (ok_reader (wr x ++ rest)) = (f x, ok_reader rest)) -> (length l < fuel)%nat ->
  read_elements rd fuel i (i + zlen l) arr (ok_reader (concat (wr <$> l) ++ rest))
  = (arr ++ (f <$> l), ok_reader rest).
Proof.
  intros Hrd. revert fuel i arr. induction l as [|x l IH]; intros [|fuel] i arr Hf; cbn [length] in Hf; try lia;
    cbn [read_elements].
  - rewrite zlen_nil. replace (i <? i + 0) with false by lia. cbn. by rewrite app_nil_r.
  - rewrite zlen_cons. pose proof (zlen_nonneg l). replace (i <? i + (1 + zlen l)) with true by lia.
    cbn [fmap list_fmap concat]. rewrite <- app_assoc, Hrd by set_solver. change (is_ok (ok_reader _)) with true.
    cbn iota. replace (i + (1 + zlen l)) with (i + 1 + zlen l) by lia. rewrite IH; [|set_solver|lia].
    by rewrite <- app_assoc.
Qed.

Lemma length_concat {A} (wr : A -> bytes) l :
  (forall x, x ∈ l -> wr x <> []) -> (length l <= length (concat (wr <$> l)))%nat.
Proof.
  induction l as [|x l IH]; intros Hw; cbn; [lia|]. rewrite length_app.
  assert (wr x <> []) as Hx by (apply Hw; set_solver). destruct (wr x); [done|]. cbn.
  specialize (IH ltac:(set_solver)). lia.
Qed.

Lemma read_array_write {A B} (rd : mpack_reader -> B * mpack_reader) (wr : A -> bytes) (f : A -> B) mk l rest :
  (forall x rest, x ∈ l -> rd (ok_reader (wr x ++ rest)) = (f x, ok_reader rest)) ->
  (forall x, x ∈ l -> wr x <> []) -> fits 32 (zlen l) = true ->
  read_array rd mk (ok_reader (write_array wr l ++ rest)) = (mk (f <$> l), ok_reader rest).
Proof.
  intros Hrd Hw Hl. unfold fits in Hl. unfold read_array, write_array. rewrite <- app_assoc.
  rewrite expect_start_array by lia. cbn [rd_data ok_reader].
  pose proof (length_concat wr l Hw). pose proof (read_elements_concat rd wr f l
    (S (S (length (concat (wr <$> l) ++ rest)))) 0 [] rest Hrd ltac:(rewrite length_app; lia)) as E.
  rewrite Z.add_0_l in E. unfold ok_reader in *. by rewrite E.
Qed.

Lemma read_write_str s rest : fits 32 (zlen (bytes_of_string s)) = true ->
  read_str (ok_reader (mpack_write_str (bytes_of_string s) ++ rest)) = (s, ok_reader rest).
Proof.
  intros Hs. unfold fits in Hs. unfold read_str, mpack_write_str. cbv zeta. rewrite wrap_small by lia.
  rewrite <- app_assoc, expect_str_header by lia. unfold zlen. rewrite Nat2Z.id, firstn_all.
  rewrite (read_bytes_app (bytes_of_string s)). f_equal. exact (string_of_bytes_of_string s).
Qed.

Lemma read_write_bin s rest : fits 32 (zlen s) = true ->
  read_bin (ok_reader (mpack_write_bin s ++ rest)) = (s, ok_reader rest).
Proof.
  intros Hs. unfold fits in Hs. unfold read_bin, mpack_write_bin. cbv zeta. rewrite wrap_small by lia.
  rewrite <- app_assoc, expect_bin_header by lia. unfold zlen. rewrite Nat2Z.id, firstn_all.
  by rewrite (read_bytes_app s).
Qed.

Lemma write_i64_nonnil z : mpack_write_i64 z <> [].
Proof. unfold mpack_write_i64. repeat case_match; done. Qed.
Lemma write_str_nonnil s : mpack_write_str s <> [].
Proof. unfold mpack_write_str, str_header. cbv zeta. repeat case_match; done. Qed.

Ltac elem_ok H := intros; apply andb_true_iff in H as [_ H]; rewrite forallb_forall in H;
  match goal with E : _ ∈ _ |- _ => apply list_elem_of_In in E; specialize (H _ E); unfold int64, fits in H end.

Lemma read_binary_value d type text rest : data_ok d = true -> binary_value d = Some (type, text) ->
  0 <= type <= 127 /\ read_value type (ok_reader (text ++ rest)) = Some (bool_data d, ok_reader rest).
Proof.
  intros Hd Hb. destruct d; cbn [binary_value] in Hb; try discriminate; injection Hb as <- <-; (split; [lia|]);
    cbn [read_value bool_data]; f_equal; unfold read_map; cbn [data_ok] in Hd.
  - by rewrite expect_write_bool.
  - unfold mpack_write_int. unfold int64 in Hd. rewrite expect_write_i64 by lia. done.
  - unfold fits in Hd. rewrite expect_write_float by lia. done.
  - unfold fits in Hd. rewrite expect_write_double by lia. done.
  - by rewrite read_write_str.
  - by rewrite read_write_bin.
  - rewrite (read_array_write _ _ (fun z => if z =? 0 then 0 else 1)); [done| |done|done].
    intros x r _. rewrite expect_write_bool. by destruct (x =? 0).
  - rewrite (read_array_write _ _ id), list_fmap_id; [done| | |by apply andb_true_iff in Hd as [? _]].
    + elem_ok Hd. unfold id. apply expect_write_i64. lia.
    + intros. apply write_i64_nonnil.
  - rewrite (read_array_write _ _ id), list_fmap_id; [done| |done|by apply andb_true_iff in Hd as [? _]].
    elem_ok Hd. unfold id. apply expect_write_float. lia.
  - rewrite (read_array_write _ _ id), list_fmap_id; [done| |done|by apply andb_true_iff in Hd as [? _]].
    elem_ok Hd. unfold id. apply expect_write_double. lia.
  - rewrite (read_array_write _ _ id), list_fmap_id; [done| | |by apply andb_true_iff in Hd as [? _]].
    + elem_ok Hd. by apply read_write_str.
    + intros. apply write_str_nonnil.
Qed.

(** The time a value gets when it is received *)
Definition local_time (time offset : Z) : option Z := if time =? 0 then Some 0 else add64 time offset.

Lemma decode_encode_binary id time v offset rest :
  int64 id = true -> int64 time = true -> data_ok (data v) = true ->
  WireDecodeBinary ((WireEncodeBinary id time v).2 ++ rest) offset =
  (t ← local_time time offset; Some (BinaryValue id (MkValue (bool_data (data v)) t time) rest)).
Proof.
  intros Hi Ht Hd. unfold int64 in *. unfold WireEncodeBinary.
  destruct (binary_value (data v)) as [[type text]|] eqn:Eb; [|by destruct (data v)].
  destruct (read_binary_value _ _ _ rest Hd Eb) as [Hty Hr]. cbn [snd].
  unfold WireDecodeBinary, mpack_reader_init_data, mpack_expect_array_match. cbv zeta.
  change (MkReader mpack_ok) with ok_reader. rewrite <- !app_assoc. rewrite expect_start_array by lia.
  cbn [Z.eqb Pos.eqb]. unfold mpack_write_int. rewrite expect_write_i64 by lia. rewrite expect_write_i64 by lia.
  rewrite expect_write_u8 by lia. by rewrite Hr.
Qed.

(** ** The binary decoder consumes its input *)

(** [r'] is a reader that [r] can become: errors stay, and nothing is put back. *)
Definition later (r r' : mpack_reader) : Prop :=
  (is_ok r' = true -> is_ok r = true) /\ (length (rd_data r') <= length (rd_data r))%nat.
#[global] Instance later_preorder : PreOrder later.
Proof. split; [by intros r|]. intros a b c [H1 H2] [H3 H4]. split; [auto|lia]. Qed.

Definition shrinks {A} (m : mpack_reader -> A * mpack_reader) : Prop := forall r, later r (m r).2.

Lemma flag_error_later e r : later r (flag_error e r).
Proof. unfold flag_error, later. destruct (is_ok r) eqn:E; cbn; [split; [done|lia]|]. by rewrite E. Qed.
#[local] Hint Resolve flag_error_later : core.

Lemma shrinks_bind {A B} (m : mpack_reader -> A * mpack_reader) (k : A -> mpack_reader -> B * mpack_reader) :
  shrinks m -> (forall x, shrinks (k x)) -> shrinks (fun r => let '(x, r) := m r in k x r).
Proof.
  intros Hm Hk r. specialize (Hm r). destruct (m r) as [x r']. cbn in *. etrans; [exact Hm|apply (Hk x r')].
Qed.

Lemma drop_later n r : is_ok r = true -> later r (MkReader mpack_ok (drop n (rd_data r))).
Proof. intros E. split; [done|]. cbn. rewrite length_drop. lia. Qed.

Lemma read_tag_shrinks : shrinks mpack_read_tag.
Proof.
  intros r. destruct (is_ok (mpack_read_tag r).2) eqn:E.
  - destruct (read_tag_consumes r E). split; [done|lia].
  - revert E. unfold mpack_read_tag. destruct (is_ok r); [|done].
    destruct (mpack_parse_tag (rd_data r)) as [e|[t d]]; [intros _; apply flag_error_later|done].
Qed.

Ltac shrink_tag := refine (shrinks_bind mpack_read_tag _ read_tag_shrinks _); intros [] r; repeat case_match; cbn; first [reflexivity|apply flag_error_later].

Lemma i64_shrinks : shrinks mpack_expect_i64.
Proof. shrink_tag. Qed.
Lemma i32_shrinks : shrinks mpack_expect_i32.
Proof. shrink_tag. Qed.
Lemma float_shrinks : shrinks mpack_expect_float.
Proof. shrink_tag. Qed.
Lemma double_shrinks : shrinks mpack_expect_double.
Proof. shrink_tag. Qed.
Lemma array_shrinks : shrinks mpack_expect_array.
Proof. shrink_tag. Qed.
Lemma bin_shrinks : shrinks mpack_expect_bin.
Proof. shrink_tag. Qed.

Lemma native_shrinks n : shrinks (mpack_expect_native n).
Proof. intros r. unfold mpack_expect_native. repeat case_match; cbn; auto using drop_later. reflexivity. Qed.

Lemma bool_shrinks : shrinks mpack_expect_bool.
Proof. apply (shrinks_bind (mpack_expect_native 1)); [apply native_shrinks|]. intros x r. cbn. case_match; [apply flag_error_later|reflexivity]. Qed.

Lemma read_bytes_shrinks n : shrinks (mpack_read_bytes_inplace n).
Proof. intros r. unfold mpack_read_bytes_inplace. repeat case_match; cbn; auto using drop_later. reflexivity. Qed.

Lemma expect_str_shrinks : shrinks mpack_expect_str.
Proof.
  apply (shrinks_bind (mpack_expect_native 1)); [apply native_shrinks|]. intros x r.
  repeat case_match; try apply native_shrinks; cbn; first [reflexivity|apply flag_error_later].
Qed.

Lemma read_str_shrinks : shrinks read_str.
Proof.
  apply (shrinks_bind mpack_expect_str); [apply expect_str_shrinks|]. intros n.
  by apply (shrinks_bind (mpack_read_bytes_inplace n)); [apply read_bytes_shrinks|].
Qed.
Lemma read_bin_shrinks : shrinks read_bin.
Proof.
  apply (shrinks_bind mpack_expect_bin); [apply bin_shrinks|]. intros n.
  by apply (shrinks_bind (mpack_read_bytes_inplace n)); [apply read_bytes_shrinks|].
Qed.

Lemma read_map_shrinks {A B} (f : A -> B) m : shrinks m -> shrinks (read_map f m).
Proof. intros Hm r. specialize (Hm r). unfold read_map. by destruct (m r). Qed.

Lemma read_elements_shrinks {A} (rd : mpack_reader -> A * mpack_reader) fuel i n arr :
  shrinks rd -> shrinks (read_elements rd fuel i n arr).
Proof.
  intros Hrd. revert i arr. induction fuel as [|fuel IH]; intros i arr r; cbn [read_elements]; [done|].
  destruct (i <? n); [|done]. specialize (Hrd r). destruct (rd r) as [x r']. cbn in Hrd.
  destruct (is_ok r'); [|done]. etrans; [exact Hrd|apply IH].
Qed.

Lemma read_array_shrinks {A} (rd : mpack_reader -> A * mpack_reader) mk : shrinks rd -> shrinks (read_array rd mk).
Proof.
  intros Hrd r. unfold read_array. pose proof (array_shrinks r) as Ha. destruct (mpack_expect_array r) as [n r1].
  pose proof (read_elements_shrinks rd (S (S (length (rd_data r1)))) 0 n [] Hrd r1) as He.
  destruct (read_elements rd _ 0 n [] r1) as [arr r2]. cbn in *. by etrans.
Qed.

Create HintDb shrinks.
#[local] Hint Resolve i64_shrinks float_shrinks double_shrinks bool_shrinks read_str_shrinks read_bin_shrinks
  read_map_shrinks read_array_shrinks : shrinks.

Lemma read_value_shrinks type r d r' : read_value type r = Some (d, r') -> later r r'.
Proof.
  assert (forall m : mpack_reader -> ValueData * mpack_reader, shrinks m -> Some (m r) = Some (d, r') -> later r r') as Hm.
  { intros m Hm [= E]. specialize (Hm r). by rewrite E in Hm. }
  unfold read_value. intros E. repeat case_match; try discriminate; (eapply Hm; [|exact E]); auto with shrinks.
Qed.

(** A decoded value is followed by fewer bytes: the loops over a frame end. *)
Lemma decode_binary_progress bs offset id v rest :
  WireDecodeBinary bs offset = Some (BinaryValue id v rest) -> (length rest < length bs)%nat.
Proof.
  unfold WireDecodeBinary, mpack_reader_init_data, mpack_expect_int, mpack_expect_array_match. cbv zeta. intros E.
  destruct (mpack_expect_array (MkReader mpack_ok bs)) as [n r0] eqn:E0.
  set (r1 := if n =? 4 then r0 else flag_error mpack_error_type r0) in *.
  pose proof (i64_shrinks r1) as L1. destruct (mpack_expect_i64 r1) as [i r2] eqn:E1.
  pose proof (i64_shrinks r2) as L2. destruct (mpack_expect_i64 r2) as [t r3] eqn:E2.
  pose proof (i32_shrinks r3) as L3. destruct (mpack_expect_i32 r3) as [ty r4] eqn:E3.
  destruct (read_value ty r4) as [[d r5]|] eqn:E4; [|done]. apply read_value_shrinks in E4.
  destruct (is_ok r5) eqn:Eo; [|done]. apply bind_Some in E as (t' & _ & [= <- <- <-]). cbn [snd] in *.
  assert (later r0 r1) as L0 by (unfold r1; case_match; [reflexivity|apply flag_error_later]).
  assert (later r0 r5) as [Hok Hl] by (do 4 (etrans; [eassumption|]); done). specialize (Hok Eo).
  unfold mpack_expect_array in E0. destruct (mpack_read_tag (MkReader mpack_ok bs)) as [tg rt] eqn:Et.
  assert (later rt r0) as [Hokt Hlt] by (destruct tg; simplify_eq; first [reflexivity|apply flag_error_later]).
  destruct (read_tag_consumes (MkReader mpack_ok bs)) as [_ Hc]; [rewrite Et; by apply Hokt|].
  rewrite Et in Hc. cbn in Hc. lia.
Qed.

(** ** The fuel of [read_elements] is enough *)

Lemma consumes_bind {A B} (m : mpack_reader -> A * mpack_reader) (k : A -> mpack_reader -> B * mpack_reader) :
  consumes m -> (forall x, shrinks (k x)) -> consumes (fun r => let '(x, r) := m r in k x r).
Proof.
  intros Hm Hk r Hok. specialize (Hm r). destruct (m r) as [x r']. cbn in *.
  destruct (Hk x r') as [H1 H2]. destruct (Hm (H1 Hok)). split; [done|lia].
Qed.

Ltac consume_tag := refine (consumes_bind mpack_read_tag _ read_tag_consumes _); intros [] r; repeat case_match;
  cbn; first [reflexivity|apply flag_error_later].

Lemma i64_consumes : consumes mpack_expect_i64.
Proof. consume_tag. Qed.
Lemma float_consumes : consumes mpack_expect_float.
Proof. consume_tag. Qed.
Lemma double_consumes : consumes mpack_expect_double.
Proof. consume_tag. Qed.

Lemma native_consumes n : (0 < n)%nat -> consumes (mpack_expect_native n).
Proof.
  intros Hn r. unfold mpack_expect_native. destruct (is_ok r) eqn:E; [|cbn; by rewrite E].
  case_decide; cbn; [|intros _; split; [done|rewrite length_drop; lia]].
  intros Hok. exfalso. by rewrite flag_error_not_ok in Hok.
Qed.

Lemma bool_consumes : consumes mpack_expect_bool.
Proof.
  apply (consumes_bind (mpack_expect_native 1)); [by apply native_consumes; lia|]. intros x r. cbn.
  case_match; [apply flag_error_later|reflexivity].
Qed.

Lemma read_str_consumes : consumes read_str.
Proof.
  apply (consumes_bind mpack_expect_str).
  - apply (consumes_bind (mpack_expect_native 1)); [by apply native_consumes; lia|]. intros x r.
    repeat case_match; try apply native_shrinks; cbn; first [reflexivity|apply flag_error_later].
  - intros n. by apply (shrinks_bind (mpack_read_bytes_inplace n)); [apply read_bytes_shrinks|].
Qed.

Lemma read_map_consumes {A B} (f : A -> B) m : consumes m -> consumes (read_map f m).
Proof. intros Hm r. specialize (Hm r). unfold read_map. by destruct (m r). Qed.

(** More fuel does not change what is read. *)
Lemma read_elements_fuel {A} (rd : mpack_reader -> A * mpack_reader) fuel more i n arr r :
  consumes rd -> (length (rd_data r) + 1 < fuel)%nat ->
  read_elements rd (fuel + more) i n arr r = read_elements rd fuel i n arr r.
Proof.
  intros Hrd. revert i arr r. induction fuel as [|fuel IH]; intros i arr r Hf; [lia|]. cbn [read_elements Nat.add].
  destruct (i <? n); [|done]. specialize (Hrd r). destruct (rd r) as [x r']. cbn in Hrd.
  destruct (is_ok r') eqn:E; [|done]. destruct (Hrd eq_refl). apply IH. lia.
Qed.

Local Open Scope Z_scope.

Ltac app_norm := repeat first [rewrite <- app_assoc | progress cbn [app]].

(** ** Messages as JSON values *)

Definition jstr (s : string) : jvalue := JString (bytes_of_string s).
Definition member (k : string) (v : jvalue) : bytes * jvalue := (bytes_of_string k, v).
Definition message (method : string) (params : object) : jvalue :=
  JObject [member "method" (jstr method); member "params" (JObject params)].

Definition period_bits (options : PubSubOptionsImpl) : Z :=
  f64_div (f64_of_int (periodicMs options)) (f64_of_int 1000).

Definition options_members (options : PubSubOptionsImpl) : object :=
  (if sendAll (o_options options) then [member "all" (JBoolean true)] else []) ++
  (if topicsOnly (o_options options) then [member "topicsonly" (JBoolean true)] else []) ++
  (if prefixMatch (o_options options) then [member "prefix" (JBoolean true)] else []) ++
  (if negb (periodicMs options =? kDefaultPeriodicMs) then [member "periodic" (JFloat (period_bits options))] else []).

(** The JSON value of a control message of a client *)
Definition client_json (msg : ClientMessage jvalue) : option jvalue :=
  match msg with
  | PublishMsg pubHandle _ name typeStr properties _ =>
      Some (message publish_str [member "name" (jstr name); member "properties" (obj_json properties);
        member "pubuid" (JInteger (GetIndex pubHandle)); member "type" (jstr typeStr)])
  | UnpublishMsg pubHandle _ => Some (message unpublish_str [member "pubuid" (JInteger (GetIndex pubHandle))])
  | SetPropertiesMsg _ name update =>
      Some (message setproperties_str [member "name" (jstr name); member "update" (obj_json update)])
  | SubscribeMsg subHandle topicNames options =>
      Some (message subscribe_str [member "options" (JObject (options_members options));
        member "topics" (JArray (jstr <$> topicNames)); member "subuid" (JInteger subHandle)])
  | UnsubscribeMsg subHandle => Some (message unsubscribe_str [member "subuid" (JInteger subHandle)])
  | _ => None
  end.

Definition server_json (msg : ServerMessage jvalue) : option jvalue :=
  match msg with
  | AnnounceMsg name id typeStr pubuid properties =>
      Some (message announce_str ([member "id" (JInteger id); member "name" (jstr name);
        member "properties" (obj_json properties)] ++
        match pubuid with Some h => [member "pubuid" (JInteger h)] | None => [] end ++
        [member "type" (jstr typeStr)]))
  | UnannounceMsg name id => Some (message unannounce_str [member "id" (JInteger id); member "name" (jstr name)])
  | PropertiesUpdateMsg name update ack =>
      Some (message properties_str ([member "name" (jstr name); member "update" (obj_json update)] ++
        if ack then [member "ack" (JBoolean true)] else []))
  | _ => None
  end.

(** ** The encoder writes these values *)

Section Text.
Context `{JsonFloat}.

Definition member_text (kv : bytes * jvalue) : option bytes :=
  k ← quoted false kv.1; t ← dump false kv.2; Some (k ++ colon :: t).

Lemma dump_object l ts : mapM member_text l = Some ts ->
  dump false (JObject l) = Some (lbrace :: join ts ++ [rbrace]).
Proof. intros Hl. cbn [dump]. unfold member_text in Hl. by rewrite Hl. Qed.

Lemma member_dump k v t : quoted false (bytes_of_string k) = Some (qlit k) -> dump false v = Some t ->
  member_text (member k v) = Some (key k ++ t).
Proof.
  intros Hk Hv. unfold member_text, member. cbn [fst snd]. rewrite Hk, Hv. cbn [mbind option_bind].
  unfold key. by rewrite <- app_assoc.
Qed.

Lemma dump_message method params ts :
  quoted false (bytes_of_string method) = Some (qlit method) -> mapM member_text params = Some ts ->
  dump false (message method params) = Some (header method ++ join ts ++ [rbrace; rbrace]).
Proof.
  intros Hm Hp. unfold message. rewrite (dump_object _ [key "method" ++ qlit method; key "params" ++ lbrace :: join ts ++ [rbrace]]).
  - f_equal. unfold header. cbn [join]. by app_norm.
  - cbn [mapM]. rewrite (member_dump "method" _ (qlit method)) by done.
    rewrite (member_dump "params" _ _ eq_refl (dump_object _ _ Hp)). done.
Qed.

Lemma quoted_dump s t : qstr s = Some t -> dump false (jstr s) = Some t.
Proof. done. Qed.

Ltac members := cbn [mapM app]; repeat match goal with
  | |- context [member_text (member ?k (jstr ?v))] => erewrite (member_dump k (jstr v)) by (reflexivity || (apply quoted_dump; eassumption))
  | |- context [member_text (member ?k (obj_json ?v))] => erewrite (member_dump k (obj_json v)) by (reflexivity || eassumption)
  | |- context [member_text (member ?k ?v)] => erewrite (member_dump k v) by reflexivity
  end.

Lemma options_dump options :
  dump false (JObject (options_members options)) = Some (lbrace :: join (option_texts options) ++ [rbrace]).
Proof.
  apply dump_object. unfold options_members, option_texts.
  destruct (sendAll _), (topicsOnly _), (prefixMatch _), (negb _); reflexivity.
Qed.

Lemma names_dump names ns : mapM qstr names = Some ns ->
  dump false (JArray (jstr <$> names)) = Some (lbracket :: join ns ++ [rbracket]).
Proof.
  intros Hn. cbn [dump].
  assert (mapM (dump false) (jstr <$> names) = mapM qstr names) as ->; [|by rewrite Hn].
  clear. induction names as [|x l IH]; [done|]. cbn [fmap list_fmap mapM]. by rewrite IH.
Qed.

Ltac close_text := first [reflexivity | f_equal; cbn [join]; app_norm; reflexivity].

Lemma encode_client_dump msg j b t :
  client_json msg = Some j -> WireEncodeText_client msg = Some (b, t) -> b = true /\ dump false j = Some t.
Proof.
  destruct msg; cbn [client_json WireEncodeText_client]; intros [= <-] He; try discriminate;
    unfold WireEncodePublish, WireEncodeUnpublish, WireEncodeSetProperties, WireEncodeSubscribe, WireEncodeUnsubscribe,
      EncodePrefixes, dump_obj in He;
    repeat match goal with E : mbind _ _ = Some _ |- _ => apply bind_Some in E as (? & ? & ?) end;
    simplify_eq; (split; [done|]).
  - erewrite dump_message; [|reflexivity|members; reflexivity]. close_text.
  - erewrite dump_message; [|reflexivity|members; reflexivity]. close_text.
  - erewrite dump_message; [|reflexivity|members; reflexivity]. close_text.
  - erewrite dump_message; [|reflexivity|]; cycle 1.
    { cbn [mapM]. rewrite (member_dump "options" _ _ eq_refl (options_dump options)).
      rewrite (member_dump "topics" _ _ eq_refl (names_dump _ _ ltac:(eassumption))).
      rewrite (member_dump "subuid" (JInteger _) _ eq_refl eq_refl). reflexivity. }
    close_text.
  - erewrite dump_message; [|reflexivity|members; reflexivity]. close_text.
Qed.

Lemma encode_server_dump msg j b t :
  server_json msg = Some j -> WireEncodeText_server msg = Some (b, t) -> b = true /\ dump false j = Some t.
Proof.
  destruct msg; cbn [server_json WireEncodeText_server]; intros [= <-] He; try discriminate;
    unfold WireEncodeAnnounce, WireEncodeUnannounce, WireEncodePropertiesUpdate, dump_obj in He;
    repeat match goal with E : mbind _ _ = Some _ |- _ => apply bind_Some in E as (? & ? & ?) end;
    simplify_eq; (split; [done|]).
  - destruct pubuid; (erewrite dump_message; [|reflexivity|members; reflexivity]); close_text.
  - erewrite dump_message; [|reflexivity|members; reflexivity]. close_text.
  - destruct ack; (erewrite dump_message; [|reflexivity|members; reflexivity]); close_text.
Qed.

(** ** The decoder reads them *)

(** Adding members does not hide others: [find] sees the first member with a key. *)
Lemma find_below k l : forallb (fun kv => bytes_ltb k kv.1) l = true -> obj_find k l = None.
Proof.
  induction l as [|[k' v] l IH]; cbn; [done|]. rewrite andb_true_iff. intros [Hk Hl].
  destruct (ltb_asym _ _ Hk) as [_ Hn]. rewrite bool_decide_eq_false_2 by congruence. by apply IH.
Qed.

Lemma find_emplace k k' v l : keys_sorted l = true ->
  obj_find k (obj_try_emplace k' v l) =
  match obj_find k l with Some x => Some x | None => if bool_decide (k = k') then Some v else None end.
Proof.
  induction l as [|[k2 v2] l IH]; cbn; [by case_bool_decide|]. rewrite andb_true_iff. intros [Hs Hl].
  destruct (bytes_ltb k' k2) eqn:E; cbn.
  - case_bool_decide as E1; [subst k'|by repeat case_match].
    destruct (ltb_asym _ _ E) as [_ Hn]. rewrite bool_decide_eq_false_2 by congruence.
    rewrite find_below; [done|]. apply forallb_forall. intros kv Hin. rewrite forallb_forall in Hs.
    eapply ltb_trans; [exact E|]. by apply Hs.
  - destruct (decide (k' = k2)) as [<-|E1].
    + rewrite (bool_decide_eq_true_2 (k' = k')) by done. cbn. case_bool_decide; [done|]. by case_match.
    + rewrite (bool_decide_eq_false_2 (k' = k2)) by done. cbn.
      destruct (bool_decide (k = k2)); [done|]. by apply IH.
Qed.

Lemma find_fold k acc l : keys_sorted acc = true ->
  obj_find k (foldl obj_add acc l) = match obj_find k acc with Some x => Some x | None => obj_find k l end.
Proof.
  revert acc. induction l as [|[k' v] l IH]; intros acc Ha; cbn [foldl]; [cbn; by case_match|].
  rewrite IH by (by apply emplace_sorted). unfold obj_add. cbn [fst snd]. rewrite find_emplace by done.
  cbn [obj_find]. by repeat case_match.
Qed.

Definition norm_members (l : object) : object := (fun kv => (kv.1, norm kv.2)) <$> l.

Lemma find_norm (k : string) l : find (foldl obj_add [] (norm_members l)) k = norm <$> find l k.
Proof.
  unfold find. rewrite find_fold by done. cbn [obj_find]. unfold norm_members.
  induction l as [|[k' v] l IH]; cbn; [done|]. by case_bool_decide.
Qed.
End Text.

(** The members of an object as they are read *)
Definition read_members (l : object) : object := foldl obj_add [] (norm_members l).

Lemma norm_object l : norm (JObject l) = JObject (read_members l).
Proof. reflexivity. Qed.

Lemma find_read l (k : string) v : find l k = Some v -> find (read_members l) k = Some (norm v).
Proof. intros E. unfold read_members. by rewrite find_norm, E. Qed.
Lemma find_read_none l (k : string) : find l k = None -> find (read_members l) k = None.
Proof. intros E. unfold read_members. by rewrite find_norm, E. Qed.

Lemma get_string_jstr s : get_string (jstr s) = Some s.
Proof. cbn [get_string jstr]. by rewrite string_of_bytes_of_string. Qed.

Lemma obj_get_string l (k s : string) : find l k = Some (jstr s) -> ObjGetString (read_members l) k = inr s.
Proof.
  intros E. unfold ObjGetString, ObjGet. rewrite (find_read _ _ _ E). cbn [or_error err_bind].
  change (norm (jstr s)) with (jstr s). by rewrite get_string_jstr.
Qed.

Lemma get_int_norm z : int64 z = true -> get_int (norm (JInteger z)) = Some z.
Proof.
  unfold int64. intros Hz. cbn [norm]. destruct (Z.ltb_spec z 0); cbn; [done|].
  rewrite swrap_small by lia. done.
Qed.

Lemma obj_get_number l (k : string) z : int64 z = true -> find l k = Some (JInteger z) ->
  ObjGetNumber (read_members l) k = inr z.
Proof.
  intros Hz E. unfold ObjGetNumber, ObjGet, GetNumber_int. rewrite (find_read _ _ _ E). cbn [or_error err_bind].
  by rewrite get_int_norm.
Qed.

Lemma norm_obj m : norm (obj_json m) = JObject (obj_members (norm <$> m)).
Proof. apply norm_obj_json. Qed.

Lemma obj_get_object l (k : string) m : find l k = Some (obj_json m) ->
  ObjGetObject (read_members l) k = inr (obj_members (norm <$> m)).
Proof.
  intros E. unfold ObjGetObject, ObjGet. rewrite (find_read _ _ _ E), norm_obj. reflexivity.
Qed.

Lemma string_elements_jstr (k : string) n names : string_elements k n (norm <$> (jstr <$> names)) = inr names.
Proof.
  revert n. induction names as [|s names IH]; intros n; [done|]. cbn [fmap list_fmap string_elements].
  change (norm (jstr s)) with (jstr s). rewrite get_string_jstr. cbn [or_error err_bind].
  setoid_rewrite IH. reflexivity.
Qed.

Lemma obj_get_strings l (k : string) names : find l k = Some (JArray (jstr <$> names)) ->
  ObjGetStringArray (read_members l) k = inr names.
Proof.
  intros E. unfold ObjGetStringArray, ObjGet. rewrite (find_read _ _ _ E). cbn [or_error err_bind norm].
  apply string_elements_jstr.
Qed.

Lemma decode_message_read {A} (decode : string -> object -> string + A) method params :
  decode_message decode (norm (message method params)) = decode method (read_members params).
Proof.
  unfold message. rewrite norm_object. unfold decode_message.
  rewrite (obj_get_string _ _ method) by reflexivity. cbn [err_bind].
  unfold ObjGetObject, ObjGet. rewrite (find_read _ _ (JObject params)) by reflexivity. reflexivity.
Qed.

Section Decode.
Context `{Env}.

(** The options of a subscription as the server sees them *)
Definition wire_options (options : PubSubOptionsImpl) : PubSubOptionsImpl :=
  let base := PubSubOptionsImpl_make kDefaultPubSubOptions in
  let base :=
    if periodicMs options =? kDefaultPeriodicMs then base
    else base <| o_options ::= fun o => o <| periodic := period_bits options |> |>
              <| periodicMs := periodic_ms (period_bits options) |> in
  base <| o_options ::= fun o => o <| sendAll := sendAll (o_options options) |>
    <| topicsOnly := topicsOnly (o_options options) |> <| prefixMatch := prefixMatch (o_options options) |> |>.

Definition period_ok (options : PubSubOptionsImpl) : bool :=
  (periodicMs options =? kDefaultPeriodicMs) || (fits 64 (period_bits options) && isfinite (period_bits options)).

Lemma find_options options :
  let o := o_options options in
  find (options_members options) "all" = (if sendAll o then Some (JBoolean true) else None) /\
  find (options_members options) "topicsonly" = (if topicsOnly o then Some (JBoolean true) else None) /\
  find (options_members options) "prefix" = (if prefixMatch o then Some (JBoolean true) else None) /\
  find (options_members options) "periodic" =
    (if periodicMs options =? kDefaultPeriodicMs then None else Some (JFloat (period_bits options))).
Proof.
  unfold options_members. cbv zeta.
  destruct (sendAll _), (topicsOnly _), (prefixMatch _), (periodicMs options =? kDefaultPeriodicMs); done.
Qed.

Lemma decode_options_read l options : period_ok options = true ->
  find l "options" = Some (JObject (options_members options)) ->
  decode_options (read_members l) = inr (wire_options options).
Proof.
  intros Hp E. unfold decode_options. rewrite (find_read _ _ _ E), norm_object. unfold wire_options, bool_option, read_members.
  destruct (find_options options) as (E1 & E2 & E3 & E4). rewrite !find_norm, E1, E2, E3, E4.
  unfold period_ok in Hp. destruct (periodicMs options =? kDefaultPeriodicMs).
  - by destruct (sendAll _), (topicsOnly _), (prefixMatch _).
  - cbn in Hp. apply andb_true_iff in Hp as [_ Hf]. 
    change (norm <$> Some (JFloat (period_bits options))) with
      (Some (if isfinite (period_bits options) then JFloat (period_bits options) else JNull)). rewrite Hf.
    by destruct (sendAll _), (topicsOnly _), (prefixMatch _).
Qed.

(** What the server is called with for a message *)
Definition client_call (msg : ClientMessage jvalue) : option (ClientCall jvalue) :=
  match msg with
  | PublishMsg pubHandle _ name typeStr properties _ =>
      Some (ClientPublish (GetIndex pubHandle) name typeStr (norm <$> properties))
  | UnpublishMsg pubHandle _ => Some (ClientUnpublish (GetIndex pubHandle))
  | SetPropertiesMsg _ name update => Some (ClientSetProperties name (norm <$> update))
  | SubscribeMsg subHandle topicNames options => Some (ClientSubscribe subHandle topicNames (wire_options options))
  | UnsubscribeMsg subHandle => Some (ClientUnsubscribe subHandle)
  | _ => None
  end.

(** Numbers are in range *)
Definition client_ok (msg : ClientMessage jvalue) : bool :=
  match msg with
  | PublishMsg _ _ _ _ properties _ => json_ok (obj_json properties)
  | SetPropertiesMsg _ _ update => json_ok (obj_json update)
  | SubscribeMsg subHandle _ options => int64 subHandle && period_ok options
  | UnsubscribeMsg subHandle => int64 subHandle
  | _ => true
  end.

Lemma int64_index h : int64 (GetIndex h) = true.
Proof.
  unfold int64, GetIndex. change 0xfffff with (Z.ones 20). rewrite Z.land_ones by lia.
  pose proof (Z.mod_pos_bound h (2 ^ 20)). lia.
Qed.

Ltac pick_method := unfold decode_client, decode_server; repeat match goal with
  | |- context [String.eqb ?a ?b] => let x := eval vm_compute in (String.eqb a b) in change (String.eqb a b) with x
  end; cbn iota.

Lemma decode_client_json msg j c : client_ok msg = true -> client_json msg = Some j -> client_call msg = Some c ->
  decode_message decode_client (norm j) = inr c.
Proof.
  intros Hok Hj Hc. destruct msg; cbn [client_json client_call] in *; try discriminate; injection Hj as <-;
    injection Hc as <-; rewrite decode_message_read; cbn [client_ok] in Hok; pick_method.
  - rewrite (obj_get_string _ _ name), (obj_get_string _ _ typeStr) by reflexivity.
    rewrite (obj_get_number _ _ (GetIndex pubHandle)) by (apply int64_index || reflexivity).
    rewrite (find_read _ _ (obj_json properties)) by reflexivity. rewrite norm_obj. cbn [err_bind].
    by rewrite members_obj_members.
  - by rewrite (obj_get_number _ _ (GetIndex pubHandle)) by (apply int64_index || reflexivity).
  - rewrite (obj_get_string _ _ name), (obj_get_object _ _ update) by reflexivity. cbn [err_bind].
    by rewrite members_obj_members.
  - apply andb_true_iff in Hok as [Hh Hp]. rewrite (obj_get_number _ _ subHandle) by (done || reflexivity).
    rewrite (decode_options_read _ options) by (done || reflexivity).
    by rewrite (obj_get_strings _ _ topicNames) by reflexivity.
  - by rewrite (obj_get_number _ _ subHandle) by (done || reflexivity).
Qed.

(** What the client is called with for a message of the server *)
Definition server_call (msg : ServerMessage jvalue) : option (ServerCall jvalue) :=
  match msg with
  | AnnounceMsg name id typeStr pubuid properties => Some (ServerAnnounce name id typeStr (norm <$> properties) pubuid)
  | UnannounceMsg name id => Some (ServerUnannounce name id)
  | PropertiesUpdateMsg name update ack => Some (ServerPropertiesUpdate name (norm <$> update) ack)
  | _ => None
  end.
Definition server_ok (msg : ServerMessage jvalue) : bool :=
  match msg with
  | AnnounceMsg _ id _ pubuid properties =>
      int64 id && match pubuid with Some p => int64 p | None => true end && json_ok (obj_json properties)
  | UnannounceMsg _ id => int64 id
  | PropertiesUpdateMsg _ update _ => json_ok (obj_json update)
  | _ => true
  end.

Lemma decode_server_json msg j c : server_ok msg = true -> server_json msg = Some j -> server_call msg = Some c ->
  decode_message decode_server (norm j) = inr [DCall c].
Proof.
  intros Hok Hj Hc. destruct msg; cbn [server_json server_call] in *; try discriminate; injection Hj as <-;
    injection Hc as <-; rewrite decode_message_read; cbn [server_ok] in Hok; pick_method.
  - apply andb_true_iff in Hok as [Hok _]. apply andb_true_iff in Hok as [Hi Hp].
    rewrite (obj_get_string _ _ name), (obj_get_string _ _ typeStr) by (by destruct pubuid).
    rewrite (obj_get_number _ _ id) by (done || by destruct pubuid). unfold ObjGet.
    rewrite (find_read _ "properties" (obj_json properties)) by (by destruct pubuid). rewrite norm_obj. cbn [err_bind or_error].
    destruct pubuid as [p|].
    + rewrite (find_read _ _ (JInteger p)) by reflexivity. unfold GetNumber_int. rewrite get_int_norm by done.
      cbn [err_bind or_error]. by rewrite members_obj_members.
    + rewrite find_read_none by reflexivity. cbn [err_bind]. by rewrite members_obj_members.
  - rewrite (obj_get_string _ _ name) by reflexivity. by rewrite (obj_get_number _ _ id) by (done || reflexivity).
  - rewrite (obj_get_string _ _ name), (obj_get_object _ _ update) by reflexivity. cbn [err_bind].
    rewrite members_obj_members. destruct ack; [by rewrite (find_read _ _ (JBoolean true)) by reflexivity|].
    by rewrite find_read_none by reflexivity.
Qed.

(** ** Frames *)

(** A text frame: the messages in brackets, separated by commas *)
Definition text_frame (ts : list bytes) : bytes := lbracket :: join ts ++ [rbracket].

Lemma decode_messages_read {M C} (to_json : M -> option jvalue) (to_call : M -> option C)
    (decode : string -> object -> string + list (Decoded C)) msgs js cs :
  (forall m j c, m ∈ msgs -> to_json m = Some j -> to_call m = Some c -> decode_message decode (norm j) = inr [DCall c]) ->
  mapM to_json msgs = Some js -> mapM to_call msgs = Some cs ->
  decode_messages decode (norm <$> js) = DCall <$> cs.
Proof.
  intros Hd Hj Hc. unfold decode_messages.
  assert (forall g, (forall i m j c, m ∈ msgs -> to_json m = Some j -> to_call m = Some c -> g i (norm j) = [DCall c]) ->
    concat (imap g (norm <$> js)) = DCall <$> cs) as Hg.
  { clear Hd. revert js cs Hj Hc. induction msgs as [|m msgs IH]; intros js cs Hj Hc g Hg;
      cbn [mapM] in *; [injection Hj as <-; by injection Hc as <-|].
    apply bind_Some in Hj as (j & Ej & Hj). apply bind_Some in Hj as (js' & Ejs & [= <-]).
    apply bind_Some in Hc as (c & Ec & Hc). apply bind_Some in Hc as (cs' & Ecs & [= <-]).
    cbn [fmap list_fmap]. rewrite imap_cons. cbn [concat]. rewrite (Hg _ m j c) by (set_solver || done). cbn [app]. f_equal.
    apply (IH js' cs' Ejs Ecs (g ∘ S)). intros i m' j' c' Hm. apply Hg. set_solver. }
  apply Hg. intros i m j c Hm Ej Ec. by rewrite (Hd m j c).
Qed.
End Decode.

Section Frames.
Context `{Env} `{!JsonFloat, !JsonFloatLaws}.

Lemma dump_frame {M} (to_json : M -> option jvalue) (enc : M -> option (bool * bytes)) msgs js bts :
  (forall m j b t, to_json m = Some j -> enc m = Some (b, t) -> b = true /\ dump false j = Some t) ->
  mapM to_json msgs = Some js -> mapM enc msgs = Some bts ->
  dump false (JArray js) = Some (text_frame bts.*2).
Proof.
  intros He Hj Hb. cbn [dump]. enough (mapM (dump false) js = Some bts.*2) as -> by done.
  revert js bts Hj Hb. induction msgs as [|m msgs IH]; intros js bts Hj Hb; cbn [mapM] in *.
  { injection Hj as <-. by injection Hb as <-. }
  apply bind_Some in Hj as (j & Ej & Hj). apply bind_Some in Hj as (js' & Ejs & [= <-]).
  apply bind_Some in Hb as ([b t] & Eb & Hb). apply bind_Some in Hb as (bts' & Ebs & [= <-]).
  cbn [mapM]. destruct (He _ _ _ _ Ej Eb) as [_ ->]. by rewrite (IH js' bts').
Qed.

Lemma decode_frame {C} (decode : string -> object -> string + list (Decoded C)) js text :
  forallb json_ok js = true -> dump false (JArray js) = Some text ->
  WireDecodeTextImpl decode text = Some (decode_messages decode (norm <$> js)).
Proof. intros Hok Hd. unfold WireDecodeTextImpl. by rewrite (json_parse_dump (JArray js)). Qed.

(** What can be sent as text has a JSON value that is in range. *)
Lemma client_json_ok msg c : client_ok msg = true -> client_call msg = Some c ->
  exists j, client_json msg = Some j /\ json_ok j = true.
Proof.
  destruct msg; cbn [client_call client_json client_ok]; try discriminate; intros Hok _; eexists; (split; [done|]);
    unfold message; cbn [json_ok forallb snd member jstr]; rewrite ?Hok; try done.
  all: try (pose proof (int64_index pubHandle) as Hi; unfold int64 in Hi; by rewrite Hi).
  - apply andb_true_iff in Hok as [Hh Hp]. unfold int64 in Hh. rewrite Hh.
    assert (forallb json_ok (jstr <$> topicNames) = true) as -> by (by induction topicNames).
    enough (forallb (fun kv => json_ok kv.2) (options_members options) = true) as -> by done.
    unfold options_members, period_ok in *.
    destruct (sendAll _), (topicsOnly _), (prefixMatch _), (periodicMs options =? kDefaultPeriodicMs); try done;
      cbn in Hp |- *; apply andb_true_iff in Hp as [Hp _]; unfold fits in Hp; by rewrite Hp.
  - unfold int64 in Hok. by rewrite Hok.
Qed.

Lemma server_json_ok msg c : server_ok msg = true -> server_call msg = Some c ->
  exists j, server_json msg = Some j /\ json_ok j = true.
Proof.
  destruct msg; cbn [server_call server_json server_ok]; try discriminate; intros Hok _; eexists; (split; [done|]);
    unfold message, int64 in *; cbn [json_ok forallb snd member jstr].
  - apply andb_true_iff in Hok as [Hok Hp]. apply andb_true_iff in Hok as [Hi Hu].
    destruct pubuid; cbn [app forallb json_ok snd member jstr]; by rewrite ?Hi, ?Hp, ?Hu.
  - by rewrite Hok.
  - destruct ack; cbn [app forallb json_ok snd member jstr]; by rewrite Hok.
Qed.

Lemma mapM_json {M C} (ok : M -> bool) (to_json : M -> option jvalue) (to_call : M -> option C) msgs cs :
  (forall m c, ok m = true -> to_call m = Some c -> exists j, to_json m = Some j /\ json_ok j = true) ->
  forallb ok msgs = true -> mapM to_call msgs = Some cs ->
  exists js, mapM to_json msgs = Some js /\ forallb json_ok js = true.
Proof.
  intros Hm. revert cs. induction msgs as [|m msgs IH]; intros cs Hok Hc; [by exists []|]. cbn [mapM forallb] in *.
  apply andb_true_iff in Hok as [Hok1 Hok]. apply bind_Some in Hc as (c & Ec & Hc).
  apply bind_Some in Hc as (cs' & Ecs & _). destruct (Hm m c Hok1 Ec) as (j & Ej & Hj).
  destruct (IH cs' Hok Ecs) as (js & Ejs & Hjs). exists (j :: js). cbn [forallb]. by rewrite Ej, Ejs, Hj.
Qed.

Lemma frame_roundtrip {M C} (ok : M -> bool) (to_json : M -> option jvalue) (to_call : M -> option C) enc
    (decode : string -> object -> string + list (Decoded C)) msgs bts cs :
  (forall m c, ok m = true -> to_call m = Some c -> exists j, to_json m = Some j /\ json_ok j = true) ->
  (forall m j b t, to_json m = Some j -> enc m = Some (b, t) -> b = true /\ dump false j = Some t) ->
  (forall m j c, ok m = true -> to_json m = Some j -> to_call m = Some c -> decode_message decode (norm j) = inr [DCall c]) ->
  forallb ok msgs = true -> mapM enc msgs = Some bts -> mapM to_call msgs = Some cs ->
  WireDecodeTextImpl decode (text_frame bts.*2) = Some (DCall <$> cs).
Proof.
  intros Hj He Hd Hok Hb Hc. destruct (mapM_json _ _ _ _ _ Hj Hok Hc) as (js & Ejs & Hjs).
  rewrite (decode_frame _ js); [|done|by eapply dump_frame]. f_equal.
  eapply decode_messages_read; [|exact Ejs|exact Hc]. intros m j c Hm. apply Hd.
  rewrite forallb_forall in Hok. apply Hok. by apply list_elem_of_In.
Qed.

Lemma client_frame_roundtrip msgs bts calls :
  forallb client_ok msgs = true -> mapM WireEncodeText_client msgs = Some bts -> mapM client_call msgs = Some calls ->
  WireDecodeText_client (text_frame bts.*2) = Some (DCall <$> calls).
Proof.
  intros Hok Hb Hc. eapply (frame_roundtrip client_ok client_json client_call); try eassumption.
  - apply client_json_ok.
  - intros. by eapply encode_client_dump.
  - intros m j c Hm Hj Hmc. pose proof (decode_client_json m j c Hm Hj Hmc) as E. revert E. clear.
    unfold decode_message. destruct (norm j); try done. destruct (ObjGetString l "method"); [done|]. cbn [err_bind].
    destruct (ObjGetObject l "params"); [done|]. cbn [err_bind]. by intros ->.
Qed.
Lemma server_frame_roundtrip msgs bts calls :
  forallb server_ok msgs = true -> mapM WireEncodeText_server msgs = Some bts -> mapM server_call msgs = Some calls ->
  WireDecodeText_server (text_frame bts.*2) = Some (DCall <$> calls).
Proof.
  intros Hok Hb Hc. eapply (frame_roundtrip server_ok server_json server_call); try eassumption.
  - apply server_json_ok.
  - intros. by eapply encode_server_dump.
  - apply decode_server_json.
Qed.

(** C9.  Control messages survive the wire: the messages that one side of a connection encodes
    and sends in a text frame are decoded by the other side, in the same order, into the
    calls they stand for, for the messages of clients and of the server alike.  JSON values of
    properties arrive as [norm] says (an integer that is not negative as unsigned, a
    number that is not finite as null), and subscription options as [wire_options] says. *)
Theorem control_messages_roundtrip cmsgs cbts ccalls smsgs sbts scalls :
  forallb client_ok cmsgs = true -> mapM WireEncodeText_client cmsgs = Some cbts ->
  mapM client_call cmsgs = Some ccalls ->
  forallb server_ok smsgs = true -> mapM WireEncodeText_server smsgs = Some sbts ->
  mapM server_call smsgs = Some scalls ->
  WireDecodeText_client (text_frame cbts.*2) = Some (DCall <$> ccalls) /\
  WireDecodeText_server (text_frame sbts.*2) = Some (DCall <$> scalls).
Proof. split; [by eapply client_frame_roundtrip|by eapply server_frame_roundtrip]. Qed.

Lemma json_parse_range text s x s' : scan (skip_bom text) = (begin_array, s) -> scan s = (value_float x, s') ->
  isfinite x = false -> (1 <= length text)%nat -> json_parse text = PRange.
Proof.
  intros Eb Es Hf Hl. unfold json_parse. rewrite Eb.
  destruct (2 * length text + 2)%nat as [|[|[|fuel]]] eqn:Ef; try lia.
  cbn [parse_internal parse_elements]. rewrite Es. by rewrite Hf.
Qed.

(** A number that is too large for a double ends in an exception that the decoder of control
    messages does not catch: the parser reports it as [json::out_of_range], but the decoder
    only handles [json::parse_error]. *)
Theorem large_number_uncaught : isfinite (float_value (lit "1e999")) = false ->
  WireDecodeText_client (lit "[1e999]") = None /\ WireDecodeText_server (lit "[1e999]") = None.
Proof.
  intros Hf. assert (json_parse (lit "[1e999]") = PRange) as E.
  { apply (json_parse_range _ (lit "1e999]") (float_value (lit "1e999")) (lit "]")); [..|exact Hf|];
      vm_compute; try reflexivity. lia. }
  unfold WireDecodeText_client, WireDecodeText_server, WireDecodeTextImpl. rewrite E. split; reflexivity.
Qed.
End Frames.
