(* ===== verification/WireConnection4.v ===== *)
(** * WireConnection4: frames of the version 4 protocol

    [net/WireConnection.h] and its implementation over a web socket
    ([net/WebSocketConnection.cpp]).  The buffers of a stream are the bytes in them since the
    last frame; [w_sent] is what has been given to the web socket. *)

From S2P Require Import Prelude Json WireEncoder4 Wire4Text.
Local Open Scope Z_scope.

Inductive opcode := kText | kBinary.
Definition frame : Type := opcode * bytes.

Definition kTextFrameRolloverSize : Z := 4096.
Definition kBinaryFrameRolloverSize : Z := 8192.

Record WebSocketConnection := MkWs {
  w_frames : list frame;
  w_text : bytes;
  w_binary : bytes;
  w_in_text : bool;
  w_sendsActive : Z;
  w_reason : string;
  w_lastFlushTime : Z;
  w_sent : list (list frame);
  w_closes : list string;
}.
#[global] Instance eta_WebSocketConnection : Eta WebSocketConnection := fun w =>
  MkWs (w_frames w) (w_text w) (w_binary w) (w_in_text w) (w_sendsActive w) (w_reason w)
    (w_lastFlushTime w) (w_sent w) (w_closes w).
Definition WebSocketConnection_make : WebSocketConnection := MkWs [] [] [] false 0 EmptyString 0 [] [].

Definition Ready (w : WebSocketConnection) : bool := w_sendsActive w =? 0.

Definition FinishSendText (w : WebSocketConnection) : WebSocketConnection :=
  let w := if w_in_text w then w <| w_text ::= fun t => t ++ [rbracket] |> <| w_in_text := false |> else w in
  match w_text w with
  | [] => w
  | t => w <| w_frames ::= fun fs => fs ++ [(kText, t)] |> <| w_text := [] |>
  end.
Definition StartSendText (w : WebSocketConnection) : WebSocketConnection :=
  let w := if kTextFrameRolloverSize <=? zlen (w_text w) then FinishSendText w else w in
  if w_in_text w then w <| w_text ::= fun t => t ++ [comma] |>
  else w <| w_text ::= fun t => t ++ [lbracket] |> <| w_in_text := true |>.

Definition FinishSendBinary (w : WebSocketConnection) : WebSocketConnection :=
  match w_binary w with
  | [] => w
  | b => w <| w_frames ::= fun fs => fs ++ [(kBinary, b)] |> <| w_binary := [] |>
  end.
Definition StartSendBinary (w : WebSocketConnection) : WebSocketConnection :=
  if kBinaryFrameRolloverSize <=? zlen (w_binary w) then FinishSendBinary w else w.

(** [TextWriter::Add] and [BinaryWriter::Add], followed by what the caller writes to the
    stream *)
Definition AddText (text : bytes) (w : WebSocketConnection) : WebSocketConnection :=
  StartSendText w <| w_text ::= fun t => t ++ text |>.
Definition AddBinary (text : bytes) (w : WebSocketConnection) : WebSocketConnection :=
  StartSendBinary w <| w_binary ::= fun t => t ++ text |>.

(** [Flush]; [now] is the clock *)
Definition Flush (now : Z) (w : WebSocketConnection) : WebSocketConnection :=
  let w := FinishSendBinary (FinishSendText w) in
  match w_frames w with
  | [] => w
  | fs => w <| w_sendsActive ::= fun n => n + 1 |> <| w_sent ::= fun l => l ++ [fs] |>
            <| w_frames := [] |> <| w_lastFlushTime := now |>
  end.
(** The callback of [SendFrames] *)
Definition send_done (w : WebSocketConnection) : WebSocketConnection :=
  if 0 <? w_sendsActive w then w <| w_sendsActive ::= fun n => n - 1 |> else w.

Definition Disconnect (reason : string) (w : WebSocketConnection) : WebSocketConnection :=
  w <| w_reason := reason |> <| w_closes ::= fun l => l ++ [reason] |>.

(** ** What is written is framed *)

(** Every text is in a frame, in order; a frame that has grown long is closed and another
    one begun. *)

Definition text_frames (groups : list (list bytes)) : list frame :=
  (fun g => (kText, text_frame g)) <$> groups.

(** The frame that is open holds the texts [g]. *)
Definition open_text (g : list bytes) : bytes := match g with [] => [] | _ => lbracket :: join g end.
Definition text_state (w : WebSocketConnection) (g : list bytes) : Prop :=
  w_text w = open_text g /\ w_in_text w = negb (bool_decide (g = [])).

Lemma join_snoc g t : g <> [] -> join (g ++ [t]) = join g ++ comma :: t.
Proof.
  induction g as [|x g IH]; [done|]. intros _. destruct g as [|y g]; [done|].
  change (join ((x :: y :: g) ++ [t])) with (x ++ comma :: join ((y :: g) ++ [t])). rewrite IH by done.
  change (join (x :: y :: g)) with (x ++ comma :: join (y :: g)). by rewrite <- app_assoc.
Qed.

Lemma finish_text w g : text_state w g ->
  w_frames (FinishSendText w) = w_frames w ++ match g with [] => [] | _ => [(kText, text_frame g)] end /\
  text_state (FinishSendText w) [] /\ w_binary (FinishSendText w) = w_binary w /\
  w_sent (FinishSendText w) = w_sent w /\ w_sendsActive (FinishSendText w) = w_sendsActive w.
Proof.
  intros [Ht Hi]. unfold FinishSendText. rewrite Hi. destruct g as [|x g].
  - rewrite bool_decide_eq_true_2 by done. cbn [negb]. rewrite Ht. cbn. rewrite app_nil_r. done.
  - rewrite bool_decide_eq_false_2 by done. cbn [negb]. unfold fupd. cbn [w_text w_frames w_binary w_sent w_sendsActive]. rewrite Ht.
    cbn [open_text app]. done.
Qed.

Lemma start_text_fresh w t : text_state w [] ->
  let w' := (if w_in_text w then w <| w_text ::= fun t => t ++ [comma] |>
             else w <| w_text ::= fun t => t ++ [lbracket] |> <| w_in_text := true |>) <| w_text ::= fun u => u ++ t |> in
  w_frames w' = w_frames w /\ text_state w' [t] /\ w_binary w' = w_binary w /\ w_sent w' = w_sent w /\
  w_sendsActive w' = w_sendsActive w.
Proof. intros [Ht Hi]. cbv zeta. rewrite Hi. unfold text_state, fupd. cbn. by rewrite Ht. Qed.

Lemma start_text_more w g t : text_state w g -> g <> [] ->
  let w' := (if w_in_text w then w <| w_text ::= fun t => t ++ [comma] |>
             else w <| w_text ::= fun t => t ++ [lbracket] |> <| w_in_text := true |>) <| w_text ::= fun u => u ++ t |> in
  w_frames w' = w_frames w /\ text_state w' (g ++ [t]) /\ w_binary w' = w_binary w /\ w_sent w' = w_sent w /\
  w_sendsActive w' = w_sendsActive w.
Proof.
  intros [Ht Hi] Hg. cbv zeta. rewrite Hi. rewrite bool_decide_eq_false_2 by done. unfold text_state, fupd. cbn.
  rewrite Ht, Hi, !bool_decide_eq_false_2 by (done || by destruct g). repeat split; try done.
  destruct g as [|x g]; [done|]. cbn [open_text]. rewrite <- app_assoc. cbn [app open_text]. f_equal.
  change (x :: g ++ [t]) with ((x :: g) ++ [t]). by rewrite join_snoc.
Qed.

Lemma add_text w g t : text_state w g ->
  exists groups g', w_frames (AddText t w) = w_frames w ++ text_frames groups /\ text_state (AddText t w) g' /\
    concat groups ++ g' = g ++ [t] /\ w_binary (AddText t w) = w_binary w /\ w_sent (AddText t w) = w_sent w /\
    w_sendsActive (AddText t w) = w_sendsActive w.
Proof.
  intros Hs. unfold AddText, StartSendText. destruct (kTextFrameRolloverSize <=? zlen (w_text w)) eqn:E.
  - destruct (finish_text w g Hs) as (Hf & Hs' & Hb & Hse & Ha).
    assert (g <> []) as Hg by (intros ->; destruct Hs as [Ht _]; by rewrite Ht in E).
    destruct (start_text_fresh _ t Hs') as (H1 & H2 & H3 & H4 & H5). exists [g], [t].
    cbv zeta in *. rewrite H1, H3, H4, H5, Hf, Hb, Hse, Ha. cbn. rewrite app_nil_r. by destruct g.
  - destruct (decide (g = [])) as [->|Hg].
    + destruct (start_text_fresh _ t Hs) as (H1 & H2 & H3 & H4 & H5). exists [], [t]. cbv zeta in *.
      rewrite H1, H3, H4, H5. cbn. by rewrite app_nil_r.
    + destruct (start_text_more _ g t Hs Hg) as (H1 & H2 & H3 & H4 & H5). exists [], (g ++ [t]). cbv zeta in *.
      rewrite H1, H3, H4, H5. cbn. by rewrite app_nil_r.
Qed.

(** Texts written one after the other *)
Lemma add_texts ts w g : text_state w g ->
  exists groups g', let w' := foldl (fun w t => AddText t w) w ts in
    w_frames w' = w_frames w ++ text_frames groups /\ text_state w' g' /\
    concat groups ++ g' = g ++ ts /\ w_binary w' = w_binary w /\ w_sent w' = w_sent w /\
  w_sendsActive w' = w_sendsActive w.
Proof.
  revert w g. induction ts as [|t ts IH]; intros w g Hs; cbn [foldl].
  - exists [], g. cbn. by rewrite !app_nil_r.
  - destruct (add_text w g t Hs) as (gs1 & g1 & H1 & H2 & H3 & H4 & H5 & H6).
    destruct (IH _ g1 H2) as (gs2 & g2 & K1 & K2 & K3 & K4 & K5 & K6). exists (gs1 ++ gs2), g2. cbv zeta in *.
    split_and!; [|done| |congruence..].
    + unfold text_frames in *. by rewrite K1, H1, fmap_app, app_assoc.
    + rewrite concat_app, <- app_assoc, K3, app_assoc, H3, <- app_assoc. done.
Qed.

(** The same for values: a frame holds whole values. *)

Definition binary_frames (groups : list (list bytes)) : list frame :=
  (fun g => (kBinary, concat g)) <$> groups.

Lemma finish_binary w g : w_binary w = concat g ->
  exists gs, w_frames (FinishSendBinary w) = w_frames w ++ binary_frames gs /\ concat gs = (if bool_decide (concat g = []) then [] else g) /\
    w_binary (FinishSendBinary w) = [] /\ w_text (FinishSendBinary w) = w_text w /\
    w_in_text (FinishSendBinary w) = w_in_text w /\ w_sent (FinishSendBinary w) = w_sent w /\
    w_sendsActive (FinishSendBinary w) = w_sendsActive w.
Proof.
  intros Hb. unfold FinishSendBinary. rewrite <- Hb. destruct (w_binary w) as [|b bs] eqn:E.
  - exists []. cbn. by rewrite app_nil_r.
  - exists [g]. cbn. by rewrite Hb, app_nil_r.
Qed.

Lemma add_binary w g t : w_binary w = concat g ->
  exists groups g', w_frames (AddBinary t w) = w_frames w ++ binary_frames groups /\
    w_binary (AddBinary t w) = concat g' /\ concat groups ++ g' = g ++ [t] /\
    w_text (AddBinary t w) = w_text w /\ w_in_text (AddBinary t w) = w_in_text w /\
    w_sent (AddBinary t w) = w_sent w /\ w_sendsActive (AddBinary t w) = w_sendsActive w.
Proof.
  intros Hb. unfold AddBinary, StartSendBinary. destruct (kBinaryFrameRolloverSize <=? zlen (w_binary w)) eqn:E.
  - destruct (finish_binary w g Hb) as (gs & H1 & H2 & H3 & H4 & H5 & H6 & H7).
    rewrite bool_decide_eq_false_2 in H2 by (intros Hg; rewrite Hb, Hg in E; vm_compute in E; discriminate E).
    exists gs, [t]. unfold fupd. cbn. by rewrite H1, H2, H3, H4, H5, H6, H7, app_nil_r.
  - exists [], (g ++ [t]). unfold fupd. cbn. rewrite Hb, concat_app. cbn. by rewrite !app_nil_r.
Qed.

Lemma add_binaries ts w g : w_binary w = concat g ->
  exists groups g', let w' := foldl (fun w t => AddBinary t w) w ts in
    w_frames w' = w_frames w ++ binary_frames groups /\ w_binary w' = concat g' /\
    concat groups ++ g' = g ++ ts /\ w_text w' = w_text w /\ w_in_text w' = w_in_text w /\
    w_sent w' = w_sent w /\ w_sendsActive w' = w_sendsActive w.
Proof.
  revert w g. induction ts as [|t ts IH]; intros w g Hb; cbn [foldl].
  - exists [], g. cbn. by rewrite !app_nil_r.
  - destruct (add_binary w g t Hb) as (gs1 & g1 & H1 & H2 & H3 & H4 & H5 & H6 & H7).
    destruct (IH _ g1 H2) as (gs2 & g2 & K1 & K2 & K3 & K4 & K5 & K6 & K7). exists (gs1 ++ gs2), g2. cbv zeta in *.
    split_and!; [|done| |congruence..].
    + unfold binary_frames in *. by rewrite K1, H1, fmap_app, app_assoc.
    + rewrite concat_app, <- app_assoc, K3, app_assoc, H3, <- app_assoc. done.
Qed.
