(* ===== verification/NetworkQueue.v ===== *)
(** * NetworkQueue: between the local storage and the network

    The interfaces of [net/NetworkInterface.h] and [net/NetworkLoopQueue]: the local
    storage's calls are queued as messages, and the network loop takes the queue. *)

From Stdlib Require Import Floats.SpecFloat.
From S2P Require Import Prelude NtTypes Monads LocalTypes LocalStorage WireEncoder4 WireDecoder4.

Local Open Scope Z_scope.

(** ** [net::LocalInterface] *)

(** What the network calls; [L] is the state of the object behind the interface. *)
Class LocalInterface (J L : Type) := {
  li_NetworkAnnounce : string -> string -> gmap string J -> Z -> M L Z;
  li_NetworkUnannounce : string -> M L unit;
  li_NetworkPropertiesUpdate : string -> gmap string J -> bool -> M L unit;
  li_NetworkSetValue : Z -> Value -> M L unit;
}.
#[global] Hint Mode LocalInterface - ! : typeclass_instances.

#[global] Instance LocalStorage_interface {J} `{Json J, Env} : LocalInterface J (LSImpl J) := {
  li_NetworkAnnounce := NetworkAnnounce;
  li_NetworkUnannounce := NetworkUnannounce;
  li_NetworkPropertiesUpdate name update ack := NetworkPropertiesUpdate name (JsonObject update) ack;
  li_NetworkSetValue := NetworkSetValue;
}.

(** ** [NetworkLoopQueue] *)

(** Sizes of objects on the target, and how much a string has allocated *)
Class Sizes := {
  sizeof_ClientMessage : Z;
  sizeof_string : Z;
  string_capacity : string -> Z;
}.

Definition kMaxSize : Z := 2 * 1024 * 1024.

Section Queue.
Context {J : Type} `{Sizes}.

Record NetworkLoopQueue := MkLoopQueue {
  q_queue : list (ClientMessage J);
  q_size : Z;
  q_sizeErrored : bool;
}.
#[global] Instance eta_NetworkLoopQueue : Eta NetworkLoopQueue := fun q =>
  MkLoopQueue (q_queue q) (q_size q) (q_sizeErrored q).
Definition NetworkLoopQueue_make : NetworkLoopQueue := MkLoopQueue [] 0 false.

Definition ClearQueue (q : NetworkLoopQueue) : NetworkLoopQueue :=
  q <| q_queue := [] |> <| q_size := 0 |> <| q_sizeErrored := false |>.
(** The messages taken, and the queue *)
Definition ReadQueue (q : NetworkLoopQueue) : list (ClientMessage J) * NetworkLoopQueue :=
  (q_queue q, ClearQueue q).

Definition push (msg : ClientMessage J) (q : NetworkLoopQueue) : NetworkLoopQueue :=
  q <| q_queue ::= fun l => l ++ [msg] |>.

(** The memory behind the data of a value, as [SetValue] estimates it *)
Definition value_size (value : Value) : Z :=
  match data value with
  | VString s => zlen (bytes_of_string s)
  | VRaw data => zlen data
  | VBooleanArray arr => 4 * zlen arr
  | VIntegerArray arr => 8 * zlen arr
  | VFloatArray arr => 4 * zlen arr
  | VDoubleArray arr => 8 * zlen arr
  | VStringArray arr => sizeof_string * zlen arr + foldr Z.add 0 (string_capacity <$> arr)
  | _ => 0
  end.

(** A value that does not fit is dropped; its size counts all the same. *)
Definition queue_SetValue (pubHandle : Z) (value : Value) (q : NetworkLoopQueue) : NetworkLoopQueue :=
  let q := q <| q_size ::= fun n => n + value_size value + sizeof_ClientMessage |> in
  if kMaxSize <? q_size q then q <| q_sizeErrored := true |>
  else push (ClientValueMsg pubHandle value) q.

(** The [NetworkInterface] of the queue: what it does with a call of the local storage *)
Definition queue_call (o : Out J) (q : NetworkLoopQueue) : NetworkLoopQueue :=
  match o with
  | NetPublish pubHandle topicHandle name typeStr properties options =>
      push (PublishMsg pubHandle topicHandle name typeStr properties options) q
  | NetUnpublish pubHandle topicHandle => push (UnpublishMsg pubHandle topicHandle) q
  | NetSetProperties topicHandle name update => push (SetPropertiesMsg topicHandle name update) q
  | NetSubscribe subHandle topicNames options => push (SubscribeMsg subHandle topicNames options) q
  | NetUnsubscribe subHandle => push (UnsubscribeMsg subHandle) q
  | NetSetValue pubHandle value => queue_SetValue pubHandle value q
  | _ => q
  end.
End Queue.
Arguments NetworkLoopQueue : clear implicits.

(** ** What the network loop gets *)

Section Order.
Context {J : Type} `{Sizes}.

(** The message of a call of the local storage *)
Definition out_msg (o : Out J) : option (ClientMessage J) :=
  match o with
  | NetPublish pubHandle topicHandle name typeStr properties options =>
      Some (PublishMsg pubHandle topicHandle name typeStr properties options)
  | NetUnpublish pubHandle topicHandle => Some (UnpublishMsg pubHandle topicHandle)
  | NetSetProperties topicHandle name update => Some (SetPropertiesMsg topicHandle name update)
  | NetSubscribe subHandle topicNames options => Some (SubscribeMsg subHandle topicNames options)
  | NetUnsubscribe subHandle => Some (UnsubscribeMsg subHandle)
  | NetSetValue pubHandle value => Some (ClientValueMsg pubHandle value)
  | _ => None
  end.
Definition out_size (o : Out J) : Z :=
  match o with NetSetValue _ value => value_size value + sizeof_ClientMessage | _ => 0 end.
Definition is_control (msg : ClientMessage J) : bool := match msg with ClientValueMsg _ _ => false | _ => true end.
Definition queue_calls (os : list (Out J)) (q : NetworkLoopQueue J) : NetworkLoopQueue J :=
  foldl (fun q o => queue_call o q) q os.
Definition total_size (os : list (Out J)) : Z := foldr (fun o n => out_size o + n) 0 os.


(** The message of the call numbered [i]: a value is left out if the sizes of the values up to
    it, those left out included, come to more than the limit. *)
Definition taken (n : Z) (os : list (Out J)) (i : nat) (o : Out J) : option (ClientMessage J) :=
  match o with
  | NetSetValue _ _ => if kMaxSize <? n + total_size (take (S i) os) then None else out_msg o
  | _ => out_msg o
  end.
Definition is_dropped (n : Z) (os : list (Out J)) (i : nat) (o : Out J) : bool :=
  match o with NetSetValue _ _ => kMaxSize <? n + total_size (take (S i) os) | _ => false end.

Lemma taken_next n o os i o' : taken n (o :: os) (S i) o' = taken (n + out_size o) os i o'.
Proof. unfold taken. cbn [take]. change (total_size (o :: ?l)) with (out_size o + total_size l). by rewrite Z.add_assoc. Qed.
Lemma dropped_next n o os i o' : is_dropped n (o :: os) (S i) o' = is_dropped (n + out_size o) os i o'.
Proof. unfold is_dropped. cbn [take]. change (total_size (o :: ?l)) with (out_size o + total_size l). by rewrite Z.add_assoc. Qed.

Lemma queue_call_taken o os q :
  q_queue (queue_call o q) = q_queue q ++ option_list (taken (q_size q) (o :: os) 0 o) /\
  q_size (queue_call o q) = q_size q + out_size o /\
  q_sizeErrored (queue_call o q) = (q_sizeErrored q || is_dropped (q_size q) (o :: os) 0 o)%bool.
Proof.
  destruct o; cbn; rewrite ?orb_false_r, ?app_nil_r; try (split_and!; [done|lia|done]).
  unfold queue_SetValue. cbn. rewrite Z.add_0_r, <- Z.add_assoc.
  destruct (kMaxSize <? _); cbn; rewrite ?app_nil_r, ?orb_true_r, ?orb_false_r; split_and!; (done || lia).
Qed.
Lemma queue_calls_taken os q :
  q_queue (queue_calls os q) = q_queue q ++ omap id (imap (taken (q_size q) os) os) /\
  q_sizeErrored (queue_calls os q) = (q_sizeErrored q || existsb id (imap (is_dropped (q_size q) os) os))%bool.
Proof.
  revert q. induction os as [|o os IH]; intros q; [cbn; by rewrite app_nil_r, orb_false_r|].
  change (queue_calls (o :: os) q) with (queue_calls os (queue_call o q)).
  destruct (queue_call_taken o os q) as (E1 & E2 & E3). destruct (IH (queue_call o q)) as [-> ->]. rewrite E1, E2, E3.
  cbn [imap]. rewrite (imap_ext (taken (q_size q) (o :: os) ∘ S) (taken (q_size q + out_size o) os)) by (intros; apply taken_next).
  rewrite (imap_ext (is_dropped (q_size q) (o :: os) ∘ S) (is_dropped (q_size q + out_size o) os)) by (intros; apply dropped_next).
  split; [|by rewrite <- orb_assoc]. rewrite <- app_assoc. f_equal. cbn [omap list_omap]. by destruct (taken _ _ 0 o).
Qed.

(** Left out is nothing but values, and nothing at all if the values fit. *)
Lemma taken_control n os os' : List.filter is_control (omap id (imap (taken n os) os')) = List.filter is_control (omap out_msg os').
Proof.
  assert (forall f, (forall i o, f i o = out_msg o \/ f i o = None /\ exists h v, o = NetSetValue h v) ->
    List.filter is_control (omap id (imap f os')) = List.filter is_control (omap out_msg os')) as Hf.
  { induction os' as [|o os' IH]; intros f Hf; [done|]. cbn [imap omap list_omap]. specialize (IH (f ∘ S) (fun i => Hf (S i))).
    destruct (Hf O o) as [->|[-> (h & v & ->)]]; cbn; [|exact IH]. destruct (out_msg o); cbn; [|exact IH]. destruct (is_control _); by rewrite IH. }
  apply Hf. intros i o. unfold taken. destruct o; auto. destruct (kMaxSize <? _); eauto.
Qed.
Lemma taken_fits os n : Forall (fun o => 0 <= out_size o) os -> n + total_size os <= kMaxSize ->
  omap id (imap (taken n os) os) = omap out_msg os.
Proof.
  intros Ha. revert n. induction Ha as [|o os Ho Ha IH]; intros n Hs; [done|].
  change (total_size (o :: os)) with (out_size o + total_size os) in Hs.
  assert (0 <= total_size os) by (unfold total_size; clear - Ha; induction Ha; cbn; lia).
  cbn [imap]. rewrite (imap_ext (taken n (o :: os) ∘ S) (taken (n + out_size o) os)) by (intros; apply taken_next).
  assert (taken n (o :: os) 0 o = out_msg o) as E.
  { unfold taken. change (total_size (take 1 (o :: os))) with (out_size o + 0). destruct o; try done.
    replace (kMaxSize <? _) with false; [done|]. symmetry. apply Z.ltb_ge. lia. }
  cbn [omap list_omap]. rewrite E, IH by lia. done.
Qed.

End Order.

(** * Net4Common: what the client and the server of version 4 share *)

Local Open Scope Z_scope.

Definition kMinPeriodMs : Z := 5.
Definition kWireMaxNotReadyUs : Z := 1000000.
Definition kPingIntervalMs : Z := 3000.
Definition UINT32_MAX : Z := 2 ^ 32 - 1.

(** [wpi::Now()], by the number of the reading *)
Class WpiClock := wpi_Now : nat -> Z.

(** [std::lround] of a finite number: to the nearest integer, halves away from zero *)
Definition f64_lround (x : Z) : Z :=
  match of_bits binary64 x with
  | S754_finite s m e =>
      let a := if 0 <=? e then Z.pos m * 2 ^ e else (2 * Z.pos m + 2 ^ (- e)) / 2 ^ (1 - e) in
      if s then - a else a
  | _ => 0
  end.

Definition sub64 (a b : Z) : option Z := add64 a (- b).

(** The keys [wpi::DenseMap<int64_t, ...>] can hold *)
Definition dense_key (id : Z) : bool := negb ((id =? 2 ^ 63 - 1) || (id =? - 2 ^ 63)).

(** [std::lround(options.periodicMs / 10.0) * 10], at least [kMinPeriodMs] *)
Definition round_period (ms : Z) : Z :=
  let p := wrap 32 (f64_lround (f64_div (f64_of_int ms) (f64_of_int 10)) * 10) in
  if p <? kMinPeriodMs then kMinPeriodMs else p.
