(* ===== verification/Frames4.v ===== *)
(** * Frames4: what the other side reads from the frames of a connection

    The receiver decodes one frame after the other.  Together with the round trips of the
    messages this says that what one side writes is what the other side reads, wherever the
    frames are split. *)

From S2P Require Import Prelude NtTypes LocalTypes Json JsonRoundTrip WireEncoder4.
From S2P Require Import WireDecoder4 Wire4Text WireConnection4.
Local Open Scope Z_scope.

Lemma mapM_app_Some {A B} (f : A -> option B) l k x y :
  mapM f l = Some x -> mapM f k = Some y -> mapM f (l ++ k) = Some (x ++ y).
Proof. rewrite !mapM_Some. apply Forall2_app. Qed.

(** ** Values *)

(** The values of a binary frame, with times as they are on the wire; [None] if there is an
    error *)
Fixpoint decode_values (fuel : nat) (bs : bytes) : option (list (Z * Value)) :=
  match fuel, bs with
  | _, [] => Some []
  | O, _ => None
  | S fuel, _ =>
      match WireDecodeBinary bs 0 with
      | Some (BinaryValue id v rest) => vs ← decode_values fuel rest; Some ((id, v) :: vs)
      | _ => None
      end
  end.
Definition frame_values (f : frame) : option (list (Z * Value)) :=
  match f.1 with kBinary => decode_values (length f.2) f.2 | kText => Some [] end.
Definition frames_values (fs : list frame) : option (list (Z * Value)) := @concat _ <$> mapM frame_values fs.

(** A value on its way: its number, its time and its data *)
Record Sending := MkSending { s_id : Z; s_time : Z; s_value : Value }.
Definition sending_ok (s : Sending) : bool := int64 (s_id s) && int64 (s_time s) && data_ok (data (s_value s)).
Definition sending_bytes (s : Sending) : bytes := (WireEncodeBinary (s_id s) (s_time s) (s_value s)).2.
Definition received (s : Sending) : Z * Value :=
  (s_id s, MkValue (bool_data (data (s_value s))) (s_time s) (s_time s)).

Lemma decode_sending s rest : sending_ok s = true ->
  WireDecodeBinary (sending_bytes s ++ rest) 0 = Some (BinaryValue (received s).1 (received s).2 rest).
Proof.
  intros Hs. unfold sending_ok in Hs. apply andb_prop in Hs as [Hs Hd]. apply andb_prop in Hs as [Hi Ht].
  unfold sending_bytes. rewrite decode_encode_binary by done. unfold local_time, add64, int64 in *.
  destruct (Z.eqb_spec (s_time s) 0) as [E|E]; [cbn; by rewrite E|].
  rewrite Z.add_0_r, Ht. done.
Qed.
Lemma sending_nonempty s : sending_ok s = true -> sending_bytes s <> [].
Proof. intros Hs E. pose proof (decode_sending s [] Hs) as H. rewrite E in H. vm_compute in H. discriminate H. Qed.

Lemma decode_sendings l fuel : forallb sending_ok l = true -> (length (concat (sending_bytes <$> l)) <= fuel)%nat ->
  decode_values fuel (concat (sending_bytes <$> l)) = Some (received <$> l).
Proof.
  revert fuel. induction l as [|s l IH]; intros fuel Hok Hf; [by destruct fuel|]. cbn [forallb] in Hok.
  apply andb_prop in Hok as [Hs Hok]. rewrite fmap_cons in *. cbn [concat] in *.
  pose proof (sending_nonempty s Hs) as Hn. pose proof (decode_sending s (concat (sending_bytes <$> l)) Hs) as E.
  destruct (sending_bytes s) as [|b bs]; [done|]. cbn [app] in *. destruct fuel as [|fuel]; [cbn in Hf; lia|].
  cbn [decode_values]. rewrite E. rewrite IH; [done|done|]. cbn in Hf. rewrite length_app in Hf. lia.
Qed.

(** C10.  A value survives the binary encoding: what is written is read back, whatever follows it,
    as the same number, time and data (of booleans, whether they are zero); the local time is
    the time moved by the offset, where the time 0 stays 0. *)
Theorem binary_value_roundtrip id time v offset rest :
  int64 id = true -> int64 time = true -> data_ok (data v) = true ->
  WireDecodeBinary ((WireEncodeBinary id time v).2 ++ rest) offset =
  (t ← local_time time offset; Some (BinaryValue id (MkValue (bool_data (data v)) t time) rest)).
Proof. apply decode_encode_binary. Qed.

(** Values written in any grouping *)
Lemma frames_values_groups groups l : forallb sending_ok l = true -> concat groups = sending_bytes <$> l ->
  frames_values (binary_frames groups) = Some (received <$> l).
Proof.
  revert l. induction groups as [|g groups IH]; intros l Hok Hg; cbn [concat] in Hg.
  - by destruct l.
  - symmetry in Hg. apply fmap_app_inv in Hg as (l1 & l2 & -> & E & ->). rewrite forallb_app in Hok.
    apply andb_prop in Hok as [H1 H2]. specialize (IH l2 H2 E). unfold frames_values in *.
    cbn [binary_frames fmap list_fmap mapM frame_values fst snd]. rewrite decode_sendings by done.
    cbn [mbind option_bind]. unfold binary_frames in IH. destruct (mapM _ _) as [vs|]; [|done]. cbn in *.
    injection IH as ->. by rewrite fmap_app.
Qed.

Lemma frames_values_app fs gs vs ws : frames_values fs = Some vs -> frames_values gs = Some ws ->
  frames_values (fs ++ gs) = Some (vs ++ ws).
Proof.
  unfold frames_values. destruct (mapM _ fs) as [l|] eqn:E, (mapM _ gs) as [k|] eqn:E'; try done.
  intros [= <-] [= <-]. rewrite (mapM_app_Some _ _ _ _ _ E E'). cbn. by rewrite concat_app.
Qed.
Lemma frames_values_text groups : frames_values (text_frames groups) = Some [].
Proof.
  unfold frames_values, text_frames. induction groups as [|g gs IH]; [done|]. cbn.
  destruct (mapM _ _); [|done]. cbn in *. by injection IH as ->.
Qed.

(** ** Control messages of a client *)

Section Calls.
Context `{Env} `{!JsonFloat, !JsonFloatLaws}.

Definition frame_calls (f : frame) : option (list (Decoded (ClientCall jvalue))) :=
  match f.1 with kText => WireDecodeText_client f.2 | kBinary => Some [] end.
Definition frames_calls (fs : list frame) : option (list (Decoded (ClientCall jvalue))) :=
  @concat _ <$> mapM frame_calls fs.

Lemma frames_calls_app fs gs vs ws : frames_calls fs = Some vs -> frames_calls gs = Some ws ->
  frames_calls (fs ++ gs) = Some (vs ++ ws).
Proof.
  unfold frames_calls. destruct (mapM _ fs) as [l|] eqn:E, (mapM _ gs) as [k|] eqn:E'; try done.
  intros [= <-] [= <-]. rewrite (mapM_app_Some _ _ _ _ _ E E'). cbn. by rewrite concat_app.
Qed.
Lemma frames_calls_binary groups : frames_calls (binary_frames groups) = Some [].
Proof.
  unfold frames_calls, binary_frames. induction groups as [|g gs IH]; [done|]. cbn.
  destruct (mapM _ _); [|done]. cbn in *. by injection IH as ->.
Qed.

Lemma frames_calls_groups groups msgs bts calls :
  forallb client_ok msgs = true -> mapM WireEncodeText_client msgs = Some bts -> mapM client_call msgs = Some calls ->
  concat groups = bts.*2 -> frames_calls (text_frames groups) = Some (DCall <$> calls).
Proof.
  revert msgs bts calls. induction groups as [|g groups IH]; intros msgs bts calls Hok Hb Hc Hg; cbn [concat] in Hg.
  - destruct bts; [|done]. apply mapM_Some in Hb. apply Forall2_nil_inv_r in Hb as ->. by injection Hc as <-.
  - symmetry in Hg. apply fmap_app_inv in Hg as (b1 & b2 & -> & E & ->).
    apply mapM_Some, Forall2_app_inv_r in Hb as (m1 & m2 & K1 & K2 & ->).
    apply mapM_Some, Forall2_app_inv_l in Hc as (c1 & c2 & K3 & K4 & ->).
    apply mapM_Some in K1, K2, K3, K4. rewrite forallb_app in Hok. apply andb_prop in Hok as [Ho1 Ho2].
    change (text_frames ((snd <$> b1) :: groups)) with ([(kText, text_frame b1.*2)] ++ text_frames groups).
    rewrite fmap_app. apply frames_calls_app; [|by eapply IH]. unfold frames_calls. cbn.
    rewrite (client_frame_roundtrip _ _ _ Ho1 K1 K3). cbn. by rewrite app_nil_r.
Qed.
End Calls.
