(* ===== verification/ClientImpl.v ===== *)
(** * ClientImpl: the client side of the version 4 protocol ([net/ClientImpl.cpp])

    [CImpl] between the local storage, whose messages it sends, and the connection to the
    server, whose messages it passes on.  The object behind [m_local] is any implementation
    of [LocalInterface], part of the state.  [None] is undefined behaviour: a null pointer,
    signed overflow, or a key that [wpi::DenseMap] reserves; or an exception. *)

From S2P Require Import Prelude NtTypes Handles Monads LocalTypes Json WireEncoder4.
From S2P Require Import WireDecoder4 WireConnection4 NetworkQueue.
Local Open Scope Z_scope.

Record PublisherData := MkPublisherData {
  pd_handle : Z;
  pd_options : PubSubOptionsImpl;
  pd_periodMs : Z;
  pd_nextSendMs : Z;
  pd_outValues : list Value;
}.
#[global] Instance eta_PublisherData4 : Eta PublisherData := fun p =>
  MkPublisherData (pd_handle p) (pd_options p) (pd_periodMs p) (pd_nextSendMs p) (pd_outValues p).

Section Client.
Context {L : Type} `{LocalInterface jvalue L} `{Env} `{WpiClock} `{JsonFloat}.

(** [ci_timeSyncUpdated] and [ci_setPeriodic] are the arguments the two callbacks were called
    with; [ci_store] is the object [m_local] points to. *)
Record CImpl := MkCImpl {
  ci_inst : Z;
  ci_wire : WebSocketConnection;
  ci_local : bool;
  ci_store : L;
  ci_timeSyncUpdated : list (Z * Z * bool);
  ci_setPeriodic : list Z;
  ci_publishers : list (option PublisherData);
  ci_topicMap : gmap Z Z;
  ci_nextPingTimeMs : Z;
  ci_pongTimeMs : Z;
  ci_rtt2Us : Z;
  ci_haveTimeOffset : bool;
  ci_serverTimeOffsetUs : Z;
  ci_periodMs : Z;
  ci_lastSendMs : Z;
  ci_outgoing : list (ClientMessage jvalue);
  ci_clock : nat;
}.
#[global] Instance eta_CImpl : Eta CImpl := fun c =>
  MkCImpl (ci_inst c) (ci_wire c) (ci_local c) (ci_store c) (ci_timeSyncUpdated c) (ci_setPeriodic c)
    (ci_publishers c) (ci_topicMap c) (ci_nextPingTimeMs c) (ci_pongTimeMs c) (ci_rtt2Us c)
    (ci_haveTimeOffset c) (ci_serverTimeOffsetUs c) (ci_periodMs c) (ci_lastSendMs c) (ci_outgoing c) (ci_clock c).

Definition Now : M CImpl Z :=
  let* c := get in modify (fun c => c <| ci_clock ::= S |>) ;; ret (wpi_Now (ci_clock c)).
Definition wire (f : WebSocketConnection -> WebSocketConnection) : M CImpl unit :=
  modify (fun c => c <| ci_wire ::= f |>).

(** [m_wire.Flush()], which reads the clock if there is something to send *)
Definition flush : M CImpl unit :=
  let* c := get in
  match w_frames (FinishSendBinary (FinishSendText (ci_wire c))) with
  | [] => wire (Flush 0)
  | _ => let* now := Now in wire (Flush now)
  end.

(** [WireEncodeBinary(stream, id, time, value)] on the stream a writer has added *)
Definition send_binary (id time : Z) (value : Value) : M CImpl unit :=
  wire (AddBinary (WireEncodeBinary id time value).2).

(** A call of [m_local]; the pointer must not be null. *)
Definition on_store {A} (m : M L A) : M CImpl A :=
  let* c := get in
  if ci_local c then
    fun c => match m (ci_store c) with Some (x, l) => Some (x, c <| ci_store := l |>) | None => None end
  else deref None.

(** The ping: the time of the client as an integer value *)
Definition send_ping : M CImpl unit :=
  let* now := Now in send_binary (-1) 0 (MkValue (VInteger now) 0 0) ;; wire FinishSendBinary.

Definition set_periodic (periodMs : Z) : M CImpl unit :=
  modify (fun c => c <| ci_periodMs := periodMs |> <| ci_setPeriodic ::= fun l => l ++ [periodMs] |>).

(** The constructor, which sends a first ping *)
Definition CImpl_make (curTimeMs inst : Z) (w : WebSocketConnection) (store : L) (clock : nat) : option (unit * CImpl) :=
  (let* now := Now in
   send_binary (-1) 0 (MkValue (VInteger now) 0 0) ;;
   flush ;;
   set_periodic (kPingIntervalMs + 10) ;;
   wire FinishSendBinary)
  (MkCImpl inst w false store [] [] [] ∅ (wrap 64 (curTimeMs + kPingIntervalMs)) 0 UINT32_MAX false 0
     (kPingIntervalMs + 10) 0 [] clock).

(** ** Incoming values *)

(** The response to a ping *)
Definition handle_pong (curTimeMs : Z) (value : Value) : M CImpl unit :=
  match data value with
  | VInteger sent =>
      modify (fun c => c <| ci_pongTimeMs := curTimeMs |>) ;;
      let* now := Now in
      let* rtt := deref (sub64 now sent) in
      let rtt2 := Z.quot rtt 2 in
      let* c := get in
      when (rtt2 <? ci_rtt2Us c)
        (let* t := deref (add64 (server_time value) rtt2) in
         let* offset := deref (sub64 t now) in
         modify (fun c => c <| ci_rtt2Us := wrap 32 rtt2 |> <| ci_serverTimeOffsetUs := offset |>
                            <| ci_haveTimeOffset := true |>
                            <| ci_timeSyncUpdated ::= fun l => l ++ [(offset, wrap 32 rtt2, true)] |>))
  | _ => skip
  end.

Definition handle_value (curTimeMs id : Z) (value : Value) : M CImpl unit :=
  if id =? -1 then handle_pong curTimeMs value
  else
    let* c := get in
    if dense_key id then
      match ci_topicMap c !! id with
      | None => skip
      | Some topic => when (ci_local c) (on_store (li_NetworkSetValue topic value))
      end
    else deref None.

(** The loop over a frame; every value takes at least one byte. *)
Fixpoint ProcessIncomingBinary_loop (fuel : nat) (curTimeMs : Z) (data : bytes) : M CImpl unit :=
  match fuel, data with
  | O, _ | _, [] => skip
  | S fuel, _ =>
      let* c := get in
      let* offset := deref (sub64 0 (ci_serverTimeOffsetUs c)) in
      let* d := deref (WireDecodeBinary data offset) in
      match d with
      | BinaryError _ => skip
      | BinaryValue id value rest =>
          handle_value curTimeMs id value ;; ProcessIncomingBinary_loop fuel curTimeMs rest
      end
  end.
Definition ProcessIncomingBinary (curTimeMs : Z) (data : bytes) : M CImpl unit :=
  ProcessIncomingBinary_loop (S (length data)) curTimeMs data.

(** ** Messages of the local storage *)

Definition PublisherData_make : PublisherData :=
  MkPublisherData 0 (PubSubOptionsImpl_make kDefaultPubSubOptions) 0 0 [].

Definition at_least_min (ms : Z) : Z := if ms <? kMinPeriodMs then kMinPeriodMs else ms.

Definition Publish (pubHandle : Z) (options : PubSubOptionsImpl) : M CImpl unit :=
  let index := Z.to_nat (GetIndex pubHandle) in
  let* c := get in
  let ps := ci_publishers c ++ replicate (S index - length (ci_publishers c)) None in
  let p := default PublisherData_make (default None (ps !! index)) in
  let p := p <| pd_handle := pubHandle |> <| pd_options := options |>
             <| pd_periodMs := round_period (periodicMs options) |> in
  modify (fun c => c <| ci_publishers := <[index := Some p]> ps |>) ;;
  set_periodic (at_least_min (Z.gcd (ci_periodMs c) (pd_periodMs p))).

(** [std::find_if] and [erase] *)
Fixpoint erase_first {A} (f : A -> bool) (l : list A) : option (list A) :=
  match l with
  | [] => None
  | x :: l => if f x then Some l else l' ← erase_first f l; Some (x :: l')
  end.
Definition is_publish (pubHandle : Z) (msg : ClientMessage jvalue) : bool :=
  match msg with PublishMsg h _ _ _ _ _ => h =? pubHandle | _ => false end.

(** The result says whether the message is to be sent: a publication the server does not know
    of yet is not announced at all. *)
Definition Unpublish (pubHandle : Z) : M CImpl bool :=
  let index := Z.to_nat (GetIndex pubHandle) in
  let* c := get in
  match ci_publishers c !! index with
  | None => ret false
  | Some p =>
      let* doSend :=
        match p, erase_first (is_publish pubHandle) (ci_outgoing c) with
        | Some _, Some l => modify (fun c => c <| ci_outgoing := l |>) ;; ret false
        | _, _ => ret true
        end in
      let ps := <[index := None]> (ci_publishers c) in
      modify (fun c => c <| ci_publishers := ps |>) ;;
      set_periodic (at_least_min (foldl (fun ms p => Z.gcd ms (pd_periodMs p)) (kPingIntervalMs + 10) (omap id ps))) ;;
      ret doSend
  end.

(** The last value replaces the one before unless all are to be sent. *)
Definition SetValue (pubHandle : Z) (value : Value) : M CImpl unit :=
  let index := Z.to_nat (GetIndex pubHandle) in
  let* c := get in
  match ci_publishers c !! index with
  | Some (Some p) =>
      let vs := match pd_outValues p with
                | [] => [value]
                | vs => if sendAll (o_options (pd_options p)) then vs ++ [value] else removelast vs ++ [value]
                end in
      modify (fun c => c <| ci_publishers := <[index := Some (p <| pd_outValues := vs |>)]> (ci_publishers c) |>)
  | _ => skip
  end.

Definition queue_out (msg : ClientMessage jvalue) : M CImpl unit :=
  modify (fun c => c <| ci_outgoing ::= fun l => l ++ [msg] |>).

Definition HandleLocal (msgs : list (ClientMessage jvalue)) : M CImpl unit :=
  for_each msgs (fun msg =>
    match msg with
    | ClientValueMsg pubHandle value => SetValue pubHandle value
    | PublishMsg pubHandle _ _ _ _ options => Publish pubHandle options ;; queue_out msg
    | UnpublishMsg pubHandle _ => let* doSend := Unpublish pubHandle in when doSend (queue_out msg)
    | _ => queue_out msg
    end).

(** ** Sending *)

Definition CheckNetworkReady : M CImpl bool :=
  let* c := get in
  if Ready (ci_wire c) then ret true
  else
    let* now := Now in
    let last := w_lastFlushTime (ci_wire c) in
    when (negb (last =? 0) && (wrap 64 (last + kWireMaxNotReadyUs) <? now)) (wire (Disconnect "transmit stalled")) ;;
    ret false.

(** The messages of the queue, one text each *)
Fixpoint send_texts (msgs : list (ClientMessage jvalue)) : M CImpl unit :=
  match msgs with
  | [] => skip
  | msg :: msgs =>
      let* r := deref (WireEncodeText_client msg) in
      wire (AddText (if fst r then snd r else lit "{}")) ;; send_texts msgs
  end.

Definition SendControl (curTimeMs : Z) : M CImpl bool :=
  let* c := get in
  if curTimeMs <? wrap 64 (ci_lastSendMs c + kMinPeriodMs) then ret false
  else
    let* ok :=
      if ci_nextPingTimeMs c <=? curTimeMs then
        if negb (ci_nextPingTimeMs c =? 0) && (ci_pongTimeMs c =? 0) then wire (Disconnect "timed out") ;; ret false
        else
          let* ready := CheckNetworkReady in
          if ready then
            send_ping ;;
            modify (fun c => c <| ci_nextPingTimeMs := wrap 64 (curTimeMs + kPingIntervalMs) |> <| ci_pongTimeMs := 0 |>) ;;
            ret true
          else ret false
      else ret true in
    if ok then
      let* c := get in
      let* ok :=
        match ci_outgoing c with
        | [] => ret true
        | msgs =>
            let* ready := CheckNetworkReady in
            if ready then
              send_texts msgs ;;
              modify (fun c => c <| ci_outgoing := [] |>) ;;
              wire FinishSendText ;;
              ret true
            else ret false
        end in
      if ok then modify (fun c => c <| ci_lastSendMs := curTimeMs |>) ;; ret true else ret false
    else ret false.

(** The time of a value for the server: 0 stays, other times are never 0. *)
Definition server_stamp (time offset : Z) : option Z :=
  if time =? 0 then Some 0 else t ← add64 time offset; Some (if t =? 0 then 1 else t).

Fixpoint send_pub_values (p : PublisherData) (vs : list Value) : M CImpl unit :=
  match vs with
  | [] => skip
  | v :: vs =>
      let* c := get in
      let* time := deref (server_stamp (value_time v) (ci_serverTimeOffsetUs c)) in
      send_binary (GetIndex (pd_handle p)) time v ;; send_pub_values p vs
  end.

Definition set_publisher (i : nat) (p : PublisherData) : M CImpl unit :=
  modify (fun c => c <| ci_publishers ::= fun ps => <[i := Some p]> ps |>).

(** The loop of [SendValues] from publisher [i] on *)
Fixpoint send_values_loop (curTimeMs : Z) (flush : bool) (idx : list nat) (checkedNetwork : bool) : M CImpl unit :=
  match idx with
  | [] => skip
  | i :: idx =>
      let* c := get in
      match ci_publishers c !! i with
      | Some (Some p) =>
          if negb (bool_decide (pd_outValues p = [])) && (flush || (pd_nextSendMs p <=? curTimeMs)) then
            let* ready := if checkedNetwork then ret true else CheckNetworkReady in
            if ready then
              send_pub_values p (pd_outValues p) ;;
              set_publisher i (p <| pd_outValues := [] |> <| pd_nextSendMs := wrap 64 (curTimeMs + pd_periodMs p) |>) ;;
              send_values_loop curTimeMs flush idx true
            else skip
          else send_values_loop curTimeMs flush idx checkedNetwork
      | _ => send_values_loop curTimeMs flush idx checkedNetwork
      end
  end.

Definition SendValues (curTimeMs : Z) (flush : bool) : M CImpl unit :=
  let* c := get in
  if ci_haveTimeOffset c then
    let* ok := SendControl curTimeMs in
    when ok
      (let* c := get in
       send_values_loop curTimeMs flush (seq 0 (length (ci_publishers c))) false ;;
       wire FinishSendBinary)
  else skip.

(** The loop of [SendInitialValues]: only values without a time *)
Fixpoint send_initial_values (p : PublisherData) (vs : list Value) : M CImpl unit :=
  match vs with
  | [] => skip
  | v :: vs =>
      when (server_time v =? 0) (send_binary (GetIndex (pd_handle p)) 0 v) ;; send_initial_values p vs
  end.
Definition SendInitialValues : M CImpl unit :=
  let* ok := SendControl 0 in
  when ok
    (let* c := get in
     for_each (seq 0 (length (ci_publishers c))) (fun i =>
       let* c := get in
       match ci_publishers c !! i with
       | Some (Some p) =>
           send_initial_values p (pd_outValues p) ;;
           set_publisher i (p <| pd_outValues ::= List.filter (fun v => negb (server_time v =? 0)) |>)
       | _ => skip
       end) ;;
     wire FinishSendBinary).

(** ** Messages of the server *)

Definition ServerAnnounce (name : string) (id : Z) (typeStr : string) (properties : gmap string jvalue)
    (pubuid : option Z) : M CImpl unit :=
  let* c := get in
  let pubHandle := match pubuid with
                   | Some u => Handle (ci_inst c) (swrap 32 u) kPublisher
                   | None => 0
                   end in
  let* topic := on_store (li_NetworkAnnounce name typeStr properties pubHandle) in
  if dense_key id then modify (fun c => c <| ci_topicMap ::= <[id := topic]> |>) else deref None.

Definition ServerUnannounce (name : string) (id : Z) : M CImpl unit :=
  on_store (li_NetworkUnannounce name) ;;
  if dense_key id then modify (fun c => c <| ci_topicMap ::= delete id |>) else deref None.

Definition ServerPropertiesUpdate (name : string) (update : gmap string jvalue) (ack : bool) : M CImpl unit :=
  on_store (li_NetworkPropertiesUpdate name update ack).

Definition server_call_run (d : Decoded (ServerCall jvalue)) : M CImpl unit :=
  match d with
  | DCall (WireEncoder4.ServerAnnounce name id typeStr properties pubuid) => ServerAnnounce name id typeStr properties pubuid
  | DCall (WireEncoder4.ServerUnannounce name id) => ServerUnannounce name id
  | DCall (WireEncoder4.ServerPropertiesUpdate name update ack) => ServerPropertiesUpdate name update ack
  | DWarning _ => skip
  end.

(** ** [ClientImpl] *)

Definition ClientImpl_ProcessIncomingText (data : bytes) : M CImpl unit :=
  let* c := get in
  when (ci_local c) (let* ds := deref (WireDecodeText_server data) in for_each ds server_call_run).
Definition ClientImpl_SendControl (curTimeMs : Z) : M CImpl unit := SendControl curTimeMs ;; flush.
Definition ClientImpl_SendValues (curTimeMs : Z) (fl : bool) : M CImpl unit := SendValues curTimeMs fl ;; flush.
Definition ClientImpl_SetLocal (local : bool) : M CImpl unit := modify (fun c => c <| ci_local := local |>).
Definition ClientImpl_SendInitial : M CImpl unit := SendInitialValues ;; flush.
End Client.
Arguments CImpl : clear implicits.
