(* ===== verification/ClientProofs.v ===== *)
(** * ClientProofs: what the client sends and receives *)

From S2P Require Import Prelude NtTypes Handles Monads LocalTypes Json JsonRoundTrip WireEncoder4.
From S2P Require Import WireDecoder4 Wire4Text WireConnection4.
From S2P Require Import NetworkQueue Frames4 ClientImpl.
Local Open Scope Z_scope.

(** No writer is open: what is written is in frames. *)
Definition idle (w : WebSocketConnection) : Prop := text_state w [] /\ w_binary w = [].

Section Sending.
Context {L : Type} {LI : LocalInterface jvalue L} {ENV : Env} {CLK : WpiClock} {JF : JsonFloat} {JL : JsonFloatLaws}.
Implicit Types c : CImpl L.

(** [SendControl] gets past its rate limit, the client is not timed out, and what was sent
    before is done. *)
Definition can_send (curTimeMs : Z) (c : CImpl L) : bool :=
  negb (curTimeMs <? wrap 64 (ci_lastSendMs c + kMinPeriodMs)) && Ready (ci_wire c) &&
  ((curTimeMs <? ci_nextPingTimeMs c) || (ci_nextPingTimeMs c =? 0) || negb (ci_pongTimeMs c =? 0)).

Lemma ready_check c (Q : bool -> CImpl L -> Prop) : Ready (ci_wire c) = true -> Q true c -> wp CheckNetworkReady Q c.
Proof. intros Hr HQ. unfold CheckNetworkReady. do 2 wp_step. rewrite Hr. by wp_step. Qed.

Lemma send_texts_run msgs c bts : mapM WireEncodeText_client msgs = Some bts -> forallb fst bts = true ->
  send_texts msgs c = Some (tt, c <| ci_wire := foldl (fun w t => AddText t w) (ci_wire c) bts.*2 |>).
Proof.
  revert c bts. induction msgs as [|m msgs IH]; intros c bts Hb Hf.
  - injection Hb as <-. by destruct c.
  - cbn [mapM] in Hb. apply bind_Some in Hb as ([b t] & Eb & Hb). apply bind_Some in Hb as (bts' & Hb & [= <-]).
    cbn in Hf. destruct b; [|done]. cbn [send_texts]. unfold bind, deref, wire, modify. rewrite Eb. cbn [fst snd].
    by rewrite (IH _ bts').
Qed.

(** The fields that sending a control message leaves alone *)
Definition kept (c c' : CImpl L) : Prop :=
  ci_publishers c' = ci_publishers c /\ ci_haveTimeOffset c' = ci_haveTimeOffset c /\
  ci_serverTimeOffsetUs c' = ci_serverTimeOffsetUs c.

(** The ping that [SendControl] sends if it is time *)
Definition ping_group (curTimeMs : Z) (c : CImpl L) : list (list bytes) :=
  if ci_nextPingTimeMs c <=? curTimeMs
  then [[(WireEncodeBinary (-1) 0 (MkValue (VInteger (wpi_Now (ci_clock c))) 0 0)).2]] else [].

Lemma encode_nonempty z : (WireEncodeBinary (-1) 0 (MkValue (VInteger z) 0 0)).2 <> [].
Proof. done. Qed.

(** A value written to an idle connection is a frame of its own. *)
Lemma single_binary w t : idle w -> t <> [] ->
  let w' := FinishSendBinary (AddBinary t w) in
  w_frames w' = w_frames w ++ binary_frames [[t]] /\ idle w' /\ w_sent w' = w_sent w /\ w_sendsActive w' = w_sendsActive w.
Proof.
  intros [[Ht Hi] Hb] Hn. unfold AddBinary, StartSendBinary, FinishSendBinary at 1 3 5 7, idle, text_state. rewrite Hb.
  change (kBinaryFrameRolloverSize <=? zlen []) with false. unfold FinishSendBinary, fupd. cbn. rewrite Hb. cbn [app].
  destruct t as [|x t]; [done|]. cbn. by rewrite app_nil_r.
Qed.

Lemma send_ping_run c : idle (ci_wire c) ->
  wp send_ping (fun _ c' =>
    w_frames (ci_wire c') = w_frames (ci_wire c) ++ binary_frames [[(WireEncodeBinary (-1) 0 (MkValue (VInteger (wpi_Now (ci_clock c))) 0 0)).2]] /\
    idle (ci_wire c') /\ w_sent (ci_wire c') = w_sent (ci_wire c) /\
    w_sendsActive (ci_wire c') = w_sendsActive (ci_wire c) /\ kept c c' /\ ci_outgoing c' = ci_outgoing c) c.
Proof.
  intros Hi. destruct (single_binary _ _ Hi (encode_nonempty (wpi_Now (ci_clock c)))) as (H1 & H2 & H3 & H4).
  unfold send_ping, Now, send_binary, wire. repeat wp_step. unfold fupd. cbn [ci_wire ci_outgoing]. by rewrite H1, H3, H4.
Qed.

(** A message that is a call is encoded. *)
Lemma encoded_calls msgs bts calls : mapM WireEncodeText_client msgs = Some bts -> mapM client_call msgs = Some calls ->
  forallb fst bts = true.
Proof.
  revert bts calls. induction msgs as [|m msgs IH]; intros bts calls Hb Hc; [by injection Hb as <-|].
  cbn [mapM] in *. apply bind_Some in Hb as ([b t] & Eb & Hb). apply bind_Some in Hb as (bts' & Hb & [= <-]).
  apply bind_Some in Hc as (x & Ec & Hc). apply bind_Some in Hc as (calls' & Hc & _). cbn.
  rewrite (IH _ _ Hb Hc), andb_true_r. unfold WireEncodeText_client in Eb.
  destruct m; try discriminate Ec; apply bind_Some in Eb as (? & _ & E); by injection E.
Qed.

(** The texts of control messages written to an idle connection *)
Lemma control_texts w bts : idle w -> exists groups,
  let w' := FinishSendText (foldl (fun w t => AddText t w) w bts) in
  w_frames w' = w_frames w ++ text_frames groups /\ concat groups = bts /\ idle w' /\ w_sent w' = w_sent w /\ w_sendsActive w' = w_sendsActive w.
Proof.
  intros [Ht Hb]. destruct (add_texts bts w [] Ht) as (gs & g & H1 & H2 & H3 & H4 & H5 & H6).
  destruct (finish_text _ g H2) as (K1 & K2 & K3 & K4 & K5). cbv zeta in *. cbn [app] in H3.
  exists (gs ++ match g with [] => [] | _ => [g] end). unfold idle, text_frames in *.
  rewrite K1, K3, K4, K5, H1, H4, H5, H6, concat_app, fmap_app, <- app_assoc.
  split_and!; [by destruct g|rewrite <- H3; by destruct g; cbn; rewrite ?app_nil_r|done..].
Qed.

(** [SendControl] sends the ping and then all control messages. *)
Lemma send_control_run c curTimeMs bts calls :
  can_send curTimeMs c = true -> idle (ci_wire c) ->
  mapM WireEncodeText_client (ci_outgoing c) = Some bts -> mapM client_call (ci_outgoing c) = Some calls ->
  wp (SendControl curTimeMs) (fun ok c' => ok = true /\ exists groups,
    w_frames (ci_wire c') = w_frames (ci_wire c) ++ binary_frames (ping_group curTimeMs c) ++ text_frames groups /\ concat groups = bts.*2 /\ idle (ci_wire c') /\ w_sent (ci_wire c') = w_sent (ci_wire c) /\ w_sendsActive (ci_wire c') = w_sendsActive (ci_wire c) /\ kept c c' /\ ci_outgoing c' = []) c.
Proof.
  intros Hs Hi Hb Hc. pose proof (encoded_calls _ _ _ Hb Hc) as Hf. unfold can_send in Hs.
  apply andb_prop in Hs as [Hs Hp]. apply andb_prop in Hs as [Hr Hw]. unfold SendControl. do 2 wp_step.
  rewrite (proj1 (negb_true_iff _) Hr). wp_step.
  eapply (wp_mono _ (fun ok c' => ok = true /\ w_frames (ci_wire c') = w_frames (ci_wire c) ++ binary_frames (ping_group curTimeMs c) /\ idle (ci_wire c') /\ w_sent (ci_wire c') = w_sent (ci_wire c) /\ w_sendsActive (ci_wire c') = w_sendsActive (ci_wire c) /\ kept c c' /\ ci_outgoing c' = ci_outgoing c)).
  - unfold ping_group. destruct (ci_nextPingTimeMs c <=? curTimeMs) eqn:Ep; [|wp_step; cbn; by rewrite app_nil_r].
    replace (negb (ci_nextPingTimeMs c =? 0) && (ci_pongTimeMs c =? 0)) with false by
      (destruct (ci_nextPingTimeMs c =? 0), (ci_pongTimeMs c =? 0); try done; cbn in Hp; lia).
    wp_step. apply ready_check; [done|]. cbn match. wp_step. eapply wp_mono; [by apply send_ping_run|].
    intros [] c' (H1 & H2 & H3 & H4 & H5 & H6). repeat wp_step. done.
  - intros ok c1 (-> & H1 & H2 & H3 & H4 & H5 & H6). cbn match. do 2 wp_step. rewrite H6. wp_step.
    assert (Ready (ci_wire c1) = true) as Hr1 by (unfold Ready in *; congruence).
    destruct (ci_outgoing c) as [|m msgs] eqn:Eo.
    + wp_step. repeat wp_step. split; [done|]. exists []. injection Hb as <-. cbn. by rewrite app_nil_r.
    + wp_step. apply ready_check; [done|]. cbn match. wp_step. unfold wp at 1.
      rewrite (send_texts_run _ _ _ Hb Hf). destruct (control_texts _ bts.*2 H2) as (gs & K1 & K2 & K3 & K4 & K5).
      repeat wp_step. split; [done|]. exists gs. unfold fupd. cbn [ci_wire ci_outgoing].
      rewrite K1, K4, K5, H1, H3, H4, <- app_assoc. done.
Qed.

(** ** Values *)

(** What a publisher has to send at a time *)
Definition due (curTimeMs : Z) (flush : bool) (p : PublisherData) : bool :=
  negb (bool_decide (pd_outValues p = [])) && (flush || (pd_nextSendMs p <=? curTimeMs)).
Definition pub_sendings (offset : Z) (p : PublisherData) (vs : list Value) : option (list Sending) :=
  mapM (fun v => t ← server_stamp (value_time v) offset; Some (MkSending (GetIndex (pd_handle p)) t v)) vs.
Definition due_sendings (offset curTimeMs : Z) (flush : bool) (ps : list (option PublisherData)) : option (list Sending) :=
  @concat _ <$> mapM (fun o => match o with
    | Some p => if due curTimeMs flush p then pub_sendings offset p (pd_outValues p) else Some []
    | None => Some []
    end) ps.
Definition after_sending (curTimeMs : Z) (flush : bool) (p : PublisherData) : PublisherData :=
  if due curTimeMs flush p then p <| pd_outValues := [] |> <| pd_nextSendMs := wrap 64 (curTimeMs + pd_periodMs p) |> else p.

Definition publishers_after (curTimeMs : Z) (flush : bool) (ps : list (option PublisherData)) : list (option PublisherData) :=
  option_map (after_sending curTimeMs flush) <$> ps.

Definition add_sendings (l : list Sending) (w : WebSocketConnection) : WebSocketConnection :=
  foldl (fun w t => AddBinary t w) w (sending_bytes <$> l).
Lemma add_sendings_app l k w : add_sendings (l ++ k) w = add_sendings k (add_sendings l w).
Proof. unfold add_sendings. by rewrite fmap_app, foldl_app. Qed.

Lemma send_pub_values_run p vs c l : pub_sendings (ci_serverTimeOffsetUs c) p vs = Some l ->
  send_pub_values p vs c = Some (tt, c <| ci_wire ::= add_sendings l |>).
Proof.
  revert c l. induction vs as [|v vs IH]; intros c l Hl.
  - injection Hl as <-. by destruct c.
  - cbn in Hl. apply bind_Some in Hl as (s & Es & Hl). apply bind_Some in Es as (t & Et & [= <-]).
    apply bind_Some in Hl as (l' & El & [= <-]). cbn [send_pub_values].
    unfold bind, get, deref, send_binary, wire, modify. cbn [ci_serverTimeOffsetUs]. rewrite Et.
    rewrite (IH _ l'); [done|exact El].
Qed.

Lemma ready_sendings l w : Ready (add_sendings l w) = Ready w.
Proof.
  unfold Ready, add_sendings. revert w. induction l as [|s l IH]; intros w; [done|]. cbn. rewrite IH.
  unfold AddBinary, StartSendBinary, FinishSendBinary. destruct (_ <=? _), (w_binary w); done.
Qed.

Lemma take_insert_succ {A} (l : list A) k x : (k < length l)%nat -> take (S k) (<[k := x]> l) = take k l ++ [x].
Proof.
  intros Hk. rewrite (take_S_r _ _ x) by (by rewrite list_lookup_insert_eq). by rewrite take_insert_ge by lia.
Qed.

(** The loop from publisher [k] on *)
Lemma send_values_loop_run cur fl n k checked c l :
  (k + n = length (ci_publishers c))%nat -> Ready (ci_wire c) = true ->
  due_sendings (ci_serverTimeOffsetUs c) cur fl (drop k (ci_publishers c)) = Some l ->
  send_values_loop cur fl (seq k n) checked c =
  Some (tt, c <| ci_wire ::= add_sendings l |>
              <| ci_publishers := take k (ci_publishers c) ++
                   publishers_after cur fl (drop k (ci_publishers c)) |>).
Proof.
  revert k checked c l. induction n as [|n IH]; intros k checked c l Hk Hr Hl.
  - rewrite drop_ge in * by lia. injection Hl as <-. rewrite take_ge by lia. cbn. rewrite app_nil_r. by destruct c.
  - assert (is_Some (ci_publishers c !! k)) as [o Ho] by (apply lookup_lt_is_Some; lia).
    rewrite (drop_S _ _ _ Ho) in *. unfold due_sendings in Hl. cbn [mapM] in Hl. cbn [seq send_values_loop].
    apply fmap_Some in Hl as (ls & Hl & ->). apply bind_Some in Hl as (l1 & E1 & Hl).
    apply bind_Some in Hl as (l2 & E2 & [= <-]). cbn [concat].
    assert (due_sendings (ci_serverTimeOffsetUs c) cur fl (drop (S k) (ci_publishers c)) = Some (concat l2)) as Hl2
      by (unfold due_sendings; by rewrite E2).
    unfold bind, get. rewrite Ho.
    assert (option_map (after_sending cur fl) o = o -> l1 = [] ->
      send_values_loop cur fl (seq (S k) n) checked c = Some (tt, c <| ci_wire ::= add_sendings (l1 ++ concat l2) |>
        <| ci_publishers := take k (ci_publishers c) ++ publishers_after cur fl (o :: drop (S k) (ci_publishers c)) |>)) as Hskip.
    { intros Ea ->. rewrite (IH (S k) checked c (concat l2)) by (done || lia). rewrite (take_S_r _ _ _ Ho), <- app_assoc.
      cbn [app]. unfold publishers_after. rewrite fmap_cons. by rewrite Ea. }
    destruct o as [p|]; [|apply Hskip; [done|by injection E1]].
    change (negb _ && _) with (due cur fl p). destruct (due cur fl p) eqn:Ed.
    2:{ apply Hskip; [cbn; unfold after_sending; by rewrite Ed|by injection E1]. }
    assert ((if checked then ret true else CheckNetworkReady) c = Some (true, c)) as ->.
    { destruct checked; [done|]. pose proof (ready_check c (fun b c' => b = true /\ c' = c) Hr (conj eq_refl eq_refl)) as W.
      apply wp_run in W as (b & c' & E & -> & ->). exact E. }
    rewrite (send_pub_values_run p _ c l1 E1). unfold set_publisher, modify.
    rewrite (IH (S k) true _ (concat l2)).
    + assert (after_sending cur fl p = p <| pd_outValues := [] |> <| pd_nextSendMs := wrap 64 (cur + pd_periodMs p) |>) as Ea
        by (unfold after_sending; by rewrite Ed).
      unfold fupd in *. cbn [ci_publishers ci_wire]. rewrite take_insert_succ, drop_insert_lt by lia.
      unfold publishers_after. rewrite <- app_assoc, fmap_cons. cbn [option_map app]. rewrite Ea.
      by rewrite add_sendings_app.
    + cbn. rewrite length_insert. lia.
    + cbn. by rewrite ready_sendings.
    + cbn. by rewrite drop_insert_lt by lia.
Qed.

(** ** All together *)

Lemma finish_idle w : idle w -> FinishSendBinary (FinishSendText w) = w.
Proof. intros [[Ht Hi] Hb]. unfold FinishSendText. rewrite Hi. cbn. rewrite Ht. cbn.
  unfold FinishSendBinary. by rewrite Hb. Qed.

(** [Flush] hands all frames to the web socket. *)
Lemma flush_run c : idle (ci_wire c) ->
  wp flush (fun _ c' => concat (w_sent (ci_wire c')) = concat (w_sent (ci_wire c)) ++ w_frames (ci_wire c) /\
    idle (ci_wire c') /\ ci_outgoing c' = ci_outgoing c /\ ci_publishers c' = ci_publishers c) c.
Proof.
  intros Hi. unfold flush. do 2 wp_step. rewrite finish_idle by done. unfold Now, wire.
  destruct (w_frames (ci_wire c)) as [|f fs] eqn:Ef; repeat wp_step; unfold fupd, Flush; cbn [ci_wire];
    rewrite finish_idle, Ef by done.
  - by rewrite app_nil_r.
  - cbn. rewrite concat_app. cbn. by rewrite app_nil_r.
Qed.

(** The values that a list of publishers sends, written to an idle connection *)
Lemma value_frames w l : idle w -> exists groups,
  let w' := FinishSendBinary (add_sendings l w) in
  w_frames w' = w_frames w ++ binary_frames groups /\ (forallb sending_ok l = true -> concat groups = sending_bytes <$> l) /\
  idle w' /\ w_sent w' = w_sent w.
Proof.
  intros [Ht Hb]. destruct (add_binaries (sending_bytes <$> l) w [] Hb) as (gs & g & H1 & H2 & H3 & H4 & H5 & H6 & H7).
  destruct (finish_binary _ g H2) as (gs' & K1 & K2 & K3 & K4 & K5 & K6 & K7). cbv zeta in *. cbn [app] in H3.
  exists (gs ++ gs'). unfold idle, text_state, add_sendings, binary_frames in *.
  rewrite K1, K3, K4, K5, K6, H1, H4, H5, H6, fmap_app, concat_app, K2, <- app_assoc. split_and!; try done; try apply Ht.
  intros Hok. rewrite <- H3. f_equal. case_bool_decide as Hg; [|done]. destruct g as [|b g]; [done|]. cbn in Hg.
  apply app_eq_nil in Hg as [-> _]. assert ([] ∈ sending_bytes <$> l) as Hin by (rewrite <- H3; set_solver).
  apply list_elem_of_fmap in Hin as (s & E & Hs). rewrite forallb_forall in Hok.
  by destruct (sending_nonempty s (Hok s (proj1 (list_elem_of_In _ _) Hs))).
Qed.

(** C4.  A client that may send delivers everything it has to: [SendValues] hands the web
    socket first the frames from which the server reads exactly the control messages of the
    queue, in order (after a ping if it is time for one), and then the frames from which it
    reads exactly the values of the publishers that are due, publisher by publisher and in the
    order they were set, with the number of the publisher and the time in the clock of the
    server, however the messages are split into frames.  The queues are then empty, and the
    next time of each publisher is set. *)
Theorem send_values_delivers c curTimeMs fl bts calls l :
  can_send curTimeMs c = true -> ci_haveTimeOffset c = true -> idle (ci_wire c) ->
  forallb client_ok (ci_outgoing c) = true -> mapM WireEncodeText_client (ci_outgoing c) = Some bts ->
  mapM client_call (ci_outgoing c) = Some calls ->
  due_sendings (ci_serverTimeOffsetUs c) curTimeMs fl (ci_publishers c) = Some l -> forallb sending_ok l = true ->
  exists c' control values, ClientImpl_SendValues curTimeMs fl c = Some (tt, c') /\
    concat (w_sent (ci_wire c')) = concat (w_sent (ci_wire c)) ++ w_frames (ci_wire c) ++ control ++ values /\
    frames_calls control = Some (DCall <$> calls) /\ frames_values values = Some (received <$> l) /\
    frames_calls values = Some [] /\
    ci_outgoing c' = [] /\ ci_publishers c' = publishers_after curTimeMs fl (ci_publishers c) /\ idle (ci_wire c').
Proof.
  intros Hs Hh Hi Hok Hb Hc Hl Hlok.
  pose proof (send_control_run c curTimeMs bts calls Hs Hi Hb Hc) as W.
  apply wp_run in W as (ok & c1 & E1 & -> & gs & F1 & F2 & F3 & F4 & F5 & (P1 & P2 & P3) & F6).
  assert (Ready (ci_wire c1) = true) as Hr.
  { unfold can_send, Ready in *. rewrite F5. destruct (_ =? 0); [done|by rewrite andb_false_r in Hs]. }
  rewrite <- P3 in Hl. rewrite <- P1 in Hl.
  pose proof (send_values_loop_run curTimeMs fl (length (ci_publishers c1)) 0 false c1 l eq_refl Hr Hl) as E2.
  destruct (value_frames (ci_wire c1) l F3) as (vs & V1 & V2 & V3 & V4).
  set (c2 := c1 <| ci_wire := FinishSendBinary (add_sendings l (ci_wire c1)) |>
                <| ci_publishers := publishers_after curTimeMs fl (ci_publishers c) |>).
  assert (SendValues curTimeMs fl c = Some (tt, c2)) as E3.
  { unfold SendValues. unfold bind at 1, get at 1. rewrite Hh. erewrite bind_run by exact E1. cbn [when].
    unfold bind at 1, get. erewrite bind_run by exact E2. unfold wire, modify, c2, fupd. cbn. by rewrite P1. }
  pose proof (flush_run c2 V3) as W. apply wp_run in W as ([] & c3 & E4 & S1 & S2 & S3 & S4).
  exists c3, (binary_frames (ping_group curTimeMs c) ++ text_frames gs), (binary_frames vs). split_and!.
  - unfold ClientImpl_SendValues. by erewrite bind_run by exact E3.
  - rewrite S1. unfold c2, fupd. cbn [ci_wire]. cbv zeta in V1, V4. by rewrite V1, V4, F1, F4, <- !app_assoc.
  - change (DCall <$> calls) with ([] ++ (DCall <$> calls) : list (Decoded (ClientCall jvalue))).
    apply frames_calls_app; [apply frames_calls_binary|by eapply frames_calls_groups].
  - by apply frames_values_groups, V2.
  - apply frames_calls_binary.
  - by rewrite S3.
  - by rewrite S4.
  - done.
Qed.
End Sending.
