(* ===== verification/ClientState.v ===== *)
(** * ClientState: the timer of the client, and what it receives *)

From S2P Require Import Prelude NtTypes Handles Monads LocalTypes Json JsonParser JsonRoundTrip.
From S2P Require Import WireEncoder4.
From S2P Require Import WireDecoder4 Wire4Text WireConnection4 NetworkQueue.
From S2P Require Import Frames4 ClientImpl.
Local Open Scope Z_scope.

Section State.
Context {L : Type} {LI : LocalInterface jvalue L} {ENV : Env} {CLK : WpiClock} {JF : JsonFloat}.
Implicit Types c : CImpl L.

(** ** Steps of a client *)

(** The calls that the network loop makes, and the completion of a send *)
Inductive client_op :=
| OpText (data : bytes)
| OpBinary (curTimeMs : Z) (data : bytes)
| OpLocal (msgs : list (ClientMessage jvalue))
| OpControl (curTimeMs : Z)
| OpValues (curTimeMs : Z) (flush : bool)
| OpSetLocal (local : bool)
| OpInitial
| OpSent.
Definition client_run (op : client_op) : M (CImpl L) unit :=
  match op with
  | OpText data => ClientImpl_ProcessIncomingText data
  | OpBinary curTimeMs data => ProcessIncomingBinary curTimeMs data
  | OpLocal msgs => HandleLocal msgs
  | OpControl curTimeMs => ClientImpl_SendControl curTimeMs
  | OpValues curTimeMs flush => ClientImpl_SendValues curTimeMs flush
  | OpSetLocal local => ClientImpl_SetLocal local
  | OpInitial => ClientImpl_SendInitial
  | OpSent => wire send_done
  end.

Inductive reachable : CImpl L -> Prop :=
| reach_make curTimeMs inst w store clock c : CImpl_make curTimeMs inst w store clock = Some (tt, c) -> reachable c
| reach_step op c c' : reachable c -> client_run op c = Some (tt, c') -> reachable c'.

(** ** The period of the timer *)

Definition period_good (P : Z) (p : PublisherData) : Prop :=
  kMinPeriodMs <= pd_periodMs p < 2 ^ 32 /\ (P = kMinPeriodMs \/ (P | pd_periodMs p)).
(** The timer runs with the period [P]. *)
Definition timer (P : Z) (c : CImpl L) : Prop :=
  ci_periodMs c = P /\ last (ci_setPeriodic c) = Some P /\ kMinPeriodMs <= P <= kPingIntervalMs + 10 /\
  forall i p, ci_publishers c !! i = Some (Some p) -> period_good P p.

Lemma timer_same P c c' : ci_periodMs c' = ci_periodMs c -> ci_setPeriodic c' = ci_setPeriodic c ->
  ci_publishers c' = ci_publishers c -> timer P c -> timer P c'.
Proof. unfold timer. by intros -> -> ->. Qed.

(** [keeps m]: the computation does not touch the timer, whatever the period is. *)
Definition keeps {A} (m : M (CImpl L) A) : Prop := forall P c, timer P c -> wlp m (fun _ => timer P) c.

Lemma keeps_bind {A B} (m : M (CImpl L) A) (k : A -> M (CImpl L) B) : keeps m -> (forall a, keeps (k a)) -> keeps (bind m k).
Proof. intros Hm Hk P c Ht. wlp_step. eapply wlp_mono; [by apply Hm|]. intros a c'. apply Hk. Qed.
Lemma keeps_ret {A} (a : A) : keeps (ret a).
Proof. by intros P c. Qed.
Lemma keeps_get : keeps get.
Proof. by intros P c. Qed.
Lemma keeps_deref {A} (o : option A) : keeps (deref o).
Proof. intros P c Ht. by wlp_step. Qed.
Lemma keeps_when b m : keeps m -> keeps (when b m).
Proof. intros Hm P c Ht. wlp_step; [by apply Hm|done]. Qed.
Lemma keeps_for_each {X} (l : list X) body : (forall x, keeps (body x)) -> keeps (for_each l body).
Proof. intros Hb P c Ht. apply wlp_for_each; [done|]. intros. by apply Hb. Qed.
Lemma keeps_wire f : keeps (wire f).
Proof. by intros P c. Qed.
Lemma keeps_Now : keeps Now.
Proof. by intros P c. Qed.
Lemma keeps_on_store {A} (m : M L A) : keeps (on_store m).
Proof.
  intros P c Ht. unfold on_store. do 2 wlp_step. destruct (ci_local c); [|by wlp_step].
  unfold wlp. destruct (m (ci_store c)) as [[a l]|]; [|done]. by eapply timer_same.
Qed.
End State.
Create HintDb keeps.
#[export] Hint Resolve keeps_ret keeps_get keeps_deref keeps_wire keeps_Now keeps_on_store : keeps.
(** Splits a computation into the calls it is made of. *)
Ltac keeps_step :=
  lazymatch goal with
  | |- keeps (bind _ _) => apply keeps_bind; [|intros ?]
  | |- keeps (when _ _) => apply keeps_when
  | |- keeps (for_each _ _) => apply keeps_for_each; intros ?
  | |- keeps (modify _) => solve [intros ? ?; exact id]
  | |- keeps (if ?b then _ else _) => destruct b
  | |- keeps (match ?o with _ => _ end) => destruct o
  | |- _ => solve [auto with keeps]
  end.
Ltac keeps := repeat keeps_step.

Section Timer.
Context {L : Type} {LI : LocalInterface jvalue L} {ENV : Env} {CLK : WpiClock} {JF : JsonFloat}.
Implicit Types c : CImpl L.

Lemma keeps_flush : keeps (L := L) flush.
Proof. unfold flush. keeps. Qed.
Lemma keeps_ready : keeps (L := L) CheckNetworkReady.
Proof. unfold CheckNetworkReady. keeps. Qed.
Lemma keeps_ping : keeps (L := L) send_ping.
Proof. unfold send_ping, send_binary. keeps. Qed.
Lemma keeps_texts msgs : keeps (L := L) (send_texts msgs).
Proof. induction msgs; cbn [send_texts]; keeps. Qed.
End Timer.
#[export] Hint Resolve keeps_flush keeps_ready keeps_ping keeps_texts : keeps.

Section Timer.
Context {L : Type} {LI : LocalInterface jvalue L} {ENV : Env} {CLK : WpiClock} {JF : JsonFloat}.
Implicit Types c : CImpl L.

Lemma keeps_control cur : keeps (L := L) (SendControl cur).
Proof. unfold SendControl. keeps. Qed.
Lemma keeps_pub_values p vs : keeps (L := L) (send_pub_values p vs).
Proof. induction vs; cbn [send_pub_values]; unfold send_binary; keeps. Qed.
Lemma keeps_initial_values p vs : keeps (L := L) (send_initial_values p vs).
Proof. induction vs; cbn [send_initial_values]; unfold send_binary; keeps. Qed.

(** Publishers change, their periods do not. *)
Lemma set_publisher_timer P i p c : period_good P p -> timer P c -> wlp (set_publisher i p) (fun _ => timer P) c.
Proof.
  intros Hp (H1 & H2 & H3 & H4). unfold set_publisher. wlp_step. split; [done|]. split; [done|]. split; [done|].
  intros j q. unfold fupd. cbn [ci_publishers].
  destruct (decide (j = i)) as [->|Hj]; [|rewrite list_lookup_insert_ne by done; apply H4].
  destruct (ci_publishers c !! i) eqn:E.
  - rewrite list_lookup_insert_eq by (apply lookup_lt_Some in E; lia). by intros [= <-].
  - rewrite list_insert_ge by (by apply lookup_ge_None). by rewrite E.
Qed.

Lemma keeps_values_loop cur fl idx checked : keeps (L := L) (send_values_loop cur fl idx checked).
Proof.
  revert checked. induction idx as [|i idx IH]; intros checked; cbn [send_values_loop]; [keeps|].
  intros P c Ht. do 2 wlp_step. destruct (ci_publishers c !! i) as [[p|]|] eqn:Ep; [|by apply IH..].
  destruct (_ && _); [|by apply IH]. wlp_step.
  assert (keeps (L := L) (if checked then ret true else CheckNetworkReady)) as Hc by (destruct checked; keeps).
  eapply wlp_mono; [by apply Hc|]. intros [] c1 H1; [|done]. wlp_step.
  eapply wlp_mono; [by apply keeps_pub_values|]. intros [] c2 H2. wlp_step.
  eapply wlp_mono; [apply set_publisher_timer, H2|]. { apply (proj2 (proj2 (proj2 Ht)) i p Ep). }
  intros [] c3. apply IH.
Qed.

Lemma keeps_initial : keeps (L := L) SendInitialValues.
Proof.
  unfold SendInitialValues. apply keeps_bind; [apply keeps_control|]. intros ok. apply keeps_when, keeps_bind; [keeps|].
  intros c0. apply keeps_bind; [|keeps]. apply keeps_for_each. intros i P c Ht. do 2 wlp_step.
  destruct (ci_publishers c !! i) as [[p|]|] eqn:Ep; [|done..]. wlp_step.
  eapply wlp_mono; [by apply keeps_initial_values|]. intros [] c1 H1. apply set_publisher_timer; [|done].
  apply (proj2 (proj2 (proj2 Ht)) i p Ep).
Qed.
Lemma keeps_values cur fl : keeps (L := L) (SendValues cur fl).
Proof.
  pose proof keeps_control. pose proof keeps_values_loop. unfold SendValues. keeps.
Qed.
Lemma keeps_value cur id v : keeps (L := L) (handle_value cur id v).
Proof. unfold handle_value, handle_pong. keeps. Qed.
Lemma keeps_binary cur data : keeps (L := L) (ProcessIncomingBinary cur data).
Proof.
  unfold ProcessIncomingBinary. generalize (S (length data)) as fuel. intros fuel. pose proof keeps_value. revert data.
  induction fuel as [|fuel IH]; intros data; cbn [ProcessIncomingBinary_loop]; [keeps|]. destruct data; keeps.
Qed.
Lemma keeps_text data : keeps (L := L) (ClientImpl_ProcessIncomingText data).
Proof.
  unfold ClientImpl_ProcessIncomingText, server_call_run, ServerAnnounce, ServerUnannounce, ServerPropertiesUpdate. keeps.
Qed.
Lemma keeps_set_value h v : keeps (L := L) (SetValue h v).
Proof.
  intros P c Ht. unfold SetValue. do 2 wlp_step. cbv zeta.
  destruct (ci_publishers c !! _) as [[p|]|] eqn:Ep; [|done..].
  apply (set_publisher_timer P _ (p <| pd_outValues := _ |>)); [|done]. apply (proj2 (proj2 (proj2 Ht)) _ p Ep).
Qed.

(** [Publish] and [Unpublish] find the period again. *)

Lemma round_period_range ms : kMinPeriodMs <= round_period ms < 2 ^ 32.
Proof.
  unfold round_period. set (p := wrap 32 _). assert (0 <= p < 2 ^ 32) by (apply wrap_range; lia).
  unfold kMinPeriodMs in *. destruct (p <? 5) eqn:E; lia.
Qed.

Lemma gcd_period P q : kMinPeriodMs <= P <= kPingIntervalMs + 10 ->
  let P' := at_least_min (Z.gcd P q) in
  kMinPeriodMs <= P' <= kPingIntervalMs + 10 /\ (P' = kMinPeriodMs \/ (P' | q)) /\
  forall x, P = kMinPeriodMs \/ (P | x) -> P' = kMinPeriodMs \/ (P' | x).
Proof.
  unfold kMinPeriodMs, kPingIntervalMs, at_least_min. intros HP. cbv zeta.
  pose proof (Z.gcd_divide_l P q) as Hl. pose proof (Z.gcd_divide_r P q) as Hr. pose proof (Z.gcd_nonneg P q).
  assert (Z.gcd P q <= P) by (apply Z.divide_pos_le; [lia|done]).
  unfold kMinPeriodMs. destruct (Z.gcd P q <? 5) eqn:E; [split_and!; try lia; auto|].
  split; [lia|]. split; [by right|]. intros x [->|Hx]; [left; lia|]. right. by transitivity P.
Qed.

Lemma foldl_gcd {A} (f : A -> Z) l g : 0 < g ->
  let r := foldl (fun ms p => Z.gcd ms (f p)) g l in
  0 < r <= g /\ (r | g) /\ forall p, p ∈ l -> (r | f p).
Proof.
  revert g. induction l as [|x l IH]; intros g Hg; cbn [foldl]; [split_and!; [lia|lia|done|set_solver]|].
  pose proof (Z.gcd_divide_l g (f x)) as Hl. pose proof (Z.gcd_divide_r g (f x)) as Hr.
  assert (Z.gcd g (f x) <> 0) by (intros E; apply Z.gcd_eq_0_l in E; lia). pose proof (Z.gcd_nonneg g (f x)).
  assert (Z.gcd g (f x) <= g) by (apply Z.divide_pos_le; [lia|done]).
  destruct (IH (Z.gcd g (f x))) as (K1 & K2 & K3); [lia|]. cbv zeta in *. split; [lia|]. split; [by etransitivity|].
  intros p [->|Hp]%elem_of_cons; [by etransitivity|by apply K3].
Qed.

(** The computation finds a new period. *)
Definition resets {A} (m : M (CImpl L) A) : Prop := forall P c, timer P c -> wlp m (fun _ c' => exists Q, timer Q c') c.
Lemma resets_bind {A B} (m : M (CImpl L) A) (k : A -> M (CImpl L) B) : resets m -> (forall a, resets (k a)) -> resets (bind m k).
Proof. intros Hm Hk P c Ht. wlp_step. eapply wlp_mono; [by eapply Hm|]. intros a c' [Q HQ]. by eapply Hk. Qed.
Lemma keeps_resets {A} (m : M (CImpl L) A) : keeps m -> resets m.
Proof. intros Hm P c Ht. eapply wlp_mono; [by apply Hm|]. intros a c' Hc. by exists P. Qed.

Lemma resets_publish h options : resets (Publish h options).
Proof.
  intros P c (H1 & H2 & H3 & H4). unfold Publish, set_periodic. repeat wlp_step. cbv zeta.
  set (ps := ci_publishers c ++ _). set (i := Z.to_nat _). set (p := default _ (default None (ps !! i))).
  rewrite H1. destruct (gcd_period P (round_period (periodicMs options)) H3) as (G1 & G2 & G3). cbv zeta in *.
  eexists. split; [done|]. split; [unfold fupd; cbn [ci_setPeriodic]; apply last_snoc|]. split; [done|].
  unfold fupd. cbn [ci_publishers pd_periodMs]. intros j q Hj. destruct (decide (j = i)) as [->|Hne].
  - apply list_lookup_insert_Some in Hj as [(_ & [= <-] & _)|[? _]]; [|done]. split; [apply round_period_range|exact G2].
  - rewrite list_lookup_insert_ne in Hj by done. assert (ci_publishers c !! j = Some (Some q)) as Hq.
    { apply lookup_app_Some in Hj as [Hj|[_ Hj]]; [done|]. by apply lookup_replicate in Hj as [? _]. }
    destruct (H4 _ _ Hq) as [Hr Hd]. split; [done|]. by apply G3.
Qed.

Lemma resets_unpublish h : resets (Unpublish h).
Proof.
  intros P c (H1 & H2 & H3 & H4). unfold Unpublish, set_periodic. do 2 wlp_step. cbv zeta. set (i := Z.to_nat _).
  destruct (ci_publishers c !! i) as [o|] eqn:Eo; [|wlp_step; by exists P]. wlp_step.
  eapply (wlp_mono _ (fun _ _ => True)). { destruct o; [|done]. by destruct (erase_first _ _). }
  intros doSend c1 _. repeat wlp_step. set (ps := <[i := None]> _).
  destruct (foldl_gcd pd_periodMs (omap id ps) (kPingIntervalMs + 10)) as (G1 & G2 & G3); [done|]. cbv zeta in *.
  set (g := foldl _ _ _) in *. exists (at_least_min g). unfold fupd, at_least_min, kMinPeriodMs, kPingIntervalMs in *.
  split; [done|]. split; [apply last_snoc|]. split; [unfold kMinPeriodMs, kPingIntervalMs; destruct (g <? 5) eqn:E; lia|].
  cbn [ci_publishers]. intros j q Hj. split.
  - apply list_lookup_insert_Some in Hj as [(_ & ? & _)|[_ Hj]]; [done|]. apply (H4 _ _ Hj).
  - destruct (g <? 5) eqn:E; [by left|right]. apply G3. apply list_elem_of_omap. exists (Some q). split; [|done].
    by eapply list_elem_of_lookup_2.
Qed.

Lemma resets_local msgs : resets (HandleLocal msgs).
Proof.
  intros P c Ht. unfold HandleLocal. apply (wlp_for_each _ _ (fun c => exists Q, timer Q c)); [by exists P|].
  intros m c1 _ [Q HQ]. revert HQ. generalize c1. clear. revert Q. fold (resets (match m with
    | ClientValueMsg pubHandle value => SetValue pubHandle value
    | PublishMsg pubHandle _ _ _ _ options => Publish pubHandle options ;; queue_out m
    | UnpublishMsg pubHandle _ => let* doSend := Unpublish pubHandle in when doSend (queue_out m)
    | _ => queue_out m
    end)). assert (forall m, keeps (L := L) (queue_out m)) as Hq by (intros ?; unfold queue_out; keeps).
  destruct m; try by apply keeps_resets.
  - apply resets_bind; [apply resets_publish|]. intros. by apply keeps_resets.
  - apply resets_bind; [apply resets_unpublish|]. intros b. by apply keeps_resets, keeps_when.
  - apply keeps_resets, keeps_set_value.
Qed.
End Timer.

Section Reach.
Context {L : Type} {LI : LocalInterface jvalue L} {ENV : Env} {CLK : WpiClock} {JF : JsonFloat}.
Implicit Types c : CImpl L.

Lemma resets_run op : resets (L := L) (client_run op).
Proof.
  pose proof (keeps_text (L := L)). pose proof (keeps_binary (L := L)). pose proof (keeps_control (L := L)).
  pose proof (keeps_values (L := L)). pose proof (keeps_initial (L := L)).
  destruct op; cbn [client_run]; unfold ClientImpl_SendControl, ClientImpl_SendValues, ClientImpl_SetLocal, ClientImpl_SendInitial;
    try by (apply keeps_resets; keeps).
  apply resets_local.
Qed.

Lemma make_timer curTimeMs inst w store clock c :
  CImpl_make curTimeMs inst w store clock = Some (tt, c) -> timer (kPingIntervalMs + 10) c.
Proof.
  unfold CImpl_make. set (m := bind _ _). set (c0 := MkCImpl _ _ _ _ _ _ _ _ _ _ _ _ _ _ _ _ _). intros E.
  refine (wlp_run m (fun _ => timer (kPingIntervalMs + 10)) c0 tt c _ E). subst m.
  unfold Now, send_binary, wire, set_periodic, flush. repeat wlp_step; by split_and!.
Qed.

(** C13.  The timer of a client fits its publishers: in every state a client can reach, however
    the calls of the network loop are interleaved, the period it last asked the timer for is
    at least the minimum of 5 ms and at most the interval of pings, and it is the minimum or
    divides the period of every publisher, so that no publisher has to wait past its period
    for the next tick; and no publisher has a shorter period than the minimum. *)
Theorem timer_fits_publishers c : reachable c ->
  last (ci_setPeriodic c) = Some (ci_periodMs c) /\
  kMinPeriodMs <= ci_periodMs c <= kPingIntervalMs + 10 /\
  forall i p, ci_publishers c !! i = Some (Some p) ->
    kMinPeriodMs <= pd_periodMs p < 2 ^ 32 /\ (ci_periodMs c = kMinPeriodMs \/ (ci_periodMs c | pd_periodMs p)).
Proof.
  intros Hr. cut (exists P, timer P c); [by intros (P & <- & ?)|]. induction Hr as [????? c E|op c c' _ [P HP] E].
  - eexists. by eapply make_timer.
  - exact (wlp_run _ _ _ _ _ (resets_run op P c HP) E).
Qed.
End Reach.

(** ** Initial values *)

Section Incoming.
Context {L : Type} {LI : LocalInterface jvalue L} {ENV : Env} {CLK : WpiClock} {JF : JsonFloat}.
Implicit Types c : CImpl L.

(** C33.  [SendInitialValues] never sends anything: it asks [SendControl] to send at time 0,
    which the rate limit refuses at all times, so that the values set before the connection
    wait for the time synchronisation like all others. *)
Theorem initial_values_not_sent c : 0 <= ci_lastSendMs c < 2 ^ 64 - kMinPeriodMs ->
  SendInitialValues c = Some (tt, c).
Proof.
  intros Hl. unfold SendInitialValues, SendControl, bind, get. unfold kMinPeriodMs in *. rewrite wrap_small by lia.
  replace (0 <? ci_lastSendMs c + 5) with true by lia. done.
Qed.

(** ** Values of the server *)

(** What the client makes of a value the server sends: the topic it has for the number, and
    the value with its time in the clock of the client; [None] inside if the number is not
    known *)
Definition incoming (offset : Z) (topics : gmap Z Z) (s : Sending) : option (option (Z * Value)) :=
  t ← local_time (s_time s) offset;
  Some ((fun topic => (topic, MkValue (bool_data (data (s_value s))) t (s_time s))) <$> topics !! s_id s).
Definition value_id (s : Sending) : bool := negb (s_id s =? -1) && dense_key (s_id s).

Lemma handle_incoming c cur s v offset :
  incoming offset (ci_topicMap c) s = Some v -> value_id s = true -> ci_local c = true ->
  forall t, local_time (s_time s) offset = Some t ->
  handle_value cur (s_id s) (MkValue (bool_data (data (s_value s))) t (s_time s)) c =
  match v with
  | Some (topic, v) => on_store (li_NetworkSetValue topic v) c
  | None => Some (tt, c)
  end.
Proof.
  intros Hv Hid Hloc t Ht. unfold incoming in Hv. rewrite Ht in Hv. injection Hv as <-.
  unfold value_id in Hid. apply andb_prop in Hid as [H1 H2]. unfold handle_value.
  rewrite (proj1 (negb_true_iff _) H1), H2. unfold bind, get. destruct (ci_topicMap c !! s_id s); [|done].
  rewrite Hloc. done.
Qed.

Lemma process_incoming cur l fuel c o vs st :
  (length (concat (sending_bytes <$> l)) < fuel)%nat ->
  forallb sending_ok l = true -> forallb value_id l = true -> ci_local c = true ->
  sub64 0 (ci_serverTimeOffsetUs c) = Some o -> mapM (incoming o (ci_topicMap c)) l = Some vs ->
  for_each (omap id vs) (fun '(topic, v) => li_NetworkSetValue topic v) (ci_store c) = Some (tt, st) ->
  ProcessIncomingBinary_loop fuel cur (concat (sending_bytes <$> l)) c = Some (tt, c <| ci_store := st |>).
Proof.
  revert fuel c vs. induction l as [|s l IH]; intros [|fuel] c vs Hf Hok Hid Hloc Ho Hv Hst; try (exfalso; lia).
  - injection Hv as <-. cbn in Hst. injection Hst as <-. by destruct c.
  - cbn [forallb] in Hok, Hid. apply andb_prop in Hok as [Hs Hok]. apply andb_prop in Hid as [Hi Hid].
    cbn [mapM] in Hv. apply bind_Some in Hv as (v & Ev & Hv). apply bind_Some in Hv as (vs' & Evs & [= <-]).
    rewrite fmap_cons in *. cbn [concat] in *. rewrite length_app in Hf. cbn [ProcessIncomingBinary_loop].
    pose proof (sending_nonempty s Hs) as Hn. destruct (sending_bytes s ++ concat (sending_bytes <$> l)) as [|b bs] eqn:Eb.
    { by apply app_eq_nil in Eb as [? _]. }
    rewrite <- Eb. clear b bs Eb. destruct (local_time (s_time s) o) as [t|] eqn:Et; [|unfold incoming in Ev; by rewrite Et in Ev].
    assert (length (sending_bytes s) <> O) by (by destruct (sending_bytes s)).
    unfold sending_ok in Hs. apply andb_prop in Hs as [Hs Hd]. apply andb_prop in Hs as [H1 H2].
    unfold bind, get, deref. rewrite Ho. unfold sending_bytes at 1. rewrite decode_encode_binary by done. rewrite Et. cbn [mbind option_bind].
    rewrite (handle_incoming c cur s v o Ev Hi Hloc t Et).
    assert (for_each (omap id vs') (fun '(topic, v) => li_NetworkSetValue topic v) (ci_store c) = Some (tt, st) ->
      ProcessIncomingBinary_loop fuel cur (concat (sending_bytes <$> l)) c = Some (tt, c <| ci_store := st |>)) as Hnext
      by (intros E; eapply IH; try done; lia).
    destruct v as [[topic v]|]; [|by apply Hnext]. cbn in Hst. unfold bind in Hst.
    unfold on_store, bind, get. rewrite Hloc. destruct (li_NetworkSetValue topic v (ci_store c)) as [[[] st1]|]; [|done].
    rewrite (IH fuel _ vs'); [by destruct c|lia|done..].
Qed.

(** C12.  Values of the server reach the local storage: from a frame of values the client makes
    exactly the calls of [NetworkSetValue] for those whose numbers the server has announced,
    in order, with the topic of the number, the server's time as it is and the local time
    moved by the time offset. *)
Theorem incoming_values_delivered c curTimeMs l o vs st :
  forallb sending_ok l = true -> forallb value_id l = true -> ci_local c = true ->
  sub64 0 (ci_serverTimeOffsetUs c) = Some o -> mapM (incoming o (ci_topicMap c)) l = Some vs ->
  for_each (omap id vs) (fun '(topic, v) => li_NetworkSetValue topic v) (ci_store c) = Some (tt, st) ->
  ProcessIncomingBinary curTimeMs (concat (sending_bytes <$> l)) c = Some (tt, c <| ci_store := st |>).
Proof. intros. unfold ProcessIncomingBinary. eapply process_incoming; try eassumption. lia. Qed.

(** Reading what a server sends terminates, whatever the bytes are: every value takes at
    least one byte, so that the number of rounds the model allows the loop over a binary frame
    is never what ends it, nor is it for the parser of text frames. *)
Theorem incoming_terminates c curTimeMs data text more :
  ProcessIncomingBinary_loop (S (length data) + more) curTimeMs data c = ProcessIncomingBinary curTimeMs data c /\
  json_parse text <> PFuel.
Proof.
  split; [|apply json_parse_fuel]. unfold ProcessIncomingBinary.
  cut (forall n m data c, (length data < n)%nat -> (length data < m)%nat ->
    ProcessIncomingBinary_loop n curTimeMs data c = ProcessIncomingBinary_loop m curTimeMs data c).
  { intros Hc. apply Hc; lia. }
  clear. induction n as [|n IH]; intros [|m] data c Hn Hm; try lia. cbn [ProcessIncomingBinary_loop].
  destruct data as [|b data]; [done|]. unfold bind, get, deref.
  destruct (sub64 0 _) as [o|]; [|done]. destruct (WireDecodeBinary _ _) as [[e|id v rest]|] eqn:E; [done| |done].
  apply decode_binary_progress in E. destruct (handle_value _ _ _ _) as [[[] c']|]; [|done]. apply IH; lia.
Qed.
End Incoming.
