(* ===== verification/ClientExample.v ===== *)
(** * ClientExample: a concrete client of version 4

    Instances of the collaborators of the protocol and a client on which its theorems are
    evaluated. *)

From S2P Require Import Prelude NtTypes Handles Monads LocalTypes Json JsonParser.
From S2P Require Import JsonRoundTrip WireEncoder4.
From S2P Require Import WireDecoder4 Wire4Text WireConnection4.
From S2P Require Import NetworkQueue Frames4.
From S2P Require Import ClientImpl ClientProofs ClientState.
Local Open Scope Z_scope.

Module ClientExample.
(** ** Instances *)

(** A number is printed as the digits of its bits after the point. *)
#[export] Instance digits_float : JsonFloat := {
  float_text x := lit "0." ++ dump_integer x;
  float_value s := if bool_decide (s = lit "1e999") then 0x7ff0000000000000 else digits_value (drop 2 s);
}.

Lemma scan_decimals ds buf : forallb is_digit ds = true ->
  scan_number_loop sn_decimal2 nt_float ds buf = Some (nt_float, buf ++ ds, []).
Proof.
  revert buf. induction ds as [|d ds IH]; intros buf Hd; [cbn; by rewrite app_nil_r|]. cbn in Hd |- *.
  apply andb_true_iff in Hd as [-> Hd]. rewrite IH by done. by rewrite <- app_assoc.
Qed.
Lemma dump_digits x : 0 <= x < 2 ^ 64 ->
  exists d ds, dump_integer x = d :: ds /\ is_digit d = true /\ forallb is_digit ds = true /\ digits_value (d :: ds) = x.
Proof.
  intros Hx. unfold dump_integer. destruct (Z.eqb_spec x 0) as [->|Hn]; [by exists (u8 0x30), []|].
  replace (x <? 0) with false by lia. rewrite app_nil_r.
  destruct (digits_spec 20 x) as (h & t & E & Hh & _ & Ht & Hv); [lia|]. eauto 10.
Qed.
#[export] Instance digits_float_laws : JsonFloatLaws.
Proof.
  split; intros x Hx _; cbn [float_text float_value digits_float].
  - destruct (dump_digits x Hx) as (d & ds & E & Hd & Hds & _). exists (u8 0x30), (u8 0x2e :: dump_integer x).
    split; [done|]. split; [done|]. rewrite E.
    change (number_start (u8 0x30)) with sn_zero. cbn [scan_number_loop enter scan_number_step].
    change (is_dot (u8 46)) with true. cbn [scan_number_step enter]. rewrite Hd. by rewrite scan_decimals.
  - destruct (dump_digits x Hx) as (d & ds & E & Hd & Hds & Hv). rewrite bool_decide_eq_false_2.
    + change (drop 2 (lit "0." ++ dump_integer x)) with (dump_integer x). by rewrite E.
    + intros Hc. assert (lit "0." ++ dump_integer x = u8 0x30 :: u8 0x2e :: dump_integer x) as E' by done.
      rewrite E' in Hc. vm_compute in Hc. discriminate Hc.
Qed.

#[export] Instance ticks : Env := {| env_Now n := Z.of_nat n; env_DataLogStart n := Z.of_nat n; env_cast_ub z := z |}.
#[export] Instance wpi_ticks : WpiClock := fun n => 1000000 + 500 * Z.of_nat n.

(** What the client tells the local storage *)
Inductive told :=
| Announced (name type : string) (pubHandle : Z)
| Unannounced (name : string)
| Updated (name : string)
| Set_ (topic : Z) (value : Value).
#[export] Instance recorder : LocalInterface jvalue (list told) := {
  li_NetworkAnnounce name type _ pubHandle l := Some (100 + Z.of_nat (length l), l ++ [Announced name type pubHandle]);
  li_NetworkUnannounce name l := Some (tt, l ++ [Unannounced name]);
  li_NetworkPropertiesUpdate name _ _ l := Some (tt, l ++ [Updated name]);
  li_NetworkSetValue topic value l := Some (tt, l ++ [Set_ topic value]);
}.

(** ** A session *)

Definition client : Type := CImpl (list told).
Abbreviation fresh := (CImpl_make 10 0 WebSocketConnection_make ([] : list told) 0 : option (unit * client)).
Definition pub_h (i : Z) : Z := Handle 0 i kPublisher.
Definition options (all : bool) : PubSubOptionsImpl :=
  PubSubOptionsImpl_make (kDefaultPubSubOptions <| sendAll := all |>).
Definition dbl (bits time : Z) : Value := MkValue (VDouble bits) time 0.
Definition int (z time : Z) : Value := MkValue (VInteger z) time 0.

Definition msgs : list (ClientMessage jvalue) :=
  [PublishMsg (pub_h 0) (Handle 0 0 kTopic) "/a" "double" {["retained" := JBoolean true]} (options false);
   ClientValueMsg (pub_h 0) (dbl 3 5); ClientValueMsg (pub_h 0) (dbl 4 6);
   SubscribeMsg 7 ["/b"; "/c"] (options true);
   PublishMsg (pub_h 2) (Handle 0 1 kTopic) "/d" "int" ∅ (options true);
   ClientValueMsg (pub_h 2) (int 1 0); ClientValueMsg (pub_h 2) (int 2 9)].

(** The server answers the ping, and announces a topic. *)
Definition pong : bytes := sending_bytes (MkSending (-1) 5000000 (int 1000000 0)).
Definition announce : ServerMessage jvalue := AnnounceMsg "/b" 17 "int" None ∅.
Definition ops : list client_op :=
  [OpSetLocal true; OpSent; OpBinary 20 pong;
   OpText (text_frame (omap (fun x => x) ((fun r => Some (snd r)) <$> omap WireEncodeText_server [announce]))); OpLocal msgs].
Definition run_from (f : option (unit * client)) : option (unit * client) :=
  match f with Some (_, c) => for_each ops client_run c | None => None end.
Abbreviation session := (run_from fresh).

Definition state : client := match session with Some (_, c) => c | None => MkCImpl 0 WebSocketConnection_make false [] [] [] [] ∅ 0 0 0 false 0 0 0 [] 0 end.

Definition texts : list (bool * bytes) := default [] (mapM WireEncodeText_client (ci_outgoing state)).
Definition calls : list (ClientCall jvalue) := default [] (mapM client_call (ci_outgoing state)).
Definition sendings : list Sending :=
  default [] (due_sendings (ci_serverTimeOffsetUs state) 100 false (ci_publishers state)).

Lemma send_values_delivers_witness : exists c' control values,
  ClientImpl_SendValues 100 false state = Some (tt, c') /\
  frames_calls control = Some (DCall <$> calls) /\ length calls = 3%nat /\
  frames_values values =
    Some [(0, MkValue (VDouble 4) 3999506 3999506); (2, MkValue (VInteger 1) 0 0); (2, MkValue (VInteger 2) 3999509 3999509)].
Proof.
  destruct (send_values_delivers state 100 false texts calls sendings) as (c' & control & values & H1 & _ & H2 & H3 & _).
  1-8: vm_compute; first [reflexivity | repeat split].
  exists c', control, values. split; [exact H1|]. split; [exact H2|]. split; [vm_compute; reflexivity|].
  rewrite H3. vm_compute. reflexivity.
Defined.

Lemma run_reachable l (c c' : client) : reachable c -> for_each l client_run c = Some (tt, c') -> reachable c'.
Proof.
  revert c. induction l as [|op l IH]; intros c Hc E; cbn [for_each] in E; [by injection E as <-|].
  unfold bind in E. destruct (client_run op c) as [[[] c1]|] eqn:E1; [|done].
  eapply IH; [|exact E]. by eapply reach_step.
Qed.
Lemma run_from_reachable f c : run_from f = Some (tt, c) -> (forall c0, f = Some (tt, c0) -> reachable c0) -> reachable c.
Proof. destruct f as [[[] c0]|]; [|done]. intros E Hf. by eapply run_reachable; [apply Hf|exact E]. Qed.
Lemma session_state : session = Some (tt, state).
Proof. unfold state. destruct session as [[[] c]|] eqn:E; [reflexivity|]. vm_compute in E. discriminate E. Qed.
Lemma state_reachable : reachable state.
Proof. exact (run_from_reachable _ _ session_state (fun c0 => reach_make _ _ _ _ _ c0)). Qed.
Lemma timer_fits_publishers_witness :
  last (ci_setPeriodic state) = Some (ci_periodMs state) /\ ci_periodMs state = 10.
Proof. split; [apply (timer_fits_publishers state state_reachable)|vm_compute; reflexivity]. Defined.

Lemma initial_values_not_sent_witness : SendInitialValues state = Some (tt, state).
Proof. apply (initial_values_not_sent state). vm_compute. split; [discriminate|reflexivity]. Defined.

Definition from_server : list Sending := [MkSending 17 4000000 (int 5 0); MkSending 99 4000001 (int 6 0); MkSending 17 4000002 (int 7 0)].
Lemma incoming_values_delivered_witness :
  (fun r => ci_store (snd r)) <$> ProcessIncomingBinary 50 (concat (sending_bytes <$> from_server)) state =
  Some [Announced "/b" "int" 0; Set_ 100 (MkValue (VInteger 5) 500 4000000); Set_ 100 (MkValue (VInteger 7) 502 4000002)].
Proof.
  rewrite (incoming_values_delivered state 50 from_server (- ci_serverTimeOffsetUs state)
    (default [] (mapM (incoming (- ci_serverTimeOffsetUs state) (ci_topicMap state)) from_server))
    [Announced "/b" "int" 0; Set_ 100 (MkValue (VInteger 5) 500 4000000); Set_ 100 (MkValue (VInteger 7) 502 4000002)]);
    [reflexivity|vm_compute; reflexivity..].
Defined.

Lemma binary_value_roundtrip_witness :
  WireDecodeBinary ((WireEncodeBinary 3 7 (MkValue (VBooleanArray [0; 5]) 0 0)).2 ++ [u8 1]) (-2) =
  Some (BinaryValue 3 (MkValue (VBooleanArray [0; 1]) 5 7) [u8 1]).
Proof.
  rewrite (binary_value_roundtrip 3 7 (MkValue (VBooleanArray [0; 5]) 0 0) (-2) [u8 1]) by reflexivity. reflexivity.
Defined.

Lemma control_messages_roundtrip_witness :
  WireDecodeText_client (text_frame texts.*2) = Some (DCall <$> calls) /\
  WireDecodeText_server (text_frame (default [] (mapM WireEncodeText_server [announce])).*2) =
    Some [DCall (WireEncoder4.ServerAnnounce "/b" 17 "int" ∅ None)].
Proof.
  apply (control_messages_roundtrip (ci_outgoing state) texts calls [announce]
    (default [] (mapM WireEncodeText_server [announce])) [WireEncoder4.ServerAnnounce "/b" 17 "int" ∅ None]);
    vm_compute; reflexivity.
Defined.

Lemma large_number_uncaught_witness :
  WireDecodeText_client (lit "[1e999]") = None /\ WireDecodeText_server (lit "[1e999]") = None.
Proof. apply large_number_uncaught. vm_compute. reflexivity. Defined.
End ClientExample.
