(* ===== verification/ServerTypes.v ===== *)
(** * ServerTypes: the objects of the server ([net/ServerImpl.cpp])

    Topics, publishers, subscribers and clients refer to each other by pointers.  A pointer is
    an address: a number that is never used again, so that the use of a pointer to an object
    that is gone is undefined behaviour ([None]).  The objects are in one heap for each
    class. *)

From S2P Require Import Prelude NtTypes Monads LocalTypes Json JsonRoundTrip Message3.
From S2P Require Import WireEncoder4 WireDecoder3 WireConnection4 NetworkQueue UidVector.

(** * WireConnection3: the connection of the version 3 protocol

    [net3/ServerTypes.h] and its implementation over a stream
    ([net3/UvStreamConnection3.cpp]).  The buffers are the bytes in them; [x_sent] is what has
    been given to the stream. *)

Local Open Scope Z_scope.

Record UvStreamConnection3 := MkStream3 {
  x_buffers : bytes;
  x_sendsActive : Z;
  x_reason : string;
  x_lastFlushTime : Z;
  x_sent : list bytes;
  x_closes : Z;
}.
#[global] Instance eta_UvStreamConnection3 : Eta UvStreamConnection3 := fun x =>
  MkStream3 (x_buffers x) (x_sendsActive x) (x_reason x) (x_lastFlushTime x) (x_sent x) (x_closes x).
Definition UvStreamConnection3_make : UvStreamConnection3 := MkStream3 [] 0 EmptyString 0 [] 0.

Definition Ready3 (x : UvStreamConnection3) : bool := x_sendsActive x =? 0.

(** Bytes written to the stream of a [Writer] *)
Definition write3 (bs : bytes) (x : UvStreamConnection3) : UvStreamConnection3 :=
  x <| x_buffers ::= fun b => b ++ bs |>.

Definition Flush3 (now : Z) (x : UvStreamConnection3) : UvStreamConnection3 :=
  match x_buffers x with
  | [] => x
  | b => x <| x_sendsActive ::= fun n => n + 1 |> <| x_sent ::= fun l => l ++ [b] |>
           <| x_buffers := [] |> <| x_lastFlushTime := now |>
  end.
(** The callback of [Write] *)
Definition write_done3 (x : UvStreamConnection3) : UvStreamConnection3 :=
  if 0 <? x_sendsActive x then x <| x_sendsActive ::= fun n => n - 1 |> else x.

Definition Disconnect3 (reason : string) (x : UvStreamConnection3) : UvStreamConnection3 :=
  x <| x_reason := reason |> <| x_closes ::= fun n => n + 1 |>.

Local Open Scope Z_scope.

Definition addr : Type := nat.

Inductive SendMode := kSendDisabled | kSendAll | kSendNormal | kSendImmNoFlush.
#[global] Instance SendMode_eq_dec : EqDecision SendMode.
Proof. solve_decision. Defined.

(** ** Topics, publishers, subscribers *)

Record TopicData := MkTopicData {
  td_name : string;
  td_id : nat;
  td_lastValue : Value;
  td_lastValueClient : option addr;
  td_typeStr : string;
  td_properties : gmap string jvalue;
  td_persistent : bool;
  td_retained : bool;
  td_special : bool;
  td_localHandle : Z;
  td_publishers : list addr;
  td_subscribers : list addr;
  td_metaPub : option addr;
  td_metaSub : option addr;
}.
#[global] Instance eta_TopicData4 : Eta TopicData := fun t =>
  MkTopicData (td_name t) (td_id t) (td_lastValue t) (td_lastValueClient t) (td_typeStr t) (td_properties t)
    (td_persistent t) (td_retained t) (td_special t) (td_localHandle t) (td_publishers t) (td_subscribers t)
    (td_metaPub t) (td_metaSub t).

Record PublisherData := MkPublisherData { pb_client : addr; pb_topic : addr; pb_pubuid : Z }.

Record SubscriberData := MkSubscriberData {
  sb_client : addr;
  sb_topicNames : list string;
  sb_subuid : Z;
  sb_options : PubSubOptionsImpl;
  sb_periodMs : Z;
}.
#[global] Instance eta_SubscriberData4 : Eta SubscriberData := fun b =>
  MkSubscriberData (sb_client b) (sb_topicNames b) (sb_subuid b) (sb_options b) (sb_periodMs b).

Definition is_assigned (v : Value) : bool := match data v with VUnassigned => false | _ => true end.

Definition IsPublished (t : TopicData) : bool :=
  td_persistent t || td_retained t || negb (bool_decide (td_publishers t = [])).

Definition bool_property (k : string) (props : gmap string jvalue) : bool :=
  match props !! k with Some (JBoolean b) => b | _ => false end.
Definition RefreshProperties (t : TopicData) : TopicData :=
  t <| td_persistent := bool_property "persistent" (td_properties t) |>
    <| td_retained := bool_property "retained" (td_properties t) |>.

Definition TopicData_make (name typeStr : string) (properties : gmap string jvalue) : TopicData :=
  RefreshProperties (MkTopicData name 0 Value_empty None typeStr properties false false false 0 [] [] None None).

(** The members of an update; null removes. *)
Definition update_properties (update props : gmap string jvalue) : gmap string jvalue :=
  map_fold (fun k v props => match v with JNull => delete k props | _ => <[k := v]> props end) props update.
(** [TopicData::SetProperties]: whether there were any members *)
Definition topic_SetProperties (update : gmap string jvalue) (t : TopicData) : bool * TopicData :=
  if bool_decide (update = ∅) then (false, t)
  else (true, RefreshProperties (t <| td_properties ::= update_properties update |>)).

Definition topic_SetFlags (flags : Z) (t : TopicData) : bool * TopicData :=
  if negb (Z.land flags NT_PERSISTENT =? 0) then
    (negb (td_persistent t), t <| td_persistent := true |> <| td_properties ::= <["persistent" := JBoolean true]> |>)
  else (td_persistent t, t <| td_persistent := false |> <| td_properties ::= delete "persistent" |>).

Definition SubscriberData_make (client : addr) (topicNames : list string) (subuid : Z) (options : PubSubOptionsImpl) :=
  MkSubscriberData client topicNames subuid options (round_period (periodicMs options)).
Definition Update (topicNames : list string) (options : PubSubOptionsImpl) (b : SubscriberData) : SubscriberData :=
  b <| sb_topicNames := topicNames |> <| sb_options := options |> <| sb_periodMs := round_period (periodicMs options) |>.

Definition Matches (name : string) (special : bool) (b : SubscriberData) : bool :=
  existsb (fun topicName =>
    let prefix := prefixMatch (o_options (sb_options b)) in
    (negb prefix && String.eqb name topicName) ||
    (prefix && (negb special || negb (String.eqb topicName EmptyString)) && String.prefix topicName name))
    (sb_topicNames b).

(** ** Clients *)

(** [net3::SequenceNumber], its [operator++] *)
Definition SequenceNumber_next (value : Z) : Z := if 0xffff <? value + 1 then 0 else value + 1.

(** The members of [ClientData4]; the writers are there while text or values are written. *)
Record Client4 := MkClient4 {
  k4_wire : WebSocketConnection;
  k4_outgoing : list (ServerMessage jvalue);
  k4_outgoingValueMap : gmap nat nat;
  k4_outText : bool;
  k4_outBinary : bool;
}.
#[global] Instance eta_Client4 : Eta Client4 := fun k =>
  MkClient4 (k4_wire k) (k4_outgoing k) (k4_outgoingValueMap k) (k4_outText k) (k4_outBinary k).

Inductive State3 := kStateInitial | kStateServerHelloComplete | kStateRunning.
#[global] Instance State3_eq_dec : EqDecision State3.
Proof. solve_decision. Defined.

Record TopicData3 := MkTopicData3 {
  t3_flags : Z;
  t3_seqNum : Z;
  t3_sentAssign : bool;
  t3_published : bool;
  t3_pubuid : Z;
}.
#[global] Instance eta_TopicData3 : Eta TopicData3 := fun t =>
  MkTopicData3 (t3_flags t) (t3_seqNum t) (t3_sentAssign t) (t3_published t) (t3_pubuid t).

(** The members of [ClientData3]; [k3_connected] is what [m_connected] was called with. *)
Record Client3 := MkClient3 {
  k3_wire : UvStreamConnection3;
  k3_state : State3;
  k3_decoder : WDImpl;
  k3_outgoing : list Message3;
  k3_outgoingValueMap : gmap nat nat;
  k3_nextPubUid : Z;
  k3_topics3 : gmap addr TopicData3;
  k3_connected : list string;
}.
#[global] Instance eta_Client3 : Eta Client3 := fun k =>
  MkClient3 (k3_wire k) (k3_state k) (k3_decoder k) (k3_outgoing k) (k3_outgoingValueMap k) (k3_nextPubUid k)
    (k3_topics3 k) (k3_connected k).

Inductive Kind := KLocal | K4 (k : Client4) | K3 (k : Client3).

(** [cd_setPeriodic] is what [m_setPeriodic] was called with. *)
Record ClientData := MkClientData {
  cd_name : string;
  cd_connInfo : string;
  cd_local : bool;
  cd_setPeriodic : list Z;
  cd_periodMs : Z;
  cd_lastSendMs : Z;
  cd_id : nat;
  cd_publishers : gmap Z addr;
  cd_subscribers : gmap Z addr;
  cd_metaPub : option addr;
  cd_metaSub : option addr;
  cd_announceSent : gmap addr bool;
  cd_kind : Kind;
}.
#[global] Instance eta_ClientData : Eta ClientData := fun c =>
  MkClientData (cd_name c) (cd_connInfo c) (cd_local c) (cd_setPeriodic c) (cd_periodMs c) (cd_lastSendMs c) (cd_id c)
    (cd_publishers c) (cd_subscribers c) (cd_metaPub c) (cd_metaSub c) (cd_announceSent c) (cd_kind c).

Definition ClientData_make (name connInfo : string) (local : bool) (id : nat) (kind : Kind) : ClientData :=
  MkClientData name connInfo local [] UINT32_MAX 0 id ∅ ∅ None None ∅ kind.

(** ** The machine the server runs on *)

(** What the server does not control: where a new object is, given the addresses in use, and
    the order of the elements of a [wpi::DenseMap].  Both may differ each time. *)
Class Machine := {
  alloc : nat -> gset addr -> addr;
  dense_items : forall {A}, nat -> gmap Z A -> list (Z * A);
  dense_ptrs : forall {A}, nat -> gmap addr A -> list (addr * A);
}.
Class MachineLaws `{Machine} : Prop := {
  alloc_fresh n X : alloc n X ∉ X;
  dense_items_perm {A} n (m : gmap Z A) : dense_items n m ≡ₚ map_to_list m;
  dense_ptrs_perm {A} n (m : gmap addr A) : dense_ptrs n m ≡ₚ map_to_list m;
}.
