(* ===== verification/ServerImpl.v ===== *)
(** * ServerImpl: the server of the version 4 protocol ([net/ServerImpl.cpp])

    [SImpl], its topics and its clients.  The methods of a client have the address of the
    client as an argument; a virtual method is a function that looks at the kind of client.
    [None] is undefined behaviour (a null or dangling pointer, an index out of range, a key
    that [wpi::DenseMap] reserves) or an exception. *)

From S2P Require Import Prelude NtTypes Monads LocalTypes Json JsonRoundTrip Events Mpack.
From S2P Require Import Message3 WireEncoder4.
From S2P Require Import WireEncoder3 WireDecoder3 WireDecoder4 ServerTypes.
From S2P Require Import WireConnection4.
From S2P Require Import NetworkQueue UidVector.
Local Open Scope Z_scope.

Section Server.
Context {L : Type} {LI : LocalInterface jvalue L} {EN : Env} {WC : WpiClock} {JF : JsonFloat} {MA : Machine}.

(** [s_store] is the object [m_local] points to; [s_metaClients] is [None] as long as the
    member is not set.  [s_tick] counts the uses of the clock and of the machine. *)
Record SImpl := MkSImpl {
  s_local : bool;
  s_store : L;
  s_controlReady : bool;
  s_localClient : addr;
  s_clients : list (option addr);
  s_topics : UidVector addr;
  s_nameTopics : gmap string addr;
  s_persistentChanged : bool;
  s_metaClients : option addr;
  s_topicHeap : gmap addr TopicData;
  s_pubHeap : gmap addr PublisherData;
  s_subHeap : gmap addr SubscriberData;
  s_clientHeap : gmap addr ClientData;
  s_tick : nat;
}.
#[global] Instance eta_SImpl : Eta SImpl := fun s =>
  MkSImpl (s_local s) (s_store s) (s_controlReady s) (s_localClient s) (s_clients s) (s_topics s) (s_nameTopics s)
    (s_persistentChanged s) (s_metaClients s) (s_topicHeap s) (s_pubHeap s) (s_subHeap s) (s_clientHeap s) (s_tick s).

(** ** Memory *)

Definition tick : M SImpl nat :=
  let* s := get in modify (fun s => s <| s_tick ::= S |>) ;; ret (s_tick s).
Definition nt_Now : M SImpl Z := let* n := tick in ret (env_Now n).
Definition wpi_now : M SImpl Z := let* n := tick in ret (wpi_Now n).

Definition topic (t : addr) : M SImpl TopicData := let* s := get in deref (s_topicHeap s !! t).
Definition pub (p : addr) : M SImpl PublisherData := let* s := get in deref (s_pubHeap s !! p).
Definition sub (b : addr) : M SImpl SubscriberData := let* s := get in deref (s_subHeap s !! b).
Definition client (c : addr) : M SImpl ClientData := let* s := get in deref (s_clientHeap s !! c).

Definition upd_topic (t : addr) (f : TopicData -> TopicData) : M SImpl unit :=
  let* td := topic t in modify (fun s => s <| s_topicHeap ::= <[t := f td]> |>).
Definition upd_client (c : addr) (f : ClientData -> ClientData) : M SImpl unit :=
  let* cd := client c in modify (fun s => s <| s_clientHeap ::= <[c := f cd]> |>).

(** [std::make_unique] *)
Definition new_topic (td : TopicData) : M SImpl addr :=
  let* n := tick in let* s := get in
  let t := alloc n (dom (s_topicHeap s)) in
  modify (fun s => s <| s_topicHeap ::= <[t := td]> |>) ;; ret t.
Definition new_pub (pb : PublisherData) : M SImpl addr :=
  let* n := tick in let* s := get in
  let p := alloc n (dom (s_pubHeap s)) in
  modify (fun s => s <| s_pubHeap ::= <[p := pb]> |>) ;; ret p.
Definition new_sub (sb : SubscriberData) : M SImpl addr :=
  let* n := tick in let* s := get in
  let b := alloc n (dom (s_subHeap s)) in
  modify (fun s => s <| s_subHeap ::= <[b := sb]> |>) ;; ret b.
Definition new_client (cd : ClientData) : M SImpl addr :=
  let* n := tick in let* s := get in
  let c := alloc n (dom (s_clientHeap s)) in
  modify (fun s => s <| s_clientHeap ::= <[c := cd]> |>) ;; ret c.

(** Iteration over a [wpi::DenseMap] *)
Definition items {A} (m : gmap Z A) : M SImpl (list (Z * A)) := let* n := tick in ret (dense_items n m).
Definition ptr_items {A} (m : gmap addr A) : M SImpl (list (addr * A)) := let* n := tick in ret (dense_ptrs n m).

(** A key given to a [wpi::DenseMap<int64_t, ...>] *)
Definition key64 (uid : Z) : M SImpl unit := deref (if dense_key uid then Some tt else None).

(** A call of [m_local], which is not null *)
Definition on_store {A} (m : M L A) : M SImpl A := fun s =>
  match m (s_store s) with Some (x, l) => Some (x, s <| s_store := l |>) | None => None end.

(** ** Clients of version 4 *)

Definition on4 (c : addr) (f : Client4 -> Client4) : M SImpl unit :=
  upd_client c (fun cd => match cd_kind cd with K4 k => cd <| cd_kind := K4 (f k) |> | _ => cd end).
Definition get4 (c : addr) : M SImpl Client4 :=
  let* cd := client c in deref (match cd_kind cd with K4 k => Some k | _ => None end).

Definition reset_text (k : Client4) : Client4 :=
  if k4_outText k then k <| k4_wire ::= FinishSendText |> <| k4_outText := false |> else k.
Definition reset_binary (k : Client4) : Client4 :=
  if k4_outBinary k then k <| k4_wire ::= FinishSendBinary |> <| k4_outBinary := false |> else k.
(** [SendText().Add()] and [SendBinary().Add()], and what is then written *)
Definition SendText (text : bytes) (k : Client4) : Client4 :=
  reset_binary k <| k4_outText := true |> <| k4_wire ::= AddText text |>.
Definition SendBinary (text : bytes) (k : Client4) : Client4 :=
  reset_text k <| k4_outBinary := true |> <| k4_wire ::= AddBinary text |>.
Definition WriteBinary (c : addr) (id time : Z) (value : Value) : M SImpl unit :=
  on4 c (SendBinary (WireEncodeBinary id time value).2).
Definition write_text (c : addr) (text : option bytes) : M SImpl unit :=
  let* t := deref text in on4 c (SendText t).

(** [m_wire.Flush()], which reads the clock if there is something to send *)
Definition wire_flush4 (c : addr) : M SImpl unit :=
  let* k := get4 c in
  match w_frames (FinishSendBinary (FinishSendText (k4_wire k))) with
  | [] => on4 c (fun k => k <| k4_wire ::= WireConnection4.Flush 0 |>)
  | _ => let* now := wpi_now in on4 c (fun k => k <| k4_wire ::= WireConnection4.Flush now |>)
  end.
Definition Client4_Flush (c : addr) : M SImpl unit :=
  on4 c reset_text ;; on4 c reset_binary ;; wire_flush4 c.

Definition push4 (c : addr) (msg : ServerMessage jvalue) : M SImpl unit :=
  on4 c (fun k => k <| k4_outgoing ::= fun l => l ++ [msg] |>).
Definition control_ready : M SImpl unit := modify (fun s => s <| s_controlReady := true |>).

(** The message [SendValue] may replace: the one the map names, if it has a value of the
    topic *)
Definition replaceable4 (k : Client4) (id : nat) : option nat :=
  i ← k4_outgoingValueMap k !! id;
  match k4_outgoing k !! i with
  | Some (ServerValueMsg t _) => if t =? Z.of_nat id then Some i else None
  | _ => None
  end.

Definition Client4_SendValue (c t : addr) (value : Value) (mode : SendMode) : M SImpl unit :=
  let* td := topic t in
  let* cd := client c in
  let id := Z.of_nat (td_id td) in
  match (if cd_local cd then kSendImmNoFlush else mode) with
  | kSendDisabled => skip
  | kSendImmNoFlush =>
      WriteBinary c id (value_time value) value ;; when (cd_local cd) (Client4_Flush c)
  | kSendAll =>
      on4 c (fun k => k <| k4_outgoingValueMap ::= <[td_id td := length (k4_outgoing k)]> |>) ;;
      push4 c (ServerValueMsg id value)
  | kSendNormal =>
      let* k := get4 c in
      match replaceable4 k (td_id td) with
      | Some i => on4 c (fun k => k <| k4_outgoing ::= <[i := ServerValueMsg id value]> |>)
      | None =>
          when (bool_decide (k4_outgoingValueMap k !! td_id td = None))
            (on4 c (fun k => k <| k4_outgoingValueMap ::= <[td_id td := length (k4_outgoing k)]> |>)) ;;
          push4 c (ServerValueMsg id value)
      end
  end.

Definition sent_to (c t : addr) : M SImpl bool :=
  let* cd := client c in ret (default false (cd_announceSent cd !! t)).
Definition set_sent (c t : addr) (b : bool) : M SImpl unit :=
  upd_client c (fun cd => cd <| cd_announceSent ::= <[t := b]> |>).

Definition Client4_SendAnnounce (c t : addr) (pubuid : option Z) : M SImpl unit :=
  let* sent := sent_to c t in
  if sent then skip
  else
    set_sent c t true ;;
    let* td := topic t in
    let* cd := client c in
    if cd_local cd then
      write_text c (WireEncodeAnnounce (td_name td) (Z.of_nat (td_id td)) (td_typeStr td) (td_properties td) pubuid) ;;
      Client4_Flush c
    else
      push4 c (AnnounceMsg (td_name td) (Z.of_nat (td_id td)) (td_typeStr td) pubuid (td_properties td)) ;;
      control_ready.

Definition Client4_SendUnannounce (c t : addr) : M SImpl unit :=
  let* sent := sent_to c t in
  if sent then
    set_sent c t false ;;
    let* td := topic t in
    let* cd := client c in
    if cd_local cd then
      write_text c (WireEncodeUnannounce (td_name td) (Z.of_nat (td_id td))) ;; Client4_Flush c
    else push4 c (UnannounceMsg (td_name td) (Z.of_nat (td_id td))) ;; control_ready
  else set_sent c t false.

Definition Client4_SendPropertiesUpdate (c t : addr) (update : gmap string jvalue) (ack : bool) : M SImpl unit :=
  let* sent := sent_to c t in
  if sent then
    let* td := topic t in
    let* cd := client c in
    if cd_local cd then
      write_text c (WireEncodePropertiesUpdate (td_name td) update ack) ;; Client4_Flush c
    else push4 c (PropertiesUpdateMsg (td_name td) update ack) ;; control_ready
  else skip.

(** Whether a connection that is not ready has been so for too long *)
Definition stalled (lastFlushTime now : Z) : bool :=
  negb (lastFlushTime =? 0) && (wrap 64 (lastFlushTime + kWireMaxNotReadyUs) <? now).

Definition send4 (c : addr) (msg : ServerMessage jvalue) : M SImpl unit :=
  match msg with
  | ServerValueMsg t value => WriteBinary c t (value_time value) value
  | _ => let* r := deref (WireEncodeText_server msg) in on4 c (SendText r.2)
  end.

Definition Client4_SendOutgoing (c : addr) (curTimeMs : Z) : M SImpl unit :=
  let* cd := client c in
  let* k := get4 c in
  if bool_decide (k4_outgoing k = []) then skip
  else if curTimeMs <? wrap 64 (cd_lastSendMs cd + kMinPeriodMs) then skip
  else if Ready (k4_wire k) then
    for_each (k4_outgoing k) (send4 c) ;;
    on4 c (fun k => k <| k4_outgoing := [] |> <| k4_outgoingValueMap := ∅ |>) ;;
    upd_client c (fun cd => cd <| cd_lastSendMs := curTimeMs |>)
  else
    let* now := wpi_now in
    when (stalled (w_lastFlushTime (k4_wire k)) now)
      (on4 c (fun k => k <| k4_wire ::= Disconnect "transmit stalled" |>)).

(** ** Clients of version 3 *)

Definition on3 (c : addr) (f : Client3 -> Client3) : M SImpl unit :=
  upd_client c (fun cd => match cd_kind cd with K3 k => cd <| cd_kind := K3 (f k) |> | _ => cd end).
Definition get3 (c : addr) : M SImpl Client3 :=
  let* cd := client c in deref (match cd_kind cd with K3 k => Some k | _ => None end).

Definition write_wire3 (c : addr) (text : bytes) : M SImpl unit := on3 c (fun k => k <| k3_wire ::= write3 text |>).
Definition Client3_Flush (c : addr) : M SImpl unit :=
  let* k := get3 c in
  match x_buffers (k3_wire k) with
  | [] => skip
  | _ => let* now := wpi_now in on3 c (fun k => k <| k3_wire ::= Flush3 now |>)
  end.
Definition push3 (c : addr) (msg : Call3) : M SImpl unit :=
  on3 c (fun k => k <| k3_outgoing ::= fun l => l ++ [Message3_make msg] |>).

Definition flags_of (td : TopicData) : Z := if td_persistent td then NT_PERSISTENT else 0.
Definition TopicData3_make (td : TopicData) : TopicData3 := MkTopicData3 (flags_of td) 0 false false 0.
Definition UpdateFlags (td : TopicData) (t3 : TopicData3) : bool * TopicData3 :=
  (negb (t3_flags t3 =? flags_of td), t3 <| t3_flags := flags_of td |>).

Definition GetTopic3 (c t : addr) : M SImpl TopicData3 :=
  let* td := topic t in
  let* k := get3 c in
  match k3_topics3 k !! t with
  | Some t3 => ret t3
  | None => on3 c (fun k => k <| k3_topics3 ::= <[t := TopicData3_make td]> |>) ;; ret (TopicData3_make td)
  end.
Definition upd_topic3 (c t : addr) (f : TopicData3 -> TopicData3) : M SImpl unit :=
  on3 c (fun k => k <| k3_topics3 ::= alter f t |>).

(** The message for a value: an assignment if none has been sent yet *)
Definition value_call3 (td : TopicData) (t3 : TopicData3) (value : Value) : Call3 :=
  let id := Z.of_nat (td_id td) in
  if t3_sentAssign t3 then EntryUpdate id (t3_seqNum t3) value
  else EntryAssign (td_name td) id (t3_seqNum t3) value (t3_flags t3).
Definition next_value3 (c t : addr) (td : TopicData) (value : Value) : M SImpl Call3 :=
  upd_topic3 c t (fun t3 => t3 <| t3_seqNum ::= SequenceNumber_next |>) ;;
  let* t3 := GetTopic3 c t in
  upd_topic3 c t (fun t3 => t3 <| t3_sentAssign := true |>) ;;
  ret (value_call3 td t3 value).

Definition replaceable3 (k : Client3) (id : nat) : option nat :=
  i ← k3_outgoingValueMap k !! id;
  msg ← k3_outgoing k !! i;
  match Message3.m_type msg with
  | kEntryUpdate | kEntryAssign => if Message3.m_id msg =? Z.of_nat id then Some i else None
  | _ => None
  end.

Definition append_value3 (c t : addr) (td : TopicData) (value : Value) : M SImpl unit :=
  on3 c (fun k => k <| k3_outgoingValueMap ::= <[td_id td := length (k3_outgoing k)]> |>) ;;
  let* msg := next_value3 c t td value in push3 c msg.

Definition send_mode3 (running local : bool) (mode : SendMode) : SendMode :=
  if negb running then match mode with kSendImmNoFlush => kSendAll | _ => mode end
  else if local then kSendImmNoFlush else mode.

Definition Client3_SendValue (c t : addr) (value : Value) (mode : SendMode) : M SImpl unit :=
  let* td := topic t in
  let* cd := client c in
  let* k := get3 c in
  GetTopic3 c t ;;
  match send_mode3 (bool_decide (k3_state k = kStateRunning)) (cd_local cd) mode with
  | kSendDisabled => skip
  | kSendImmNoFlush =>
      let* msg := next_value3 c t td value in
      write_wire3 c (WireEncode (Message3_make msg)).2 ;;
      when (cd_local cd) (Client3_Flush c)
  | kSendNormal =>
      match replaceable3 k (td_id td) with
      | Some i => on3 c (fun k => k <| k3_outgoing ::= alter (fun msg => msg <| Message3.m_value := value |>) i |>)
      | None => append_value3 c t td value
      end
  | kSendAll => append_value3 c t td value
  end.

Definition Client3_SendUnannounce (c t : addr) : M SImpl unit :=
  let* k := get3 c in
  match k3_topics3 k !! t with
  | None => skip
  | Some t3 =>
      on3 c (fun k => k <| k3_topics3 ::= delete t |>) ;;
      if t3_sentAssign t3 then
        let* td := topic t in
        let* cd := client c in
        if cd_local cd && bool_decide (k3_state k = kStateRunning) then
          write_wire3 c (WireEncodeEntryDelete (Z.of_nat (td_id td))) ;; Client3_Flush c
        else push3 c (EntryDelete (Z.of_nat (td_id td)))
      else skip
  end.

Definition Client3_SendPropertiesUpdate (c t : addr) (ack : bool) : M SImpl unit :=
  let* k := get3 c in
  if ack then skip
  else
    match k3_topics3 k !! t with
    | None => skip
    | Some t3 =>
        let* td := topic t in
        let* cd := client c in
        let '(updated, t3) := UpdateFlags td t3 in
        upd_topic3 c t (fun _ => t3) ;;
        if updated && t3_sentAssign t3 then
          if cd_local cd && bool_decide (k3_state k = kStateRunning) then
            write_wire3 c (WireEncodeFlagsUpdate (Z.of_nat (td_id td)) (t3_flags t3)) ;; Client3_Flush c
          else push3 c (FlagsUpdate (Z.of_nat (td_id td)) (t3_flags t3))
        else skip
    end.

Definition Client3_SendOutgoing (c : addr) (curTimeMs : Z) : M SImpl unit :=
  let* cd := client c in
  let* k := get3 c in
  if bool_decide (k3_outgoing k = []) || negb (bool_decide (k3_state k = kStateRunning)) then skip
  else if curTimeMs <? wrap 64 (cd_lastSendMs cd + kMinPeriodMs) then skip
  else if Ready3 (k3_wire k) then
    for_each (k3_outgoing k) (fun msg => write_wire3 c (WireEncode msg).2) ;;
    on3 c (fun k => k <| k3_outgoing := [] |> <| k3_outgoingValueMap := ∅ |>) ;;
    upd_client c (fun cd => cd <| cd_lastSendMs := curTimeMs |>)
  else
    let* now := wpi_now in
    when (stalled (x_lastFlushTime (k3_wire k)) now)
      (on3 c (fun k => k <| k3_wire ::= Disconnect3 "transmit stalled" |>)).

(** ** Values *)

Definition Local_SendValue (t : addr) (value : Value) : M SImpl unit :=
  let* s := get in
  when (s_local s) (let* td := topic t in on_store (li_NetworkSetValue (td_localHandle td) value)).

Definition SendValue (c t : addr) (value : Value) (mode : SendMode) : M SImpl unit :=
  let* cd := client c in
  match cd_kind cd with
  | KLocal => Local_SendValue t value
  | K4 _ => Client4_SendValue c t value mode
  | K3 _ => Client3_SendValue c t value mode
  end.

Definition Flush (c : addr) : M SImpl unit :=
  let* cd := client c in
  match cd_kind cd with KLocal => skip | K4 _ => Client4_Flush c | K3 _ => Client3_Flush c end.
Definition SendOutgoing (c : addr) (curTimeMs : Z) : M SImpl unit :=
  let* cd := client c in
  match cd_kind cd with
  | KLocal => skip
  | K4 _ => Client4_SendOutgoing c curTimeMs
  | K3 _ => Client3_SendOutgoing c curTimeMs
  end.

(** How each client gets a value: the union of its subscriptions *)
Definition merge_mode (options : PubSubOptions) (mode : SendMode) : SendMode :=
  if topicsOnly options then mode
  else if sendAll options then kSendAll
  else match mode with kSendAll => kSendAll | _ => kSendNormal end.
Fixpoint send_modes (subs : list addr) (toSend : list SendMode) : M SImpl (list SendMode) :=
  match subs with
  | [] => ret toSend
  | b :: subs =>
      let* sb := sub b in
      let* cd := client (sb_client sb) in
      let* mode := deref (toSend !! cd_id cd) in
      send_modes subs (<[cd_id cd := merge_mode (o_options (sb_options sb)) mode]> toSend)
  end.

(** Whether a value becomes the last value of the topic *)
Definition accepts (from : option addr) (value : Value) (td : TopicData) : bool :=
  negb (is_assigned (td_lastValue td)) || bool_decide (td_lastValueClient td = from) ||
  (value_time (td_lastValue td) =? 0) || (value_time (td_lastValue td) <=? value_time value).

Definition SetValue (from : option addr) (t : addr) (value : Value) : M SImpl unit :=
  let* td := topic t in
  when (accepts from value td)
    (upd_topic t (fun td => td <| td_lastValue := value |> <| td_lastValueClient := from |>) ;;
     when (td_persistent td) (modify (fun s => s <| s_persistentChanged := true |>))) ;;
  let* s := get in
  let* toSend := send_modes (td_subscribers td) (replicate (length (s_clients s)) kSendDisabled) in
  for_each (zip (s_clients s) toSend) (fun '(aClient, mode) =>
    match aClient with
    | None => skip
    | Some c =>
        when (negb (bool_decide (from = Some c)) && negb (bool_decide (mode = kSendDisabled))) (SendValue c t value mode)
    end).

(** ** Meta topics *)

Definition mstr (s : string) : bytes := mpack_write_str (bytes_of_string s).

Definition WriteOptions (options : PubSubOptionsImpl) : bytes :=
  let o := o_options options in
  let all := sendAll o in let only := topicsOnly o in
  let periodic := negb (periodicMs options =? kDefaultPeriodicMs) in
  let size := (if all then 1 else 0) + (if only then 1 else 0) + (if periodic then 1 else 0) +
              (if prefixMatch o then 1 else 0) in
  mpack_start_map size ++
  (if all then mstr "all" ++ mpack_write_bool true else []) ++
  (if only then mstr "topicsonly" ++ mpack_write_bool true else []) ++
  (if periodic then
     mstr "periodic" ++
     mpack_write_float (f32_of_f64 (f64_div (f64_of_int (periodicMs options)) (f64_of_int 1000)))
   else []) ++
  (if prefixMatch o then mstr "prefix" ++ mpack_write_bool true else []).

(** [SetValue(nullptr, topic, Value::MakeRaw(std::move(w.bytes)))] of an array *)
Definition set_meta (t : addr) (elems : list bytes) : M SImpl unit :=
  let* now := nt_Now in
  SetValue None t (MakeRaw now (mpack_start_array (zlen elems) ++ concat elems) 0).

Definition UpdateMetaClientPub (c : addr) : M SImpl unit :=
  let* cd := client c in
  match cd_metaPub cd with
  | None => skip
  | Some m =>
      let* ps := items (cd_publishers cd) in
      let* elems := for_map ps (fun '(uid, p) =>
        let* pb := pub p in
        let* td := topic (pb_topic pb) in
        ret (mpack_start_map 2 ++ mstr "uid" ++ mpack_write_int uid ++ mstr "topic" ++ mstr (td_name td))) in
      set_meta m elems
  end.

Definition UpdateMetaClientSub (c : addr) : M SImpl unit :=
  let* cd := client c in
  match cd_metaSub cd with
  | None => skip
  | Some m =>
      let* bs := items (cd_subscribers cd) in
      let* elems := for_map bs (fun '(uid, b) =>
        let* sb := sub b in
        ret (mpack_start_map 3 ++ mstr "uid" ++ mpack_write_int uid ++ mstr "topics" ++
             mpack_start_array (zlen (sb_topicNames sb)) ++ concat (mstr <$> sb_topicNames sb) ++
             mstr "options" ++ WriteOptions (sb_options sb))) in
      set_meta m elems
  end.

Definition UpdateMetaTopicPub (t : addr) : M SImpl unit :=
  let* td := topic t in
  match td_metaPub td with
  | None => skip
  | Some m =>
      let* elems := for_map (td_publishers td) (fun p =>
        let* pb := pub p in
        let* cd := client (pb_client pb) in
        ret (mpack_start_map 2 ++ mstr "client" ++ mstr (cd_name cd) ++ mstr "pubuid" ++
             mpack_write_int (pb_pubuid pb))) in
      set_meta m elems
  end.

Definition UpdateMetaTopicSub (t : addr) : M SImpl unit :=
  let* td := topic t in
  match td_metaSub td with
  | None => skip
  | Some m =>
      let* elems := for_map (td_subscribers td) (fun b =>
        let* sb := sub b in
        let* cd := client (sb_client sb) in
        ret (mpack_start_map 3 ++ mstr "client" ++ mstr (cd_name cd) ++ mstr "subuid" ++
             mpack_write_int (sb_subuid sb) ++ mstr "options" ++ WriteOptions (sb_options sb))) in
      set_meta m elems
  end.

Definition UpdateMetaClients (conns : list ConnectionInfo) : M SImpl unit :=
  let* s := get in
  let* m := deref (s_metaClients s) in
  set_meta m ((fun conn =>
    mpack_start_map 3 ++ mstr "id" ++ mstr (remote_id conn) ++ mstr "conn" ++
    mstr (remote_ip conn +:+ ":" +:+ pretty (remote_port conn)) ++ mstr "ver" ++
    mpack_write_u16 (wrap 16 (protocol_version conn))) <$> conns).

(** ** Announcements *)

Definition Local_SendAnnounce (c t : addr) (pubuid : option Z) : M SImpl unit :=
  let* s := get in
  let* sent := sent_to c t in
  if s_local s && negb sent then
    set_sent c t true ;;
    let* td := topic t in
    let* h := on_store (li_NetworkAnnounce (td_name td) (td_typeStr td) (td_properties td) (wrap 32 (default 0 pubuid))) in
    upd_topic t (fun td => td <| td_localHandle := h |>)
  else skip.
Definition Local_SendUnannounce (c t : addr) : M SImpl unit :=
  let* s := get in
  let* sent := sent_to c t in
  if s_local s then
    set_sent c t false ;;
    when sent (let* td := topic t in on_store (li_NetworkUnannounce (td_name td)))
  else skip.
Definition Local_SendPropertiesUpdate (c t : addr) (update : gmap string jvalue) (ack : bool) : M SImpl unit :=
  let* s := get in
  let* sent := sent_to c t in
  when (s_local s && sent) (let* td := topic t in on_store (li_NetworkPropertiesUpdate (td_name td) update ack)).

(** A client of version 3 subscribes to every topic that is not a meta topic. *)
Definition Client3_SendAnnounce (c t : addr) : M SImpl unit :=
  let* cd := client c in
  if bool_decide (cd_subscribers cd = ∅) then skip
  else
    let* td := topic t in
    when (negb (td_special td))
      (let* b := deref (cd_subscribers cd !! 0) in
       upd_topic t (fun td => td <| td_subscribers ::= fun l => l ++ [b] |>) ;;
       UpdateMetaTopicSub t).

Definition SendAnnounce (c t : addr) (pubuid : option Z) : M SImpl unit :=
  let* cd := client c in
  match cd_kind cd with
  | KLocal => Local_SendAnnounce c t pubuid
  | K4 _ => Client4_SendAnnounce c t pubuid
  | K3 _ => Client3_SendAnnounce c t
  end.
Definition SendUnannounce (c t : addr) : M SImpl unit :=
  let* cd := client c in
  match cd_kind cd with
  | KLocal => Local_SendUnannounce c t
  | K4 _ => Client4_SendUnannounce c t
  | K3 _ => Client3_SendUnannounce c t
  end.
Definition SendPropertiesUpdate (c t : addr) (update : gmap string jvalue) (ack : bool) : M SImpl unit :=
  let* cd := client c in
  match cd_kind cd with
  | KLocal => Local_SendPropertiesUpdate c t update ack
  | K4 _ => Client4_SendPropertiesUpdate c t update ack
  | K3 _ => Client3_SendPropertiesUpdate c t ack
  end.

(** ** Topics *)

Definition GetSubscribers (c : addr) (name : string) (special : bool) : M SImpl (list addr) :=
  let* cd := client c in
  let* bs := items (cd_subscribers cd) in
  let* l := for_map bs (fun '(_, b) => let* sb := sub b in ret (if Matches name special sb then Some b else None)) in
  ret (omap id l).

(** What the loop of [CreateTopic] does with a client *)
Definition announce_new (from : option addr) (t c : addr) : M SImpl unit :=
  let* td := topic t in
  let* bs := GetSubscribers c (td_name td) (td_special td) in
  upd_topic t (fun td => td <| td_subscribers ::= fun l => l ++ bs |>) ;;
  when (negb (bool_decide (bs = [])) && negb (bool_decide (from = Some c))) (SendAnnounce c t None).

(** [CreateTopic] up to the meta topics: the topic, and whether it is new *)
Definition create_topic (from : option addr) (name typeStr : string) (properties : gmap string jvalue) (special : bool) :
    M SImpl (addr * bool) :=
  let* s := get in
  match s_nameTopics s !! name with
  | Some t => topic t ;; ret (t, false)
  | None =>
      let* t := new_topic (TopicData_make name typeStr properties) in
      let* s := get in
      let '(id, topics) := uid_emplace_back 16 t (s_topics s) in
      modify (fun s => s <| s_topics := topics |> <| s_nameTopics ::= <[name := t]> |>) ;;
      upd_topic t (fun td => td <| td_id := id |> <| td_special := special |>) ;;
      for_each (omap Datatypes.id (s_clients s)) (announce_new from t) ;;
      ret (t, true)
  end.
Definition CreateMetaTopic (name : string) : M SImpl addr :=
  let* r := create_topic None name "msgpack" {["retained" := JBoolean true]} true in ret r.1.
(** [CreateTopic] of a topic that is not a meta topic *)
Definition CreateTopic (from : option addr) (name typeStr : string) (properties : gmap string jvalue) : M SImpl addr :=
  let* '(t, isNew) := create_topic from name typeStr properties false in
  when isNew
    (let* m := CreateMetaTopic ("$pub$" +:+ name) in
     upd_topic t (fun td => td <| td_metaPub := Some m |>) ;;
     let* m := CreateMetaTopic ("$sub$" +:+ name) in
     upd_topic t (fun td => td <| td_metaSub := Some m |>) ;;
     UpdateMetaTopicPub t ;;
     UpdateMetaTopicSub t) ;;
  ret t.

(** The clients with a subscription of the topic, in the order of their ids *)
Definition subscribed_clients (td : TopicData) : M SImpl (list addr) :=
  let* ids := for_map (td_subscribers td) (fun b => let* sb := sub b in let* cd := client (sb_client sb) in ret (cd_id cd)) in
  let* s := get in
  deref (if forallb (fun i => bool_decide (i < length (s_clients s))%nat) ids then Some tt else None) ;;
  ret (omap (fun i => if bool_decide (i ∈ ids) then default None (s_clients s !! i) else None)
         (seq 0 (length (s_clients s)))).

(** The end of [DeleteTopic]: [m_nameTopics.erase], [m_topics.erase] *)
Definition erase_topic (td : TopicData) : M SImpl unit :=
  let* s := get in
  let '(o, topics) := uid_erase (td_id td) (s_topics s) in
  modify (fun s => s <| s_nameTopics ::= delete (td_name td) |> <| s_topics := topics |>
                     <| s_topicHeap ::= fun h => match o with Some t => delete t h | None => h end |>).

(** The name of a topic's meta topic is longer than its own, so that the depth of the
    recursion is less than the number of topics. *)
Fixpoint DeleteTopic_rec (fuel : nat) (ot : option addr) : M SImpl unit :=
  match fuel, ot with
  | _, None => skip
  | O, Some _ => deref None
  | S fuel, Some t =>
      let* td := topic t in
      DeleteTopic_rec fuel (td_metaPub td) ;;
      let* td := topic t in
      DeleteTopic_rec fuel (td_metaSub td) ;;
      let* td := topic t in
      let* cs := subscribed_clients td in
      for_each cs (fun c => SendUnannounce c t) ;;
      let* td := topic t in
      erase_topic td
  end.
Definition DeleteTopic (ot : option addr) : M SImpl unit :=
  let* s := get in DeleteTopic_rec (S (size (s_topicHeap s))) ot.

Definition PropertiesChanged (from : option addr) (t : addr) (update : gmap string jvalue) : M SImpl unit :=
  let* td := topic t in
  if IsPublished td then
    let* cs := subscribed_clients td in
    for_each cs (fun c => SendPropertiesUpdate c t update (bool_decide (from = Some c)))
  else DeleteTopic (Some t).

Definition persistent_changed : M SImpl unit := modify (fun s => s <| s_persistentChanged := true |>).

Definition SetProperties (from : option addr) (t : addr) (update : gmap string jvalue) : M SImpl unit :=
  let* td := topic t in
  let '(updated, td') := topic_SetProperties update td in
  upd_topic t (fun _ => td') ;;
  when updated
    (when (negb (Bool.eqb (td_persistent td') (td_persistent td))) persistent_changed ;;
     PropertiesChanged from t update).

Definition SetFlags (from : option addr) (t : addr) (flags : Z) : M SImpl unit :=
  let* td := topic t in
  let '(updated, td') := topic_SetFlags flags td in
  upd_topic t (fun _ => td') ;;
  when (updated && negb (Bool.eqb (td_persistent td') (td_persistent td)))
    (persistent_changed ;;
     PropertiesChanged from t {["persistent" := if td_persistent td' then JBoolean true else JObject []]}).

(** ** The messages of clients of version 4 *)

Definition ClientPublish (c : addr) (pubuid : Z) (name typeStr : string) (properties : gmap string jvalue) : M SImpl unit :=
  let* t := CreateTopic (Some c) name typeStr properties in
  key64 pubuid ;;
  let* cd := client c in
  let* p :=
    match cd_publishers cd !! pubuid with
    | Some p => ret p
    | None =>
        let* p := new_pub (MkPublisherData c t pubuid) in
        upd_client c (fun cd => cd <| cd_publishers ::= <[pubuid := p]> |>) ;; ret p
    end in
  upd_topic t (fun td => td <| td_publishers ::= fun l => l ++ [p] |>) ;;
  UpdateMetaTopicPub t ;;
  UpdateMetaClientPub c ;;
  SendAnnounce c t (Some pubuid).

(** [VectorSet::Remove] *)
Definition set_remove (x : addr) (l : list addr) : list addr := List.filter (fun y => negb (bool_decide (y = x))) l.

(** A publisher leaves its topic and its client. *)
Definition remove_publisher (c t : addr) (uid : Z) (p : addr) : M SImpl unit :=
  upd_topic t (fun td => td <| td_publishers ::= set_remove p |>) ;;
  upd_client c (fun cd => cd <| cd_publishers ::= delete uid |>) ;;
  modify (fun s => s <| s_pubHeap ::= delete p |>) ;;
  UpdateMetaTopicPub t ;;
  UpdateMetaClientPub c.

Definition ClientUnpublish (c : addr) (pubuid : Z) : M SImpl unit :=
  key64 pubuid ;;
  let* cd := client c in
  match cd_publishers cd !! pubuid with
  | None => skip
  | Some p =>
      let* pb := pub p in
      remove_publisher c (pb_topic pb) pubuid p ;;
      let* td := topic (pb_topic pb) in
      when (negb (IsPublished td)) (DeleteTopic (Some (pb_topic pb)))
  end.

Definition ClientSetProperties (name : string) (update : gmap string jvalue) : M SImpl unit :=
  let* s := get in
  match s_nameTopics s !! name with
  | None => skip
  | Some t =>
      let* td := topic t in
      when (IsPublished td && negb (td_special td)) (SetProperties None t update)
  end.

Definition set_period (c : addr) (periodMs : Z) : M SImpl unit :=
  upd_client c (fun cd => cd <| cd_periodMs := periodMs |> <| cd_setPeriodic ::= fun l => l ++ [periodMs] |>).
Definition gcd_period (ms periodMs : Z) : Z := if ms =? UINT32_MAX then periodMs else Z.gcd ms periodMs.
Definition at_least_min (ms : Z) : Z := if ms <? kMinPeriodMs then kMinPeriodMs else ms.

(** What the loop of [ClientSubscribe] does with a topic; the result is whether its last value
    is to be sent *)
Definition subscribe_topic (c b : addr) (replace : bool) (t : addr) : M SImpl bool :=
  let* td := topic t in
  let removed := replace && bool_decide (b ∈ td_subscribers td) in
  when replace (upd_topic t (fun td => td <| td_subscribers ::= set_remove b |>)) ;;
  let* td := topic t in
  let* others := for_map (td_subscribers td) (fun b' =>
    let* sb' := sub b' in
    ret (bool_decide (sb_client sb' = c), negb (topicsOnly (o_options (sb_options sb'))))) in
  let wasSubscribed := existsb fst others in
  let wasSubscribedValue := existsb (fun o => fst o && snd o) others in
  let* sb := sub b in
  let added := Matches (td_name td) (td_special td) sb in
  when added (upd_topic t (fun td => td <| td_subscribers ::= fun l => l ++ [b] |>)) ;;
  when (xorb added removed) (UpdateMetaTopicSub t) ;;
  when (added && negb removed && negb wasSubscribed) (SendAnnounce c t None) ;;
  let* td := topic t in
  ret (added && negb (topicsOnly (o_options (sb_options sb))) && negb wasSubscribedValue && is_assigned (td_lastValue td)).

Definition ClientSubscribe (c : addr) (subuid : Z) (topicNames : list string) (options : PubSubOptionsImpl) : M SImpl unit :=
  key64 subuid ;;
  let* cd := client c in
  let* '(b, replace) :=
    match cd_subscribers cd !! subuid with
    | Some b =>
        let* sb := sub b in
        modify (fun s => s <| s_subHeap ::= <[b := Update topicNames options sb]> |>) ;; ret (b, true)
    | None =>
        let* b := new_sub (SubscriberData_make c topicNames subuid options) in
        upd_client c (fun cd => cd <| cd_subscribers ::= <[subuid := b]> |>) ;; ret (b, false)
    end in
  let* sb := sub b in
  when (negb (cd_local cd)) (set_period c (at_least_min (gcd_period (cd_periodMs cd) (sb_periodMs sb)))) ;;
  let* s := get in
  let* l := for_map (uid_elements (s_topics s)) (fun t =>
    let* send := subscribe_topic c b replace t in ret (if send : bool then Some t else None)) in
  for_each (omap id l) (fun t => let* td := topic t in SendValue c t (td_lastValue td) kSendAll) ;;
  UpdateMetaClientSub c ;;
  Flush c.

Definition ClientUnsubscribe (c : addr) (subuid : Z) : M SImpl unit :=
  key64 subuid ;;
  let* cd := client c in
  match cd_subscribers cd !! subuid with
  | None => skip
  | Some b =>
      let* s := get in
      for_each (uid_elements (s_topics s)) (fun t =>
        let* td := topic t in
        when (bool_decide (b ∈ td_subscribers td))
          (upd_topic t (fun td => td <| td_subscribers ::= set_remove b |>) ;; UpdateMetaTopicSub t)) ;;
      upd_client c (fun cd => cd <| cd_subscribers ::= delete subuid |>) ;;
      modify (fun s => s <| s_subHeap ::= delete b |>) ;;
      UpdateMetaClientSub c ;;
      let* cd := client c in
      let* bs := items (cd_subscribers cd) in
      let* periods := for_map bs (fun '(_, b) => let* sb := sub b in ret (sb_periodMs sb)) in
      set_period c (at_least_min (foldl gcd_period UINT32_MAX periods))
  end.

Definition ClientSetValue (c : addr) (pubuid : Z) (value : Value) : M SImpl unit :=
  key64 pubuid ;;
  let* cd := client c in
  match cd_publishers cd !! pubuid with
  | None => skip
  | Some p => let* pb := pub p in SetValue (Some c) (pb_topic pb) value
  end.

Definition client_call_run (c : addr) (d : Decoded (ClientCall jvalue)) : M SImpl unit :=
  match d with
  | DCall (WireEncoder4.ClientPublish pubuid name typeStr properties) => ClientPublish c pubuid name typeStr properties
  | DCall (WireEncoder4.ClientUnpublish pubuid) => ClientUnpublish c pubuid
  | DCall (WireEncoder4.ClientSetProperties name update) => ClientSetProperties name update
  | DCall (WireEncoder4.ClientSubscribe subuid topicNames options) => ClientSubscribe c subuid topicNames options
  | DCall (WireEncoder4.ClientUnsubscribe subuid) => ClientUnsubscribe c subuid
  | DWarning _ => skip
  end.

Definition Client4_ProcessIncomingText (c : addr) (data : bytes) : M SImpl unit :=
  let* ds := deref (WireDecodeText_client data) in for_each ds (client_call_run c).

(** The response to a ping: the same value with the time of the server *)
Definition send_pong (c : addr) (value : Value) : M SImpl unit :=
  let* now := wpi_now in
  on4 c (fun k => k <| k4_wire ::= AddBinary (WireEncodeBinary (-1) now value).2 |>) ;;
  on4 c (fun k => k <| k4_wire ::= FinishSendBinary |>) ;;
  wire_flush4 c.

(** The loop over a frame; every value takes at least one byte. *)
Fixpoint Client4_binary_loop (fuel : nat) (c : addr) (data : bytes) : M SImpl unit :=
  match fuel, data with
  | O, _ | _, [] => skip
  | S fuel, _ =>
      let* d := deref (WireDecodeBinary data 0) in
      match d with
      | BinaryError error => on4 c (fun k => k <| k4_wire ::= Disconnect ("binary decode error: " +:+ error) |>)
      | BinaryValue pubuid value rest =>
          (if pubuid =? -1 then send_pong c value else ClientSetValue c pubuid value) ;;
          Client4_binary_loop fuel c rest
      end
  end.
Definition Client4_ProcessIncomingBinary (c : addr) (data : bytes) : M SImpl unit :=
  Client4_binary_loop (S (length data)) c data.

Definition client_msg_run (c : addr) (msg : ClientMessage jvalue) : M SImpl unit :=
  match msg with
  | ClientValueMsg pubHandle value => ClientSetValue c pubHandle value
  | PublishMsg pubHandle _ name typeStr properties _ => ClientPublish c pubHandle name typeStr properties
  | UnpublishMsg pubHandle _ => ClientUnpublish c pubHandle
  | SetPropertiesMsg _ name update => ClientSetProperties name update
  | SubscribeMsg subHandle topicNames options => ClientSubscribe c subHandle topicNames options
  | UnsubscribeMsg subHandle => ClientUnsubscribe c subHandle
  | ClientNone => skip
  end.
Definition Local_HandleLocal (c : addr) (msgs : list (ClientMessage jvalue)) : M SImpl unit :=
  for_each msgs (client_msg_run c).

(** ** Clients that come and go *)

(** The first free slot of [m_clients] *)
Fixpoint empty_slot (l : list (option addr)) : nat :=
  match l with [] => O | None :: _ => O | Some _ :: l => S (empty_slot l) end.

Definition put_client (index : nat) (c : addr) (l : list (option addr)) : list (option addr) :=
  if bool_decide (index = length l) then l ++ [Some c] else <[index := Some c]> l.

Definition AddClient (name connInfo : string) (local : bool) (wire : WebSocketConnection) : M SImpl (string * nat) :=
  let name := if String.eqb name EmptyString then "NT4" else name in
  let* s := get in
  let index := empty_slot (s_clients s) in
  let dedupName := name +:+ "@" +:+ pretty index in
  let* c := new_client (ClientData_make dedupName connInfo local index (K4 (MkClient4 wire [] ∅ false false))) in
  modify (fun s => s <| s_clients ::= put_client index c |>) ;;
  let* m := CreateMetaTopic ("$clientpub$" +:+ dedupName) in
  upd_client c (fun cd => cd <| cd_metaPub := Some m |>) ;;
  let* m := CreateMetaTopic ("$clientsub$" +:+ dedupName) in
  upd_client c (fun cd => cd <| cd_metaSub := Some m |>) ;;
  UpdateMetaClientPub c ;;
  UpdateMetaClientSub c ;;
  wire_flush4 c ;;
  ret (dedupName, index).

Definition AddClient3 (connInfo : string) (local : bool) (wire : UvStreamConnection3) : M SImpl nat :=
  let* s := get in
  let index := empty_slot (s_clients s) in
  let* c := new_client (ClientData_make EmptyString connInfo local index
                          (K3 (MkClient3 wire kStateInitial WDImpl_init [] ∅ 1 ∅ []))) in
  modify (fun s => s <| s_clients ::= put_client index c |>) ;;
  ret index.

(** What the loop of [RemoveClient] does with a topic; the result is the topic if it is to be
    deleted *)
Definition remove_from_topic (c t : addr) : M SImpl (option addr) :=
  let* td := topic t in
  let* ps := for_map (td_publishers td) (fun p => let* pb := pub p in ret (p, pb_client pb)) in
  let* bs := for_map (td_subscribers td) (fun b => let* sb := sub b in ret (b, sb_client sb)) in
  let other := fun x : addr * addr => negb (bool_decide (x.2 = c)) in
  let pubs := List.filter other ps in
  let subs := List.filter other bs in
  upd_topic t (fun td => td <| td_publishers := pubs.*1 |> <| td_subscribers := subs.*1 |>) ;;
  let* td := topic t in
  if IsPublished td then
    when (negb (bool_decide (length pubs = length ps))) (UpdateMetaTopicPub t) ;;
    when (negb (bool_decide (length subs = length bs))) (UpdateMetaTopicSub t) ;;
    ret None
  else ret (Some t).

Definition delete_all {A} (l : list addr) (h : gmap addr A) : gmap addr A := foldr delete h l.

(** [client.reset()]: the client and the publishers and subscribers it owns *)
Definition free_client (clientId : nat) (c : addr) : M SImpl unit :=
  let* cd := client c in
  modify (fun s => s <| s_clients ::= <[clientId := None]> |>
                     <| s_pubHeap ::= delete_all ((map_to_list (cd_publishers cd)).*2) |>
                     <| s_subHeap ::= delete_all ((map_to_list (cd_subscribers cd)).*2) |>
                     <| s_clientHeap ::= delete c |>).

Definition RemoveClient (clientId : nat) : M SImpl unit :=
  let* s := get in
  let* c := deref (default None (s_clients s !! clientId)) in
  let* toDelete := for_map (uid_elements (s_topics s)) (remove_from_topic c) in
  for_each (omap id toDelete) (fun t => DeleteTopic (Some t)) ;;
  let* cd := client c in
  DeleteTopic (cd_metaPub cd) ;;
  let* cd := client c in
  DeleteTopic (cd_metaSub cd) ;;
  free_client clientId c.

Definition PersistentChanged : M SImpl bool :=
  let* s := get in modify (fun s => s <| s_persistentChanged := false |>) ;; ret (s_persistentChanged s).

(** ** [ServerImpl] *)

(** The constructor: the local client is client 0. *)
Definition SImpl_make (store : L) : SImpl :=
  let c := alloc O ∅ in
  MkSImpl false store false c [Some c] UidVector_make ∅ false None ∅ ∅ ∅
    {[c := ClientData_make EmptyString EmptyString true 0 KLocal]} 1.

Definition SendControl (curTimeMs : Z) : M SImpl unit :=
  let* s := get in
  when (s_controlReady s)
    (modify (fun s => s <| s_controlReady := false |>) ;;
     for_each (omap id (s_clients s)) (fun c => SendOutgoing c curTimeMs ;; Flush c)).

Definition SendValues (clientId : nat) (curTimeMs : Z) : M SImpl unit :=
  let* s := get in
  let* oc := deref (s_clients s !! clientId) in
  match oc with None => skip | Some c => SendOutgoing c curTimeMs ;; Flush c end.

Definition HandleLocal (msgs : list (ClientMessage jvalue)) : M SImpl unit :=
  let* s := get in Local_HandleLocal (s_localClient s) msgs.

(** [SetLocal]; [local] is false for a null pointer *)
Definition SetLocal (local : bool) : M SImpl unit :=
  modify (fun s => s <| s_local := local |>) ;;
  let* m := CreateMetaTopic "$clients" in
  modify (fun s => s <| s_metaClients := Some m |>) ;;
  let* s := get in
  let c := s_localClient s in
  let* m := CreateMetaTopic "$serverpub" in
  upd_client c (fun cd => cd <| cd_metaPub := Some m |>) ;;
  let* m := CreateMetaTopic "$serversub" in
  upd_client c (fun cd => cd <| cd_metaSub := Some m |>) ;;
  UpdateMetaClientPub c ;;
  UpdateMetaClientSub c.

Definition ConnectionsChanged (conns : list ConnectionInfo) : M SImpl unit := UpdateMetaClients conns.
End Server.
Arguments SImpl : clear implicits.
