(* ===== verification/ServerNt3.v ===== *)
(** * ServerNt3: clients of version 3 at the server ([net/ServerImpl.cpp])

    [ClientData3] as the handler of the messages its decoder reads.  A pointer into
    [m_topics3] is the address of its topic. *)

From S2P Require Import Prelude NtTypes Monads LocalTypes Json JsonRoundTrip Message3.
From S2P Require Import WireEncoder4.
From S2P Require Import WireEncoder3 WireDecoder3 ServerTypes WireConnection4 NetworkQueue.
From S2P Require Import UidVector.
From S2P Require Import ServerImpl.
Local Open Scope Z_scope.

Section Nt3.
Context {L : Type} {LI : LocalInterface jvalue L} {EN : Env} {WC : WpiClock} {JF : JsonFloat} {MA : Machine}.

(** The result of a handler is the error it gives to the decoder. *)
Definition accept : M (SImpl L) (option string) := ret None.
Definition reject (msg : string) : M (SImpl L) (option string) := ret (Some msg).
Definition accepted (m : M (SImpl L) unit) : M (SImpl L) (option string) := m ;; accept.

Definition in_state (c : addr) (st : State3) : M (SImpl L) bool :=
  let* k := get3 c in ret (bool_decide (k3_state k = st)).
Definition set_state (c : addr) (st : State3) : M (SImpl L) unit := on3 c (fun k => k <| k3_state := st |>).

(** [fmt::format("{:04x}", rev)] *)
Definition hex4 (rev : Z) : string :=
  string_of_bytes [hex_digit (Z.land (Z.shiftr rev 12) 0xf); hex_digit (Z.land (Z.shiftr rev 8) 0xf);
                   hex_digit (Z.land (Z.shiftr rev 4) 0xf); hex_digit (Z.land rev 0xf)].

(** What the loop of [ClientHello] does with a topic *)
Definition initial_assign (c b t : addr) : M (SImpl L) unit :=
  let* td := topic t in
  when (negb (td_special td) && IsPublished td && is_assigned (td_lastValue td))
    (upd_topic t (fun td => td <| td_subscribers ::= fun l => l ++ [b] |>) ;;
     UpdateMetaTopicSub t ;;
     GetTopic3 c t ;;
     upd_topic3 c t (fun t3 => t3 <| t3_seqNum ::= SequenceNumber_next |>) ;;
     let* t3 := GetTopic3 c t in
     let* td := topic t in
     write_wire3 c (WireEncodeEntryAssign (td_name td) (Z.of_nat (td_id td)) (t3_seqNum t3) (td_lastValue td) (t3_flags t3)).2 ;;
     upd_topic3 c t (fun t3 => t3 <| t3_sentAssign := true |>)).

Definition Client3_ClientHello (c : addr) (proto_rev : Z) : M (SImpl L) (option string) :=
  let* initial := in_state c kStateInitial in
  if negb initial then reject "received unexpected ClientHello message"
  else if negb (proto_rev =? 0x0300) then
    write_wire3 c (WireEncodeProtoUnsup 0x0300) ;;
    Client3_Flush c ;;
    reject ("unsupported protocol version " +:+ hex4 proto_rev)
  else
    upd_client c (fun cd => cd <| cd_name := "NT3@" +:+ cd_connInfo cd |>) ;;
    let* cd := client c in
    on3 c (fun k => k <| k3_connected ::= fun l => l ++ [cd_name cd] |>) ;;
    let* m := CreateMetaTopic ("$clientpub$" +:+ cd_name cd) in
    upd_client c (fun cd => cd <| cd_metaPub := Some m |>) ;;
    let* m := CreateMetaTopic ("$clientsub$" +:+ cd_name cd) in
    upd_client c (fun cd => cd <| cd_metaSub := Some m |>) ;;
    let sb := SubscriberData_make c [EmptyString] 0
                (PubSubOptionsImpl_make (kDefaultPubSubOptions <| prefixMatch := true |>)) in
    let* b := new_sub sb in
    upd_client c (fun cd => cd <| cd_subscribers ::= <[0 := b]> |>) ;;
    set_period c (at_least_min (Z.gcd (cd_periodMs cd) (sb_periodMs sb))) ;;
    write_wire3 c (WireEncodeServerHello 0 "server") ;;
    let* s := get in
    for_each (uid_elements (s_topics s)) (initial_assign c b) ;;
    write_wire3 c WireEncodeServerHelloDone ;;
    Client3_Flush c ;;
    set_state c kStateServerHelloComplete ;;
    UpdateMetaClientPub c ;;
    UpdateMetaClientSub c ;;
    accept.

(** [m_publishers.try_emplace(pubuid, ...)] for a topic that was not published by the client,
    and, if it is new, its addition to the topic *)
Definition publish3 (c t : addr) (pubuid : Z) : M (SImpl L) bool :=
  key64 pubuid ;;
  let* cd := client c in
  match cd_publishers cd !! pubuid with
  | Some _ => ret false
  | None =>
      let* p := new_pub (MkPublisherData c t pubuid) in
      upd_client c (fun cd => cd <| cd_publishers ::= <[pubuid := p]> |>) ;;
      upd_topic t (fun td => td <| td_publishers ::= fun l => l ++ [p] |>) ;;
      UpdateMetaTopicPub t ;;
      UpdateMetaClientPub c ;;
      ret true
  end.
(** [m_nextPubUid++] *)
Definition next_pubuid (c : addr) : M (SImpl L) Z :=
  let* k := get3 c in on3 c (fun k => k <| k3_nextPubUid ::= fun n => n + 1 |>) ;; ret (k3_nextPubUid k).

Definition assign_properties (flags : Z) : gmap string jvalue :=
  let p := {["retained" := JBoolean true]} in
  if has_bits flags NT_PERSISTENT then <["persistent" := JBoolean true]> p else p.

Definition Client3_EntryAssign (c : addr) (name : string) (id : Z) (value : Value) (flags : Z) : M (SImpl L) unit :=
  if negb (id =? 0xffff) then skip
  else
    let* t := CreateTopic (Some c) name (TypeToString (value_type value)) (assign_properties flags) in
    let* t3 := GetTopic3 c t in
    if t3_published t3 || t3_sentAssign t3 then skip
    else
      let* pubuid := next_pubuid c in
      upd_topic3 c t (fun t3 => t3 <| t3_seqNum ::= SequenceNumber_next |> <| t3_published := true |>
                                   <| t3_pubuid := pubuid |> <| t3_sentAssign := true |>) ;;
      let* isNew := publish3 c t pubuid in
      if negb isNew then skip
      else
        SendAnnounce c t (Some pubuid) ;;
        SetValue (Some c) t value ;;
        let* td := topic t in
        let* t3 := GetTopic3 c t in
        let* cd := client c in
        let* k := get3 c in
        if cd_local cd && bool_decide (k3_state k = kStateRunning) then
          write_wire3 c (WireEncodeEntryAssign (td_name td) (Z.of_nat (td_id td)) (t3_seqNum t3) value (t3_flags t3)).2
        else push3 c (EntryAssign (td_name td) (Z.of_nat (td_id td)) (t3_seqNum t3) value (t3_flags t3)).

(** The topic an update is about: [m_topics[id]], if it is published *)
Definition known_topic (id : Z) : M (SImpl L) (option addr) :=
  let* s := get in
  match uid_get (s_topics s) (Z.to_nat id) with
  | None => ret None
  | Some t => let* td := topic t in ret (if IsPublished td then Some t else None)
  end.

Definition Client3_EntryUpdate (c : addr) (id seq_num : Z) (value : Value) : M (SImpl L) unit :=
  let* ot := known_topic id in
  match ot with
  | None => skip
  | Some t =>
      let* t3 := GetTopic3 c t in
      when (negb (t3_published t3))
        (let* pubuid := next_pubuid c in
         upd_topic3 c t (fun t3 => t3 <| t3_published := true |> <| t3_pubuid := pubuid |>) ;;
         publish3 c t pubuid ;; skip) ;;
      upd_topic3 c t (fun t3 => t3 <| t3_seqNum := seq_num |>) ;;
      SetValue (Some c) t value
  end.

Definition Client3_FlagsUpdate (c : addr) (id flags : Z) : M (SImpl L) unit :=
  let* ot := known_topic id in
  match ot with
  | None => skip
  | Some t => let* td := topic t in when (negb (td_special td)) (SetFlags (Some c) t flags)
  end.

(** The end of a publication: what [ClearEntries] and [EntryDelete] do if [published] *)
Definition unpublish3 (c t : addr) (pubuid : Z) : M (SImpl L) unit :=
  key64 pubuid ;;
  let* cd := client c in
  match cd_publishers cd !! pubuid with
  | None => skip
  | Some p => remove_publisher c t pubuid p
  end.
Definition unretain : gmap string jvalue := {["retained" := JBoolean false]}.

Definition Client3_EntryDelete (c : addr) (id : Z) : M (SImpl L) unit :=
  let* ot := known_topic id in
  match ot with
  | None => skip
  | Some t =>
      let* td := topic t in
      if td_special td then skip
      else
        let* k := get3 c in
        match k3_topics3 k !! t with
        | None => skip
        | Some t3 =>
            upd_topic3 c t (fun t3 => t3 <| t3_sentAssign := false |>) ;;
            when (t3_published t3)
              (upd_topic3 c t (fun t3 => t3 <| t3_published := false |>) ;; unpublish3 c t (t3_pubuid t3))
        end ;;
        SetProperties (Some c) t unretain
  end.

(** The loop is over copies of the elements of [m_topics3], so that its assignments to
    [sentAssign] and [published] do not reach them.  An element that is erased in the course
    of the loop is passed over. *)
Definition Client3_ClearEntries (c : addr) : M (SImpl L) unit :=
  let* k := get3 c in
  let* l := ptr_items (k3_topics3 k) in
  for_each l (fun '(t, _) =>
    let* k := get3 c in
    match k3_topics3 k !! t with
    | None => skip
    | Some t3 =>
        when (t3_published t3) (unpublish3 c t (t3_pubuid t3)) ;;
        SetProperties (Some c) t unretain
    end).

(** [MessageHandler3] *)
Definition running (c : addr) (msg : string) (m : M (SImpl L) unit) : M (SImpl L) (option string) :=
  let* ok := in_state c kStateRunning in if ok then accepted m else reject msg.
Definition call3_run (c : addr) (call : Call3) : M (SImpl L) (option string) :=
  match call with
  | KeepAlive => running c "received unexpected KeepAlive message" skip
  | ServerHelloDone => reject "received unexpected ServerHelloDone message"
  | ClientHelloDone =>
      let* ok := in_state c kStateServerHelloComplete in
      if ok then accepted (set_state c kStateRunning) else reject "received unexpected ClientHelloDone message"
  | ClearEntries => running c "received unexpected ClearEntries message" (Client3_ClearEntries c)
  | ProtoUnsup _ => reject "received unexpected ProtoUnsup message"
  | ClientHello _ proto_rev => Client3_ClientHello c proto_rev
  | ServerHello _ _ => reject "received unexpected ServerHello message"
  | EntryAssign name id _ value flags => accepted (Client3_EntryAssign c name id value flags)
  | EntryUpdate id seq_num value => running c "received unexpected EntryUpdate message" (Client3_EntryUpdate c id seq_num value)
  | FlagsUpdate id flags => running c "received unexpected FlagsUpdate message" (Client3_FlagsUpdate c id flags)
  | EntryDelete id => running c "received unexpected EntryDelete message" (Client3_EntryDelete c id)
  | ExecuteRpc _ _ _ | RpcResponse _ _ _ => accept
  end.

(** The handler the decoder of client [c] calls; its state is the server, or [None] after
    undefined behaviour. *)
Definition handler3 (c : addr) : MessageHandler3 (option (SImpl L)) := fun call os =>
  match os with
  | None => (None, None)
  | Some s => match call3_run c call s with Some (err, s) => (Some s, err) | None => (None, None) end
  end.

(** [times] are the readings of the clock by the decoder. *)
Definition Client3_ProcessIncomingBinary (times : nat -> Z) (c : addr) (data : bytes) : M (SImpl L) unit :=
   let* k := get3 c in
   let* s := get in
   let '(ok, (d, os, _)) := Execute times (H0 := handler3 c) (k3_decoder k) (Some s) data in
   let* s := deref os in
   modify (fun _ => s) ;;
   on3 c (fun k => k <| k3_decoder := d |>) ;;
   when (negb ok) (on3 c (fun k => k <| k3_wire ::= Disconnect3 (GetError d) |>)).

(** ** [ServerImpl] *)

Definition client_at (clientId : nat) : M (SImpl L) addr :=
  let* s := get in deref (default None (s_clients s !! clientId)).
Definition ProcessIncomingText (clientId : nat) (data : bytes) : M (SImpl L) unit :=
  let* c := client_at clientId in
  let* cd := client c in
  match cd_kind cd with K4 _ => Client4_ProcessIncomingText c data | _ => skip end.
Definition ProcessIncomingBinary (times : nat -> Z) (clientId : nat) (data : bytes) : M (SImpl L) unit :=
  let* c := client_at clientId in
  let* cd := client c in
  match cd_kind cd with
  | KLocal => skip
  | K4 _ => Client4_ProcessIncomingBinary c data
  | K3 _ => Client3_ProcessIncomingBinary times c data
  end.
End Nt3.
