(* ===== verification/ServerPersistent.v ===== *)
(** * ServerPersistent: the file of persistent topics ([net/ServerImpl.cpp])

    [DumpPersistent] writes the topics that are persistent and have a value as JSON;
    [LoadPersistent] creates topics from such a text. *)

From S2P Require Import Prelude NtTypes Monads LocalTypes Json JsonParser JsonRoundTrip Base64.
From S2P Require Import WireEncoder4 WireDecoder4 NetworkQueue UidVector ServerTypes ServerImpl.
From S2P Require Import Wire4Text.

Local Open Scope Z_scope.

(** ** Writing *)

Section Dump.
Context {JF : JsonFloat}.

Definition bool_text (b : bool) : bytes := lit (if b then "true" else "false").

(** Elements separated by a comma and a space *)
Definition dump_array (ts : list bytes) : bytes :=
  lbracket :: join (match ts with [] => [] | t :: ts => t :: (cons (u8 0x20) <$> ts) end) ++ [rbracket].

Definition DumpValue (value : Value) : option bytes :=
  match data value with
  | VBoolean b => Some (bool_text b)
  | VDouble x => Some (dump_float x)
  | VFloat x => Some (dump_float (f64_of_f32 x))
  | VInteger z => Some (dump_integer z)
  | VString s => qstr s
  | VRaw data => Some (quote :: Base64Encode data ++ [quote])
  | VBooleanArray arr => Some (dump_array ((fun v => bool_text (negb (v =? 0))) <$> arr))
  | VDoubleArray arr => Some (dump_array (dump_float <$> arr))
  | VFloatArray arr => Some (dump_array ((fun x => dump_float (f64_of_f32 x)) <$> arr))
  | VIntegerArray arr => Some (dump_array (dump_integer <$> arr))
  | VStringArray arr => ts ← mapM qstr arr; Some (dump_array ts)
  | VUnassigned => Some (lit "null")
  end.

(** The text of a topic *)
Definition member_line (k : string) (text : bytes) : bytes := newline 4 ++ qlit k ++ lit ": " ++ text.
Definition dump_topic (td : TopicData) : option bytes :=
  n ← qstr (td_name td); ty ← qstr (td_typeStr td); v ← DumpValue (td_lastValue td);
  p ← dump_pretty false 2 4 (obj_json (td_properties td));
  Some (lit "  {" ++ member_line "name" n ++ comma :: member_line "type" ty ++
        comma :: member_line "value" v ++ comma :: member_line "properties" p ++ newline 2 ++ [rbrace]).

(** Texts separated by a comma and a new line *)
Fixpoint join_lines (l : list bytes) : bytes :=
  match l with
  | [] => []
  | [x] => x
  | x :: l => x ++ comma :: u8 0x0a :: join_lines l
  end.
Definition is_dumped (td : TopicData) : bool := td_persistent td && is_assigned (td_lastValue td).
Definition dump_topics (tds : list TopicData) : option bytes :=
  ts ← mapM dump_topic (List.filter is_dumped tds);
  Some (lbracket :: u8 0x0a :: join_lines ts ++ [u8 0x0a; rbracket; u8 0x0a]).
End Dump.

(** ** Reading *)

Definition get_double (v : jvalue) : option Z := match v with JFloat x => Some x | _ => None end.

Definition mismatch (what : string) : string := "value type mismatch, expected " +:+ what.
(** An array of a type: elements of another type are passed over. *)
Definition load_array {A} (get : jvalue -> option A) (mk : list A -> ValueData) (v : jvalue) : string + ValueData :=
  match v with JArray l => inr (mk (omap get l)) | _ => inl (mismatch "array") end.

Definition load_value (typeStr : string) (v : jvalue) : string + ValueData :=
  if String.eqb typeStr "boolean" then or_error (VBoolean <$> get_bool v) (mismatch "boolean")
  else if String.eqb typeStr "int" then or_error (VInteger <$> get_int v) (mismatch "int")
  else if String.eqb typeStr "float" then or_error ((fun x => VFloat (f32_of_f64 x)) <$> get_double v) (mismatch "float")
  else if String.eqb typeStr "double" then or_error (VDouble <$> get_double v) (mismatch "double")
  else if String.eqb typeStr "string" || String.eqb typeStr "json" then
    or_error (VString <$> get_string v) (mismatch "string")
  else if String.eqb typeStr "boolean[]" then
    load_array (fun v => (fun b : bool => if b then 1 else 0) <$> get_bool v) VBooleanArray v
  else if String.eqb typeStr "int[]" then load_array get_int VIntegerArray v
  else if String.eqb typeStr "double[]" then load_array get_double VDoubleArray v
  else if String.eqb typeStr "float[]" then load_array (fun v => f32_of_f64 <$> get_double v) VFloatArray v
  else if String.eqb typeStr "string[]" then load_array get_string VStringArray v
  else match v with
       | JString s => inr (VRaw (Base64Decode s).2)
       | _ => inl (mismatch "string")
       end.

(** The name, type, properties and value of an item *)
Definition load_item (item : jvalue) : string + (string * string * gmap string jvalue * ValueData) :=
  match item with
  | JObject obj =>
      let? name := ObjGetString obj "name" in
      let? typeStr := ObjGetString obj "type" in
      let? props := or_error (find obj "properties") "no properties key" in
      match props with
      | JObject props =>
          let? persistent := or_error (find props "persistent") "no persistent property" in
          let? b := or_error (get_bool persistent) "persistent property is not boolean" in
          if negb b then inl "persistent property is false"
          else
            let? v := or_error (find obj "value") "no value key" in
            let? d := load_value typeStr v in
            inr (name, typeStr, members_obj props, d)
      | _ => inl "properties must be an object"
      end
  | _ => inl "expected item to be an object"
  end.

Section Persistent.
Context {L : Type} {LI : LocalInterface jvalue L} {EN : Env} {WC : WpiClock} {JF : JsonFloat} {MA : Machine}.

Definition DumpPersistent : M (SImpl L) bytes :=
  let* s := get in
  let* tds := for_map (uid_elements (s_topics s)) topic in
  deref (dump_topics tds).

(** [Value::MakeX(v, time)], which reads the clock if the time is 0 *)
Definition make_at (time : Z) (d : ValueData) : M (SImpl L) Value :=
  if time =? 0 then let* now := nt_Now in ret (Value_make now d 0) else ret (Value_make 0 d time).

(** The text of the errors of the item numbered [i] *)
Definition load_run (time : Z) (i : nat) (item : jvalue) : M (SImpl L) string :=
  match load_item item with
  | inl error => ret (pretty i +:+ ": " +:+ error +:+ string_of_bytes [u8 0x0a])
  | inr (name, typeStr, props, d) =>
      let* value := make_at time d in
      let* t := CreateTopic None name typeStr props in
      SetValue None t value ;;
      ret EmptyString
  end.
Fixpoint load_items (time : Z) (i : nat) (l : list jvalue) : M (SImpl L) string :=
  match l with
  | [] => ret EmptyString
  | item :: l => let* e := load_run time i item in let* es := load_items time (S i) l in ret (e +:+ es)
  end.

(** [parse_what] is the text of the exception for a text that is not JSON. *)
Definition LoadPersistent (parse_what : bytes -> string) (text : bytes) : M (SImpl L) string :=
  match text with
  | [] => ret EmptyString
  | _ =>
      match json_parse text with
      | PError => ret ("could not decode JSON: " +:+ parse_what text)
      | POk (JArray l) _ =>
          let* s := get in
          let* time := nt_Now in
          let* allerrors := load_items time 0 l in
          modify (fun s' => s' <| s_persistentChanged := s_persistentChanged s |>) ;;
          ret allerrors
      | POk _ _ => ret "expected JSON array at top level"
      | PRange | PFuel => deref None
      end
  end.
End Persistent.

(** * PersistRoundTrip: what [DumpPersistent] writes is what [LoadPersistent] restores

    The text [DumpPersistent] writes is the JSON of [topics_json]; [LoadPersistent] reads
    each topic of it back with its name, type, properties and value. *)

Local Open Scope Z_scope.

(** ** The JSON of a topic *)

Definition value_json (d : ValueData) : jvalue :=
  match d with
  | VBoolean b => JBoolean b
  | VDouble x => JFloat x
  | VFloat x => JFloat (f64_of_f32 x)
  | VInteger z => JInteger z
  | VString s => jstr s
  | VRaw data => JString (Base64Encode data)
  | VBooleanArray arr => JArray ((fun v => JBoolean (negb (v =? 0))) <$> arr)
  | VDoubleArray arr => JArray (JFloat <$> arr)
  | VFloatArray arr => JArray ((fun x => JFloat (f64_of_f32 x)) <$> arr)
  | VIntegerArray arr => JArray (JInteger <$> arr)
  | VStringArray arr => JArray (jstr <$> arr)
  | VUnassigned => JNull
  end.

Definition member (k : string) (v : jvalue) : bytes * jvalue := (bytes_of_string k, v).
Definition topic_members (td : TopicData) : object :=
  [member "name" (jstr (td_name td)); member "type" (jstr (td_typeStr td));
   member "value" (value_json (data (td_lastValue td))); member "properties" (obj_json (td_properties td))].
Definition topic_json (td : TopicData) : jvalue := JObject (topic_members td).

(** Numbers that fit their types and are finite *)
Definition bits64 (x : Z) : bool := (0 <=? x) && (x <? 2 ^ 64) && isfinite x.
Definition exact32 (x : Z) : bool := bits64 (f64_of_f32 x) && (f32_of_f64 (f64_of_f32 x) =? x).

(** The types a value is read back for; raw data is what any other type name stands for. *)
Definition scalar_types : list string :=
  ["boolean"; "int"; "float"; "double"; "string"; "json"; "boolean[]"; "int[]"; "double[]"; "float[]"; "string[]"].
Definition storable_value (typeStr : string) (d : ValueData) : bool :=
  match d with
  | VBoolean _ => String.eqb typeStr "boolean"
  | VInteger z => String.eqb typeStr "int" && int64 z
  | VFloat x => String.eqb typeStr "float" && exact32 x
  | VDouble x => String.eqb typeStr "double" && bits64 x
  | VString _ => String.eqb typeStr "string" || String.eqb typeStr "json"
  | VRaw _ => forallb (fun t => negb (String.eqb typeStr t)) scalar_types
  | VBooleanArray l => String.eqb typeStr "boolean[]" && forallb (fun v => (v =? 0) || (v =? 1)) l
  | VIntegerArray l => String.eqb typeStr "int[]" && forallb int64 l
  | VDoubleArray l => String.eqb typeStr "double[]" && forallb bits64 l
  | VFloatArray l => String.eqb typeStr "float[]" && forallb exact32 l
  | VStringArray _ => String.eqb typeStr "string[]"
  | VUnassigned => false
  end.

(** A topic that can be stored: its value is of its type, and its properties have the
    property "persistent". *)
Definition storable (td : TopicData) : bool :=
  storable_value (td_typeStr td) (data (td_lastValue td)) &&
  json_ok (obj_json (td_properties td)) &&
  match td_properties td !! "persistent" with Some (JBoolean true) => true | _ => false end.

(** ** Values *)

Lemma omap_fmap_id {A B} (f : A -> B) (g : B -> option A) l :
  (forall x, In x l -> g (f x) = Some x) -> omap g (f <$> l) = l.
Proof.
  induction l as [|x l IH]; intros E; cbn; [done|]. rewrite E by (by left). f_equal. apply IH. intros y Hy. apply E. by right.
Qed.

Lemma norm_float x : bits64 x = true -> norm (JFloat x) = JFloat x.
Proof. unfold bits64. rewrite andb_true_iff. intros [_ E]. cbn. by rewrite E. Qed.

Lemma load_array_norm {A} (get : jvalue -> option A) mk (f : A -> jvalue) l :
  (forall x, In x l -> get (norm (f x)) = Some x) -> load_array get mk (norm (JArray (f <$> l))) = inr (mk l).
Proof. intros E. cbn [norm load_array]. do 2 f_equal. rewrite <- list_fmap_compose. by apply omap_fmap_id. Qed.

(** The branch of [load_value] for a type *)
Ltac load_branch Hs :=
  repeat match type of Hs with
    | _ /\ _ => let E := fresh "E" in destruct Hs as [E Hs]; apply String.eqb_eq in E as ->
    | String.eqb _ _ = true \/ _ => destruct Hs as [Hs|Hs]; apply String.eqb_eq in Hs as ->
    | String.eqb _ _ = true => apply String.eqb_eq in Hs as ->
    end.

Lemma exact32_read x : exact32 x = true -> (fun v => f32_of_f64 <$> get_double v) (norm (JFloat (f64_of_f32 x))) = Some x.
Proof.
  unfold exact32. rewrite andb_true_iff. intros [H1 H2%Z.eqb_eq]. rewrite norm_float by done. cbn [get_double fmap option_fmap option_map].
  by rewrite H2.
Qed.

Lemma load_value_norm typeStr d : storable_value typeStr d = true -> load_value typeStr (norm (value_json d)) = inr d.
Proof.
  unfold storable_value, load_value. destruct d; rewrite ?andb_true_iff, ?orb_true_iff; intros Hs; load_branch Hs; try done;
    cbn [String.eqb Ascii.eqb Bool.eqb orb value_json]; try rewrite forallb_forall in Hs.
  - by rewrite get_int_norm.
  - pose proof (exact32_read _ Hs) as E. cbv beta in E. destruct (get_double _) as [y|]; [|discriminate E].
    cbn [fmap option_fmap option_map or_error] in E |- *. by injection E as ->.
  - by rewrite norm_float.
  - change (norm (jstr s)) with (jstr s). by rewrite get_string_jstr.
  - change (norm (jstr s)) with (jstr s). by rewrite get_string_jstr.
  - rewrite <- forallb_forall in Hs. cbn [forallb scalar_types] in Hs. rewrite !andb_true_iff, !negb_true_iff in Hs.
    destruct Hs as (-> & -> & -> & -> & -> & -> & -> & -> & -> & -> & -> & _). cbn [orb norm]. by rewrite base64_decode_encode.
  - apply load_array_norm. intros x Hx. specialize (Hs x Hx). apply orb_true_iff in Hs as [->%Z.eqb_eq| ->%Z.eqb_eq]; done.
  - apply load_array_norm. intros x Hx. by apply get_int_norm, Hs.
  - apply (load_array_norm _ _ (fun x => JFloat (f64_of_f32 x))). intros x Hx. by apply exact32_read, Hs.
  - apply load_array_norm. intros x Hx. by rewrite norm_float by (by apply Hs).
  - apply load_array_norm. intros x Hx. apply get_string_jstr.
Qed.

(** ** Texts *)

(** A text of characters JSON does not escape *)
Definition plain_char (b : byte) : bool :=
  (0x20 <=? ub b) && (ub b <? 0x7f) && negb (ub b =? 0x22) && negb (ub b =? 0x5c).
Lemma dump_plain s cp : forallb plain_char s = true -> dump_escaped_loop false s UTF8_ACCEPT cp = Some s.
Proof.
  revert cp. induction s as [|b s IH]; intros cp; cbn [forallb]; [done|]. intros [Hb Hs]%andb_true_iff. cbn [dump_escaped_loop].
  assert (decode UTF8_ACCEPT cp b = (UTF8_ACCEPT, ub b) /\ dump_codepoint false (ub b) b = [b]) as [-> E]
    by (destruct b; first [discriminate Hb|by split]).
  change (UTF8_ACCEPT =? UTF8_REJECT) with false. cbv iota. rewrite IH by done. 
  change (UTF8_ACCEPT =? UTF8_ACCEPT) with true. cbv iota. cbn [mbind option_bind]. by rewrite E.
Qed.
Lemma quoted_plain s : forallb plain_char s = true -> quoted false s = Some (quote :: s ++ [quote]).
Proof. intros Hs. unfold quoted, dump_escaped. by rewrite dump_plain. Qed.

Lemma digit64_plain b : is_digit64 b = true -> plain_char b = true.
Proof. destruct b; first [done|discriminate]. Qed.
Lemma base64_plain d : forallb plain_char (Base64Encode d) = true.
Proof.
  induction d as [d IH] using (induction_ltof1 _ (@length byte)). unfold ltof in IH. destruct d as [|a [|b [|c rest]]]; [done| | |].
  - destruct (last1_bytes a) as (_ & D1%digit64_plain & D2%digit64_plain). cbn [Base64Encode forallb]. by rewrite D1, D2.
  - destruct (last2_bytes a b) as (_ & _ & D1%digit64_plain & D2%digit64_plain & D3%digit64_plain). cbn [Base64Encode forallb].
    by rewrite D1, D2, D3.
  - destruct (group_bytes a b c) as (_ & _ & _ & D1%digit64_plain & D2%digit64_plain & D3%digit64_plain & D4%digit64_plain).
    cbn [Base64Encode forallb]. rewrite D1, D2, D3, D4. apply IH. cbn. lia.
Qed.

Section Texts.
Context {JF : JsonFloat} {JFL : JsonFloatLaws}.

Lemma scalar_parses v t : json_ok v = true -> dump false v = Some t -> value_parses v t.
Proof. intros Hok. by apply parses_dump. Qed.

(** An array with a space after each comma *)
Lemma dump_array_parses l ts : Forall2 value_parses l ts -> value_parses (JArray l) (dump_array ts).
Proof.
  intros Hl rest Hr. unfold dump_array. apply (parses_array []); [done|]. destruct Hl as [|v t l ts Hv Hl]; [done|].
  constructor; [done|]. apply Forall2_fmap_r. eapply Forall2_weaken; [exact Hl|].
  intros x y _ Hx. by apply (value_parses_blank _ [u8 0x20]).
Qed.
Lemma dump_array_map {A} (f : A -> jvalue) (g : A -> bytes) l :
  (forall x, In x l -> value_parses (f x) (g x)) -> value_parses (JArray (f <$> l)) (dump_array (g <$> l)).
Proof.
  intros E. apply dump_array_parses. apply Forall2_fmap, Forall_Forall2_diag. apply Forall_forall.
  intros x Hx. apply E. by apply list_elem_of_In.
Qed.

Lemma value_text_parses typeStr v t : storable_value typeStr (data v) = true -> DumpValue v = Some t ->
  value_parses (value_json (data v)) t.
Proof.
  unfold storable_value, DumpValue. destruct (data v) as [| | | | | | |arr|arr|arr|arr|arr];
    rewrite ?andb_true_iff; intros Hs Hd; try apply (inj Some) in Hd as <-; cbn [value_json]; try done;
    try (apply proj2 in Hs; rewrite ?forallb_forall in Hs).
  - by apply scalar_parses.
  - by apply scalar_parses.
  - apply andb_true_iff in Hs as [Hs _]. apply scalar_parses; [|done]. by apply andb_true_iff in Hs as [? _].
  - apply scalar_parses; [|done]. by apply andb_true_iff in Hs as [? _].
  - by apply scalar_parses.
  - apply scalar_parses; [done|]. cbn [dump]. apply quoted_plain, base64_plain.
  - apply dump_array_map. intros x _. by apply scalar_parses.
  - apply dump_array_map. intros x Hx. apply scalar_parses; [|done]. by apply Hs.
  - apply (dump_array_map (fun x => JFloat (f64_of_f32 x))). intros x Hx. specialize (Hs x Hx).
    apply andb_true_iff in Hs as [Hs _]. apply scalar_parses; [|done]. by apply andb_true_iff in Hs as [? _].
  - apply dump_array_map. intros x Hx. specialize (Hs x Hx). apply scalar_parses; [|done]. by apply andb_true_iff in Hs as [? _].
  - apply bind_Some in Hd as (ts & Hts & [= <-]). apply dump_array_parses, Forall2_fmap_l. apply mapM_Some in Hts.
    eapply Forall2_weaken; [exact Hts|]. intros x y _ E. by apply scalar_parses.
Qed.

Lemma line_parses (k : string) v u : quoted false (bytes_of_string k) = Some (qlit k) -> value_parses v u ->
  member_parses (member k v) (member_line k u).
Proof.
  intros Hk Hv. exists (newline 4), (qlit k), (u8 0x20 :: u). split_and!; [apply newline_blank|done| |done].
  by apply (value_parses_blank _ [u8 0x20]).
Qed.

Lemma topic_text_parses td t : storable td = true -> dump_topic td = Some t -> value_parses (topic_json td) t.
Proof.
  unfold storable, dump_topic. rewrite !andb_true_iff. intros [[Hv Hp] _] Hd.
  apply bind_Some in Hd as (n & Hn & Hd). apply bind_Some in Hd as (ty & Hty & Hd).
  apply bind_Some in Hd as (v & Ev & Hd). apply bind_Some in Hd as (p & Ep & Hd). apply (inj Some) in Hd as <-.
  intros rest Hr. change (lit "  {") with ([u8 0x20; u8 0x20] ++ [u8 0x7b]). unfold parses.
  rewrite <- !app_assoc, scan_blank by done.
  pose proof (parses_object (newline 2) (topic_members td)
    [member_line "name" n; member_line "type" ty; member_line "value" v; member_line "properties" p] rest) as Hpo.
  unfold parses in Hpo. cbn [Json.join] in Hpo. repeat first [rewrite <- app_assoc in Hpo|progress cbn [app] in Hpo].
  repeat first [rewrite <- app_assoc|progress cbn [app]]. apply Hpo; [apply newline_blank|].
  repeat constructor; apply line_parses; try done.
  - by apply scalar_parses.
  - by apply scalar_parses.
  - by eapply value_text_parses.
  - by eapply parses_pretty.
Qed.

Lemma join_lines_join t ts : u8 0x0a :: join_lines (t :: ts) = Json.join (cons (u8 0x0a) <$> (t :: ts)).
Proof.
  revert t. induction ts as [|t' ts IH]; intros t; [done|]. specialize (IH t').
  change (join_lines (t :: t' :: ts)) with (t ++ comma :: u8 0x0a :: join_lines (t' :: ts)). rewrite IH. reflexivity.
Qed.

Lemma skip_bom_other b s : ub b <> 0xef -> skip_bom (b :: s) = b :: s.
Proof. intros Hb. destruct s as [|b2 [|b3 s]]; [done|done|]. cbn [skip_bom]. by destruct (Z.eqb_spec (ub b) 0xef). Qed.

Definition dumped (tds : list TopicData) : list TopicData := List.filter is_dumped tds.

Lemma dump_topics_parses tds t : forallb storable (dumped tds) = true -> dump_topics tds = Some t ->
  json_parse t = POk (JArray (norm <$> (topic_json <$> dumped tds))) [].
Proof.
  unfold dump_topics, dumped. intros Hs Hd. apply bind_Some in Hd as (ts & Hts & Hd). apply (inj Some) in Hd as <-.
  apply mapM_Some in Hts. rewrite forallb_forall in Hs.
  assert (Forall2 value_parses (topic_json <$> List.filter is_dumped tds) ts) as Hv.
  { apply Forall2_fmap_l. eapply Forall2_weaken; [exact Hts|]. intros x y Hx E. apply topic_text_parses; [|done].
    apply Hs. by apply list_elem_of_In. }
  apply (json_parse_parses _ _ [u8 0x0a]); [|done|by apply skip_bom_other]. revert Hv. generalize (topic_json <$> List.filter is_dumped tds).
  intros l Hv. clear Hts. destruct ts as [|t ts].
  - apply Forall2_nil_inv_r in Hv as ->. by exists 2%nat.
  - pose proof (parses_array [u8 0x0a] l (cons (u8 0x0a) <$> (t :: ts)) [u8 0x0a]) as Hp. rewrite <- join_lines_join in Hp.
    unfold parses in Hp |- *. cbn [app] in Hp. rewrite <- app_assoc in Hp. apply Hp; [done|].
    apply Forall2_fmap_r. eapply Forall2_weaken; [exact Hv|]. intros x y _ Hx. by apply (value_parses_blank _ [u8 0x0a]).
Qed.

End Texts.

(** ** Items *)

Lemma find_obj_members (m : gmap string jvalue) (k : string) : find (obj_members m) k = m !! k.
Proof.
  unfold find, obj_members. rewrite find_fold by done. cbn [obj_find].
  rewrite <- (list_to_map_to_list m) at 2. induction (map_to_list m) as [|[k' v] l IH]; cbn; [done|].
  destruct (decide (k = k')) as [<-|Hk]; [by rewrite bool_decide_eq_true_2, lookup_insert_eq|].
  rewrite bool_decide_eq_false_2, lookup_insert_ne; [done|done|].
  intros E. change (bytes_of_string k = bytes_of_string k') in E. apply (f_equal string_of_bytes) in E.
  by rewrite !string_of_bytes_of_string in E.
Qed.

(** The properties come back with their numbers as JSON has them ([norm]). *)
Definition restored (td : TopicData) : string * string * gmap string jvalue * ValueData :=
  (td_name td, td_typeStr td, norm <$> td_properties td, data (td_lastValue td)).

Lemma load_item_norm td : storable td = true -> load_item (norm (topic_json td)) = inr (restored td).
Proof.
  unfold storable. rewrite !andb_true_iff. intros [[Hv _] Hp]. unfold topic_json. rewrite norm_object. cbn [load_item].
  rewrite (obj_get_string _ _ (td_name td)) by reflexivity. cbn [err_bind].
  rewrite (obj_get_string _ _ (td_typeStr td)) by reflexivity. cbn [err_bind].
  rewrite (find_read _ _ (obj_json (td_properties td))) by reflexivity. rewrite norm_obj_json. cbn [or_error err_bind obj_json].
  rewrite find_obj_members, lookup_fmap. destruct (td_properties td !! "persistent") as [v|]; [|done]. destruct v as [|[]| | | | | |]; try done.
  cbn [fmap option_fmap option_map norm or_error err_bind get_bool negb].
  rewrite (find_read _ _ (value_json (data (td_lastValue td)))) by reflexivity. cbn [or_error err_bind].
  rewrite load_value_norm by done. cbn [err_bind]. by rewrite members_obj_members.
Qed.

(** ** Loading *)

Section Restore.
Context {L : Type} {LI : LocalInterface jvalue L} {EN : Env} {WC : WpiClock} {JF : JsonFloat} {MA : Machine}.
Context {JFL : JsonFloatLaws}.

(** What loading does for a topic, and for a list of topics *)
Definition restore_topic (time : Z) (td : TopicData) : M (SImpl L) unit :=
  let* value := make_at time (data (td_lastValue td)) in
  let* t := CreateTopic None (td_name td) (td_typeStr td) (norm <$> td_properties td) in
  SetValue None t value.
Definition restore_topics (tds : list TopicData) : M (SImpl L) unit :=
  let* s := get in
  let* time := nt_Now in
  for_each tds (restore_topic time) ;;
  modify (fun s' => s' <| s_persistentChanged := s_persistentChanged s |>).

Lemma load_run_restore time i td s : storable td = true ->
  load_run time i (norm (topic_json td)) s = (restore_topic time td ;; ret EmptyString) s.
Proof.
  intros Hs. unfold load_run. rewrite load_item_norm by done. unfold restored, restore_topic, bind, ret.
  destruct (make_at time _ s) as [[v s1]|]; [|done]. destruct (CreateTopic None _ _ _ s1) as [[t s2]|]; [|done].
  by destruct (SetValue None t v s2) as [[[] s3]|].
Qed.

Lemma load_items_restore time tds i s : forallb storable tds = true ->
  load_items time i (norm <$> (topic_json <$> tds)) s = (for_each tds (restore_topic time) ;; ret EmptyString) s.
Proof.
  revert i s. induction tds as [|td tds IH]; intros i s; cbn [forallb]; [done|]. intros [Hs Hl]%andb_true_iff.
  cbn [fmap list_fmap load_items for_each]. unfold bind at 1. rewrite load_run_restore by done. unfold bind, ret.
  destruct (restore_topic time td s) as [[[] s1]|]; [|done]. setoid_rewrite IH; [|done]. unfold bind, ret.
  by destruct (for_each tds (restore_topic time) s1) as [[[] s2]|].
Qed.

Lemma load_dumped what tds text s : dump_topics tds = Some text -> forallb storable (dumped tds) = true ->
  LoadPersistent what text s = (restore_topics (dumped tds) ;; ret EmptyString) s.
Proof.
  intros Hd Hs. pose proof (dump_topics_parses _ _ Hs Hd) as Hp. unfold LoadPersistent.
  destruct text as [|b text]; [by apply bind_Some in Hd as (? & _ & [=])|]. rewrite Hp.
  unfold restore_topics, bind, get. destruct (nt_Now s) as [[time s1]|]; [|done].
  rewrite load_items_restore by done. unfold bind, ret.
  by destruct (for_each (dumped tds) (restore_topic time) s1) as [[[] s2]|].
Qed.

End Restore.
