(* ===== verification/ServerCore.v ===== *)
(** * ServerCore: the structure of the server, and what keeps it

    The core of a state is the objects of the server and how they refer to each other; it
    leaves out values, queues and what has been announced.  Sending does not change it
    ([quiet]), and needs of it that no pointer dangles ([core_ok]). *)

From S2P Require Import Prelude NtTypes Monads LocalTypes Json JsonParser JsonRoundTrip Events.
From S2P Require Import WireEncoder4 WireEncoder3 WireDecoder4 ServerTypes WireConnection4.
From S2P Require Import NetworkQueue UidVector ServerImpl Mpack.

Local Open Scope Z_scope.

(** ** The object behind [LocalInterface] *)

(** Its calls are free of undefined behaviour in states [li_ok], which they keep. *)
Class LocalInterfaceSafe (J L : Type) `{LocalInterface J L} := {
  li_ok : L -> Prop;
  li_ok_announce name typeStr properties h l : li_ok l ->
    wp (li_NetworkAnnounce name typeStr properties h) (fun _ l' => li_ok l') l;
  li_ok_unannounce name l : li_ok l -> wp (li_NetworkUnannounce name) (fun _ l' => li_ok l') l;
  li_ok_properties name update ack l : li_ok l -> wp (li_NetworkPropertiesUpdate name update ack) (fun _ l' => li_ok l') l;
  li_ok_value h value l : li_ok l -> wp (li_NetworkSetValue h value) (fun _ l' => li_ok l') l;
}.
#[global] Hint Mode LocalInterfaceSafe - ! - : typeclass_instances.

(** ** The core *)

Record Core := MkCore {
  co_topics : gmap addr TopicData;
  co_pubs : gmap addr PublisherData;
  co_subs : gmap addr SubscriberData;
  co_clients : gmap addr ClientData;
  co_slots : list (option addr);
  co_vec : UidVector addr;
  co_names : gmap string addr;
  co_localClient : addr;
  co_metaClients : option addr;
}.
#[global] Instance eta_Core : Eta Core := fun C =>
  MkCore (co_topics C) (co_pubs C) (co_subs C) (co_clients C) (co_slots C) (co_vec C) (co_names C)
    (co_localClient C) (co_metaClients C).

Definition td_core (td : TopicData) : TopicData :=
  td <| td_lastValue := Value_empty |> <| td_lastValueClient := None |> <| td_localHandle := 0 |>.
Definition kind_core (k : Kind) : Kind :=
  match k with
  | KLocal => KLocal
  | K4 _ => K4 (MkClient4 WebSocketConnection_make [] ∅ false false)
  | K3 _ => K3 (MkClient3 UvStreamConnection3_make kStateInitial WireDecoder3.WDImpl_init [] ∅ 0 ∅ [])
  end.
Definition cd_core (cd : ClientData) : ClientData :=
  cd <| cd_setPeriodic := [] |> <| cd_periodMs := 0 |> <| cd_lastSendMs := 0 |> <| cd_announceSent := ∅ |>
     <| cd_kind ::= kind_core |>.

Section Core.
Context {L : Type} {LI : LocalInterface jvalue L} {LS : LocalInterfaceSafe jvalue L}.
Context {EN : Env} {WC : WpiClock} {JF : JsonFloat} {MA : Machine}.

Definition core_of (s : SImpl L) : Core :=
  MkCore (td_core <$> s_topicHeap s) (s_pubHeap s) (s_subHeap s) (cd_core <$> s_clientHeap s) (s_clients s)
    (s_topics s) (s_nameTopics s) (s_localClient s) (s_metaClients s).

(** A message that can be encoded *)
Definition msg_ok (msg : ServerMessage jvalue) : Prop := is_Some (WireEncodeText_server msg).
(** The object behind the interface is in a good state, and what is queued can be sent. *)
Record live (s : SImpl L) : Prop := {
  live_store : li_ok (s_store s);
  live_queue c cd k : s_clientHeap s !! c = Some cd -> cd_kind cd = K4 k -> Forall msg_ok (k4_outgoing k);
}.

(** ** References to meta topics *)

Inductive ref := RTopic (sub : bool) (t : addr) | RClient (sub : bool) (c : addr) | RClients.
#[global] Instance ref_eq_dec : EqDecision ref.
Proof. solve_decision. Defined.

(** What a reference points to, and the name it has to have *)
Definition ref_info (C : Core) (r : ref) : option (addr * string) :=
  match r with
  | RTopic sub t =>
      td ← co_topics C !! t; m ← (if sub then td_metaSub td else td_metaPub td);
      Some (m, (if sub then "$sub$" else "$pub$") +:+ td_name td)
  | RClient sub c =>
      cd ← co_clients C !! c; m ← (if sub then cd_metaSub cd else cd_metaPub cd);
      Some (m, if bool_decide (c = co_localClient C) then (if sub then "$serversub" else "$serverpub")
               else (if sub then "$clientsub$" else "$clientpub$") +:+ cd_name cd)
  | RClients => m ← co_metaClients C; Some (m, "$clients")
  end.

(** The text of a topic can be written as JSON. *)
Definition topic_text (td : TopicData) : Prop :=
  is_Some (qstr (td_name td)) /\ is_Some (qstr (td_typeStr td)) /\ is_Some (dump_obj (td_properties td)).

Definition is_meta_name (name : string) : bool := String.prefix "$" name.

(** ** No pointer dangles *)

(** But for the publishers of the client [x], which is about to go, and the references [R]. *)
Record core_ok (x : option addr) (R : ref -> Prop) (C : Core) : Prop := {
  ok_uids : uid_ok (co_vec C);
  ok_slot t td : co_topics C !! t = Some td -> uid_get (co_vec C) (td_id td) = Some t;
  ok_vector i t : uid_get (co_vec C) i = Some t -> exists td, co_topics C !! t = Some td /\ td_id td = i;
  ok_named t td : co_topics C !! t = Some td -> co_names C !! td_name td = Some t;
  ok_names n t : co_names C !! n = Some t -> exists td, co_topics C !! t = Some td /\ td_name td = n;
  ok_pubs t td p : co_topics C !! t = Some td -> p ∈ td_publishers td ->
    exists pb, co_pubs C !! p = Some pb /\ pb_topic pb = t;
  ok_subs t td b : co_topics C !! t = Some td -> b ∈ td_subscribers td -> is_Some (co_subs C !! b);
  ok_pub p pb : co_pubs C !! p = Some pb ->
    (exists cd, co_clients C !! pb_client pb = Some cd /\ cd_publishers cd !! pb_pubuid pb = Some p) /\
    (Some (pb_client pb) <> x -> exists td, co_topics C !! pb_topic pb = Some td /\ p ∈ td_publishers td);
  ok_sub b sb : co_subs C !! b = Some sb ->
    exists cd, co_clients C !! sb_client sb = Some cd /\ cd_subscribers cd !! sb_subuid sb = Some b;
  ok_cpubs c cd uid p : co_clients C !! c = Some cd -> cd_publishers cd !! uid = Some p ->
    exists pb, co_pubs C !! p = Some pb /\ pb_client pb = c /\ pb_pubuid pb = uid;
  ok_csubs c cd uid b : co_clients C !! c = Some cd -> cd_subscribers cd !! uid = Some b ->
    exists sb, co_subs C !! b = Some sb /\ sb_client sb = c /\ sb_subuid sb = uid;
  ok_clients c cd : co_clients C !! c = Some cd -> co_slots C !! cd_id cd = Some (Some c);
  ok_slots i c : co_slots C !! i = Some (Some c) -> exists cd, co_clients C !! c = Some cd /\ cd_id cd = i;
  ok_local : co_slots C !! O = Some (Some (co_localClient C));
  ok_kind c cd : co_clients C !! c = Some cd ->
    match cd_kind cd with
    | KLocal => c = co_localClient C
    | K4 _ => c <> co_localClient C /\ exists base, cd_name cd = base +:+ "@" +:+ pretty (cd_id cd)
    | K3 _ => False
    end;
  ok_meta r m n : ref_info C r = Some (m, n) -> ~ R r -> exists td, co_topics C !! m = Some td /\ td_name td = n;
  ok_special t td : co_topics C !! t = Some td -> td_special td = is_meta_name (td_name td);
  ok_plain t td : co_topics C !! t = Some td -> td_special td = true ->
    td_metaPub td = None /\ td_metaSub td = None /\ td_retained td = true /\ td_publishers td = [];
  ok_text t td : co_topics C !! t = Some td -> topic_text td;
}.

(** Sending keeps the core. *)
Definition quiet (s s' : SImpl L) : Prop := core_of s' = core_of s /\ live s'.

(** ** Reading *)

Implicit Types s : SImpl L.

Lemma quiet_refl s : live s -> quiet s s.
Proof. done. Qed.
Lemma quiet_trans s1 s2 s3 : quiet s1 s2 -> quiet s2 s3 -> quiet s1 s3.
Proof. intros [E1 _] [E2 HL]. split; [congruence|done]. Qed.

Lemma wp_heap_topic s t td Q : s_topicHeap s !! t = Some td -> Q td s -> wp (topic t) Q s.
Proof. intros E HQ. unfold topic. repeat wp_step; eauto. Qed.
Lemma wp_client s c cd Q : s_clientHeap s !! c = Some cd -> Q cd s -> wp (client c) Q s.
Proof. intros E HQ. unfold client. repeat wp_step; eauto. Qed.
Lemma wp_pub s p pb Q : s_pubHeap s !! p = Some pb -> Q pb s -> wp (pub p) Q s.
Proof. intros E HQ. unfold pub. repeat wp_step; eauto. Qed.
Lemma wp_sub s b sb Q : s_subHeap s !! b = Some sb -> Q sb s -> wp (sub b) Q s.
Proof. intros E HQ. unfold sub. repeat wp_step; eauto. Qed.

Lemma core_topic s t td : co_topics (core_of s) !! t = Some td ->
  exists td', s_topicHeap s !! t = Some td' /\ td_core td' = td.
Proof. cbn. intros E. apply lookup_fmap_Some in E as (td' & <- & E). eauto. Qed.
Lemma core_client s c cd : co_clients (core_of s) !! c = Some cd ->
  exists cd', s_clientHeap s !! c = Some cd' /\ cd_core cd' = cd.
Proof. cbn. intros E. apply lookup_fmap_Some in E as (cd' & <- & E). eauto. Qed.
Lemma topic_core s t td : s_topicHeap s !! t = Some td -> co_topics (core_of s) !! t = Some (td_core td).
Proof. cbn. rewrite lookup_fmap. by intros ->. Qed.
Lemma client_core s c cd : s_clientHeap s !! c = Some cd -> co_clients (core_of s) !! c = Some (cd_core cd).
Proof. cbn. rewrite lookup_fmap. by intros ->. Qed.

Definition has_topic (s : SImpl L) (t : addr) : Prop := is_Some (co_topics (core_of s) !! t).
Definition has_client (s : SImpl L) (c : addr) : Prop := is_Some (co_clients (core_of s) !! c).
Lemma has_topic_heap s t : has_topic s t <-> is_Some (s_topicHeap s !! t).
Proof. unfold has_topic. cbn. by rewrite lookup_fmap, fmap_is_Some. Qed.
Lemma has_client_heap s c : has_client s c <-> is_Some (s_clientHeap s !! c).
Proof. unfold has_client. cbn. by rewrite lookup_fmap, fmap_is_Some. Qed.
Lemma quiet_topic s s' t : quiet s s' -> has_topic s t -> has_topic s' t.
Proof. intros [E _]. unfold has_topic. by rewrite E. Qed.
Lemma quiet_client s s' c : quiet s s' -> has_client s c -> has_client s' c.
Proof. intros [E _]. unfold has_client. by rewrite E. Qed.

(** ** Code that keeps the core *)

Definition keeps_core {A} (m : M (SImpl L) A) (s : SImpl L) : Prop := wp m (fun _ s' => quiet s s') s.

Lemma kc_ret {A} (a : A) s : live s -> keeps_core (ret a) s.
Proof. done. Qed.
Lemma kc_bind {A B} (m : M (SImpl L) A) (k : A -> M (SImpl L) B) s :
  keeps_core m s -> (forall a s', quiet s s' -> keeps_core (k a) s') -> keeps_core (bind m k) s.
Proof.
  intros Hm Hk. apply wp_bind. eapply wp_mono; [exact Hm|]. intros a s' Hq. cbv beta in *.
  eapply wp_mono; [by apply Hk|]. intros b s'' Hq'. by eapply quiet_trans.
Qed.
Lemma kc_get {B} (k : SImpl L -> M (SImpl L) B) s : keeps_core (k s) s -> keeps_core (bind get k) s.
Proof. intros Hk. apply wp_bind. by apply wp_get. Qed.
Lemma kc_topic {B} (k : TopicData -> M (SImpl L) B) s t : has_topic s t ->
  (forall td, s_topicHeap s !! t = Some td -> keeps_core (k td) s) -> keeps_core (bind (topic t) k) s.
Proof. intros [td E]%has_topic_heap Hk. apply wp_bind. eapply wp_heap_topic; [done|]. by apply Hk. Qed.
Lemma kc_client {B} (k : ClientData -> M (SImpl L) B) s c : has_client s c ->
  (forall cd, s_clientHeap s !! c = Some cd -> keeps_core (k cd) s) -> keeps_core (bind (client c) k) s.
Proof. intros [cd E]%has_client_heap Hk. apply wp_bind. eapply wp_client; [done|]. by apply Hk. Qed.
Lemma kc_when (b : bool) m s : live s -> (b = true -> keeps_core m s) -> keeps_core (when b m) s.
Proof. intros HL Hm. destruct b; [by apply Hm|by apply kc_ret]. Qed.
Lemma kc_for_each {X} (l : list X) body s : live s ->
  (forall x s', x ∈ l -> quiet s s' -> keeps_core (body x) s') -> keeps_core (for_each l body) s.
Proof.
  intros HL Hb. apply (wp_for_each_inv l body (fun s' => quiet s s')); [by apply quiet_refl| |done].
  intros x s' Hx Hq. eapply wp_mono; [by apply Hb|]. intros [] s'' Hq'. by eapply quiet_trans.
Qed.
Lemma kc_for_map {X A} (l : list X) (body : X -> M (SImpl L) A) s : live s ->
  (forall x s', x ∈ l -> quiet s s' -> keeps_core (body x) s') -> keeps_core (for_map l body) s.
Proof.
  revert s. induction l as [|x l IH]; intros s HL Hb; [done|]. cbn [for_map].
  apply kc_bind; [apply Hb; [left|by apply quiet_refl]|]. intros a s1 Hq1.
  apply kc_bind; [|intros r s2 [_ HL2]; by apply kc_ret].
  apply IH; [by apply Hq1|]. intros y s' Hy Hq. apply Hb; [by right|]. by eapply quiet_trans.
Qed.
Lemma kc_tick s : live s -> keeps_core tick s.
Proof. intros [H1 H2]. done. Qed.
Lemma kc_now s : live s -> keeps_core nt_Now s.
Proof. intros HL. apply kc_bind; [by apply kc_tick|]. intros n s' [_ ?]. by apply kc_ret. Qed.
Lemma kc_wpi_now s : live s -> keeps_core wpi_now s.
Proof. intros HL. apply kc_bind; [by apply kc_tick|]. intros n s' [_ ?]. by apply kc_ret. Qed.
Lemma kc_run {A} (m : M (SImpl L) A) s : keeps_core m s -> exists a s', m s = Some (a, s') /\ quiet s s'.
Proof. intros Hm. by apply wp_run in Hm. Qed.

(** An update of a client that its core does not show *)
Lemma kc_upd_client s c f : live s -> has_client s c ->
  (forall cd, s_clientHeap s !! c = Some cd ->
     cd_core (f cd) = cd_core cd /\ forall k, cd_kind (f cd) = K4 k -> Forall msg_ok (k4_outgoing k)) ->
  keeps_core (upd_client c f) s.
Proof.
  intros [H1 H2] Hc Hf. apply kc_client; [done|]. intros cd Ecd. destruct (Hf cd Ecd) as [Ef Hk].
  unfold keeps_core, wp, modify. split.
  - unfold core_of. cbn. f_equal. rewrite fmap_insert, Ef. apply insert_id. by rewrite lookup_fmap, Ecd.
  - split; [done|]. cbn. intros c' cd' k. destruct (decide (c' = c)) as [->|Hne].
    + rewrite lookup_insert_eq. intros [= <-]. by apply Hk.
    + rewrite lookup_insert_ne by done. by apply H2.
Qed.
Lemma kc_upd_client_kind s c f : live s -> has_client s c ->
  (forall cd, cd_core (f cd) = cd_core cd /\ cd_kind (f cd) = cd_kind cd) -> keeps_core (upd_client c f) s.
Proof.
  intros HL Hc Hf. apply kc_upd_client; [done..|]. intros cd Ecd. destruct (Hf cd) as [-> ->]. split; [done|].
  intros k Ek. by eapply live_queue.
Qed.
Lemma kc_on4 s c f : live s -> has_client s c ->
  (forall k, Forall msg_ok (k4_outgoing k) -> Forall msg_ok (k4_outgoing (f k))) -> keeps_core (on4 c f) s.
Proof.
  intros HL Hc Hf. apply kc_upd_client; [done..|]. intros cd Ecd.
  destruct (cd_kind cd) as [|k|k] eqn:Ek.
  - split; [done|]. by rewrite Ek.
  - split; [by destruct cd; cbn in *; subst|]. intros k' [= <-]. apply Hf. by eapply live_queue.
  - split; [done|]. by rewrite Ek.
Qed.
Lemma kc_get4 {B} (k : Client4 -> M (SImpl L) B) s c cd k4 : s_clientHeap s !! c = Some cd -> cd_kind cd = K4 k4 ->
  keeps_core (k k4) s -> keeps_core (bind (get4 c) k) s.
Proof.
  intros Ec Ek Hk. apply wp_bind. unfold get4. apply wp_bind. eapply wp_client; [done|]. rewrite Ek. by apply wp_ret.
Qed.
Lemma kc_on_store {A} (m : M L A) s : live s -> wp m (fun _ l' => li_ok l') (s_store s) -> keeps_core (on_store m) s.
Proof.
  intros [H1 H2] Hm. unfold keeps_core, on_store, wp in *. destruct (m (s_store s)) as [[a l]|]; [|done].
  split; [done|]. by split.
Qed.
Lemma kc_modify s f : live s -> core_of (f s) = core_of s -> s_store (f s) = s_store s -> s_clientHeap (f s) = s_clientHeap s ->
  keeps_core (modify f) s.
Proof. intros [H1 H2] E1 E2 E3. unfold keeps_core, wp, modify. split; [done|]. split; [by rewrite E2|by rewrite E3]. Qed.
End Core.

Create HintDb server.
#[export] Hint Resolve quiet_refl kc_ret kc_tick kc_now kc_wpi_now : server.

(** * ServerSend: sending keeps the structure of the server

    The methods of clients of version 4 and of the local client that send, [SetValue] and the
    values of the meta topics. *)

Local Open Scope Z_scope.

Section Send.
Context {L : Type} {LI : LocalInterface jvalue L} {LS : LocalInterfaceSafe jvalue L}.
Context {EN : Env} {WC : WpiClock} {JF : JsonFloat} {MA : Machine}.
Implicit Types s : SImpl L.

Definition is4 s (c : addr) : Prop := exists cd k, co_clients (core_of s) !! c = Some cd /\ cd_kind cd = K4 k.
Lemma is4_heap s c : is4 s c <-> exists cd k, s_clientHeap s !! c = Some cd /\ cd_kind cd = K4 k.
Proof.
  split.
  - intros (cd & k & E & Ek). apply core_client in E as (cd' & E & <-). cbn in Ek.
    destruct (cd_kind cd') as [|k'|k'] eqn:Ek'; try done. eauto.
  - intros (cd & k & E & Ek). exists (cd_core cd). eexists. split; [by apply client_core|]. cbn. by rewrite Ek.
Qed.
Lemma is4_has s c : is4 s c -> has_client s c.
Proof. intros (cd & k & E & _). by exists cd. Qed.
Lemma quiet_is4 s s' c : quiet s s' -> is4 s c -> is4 s' c.
Proof. intros [E _]. unfold is4. by rewrite E. Qed.
Lemma quiet_live s s' : quiet s s' -> live s'.
Proof. by intros []. Qed.
Hint Resolve is4_has quiet_is4 quiet_live quiet_topic quiet_client : core.

Lemma kc_WriteBinary s c id time value : live s -> has_client s c -> keeps_core (WriteBinary c id time value) s.
Proof. intros HL Hc. apply kc_on4; [done..|]. intros k Hk. unfold SendBinary, reset_text. by destruct (k4_outText k). Qed.
Lemma kc_write_text s c text : live s -> has_client s c -> is_Some text -> keeps_core (write_text c text) s.
Proof.
  intros HL Hc [t ->]. unfold write_text. apply kc_bind; [by apply kc_ret|]. intros a s' Hq.
  apply kc_on4; [eauto..|]. intros k Hk. unfold SendText, reset_binary. by destruct (k4_outBinary k).
Qed.
Lemma kc_wire_flush4 s c : live s -> is4 s c -> keeps_core (wire_flush4 c) s.
Proof.
  intros HL Hc. pose proof Hc as (cd & k & Ecd & Ek)%is4_heap. eapply kc_get4; [done..|].
  destruct (w_frames _) as [|f fs].
  - apply kc_on4; eauto.
  - apply kc_bind; [by apply kc_wpi_now|]. intros now s' Hq. apply kc_on4; eauto.
Qed.
Lemma kc_Client4_Flush s c : live s -> is4 s c -> keeps_core (Client4_Flush c) s.
Proof.
  intros HL Hc. unfold Client4_Flush. apply kc_bind; [apply kc_on4; [eauto..|]; intros k; unfold reset_text; by destruct (k4_outText k)|].
  intros _ s1 Hq1. apply kc_bind; [apply kc_on4; [eauto..|]; intros k; unfold reset_binary; by destruct (k4_outBinary k)|].
  intros _ s2 Hq2. apply kc_wire_flush4; eauto.
Qed.
Lemma kc_push4 s c msg : live s -> has_client s c -> msg_ok msg -> keeps_core (push4 c msg) s.
Proof. intros HL Hc Hm. apply kc_on4; [done..|]. intros k Hk. cbn. apply Forall_app. by split; [|constructor]. Qed.
Lemma kc_control_ready s : live s -> keeps_core control_ready s.
Proof. intros HL. by apply kc_modify. Qed.
Lemma kc_set_sent s c t b : live s -> has_client s c -> keeps_core (set_sent c t b) s.
Proof. intros HL Hc. by apply kc_upd_client_kind. Qed.
Lemma kc_sent_to {B} (k : bool -> M (SImpl L) B) s c t : has_client s c ->
  (forall b, keeps_core (k b) s) -> keeps_core (bind (sent_to c t) k) s.
Proof.
  intros [cd E]%has_client_heap Hk. apply wp_bind. unfold sent_to. apply wp_bind. eapply wp_client; [done|].
  apply wp_ret, Hk.
Qed.

Lemma value_msg_ok t value : msg_ok (ServerValueMsg t value).
Proof. by eexists. Qed.

Lemma kc_Client4_SendValue s c t value mode : live s -> is4 s c -> has_topic s t ->
  keeps_core (Client4_SendValue c t value mode) s.
Proof.
  intros HL Hc Ht. unfold Client4_SendValue. apply kc_topic; [done|]. intros td Etd.
  apply kc_client; [eauto|]. intros cd Ecd. destruct (if cd_local cd then _ else mode).
  - by apply kc_ret.
  - apply kc_bind; [apply kc_on4; eauto|]. intros _ s1 Hq1. apply kc_push4; eauto using value_msg_ok.
  - pose proof Hc as (cd' & k & Ecd' & Ek)%is4_heap. eapply kc_get4; [done..|].
    destruct (replaceable4 _ _) as [i|].
    + apply kc_on4; [eauto..|]. intros k' Hk'. cbn. apply Forall_insert; [done|apply value_msg_ok].
    + apply kc_bind; [apply kc_when; [done|]; intros _; apply kc_on4; eauto|].
      intros _ s1 Hq1. apply kc_push4; eauto using value_msg_ok.
  - apply kc_bind; [apply kc_WriteBinary; eauto|]. intros _ s1 Hq1. apply kc_when; [eauto|]. intros _. apply kc_Client4_Flush; eauto.
Qed.

(** Text for a client: written at once if the client is on the same machine, queued
    otherwise *)
Lemma kc_text s c (local : bool) text msg : live s -> is4 s c -> is_Some text -> msg_ok msg ->
  keeps_core (if local then write_text c text ;; Client4_Flush c else push4 c msg ;; control_ready) s.
Proof.
  intros HL Hc Ht Hm. destruct local.
  - apply kc_bind; [apply kc_write_text; eauto|]. intros _ s1 Hq1. apply kc_Client4_Flush; eauto.
  - apply kc_bind; [apply kc_push4; eauto|]. intros _ s1 Hq1. apply kc_control_ready; eauto.
Qed.

Lemma announce_ok name id typeStr properties pubuid :
  is_Some (qstr name) -> is_Some (qstr typeStr) -> is_Some (dump_obj properties) ->
  is_Some (WireEncodeAnnounce name id typeStr properties pubuid) /\ msg_ok (AnnounceMsg name id typeStr pubuid properties).
Proof.
  intros [n En] [ty Ety] [p Ep]. unfold msg_ok. cbn [WireEncodeText_server]. unfold WireEncodeAnnounce.
  rewrite En, Ety, Ep. by split; eexists.
Qed.
Lemma unannounce_ok name id : is_Some (qstr name) ->
  is_Some (WireEncodeUnannounce name id) /\ msg_ok (UnannounceMsg name id).
Proof. intros [n En]. unfold msg_ok. cbn [WireEncodeText_server]. unfold WireEncodeUnannounce. rewrite En. by split; eexists. Qed.
Lemma properties_ok name update ack : is_Some (qstr name) -> is_Some (dump_obj update) ->
  is_Some (WireEncodePropertiesUpdate name update ack) /\ msg_ok (PropertiesUpdateMsg name update ack).
Proof.
  intros [n En] [u Eu]. unfold msg_ok. cbn [WireEncodeText_server]. unfold WireEncodePropertiesUpdate. rewrite En, Eu.
  by split; eexists.
Qed.

(** ** In a state without dangling pointers *)

Context (x : option addr) (R : ref -> Prop).

Definition good s : Prop := core_ok x R (core_of s) /\ live s.
Lemma good_live s : good s -> live s.
Proof. by intros []. Qed.
Lemma quiet_good s s' : good s -> quiet s s' -> good s'.
Proof. intros [HC _] [E HL]. split; [by rewrite E|done]. Qed.
Hint Resolve good_live : core.

Lemma good_kind s c cd : good s -> s_clientHeap s !! c = Some cd ->
  match cd_kind cd with KLocal => c = s_localClient s | K4 _ => is4 s c | K3 _ => False end.
Proof.
  intros [HC _] Ecd. pose proof (ok_kind _ _ _ HC c _ (client_core s c cd Ecd)) as Hk. cbn in Hk.
  destruct (cd_kind cd) eqn:Ek; cbn in Hk; [done| |done]. apply is4_heap. eauto.
Qed.
Lemma good_text s t td : good s -> s_topicHeap s !! t = Some td -> topic_text td.
Proof. intros [HC _] E. by apply (ok_text _ _ _ HC t _ (topic_core s t td E)). Qed.

(** A method of a client, by its kind *)
Lemma kc_dispatch s c (m0 : M (SImpl L) unit) (m4 : Client4 -> M (SImpl L) unit) (m3 : Client3 -> M (SImpl L) unit) :
  good s -> has_client s c ->
  (forall cd, s_clientHeap s !! c = Some cd -> cd_kind cd = KLocal -> keeps_core m0 s) ->
  (is4 s c -> forall k, keeps_core (m4 k) s) ->
  keeps_core (let* cd := client c in match cd_kind cd with KLocal => m0 | K4 k => m4 k | K3 k => m3 k end) s.
Proof.
  intros HG Hc H0 H4. apply kc_client; [done|]. intros cd Ecd. pose proof (good_kind s c cd HG Ecd) as Hk.
  destruct (cd_kind cd) eqn:Ek; [by eapply H0|by apply H4|done].
Qed.

Lemma kc_Local_SendValue s t value : live s -> has_topic s t -> keeps_core (Local_SendValue t value) s.
Proof.
  intros HL Ht. apply kc_get, kc_when; [done|]. intros _. apply kc_topic; [done|]. intros td Etd.
  apply kc_on_store; [done|]. by apply li_ok_value, live_store.
Qed.
Lemma kc_SendValue s c t value mode : good s -> has_client s c -> has_topic s t -> keeps_core (SendValue c t value mode) s.
Proof.
  intros HG Hc Ht. apply kc_dispatch; [done..| |].
  - intros. apply kc_Local_SendValue; eauto.
  - intros H4 k. apply kc_Client4_SendValue; eauto.
Qed.
Lemma kc_Flush s c : good s -> has_client s c -> keeps_core (Flush c) s.
Proof.
  intros HG Hc. apply kc_dispatch; [done..| |].
  - intros. apply kc_ret; eauto.
  - intros H4 k. apply kc_Client4_Flush; eauto.
Qed.

Lemma kc_upd_topic s t f : live s -> has_topic s t -> (forall td, td_core (f td) = td_core td) -> keeps_core (upd_topic t f) s.
Proof.
  intros [H1 H2] Ht Hf. apply kc_topic; [done|]. intros td Etd. unfold keeps_core, wp, modify. split; [|by split].
  unfold core_of. cbn. f_equal. rewrite fmap_insert, Hf. apply insert_id. by rewrite lookup_fmap, Etd.
Qed.

Lemma kc_SendAnnounce s c t pubuid : good s -> has_client s c -> has_topic s t -> keeps_core (SendAnnounce c t pubuid) s.
Proof.
  intros HG Hc Ht. apply kc_dispatch; [done..| |].
  - intros _ _ _. apply kc_get, kc_sent_to; [done|]. intros b. destruct (s_local s && negb b); [|apply kc_ret; eauto].
    apply kc_bind; [apply kc_set_sent; eauto|]. intros _ s1 Hq1. apply kc_topic; [eauto|]. intros td Etd.
    apply kc_bind; [apply kc_on_store; [eauto|]; by apply li_ok_announce, live_store, quiet_live with s|].
    intros h s2 Hq2. apply kc_upd_topic; eauto using quiet_trans.
  - intros H4 k. apply kc_sent_to; [done|]. intros b. destruct b; [apply kc_ret; eauto|].
    apply kc_bind; [apply kc_set_sent; eauto|]. intros _ s1 Hq1. apply kc_topic; [eauto|]. intros td Etd.
    apply kc_client; [eauto|]. intros cd Ecd.
    destruct (good_text s1 t td) as (Hn & Hty & Hp); [by eapply quiet_good|done|].
    destruct (announce_ok (td_name td) (Z.of_nat (td_id td)) (td_typeStr td) (td_properties td) pubuid) as [Ht1 Ht2]; [done..|].
    apply kc_text; eauto.
Qed.

Lemma kc_SendUnannounce s c t : good s -> has_client s c -> has_topic s t -> keeps_core (SendUnannounce c t) s.
Proof.
  intros HG Hc Ht. apply kc_dispatch; [done..| |].
  - intros _ _ _. apply kc_get, kc_sent_to; [done|]. intros b. destruct (s_local s); [|apply kc_ret; eauto].
    apply kc_bind; [apply kc_set_sent; eauto|]. intros _ s1 Hq1. apply kc_when; [eauto|]. intros _.
    apply kc_topic; [eauto|]. intros td Etd. apply kc_on_store; [eauto|]. by apply li_ok_unannounce, live_store, quiet_live with s.
  - intros H4 k. apply kc_sent_to; [done|]. intros b. destruct b; [|apply kc_set_sent; eauto].
    apply kc_bind; [apply kc_set_sent; eauto|]. intros _ s1 Hq1. apply kc_topic; [eauto|]. intros td Etd.
    apply kc_client; [eauto|]. intros cd Ecd.
    destruct (good_text s1 t td) as (Hn & _); [by eapply quiet_good|done|].
    destruct (unannounce_ok (td_name td) (Z.of_nat (td_id td)) Hn) as [Ht1 Ht2]. apply kc_text; eauto.
Qed.

Lemma kc_SendPropertiesUpdate s c t update ack : good s -> has_client s c -> has_topic s t -> is_Some (dump_obj update) ->
  keeps_core (SendPropertiesUpdate c t update ack) s.
Proof.
  intros HG Hc Ht Hu. apply kc_dispatch; [done..| |].
  - intros _ _ _. apply kc_get, kc_sent_to; [done|]. intros b. apply kc_when; [eauto|]. intros _.
    apply kc_topic; [eauto|]. intros td Etd. apply kc_on_store; [eauto|]. by apply li_ok_properties, live_store, good_live.
  - intros H4 k. apply kc_sent_to; [done|]. intros b. destruct b; [|apply kc_ret; eauto].
    apply kc_topic; [eauto|]. intros td Etd. apply kc_client; [eauto|]. intros cd Ecd.
    destruct (good_text s t td) as (Hn & _); [done..|].
    destruct (properties_ok (td_name td) update ack Hn Hu) as [Ht1 Ht2]. apply kc_text; eauto.
Qed.

Lemma kc_SendOutgoing s c curTimeMs : good s -> has_client s c -> keeps_core (SendOutgoing c curTimeMs) s.
Proof.
  intros HG Hc. apply kc_dispatch; [done..|intros; apply kc_ret; eauto|].
  intros H4 _. apply kc_client; [done|]. intros cd Ecd. pose proof H4 as (cd' & k & Ecd' & Ek)%is4_heap.
  eapply kc_get4; [done..|]. pose proof (live_queue _ (good_live _ HG) c cd' k Ecd' Ek) as Hq.
  repeat case_match; try (apply kc_ret; by eauto).
  - apply kc_bind.
    + apply kc_for_each; [eauto|]. intros msg s1 Hm Hq1. rewrite Forall_forall in Hq. specialize (Hq msg Hm) as [r Er].
      assert (keeps_core (let* r := deref (WireEncodeText_server msg) in on4 c (SendText r.2)) s1) as Ht.
      { apply kc_bind; [rewrite Er; apply kc_ret; eauto|]. intros r' s2 Hq2. apply kc_on4; [eauto using quiet_trans..|].
        intros k' Hk'. unfold SendText, reset_binary. by destruct (k4_outBinary k'). }
      destruct msg; try exact Ht. apply kc_WriteBinary; eauto.
    + intros _ s1 Hq1. apply kc_bind; [apply kc_on4; [eauto..|]; constructor|].
      intros _ s2 Hq2. apply kc_upd_client_kind; eauto.
  - apply kc_bind; [apply kc_wpi_now; eauto|]. intros now s1 Hq1. apply kc_when; [eauto|]. intros _. apply kc_on4; eauto.
Qed.

(** ** Values *)

Lemma wp_send_modes s subs toSend Q : good s ->
  (forall b, b ∈ subs -> is_Some (s_subHeap s !! b)) -> length toSend = length (s_clients s) ->
  (forall r, length r = length (s_clients s) -> Q r s) -> wp (send_modes subs toSend) Q s.
Proof.
  intros [HC HL]. revert toSend. induction subs as [|b subs IH]; intros toSend Hb Hlen HQ; cbn [send_modes].
  - apply wp_ret. by apply HQ.
  - destruct (Hb b) as [sb Esb]; [left|]. wp_step. eapply wp_sub; [done|]. wp_step.
    destruct (ok_sub _ _ _ HC b sb Esb) as (cdc & Ec & _). pose proof (ok_clients _ _ _ HC _ _ Ec) as Hs. cbn in Hs.
    apply core_client in Ec as (cd & Ecd & <-). eapply wp_client; [done|]. cbn in Hs. wp_step.
    assert (cd_id cd < length toSend)%nat as [m Em]%lookup_lt_is_Some by (rewrite Hlen; by eapply lookup_lt_Some).
    wp_step; [done|]. apply IH; [by intros; apply Hb; right|by rewrite length_insert|done].
Qed.

Lemma good_slot s c : good s -> Some c ∈ s_clients s -> has_client s c.
Proof. intros [HC _] [i Hi]%list_elem_of_lookup. destruct (ok_slots _ _ _ HC i c Hi) as (cd & E & _). by exists cd. Qed.

Lemma kc_SetValue s from t value : good s -> has_topic s t -> keeps_core (SetValue from t value) s.
Proof.
  intros HG Ht. unfold SetValue. apply kc_topic; [done|]. intros td Etd. apply kc_bind.
  { apply kc_when; [eauto|]. intros _. apply kc_bind; [apply kc_upd_topic; eauto|]. intros _ s1 Hq1.
    apply kc_when; [eauto|]. intros _. apply kc_modify; eauto. }
  intros _ s1 Hq1. assert (good s1) as HG1 by (by eapply quiet_good). apply kc_get. apply wp_bind.
  apply wp_send_modes; [done| |by rewrite length_replicate|].
  { intros b Hb. destruct Hq1 as [E _]. change (is_Some (co_subs (core_of s1) !! b)). rewrite E.
    destruct HG as [HC _]. by apply (ok_subs _ _ _ HC t _ b (topic_core s t td Etd)). }
  intros r Hr. apply kc_for_each; [eauto|]. intros [[c|] mode] s2 Hin Hq2; [|apply kc_ret; eauto].
  apply kc_when; [eauto|]. intros _. assert (good s2) as HG2 by (by eapply quiet_good).
  apply kc_SendValue; [done| |eauto]. eapply quiet_client; [done|]. apply good_slot; [done|].
  apply list_elem_of_In in Hin. apply in_combine_l in Hin. by apply list_elem_of_In.
Qed.

Lemma kc_set_meta s t elems : good s -> has_topic s t -> keeps_core (set_meta t elems) s.
Proof.
  intros HG Ht. apply kc_bind; [apply kc_now; eauto|]. intros now s1 Hq1. apply kc_SetValue; [by eapply quiet_good|eauto].
Qed.

(** ** Meta topics *)

Lemma ref_topic s r m n : good s -> ~ R r -> ref_info (core_of s) r = Some (m, n) -> has_topic s m.
Proof. intros [HC _] Hr E. destruct (ok_meta _ _ _ HC r m n E Hr) as (td & Etd & _). by exists td. Qed.
Lemma ref_client s c cd (b : bool) m : s_clientHeap s !! c = Some cd ->
  (if b then cd_metaSub cd else cd_metaPub cd) = Some m -> exists n, ref_info (core_of s) (RClient b c) = Some (m, n).
Proof. intros E Em. cbn. rewrite lookup_fmap, E. cbn. destruct b; rewrite Em; cbn; eauto. Qed.
Lemma ref_topics s t td (b : bool) m : s_topicHeap s !! t = Some td ->
  (if b then td_metaSub td else td_metaPub td) = Some m -> exists n, ref_info (core_of s) (RTopic b t) = Some (m, n).
Proof. intros E Em. cbn. rewrite lookup_fmap, E. cbn. destruct b; rewrite Em; cbn; eauto. Qed.

Lemma kc_UpdateMetaTopicPub s t : good s -> has_topic s t -> ~ R (RTopic false t) -> keeps_core (UpdateMetaTopicPub t) s.
Proof.
  intros HG Ht Hr. apply kc_topic; [done|]. intros td Etd. destruct (td_metaPub td) as [m|] eqn:Em; [|apply kc_ret; eauto].
  destruct (ref_topics s t td false m Etd Em) as [n En]. pose proof (ref_topic s _ _ _ HG Hr En) as Hm.
  apply kc_bind; [|intros elems s1 Hq1; apply kc_set_meta; [by eapply quiet_good|eauto]].
  apply kc_for_map; [eauto|]. intros p s1 Hp Hq1. destruct HG as [HC HL].
  destruct (ok_pubs _ _ _ HC t _ p (topic_core s t td Etd) Hp) as (pb & Epb & _).
  destruct (ok_pub _ _ _ HC p pb Epb) as [(cd & Ecd & _) _].
  apply wp_bind. eapply (wp_pub _ p pb); [|apply kc_client; [eapply quiet_client; [done|by exists cd]|intros; apply kc_ret; eauto]].
  destruct Hq1 as [E _]. change (co_pubs (core_of s1) !! p = Some pb). by rewrite E.
Qed.

Lemma kc_UpdateMetaTopicSub s t : good s -> has_topic s t -> ~ R (RTopic true t) -> keeps_core (UpdateMetaTopicSub t) s.
Proof.
  intros HG Ht Hr. apply kc_topic; [done|]. intros td Etd. destruct (td_metaSub td) as [m|] eqn:Em; [|apply kc_ret; eauto].
  destruct (ref_topics s t td true m Etd Em) as [n En]. pose proof (ref_topic s _ _ _ HG Hr En) as Hm.
  apply kc_bind; [|intros elems s1 Hq1; apply kc_set_meta; [by eapply quiet_good|eauto]].
  apply kc_for_map; [eauto|]. intros b s1 Hb Hq1. destruct HG as [HC HL].
  destruct (ok_subs _ _ _ HC t _ b (topic_core s t td Etd) Hb) as (sb & Esb).
  destruct (ok_sub _ _ _ HC b sb Esb) as (cd & Ecd & _).
  apply wp_bind. eapply (wp_sub _ b sb); [|apply kc_client; [eapply quiet_client; [done|by exists cd]|intros; apply kc_ret; eauto]].
  destruct Hq1 as [E _]. change (co_subs (core_of s1) !! b = Some sb). by rewrite E.
Qed.

Context {ML : MachineLaws}.

Lemma items_elem {A} n (m : gmap Z A) k v : (k, v) ∈ dense_items n m -> m !! k = Some v.
Proof. rewrite dense_items_perm. apply elem_of_map_to_list. Qed.

Lemma kc_items {A B} (m : gmap Z A) (k : list (Z * A) -> M (SImpl L) B) s : live s ->
  (forall n s', quiet s s' -> keeps_core (k (dense_items n m)) s') -> keeps_core (bind (items m) k) s.
Proof.
  intros [H1 H2] Hk. assert (quiet s (s <| s_tick ::= S |>)) as Hq by (split; [done|by split]).
  unfold keeps_core. apply wp_bind. unfold items. apply wp_bind. unfold tick. do 2 (apply wp_bind; wp_step). do 2 apply wp_ret.
  eapply wp_mono; [by apply Hk|]. intros a s' Hq'. by eapply quiet_trans.
Qed.

Lemma kc_UpdateMetaClientPub s c : good s -> has_client s c -> ~ R (RClient false c) -> Some c <> x ->
  keeps_core (UpdateMetaClientPub c) s.
Proof.
  intros HG Hc Hr Hx. apply kc_client; [done|]. intros cd Ecd. destruct (cd_metaPub cd) as [m|] eqn:Em; [|apply kc_ret; eauto].
  destruct (ref_client s c cd false m Ecd Em) as [n En]. pose proof (ref_topic s _ _ _ HG Hr En) as Hm.
  apply kc_items; [eauto|]. intros n' s0 Hq0. assert (good s0) as HG0 by (by eapply quiet_good).
  apply kc_bind; [|intros elems s1 Hq1; apply kc_set_meta; [by eapply quiet_good|eauto]].
  apply kc_for_map; [eauto|]. intros [uid p] s1 Hp%items_elem Hq1. destruct HG as [HC HL].
  destruct (ok_cpubs _ _ _ HC c _ uid p (client_core s c cd Ecd) Hp) as (pb & Epb & <- & _).
  destruct (ok_pub _ _ _ HC p pb Epb) as [_ (td & Etd & _)]; [done|].
  apply wp_bind. eapply (wp_pub _ p pb); [|apply kc_topic; [eapply quiet_topic; [done|]; eapply quiet_topic; [done|by exists td]|intros; apply kc_ret; eauto]].
  destruct Hq0 as [E0 _], Hq1 as [E _]. change (co_pubs (core_of s1) !! p = Some pb). by rewrite E, E0.
Qed.

Lemma kc_UpdateMetaClientSub s c : good s -> has_client s c -> ~ R (RClient true c) -> keeps_core (UpdateMetaClientSub c) s.
Proof.
  intros HG Hc Hr. apply kc_client; [done|]. intros cd Ecd. destruct (cd_metaSub cd) as [m|] eqn:Em; [|apply kc_ret; eauto].
  destruct (ref_client s c cd true m Ecd Em) as [n En]. pose proof (ref_topic s _ _ _ HG Hr En) as Hm.
  apply kc_items; [eauto|]. intros n' s0 Hq0. assert (good s0) as HG0 by (by eapply quiet_good).
  apply kc_bind; [|intros elems s1 Hq1; apply kc_set_meta; [by eapply quiet_good|eauto]].
  apply kc_for_map; [eauto|]. intros [uid b] s1 Hb%items_elem Hq1. destruct HG as [HC HL].
  destruct (ok_csubs _ _ _ HC c _ uid b (client_core s c cd Ecd) Hb) as (sb & Esb & <- & _).
  apply wp_bind. eapply (wp_sub _ b sb); [|apply kc_ret; eauto].
  destruct Hq0 as [E0 _], Hq1 as [E _]. change (co_subs (core_of s1) !! b = Some sb). by rewrite E, E0.
Qed.
End Send.
