(* ===== verification/ServerValues.v ===== *)
(** * ServerValues: which operations leave the last values of topics as they are

    Sending a message and making a topic change no value of a topic that was there; a topic
    that is made has no value.  Meta topics, whose values the server sets by itself, are left
    out. *)

From S2P Require Import Prelude NtTypes Monads LocalTypes Json JsonParser JsonRoundTrip Events.
From S2P Require Import WireEncoder4 WireEncoder3 WireDecoder4 ServerTypes WireConnection4.
From S2P Require Import NetworkQueue UidVector ServerImpl ServerCore.
Local Open Scope Z_scope.

Lemma wp_wlp_and {S A} (m : M S A) (P Q : A -> S -> Prop) (s : S) : wp m P s -> wlp m Q s -> wp m (fun a s' => P a s' /\ Q a s') s.
Proof. unfold wp, wlp. by destruct (m s) as [[a s']|]. Qed.

Section Values.
Context {L : Type} {LI : LocalInterface jvalue L} {LS : LocalInterfaceSafe jvalue L}.
Context {EN : Env} {WC : WpiClock} {JF : JsonFloat} {MA : Machine} {ML : MachineLaws}.
Implicit Types s : SImpl L.

(** ** The relation *)

(** No topic goes; a topic that is not a meta topic has the value it had, or is new and has
    none. *)
Record values_kept s s' : Prop := {
  vk_dom t : is_Some (s_topicHeap s !! t) -> is_Some (s_topicHeap s' !! t);
  vk_value t td' : s_topicHeap s' !! t = Some td' -> td_special td' = false ->
    match s_topicHeap s !! t with
    | Some td => td_special td = false /\ td_lastValue td' = td_lastValue td
    | None => td_lastValue td' = Value_empty
    end;
}.
Lemma vk_same s s' : s_topicHeap s' = s_topicHeap s -> values_kept s s'.
Proof. intros E. split; rewrite E; [done|]. intros t td' -> Hs. done. Qed.
Lemma vk_trans s1 s2 s3 : values_kept s1 s2 -> values_kept s2 s3 -> values_kept s1 s3.
Proof.
  intros [D1 V1] [D2 V2]. split; [eauto|]. intros t td' E Hs. specialize (V2 t td' E Hs).
  destruct (s_topicHeap s2 !! t) as [td2|] eqn:E2.
  - destruct V2 as [Hs2 V2]. specialize (V1 t td2 E2 Hs2). destruct (s_topicHeap s1 !! t); [|congruence].
    destruct V1. split; congruence.
  - destruct (s_topicHeap s1 !! t) eqn:E1; [|done]. destruct (D1 t) as [? ?]; [by eexists|]. congruence.
Qed.
(** What the relation says of a topic that was there *)
Lemma vk_old s s' t td td' : values_kept s s' -> s_topicHeap s !! t = Some td -> s_topicHeap s' !! t = Some td' ->
  td_special td' = false -> td_lastValue td' = td_lastValue td.
Proof. intros [_ V] E E' Hs. specialize (V t td' E' Hs). rewrite E in V. apply V. Qed.
Lemma vk_new s s' t td' : values_kept s s' -> s_topicHeap s !! t = None -> s_topicHeap s' !! t = Some td' ->
  td_special td' = false -> td_lastValue td' = Value_empty.
Proof. intros [_ V] E E' Hs. specialize (V t td' E' Hs). by rewrite E in V. Qed.

(** ** Code that respects it *)

(** It is code of servers without clients of version 3, whose announcement sets a meta topic. *)
Definition no3 s : Prop := forall c cd, s_clientHeap s !! c = Some cd -> forall k, cd_kind cd <> K3 k.
Definition keeps_values {A} (m : M (SImpl L) A) : Prop := forall s, no3 s -> wlp m (fun _ s' => no3 s' /\ values_kept s s') s.

Lemma kv_same s s' : no3 s -> s_topicHeap s' = s_topicHeap s -> s_clientHeap s' = s_clientHeap s -> no3 s' /\ values_kept s s'.
Proof. intros H3 E E'. split; [unfold no3; by rewrite E'|by apply vk_same]. Qed.
Lemma kv_ret {A} (a : A) : keeps_values (ret a).
Proof. intros s H3. by apply wlp_ret, kv_same. Qed.
Lemma kv_bind {A B} (m : M (SImpl L) A) (k : A -> M (SImpl L) B) :
  keeps_values m -> (forall a, keeps_values (k a)) -> keeps_values (bind m k).
Proof.
  intros Hm Hk s H3. apply wlp_bind. eapply wlp_mono; [by apply Hm|]. intros a s' [H3' E]. eapply wlp_mono; [by apply Hk|].
  intros b s'' [H3'' E']. split; [done|]. exact (vk_trans _ _ _ E E').
Qed.
Lemma kv_get : keeps_values get.
Proof. intros s H3. by apply wlp_get, kv_same. Qed.
Lemma kv_modify f : (forall s, s_topicHeap (f s) = s_topicHeap s /\ s_clientHeap (f s) = s_clientHeap s) -> keeps_values (modify f).
Proof. intros Hf s H3. apply wlp_modify, kv_same; [done|apply Hf..]. Qed.
Lemma kv_deref {A} (o : option A) : keeps_values (deref o).
Proof. intros s H3. apply wlp_deref. intros. by apply kv_same. Qed.
Lemma kv_client c {B} (k : ClientData -> M (SImpl L) B) : 
  (forall cd, (forall k, cd_kind cd <> K3 k) -> keeps_values (k cd)) -> keeps_values (bind (client c) k).
Proof.
  intros Hk s H3. unfold client. apply wlp_bind, wlp_bind, wlp_get, wlp_deref. intros cd E. apply Hk; [by eapply H3|done].
Qed.
Lemma kv_when (b : bool) m : keeps_values m -> keeps_values (when b m).
Proof. destruct b; [done|]. intros _. apply kv_ret. Qed.
Lemma kv_for_each {X} (l : list X) body : (forall x, keeps_values (body x)) -> keeps_values (for_each l body).
Proof. intros Hb. induction l as [|x l IH]; cbn; [apply kv_ret|]. by apply kv_bind. Qed.
Lemma kv_for_map {X Y} (l : list X) (body : X -> M (SImpl L) Y) : (forall x, keeps_values (body x)) -> keeps_values (for_map l body).
Proof.
  intros Hb. induction l as [|x l IH]; cbn; [apply kv_ret|]. apply kv_bind; [done|]. intros y. apply kv_bind; [done|]. intros. apply kv_ret.
Qed.
Lemma kv_on_store {A} (m : M L A) : keeps_values (on_store m).
Proof. intros s H3. unfold wlp, on_store. destruct (m (s_store s)) as [[a l]|]; [|done]. by apply kv_same. Qed.
Lemma kv_upd_client c f : (forall cd, match cd_kind cd with K3 _ => True | _ => match cd_kind (f cd) with K3 _ => False | _ => True end end) ->
  keeps_values (upd_client c f).
Proof.
  intros Hf s H3. unfold upd_client, client. apply wlp_bind, wlp_bind, wlp_get, wlp_deref. intros cd E. apply wlp_modify.
  split; [|by apply vk_same]. unfold no3. cbn. intros c0 cd0 [[<- <-]|[Hne E0]]%lookup_insert_Some k Ek; [|by eapply H3].
  specialize (Hf cd). pose proof (H3 c cd E) as Hk. rewrite Ek in Hf. destruct (cd_kind cd); [done..|]. by eapply Hk.
Qed.
Lemma kv_on4 c f : keeps_values (on4 c f).
Proof. apply kv_upd_client. intros cd. destruct (cd_kind cd) eqn:E; [by rewrite E|done|done]. Qed.
Lemma kv_client_same c f : (forall cd, cd_kind (f cd) = cd_kind cd) -> keeps_values (upd_client c f).
Proof. intros Hf. apply kv_upd_client. intros cd. rewrite Hf. by destruct (cd_kind cd). Qed.
Lemma vk_set_topic s t td td' : s_topicHeap s !! t = Some td ->
  (td_special td' = false -> td_special td = false /\ td_lastValue td' = td_lastValue td) ->
  values_kept s (s <| s_topicHeap ::= <[t := td']> |>).
Proof.
  intros E Hs. split; cbn.
  - intros t0 H0. destruct (decide (t0 = t)) as [->|Hne]; [by rewrite lookup_insert_eq|by rewrite lookup_insert_ne].
  - intros t0 td0 [[<- <-]|[Hne E0]]%lookup_insert_Some H0; [rewrite E; auto|by rewrite E0].
Qed.
Lemma kv_upd_topic t f : (forall td, td_lastValue (f td) = td_lastValue td /\ (td_special (f td) = false -> td_special td = false)) ->
  keeps_values (upd_topic t f).
Proof.
  intros Hf s H3. unfold upd_topic, topic. apply wlp_bind, wlp_bind, wlp_get, wlp_deref. intros td E. apply wlp_modify.
  destruct (Hf td). split; [done|]. eapply vk_set_topic; [done|auto].
Qed.
End Values.

Create HintDb values.
#[export] Hint Resolve kv_ret kv_get kv_deref kv_on_store kv_on4 : values.
Ltac keep :=
  repeat first
    [ solve [eauto with values nocore]
    | progress unfold tick, nt_Now, wpi_now, topic, pub, sub, items, get4, set_sent,
        WriteBinary, write_text, push4, control_ready, sent_to, skip,
        Local_SendValue, Local_SendAnnounce
    | lazymatch goal with
      | |- keeps_values (bind (client _) _) => apply kv_client; intros ? ?
      | |- keeps_values (bind _ _) => apply kv_bind; [|intros ?]
      | |- keeps_values (modify _) => apply kv_modify; intros ?; by split
      | |- keeps_values (upd_client _ _) => apply kv_client_same; intros ?; reflexivity
      | |- keeps_values (upd_topic _ _) => apply kv_upd_topic; intros ?; by split
      | |- keeps_values (when _ _) => apply kv_when
      | |- keeps_values (for_each _ _) => apply kv_for_each; intros ?
      | |- keeps_values (for_map _ _) => apply kv_for_map; intros ?
      | |- keeps_values (let '(_, _) := ?p in _) => destruct p
      | |- keeps_values (match ?o with _ => _ end) => destruct o eqn:?; try (exfalso; naive_solver)
      end ].

(** ** The operations *)

Section Operations.
Context {L : Type} {LI : LocalInterface jvalue L} {LS : LocalInterfaceSafe jvalue L}.
Context {EN : Env} {WC : WpiClock} {JF : JsonFloat} {MA : Machine} {ML : MachineLaws}.
Implicit Types s : SImpl L.

Lemma kv_Client4_Flush c : keeps_values (Client4_Flush c : M (SImpl L) _).
Proof. unfold Client4_Flush, wire_flush4. keep. Qed.
Hint Resolve kv_Client4_Flush : values.
Lemma kv_Client4_SendValue c t value mode : keeps_values (Client4_SendValue c t value mode : M (SImpl L) _).
Proof. unfold Client4_SendValue. keep. Qed.
Hint Resolve kv_Client4_SendValue : values.
Lemma kv_SendValue c t value mode : keeps_values (SendValue c t value mode : M (SImpl L) _).
Proof. unfold SendValue. keep. Qed.
Lemma kv_send_modes bs l : keeps_values (send_modes bs l : M (SImpl L) _).
Proof. revert l. induction bs as [|b bs IH]; intros l; cbn; keep. Qed.
Hint Resolve kv_SendValue kv_send_modes : values.
Lemma kv_Client4_SendAnnounce c t pubuid : keeps_values (Client4_SendAnnounce c t pubuid : M (SImpl L) _).
Proof. unfold Client4_SendAnnounce. keep. Qed.
Hint Resolve kv_Client4_SendAnnounce : values.
Lemma kv_SendAnnounce c t pubuid : keeps_values (SendAnnounce c t pubuid : M (SImpl L) _).
Proof. unfold SendAnnounce. keep. Qed.
Hint Resolve kv_SendAnnounce : values.
Lemma kv_announce_new from t c : keeps_values (announce_new from t c : M (SImpl L) _).
Proof. unfold announce_new, GetSubscribers. keep. Qed.
Hint Resolve kv_announce_new : values.

(** ** Making a topic *)

Lemma kv_create_topic from name typeStr properties special :
  keeps_values (create_topic from name typeStr properties special : M (SImpl L) _).
Proof.
  intros s H3. unfold create_topic. do 2 wlp_step. destruct (s_nameTopics s !! name) as [t|].
  { revert s H3. change (keeps_values (topic t ;; ret (t, false) : M (SImpl L) _)). keep. }
  unfold new_topic, tick. repeat wlp_step.
  change (alloc _ (dom (s_topicHeap (s <| s_tick ::= S |>)))) with (alloc (s_tick s) (dom (s_topicHeap s))) in *.
  set (t := alloc (s_tick s) (dom (s_topicHeap s))) in *. set (s1 := _ <| s_topicHeap ::= _ |>).
  assert (s_topicHeap s !! t = None) as Hf by apply not_elem_of_dom, (alloc_fresh (s_tick s)).
  set (s2 := _ <| s_nameTopics ::= _ |>).
  unfold upd_topic at 1, topic at 1. repeat wlp_step. set (s3 := _ <| s_topicHeap ::= _ |>).
  assert (values_kept s s3) as Hk.
  { split; cbn.
    - intros t0 [td0 E0]. do 2 (rewrite lookup_insert_ne; [|intros <-; congruence]). by rewrite E0.
    - rewrite insert_insert_eq. intros t0 td0 [[<- <-]|[Hne E0]]%lookup_insert_Some H0; [|by rewrite E0].
      rewrite Hf. match goal with H : s_topicHeap s2 !! t = Some _ |- _ => cbn in H; rewrite lookup_insert_eq in H; injection H as <- end. done. }
  assert (keeps_values (for_each (omap Datatypes.id (s_clients s1)) (announce_new from t) : M (SImpl L) _)) as Hrest by keep.
  eapply wlp_mono; [by apply (Hrest s3)|]. intros r s4 [H4 Hk4]. wlp_step. split; [done|]. by eapply vk_trans.
Qed.
Hint Resolve kv_create_topic : values.
Lemma kv_CreateMetaTopic name : keeps_values (CreateMetaTopic name : M (SImpl L) _).
Proof. unfold CreateMetaTopic. keep. Qed.

(** ** Setting a value *)

(** The value of the topic changes if the new one is accepted, and no other. *)
Definition with_value (from : option addr) (value : Value) (td : TopicData) : TopicData :=
  if accepts from value td then td <| td_lastValue := value |> <| td_lastValueClient := from |> else td.
Lemma wlp_SetValue_values s from t td value : no3 s -> s_topicHeap s !! t = Some td ->
  wlp (SetValue from t value)
    (fun _ s' => no3 s' /\ values_kept (s <| s_topicHeap ::= <[t := with_value from value td]> |>) s') s.
Proof.
  intros H3 E. unfold SetValue. wlp_step. unfold topic at 1. wlp_step. wlp_step. wlp_step. simplify_eq.
  match goal with |- wlp (bind _ ?k) _ _ => set (rest := k) end. wlp_step.
  assert (keeps_values (rest tt)) as Hrest by (unfold rest; keep).
  assert (forall s1, no3 s1 -> s_topicHeap s1 = <[t := with_value from value td]> (s_topicHeap s) ->
    wlp (rest tt) (fun _ s' => no3 s' /\ values_kept (s <| s_topicHeap ::= <[t := with_value from value td]> |>) s') s1) as Hend.
  { intros s1 H1 E1. eapply wlp_mono; [by apply Hrest|]. intros [] s' [H' Hk]. split; [done|].
    eapply vk_trans; [|exact Hk]. by apply vk_same. }
  unfold with_value in *. destruct (accepts from value td) eqn:Ea; cbn [when].
  - unfold upd_topic, topic. repeat wlp_step; simplify_eq; apply Hend; done.
  - wlp_step. apply Hend; [done|]. by rewrite insert_id.
Qed.
Lemma kv_set_meta s t td elems : no3 s -> s_topicHeap s !! t = Some td -> td_special td = true ->
  wlp (set_meta t elems) (fun _ s' => no3 s' /\ values_kept s s') s.
Proof.
  intros H3 E Hs. unfold set_meta, nt_Now, tick. repeat wlp_step.
  eapply wlp_mono; [by eapply wlp_SetValue_values|]. intros [] s' [H' Hk]. split; [done|]. eapply vk_trans; [|exact Hk].
  eapply vk_trans; [|eapply vk_set_topic; [exact E|]]; [by apply vk_same|].
  unfold with_value. destruct (accepts _ _ td); cbn; congruence.
Qed.
Lemma vk_special s s' t td : values_kept s s' -> s_topicHeap s !! t = Some td -> td_special td = true ->
  exists td', s_topicHeap s' !! t = Some td' /\ td_special td' = true.
Proof.
  intros [D V] E Hs. destruct (D t) as [td' E']; [by exists td|]. exists td'. split; [done|].
  destruct (td_special td') eqn:Hs'; [done|]. specialize (V t td' E' Hs'). rewrite E in V. destruct V. congruence.
Qed.

Context (x : option addr) (R : ref -> Prop).

Lemma good_no3 s : good x R s -> no3 s.
Proof. intros HG c cd E k Ek. pose proof (good_kind x R s c cd HG E) as Hk. by rewrite Ek in Hk. Qed.

(** The meta topic of a topic, and the code that reads what it is set to *)
Lemma kv_update_meta s t td (b : bool) m (read : M (SImpl L) (list bytes)) : good x R s -> ~ R (RTopic b t) ->
  s_topicHeap s !! t = Some td -> (if b then td_metaSub td else td_metaPub td) = Some m -> keeps_values read ->
  wlp (let* elems := read in set_meta m elems) (fun _ s' => no3 s' /\ values_kept s s') s.
Proof.
  intros HG Hr E Em Hread. pose proof (good_no3 s HG) as H3. destruct HG as [HC _].
  assert (ref_info (core_of s) (RTopic b t) = Some (m, (if b then "$sub$" else "$pub$") +:+ td_name td)) as En.
  { cbn. rewrite lookup_fmap, E. cbn. destruct b; by rewrite Em. }
  destruct (ok_meta _ _ _ HC _ _ _ En Hr) as (tdc & Ec & Hname).
  pose proof (ok_special _ _ _ HC m tdc Ec) as Hs. rewrite Hname in Hs. apply core_topic in Ec as (tdm & Etdm & <-).
  assert (td_special tdm = true) as Hs' by (cbn in Hs; rewrite Hs; by destruct b).
  wlp_step. eapply wlp_mono; [by apply Hread|]. intros elems s1 [H1 Hk1].
  destruct (vk_special _ _ _ _ Hk1 Etdm Hs') as (tdm' & E1 & Hs1).
  eapply wlp_mono; [by eapply kv_set_meta|]. intros [] s' [H' Hk]. split; [done|]. by eapply vk_trans.
Qed.
Lemma kv_UpdateMetaTopicPub s t : good x R s -> ~ R (RTopic false t) ->
  wlp (UpdateMetaTopicPub t) (fun _ s' => no3 s' /\ values_kept s s') s.
Proof.
  intros HG Hr. unfold UpdateMetaTopicPub. wlp_step. unfold topic at 1. do 3 wlp_step.
  destruct (td_metaPub _) as [m|] eqn:Em; [|apply kv_ret; by apply good_no3]. eapply (kv_update_meta s t _ false); try done. keep.
Qed.
Lemma kv_UpdateMetaTopicSub s t : good x R s -> ~ R (RTopic true t) ->
  wlp (UpdateMetaTopicSub t) (fun _ s' => no3 s' /\ values_kept s s') s.
Proof.
  intros HG Hr. unfold UpdateMetaTopicSub. wlp_step. unfold topic at 1. do 3 wlp_step.
  destruct (td_metaSub _) as [m|] eqn:Em; [|apply kv_ret; by apply good_no3]. eapply (kv_update_meta s t _ true); try done. keep.
Qed.
End Operations.
