(* ===== verification/ServerTopics.v ===== *)
(** * ServerTopics: creation and deletion of topics keep the server free of dangling pointers *)

From S2P Require Import Prelude NtTypes Monads LocalTypes Json JsonParser JsonRoundTrip.
From S2P Require Import Events WireEncoder4.
From S2P Require Import Mpack WireDecoder4 WireConnection4 NetworkQueue.
From S2P Require Import UidVector.
From S2P Require Import ServerTypes ServerImpl ServerCore ServerValues.
Local Open Scope Z_scope.

(** ** Text *)

Lemma dump_accept_codep s cp cp' : dump_escaped_loop false s UTF8_ACCEPT cp = dump_escaped_loop false s UTF8_ACCEPT cp'.
Proof. destruct s as [|b s]; [done|]. cbn [dump_escaped_loop]. unfold decode. done. Qed.

Lemma dump_escaped_app a b st cp ta tb : dump_escaped_loop false a st cp = Some ta ->
  dump_escaped_loop false b UTF8_ACCEPT 0 = Some tb -> dump_escaped_loop false (a ++ b) st cp = Some (ta ++ tb).
Proof.
  revert st cp ta. induction a as [|c a IH]; intros st cp ta Ha Hb; cbn [app dump_escaped_loop] in *.
  - destruct (st =? UTF8_ACCEPT) eqn:E; [|done]. apply Z.eqb_eq in E as ->. injection Ha as <-. cbn [app].
    by rewrite (dump_accept_codep b cp 0).
  - destruct (decode st cp c) as [st' cp']. destruct (st' =? UTF8_REJECT); [done|].
    apply bind_Some in Ha as (rest & Hr & [= <-]). rewrite (IH _ _ _ Hr Hb). cbn. by rewrite <- app_assoc.
Qed.
Lemma qstr_app a b : is_Some (qstr a) -> is_Some (qstr b) -> is_Some (qstr (a +:+ b)).
Proof.
  unfold qstr, quoted, dump_escaped. intros [ta (t1 & E1 & _)%bind_Some] [tb (t2 & E2 & _)%bind_Some].
  rewrite bytes_of_string_app, (dump_escaped_app _ _ _ _ _ _ E1 E2). by eexists.
Qed.

(** ** Names *)

Lemma app_after {A} (x : A) a : forall b p q, a ++ x :: p = b ++ x :: q -> x ∉ p -> x ∉ q -> p = q.
Proof.
  induction a as [|y a IH]; intros [|z b] p q E Hp Hq; cbn in E.
  - by injection E.
  - injection E as _ ->. exfalso. apply Hp. set_solver.
  - injection E as _ <-. exfalso. apply Hq. set_solver.
  - injection E as _ E. by eapply IH.
Qed.

Definition at_sign : Ascii.ascii := Ascii.ascii_of_nat 64.
Definition chars : string -> list Ascii.ascii := String.list_ascii_of_string.
Lemma chars_app a b : chars (a +:+ b) = chars a ++ chars b.
Proof. induction a as [|c a IH]; [done|]. change (chars (String c a +:+ b)) with (c :: chars (a +:+ b)). by rewrite IH. Qed.
Lemma chars_inj a b : chars a = chars b -> a = b.
Proof. intros E. rewrite <- (String.string_of_list_ascii_of_string a), <- (String.string_of_list_ascii_of_string b). unfold chars in E. by rewrite E. Qed.

Definition is_digit_char (c : Ascii.ascii) : Prop := (48 <= Ascii.nat_of_ascii c <= 57)%nat.
Lemma pretty_N_go_digits n : forall s, Forall is_digit_char (chars s) -> Forall is_digit_char (chars (pretty_N_go n s)).
Proof.
  induction n as [n IH] using (well_founded_induction N.lt_wf_0). intros s Hs. destruct (decide (n = 0)%N) as [->|Hn]; [by rewrite pretty_N_go_0|].
  rewrite pretty_N_go_step by lia. apply IH; [apply N.div_lt; lia|]. cbn. constructor; [|done].
  unfold pretty_N_char, is_digit_char. repeat case_match; (split; apply Nat.leb_le; reflexivity).
Qed.
Lemma pretty_digits (n : nat) : Forall is_digit_char (chars (pretty n)).
Proof.
  change (pretty n) with (pretty (N.of_nat n)). unfold pretty, pretty_N. case_decide.
  - constructor; [|constructor]. split; apply Nat.leb_le; reflexivity.
  - by apply pretty_N_go_digits.
Qed.
Lemma pretty_no_at (n : nat) : at_sign ∉ chars (pretty n).
Proof. intros Hin. pose proof (pretty_digits n) as Hd. rewrite Forall_forall in Hd. apply Hd in Hin. destruct Hin as [_ Hin]. by apply Nat.leb_le in Hin. Qed.
Lemma pretty_dump_digits l cp : Forall is_digit_char l -> is_Some (dump_escaped_loop false (Ascii.byte_of_ascii <$> l) UTF8_ACCEPT cp).
Proof.
  intros Hl. revert cp. induction Hl as [|c l Hc Hl IH]; intros cp; [by eexists|]. cbn [fmap list_fmap dump_escaped_loop].
  assert (decode UTF8_ACCEPT cp (Ascii.byte_of_ascii c) = (UTF8_ACCEPT, ub (Ascii.byte_of_ascii c))) as ->.
  { destruct Hc as [H1%Nat.leb_le H2%Nat.leb_le]. destruct c as [[] [] [] [] [] [] [] []]; first [discriminate H1|discriminate H2|reflexivity]. }
  change (UTF8_ACCEPT =? UTF8_REJECT) with false. cbv iota.
  destruct (IH (ub (Ascii.byte_of_ascii c))) as [t Et]. rewrite Et. by eexists.
Qed.
Lemma qstr_pretty (n : nat) : is_Some (qstr (pretty n)).
Proof.
  unfold qstr, quoted, dump_escaped. destruct (pretty_dump_digits (chars (pretty n)) 0 (pretty_digits n)) as [t Et].
  change (bytes_of_string (pretty n)) with (map Ascii.byte_of_ascii (chars (pretty n))).
  change (Ascii.byte_of_ascii <$> chars (pretty n)) with (map Ascii.byte_of_ascii (chars (pretty n))) in Et. rewrite Et. by eexists.
Qed.
Lemma at_inj a b (i j : nat) : a +:+ "@" +:+ pretty i = b +:+ "@" +:+ pretty j -> i = j.
Proof.
  intros E. apply (f_equal chars) in E. rewrite !chars_app in E. apply app_after in E; [|apply pretty_no_at..].
  apply chars_inj in E. by apply (inj pretty) in E.
Qed.

(** Strings that differ at the beginning *)
Ltac str_neq :=
  match goal with H : @eq string _ _ |- _ => apply (f_equal chars) in H; rewrite ?chars_app in H; discriminate H end.

(** ** Cores *)

Section Cores.
Context {JF : JsonFloat}.
Implicit Types C : Core.

Definition set_topic (t : addr) (td : TopicData) C : Core := C <| co_topics ::= <[t := td]> |>.

(** A topic with the same name in the same place *)
Lemma ok_replace_topic x R C t td td' : core_ok x R C -> co_topics C !! t = Some td ->
  td_id td' = td_id td -> td_name td' = td_name td -> td_special td' = td_special td -> topic_text td' ->
  (forall p, p ∈ td_publishers td' -> exists pb, co_pubs C !! p = Some pb /\ pb_topic pb = t) ->
  (forall p pb, co_pubs C !! p = Some pb -> Some (pb_client pb) <> x -> pb_topic pb = t -> p ∈ td_publishers td') ->
  (forall b, b ∈ td_subscribers td' -> is_Some (co_subs C !! b)) ->
  (td_special td' = true ->
     td_metaPub td' = None /\ td_metaSub td' = None /\ td_retained td' = true /\ td_publishers td' = []) ->
  (forall (b : bool) m, (if b then td_metaSub td' else td_metaPub td') = Some m -> ~ R (RTopic b t) ->
     exists tdm, co_topics C !! m = Some tdm /\ td_name tdm = (if b then "$sub$" else "$pub$") +:+ td_name td) ->
  core_ok x R (set_topic t td' C).
Proof.
  intros HC Et Eid En Es Htx Hp1 Hp2 Hs Hpl Hm.
  assert (forall t0 td0, <[t := td']> (co_topics C) !! t0 = Some td0 ->
    exists td1, co_topics C !! t0 = Some td1 /\ td_id td0 = td_id td1 /\ td_name td0 = td_name td1 /\ td_special td0 = td_special td1) as Hl.
  { intros t0 td0 [[<- <-]|[? ?]]%lookup_insert_Some; eauto 10. }
  assert (forall t0 td0, co_topics C !! t0 = Some td0 ->
    exists td1, <[t := td']> (co_topics C) !! t0 = Some td1 /\ td_id td1 = td_id td0 /\ td_name td1 = td_name td0) as Hr.
  { intros t0 td0 E0. destruct (decide (t0 = t)) as [->|]; [rewrite lookup_insert_eq|rewrite lookup_insert_ne by done]; eexists; split; [done| |done|]; by simplify_eq. }
  destruct HC; split; cbn; try done.
  - intros t0 td0 (td1 & E1 & -> & _)%Hl. eauto.
  - intros i t0 (td0 & E0 & <-)%ok_vector. apply Hr in E0 as (td1 & ? & ? & _). eauto.
  - intros t0 td0 (td1 & E1 & _ & -> & _)%Hl. eauto.
  - intros n t0 (td0 & E0 & <-)%ok_names. apply Hr in E0 as (td1 & ? & _ & ?). eauto.
  - intros t0 td0 p [[<- <-]|[? ?]]%lookup_insert_Some; eauto.
  - intros t0 td0 b [[<- <-]|[? ?]]%lookup_insert_Some; eauto.
  - intros p pb Epb. destruct (ok_pub p pb Epb) as [H1 H2]. split; [done|]. intros Hx. destruct (H2 Hx) as (td0 & E0 & Hin).
    destruct (decide (pb_topic pb = t)) as [E|Hne].
    + exists td'. rewrite E, lookup_insert_eq. split; [done|]. by eapply Hp2.
    + exists td0. by rewrite lookup_insert_ne.
  - intros r m n Er HR.
    assert (exists tdm, co_topics C !! m = Some tdm /\ td_name tdm = n) as (tdm & Em & <-);
      [|destruct (Hr _ _ Em) as (td1 & ? & _ & ?); eauto].
    destruct r as [b t0|b c|]; [|by apply (ok_meta (RClient b c))|by apply (ok_meta RClients)].
    destruct (decide (t0 = t)) as [->|Hne].
    + cbn in Er. rewrite lookup_insert_eq in Er. cbn in Er. apply bind_Some in Er as (m' & Em & [= <- <-]). rewrite En. by apply Hm.
    + apply (ok_meta (RTopic b t0)); [|done]. cbn in Er |- *. by rewrite lookup_insert_ne in Er.
  - intros t0 td0 E0. destruct (Hl _ _ E0) as (td1 & E1 & _ & -> & ->). eauto.
  - intros t0 td0 [[<- <-]|[? ?]]%lookup_insert_Some; eauto.
  - intros t0 td0 [[<- <-]|[? ?]]%lookup_insert_Some; eauto.
Qed.

(** A new topic *)
Definition add_topic (t : addr) (td : TopicData) (v : UidVector addr) C : Core :=
  C <| co_topics ::= <[t := td]> |> <| co_vec := v |> <| co_names ::= <[td_name td := t]> |>.
Lemma ok_add_topic x R C t td v : core_ok x R C -> co_topics C !! t = None -> co_names C !! td_name td = None ->
  uid_ok v -> uid_get (co_vec C) (td_id td) = None ->
  (forall j, uid_get v j = if decide (j = td_id td) then Some t else uid_get (co_vec C) j) ->
  topic_text td -> td_publishers td = [] -> td_subscribers td = [] -> td_metaPub td = None -> td_metaSub td = None ->
  td_special td = is_meta_name (td_name td) -> (td_special td = true -> td_retained td = true) ->
  core_ok x R (add_topic t td v C).
Proof.
  intros HC Et En Hv Hi Hget Htx Hp Hs Hm1 Hm2 Hsp Hret.
  assert (forall t0 td0, co_topics C !! t0 = Some td0 -> <[t := td]> (co_topics C) !! t0 = Some td0) as Hmono.
  { intros t0 td0 E0. rewrite lookup_insert_ne; [done|]. by intros ->; rewrite Et in E0. }
  destruct HC; split; cbn; try done.
  - intros t0 td0 [[<- <-]|[Hne E0]]%lookup_insert_Some; rewrite Hget; [by rewrite decide_True|].
    pose proof (ok_slot _ _ E0) as Hs0. rewrite decide_False; [done|]. intros Eq. rewrite Eq in Hs0. congruence.
  - intros i t0. rewrite Hget. destruct (decide (i = td_id td)) as [->|Hne].
    + intros [= <-]. exists td. by rewrite lookup_insert_eq.
    + intros (td0 & E0 & <-)%ok_vector. eauto.
  - intros t0 td0 [[<- <-]|[Hne E0]]%lookup_insert_Some; [by rewrite lookup_insert_eq|].
    pose proof (ok_named _ _ E0) as Hn0. rewrite lookup_insert_ne; [done|]. intros Eq. rewrite Eq in En. congruence.
  - intros n t0 [[<- <-]|[Hne (td0 & E0 & <-)%ok_names]]%lookup_insert_Some; [exists td; by rewrite lookup_insert_eq|eauto].
  - intros t0 td0 p [[<- <-]|[Hne E0]]%lookup_insert_Some; [rewrite Hp; by intros ?%not_elem_of_nil|eauto].
  - intros t0 td0 b [[<- <-]|[Hne E0]]%lookup_insert_Some; [rewrite Hs; by intros ?%not_elem_of_nil|eauto].
  - intros p pb Epb. destruct (ok_pub p pb Epb) as [H1 H2]. split; [done|]. intros (td0 & E0 & Hin)%H2. eauto.
  - intros r m n Er HR. assert (ref_info C r = Some (m, n)) as (td0 & E0 & <-)%ok_meta; [|eauto..|done].
    destruct r as [b t0|b c|]; [|done..]. cbn in Er |- *.
    destruct (decide (t0 = t)) as [->|Hne]; [|by rewrite lookup_insert_ne in Er].
    rewrite lookup_insert_eq in Er. cbn in Er. rewrite Hm1, Hm2 in Er. by destruct b.
  - intros t0 td0 [[<- <-]|[Hne E0]]%lookup_insert_Some; eauto.
  - intros t0 td0 [[<- <-]|[Hne E0]]%lookup_insert_Some; [|eauto]. intros Hs0. by rewrite Hm1, Hm2, Hp, Hret.
  - intros t0 td0 [[<- <-]|[Hne E0]]%lookup_insert_Some; eauto.
Qed.

(** A topic that nothing refers to but what is in [R] *)
Definition delete_topic (t : addr) (td : TopicData) C : Core :=
  C <| co_topics ::= delete t |> <| co_vec := (uid_erase (td_id td) (co_vec C)).2 |> <| co_names ::= delete (td_name td) |>.
Lemma ok_delete_topic x R C t td : core_ok x R C -> co_topics C !! t = Some td -> td_publishers td = [] ->
  (forall r n, ref_info C r = Some (t, n) -> ~ R r -> False) -> core_ok x R (delete_topic t td C).
Proof.
  intros HC Et Hp HR.
  pose proof (vector_erase_spec (co_vec C) (td_id td) (ok_uids _ _ _ HC)) as Hv.
  destruct (uid_erase (td_id td) (co_vec C)) as [o v] eqn:Ev. destruct Hv as (_ & Hv & Hget).
  assert (forall t0 td0, co_topics C !! t0 = Some td0 -> t0 <> t -> delete t (co_topics C) !! t0 = Some td0) as Hmono.
  { intros t0 td0 E0 Hne. by rewrite lookup_delete_ne. }
  destruct HC; split; unfold delete_topic; cbn; rewrite ?Ev; cbn; try done.
  - intros t0 td0 [Hne E0]%lookup_delete_Some. pose proof (ok_slot _ _ E0) as Hs0. rewrite Hget, decide_False; [done|].
    intros Eq. rewrite Eq, (ok_slot _ _ Et) in Hs0. congruence.
  - intros i t0. rewrite Hget. destruct (decide (i = td_id td)) as [->|Hne]; [done|]. intros (td0 & E0 & <-)%ok_vector.
    exists td0. split; [|done]. apply Hmono; [done|]. intros ->. by simplify_eq.
  - intros t0 td0 [Hne E0]%lookup_delete_Some. rewrite lookup_delete_ne; [eauto|]. intros Eq.
    pose proof (ok_named _ _ E0) as H1. rewrite <- Eq, (ok_named _ _ Et) in H1. congruence.
  - intros n t0 [Hne (td0 & E0 & <-)%ok_names]%lookup_delete_Some. exists td0. split; [|done]. apply Hmono; [done|]. intros ->. by simplify_eq.
  - intros t0 td0 p [Hne E0]%lookup_delete_Some. eauto.
  - intros t0 td0 b [Hne E0]%lookup_delete_Some. eauto.
  - intros p pb Epb. destruct (ok_pub p pb Epb) as [H1 H2]. split; [done|]. intros (td0 & E0 & Hin)%H2.
    exists td0. split; [|done]. apply Hmono; [done|]. intros Eq. rewrite Eq in E0. simplify_eq. rewrite Hp in Hin. by apply not_elem_of_nil in Hin.
  - intros r m n Er Hr. assert (ref_info C r = Some (m, n)) as Er'.
    { destruct r as [b t0|b c|]; [|done..]. cbn in Er |- *. destruct (decide (t0 = t)) as [->|Hne]; [by rewrite lookup_delete_eq in Er|by rewrite lookup_delete_ne in Er]. }
    destruct (ok_meta r m n Er' Hr) as (td0 & E0 & <-). exists td0. split; [|done]. apply Hmono; [done|]. intros ->. by eapply HR.
  - intros t0 td0 [Hne E0]%lookup_delete_Some. eauto.
  - intros t0 td0 [Hne E0]%lookup_delete_Some. eauto.
  - intros t0 td0 [Hne E0]%lookup_delete_Some. eauto.
Qed.

(** Fewer exceptions *)
Lemma ok_strengthen x (R Q : ref -> Prop) C : core_ok x (fun r => R r \/ Q r) C ->
  (forall r, Q r -> ref_info C r = None) -> core_ok x R C.
Proof.
  intros [] HQ. split; try done. intros r m n Er Hr. apply (ok_meta r); [done|]. intros [?|Hq]; [done|]. rewrite HQ in Er; done.
Qed.
Lemma ok_weaken x (R R' : ref -> Prop) C : core_ok x R C -> (forall r, R r -> R' r) -> core_ok x R' C.
Proof. intros [] HR. split; try done. intros r m n Er Hr. eauto. Qed.

(** No two references are to the same topic. *)
Lemma client_name_inj x R C c1 c2 cd1 cd2 : core_ok x R C -> co_clients C !! c1 = Some cd1 -> co_clients C !! c2 = Some cd2 ->
  c1 <> co_localClient C -> c2 <> co_localClient C -> cd_name cd1 = cd_name cd2 -> c1 = c2.
Proof.
  intros HC E1 E2 H1 H2 En. pose proof (ok_kind _ _ _ HC c1 cd1 E1) as K1. pose proof (ok_kind _ _ _ HC c2 cd2 E2) as K2.
  destruct (cd_kind cd1); [done| |done]. destruct (cd_kind cd2); [done| |done]. destruct K1 as [_ [a Ka]], K2 as [_ [b Kb]].
  rewrite Ka, Kb in En. apply at_inj in En. pose proof (ok_clients _ _ _ HC _ _ E1) as S1. pose proof (ok_clients _ _ _ HC _ _ E2) as S2.
  rewrite En in S1. congruence.
Qed.
Lemma ref_name_inj x R C r1 r2 m1 m2 n : core_ok x R C -> ref_info C r1 = Some (m1, n) -> ref_info C r2 = Some (m2, n) -> r1 = r2.
Proof.
  intros HC E1 E2. destruct r1 as [b1 t1|b1 c1|], r2 as [b2 t2|b2 c2|]; cbn in E1, E2;
    repeat match goal with H : _ ≫= _ = Some _ |- _ => apply bind_Some in H as (? & ? & H) end; simplify_eq; try done.
  - destruct b1, b2; cbn in *; simplify_eq; f_equal; (eapply (inj Some); erewrite <- !(ok_named _ _ _ HC) by done; congruence).
  - exfalso. repeat case_match; str_neq.
  - exfalso. repeat case_match; str_neq.
  - exfalso. repeat case_match; str_neq.
  - repeat case_bool_decide; subst; destruct b1, b2; cbn in *; simplify_eq; try done; f_equal; by eapply client_name_inj.
  - exfalso. repeat case_match; str_neq.
  - exfalso. repeat case_match; str_neq.
  - exfalso. repeat case_match; str_neq.
Qed.
Lemma ref_inj x R C r1 r2 m n1 n2 : core_ok x R C -> ref_info C r1 = Some (m, n1) -> ref_info C r2 = Some (m, n2) ->
  ~ R r1 -> ~ R r2 -> r1 = r2.
Proof.
  intros HC E1 E2 H1 H2. destruct (ok_meta _ _ _ HC _ _ _ E1 H1) as (td1 & Em1 & En1).
  destruct (ok_meta _ _ _ HC _ _ _ E2 H2) as (td2 & Em2 & En2). simplify_eq. by eapply ref_name_inj.
Qed.
Lemma ref_meta_name C r m n : ref_info C r = Some (m, n) -> is_meta_name n = true.
Proof.
  destruct r as [b t|b c|]; cbn; intros E;
    repeat match goal with H : _ ≫= _ = Some _ |- _ => apply bind_Some in H as (? & ? & H) end; simplify_eq; repeat case_match; done.
Qed.
End Cores.

(** ** Creation *)

Section Topics.
Context {L : Type} {LI : LocalInterface jvalue L} {LS : LocalInterfaceSafe jvalue L}.
Context {EN : Env} {WC : WpiClock} {JF : JsonFloat} {MA : Machine} {ML : MachineLaws}.
Context (x : option addr).
Implicit Types s : SImpl L.
Implicit Types R : ref -> Prop.

Lemma live_same s s' : s_store s' = s_store s -> s_clientHeap s' = s_clientHeap s -> live s -> live s'.
Proof. intros E1 E2 [H1 H2]. split; [by rewrite E1|by rewrite E2]. Qed.
Lemma wp_upd_topic s t td f Q : s_topicHeap s !! t = Some td ->
  Q tt (s <| s_topicHeap ::= <[t := f td]> |>) -> wp (upd_topic t f) Q s.
Proof. intros E HQ. unfold upd_topic. wp_step. by eapply wp_heap_topic. Qed.
Lemma core_set_topic s t td : core_of (s <| s_topicHeap ::= <[t := td]> |>) = set_topic t (td_core td) (core_of s).
Proof. unfold core_of, set_topic, fupd. cbn. by rewrite fmap_insert. Qed.

Lemma ok_resub R C t td l : core_ok x R C -> co_topics C !! t = Some td -> (forall b, b ∈ l -> is_Some (co_subs C !! b)) ->
  core_ok x R (set_topic t (td <| td_subscribers := l |>) C).
Proof.
  intros HC Et Hl. apply (ok_replace_topic x R C t td); try done.
  - exact (ok_text _ _ _ HC t td Et).
  - intros p Hp. by apply (ok_pubs _ _ _ HC t td).
  - intros p pb Epb Hx Ept. destruct (ok_pub _ _ _ HC p pb Epb) as [_ (td' & Etd' & Hin)]; [done|]. rewrite Ept in Etd'. by simplify_eq.
  - exact (ok_plain _ _ _ HC t td Et).
  - intros b m Em HR. assert (ref_info C (RTopic b t) = Some (m, (if b then "$sub$" else "$pub$") +:+ td_name td)) as E.
    { cbn. rewrite Et. cbn. cbn in Em. by destruct b; rewrite Em. }
    by apply (ok_meta _ _ _ HC _ _ _ E HR).
Qed.

(** The subscribers of a topic have changed, and nothing else. *)
Definition resub (t : addr) (C C' : Core) : Prop :=
  exists td l, co_topics C !! t = Some td /\ C' = set_topic t (td <| td_subscribers := l |>) C.
Lemma resub_refl t C : is_Some (co_topics C !! t) -> resub t C C.
Proof.
  intros [td E]. exists td, (td_subscribers td). split; [done|]. unfold set_topic, fupd. destruct C. cbn in *. f_equal.
  symmetry. apply insert_id. by destruct td.
Qed.
Lemma resub_trans t C1 C2 C3 : resub t C1 C2 -> resub t C2 C3 -> resub t C1 C3.
Proof.
  intros (td & l & E & ->) (td' & l' & E' & ->). exists td, l'. split; [done|]. cbn in E'. rewrite lookup_insert_eq in E'.
  injection E' as <-. unfold set_topic, fupd. cbn. f_equal. apply insert_insert_eq.
Qed.

Lemma wp_GetSubscribers R s c name special Q : good x R s -> has_client s c ->
  (forall bs s', quiet s s' -> (forall b, b ∈ bs -> is_Some (co_subs (core_of s') !! b)) -> Q bs s') ->
  wp (GetSubscribers c name special) Q s.
Proof.
  intros HG [cd Ecd]%has_client_heap HQ. unfold GetSubscribers. wp_step. eapply wp_client; [done|]. wp_step.
  unfold items. wp_step. unfold tick. do 2 (wp_step; wp_step). do 2 apply wp_ret.
  set (s0 := s <| s_tick ::= S |>). assert (quiet s s0) as Hq by (split; [done|]; by eapply live_same, HG).
  set (bs := dense_items _ _).
  assert (forall b, b ∈ bs.*2 -> is_Some (s_subHeap s0 !! b)) as Hb.
  { intros b ([uid b'] & -> & Hin%items_elem)%list_elem_of_fmap. destruct HG as [HC _].
    destruct (ok_csubs _ _ _ HC c _ uid b' (client_core s c cd Ecd) Hin) as (sb & Esb & _). by exists sb. }
  assert (wp (for_map bs (fun '(_, b) => let* sb := sub b in ret (if Matches name special sb then Some b else None)))
            (fun r s' => s' = s0 /\ forall b, Some b ∈ r -> is_Some (s_subHeap s0 !! b)) s0) as Hl.
  { clearbody bs. clear HQ. induction bs as [|[uid b] bs IH]; cbn [for_map].
    - apply wp_ret. split; [done|]. by intros b ?%not_elem_of_nil.
    - destruct (Hb b) as [sb Esb]; [left|]. wp_step. wp_step. eapply wp_sub; [done|]. do 2 wp_step.
      eapply wp_mono; [apply IH; intros b' Hb'; apply Hb; by right|]. intros r s' [-> Hr]. apply wp_ret. split; [done|].
      intros b' [Eb|Hin]%elem_of_cons; [|by apply Hr]. destruct (Matches _ _ _); [|done]. injection Eb as <-. by exists sb. }
  wp_step. eapply wp_mono; [exact Hl|]. intros r s' [-> Hr]. apply wp_ret, HQ; [done|].
  intros b (o & Ho & Eo)%list_elem_of_omap. cbn in Eo. subst o. by apply Hr.
Qed.

Lemma wp_announce_new R s from t c : good x R s -> has_topic s t -> has_client s c ->
  wp (announce_new from t c) (fun _ s' => good x R s' /\ resub t (core_of s) (core_of s')) s.
Proof.
  intros HG Ht Hc. unfold announce_new. wp_step. pose proof Ht as [td Etd]%has_topic_heap. eapply wp_heap_topic; [done|].
  wp_step. apply (wp_GetSubscribers R); [done..|]. intros bs s1 Hq1 Hbs. assert (good x R s1) as HG1 by (by eapply quiet_good).
  pose proof (quiet_topic _ _ _ Hq1 Ht) as Ht1. pose proof Ht1 as [td1 Etd1]%has_topic_heap.
  wp_step. eapply wp_upd_topic; [done|]. set (s2 := s1 <| s_topicHeap ::= _ |>).
  assert (core_of s2 = set_topic t (td_core td1 <| td_subscribers := td_subscribers td1 ++ bs |>) (core_of s1)) as E2
    by (unfold s2; by rewrite core_set_topic).
  assert (good x R s2) as HG2.
  { split; [|by eapply live_same, HG1]. rewrite E2. apply ok_resub; [by apply HG1|by apply topic_core|].
    intros b [Hb|Hb]%elem_of_app; [|by apply Hbs]. destruct HG1 as [HC1 _]. by apply (ok_subs _ _ _ HC1 t _ b (topic_core s1 t td1 Etd1)). }
  assert (resub t (core_of s) (core_of s2)) as Hre.
  { destruct Hq1 as [E1 _]. exists (td_core td1), (td_subscribers td1 ++ bs). rewrite <- E1. split; [by apply topic_core|done]. }
  eapply wp_mono; [apply kc_when; [by apply HG2|]; intros _; apply (kc_SendAnnounce x R)|].
  - done.
  - eapply quiet_client in Hc; [|done]. unfold has_client in *. by rewrite E2.
  - unfold has_topic. rewrite E2. cbn. by rewrite lookup_insert_eq.
  - intros [] s' Hq'. split; [by eapply quiet_good|]. destruct Hq' as [-> _]. done.
Qed.

(** A topic as it is made of its type and its properties *)
Definition made (typeStr : string) (props : gmap string jvalue) (td : TopicData) : Prop :=
  td_typeStr td = typeStr /\ td_properties td = props /\ td_persistent td = bool_property "persistent" props.
(** What [create_topic] has done *)
Definition created (name typeStr : string) (props : gmap string jvalue) (r : addr * bool) (C C' : Core) : Prop :=
  exists td, co_topics C' !! r.1 = Some td /\ td_name td = name /\ td_special td = is_meta_name name /\
  r.2 = bool_decide (co_names C !! name = None) /\
  if r.2 then co_topics C !! r.1 = None /\ td_metaPub td = None /\ td_metaSub td = None /\ td_publishers td = [] /\
              made typeStr props td /\ exists v, C' = add_topic r.1 td v C
  else C' = C.

Lemma wp_new_topic s td Q :
  (forall t s', s_topicHeap s !! t = None -> s' = s <| s_tick ::= S |> <| s_topicHeap ::= <[t := td]> |> -> Q t s') ->
  wp (new_topic td) Q s.
Proof.
  intros HQ. unfold new_topic, tick. wp_step. do 2 (wp_step; wp_step). wp_step. do 2 (wp_step; wp_step). wp_step. apply HQ; [|done].
  apply not_elem_of_dom, (alloc_fresh (s_tick s)).
Qed.

Lemma wp_create_topic R s from name typeStr props special : good x R s ->
  is_Some (qstr name) -> is_Some (qstr typeStr) -> is_Some (dump_obj props) -> special = is_meta_name name ->
  (special = true -> bool_property "retained" props = true) ->
  wp (create_topic from name typeStr props special)
    (fun r s' => good x R s' /\ created name typeStr props r (core_of s) (core_of s')) s.
Proof.
  intros HG Hn Hty Hp Hsp Hret. pose proof HG as [HC HL]. unfold create_topic. do 2 wp_step.
  destruct (s_nameTopics s !! name) as [t|] eqn:En.
  - destruct (ok_names _ _ _ HC name t En) as (tdc & Etd & Ename). pose proof (ok_special _ _ _ HC t tdc Etd) as Es.
    pose proof Etd as (td & Etd' & Ec)%core_topic. wp_step. eapply wp_heap_topic; [done|]. apply wp_ret. split; [done|].
    exists tdc. cbn [fst snd]. rewrite Es, Ename. cbn [core_of co_names]. by rewrite En.
  - wp_step. apply wp_new_topic. intros t s1 Ht ->. do 2 wp_step.
    destruct (uid_emplace_back 16 t (s_topics _)) as [id v] eqn:Ev.
    pose proof (uid_emplace_back_spec 16 (s_topics s) t (ok_uids _ _ _ HC)) as Hv. cbn in Ev. rewrite Ev in Hv. destruct Hv as (Hi & Hv & Hget).
    do 2 wp_step. set (s2 := _ <| s_nameTopics ::= _ |>).
    wp_step. eapply wp_upd_topic; [unfold s2; cbn; apply lookup_insert_eq|]. set (td := TopicData_make _ _ _ <| td_id := _ |> <| td_special := _ |>).
    set (s3 := s2 <| s_topicHeap ::= _ |>).
    assert (core_of s3 = add_topic t td v (core_of s)) as E3.
    { unfold s3, s2, core_of, add_topic, fupd. cbn. rewrite !fmap_insert, insert_insert_eq. done. }
    assert (good x R s3) as HG3.
    { split; [|by apply (live_same s)]. rewrite E3. apply ok_add_topic; try done. cbn. by rewrite lookup_fmap, Ht. }
    assert (has_topic s3 t) as Ht3 by (unfold has_topic; rewrite E3; cbn; by rewrite lookup_insert_eq).
    wp_step. apply wp_for_each_inv with (I := fun s' => good x R s' /\ resub t (core_of s3) (core_of s')).
    + split; [done|]. by apply resub_refl.
    + intros c s' Hc [HG' Hre]. eapply wp_mono; [apply (wp_announce_new R)|].
      * done.
      * destruct Hre as (td' & l & _ & E). unfold has_topic. rewrite E. cbn. by rewrite lookup_insert_eq.
      * apply list_elem_of_omap in Hc as (o & Ho & Eo). cbn in Eo. subst o.
        destruct Hre as (td' & l & _ & E). unfold has_client. rewrite E. apply (good_slot x R s3); done.
      * intros [] s'' [HG'' Hre']. split; [done|]. by eapply resub_trans.
    + intros s' [HG' (td' & l & Etd' & E)]. apply wp_ret. split; [done|]. rewrite E3 in Etd', E. cbn in Etd'. rewrite lookup_insert_eq in Etd'.
      injection Etd' as <-. exists (td <| td_subscribers := l |>). cbn [fst snd]. rewrite E. cbn. rewrite lookup_insert_eq.
      split_and!; try done; [by rewrite En|by rewrite lookup_fmap, Ht|]. exists v. unfold set_topic, add_topic, fupd. cbn. by rewrite insert_insert_eq.
Qed.

Lemma qstr_meta : is_Some (qstr "msgpack") /\ is_Some (dump_obj {["retained" := JBoolean true]}).
Proof. split; by eexists. Qed.
Lemma wp_CreateMetaTopic R s name : good x R s -> is_Some (qstr name) -> is_meta_name name = true ->
  wp (CreateMetaTopic name) (fun m s' => good x R s' /\ exists b, created name "msgpack" {["retained" := JBoolean true]} (m, b) (core_of s) (core_of s')) s.
Proof.
  intros HG Hn Hm. unfold CreateMetaTopic. wp_step. eapply wp_mono; [apply (wp_create_topic R); try done; by apply qstr_meta|].
  intros [m b] s' [HG' Hcr]. apply wp_ret. eauto.
Qed.

(** Steps grouped the other way *)
Lemma wp_seq {St A B} (k : A -> M St unit) (m : M St A) (r : M St B) Q (z : St) :
  wp (bind m k) (fun _ z' => wp r Q z') z -> wp (let* a := m in k a ;; r) Q z.
Proof. unfold wp, bind. destruct (m z) as [[a z']|]; [|done]. by destruct (k a z') as [[[] z'']|]. Qed.

(** Topics have been added. *)
Record grows (C C' : Core) : Prop := {
  gr_topics t td : co_topics C !! t = Some td -> co_topics C' !! t = Some td;
  gr_pubs : co_pubs C' = co_pubs C;
  gr_subs : co_subs C' = co_subs C;
  gr_clients : co_clients C' = co_clients C;
  gr_slots : co_slots C' = co_slots C;
  gr_localClient : co_localClient C' = co_localClient C;
  gr_metaClients : co_metaClients C' = co_metaClients C;
}.
Lemma grows_refl C : grows C C.
Proof. by split. Qed.
Lemma grows_trans C1 C2 C3 : grows C1 C2 -> grows C2 C3 -> grows C1 C3.
Proof. intros [] []. split; [eauto|congruence..]. Qed.
Lemma created_grows name typeStr props r C C' : created name typeStr props r C C' -> grows C C'.
Proof.
  intros (td & _ & _ & _ & _ & H). destruct r as [t []]; cbn in H; [|subst; apply grows_refl].
  destruct H as (Hn & _ & _ & _ & _ & v & ->). split; try done. cbn. intros t0 td0 E0. rewrite lookup_insert_ne; [done|]. by intros ->; rewrite Hn in E0.
Qed.
Lemma created_names name typeStr props r C C' n : created name typeStr props r C C' -> n <> name -> co_names C' !! n = co_names C !! n.
Proof.
  intros (td & _ & En & _ & _ & H) Hn. destruct r as [t []]; cbn in H; [|by subst].
  destruct H as (_ & _ & _ & _ & _ & v & ->). cbn. rewrite lookup_insert_ne; congruence.
Qed.
Lemma grows_set_topic C C' t td : grows C C' -> co_topics C !! t = None -> grows C (set_topic t td C').
Proof.
  intros [] Ht. split; try done. cbn. intros t0 td0 E0. rewrite lookup_insert_ne; [eauto|]. by intros ->; rewrite Ht in E0.
Qed.

Definition no_ref : ref -> Prop := fun _ => False.

Definition with_meta (b : bool) (m : addr) (td : TopicData) : TopicData :=
  if b then td <| td_metaSub := Some m |> else td <| td_metaPub := Some m |>.
Lemma ok_with_meta R C t td (b : bool) m tdm : core_ok x R C -> co_topics C !! t = Some td -> td_special td = false ->
  co_topics C !! m = Some tdm -> td_name tdm = (if b then "$sub$" else "$pub$") +:+ td_name td ->
  core_ok x R (set_topic t (with_meta b m td) C).
Proof.
  intros HC Et Hs Em En. apply (ok_replace_topic x R C t td); try done.
  - by destruct b.
  - by destruct b.
  - by destruct b.
  - pose proof (ok_text _ _ _ HC t td Et) as Ht. by destruct b.
  - intros p Hp. apply (ok_pubs _ _ _ HC t td); [done|]. by destruct b.
  - intros p pb Epb Hx Ept. destruct (ok_pub _ _ _ HC p pb Epb) as [_ (td' & Etd' & Hin)]; [done|]. rewrite Ept in Etd'. simplify_eq. by destruct b.
  - intros q Hin. apply (ok_subs _ _ _ HC t td); [done|]. by destruct b.
  - intros Hsp. exfalso. destruct b; cbn in Hsp; congruence.
  - intros b' m' Em' HR. destruct (decide (b' = b)) as [->|Hne].
    + exists tdm. destruct b; cbn in Em'; simplify_eq; done.
    + assert (ref_info C (RTopic b' t) = Some (m', (if b' then "$sub$" else "$pub$") +:+ td_name td)) as E.
      { cbn. rewrite Et. cbn. destruct b, b'; try done; cbn in Em'; by rewrite Em'. }
      by apply (ok_meta _ _ _ HC _ _ _ E HR).
Qed.

(** The meta topic of a topic, made and linked *)
Lemma wp_link_meta s t td (b : bool) name : good x no_ref s -> co_topics (core_of s) !! t = Some td -> td_special td = false ->
  td_name td = name -> is_Some (qstr name) ->
  wp (let* m := CreateMetaTopic ((if b then "$sub$" else "$pub$") +:+ name) in upd_topic t (with_meta b m))
    (fun _ s' => good x no_ref s' /\ exists m C2, grows (core_of s) C2 /\ core_of s' = set_topic t (with_meta b m td) C2 /\
       forall n, is_meta_name n = false -> co_names C2 !! n = co_names (core_of s) !! n) s.
Proof.
  intros HG Et Hs En Hq. wp_step. eapply wp_mono; [apply (wp_CreateMetaTopic no_ref)|].
  - done.
  - apply qstr_app; [|done]. by destruct b; eexists.
  - by destruct b.
  - intros m s1 [HG1 [nw Hcr]]. pose proof (created_grows _ _ _ _ _ _ Hcr) as Hgr.
    assert (forall n, is_meta_name n = false -> co_names (core_of s1) !! n = co_names (core_of s) !! n) as Hnames
      by (intros n Hn; eapply created_names; [exact Hcr|]; intros ->; by destruct b). destruct Hcr as (tdm & Em & Enm & _).
    pose proof (gr_topics _ _ Hgr t td Et) as Et1. pose proof Et1 as (td1 & Etd1 & Ec1)%core_topic.
    eapply wp_upd_topic; [done|]. rewrite core_set_topic. set (s2 := _ <| s_topicHeap ::= _ |>).
    assert (td_core (with_meta b m td1) = with_meta b m td) as Ew by (rewrite <- Ec1; by destruct b).
    rewrite Ew. split; [|eauto 10]. split; [|by apply (live_same s1), HG1].
    unfold s2. rewrite core_set_topic, Ew. destruct HG1 as [HC1 _]. eapply ok_with_meta; try done. by rewrite Enm, En.
Qed.

Lemma kv_link_meta t (b : bool) name :
  keeps_values (let* m := CreateMetaTopic ((if b then "$sub$" else "$pub$") +:+ name) in upd_topic t (with_meta b m) : M (SImpl L) unit).
Proof.
  apply kv_bind; [apply kv_CreateMetaTopic|]. intros m. apply kv_upd_topic. intros td. by destruct b.
Qed.
(** The values of the meta topics of a topic *)
Lemma wp_update_metas s t td : good x no_ref s -> co_topics (core_of s) !! t = Some td ->
  wp (UpdateMetaTopicPub t ;; UpdateMetaTopicSub t) (fun _ s' => quiet s s' /\ values_kept s s') s.
Proof.
  intros HG Et. wp_step.
  eapply wp_mono; [apply wp_wlp_and; [apply (kc_UpdateMetaTopicPub x no_ref); [done|by eexists|by intros []]|
    apply (kv_UpdateMetaTopicPub x no_ref); [done|by intros []]]|].
  intros [] s1 [Hq1 [_ Hk1]]. assert (good x no_ref s1) as HG1 by (by eapply quiet_good).
  eapply wp_mono; [apply wp_wlp_and; [apply (kc_UpdateMetaTopicSub x no_ref); [done|eapply quiet_topic; [done|by eexists]|by intros []]|
    apply (kv_UpdateMetaTopicSub x no_ref); [done|by intros []]]|].
  intros [] s2 [Hq2 [_ Hk2]]. split; [by eapply quiet_trans|by eapply vk_trans].
Qed.

Lemma wp_CreateTopic s from name typeStr props : good x no_ref s ->
  is_Some (qstr name) -> is_Some (qstr typeStr) -> is_Some (dump_obj props) -> is_meta_name name = false ->
  wp (CreateTopic from name typeStr props)
    (fun t s' => good x no_ref s' /\ grows (core_of s) (core_of s') /\
       exists td, co_topics (core_of s') !! t = Some td /\ td_name td = name /\ td_special td = false /\
       (co_names (core_of s) !! name = None -> made typeStr props td /\ co_topics (core_of s) !! t = None) /\
       (forall n, n <> name -> is_meta_name n = false -> co_names (core_of s') !! n = co_names (core_of s) !! n) /\
       values_kept s s') s.
Proof.
  intros HG Hn Hty Hp Hm. unfold CreateTopic. wp_step.
  eapply wp_mono; [apply wp_wlp_and; [apply (wp_create_topic no_ref); try done; intros [=]|apply kv_create_topic; by eapply good_no3]|].
  intros [t isNew] s1 [[HG1 Hcr] [_ Hk1]]. pose proof (created_grows _ _ _ _ _ _ Hcr) as Hgr.
  pose proof (fun n => created_names _ _ _ _ _ _ n Hcr) as Hnames1.
  destruct Hcr as (td & Etd & En & Es & Enew & Hnew). cbn [fst snd] in *. rewrite Hm in Es. destruct isNew; cbn [when].
  2:{ do 2 wp_step. wp_step. symmetry in Enew. apply bool_decide_eq_false in Enew. split_and!; [done..|]. exists td. split_and!; try done. intros n Hne _. by apply Hnames1. }
  destruct Hnew as (Hfresh & _ & _ & _ & Hmade & v & _).
  wp_step. apply (wp_seq (fun m => upd_topic t (with_meta false m))).
  eapply wp_mono; [apply wp_wlp_and; [by apply (wp_link_meta s1 t td false name)|apply (kv_link_meta t false); by eapply good_no3]|].
  intros [] s2 [(HG2 & m1 & C2 & Hgr2 & E2 & Hnames2) [_ Hk2]].
  apply (wp_seq (fun m => upd_topic t (with_meta true m))).
  eapply wp_mono; [apply wp_wlp_and; [apply (wp_link_meta s2 t (with_meta false m1 td) true name); try done; rewrite E2; apply lookup_insert_eq
    |apply (kv_link_meta t true); by eapply good_no3]|].
  intros [] s3 [(HG3 & m2 & C3 & Hgr3 & E3 & Hnames3) [_ Hk3]].
  assert (grows (core_of s) (core_of s3)) as Hgr'.
  { rewrite E3. apply grows_set_topic; [|done]. eapply grows_trans; [|exact Hgr3]. rewrite E2. apply grows_set_topic; [|done].
    by eapply grows_trans. }
  assert (co_topics (core_of s3) !! t = Some (with_meta true m2 (with_meta false m1 td))) as Et3 by (rewrite E3; apply lookup_insert_eq).
  eapply wp_mono; [by eapply wp_update_metas|].
  intros [] s5 [Hq5 Hk5]. apply wp_ret. split; [by eapply quiet_good|]. destruct Hq5 as [-> _]. split; [done|].
  eexists. split_and!; [exact Et3|done|done|done| |by eauto using vk_trans].
  intros n Hne Hn'. rewrite E3. cbn [set_topic co_names]. rewrite <- Hnames1 by done. etrans; [by apply Hnames3|]. rewrite E2. by apply Hnames2.
Qed.

(** ** Deletion *)

Lemma wp_subscribed_clients R s t td Q : good x R s -> s_topicHeap s !! t = Some td ->
  (forall cs, (forall c, c ∈ cs -> has_client s c) -> Q cs s) -> wp (subscribed_clients td) Q s.
Proof.
  intros HG Etd HQ. pose proof HG as [HC HL]. unfold subscribed_clients. wp_step.
  assert (forall b, b ∈ td_subscribers td -> is_Some (s_subHeap s !! b)) as Hb
    by (intros b; exact (ok_subs _ _ _ HC t _ b (topic_core s t td Etd))).
  assert (wp (for_map (td_subscribers td) (fun b => let* sb := sub b in let* cd := client (sb_client sb) in ret (cd_id cd)))
            (fun ids s' => s' = s /\ forall i, i ∈ ids -> (i < length (s_clients s))%nat) s) as Hl.
  { clear HQ Etd. induction (td_subscribers td) as [|b bs IH]; cbn [for_map].
    - apply wp_ret. split; [done|]. by intros i ?%not_elem_of_nil.
    - destruct (Hb b) as [sb Esb]; [left|]. destruct (ok_sub _ _ _ HC b sb Esb) as (cdc & Ec & _).
      pose proof (ok_clients _ _ _ HC _ _ Ec) as Hs. apply core_client in Ec as (cd & Ecd & <-).
      do 2 wp_step. eapply wp_sub; [done|]. wp_step. eapply wp_client; [done|]. do 2 wp_step.
      eapply wp_mono; [apply IH; intros; apply Hb; by right|]. intros ids s' [-> Hi]. apply wp_ret. split; [done|].
      intros i [->|Hin]%elem_of_cons; [|by apply Hi]. by eapply lookup_lt_Some. }
  eapply wp_mono; [exact Hl|]. intros ids s' [-> Hids]. do 2 wp_step. wp_step.
  assert (forallb (fun i => bool_decide (i < length (s_clients s))%nat) ids = true) as ->.
  { apply forallb_forall. intros i Hi. apply bool_decide_eq_true_2, Hids. by apply list_elem_of_In. }
  eapply wp_deref; [done|]. apply wp_ret, HQ. intros c (i & _ & Ei)%list_elem_of_omap. destruct (bool_decide _); [|done].
  destruct (s_clients s !! i) as [o|] eqn:Eo; [|done]. cbn in Ei. subst o. apply (good_slot x R s); [done|]. by eapply list_elem_of_lookup_2.
Qed.

Lemma core_erase R s t td td' : core_ok x R (core_of s) -> s_topicHeap s !! t = Some td -> td_core td = td' ->
  wp (erase_topic td) (fun _ s' => core_of s' = delete_topic t td' (core_of s) /\ (live s -> live s')) s.
Proof.
  intros HC Etd <-. unfold erase_topic. do 2 wp_step. destruct (uid_erase (td_id td) (s_topics s)) as [o v] eqn:Ev. wp_step.
  pose proof (vector_erase_spec _ (td_id td) (ok_uids _ _ _ HC)) as Hs. cbn in Hs. rewrite Ev in Hs. destruct Hs as (-> & _).
  pose proof (ok_slot _ _ _ HC t _ (topic_core s t td Etd)) as Hslot. cbn in Hslot. rewrite Hslot. split; [|by apply live_same].
  unfold core_of, delete_topic, fupd. cbn. rewrite Ev, fmap_delete. done.
Qed.

(** The part of [DeleteTopic] after the meta topics *)
Definition delete_tail (t : addr) : M (SImpl L) unit :=
  let* td := topic t in
  let* cs := subscribed_clients td in
  for_each cs (fun c => SendUnannounce c t) ;;
  let* td := topic t in
  erase_topic td.
Lemma wp_delete_tail R s t td : good x R s -> co_topics (core_of s) !! t = Some td -> td_publishers td = [] ->
  (forall r n, ref_info (core_of s) r = Some (t, n) -> ~ R r -> False) ->
  wp (delete_tail t) (fun _ s' => good x R s' /\ core_of s' = delete_topic t td (core_of s)) s.
Proof.
  intros HG Et Hp Hr. pose proof Et as (td0 & Etd0 & Ec0)%core_topic. unfold delete_tail. wp_step. eapply wp_heap_topic; [done|]. wp_step.
  eapply wp_subscribed_clients; [done..|]. intros cs Hcs. wp_step.
  eapply wp_mono; [apply kc_for_each; [by apply HG|]; intros c s' Hc Hq'; apply (kc_SendUnannounce x R)|].
  - by eapply quiet_good.
  - eapply quiet_client; [done|]. by apply Hcs.
  - eapply quiet_topic; [done|]. by exists td.
  - intros [] s1 [E1 HL1]. assert (good x R s1) as HG1 by (by eapply quiet_good). rewrite <- E1 in *.
    pose proof Et as (td1 & Etd1 & Ec1)%core_topic. wp_step. eapply wp_heap_topic; [done|].
    eapply wp_mono; [eapply (core_erase R s1); [by apply HG1|done..]|]. intros [] s2 [E2 HL2].
    split; [|done]. split; [|by apply HL2]. rewrite E2. apply ok_delete_topic; try done. by apply HG1.
Qed.

(** The topic [t] is gone, and perhaps meta topics. *)
Record shrinks (t : addr) (C C' : Core) : Prop := {
  sh_topics t' td : co_topics C' !! t' = Some td -> co_topics C !! t' = Some td;
  sh_gone : co_topics C' !! t = None;
  sh_others t' td : co_topics C !! t' = Some td -> t' <> t -> td_special td = false -> co_topics C' !! t' = Some td;
  sh_pubs : co_pubs C' = co_pubs C;
  sh_subs : co_subs C' = co_subs C;
  sh_clients : co_clients C' = co_clients C;
  sh_slots : co_slots C' = co_slots C;
  sh_localClient : co_localClient C' = co_localClient C;
  sh_metaClients : co_metaClients C' = co_metaClients C;
}.
Lemma shrinks_delete t td C : shrinks t C (delete_topic t td C).
Proof.
  split; try done; cbn.
  - by intros t' td' [_ ?]%lookup_delete_Some.
  - apply lookup_delete_eq.
  - intros t' td' E Hne _. by rewrite lookup_delete_ne.
Qed.
Lemma shrinks_trans m t C1 C2 C3 : is_Some (co_topics C2 !! t) -> (forall td, co_topics C1 !! m = Some td -> td_special td = true) ->
  shrinks m C1 C2 -> shrinks t C2 C3 -> shrinks t C1 C3.
Proof.
  intros [td Et] Hm [] []. split; [eauto|eauto| |congruence..].
  intros t' td' E Hne Hs. apply sh_others1; [|done..]. apply sh_others0; [done| |done]. intros ->. apply Hm in E. congruence.
Qed.
Lemma ref_shrinks t C C' r p : shrinks t C C' -> ref_info C' r = Some p -> ref_info C r = Some p.
Proof.
  intros []. destruct r as [b t'|b c|]; cbn; [|by rewrite sh_clients0, sh_localClient0|by rewrite sh_metaClients0].
  destruct (co_topics C' !! t') as [td|] eqn:E; [|done]. apply sh_topics0 in E as ->. done.
Qed.

(** A meta topic has no meta topics of its own. *)
Lemma wp_delete_special R s fuel m td : good x R s -> co_topics (core_of s) !! m = Some td -> td_special td = true ->
  (forall r n, ref_info (core_of s) r = Some (m, n) -> ~ R r -> False) ->
  wp (DeleteTopic_rec (S fuel) (Some m)) (fun _ s' => good x R s' /\ core_of s' = delete_topic m td (core_of s)) s.
Proof.
  intros HG Em Hs Hr. pose proof HG as [HC _]. destruct (ok_plain _ _ _ HC m td Em Hs) as (H1 & H2 & _ & H3).
  pose proof Em as (td0 & Etd0 & Ec0)%core_topic.
  assert (td_metaPub td0 = None /\ td_metaSub td0 = None) as [N1 N2] by (by rewrite <- Ec0 in H1, H2).
  cbn [DeleteTopic_rec]. wp_step. eapply wp_heap_topic; [done|]. rewrite N1. wp_step.
  assert (forall f, DeleteTopic_rec f None = (skip : M (SImpl L) unit)) as Hnone by (by intros []). rewrite Hnone. wp_step.
  wp_step. eapply wp_heap_topic; [done|]. rewrite N2. wp_step. rewrite Hnone. wp_step. by apply wp_delete_tail.
Qed.

(** The meta topics of the topic that is being deleted *)
Definition meta_gone (om : option addr) (C C' : Core) : Prop :=
  match om with
  | None => C' = C
  | Some m => exists td, co_topics C !! m = Some td /\ td_special td = true /\ C' = delete_topic m td C
  end.
Lemma wp_delete_meta R s fuel om : good x R s ->
  (forall m, om = Some m -> exists td, co_topics (core_of s) !! m = Some td /\ td_special td = true /\
     forall r n, ref_info (core_of s) r = Some (m, n) -> ~ R r -> False) ->
  wp (DeleteTopic_rec (S fuel) om) (fun _ s' => good x R s' /\ meta_gone om (core_of s) (core_of s')) s.
Proof.
  intros HG Hm. destruct om as [m|]; [|by apply wp_ret]. destruct (Hm m eq_refl) as (td & Etd & Hs & Href).
  eapply wp_mono; [by eapply wp_delete_special|]. intros [] s' [HG' E]. split; [done|]. by exists td.
Qed.
Lemma meta_gone_shrinks om t td C1 C2 C3 : meta_gone om C1 C2 -> co_topics C2 !! t = Some td -> shrinks t C2 C3 -> shrinks t C1 C3.
Proof.
  destruct om as [m|]; cbn; [|by intros ->]. intros (tdm & Em & Hs & ->) Et Hsh. eapply shrinks_trans; [| |apply shrinks_delete|exact Hsh].
  - by exists td.
  - intros td' E. by simplify_eq.
Qed.
Lemma meta_gone_topic om C C' t td : meta_gone om C C' -> co_topics C !! t = Some td -> om <> Some t ->
  co_topics C' !! t = Some td.
Proof.
  destruct om as [m|]; cbn; [|by intros ->]. intros (tdm & Em & Hs & ->) Et Hne. cbn. rewrite lookup_delete_ne; [done|]. congruence.
Qed.
Lemma meta_gone_ref om C C' r p : meta_gone om C C' -> ref_info C' r = Some p -> ref_info C r = Some p.
Proof. destruct om as [m|]; cbn; [|by intros ->]. intros (tdm & Em & Hs & ->). by eapply ref_shrinks, shrinks_delete. Qed.

Lemma meta_ref C t td (b : bool) m : co_topics C !! t = Some td -> (if b then td_metaSub td else td_metaPub td) = Some m ->
  exists n, ref_info C (RTopic b t) = Some (m, n).
Proof. intros Et Em. cbn. rewrite Et. cbn. destruct b; rewrite Em; cbn; eauto. Qed.
Lemma meta_topic R C t td (b : bool) m : core_ok x R C -> ~ R (RTopic b t) -> co_topics C !! t = Some td ->
  (if b then td_metaSub td else td_metaPub td) = Some m -> exists tdm, co_topics C !! m = Some tdm /\ td_special tdm = true.
Proof.
  intros HC HR Et Em. destruct (meta_ref C t td b m Et Em) as [n En]. destruct (ok_meta _ _ _ HC _ _ _ En HR) as (tdm & Etm & Enm).
  exists tdm. split; [done|]. rewrite (ok_special _ _ _ HC m tdm Etm), Enm. by eapply ref_meta_name.
Qed.

Definition or_topic (R : ref -> Prop) (t : addr) : ref -> Prop := fun r => R r \/ exists b, r = RTopic b t.

Lemma wp_DeleteTopic_plain R s fuel t td : good x R s -> (forall b, ~ R (RTopic b t)) ->
  co_topics (core_of s) !! t = Some td -> td_special td = false -> td_publishers td = [] ->
  wp (DeleteTopic_rec (S (S fuel)) (Some t)) (fun _ s' => good x R s' /\ shrinks t (core_of s) (core_of s')) s.
Proof.
  intros HG HR Et Hs Hp. pose proof HG as [HC HL]. set (R' := or_topic R t).
  assert (good x R' s) as HG' by (split; [eapply ok_weaken; [exact HC|by left]|done]).
  assert (forall b m, (if b : bool then td_metaSub td else td_metaPub td) = Some m -> m <> t) as Hmt.
  { intros b m Em ->. destruct (meta_topic R _ t td b t HC (HR b) Et Em) as (tdm & Etm & Hsm). simplify_eq. congruence. }
  assert (forall b m C', (if b : bool then td_metaSub td else td_metaPub td) = Some m ->
    (forall r p, ref_info C' r = Some p -> ref_info (core_of s) r = Some p) ->
    forall r n, ref_info C' r = Some (m, n) -> ~ R' r -> False) as Href.
  { intros b m C' Em Hsub r n Er Hr. destruct (meta_ref _ t td b m Et Em) as [n' En']. apply Hr. right. exists b.
    eapply (ref_inj x R (core_of s)); [done|by apply Hsub|done| |done]. intros ?. apply Hr. by left. }
  cbn [DeleteTopic_rec]. wp_step. pose proof Et as (td0 & Etd0 & Ec0)%core_topic. eapply wp_heap_topic; [done|].
  assert (td_metaPub td0 = td_metaPub td) as -> by (by rewrite <- Ec0). wp_step.
  eapply wp_mono; [apply (wp_delete_meta R'); [done|]|].
  { intros m Em. destruct (meta_topic R _ t td false m HC (HR false) Et Em) as (tdm & Etm & Hsm). exists tdm. split_and!; [done..|]. by apply (Href false). }
  intros [] s1 [HG1 Hg1]. assert (co_topics (core_of s1) !! t = Some td) as Et1
    by (eapply meta_gone_topic; [done..|]; intros E; by apply (Hmt false t)).
  wp_step. pose proof Et1 as (td1 & Etd1 & Ec1)%core_topic. eapply wp_heap_topic; [done|].
  assert (td_metaSub td1 = td_metaSub td) as -> by (by rewrite <- Ec1). wp_step.
  eapply wp_mono; [apply (wp_delete_meta R'); [done|]|].
  { intros m Em. destruct (meta_topic R _ t td true m HC (HR true) Et Em) as (tdm & Etm & Hsm). exists tdm. split_and!; [|done|].
    - eapply meta_gone_topic; [done..|]. intros Em1. destruct (meta_ref _ t td true m Et Em) as [n1 E1]. destruct (meta_ref _ t td false m Et Em1) as [n2 E2].
      by assert (RTopic true t = RTopic false t) by (by eapply ref_inj).
    - apply (Href true); [done|]. intros r p. by eapply meta_gone_ref. }
  intros [] s2 [HG2 Hg2]. assert (co_topics (core_of s2) !! t = Some td) as Et2
    by (eapply meta_gone_topic; [done..|]; intros E; by apply (Hmt true t)).
  eapply wp_mono; [eapply (wp_delete_tail R'); try done|].
  - intros r n Er Hr. eapply meta_gone_ref in Er; [|done]. eapply meta_gone_ref in Er; [|done].
    destruct (ok_meta _ _ _ HC r t n Er) as (td' & Etd' & En'); [intros ?; apply Hr; by left|]. simplify_eq.
    pose proof (ok_special _ _ _ HC t _ Et) as Hsp. rewrite (ref_meta_name _ _ _ _ Er) in Hsp. congruence.
  - intros [] s3 [HG3 E3]. assert (shrinks t (core_of s2) (core_of s3)) as Hsh by (rewrite E3; apply shrinks_delete). split.
    + destruct HG3 as [HC3 HL3]. split; [|done]. eapply ok_strengthen; [exact HC3|]. intros r [b ->]. cbn [ref_info]. by rewrite (sh_gone _ _ _ Hsh).
    + eapply meta_gone_shrinks; [exact Hg1|exact Et1|]. by eapply meta_gone_shrinks.
Qed.

Lemma wp_DeleteTopic R s t td : good x R s -> (forall b, ~ R (RTopic b t)) ->
  co_topics (core_of s) !! t = Some td -> td_publishers td = [] ->
  (td_special td = true -> forall r n, ref_info (core_of s) r = Some (t, n) -> ~ R r -> False) ->
  wp (DeleteTopic (Some t)) (fun _ s' => good x R s' /\ shrinks t (core_of s) (core_of s')) s.
Proof.
  intros HG HR Et Hp Hsp. unfold DeleteTopic. do 2 wp_step. destruct (td_special td) eqn:Es.
  - eapply wp_mono; [eapply wp_delete_special; try done; by apply Hsp|]. intros [] s' [HG' E]. split; [done|]. rewrite E. apply shrinks_delete.
  - assert (exists n, size (s_topicHeap s) = S n) as [n ->]; [|by eapply wp_DeleteTopic_plain].
    destruct (size (s_topicHeap s)) eqn:E; [|eauto]. apply map_size_empty_inv in E. cbn in Et. by rewrite E, lookup_fmap, lookup_empty in Et.
Qed.
End Topics.
