(* ===== verification/ServerSafety.v ===== *)
(** * ServerSafety: the operations of the server are free of undefined behaviour

    Each operation of clients of version 4 and of the local client, in a state in which no
    pointer dangles, ends in such a state ([ok]), if it keeps to the protocol. *)

From S2P Require Import Prelude NtTypes Monads LocalTypes Json JsonParser JsonRoundTrip Events.
From S2P Require Import WireEncoder4 Mpack WireDecoder4 WireConnection4 NetworkQueue UidVector.
From S2P Require Import ServerTypes ServerImpl ServerCore ServerTopics.

(** * ServerWires: publishers and subscribers of the server

    How topics and clients are linked by publishers and subscribers, apart from the rest of
    the structure ([wires]), and the changes that keep the links whole. *)

Local Open Scope Z_scope.

Section Wires.
Context {JF : JsonFloat}.
Implicit Types C : Core.

Record wires (x : option addr) C : Prop := {
  wi_pubs t td p : co_topics C !! t = Some td -> p ∈ td_publishers td ->
    exists pb, co_pubs C !! p = Some pb /\ pb_topic pb = t;
  wi_subs t td b : co_topics C !! t = Some td -> b ∈ td_subscribers td -> is_Some (co_subs C !! b);
  wi_pub p pb : co_pubs C !! p = Some pb ->
    (exists cd, co_clients C !! pb_client pb = Some cd /\ cd_publishers cd !! pb_pubuid pb = Some p) /\
    (Some (pb_client pb) <> x -> exists td, co_topics C !! pb_topic pb = Some td /\ p ∈ td_publishers td);
  wi_sub b sb : co_subs C !! b = Some sb ->
    exists cd, co_clients C !! sb_client sb = Some cd /\ cd_subscribers cd !! sb_subuid sb = Some b;
  wi_cpubs c cd uid p : co_clients C !! c = Some cd -> cd_publishers cd !! uid = Some p ->
    exists pb, co_pubs C !! p = Some pb /\ pb_client pb = c /\ pb_pubuid pb = uid;
  wi_csubs c cd uid b : co_clients C !! c = Some cd -> cd_subscribers cd !! uid = Some b ->
    exists sb, co_subs C !! b = Some sb /\ sb_client sb = c /\ sb_subuid sb = uid;
  wi_special t td : co_topics C !! t = Some td -> td_special td = true -> td_publishers td = [];
}.
Lemma core_wires x R C : core_ok x R C -> wires x C.
Proof. intros []. split; try done. intros t td E Hs. by apply (ok_plain t td). Qed.

(** What the links do not touch *)
Definition td_skel (td : TopicData) : TopicData := td <| td_publishers := [] |> <| td_subscribers := [] |>.
Definition cd_skel (cd : ClientData) : ClientData := cd <| cd_publishers := ∅ |> <| cd_subscribers := ∅ |>.
Record same_skel C C' : Prop := {
  sk_topics t : td_skel <$> co_topics C' !! t = td_skel <$> co_topics C !! t;
  sk_clients c : cd_skel <$> co_clients C' !! c = cd_skel <$> co_clients C !! c;
  sk_slots : co_slots C' = co_slots C;
  sk_vec : co_vec C' = co_vec C;
  sk_names : co_names C' = co_names C;
  sk_localClient : co_localClient C' = co_localClient C;
  sk_metaClients : co_metaClients C' = co_metaClients C;
}.
Lemma sk_topic C C' t td : same_skel C C' -> co_topics C' !! t = Some td -> exists td0, co_topics C !! t = Some td0 /\ td_skel td0 = td_skel td.
Proof.
  intros HS E. pose proof (sk_topics _ _ HS t) as Es. rewrite E in Es. cbn in Es. symmetry in Es. apply fmap_Some in Es as (td0 & E0 & Es). eauto.
Qed.
Lemma sk_client C C' c cd : same_skel C C' -> co_clients C' !! c = Some cd -> exists cd0, co_clients C !! c = Some cd0 /\ cd_skel cd0 = cd_skel cd.
Proof.
  intros HS E. pose proof (sk_clients _ _ HS c) as Es. rewrite E in Es. cbn in Es. symmetry in Es. apply fmap_Some in Es as (cd0 & E0 & Es). eauto.
Qed.
Lemma skel_sym C C' : same_skel C C' -> same_skel C' C.
Proof. intros []. by split. Qed.
Lemma skel_refl C : same_skel C C.
Proof. by split. Qed.
Lemma skel_trans C1 C2 C3 : same_skel C1 C2 -> same_skel C2 C3 -> same_skel C1 C3.
Proof. intros [] []. split; intros; congruence. Qed.
Lemma sk_ref C C' r : same_skel C C' -> ref_info C' r = ref_info C r.
Proof.
  intros HS. pose proof HS as []. destruct r as [b t|b c|]; cbn [ref_info]; rewrite ?sk_localClient0, ?sk_metaClients0; [| |done].
  - destruct (co_topics C' !! t) as [td|] eqn:E.
    + destruct (sk_topic _ _ _ _ HS E) as (td0 & -> & Es). cbn.
      assert (td_metaSub td = td_metaSub td0 /\ td_metaPub td = td_metaPub td0 /\ td_name td = td_name td0) as (-> & -> & ->); [|done].
      split_and!; [exact (f_equal td_metaSub (eq_sym Es))|exact (f_equal td_metaPub (eq_sym Es))|exact (f_equal td_name (eq_sym Es))].
    + specialize (sk_topics0 t). rewrite E in sk_topics0. by destruct (co_topics C !! t).
  - destruct (co_clients C' !! c) as [cd|] eqn:E.
    + destruct (sk_client _ _ _ _ HS E) as (cd0 & -> & Es). cbn.
      assert (cd_metaSub cd = cd_metaSub cd0 /\ cd_metaPub cd = cd_metaPub cd0 /\ cd_name cd = cd_name cd0) as (-> & -> & ->); [|done].
      split_and!; [exact (f_equal cd_metaSub (eq_sym Es))|exact (f_equal cd_metaPub (eq_sym Es))|exact (f_equal cd_name (eq_sym Es))].
    + specialize (sk_clients0 c). rewrite E in sk_clients0. by destruct (co_clients C !! c).
Qed.

Lemma ok_rewire x x' R C C' : core_ok x R C -> same_skel C C' -> wires x' C' -> core_ok x' R C'.
Proof.
  intros HC HS [].
  assert (forall t td, co_topics C' !! t = Some td -> exists td0, co_topics C !! t = Some td0 /\ td_id td = td_id td0 /\
    td_name td = td_name td0 /\ td_special td = td_special td0 /\ (td_metaPub td, td_metaSub td, td_retained td) = (td_metaPub td0, td_metaSub td0, td_retained td0) /\
    (topic_text td0 -> topic_text td)) as Ht.
  { intros t td E. destruct (sk_topic _ _ _ _ HS E) as (td0 & E0 & Es). exists td0. destruct td, td0. unfold td_skel in Es. cbn in *. simplify_eq. done. }
  assert (forall c cd, co_clients C' !! c = Some cd -> exists cd0, co_clients C !! c = Some cd0 /\ cd_id cd = cd_id cd0 /\
    cd_name cd = cd_name cd0 /\ cd_kind cd = cd_kind cd0) as Hc.
  { intros c cd E. destruct (sk_client _ _ _ _ HS E) as (cd0 & E0 & Es). exists cd0. destruct cd, cd0. unfold cd_skel in Es. cbn in *. simplify_eq. done. }
  assert (forall t td0, co_topics C !! t = Some td0 -> exists td, co_topics C' !! t = Some td /\ td_id td = td_id td0 /\ td_name td = td_name td0) as Ht'.
  { intros t td0 E. destruct (sk_topic _ _ _ _ (skel_sym _ _ HS) E) as (td & E' & _). destruct (Ht _ _ E') as (? & ? & ? & ? & _). simplify_eq. eauto. }
  destruct HC, HS. split; rewrite ?sk_vec0, ?sk_names0, ?sk_slots0, ?sk_localClient0; try done.
  - intros t td (td0 & E0 & -> & _)%Ht. eauto.
  - intros i t (td0 & E0 & <-)%ok_vector. apply Ht' in E0 as (td & ? & ? & _). eauto.
  - intros t td (td0 & E0 & _ & -> & _)%Ht. eauto.
  - intros n t (td0 & E0 & <-)%ok_names. apply Ht' in E0 as (td & ? & _ & ?). eauto.
  - intros c cd (cd0 & E0 & -> & _)%Hc. eauto.
  - intros i c (cd0 & E0 & <-)%ok_slots. specialize (sk_clients0 c). rewrite E0 in sk_clients0. apply fmap_Some in sk_clients0 as (cd & E & _).
    destruct (Hc _ _ E) as (? & ? & ? & _). simplify_eq. eauto.
  - intros c cd (cd0 & E0 & -> & -> & ->)%Hc. apply (ok_kind c). done.
  - intros r m n. rewrite (sk_ref C C') by (by split). intros Er Hr. destruct (ok_meta r m n Er Hr) as (td0 & E0 & <-).
    apply Ht' in E0 as (td & ? & _ & ?). eauto.
  - intros t td (td0 & E0 & _ & -> & -> & _)%Ht. eauto.
  - intros t td E Hs. destruct (Ht _ _ E) as (td0 & E0 & _ & _ & Es & Em & _). simplify_eq. rewrite H, H0, H1.
    destruct (ok_plain t td0 E0) as (-> & -> & -> & _); [congruence|]. by rewrite (wi_special0 t td).
  - intros t td (td0 & E0 & _ & _ & _ & _ & Htx)%Ht. eauto.
Qed.

Lemma skel_insert_topic C t td td' : co_topics C !! t = Some td -> td_skel td' = td_skel td -> same_skel C (set_topic t td' C).
Proof.
  intros E Es. split; try done. cbn. intros t0. destruct (decide (t0 = t)) as [->|]; [rewrite lookup_insert_eq, E|by rewrite lookup_insert_ne].
  cbn. by rewrite Es.
Qed.
Definition set_client (c : addr) (cd : ClientData) C : Core := C <| co_clients ::= <[c := cd]> |>.
Lemma skel_insert_client C c cd cd' : co_clients C !! c = Some cd -> cd_skel cd' = cd_skel cd -> same_skel C (set_client c cd' C).
Proof.
  intros E Es. split; try done. cbn. intros c0. destruct (decide (c0 = c)) as [->|]; [rewrite lookup_insert_eq, E|by rewrite lookup_insert_ne].
  cbn. by rewrite Es.
Qed.
Lemma skel_pubs C f : same_skel C (C <| co_pubs ::= f |>).
Proof. by split. Qed.
Lemma skel_subs C f : same_skel C (C <| co_subs ::= f |>).
Proof. by split. Qed.

(** ** Publishers *)

Definition link_pub (p : addr) (pb : PublisherData) (cd : ClientData) (td : TopicData) C : Core :=
  set_topic (pb_topic pb) (td <| td_publishers ::= fun l => l ++ [p] |>)
    (set_client (pb_client pb) (cd <| cd_publishers ::= <[pb_pubuid pb := p]> |>) (C <| co_pubs ::= <[p := pb]> |>)).
Lemma ok_link_pub x R C p pb cd td : core_ok x R C -> co_pubs C !! p = None ->
  co_clients C !! pb_client pb = Some cd -> cd_publishers cd !! pb_pubuid pb = None ->
  co_topics C !! pb_topic pb = Some td -> td_special td = false -> core_ok x R (link_pub p pb cd td C).
Proof.
  intros HC Hp Hc Hu Ht Hs. eapply ok_rewire; [exact HC| |].
  - unfold link_pub. eapply skel_trans; [|eapply skel_insert_topic; [exact Ht|done]].
    eapply skel_trans; [|eapply skel_insert_client; [exact Hc|done]]. apply (skel_pubs _ <[p := pb]>).
  - apply core_wires in HC as []. split; cbn.
    + intros t td0 q [[<- <-]|[Hne E0]]%lookup_insert_Some Hq.
      * apply elem_of_app in Hq as [Hq|Hq%list_elem_of_singleton]; [|subst q; exists pb; by rewrite lookup_insert_eq].
        destruct (wi_pubs0 _ _ q Ht Hq) as (pb' & E & ?). exists pb'. rewrite lookup_insert_ne; [done|]. congruence.
      * destruct (wi_pubs0 _ _ q E0 Hq) as (pb' & E & ?). exists pb'. rewrite lookup_insert_ne; [done|]. congruence.
    + intros t td0 b [[<- <-]|[Hne E0]]%lookup_insert_Some Hb; eauto.
    + intros q pb' [[<- <-]|[Hne E0]]%lookup_insert_Some.
      * split; [eexists; rewrite lookup_insert_eq; split; [done|]; cbn; by rewrite lookup_insert_eq|].
        intros _. eexists. rewrite lookup_insert_eq. split; [done|]. cbn. set_solver.
      * destruct (wi_pub0 q pb' E0) as [(cd' & Ec & Eu) H2]. split.
        -- destruct (decide (pb_client pb' = pb_client pb)) as [E|Hn]; [|exists cd'; by rewrite lookup_insert_ne].
           rewrite E, lookup_insert_eq. eexists. split; [done|]. cbn. rewrite E in Ec. simplify_eq.
           rewrite lookup_insert_ne; [done|]. congruence.
        -- intros Hx. destruct (H2 Hx) as (td' & Et & Hin). destruct (decide (pb_topic pb' = pb_topic pb)) as [E|Hn]; [|exists td'; by rewrite lookup_insert_ne].
           rewrite E, lookup_insert_eq. eexists. split; [done|]. cbn. rewrite E in Et. simplify_eq. set_solver.
    + intros b sb E. destruct (wi_sub0 b sb E) as (cd' & Ec & Eu). destruct (decide (sb_client sb = pb_client pb)) as [Eq|Hn]; [|exists cd'; by rewrite lookup_insert_ne].
      rewrite Eq, lookup_insert_eq. eexists. split; [done|]. cbn. rewrite Eq in Ec. by simplify_eq.
    + intros c cd' uid q [[<- <-]|[Hne E0]]%lookup_insert_Some Hq.
      * cbn in Hq. apply lookup_insert_Some in Hq as [[<- <-]|[Hnu Hq]]; [exists pb; by rewrite lookup_insert_eq|].
        destruct (wi_cpubs0 _ _ _ _ Hc Hq) as (pb' & E & ?). exists pb'. rewrite lookup_insert_ne; [done|]. congruence.
      * destruct (wi_cpubs0 _ _ _ _ E0 Hq) as (pb' & E & ?). exists pb'. rewrite lookup_insert_ne; [done|]. congruence.
    + intros c cd' uid b [[<- <-]|[Hne E0]]%lookup_insert_Some Hb; eauto.
    + intros t td0 [[<- <-]|[Hne E0]]%lookup_insert_Some; [cbn; congruence|eauto].
Qed.

Definition unlink_pub (p : addr) (pb : PublisherData) (cd : ClientData) (td : TopicData) C : Core :=
  set_client (pb_client pb) (cd <| cd_publishers ::= delete (pb_pubuid pb) |>)
    (set_topic (pb_topic pb) (td <| td_publishers ::= set_remove p |>) C) <| co_pubs ::= delete p |>.
Lemma elem_of_set_remove p q l : q ∈ set_remove p l <-> q ∈ l /\ q <> p.
Proof.
  unfold set_remove. rewrite !list_elem_of_In, filter_In, negb_true_iff, bool_decide_eq_false. done.
Qed.
Lemma ok_unlink_pub x R C p pb cd td : core_ok x R C -> co_pubs C !! p = Some pb ->
  co_clients C !! pb_client pb = Some cd -> co_topics C !! pb_topic pb = Some td -> core_ok x R (unlink_pub p pb cd td C).
Proof.
  intros HC Hp Hc Ht. eapply ok_rewire; [exact HC| |].
  - unfold unlink_pub. eapply skel_trans; [|apply (skel_pubs _ (delete p))].
    eapply skel_trans; [|eapply skel_insert_client; [exact Hc|done]]. eapply skel_insert_topic; [exact Ht|done].
  - apply core_wires in HC as []. split; cbn.
    + intros t td0 q [[<- <-]|[Hne E0]]%lookup_insert_Some Hq.
      * cbn in Hq. apply elem_of_set_remove in Hq as [Hq Hn]. destruct (wi_pubs0 _ _ q Ht Hq) as (pb' & E & ?). exists pb'. by rewrite lookup_delete_ne.
      * destruct (wi_pubs0 _ _ q E0 Hq) as (pb' & E & ?). exists pb'. rewrite lookup_delete_ne; [done|]. intros ->. simplify_eq.
    + intros t td0 b [[<- <-]|[Hne E0]]%lookup_insert_Some Hb; eauto.
    + intros q pb' [Hne E0]%lookup_delete_Some. destruct (wi_pub0 q pb' E0) as [(cd' & Ec & Eu) H2]. split.
      * destruct (decide (pb_client pb' = pb_client pb)) as [E|Hn]; [|exists cd'; by rewrite lookup_insert_ne].
        rewrite E, lookup_insert_eq. eexists. split; [done|]. cbn. rewrite E in Ec. simplify_eq. rewrite lookup_delete_ne; [done|].
        intros Equ. destruct (wi_pub0 p pb Hp) as [(cd'' & Ec' & Eu') _]. simplify_eq. rewrite Equ in Eu'. congruence.
      * intros Hx. destruct (H2 Hx) as (td' & Et & Hin). destruct (decide (pb_topic pb' = pb_topic pb)) as [E|Hn]; [|exists td'; by rewrite lookup_insert_ne].
        rewrite E, lookup_insert_eq. eexists. split; [done|]. cbn. rewrite E in Et. simplify_eq. by apply elem_of_set_remove.
    + intros b sb E. destruct (wi_sub0 b sb E) as (cd' & Ec & Eu). destruct (decide (sb_client sb = pb_client pb)) as [Eq|Hn]; [|exists cd'; by rewrite lookup_insert_ne].
      rewrite Eq, lookup_insert_eq. eexists. split; [done|]. cbn. rewrite Eq in Ec. by simplify_eq.
    + intros c cd' uid q [[<- <-]|[Hne E0]]%lookup_insert_Some Hq.
      * cbn in Hq. apply lookup_delete_Some in Hq as [Hnu Hq]. destruct (wi_cpubs0 _ _ _ _ Hc Hq) as (pb' & E & ?).
        exists pb'. rewrite lookup_delete_ne; [done|]. intros ->. simplify_eq. naive_solver.
      * destruct (wi_cpubs0 _ _ _ _ E0 Hq) as (pb' & E & ?). exists pb'. rewrite lookup_delete_ne; [done|]. intros ->. simplify_eq. naive_solver.
    + intros c cd' uid b [[<- <-]|[Hne E0]]%lookup_insert_Some Hb; eauto.
    + intros t td0 [[<- <-]|[Hne E0]]%lookup_insert_Some; [|eauto]. cbn. intros Hs. by rewrite (wi_special0 _ _ Ht Hs).
Qed.

(** ** Subscribers *)

Definition link_sub (b : addr) (sb : SubscriberData) (cd : ClientData) C : Core :=
  set_client (sb_client sb) (cd <| cd_subscribers ::= <[sb_subuid sb := b]> |>) (C <| co_subs ::= <[b := sb]> |>).
Lemma ok_link_sub x R C b sb cd : core_ok x R C -> co_subs C !! b = None ->
  co_clients C !! sb_client sb = Some cd -> cd_subscribers cd !! sb_subuid sb = None -> core_ok x R (link_sub b sb cd C).
Proof.
  intros HC Hb Hc Hu. eapply ok_rewire; [exact HC| |].
  - unfold link_sub. eapply skel_trans; [|eapply skel_insert_client; [exact Hc|done]]. apply (skel_subs _ <[b := sb]>).
  - apply core_wires in HC as []. split; cbn; try done.
    + intros t td b' E0 Hin. apply lookup_insert_is_Some'. right. eauto.
    + intros q pb E0. destruct (wi_pub0 q pb E0) as [(cd' & Ec & Eu) H2]. split; [|done].
      destruct (decide (pb_client pb = sb_client sb)) as [E|Hn]; [|exists cd'; by rewrite lookup_insert_ne].
      rewrite E, lookup_insert_eq. eexists. split; [done|]. cbn. rewrite E in Ec. by simplify_eq.
    + intros b' sb' [[<- <-]|[Hne E0]]%lookup_insert_Some; [eexists; rewrite lookup_insert_eq; split; [done|]; cbn; by rewrite lookup_insert_eq|].
      destruct (wi_sub0 b' sb' E0) as (cd' & Ec & Eu). destruct (decide (sb_client sb' = sb_client sb)) as [E|Hn]; [|exists cd'; by rewrite lookup_insert_ne].
      rewrite E, lookup_insert_eq. eexists. split; [done|]. cbn. rewrite E in Ec. simplify_eq. rewrite lookup_insert_ne; [done|]. congruence.
    + intros c cd' uid q [[<- <-]|[Hne E0]]%lookup_insert_Some Hq; eauto.
    + intros c cd' uid b' [[<- <-]|[Hne E0]]%lookup_insert_Some Hb'.
      * cbn in Hb'. apply lookup_insert_Some in Hb' as [[<- <-]|[Hnu Hb']]; [exists sb; by rewrite lookup_insert_eq|].
        destruct (wi_csubs0 _ _ _ _ Hc Hb') as (sb' & E & ?). exists sb'. rewrite lookup_insert_ne; [done|]. congruence.
      * destruct (wi_csubs0 _ _ _ _ E0 Hb') as (sb' & E & ?). exists sb'. rewrite lookup_insert_ne; [done|]. congruence.
Qed.

Definition set_sub (b : addr) (sb : SubscriberData) C : Core := C <| co_subs ::= <[b := sb]> |>.
Lemma ok_set_sub x R C b sb sb' : core_ok x R C -> co_subs C !! b = Some sb -> sb_client sb' = sb_client sb ->
  sb_subuid sb' = sb_subuid sb -> core_ok x R (set_sub b sb' C).
Proof.
  intros HC Hb Ec Eu. eapply ok_rewire; [exact HC|apply (skel_subs _ <[b := sb']>)|].
  apply core_wires in HC as []. split; cbn; try done.
  - intros t td q E0 Hin. apply lookup_insert_is_Some'. right. eauto.
  - intros q sb0 [[<- <-]|[Hne E0]]%lookup_insert_Some; [rewrite Ec, Eu; eauto|eauto].
  - intros c cd uid q E0 Hq. destruct (wi_csubs0 _ _ _ _ E0 Hq) as (sb0 & E & E1 & E2).
    destruct (decide (q = b)) as [->|]; [exists sb'; rewrite lookup_insert_eq; simplify_eq; split_and!; congruence|exists sb0; by rewrite lookup_insert_ne].
Qed.

Definition unlink_sub (b : addr) (sb : SubscriberData) (cd : ClientData) C : Core :=
  set_client (sb_client sb) (cd <| cd_subscribers ::= delete (sb_subuid sb) |>) C <| co_subs ::= delete b |>.
Lemma ok_unlink_sub x R C b sb cd : core_ok x R C -> co_subs C !! b = Some sb ->
  co_clients C !! sb_client sb = Some cd -> (forall t td, co_topics C !! t = Some td -> b ∉ td_subscribers td) ->
  core_ok x R (unlink_sub b sb cd C).
Proof.
  intros HC Hb Hc Hn. eapply ok_rewire; [exact HC| |].
  - unfold unlink_sub. eapply skel_trans; [|apply (skel_subs _ (delete b))]. eapply skel_insert_client; [exact Hc|done].
  - apply core_wires in HC as []. split; cbn; try done.
    + intros t td b' E0 Hin. rewrite lookup_delete_ne; [eauto|]. intros ->. by eapply Hn.
    + intros q pb E0. destruct (wi_pub0 q pb E0) as [(cd' & Ec & Eu) H2]. split; [|done].
      destruct (decide (pb_client pb = sb_client sb)) as [E|Hne]; [|exists cd'; by rewrite lookup_insert_ne].
      rewrite E, lookup_insert_eq. eexists. split; [done|]. cbn. rewrite E in Ec. by simplify_eq.
    + intros b' sb' [Hne E0]%lookup_delete_Some. destruct (wi_sub0 b' sb' E0) as (cd' & Ec & Eu).
      destruct (decide (sb_client sb' = sb_client sb)) as [E|Hne']; [|exists cd'; by rewrite lookup_insert_ne].
      rewrite E, lookup_insert_eq. eexists. split; [done|]. cbn. rewrite E in Ec. simplify_eq. rewrite lookup_delete_ne; [done|].
      intros Equ. destruct (wi_sub0 b sb Hb) as (cd'' & Ec' & Eu'). simplify_eq. rewrite Equ in Eu'. congruence.
    + intros c cd' uid q [[<- <-]|[Hne E0]]%lookup_insert_Some Hq; eauto.
    + intros c cd' uid b' [[<- <-]|[Hne E0]]%lookup_insert_Some Hb'.
      * cbn in Hb'. apply lookup_delete_Some in Hb' as [Hnu Hb']. destruct (wi_csubs0 _ _ _ _ Hc Hb') as (sb' & E & ?).
        exists sb'. rewrite lookup_delete_ne; [done|]. intros ->. simplify_eq. naive_solver.
      * destruct (wi_csubs0 _ _ _ _ E0 Hb') as (sb' & E & ?). exists sb'. rewrite lookup_delete_ne; [done|]. intros ->. simplify_eq. naive_solver.
Qed.
End Wires.

Local Open Scope Z_scope.

Section Safety.
Context {L : Type} {LI : LocalInterface jvalue L} {LS : LocalInterfaceSafe jvalue L}.
Context {EN : Env} {WC : WpiClock} {JF : JsonFloat} {MA : Machine} {ML : MachineLaws}.
Implicit Types s : SImpl L.

Definition ok s : Prop := good None no_ref s.
Definition safe {A} (m : M (SImpl L) A) s : Prop := wp m (fun _ s' => ok s') s.

Lemma safe_keeps {A} (m : M (SImpl L) A) s : ok s -> keeps_core m s -> safe m s.
Proof. intros HG Hk. eapply wp_mono; [exact Hk|]. intros a s' Hq. by eapply quiet_good. Qed.
Lemma ok_live s : ok s -> live s.
Proof. by intros []. Qed.
Lemma no_no_ref r : ~ no_ref r.
Proof. by intros []. Qed.
Hint Resolve no_no_ref : core.

Lemma wp_new_pub s pb Q :
  (forall p s', s_pubHeap s !! p = None -> s' = s <| s_tick ::= S |> <| s_pubHeap ::= <[p := pb]> |> -> Q p s') ->
  wp (new_pub pb) Q s.
Proof.
  intros HQ. unfold new_pub, tick. wp_step. do 2 (wp_step; wp_step). wp_step. do 2 (wp_step; wp_step). wp_step. apply HQ; [|done].
  apply not_elem_of_dom, (alloc_fresh (s_tick s)).
Qed.
Lemma wp_new_sub s sb Q :
  (forall b s', s_subHeap s !! b = None -> s' = s <| s_tick ::= S |> <| s_subHeap ::= <[b := sb]> |> -> Q b s') ->
  wp (new_sub sb) Q s.
Proof.
  intros HQ. unfold new_sub, tick. wp_step. do 2 (wp_step; wp_step). wp_step. do 2 (wp_step; wp_step). wp_step. apply HQ; [|done].
  apply not_elem_of_dom, (alloc_fresh (s_tick s)).
Qed.
Lemma wp_upd_client s c cd f Q : s_clientHeap s !! c = Some cd ->
  Q tt (s <| s_clientHeap ::= <[c := f cd]> |>) -> wp (upd_client c f) Q s.
Proof. intros E HQ. unfold upd_client. wp_step. by eapply wp_client. Qed.
Lemma core_set_client s c cd : core_of (s <| s_clientHeap ::= <[c := cd]> |>) = set_client c (cd_core cd) (core_of s).
Proof. unfold core_of, set_client, fupd. cbn. by rewrite fmap_insert. Qed.
Lemma live_set_client s c cd cd' : live s -> s_clientHeap s !! c = Some cd -> cd_kind cd' = cd_kind cd ->
  live (s <| s_clientHeap ::= <[c := cd']> |>).
Proof.
  intros [H1 H2] Ec Ek. split; [done|]. cbn. intros c0 cd0 k [[<- <-]|[Hne E0]]%lookup_insert_Some Ek0; [|eauto].
  rewrite Ek in Ek0. eauto.
Qed.
Lemma wp_key64 uid Q s : dense_key uid = true -> Q tt s -> wp (key64 uid) Q s.
Proof. intros Hk HQ. unfold key64. rewrite Hk. by wp_step. Qed.

(** ** Publishing *)

Lemma safe_update_pub s t c : ok s -> has_topic s t -> has_client s c ->
  keeps_core (UpdateMetaTopicPub t ;; UpdateMetaClientPub c) s.
Proof.
  intros HG Ht Hc. apply kc_bind; [by apply (kc_UpdateMetaTopicPub None no_ref)|]. intros [] s' Hq.
  apply (kc_UpdateMetaClientPub None no_ref); [by eapply quiet_good|by eapply quiet_client|done|done].
Qed.

Lemma safe_ClientPublish s c cd pubuid name typeStr props : ok s -> co_clients (core_of s) !! c = Some cd ->
  dense_key pubuid = true -> cd_publishers cd !! pubuid = None -> is_meta_name name = false ->
  is_Some (qstr name) -> is_Some (qstr typeStr) -> is_Some (dump_obj props) ->
  safe (ClientPublish c pubuid name typeStr props) s.
Proof.
  intros HG Hc Hk Hu Hm Hn Hty Hp. unfold safe, ClientPublish. wp_step.
  eapply wp_mono; [by apply (wp_CreateTopic None)|]. intros t s1 (HG1 & Hgr & td & Etd & En & Es & _).
  wp_step. apply wp_key64; [done|]. wp_step.
  assert (co_clients (core_of s1) !! c = Some cd) as Hc1 by (by rewrite (gr_clients _ _ Hgr)).
  pose proof Hc1 as (cd1 & Ecd1 & Ec1)%core_client. eapply wp_client; [done|].
  assert (cd_publishers cd1 !! pubuid = None) as -> by (rewrite <- Ec1 in Hu; exact Hu).
  wp_step. wp_step. apply wp_new_pub. intros p s2 Hfresh ->. wp_step. eapply wp_upd_client; [exact Ecd1|]. wp_step.
  pose proof Etd as (td1 & Etd1 & Et1)%core_topic. wp_step. eapply wp_upd_topic; [exact Etd1|].
  set (s4 := _ <| s_topicHeap ::= _ |>). set (pb := MkPublisherData c t pubuid).
  assert (core_of s4 = link_pub p pb cd td (core_of s1)) as E4.
  { unfold s4, core_of, link_pub, set_topic, set_client, fupd. cbn. rewrite !fmap_insert. f_equal; f_equal; [by rewrite <- Et1|by rewrite <- Ec1]. }
  assert (ok s4) as HG4.
  { destruct HG1 as [HC1 HL1]. split; [|by eapply live_same, (live_set_client s1 c cd1)].
    rewrite E4. by apply ok_link_pub. }
  assert (has_topic s4 t /\ has_client s4 c) as [Ht4 Hc4].
  { unfold has_topic, has_client. rewrite E4. cbn. by rewrite !lookup_insert_eq. }
  apply (safe_keeps (UpdateMetaTopicPub t ;; UpdateMetaClientPub c ;; SendAnnounce c t (Some pubuid))); [done|].
  apply kc_bind; [by apply (kc_UpdateMetaTopicPub None no_ref)|]. intros [] s5 Hq5.
  apply kc_bind; [apply (kc_UpdateMetaClientPub None no_ref); [by eapply quiet_good|by eapply quiet_client|done|done]|]. intros [] s6 Hq6.
  pose proof (quiet_trans _ _ _ Hq5 Hq6) as Hq. apply (kc_SendAnnounce None no_ref); [by eapply quiet_good|by eapply quiet_client|by eapply quiet_topic].
Qed.

Lemma wp_delete_unpublished x R s t td : good x R s -> (forall b, ~ R (RTopic b t)) -> s_topicHeap s !! t = Some td -> IsPublished td = false ->
  wp (DeleteTopic (Some t)) (fun _ s' => good x R s' /\ shrinks t (core_of s) (core_of s')) s.
Proof.
  intros HG HR Et Hp. pose proof HG as [HC _]. unfold IsPublished in Hp.
  apply orb_false_iff in Hp as [[Hpe Hre]%orb_false_iff Hpu%negb_false_iff%bool_decide_eq_true].
  eapply (wp_DeleteTopic x R _ _ (td_core td)); try done; [by apply topic_core|]. intros Hs.
  destruct (ok_plain _ _ _ HC t _ (topic_core s t td Et) Hs) as (_ & _ & Hr & _). cbn in Hr. congruence.
Qed.
Lemma safe_delete_unpublished s t td : ok s -> s_topicHeap s !! t = Some td ->
  safe (when (negb (IsPublished td)) (DeleteTopic (Some t))) s.
Proof.
  intros HG Et. destruct (IsPublished td) eqn:Hp; cbn; [done|].
  eapply wp_mono; [by eapply (wp_delete_unpublished None no_ref); eauto|]. by intros [] s' [HG' _].
Qed.

Lemma safe_ClientUnpublish s c pubuid : ok s -> has_client s c -> dense_key pubuid = true -> safe (ClientUnpublish c pubuid) s.
Proof.
  intros HG Hc Hk. unfold safe, ClientUnpublish. wp_step. apply wp_key64; [done|]. wp_step.
  pose proof Hc as [cd Ecd]%has_client_heap. eapply wp_client; [done|]. pose proof (client_core _ _ _ Ecd) as Ecc.
  destruct (cd_publishers cd !! pubuid) as [p|] eqn:Ep; [|done]. pose proof HG as [HC HL].
  destruct (ok_cpubs _ _ _ HC c _ pubuid p Ecc Ep) as (pb & Epb & Eclient & Euid).
  destruct (ok_pub _ _ _ HC p pb Epb) as [_ (tdc & Etc & _)]; [done|]. pose proof Etc as (td & Etd & Etd')%core_topic.
  wp_step. eapply wp_pub; [exact Epb|]. wp_step. unfold remove_publisher.
  wp_step. eapply wp_upd_topic; [exact Etd|]. wp_step. eapply wp_upd_client; [exact Ecd|]. wp_step. wp_step.
  set (s3 := _ <| s_pubHeap ::= _ |>).
  assert (core_of s3 = unlink_pub p pb (cd_core cd) tdc (core_of s)) as E3.
  { unfold s3, core_of, unlink_pub, set_topic, set_client, fupd. cbn. rewrite !fmap_insert, Eclient, Euid. by rewrite <- Etd'. }
  assert (ok s3) as HG3.
  { split; [|by eapply live_same, (live_set_client s c cd)]. rewrite E3. apply ok_unlink_pub; try done. by rewrite Eclient. }
  assert (has_topic s3 (pb_topic pb) /\ has_client s3 c) as [Ht3 Hc3].
  { unfold has_topic, has_client. rewrite E3. cbn. rewrite Eclient. by rewrite !lookup_insert_eq. }
  eapply wp_mono; [by apply safe_update_pub|]. intros [] s4 Hq4. assert (ok s4) as HG4 by (by eapply quiet_good).
  eapply quiet_topic in Ht3; [|done]. apply has_topic_heap in Ht3 as [td4 Etd4]. wp_step. eapply wp_heap_topic; [done|].
  by apply safe_delete_unpublished.
Qed.

Lemma safe_ClientSetValue s c pubuid value : ok s -> has_client s c -> dense_key pubuid = true -> safe (ClientSetValue c pubuid value) s.
Proof.
  intros HG Hc Hk. unfold safe, ClientSetValue. wp_step. apply wp_key64; [done|]. wp_step.
  pose proof Hc as [cd Ecd]%has_client_heap. eapply wp_client; [done|].
  destruct (cd_publishers cd !! pubuid) as [p|] eqn:Ep; [|done]. pose proof HG as [HC HL].
  destruct (ok_cpubs _ _ _ HC c _ pubuid p (client_core _ _ _ Ecd) Ep) as (pb & Epb & _).
  destruct (ok_pub _ _ _ HC p pb Epb) as [_ (tdc & Etc & _)]; [done|]. wp_step. eapply wp_pub; [exact Epb|].
  apply safe_keeps; [done|]. apply (kc_SetValue None no_ref); [done|by exists tdc].
Qed.

(** ** Properties *)

Definition member_ok (k : string) (v : jvalue) : Prop := is_Some (qstr k) /\ is_Some (dump false v).
Lemma obj_members_perm m : obj_members m ≡ₚ (fun kv => (bytes_of_string kv.1, kv.2)) <$> map_to_list m.
Proof.
  unfold obj_members. rewrite fold_add_perm; [done|]. cbn. rewrite <- list_fmap_compose.
  rewrite (list_fmap_ext _ (bytes_of_string ∘ fst)), list_fmap_compose by done. apply NoDup_fmap_2; [|apply NoDup_fst_map_to_list].
  intros a b E. by rewrite <- (string_of_bytes_of_string a), E, string_of_bytes_of_string.
Qed.
Lemma some_bind {A B} (o : option A) (f : A -> B) : is_Some (o ≫= (fun x => Some (f x))) <-> is_Some o.
Proof. destruct o; cbn; split; intros [? ?]; first [done|by eexists]. Qed.
Lemma dump_obj_ok m : is_Some (dump_obj m) <-> map_Forall member_ok m.
Proof.
  unfold dump_obj, obj_json. cbn [dump].
  rewrite some_bind, mapM_is_Some, obj_members_perm, Forall_fmap, Forall_forall, map_Forall_to_list, Forall_forall.
  split; intros HF [k v] Hin; specialize (HF _ Hin); unfold member_ok, qstr in *; cbn [fst snd uncurry compose] in *.
  - destruct HF as [t (k' & Ek & (v' & Ev & _)%bind_Some)%bind_Some]. by rewrite Ek, Ev.
  - destruct HF as [[k' ->] [v' ->]]. by eexists.
Qed.
Lemma update_ok update props : map_Forall member_ok update -> map_Forall member_ok props ->
  map_Forall member_ok (update_properties update props).
Proof.
  intros Hu Hp. unfold update_properties.
  apply (map_fold_weak_ind (fun r m => map_Forall member_ok m -> map_Forall member_ok r)); [done| |done].
  intros k v m r Hk IH Hm. apply map_Forall_insert in Hm as [Hkv Hm]; [|done]. specialize (IH Hm).
  destruct v; try (by apply map_Forall_insert_2). by apply map_Forall_delete.
Qed.

Lemma safe_PropertiesChanged s from t update : ok s -> has_topic s t -> is_Some (dump_obj update) -> safe (PropertiesChanged from t update) s.
Proof.
  intros HG Ht Hu. unfold safe, PropertiesChanged. pose proof Ht as [td Etd]%has_topic_heap. wp_step. eapply wp_heap_topic; [done|].
  destruct (IsPublished td) eqn:Hp.
  - wp_step. eapply (wp_subscribed_clients None no_ref); [done..|]. intros cs Hcs. apply safe_keeps; [done|].
    apply kc_for_each; [by apply ok_live|]. intros c s' Hc Hq. apply (kc_SendPropertiesUpdate None no_ref); [by eapply quiet_good| | |done].
    + eapply quiet_client; [done|]. by apply Hcs.
    + by eapply quiet_topic.
  - pose proof (safe_delete_unpublished s t td HG Etd) as Hd. by rewrite Hp in Hd.
Qed.

Lemma safe_SetProperties s from t td update : ok s -> s_topicHeap s !! t = Some td -> td_special td = false ->
  is_Some (dump_obj update) -> safe (SetProperties from t update) s.
Proof.
  intros HG Etd Hs Hu. unfold safe, SetProperties. wp_step. eapply wp_heap_topic; [done|]. pose proof HG as [HC HL].
  unfold topic_SetProperties. destruct (bool_decide (update = ∅)).
  - wp_step. eapply wp_upd_topic; [done|]. cbn [when]. wp_step. eapply quiet_good; [exact HG|]. split; [|by apply (live_same s)].
    rewrite core_set_topic. unfold set_topic, fupd. unfold core_of. cbn. f_equal. apply insert_id. by rewrite lookup_fmap, Etd.
  - set (td' := RefreshProperties _). wp_step. eapply wp_upd_topic; [done|]. set (s1 := s <| s_topicHeap ::= _ |>).
    assert (core_of s1 = set_topic t (td_core td') (core_of s)) as E1 by apply core_set_topic.
    pose proof (topic_core s t td Etd) as Etc. destruct (ok_text _ _ _ HC t _ Etc) as (Hn & Hty & Hpr).
    assert (ok s1) as HG1.
    { split; [|by apply (live_same s)]. rewrite E1. apply (ok_replace_topic None no_ref _ t (td_core td)); try done.
      - split_and!; [done..|]. cbn. apply dump_obj_ok, update_ok; by apply dump_obj_ok.
      - intros p Hp. by apply (ok_pubs _ _ _ HC t (td_core td)).
      - intros p pb Epb _ Ept. destruct (ok_pub _ _ _ HC p pb Epb) as [_ (tdx & Etx & Hin)]; [done|]. rewrite Ept in Etx. by simplify_eq.
      - intros b Hb. by apply (ok_subs _ _ _ HC t (td_core td)).
      - cbn. congruence.
      - intros b m Em _. destruct (meta_ref (core_of s) t (td_core td) b m Etc) as [n En]; [by destruct b|].
        assert (n = (if b then "$sub$" else "$pub$") +:+ td_name td) as ->.
        { cbn [ref_info] in En. rewrite Etc in En. cbn in En. apply bind_Some in En as (m' & _ & [= _ <-]). done. }
        by apply (ok_meta _ _ _ HC _ _ _ En). }
    assert (has_topic s1 t) as Ht1 by (unfold has_topic; rewrite E1; cbn; by rewrite lookup_insert_eq).
    cbn [when]. wp_step.
    assert (wp (when (negb (Bool.eqb (td_persistent td') (td_persistent td))) persistent_changed) (fun _ s' => quiet s1 s') s1) as Hw.
    { apply kc_when; [by apply ok_live|]. intros _. apply kc_modify; [by apply ok_live|done..]. }
    eapply wp_mono; [exact Hw|]. intros [] s' Hq. apply safe_PropertiesChanged; [by eapply quiet_good|by eapply quiet_topic|done].
Qed.

Lemma safe_ClientSetProperties s name update : ok s -> is_Some (dump_obj update) -> safe (ClientSetProperties name update) s.
Proof.
  intros HG Hu. unfold safe, ClientSetProperties. do 2 wp_step. destruct (s_nameTopics s !! name) as [t|] eqn:En; [|done].
  pose proof HG as [HC HL]. destruct (ok_names _ _ _ HC name t En) as (tdc & Etc & _). pose proof Etc as (td & Etd & _)%core_topic.
  wp_step. eapply wp_heap_topic; [done|]. destruct (IsPublished td && negb (td_special td)) eqn:E; [|done]. cbn [when].
  apply andb_true_iff in E as [_ Es%negb_true_iff]. by eapply safe_SetProperties.
Qed.

(** ** Subscribing *)

(** Only lists of subscribers have changed. *)
Record rewired s s' : Prop := {
  rw_skel : same_skel (core_of s) (core_of s');
  rw_pubs : co_pubs (core_of s') = co_pubs (core_of s);
  rw_subs : co_subs (core_of s') = co_subs (core_of s);
  rw_clients : co_clients (core_of s') = co_clients (core_of s);
}.
Lemma rewired_refl s : rewired s s.
Proof. split; done. Qed.
Lemma rewired_trans s1 s2 s3 : rewired s1 s2 -> rewired s2 s3 -> rewired s1 s3.
Proof. intros [] []. split; [by eapply skel_trans|congruence..]. Qed.
Lemma quiet_rewired s s' : quiet s s' -> rewired s s'.
Proof. intros [E _]. split; rewrite E; done. Qed.
Lemma rewired_topic s s' t : rewired s s' -> has_topic s t -> has_topic s' t.
Proof.
  intros [HS _ _ _] [td E]. destruct (sk_topic _ _ _ _ (skel_sym _ _ HS) E) as (td' & E' & _). by exists td'.
Qed.
Lemma rewired_client s s' c : rewired s s' -> has_client s c -> has_client s' c.
Proof. intros [_ _ _ E]. unfold has_client. by rewrite E. Qed.

(** The subscribers of a topic are set. *)
Lemma set_subscribers s t td l : ok s -> s_topicHeap s !! t = Some td ->
  (forall b, b ∈ l -> is_Some (co_subs (core_of s) !! b)) ->
  let s' := s <| s_topicHeap ::= <[t := td <| td_subscribers := l |>]> |> in
  ok s' /\ rewired s s' /\ core_of s' = set_topic t (td_core td <| td_subscribers := l |>) (core_of s).
Proof.
  intros HG Etd Hl s'. pose proof HG as [HC HL]. pose proof (topic_core s t td Etd) as Etc.
  assert (core_of s' = set_topic t (td_core td <| td_subscribers := l |>) (core_of s)) as E by apply core_set_topic.
  split_and!; [|split; rewrite E; try done|done].
  - split; [|by apply (live_same s)]. rewrite E. by apply ok_resub.
  - eapply skel_insert_topic; [exact Etc|done].
Qed.

Lemma safe_subscribe_topic s c b replace t : ok s -> has_topic s t -> has_client s c -> is_Some (co_subs (core_of s) !! b) ->
  wp (subscribe_topic c b replace t) (fun _ s' => ok s' /\ rewired s s') s.
Proof.
  intros HG Ht Hc [sb Esb]. pose proof Ht as [td Etd]%has_topic_heap. unfold subscribe_topic. wp_step. eapply wp_heap_topic; [done|].
  pose proof HG as [HC HL]. pose proof (topic_core s t td Etd) as Etc.
  assert (wp (when replace (upd_topic t (fun td => td <| td_subscribers ::= set_remove b |>))) (fun _ s' => ok s' /\ rewired s s') s) as W1.
  { destruct replace; cbn [when]; [|by split; [|apply rewired_refl]]. eapply wp_upd_topic; [done|].
    destruct (set_subscribers s t td (set_remove b (td_subscribers td)) HG Etd) as (H1 & H2 & _); [|by split].
    intros b' [Hb' _]%elem_of_set_remove. by apply (ok_subs _ _ _ HC t (td_core td)). }
  wp_step. eapply wp_mono; [exact W1|]. intros [] s1 [HG1 Hr1]. pose proof HG1 as [HC1 HL1].
  pose proof (rewired_topic _ _ _ Hr1 Ht) as [td1 Etd1]%has_topic_heap. wp_step. eapply wp_heap_topic; [done|].
  wp_step. eapply wp_mono; [apply (kc_for_map (td_subscribers td1))|].
  - done.
  - intros b' s' Hb' [E' HL']. destruct (ok_subs _ _ _ HC1 t _ b' (topic_core _ _ _ Etd1) Hb') as [sb' Esb'].
    apply wp_bind. eapply (wp_sub _ b' sb'); [|by apply kc_ret]. change (co_subs (core_of s') !! b' = Some sb'). by rewrite E'.
  - intros others s2 Hq2. assert (ok s2) as HG2 by (by eapply quiet_good). pose proof (rewired_trans _ _ _ Hr1 (quiet_rewired _ _ Hq2)) as Hr2.
    pose proof (rewired_topic _ _ _ Hr2 Ht) as [td2 Etd2]%has_topic_heap.
    wp_step. eapply (wp_sub _ b sb); [change (co_subs (core_of s2) !! b = Some sb); by rewrite (rw_subs _ _ Hr2)|].
    set (added := Matches _ _ sb).
    assert (wp (when added (upd_topic t (fun td => td <| td_subscribers ::= fun l => l ++ [b] |>))) (fun _ s' => ok s' /\ rewired s s') s2) as W2.
    { destruct added; cbn [when]; [|done]. eapply wp_upd_topic; [done|]. pose proof HG2 as [HC2 HL2].
      destruct (set_subscribers s2 t td2 (td_subscribers td2 ++ [b]) HG2 Etd2) as (H1 & H2 & _); [|split; [done|by eapply rewired_trans]].
      intros b' [Hb'|Hb'%list_elem_of_singleton]%elem_of_app; [by apply (ok_subs _ _ _ HC2 t _ b' (topic_core _ _ _ Etd2))|].
      subst b'. rewrite (rw_subs _ _ Hr2). by exists sb. }
    wp_step. eapply wp_mono; [exact W2|]. intros [] s3 [HG3 Hr3].
    pose proof (rewired_topic _ _ _ Hr3 Ht) as Ht3. pose proof (rewired_client _ _ _ Hr3 Hc) as Hc3.
    eapply wp_mono; [apply (kc_bind (when (xorb added _) (UpdateMetaTopicSub t)))|].
    + apply kc_when; [by apply ok_live|]. intros _. by apply (kc_UpdateMetaTopicSub None no_ref).
    + intros [] s4 Hq4. apply kc_bind; [apply kc_when; [by apply Hq4|]; intros _; apply (kc_SendAnnounce None no_ref); [by eapply quiet_good|by eapply quiet_client|by eapply quiet_topic]|].
      intros [] s5 Hq5. apply kc_topic; [eapply quiet_topic; [done|]; by eapply quiet_topic|]. intros td5 _. apply kc_ret. by apply Hq5.
    + intros a s6 Hq6. split; [by eapply quiet_good|]. eapply rewired_trans; [exact Hr3|by apply quiet_rewired].
Qed.

Lemma ok_elements s t : ok s -> t ∈ uid_elements (s_topics s) -> has_topic s t.
Proof.
  intros [HC _] [i Hi]%elem_of_uid_elements. destruct (ok_vector _ _ _ HC i t Hi) as (td & E & _). by exists td.
Qed.
Lemma kc_set_period s c ms : live s -> has_client s c -> keeps_core (set_period c ms) s.
Proof. intros HL Hc. by apply kc_upd_client_kind. Qed.

(** A subscription, new or replaced *)
Lemma wp_link_sub s c cd subuid topicNames options Q : ok s -> s_clientHeap s !! c = Some cd ->
  (forall b replace s', ok s' -> is_Some (co_subs (core_of s') !! b) -> has_client s' c -> Q (b, replace) s') ->
  wp (match cd_subscribers cd !! subuid with
      | Some b =>
          let* sb := sub b in
          modify (fun s => s <| s_subHeap ::= <[b := Update topicNames options sb]> |>) ;; ret (b, true)
      | None =>
          let* b := new_sub (SubscriberData_make c topicNames subuid options) in
          upd_client c (fun cd => cd <| cd_subscribers ::= <[subuid := b]> |>) ;; ret (b, false)
      end) Q s.
Proof.
  intros HG Ecd HQ. pose proof HG as [HC HL]. pose proof (client_core _ _ _ Ecd) as Ecc.
  destruct (cd_subscribers cd !! subuid) as [b|] eqn:Eb.
  - destruct (ok_csubs _ _ _ HC c _ subuid b Ecc Eb) as (sb & Esb & Ec & Eu). wp_step. eapply wp_sub; [exact Esb|]. do 2 wp_step. wp_step.
    apply HQ.
    + split; [|by apply (live_same s)]. by apply (ok_set_sub None no_ref (core_of s) b sb (Update topicNames options sb)).
    + cbn. by rewrite lookup_insert_eq.
    + apply has_client_heap. by exists cd.
  - wp_step. apply wp_new_sub. intros b s1 Hfresh ->. wp_step. eapply wp_upd_client; [exact Ecd|]. wp_step.
    set (s2 := _ <| s_clientHeap ::= _ |>). set (sb := SubscriberData_make c topicNames subuid options).
    assert (core_of s2 = link_sub b sb (cd_core cd) (core_of s)) as E2.
    { unfold s2, core_of, link_sub, set_client, fupd. cbn. by rewrite !fmap_insert. }
    apply HQ.
    + split; [|by eapply live_same, (live_set_client s c cd)]. rewrite E2. by apply ok_link_sub.
    + rewrite E2. cbn. by rewrite lookup_insert_eq.
    + unfold has_client. rewrite E2. cbn. by rewrite lookup_insert_eq.
Qed.

Lemma safe_ClientSubscribe s c subuid topicNames options : ok s -> has_client s c -> dense_key subuid = true ->
  safe (ClientSubscribe c subuid topicNames options) s.
Proof.
  intros HG Hc Hk. unfold safe, ClientSubscribe. wp_step. apply wp_key64; [done|]. wp_step.
  pose proof Hc as [cd Ecd]%has_client_heap. eapply wp_client; [done|]. wp_step. apply wp_link_sub; [done..|].
  clear s HG Hc Ecd. intros b replace s HG [sb Esb] Hc. wp_step. eapply wp_sub; [exact Esb|]. wp_step.
  eapply wp_mono; [apply (kc_when _ _ s); [by apply ok_live|]; intros _; apply kc_set_period; [by apply ok_live|done]|].
  intros [] s1 Hq1. assert (ok s1) as HG1 by (by eapply quiet_good). do 2 wp_step. wp_step.
  eapply wp_mono; [apply (wp_for_map _ _ (fun s' => ok s' /\ rewired s1 s') (fun o => forall t, o = Some t -> has_topic s1 t))|].
  - split; [done|apply rewired_refl].
  - intros t s' Ht [HG' Hr']. pose proof (ok_elements s1 t HG1 Ht) as Ht1. wp_step.
    eapply wp_mono; [apply safe_subscribe_topic; [done|by eapply rewired_topic|eapply rewired_client; [done|by eapply quiet_client]|]|].
    + rewrite (rw_subs _ _ Hr'). destruct Hq1 as [-> _]. by exists sb.
    + intros a s'' [HG'' Hr'']. wp_step. split; [split; [done|by eapply rewired_trans]|]. intros t'. destruct a; [|done]. by intros [= <-].
  - intros l s2 [[HG2 Hr2] Hl]. rewrite Forall_forall in Hl.
    assert (has_client s2 c) as Hc2 by (eapply rewired_client; [done|by eapply quiet_client]).
    apply safe_keeps; [done|]. apply kc_bind.
    + apply kc_for_each; [by apply ok_live|]. intros t s' (o & Ho & Eo)%list_elem_of_omap Hq'. cbn in Eo. subst o.
      assert (has_topic s' t) as Ht' by (eapply quiet_topic; [done|]; eapply rewired_topic; [done|]; by apply (Hl _ Ho)).
      apply kc_topic; [done|]. intros td _. apply (kc_SendValue None no_ref); [by eapply quiet_good|by eapply quiet_client|done].
    + intros [] s3 Hq3. apply kc_bind; [apply (kc_UpdateMetaClientSub None no_ref); [by eapply quiet_good|by eapply quiet_client|done]|].
      intros [] s4 Hq4. pose proof (quiet_trans _ _ _ Hq3 Hq4) as Hq. apply (kc_Flush None no_ref); [by eapply quiet_good|by eapply quiet_client].
Qed.

Lemma kc_rewired_topics s s' t td : rewired s s' -> co_topics (core_of s') !! t = Some td -> has_topic s t.
Proof. intros [HS _ _ _] E. destruct (sk_topic _ _ _ _ HS E) as (td' & E' & _). by exists td'. Qed.

(** A subscriber leaves a topic. *)
Lemma safe_leave_topic s b t : ok s -> has_topic s t ->
  wp (let* td := topic t in
      when (bool_decide (b ∈ td_subscribers td))
        (upd_topic t (fun td => td <| td_subscribers ::= set_remove b |>) ;; UpdateMetaTopicSub t))
    (fun _ s' => ok s' /\ rewired s s' /\
       forall t' td, co_topics (core_of s') !! t' = Some td -> b ∈ td_subscribers td ->
         t' <> t /\ co_topics (core_of s) !! t' = Some td) s.
Proof.
  intros HG Ht. pose proof Ht as [td Etd]%has_topic_heap. pose proof HG as [HC HL]. pose proof (topic_core s t td Etd) as Etc.
  wp_step. eapply wp_heap_topic; [done|]. destruct (decide (b ∈ td_subscribers td)) as [Hb|Hb].
  - rewrite bool_decide_eq_true_2 by done. cbn [when]. wp_step. eapply wp_upd_topic; [done|].
    destruct (set_subscribers s t td (set_remove b (td_subscribers td)) HG Etd) as (HG1 & Hr1 & E1).
    { intros b' [Hb' _]%elem_of_set_remove. by apply (ok_subs _ _ _ HC t (td_core td)). }
    change (td <| td_subscribers ::= set_remove b |>) with (td <| td_subscribers := set_remove b (td_subscribers td) |>).
    set (s1 := s <| s_topicHeap ::= _ |>) in *.
    eapply wp_mono; [apply (kc_UpdateMetaTopicSub None no_ref); [done|by eapply rewired_topic|done]|].
    intros [] s2 Hq2. split; [by eapply quiet_good|]. split; [eapply rewired_trans; [done|by apply quiet_rewired]|].
    destruct Hq2 as [-> _]. rewrite E1. cbn. intros t' td' [[<- <-]|[Hne E']]%lookup_insert_Some Hin; [|done].
    cbn in Hin. apply elem_of_set_remove in Hin as [_ ?]. done.
  - rewrite bool_decide_eq_false_2 by done. cbn [when]. wp_step. split; [done|]. split; [apply rewired_refl|]. intros t' td' E' Hin. split; [|done].
    intros ->. rewrite Etc in E'. injection E' as <-. done.
Qed.

Lemma safe_ClientUnsubscribe s c subuid : ok s -> has_client s c -> dense_key subuid = true -> safe (ClientUnsubscribe c subuid) s.
Proof.
  intros HG Hc Hk. unfold safe, ClientUnsubscribe. wp_step. apply wp_key64; [done|]. wp_step.
  pose proof Hc as [cd Ecd]%has_client_heap. eapply wp_client; [done|]. pose proof HG as [HC HL]. pose proof (client_core _ _ _ Ecd) as Ecc.
  destruct (cd_subscribers cd !! subuid) as [b|] eqn:Eb; [|done].
  destruct (ok_csubs _ _ _ HC c _ subuid b Ecc Eb) as (sb & Esb & Ec & Eu). do 2 wp_step. wp_step.
  apply (wp_for_each _ _ (fun dn s' => ok s' /\ rewired s s' /\
    forall t td, co_topics (core_of s') !! t = Some td -> b ∈ td_subscribers td -> t ∉ dn)).
  - split; [done|]. split; [apply rewired_refl|]. intros. apply not_elem_of_nil.
  - intros dn t rest s' El (HG' & Hr' & Hd). pose proof (ok_elements s t HG) as Ht. rewrite El in Ht. specialize (Ht ltac:(set_solver)).
    eapply wp_mono; [apply (safe_leave_topic s' b t); [done|by eapply rewired_topic]|].
    intros [] s'' (HG'' & Hr'' & Hb''). split; [done|]. split; [by eapply rewired_trans|]. intros t' td' E' Hin.
    destruct (Hb'' t' td' E' Hin) as [Hne E]. specialize (Hd _ _ E Hin). set_solver.
  - intros s1 (HG1 & Hr1 & Hd). pose proof HG1 as [HC1 HL1].
    pose proof Ecc as Ecc1. rewrite <- (rw_clients _ _ Hr1) in Ecc1. pose proof Ecc1 as (cd1 & Ecd1 & Ecc')%core_client.
    rewrite <- Ecc' in Ecc1. wp_step. eapply wp_upd_client; [exact Ecd1|]. wp_step. wp_step. set (s3 := _ <| s_subHeap ::= _ |>).
    assert (core_of s3 = unlink_sub b sb (cd_core cd1) (core_of s1)) as E3.
    { unfold s3, core_of, unlink_sub, set_client, fupd. cbn. by rewrite !fmap_insert, Ec, Eu. }
    assert (ok s3) as HG3.
    { split; [|by eapply live_same, (live_set_client s1 c cd1)]. rewrite E3. apply ok_unlink_sub; [done|by rewrite (rw_subs _ _ Hr1)|by rewrite Ec|].
      intros t td Et Hin. apply (Hd t td Et Hin). apply elem_of_uid_elements.
      destruct (kc_rewired_topics _ _ _ _ Hr1 Et) as [td0 Et0]. exists (td_id td0). by apply (ok_slot _ _ _ HC). }
    assert (has_client s3 c) as Hc3 by (unfold has_client; rewrite E3; cbn; rewrite Ec; by rewrite lookup_insert_eq).
    apply safe_keeps; [done|]. apply kc_bind; [by apply (kc_UpdateMetaClientSub None no_ref)|]. intros [] s4 Hq4.
    apply kc_client; [by eapply quiet_client|]. intros cd4 Ecd4. assert (ok s4) as [HC4 HL4] by (by eapply quiet_good).
    apply kc_items; [done|]. intros n s5 Hq5. apply kc_bind.
    + apply kc_for_map; [by apply Hq5|]. intros [uid b'] s' Hb'%items_elem [E' HL'].
      destruct (ok_csubs _ _ _ HC4 c _ uid b' (client_core _ _ _ Ecd4) Hb') as (sb' & Esb' & _).
      apply wp_bind. eapply (wp_sub _ b' sb'); [|by apply kc_ret]. destruct Hq5 as [E5 _]. change (co_subs (core_of s') !! b' = Some sb'). by rewrite E', E5.
    + intros periods s6 Hq6. apply kc_set_period; [by apply Hq6|]. do 2 (eapply quiet_client; [done|]). by eapply quiet_client.
Qed.
End Safety.
