(* ===== verification/ServerClients.v ===== *)
(** * ServerClients: clients of the server come and go without dangling pointers *)

From S2P Require Import Prelude NtTypes Monads LocalTypes Json JsonParser JsonRoundTrip.
From S2P Require Import Events WireEncoder4.
From S2P Require Import Mpack WireDecoder4 WireConnection4 NetworkQueue.
From S2P Require Import UidVector.
From S2P Require Import ServerTypes ServerImpl ServerCore ServerTopics ServerSafety.
Local Open Scope Z_scope.

(** ** Cores *)

Section Cores.
Context {JF : JsonFloat}.
Implicit Types C : Core.

Definition add_client (c : addr) (cd : ClientData) (slots : list (option addr)) C : Core :=
  C <| co_clients ::= <[c := cd]> |> <| co_slots := slots |>.
Lemma ok_add_client x R C c cd slots : core_ok x R C -> co_clients C !! c = None ->
  (forall i, slots !! i = if decide (i = cd_id cd) then Some (Some c) else co_slots C !! i) ->
  (forall c', co_slots C !! cd_id cd <> Some (Some c')) ->
  cd_publishers cd = ∅ -> cd_subscribers cd = ∅ -> cd_metaPub cd = None -> cd_metaSub cd = None ->
  match cd_kind cd with K4 _ => exists base, cd_name cd = base +:+ "@" +:+ pretty (cd_id cd) | _ => False end ->
  core_ok x R (add_client c cd slots C).
Proof.
  intros HC Ec Hsl Hfree Hp Hs Hm1 Hm2 Hk.
  assert (forall c0 cd0, co_clients C !! c0 = Some cd0 -> <[c := cd]> (co_clients C) !! c0 = Some cd0) as Hmono.
  { intros c0 cd0 E0. rewrite lookup_insert_ne; [done|]. by intros ->; rewrite Ec in E0. }
  pose proof (ok_local _ _ _ HC) as Hloc. destruct (ok_slots _ _ _ HC _ _ Hloc) as (cdl & El & Eid).
  assert (c <> co_localClient C) as Hnl by (intros ->; congruence).
  destruct HC; split; cbn; try done.
  - intros p pb E. destruct (ok_pub p pb E) as [(cd0 & E0 & Eu) H2]. split; [eauto|done].
  - intros b sb E. destruct (ok_sub b sb E) as (cd0 & E0 & Eu). eauto.
  - intros c0 cd0 uid p [[<- <-]|[Hne E0]]%lookup_insert_Some; [by rewrite Hp, lookup_empty|eauto].
  - intros c0 cd0 uid b [[<- <-]|[Hne E0]]%lookup_insert_Some; [by rewrite Hs, lookup_empty|eauto].
  - intros c0 cd0 [[<- <-]|[Hne E0]]%lookup_insert_Some; rewrite Hsl; [by rewrite decide_True|].
    pose proof (ok_clients _ _ E0) as Hs0. rewrite decide_False; [done|]. intros Eq. rewrite Eq in Hs0. by eapply Hfree.
  - intros i c0. rewrite Hsl. destruct (decide (i = cd_id cd)) as [->|Hne].
    + intros [= <-]. exists cd. by rewrite lookup_insert_eq.
    + intros (cd0 & E0 & ?)%ok_slots. eauto.
  - rewrite Hsl. rewrite decide_False; [done|]. intros Eq. rewrite Eq in Hloc. by eapply Hfree.
  - intros c0 cd0 [[<- <-]|[Hne E0]]%lookup_insert_Some; [by destruct (cd_kind cd)|by apply ok_kind].
  - intros r m n Er HR. apply (ok_meta r); [|done]. destruct r as [b t|b c0|]; [done| |done]. cbn in Er |- *.
    destruct (decide (c0 = c)) as [->|Hne]; [|by rewrite lookup_insert_ne in Er].
    rewrite lookup_insert_eq in Er. cbn in Er. rewrite Hm1, Hm2 in Er. by destruct b.
Qed.

Definition client_meta (b : bool) (m : addr) (cd : ClientData) : ClientData :=
  if b then cd <| cd_metaSub := Some m |> else cd <| cd_metaPub := Some m |>.
Definition client_meta_name C (b : bool) (c : addr) (cd : ClientData) : string :=
  if bool_decide (c = co_localClient C) then (if b then "$serversub" else "$serverpub")
  else (if b then "$clientsub$" else "$clientpub$") +:+ cd_name cd.
Lemma ok_client_meta x R C c cd b m tdm : core_ok x R C -> co_clients C !! c = Some cd ->
  co_topics C !! m = Some tdm -> td_name tdm = client_meta_name C b c cd -> core_ok x R (set_client c (client_meta b m cd) C).
Proof.
  intros HC Ec Em En.
  assert (forall c0 cd0, co_clients C !! c0 = Some cd0 -> exists cd1, <[c := client_meta b m cd]> (co_clients C) !! c0 = Some cd1 /\
    cd_publishers cd1 = cd_publishers cd0 /\ cd_subscribers cd1 = cd_subscribers cd0 /\ cd_id cd1 = cd_id cd0) as Hr.
  { intros c0 cd0 E0. destruct (decide (c0 = c)) as [->|]; [rewrite lookup_insert_eq; simplify_eq; by destruct b; eexists|rewrite lookup_insert_ne by done; eauto]. }
  assert (forall c0 cd0, <[c := client_meta b m cd]> (co_clients C) !! c0 = Some cd0 -> exists cd1, co_clients C !! c0 = Some cd1 /\
    cd_publishers cd0 = cd_publishers cd1 /\ cd_subscribers cd0 = cd_subscribers cd1 /\ cd_id cd0 = cd_id cd1 /\ cd_kind cd0 = cd_kind cd1 /\
    cd_name cd0 = cd_name cd1) as Hl.
  { intros c0 cd0 [[<- <-]|[Hne E0]]%lookup_insert_Some; [exists cd; by destruct b|eauto 10]. }
  destruct HC; split; cbn; try done.
  - intros p pb E. destruct (ok_pub p pb E) as [(cd0 & E0 & Eu) H2]. split; [|done]. destruct (Hr _ _ E0) as (cd1 & ? & Hp & _). exists cd1. by rewrite Hp.
  - intros q sb E. destruct (ok_sub q sb E) as (cd0 & E0 & Eu). destruct (Hr _ _ E0) as (cd1 & ? & _ & Hs & _). exists cd1. by rewrite Hs.
  - intros c0 cd0 uid p (cd1 & E1 & -> & _)%Hl. eauto.
  - intros c0 cd0 uid p (cd1 & E1 & _ & -> & _)%Hl. eauto.
  - intros c0 cd0 (cd1 & E1 & _ & _ & -> & _)%Hl. eauto.
  - intros i c0 (cd0 & E0 & <-)%ok_slots. destruct (Hr _ _ E0) as (cd1 & ? & _ & _ & ?). eauto.
  - intros c0 cd0 (cd1 & E1 & _ & _ & -> & -> & ->)%Hl. by apply ok_kind.
  - intros r m' n Er HR. destruct r as [b' t|b' c0|]; [by apply (ok_meta (RTopic b' t))| |by apply (ok_meta RClients)].
    destruct (decide (c0 = c)) as [->|Hne].
    2:{ apply (ok_meta (RClient b' c0)); [|done]. cbn in Er |- *. by rewrite lookup_insert_ne in Er. }
    destruct (decide (b' = b)) as [->|Hb].
    + cbn in Er. rewrite lookup_insert_eq in Er. unfold client_meta_name in En. exists tdm. destruct b; cbn in Er; simplify_eq; done.
    + apply (ok_meta (RClient b' c)); [|done]. cbn in Er |- *. rewrite lookup_insert_eq in Er. rewrite Ec. destruct b, b'; done.
Qed.

(** A client to which nothing refers any more *)
Definition free_core (id : nat) (c : addr) (cd : ClientData) C : Core :=
  C <| co_slots ::= <[id := None]> |> <| co_pubs ::= delete_all ((map_to_list (cd_publishers cd)).*2) |>
    <| co_subs ::= delete_all ((map_to_list (cd_subscribers cd)).*2) |> <| co_clients ::= delete c |>.
Lemma lookup_delete_all {A} l (h : gmap addr A) k v : delete_all l h !! k = Some v <-> (k ∉ l) /\ h !! k = Some v.
Proof.
  unfold delete_all. induction l as [|a l IH]; cbn; [set_solver|]. rewrite lookup_delete_Some, IH, not_elem_of_cons. naive_solver.
Qed.
Lemma elem_of_values {A} (m : gmap Z A) v : v ∈ (map_to_list m).*2 <-> exists k, m !! k = Some v.
Proof.
  rewrite list_elem_of_fmap. split.
  - intros ([k v'] & -> & Hin). exists k. by apply elem_of_map_to_list.
  - intros [k Hk]. exists (k, v). split; [done|]. by apply elem_of_map_to_list.
Qed.
Lemma ok_free_client R C c cd : core_ok (Some c) R C -> co_clients C !! c = Some cd -> cd_id cd <> O ->
  (forall r, R r -> exists b, r = RClient b c) ->
  (forall t td p pb, co_topics C !! t = Some td -> p ∈ td_publishers td -> co_pubs C !! p = Some pb -> pb_client pb <> c) ->
  (forall t td b sb, co_topics C !! t = Some td -> b ∈ td_subscribers td -> co_subs C !! b = Some sb -> sb_client sb <> c) ->
  core_ok None no_ref (free_core (cd_id cd) c cd C).
Proof.
  intros HC Ec Hid HR Hgp Hgs.
  assert (forall p pb, co_pubs C !! p = Some pb -> pb_client pb <> c -> delete_all ((map_to_list (cd_publishers cd)).*2) (co_pubs C) !! p = Some pb) as Hpub.
  { intros p pb E Hne. apply lookup_delete_all. split; [|done]. intros [uid Hu]%elem_of_values.
    destruct (ok_cpubs _ _ _ HC c cd uid p Ec Hu) as (pb' & E' & <- & _). congruence. }
  assert (forall b sb, co_subs C !! b = Some sb -> sb_client sb <> c -> delete_all ((map_to_list (cd_subscribers cd)).*2) (co_subs C) !! b = Some sb) as Hsub.
  { intros b sb E Hne. apply lookup_delete_all. split; [|done]. intros [uid Hu]%elem_of_values.
    destruct (ok_csubs _ _ _ HC c cd uid b Ec Hu) as (sb' & E' & <- & _). congruence. }
  pose proof (ok_clients _ _ _ HC c cd Ec) as Hslot.
  assert (forall i c', co_slots C !! i = Some (Some c') -> c' <> c -> <[cd_id cd := None]> (co_slots C) !! i = Some (Some c')) as Hsl.
  { intros i c' E Hne. rewrite list_lookup_insert_ne; [done|]. intros <-. congruence. }
  destruct HC; split; cbn; try done.
  - intros t td p E Hin. destruct (ok_pubs t td p E Hin) as (pb & Epb & ?). exists pb. split; [|done]. apply Hpub; [done|]. by eapply Hgp.
  - intros t td b E Hin. destruct (ok_subs t td b E Hin) as (sb & Esb). exists sb. apply Hsub; [done|]. by eapply Hgs.
  - intros p pb [Hnin E]%lookup_delete_all. destruct (ok_pub p pb E) as [(cd0 & E0 & Eu) H2].
    assert (pb_client pb <> c) as Hne. { intros Eq. rewrite Eq in E0. simplify_eq. apply Hnin, elem_of_values. eauto. }
    split; [exists cd0; by rewrite lookup_delete_ne|]. intros _. apply H2. congruence.
  - intros b sb [Hnin E]%lookup_delete_all. destruct (ok_sub b sb E) as (cd0 & E0 & Eu).
    assert (sb_client sb <> c) as Hne. { intros Eq. rewrite Eq in E0. simplify_eq. apply Hnin, elem_of_values. eauto. }
    exists cd0. by rewrite lookup_delete_ne.
  - intros c0 cd0 uid p [Hne E]%lookup_delete_Some Hu. destruct (ok_cpubs c0 cd0 uid p E Hu) as (pb & Epb & <- & ?). exists pb. split; [|done]. by apply Hpub.
  - intros c0 cd0 uid b [Hne E]%lookup_delete_Some Hu. destruct (ok_csubs c0 cd0 uid b E Hu) as (sb & Esb & <- & ?). exists sb. split; [|done]. by apply Hsub.
  - intros c0 cd0 [Hne E]%lookup_delete_Some. apply Hsl; [eauto|done].
  - intros i c0 E. destruct (decide (i = cd_id cd)) as [->|Hne]; [rewrite list_lookup_insert_eq in E by (by eapply lookup_lt_Some); done|].
    rewrite list_lookup_insert_ne in E by done. destruct (ok_slots i c0 E) as (cd0 & E0 & Ei). exists cd0. rewrite lookup_delete_ne; [done|]. intros <-. simplify_eq.
  - apply Hsl; [done|]. intros Eq. rewrite Eq in ok_local. destruct (ok_slots _ _ ok_local) as (cd0 & E0 & Ei). simplify_eq.
  - intros c0 cd0 [Hne E]%lookup_delete_Some. by apply ok_kind.
  - intros r m n Er _. apply (ok_meta r).
    + destruct r as [b t|b c0|]; [done| |done]. cbn in Er |- *. destruct (decide (c0 = c)) as [->|]; [by rewrite lookup_delete_eq in Er|by rewrite lookup_delete_ne in Er].
    + intros [b ->]%HR. cbn in Er. by rewrite lookup_delete_eq in Er.
Qed.
End Cores.

(** ** A new client *)

Section Clients.
Context {L : Type} {LI : LocalInterface jvalue L} {LS : LocalInterfaceSafe jvalue L}.
Context {EN : Env} {WC : WpiClock} {JF : JsonFloat} {MA : Machine} {ML : MachineLaws}.
Implicit Types s : SImpl L.
Hint Resolve no_no_ref : core.

Lemma empty_slot_spec l :
  (empty_slot l <= length l)%nat /\ forall c : addr, l !! empty_slot l <> Some (Some c).
Proof.
  induction l as [|[c|] l [IH1 IH2]]; cbn; [by split; [lia|]| |by split; [lia|]]. split; [lia|done].
Qed.
Lemma put_client_lookup c l i :
  put_client (empty_slot l) c l !! i = if decide (i = empty_slot l) then Some (Some c) else l !! i.
Proof.
  destruct (empty_slot_spec l) as [Hle _]. unfold put_client. case_bool_decide as E.
  - rewrite E. destruct (decide (i = length l)) as [->|Hne]; [by rewrite list_lookup_middle|].
    destruct (decide (i < length l)%nat); [by rewrite lookup_app_l|].
    rewrite (lookup_ge_None_2 l) by lia. apply lookup_ge_None_2. rewrite length_app. cbn. lia.
  - destruct (decide (i = empty_slot l)) as [->|Hne]; [rewrite list_lookup_insert_eq by lia; done|by rewrite list_lookup_insert_ne].
Qed.

Lemma wp_new_client s cd Q :
  (forall c s', s_clientHeap s !! c = None -> s' = s <| s_tick ::= S |> <| s_clientHeap ::= <[c := cd]> |> -> Q c s') ->
  wp (new_client cd) Q s.
Proof.
  intros HQ. unfold new_client, tick. wp_step. do 2 (wp_step; wp_step). wp_step. do 2 (wp_step; wp_step). wp_step. apply HQ; [|done].
  apply not_elem_of_dom, (alloc_fresh (s_tick s)).
Qed.

(** The meta topic of a client, made and linked *)
Lemma wp_link_client s c cd (b : bool) name : ok s -> co_clients (core_of s) !! c = Some cd ->
  name = client_meta_name (core_of s) b c cd -> is_Some (qstr name) ->
  wp (let* m := CreateMetaTopic name in upd_client c (client_meta b m))
    (fun _ s' => ok s' /\ s_localClient s' = s_localClient s /\ exists cd', co_clients (core_of s') !! c = Some cd' /\
       cd_name cd' = cd_name cd /\ cd_kind cd' = cd_kind cd) s.
Proof.
  intros HG Ec En Hq. wp_step. eapply wp_mono; [apply (wp_CreateMetaTopic None no_ref); [done..|]|].
  { rewrite En. unfold client_meta_name. case_bool_decide; by destruct b. }
  intros m s1 [HG1 [nw Hcr]]. pose proof (created_grows _ _ _ _ _ _ Hcr) as Hgr. destruct Hcr as (tdm & Em & Enm & _). cbn [fst] in Em.
  pose proof Ec as Ec1. rewrite <- (gr_clients _ _ Hgr) in Ec1. pose proof Ec1 as (cd1 & Ecd1 & Ecc)%core_client. rewrite <- Ecc in *.
  eapply wp_upd_client; [done|]. set (s2 := _ <| s_clientHeap ::= _ |>).
  assert (core_of s2 = set_client c (client_meta b m (cd_core cd1)) (core_of s1)) as E2.
  { unfold s2. rewrite core_set_client. by destruct b. }
  split; [|split].
  - destruct HG1 as [HC1 HL1]. split; [|apply (live_set_client s1 c cd1); [done..|]; by destruct b].
    rewrite E2. eapply ok_client_meta; [done..|]. rewrite Enm, En. unfold client_meta_name. by rewrite (gr_localClient _ _ Hgr).
  - exact (gr_localClient _ _ Hgr).
  - rewrite E2. cbn. rewrite lookup_insert_eq. eexists. split; [done|]. by destruct b.
Qed.

Lemma safe_AddClient s name connInfo local wire : ok s -> is_Some (qstr name) -> safe (AddClient name connInfo local wire) s.
Proof.
  intros HG Hn. unfold safe, AddClient. set (nm := if String.eqb name EmptyString then "NT4" else name). do 2 wp_step.
  set (index := empty_slot (s_clients s)). set (dedup := nm +:+ "@" +:+ pretty index).
  assert (is_Some (qstr dedup)) as Hd.
  { apply qstr_app; [unfold nm; destruct (String.eqb _ _); [by eexists|done]|]. apply qstr_app; [by eexists|apply qstr_pretty]. }
  wp_step. apply wp_new_client. intros c s1 Hfresh ->. do 2 wp_step. set (s2 := _ <| s_clients ::= _ |>).
  set (cd := ClientData_make dedup connInfo local index (K4 (MkClient4 wire [] ∅ false false))).
  pose proof HG as [HC HL].
  assert (core_of s2 = add_client c (cd_core cd) (put_client index c (s_clients s)) (core_of s)) as E2.
  { unfold s2, core_of, add_client, fupd. cbn. by rewrite fmap_insert. }
  assert (ok s2) as HG2.
  { split.
    - rewrite E2. apply ok_add_client; try done.
      + cbn. by rewrite lookup_fmap, Hfresh.
      + apply put_client_lookup.
      + apply empty_slot_spec.
      + cbn. by exists nm.
    - destruct HL as [H1 H2]. split; [done|]. cbn. intros c0 cd0 k [[<- <-]|[Hne E0]]%lookup_insert_Some Ek; [|eauto]. cbn in Ek. injection Ek as <-. constructor. }
  assert (co_clients (core_of s2) !! c = Some (cd_core cd)) as Ec2 by (rewrite E2; cbn; by rewrite lookup_insert_eq).
  assert (c <> s_localClient s) as Hloc.
  { intros ->. destruct (ok_slots _ _ _ HC _ _ (ok_local _ _ _ HC)) as (cdl & El & _). cbn in El. by rewrite lookup_fmap, Hfresh in El. }
  apply (wp_seq (fun m => upd_client c (client_meta false m))).
  eapply wp_mono; [apply (wp_link_client s2 c (cd_core cd) false); [done..| |by apply qstr_app; [by eexists|]]|].
  { unfold client_meta_name. by rewrite bool_decide_eq_false_2. }
  intros [] s3 (HG3 & El3 & cd3 & Ec3 & En3 & Ek3). apply (wp_seq (fun m => upd_client c (client_meta true m))).
  eapply wp_mono; [apply (wp_link_client s3 c cd3 true); [done..| |by apply qstr_app; [by eexists|]]|].
  { unfold client_meta_name. rewrite bool_decide_eq_false_2 by (cbn; by rewrite El3). by rewrite En3. }
  intros [] s4 (HG4 & El4 & cd4 & Ec4 & En4 & Ek4). assert (has_client s4 c) as Hc4 by (by exists cd4).
  apply safe_keeps; [done|]. apply kc_bind; [by apply (kc_UpdateMetaClientPub None no_ref)|]. intros [] s5 Hq5.
  apply kc_bind; [apply (kc_UpdateMetaClientSub None no_ref); [by eapply quiet_good|by eapply quiet_client|done]|]. intros [] s6 Hq6.
  apply kc_bind; [|intros [] s7 Hq7; apply kc_ret; by apply Hq7].
  apply kc_wire_flush4; [by apply Hq6|]. eapply quiet_is4; [done|]. eapply quiet_is4; [done|]. exists cd4. eexists. split; [done|]. by rewrite Ek4, Ek3.
Qed.

(** ** A client that leaves *)

(** Only lists of publishers and subscribers have become shorter. *)
Record leaving s s' : Prop := {
  lv_skel : same_skel (core_of s) (core_of s');
  lv_pubs : co_pubs (core_of s') = co_pubs (core_of s);
  lv_subs : co_subs (core_of s') = co_subs (core_of s);
  lv_clients : co_clients (core_of s') = co_clients (core_of s);
  lv_topics t td' : co_topics (core_of s') !! t = Some td' -> exists td, co_topics (core_of s) !! t = Some td /\
    (forall p, p ∈ td_publishers td' -> p ∈ td_publishers td) /\ (forall b, b ∈ td_subscribers td' -> b ∈ td_subscribers td);
}.
Lemma leaving_refl s : leaving s s.
Proof. split; try done. eauto. Qed.
Lemma leaving_trans s1 s2 s3 : leaving s1 s2 -> leaving s2 s3 -> leaving s1 s3.
Proof.
  intros [? ? ? ? H1] [? ? ? ? H2]. split; [by eapply skel_trans|congruence..|].
  intros t td3 (td2 & E2 & Hp & Hs)%H2. destruct (H1 t td2 E2) as (td & E & Hp' & Hs'). exists td. split_and!; eauto.
Qed.
Lemma leaving_topic s s' t : leaving s s' -> has_topic s t -> has_topic s' t.
Proof. intros [HS _ _ _ _] [td E]. destruct (sk_topic _ _ _ _ (skel_sym _ _ HS) E) as (td' & E' & _). by exists td'. Qed.

(** The topic has nothing of client [c] any more. *)
Definition gone_from (c t : addr) (C : Core) : Prop := forall td, co_topics C !! t = Some td ->
  (forall p pb, p ∈ td_publishers td -> co_pubs C !! p = Some pb -> pb_client pb <> c) /\
  (forall b sb, b ∈ td_subscribers td -> co_subs C !! b = Some sb -> sb_client sb <> c).
Definition unpublished (t : addr) (C : Core) : Prop := exists td, co_topics C !! t = Some td /\ IsPublished td = false.
Lemma leaving_gone c t s s' : leaving s s' -> gone_from c t (core_of s) -> gone_from c t (core_of s').
Proof.
  intros [_ E1 E2 _ Ht] Hg td' Etd'. destruct (Ht t td' Etd') as (td & Etd & Hp & Hs). destruct (Hg td Etd) as [Hg1 Hg2].
  rewrite E1, E2. split; eauto.
Qed.
Lemma leaving_unpublished t s s' : leaving s s' -> unpublished t (core_of s) -> unpublished t (core_of s').
Proof.
  intros HL (td & Etd & Hu). pose proof HL as [HS _ _ _ Ht]. destruct (sk_topic _ _ _ _ (skel_sym _ _ HS) Etd) as (td' & Etd' & Es).
  exists td'. split; [done|]. destruct (Ht t td' Etd') as (td0 & Etd0 & Hp & _). rewrite Etd in Etd0. injection Etd0 as <-.
  unfold IsPublished in *. apply orb_false_iff in Hu as [Hu1 Hu2%negb_false_iff%bool_decide_eq_true].
  assert (td_persistent td' = td_persistent td /\ td_retained td' = td_retained td) as [-> ->].
  { split; [exact (f_equal td_persistent Es)|exact (f_equal td_retained Es)]. }
  rewrite Hu1. cbn. apply negb_false_iff, bool_decide_eq_true. rewrite Hu2 in Hp. destruct (td_publishers td') as [|p l]; [done|].
  exfalso. eapply not_elem_of_nil, (Hp p). left.
Qed.

Section Remove.
Context (c : addr).
Abbreviation going := (good (Some c) no_ref).

Lemma wp_owners {D} (l : list addr) (heap : SImpl L -> gmap addr D) (get : addr -> M (SImpl L) D) (owner : D -> addr) s Q :
  (forall s a d Q, heap s !! a = Some d -> Q d s -> wp (get a) Q s) ->
  (forall a, a ∈ l -> is_Some (heap s !! a)) ->
  (forall r, r.*1 = l -> (forall a o, (a, o) ∈ r -> exists d, heap s !! a = Some d /\ owner d = o) -> Q r s) ->
  wp (for_map l (fun a => let* d := get a in ret (a, owner d))) Q s.
Proof.
  intros Hget. revert Q. induction l as [|a l IH]; intros Q Hl HQ; cbn [for_map].
  - apply wp_ret, HQ; [done|]. by intros ? ? ?%not_elem_of_nil.
  - destruct (Hl a) as [d Ed]; [left|]. wp_step. wp_step. eapply Hget; [done|]. wp_step. wp_step. apply IH; [intros; apply Hl; by right|].
    intros r Er Hr. wp_step. apply HQ; [cbn; by rewrite Er|]. intros a' o [[= -> ->]|Hin]%elem_of_cons; eauto.
Qed.

Lemma wp_remove_from_topic s t : going s -> has_topic s t ->
  wp (remove_from_topic c t) (fun r s' => going s' /\ leaving s s' /\ gone_from c t (core_of s') /\
    (r = None \/ r = Some t /\ unpublished t (core_of s'))) s.
Proof.
  intros HG Ht. pose proof Ht as [td Etd]%has_topic_heap. pose proof HG as [HC HL]. pose proof (topic_core s t td Etd) as Etc.
  unfold remove_from_topic. wp_step. eapply wp_heap_topic; [done|].
  wp_step. apply (wp_owners _ s_pubHeap pub pb_client).
  { intros. by eapply wp_pub. } { intros p Hp. destruct (ok_pubs _ _ _ HC t _ p Etc Hp) as (pb & E & _). by exists pb. }
  intros ps Eps Hps. wp_step. apply (wp_owners _ s_subHeap sub sb_client).
  { intros. by eapply wp_sub. } { intros b Hb. exact (ok_subs _ _ _ HC t _ b Etc Hb). }
  intros bs Ebs Hbs. wp_step. eapply wp_upd_topic; [done|].
  set (other := fun x : addr * addr => negb (bool_decide (x.2 = c))).
  set (td' := td <| td_publishers := _ |> <| td_subscribers := _ |>). set (s1 := s <| s_topicHeap ::= _ |>).
  assert (core_of s1 = set_topic t (td_core td') (core_of s)) as E1 by apply core_set_topic.
  assert (forall r p, p ∈ (List.filter other r).*1 -> exists o, (p, o) ∈ r /\ o <> c) as Hother.
  { intros r p ([p' o] & -> & Hin)%list_elem_of_fmap. apply list_elem_of_In, filter_In in Hin as [Hin Ho%negb_true_iff%bool_decide_eq_false].
    exists o. split; [by apply list_elem_of_In|done]. }
  assert (going s1) as HG1.
  { split; [|by apply (live_same s)]. rewrite E1. destruct (ok_text _ _ _ HC t _ Etc) as (Hn & Hty & Hpr).
    apply (ok_replace_topic (Some c) no_ref _ t (td_core td)); try done.
    - intros p (o & Hin & _)%Hother. apply (ok_pubs _ _ _ HC t (td_core td)); [done|]. cbn. rewrite <- Eps. by apply (list_elem_of_fmap_2 fst _ (p, o)).
    - intros p pb Epb Hx Ept. destruct (ok_pub _ _ _ HC p pb Epb) as [_ (tdx & Etx & Hin)]; [done|]. rewrite Ept, Etc in Etx. injection Etx as <-.
      cbn in Hin |- *. rewrite <- Eps in Hin. apply list_elem_of_fmap in Hin as ([p' o] & -> & Hin). apply list_elem_of_fmap. exists (p', o). split; [done|].
      apply list_elem_of_In, filter_In. split; [by apply list_elem_of_In|]. apply negb_true_iff, bool_decide_eq_false. cbn.
      destruct (Hps p' o Hin) as (pb' & Epb' & <-). cbn in Epb. rewrite Epb in Epb'. injection Epb' as <-. congruence.
    - intros b (o & Hin & _)%Hother. apply (ok_subs _ _ _ HC t (td_core td)); [done|]. cbn. rewrite <- Ebs. by apply (list_elem_of_fmap_2 fst _ (b, o)).
    - intros Hsp. destruct (ok_plain _ _ _ HC t _ Etc Hsp) as (H1 & H2 & H3 & H4). split_and!; [done..|]. cbn in H4 |- *. rewrite H4 in Eps. by apply fmap_nil_inv in Eps as ->.
    - intros b m Em _. destruct (meta_ref (core_of s) t (td_core td) b m Etc) as [n En]; [by destruct b|].
      assert (n = (if b then "$sub$" else "$pub$") +:+ td_name td) as ->.
      { cbn [ref_info] in En. rewrite Etc in En. cbn in En. apply bind_Some in En as (m' & _ & [= _ <-]). done. }
      by apply (ok_meta _ _ _ HC _ _ _ En). }
  assert (leaving s s1) as Hl1.
  { split; rewrite ?E1; try done; [by eapply skel_insert_topic|]. cbn. intros t0 td0 [[<- <-]|[Hne E0]]%lookup_insert_Some.
    - exists (td_core td). split; [exact Etc|]. split.
      + intros p (o & Hin & _)%Hother. cbn. rewrite <- Eps. by apply (list_elem_of_fmap_2 fst _ (p, o)).
      + intros b (o & Hin & _)%Hother. cbn. rewrite <- Ebs. by apply (list_elem_of_fmap_2 fst _ (b, o)).
    - eauto. }
  assert (gone_from c t (core_of s1)) as Hg1.
  { intros td0. rewrite E1. cbn. rewrite lookup_insert_eq. intros [= <-]. split.
    - intros p pb (o & Hin & Ho)%Hother Epb. destruct (Hps p o Hin) as (pb' & Epb' & <-). congruence.
    - intros b sb (o & Hin & Ho)%Hother Esb. destruct (Hbs b o Hin) as (sb' & Esb' & <-). congruence. }
  wp_step. eapply wp_heap_topic; [unfold s1; cbn; apply lookup_insert_eq|].
  assert (has_topic s1 t) as Ht1 by (by eapply leaving_topic). destruct (IsPublished td') eqn:Hpub.
  - wp_step. eapply wp_mono; [apply (kc_when _ (UpdateMetaTopicPub t)); [by apply HG1|]; intros _; by apply (kc_UpdateMetaTopicPub (Some c) no_ref)|].
    intros [] s2 Hq2. wp_step. eapply wp_mono; [apply (kc_when _ (UpdateMetaTopicSub t)); [by apply Hq2|]; intros _;
      apply (kc_UpdateMetaTopicSub (Some c) no_ref); [by eapply quiet_good|by eapply quiet_topic|done]|].
    intros [] s3 Hq3. wp_step. pose proof (quiet_trans _ _ _ Hq2 Hq3) as Hq. split; [by eapply quiet_good|]. destruct Hq as [E3 _].
    rewrite E3. split; [|by split; [|left]]. destruct Hl1. by split; rewrite ?E3.
  - wp_step. split_and!; [done..|]. right. split; [done|]. exists (td_core td'). rewrite E1. cbn. rewrite lookup_insert_eq. split; [done|exact Hpub].
Qed.

Lemma wp_remove_from_topics l s : going s -> (forall t, t ∈ l -> has_topic s t) ->
  wp (for_map l (remove_from_topic c)) (fun r s' => going s' /\ leaving s s' /\ (forall t, t ∈ l -> gone_from c t (core_of s')) /\
    sublist (omap id r) l /\ forall t, t ∈ omap id r -> unpublished t (core_of s')) s.
Proof.
  revert s. induction l as [|t l IH]; intros s HG Hl; cbn [for_map].
  - wp_step. split_and!; [done|apply leaving_refl|by intros ? ?%not_elem_of_nil|done|by intros ? ?%not_elem_of_nil].
  - wp_step. eapply wp_mono; [apply wp_remove_from_topic; [done|apply Hl; left]|]. intros o s1 (HG1 & Hl1 & Hg1 & Ho).
    wp_step. eapply wp_mono; [apply IH; [done|intros t' Ht'; eapply leaving_topic; [done|]; apply Hl; by right]|].
    intros r s2 (HG2 & Hl2 & Hg2 & Hsub & Hun). wp_step. split_and!; [done|by eapply leaving_trans| | |].
    + intros t' [->|Ht']%elem_of_cons; [by eapply leaving_gone|by apply Hg2].
    + destruct Ho as [->|[-> _]]; cbn; by constructor.
    + destruct Ho as [->|[-> Hu]]; cbn; [done|]. intros t' [->|Ht']%elem_of_cons; [by eapply leaving_unpublished|by apply Hun].
Qed.


(** Only topics have gone. *)
Record cleared (C C' : Core) : Prop := {
  cl_topics t td : co_topics C' !! t = Some td -> co_topics C !! t = Some td;
  cl_pubs : co_pubs C' = co_pubs C;
  cl_subs : co_subs C' = co_subs C;
  cl_clients : co_clients C' = co_clients C;
}.
Lemma shrinks_cleared t C C' : shrinks t C C' -> cleared C C'.
Proof. intros []. by split. Qed.
Lemma cleared_refl C : cleared C C.
Proof. by split. Qed.
Lemma cleared_trans C1 C2 C3 : cleared C1 C2 -> cleared C2 C3 -> cleared C1 C3.
Proof. intros [] []. split; [eauto|congruence..]. Qed.

Lemma unpublished_plain R C t td : core_ok (Some c) R C -> co_topics C !! t = Some td -> IsPublished td = false -> td_special td = false.
Proof.
  intros HC Et Hu. destruct (td_special td) eqn:E; [|done]. destruct (ok_plain _ _ _ HC t td Et E) as (_ & _ & Hr & _).
  unfold IsPublished in Hu. rewrite Hr in Hu. by destruct (td_persistent td).
Qed.
Lemma wp_delete_topics l s : going s -> NoDup l -> (forall t, t ∈ l -> unpublished t (core_of s)) ->
  wp (for_each l (fun t => DeleteTopic (Some t))) (fun _ s' => going s' /\ cleared (core_of s) (core_of s')) s.
Proof.
  revert s. induction l as [|t l IH]; intros s HG Hn Hl; cbn [for_each]; [wp_step; split; [done|apply cleared_refl]|].
  apply NoDup_cons in Hn as [Hnin Hn]. destruct (Hl t) as (tdc & Etc & Hu); [left|]. pose proof Etc as (td & Etd & Ec)%core_topic.
  wp_step. eapply wp_mono; [eapply (wp_delete_unpublished (Some c) no_ref); [done|by intros b []|done|by rewrite <- Ec in Hu]|].
  intros [] s1 [HG1 Hs1]. eapply wp_mono; [apply IH; [done..|]|].
  - intros t' Ht'. destruct (Hl t') as (td' & Etd' & Hu'); [by right|]. exists td'. split; [|done].
    apply (sh_others _ _ _ Hs1); [done|set_solver|]. destruct HG as [HC _]. by eapply unpublished_plain.
  - intros [] s2 [HG2 Hc2]. split; [done|]. eapply cleared_trans; [by eapply shrinks_cleared|done].
Qed.

(** The meta topics of the client *)
Definition of_client : ref -> Prop := fun r => exists b, r = RClient b c.
Definition client_ref (C : Core) (b : bool) : option addr :=
  cd ← co_clients C !! c; if b then cd_metaSub cd else cd_metaPub cd.
Lemma client_ref_info C b m : client_ref C b = Some m -> exists n, ref_info C (RClient b c) = Some (m, n).
Proof. unfold client_ref. cbn. intros (cd & -> & Em)%bind_Some. cbn. rewrite Em. cbn. eauto. Qed.

Lemma wp_delete_client_meta s C0 b : core_ok (Some c) no_ref C0 -> good (Some c) of_client s ->
  (forall r p, ref_info (core_of s) r = Some p -> ref_info C0 r = Some p) ->
  (forall m, client_ref C0 b = Some m -> co_topics (core_of s) !! m = co_topics C0 !! m) ->
  wp (DeleteTopic (client_ref C0 b)) (fun _ s' => good (Some c) of_client s' /\ meta_gone (client_ref C0 b) (core_of s) (core_of s')) s.
Proof.
  intros HC0 HG Href Hm. unfold DeleteTopic. do 2 wp_step. apply (wp_delete_meta (Some c) of_client); [done|].
  intros m Em. destruct (client_ref_info C0 b m Em) as [n En]. destruct (ok_meta _ _ _ HC0 _ _ _ En) as (td & Etd & Enm); [by intros []|].
  exists td. split_and!; [by rewrite Hm| |].
  - rewrite (ok_special _ _ _ HC0 m td Etd), Enm. by eapply ref_meta_name.
  - intros r n' Er Hr. apply Hr. exists b. eapply (ref_inj (Some c) no_ref C0); [done|by apply Href|done|by intros []..].
Qed.

Lemma elements_nodup s : ok s -> NoDup (uid_elements (s_topics s)).
Proof.
  intros [HC _]. unfold uid_elements.
  assert (forall i j t, u_vector (s_topics s) !! i = Some (Some t) -> u_vector (s_topics s) !! j = Some (Some t) -> i = j) as Hinj.
  { intros i j t Hi%uid_get_lookup Hj%uid_get_lookup. destruct (ok_vector _ _ _ HC i t Hi) as (td & E & <-).
    destruct (ok_vector _ _ _ HC j t Hj) as (td' & E' & <-). congruence. }
  generalize dependent (u_vector (s_topics s)). intros l Hinj. induction l as [|o l IH]; cbn; [constructor|].
  assert (NoDup (omap id l)) as Hl by (apply IH; intros i j t Hi Hj; by assert (S i = S j) as [= ->] by (by eapply (Hinj (S i) (S j)))).
  destruct o as [t|]; cbn; [|done]. constructor; [|done]. intros (o & Ho & Eo)%list_elem_of_omap. cbn in Eo. subst o.
  apply list_elem_of_lookup in Ho as [j Hj]. by assert (O = S j) by (by eapply (Hinj O (S j) t)).
Qed.
End Remove.

Lemma meta_gone_cleared om C C' : meta_gone om C C' -> cleared C C'.
Proof. destruct om as [m|]; cbn; [|intros ->; apply cleared_refl]. intros (td & _ & _ & ->). by eapply shrinks_cleared, shrinks_delete. Qed.

Lemma safe_free_client s clientId c cdc : good (Some c) (of_client c) s -> co_clients (core_of s) !! c = Some cdc ->
  cd_id cdc = clientId -> clientId <> O ->
  (forall t td, co_topics (core_of s) !! t = Some td ->
     (forall p pb, p ∈ td_publishers td -> co_pubs (core_of s) !! p = Some pb -> pb_client pb <> c) /\
     (forall b sb, b ∈ td_subscribers td -> co_subs (core_of s) !! b = Some sb -> sb_client sb <> c)) ->
  safe (free_client clientId c) s.
Proof.
  intros [HC [HL1 HL2]] Ec <- Hid Hg. pose proof Ec as (cd & Ecd & <-)%core_client. unfold safe, free_client. wp_step. eapply wp_client; [done|]. wp_step.
  set (s' := s <| s_clients ::= _ |> <| s_pubHeap ::= _ |> <| s_subHeap ::= _ |> <| s_clientHeap ::= _ |>).
  assert (core_of s' = free_core (cd_id cd) c (cd_core cd) (core_of s)) as E.
  { unfold s', core_of, free_core, fupd. cbn. by rewrite fmap_delete. }
  split.
  - rewrite E. apply (ok_free_client (of_client c) (core_of s) c (cd_core cd)); try done.
    + intros t td p pb Et Hp. by apply (Hg t td Et).
    + intros t td b sb Et Hb. by apply (Hg t td Et).
  - split; [done|]. cbn. intros c0 cd0 k [_ E0]%lookup_delete_Some. eauto.
Qed.

Lemma safe_RemoveClient s clientId c : ok s -> s_clients s !! clientId = Some (Some c) -> clientId <> O -> safe (RemoveClient clientId) s.
Proof.
  intros HG Hslot Hid. unfold safe, RemoveClient. do 2 wp_step. wp_step. rewrite Hslot. cbn [default]. eapply wp_deref; [done|].
  pose proof HG as [HC HL]. destruct (ok_slots _ _ _ HC clientId c Hslot) as (cdc & Ecc & Eid).
  assert (good (Some c) no_ref s) as HG0.
  { split; [|done]. destruct HC. split; try done. intros p pb E. destruct (ok_pub p pb E) as [H1 H2]. split; [done|]. intros _. by apply H2. }
  wp_step. eapply wp_mono; [apply (wp_remove_from_topics c); [done|intros t Ht; by apply ok_elements]|].
  intros r s1 (HG1 & Hl1 & Hg1 & Hsub & Hun). wp_step.
  eapply wp_mono; [apply (wp_delete_topics c); [done|eapply sublist_NoDup; [by apply elements_nodup|done]|done]|].
  intros [] s2 [HG2 Hc2]. pose proof HG2 as [HC2 HL2].
  assert (co_clients (core_of s2) !! c = Some cdc) as Ec2 by (by rewrite (cl_clients _ _ Hc2), (lv_clients _ _ Hl1)).
  assert (good (Some c) (of_client c) s2) as HG2' by (split; [eapply ok_weaken; [exact HC2|by intros r' []]|done]).
  pose proof Ec2 as (cd2 & Ecd2 & Ecc2)%core_client. wp_step. eapply wp_client; [done|].
  assert (cd_metaPub cd2 = client_ref c (core_of s2) false) as -> by (unfold client_ref; rewrite Ec2, <- Ecc2; done).
  wp_step. eapply wp_mono; [by apply (wp_delete_client_meta c s2 (core_of s2) false)|]. intros [] s3 [HG3 Hm3].
  pose proof (meta_gone_cleared _ _ _ Hm3) as Hc3. assert (co_clients (core_of s3) !! c = Some cdc) as Ec3 by (by rewrite (cl_clients _ _ Hc3)).
  pose proof Ec3 as (cd3 & Ecd3 & Ecc3)%core_client. wp_step. eapply wp_client; [done|].
  assert (cd_metaSub cd3 = client_ref c (core_of s2) true) as -> by (unfold client_ref; rewrite Ec2, <- Ecc3; done).
  wp_step. eapply wp_mono; [apply (wp_delete_client_meta c s3 (core_of s2) true); [done..|intros r' p; by eapply meta_gone_ref|]|].
  { intros m2 Em2. destruct (client_ref c (core_of s2) false) as [m1|] eqn:Em1; [|by rewrite Hm3]. destruct Hm3 as (td & _ & _ & ->).
    cbn [delete_topic co_topics]. unfold fupd. cbn. rewrite lookup_delete_ne; [done|]. intros ->.
    destruct (client_ref_info c _ _ _ Em1) as [n1 E1]. destruct (client_ref_info c _ _ _ Em2) as [n2 E2].
    by assert (RClient false c = RClient true c) by (by eapply (ref_inj (Some c) no_ref (core_of s2)); eauto). }
  intros [] s4 [HG4 Hm4]. pose proof (cleared_trans _ _ _ Hc2 (cleared_trans _ _ _ Hc3 (meta_gone_cleared _ _ _ Hm4))) as Hc4.
  assert (co_clients (core_of s4) !! c = Some cdc) as Ec4 by (by rewrite (cl_clients _ _ Hc4), (lv_clients _ _ Hl1)).
  apply (safe_free_client s4 clientId c cdc); [done..|].
  intros t td Et. apply (cl_topics _ _ Hc4) in Et as Et1. destruct (Hg1 t) with td as [H1 H2].
  - apply elem_of_uid_elements. destruct (sk_topic _ _ _ _ (lv_skel _ _ Hl1) Et1) as (td0 & Et0 & _). exists (td_id td0). by apply (ok_slot _ _ _ HC).
  - done.
  - rewrite (cl_pubs _ _ Hc4), (cl_subs _ _ Hc4). by split.
Qed.
End Clients.
