(* ===== verification/ServerFrames.v ===== *)
(** * ServerFrames: what sending and the operations of clients leave as it is

    A relation between states that every step of the operations respects ([Frame]) is respected
    by the operations.  Two such relations: the table of clients does not change ([slots_of]),
    and the queues of clients of version 4 stay in order (in [ServerDelivery]). *)

From S2P Require Import Prelude NtTypes Monads LocalTypes Json JsonParser Events WireEncoder4.
From S2P Require Import WireDecoder4 ServerTypes WireConnection4.
From S2P Require Import NetworkQueue UidVector ServerImpl.
Local Open Scope Z_scope.

(** ** Steps of a client *)

Definition is_value_msg (msg : ServerMessage jvalue) : bool := match msg with ServerValueMsg _ _ => true | _ => false end.

(** What [ClientData4::SendValue] does to the queue of a client that is not local *)
Definition push_value (id : nat) (value : Value) (k : Client4) : Client4 :=
  k <| k4_outgoing ::= fun l => l ++ [ServerValueMsg (Z.of_nat id) value] |>.
Definition note_value (id : nat) (k : Client4) : Client4 :=
  k <| k4_outgoingValueMap ::= <[id := length (k4_outgoing k)]> |>.
Definition queue_value (mode : SendMode) (id : nat) (value : Value) (k : Client4) : Client4 :=
  match mode with
  | kSendDisabled => k
  | kSendImmNoFlush => SendBinary (WireEncodeBinary (Z.of_nat id) (value_time value) value).2 k
  | kSendAll => push_value id value (note_value id k)
  | kSendNormal =>
      match replaceable4 k id with
      | Some i => k <| k4_outgoing ::= <[i := ServerValueMsg (Z.of_nat id) value]> |>
      | None => push_value id value (if bool_decide (k4_outgoingValueMap k !! id = None) then note_value id k else k)
      end
  end.

Inductive kind_step : Kind -> Kind -> Prop :=
| ks_same k : kind_step k k
| ks_wire k k' : k4_outgoing k' = k4_outgoing k -> k4_outgoingValueMap k' = k4_outgoingValueMap k -> kind_step (K4 k) (K4 k')
| ks_push k msg : is_value_msg msg = false -> kind_step (K4 k) (K4 (k <| k4_outgoing ::= fun l => l ++ [msg] |>))
| ks_value k mode id value : kind_step (K4 k) (K4 (queue_value mode id value k))
| ks_clear k : kind_step (K4 k) (K4 (k <| k4_outgoing := [] |> <| k4_outgoingValueMap := ∅ |>))
| ks_three k k' : k3_state k' = k3_state k -> kind_step (K3 k) (K3 k').

Ltac kind_step4 :=
  first [ apply ks_push; reflexivity
        | apply ks_clear
        | apply ks_wire; unfold SendText, SendBinary, reset_text, reset_binary; repeat case_match; reflexivity ].

(** ** Relations that the steps respect *)

Class Frame {L} (I : SImpl L -> SImpl L -> Prop) : Prop := {
  frame_trans s1 s2 s3 : I s1 s2 -> I s2 s3 -> I s1 s3;
  frame_other s s' : s_clients s' = s_clients s -> s_localClient s' = s_localClient s -> s_metaClients s' = s_metaClients s ->
    s_clientHeap s' = s_clientHeap s -> I s s';
  frame_client s c cd cd' : s_clientHeap s !! c = Some cd -> kind_step (cd_kind cd) (cd_kind cd') ->
    I s (s <| s_clientHeap ::= <[c := cd']> |>);
}.

Definition framed {L A} (I : SImpl L -> SImpl L -> Prop) (m : M (SImpl L) A) : Prop := forall s, wlp m (fun _ s' => I s s') s.

Section Frames.
Context {L : Type} {LI : LocalInterface jvalue L} {EN : Env} {WC : WpiClock} {JF : JsonFloat} {MA : Machine}.
Context {I : SImpl L -> SImpl L -> Prop} {FR : Frame I}.
Implicit Types s : SImpl L.

Lemma frame_refl s : I s s.
Proof. by apply frame_other. Qed.
Lemma fr_ret {A} (a : A) : framed I (ret a).
Proof. intros s. apply frame_refl. Qed.
Lemma fr_bind {A B} (m : M (SImpl L) A) (k : A -> M (SImpl L) B) :
  framed I m -> (forall a, framed I (k a)) -> framed I (bind m k).
Proof.
  intros Hm Hk s. apply wlp_bind. eapply wlp_mono; [apply Hm|]. intros a s' E. eapply wlp_mono; [apply Hk|].
  intros b s'' E'. exact (frame_trans _ _ _ E E').
Qed.
Lemma fr_get : framed I get.
Proof. intros s. apply frame_refl. Qed.
Lemma fr_modify f : (forall s, s_clients (f s) = s_clients s /\ s_localClient (f s) = s_localClient s /\
    s_metaClients (f s) = s_metaClients s /\ s_clientHeap (f s) = s_clientHeap s) -> framed I (modify f).
Proof. intros H s. apply wlp_modify. destruct (H s) as (? & ? & ? & ?). by apply frame_other. Qed.
Lemma fr_deref {A} (o : option A) : framed I (deref o).
Proof. intros s. apply wlp_deref. intros. apply frame_refl. Qed.
Lemma fr_when (b : bool) m : framed I m -> framed I (when b m).
Proof. destruct b; [done|]. intros _. apply fr_ret. Qed.
Lemma fr_for_each {X} (l : list X) body : (forall x, framed I (body x)) -> framed I (for_each l body).
Proof. intros Hb. induction l as [|x l IH]; cbn; [apply fr_ret|]. by apply fr_bind. Qed.
Lemma fr_for_map {X Y} (l : list X) (body : X -> M (SImpl L) Y) : (forall x, framed I (body x)) -> framed I (for_map l body).
Proof.
  intros Hb. induction l as [|x l IH]; cbn; [apply fr_ret|]. apply fr_bind; [done|]. intros y. apply fr_bind; [done|]. intros. apply fr_ret.
Qed.
Lemma fr_on_store {A} (m : M L A) : framed I (on_store m).
Proof. intros s. unfold wlp, on_store. destruct (m (s_store s)) as [[a l]|]; [|done]. by apply frame_other. Qed.

Lemma fr_upd_kind c f : (forall cd, kind_step (cd_kind cd) (cd_kind (f cd))) -> framed I (upd_client c f).
Proof.
  intros Hf s. unfold upd_client, client. apply wlp_bind, wlp_bind, wlp_get, wlp_deref. intros cd E. apply wlp_modify.
  by eapply frame_client.
Qed.
Lemma fr_upd_client c f : (forall cd, cd_kind (f cd) = cd_kind cd) -> framed I (upd_client c f).
Proof. intros Hf. apply fr_upd_kind. intros cd. rewrite Hf. apply ks_same. Qed.
Lemma fr_on4 c f : (forall k, kind_step (K4 k) (K4 (f k))) -> framed I (on4 c f).
Proof. intros Hf. apply fr_upd_kind. intros cd. destruct (cd_kind cd) eqn:E; cbn; rewrite ?E; [apply ks_same|apply Hf|apply ks_same]. Qed.
Lemma fr_on3 c f : (forall k, k3_state (f k) = k3_state k) -> framed I (on3 c f).
Proof.
  intros Hf. apply fr_upd_kind. intros cd. destruct (cd_kind cd) eqn:E; cbn; rewrite ?E; [apply ks_same..|]. by apply ks_three.
Qed.

End Frames.
Create HintDb frames.
#[export] Hint Extern 0 (Frame _) => typeclasses eauto : frames.
#[export] Hint Resolve fr_ret fr_get fr_deref fr_on_store : frames.
Ltac frame :=
  repeat first
    [ solve [eauto with frames nocore]
    | progress unfold get4, get3, WriteBinary, write_text, push4, control_ready, sent_to, write_wire3, push3, upd_topic3, skip,
        Local_SendValue, Local_SendAnnounce, Local_SendUnannounce, Local_SendPropertiesUpdate, persistent_changed,
        erase_topic, remove_publisher, set_period
    | lazymatch goal with
      | |- framed _ (bind _ _) => apply fr_bind; [|intros ?]
      | |- framed _ (modify _) => apply fr_modify; intros ?; by split_and!
      | |- framed _ (upd_client _ _) => apply fr_upd_client; intros ?; reflexivity
      | |- framed _ (on4 _ _) => apply fr_on4; intros ?; kind_step4
      | |- framed _ (on3 _ _) => apply fr_on3; intros ?; reflexivity
      | |- framed _ (when _ _) => apply fr_when
      | |- framed _ (for_each _ _) => apply fr_for_each; intros ?
      | |- framed _ (for_map _ _) => apply fr_for_map; intros ?
      | |- framed _ (let '(_, _) := ?p in _) => destruct p
      | |- framed _ (match ?o with _ => _ end) => destruct o
      end ].

(** ** The operations *)

Section Operations.
Context {L : Type} {LI : LocalInterface jvalue L} {EN : Env} {WC : WpiClock} {JF : JsonFloat} {MA : Machine}.
Context {I : SImpl L -> SImpl L -> Prop} {FR : Frame I}.
Implicit Types s : SImpl L.

Lemma fr_tick : framed I (tick : M (SImpl L) _).
Proof. unfold tick. frame. Qed.
Hint Resolve fr_tick : frames.
Lemma fr_nt_Now : framed I (nt_Now : M (SImpl L) _).
Proof. unfold nt_Now. frame. Qed.
Lemma fr_wpi_now : framed I (wpi_now : M (SImpl L) _).
Proof. unfold wpi_now. frame. Qed.
Lemma fr_topic t : framed I (topic t : M (SImpl L) _).
Proof. unfold topic. frame. Qed.
Lemma fr_pub t : framed I (pub t : M (SImpl L) _).
Proof. unfold pub. frame. Qed.
Lemma fr_sub t : framed I (sub t : M (SImpl L) _).
Proof. unfold sub. frame. Qed.
Lemma fr_client t : framed I (client t : M (SImpl L) _).
Proof. unfold client. frame. Qed.
Lemma fr_items {A} (m : gmap Z A) : framed I (items m : M (SImpl L) _).
Proof. unfold items. frame. Qed.
Lemma fr_key64 uid : framed I (key64 uid : M (SImpl L) _).
Proof. unfold key64. frame. Qed.
Hint Resolve fr_nt_Now fr_wpi_now fr_topic fr_pub fr_sub fr_client fr_items fr_key64 : frames.
Lemma fr_upd_topic t f : framed I (upd_topic t f : M (SImpl L) _).
Proof. unfold upd_topic. frame. Qed.
Lemma fr_new_topic t : framed I (new_topic t : M (SImpl L) _).
Proof. unfold new_topic. frame. Qed.
Lemma fr_new_pub t : framed I (new_pub t : M (SImpl L) _).
Proof. unfold new_pub. frame. Qed.
Lemma fr_new_sub t : framed I (new_sub t : M (SImpl L) _).
Proof. unfold new_sub. frame. Qed.
Hint Resolve fr_upd_topic fr_new_topic fr_new_pub fr_new_sub : frames.

Lemma fr_wire_flush4 c : framed I (wire_flush4 c : M (SImpl L) _).
Proof. unfold wire_flush4. frame. Qed.
Hint Resolve fr_wire_flush4 : frames.
Lemma fr_Client4_Flush c : framed I (Client4_Flush c : M (SImpl L) _).
Proof. unfold Client4_Flush. frame. Qed.
Hint Resolve fr_Client4_Flush : frames.
(** A value for a client of version 4 that is not local is queued, and nothing else happens. *)
Lemma on4_run s c cd k f : s_clientHeap s !! c = Some cd -> cd_kind cd = K4 k ->
  on4 c f s = Some (tt, s <| s_clientHeap ::= <[c := cd <| cd_kind := K4 (f k) |>]> |>).
Proof. intros E Ek. unfold on4, upd_client, client, bind, get, deref, modify. rewrite E. cbn. by rewrite Ek. Qed.
Lemma Client4_SendValue_run s c cd k t td value mode : s_clientHeap s !! c = Some cd -> cd_kind cd = K4 k ->
  cd_local cd = false -> s_topicHeap s !! t = Some td -> mode <> kSendDisabled ->
  Client4_SendValue c t value mode s =
  Some (tt, s <| s_clientHeap ::= <[c := cd <| cd_kind := K4 (queue_value mode (td_id td) value k) |>]> |>).
Proof.
  intros E Ek El Et Hm. unfold Client4_SendValue, bind at 1, topic, bind at 1, get, deref. rewrite Et.
  unfold bind at 1, client, bind at 1, get, deref. rewrite E, El. destruct mode; cbn [queue_value]; [done| | |].
  - unfold bind. rewrite (on4_run s c cd k) by done. unfold push4.
    erewrite on4_run; [|cbn; apply lookup_insert_eq|done]. unfold fupd. cbn. by rewrite insert_insert_eq.
  - unfold bind at 1, get4, bind at 1, client, bind at 1, get, deref. rewrite E, Ek. cbn [ret].
    destruct (replaceable4 k (td_id td)) as [i|]; [by rewrite (on4_run s c cd k)|].
    unfold bind. case_bool_decide; cbn [when].
    + rewrite (on4_run s c cd k) by done. unfold push4.
      erewrite on4_run; [|cbn; apply lookup_insert_eq|done]. unfold fupd. cbn. by rewrite insert_insert_eq.
    + cbn. unfold push4. by rewrite (on4_run s c cd k).
  - unfold bind, WriteBinary. by rewrite (on4_run s c cd k).
Qed.
Lemma wlp_Client4_SendValue s c cd k t value mode : s_clientHeap s !! c = Some cd -> cd_kind cd = K4 k ->
  wlp (Client4_SendValue c t value mode) (fun _ s' => I s s') s.
Proof.
  intros E Ek. destruct (cd_local cd) eqn:El.
  - unfold Client4_SendValue. apply wlp_bind. unfold topic. apply wlp_bind, wlp_get, wlp_deref. intros td Et.
    apply wlp_bind. unfold client. apply wlp_bind, wlp_get, wlp_deref. intros cd' E'. simplify_eq. rewrite El.
    generalize s. change (framed I (WriteBinary c (Z.of_nat (td_id td)) (value_time value) value ;; when true (Client4_Flush c))). frame.
  - destruct (decide (mode = kSendDisabled)) as [->|Hm].
    + unfold Client4_SendValue. apply wlp_bind. unfold topic. apply wlp_bind, wlp_get, wlp_deref. intros td Et.
      apply wlp_bind. unfold client. apply wlp_bind, wlp_get, wlp_deref. intros cd' E'. simplify_eq. rewrite El. apply fr_ret.
    + destruct (s_topicHeap s !! t) as [td|] eqn:Et.
      * unfold wlp. rewrite (Client4_SendValue_run s c cd k t td) by done. eapply frame_client; [done|].
        cbn. rewrite Ek. apply ks_value.
      * unfold Client4_SendValue. apply wlp_bind. unfold topic. apply wlp_bind, wlp_get, wlp_deref. intros td Et'. congruence.
Qed.
Lemma fr_set_sent c t b : framed I (set_sent c t b : M (SImpl L) _).
Proof. unfold set_sent. frame. Qed.
Hint Resolve fr_set_sent : frames.
Lemma fr_Client4_SendAnnounce c t pubuid : framed I (Client4_SendAnnounce c t pubuid : M (SImpl L) _).
Proof. unfold Client4_SendAnnounce. frame. Qed.
Hint Resolve fr_Client4_SendAnnounce : frames.
Lemma fr_Client4_SendUnannounce c t : framed I (Client4_SendUnannounce c t : M (SImpl L) _).
Proof. unfold Client4_SendUnannounce. frame. Qed.
Hint Resolve fr_Client4_SendUnannounce : frames.
Lemma fr_Client4_SendPropertiesUpdate c t update ack : framed I (Client4_SendPropertiesUpdate c t update ack : M (SImpl L) _).
Proof. unfold Client4_SendPropertiesUpdate. frame. Qed.
Hint Resolve fr_Client4_SendPropertiesUpdate : frames.
Lemma fr_send4 c msg : framed I (send4 c msg : M (SImpl L) _).
Proof. unfold send4. frame. Qed.
Hint Resolve fr_send4 : frames.
Lemma fr_Client4_SendOutgoing c curTimeMs : framed I (Client4_SendOutgoing c curTimeMs : M (SImpl L) _).
Proof. unfold Client4_SendOutgoing. frame. Qed.
Hint Resolve fr_Client4_SendOutgoing : frames.
Lemma fr_Client3_Flush c : framed I (Client3_Flush c : M (SImpl L) _).
Proof. unfold Client3_Flush. frame. Qed.
Hint Resolve fr_Client3_Flush : frames.
Lemma fr_GetTopic3 c t : framed I (GetTopic3 c t : M (SImpl L) _).
Proof. unfold GetTopic3. frame. Qed.
Hint Resolve fr_GetTopic3 : frames.
Lemma fr_next_value3 c t td value : framed I (next_value3 c t td value : M (SImpl L) _).
Proof. unfold next_value3. frame. Qed.
Hint Resolve fr_next_value3 : frames.
Lemma fr_append_value3 c t td value : framed I (append_value3 c t td value : M (SImpl L) _).
Proof. unfold append_value3. frame. Qed.
Hint Resolve fr_append_value3 : frames.
Lemma fr_Client3_SendValue c t value mode : framed I (Client3_SendValue c t value mode : M (SImpl L) _).
Proof. unfold Client3_SendValue. frame. Qed.
Hint Resolve fr_Client3_SendValue : frames.
Lemma fr_Client3_SendUnannounce c t : framed I (Client3_SendUnannounce c t : M (SImpl L) _).
Proof. unfold Client3_SendUnannounce. frame. Qed.
Hint Resolve fr_Client3_SendUnannounce : frames.
Lemma fr_Client3_SendPropertiesUpdate c t ack : framed I (Client3_SendPropertiesUpdate c t ack : M (SImpl L) _).
Proof. unfold Client3_SendPropertiesUpdate. frame. Qed.
Hint Resolve fr_Client3_SendPropertiesUpdate : frames.
Lemma fr_Client3_SendOutgoing c curTimeMs : framed I (Client3_SendOutgoing c curTimeMs : M (SImpl L) _).
Proof. unfold Client3_SendOutgoing. frame. Qed.
Hint Resolve fr_Client3_SendOutgoing : frames.
Lemma fr_SendValue c t value mode : framed I (SendValue c t value mode : M (SImpl L) _).
Proof.
  intros s. unfold SendValue. apply wlp_bind. unfold client. apply wlp_bind, wlp_get, wlp_deref. intros cd E.
  destruct (cd_kind cd) as [|k|k] eqn:Ek; [|by eapply wlp_Client4_SendValue|].
  - revert s E. assert (framed I (Local_SendValue t value)) as H by frame. intros s _. apply H.
  - apply fr_Client3_SendValue.
Qed.
Hint Resolve fr_SendValue : frames.
Lemma fr_Flush c : framed I (Flush c : M (SImpl L) _).
Proof. unfold Flush. frame. Qed.
Hint Resolve fr_Flush : frames.
Lemma fr_SendOutgoing c curTimeMs : framed I (SendOutgoing c curTimeMs : M (SImpl L) _).
Proof. unfold SendOutgoing. frame. Qed.
Hint Resolve fr_SendOutgoing : frames.
Lemma fr_send_modes bs l : framed I (send_modes bs l : M (SImpl L) _).
Proof. revert l. induction bs as [|b bs IH]; intros l; cbn; frame. Qed.
Hint Resolve fr_send_modes : frames.
Lemma fr_SetValue from t value : framed I (SetValue from t value : M (SImpl L) _).
Proof. unfold SetValue. frame. Qed.
Hint Resolve fr_SetValue : frames.
Lemma fr_set_meta t elems : framed I (set_meta t elems : M (SImpl L) _).
Proof. unfold set_meta. frame. Qed.
Hint Resolve fr_set_meta : frames.
Lemma fr_UpdateMetaClientPub c : framed I (UpdateMetaClientPub c : M (SImpl L) _).
Proof. unfold UpdateMetaClientPub. frame. Qed.
Hint Resolve fr_UpdateMetaClientPub : frames.
Lemma fr_UpdateMetaClientSub c : framed I (UpdateMetaClientSub c : M (SImpl L) _).
Proof. unfold UpdateMetaClientSub. frame. Qed.
Hint Resolve fr_UpdateMetaClientSub : frames.
Lemma fr_UpdateMetaTopicPub t : framed I (UpdateMetaTopicPub t : M (SImpl L) _).
Proof. unfold UpdateMetaTopicPub. frame. Qed.
Hint Resolve fr_UpdateMetaTopicPub : frames.
Lemma fr_UpdateMetaTopicSub t : framed I (UpdateMetaTopicSub t : M (SImpl L) _).
Proof. unfold UpdateMetaTopicSub. frame. Qed.
Hint Resolve fr_UpdateMetaTopicSub : frames.
Lemma fr_Client3_SendAnnounce c t : framed I (Client3_SendAnnounce c t : M (SImpl L) _).
Proof. unfold Client3_SendAnnounce. frame. Qed.
Hint Resolve fr_Client3_SendAnnounce : frames.
Lemma fr_SendAnnounce c t pubuid : framed I (SendAnnounce c t pubuid : M (SImpl L) _).
Proof. unfold SendAnnounce. frame. Qed.
Hint Resolve fr_SendAnnounce : frames.
Lemma fr_SendUnannounce c t : framed I (SendUnannounce c t : M (SImpl L) _).
Proof. unfold SendUnannounce. frame. Qed.
Hint Resolve fr_SendUnannounce : frames.
Lemma fr_SendPropertiesUpdate c t update ack : framed I (SendPropertiesUpdate c t update ack : M (SImpl L) _).
Proof. unfold SendPropertiesUpdate. frame. Qed.
Hint Resolve fr_SendPropertiesUpdate : frames.
Lemma fr_GetSubscribers c name special : framed I (GetSubscribers c name special : M (SImpl L) _).
Proof. unfold GetSubscribers. frame. Qed.
Hint Resolve fr_GetSubscribers : frames.
Lemma fr_announce_new from t c : framed I (announce_new from t c : M (SImpl L) _).
Proof. unfold announce_new. frame. Qed.
Hint Resolve fr_announce_new : frames.
Lemma fr_create_topic from name typeStr properties special : framed I (create_topic from name typeStr properties special : M (SImpl L) _).
Proof. unfold create_topic. frame. Qed.
Hint Resolve fr_create_topic : frames.
Lemma fr_CreateMetaTopic name : framed I (CreateMetaTopic name : M (SImpl L) _).
Proof. unfold CreateMetaTopic. frame. Qed.
Hint Resolve fr_CreateMetaTopic : frames.
Lemma fr_CreateTopic from name typeStr properties : framed I (CreateTopic from name typeStr properties : M (SImpl L) _).
Proof. unfold CreateTopic. frame. Qed.
Hint Resolve fr_CreateTopic : frames.
Lemma fr_subscribed_clients td : framed I (subscribed_clients td : M (SImpl L) _).
Proof. unfold subscribed_clients. frame. Qed.
Hint Resolve fr_subscribed_clients : frames.
Lemma fr_DeleteTopic_rec fuel ot : framed I (DeleteTopic_rec fuel ot : M (SImpl L) unit).
Proof. revert ot. induction fuel as [|fuel IH]; intros [t|]; cbn; frame. Qed.
Hint Resolve fr_DeleteTopic_rec : frames.
Lemma fr_DeleteTopic ot : framed I (DeleteTopic ot : M (SImpl L) _).
Proof. unfold DeleteTopic. frame. Qed.
Hint Resolve fr_DeleteTopic : frames.
Lemma fr_PropertiesChanged from t update : framed I (PropertiesChanged from t update : M (SImpl L) _).
Proof. unfold PropertiesChanged. frame. Qed.
Hint Resolve fr_PropertiesChanged : frames.
Lemma fr_SetProperties from t update : framed I (SetProperties from t update : M (SImpl L) _).
Proof. unfold SetProperties. frame. Qed.
Hint Resolve fr_SetProperties : frames.
Lemma fr_ClientPublish c pubuid name typeStr properties : framed I (ClientPublish c pubuid name typeStr properties : M (SImpl L) _).
Proof. unfold ClientPublish. frame. Qed.
Hint Resolve fr_ClientPublish : frames.
Lemma fr_ClientUnpublish c pubuid : framed I (ClientUnpublish c pubuid : M (SImpl L) _).
Proof. unfold ClientUnpublish. frame. Qed.
Hint Resolve fr_ClientUnpublish : frames.
Lemma fr_ClientSetProperties name update : framed I (ClientSetProperties name update : M (SImpl L) _).
Proof. unfold ClientSetProperties. frame. Qed.
Hint Resolve fr_ClientSetProperties : frames.
Lemma fr_subscribe_topic c b replace t : framed I (subscribe_topic c b replace t : M (SImpl L) _).
Proof. unfold subscribe_topic. frame. Qed.
Hint Resolve fr_subscribe_topic : frames.
Lemma fr_ClientSubscribe c subuid topicNames options : framed I (ClientSubscribe c subuid topicNames options : M (SImpl L) _).
Proof. unfold ClientSubscribe. frame. Qed.
Hint Resolve fr_ClientSubscribe : frames.
Lemma fr_ClientUnsubscribe c subuid : framed I (ClientUnsubscribe c subuid : M (SImpl L) _).
Proof. unfold ClientUnsubscribe. frame. Qed.
Hint Resolve fr_ClientUnsubscribe : frames.
Lemma fr_ClientSetValue c pubuid value : framed I (ClientSetValue c pubuid value : M (SImpl L) _).
Proof. unfold ClientSetValue. frame. Qed.
Hint Resolve fr_ClientSetValue : frames.
Lemma fr_client_call_run c d : framed I (client_call_run c d : M (SImpl L) _).
Proof. unfold client_call_run. frame. Qed.
Hint Resolve fr_client_call_run : frames.
Lemma fr_client_msg_run c msg : framed I (client_msg_run c msg : M (SImpl L) _).
Proof. unfold client_msg_run. frame. Qed.
Hint Resolve fr_client_msg_run : frames.
Lemma fr_send_pong c value : framed I (send_pong c value : M (SImpl L) _).
Proof. unfold send_pong. frame. Qed.
Hint Resolve fr_send_pong : frames.
Lemma fr_Client4_binary_loop fuel c data : framed I (Client4_binary_loop fuel c data : M (SImpl L) _).
Proof. revert data. induction fuel as [|fuel IH]; intros [|b data]; cbn; frame. Qed.
Hint Resolve fr_Client4_binary_loop : frames.
End Operations.
#[export] Hint Resolve
  fr_tick fr_nt_Now fr_wpi_now fr_topic fr_pub fr_sub fr_client fr_items fr_key64 fr_upd_topic fr_new_topic
  fr_new_pub fr_new_sub fr_wire_flush4 fr_Client4_Flush fr_set_sent fr_Client4_SendAnnounce
  fr_Client4_SendUnannounce fr_Client4_SendPropertiesUpdate fr_send4 fr_Client4_SendOutgoing fr_Client3_Flush
  fr_GetTopic3 fr_next_value3 fr_append_value3 fr_Client3_SendValue fr_Client3_SendUnannounce
  fr_Client3_SendPropertiesUpdate fr_Client3_SendOutgoing fr_SendValue fr_Flush fr_SendOutgoing fr_send_modes
  fr_SetValue fr_set_meta fr_UpdateMetaClientPub fr_UpdateMetaClientSub fr_UpdateMetaTopicPub fr_UpdateMetaTopicSub
  fr_Client3_SendAnnounce fr_SendAnnounce fr_SendUnannounce fr_SendPropertiesUpdate fr_GetSubscribers
  fr_announce_new fr_create_topic fr_CreateMetaTopic fr_CreateTopic fr_subscribed_clients fr_DeleteTopic_rec
  fr_DeleteTopic fr_PropertiesChanged fr_SetProperties fr_ClientPublish fr_ClientUnpublish fr_ClientSetProperties
  fr_subscribe_topic fr_ClientSubscribe fr_ClientUnsubscribe fr_ClientSetValue fr_client_call_run fr_client_msg_run
  fr_send_pong fr_Client4_binary_loop : frames.

(** ** Who is connected *)

(** Only [AddClient], [AddClient3] and [RemoveClient] change the table of clients, only [SetLocal]
    the topic of the list of clients, and only the handshake the state of a client of version 3. *)
Section Slots.
Context {L : Type}.
Implicit Types s : SImpl L.

Definition state3_of (cd : ClientData) : option State3 := match cd_kind cd with K3 k => Some (k3_state k) | _ => None end.
Definition slots_of s : list (option addr) * addr * option addr * gmap addr (option State3) :=
  (s_clients s, s_localClient s, s_metaClients s, state3_of <$> s_clientHeap s).
Definition slots_kept s s' : Prop := slots_of s' = slots_of s.

Lemma state3_step cd cd' : kind_step (cd_kind cd) (cd_kind cd') -> state3_of cd' = state3_of cd.
Proof. unfold state3_of. inversion 1; congruence. Qed.
#[global] Instance slots_frame : Frame slots_kept.
Proof.
  split; unfold slots_kept, slots_of.
  - congruence.
  - intros s s' -> -> -> ->. done.
  - intros s c cd cd' E Hk. unfold fupd. cbn. f_equal. rewrite fmap_insert, (state3_step cd cd') by done.
    apply insert_id. by rewrite lookup_fmap, E.
Qed.
End Slots.
