(* ===== verification/ServerProps.v ===== *)
(** * ServerProps: the server keeps free of undefined behaviour

    Sequences of operations of the server that keep to the protocol. *)

From S2P Require Import Prelude NtTypes Monads LocalTypes Json JsonParser JsonRoundTrip.
From S2P Require Import Events WireEncoder4.
From S2P Require Import Mpack WireDecoder4 WireConnection4 NetworkQueue.
From S2P Require Import UidVector.
From S2P Require Import ServerTypes ServerImpl ServerPersistent ServerCore.
From S2P Require Import ServerTopics ServerSafety ServerClients ServerFrames.
From S2P Require Import ServerNt3.
Local Open Scope Z_scope.

(** ** Decoding without a time offset does not overflow. *)

Lemma swrap_range w z : 0 < w <= 64 -> - 2 ^ 63 <= swrap w z < 2 ^ 63.
Proof.
  intros Hw. unfold swrap. pose proof (Z.mod_pos_bound (z + 2 ^ (w - 1)) (2 ^ w) ltac:(apply Z.pow_pos_nonneg; lia)) as H.
  pose proof (Z.pow_le_mono_r 2 (w - 1) 63 ltac:(lia) ltac:(lia)).
  assert (2 ^ w = 2 * 2 ^ (w - 1)) as E by (rewrite <- Z.pow_succ_r by lia; f_equal; lia). rewrite E in *. lia.
Qed.

Lemma be_combine_nonneg bs : 0 <= be_combine bs.
Proof.
  unfold be_combine. assert (forall a, 0 <= a -> 0 <= foldl (fun acc b => acc * 256 + ub b) a bs) as H; [|by apply H].
  induction bs as [|b bs IH]; intros a Ha; [done|]. cbn. apply IH. pose proof (ub_range b). lia.
Qed.

Definition tag_in_range (r : mpack_error + mpack_tag * bytes) : Prop :=
  match r with
  | inr (TUint z, _) => 0 <= z
  | inr (TInt z, _) => - 2 ^ 63 <= z < 2 ^ 63
  | _ => True
  end.

Lemma with_number_range n data mk :
  (forall z, 0 <= z -> tag_in_range (inr (mk z, []))) -> tag_in_range (with_number n data mk).
Proof. intros H. unfold with_number. case_match; [done|]. apply (H (be_combine (take n data))), be_combine_nonneg. Qed.

Lemma parse_tag_range data : tag_in_range (mpack_parse_tag data).
Proof.
  unfold mpack_parse_tag. destruct data as [|b data]; [done|]. pose proof (ub_range b). cbv zeta.
  repeat case_match; try exact I; try (apply with_number_range; intros; cbn; try done; apply swrap_range; lia); cbn.
  - lia.
  - apply swrap_range. lia.
Qed.

Lemma expect_i64_range r : - 2 ^ 63 <= (mpack_expect_i64 r).1 < 2 ^ 63.
Proof.
  unfold mpack_expect_i64, mpack_read_tag. destruct (is_ok r); [|cbn; lia].
  pose proof (parse_tag_range (rd_data r)) as H'. destruct (mpack_parse_tag _) as [|[tag ?]]; [cbn; lia|].
  destruct tag; cbn in *; try lia. case_match; cbn; lia.
Qed.

Lemma decode_binary_some data : is_Some (WireDecodeBinary data 0).
Proof.
  unfold WireDecodeBinary. pose proof expect_i64_range as H.
  destruct (mpack_expect_i64 _) as [id r]. specialize (H r). destruct (mpack_expect_i64 r) as [time r'].
  destruct (mpack_expect_int r') as [ty r'']. destruct (read_value ty r'') as [[d r3]|]; [|done]. case_match; [|done].
  case_match; [done|]. cbn in H. unfold add64. rewrite Z.add_0_r. destruct (_ && _) eqn:E; [done|]. lia.
Qed.

(** ** The operations *)

Section Ops.
Context {L : Type} {LI : LocalInterface jvalue L} {LS : LocalInterfaceSafe jvalue L}.
Context {EN : Env} {WC : WpiClock} {JF : JsonFloat} {MA : Machine} {ML : MachineLaws}.
Implicit Types s : SImpl L.
Hint Resolve no_no_ref : core.

Lemma ok_make (store : L) : li_ok store -> ok (SImpl_make store).
Proof.
  intros Hst. split; [|split; [done|]; cbn; by intros ??? [<- <-]%lookup_singleton_Some ?].
  unfold SImpl_make, core_of. cbn. rewrite fmap_empty, map_fmap_singleton. cbn. set (c := alloc O ∅).
  split; cbn; try (intros; by simplify_map_eq).
  - apply uid_make_ok.
  - intros [|[|i]] c0 E; cbn in E; simplify_eq. eexists. by rewrite lookup_singleton_eq.
  - intros [[] t|[] c0|] m n E; cbn in E; try done; try (rewrite lookup_empty in E; done);
      destruct (decide (c0 = c)) as [->|]; try (by rewrite lookup_singleton_eq in E); by rewrite lookup_singleton_ne in E.
Qed.

Lemma safe_bind {A B} (m : M (SImpl L) A) (k : A -> M (SImpl L) B) s :
  safe m s -> (forall a s', ok s' -> safe (k a) s') -> safe (bind m k) s.
Proof. intros Hm Hk. apply wp_bind. eapply wp_mono; [exact Hm|]. intros a s' H. by apply Hk. Qed.

Lemma slot_client s i c : ok s -> s_clients s !! i = Some (Some c) -> has_client s c.
Proof. intros HG Hi. by eapply (good_slot None no_ref), list_elem_of_lookup_2. Qed.

Lemma safe_SendControl s t : ok s -> safe (SendControl t) s.
Proof.
  intros HG. unfold safe, SendControl. do 2 wp_step. destruct (s_controlReady s); [|done]. cbn [when]. do 2 wp_step.
  set (s1 := _ <| s_controlReady := _ |>). assert (ok s1) as HG1 by (split; [apply HG|apply (live_same s), HG; done]).
  apply safe_keeps; [done|]. apply kc_for_each; [by apply ok_live|]. intros c s2 Hc Hq.
  assert (has_client s2 c) as H2.
  { eapply quiet_client; [done|]. apply list_elem_of_omap in Hc as (oc & Hin & E). cbn in E. subst oc. by apply (good_slot None no_ref). }
  apply kc_bind; [apply (kc_SendOutgoing None no_ref); [by eapply quiet_good|done]|]. intros [] s3 Hq3.
  apply (kc_Flush None no_ref); [do 2 (eapply quiet_good; [|done]); done|by eapply quiet_client].
Qed.

Lemma safe_SendValues s id t : ok s -> (id < length (s_clients s))%nat -> safe (SendValues id t) s.
Proof.
  intros HG Hid. unfold safe, SendValues. do 2 wp_step. apply lookup_lt_is_Some in Hid as [oc Eoc]. rewrite Eoc.
  wp_step. eapply wp_deref; [done|]. destruct oc as [c|]; [|done]. pose proof (slot_client s id c HG Eoc) as Hc. apply safe_keeps; [done|].
  apply kc_bind; [by apply (kc_SendOutgoing None no_ref)|]. intros [] s2 Hq.
  apply (kc_Flush None no_ref); [by eapply quiet_good|by eapply quiet_client].
Qed.

Lemma safe_ConnectionsChanged s conns : ok s -> s_metaClients s <> None -> safe (ConnectionsChanged conns) s.
Proof.
  intros HG Hm. unfold safe, ConnectionsChanged, UpdateMetaClients. do 2 wp_step. destruct (s_metaClients s) as [m|] eqn:Em; [|done].
  wp_step. eapply wp_deref; [done|]. apply safe_keeps; [done|]. apply (kc_set_meta None no_ref); [done|]. destruct HG as [HC _].
  destruct (ok_meta _ _ _ HC RClients m "$clients") as (td & E & _); [cbn; by rewrite Em|done|]. by exists td.
Qed.

(** The reference to "$clients" is set. *)
Lemma ok_set_meta_clients x R C m td : core_ok x R C -> co_topics C !! m = Some td -> td_name td = "$clients" ->
  core_ok x R (C <| co_metaClients := Some m |>).
Proof.
  intros [] Em En. split; try done. intros r m' n Er Hr. destruct r as [b t|b c|]; [by apply (ok_meta (RTopic b t))|by apply (ok_meta (RClient b c))|].
  cbn in Er. injection Er as <- <-. eauto.
Qed.

Lemma safe_SetLocal s local : ok s -> safe (SetLocal local) s.
Proof.
  intros HG. unfold safe, SetLocal. do 2 wp_step. set (s1 := _ <| s_local := _ |>).
  assert (ok s1) as HG1 by (split; [apply HG|apply (live_same s), HG; done]). wp_step.
  eapply wp_mono; [apply (wp_CreateMetaTopic None no_ref); [done|by eexists|done]|]. intros m s2 [HG2 [b (td & Em & En & _)]]. do 2 wp_step.
  set (s3 := _ <| s_metaClients := _ |>). assert (ok s3) as HG3.
  { split; [exact (ok_set_meta_clients _ _ (core_of s2) m td (proj1 HG2) Em En)|apply (live_same s2), HG2; done]. }
  do 2 wp_step. cbv zeta. set (c := s_localClient s3). pose proof HG3 as [HC3 _].
  destruct (ok_slots _ _ _ HC3 _ _ (ok_local _ _ _ HC3)) as (cd & Ec & _). change (co_localClient (core_of s3)) with c in Ec.
  apply (wp_seq (fun m => upd_client c (client_meta false m))).
  eapply wp_mono; [apply (wp_link_client s3 c cd false); [done..| |by eexists]|].
  { unfold client_meta_name. by rewrite bool_decide_eq_true_2. }
  intros [] s4 (HG4 & El4 & cd4 & Ec4 & _). apply (wp_seq (fun m => upd_client c (client_meta true m))).
  eapply wp_mono; [apply (wp_link_client s4 c cd4 true); [done..| |by eexists]|].
  { unfold client_meta_name. by rewrite bool_decide_eq_true_2 by (cbn; by rewrite El4). }
  intros [] s5 (HG5 & El5 & cd5 & Ec5 & _). assert (has_client s5 c) as Hc5 by (by exists cd5). apply safe_keeps; [done|].
  apply kc_bind; [by apply (kc_UpdateMetaClientPub None no_ref)|]. intros [] s6 Hq6.
  apply (kc_UpdateMetaClientSub None no_ref); [by eapply quiet_good|by eapply quiet_client|done].
Qed.

(** ** What may be asked of the server *)

(** A call of a client: uids that are not reserved keys of a [DenseMap], a publisher uid that is
    not in use, the name of a topic that is not a meta topic, text that is UTF-8. *)
Definition unused (c : addr) (pubuid : Z) s : bool :=
  match s_clientHeap s !! c with Some cd => bool_decide (cd_publishers cd !! pubuid = None) | None => false end.
Definition allowed_call (c : addr) (call : ClientCall jvalue) s : bool :=
  match call with
  | WireEncoder4.ClientPublish pubuid name typeStr properties =>
      dense_key pubuid && unused c pubuid s && negb (is_meta_name name) && bool_decide (is_Some (qstr name)) &&
      bool_decide (is_Some (qstr typeStr)) && bool_decide (is_Some (dump_obj properties))
  | WireEncoder4.ClientUnpublish pubuid => dense_key pubuid
  | WireEncoder4.ClientSetProperties name update => bool_decide (is_Some (dump_obj update))
  | WireEncoder4.ClientSubscribe subuid topicNames options => dense_key subuid
  | WireEncoder4.ClientUnsubscribe subuid => dense_key subuid
  end.
Definition allowed_decoded (c : addr) (d : Decoded (ClientCall jvalue)) s : bool :=
  match d with DCall call => allowed_call c call s | DWarning _ => true end.
Definition allowed_msg (c : addr) (msg : ClientMessage jvalue) s : bool :=
  match msg with
  | ClientValueMsg pubHandle value => dense_key pubHandle
  | PublishMsg pubHandle _ name typeStr properties _ => allowed_call c (WireEncoder4.ClientPublish pubHandle name typeStr properties) s
  | UnpublishMsg pubHandle _ => dense_key pubHandle
  | SetPropertiesMsg _ name update => allowed_call c (WireEncoder4.ClientSetProperties name update) s
  | SubscribeMsg subHandle _ _ => dense_key subHandle
  | UnsubscribeMsg subHandle => dense_key subHandle
  | ClientNone => true
  end.
(** Each of a sequence, when its turn comes *)
Fixpoint allowed_all {X} (allowed : X -> SImpl L -> bool) (run : X -> M (SImpl L) unit) (l : list X) s : bool :=
  match l with
  | [] => true
  | x :: l => allowed x s && match run x s with Some (_, s') => allowed_all allowed run l s' | None => true end
  end.
(** The values of a frame *)
Fixpoint allowed_values (fuel : nat) (data : bytes) : bool :=
  match fuel, data with
  | O, _ | _, [] => true
  | S fuel, _ =>
      match WireDecodeBinary data 0 with
      | Some (BinaryValue pubuid _ rest) => ((pubuid =? -1) || dense_key pubuid) && allowed_values fuel rest
      | _ => true
      end
  end.

Lemma safe_slots {A} (m : M (SImpl L) A) s : safe m s -> framed slots_kept m ->
  wp m (fun _ s' => ok s' /\ slots_of s' = slots_of s) s.
Proof. intros W F. specialize (F s). unfold safe, wp, wlp in *. by destruct (m s) as [[a s']|]. Qed.

Lemma safe_for_each {X} (allowed : X -> SImpl L -> bool) run (l : list X) s :
  (forall x s', ok s' -> slots_of s' = slots_of s -> allowed x s' = true -> safe (run x) s') ->
  (forall x, framed slots_kept (run x)) ->
  ok s -> allowed_all allowed run l s = true -> safe (for_each l run) s.
Proof.
  intros Hr Hf HG Ha. assert (slots_of s = slots_of s) as E by done. revert E HG Ha. generalize s at 1 3 4 5 as s'.
  induction l as [|x l IH]; intros s' E HG Ha; [done|]. cbn in Ha. apply andb_true_iff in Ha as [Hx Hl].
  unfold safe. cbn. wp_step. pose proof (safe_slots _ _ (Hr x s' HG E Hx) (Hf x)) as W. unfold wp in W |- *.
  destruct (run x s') as [[[] s'']|]; [|done]. destruct W. apply IH; [congruence|done|done].
Qed.

Lemma slots_client s s' i c : ok s' -> slots_of s' = slots_of s -> s_clients s !! i = Some (Some c) -> has_client s' c.
Proof. intros HG E Hi. apply (slot_client s' i c HG). injection E as -> _ _ _. done. Qed.

Lemma safe_call s c call : ok s -> has_client s c -> allowed_call c call s = true -> safe (client_call_run c (DCall call)) s.
Proof.
  intros HG Hc Ha. pose proof Hc as [cd Ecd]%has_client_heap. destruct call; cbn in *.
  - repeat (apply andb_true_iff in Ha as [Ha ?]). unfold unused in *. rewrite Ecd in *.
    repeat match goal with H : bool_decide _ = true |- _ => apply bool_decide_eq_true in H end.
    apply (safe_ClientPublish s c (cd_core cd)); first [done|by apply client_core|by apply negb_true_iff].
  - by apply safe_ClientUnpublish.
  - apply bool_decide_eq_true in Ha. by apply safe_ClientSetProperties.
  - by apply safe_ClientSubscribe.
  - by apply safe_ClientUnsubscribe.
Qed.

Lemma safe_text s i c data ds : ok s -> s_clients s !! i = Some (Some c) -> WireDecodeText_client data = Some ds ->
  allowed_all (allowed_decoded c) (client_call_run c) ds s = true -> safe (Client4_ProcessIncomingText c data) s.
Proof.
  intros HG Hc Ed Ha. unfold safe, Client4_ProcessIncomingText. wp_step. eapply wp_deref; [done|].
  apply (safe_for_each (allowed_decoded c)); try done; [|apply fr_client_call_run].
  intros [call|w] s' HG' E Hal; [|done]. apply safe_call; [done|by eapply slots_client|done].
Qed.

Lemma safe_msg s c msg : ok s -> has_client s c -> allowed_msg c msg s = true -> safe (client_msg_run c msg) s.
Proof.
  intros HG Hc Ha. destruct msg; cbn [client_msg_run allowed_msg] in *.
  - done.
  - exact (safe_call s c (WireEncoder4.ClientPublish _ _ _ _) HG Hc Ha).
  - by apply safe_ClientUnpublish.
  - exact (safe_call s c (WireEncoder4.ClientSetProperties _ _) HG Hc Ha).
  - by apply safe_ClientSubscribe.
  - by apply safe_ClientUnsubscribe.
  - by apply safe_ClientSetValue.
Qed.

Lemma safe_HandleLocal s msgs : ok s -> allowed_all (allowed_msg (s_localClient s)) (client_msg_run (s_localClient s)) msgs s = true ->
  safe (HandleLocal msgs) s.
Proof.
  intros HG Ha. unfold safe, HandleLocal. do 2 wp_step. apply (safe_for_each (allowed_msg (s_localClient s))); try done.
  - intros msg s' HG' E Hm. apply safe_msg; [done| |done]. eapply slots_client; [done..|]. destruct HG as [HC _]. apply (ok_local _ _ _ HC).
  - apply fr_client_msg_run.
Qed.

Lemma safe_pong s c value : ok s -> is4 s c -> safe (send_pong c value) s.
Proof.
  intros HG H4. apply safe_keeps; [done|]. unfold send_pong. apply kc_bind; [by apply kc_wpi_now, ok_live|]. intros now s1 Hq1.
  assert (is4 s1 c) as H1 by (by eapply quiet_is4). apply kc_bind; [apply kc_on4; [by apply Hq1|by apply is4_has|done]|]. intros [] s2 Hq2.
  assert (is4 s2 c) as H2 by (by eapply quiet_is4). apply kc_bind; [apply kc_on4; [by apply Hq2|by apply is4_has|done]|]. intros [] s3 Hq3.
  apply kc_wire_flush4; [by apply Hq3|by eapply quiet_is4].
Qed.

(** A remote client is one of version 4. *)
Lemma slot_is4 s s' i c : ok s' -> slots_of s' = slots_of s -> s_clients s !! i = Some (Some c) -> c <> s_localClient s -> is4 s' c.
Proof.
  intros HG E Hi Hl. pose proof (slots_client s s' i c HG E Hi) as [cd Ecd]. destruct HG as [HC _].
  pose proof (ok_kind _ _ _ HC c cd Ecd) as Hk. destruct (cd_kind cd) as [|k|k] eqn:Ek; [|by exists cd, k|done].
  exfalso. apply Hl. rewrite Hk. cbn. by injection E as _ -> _ _.
Qed.

Lemma safe_binary_loop s i c fuel data s' : ok s' -> slots_of s' = slots_of s ->
  s_clients s !! i = Some (Some c) -> c <> s_localClient s -> allowed_values fuel data = true ->
  safe (Client4_binary_loop fuel c data) s'.
Proof.
  revert data s'. induction fuel as [|fuel IH]; intros [|b data] s' HG E Hi Hl Ha; try done. cbn [Client4_binary_loop allowed_values] in *.
  destruct (decode_binary_some (b :: data)) as [d Ed]. rewrite Ed in *. unfold safe. wp_step. eapply wp_deref; [done|].
  pose proof (slot_is4 s s' i c HG E Hi Hl) as H4. destruct d as [error|pubuid value rest].
  - apply safe_keeps; [done|]. apply kc_on4; [by apply ok_live|by apply is4_has|done].
  - apply andb_true_iff in Ha as [Hp Ha]. wp_step.
    assert (safe (if pubuid =? -1 then send_pong c value else ClientSetValue c pubuid value) s') as W.
    { destruct (pubuid =? -1); [by apply safe_pong|]. by apply safe_ClientSetValue; [|apply is4_has|]. }
    assert (framed slots_kept (if pubuid =? -1 then send_pong c value else ClientSetValue c pubuid value : M (SImpl L) unit)) as F.
    { destruct (pubuid =? -1); [apply fr_send_pong|apply fr_ClientSetValue]. }
    eapply wp_mono; [by apply safe_slots|]. intros [] s'' [HG'' E'']. apply IH; try done. congruence.
Qed.

(** ** Persistent values *)

Lemma kc_make_at s time d : live s -> keeps_core (make_at time d) s.
Proof.
  intros HL. unfold make_at. case_match; [|by apply kc_ret]. apply kc_bind; [by apply kc_now|]. intros now s' Hq. by apply kc_ret, Hq.
Qed.
Lemma wp_read {A B} (m : M (SImpl L) A) (k : A -> M (SImpl L) B) s : ok s -> keeps_core m s ->
  (forall a s', ok s' -> safe (k a) s') -> safe (bind m k) s.
Proof. intros HG Hm Hk. apply safe_bind; [by apply safe_keeps|done]. Qed.

Definition allowed_item (item : jvalue) : bool :=
  match load_item item with
  | inl _ => true
  | inr (name, typeStr, props, _) =>
      negb (is_meta_name name) && bool_decide (is_Some (qstr name)) && bool_decide (is_Some (qstr typeStr)) &&
      bool_decide (is_Some (dump_obj props))
  end.
Definition allowed_text (text : bytes) : bool :=
  match text with
  | [] => true
  | _ => match json_parse text with PError => true | POk (JArray l) _ => forallb allowed_item l | POk _ _ => true | _ => false end
  end.

Lemma safe_load_run s time i item : ok s -> allowed_item item = true -> safe (load_run time i item) s.
Proof.
  intros HG Ha. unfold load_run, allowed_item in *. destruct (load_item item) as [e|[[[name typeStr] props] d]]; [done|].
  repeat (apply andb_true_iff in Ha as [Ha ?]). repeat match goal with H : bool_decide _ = true |- _ => apply bool_decide_eq_true in H end.
  apply negb_true_iff in Ha. apply wp_read; [done|by apply kc_make_at, ok_live|]. intros value s1 HG1. unfold safe. wp_step.
  eapply wp_mono; [by apply (wp_CreateTopic None)|]. intros t s2 (HG2 & _ & td & Etd & _). apply wp_read; [done| |done].
  apply (kc_SetValue None no_ref); [done|by exists td].
Qed.
Lemma safe_load_items time l i s : ok s -> forallb allowed_item l = true -> safe (load_items time i l) s.
Proof.
  revert i s. induction l as [|item l IH]; intros i s HG Ha; [done|]. cbn in *. apply andb_true_iff in Ha as [Hi Hl].
  apply safe_bind; [by apply safe_load_run|]. intros e s1 HG1. apply safe_bind; [by apply IH|]. by intros es s2 HG2.
Qed.
Lemma safe_LoadPersistent s what text : ok s -> allowed_text text = true -> safe (LoadPersistent what text) s.
Proof.
  intros HG Ha. unfold LoadPersistent, allowed_text in *. destruct text as [|b text]; [done|].
  destruct (json_parse _) as [v rest| | |]; try done. destruct v; try done.
  unfold safe. do 2 wp_step. apply wp_read; [done|by apply kc_now, ok_live|]. intros time s2 HG2.
  apply safe_bind; [by apply safe_load_items|]. intros es s3 HG3. unfold safe. do 2 wp_step. wp_step.
  split; [apply HG3|apply (live_same s3), HG3; done].
Qed.

(** ** The server as a whole *)

Inductive server_op :=
| OpAddClient (name connInfo : string) (local : bool) (wire : WebSocketConnection)
| OpRemoveClient (clientId : nat)
| OpText (clientId : nat) (data : bytes)
| OpBinary (times : nat -> Z) (clientId : nat) (data : bytes)
| OpHandleLocal (msgs : list (ClientMessage jvalue))
| OpSetLocal (local : bool)
| OpSendControl (curTimeMs : Z)
| OpSendValues (clientId : nat) (curTimeMs : Z)
| OpConnectionsChanged (conns : list ConnectionInfo)
| OpPersistentChanged
| OpLoadPersistent (parse_what : bytes -> string) (text : bytes).

Definition server_run (op : server_op) : M (SImpl L) unit :=
  match op with
  | OpAddClient name connInfo local wire => AddClient name connInfo local wire ;; skip
  | OpRemoveClient clientId => RemoveClient clientId
  | OpText clientId data => ProcessIncomingText clientId data
  | OpBinary times clientId data => ProcessIncomingBinary times clientId data
  | OpHandleLocal msgs => HandleLocal msgs
  | OpSetLocal local => SetLocal local
  | OpSendControl curTimeMs => SendControl curTimeMs
  | OpSendValues clientId curTimeMs => SendValues clientId curTimeMs
  | OpConnectionsChanged conns => ConnectionsChanged conns
  | OpPersistentChanged => PersistentChanged ;; skip
  | OpLoadPersistent parse_what text => LoadPersistent parse_what text ;; skip
  end.

Definition permitted (op : server_op) s : bool :=
  match op with
  | OpAddClient name _ _ _ => bool_decide (is_Some (qstr name))
  | OpRemoveClient clientId =>
      match clientId, s_clients s !! clientId with S _, Some (Some _) => true | _, _ => false end
  | OpText clientId data =>
      match s_clients s !! clientId, WireDecodeText_client data with
      | Some (Some c), Some ds => allowed_all (allowed_decoded c) (client_call_run c) ds s
      | _, _ => false
      end
  | OpBinary _ clientId data =>
      match s_clients s !! clientId with Some (Some _) => allowed_values (S (length data)) data | _ => false end
  | OpHandleLocal msgs => allowed_all (allowed_msg (s_localClient s)) (client_msg_run (s_localClient s)) msgs s
  | OpSendValues clientId _ => bool_decide (clientId < length (s_clients s))%nat
  | OpConnectionsChanged _ => negb (bool_decide (s_metaClients s = None))
  | OpLoadPersistent _ text => allowed_text text
  | OpSetLocal _ | OpSendControl _ | OpPersistentChanged => true
  end.

Lemma wp_client_at s i c Q : s_clients s !! i = Some (Some c) -> Q c s -> wp (client_at i) Q s.
Proof. intros E HQ. unfold client_at. do 2 wp_step. rewrite E. by eapply wp_deref. Qed.

Lemma safe_op op s : ok s -> permitted op s = true -> safe (server_run op) s.
Proof.
  intros HG Hp. destruct op as [name ? ? ?|id|id data|times id data|msgs|local|t|id t|conns| |what text]; cbn [permitted server_run] in *.
  - apply bool_decide_eq_true in Hp. apply safe_bind; [by apply safe_AddClient|done].
  - destruct id as [|id]; [done|]. destruct (s_clients s !! S id) as [[c|]|] eqn:E; try done. by eapply safe_RemoveClient.
  - destruct (s_clients s !! id) as [[c|]|] eqn:E; try done. destruct (WireDecodeText_client data) as [ds|] eqn:Ed; [|done].
    unfold safe, ProcessIncomingText. wp_step. eapply wp_client_at; [done|]. wp_step.
    pose proof (slot_client s id c HG E) as [cd Ecd]%has_client_heap. eapply wp_client; [done|].
    destruct (cd_kind cd); [done|by eapply safe_text|done].
  - destruct (s_clients s !! id) as [[c|]|] eqn:E; try done.
    unfold safe, ProcessIncomingBinary. wp_step. eapply wp_client_at; [done|]. wp_step.
    pose proof (slot_client s id c HG E) as [cd Ecd]%has_client_heap. eapply wp_client; [done|].
    pose proof HG as [HC _]. pose proof (ok_kind _ _ _ HC c _ (client_core _ _ _ Ecd)) as Hk.
    cbn in Hk. destruct (cd_kind cd); cbn in Hk; [done| |done]. eapply safe_binary_loop; try done. apply Hk.
  - by apply safe_HandleLocal.
  - by apply safe_SetLocal.
  - by apply safe_SendControl.
  - apply bool_decide_eq_true in Hp. by apply safe_SendValues.
  - apply negb_true_iff, bool_decide_eq_false in Hp. by apply safe_ConnectionsChanged.
  - unfold safe, PersistentChanged. do 3 wp_step. wp_step. do 2 wp_step. split; [apply HG|apply (live_same s), HG; done].
  - apply safe_bind; [by apply safe_LoadPersistent|done].
Qed.

End Ops.
