(* ===== verification/ServerNt3Proofs.v ===== *)
(** * ServerNt3Proofs: the handshake of a client of version 3 *)

From S2P Require Import Prelude NtTypes Monads LocalTypes Json JsonRoundTrip Message3.
From S2P Require Import WireEncoder4.
From S2P Require Import WireEncoder3 WireDecoder3 ServerTypes WireConnection4 NetworkQueue.
From S2P Require Import UidVector.
From S2P Require Import ServerImpl ServerNt3 ServerFrames.
Local Open Scope Z_scope.

Section Nt3Frames.
Context {L : Type} {LI : LocalInterface jvalue L} {EN : Env} {WC : WpiClock} {JF : JsonFloat} {MA : Machine}.
Context {I : SImpl L -> SImpl L -> Prop} {FR : Frame I}.

Lemma fr_ptr_items {A} (m : gmap addr A) : framed I (ptr_items m : M (SImpl L) _).
Proof. unfold ptr_items. frame. Qed.
Lemma fr_initial_assign c b t : framed I (initial_assign c b t : M (SImpl L) _).
Proof. unfold initial_assign. frame. Qed.
Lemma fr_publish3 c t pubuid : framed I (publish3 c t pubuid : M (SImpl L) _).
Proof. unfold publish3. frame. Qed.
Lemma fr_next_pubuid c : framed I (next_pubuid c : M (SImpl L) _).
Proof. unfold next_pubuid. frame. Qed.
Lemma fr_known_topic id : framed I (known_topic id : M (SImpl L) _).
Proof. unfold known_topic. frame. Qed.
Lemma fr_SetFlags from t flags : framed I (SetFlags from t flags : M (SImpl L) _).
Proof. unfold SetFlags. frame. Qed.
Lemma fr_unpublish3 c t pubuid : framed I (unpublish3 c t pubuid : M (SImpl L) _).
Proof. unfold unpublish3. frame. Qed.
Hint Resolve fr_ptr_items fr_initial_assign fr_publish3 fr_next_pubuid fr_known_topic fr_SetFlags fr_unpublish3 : frames.
Lemma fr_EntryAssign c name id value flags : framed I (Client3_EntryAssign c name id value flags : M (SImpl L) _).
Proof. unfold Client3_EntryAssign. frame. Qed.
Lemma fr_EntryUpdate c id seq_num value : framed I (Client3_EntryUpdate c id seq_num value : M (SImpl L) _).
Proof. unfold Client3_EntryUpdate. frame. Qed.
Lemma fr_FlagsUpdate c id flags : framed I (Client3_FlagsUpdate c id flags : M (SImpl L) _).
Proof. unfold Client3_FlagsUpdate. frame. Qed.
Lemma fr_EntryDelete c id : framed I (Client3_EntryDelete c id : M (SImpl L) _).
Proof. unfold Client3_EntryDelete. frame. Qed.
Lemma fr_ClearEntries c : framed I (Client3_ClearEntries c : M (SImpl L) _).
Proof. unfold Client3_ClearEntries. frame. Qed.
Hint Resolve fr_EntryAssign fr_EntryUpdate fr_FlagsUpdate fr_EntryDelete fr_ClearEntries : frames.

End Nt3Frames.
#[export] Hint Resolve fr_ptr_items fr_initial_assign fr_publish3 fr_next_pubuid fr_known_topic fr_SetFlags fr_unpublish3
  fr_EntryAssign fr_EntryUpdate fr_FlagsUpdate fr_EntryDelete fr_ClearEntries : frames.

Section Nt3Proofs.
Context {L : Type} {LI : LocalInterface jvalue L} {EN : Env} {WC : WpiClock} {JF : JsonFloat} {MA : Machine}.
Implicit Types s : SImpl L.

Definition state3 s (c : addr) : option State3 := cd ← s_clientHeap s !! c; state3_of cd.

(** What is expected of a client in a state, and the state it is then in *)
Definition expected3 (st : State3) (call : Call3) : bool :=
  match call with
  | KeepAlive | ClearEntries | EntryUpdate _ _ _ | FlagsUpdate _ _ | EntryDelete _ => bool_decide (st = kStateRunning)
  | ClientHello _ proto_rev => bool_decide (st = kStateInitial) && (proto_rev =? 0x0300)
  | ClientHelloDone => bool_decide (st = kStateServerHelloComplete)
  | EntryAssign _ _ _ _ _ | ExecuteRpc _ _ _ | RpcResponse _ _ _ => true
  | ServerHelloDone | ProtoUnsup _ | ServerHello _ _ => false
  end.
Definition next_state3 (st : State3) (call : Call3) : State3 :=
  if expected3 st call then
    match call with ClientHello _ _ => kStateServerHelloComplete | ClientHelloDone => kStateRunning | _ => st end
  else st.

Lemma slots_state3 s s' c : slots_of s' = slots_of s -> state3 s' c = state3 s c.
Proof.
  intros [= _ _ _ E]. unfold state3. apply (f_equal (fun m => m !! c)) in E. rewrite !lookup_fmap in E.
  destruct (s_clientHeap s !! c), (s_clientHeap s' !! c); cbn in *; congruence.
Qed.

Lemma wlp_same {A B} (m : M (SImpl L) A) (k : A -> M (SImpl L) B) Q s : framed slots_kept m ->
  (forall a s', slots_of s' = slots_of s -> wlp (k a) Q s') -> wlp (bind m k) Q s.
Proof. intros Hm Hk. apply wlp_bind. eapply wlp_mono; [apply Hm|]. intros a s' E. by apply Hk. Qed.

Ltac same_steps := repeat (apply wlp_same; [solve [frame]|intros ? ? ?]; cbv zeta).

Ltac state_kept :=
  repeat match goal with
  | H : slots_of ?x = slots_of _ |- context [state3 ?x _] => rewrite (slots_state3 _ _ _ H)
  end.

(** Reading the state of a client *)
Lemma in_state_run s c st st' : state3 s c = Some st -> in_state c st' s = Some (bool_decide (st = st'), s).
Proof.
  unfold state3, in_state, get3, client, bind, get, deref, ret, state3_of.
  destruct (s_clientHeap s !! c) as [cd|]; [|done]. cbn. destruct (cd_kind cd); try done. cbn. by intros [= ->].
Qed.
Lemma set_state_run s c st st' : state3 s c = Some st -> wlp (set_state c st') (fun _ s' => state3 s' c = Some st') s.
Proof.
  intros Hst. unfold set_state, on3, upd_client, client. apply wlp_bind, wlp_bind, wlp_get, wlp_deref. intros cd E. apply wlp_modify.
  unfold state3 in *. cbn. rewrite lookup_insert_eq. cbn. rewrite E in Hst. cbn in Hst. unfold state3_of in *. by destruct (cd_kind cd).
Qed.

Lemma hello_run s c : state3 s c = Some kStateInitial ->
  wlp (Client3_ClientHello c 0x0300) (fun err s' => err = None /\ state3 s' c = Some kStateServerHelloComplete) s.
Proof.
  intros Hst. unfold Client3_ClientHello. apply wlp_bind. unfold wlp at 1. rewrite (in_state_run _ _ _ _ Hst).
  rewrite bool_decide_eq_true_2 by done. cbn [negb]. change (0x0300 =? 0x0300) with true. cbn [negb].
  same_steps. apply wlp_bind. eapply wlp_mono; [eapply set_state_run; by state_kept|]. cbv beta. intros [] s2 Hs2.
  same_steps. apply wlp_ret. split; [done|]. by state_kept.
Qed.
(** The server after the answer to a client of another revision: [ProtoUnsup] is written to the
    connection of the client and flushed, which reads the clock; nothing else changes. *)
Definition proto_unsup s (c : addr) (cd : ClientData) (k : Client3) : SImpl L :=
  s <| s_tick ::= S |>
    <| s_clientHeap ::= <[c := cd <| cd_kind := K3 (k <| k3_wire ::= fun w =>
         Flush3 (wpi_Now (s_tick s)) (write3 (WireEncodeProtoUnsup 0x0300) w) |>) |>]> |>.
Definition refused_hello s (c : addr) s' : Prop := exists cd k,
  s_clientHeap s !! c = Some cd /\ cd_kind cd = K3 k /\ s' = proto_unsup s c cd k.

Lemma on3_run s c cd k f : s_clientHeap s !! c = Some cd -> cd_kind cd = K3 k ->
  on3 c f s = Some (tt, s <| s_clientHeap ::= <[c := cd <| cd_kind := K3 (f k) |>]> |>).
Proof. intros E Ek. unfold on3, upd_client, client, bind, get, deref, modify. rewrite E. cbn. by rewrite Ek. Qed.
Lemma bad_hello_run s c rev : state3 s c = Some kStateInitial -> rev <> 0x0300 ->
  wlp (Client3_ClientHello c rev) (fun err s' => err <> None /\ state3 s' c = Some kStateInitial /\ refused_hello s c s') s.
Proof.
  intros Hst Hrev. unfold Client3_ClientHello. apply wlp_bind. unfold wlp at 1. rewrite (in_state_run _ _ _ _ Hst).
  rewrite bool_decide_eq_true_2 by done. replace (rev =? 0x0300) with false by lia. cbn [negb].
  pose proof Hst as Hst'. unfold state3, state3_of in Hst'. destruct (s_clientHeap s !! c) as [cd|] eqn:E; [|done].
  cbn in Hst'. destruct (cd_kind cd) as [| |k] eqn:Ek; [done..|]. injection Hst' as Es.
  set (wire := write3 (WireEncodeProtoUnsup 0x0300) (k3_wire k)).
  assert (exists b bs, x_buffers wire = b :: bs) as (b & bs & Eb).
  { unfold wire, write3. cbn. destruct (x_buffers (k3_wire k)); cbn; eauto. }
  apply wlp_bind. unfold write_wire3, wlp at 1. rewrite (on3_run s c cd k) by done. fold wire.
  set (cd1 := cd <| cd_kind := K3 (k <| k3_wire ::= _ |>) |>). set (s1 := s <| s_clientHeap ::= _ |>).
  assert (s_clientHeap s1 !! c = Some cd1) as E1 by apply lookup_insert_eq.
  apply wlp_bind. unfold Client3_Flush, get3, client, wpi_now, tick.
  repeat wlp_step; assert (a = cd1) as -> by congruence;
    match goal with H : match cd_kind cd1 with _ => _ end = Some _ |- _ => cbn in H; injection H as <- end;
    [by match goal with H : _ = [] |- _ => change (x_buffers wire = []) in H; rewrite Eb in H end|].
  unfold wlp at 1. erewrite on3_run; [|exact E1|reflexivity]. apply wlp_ret. split; [done|]. split.
  - unfold state3. cbn. rewrite lookup_insert_eq. cbn. by rewrite Es.
  - exists cd, k. split; [done|]. split; [done|]. unfold proto_unsup, s1, fupd. cbn. by rewrite insert_insert_eq.
Qed.
Lemma accepted_run m s c st : framed slots_kept m -> state3 s c = Some st ->
  wlp (accepted m) (fun err s' => err = None /\ state3 s' c = Some st) s.
Proof. intros Hm Hst. unfold accepted. same_steps. apply wlp_ret. split; [done|]. by state_kept. Qed.

(** What is proved of a message: the error, the state of the client, and what a message that is
    refused does to the server *)
Definition refused3 s (c : addr) (st : State3) (call : Call3) s' : Prop :=
  match call, st with
  | ClientHello _ _, kStateInitial => refused_hello s c s'
  | _, _ => s' = s
  end.
Definition step3 s (c : addr) (st : State3) (call : Call3) (err : option string) s' : Prop :=
  (err = None <-> expected3 st call = true) /\ state3 s' c = Some (next_state3 st call) /\
  (expected3 st call = false -> refused3 s c st call s').

Lemma step3_accept s c st call m : framed slots_kept m -> state3 s c = Some st -> expected3 st call = true -> next_state3 st call = st ->
  wlp (accepted m) (step3 s c st call) s.
Proof.
  intros Hm Hst He Hn. eapply wlp_mono; [by apply accepted_run|]. intros err s' [-> Hs]. unfold step3. by rewrite He, Hn.
Qed.
Lemma step3_reject s c st call msg : state3 s c = Some st -> expected3 st call = false -> refused3 s c st call s ->
  wlp (reject msg) (step3 s c st call) s.
Proof. intros Hst He Hr. apply wlp_ret. unfold step3, next_state3. by rewrite He. Qed.
Lemma step3_running s c st call msg m : framed slots_kept m -> state3 s c = Some st -> expected3 st call = bool_decide (st = kStateRunning) ->
  next_state3 st call = st -> refused3 s c st call s -> wlp (running c msg m) (step3 s c st call) s.
Proof.
  intros Hm Hst He Hn Hr. unfold running. apply wlp_bind. unfold wlp at 1. rewrite (in_state_run _ _ _ _ Hst).
  case_bool_decide; [by apply step3_accept|by apply step3_reject].
Qed.

(** C19. The handshake of a client of version 3.  A message is accepted exactly when it is
    expected in the state of the client: [ClientHello] of protocol revision 3.0 in the initial
    state, [ClientHelloDone] after it, and keep alive, updates, flags, deletions and clearing
    only once the handshake is complete.  The state goes from initial to hello complete to
    running by these two messages and by nothing else.  A message that is refused leaves the
    whole server as it was, except [ClientHello] of another revision in the initial state: it
    is answered with [ProtoUnsup], which is written to the connection of that client and
    flushed, and nothing else of the server changes.  An assignment is accepted in every
    state, before the handshake too. *)
Theorem nt3_handshake s c st call err s' :
  state3 s c = Some st -> call3_run c call s = Some (err, s') -> step3 s c st call err s'.
Proof.
  intros Hst. apply wlp_run. clear err s'. destruct call; cbn [call3_run].
  all: try (apply step3_running; [|done|done|by destruct st|done]; by eauto with frames).
  all: try (by apply step3_reject).
  all: try (apply (step3_accept _ _ _ _ _); [by eauto with frames|done|done|by destruct st]).
  - apply wlp_bind. unfold wlp at 1. rewrite (in_state_run _ _ _ _ Hst).
    destruct st; cbn; try (by apply step3_reject). apply wlp_bind. eapply wlp_mono; [by eapply set_state_run|].
    intros [] s' Hs'. by apply wlp_ret.
  - destruct (decide (st = kStateInitial)) as [->|Hne].
    + destruct (decide (proto_rev = 0x0300)) as [->|Hrev].
      * eapply wlp_mono; [by apply hello_run|]. by intros err s' [-> Hs].
      * eapply wlp_mono; [by apply bad_hello_run|]. intros err s' (He & Hs & Hr). unfold step3, next_state3. cbn.
        replace (proto_rev =? 0x0300) with false by lia. cbn. done.
    + unfold Client3_ClientHello. apply wlp_bind. unfold wlp at 1. rewrite (in_state_run _ _ _ _ Hst).
      rewrite bool_decide_eq_false_2 by done. apply step3_reject; [done| |by destruct st]. cbn. by rewrite bool_decide_eq_false_2.
  - apply wlp_ret. by split.
  - apply wlp_ret. by split.
Qed.
End Nt3Proofs.
