(* ===== verification/ServerDelivery.v ===== *)
(** * ServerDelivery: values reach the subscribed clients

    What [SetValue] does to the topic, to the queue of every client and to the local storage. *)

From S2P Require Import Prelude NtTypes Monads LocalTypes Json JsonParser JsonRoundTrip Events.
From S2P Require Import WireEncoder4 WireDecoder4 ServerTypes WireConnection4 NetworkQueue.
From S2P Require Import UidVector ServerImpl ServerNt3 ServerPersistent ServerCore ServerTopics.
From S2P Require Import ServerSafety ServerClients ServerFrames ServerProps.

(** * The queues of clients of version 4

    [m_outgoingValueMap] names, for every topic with a queued value, the place of the last one,
    so that [SendValue] replaces the newest value of the topic or adds one at the end. *)

Local Open Scope Z_scope.

(** ** A queue *)

(** The values of a topic, and the messages that are not values *)
Definition value_of (id : nat) (msg : ServerMessage jvalue) : option Value :=
  match msg with ServerValueMsg t v => if t =? Z.of_nat id then Some v else None | _ => None end.
Definition pending (id : nat) (l : list (ServerMessage jvalue)) : list Value := omap (value_of id) l.
Definition control (l : list (ServerMessage jvalue)) : list (ServerMessage jvalue) := List.filter (fun m => negb (is_value_msg m)) l.
#[local] Arguments pending : simpl never.
#[local] Arguments control : simpl never.

Definition queue_ok (k : Client4) : Prop := forall id,
  match k4_outgoingValueMap k !! id with
  | Some i => exists l1 v l2, k4_outgoing k = l1 ++ ServerValueMsg (Z.of_nat id) v :: l2 /\ length l1 = i /\ pending id l2 = []
  | None => pending id (k4_outgoing k) = []
  end.

Lemma pending_app id l1 l2 : pending id (l1 ++ l2) = pending id l1 ++ pending id l2.
Proof. apply omap_app. Qed.
Lemma control_app l1 l2 : control (l1 ++ l2) = control l1 ++ control l2.
Proof. unfold control. apply List.filter_app. Qed.
Lemma value_of_same id v : value_of id (ServerValueMsg (Z.of_nat id) v) = Some v.
Proof. cbn. by rewrite Z.eqb_refl. Qed.
Lemma value_of_other id id' v : id' <> id -> value_of id' (ServerValueMsg (Z.of_nat id) v) = None.
Proof. intros H. cbn. by replace (Z.of_nat id =? Z.of_nat id') with false by lia. Qed.
Lemma pending_one id msg : pending id [msg] = option_list (value_of id msg).
Proof. unfold pending. cbn. by destruct (value_of id msg). Qed.
Lemma pending_cons id msg l : pending id (msg :: l) = option_list (value_of id msg) ++ pending id l.
Proof. by rewrite <- pending_one, <- pending_app. Qed.

(** The map names the last value of a topic. *)
Lemma replaceable_some k id i : queue_ok k -> replaceable4 k id = Some i ->
  exists l1 v l2, k4_outgoing k = l1 ++ ServerValueMsg (Z.of_nat id) v :: l2 /\ length l1 = i /\ pending id l2 = [].
Proof.
  intros Hk. unfold replaceable4. specialize (Hk id). destruct (_ !! id) as [j|]; [|done]. cbn.
  destruct Hk as (l1 & v & l2 & El & <- & Hp). rewrite El, list_lookup_middle by done. rewrite Z.eqb_refl. intros [= <-]. eauto 10.
Qed.
Lemma replaceable_none k id : queue_ok k -> replaceable4 k id = None ->
  k4_outgoingValueMap k !! id = None /\ pending id (k4_outgoing k) = [].
Proof.
  intros Hk. unfold replaceable4. specialize (Hk id). destruct (_ !! id) as [j|]; [|done]. cbn.
  destruct Hk as (l1 & v & l2 & El & <- & Hp). rewrite El, list_lookup_middle by done. by rewrite Z.eqb_refl.
Qed.

(** What a queue holds after a value has been sent to it *)
Definition newest (mode : SendMode) (old : list Value) (value : Value) : list Value :=
  match mode with
  | kSendAll => old ++ [value]
  | kSendNormal => removelast old ++ [value]
  | _ => old
  end.
Lemma queue_value_spec mode id value k : queue_ok k -> mode <> kSendImmNoFlush ->
  let k' := queue_value mode id value k in
  pending id (k4_outgoing k') = newest mode (pending id (k4_outgoing k)) value /\
  (forall id', id' <> id -> pending id' (k4_outgoing k') = pending id' (k4_outgoing k)) /\
  control (k4_outgoing k') = control (k4_outgoing k).
Proof.
  intros Hk Hm. assert (forall q, pending id (q ++ [ServerValueMsg (Z.of_nat id) value]) = pending id q ++ [value] /\
    (forall id', id' <> id -> pending id' (q ++ [ServerValueMsg (Z.of_nat id) value]) = pending id' q) /\
    control (q ++ [ServerValueMsg (Z.of_nat id) value]) = control q) as Hpush.
  { intros q. rewrite pending_app, pending_one, value_of_same, control_app. split; [done|]. split; [|apply app_nil_r].
    intros id' Hne. by rewrite pending_app, pending_one, value_of_other, app_nil_r. }
  destruct mode; cbn [queue_value newest]; [done|apply (Hpush (k4_outgoing k))| |done].
  destruct (replaceable4 k id) as [i|] eqn:Er.
  - destruct (replaceable_some k id i Hk Er) as (l1 & v & l2 & El & <- & Hp). cbn. rewrite El.
    rewrite (insert_app_r_alt l1) by lia. rewrite Nat.sub_diag. cbn [insert list_insert].
    assert (forall v, pending id (l1 ++ ServerValueMsg (Z.of_nat id) v :: l2) = pending id l1 ++ [v]) as E.
    { intros v'. by rewrite pending_app, pending_cons, value_of_same, Hp, app_nil_r. }
    rewrite !E, removelast_last. split; [done|]. split.
    + intros id' Hne. by rewrite !pending_app, !pending_cons, !value_of_other.
    + by rewrite !control_app.
  - destruct (replaceable_none k id Hk Er) as [Em Hp]. rewrite Em, Hp. cbn [bool_decide]. destruct (Hpush (k4_outgoing k)) as (E1 & E2 & E3).
    rewrite Hp in E1. split; [exact E1|]. split; [exact E2|exact E3].
Qed.

Lemma queue_push k msg : queue_ok k -> is_value_msg msg = false -> queue_ok (k <| k4_outgoing ::= fun l => l ++ [msg] |>).
Proof.
  intros Hk Hm id. specialize (Hk id). cbn. assert (value_of id msg = None) as Hv by (by destruct msg). destruct (_ !! id) as [i|].
  - destruct Hk as (l1 & v & l2 & El & Hl & Hp). exists l1, v, (l2 ++ [msg]). rewrite El, <- app_assoc. split; [done|]. split; [done|].
    by rewrite pending_app, pending_one, Hp, Hv.
  - by rewrite pending_app, pending_one, Hk, Hv.
Qed.
Lemma queue_append k id value : queue_ok k -> queue_ok (push_value id value (note_value id k)).
Proof.
  intros Hk id'. cbn. destruct (decide (id' = id)) as [->|Hne].
  - rewrite lookup_insert_eq. by exists (k4_outgoing k), value, [].
  - rewrite lookup_insert_ne by done. specialize (Hk id'). destruct (_ !! id') as [i|].
    + destruct Hk as (l1 & v & l2 & El & Hl & Hp). exists l1, v, (l2 ++ [ServerValueMsg (Z.of_nat id) value]). rewrite El, <- app_assoc.
      split; [done|]. split; [done|]. by rewrite pending_app, pending_one, Hp, value_of_other.
    + by rewrite pending_app, pending_one, Hk, value_of_other.
Qed.
Lemma queue_replace k id value i : queue_ok k -> replaceable4 k id = Some i ->
  queue_ok (k <| k4_outgoing ::= <[i := ServerValueMsg (Z.of_nat id) value]> |>).
Proof.
  intros Hk Er. destruct (replaceable_some k id i Hk Er) as (l1 & v & l2 & El & Hl & Hp). intros id'. pose proof (Hk id') as Hk'. cbn.
  destruct (_ !! id') as [j|] eqn:Ej.
  - destruct Hk' as (m1 & w & m2 & Em & Hm & Hq). destruct (decide (id' = id)) as [->|Hne].
    + assert (j = i) as ->. { unfold replaceable4 in Er. rewrite Ej in Er. cbn in Er. by repeat case_match; simplify_eq. }
      exists m1, value, m2. rewrite Em. rewrite (insert_app_r_alt m1), Hm, Nat.sub_diag by lia. done.
    + assert (i <> j) as Hij.
      { intros ->. rewrite El in Em. apply app_inj_1 in Em as [-> Em]; [|congruence]. injection Em as E _ _. lia. }
      destruct (decide (i < j)%nat).
      * exists (<[i := ServerValueMsg (Z.of_nat id) value]> m1), w, m2. rewrite Em, insert_app_l by lia. by rewrite length_insert.
      * destruct (i - length m1)%nat as [|j'] eqn:En; [lia|].
        exists m1, w, (<[j' := ServerValueMsg (Z.of_nat id) value]> m2). rewrite Em.
        rewrite insert_app_r_alt, En by lia. split; [done|]. split; [done|].
        rewrite El in Em. apply (f_equal (fun l => l !! i)) in Em. rewrite list_lookup_middle in Em by done.
        rewrite lookup_app_r, En in Em by lia. cbn in Em. symmetry in Em.
        apply list_elem_of_split_length in Em as (n1 & n2 & -> & Hn). rewrite Hn. rewrite insert_app_r_alt, Nat.sub_diag by lia. cbn.
        rewrite pending_app, pending_cons, value_of_other in * by done. done.
  - rewrite El in Hk' |- *. destruct (decide (id' = id)) as [->|Hne].
    + rewrite pending_app, pending_cons, value_of_same in Hk'. by destruct (pending id l1).
    + rewrite insert_app_r_alt, Hl, Nat.sub_diag by lia. cbn. by rewrite pending_app, pending_cons, value_of_other in *.
Qed.

(** ** All queues of a server *)

Lemma queue_same k k' : k4_outgoing k' = k4_outgoing k -> k4_outgoingValueMap k' = k4_outgoingValueMap k -> queue_ok k -> queue_ok k'.
Proof. intros E1 E2 Hk id. rewrite E1, E2. apply Hk. Qed.
Lemma queue_value_ok mode id value k : queue_ok k -> queue_ok (queue_value mode id value k).
Proof.
  intros Hk. destruct mode; cbn [queue_value]; [done|by apply queue_append| |].
  - destruct (replaceable4 k id) as [i|] eqn:Er; [by apply queue_replace|].
    destruct (replaceable_none k id Hk Er) as [-> _]. by apply queue_append.
  - eapply queue_same; [..|exact Hk]; unfold SendBinary, reset_text; by case_match.
Qed.
Lemma queue_step k k' : kind_step (K4 k) (K4 k') -> queue_ok k -> queue_ok k'.
Proof.
  intros Hs Hk. inversion Hs; subst; [done|by eapply queue_same|by apply queue_push|by apply queue_value_ok|done].
Qed.

Section Queues.
Context {L : Type}.
Implicit Types s : SImpl L.

Definition queues_ok s : Prop := forall c cd k, s_clientHeap s !! c = Some cd -> cd_kind cd = K4 k -> queue_ok k.
Definition queues_kept s s' : Prop := queues_ok s -> queues_ok s'.
#[global] Instance queues_frame : Frame queues_kept.
Proof.
  split; unfold queues_kept, queues_ok.
  - eauto.
  - intros s s' _ _ _ ->. done.
  - intros s c cd cd' E Hk HQ c0 cd0 k E0 Ek. cbn in E0. apply lookup_insert_Some in E0 as [[<- <-]|[Hne E0]]; [|eauto].
    rewrite Ek in Hk. destruct (cd_kind cd) as [|k0|k0] eqn:Ek0; [by inversion Hk| |by inversion Hk].
    by eapply queue_step; [|eauto].
Qed.
End Queues.

Local Open Scope Z_scope.

(** ** The union of the subscriptions of a client *)

Definition union_mode (opts : list PubSubOptions) : SendMode :=
  let opts := List.filter (fun o => negb (topicsOnly o)) opts in
  if existsb sendAll opts then kSendAll else match opts with [] => kSendDisabled | _ => kSendNormal end.

Lemma merge_union opts m : m <> kSendImmNoFlush ->
  foldl (fun m o => merge_mode o m) m opts =
  match m, union_mode opts with
  | kSendAll, _ => kSendAll
  | kSendNormal, kSendDisabled => kSendNormal
  | _, u => u
  end.
Proof.
  revert m. induction opts as [|o opts IH]; intros m Hm; cbn [foldl]; [by destruct m|].
  rewrite IH by (unfold merge_mode; by repeat case_match). unfold union_mode, merge_mode. cbn [List.filter].
  destruct (topicsOnly o); cbn [negb]; [by destruct m|]. cbn [existsb]. destruct (sendAll o); cbn [orb]; [by destruct m|].
  destruct (existsb sendAll _); [by destruct m|]. generalize (List.filter (fun o => negb (topicsOnly o)) opts) as l; intros l; by destruct m, l.
Qed.

Section Delivery.
Context {L : Type} {LI : LocalInterface jvalue L} {LS : LocalInterfaceSafe jvalue L}.
Context {EN : Env} {WC : WpiClock} {JF : JsonFloat} {MA : Machine} {ML : MachineLaws}.
Implicit Types s : SImpl L.
Hint Resolve no_no_ref : core.

(** The options of the subscriptions of client [c] among [subs] *)
Definition options_of s (c : addr) (subs : list addr) : list PubSubOptions :=
  omap (fun b => sb ← s_subHeap s !! b; if bool_decide (sb_client sb = c) then Some (o_options (sb_options sb)) else None) subs.

Lemma wlp_send_modes s subs toSend : ok s ->
  wlp (send_modes subs toSend) (fun r s' => s' = s /\ length r = length toSend /\
    forall i c m, s_clients s !! i = Some (Some c) -> toSend !! i = Some m ->
      r !! i = Some (foldl (fun m o => merge_mode o m) m (options_of s c subs))) s.
Proof.
  intros [HC _]. revert toSend. induction subs as [|b subs IH]; intros toSend; cbn [send_modes]; [by apply wlp_ret|].
  apply wlp_bind. unfold sub. apply wlp_bind, wlp_get, wlp_deref. intros sb Esb. apply wlp_bind. unfold client.
  apply wlp_bind, wlp_get, wlp_deref. intros cd Ecd. apply wlp_bind, wlp_deref. intros m Em.
  eapply wlp_mono; [apply IH|]. intros r s' (-> & Hl & Hr). split; [done|]. rewrite length_insert in Hl. split; [done|].
  intros i c m' Hi Hm'. unfold options_of. cbn [omap list_omap]. rewrite Esb. cbn [mbind option_bind].
  pose proof (ok_clients _ _ _ HC _ _ (client_core _ _ _ Ecd)) as Hslot. cbn in Hslot. case_bool_decide as Hc.
  - subst c. destruct (ok_slots _ _ _ HC i (sb_client sb) Hi) as (cd' & Ecd' & Hid).
    rewrite (client_core _ _ _ Ecd) in Ecd'. injection Ecd' as <-. cbn in Hid. subst i.
    cbn [foldl]. apply Hr; [done|]. rewrite Hm' in Em. injection Em as <-. apply list_lookup_insert_eq. by eapply lookup_lt_Some.
  - apply Hr; [done|]. rewrite list_lookup_insert_ne; [done|]. intros <-. congruence.
Qed.

(** ** Sending to one client *)

(** Nothing but client [c] changes. *)
Definition only (c : addr) s s' : Prop :=
  s_topicHeap s' = s_topicHeap s /\ s_local s' = s_local s /\ s_store s' = s_store s /\
  forall c', c' <> c -> s_clientHeap s' !! c' = s_clientHeap s !! c'.
Definition onlyM {A} (c : addr) (m : M (SImpl L) A) : Prop := forall s, wlp m (fun _ s' => only c s s') s.
Lemma only_ret {A} c (a : A) : onlyM c (ret a).
Proof. by intros s. Qed.
Lemma only_bind {A B} c (m : M (SImpl L) A) (k : A -> M (SImpl L) B) : onlyM c m -> (forall a, onlyM c (k a)) -> onlyM c (bind m k).
Proof.
  intros Hm Hk s. apply wlp_bind. eapply wlp_mono; [apply Hm|]. intros a s1 (E1 & E2 & E3 & E4).
  eapply wlp_mono; [apply Hk|]. intros b s2 (F1 & F2 & F3 & F4). split_and!; [congruence..|].
  intros c' Hne. by rewrite F4, E4.
Qed.
Lemma only_on4 c f : onlyM c (on4 c f).
Proof.
  intros s. unfold on4, upd_client, client. apply wlp_bind, wlp_bind, wlp_get, wlp_deref. intros cd E. apply wlp_modify.
  split_and!; try done. intros c' Hne. cbn. by apply lookup_insert_ne.
Qed.
Lemma only_wpi_now c : onlyM c wpi_now.
Proof. by intros s. Qed.
Lemma only_get4 c : onlyM c (get4 c).
Proof. intros s. unfold get4, client. apply wlp_bind, wlp_bind, wlp_get, wlp_deref. intros cd E. by apply wlp_deref. Qed.
Lemma only_flush c : onlyM c (Client4_Flush c).
Proof.
  unfold Client4_Flush. apply only_bind; [apply only_on4|]. intros _. apply only_bind; [apply only_on4|]. intros _.
  unfold wire_flush4. apply only_bind; [apply only_get4|]. intros k. case_match; [apply only_on4|].
  apply only_bind; [apply only_wpi_now|]. intros now. apply only_on4.
Qed.

Ltac read_both :=
  apply wlp_bind; unfold topic; apply wlp_bind, wlp_get, wlp_deref; intros ? _;
  apply wlp_bind; unfold client; apply wlp_bind, wlp_get, wlp_deref; intros ? ?; simplify_eq.
Lemma only_Client4_SendValue s c cd k t value mode : s_clientHeap s !! c = Some cd -> cd_kind cd = K4 k ->
  wlp (Client4_SendValue c t value mode) (fun _ s' => only c s s') s.
Proof.
  intros E Ek. destruct (s_topicHeap s !! t) as [td|] eqn:Et.
  2:{ unfold Client4_SendValue. apply wlp_bind. unfold topic. apply wlp_bind, wlp_get, wlp_deref. congruence. }
  destruct (cd_local cd) eqn:El; [|destruct (decide (mode = kSendDisabled)) as [->|Hm]].
  - unfold Client4_SendValue; read_both. rewrite El. cbn [when].
    apply (only_bind c (WriteBinary c _ _ _)); [apply only_on4|]. intros _. apply only_flush.
  - unfold Client4_SendValue; read_both. rewrite El. by apply wlp_ret.
  - unfold wlp. rewrite (Client4_SendValue_run s c cd k t td) by done. split_and!; try done.
    intros c' Hne. cbn. by apply lookup_insert_ne.
Qed.

(** A client on the same machine gets a value at once: [n] is the time of the flush. *)
Definition sent_now (n : Z) (id : nat) (value : Value) (k : Client4) : Client4 :=
  reset_binary (reset_text (SendBinary (WireEncodeBinary (Z.of_nat id) (value_time value) value).2 k)) <| k4_wire ::= WireConnection4.Flush n |>.
Lemma wlp_on4 s c cd k f (Q : SImpl L -> Prop) : s_clientHeap s !! c = Some cd -> cd_kind cd = K4 k ->
  Q (s <| s_clientHeap ::= <[c := cd <| cd_kind := K4 (f k) |>]> |>) -> wlp (on4 c f) (fun _ => Q) s.
Proof. intros E Ek HQ. unfold wlp. by rewrite (on4_run s c cd k). Qed.
Lemma flush_now s c cd k : s_clientHeap s !! c = Some cd -> cd_kind cd = K4 k ->
  wlp (Client4_Flush c) (fun _ s' => exists n, s_clientHeap s' !! c =
    Some (cd <| cd_kind := K4 (reset_binary (reset_text k) <| k4_wire ::= WireConnection4.Flush n |>) |>)) s.
Proof.
  intros E Ek. unfold Client4_Flush. apply wlp_bind. eapply wlp_on4; [done..|]. apply wlp_bind.
  eapply wlp_on4; [cbn; apply lookup_insert_eq|done|]. unfold wire_flush4. set (s2 := _ <| s_clientHeap ::= _ |>).
  set (cd2 := cd <| cd_kind := K4 (reset_binary (reset_text k)) |>).
  assert (s_clientHeap s2 !! c = Some cd2) as E2 by (cbn; apply lookup_insert_eq).
  apply wlp_bind. unfold get4, client. apply wlp_bind, wlp_bind, wlp_get, wlp_deref. intros cd' E'. rewrite E2 in E'. injection E' as <-.
  apply wlp_deref. intros k' [= <-]. case_match.
  - eapply wlp_on4; [exact E2|done|]. exists 0. cbn. by rewrite lookup_insert_eq.
  - apply wlp_bind. unfold wpi_now. apply wlp_bind. unfold tick. apply wlp_bind, wlp_get, wlp_bind, wlp_modify, wlp_ret, wlp_ret.
    eapply wlp_on4; [exact E2|done|]. eexists. cbn. by rewrite lookup_insert_eq.
Qed.
Lemma Client4_SendValue_now s c cd k t td value mode : s_clientHeap s !! c = Some cd -> cd_kind cd = K4 k -> cd_local cd = true ->
  s_topicHeap s !! t = Some td ->
  wlp (Client4_SendValue c t value mode)
    (fun _ s' => exists n, s_clientHeap s' !! c = Some (cd <| cd_kind := K4 (sent_now n (td_id td) value k) |>)) s.
Proof.
  intros E Ek El Et. unfold Client4_SendValue. apply wlp_bind. unfold topic. apply wlp_bind, wlp_get, wlp_deref. intros td' Et'. simplify_eq.
  apply wlp_bind. unfold client. apply wlp_bind, wlp_get, wlp_deref. intros cd' E'. simplify_eq. rewrite El. cbn [when].
  apply wlp_bind. unfold WriteBinary. eapply wlp_on4; [done..|].
  eapply wlp_mono; [eapply flush_now; [cbn; apply lookup_insert_eq|done]|]. intros [] s' [n En]. exists n. exact En.
Qed.

(** What happens to a client of version 4 that is sent a value *)
Definition receives (mode : SendMode) (id : nat) (value : Value) (cd cd' : ClientData) : Prop :=
  match cd_kind cd with
  | K4 k =>
      if bool_decide (mode = kSendDisabled) then cd' = cd
      else if cd_local cd then exists n, cd' = cd <| cd_kind := K4 (sent_now n id value k) |>
      else cd' = cd <| cd_kind := K4 (queue_value mode id value k) |>
  | _ => True
  end.
Lemma receives_disabled id value cd cd' : receives kSendDisabled id value cd cd' -> cd' = cd \/ (forall k, cd_kind cd <> K4 k).
Proof. unfold receives. destruct (cd_kind cd) eqn:E; [by right|by left|by right]. Qed.

(** A value sent to client [c], as seen by client [c'] and by the local storage *)
Lemma wlp_SendValue s c t td value mode : ok s -> s_topicHeap s !! t = Some td ->
  wlp (SendValue c t value mode) (fun _ s' => s_topicHeap s' = s_topicHeap s /\ s_local s' = s_local s /\
    (forall c', c' <> c -> s_clientHeap s' !! c' = s_clientHeap s !! c') /\
    (forall cd k, s_clientHeap s !! c = Some cd -> cd_kind cd = K4 k -> mode <> kSendDisabled ->
       exists cd', s_clientHeap s' !! c = Some cd' /\ receives mode (td_id td) value cd cd') /\
    (if bool_decide (c = s_localClient s) && s_local s
     then li_NetworkSetValue (td_localHandle td) value (s_store s) = Some (tt, s_store s') else s_store s' = s_store s)) s.
Proof.
  intros HG Et. unfold SendValue. apply wlp_bind. unfold client. apply wlp_bind, wlp_get, wlp_deref. intros cd Ecd.
  pose proof (good_kind None no_ref s c cd HG Ecd) as Hk. destruct (cd_kind cd) as [|k|k] eqn:Ek; [|clear Hk|done].
  - subst c. unfold Local_SendValue. apply wlp_bind, wlp_get. rewrite bool_decide_eq_true_2 by done. cbn [andb].
    destruct (s_local s) eqn:El; cbn [when].
    + apply wlp_bind. unfold topic. apply wlp_bind, wlp_get, wlp_deref. intros td' Et'. simplify_eq.
      unfold wlp, on_store. destruct (li_NetworkSetValue _ _ _) as [[[] l]|]; [|done]. split_and!; try done. intros. congruence.
    + apply wlp_ret. split_and!; try done. intros. congruence.
  - pose proof HG as [HC _]. assert (c <> s_localClient s) as Hl.
    { pose proof (ok_kind _ _ _ HC c _ (client_core _ _ _ Ecd)) as Hk. cbn in Hk. rewrite Ek in Hk. by destruct Hk. }
    rewrite bool_decide_eq_false_2 by done. cbn [andb].
    assert (wlp (Client4_SendValue c t value mode) (fun _ s' => only c s s' /\
      (mode <> kSendDisabled -> exists cd', s_clientHeap s' !! c = Some cd' /\ receives mode (td_id td) value cd cd')) s) as W.
    { pose proof (only_Client4_SendValue s c cd k t value mode Ecd Ek) as W. pose proof (Client4_SendValue_now s c cd k t td value mode Ecd Ek) as W1.
      unfold wlp in *. destruct (Client4_SendValue c t value mode s) as [[[] s']|] eqn:E; [|done]. split; [done|]. intros Hm.
      unfold receives. rewrite Ek, (bool_decide_eq_false_2 (mode = _)) by done. destruct (cd_local cd) eqn:El.
      - destruct (W1 eq_refl Et) as [n En]. eauto.
      - rewrite (Client4_SendValue_run s c cd k t td) in E by done. injection E as <-. cbn. rewrite lookup_insert_eq. eauto. }
    eapply wlp_mono; [exact W|]. intros [] s' [(E1 & E2 & E3 & E4) Hq]. split_and!; try done.
    intros cd' k' E' Ek' Hm. simplify_eq. by apply Hq.
Qed.

(** ** The loop over the clients *)

Lemma wlp_and {A} (m : M (SImpl L) A) (P Q : A -> SImpl L -> Prop) s :
  wp m P s -> wlp m Q s -> wlp m (fun a s' => P a s' /\ Q a s') s.
Proof. unfold wp, wlp. by destruct (m s) as [[a s']|]. Qed.

(** The mode of client [c] in the list, and what that means for it *)
Fixpoint mode_in (l : list (option addr * SendMode)) (c : addr) : SendMode :=
  match l with
  | [] => kSendDisabled
  | (o, m) :: l => if bool_decide (o = Some c) then m else mode_in l c
  end.
Definition mode_for (from : option addr) (l : list (option addr * SendMode)) (c : addr) : SendMode :=
  if bool_decide (from = Some c) then kSendDisabled else mode_in l c.

(** What is said of a run that sends [value] of topic [td] with the modes [mode] *)
Definition delivered (td : TopicData) (value : Value) (mode : addr -> SendMode) s s' : Prop :=
  s_topicHeap s' = s_topicHeap s /\ s_local s' = s_local s /\
  (forall c cd k, s_clientHeap s !! c = Some cd -> cd_kind cd = K4 k ->
     exists cd', s_clientHeap s' !! c = Some cd' /\ receives (mode c) (td_id td) value cd cd') /\
  (if negb (bool_decide (mode (s_localClient s) = kSendDisabled)) && s_local s
   then li_NetworkSetValue (td_localHandle td) value (s_store s) = Some (tt, s_store s') else s_store s' = s_store s).

Definition send_one (from : option addr) (t : addr) (value : Value) : option addr * SendMode -> M (SImpl L) unit :=
  fun '(aClient, mode) =>
    match aClient with
    | None => skip
    | Some c => when (negb (bool_decide (from = Some c)) && negb (bool_decide (mode = kSendDisabled))) (SendValue c t value mode)
    end.

Lemma mode_in_absent l c : c ∉ omap fst l -> mode_in l c = kSendDisabled.
Proof.
  induction l as [|[[c'|] m] l IH]; intros Hc; cbn in *; [done| |].
  - rewrite bool_decide_eq_false_2; [apply IH; set_solver|]. intros [= ->]. set_solver.
  - by apply IH.
Qed.

Lemma wlp_send_one s from t td value c m l : ok s -> s_topicHeap s !! t = Some td -> has_client s c -> c ∉ omap fst l ->
  wlp (send_one from t value (Some c, m)) (fun _ s1 => quiet s s1 /\ s_topicHeap s1 = s_topicHeap s /\ forall s2,
    delivered td value (mode_for from l) s1 s2 -> delivered td value (mode_for from ((Some c, m) :: l)) s s2) s.
Proof.
  intros HG Et Hc Hnin. pose proof (mode_in_absent l c Hnin) as Habs.
  assert (forall c', c' <> c -> mode_for from ((Some c, m) :: l) c' = mode_for from l c') as Hne.
  { intros c' Hn. unfold mode_for. cbn. by rewrite (bool_decide_eq_false_2 (Some c = Some c')) by congruence. }
  assert (mode_for from l c = kSendDisabled) as Hdis by (unfold mode_for; by rewrite Habs; case_bool_decide).
  assert (mode_for from ((Some c, m) :: l) c = if bool_decide (from = Some c) then kSendDisabled else m) as Heq.
  { unfold mode_for. cbn. by rewrite (bool_decide_eq_true_2 (Some c = Some c)). }
  cbn [send_one]. destruct (negb _ && negb _) eqn:Eg; cbn [when].
  - apply andb_true_iff in Eg as [Hf%negb_true_iff Hm%negb_true_iff]. rewrite Hf in Heq. apply bool_decide_eq_false in Hm.
    eapply wlp_mono; [apply wlp_and; [apply (kc_SendValue None no_ref); [done..|by exists (td_core td); apply topic_core]|
      by apply (wlp_SendValue s c t td)]|].
    intros [] s1 [Hq (E1 & E2 & E3 & E4 & E5)]. split; [done|]. split; [done|]. intros s2 (F1 & F2 & F3 & F4).
    assert (s_localClient s1 = s_localClient s) as El by (destruct Hq as [E _]; by apply (f_equal co_localClient) in E).
    split_and!; [congruence..| |].
    + intros c' cd k Ec Ek. destruct (decide (c' = c)) as [->|Hn].
      * rewrite Heq. destruct (E4 cd k Ec Ek Hm) as (cd1 & Ec1 & Hr1).
        assert (exists k1, cd_kind cd1 = K4 k1) as [k1 Ek1].
        { unfold receives in Hr1. rewrite Ek, (bool_decide_eq_false_2 (m = _)) in Hr1 by done.
          destruct (cd_local cd); [destruct Hr1 as [n ->]|subst cd1]; cbn; eauto. }
        destruct (F3 c cd1 k1 Ec1 Ek1) as (cd2 & Ec2 & Hr2). rewrite Hdis in Hr2.
        apply receives_disabled in Hr2 as [->|Hx]; [eauto|by apply Hx in Ek1].
      * rewrite Hne by done. apply (F3 c' cd k); [by rewrite E3|done].
    + rewrite El, E2 in F4. destruct (decide (s_localClient s = c)) as [Elc|Hn].
      * rewrite Elc, Heq. rewrite Elc, Hdis in F4. rewrite (bool_decide_eq_true_2 (c = s_localClient s)) in E5 by done.
        rewrite (bool_decide_eq_false_2 (m = kSendDisabled)) by done. rewrite (bool_decide_eq_true_2 (kSendDisabled = kSendDisabled)) in F4 by done.
        cbn [negb andb] in *. rewrite F4. exact E5.
      * rewrite Hne by done. rewrite (bool_decide_eq_false_2 (c = s_localClient s)) in E5 by done. cbn [andb] in E5. by rewrite <- E5.
  - apply wlp_ret. split; [apply quiet_refl, HG|]. split; [done|]. intros s2 (F1 & F2 & F3 & F4).
    assert (forall c', mode_for from ((Some c, m) :: l) c' = mode_for from l c') as Hall.
    { intros c'. destruct (decide (c' = c)) as [->|]; [|by apply Hne]. rewrite Heq, Hdis. destruct (bool_decide (from = Some c)); [done|].
      cbn in Eg. by apply negb_false_iff, bool_decide_eq_true in Eg. }
    split_and!; [done..| |]; [intros; rewrite Hall; eauto|by rewrite Hall].
Qed.

Lemma delivered_none td value mode s : (forall c, mode c = kSendDisabled) -> delivered td value mode s s.
Proof.
  intros Hm. split_and!; [done..| |].
  - intros c cd k E Ek. exists cd. split; [done|]. rewrite Hm. unfold receives. by rewrite Ek.
  - by rewrite Hm.
Qed.
Lemma wlp_loop from t td value l s : ok s -> s_topicHeap s !! t = Some td -> (forall c, Some c ∈ l.*1 -> has_client s c) ->
  NoDup (omap fst l) -> wlp (for_each l (send_one from t value)) (fun _ s' => delivered td value (mode_for from l) s s') s.
Proof.
  revert s. induction l as [|[[c|] m] l IH]; intros s HG Et Hc Hnd; cbn [for_each].
  - apply wlp_ret, delivered_none. intros c. unfold mode_for. by case_bool_decide.
  - cbn in Hnd. apply NoDup_cons in Hnd as [Hnin Hnd]. apply wlp_bind.
    eapply wlp_mono; [apply (wlp_send_one s from t td value c m l); [done..|apply Hc; cbn; set_solver|done]|].
    intros [] s1 (Hq & E1 & Hd). eapply wlp_mono; [apply IH|].
    + by eapply quiet_good.
    + by rewrite E1.
    + intros c' Hc'. eapply quiet_client; [done|]. apply Hc. cbn. set_solver.
    + done.
    + intros [] s2 H2. by apply Hd.
  - cbn in Hnd. apply wlp_bind, wlp_ret. eapply wlp_mono; [apply IH; try done|].
    + intros c' Hc'. apply Hc. cbn. set_solver.
    + by intros [] s2 H2.
Qed.

(** ** Every client has one place *)

Lemma slots_nodup s : ok s -> NoDup (omap id (s_clients s)).
Proof.
  intros [HC _]. assert (forall i j c, s_clients s !! i = Some (Some c) -> s_clients s !! j = Some (Some c) -> i = j) as Hinj.
  { intros i j c Hi Hj. destruct (ok_slots _ _ _ HC i c Hi) as (cd & E & <-), (ok_slots _ _ _ HC j c Hj) as (cd' & E' & <-). congruence. }
  revert Hinj. generalize (s_clients s) as l. induction l as [|o l IH]; intros Hinj; cbn; [constructor|].
  assert (NoDup (omap id l)) as Hl. { apply IH. intros i j c Hi Hj. specialize (Hinj (S i) (S j) c Hi Hj). lia. }
  destruct o as [c|]; cbn; [|done]. constructor; [|done].
  intros (o & [i Hi]%list_elem_of_lookup & Ho)%list_elem_of_omap. cbn in Ho. subst o. by specialize (Hinj O (S i) c eq_refl Hi).
Qed.
Lemma mode_in_zip l r i c : NoDup (omap id l) -> l !! i = Some (Some c) -> length r = length l ->
  mode_in (zip l r) c = default kSendDisabled (r !! i).
Proof.
  revert r i. induction l as [|o l IH]; intros r i Hnd Hi Hl; [done|]. destruct r as [|m r]; [done|]. cbn in Hl. cbn [zip zip_with mode_in].
  destruct i as [|i]; cbn in Hi.
  - injection Hi as ->. by rewrite bool_decide_eq_true_2.
  - destruct o as [c'|]; cbn in Hnd.
    + apply NoDup_cons in Hnd as [Hnin Hnd]. rewrite bool_decide_eq_false_2; [exact (IH r i Hnd Hi ltac:(lia))|].
      intros [= ->]. apply Hnin. apply list_elem_of_omap. exists (Some c). split; [by eapply list_elem_of_lookup_2|done].
    + rewrite bool_decide_eq_false_2 by done. exact (IH r i Hnd Hi ltac:(lia)).
Qed.
Lemma omap_fst_zip {A} (l : list (option addr)) (r : list A) : length r = length l -> omap fst (zip l r) = omap id l.
Proof.
  revert r. induction l as [|o l IH]; intros [|x r] Hl; try done. cbn in *. destruct o; cbn; [f_equal|]; apply IH; lia.
Qed.

(** How client [c] gets values of topic [td] *)
Definition subscription_mode s (td : TopicData) (c : addr) : SendMode := union_mode (options_of s c (td_subscribers td)).
Definition value_mode s (from : option addr) (td : TopicData) (c : addr) : SendMode :=
  if bool_decide (from = Some c) then kSendDisabled else subscription_mode s td c.

Definition accepted_value (from : option addr) (value : Value) (td : TopicData) : TopicData :=
  if accepts from value td then td <| td_lastValue := value |> <| td_lastValueClient := from |> else td.

Lemma wlp_accept s from t td value : s_topicHeap s !! t = Some td ->
  wlp (when (accepts from value td)
    (upd_topic t (fun td => td <| td_lastValue := value |> <| td_lastValueClient := from |>) ;;
     when (td_persistent td) (modify (fun s => s <| s_persistentChanged := true |>))))
    (fun _ s1 => s_topicHeap s1 = <[t := accepted_value from value td]> (s_topicHeap s) /\ s_subHeap s1 = s_subHeap s /\
       s_clientHeap s1 = s_clientHeap s /\ s_clients s1 = s_clients s /\ s_local s1 = s_local s /\ s_store s1 = s_store s /\
       s_localClient s1 = s_localClient s) s.
Proof.
  intros Et. unfold accepted_value. destruct (accepts from value td); cbn [when]; [|apply wlp_ret; by rewrite insert_id].
  apply wlp_bind. unfold upd_topic, topic. apply wlp_bind, wlp_bind, wlp_get, wlp_deref. intros td' Et'. simplify_eq. apply wlp_modify.
  destruct (td_persistent td); cbn [when]; [apply wlp_modify|apply wlp_ret]; done.
Qed.

Lemma union_mode_valid opts : union_mode opts <> kSendImmNoFlush.
Proof. unfold union_mode. by repeat case_match. Qed.

Lemma value_mode_valid s from td c : value_mode s from td c <> kSendImmNoFlush.
Proof. unfold value_mode. destruct (bool_decide (from = Some c)); [done|]. apply union_mode_valid. Qed.

Lemma wlp_SetValue s from t td value : ok s -> s_topicHeap s !! t = Some td ->
  wlp (SetValue from t value) (fun _ s' =>
    s_topicHeap s' = <[t := accepted_value from value td]> (s_topicHeap s) /\
    (forall c cd k, s_clientHeap s !! c = Some cd -> cd_kind cd = K4 k ->
       exists cd', s_clientHeap s' !! c = Some cd' /\ receives (value_mode s from td c) (td_id td) value cd cd') /\
    (if negb (bool_decide (value_mode s from td (s_localClient s) = kSendDisabled)) && s_local s
     then li_NetworkSetValue (td_localHandle td) value (s_store s) = Some (tt, s_store s') else s_store s' = s_store s)) s.
Proof.
  intros HG Et. unfold SetValue. apply wlp_bind. unfold topic at 1. apply wlp_bind, wlp_get, wlp_deref. intros td0 Et0. simplify_eq.
  apply wlp_bind. eapply wlp_mono; [apply wlp_and; [|by apply wlp_accept]|].
  { apply kc_when; [apply HG|]. intros _. apply kc_bind; [apply kc_upd_topic; [apply HG|by exists (td_core td); apply topic_core|done]|].
    intros _ s1 Hq1. apply kc_when; [apply Hq1|]. intros _. apply kc_modify; [apply Hq1|done..]. }
  intros [] s1 [Hq1 (E1 & E2 & E3 & E4 & E5 & E6 & E7)]. assert (ok s1) as HG1 by (by eapply quiet_good).
  apply wlp_bind, wlp_get, wlp_bind. eapply wlp_mono; [by apply wlp_send_modes|]. intros r s2 (-> & Hlen & Hr). rewrite length_replicate in Hlen.
  change (for_each (zip (s_clients s1) r) _) with (for_each (zip (s_clients s1) r) (send_one from t value)).
  assert (forall c cd, s_clientHeap s !! c = Some cd -> mode_for from (zip (s_clients s1) r) c = value_mode s from td c) as Hmode.
  { intros c cd Ec. unfold mode_for, value_mode. case_bool_decide; [done|]. destruct HG1 as [HC1 HL1]. rewrite <- E3 in Ec.
    pose proof (ok_clients _ _ _ HC1 _ _ (client_core _ _ _ Ec)) as Hi. cbn in Hi.
    rewrite (mode_in_zip _ _ (cd_id cd)); [|by apply slots_nodup|done|done].
    rewrite (Hr _ c kSendDisabled Hi) by (apply lookup_replicate_2; by eapply lookup_lt_Some). cbn.
    rewrite merge_union by done. unfold subscription_mode, options_of. by rewrite E2. }
  eapply wlp_mono; [apply (wlp_loop from t (accepted_value from value td))|].
  - done.
  - rewrite E1. apply lookup_insert_eq.
  - intros c Hc. apply (good_slot None no_ref); [done|]. apply list_elem_of_fmap in Hc as ([o m] & -> & Hin%elem_of_zip_l). done.
  - rewrite omap_fst_zip by done. by apply slots_nodup.
  - assert (td_id (accepted_value from value td) = td_id td /\ td_localHandle (accepted_value from value td) = td_localHandle td) as [Eid Elh].
    { unfold accepted_value. by case_match. }
    intros [] s2 (F1 & F2 & F3 & F4). rewrite Eid, Elh in *. split; [congruence|]. split.
    + intros c cd k Ec Ek. rewrite <- (Hmode c cd Ec). rewrite <- E3 in Ec. by eapply F3.
    + rewrite <- E6, <- E5. destruct HG as [HC _]. destruct (ok_slots _ _ _ HC _ _ (ok_local _ _ _ HC)) as (cdl & El & _).
      apply core_client in El as (cd & El & _). cbn in El. rewrite <- (Hmode _ _ El), <- E7. exact F4.
Qed.

(** ** Reachable states *)

Definition keeps_queues {A} (m : M (SImpl L) A) : Prop := framed queues_kept m.
Lemma queues_bind {A B} (m : M (SImpl L) A) (k : A -> M (SImpl L) B) s : keeps_queues m -> queues_ok s ->
  (forall a s', queues_ok s' -> wlp (k a) (fun _ => queues_ok) s') -> wlp (bind m k) (fun _ => queues_ok) s.
Proof. intros Hm HQ Hk. apply wlp_bind. eapply wlp_mono; [apply Hm|]. intros a s' H. by apply Hk, H. Qed.
Lemma queues_end {A} (m : M (SImpl L) A) s : keeps_queues m -> queues_ok s -> wlp m (fun _ => queues_ok) s.
Proof. intros Hm HQ. eapply wlp_mono; [apply Hm|]. intros a s' H. by apply H. Qed.
Lemma queues_modify {B} f (k : unit -> M (SImpl L) B) s : queues_ok s -> (forall s, s_clientHeap (f s) = s_clientHeap s) ->
  (forall s', queues_ok s' -> wlp (k tt) (fun _ => queues_ok) s') -> wlp (bind (modify f) k) (fun _ => queues_ok) s.
Proof. intros HQ Hf Hk. apply wlp_bind, wlp_modify, Hk. unfold queues_ok. by rewrite Hf. Qed.

Lemma queues_AddClient s name connInfo local wire : queues_ok s -> wlp (AddClient name connInfo local wire) (fun _ => queues_ok) s.
Proof.
  intros HQ. unfold AddClient. apply wlp_bind, wlp_get, wlp_bind. unfold new_client, tick.
  apply wlp_bind, wlp_bind, wlp_get, wlp_bind, wlp_modify, wlp_ret, wlp_bind, wlp_get, wlp_bind, wlp_modify, wlp_ret.
  apply queues_modify; [|done|].
  { intros c cd k E Ek. cbn in E. apply lookup_insert_Some in E as [[<- <-]|[_ E]]; [|eauto]. cbn in Ek. injection Ek as <-. by intros id. }
  intros s1 H1. apply queues_end; [|done]. unfold keeps_queues. frame.
Qed.
Lemma fr_remove_from_topic c t : keeps_queues (remove_from_topic c t).
Proof. unfold keeps_queues, remove_from_topic. frame. Qed.
Lemma queues_RemoveClient s id : queues_ok s -> wlp (RemoveClient id) (fun _ => queues_ok) s.
Proof.
  intros HQ. unfold RemoveClient. apply wlp_bind, wlp_get. pose proof fr_remove_from_topic as Hf. unfold keeps_queues in Hf.
  do 7 (apply queues_bind; [unfold keeps_queues; frame|done|]; intros ? ? ?). unfold free_client.
  apply queues_bind; [unfold keeps_queues; frame|done|]. intros ? ? ?. apply wlp_modify. intros c0 cd' k E Ek. cbn in E.
  apply lookup_delete_Some in E as [_ E]. eauto.
Qed.
Lemma queues_SetLocal s local : queues_ok s -> wlp (SetLocal local) (fun _ => queues_ok) s.
Proof.
  intros HQ. unfold SetLocal. apply queues_modify; [done..|]. clear s HQ. intros s HQ. apply queues_bind; [unfold keeps_queues; frame|done|].
  clear s HQ. intros m s HQ. apply queues_modify; [done..|]. clear s HQ. intros s HQ. apply queues_end; [|done]. cbv zeta. unfold keeps_queues. frame.
Qed.
Lemma fr_load_items time i l : keeps_queues (load_items time i l).
Proof.
  revert i. induction l as [|item l IH]; intros i; cbn [load_items]; [apply fr_ret|]. unfold keeps_queues, load_run, make_at in *. frame.
Qed.
Lemma queues_op op s : ok s -> queues_ok s -> wlp (server_run op) (fun _ => queues_ok) s.
Proof.
  intros HG HQ. destruct op as [name ? ? ?|id|id data|times id data|msgs|local|t|id t|conns| |what text]; cbn [server_run].
  - apply wlp_bind. eapply wlp_mono; [by apply queues_AddClient|]. by intros a s' H'.
  - by apply queues_RemoveClient.
  - apply queues_end; [|done]. unfold keeps_queues, ProcessIncomingText, client_at, Client4_ProcessIncomingText. frame.
  - unfold ProcessIncomingBinary, client_at. apply wlp_bind, wlp_bind, wlp_get, wlp_deref. intros c Ec. apply wlp_bind.
    unfold client. apply wlp_bind, wlp_get, wlp_deref. intros cd E. pose proof (good_kind None no_ref s c cd HG E) as Hk.
    destruct (cd_kind cd); [done| |done]. apply queues_end; [|done]. unfold keeps_queues, Client4_ProcessIncomingBinary. frame.
  - apply queues_end; [|done]. unfold keeps_queues, HandleLocal, Local_HandleLocal. frame.
  - by apply queues_SetLocal.
  - apply queues_end; [|done]. unfold keeps_queues, SendControl. frame.
  - apply queues_end; [|done]. unfold keeps_queues, SendValues. frame.
  - apply queues_end; [|done]. unfold keeps_queues, ConnectionsChanged, UpdateMetaClients. frame.
  - apply queues_end; [|done]. unfold keeps_queues, PersistentChanged. frame.
  - apply queues_end; [|done]. pose proof fr_load_items as Hl. unfold keeps_queues, LoadPersistent in *. frame.
Qed.

(** A state the server comes to by permitted operations *)
Definition reached s : Prop := exists (store : L) ops, li_ok store /\
  allowed_all permitted server_run ops (SImpl_make store) = true /\ for_each ops server_run (SImpl_make store) = Some (tt, s).

Lemma reached_ok s : reached s -> ok s /\ queues_ok s.
Proof.
  intros (store & ops & Hst & Ha & E). assert (queues_ok (SImpl_make store)) as HQ.
  { intros c cd k Ec Ek. cbn in Ec. by apply lookup_singleton_Some in Ec as [<- <-]. }
  pose proof (ok_make store Hst) as HG. revert HG HQ Ha E. generalize (SImpl_make store) as s0.
  induction ops as [|op ops IH]; intros s0 HG HQ Ha E; cbn in *; [by injection E as <-|].
  apply andb_true_iff in Ha as [Hop Ha]. pose proof (safe_op op s0 HG Hop) as W. pose proof (queues_op op s0 HG HQ) as WQ.
  unfold safe, wp, wlp, bind in *. destruct (server_run op s0) as [[[] s1]|]; [|done]. by apply (IH s1).
Qed.

(** [mode] says that a client gets a value, with the queue of client [k] before and [k'] after. *)
Definition got_value (local : bool) (mode : SendMode) (id : nat) (value : Value) (k k' : Client4) : Prop :=
  if local then
    if bool_decide (mode = kSendDisabled) then k' = k else exists n, k' = sent_now n id value k
  else
    pending id (k4_outgoing k') = newest mode (pending id (k4_outgoing k)) value /\
    (forall id', id' <> id -> pending id' (k4_outgoing k') = pending id' (k4_outgoing k)) /\
    control (k4_outgoing k') = control (k4_outgoing k) /\ k4_wire k' = k4_wire k.
Lemma queue_value_wire mode id value k : mode <> kSendImmNoFlush -> k4_wire (queue_value mode id value k) = k4_wire k.
Proof. intros Hm. destruct mode; cbn [queue_value]; [done|done| |done]. by repeat case_match. Qed.
Lemma receives_got mode id value cd k cd' : cd_kind cd = K4 k -> queue_ok k -> mode <> kSendImmNoFlush -> receives mode id value cd cd' ->
  exists k', cd' = cd <| cd_kind := K4 k' |> /\ got_value (cd_local cd) mode id value k k'.
Proof.
  intros Ek Hk Hm. unfold receives, got_value. rewrite Ek. assert (cd = cd <| cd_kind := K4 k |>) as Hid by (destruct cd; cbn in *; by subst).
  case_bool_decide as Hd.
  - intros ->. exists k. split; [done|]. subst mode. by destruct (cd_local cd).
  - destruct (cd_local cd); [intros [n ->]; eauto|]. intros ->. eexists. split; [done|].
    destruct (queue_value_spec mode id value k Hk Hm) as (E1 & E2 & E3). split_and!; [done..|by apply queue_value_wire].
Qed.

(** C3. In every state that a server comes to with clients of version 4 and the local side, a value
    that one of them, or the server itself, sets for a topic is delivered as follows.  [SetValue]
    runs without undefined behaviour.  The topic takes the value as its last one if [accepts]
    allows it: it has none, the last one is from the same source or has no time, or the value is
    not older; otherwise the topic stays as it is.  Whether it was accepted or not, the value goes to
    every client but its source by the union of the subscriptions of that client to the topic: a
    client without one, or with ones for topics only, gets nothing; a client on the same machine has
    it written to its connection and flushed at once; of the others, one that wants all values has it
    added to those queued under the id of the topic, and one that does not has it in place of the
    newest that is queued under that id.  What is queued under other ids, control messages, and
    what was written to the connections of these clients stay as they are.  There is no other
    client but the local one, whose storage is called with the value exactly if it is there,
    subscribed and not the source. *)
Theorem server_delivers s from t td value : reached s -> s_topicHeap s !! t = Some td ->
  exists s', SetValue from t value s = Some (tt, s') /\
    s_topicHeap s' = <[t := if accepts from value td then td <| td_lastValue := value |> <| td_lastValueClient := from |> else td]> (s_topicHeap s) /\
    (forall c cd, s_clientHeap s !! c = Some cd -> c <> s_localClient s ->
       exists k k', cd_kind cd = K4 k /\ s_clientHeap s' !! c = Some (cd <| cd_kind := K4 k' |>) /\
         got_value (cd_local cd) (value_mode s from td c) (td_id td) value k k') /\
    (if negb (bool_decide (value_mode s from td (s_localClient s) = kSendDisabled)) && s_local s
     then li_NetworkSetValue (td_localHandle td) value (s_store s) = Some (tt, s_store s') else s_store s' = s_store s).
Proof.
  intros [HG HQ]%reached_ok Et. assert (has_topic s t) as Ht by (exists (td_core td); by apply topic_core).
  destruct (kc_run _ s (kc_SetValue None no_ref s from t value HG Ht)) as ([] & s' & E & _).
  destruct (wlp_run _ _ _ _ _ (wlp_SetValue s from t td value HG Et) E) as (E1 & E2 & E3). exists s'. split_and!; try done.
  intros c cd Ec Hc. pose proof (good_kind None no_ref s c cd HG Ec) as Hk. destruct (cd_kind cd) as [|k|k] eqn:Ek; [done|clear Hk|done].
  destruct (E2 c cd k Ec Ek) as (cd' & Ec' & Hr). destruct (receives_got _ _ _ _ k _ Ek ltac:(by eapply HQ) ltac:(apply value_mode_valid) Hr) as (k' & -> & Hg).
  eauto.
Qed.
End Delivery.
