(* ===== verification/ServerRestore.v ===== *)
(** * ServerRestore: persistent topics come back

    What [LoadPersistent] makes of a file that [DumpPersistent] has written. *)

From S2P Require Import Prelude NtTypes Monads LocalTypes Json JsonParser JsonRoundTrip.
From S2P Require Import Events WireEncoder4 WireDecoder4 WireConnection4 NetworkQueue UidVector.
From S2P Require Import ServerTypes ServerImpl ServerPersistent ServerCore ServerValues.
From S2P Require Import ServerTopics ServerSafety ServerClients ServerProps ServerDelivery.
Local Open Scope Z_scope.

(** ** Text that has been read can be written *)

Lemma Forall_fold_add (P : bytes * jvalue -> Prop) l acc : Forall P acc -> Forall P l -> Forall P (foldl obj_add acc l).
Proof.
  revert acc. induction l as [|kv l IH]; intros acc Ha Hl; [done|]. apply Forall_cons in Hl as [Hkv Hl]. cbn. apply IH; [|done].
  clear -Ha Hkv. destruct kv as [k v]. unfold obj_add. cbn [fst snd].
  induction acc as [|[k' v'] acc IHa]; cbn; [by repeat constructor|]. apply Forall_cons in Ha as [H1 H2].
  repeat case_match; repeat constructor; auto.
Qed.

Section Norm.
Context {JF : JsonFloat}.
Lemma dump_norm : forall v, is_Some (dump false v) -> is_Some (dump false (norm v)).
Proof.
  fix IH 1. intros [| | | | | |l|l] Hd; cbn [norm]; try done; try (by case_match; eexists); cbn [dump] in *.
  - rewrite some_bind, mapM_is_Some in *. induction l as [|v l IHl]; [done|]. apply Forall_cons in Hd as [Hv Hl].
    cbn. constructor; [by apply IH|by apply IHl].
  - rewrite some_bind, mapM_is_Some in *. apply Forall_fold_add; [done|]. induction l as [|[k v] l IHl]; [done|].
    apply Forall_cons in Hd as [Hv Hl]. cbn [fmap list_fmap]. constructor; [|by apply IHl]. cbn [fst snd] in *.
    destruct Hv as [t (k' & Ek & (v' & Ev & _)%bind_Some)%bind_Some]. cbn [fst snd] in *.
    destruct (IH v) as [w Ew]; [by rewrite Ev|]. unfold compose. cbn [fst snd]. rewrite Ek, Ew. by eexists.
Qed.
Lemma dump_obj_norm m : is_Some (dump_obj m) -> is_Some (dump_obj (norm <$> m)).
Proof.
  rewrite !dump_obj_ok. intros Hm k v Hk. rewrite lookup_fmap in Hk. apply fmap_Some in Hk as (v' & Hv' & ->).
  destruct (Hm k v' Hv'). split; [done|]. by apply dump_norm.
Qed.
End Norm.

(** ** A topic *)

Section Restore.
Context {L : Type} {LI : LocalInterface jvalue L} {LS : LocalInterfaceSafe jvalue L}.
Context {EN : Env} {WC : WpiClock} {JF : JsonFloat} {JFL : JsonFloatLaws} {MA : Machine} {ML : MachineLaws}.
Implicit Types s : SImpl L.

Lemma core_fields td td' : td_core td' = td_core td ->
  td_name td' = td_name td /\ td_typeStr td' = td_typeStr td /\ td_properties td' = td_properties td /\
  td_persistent td' = td_persistent td /\ td_special td' = td_special td.
Proof.
  intros C. split_and!; [exact (f_equal td_name C)|exact (f_equal td_typeStr C)|exact (f_equal td_properties C)
    |exact (f_equal td_persistent C)|exact (f_equal td_special C)].
Qed.

(** The server has the topic that was written as [td]. *)
Definition recreated s (td : TopicData) : Prop := exists t td',
  s_nameTopics s !! td_name td = Some t /\ s_topicHeap s !! t = Some td' /\ td_special td' = false /\
  td_name td' = td_name td /\ td_typeStr td' = td_typeStr td /\ td_properties td' = norm <$> td_properties td /\
  td_persistent td' = true /\ data (td_lastValue td') = data (td_lastValue td).

(** Topics that are not meta topics stay as they are. *)
Definition topics_stay s s' : Prop := forall t td, s_topicHeap s !! t = Some td -> td_special td = false ->
  exists td', s_topicHeap s' !! t = Some td' /\ td_core td' = td_core td /\ td_lastValue td' = td_lastValue td.
Lemma topics_stay_refl s : topics_stay s s.
Proof. intros t td E _. by exists td. Qed.
Lemma topics_stay_trans s1 s2 s3 : topics_stay s1 s2 -> topics_stay s2 s3 -> topics_stay s1 s3.
Proof.
  intros H1 H2 t td E Hs. destruct (H1 t td E Hs) as (td2 & E2 & C2 & V2).
  destruct (H2 t td2 E2) as (td3 & E3 & C3 & V3); [by apply (f_equal td_special) in C2; cbn in C2; rewrite C2|].
  exists td3. split_and!; [done|congruence..].
Qed.
Lemma grows_stay s s' : grows (core_of s) (core_of s') -> values_kept s s' -> topics_stay s s'.
Proof.
  intros Hg Hk t td E Hs. pose proof (gr_topics _ _ Hg t _ (topic_core s t td E)) as (td' & E' & C')%core_topic.
  exists td'. split_and!; [done..|]. apply (vk_old s s' t); try done. apply (f_equal td_special) in C'. cbn in C'. by rewrite C'.
Qed.
(** A new topic gets a value. *)
Lemma stay_set s s2 s3 t td2 : topics_stay s s2 -> s_topicHeap s !! t = None -> core_of s3 = core_of s2 ->
  values_kept (s2 <| s_topicHeap ::= <[t := td2]> |>) s3 -> topics_stay s s3.
Proof.
  intros Hst Hnew C3 Hk t0 td0 E0 S0. destruct (Hst t0 td0 E0 S0) as (td0' & E0' & C0 & V0).
  pose proof (topic_core s2 t0 td0' E0') as Ec. rewrite <- C3 in Ec. apply core_topic in Ec as (td & E & C).
  destruct (core_fields _ _ C0) as (_ & _ & _ & _ & S'). destruct (core_fields _ _ C) as (_ & _ & _ & _ & S).
  exists td. split_and!; [done|congruence|]. rewrite <- V0. eapply vk_old; [exact Hk| |exact E|congruence].
  cbn. rewrite lookup_insert_ne; [done|]. congruence.
Qed.
Lemma recreated_stay s s' td : ok s' -> topics_stay s s' -> recreated s td -> recreated s' td.
Proof.
  intros [HC _] Hst (t & td1 & En & E & Hs & H1 & H2 & H3 & H4 & H5). destruct (Hst t td1 E Hs) as (td' & E' & C' & V').
  pose proof (ok_named _ _ _ HC t _ (topic_core s' t td' E')) as En'. cbn in En'.
  destruct (core_fields _ _ C') as (N & T & P & Pe & Sp).
  exists t, td'. split_and!; try congruence.
Qed.

(** A topic that can be restored to a server that has none of its name *)
Definition restorable s (td : TopicData) : Prop :=
  storable td = true /\ topic_text td /\ is_meta_name (td_name td) = false /\ s_nameTopics s !! td_name td = None.

Lemma wp_make_at s time d : ok s ->
  wp (make_at time d) (fun v s' => data v = d /\ quiet s s' /\ values_kept s s') s.
Proof.
  intros HG. eapply wp_mono; [apply wp_wlp_and; [apply kc_make_at; by apply ok_live|
    apply (wlp_mono _ (fun v s' => data v = d /\ values_kept s s'))]|].
  - unfold make_at, nt_Now, tick. case_match; repeat wlp_step; (split; [done|by apply vk_same]).
  - intros v s' H. exact H.
  - intros v s' (? & ? & ?). done.
Qed.

Lemma storable_persistent td : storable td = true -> bool_property "persistent" (norm <$> td_properties td) = true.
Proof.
  unfold storable, bool_property. rewrite !andb_true_iff, lookup_fmap. intros [_ H].
  destruct (td_properties td !! "persistent") as [[|[]| | | | | |]|]; done.
Qed.

Lemma wp_restore_topic s time td : ok s -> restorable s td ->
  wp (restore_topic time td) (fun _ s' => ok s' /\ recreated s' td /\ topics_stay s s' /\
    forall n, n <> td_name td -> is_meta_name n = false -> s_nameTopics s' !! n = s_nameTopics s !! n) s.
Proof.
  intros HG (Hst & (Hn & Hty & Hp) & Hm & Hnone). unfold restore_topic. wp_step.
  eapply wp_mono; [by apply wp_make_at|]. intros value s1 (Hd & Hq1 & Hk1).
  assert (ok s1) as HG1 by (by eapply quiet_good). wp_step.
  eapply wp_mono; [apply (wp_CreateTopic None); try done; by apply dump_obj_norm|].
  intros t s2 (HG2 & Hg2 & td2 & E2 & N2 & S2 & Hnew & Hnames & Hk2). destruct Hq1 as [C1 HL1].
  rewrite C1 in Hg2, Hnew, Hnames. destruct (Hnew Hnone) as ((T2 & P2 & Pe2) & Hfresh). clear Hnew.
  pose proof E2 as (td2' & E2' & <-)%core_topic. cbn in N2, S2, T2, P2, Pe2.
  assert (s_topicHeap s1 !! t = None) as Hf1.
  { rewrite <- C1 in Hfresh. cbn in Hfresh. rewrite lookup_fmap in Hfresh. by destruct (s_topicHeap s1 !! t). }
  pose proof (vk_new _ _ _ _ Hk2 Hf1 E2' S2) as V2.
  eapply wp_mono; [apply wp_wlp_and; [apply (kc_SetValue None no_ref); [done|by eexists]|eapply wlp_SetValue_values; [by eapply good_no3|done]]|].
  intros [] s3 [Hq3 [_ Hk3]]. assert (ok s3) as HG3 by (by eapply quiet_good).
  assert (accepts None value td2' = true) as Ha by (unfold accepts; by rewrite V2).
  unfold with_value in Hk3. rewrite Ha in Hk3. set (s2' := s2 <| s_topicHeap ::= _ |>) in Hk3.
  destruct Hq3 as [C3 HL3]. pose proof E2 as E3. rewrite <- C3 in E3. apply core_topic in E3 as (td3 & E3 & C).
  destruct (core_fields _ _ C) as (N & T & P & Pe & S3). rewrite S2 in S3.
  split_and!; [done| | |by intros n Hne Hn'; change (co_names (core_of s3) !! n = co_names (core_of s) !! n); rewrite C3; apply Hnames].
  - pose proof (ok_named _ _ _ (proj1 HG3) t _ (topic_core s3 t td3 E3)) as En3. cbn in En3.
    assert (td_lastValue td3 = value) as V3.
    { refine (eq_trans (vk_old s2' s3 t _ td3 Hk3 _ E3 S3) _); [cbn; apply lookup_insert_eq|done]. }
    exists t, td3. rewrite <- N2, <- N. split_and!; try congruence. rewrite Pe, Pe2. by apply storable_persistent.
  - eapply (stay_set s s2 s3 t); [apply grows_stay; [done|by eapply vk_trans]| |done|exact Hk3].
    cbn in Hfresh. rewrite lookup_fmap in Hfresh. by destruct (s_topicHeap s !! t).
Qed.

(** ** All of them *)

Lemma wp_restore_all time tds s : ok s -> (forall td, td ∈ tds -> restorable s td) -> NoDup (td_name <$> tds) ->
  wp (for_each tds (restore_topic time)) (fun _ s' => ok s' /\ (forall td, td ∈ tds -> recreated s' td) /\ topics_stay s s') s.
Proof.
  revert s. induction tds as [|td tds IH]; intros s HG Hr Hnd; cbn [for_each].
  { apply wp_ret. split_and!; [done|by intros td ?%not_elem_of_nil|apply topics_stay_refl]. }
  apply NoDup_cons in Hnd as [Hnin Hnd]. wp_step. eapply wp_mono; [apply wp_restore_topic; [done|apply Hr; left]|].
  intros [] s1 (HG1 & Hre & Hst & Hnames). eapply wp_mono; [apply (IH s1); try done|].
  - intros td' Hin. destruct (Hr td') as (H1 & H2 & H3 & H4); [by right|]. split_and!; try done. rewrite Hnames; [done| |done].
    intros E. apply Hnin. rewrite <- E. by apply list_elem_of_fmap_2.
  - intros [] s2 (HG2 & Hall & Hst2). split_and!; [done| |by eapply topics_stay_trans].
    intros td' [->|Hin]%elem_of_cons; [by eapply recreated_stay|by apply Hall].
Qed.

(** ** The topics of a server *)

Lemma elements_heap s t : ok s -> t ∈ uid_elements (s_topics s) <-> is_Some (s_topicHeap s !! t).
Proof.
  intros [HC _]. unfold uid_elements. rewrite list_elem_of_omap. split.
  - intros (o & (i & Hi)%list_elem_of_lookup & Eo). cbn in Eo. subst o.
    destruct (ok_vector _ _ _ HC i t) as (td & Etd & _); [cbn; unfold uid_get; by rewrite Hi|].
    apply core_topic in Etd as (td' & E' & _). by exists td'.
  - intros [td E]. pose proof (ok_slot _ _ _ HC t _ (topic_core s t td E)) as Hs. cbn in Hs. unfold uid_get in Hs.
    exists (Some t). split; [|done]. destruct (u_vector (s_topics s) !! td_id td) as [o|] eqn:Eo; cbn in Hs; [subst o|done].
    by eapply list_elem_of_lookup_2.
Qed.

Lemma NoDup_omap_id {A} (l : list (option A)) :
  (forall i j a, l !! i = Some (Some a) -> l !! j = Some (Some a) -> i = j) -> NoDup (omap id l).
Proof.
  induction l as [|o l IH]; intros Hl; cbn; [constructor|].
  assert (NoDup (omap id l)) as Hnd.
  { apply IH. intros i j a Hi Hj. by specialize (Hl (S i) (S j) a Hi Hj) as [= ?]. }
  destruct o as [a|]; cbn; [|done]. constructor; [|done].
  intros (o & (j & Hj)%list_elem_of_lookup & Eo)%list_elem_of_omap. cbn in Eo. subst o. by specialize (Hl O (S j) a eq_refl Hj).
Qed.
Lemma for_map_topic s l : (forall t, t ∈ l -> is_Some (s_topicHeap s !! t)) ->
  exists tds, for_map l topic s = Some (tds, s) /\ Forall2 (fun t td => s_topicHeap s !! t = Some td) l tds.
Proof.
  induction l as [|t l IH]; intros Hl; [by exists []|]. destruct (Hl t) as [td E]; [left|].
  destruct IH as (tds & El & Htds); [intros; apply Hl; by right|]. exists (td :: tds). split; [|by constructor].
  cbn [for_map]. unfold bind at 1, topic at 1, bind, get, deref. rewrite E. unfold bind in El. cbn in El. by rewrite El.
Qed.
Lemma names_distinct s l tds : ok s -> NoDup l -> Forall2 (fun t td => s_topicHeap s !! t = Some td) l tds ->
  NoDup (td_name <$> tds).
Proof.
  intros [HC _] Hnd Hf. induction Hf as [|t td l tds E Hf IH]; cbn; [constructor|]. apply NoDup_cons in Hnd as [Hnin Hnd].
  constructor; [|by apply IH]. intros (td' & En & Hin)%list_elem_of_fmap. apply Hnin.
  apply list_elem_of_lookup in Hin as (i & Hi). destruct (Forall2_lookup_r _ _ _ _ _ Hf Hi) as (t' & Ht' & E').
  pose proof (ok_named _ _ _ HC t _ (topic_core s t td E)) as N. pose proof (ok_named _ _ _ HC t' _ (topic_core s t' td' E')) as N'.
  cbn in N, N'. rewrite En in N. assert (t = t') as -> by congruence. by eapply list_elem_of_lookup_2.
Qed.
Lemma topics_read s : ok s -> exists tds, for_map (uid_elements (s_topics s)) topic s = Some (tds, s) /\
  (forall td, td ∈ tds <-> exists t, s_topicHeap s !! t = Some td) /\ NoDup (td_name <$> tds).
Proof.
  intros HG. pose proof HG as [HC _].
  assert (NoDup (uid_elements (s_topics s))) as Hnd.
  { apply NoDup_omap_id. intros i j t Hi Hj.
    destruct (ok_vector _ _ _ HC i t) as (td & Etd & Ei); [cbn; unfold uid_get; by rewrite Hi|].
    destruct (ok_vector _ _ _ HC j t) as (td' & Etd' & Ej); [cbn; unfold uid_get; by rewrite Hj|]. congruence. }
  destruct (for_map_topic s (uid_elements (s_topics s))) as (tds & E & Hf); [intros t; by apply elements_heap|].
  exists tds. split_and!; [done| |by eapply names_distinct]. intros td. split.
  - intros (i & Hi)%list_elem_of_lookup. destruct (Forall2_lookup_r _ _ _ _ _ Hf Hi) as (t & _ & Et). eauto.
  - intros [t Et]. assert (t ∈ uid_elements (s_topics s)) as Hel by (apply elements_heap; [done|by exists td]). apply list_elem_of_lookup in Hel as (i & Hi).
    destruct (Forall2_lookup_l _ _ _ _ _ Hf Hi) as (td' & Hi' & Et'). assert (td' = td) as -> by congruence. by eapply list_elem_of_lookup_2.
Qed.

Lemma dumped_distinct tds : NoDup (td_name <$> tds) -> NoDup (td_name <$> dumped tds).
Proof.
  unfold dumped. induction tds as [|td tds IH]; intros Hnd; cbn; [constructor|]. apply NoDup_cons in Hnd as [Hn Hnd].
  case_match; [|by apply IH]. cbn. constructor; [|by apply IH]. contradict Hn.
  apply list_elem_of_fmap in Hn as (td' & -> & Hi%list_elem_of_In%filter_In%proj1%list_elem_of_In). by apply list_elem_of_fmap_2.
Qed.
Lemma wp_restore_topics tds s : ok s -> (forall td, td ∈ tds -> restorable s td) -> NoDup (td_name <$> tds) ->
  wp (restore_topics tds) (fun _ s' => (forall td, td ∈ tds -> recreated s' td) /\ topics_stay s s' /\
    s_persistentChanged s' = s_persistentChanged s) s.
Proof.
  intros HG Hr Hnd. unfold restore_topics. do 2 wp_step. unfold nt_Now, tick. do 3 (wp_step; wp_step). wp_step. set (s1 := s <| s_tick ::= S |>).
  do 2 wp_step. eapply wp_mono; [apply (wp_restore_all _ tds s1); [|exact Hr|exact Hnd]|].
  - eapply quiet_good; [exact HG|]. split; [done|]. by apply (live_same s), HG.
  - intros [] s2 (_ & H1 & H2). wp_step. by split_and!.
Qed.

(** C7. What the server writes of its persistent topics it restores.  Take a server that has
    come to its state by permitted operations, and let [DumpPersistent] write a text.  The
    topics it writes are the persistent ones that have a value; let each be storable (its value
    is of the type of the topic, with finite numbers in their range, and its properties say
    that it is persistent) and not have the name of a meta topic.  Let a second server, that
    also has come to its state by permitted operations, have no topics of these names.  Then
    [LoadPersistent] of the text at that server is free of undefined behaviour and reports no
    error, and afterwards the server has each of the topics under its name, with the type, the
    properties (integers that are not negative have become unsigned), the persistence and the
    value it had.  The topics that were there before, other than meta topics, stay as they
    were, and so does the flag that persistent values have changed. *)
Theorem persistent_roundtrip what (s0 s1 s : SImpl L) text :
  reached s0 -> DumpPersistent s0 = Some (text, s1) ->
  (forall t td, s_topicHeap s0 !! t = Some td -> is_dumped td = true ->
     storable td = true /\ is_meta_name (td_name td) = false) ->
  reached s ->
  (forall t td, s_topicHeap s0 !! t = Some td -> is_dumped td = true -> s_nameTopics s !! td_name td = None) ->
  s1 = s0 /\ exists s', LoadPersistent what text s = Some (EmptyString, s') /\
    (forall t td, s_topicHeap s0 !! t = Some td -> is_dumped td = true -> recreated s' td) /\
    topics_stay s s' /\ s_persistentChanged s' = s_persistentChanged s.
Proof.
  intros [HG0 _]%reached_ok Hd Hst [HG _]%reached_ok Hnone. destruct (topics_read s0 HG0) as (tds & Et & Hin & Hnd).
  unfold DumpPersistent, bind, get in Hd. rewrite Et in Hd.
  destruct (dump_topics tds) as [text'|] eqn:E; cbn in Hd; [|done]. injection Hd as <- <-. split; [done|].
  assert (forall td, td ∈ dumped tds <-> exists t, s_topicHeap s0 !! t = Some td /\ is_dumped td = true) as Hdm.
  { intros td. unfold dumped. rewrite list_elem_of_In, filter_In, <- list_elem_of_In, Hin. naive_solver. }
  rewrite (load_dumped what tds text' s E) by (apply forallb_forall; intros td Ht%list_elem_of_In; apply Hdm in Ht as (t & ? & ?); by eapply Hst).
  assert (forall td, td ∈ dumped tds -> restorable s td) as Hre.
  { intros td (t & Ht & Hi)%Hdm. destruct (Hst t td Ht Hi). split_and!; [done| |done|by eapply Hnone]. exact (good_text None no_ref s0 t td HG0 Ht). }
  pose proof (wp_restore_topics (dumped tds) s HG Hre (dumped_distinct tds Hnd)) as W.
  apply wp_run in W as ([] & s' & Er & H1 & H2 & H3). exists s'. split_and!; [unfold bind; by rewrite Er| |done|done].
  intros t td Ht Hi. apply H1, Hdm. eauto.
Qed.
End Restore.
