(* ===== verification/ServerExample.v ===== *)
(** * ServerExample: concrete servers

    Instances of the collaborators of the server, sessions on which its theorems are evaluated,
    and sessions in which it goes wrong. *)

From S2P Require Import Prelude NtTypes Monads LocalTypes Json JsonParser JsonRoundTrip.
From S2P Require Import Events Message3 WireEncoder3 WireDecoder3 WireEncoder4.
From S2P Require Import Mpack WireDecoder4 Wire4Text ServerTypes WireConnection4.
From S2P Require Import NetworkQueue Frames4 UidVector.
From S2P Require Import ClientExample ServerImpl ServerNt3 ServerPersistent.
From S2P Require Import ServerCore ServerSafety ServerFrames ServerDelivery ServerRestore.
From S2P Require Import ServerProps.
From S2P Require Import ServerNt3Proofs.
Local Open Scope Z_scope.

Module ServerExample.
Import ClientExample.

(** ** Instances *)

#[export] Instance recorder_safe : LocalInterfaceSafe jvalue (list told).
Proof. by refine {| li_ok := fun _ => True |}; intros; exact I. Defined.

Definition last_free (X : gset addr) : addr := S (foldr Nat.max O (elements X)).
Lemma last_free_fresh X : last_free X ∉ X.
Proof.
  intros H%elem_of_elements. assert (forall l n, n ∈ l -> (n <= foldr Nat.max O l)%nat) as Hm.
  { intros l. induction l as [|m l IH]; intros n; [by intros ?%elem_of_nil|]. intros [->|Hn]%elem_of_cons; cbn; [lia|].
    specialize (IH n Hn). lia. }
  apply Hm in H. exact (Nat.nle_succ_diag_l _ H).
Qed.
Definition unordered (allocate : nat -> gset addr -> addr) : Machine := {|
  alloc := allocate;
  dense_items _ _ m := map_to_list m;
  dense_ptrs _ _ m := map_to_list m;
|}.
(** An allocator that does not use an address again, and one that uses the last one again *)
#[export] Instance machine : Machine := unordered (fun n X => if decide (n ∈ X) then last_free X else n).
#[export] Instance machine_laws : MachineLaws.
Proof. split; [|done..]. intros n X. cbn. case_decide; [apply last_free_fresh|done]. Qed.
Definition reusing : Machine := unordered (fun _ X => last_free X).
Lemma reusing_laws : @MachineLaws reusing.
Proof. split; [|done..]. intros n X. apply last_free_fresh. Qed.

Abbreviation server := (SImpl (list told)).
Definition run {MA : Machine} (ops : list server_op) : option (unit * server) := for_each ops server_run (SImpl_make []).

(** Frames as a client sends them *)
Definition calls_frame (l : list (ClientMessage jvalue)) : bytes :=
  text_frame (omap (fun m => Some (snd m)) (omap WireEncodeText_client l)).
Definition value_frame (pubuid : Z) (v : Value) : bytes := sending_bytes (MkSending pubuid (value_time v) v).
Definition opts (all prefix : bool) : PubSubOptionsImpl :=
  PubSubOptionsImpl_make (kDefaultPubSubOptions <| sendAll := all |> <| prefixMatch := prefix |>).
Definition connect (name : string) : server_op := OpAddClient name "1.2.3.4" false WebSocketConnection_make.

(** With the uid that the frame has *)
Definition publish (h : Z) (name type : string) : ClientMessage jvalue := PublishMsg h 0 name type ∅ (opts false false).
Definition subscribe (h : Z) (name : string) : ClientMessage jvalue := SubscribeMsg h [name] (opts true true).

Definition session_ops : list server_op :=
  [OpSetLocal true; connect "alice"; connect "bob";
   OpText 1 (calls_frame [publish 5 "/x" "int"]); OpText 2 (calls_frame [subscribe 1 "/"]);
   OpBinary (fun _ => 0) 1 (value_frame 5 (int 7 3)); OpSendControl 100000; OpSendValues 2 100000;
   OpHandleLocal [subscribe 9 "$"; publish 1 "/y" "double"; ClientValueMsg 1 (dbl 4 4)];
   OpLoadPersistent (fun _ => EmptyString) (lit "[]"); OpConnectionsChanged []; OpRemoveClient 1; OpPersistentChanged].

Definition outgoing (s : option (unit * server)) (id : nat) : list (ServerMessage jvalue) :=
  match s with
  | Some (_, s) =>
      match c ← default None (s_clients s !! id); s_clientHeap s !! c with
      | Some cd => match cd_kind cd with K4 k => k4_outgoing k | _ => [] end
      | None => []
      end
  | None => []
  end.

Definition unpublish (h : Z) : ClientMessage jvalue := UnpublishMsg h 0.
Definition two : list server_op := [OpSetLocal true; connect "alice"; connect "bob"].

(** Two clients, the second of them subscribed to a topic of the first, with the first value sent *)
Definition before_value : list server_op := two ++
  [OpText 1 (calls_frame [publish 5 "/x" "int"]); OpText 2 (calls_frame [SubscribeMsg 1 ["/"] (opts false true)]);
   OpBinary (fun _ => 0) 1 (value_frame 5 (int 7 3))].
Definition before : server := match run before_value with Some (_, s) => s | None => SImpl_make [] end.
Definition x_topic : addr := default O (s_nameTopics before !! "/x").
Definition x_data : TopicData := default (TopicData_make EmptyString EmptyString ∅) (s_topicHeap before !! x_topic).
Definition client_of (id : nat) : addr := default O (default None (s_clients before !! id)).
Definition bob : ClientData := default (ClientData_make EmptyString EmptyString false 0 KLocal) (s_clientHeap before !! client_of 2).
Definition bob4 : Client4 := match cd_kind bob with K4 k => k | _ => MkClient4 WebSocketConnection_make [] ∅ false false end.
Lemma before_run : run before_value = Some (tt, before).
Proof. unfold before. destruct (run before_value) as [[[] s]|] eqn:E; [reflexivity|]. vm_compute in E. discriminate E. Qed.

(** The second value takes the place of the first. *)
Lemma server_delivers_witness : exists s' k',
  SetValue (Some (client_of 1)) x_topic (int 8 4) before = Some (tt, s') /\
  s_clientHeap s' !! client_of 2 = Some (bob <| cd_kind := K4 k' |>) /\
  pending (td_id x_data) (k4_outgoing bob4) = [MkValue (VInteger 7) 3 3] /\ pending (td_id x_data) (k4_outgoing k') = [int 8 4].
Proof.
  destruct (server_delivers before (Some (client_of 1)) x_topic x_data (int 8 4)) as (s' & E & _ & Hc & _).
  - exists [], before_value. split; [exact I|]. split; [vm_compute; reflexivity|exact before_run].
  - vm_compute. reflexivity.
  - destruct (Hc (client_of 2) bob) as (k & k' & Ek & E1 & Hg); [vm_compute; reflexivity|vm_compute; discriminate|].
    assert (k = bob4) as -> by (unfold bob4; rewrite Ek; reflexivity).
    exists s', k'. split; [exact E|]. split; [exact E1|]. split; [vm_compute; reflexivity|].
    assert (cd_local bob = false) as Hl by (vm_compute; reflexivity). unfold got_value in Hg. rewrite Hl in Hg. destruct Hg as [E3 _]. rewrite E3. vm_compute. reflexivity.
Defined.

(** ** A file of topics *)

Definition persistent_topic (h : Z) (name type : string) : ClientMessage jvalue :=
  PublishMsg h 0 name type {[ "persistent" := JBoolean true; "rank" := JUnsigned 3 ]} (opts false false).
Definition stored_ops : list server_op :=
  [OpSetLocal true; connect "alice";
   OpText 1 (calls_frame [persistent_topic 1 "/x" "int"; persistent_topic 2 "/r" "blob"; persistent_topic 3 "/b" "boolean[]";
                          publish 4 "/y" "int"]);
   OpBinary (fun _ => 0) 1 (value_frame 1 (int (-11) 5)); OpBinary (fun _ => 0) 1 (value_frame 4 (int 6 5));
   OpBinary (fun _ => 0) 1 (value_frame 2 (Value_make 0 (VRaw [u8 1; u8 2; u8 255; u8 0]) 7));
   OpBinary (fun _ => 0) 1 (value_frame 3 (Value_make 0 (VBooleanArray [1; 0; 1]) 7))].
Definition stored : server := match run stored_ops with Some (_, s) => s | None => SImpl_make [] end.
Definition stored_topics : list TopicData :=
  match for_map (uid_elements (s_topics stored)) topic stored with Some (tds, _) => tds | None => [] end.
Definition file : bytes := match DumpPersistent stored with Some (t, _) => t | None => [] end.

Lemma stored_run : run stored_ops = Some (tt, stored).
Proof. unfold stored. destruct (run stored_ops) as [[[] s]|] eqn:E; [reflexivity|]. vm_compute in E. discriminate E. Qed.
Lemma every_topic (P : TopicData -> bool) (s : server) : forallb (fun tt => P tt.2) (map_to_list (s_topicHeap s)) = true ->
  forall t td, s_topicHeap s !! t = Some td -> P td = true.
Proof.
  intros H t td E. rewrite forallb_forall in H. apply (H (t, td)), list_elem_of_In, elem_of_map_to_list, E.
Qed.
Definition stored_at (name : string) : TopicData :=
  default (TopicData_make EmptyString EmptyString ∅) (t ← s_nameTopics stored !! name; s_topicHeap stored !! t).

(** Three topics are written, and a new server that loads them has them. *)
Lemma persistent_roundtrip_witness : exists s' : server,
  LoadPersistent (fun _ => EmptyString) file (SImpl_make []) = Some (EmptyString, s') /\
  td_name <$> dumped stored_topics = ["/x"; "/r"; "/b"] /\
  (exists t td', s_nameTopics s' !! "/x" = Some t /\ s_topicHeap s' !! t = Some td' /\
     td_typeStr td' = "int" /\ td_persistent td' = true /\ data (td_lastValue td') = VInteger (-11)) /\
  recreated s' (stored_at "/r") /\ recreated s' (stored_at "/b").
Proof.
  assert (forall t td, s_topicHeap stored !! t = Some td ->
    (negb (is_dumped td) || (storable td && negb (is_meta_name (td_name td)))) = true) as Hall
    by (apply every_topic; vm_compute; reflexivity).
  destruct (persistent_roundtrip (fun _ => EmptyString) stored stored (SImpl_make []) file) as (_ & s' & E & Hr & _).
  - exists [], stored_ops. split; [exact I|]. split; [vm_compute; reflexivity|exact stored_run].
  - vm_compute. reflexivity.
  - intros t td Ht Hd. specialize (Hall t td Ht). rewrite Hd in Hall. cbn [negb orb] in Hall.
    apply andb_true_iff in Hall as [? ?%negb_true_iff]. split; assumption.
  - exists [], []. split; [exact I|]. split; reflexivity.
  - intros t td _ _. reflexivity.
  - exists s'. split; [exact E|]. split; [vm_compute; reflexivity|].
    assert (forall name t, s_nameTopics stored !! name = Some t -> s_topicHeap stored !! t = Some (stored_at name) ->
      is_dumped (stored_at name) = true -> recreated s' (stored_at name)) as Hn by (intros name t _; apply Hr).
    split; [|split; [eapply (Hn "/r")|eapply (Hn "/b")]; vm_compute; reflexivity].
    destruct (Hn "/x" _ ltac:(vm_compute; reflexivity) ltac:(vm_compute; reflexivity) ltac:(vm_compute; reflexivity))
      as (t & td' & E1 & E2 & _ & _ & E3 & _ & E4 & E5).
    exists t, td'. split; [exact E1|]. split; [exact E2|]. split; [exact E3|]. split; [exact E4|exact E5].
Defined.

(** ** What is not permitted *)

(** Two publishers with one uid, and then one of them gone: the second topic keeps a pointer to
    the publisher that has been deleted. *)
Definition publish_twice (second : Z) : list server_op :=
  two ++ [OpText 1 (calls_frame [publish 5 "/x" "int"; publish second "/y" "int"; unpublish 5; publish 7 "/y" "int"])].
(** A meta topic published by a client, and then no longer: the topic it belongs to keeps a
    pointer to it. *)
Definition publish_meta (name : string) : list server_op :=
  two ++ [OpText 1 (calls_frame [publish 1 name "int"; publish 2 "/x" "int"; unpublish 1; publish 3 "/x" "int"])].
Definition reserved_uid (uid : Z) : list server_op := two ++ [OpBinary (fun _ => 0) 1 (value_frame uid (int 1 1))].

Definition fails (ops : list server_op) : bool := negb (bool_decide (is_Some (run ops))).

(** The conditions of [server_safe] are needed, and a remote client can break them: with
    one publisher uid for two topics, or with a published topic that has the name of a meta
    topic, the server then uses a pointer to an object it has deleted; a value for the uid
    that is a reserved key of the map of publishers, and a change of the list of connections
    before [SetLocal], are undefined behaviour too.  The same sessions with another uid or
    name, or in the other order, run to the end. *)
Theorem server_conditions_needed :
  fails (publish_twice 5) = true /\ fails (publish_twice 6) = false /\
  fails (publish_meta "$pub$/x") = true /\ fails (publish_meta "pub/x") = false /\
  fails (reserved_uid (2 ^ 63 - 1)) = true /\ fails (reserved_uid 5) = false /\
  fails [OpConnectionsChanged []] = true /\ fails [OpSetLocal true; OpConnectionsChanged []] = false.
Proof. vm_compute. repeat split. Qed.

(** ** What is kept for too long *)

Definition subscribe_normal : ClientMessage jvalue := SubscribeMsg 1 ["/"] (opts false true).
Definition churn : list (ClientMessage jvalue) := concat (replicate 5 [publish 2 "/z" "int"; unpublish 2]).
(** "/x" has a value and goes, its id is used again for "/y", which gets a value. *)
Definition id_reused : list server_op :=
  two ++
  [OpText 2 (calls_frame [subscribe_normal]); OpText 1 (calls_frame [publish 1 "/x" "int"]);
   OpBinary (fun _ => 0) 1 (value_frame 1 (int 11 1)); OpText 1 (calls_frame (unpublish 1 :: churn)); connect "carol";
   OpText 1 (calls_frame [publish 3 "/y" "int"]); OpBinary (fun _ => 0) 1 (value_frame 3 (int 22 2))].
(** "/x" is announced to a client that unsubscribes, and goes; "/y" comes. *)
Definition address_reused : list server_op :=
  two ++
  [OpText 2 (calls_frame [subscribe_normal]); OpText 1 (calls_frame [publish 1 "/x" "int"]);
   OpText 2 (calls_frame [UnsubscribeMsg 1]); OpText 1 (calls_frame [unpublish 1; publish 2 "/y" "int"]);
   OpText 2 (calls_frame [subscribe_normal]); OpBinary (fun _ => 0) 1 (value_frame 2 (int 22 2))].

Inductive note := NAnnounce (name : string) (id : Z) | NUnannounce (name : string) | NValue (id : Z) (d : ValueData) | NOther.
Definition note_of (msg : ServerMessage jvalue) : note :=
  match msg with
  | AnnounceMsg name id _ _ _ => NAnnounce name id
  | UnannounceMsg name _ => NUnannounce name
  | ServerValueMsg id v => NValue id (data v)
  | _ => NOther
  end.
Definition is_z (n : note) : bool := match n with NAnnounce "/z" _ | NUnannounce "/z" => true | _ => false end.
Definition notes (r : option (unit * server)) (id : nat) : list note := List.filter (fun n => negb (is_z n)) (note_of <$> outgoing r id).

(** What a client is sent can be wrong when ids or addresses are used again.  The place of
    a queued value is remembered by topic id and not forgotten when the topic goes: the value
    22 of "/y" takes the place of the value 11 of "/x", so that the client is told 22 for "/x"
    and nothing for "/y".  That a topic has been announced is remembered by address and not
    forgotten for a client that has unsubscribed: if "/y" is where "/x" was, its value is sent
    to the client though "/y" is never announced to it. *)
Theorem stale_state_misleads :
  notes (run id_reused) 2 = [NAnnounce "/x" 7; NValue 7 (VInteger 22); NUnannounce "/x"; NAnnounce "/y" 7] /\
  notes (run (MA := reusing) address_reused) 2 = [NAnnounce "/x" 7; NValue 10 (VInteger 22)] /\
  notes (run address_reused) 2 = [NAnnounce "/x" 7; NAnnounce "/y" 10; NValue 10 (VInteger 22)].
Proof. vm_compute. repeat split. Qed.

(** ** Clients of version 3 *)

Definition connect3 : M server unit := AddClient3 "1.2.3.5" false UvStreamConnection3_make ;; skip.
Definition hello3 : bytes := WireEncodeClientHello "old" 0x0300 ++ WireEncodeClientHelloDone.
Definition ops (l : list server_op) : M server unit := for_each l server_run.
Definition in3 (id : nat) (data : bytes) : M server unit := ProcessIncomingBinary (fun _ => 0) id data.

(** What the client has been sent, and what is queued for it *)
Definition sent3 (r : option (unit * server)) (id : nat) : bytes :=
  match r with
  | Some (_, s) =>
      match c ← default None (s_clients s !! id); s_clientHeap s !! c with
      | Some cd => match cd_kind cd with K3 k => concat (x_sent (k3_wire k)) ++ x_buffers (k3_wire k) ++ concat ((fun m => (WireEncode m).2) <$> k3_outgoing k) | _ => [] end
      | None => []
      end
  | None => []
  end.
Definition value_first : M server unit :=
  ops (two ++ [OpText 1 (calls_frame [publish 1 "/x" "int"]); OpBinary (fun _ => 0) 1 (value_frame 1 (int 11 1))]) ;;
  connect3 ;; in3 3 hello3.
Definition value_last : M server unit :=
  ops (two ++ [OpText 1 (calls_frame [publish 1 "/x" "int"])]) ;;
  connect3 ;; in3 3 hello3 ;;
  ops [OpBinary (fun _ => 0) 1 (value_frame 1 (int 11 1))].

Definition x3 : bytes := (WireEncodeEntryAssign "/x" 7 1 (MkValue (VInteger 11) 1 1) 0).2.
(** A client of version 3 that connects is told of a topic of another client if the topic
    has a value by then, and if it has none, it is not told of the topic ever: it is not
    subscribed to the topic, and so a later value is not sent to it either. *)
Theorem nt3_misses_topic :
  sent3 (value_first (SImpl_make [])) 3 = WireEncodeServerHello 0 "server" ++ x3 ++ WireEncodeServerHelloDone /\
  sent3 (value_last (SImpl_make [])) 3 = WireEncodeServerHello 0 "server" ++ WireEncodeServerHelloDone.
Proof. vm_compute. split; reflexivity. Qed.

Definition hello_state : server := match (connect3 (SImpl_make [])) with Some (_, s) => s | None => SImpl_make [] end.
Definition c3 : addr := default O (default None (s_clients hello_state !! 1%nat)).
Lemma nt3_handshake_witness : exists s', call3_run c3 (ClientHello "old" 0x0300) hello_state = Some (None, s') /\
  state3 s' c3 = Some kStateServerHelloComplete.
Proof.
  destruct (call3_run c3 (ClientHello "old" 0x0300) hello_state) as [[err s']|] eqn:E; [|vm_compute in E; discriminate E].
  destruct (nt3_handshake hello_state c3 kStateInitial (ClientHello "old" 0x0300) err s') as (He & Hs & _);
    [vm_compute; reflexivity|exact E|].
  exists s'. rewrite (proj2 He) by reflexivity. split; [reflexivity|exact Hs].
Defined.
End ServerExample.
