(* ===== verification/Http.v ===== *)
(** * Http: the HTTP parser ([wpinet/cpp/http_parser.cpp])

    [http_parser_execute] reads a piece of a stream of HTTP messages byte by byte, calls the
    callbacks of [http_parser_settings] for what it finds, and keeps where it is in an
    [http_parser], so that the next piece can be read when it comes.

    A mark, the pointer to where the data of a callback begins, is modelled by the bytes from
    there to the current byte: a mark that is set grows as the current byte advances.  An
    assertion that fails is the result [Failed].  The callbacks are those of
    [http_parser_settings], all of them set, which [HttpParser] does; they may change the parser
    and a state of their own. *)

From Stdlib Require Import Strings.Ascii.
From S2P Require Import Prelude.

Local Open Scope Z_scope.

(** ** Characters *)

Definition eqc (ch : byte) (c : Ascii.ascii) : bool := ub ch =? Z.of_nat (Ascii.nat_of_ascii c).
Arguments eqc _ _%_char_scope.
Definition CR (ch : byte) : bool := ub ch =? 0x0d.
Definition LF (ch : byte) : bool := ub ch =? 0x0a.
Definition SP (ch : byte) : bool := ub ch =? 0x20.
Definition HT (ch : byte) : bool := ub ch =? 0x09.

Definition LOWER (c : byte) : byte := u8 (Z.lor (ub c) 0x20).
Definition between (c : byte) (lo hi : Ascii.ascii) : bool :=
  (Z.of_nat (Ascii.nat_of_ascii lo) <=? ub c) && (ub c <=? Z.of_nat (Ascii.nat_of_ascii hi)).
Arguments between _ _%_char_scope _%_char_scope.
Definition IS_ALPHA (c : byte) : bool := between (LOWER c) "a" "z".
Definition IS_NUM (c : byte) : bool := between c "0" "9".
Definition IS_ALPHANUM (c : byte) : bool := IS_ALPHA c || IS_NUM c.
Definition IS_HEX (c : byte) : bool := IS_NUM c || between (LOWER c) "a" "f".
Definition one_of (c : byte) (s : string) : bool := existsb (fun b => bool_decide (c = b)) (bytes_of_string s).
Definition IS_MARK (c : byte) : bool := one_of c "-_.!~*'()".
Definition IS_USERINFO_CHAR (c : byte) : bool := IS_ALPHANUM c || IS_MARK c || one_of c "%;:&=+$,".
Definition IS_HOST_CHAR (c : byte) : bool := IS_ALPHANUM c || eqc c "." || eqc c "-".

(** The characters of tokens, in lower case; 0 for the others *)
Definition tokens : list Z :=
  [0;    0;    0;    0;    0;    0;    0;    0;
   0;    0;    0;    0;    0;    0;    0;    0;
   0;    0;    0;    0;    0;    0;    0;    0;
   0;    0;    0;    0;    0;    0;    0;    0;
   0x20; 0x21; 0;    0x23; 0x24; 0x25; 0x26; 0x27;
   0;    0;    0x2a; 0x2b; 0;    0x2d; 0x2e; 0;
   0x30; 0x31; 0x32; 0x33; 0x34; 0x35; 0x36; 0x37;
   0x38; 0x39; 0;    0;    0;    0;    0;    0;
   0;    0x61; 0x62; 0x63; 0x64; 0x65; 0x66; 0x67;
   0x68; 0x69; 0x6a; 0x6b; 0x6c; 0x6d; 0x6e; 0x6f;
   0x70; 0x71; 0x72; 0x73; 0x74; 0x75; 0x76; 0x77;
   0x78; 0x79; 0x7a; 0;    0;    0;    0x5e; 0x5f;
   0x60; 0x61; 0x62; 0x63; 0x64; 0x65; 0x66; 0x67;
   0x68; 0x69; 0x6a; 0x6b; 0x6c; 0x6d; 0x6e; 0x6f;
   0x70; 0x71; 0x72; 0x73; 0x74; 0x75; 0x76; 0x77;
   0x78; 0x79; 0x7a; 0;    0x7c; 0;    0x7e; 0].
Definition TOKEN (c : byte) : byte := if SP c then u8 0 else u8 (default 0 (tokens !! Z.to_nat (ub c))).
Definition nul (c : byte) : bool := ub c =? 0.

(** -1 stands for a character that is no digit; the table ends at 127, so that the others have 0. *)
Definition unhex (c : byte) : Z :=
  if 128 <=? ub c then 0
  else if between c "0" "9" then ub c - 0x30
  else if between c "A" "F" then ub c - 0x41 + 10
  else if between c "a" "f" then ub c - 0x61 + 10
  else -1.

(** A bitmap of the characters of URLs, by groups of eight *)
Definition normal_url_char : list Z :=
  [0; 0; 0; 0; 246; 255; 255; 127; 255; 255; 255; 255; 255; 255; 255; 127].
Definition IS_URL_CHAR (c : byte) : bool :=
  Z.testbit (default 0 (normal_url_char !! Z.to_nat (Z.shiftr (ub c) 3))) (Z.land (ub c) 7).

Definition IS_HEADER_CHAR (ch : byte) : bool := CR ch || LF ch || HT ch || ((31 <? ub ch) && negb (ub ch =? 127)).

(** ** The parser *)

Definition HTTP_MAX_HEADER_SIZE : Z := 80 * 1024.
Definition ULLONG_MAX : Z := 2 ^ 64 - 1.

Inductive http_method :=
| HTTP_DELETE | HTTP_GET | HTTP_HEAD | HTTP_POST | HTTP_PUT | HTTP_CONNECT | HTTP_OPTIONS | HTTP_TRACE
| HTTP_COPY | HTTP_LOCK | HTTP_MKCOL | HTTP_MOVE | HTTP_PROPFIND | HTTP_PROPPATCH | HTTP_SEARCH | HTTP_UNLOCK
| HTTP_BIND | HTTP_REBIND | HTTP_UNBIND | HTTP_ACL | HTTP_REPORT | HTTP_MKACTIVITY | HTTP_CHECKOUT | HTTP_MERGE
| HTTP_MSEARCH | HTTP_NOTIFY | HTTP_SUBSCRIBE | HTTP_UNSUBSCRIBE | HTTP_PATCH | HTTP_PURGE | HTTP_MKCALENDAR
| HTTP_LINK | HTTP_UNLINK | HTTP_SOURCE.
#[global] Instance http_method_eq_dec : EqDecision http_method.
Proof. solve_decision. Defined.

Definition http_method_str (m : http_method) : string :=
  match m with
  | HTTP_DELETE => "DELETE" | HTTP_GET => "GET" | HTTP_HEAD => "HEAD" | HTTP_POST => "POST" | HTTP_PUT => "PUT"
  | HTTP_CONNECT => "CONNECT" | HTTP_OPTIONS => "OPTIONS" | HTTP_TRACE => "TRACE" | HTTP_COPY => "COPY"
  | HTTP_LOCK => "LOCK" | HTTP_MKCOL => "MKCOL" | HTTP_MOVE => "MOVE" | HTTP_PROPFIND => "PROPFIND"
  | HTTP_PROPPATCH => "PROPPATCH" | HTTP_SEARCH => "SEARCH" | HTTP_UNLOCK => "UNLOCK" | HTTP_BIND => "BIND"
  | HTTP_REBIND => "REBIND" | HTTP_UNBIND => "UNBIND" | HTTP_ACL => "ACL" | HTTP_REPORT => "REPORT"
  | HTTP_MKACTIVITY => "MKACTIVITY" | HTTP_CHECKOUT => "CHECKOUT" | HTTP_MERGE => "MERGE"
  | HTTP_MSEARCH => "M-SEARCH" | HTTP_NOTIFY => "NOTIFY" | HTTP_SUBSCRIBE => "SUBSCRIBE"
  | HTTP_UNSUBSCRIBE => "UNSUBSCRIBE" | HTTP_PATCH => "PATCH" | HTTP_PURGE => "PURGE"
  | HTTP_MKCALENDAR => "MKCALENDAR" | HTTP_LINK => "LINK" | HTTP_UNLINK => "UNLINK" | HTTP_SOURCE => "SOURCE"
  end.

Inductive http_parser_type := HTTP_REQUEST | HTTP_RESPONSE | HTTP_BOTH.
#[global] Instance http_parser_type_eq_dec : EqDecision http_parser_type.
Proof. solve_decision. Defined.

(** The bits of the flags *)
Definition F_CHUNKED : Z := 0.
Definition F_CONNECTION_KEEP_ALIVE : Z := 1.
Definition F_CONNECTION_CLOSE : Z := 2.
Definition F_CONNECTION_UPGRADE : Z := 3.
Definition F_TRAILING : Z := 4.
Definition F_UPGRADE : Z := 5.
Definition F_SKIPBODY : Z := 6.
Definition F_CONTENTLENGTH : Z := 7.

Inductive http_data_cb := cb_url | cb_status | cb_header_field | cb_header_value | cb_body.
Inductive http_cb := cb_message_begin | cb_headers_complete | cb_message_complete | cb_chunk_header | cb_chunk_complete.

Inductive http_errno :=
| HPE_OK | HPE_CB (cb : http_cb) | HPE_CB_data (cb : http_data_cb) | HPE_INVALID_EOF_STATE | HPE_HEADER_OVERFLOW
| HPE_CLOSED_CONNECTION | HPE_INVALID_VERSION | HPE_INVALID_STATUS | HPE_INVALID_METHOD | HPE_INVALID_URL
| HPE_LF_EXPECTED | HPE_INVALID_HEADER_TOKEN | HPE_INVALID_CONTENT_LENGTH | HPE_UNEXPECTED_CONTENT_LENGTH
| HPE_INVALID_CHUNK_SIZE | HPE_INVALID_CONSTANT | HPE_STRICT | HPE_PAUSED.
#[global] Instance http_data_cb_eq_dec : EqDecision http_data_cb.
Proof. solve_decision. Defined.
#[global] Instance http_cb_eq_dec : EqDecision http_cb.
Proof. solve_decision. Defined.
#[global] Instance http_errno_eq_dec : EqDecision http_errno.
Proof. solve_decision. Defined.

Inductive state :=
| s_dead | s_start_req_or_res | s_res_or_resp_H | s_start_res | s_res_H | s_res_HT | s_res_HTT | s_res_HTTP
| s_res_http_major | s_res_http_dot | s_res_http_minor | s_res_http_end | s_res_first_status_code | s_res_status_code
| s_res_status_start | s_res_status | s_res_line_almost_done
| s_start_req | s_req_method | s_req_spaces_before_url | s_req_schema | s_req_schema_slash | s_req_schema_slash_slash
| s_req_server_start | s_req_server | s_req_server_with_at | s_req_path | s_req_query_string_start | s_req_query_string
| s_req_fragment_start | s_req_fragment | s_req_http_start | s_req_http_H | s_req_http_HT | s_req_http_HTT
| s_req_http_HTTP | s_req_http_major | s_req_http_dot | s_req_http_minor | s_req_http_end | s_req_line_almost_done
| s_header_field_start | s_header_field | s_header_value_discard_ws | s_header_value_discard_ws_almost_done
| s_header_value_discard_lws | s_header_value_start | s_header_value | s_header_value_lws | s_header_almost_done
| s_chunk_size_start | s_chunk_size | s_chunk_parameters | s_chunk_size_almost_done
| s_headers_almost_done | s_headers_done
| s_chunk_data | s_chunk_data_almost_done | s_chunk_data_done | s_body_identity | s_body_identity_eof | s_message_done.
#[global] Instance state_eq_dec : EqDecision state.
Proof. solve_decision. Defined.

Definition PARSING_HEADER (s : state) : bool :=
  match s with
  | s_chunk_data | s_chunk_data_almost_done | s_chunk_data_done | s_body_identity | s_body_identity_eof | s_message_done => false
  | _ => true
  end.

Inductive header_states :=
| h_general | h_C | h_CO | h_CON
| h_matching_connection | h_matching_proxy_connection | h_matching_content_length | h_matching_transfer_encoding
| h_matching_upgrade
| h_connection | h_content_length | h_content_length_num | h_content_length_ws | h_transfer_encoding | h_upgrade
| h_matching_transfer_encoding_chunked | h_matching_connection_token_start | h_matching_connection_keep_alive
| h_matching_connection_close | h_matching_connection_upgrade | h_matching_connection_token
| h_transfer_encoding_chunked | h_connection_keep_alive | h_connection_close | h_connection_upgrade.
#[global] Instance header_states_eq_dec : EqDecision header_states.
Proof. solve_decision. Defined.

Record http_parser := MkParser {
  hp_type : http_parser_type;
  hp_flags : Z;
  hp_state : state;
  hp_header_state : header_states;
  hp_index : Z;
  hp_lenient : bool;
  hp_nread : Z;
  hp_content_length : Z;
  hp_major : Z;
  hp_minor : Z;
  hp_status_code : Z;
  hp_method : http_method;
  hp_errno : http_errno;
  hp_is_upgrade : bool;
}.
#[global] Instance eta_http_parser : Eta http_parser := fun p =>
  MkParser (hp_type p) (hp_flags p) (hp_state p) (hp_header_state p) (hp_index p) (hp_lenient p) (hp_nread p)
    (hp_content_length p) (hp_major p) (hp_minor p) (hp_status_code p) (hp_method p) (hp_errno p) (hp_is_upgrade p).

Definition has_flag (p : http_parser) (f : Z) : bool := Z.testbit (hp_flags p) f.
Definition set_flag (f : Z) (flags : Z) : Z := Z.lor flags (Z.shiftl 1 f).

Definition start_state (p : http_parser) : state :=
  match hp_type p with HTTP_REQUEST => s_start_req | _ => s_start_res end.

Definition http_message_needs_eof (p : http_parser) : bool :=
  match hp_type p with
  | HTTP_REQUEST => false
  | _ =>
      if (hp_status_code p `div` 100 =? 1) || (hp_status_code p =? 204) || (hp_status_code p =? 304) || has_flag p F_SKIPBODY
      then false
      else if has_flag p F_CHUNKED || negb (hp_content_length p =? ULLONG_MAX) then false
      else true
  end.
Definition http_should_keep_alive (p : http_parser) : bool :=
  if (0 <? hp_major p) && (0 <? hp_minor p) then
    if has_flag p F_CONNECTION_CLOSE then false else negb (http_message_needs_eof p)
  else if negb (has_flag p F_CONNECTION_KEEP_ALIVE) then false else negb (http_message_needs_eof p).
Definition NEW_MESSAGE (p : http_parser) : state := if http_should_keep_alive p then start_state p else s_dead.

Definition http_parser_init (t : http_parser_type) : http_parser := {|
  hp_type := t;
  hp_flags := 0;
  hp_state := match t with HTTP_REQUEST => s_start_req | HTTP_RESPONSE => s_start_res | HTTP_BOTH => s_start_req_or_res end;
  hp_header_state := h_general;
  hp_index := 0;
  hp_lenient := false;
  hp_nread := 0;
  hp_content_length := 0;
  hp_major := 0;
  hp_minor := 0;
  hp_status_code := 0;
  hp_method := HTTP_DELETE;
  hp_errno := HPE_OK;
  hp_is_upgrade := false;
|}.
Definition http_body_is_final (p : http_parser) : bool := bool_decide (hp_state p = s_message_done).

(** Pausing.  [None] is the assertion that the parser is not in an error state. *)
Definition http_parser_pause (p : http_parser) (paused : bool) : option http_parser :=
  match hp_errno p with
  | HPE_OK | HPE_PAUSED => Some (p <| hp_errno := if paused then HPE_PAUSED else HPE_OK |>)
  | _ => None
  end.

(** ** URLs *)

Definition parse_url_char (s : state) (ch : byte) : state :=
  if SP ch || CR ch || LF ch then s_dead
  else if HT ch || (ub ch =? 0x0c) then s_dead
  else
    match s with
    | s_req_spaces_before_url =>
        if eqc ch "/" || eqc ch "*" then s_req_path else if IS_ALPHA ch then s_req_schema else s_dead
    | s_req_schema => if IS_ALPHA ch then s else if eqc ch ":" then s_req_schema_slash else s_dead
    | s_req_schema_slash => if eqc ch "/" then s_req_schema_slash_slash else s_dead
    | s_req_schema_slash_slash => if eqc ch "/" then s_req_server_start else s_dead
    | s_req_server_with_at | s_req_server_start | s_req_server =>
        if bool_decide (s = s_req_server_with_at) && eqc ch "@" then s_dead
        else if eqc ch "/" then s_req_path
        else if eqc ch "?" then s_req_query_string_start
        else if eqc ch "@" then s_req_server_with_at
        else if IS_USERINFO_CHAR ch || eqc ch "[" || eqc ch "]" then s_req_server
        else s_dead
    | s_req_path =>
        if IS_URL_CHAR ch then s
        else if eqc ch "?" then s_req_query_string_start
        else if eqc ch "#" then s_req_fragment_start
        else s_dead
    | s_req_query_string_start | s_req_query_string =>
        if IS_URL_CHAR ch then s_req_query_string
        else if eqc ch "?" then s_req_query_string
        else if eqc ch "#" then s_req_fragment_start
        else s_dead
    | s_req_fragment_start =>
        if IS_URL_CHAR ch then s_req_fragment
        else if eqc ch "?" then s_req_fragment
        else if eqc ch "#" then s
        else s_dead
    | s_req_fragment => if IS_URL_CHAR ch then s else if eqc ch "?" || eqc ch "#" then s else s_dead
    | _ => s_dead
    end.

(** ** Executing the parser *)

(** The callbacks get the parser and may change it; [U] is what else they change.  [None] is a
    failed assertion. *)
Record http_parser_settings (U : Type) := MkSettings {
  on_cb : http_cb -> http_parser -> U -> option (Z * http_parser * U);
  on_data : http_data_cb -> http_parser -> bytes -> U -> option (Z * http_parser * U);
}.
Arguments on_cb {U}.
Arguments on_data {U}.

(** The bytes from a mark to the current byte *)
Record marks := MkMarks {
  url_mark : option bytes;
  status_mark : option bytes;
  header_field_mark : option bytes;
  header_value_mark : option bytes;
  body_mark : option bytes;
}.
#[global] Instance eta_marks : Eta marks := fun m =>
  MkMarks (url_mark m) (status_mark m) (header_field_mark m) (header_value_mark m) (body_mark m).
Definition no_marks : marks := MkMarks None None None None None.
Definition mark_of (cb : http_data_cb) (m : marks) : option bytes :=
  match cb with
  | cb_url => url_mark m | cb_status => status_mark m | cb_header_field => header_field_mark m
  | cb_header_value => header_value_mark m | cb_body => body_mark m
  end.
Definition set_mark (cb : http_data_cb) (v : option bytes) (m : marks) : marks :=
  match cb with
  | cb_url => m <| url_mark := v |> | cb_status => m <| status_mark := v |>
  | cb_header_field => m <| header_field_mark := v |> | cb_header_value => m <| header_value_mark := v |>
  | cb_body => m <| body_mark := v |>
  end.
Definition extend (s : bytes) (o : option bytes) : option bytes := match o with Some b => Some (b ++ s) | None => None end.
Definition advance_marks (s : bytes) (m : marks) : marks :=
  MkMarks (extend s (url_mark m)) (extend s (status_mark m)) (extend s (header_field_mark m))
    (extend s (header_value_mark m)) (extend s (body_mark m)).

(** The local variables of [http_parser_execute]: the parser, [p_state], [nread], the marks,
    and the state of the callbacks *)
Record exec (U : Type) := MkExec {
  x_parser : http_parser;
  x_state : state;
  x_nread : Z;
  x_marks : marks;
  x_user : U;
}.
Arguments MkExec {U}.
Arguments x_parser {U}.
Arguments x_state {U}.
Arguments x_nread {U}.
Arguments x_marks {U}.
Arguments x_user {U}.
#[global] Instance eta_exec U : Eta (exec U) := fun x => MkExec (x_parser x) (x_state x) (x_nread x) (x_marks x) (x_user x).

(** What a case of the switch does: it goes on, it returns from the function with or without
    the current byte, or an assertion fails. *)
Inductive res (U A : Type) :=
| Ok (a : A) (x : exec U)
| Exit (consume : bool) (x : exec U)
| Failed.
Arguments Ok {U A}.
Arguments Exit {U A}.
Arguments Failed {U A}.
Definition E (U A : Type) : Type := exec U -> res U A.

Definition eret {U A} (a : A) : E U A := fun x => Ok a x.
Definition ebind {U A B} (m : E U A) (k : A -> E U B) : E U B := fun x =>
  match m x with Ok a x => k a x | Exit c x => Exit c x | Failed => Failed end.
Declare Scope exec_scope.
Delimit Scope exec_scope with exec.
Notation "'let!' x ':=' m 'in' k" := (ebind m (fun x => k))
  (at level 10, x name, m at level 100, k at level 200, format "'[v' 'let!'  x  ':='  m  'in' '/' k ']'") : exec_scope.
Notation "m1 ;; m2" := (ebind m1 (fun _ => m2)) : exec_scope.
Local Open Scope exec_scope.

(** [break], which goes to the next byte, and [REEXECUTE] *)
Inductive action := Break | Reexecute.

Section Execute.
Context {U : Type} (settings : http_parser_settings U).

Definition parser : E U http_parser := fun x => Ok (x_parser x) x.
Definition update (f : http_parser -> http_parser) : E U unit := fun x => Ok tt (x <| x_parser ::= f |>).
Definition CURRENT_STATE : E U state := fun x => Ok (x_state x) x.
Definition UPDATE_STATE (s : state) : E U unit := fun x => Ok tt (x <| x_state := s |>).
Definition RETURN {A} (consume : bool) : E U A := fun x =>
  Exit consume (x <| x_parser ::= fun p => p <| hp_nread := x_nread x |> <| hp_state := x_state x |> |>).
Definition SET_ERRNO (e : http_errno) : E U unit := fun x =>
  Ok tt (x <| x_parser ::= fun p => p <| hp_nread := x_nread x |> <| hp_errno := e |> |>).
Definition error {A} (e : http_errno) : E U A := SET_ERRNO e ;; RETURN false.
Definition require (b : bool) (e : http_errno) : E U unit := if b then eret tt else error e.
Definition STRICT_CHECK (cond : bool) : E U unit := if cond then error HPE_STRICT else eret tt.
Definition assert (b : bool) : E U unit := if b then eret tt else fun _ => Failed.
Definition break : E U action := eret Break.
Definition REEXECUTE : E U action := eret Reexecute.

Definition COUNT_HEADER_SIZE (v : Z) : E U unit := fun x =>
  let nread := wrap 32 (x_nread x + v) in
  let x := x <| x_nread := nread |> in
  if HTTP_MAX_HEADER_SIZE <? nread then error HPE_HEADER_OVERFLOW x else Ok tt x.
Definition reset_nread : E U unit := fun x => Ok tt (x <| x_nread := 0 |> <| x_parser ::= fun p => p <| hp_nread := 0 |> |>).

Definition MARK (cb : http_data_cb) : E U unit := fun x =>
  match mark_of cb (x_marks x) with
  | Some _ => Ok tt x
  | None => Ok tt (x <| x_marks ::= set_mark cb (Some []) |>)
  end.

(** What follows the call of a callback: a result other than 0 is an error, the state is read
    back from the parser, and a parser that has an error or is paused ends the function. *)
Definition called (e : http_errno) (consume : bool) (r : option (Z * http_parser * U)) (x : exec U) : res U unit :=
  match r with
  | Some (r, p, u) =>
      let p := if r =? 0 then p else p <| hp_nread := x_nread x |> <| hp_errno := e |> in
      let x := x <| x_parser := p |> <| x_state := hp_state p |> <| x_user := u |> in
      match hp_errno p with HPE_OK => Ok tt x | _ => Exit consume x end
  | None => Failed
  end.
Definition saved (x : exec U) : http_parser := x_parser x <| hp_state := x_state x |>.
Definition CALLBACK_NOTIFY_ (consume : bool) (cb : http_cb) : E U unit := fun x =>
  match hp_errno (x_parser x) with
  | HPE_OK => called (HPE_CB cb) consume (on_cb settings cb (saved x) (x_user x)) x
  | _ => Failed
  end.
Definition CALLBACK_NOTIFY : http_cb -> E U unit := CALLBACK_NOTIFY_ true.
Definition CALLBACK_NOTIFY_NOADVANCE : http_cb -> E U unit := CALLBACK_NOTIFY_ false.
(** [more] is the part of the data from the current byte on. *)
Definition CALLBACK_DATA_ (consume : bool) (more : bytes) (cb : http_data_cb) : E U unit := fun x =>
  match hp_errno (x_parser x) with
  | HPE_OK =>
      match mark_of cb (x_marks x) with
      | None => Ok tt x
      | Some s =>
          ebind (called (HPE_CB_data cb) consume (on_data settings cb (saved x) (s ++ more) (x_user x)))
            (fun _ x => Ok tt (x <| x_marks ::= set_mark cb None |>)) x
      end
  | _ => Failed
  end.
Definition CALLBACK_DATA : http_data_cb -> E U unit := CALLBACK_DATA_ true [].
Definition CALLBACK_DATA_NOADVANCE : http_data_cb -> E U unit := CALLBACK_DATA_ false [].

(** *** The first line of a response *)

Definition new_message (p : http_parser) : http_parser := p <| hp_flags := 0 |> <| hp_content_length := ULLONG_MAX |>.
Definition goto (s : state) : E U action := UPDATE_STATE s ;; break.
Definition again (s : state) : E U action := UPDATE_STATE s ;; REEXECUTE.

Definition case_dead (ch : byte) : E U action := if CR ch || LF ch then break else error HPE_CLOSED_CONNECTION.

Definition case_start_req_or_res (ch : byte) : E U action :=
  if CR ch || LF ch then break
  else
    update new_message ;;
    if eqc ch "H" then UPDATE_STATE s_res_or_resp_H ;; CALLBACK_NOTIFY cb_message_begin ;; break
    else update (fun p => p <| hp_type := HTTP_REQUEST |>) ;; again s_start_req.

Definition case_res_or_resp_H (ch : byte) : E U action :=
  if eqc ch "T" then update (fun p => p <| hp_type := HTTP_RESPONSE |>) ;; goto s_res_HT
  else
    require (eqc ch "E") HPE_INVALID_CONSTANT ;;
    update (fun p => p <| hp_type := HTTP_REQUEST |> <| hp_method := HTTP_HEAD |> <| hp_index := 2 |>) ;;
    goto s_req_method.

Definition case_start_res (ch : byte) : E U action :=
  update new_message ;;
  (if eqc ch "H" then UPDATE_STATE s_res_H
   else if CR ch || LF ch then eret tt
   else error HPE_INVALID_CONSTANT) ;;
  CALLBACK_NOTIFY cb_message_begin ;; break.

(** A letter of the constant that must follow, in strict mode *)
Definition case_letter (c : ascii) (next : state) (ch : byte) : E U action := STRICT_CHECK (negb (eqc ch c)) ;; goto next.
Arguments case_letter _%_char_scope.
Definition digit (ch : byte) : Z := ub ch - 0x30.
Definition case_http_major (next : state) (ch : byte) : E U action :=
  require (IS_NUM ch) HPE_INVALID_VERSION ;; update (fun p => p <| hp_major := digit ch |>) ;; goto next.
Definition case_http_dot (next : state) (ch : byte) : E U action := require (eqc ch ".") HPE_INVALID_VERSION ;; goto next.
Definition case_http_minor (next : state) (ch : byte) : E U action :=
  require (IS_NUM ch) HPE_INVALID_VERSION ;; update (fun p => p <| hp_minor := digit ch |>) ;; goto next.
Definition case_res_http_end (ch : byte) : E U action := require (SP ch) HPE_INVALID_VERSION ;; goto s_res_first_status_code.

Definition case_res_first_status_code (ch : byte) : E U action :=
  if negb (IS_NUM ch) then (if SP ch then break else error HPE_INVALID_STATUS)
  else update (fun p => p <| hp_status_code := digit ch |>) ;; goto s_res_status_code.
Definition case_res_status_code (ch : byte) : E U action :=
  if negb (IS_NUM ch) then
    if SP ch then goto s_res_status_start
    else if CR ch || LF ch then again s_res_status_start
    else error HPE_INVALID_STATUS
  else
    update (fun p => p <| hp_status_code ::= fun c => wrap 16 (c * 10 + digit ch) |>) ;;
    let! p := parser in
    if 999 <? hp_status_code p then error HPE_INVALID_STATUS else break.
Definition case_res_status_start (ch : byte) : E U action :=
  MARK cb_status ;; UPDATE_STATE s_res_status ;; update (fun p => p <| hp_index := 0 |>) ;;
  if CR ch || LF ch then REEXECUTE else break.
Definition case_res_status (ch : byte) : E U action :=
  if CR ch then UPDATE_STATE s_res_line_almost_done ;; CALLBACK_DATA cb_status ;; break
  else if LF ch then UPDATE_STATE s_header_field_start ;; CALLBACK_DATA cb_status ;; break
  else break.
Definition case_res_line_almost_done (ch : byte) : E U action := STRICT_CHECK (negb (LF ch)) ;; goto s_header_field_start.

(** *** The first line of a request *)

(** The method a first letter stands for, until a letter decides for another *)
Definition first_method (ch : byte) : option http_method :=
  if eqc ch "A" then Some HTTP_ACL else if eqc ch "B" then Some HTTP_BIND else if eqc ch "C" then Some HTTP_CONNECT
  else if eqc ch "D" then Some HTTP_DELETE else if eqc ch "G" then Some HTTP_GET else if eqc ch "H" then Some HTTP_HEAD
  else if eqc ch "L" then Some HTTP_LOCK else if eqc ch "M" then Some HTTP_MKCOL else if eqc ch "N" then Some HTTP_NOTIFY
  else if eqc ch "O" then Some HTTP_OPTIONS else if eqc ch "P" then Some HTTP_POST else if eqc ch "R" then Some HTTP_REPORT
  else if eqc ch "S" then Some HTTP_SUBSCRIBE else if eqc ch "T" then Some HTTP_TRACE else if eqc ch "U" then Some HTTP_UNLOCK
  else None.
Definition next_method (m : http_method) (index : Z) (ch : byte) : option http_method :=
  match m with
  | HTTP_POST =>
      if (index =? 1) && eqc ch "U" then Some HTTP_PUT else if (index =? 1) && eqc ch "A" then Some HTTP_PATCH
      else if (index =? 1) && eqc ch "R" then Some HTTP_PROPFIND else None
  | HTTP_PUT => if (index =? 2) && eqc ch "R" then Some HTTP_PURGE else None
  | HTTP_CONNECT =>
      if (index =? 1) && eqc ch "H" then Some HTTP_CHECKOUT else if (index =? 2) && eqc ch "P" then Some HTTP_COPY else None
  | HTTP_MKCOL =>
      if (index =? 1) && eqc ch "O" then Some HTTP_MOVE else if (index =? 1) && eqc ch "E" then Some HTTP_MERGE
      else if (index =? 1) && eqc ch "-" then Some HTTP_MSEARCH else if (index =? 2) && eqc ch "A" then Some HTTP_MKACTIVITY
      else if (index =? 3) && eqc ch "A" then Some HTTP_MKCALENDAR else None
  | HTTP_SUBSCRIBE =>
      if (index =? 1) && eqc ch "E" then Some HTTP_SEARCH else if (index =? 1) && eqc ch "O" then Some HTTP_SOURCE else None
  | HTTP_REPORT => if (index =? 2) && eqc ch "B" then Some HTTP_REBIND else None
  | HTTP_PROPFIND => if (index =? 4) && eqc ch "P" then Some HTTP_PROPPATCH else None
  | HTTP_LOCK => if (index =? 1) && eqc ch "I" then Some HTTP_LINK else None
  | HTTP_UNLOCK =>
      if (index =? 2) && eqc ch "S" then Some HTTP_UNSUBSCRIBE else if (index =? 2) && eqc ch "B" then Some HTTP_UNBIND
      else if (index =? 3) && eqc ch "I" then Some HTTP_UNLINK else None
  | _ => None
  end.

Definition case_start_req (ch : byte) : E U action :=
  if CR ch || LF ch then break
  else
    update new_message ;;
    require (IS_ALPHA ch) HPE_INVALID_METHOD ;;
    update (fun p => p <| hp_method := HTTP_DELETE |> <| hp_index := 1 |>) ;;
    match first_method ch with
    | None => error HPE_INVALID_METHOD
    | Some m =>
        update (fun p => p <| hp_method := m |>) ;;
        UPDATE_STATE s_req_method ;; CALLBACK_NOTIFY cb_message_begin ;; break
    end.

(** The character of a C string at an index; the terminating 0 follows the last one. *)
Definition char_at (s : string) (i : Z) : byte := default (u8 0) (bytes_of_string s !! Z.to_nat i).
Definition next_index (p : http_parser) : http_parser := p <| hp_index ::= fun i => wrap 7 (i + 1) |>.
Definition case_req_method (ch : byte) : E U action :=
  require (negb (nul ch)) HPE_INVALID_METHOD ;;
  let! p := parser in
  let c := char_at (http_method_str (hp_method p)) (hp_index p) in
  (if SP ch && nul c then UPDATE_STATE s_req_spaces_before_url
   else if ub ch =? ub c then eret tt
   else if between ch "A" "Z" || eqc ch "-" then
     match next_method (hp_method p) (hp_index p) ch with
     | Some m => update (fun p => p <| hp_method := m |>)
     | None => error HPE_INVALID_METHOD
     end
   else error HPE_INVALID_METHOD) ;;
  update next_index ;; break.

Definition url_char (ch : byte) : E U action :=
  let! s := CURRENT_STATE in
  UPDATE_STATE (parse_url_char s ch) ;;
  let! s := CURRENT_STATE in
  if bool_decide (s = s_dead) then error HPE_INVALID_URL else break.
Definition case_req_spaces_before_url (ch : byte) : E U action :=
  if SP ch then break
  else
    MARK cb_url ;;
    let! p := parser in
    (if bool_decide (hp_method p = HTTP_CONNECT) then UPDATE_STATE s_req_server_start else eret tt) ;;
    url_char ch.
Definition case_req_schema (ch : byte) : E U action :=
  if SP ch || CR ch || LF ch then error HPE_INVALID_URL else url_char ch.
Definition case_req_url (ch : byte) : E U action :=
  if SP ch then UPDATE_STATE s_req_http_start ;; CALLBACK_DATA cb_url ;; break
  else if CR ch || LF ch then
    update (fun p => p <| hp_major := 0 |> <| hp_minor := 9 |>) ;;
    UPDATE_STATE (if CR ch then s_req_line_almost_done else s_header_field_start) ;;
    CALLBACK_DATA cb_url ;; break
  else url_char ch.
Definition case_req_http_start (ch : byte) : E U action :=
  if eqc ch "H" then goto s_req_http_H else if SP ch then break else error HPE_INVALID_CONSTANT.
Definition case_req_http_end (ch : byte) : E U action :=
  if CR ch then goto s_req_line_almost_done else if LF ch then goto s_header_field_start else error HPE_INVALID_VERSION.
Definition case_req_line_almost_done (ch : byte) : E U action := require (LF ch) HPE_LF_EXPECTED ;; goto s_header_field_start.

(** *** Header fields *)

Definition first_header_state (c : byte) : header_states :=
  if eqc c "c" then h_C else if eqc c "p" then h_matching_proxy_connection
  else if eqc c "t" then h_matching_transfer_encoding else if eqc c "u" then h_matching_upgrade else h_general.
Definition case_header_field_start (ch : byte) : E U action :=
  if CR ch then goto s_headers_almost_done
  else if LF ch then again s_headers_almost_done
  else
    let c := TOKEN ch in
    require (negb (nul c)) HPE_INVALID_HEADER_TOKEN ;;
    MARK cb_header_field ;;
    update (fun p => p <| hp_index := 0 |>) ;;
    UPDATE_STATE s_header_field ;;
    update (fun p => p <| hp_header_state := first_header_state c |>) ;;
    break.

(** One more character of a word that is matched: [missed] if it is another one, [found] at
    the last one *)
Definition match_word (word : string) (missed matching found : header_states) (index : Z) (c : byte) : header_states :=
  let n := Z.of_nat (String.length word) in
  if (n <? index) || negb (ub c =? ub (char_at word index)) then missed
  else if index =? n - 1 then found else matching.
Definition matched (word : string) (matching found : header_states) (c : byte) (p : http_parser) : http_parser :=
  let p := next_index p in
  p <| hp_header_state := match_word word h_general matching found (hp_index p) c |>.

(** A character of a name, other than in [h_general] *)
Definition field_byte (ch : byte) (p : http_parser) : option http_parser :=
  let c := TOKEN ch in
  match hp_header_state p with
  | h_general => Some p
  | h_C => Some (next_index p <| hp_header_state := if eqc c "o" then h_CO else h_general |>)
  | h_CO => Some (next_index p <| hp_header_state := if eqc c "n" then h_CON else h_general |>)
  | h_CON =>
      Some (next_index p <| hp_header_state :=
        if eqc c "n" then h_matching_connection else if eqc c "t" then h_matching_content_length else h_general |>)
  | h_matching_connection => Some (matched "connection" h_matching_connection h_connection c p)
  | h_matching_proxy_connection => Some (matched "proxy-connection" h_matching_proxy_connection h_connection c p)
  | h_matching_content_length => Some (matched "content-length" h_matching_content_length h_content_length c p)
  | h_matching_transfer_encoding => Some (matched "transfer-encoding" h_matching_transfer_encoding h_transfer_encoding c p)
  | h_matching_upgrade => Some (matched "upgrade" h_matching_upgrade h_upgrade c p)
  | h_connection | h_content_length | h_transfer_encoding | h_upgrade =>
      Some (if negb (SP ch) then p <| hp_header_state := h_general |> else p)
  | _ => None
  end.

(** How many characters of a token follow, at most [limit] *)
Fixpoint token_run (limit : nat) (s : bytes) : nat :=
  match limit, s with
  | S limit, c :: s => if nul (TOKEN c) then O else S (token_run limit s)
  | _, _ => O
  end.

(** What a loop over bytes inside of a case ends with: [LEnd] at the end of the data, [LStop]
    at a byte; with the number of bytes before and the bytes from there on *)
Inductive loop_end :=
| LEnd (n : Z)
| LStop (n : Z) (ch : byte) (rest : bytes).

(** The loop over the characters of a name; the current character is passed over if [skip]
    is not 0. *)
Fixpoint field_loop (len : Z) (skip : nat) (n : Z) (s : bytes) (x : exec U) : res U loop_end :=
  match s with
  | [] => Ok (LEnd n) x
  | ch :: s' =>
      let next skip x := field_loop len skip (n + 1) s' (x <| x_marks ::= advance_marks [ch] |>) in
      match skip with
      | S skip => next skip x
      | O =>
          if nul (TOKEN ch) then Ok (LStop n ch s') x
          else
            match hp_header_state (x_parser x) with
            | h_general =>
                let pos := len - zlen s in
                let limit := Z.min (len - pos) HTTP_MAX_HEADER_SIZE in
                next (token_run (Z.to_nat (limit - (pos + 1))) s') x
            | _ =>
                match field_byte ch (x_parser x) with
                | Some p => next O (x <| x_parser := p |>)
                | None => Failed
                end
            end
      end
  end.

(** What the cases with a loop of their own end with: the bytes after the current one, or
    those from the current one on *)
Inductive outcome :=
| OBreak (x : exec U) (rest : bytes)
| OReexecute (x : exec U) (ch : byte) (rest : bytes)
| OExit (x : exec U) (rest : bytes)
| OFailed.

(** The end of a case whose current byte is [ch], with [rest] after it *)
Definition at_byte (ch : byte) (rest : bytes) (r : res U action) : outcome :=
  match r with
  | Ok Break x => OBreak (x <| x_marks ::= advance_marks [ch] |>) rest
  | Ok Reexecute x => OReexecute x ch rest
  | Exit consume x => OExit x (if consume then rest else ch :: rest)
  | Failed => OFailed
  end.
(** The end of a case at the end of the data: the current byte is the last one. *)
Definition at_end (last : byte) (r : res U unit) : outcome :=
  match r with
  | Ok _ x => OBreak x []
  | Exit _ x => OExit x [last]
  | Failed => OFailed
  end.
Definition last_byte (s : bytes) : byte := default (u8 0) (last s).

Definition case_header_field (len : Z) (s : bytes) (x : exec U) : outcome :=
  match field_loop len O 0 s x with
  | Ok (LEnd n) x => at_end (last_byte s) (COUNT_HEADER_SIZE (n - 1) x)
  | Ok (LStop n ch rest) x =>
      at_byte ch rest
        ((COUNT_HEADER_SIZE n ;;
          if eqc ch ":" then UPDATE_STATE s_header_value_discard_ws ;; CALLBACK_DATA cb_header_field ;; break
          else error HPE_INVALID_HEADER_TOKEN) x)
  | Exit _ x => OExit x s
  | Failed => OFailed
  end.

(** *** Header values *)

Definition connection_state (c : byte) (other : header_states) : header_states :=
  if eqc c "k" then h_matching_connection_keep_alive else if eqc c "c" then h_matching_connection_close
  else if eqc c "u" then h_matching_connection_upgrade else other.
Definition set_header_state (h : header_states) : E U unit := update (fun p => p <| hp_header_state := h |>).
Definition add_flag (f : Z) : E U unit := update (fun p => p <| hp_flags ::= set_flag f |>).

Definition case_header_value_start (ch : byte) : E U action :=
  MARK cb_header_value ;;
  UPDATE_STATE s_header_value ;;
  update (fun p => p <| hp_index := 0 |>) ;;
  let c := LOWER ch in
  let! p := parser in
  match hp_header_state p with
  | h_upgrade => add_flag F_UPGRADE ;; set_header_state h_general
  | h_transfer_encoding => set_header_state (if eqc c "c" then h_matching_transfer_encoding_chunked else h_general)
  | h_content_length =>
      require (IS_NUM ch) HPE_INVALID_CONTENT_LENGTH ;;
      require (negb (has_flag p F_CONTENTLENGTH)) HPE_UNEXPECTED_CONTENT_LENGTH ;;
      add_flag F_CONTENTLENGTH ;;
      update (fun p => p <| hp_content_length := digit ch |>) ;;
      set_header_state h_content_length_num
  | h_connection => set_header_state (connection_state c h_matching_connection_token)
  | h_matching_connection_token_start => eret tt
  | _ => set_header_state h_general
  end ;; break.
Definition case_header_value_discard_ws (ch : byte) : E U action :=
  if SP ch || HT ch then break
  else if CR ch then goto s_header_value_discard_ws_almost_done
  else if LF ch then goto s_header_value_discard_lws
  else case_header_value_start ch.

(** [memchr]: the offset of the first of the [limit] bytes that satisfies [f] *)
Fixpoint memchr (f : byte -> bool) (limit : nat) (s : bytes) : option nat :=
  match limit, s with
  | S limit, c :: s => if f c then Some O else S <$> memchr f limit s
  | _, _ => None
  end.
(** How far it is to the end of the line, or of the data *)
Definition line_run (s : bytes) : nat :=
  let limit := Z.to_nat (Z.min (zlen s) HTTP_MAX_HEADER_SIZE) in
  match memchr CR limit s, memchr LF limit s with
  | Some cr, Some lf => if (lf <=? cr)%nat then lf else cr
  | Some cr, None => cr
  | None, Some lf => lf
  | None, None => length s
  end.

Definition value_word (word : string) (missed matching found : header_states) (c : byte) : E U header_states :=
  update next_index ;;
  let! p := parser in
  eret (match_word word missed matching found (hp_index p) c).
Definition content_length_digit (h : header_states) (ch : byte) : E U header_states :=
  let! p := parser in
  let t := wrap 64 (hp_content_length p * 10 + digit ch) in
  if (ULLONG_MAX - 10) `div` 10 <? hp_content_length p then
    SET_ERRNO HPE_INVALID_CONTENT_LENGTH ;; set_header_state h ;; RETURN false
  else update (fun p => p <| hp_content_length := t |>) ;; eret h.
Definition content_length_num (ch : byte) : E U header_states :=
  if SP ch then eret h_content_length_ws
  else if negb (IS_NUM ch) then
    SET_ERRNO HPE_INVALID_CONTENT_LENGTH ;; set_header_state h_content_length_num ;; RETURN false
  else content_length_digit h_content_length_num ch.
(** The end of a token of a Connection header *)
Definition connection_token (h : header_states) (f : Z) (ch : byte) : E U header_states :=
  if eqc ch "," then
    add_flag f ;; update (fun p => p <| hp_index := 0 |>) ;; eret h_matching_connection_token_start
  else if negb (SP ch) then eret h_matching_connection_token else eret h.

(** A character of a value, other than in [h_general] *)
Definition value_byte (h : header_states) (ch : byte) : E U header_states :=
  let c := LOWER ch in
  match h with
  | h_connection | h_transfer_encoding => fun _ => Failed
  | h_content_length => if SP ch then eret h else content_length_num ch
  | h_content_length_num => content_length_num ch
  | h_content_length_ws =>
      if SP ch then eret h else SET_ERRNO HPE_INVALID_CONTENT_LENGTH ;; set_header_state h ;; RETURN false
  | h_matching_transfer_encoding_chunked => value_word "chunked" h_general h h_transfer_encoding_chunked c
  | h_matching_connection_token_start =>
      eret (connection_state c
        (if negb (nul (TOKEN c)) then h_matching_connection_token else if SP c || HT c then h else h_general))
  | h_matching_connection_keep_alive => value_word "keep-alive" h_matching_connection_token h h_connection_keep_alive c
  | h_matching_connection_close => value_word "close" h_matching_connection_token h h_connection_close c
  | h_matching_connection_upgrade => value_word "upgrade" h_matching_connection_token h h_connection_upgrade c
  | h_matching_connection_token =>
      if eqc ch "," then update (fun p => p <| hp_index := 0 |>) ;; eret h_matching_connection_token_start else eret h
  | h_transfer_encoding_chunked => if negb (SP ch) then eret h_general else eret h
  | h_connection_keep_alive => connection_token h F_CONNECTION_KEEP_ALIVE ch
  | h_connection_close => connection_token h F_CONNECTION_CLOSE ch
  | h_connection_upgrade => connection_token h F_CONNECTION_UPGRADE ch
  | _ => UPDATE_STATE s_header_value ;; eret h_general
  end.

(** The loop over the characters of a value, with the local variable [h_state], ends at the end
    of the data or of the line. *)
Inductive value_end :=
| VEnd (n : Z) (h : header_states) (x : exec U)
| VStop (n : Z) (h : header_states) (ch : byte) (rest : bytes) (x : exec U)
| VExit (x : exec U) (rest : bytes)
| VFailed.
Fixpoint value_loop (skip : nat) (h : header_states) (n : Z) (s : bytes) (x : exec U) : value_end :=
  match s with
  | [] => VEnd n h x
  | ch :: s' =>
      let next skip h x := value_loop skip h (n + 1) s' (x <| x_marks ::= advance_marks [ch] |>) in
      match skip with
      | S skip => next skip h x
      | O =>
          if CR ch || LF ch then VStop n h ch s' x
          else
            match require (hp_lenient (x_parser x) || IS_HEADER_CHAR ch) HPE_INVALID_HEADER_TOKEN x with
            | Ok _ x =>
                match h with
                | h_general => next (Nat.pred (line_run s)) h x
                | _ =>
                    match value_byte h ch x with
                    | Ok h x => next O h x
                    | Exit _ x => VExit x s
                    | Failed => VFailed
                    end
                end
            | Exit _ x => VExit x s
            | Failed => VFailed
            end
      end
  end.
Definition case_header_value (s : bytes) (x : exec U) : outcome :=
  match value_loop O (hp_header_state (x_parser x)) 0 s x with
  | VEnd n h x => at_end (last_byte s) ((set_header_state h ;; COUNT_HEADER_SIZE (n - 1)) x)
  | VStop n h ch rest x =>
      at_byte ch rest
        (if CR ch then
           (UPDATE_STATE s_header_almost_done ;; set_header_state h ;; CALLBACK_DATA cb_header_value ;;
            set_header_state h ;; COUNT_HEADER_SIZE n ;; break) x
         else
           (UPDATE_STATE s_header_almost_done ;; COUNT_HEADER_SIZE n ;; set_header_state h ;;
            CALLBACK_DATA_NOADVANCE cb_header_value ;; REEXECUTE) x)
  | VExit x rest => OExit x rest
  | VFailed => OFailed
  end.

(** *** The end of the headers *)

Definition case_header_almost_done (ch : byte) : E U action := require (LF ch) HPE_LF_EXPECTED ;; goto s_header_value_lws.

(** The flag that a value stands for *)
Definition header_flag : E U unit :=
  let! p := parser in
  match hp_header_state p with
  | h_connection_keep_alive => add_flag F_CONNECTION_KEEP_ALIVE
  | h_connection_close => add_flag F_CONNECTION_CLOSE
  | h_transfer_encoding_chunked => add_flag F_CHUNKED
  | h_connection_upgrade => add_flag F_CONNECTION_UPGRADE
  | _ => eret tt
  end.
Definition case_header_value_lws (ch : byte) : E U action :=
  if SP ch || HT ch then again s_header_value_start
  else header_flag ;; again s_header_field_start.
Definition case_header_value_discard_ws_almost_done (ch : byte) : E U action :=
  STRICT_CHECK (negb (LF ch)) ;; goto s_header_value_discard_lws.
Definition case_header_value_discard_lws (ch : byte) : E U action :=
  if SP ch || HT ch then goto s_header_value_discard_ws
  else
    header_flag ;;
    MARK cb_header_value ;;
    UPDATE_STATE s_header_field_start ;;
    CALLBACK_DATA_NOADVANCE cb_header_value ;;
    REEXECUTE.

Definition is_upgrade (p : http_parser) : bool :=
  if has_flag p F_UPGRADE && has_flag p F_CONNECTION_UPGRADE
  then bool_decide (hp_type p = HTTP_REQUEST) || (hp_status_code p =? 101)
  else bool_decide (hp_method p = HTTP_CONNECT).
(** The call of [on_headers_complete], whose result has a meaning of its own *)
Definition headers_complete : E U unit := fun x =>
  match on_cb settings cb_headers_complete (x_parser x) (x_user x) with
  | Some (r, p, u) =>
      let x := x <| x_parser := p |> <| x_user := u |> in
      if r =? 0 then Ok tt x
      else if r =? 2 then (update (fun p => p <| hp_is_upgrade := true |>) ;; add_flag F_SKIPBODY) x
      else if r =? 1 then add_flag F_SKIPBODY x
      else (SET_ERRNO (HPE_CB cb_headers_complete) ;; RETURN false) x
  | None => Failed
  end.
(** The parser may have been paused. *)
Definition return_if_paused : E U unit :=
  let! p := parser in match hp_errno p with HPE_OK => eret tt | _ => RETURN false end.
Definition case_headers_almost_done (ch : byte) : E U action :=
  STRICT_CHECK (negb (LF ch)) ;;
  let! p := parser in
  if has_flag p F_TRAILING then
    UPDATE_STATE s_message_done ;; CALLBACK_NOTIFY_NOADVANCE cb_chunk_complete ;; REEXECUTE
  else
    require (negb (has_flag p F_CHUNKED && has_flag p F_CONTENTLENGTH)) HPE_UNEXPECTED_CONTENT_LENGTH ;;
    UPDATE_STATE s_headers_done ;;
    update (fun p => p <| hp_is_upgrade := is_upgrade p |>) ;;
    headers_complete ;;
    return_if_paused ;;
    REEXECUTE.

Definition complete (p : http_parser) : E U unit := UPDATE_STATE (NEW_MESSAGE p) ;; CALLBACK_NOTIFY cb_message_complete.
Definition has_body (p : http_parser) : bool :=
  has_flag p F_CHUNKED || ((0 <? hp_content_length p) && negb (hp_content_length p =? ULLONG_MAX)).
Definition case_headers_done (ch : byte) : E U action :=
  STRICT_CHECK (negb (LF ch)) ;;
  reset_nread ;;
  let! p := parser in
  if hp_is_upgrade p && (bool_decide (hp_method p = HTTP_CONNECT) || has_flag p F_SKIPBODY || negb (has_body p)) then
    complete p ;; RETURN true
  else if has_flag p F_SKIPBODY then complete p ;; break
  else if has_flag p F_CHUNKED then goto s_chunk_size_start
  else if hp_content_length p =? 0 then complete p ;; break
  else if negb (hp_content_length p =? ULLONG_MAX) then goto s_body_identity
  else if negb (http_message_needs_eof p) then complete p ;; break
  else goto s_body_identity_eof.

(** *** Bodies *)

(** Takes up to [content_length] bytes. *)
Definition body_length (p : http_parser) : bool :=
  negb (hp_content_length p =? 0) && negb (hp_content_length p =? ULLONG_MAX).
Definition to_read (p : http_parser) (s : bytes) : nat := Z.to_nat (Z.min (hp_content_length p) (zlen s)).
Definition take_content (n : nat) : E U unit :=
  update (fun p => p <| hp_content_length ::= fun l => wrap 64 (l - Z.of_nat n) |>).

Definition case_body_identity (s : bytes) (x : exec U) : outcome :=
  let n := to_read (x_parser x) s in
  match (assert (body_length (x_parser x)) ;; MARK cb_body ;; take_content n) x with
  | Ok _ x =>
      if hp_content_length (x_parser x) =? 0 then
        let last := last_byte (take n s) in
        match (UPDATE_STATE s_message_done ;; CALLBACK_DATA_ false (take n s) cb_body) x with
        | Ok _ x => OReexecute x last (drop n s)
        | Exit _ x => OExit x (last :: drop n s)
        | Failed => OFailed
        end
      else OBreak (x <| x_marks ::= advance_marks (take n s) |>) (drop n s)
  | _ => OFailed
  end.
Definition case_body_identity_eof (s : bytes) (x : exec U) : outcome :=
  match MARK cb_body x with
  | Ok _ x => OBreak (x <| x_marks ::= advance_marks s |>) []
  | _ => OFailed
  end.
Definition case_message_done : E U action :=
  let! p := parser in
  complete p ;;
  let! p := parser in
  if hp_is_upgrade p then RETURN true else break.

(** *** Chunks *)

Definition chunked : E U unit := let! p := parser in assert (has_flag p F_CHUNKED).
Definition case_chunk_size_start (ch : byte) : E U action :=
  (fun x => assert (x_nread x =? 1) x) ;;
  chunked ;;
  require (negb (unhex ch =? -1)) HPE_INVALID_CHUNK_SIZE ;;
  update (fun p => p <| hp_content_length := unhex ch |>) ;;
  goto s_chunk_size.
Definition case_chunk_size (ch : byte) : E U action :=
  chunked ;;
  if CR ch then goto s_chunk_size_almost_done
  else if unhex ch =? -1 then
    if eqc ch ";" || SP ch then goto s_chunk_parameters else error HPE_INVALID_CHUNK_SIZE
  else
    let! p := parser in
    let t := wrap 64 (hp_content_length p * 16 + unhex ch) in
    require (negb ((ULLONG_MAX - 16) `div` 16 <? hp_content_length p)) HPE_INVALID_CONTENT_LENGTH ;;
    update (fun p => p <| hp_content_length := t |>) ;;
    break.
Definition case_chunk_parameters (ch : byte) : E U action :=
  chunked ;; if CR ch then goto s_chunk_size_almost_done else break.
Definition case_chunk_size_almost_done (ch : byte) : E U action :=
  chunked ;;
  STRICT_CHECK (negb (LF ch)) ;;
  reset_nread ;;
  let! p := parser in
  (if hp_content_length p =? 0 then add_flag F_TRAILING ;; UPDATE_STATE s_header_field_start
   else UPDATE_STATE s_chunk_data) ;;
  CALLBACK_NOTIFY cb_chunk_header ;;
  break.
Definition case_chunk_data (s : bytes) (x : exec U) : outcome :=
  let n := to_read (x_parser x) s in
  match (chunked ;; assert (body_length (x_parser x)) ;; MARK cb_body ;; take_content n ;;
         let! p := parser in
         if hp_content_length p =? 0 then UPDATE_STATE s_chunk_data_almost_done else eret tt) x with
  | Ok _ x => OBreak (x <| x_marks ::= advance_marks (take n s) |>) (drop n s)
  | _ => OFailed
  end.
Definition case_chunk_data_almost_done (ch : byte) : E U action :=
  chunked ;;
  let! p := parser in
  assert (hp_content_length p =? 0) ;;
  STRICT_CHECK (negb (CR ch)) ;;
  UPDATE_STATE s_chunk_data_done ;;
  CALLBACK_DATA cb_body ;;
  break.
Definition case_chunk_data_done (ch : byte) : E U action :=
  chunked ;;
  STRICT_CHECK (negb (LF ch)) ;;
  reset_nread ;;
  UPDATE_STATE s_chunk_size_start ;;
  CALLBACK_NOTIFY cb_chunk_complete ;;
  break.

(** *** The loop *)

(** The cases that look at the current byte only *)
Definition case_byte (s : state) (ch : byte) : E U action :=
  match s with
  | s_dead => case_dead ch
  | s_start_req_or_res => case_start_req_or_res ch
  | s_res_or_resp_H => case_res_or_resp_H ch
  | s_start_res => case_start_res ch
  | s_res_H => case_letter "T" s_res_HT ch
  | s_res_HT => case_letter "T" s_res_HTT ch
  | s_res_HTT => case_letter "P" s_res_HTTP ch
  | s_res_HTTP => case_letter "/" s_res_http_major ch
  | s_res_http_major => case_http_major s_res_http_dot ch
  | s_res_http_dot => case_http_dot s_res_http_minor ch
  | s_res_http_minor => case_http_minor s_res_http_end ch
  | s_res_http_end => case_res_http_end ch
  | s_res_first_status_code => case_res_first_status_code ch
  | s_res_status_code => case_res_status_code ch
  | s_res_status_start => case_res_status_start ch
  | s_res_status => case_res_status ch
  | s_res_line_almost_done => case_res_line_almost_done ch
  | s_start_req => case_start_req ch
  | s_req_method => case_req_method ch
  | s_req_spaces_before_url => case_req_spaces_before_url ch
  | s_req_schema | s_req_schema_slash | s_req_schema_slash_slash | s_req_server_start => case_req_schema ch
  | s_req_server | s_req_server_with_at | s_req_path | s_req_query_string_start | s_req_query_string
  | s_req_fragment_start | s_req_fragment => case_req_url ch
  | s_req_http_start => case_req_http_start ch
  | s_req_http_H => case_letter "T" s_req_http_HT ch
  | s_req_http_HT => case_letter "T" s_req_http_HTT ch
  | s_req_http_HTT => case_letter "P" s_req_http_HTTP ch
  | s_req_http_HTTP => case_letter "/" s_req_http_major ch
  | s_req_http_major => case_http_major s_req_http_dot ch
  | s_req_http_dot => case_http_dot s_req_http_minor ch
  | s_req_http_minor => case_http_minor s_req_http_end ch
  | s_req_http_end => case_req_http_end ch
  | s_req_line_almost_done => case_req_line_almost_done ch
  | s_header_field_start => case_header_field_start ch
  | s_header_value_discard_ws => case_header_value_discard_ws ch
  | s_header_value_discard_ws_almost_done => case_header_value_discard_ws_almost_done ch
  | s_header_value_discard_lws => case_header_value_discard_lws ch
  | s_header_value_start => case_header_value_start ch
  | s_header_almost_done => case_header_almost_done ch
  | s_header_value_lws => case_header_value_lws ch
  | s_headers_almost_done => case_headers_almost_done ch
  | s_headers_done => case_headers_done ch
  | s_message_done => case_message_done
  | s_chunk_size_start => case_chunk_size_start ch
  | s_chunk_size => case_chunk_size ch
  | s_chunk_parameters => case_chunk_parameters ch
  | s_chunk_size_almost_done => case_chunk_size_almost_done ch
  | s_chunk_data_almost_done => case_chunk_data_almost_done ch
  | s_chunk_data_done => case_chunk_data_done ch
  (* with a loop of their own *)
  | s_header_field | s_header_value | s_body_identity | s_body_identity_eof | s_chunk_data => fun _ => Failed
  end.
Definition case (len : Z) (ch : byte) (rest : bytes) (x : exec U) : outcome :=
  match x_state x with
  | s_header_field => case_header_field len (ch :: rest) x
  | s_header_value => case_header_value (ch :: rest) x
  | s_body_identity => case_body_identity (ch :: rest) x
  | s_body_identity_eof => case_body_identity_eof (ch :: rest) x
  | s_chunk_data => case_chunk_data (ch :: rest) x
  | s => at_byte ch rest (case_byte s ch x)
  end.

(** The switch with [REEXECUTE], which at most follows [fuel] times *)
Fixpoint switch (fuel : nat) (len : Z) (ch : byte) (rest : bytes) (x : exec U) : outcome :=
  match case len ch rest x with
  | OReexecute x ch rest => match fuel with O => OFailed | S fuel => switch fuel len ch rest x end
  | o => o
  end.
Definition reexecutions : nat := 4.

(** The callbacks for the marks that are left; at most one of them is set. *)
Definition is_set (o : option bytes) : Z := match o with Some _ => 1 | None => 0 end.
Definition leftover : E U unit :=
  (fun x => let m := x_marks x in
     assert (is_set (header_field_mark m) + is_set (header_value_mark m) + is_set (url_mark m) +
             is_set (body_mark m) + is_set (status_mark m) <=? 1) x) ;;
  CALLBACK_DATA_NOADVANCE cb_header_field ;;
  CALLBACK_DATA_NOADVANCE cb_header_value ;;
  CALLBACK_DATA_NOADVANCE cb_url ;;
  CALLBACK_DATA_NOADVANCE cb_body ;;
  CALLBACK_DATA_NOADVANCE cb_status ;;
  RETURN false.

Definition count_byte : E U unit := fun x => if PARSING_HEADER (x_state x) then COUNT_HEADER_SIZE 1 x else Ok tt x.

(** The loop over the bytes.  [None] is a failed assertion; otherwise the result is what is
    left of the data. *)
Fixpoint loop (fuel : nat) (len : Z) (s : bytes) (x : exec U) : option (exec U * bytes) :=
  match s, fuel with
  | [], _ => match leftover x with Exit _ x => Some (x, []) | _ => None end
  | _ :: _, O => None
  | ch :: rest, S fuel =>
      match count_byte x with
      | Ok _ x =>
          match switch reexecutions len ch rest x with
          | OBreak x rest => loop fuel len rest x
          | OExit x rest => Some (x, rest)
          | _ => None
          end
      | Exit _ x => Some (x, s)
      | Failed => None
      end
  end.

(** The marks that are set at the start: those of data that goes on *)
Definition data_state (s : state) : option http_data_cb :=
  match s with
  | s_header_field => Some cb_header_field
  | s_header_value => Some cb_header_value
  | s_req_path | s_req_schema | s_req_schema_slash | s_req_schema_slash_slash | s_req_server_start | s_req_server
  | s_req_server_with_at | s_req_query_string_start | s_req_query_string | s_req_fragment_start | s_req_fragment => Some cb_url
  | s_res_status => Some cb_status
  | _ => None
  end.
Definition first_marks (s : state) : marks :=
  match data_state s with Some cb => set_mark cb (Some []) no_marks | None => no_marks end.
Definition enter (p : http_parser) (u : U) : exec U :=
  MkExec p (hp_state p) (hp_nread p) (first_marks (hp_state p)) u.

(** [http_parser_execute]: the number of bytes that were parsed, the parser and the state of
    the callbacks *)
Definition http_parser_execute (p : http_parser) (u : U) (data : bytes) : option (Z * http_parser * U) :=
  match hp_errno p with
  | HPE_OK =>
      match data with
      | [] =>
          match hp_state p with
          | s_body_identity_eof =>
              match CALLBACK_NOTIFY_NOADVANCE cb_message_complete (enter p u) with
              | Ok _ x | Exit _ x => Some (0, x_parser x, x_user x)
              | Failed => None
              end
          | s_dead | s_start_req_or_res | s_start_res | s_start_req => Some (0, p, u)
          | _ => Some (1, p <| hp_errno := HPE_INVALID_EOF_STATE |>, u)
          end
      | _ =>
          match loop (length data) (zlen data) data (enter p u) with
          | Some (x, rest) => Some (zlen data - zlen rest, x_parser x, x_user x)
          | None => None
          end
      end
  | _ => Some (0, p, u)
  end.
End Execute.

(** * HttpParser: the parser with whole headers ([wpinet/HttpParser.h], [cpp/HttpParser.cpp])

    [HttpParser] collects what the callbacks of [http_parser_execute] deliver in pieces and
    emits signals for the URL, the status and the headers when they are complete.  The slots
    that are connected to the signals are the parameter [slot]: what they do to a state [V] of
    their own, and which methods of the parser they call.  They do not call [Execute]. *)

Local Open Scope Z_scope.

Inductive http_signal :=
| messageBegin
| url (s : bytes)
| status (s : bytes)
| header (name value : bytes)
| headersComplete (keepAlive : bool)
| body (s : bytes) (last : bool)
| messageComplete (keepAlive : bool)
| chunkHeader (size : Z)
| chunkComplete.

Inductive parser_state := kStart | kUrl | kStatus | kField | kValue.
#[global] Instance parser_state_eq_dec : EqDecision parser_state.
Proof. solve_decision. Defined.

(** The members other than the parser itself, and the state of the slots *)
Record Collector (V : Type) := MkCollector {
  m_maxLength : Z;
  m_state : parser_state;
  m_urlBuf : bytes;
  m_fieldBuf : bytes;
  m_valueBuf : bytes;
  m_aborted : bool;
  m_slots : V;
}.
Arguments MkCollector {V}.
Arguments m_maxLength {V}.
Arguments m_state {V}.
Arguments m_urlBuf {V}.
Arguments m_fieldBuf {V}.
Arguments m_valueBuf {V}.
Arguments m_aborted {V}.
Arguments m_slots {V}.
#[global] Instance eta_Collector V : Eta (Collector V) := fun c =>
  MkCollector (m_maxLength c) (m_state c) (m_urlBuf c) (m_fieldBuf c) (m_valueBuf c) (m_aborted c) (m_slots c).

(** The calls of a slot to its parser *)
Inductive slot_call :=
| call_Abort
| call_SetMaxLength (len : Z)
| call_Pause (paused : bool)
| call_Reset (type : http_parser_type).

Section HttpParser.
Context {V : Type}.

Record HttpParser := MkHttpParser { m_parser : http_parser; m_collector : Collector V }.
#[global] Instance eta_HttpParser : Eta HttpParser := fun h => MkHttpParser (m_parser h) (m_collector h).

Definition HttpParser_make (type : http_parser_type) (v : V) : HttpParser :=
  MkHttpParser (http_parser_init type) (MkCollector 1024 kStart [] [] [] false v).
Definition Reset (type : http_parser_type) (h : HttpParser) : HttpParser := HttpParser_make type (m_slots (m_collector h)).
Definition HasError (h : HttpParser) : bool := negb (bool_decide (hp_errno (m_parser h) = HPE_OK)).
Definition HttpParser_Abort (h : HttpParser) : HttpParser := h <| m_collector ::= fun c => c <| m_aborted := true |> |>.
Definition SetMaxLength (len : Z) (h : HttpParser) : HttpParser := h <| m_collector ::= fun c => c <| m_maxLength := len |> |>.
Definition Pause (paused : bool) (h : HttpParser) : option HttpParser :=
  p ← http_parser_pause (m_parser h) paused; Some (h <| m_parser := p |>).

Definition slot_run (call : slot_call) (h : HttpParser) : option HttpParser :=
  match call with
  | call_Abort => Some (HttpParser_Abort h)
  | call_SetMaxLength len => Some (SetMaxLength len h)
  | call_Pause paused => Pause paused h
  | call_Reset type => Some (Reset type h)
  end.
Fixpoint slot_runs (calls : list slot_call) (h : HttpParser) : option HttpParser :=
  match calls with [] => Some h | call :: calls => h ← slot_run call h; slot_runs calls h end.

Context (slot : http_signal -> http_parser -> V -> V * list slot_call).

(** Emitting a signal *)
Definition emit (sig : http_signal) (h : HttpParser) : option HttpParser :=
  let '(v, calls) := slot sig (m_parser h) (m_slots (m_collector h)) in
  slot_runs calls (h <| m_collector ::= fun c => c <| m_slots := v |> |>).
Definition aborted (h : HttpParser) : bool := m_aborted (m_collector h).
Definition result (h : HttpParser) : option (Z * HttpParser) := Some (if aborted h then 1 else 0, h).
Definition collect (f : Collector V -> Collector V) (h : HttpParser) : HttpParser := h <| m_collector ::= f |>.

(** Emits a signal if the buffers hold what it is about, and goes on unless it was aborted. *)
Definition emit_if (st : parser_state) (sig : Collector V -> http_signal) (k : HttpParser -> option (Z * HttpParser))
    (h : HttpParser) : option (Z * HttpParser) :=
  if bool_decide (m_state (m_collector h) = st) then
    h ← emit (sig (m_collector h)) h; if aborted h then Some (1, h) else k h
  else k h.
(** The URL, the status or the header that is complete *)
Definition emit_complete (k : HttpParser -> option (Z * HttpParser)) : HttpParser -> option (Z * HttpParser) :=
  emit_if kUrl (fun c => url (m_urlBuf c))
    (emit_if kStatus (fun c => status (m_valueBuf c))
      (emit_if kValue (fun c => header (m_fieldBuf c) (m_valueBuf c)) k)).

Definition on_message_begin (h : HttpParser) : option (Z * HttpParser) :=
  emit messageBegin (collect (fun c => c <| m_urlBuf := [] |> <| m_state := kStart |>) h) ≫= result.
Definition on_url (s : bytes) (h : HttpParser) : option (Z * HttpParser) :=
  let c := m_collector h in
  if m_maxLength c <? zlen (m_urlBuf c) + zlen s then Some (1, h)
  else Some (0, collect (fun c => c <| m_urlBuf ::= fun b => b ++ s |> <| m_state := kUrl |>) h).
Definition on_status (s : bytes) (h : HttpParser) : option (Z * HttpParser) :=
  let c := m_collector h in
  if m_maxLength c <? zlen (m_valueBuf c) + zlen s then Some (1, h)
  else Some (0, collect (fun c => c <| m_valueBuf ::= fun b => b ++ s |> <| m_state := kStatus |>) h).
Definition on_header_field (s : bytes) : HttpParser -> option (Z * HttpParser) :=
  emit_complete (fun h =>
    let h := collect (fun c => if bool_decide (m_state c = kField) then c
                               else c <| m_state := kField |> <| m_fieldBuf := [] |> <| m_valueBuf := [] |>) h in
    let c := m_collector h in
    if m_maxLength c <? zlen (m_fieldBuf c) + zlen s then Some (1, h)
    else Some (0, collect (fun c => c <| m_fieldBuf ::= fun b => b ++ s |>) h)).
Definition on_header_value (s : bytes) (h : HttpParser) : option (Z * HttpParser) :=
  let h := collect (fun c => if bool_decide (m_state c = kValue) then c else c <| m_state := kValue |> <| m_valueBuf := [] |>) h in
  let c := m_collector h in
  if m_maxLength c <? zlen (m_valueBuf c) + zlen s then Some (1, h)
  else Some (0, collect (fun c => c <| m_valueBuf ::= fun b => b ++ s |>) h).
Definition on_headers_complete : HttpParser -> option (Z * HttpParser) :=
  emit_complete (fun h => emit (headersComplete (http_should_keep_alive (m_parser h))) h ≫= result).
Definition on_body (s : bytes) (h : HttpParser) : option (Z * HttpParser) :=
  emit (body s (http_body_is_final (m_parser h))) h ≫= result.
Definition on_message_complete (h : HttpParser) : option (Z * HttpParser) :=
  emit (messageComplete (http_should_keep_alive (m_parser h))) h ≫= result.
Definition on_chunk_header (h : HttpParser) : option (Z * HttpParser) :=
  emit (chunkHeader (hp_content_length (m_parser h))) h ≫= result.
Definition on_chunk_complete (h : HttpParser) : option (Z * HttpParser) := emit chunkComplete h ≫= result.

(** A callback is given the parser, whose [data] points to the object. *)
Definition callback (f : HttpParser -> option (Z * HttpParser)) (p : http_parser) (c : Collector V) :
    option (Z * http_parser * Collector V) :=
  '(r, h) ← f (MkHttpParser p c); Some (r, m_parser h, m_collector h).
Definition m_settings : http_parser_settings (Collector V) := {|
  on_cb cb :=
    callback
      match cb with
      | cb_message_begin => on_message_begin
      | cb_headers_complete => on_headers_complete
      | cb_message_complete => on_message_complete
      | cb_chunk_header => on_chunk_header
      | cb_chunk_complete => on_chunk_complete
      end;
  on_data cb p s :=
    callback
      match cb with
      | cb_url => on_url s
      | cb_status => on_status s
      | cb_header_field => on_header_field s
      | cb_header_value => on_header_value s
      | cb_body => on_body s
      end p;
|}.

(** What is left of the data.  [None] is a failed assertion or a prefix longer than the data,
    which [remove_prefix] does not allow. *)
Definition Execute (data : bytes) (h : HttpParser) : option (bytes * HttpParser) :=
  match http_parser_execute m_settings (m_parser h) (m_collector h) data with
  | Some (n, p, c) => if zlen data <? n then None else Some (drop (Z.to_nat n) data, MkHttpParser p c)
  | None => None
  end.
End HttpParser.
