(* ===== verification/HttpUrl.v ===== *)
(** * HttpUrl: the parser of URLs ([http_parser_parse_url] of [wpinet/cpp/http_parser.cpp],
      [wpinet/UrlParser.h])

    A field of a URL is an offset and a length, numbers of 16 bits, in the text of the URL. *)

From Stdlib Require Import Strings.Ascii.
From S2P Require Import Prelude Http.

Local Open Scope Z_scope.

Inductive url_field := UF_SCHEMA | UF_HOST | UF_PORT | UF_PATH | UF_QUERY | UF_FRAGMENT | UF_USERINFO.
#[global] Instance url_field_eq_dec : EqDecision url_field.
Proof. solve_decision. Defined.

Definition uf_index (f : url_field) : nat :=
  match f with UF_SCHEMA => 0 | UF_HOST => 1 | UF_PORT => 2 | UF_PATH => 3 | UF_QUERY => 4 | UF_FRAGMENT => 5 | UF_USERINFO => 6 end.
Definition UF_MAX : nat := 7.
Definition set_at {A} (f : url_field) (v : A) (l : list A) : list A := <[uf_index f := v]> l.

(** [u_set] says which fields there are. *)
Record http_parser_url := MkUrl {
  u_set : list bool;
  port : Z;
  u_off : list Z;
  u_len : list Z;
}.
#[global] Instance eta_url : Eta http_parser_url := fun u => MkUrl (u_set u) (port u) (u_off u) (u_len u).
Definition http_parser_url_init : http_parser_url := MkUrl (replicate UF_MAX false) 0 (replicate UF_MAX 0) (replicate UF_MAX 0).
Definition field_set (u : http_parser_url) (f : url_field) : bool := default false (u_set u !! uf_index f).
Definition field_off (u : http_parser_url) (f : url_field) : Z := default 0 (u_off u !! uf_index f).
Definition field_len (u : http_parser_url) (f : url_field) : Z := default 0 (u_len u !! uf_index f).

(** A field begins at an offset with a length; and it has one more byte. *)
Definition start_field (f : url_field) (off len : Z) (u : http_parser_url) : http_parser_url :=
  u <| u_off ::= set_at f (wrap 16 off) |> <| u_len ::= set_at f len |> <| u_set ::= set_at f true |>.
Definition grow_field (f : url_field) (u : http_parser_url) : http_parser_url :=
  u <| u_len ::= set_at f (wrap 16 (field_len u f + 1)) |>.

(** [Bad] is a failure, [Assert] an assertion that fails. *)
Inductive url_result := Good (u : http_parser_url) | Bad | Assert.

(** ** The host *)

Inductive http_host_state :=
| s_http_host_dead | s_http_userinfo_start | s_http_userinfo | s_http_host_start | s_http_host_v6_start | s_http_host
| s_http_host_v6 | s_http_host_v6_end | s_http_host_v6_zone_start | s_http_host_v6_zone | s_http_host_port_start | s_http_host_port.
#[global] Instance http_host_state_eq_dec : EqDecision http_host_state.
Proof. solve_decision. Defined.

Definition http_parse_host_char (s : http_host_state) (ch : byte) : http_host_state :=
  let port_start := if eqc ch ":" then s_http_host_port_start else s_http_host_dead in
  let v6 := if IS_HEX ch || eqc ch ":" || eqc ch "." then s_http_host_v6
            else if bool_decide (s = s_http_host_v6) && eqc ch "%" then s_http_host_v6_zone_start
            else s_http_host_dead in
  let zone := if IS_ALPHANUM ch || eqc ch "%" || eqc ch "." || eqc ch "-" || eqc ch "_" || eqc ch "~"
              then s_http_host_v6_zone else s_http_host_dead in
  match s with
  | s_http_userinfo | s_http_userinfo_start =>
      if eqc ch "@" then s_http_host_start else if IS_USERINFO_CHAR ch then s_http_userinfo else s_http_host_dead
  | s_http_host_start =>
      if eqc ch "[" then s_http_host_v6_start else if IS_HOST_CHAR ch then s_http_host else s_http_host_dead
  | s_http_host => if IS_HOST_CHAR ch then s_http_host else port_start
  | s_http_host_v6_end => port_start
  | s_http_host_v6 => if eqc ch "]" then s_http_host_v6_end else v6
  | s_http_host_v6_start => v6
  | s_http_host_v6_zone => if eqc ch "]" then s_http_host_v6_end else zone
  | s_http_host_v6_zone_start => zone
  | s_http_host_port | s_http_host_port_start => if IS_NUM ch then s_http_host_port else s_http_host_dead
  | s_http_host_dead => s_http_host_dead
  end.

Definition host_field (old new : http_host_state) (i : Z) (u : http_parser_url) : http_parser_url :=
  let changed := negb (bool_decide (old = new)) in
  match new with
  | s_http_host | s_http_host_v6 =>
      grow_field UF_HOST (if changed then u <| u_off ::= set_at UF_HOST (wrap 16 i) |> else u)
  | s_http_host_v6_zone_start | s_http_host_v6_zone => grow_field UF_HOST u
  | s_http_host_port => grow_field UF_PORT (if changed then start_field UF_PORT i 0 u else u)
  | s_http_userinfo => grow_field UF_USERINFO (if changed then start_field UF_USERINFO i 0 u else u)
  | _ => u
  end.
(** The loop over the text of the host; [None] is a failure. *)
Fixpoint host_loop (text : bytes) (i : Z) (s : http_host_state) (u : http_parser_url) : option (http_host_state * http_parser_url) :=
  match text with
  | [] => Some (s, u)
  | ch :: text =>
      let new_s := http_parse_host_char s ch in
      match new_s with
      | s_http_host_dead => None
      | _ => host_loop text (i + 1) new_s (host_field s new_s i u)
      end
  end.
(** [wpi::substr], and the text of a field *)
Definition slice (buf : bytes) (off len : Z) : bytes := take (Z.to_nat len) (drop (Z.to_nat off) buf).
Definition field_text (buf : bytes) (f : url_field) (u : http_parser_url) : bytes := slice buf (field_off u f) (field_len u f).
Definition http_parse_host (buf : bytes) (found_at : bool) (u : http_parser_url) : option http_parser_url :=
  let text := field_text buf UF_HOST u in
  let s := if found_at then s_http_userinfo_start else s_http_host_start in
  match host_loop text (field_off u UF_HOST) s (u <| u_len ::= set_at UF_HOST 0 |>) with
  | Some (s_http_host_start, _) | Some (s_http_host_v6_start, _) | Some (s_http_host_v6, _) | Some (s_http_host_v6_zone_start, _)
  | Some (s_http_host_v6_zone, _) | Some (s_http_host_port_start, _) | Some (s_http_userinfo, _) | Some (s_http_userinfo_start, _)
  | None => None
  | Some (_, u) => Some u
  end.

(** ** The URL *)

(** What the state after a character says about it *)
Inductive url_part := Dead | Delimiter | Part (f : url_field) | Unexpected.
Definition part_of (s : state) : url_part :=
  match s with
  | s_dead => Dead
  | s_req_schema_slash | s_req_schema_slash_slash | s_req_server_start | s_req_query_string_start | s_req_fragment_start => Delimiter
  | s_req_schema => Part UF_SCHEMA
  | s_req_server_with_at | s_req_server => Part UF_HOST
  | s_req_path => Part UF_PATH
  | s_req_query_string => Part UF_QUERY
  | s_req_fragment => Part UF_FRAGMENT
  | _ => Unexpected
  end.
Record url_scan := MkScan { sc_state : state; sc_old : option url_field; sc_found_at : bool; sc_url : http_parser_url }.
Inductive scan_result := Scanned (sc : url_scan) | ScanBad | ScanAssert.
Fixpoint url_loop (buf : bytes) (i : Z) (sc : url_scan) : scan_result :=
  match buf with
  | [] => Scanned sc
  | ch :: buf =>
      let s := parse_url_char (sc_state sc) ch in
      let found_at := sc_found_at sc || bool_decide (s = s_req_server_with_at) in
      match part_of s with
      | Dead => ScanBad
      | Unexpected => ScanAssert
      | Delimiter => url_loop buf (i + 1) (MkScan s (sc_old sc) found_at (sc_url sc))
      | Part f =>
          let u := if bool_decide (sc_old sc = Some f) then grow_field f (sc_url sc) else start_field f i 1 (sc_url sc) in
          url_loop buf (i + 1) (MkScan s (Some f) found_at u)
      end
  end.

(** The port; [None] if it is too large *)
Fixpoint port_number (text : bytes) (v : Z) : option Z :=
  match text with
  | [] => Some v
  | ch :: text => let v := v * 10 + (ub ch - 0x30) in if 0xffff <? v then None else port_number text v
  end.
Definition only_host_and_port (u : http_parser_url) : bool :=
  field_set u UF_HOST && field_set u UF_PORT &&
  forallb (fun f => negb (field_set u f)) [UF_SCHEMA; UF_PATH; UF_QUERY; UF_FRAGMENT; UF_USERINFO].
Definition set_port (buf : bytes) (u : http_parser_url) : url_result :=
  if field_set u UF_PORT then
    if zlen buf <? field_off u UF_PORT + field_len u UF_PORT then Assert
    else match port_number (field_text buf UF_PORT u) 0 with Some v => Good (u <| port := v |>) | None => Bad end
  else Good u.
Definition http_parser_parse_url (buf : bytes) (is_connect : bool) (u : http_parser_url) : url_result :=
  match buf with
  | [] => Bad
  | _ =>
      let u := u <| port := 0 |> <| u_set := replicate UF_MAX false |> in
      match url_loop buf 0 (MkScan (if is_connect then s_req_server_start else s_req_spaces_before_url) None false u) with
      | ScanBad => Bad
      | ScanAssert => Assert
      | Scanned sc =>
          let u := sc_url sc in
          if field_set u UF_SCHEMA && negb (field_set u UF_HOST) then Bad
          else
            match (if field_set u UF_HOST then http_parse_host buf (sc_found_at sc) u else Some u) with
            | None => Bad
            | Some u => if is_connect && negb (only_host_and_port u) then Bad else set_port buf u
            end
      end
  end.

(** [UrlParser] *)
Definition UrlParser (input : bytes) (isConnect : bool) : url_result := http_parser_parse_url input isConnect http_parser_url_init.

(** ** Printing and parsing *)

(** The parts of a URL; a URL without authority begins with its path. *)
Record authority := MkAuthority { a_schema : bytes; a_userinfo : option bytes; a_host : bytes; a_port : option bytes }.
Record parts := MkParts { p_authority : option authority; p_path : bytes; p_query : option bytes; p_fragment : option bytes }.
Definition chars (s : string) : bytes := bytes_of_string s.
Definition print_authority (a : authority) : bytes :=
  a_schema a ++ chars "://" ++ (match a_userinfo a with Some s => s ++ chars "@" | None => [] end) ++ a_host a ++
  (match a_port a with Some s => chars ":" ++ s | None => [] end).
Definition print_url (p : parts) : bytes :=
  (match p_authority p with Some a => print_authority a | None => [] end) ++ p_path p ++
  (match p_query p with Some s => chars "?" ++ s | None => [] end) ++
  (match p_fragment p with Some s => chars "#" ++ s | None => [] end).

Definition all_chars (P : byte -> bool) (s : bytes) : Prop := s <> [] /\ Forall (fun c => P c = true) s.
Definition opt_ok {A} (P : A -> Prop) (o : option A) : Prop := match o with Some x => P x | None => True end.
Definition query_char (c : byte) : bool := IS_URL_CHAR c || eqc c "?".
Record authority_ok (a : authority) : Prop := {
  ok_schema : all_chars IS_ALPHA (a_schema a);
  ok_userinfo : opt_ok (all_chars IS_USERINFO_CHAR) (a_userinfo a);
  ok_host : all_chars IS_HOST_CHAR (a_host a);
  ok_port : opt_ok (fun s => all_chars IS_NUM s /\ is_Some (port_number s 0)) (a_port a);
}.
Record parts_ok (p : parts) : Prop := {
  ok_authority : opt_ok authority_ok (p_authority p);
  ok_path : exists s, p_path p = chars "/" ++ s /\ Forall (fun c => IS_URL_CHAR c = true) s;
  ok_query : opt_ok (all_chars query_char) (p_query p);
  ok_fragment : opt_ok (all_chars query_char) (p_fragment p);
  ok_length : zlen (print_url p) < 2 ^ 16;
}.
(** The text of a field that is set *)
Definition get_field (buf : bytes) (f : url_field) (u : http_parser_url) : option bytes :=
  if field_set u f then Some (field_text buf f u) else None.

(** * HttpUrlProofs: the parser finds the parts that a URL was made of *)

Local Open Scope Z_scope.

(** ** Characters *)

Ltac by_byte c := destruct c; vm_compute; (reflexivity || discriminate || auto).
Lemma alpha_first c : IS_ALPHA c = true -> parse_url_char s_req_spaces_before_url c = s_req_schema.
Proof. by_byte c. Qed.
Lemma alpha_next c : IS_ALPHA c = true -> parse_url_char s_req_schema c = s_req_schema.
Proof. by_byte c. Qed.
Lemma userinfo_server c : IS_USERINFO_CHAR c = true ->
  parse_url_char s_req_server_start c = s_req_server /\ parse_url_char s_req_server c = s_req_server /\
  parse_url_char s_req_server_with_at c = s_req_server.
Proof. by_byte c. Qed.
Lemma host_userinfo c : IS_HOST_CHAR c = true -> IS_USERINFO_CHAR c = true.
Proof. by_byte c. Qed.
Lemma num_userinfo c : IS_NUM c = true -> IS_USERINFO_CHAR c = true.
Proof. by_byte c. Qed.
Lemma url_path c : IS_URL_CHAR c = true -> parse_url_char s_req_path c = s_req_path.
Proof. by_byte c. Qed.
Lemma query_next c : query_char c = true ->
  parse_url_char s_req_query_string_start c = s_req_query_string /\ parse_url_char s_req_query_string c = s_req_query_string.
Proof. by_byte c. Qed.
Lemma fragment_next c : query_char c = true ->
  parse_url_char s_req_fragment_start c = s_req_fragment /\ parse_url_char s_req_fragment c = s_req_fragment.
Proof. by_byte c. Qed.
Lemma host_userinfo_char c : IS_USERINFO_CHAR c = true ->
  http_parse_host_char s_http_userinfo_start c = s_http_userinfo /\ http_parse_host_char s_http_userinfo c = s_http_userinfo.
Proof. by_byte c. Qed.
Lemma host_char c : IS_HOST_CHAR c = true ->
  http_parse_host_char s_http_host_start c = s_http_host /\ http_parse_host_char s_http_host c = s_http_host.
Proof. by_byte c. Qed.
Lemma port_char c : IS_NUM c = true ->
  http_parse_host_char s_http_host_port_start c = s_http_host_port /\ http_parse_host_char s_http_host_port c = s_http_host_port.
Proof. by_byte c. Qed.

(** ** Fields *)

Record url_wf (u : http_parser_url) : Prop := {
  wf_set : length (u_set u) = UF_MAX;
  wf_off : length (u_off u) = UF_MAX;
  wf_len : length (u_len u) = UF_MAX;
}.
Lemma init_wf : url_wf http_parser_url_init.
Proof. done. Qed.
Lemma uf_index_lt f : (uf_index f < UF_MAX)%nat.
Proof. destruct f; unfold UF_MAX; cbn; lia. Qed.
#[global] Instance uf_index_inj : Inj (=) (=) uf_index.
Proof. by intros [] []. Qed.
Lemma start_field_wf f off len u : url_wf u -> url_wf (start_field f off len u).
Proof. intros [H1 H2 H3]. unfold start_field, set_at, fupd. split; cbn; by rewrite length_insert. Qed.
Lemma get_set_at {A} (l : list A) f g d v : length l = UF_MAX ->
  default d (set_at f v l !! uf_index g) = if bool_decide (g = f) then v else default d (l !! uf_index g).
Proof.
  intros Hl. pose proof (uf_index_lt f). unfold set_at. case_bool_decide as E; [subst; rewrite list_lookup_insert_eq by lia; done|].
  rewrite list_lookup_insert_ne; [done|]. intros E'. by apply (inj uf_index) in E'.
Qed.
Lemma set_at_twice {A} (l : list A) f v w : set_at f v (set_at f w l) = set_at f v l.
Proof. apply list_insert_insert_eq. Qed.

Lemma grow_start f i k u : url_wf u -> 0 <= k -> k + 1 < 2 ^ 16 -> grow_field f (start_field f i k u) = start_field f i (k + 1) u.
Proof.
  intros [_ _ H3] Hk Hlt. unfold grow_field, start_field, fupd, field_len. cbn. rewrite get_set_at by done. rewrite bool_decide_true by done.
  by rewrite set_at_twice, (wrap_small 16 (k + 1)) by lia.
Qed.
Lemma grow_start_iter f i n u : url_wf u -> forall k, 0 <= k -> k + Z.of_nat n < 2 ^ 16 ->
  Nat.iter n (grow_field f) (start_field f i k u) = start_field f i (k + Z.of_nat n) u.
Proof.
  intros Hw. induction n as [|n IH]; intros k Hk Hlt; [by rewrite Z.add_0_r|].
  cbn [Nat.iter nat_rect]. change (nat_rect _ _ _ n) with (Nat.iter n (grow_field f) (start_field f i k u)).
  rewrite IH, grow_start by (done || lia). f_equal. lia.
Qed.

(** ** Runs of characters of one field *)

Lemma run_part st f : part_of st = Part f -> st <> s_req_server_with_at -> forall seg i u fa rest,
  Forall (fun c => parse_url_char st c = st) seg ->
  url_loop (seg ++ rest) i (MkScan st (Some f) fa u) = url_loop rest (i + zlen seg) (MkScan st (Some f) fa (Nat.iter (length seg) (grow_field f) u)).
Proof.
  intros Hp Ha seg i u fa rest Hf. revert i u. induction Hf as [|c seg Hc Hf IH]; intros i u; [by rewrite Z.add_0_r|].
  cbn [app url_loop sc_state sc_old sc_found_at sc_url]. rewrite Hc, Hp. rewrite (bool_decide_false (st = _)), orb_false_r by done.
  rewrite bool_decide_true by done. rewrite IH. cbn [length]. rewrite Nat.iter_succ_r. f_equal. unfold zlen. cbn. lia.
Qed.
Lemma scan_part st f s0 old : part_of st = Part f -> st <> s_req_server_with_at -> old <> Some f -> forall c seg i u fa rest,
  url_wf u -> parse_url_char s0 c = st -> Forall (fun c => parse_url_char st c = st) seg -> zlen (c :: seg) < 2 ^ 16 ->
  url_loop ((c :: seg) ++ rest) i (MkScan s0 old fa u) =
    url_loop rest (i + zlen (c :: seg)) (MkScan st (Some f) fa (start_field f i (zlen (c :: seg)) u)).
Proof.
  intros Hp Ha Ho c seg i u fa rest Hw Hc Hf Hl. cbn [app url_loop sc_state sc_old sc_found_at sc_url]. rewrite Hc, Hp.
  rewrite (bool_decide_false (st = _)), orb_false_r by done. rewrite bool_decide_false by done.
  rewrite (run_part st f) by done. unfold zlen in *. cbn [length] in *. rewrite grow_start_iter by (done || lia).
  f_equal; [lia|]. do 2 f_equal. lia.
Qed.

Lemma skip_delimiter c s s' old fa u rest i : parse_url_char s c = s' -> part_of s' = Delimiter ->
  url_loop (c :: rest) i (MkScan s old fa u) = url_loop rest (i + 1) (MkScan s' old fa u).
Proof.
  intros E Hp. cbn [url_loop sc_state sc_old sc_found_at sc_url]. rewrite E, Hp. rewrite bool_decide_false by (by intros ->). by rewrite orb_false_r.
Qed.

Lemma Forall_chars (P : byte -> bool) (Q : byte -> Prop) s : Forall (fun c => P c = true) s -> (forall c, P c = true -> Q c) -> Forall Q s.
Proof. intros Hf Hi. eapply Forall_impl; [exact Hf|]. apply Hi. Qed.

(** ** The parts before the path *)

Definition host_text (ui : option bytes) (hp : bytes) : bytes := (match ui with Some s => s ++ chars "@" | None => [] end) ++ hp.
Lemma run_after_at hp i u rest : all_chars IS_USERINFO_CHAR hp ->
  url_loop (hp ++ rest) i (MkScan s_req_server_with_at (Some UF_HOST) true u) =
    url_loop rest (i + zlen hp) (MkScan s_req_server (Some UF_HOST) true (Nat.iter (length hp) (grow_field UF_HOST) u)).
Proof.
  intros [Hn Hf]. destruct hp as [|c hp]; [done|]. inversion_clear Hf as [|? ? Hc Hf']. destruct (userinfo_server c Hc) as (_ & _ & E).
  cbn [app url_loop sc_state sc_old sc_found_at sc_url]. rewrite E. cbn [part_of orb]. rewrite bool_decide_true by done.
  rewrite (run_part s_req_server UF_HOST) by (done || by eapply Forall_chars; [|intros x Hx; by apply userinfo_server]).
  cbn [length]. rewrite Nat.iter_succ_r. f_equal. unfold zlen. cbn. lia.
Qed.
Lemma scan_host ui hp i u rest : url_wf u -> opt_ok (all_chars IS_USERINFO_CHAR) ui -> all_chars IS_USERINFO_CHAR hp ->
  zlen (host_text ui hp) < 2 ^ 16 ->
  url_loop (host_text ui hp ++ rest) i (MkScan s_req_server_start (Some UF_SCHEMA) false u) =
    url_loop rest (i + zlen (host_text ui hp))
      (MkScan s_req_server (Some UF_HOST) (bool_decide (is_Some ui)) (start_field UF_HOST i (zlen (host_text ui hp)) u)).
Proof.
  intros Hw Hui Hhp Hl. assert (forall s, all_chars IS_USERINFO_CHAR s -> zlen s < 2 ^ 16 -> forall rest,
    url_loop (s ++ rest) i (MkScan s_req_server_start (Some UF_SCHEMA) false u) =
      url_loop rest (i + zlen s) (MkScan s_req_server (Some UF_HOST) false (start_field UF_HOST i (zlen s) u))) as Hs.
  { intros [|c s] [Hn Hf] Hls rest'; [done|]. inversion_clear Hf as [|? ? Hc Hf'].
    apply scan_part; try done; [by apply userinfo_server|]. by eapply Forall_chars; [|intros x Hx; apply userinfo_server]. }
  destruct ui as [s|]; unfold host_text in *; cbn [app] in *; [|by apply Hs].
  rewrite bool_decide_true by eauto. rewrite !zlen_app in *. change (zlen (chars "@")) with 1 in *. rewrite <- !app_assoc.
  assert (0 <= zlen hp /\ 0 <= zlen s) by (unfold zlen; lia). rewrite Hs by (done || lia).
  change (chars "@" ++ hp ++ rest) with (u8 0x40 :: hp ++ rest). cbn [url_loop sc_state sc_old sc_found_at sc_url].
  change (parse_url_char s_req_server (u8 0x40)) with s_req_server_with_at. cbn [part_of]. rewrite !bool_decide_true by done. cbn [orb].
  rewrite run_after_at by done. rewrite grow_start by (done || lia). rewrite grow_start_iter by (done || (unfold zlen in *; lia)).
  unfold zlen in *. f_equal. lia.
Qed.
Lemma scan_schema s u rest : url_wf u -> all_chars IS_ALPHA s -> zlen s < 2 ^ 16 ->
  url_loop (s ++ chars "://" ++ rest) 0 (MkScan s_req_spaces_before_url None false u) =
    url_loop rest (zlen s + 3) (MkScan s_req_server_start (Some UF_SCHEMA) false (start_field UF_SCHEMA 0 (zlen s) u)).
Proof.
  intros Hw [Hn Hf] Hl. destruct s as [|c s]; [done|]. inversion_clear Hf as [|? ? Hc Hf'].
  rewrite (scan_part s_req_schema UF_SCHEMA) by (done || by apply alpha_first || by eapply Forall_chars; [|apply alpha_next]).
  change (chars "://" ++ rest) with (u8 0x3a :: u8 0x2f :: u8 0x2f :: rest). rewrite (skip_delimiter _ s_req_schema s_req_schema_slash) by done.
  rewrite (skip_delimiter _ s_req_schema_slash s_req_schema_slash_slash) by done.
  rewrite (skip_delimiter _ s_req_schema_slash_slash s_req_server_start) by done. f_equal. lia.
Qed.

(** ** The path and what follows *)

Definition opt_start (f : url_field) (i : Z) (o : option bytes) (u : http_parser_url) : http_parser_url :=
  match o with Some s => start_field f i (zlen s) u | None => u end.
Definition with_mark (c : string) (o : option bytes) : bytes := match o with Some s => chars c ++ s | None => [] end.
Lemma opt_start_wf f i o u : url_wf u -> url_wf (opt_start f i o u).
Proof. destruct o; [apply start_field_wf|done]. Qed.

(** A query after the path, a fragment after the path or the query *)
Lemma scan_query q i u fa rest : url_wf u -> opt_ok (all_chars query_char) q -> zlen (with_mark "?" q) < 2 ^ 16 ->
  exists s old, url_loop (with_mark "?" q ++ rest) i (MkScan s_req_path (Some UF_PATH) fa u) =
    url_loop rest (i + zlen (with_mark "?" q)) (MkScan s old fa (opt_start UF_QUERY (i + 1) q u)) /\
    (s = s_req_path \/ s = s_req_query_string) /\ old <> Some UF_FRAGMENT.
Proof.
  intros Hw Hq Hl. destruct q as [s|]; cbn [with_mark opt_start] in *; [|exists s_req_path, (Some UF_PATH); rewrite Z.add_0_r; by auto].
  destruct Hq as [Hn Hf]. destruct s as [|c s]; [done|]. inversion_clear Hf as [|? ? Hc Hf']. exists s_req_query_string, (Some UF_QUERY).
  split; [|by auto]. rewrite <- app_assoc. change (chars "?" ++ (c :: s) ++ rest) with (u8 0x3f :: (c :: s) ++ rest).
  rewrite zlen_app in *. change (zlen (chars "?")) with 1 in *. rewrite (skip_delimiter _ s_req_path s_req_query_string_start) by done.
  rewrite (scan_part s_req_query_string UF_QUERY) by (done || lia || by apply query_next || by eapply Forall_chars; [|intros x Hx; apply query_next]).
  f_equal. lia.
Qed.
Lemma scan_fragment q i u fa s old : url_wf u -> opt_ok (all_chars query_char) q -> zlen (with_mark "#" q) < 2 ^ 16 ->
  s = s_req_path \/ s = s_req_query_string -> old <> Some UF_FRAGMENT ->
  exists s' old', url_loop (with_mark "#" q) i (MkScan s old fa u) = Scanned (MkScan s' old' fa (opt_start UF_FRAGMENT (i + 1) q u)).
Proof.
  intros Hw Hq Hl Hs Ho. destruct q as [t|]; cbn [with_mark opt_start] in *; [|by eauto].
  destruct Hq as [Hn Hf]. destruct t as [|c t]; [done|]. inversion_clear Hf as [|? ? Hc Hf']. exists s_req_fragment, (Some UF_FRAGMENT).
  change (chars "#" ++ (c :: t)) with (u8 0x23 :: c :: t). rewrite zlen_app in Hl. change (zlen (chars "#")) with 1 in Hl.
  rewrite (skip_delimiter _ s s_req_fragment_start) by (done || by destruct Hs as [-> | ->]). rewrite <- (app_nil_r (c :: t)) at 1.
  by rewrite (scan_part s_req_fragment UF_FRAGMENT) by (done || lia || by apply fragment_next || by eapply Forall_chars; [|intros x Hx; apply fragment_next]).
Qed.
Definition tail_url (i : Z) (path : bytes) (q fr : option bytes) (u : http_parser_url) : http_parser_url :=
  opt_start UF_FRAGMENT (i + zlen path + zlen (with_mark "?" q) + 1) fr (opt_start UF_QUERY (i + zlen path + 1) q (start_field UF_PATH i (zlen path) u)).
Lemma scan_tail path q fr i u fa s0 old : url_wf u -> (exists s, path = chars "/" ++ s /\ Forall (fun c => IS_URL_CHAR c = true) s) ->
  opt_ok (all_chars query_char) q -> opt_ok (all_chars query_char) fr -> zlen (path ++ with_mark "?" q ++ with_mark "#" fr) < 2 ^ 16 ->
  s0 = s_req_spaces_before_url \/ s0 = s_req_server -> old = None \/ old = Some UF_HOST ->
  exists s' old', url_loop (path ++ with_mark "?" q ++ with_mark "#" fr) i (MkScan s0 old fa u) = Scanned (MkScan s' old' fa (tail_url i path q fr u)).
Proof.
  intros Hw (s & -> & Hf) Hq Hfr Hl Hs Ho. rewrite !zlen_app in Hl. assert (0 <= zlen s /\ 0 <= zlen (with_mark "?" q) /\ 0 <= zlen (with_mark "#" fr)) by (unfold zlen; lia).
  change (zlen (chars "/")) with 1 in Hl. set (path := chars "/" ++ s). change (path ++ with_mark "?" q ++ with_mark "#" fr) with ((u8 0x2f :: s) ++ with_mark "?" q ++ with_mark "#" fr).
  assert (zlen (u8 0x2f :: s) = 1 + zlen s) as Hp by (unfold zlen; cbn; lia).
  rewrite (scan_part s_req_path UF_PATH) by (done || lia || (by destruct Ho as [-> | ->]) || (by destruct Hs as [-> | ->]) || by eapply Forall_chars; [|apply url_path]).
  destruct (scan_query q (i + zlen (u8 0x2f :: s)) (start_field UF_PATH i (zlen (u8 0x2f :: s)) u) fa (with_mark "#" fr)) as (s1 & old1 & -> & Hs1 & Ho1);
    [by apply start_field_wf|done|lia|].
  destruct (scan_fragment fr (i + zlen (u8 0x2f :: s) + zlen (with_mark "?" q)) (opt_start UF_QUERY (i + zlen (u8 0x2f :: s) + 1) q (start_field UF_PATH i (zlen (u8 0x2f :: s)) u)) fa s1 old1)
    as (s2 & old2 & ->); [by apply opt_start_wf, start_field_wf|done|lia|done|done|]. by exists s2, old2.
Qed.

(** ** The parts of the host *)

Lemma host_run st f seg i u rest : st <> s_http_host_dead -> (forall i u, host_field st st i u = grow_field f u) ->
  Forall (fun c => http_parse_host_char st c = st) seg ->
  host_loop (seg ++ rest) i st u = host_loop rest (i + zlen seg) st (Nat.iter (length seg) (grow_field f) u).
Proof.
  intros Hd Hg Hf. revert i u. induction Hf as [|c seg Hc Hf IH]; intros i u; [by rewrite Z.add_0_r|]. cbn [app host_loop]. rewrite Hc.
  assert (host_loop (seg ++ rest) (i + 1) st (host_field st st i u) = host_loop rest (i + zlen (c :: seg)) st (Nat.iter (length (c :: seg)) (grow_field f) u)) as E.
  { rewrite Hg, IH. cbn [length]. rewrite Nat.iter_succ_r. f_equal. unfold zlen. cbn. lia. }
  by destruct st.
Qed.
(** A field that begins where the state changes to [st] *)
Lemma host_part s0 st f c seg i u rest : st <> s_http_host_dead -> (forall i u, host_field st st i u = grow_field f u) ->
  host_field s0 st i u = grow_field f (start_field f i 0 u) -> url_wf u -> http_parse_host_char s0 c = st ->
  Forall (fun c => http_parse_host_char st c = st) seg -> zlen (c :: seg) < 2 ^ 16 ->
  host_loop ((c :: seg) ++ rest) i s0 u = host_loop rest (i + zlen (c :: seg)) st (start_field f i (zlen (c :: seg)) u).
Proof.
  intros Hd Hg H0 Hw Hc Hf Hl. cbn [app host_loop]. rewrite Hc.
  assert (host_loop (seg ++ rest) (i + 1) st (host_field s0 st i u) = host_loop rest (i + zlen (c :: seg)) st (start_field f i (zlen (c :: seg)) u)) as E.
  { rewrite H0, (host_run st f) by done. unfold zlen in *. cbn [length] in *. rewrite grow_start by (done || lia). rewrite grow_start_iter by (done || lia).
    f_equal; [lia|]. f_equal. lia. }
  by destruct st.
Qed.
Lemma host_begin i u : url_wf u -> field_set u UF_HOST = true -> field_len u UF_HOST = 0 ->
  u <| u_off ::= set_at UF_HOST (wrap 16 i) |> = start_field UF_HOST i 0 u.
Proof.
  intros [H1 H2 H3] Hs Hl. destruct u as [us po uo ul]. unfold field_set, field_len, start_field, fupd, set_at in *. cbn in *. f_equal.
  - rewrite list_insert_id; [done|]. destruct us as [|? [|? us]]; cbn in *; (lia || by subst).
  - rewrite list_insert_id; [done|]. destruct ul as [|? [|? ul]]; cbn in *; (lia || by subst).
Qed.
Lemma field_set_start f off len u g : url_wf u -> field_set (start_field f off len u) g = if bool_decide (g = f) then true else field_set u g.
Proof. intros [H1 _ _]. unfold field_set, start_field, fupd. cbn. by rewrite get_set_at. Qed.
Lemma field_off_start f off len u g : url_wf u -> field_off (start_field f off len u) g = if bool_decide (g = f) then wrap 16 off else field_off u g.
Proof. intros [_ H1 _]. unfold field_off, start_field, fupd. cbn. by rewrite get_set_at. Qed.
Lemma field_len_start f off len u g : url_wf u -> field_len (start_field f off len u) g = if bool_decide (g = f) then len else field_len u g.
Proof. intros [_ _ H1]. unfold field_len, start_field, fupd. cbn. by rewrite get_set_at. Qed.

Lemma host_skip s s' c i u rest : http_parse_host_char s c = s' -> s' <> s_http_host_dead -> host_field s s' i u = u ->
  host_loop (c :: rest) i s u = host_loop rest (i + 1) s' u.
Proof. intros E Hd Hf. cbn [host_loop]. rewrite E, Hf. by destruct s'. Qed.

Definition host_from (ui : option bytes) : Z := match ui with Some s => zlen s + 1 | None => 0 end.
Definition host_url (i : Z) (ui : option bytes) (host : bytes) (pt : option bytes) (u : http_parser_url) : http_parser_url :=
  opt_start UF_PORT (i + host_from ui + zlen host + 1) pt (start_field UF_HOST (i + host_from ui) (zlen host) (opt_start UF_USERINFO i ui u)).

(** From the host on *)
Lemma host_and_port host pt i u : url_wf u -> field_set u UF_HOST = true -> field_len u UF_HOST = 0 ->
  all_chars IS_HOST_CHAR host -> opt_ok (all_chars IS_NUM) pt -> zlen (host ++ with_mark ":" pt) < 2 ^ 16 ->
  exists s, host_loop (host ++ with_mark ":" pt) i s_http_host_start u =
    Some (s, opt_start UF_PORT (i + zlen host + 1) pt (start_field UF_HOST i (zlen host) u)) /\ (s = s_http_host \/ s = s_http_host_port).
Proof.
  intros Hw Hs0 Hl0 [Hn Hf] Hp Hl. rewrite zlen_app in Hl. assert (0 <= zlen (with_mark ":" pt) /\ 0 <= zlen host) by (unfold zlen; lia).
  destruct host as [|c host]; [done|]. inversion_clear Hf as [|? ? Hc Hf'].
  rewrite (host_part s_http_host_start s_http_host UF_HOST)
    by (done || lia || (by apply host_char) || (by cbn; rewrite host_begin) || by eapply Forall_chars; [|intros x Hx; apply host_char]).
  destruct pt as [t|]; cbn [with_mark opt_start] in *; [|exists s_http_host; by auto]. destruct Hp as [Hpn Hpf]. destruct t as [|d t]; [done|].
  inversion_clear Hpf as [|? ? Hd Hpf']. change (chars ":" ++ (d :: t)) with (u8 0x3a :: d :: t).
  rewrite (host_skip s_http_host s_http_host_port_start) by done.
  rewrite zlen_app in Hl. change (zlen (chars ":")) with 1 in Hl. exists s_http_host_port. rewrite <- (app_nil_r (d :: t)) at 1.
  rewrite (host_part s_http_host_port_start s_http_host_port UF_PORT)
    by (done || lia || (by apply start_field_wf) || (by apply port_char) || by eapply Forall_chars; [|intros x Hx; apply port_char]).
  by auto.
Qed.
Lemma host_parts ui host pt i u : url_wf u -> field_set u UF_HOST = true -> field_len u UF_HOST = 0 ->
  opt_ok (all_chars IS_USERINFO_CHAR) ui -> all_chars IS_HOST_CHAR host -> opt_ok (all_chars IS_NUM) pt ->
  zlen (host_text ui (host ++ with_mark ":" pt)) < 2 ^ 16 ->
  exists s, host_loop (host_text ui (host ++ with_mark ":" pt)) i (if bool_decide (is_Some ui) then s_http_userinfo_start else s_http_host_start) u =
    Some (s, host_url i ui host pt u) /\ (s = s_http_host \/ s = s_http_host_port).
Proof.
  intros Hw Hs0 Hl0 Hui Hh Hp Hl. unfold host_url, host_from. destruct ui as [t|]; unfold host_text in *; cbn [app opt_start] in *.
  2: { rewrite bool_decide_false by (by intros [? ?]). rewrite Z.add_0_r. by apply host_and_port. }
  rewrite bool_decide_true by eauto. destruct Hui as [Hn Hf]. destruct t as [|c t]; [done|]. inversion_clear Hf as [|? ? Hc Hf'].
  rewrite !zlen_app in Hl. change (zlen (chars "@")) with 1 in Hl. rewrite <- zlen_app in Hl. rewrite <- !app_assoc.
  assert (0 <= zlen (c :: t) /\ 0 <= zlen (host ++ with_mark ":" pt)) by (unfold zlen; lia).
  rewrite (host_part s_http_userinfo_start s_http_userinfo UF_USERINFO)
    by (done || lia || (by apply host_userinfo_char) || by eapply Forall_chars; [|intros x Hx; apply host_userinfo_char]).
  change (chars "@" ++ host ++ with_mark ":" pt) with (u8 0x40 :: host ++ with_mark ":" pt).
  rewrite (host_skip s_http_userinfo s_http_host_start) by done.
  replace (i + (zlen (c :: t) + 1)) with (i + zlen (c :: t) + 1) by lia.
  apply host_and_port; [by apply start_field_wf|by rewrite field_set_start|by rewrite field_len_start|done|done|lia].
Qed.

(** ** The whole URL *)

Lemma slice_app a b c : slice (a ++ b ++ c) (zlen a) (zlen b) = b.
Proof. unfold slice, zlen. by rewrite !Nat2Z.id, drop_app_length, take_app_length. Qed.
Lemma slice_at a b c off : off = zlen a -> off < 2 ^ 16 -> slice (a ++ b ++ c) (wrap 16 off) (zlen b) = b.
Proof. intros -> Hl. rewrite wrap_small by (unfold zlen in *; lia). apply slice_app. Qed.
Lemma get_field_start buf f off len u g : url_wf u ->
  get_field buf g (start_field f off len u) = if bool_decide (g = f) then Some (slice buf (wrap 16 off) len) else get_field buf g u.
Proof.
  intros Hw. unfold get_field, field_text. rewrite field_set_start, field_off_start, field_len_start by done. by case_bool_decide.
Qed.
Lemma get_field_opt buf f off o u g : url_wf u -> opt_ok (fun s => slice buf (wrap 16 off) (zlen s) = s) o ->
  get_field buf g (opt_start f off o u) = if bool_decide (g = f) then match o with Some s => Some s | None => get_field buf g u end else get_field buf g u.
Proof.
  intros Hw Ho. destruct o as [s|]; cbn [opt_start] in *; [|by case_bool_decide]. rewrite get_field_start by done. cbn in Ho. by rewrite Ho.
Qed.

(** The fields of the path, the query and the fragment *)
Lemma tail_fields pre path q fr u g : url_wf u -> let buf := pre ++ path ++ with_mark "?" q ++ with_mark "#" fr in
  zlen buf < 2 ^ 16 ->
  get_field buf g (tail_url (zlen pre) path q fr u) =
    match g with
    | UF_PATH => Some path
    | UF_QUERY => match q with Some s => Some s | None => get_field buf g u end
    | UF_FRAGMENT => match fr with Some s => Some s | None => get_field buf g u end
    | _ => get_field buf g u
    end.
Proof.
  intros Hw buf Hl. assert (zlen buf = zlen pre + zlen path + zlen (with_mark "?" q) + zlen (with_mark "#" fr)) as Hlen by (unfold buf; rewrite !zlen_app; lia).
  assert (0 <= zlen pre /\ 0 <= zlen path /\ 0 <= zlen (with_mark "?" q) /\ 0 <= zlen (with_mark "#" fr)) by (unfold zlen; lia).
  unfold tail_url. rewrite !get_field_opt, get_field_start; try done; try (by apply start_field_wf); try (by apply opt_start_wf, start_field_wf).
  - destruct g; cbn; try done. f_equal. apply slice_at; [done|lia].
  - destruct q as [s|]; [|done]. cbn [opt_ok]. unfold buf. cbn [with_mark] in *. rewrite zlen_app in *. change (zlen (chars "?")) with 1 in *. rewrite <- (app_assoc (chars "?")).
    rewrite (app_assoc pre path), (app_assoc (pre ++ path)). apply slice_at; [rewrite !zlen_app; done|unfold zlen in *; lia].
  - destruct fr as [s|]; [|done]. cbn [opt_ok]. unfold buf. cbn [with_mark] in *. rewrite zlen_app in *. change (zlen (chars "#")) with 1 in *.
    rewrite (app_assoc path), (app_assoc pre), (app_assoc (pre ++ _)). rewrite <- (app_nil_r s) at 1.
    apply slice_at; [rewrite !zlen_app; change (zlen (chars "#")) with 1; lia|unfold zlen in *; lia].
Qed.

(** The fields of the host *)
Lemma host_fields pre ui host pt post u g : url_wf u -> let buf := pre ++ host_text ui (host ++ with_mark ":" pt) ++ post in
  zlen buf < 2 ^ 16 ->
  get_field buf g (host_url (zlen pre) ui host pt u) =
    match g with
    | UF_HOST => Some host
    | UF_PORT => match pt with Some s => Some s | None => get_field buf g u end
    | UF_USERINFO => match ui with Some s => Some s | None => get_field buf g u end
    | _ => get_field buf g u
    end.
Proof.
  intros Hw buf Hl. set (up := match ui with Some s => s ++ chars "@" | None => [] end).
  assert (buf = pre ++ up ++ host ++ with_mark ":" pt ++ post) as Eb by (unfold buf, host_text; by rewrite <- !app_assoc).
  assert (zlen up = host_from ui) as Eu by (unfold up, host_from; destruct ui; [by rewrite zlen_app|done]).
  assert (zlen buf = zlen pre + zlen up + zlen host + zlen (with_mark ":" pt) + zlen post) as Hlen by (rewrite Eb, !zlen_app; lia).
  assert (0 <= zlen pre /\ 0 <= zlen up /\ 0 <= zlen host /\ 0 <= zlen (with_mark ":" pt) /\ 0 <= zlen post) by (unfold zlen; lia).
  unfold host_url. rewrite <- Eu. rewrite !get_field_opt, get_field_start; try done; try (by apply opt_start_wf); try (by apply start_field_wf, opt_start_wf).
  - rewrite get_field_opt; try done.
    + destruct g; cbn; try done. f_equal. rewrite Eb, (app_assoc pre). apply slice_at; [by rewrite zlen_app|lia].
    + destruct ui as [s|]; [|done]. cbn [opt_ok]. rewrite Eb. unfold up. rewrite <- (app_assoc s). apply slice_at; [done|lia].
  - destruct pt as [s|]; [|done]. cbn [opt_ok]. rewrite Eb. cbn [with_mark] in *. rewrite zlen_app in *. change (zlen (chars ":")) with 1 in *.
    rewrite <- (app_assoc (chars ":")). rewrite (app_assoc pre up), (app_assoc (pre ++ up)), (app_assoc ((pre ++ up) ++ host)).
    apply slice_at; [rewrite !zlen_app; done|unfold zlen in *; lia].
Qed.

Definition zero_host (u : http_parser_url) : http_parser_url := u <| u_len ::= set_at UF_HOST 0 |>.
Lemma zero_host_wf u : url_wf u -> url_wf (zero_host u).
Proof. intros [H1 H2 H3]. unfold zero_host, set_at, fupd. split; cbn; by rewrite ?length_insert. Qed.
Lemma get_zero_host buf u g : url_wf u -> g <> UF_HOST -> get_field buf g (zero_host u) = get_field buf g u.
Proof.
  intros [_ _ H3] Hg. unfold get_field, field_text, zero_host, fupd. change (field_set _ g) with (field_set u g). change (field_off _ g) with (field_off u g).
  unfold field_len. cbn [u_len]. by rewrite get_set_at, bool_decide_false.
Qed.
Lemma host_url_wf i ui host pt u : url_wf u -> url_wf (host_url i ui host pt u).
Proof. intros Hw. by apply opt_start_wf, start_field_wf, opt_start_wf. Qed.
Lemma tail_url_wf i path q fr u : url_wf u -> url_wf (tail_url i path q fr u).
Proof. intros Hw. by apply opt_start_wf, opt_start_wf, start_field_wf. Qed.

(** The fields of a URL with these parts *)
Definition expected (p : parts) (f : url_field) : option bytes :=
  match f with
  | UF_SCHEMA => a_schema <$> p_authority p
  | UF_USERINFO => p_authority p ≫= a_userinfo
  | UF_HOST => a_host <$> p_authority p
  | UF_PORT => p_authority p ≫= a_port
  | UF_PATH => Some (p_path p)
  | UF_QUERY => p_query p
  | UF_FRAGMENT => p_fragment p
  end.
Definition expected_port (p : parts) : Z := match p_authority p ≫= a_port with Some s => default 0 (port_number s 0) | None => 0 end.

Lemma get_field_set buf f u : field_set u f = bool_decide (is_Some (get_field buf f u)).
Proof. unfold get_field. destruct (field_set u f); [by rewrite bool_decide_true by eauto|by rewrite bool_decide_false by (by intros [? ?])]. Qed.
Lemma set_port_good buf u p : port u = 0 -> (forall f, get_field buf f u = expected p f) ->
  opt_ok (fun s => is_Some (port_number s 0)) (expected p UF_PORT) ->
  (is_Some (expected p UF_PORT) -> field_off u UF_PORT + field_len u UF_PORT <= zlen buf) ->
  exists u', set_port buf u = Good u' /\ (forall f, get_field buf f u' = expected p f) /\ port u' = expected_port p.
Proof.
  intros H0 Hf Hp Hle. unfold set_port. rewrite (get_field_set buf), Hf. unfold expected_port. change (p_authority p ≫= a_port) with (expected p UF_PORT).
  pose proof (Hf UF_PORT) as Ef. destruct (expected p UF_PORT) as [s|].
  2: { rewrite bool_decide_false by (by intros [? ?]). exists u. by split_and!. }
  rewrite bool_decide_true by eauto. specialize (Hle ltac:(eauto)).
  destruct (Z.ltb_spec (zlen buf) (field_off u UF_PORT + field_len u UF_PORT)); [lia|].
  unfold get_field in Ef. destruct (field_set u UF_PORT); [|done]. injection Ef as ->. destruct Hp as [v Hv]. rewrite Hv.
  exists (u <| port := v |>). split_and!; [done| |done]. intros f. by rewrite <- Hf.
Qed.
Lemma host_url_port_end i ui host s u : url_wf u -> 0 <= i + host_from ui + zlen host + 1 < 2 ^ 16 ->
  field_off (host_url i ui host (Some s) u) UF_PORT + field_len (host_url i ui host (Some s) u) UF_PORT = i + host_from ui + zlen host + 1 + zlen s.
Proof.
  intros Hw Hl. unfold host_url. cbn [opt_start]. rewrite field_off_start, field_len_start by (by apply start_field_wf, opt_start_wf).
  rewrite !bool_decide_true by done. by rewrite wrap_small.
Qed.

(** A URL without authority *)
Lemma scan_plain path q fr : (exists s, path = chars "/" ++ s /\ Forall (fun c => IS_URL_CHAR c = true) s) ->
  opt_ok (all_chars query_char) q -> opt_ok (all_chars query_char) fr -> let p := MkParts None path q fr in zlen (print_url p) < 2 ^ 16 ->
  exists sc, url_loop (print_url p) 0 (MkScan s_req_spaces_before_url None false http_parser_url_init) = Scanned sc /\
    port (sc_url sc) = 0 /\ forall f, get_field (print_url p) f (sc_url sc) = expected p f.
Proof.
  intros Hp Hq Hf p Hl. destruct (scan_tail path q fr 0 http_parser_url_init false s_req_spaces_before_url None) as (s & old & E); auto using init_wf.
  eexists. split; [exact E|]. split; [by destruct q, fr|]. intros f.
  pose proof (tail_fields [] path q fr http_parser_url_init f init_wf Hl) as Et. change (zlen []) with 0 in Et. cbn [app] in Et.
  change (print_url p) with (path ++ with_mark "?" q ++ with_mark "#" fr). cbn [sc_url]. rewrite Et. by destruct f, q, fr.
Qed.

(** A URL with authority, up to the parsing of the host *)
Definition authority_pre (a : authority) : bytes := a_schema a ++ chars "://".
Definition authority_host (a : authority) : bytes := host_text (a_userinfo a) (a_host a ++ with_mark ":" (a_port a)).
Definition authority_url (a : authority) : http_parser_url :=
  start_field UF_HOST (zlen (authority_pre a)) (zlen (authority_host a)) (start_field UF_SCHEMA 0 (zlen (a_schema a)) http_parser_url_init).
Lemma print_authority_eq a : print_authority a = authority_pre a ++ authority_host a.
Proof. unfold print_authority, authority_pre, authority_host, host_text, with_mark. by rewrite <- !app_assoc. Qed.
Lemma authority_userinfo a : authority_ok a -> all_chars IS_USERINFO_CHAR (a_host a ++ with_mark ":" (a_port a)).
Proof.
  intros [_ _ [Hn Hh] Hp]. split; [by destruct (a_host a)|]. apply Forall_app. split; [by eapply Forall_chars; [|apply host_userinfo]|].
  destruct (a_port a) as [s|]; [|constructor]. destruct Hp as [[_ Hp] _]. cbn [with_mark]. apply Forall_app. split; [by repeat constructor|].
  by eapply Forall_chars; [|apply num_userinfo].
Qed.
Lemma scan_authority a path q fr : authority_ok a -> (exists s, path = chars "/" ++ s /\ Forall (fun c => IS_URL_CHAR c = true) s) ->
  opt_ok (all_chars query_char) q -> opt_ok (all_chars query_char) fr -> let p := MkParts (Some a) path q fr in zlen (print_url p) < 2 ^ 16 ->
  exists s old, url_loop (print_url p) 0 (MkScan s_req_spaces_before_url None false http_parser_url_init) =
    Scanned (MkScan s old (bool_decide (is_Some (a_userinfo a))) (tail_url (zlen (print_authority a)) path q fr (authority_url a))).
Proof.
  intros Ha Hp Hq Hf p Hl. change (print_url p) with (print_authority a ++ path ++ with_mark "?" q ++ with_mark "#" fr) in *. rewrite print_authority_eq in *.
  unfold authority_url. rewrite !zlen_app in *. unfold authority_pre in *. rewrite !zlen_app in *. change (zlen (chars "://")) with 3 in *.
  assert (0 <= zlen (a_schema a) /\ 0 <= zlen (authority_host a) /\ 0 <= zlen path /\ 0 <= zlen (with_mark "?" q) /\ 0 <= zlen (with_mark "#" fr)) by (unfold zlen; lia).
  rewrite <- !app_assoc. rewrite scan_schema by (done || lia || apply Ha).
  unfold authority_host at 1. rewrite scan_host by (by apply start_field_wf || by apply Ha || by apply authority_userinfo || (fold (authority_host a); lia)). fold (authority_host a).
  apply scan_tail; auto; [by apply start_field_wf, start_field_wf|rewrite !zlen_app; lia].
Qed.

(** The parsing of the host *)
Lemma authority_url_wf a : url_wf (authority_url a).
Proof. by apply start_field_wf, start_field_wf, init_wf. Qed.
Lemma tail_url_host i path q fr u : url_wf u ->
  field_off (tail_url i path q fr u) UF_HOST = field_off u UF_HOST /\ field_set (tail_url i path q fr u) UF_HOST = field_set u UF_HOST.
Proof.
  intros Hw. unfold tail_url. destruct q, fr; cbn [opt_start]; rewrite ?field_off_start, ?field_set_start by auto using start_field_wf; done.
Qed.
Section Authority.
Context (a : authority) (path : bytes) (q fr : option bytes) (Ha : authority_ok a).
Let p := MkParts (Some a) path q fr.
Let rest := path ++ with_mark "?" q ++ with_mark "#" fr.
Context (Hl : zlen (print_url p) < 2 ^ 16).
Let u := tail_url (zlen (print_authority a)) path q fr (authority_url a).

Lemma print_url_eq : print_url p = authority_pre a ++ authority_host a ++ rest.
Proof. change (print_url p) with (print_authority a ++ rest). rewrite print_authority_eq. by rewrite <- app_assoc. Qed.
Lemma zlen_authority_host : zlen (authority_host a) = host_from (a_userinfo a) + zlen (a_host a) + zlen (with_mark ":" (a_port a)).
Proof.
  unfold authority_host, host_text, host_from. rewrite !zlen_app. destruct (a_userinfo a); [rewrite zlen_app; change (zlen (chars "@")) with 1|]; unfold zlen; cbn; lia.
Qed.
Lemma pre_small : 0 <= zlen (authority_pre a) < 2 ^ 16.
Proof. rewrite print_url_eq, zlen_app in Hl. unfold zlen in *. lia. Qed.
Lemma host_small : zlen (authority_host a) < 2 ^ 16.
Proof. rewrite print_url_eq, !zlen_app in Hl. unfold zlen in *. lia. Qed.
Lemma scanned_fields g : get_field (print_url p) g u = if bool_decide (g = UF_HOST) then Some (authority_host a) else
  if bool_decide (g = UF_USERINFO \/ g = UF_PORT) then None else expected p g.
Proof.
  change (print_url p) with (print_authority a ++ path ++ with_mark "?" q ++ with_mark "#" fr). unfold u.
  rewrite tail_fields by (apply authority_url_wf || exact Hl). fold rest. change (print_authority a ++ rest) with (print_url p).
  assert (get_field (print_url p) g (authority_url a) = match g with UF_HOST => Some (authority_host a) | UF_SCHEMA => Some (a_schema a) | _ => None end) as ->.
  { unfold authority_url. rewrite !get_field_start by (by auto using start_field_wf, init_wf).
    destruct g; repeat first [rewrite bool_decide_true by done|rewrite bool_decide_false by done]; try done; f_equal.
    - rewrite print_url_eq. unfold authority_pre. rewrite <- !app_assoc. apply (slice_at [] (a_schema a)); done.
    - rewrite print_url_eq. apply slice_at; [done|apply pre_small]. }
  destruct g; repeat first [rewrite bool_decide_true by auto|rewrite bool_decide_false by (by (discriminate || intros [?|?]))]; try done; by destruct q, fr.
Qed.
Lemma parse_authority : exists u', http_parse_host (print_url p) (bool_decide (is_Some (a_userinfo a))) u = Some u' /\ port u' = 0 /\
    (forall f, get_field (print_url p) f u' = expected p f) /\
    (is_Some (a_port a) -> field_off u' UF_PORT + field_len u' UF_PORT <= zlen (print_url p)).
Proof.
  assert (url_wf u) as Hw by apply tail_url_wf, authority_url_wf.
  destruct (tail_url_host (zlen (print_authority a)) path q fr (authority_url a) (authority_url_wf a)) as [Ho Hs]. fold u in Ho, Hs.
  unfold authority_url in Ho, Hs. rewrite field_off_start, wrap_small in Ho by (apply pre_small || by apply start_field_wf, init_wf).
  rewrite field_set_start in Hs by (by apply start_field_wf, init_wf). rewrite bool_decide_true in Ho, Hs by done.
  pose proof (scanned_fields UF_HOST) as Eh. unfold get_field in Eh. rewrite Hs, bool_decide_true in Eh by done. injection Eh as Eh.
  destruct (host_parts (a_userinfo a) (a_host a) (a_port a) (zlen (authority_pre a)) (zero_host u)) as (s & E & Hst).
  { by apply zero_host_wf. } { exact Hs. }
  { destruct Hw as [_ _ H3]. unfold field_len, zero_host, fupd. cbn [u_len]. by rewrite get_set_at, bool_decide_true. }
  { apply Ha. } { apply Ha. } { destruct Ha as [_ _ _ Hp]. destruct (a_port a); [apply Hp|done]. } { apply host_small. }
  exists (host_url (zlen (authority_pre a)) (a_userinfo a) (a_host a) (a_port a) (zero_host u)). split_and!.
  - unfold http_parse_host. rewrite Eh, Ho. fold (zero_host u). unfold authority_host. rewrite E. by destruct Hst as [-> | ->].
  - unfold host_url, u, tail_url. by destruct (a_userinfo a), (a_port a), q, fr.
  - intros g. pose proof Hl as Hl'. rewrite print_url_eq in Hl' |- *. unfold authority_host in Hl' |- *. rewrite host_fields by (done || by apply zero_host_wf).
    fold (authority_host a). rewrite <- print_url_eq.
    destruct g; rewrite ?get_zero_host, ?scanned_fields by done;
      repeat first [rewrite bool_decide_true by auto|rewrite bool_decide_false by (by (discriminate || intros [?|?]))]; try done; [by destruct (a_port a) eqn:Ep; cbn; rewrite Ep|by destruct (a_userinfo a) eqn:Eu; cbn; rewrite Eu].
  - intros [t Et]. assert (zlen (print_url p) = zlen (authority_pre a) + (host_from (a_userinfo a) + zlen (a_host a) + (1 + zlen t)) + zlen rest) as Hz.
    { rewrite print_url_eq, !zlen_app, zlen_authority_host, Et. cbn [with_mark]. rewrite zlen_app. change (zlen (chars ":")) with 1. lia. }
    assert (0 <= host_from (a_userinfo a)) by (unfold host_from; destruct (a_userinfo a); unfold zlen; lia).
    rewrite Et, host_url_port_end; [|by apply zero_host_wf|]; unfold zlen in *; lia.
Qed.
End Authority.

(** C17. The URL parser finds in a URL of the form schema://userinfo@host:port/path?query#fragment,
    of which all but the path may be missing, the parts that it was made of, and the number of
    the port. *)
Theorem url_roundtrip p : parts_ok p ->
  exists u, UrlParser (print_url p) false = Good u /\ (forall f, get_field (print_url p) f u = expected p f) /\ port u = expected_port p.
Proof.
  intros [Ha Hpath Hq Hfr Hl]. unfold UrlParser, http_parser_parse_url.
  assert (print_url p <> []) as Hne. { unfold print_url. destruct Hpath as (s & -> & _). by destruct (match p_authority p with Some _ => _ | None => _ end). }
  destruct (print_url p) as [|c0 t0] eqn:Eb; [done|]. rewrite <- Eb in *. clear Eb c0 t0 Hne.
  change ((http_parser_url_init <| port := 0 |>) <| u_set := replicate UF_MAX false |>) with http_parser_url_init. cbv iota zeta.
  destruct p as [[a|] path q fr]; cbn [p_authority p_path p_query p_fragment opt_ok] in *.
  - destruct (scan_authority a path q fr Ha Hpath Hq Hfr Hl) as (s & old & ->). cbn [sc_url sc_found_at].
    destruct (parse_authority a path q fr Ha Hl) as (u' & E' & H0 & Hf & Hp).
    match goal with |- context [field_set ?u UF_HOST] => assert (field_set u UF_HOST = true) as Hs end.
    { rewrite (get_field_set (print_url (MkParts (Some a) path q fr))), scanned_fields by done. rewrite !bool_decide_true by eauto. done. }
    rewrite Hs, E'. rewrite andb_false_r. cbn [andb]. apply set_port_good; [done|done| |exact Hp].
    destruct Ha as [_ _ _ Hpo]. cbn. destruct (a_port a); [apply Hpo|done].
  - destruct (scan_plain path q fr Hpath Hq Hfr Hl) as (sc & -> & H0 & Hf).
    rewrite !(get_field_set (print_url (MkParts None path q fr))), !Hf. cbn [andb negb expected fmap option_fmap option_map p_authority].
    rewrite !bool_decide_false by (by intros [? ?]). cbn [andb]. apply set_port_good; [done|done|done|by intros [? ?]].
Qed.
