(* ===== verification/HttpSafety.v ===== *)
(** * HttpSafety: no assertion of the HTTP parser fails

    The invariant of the parser between two bytes, for each of its states, and that every case
    of the switch keeps it, whatever the data, for callbacks that may pause or reset the
    parser. *)

From S2P Require Import Prelude Http.
Local Open Scope Z_scope.
Local Open Scope exec_scope.

(** ** The invariant *)

(** The header states that occur while a name and while a value is read *)
Definition field_state (h : header_states) : bool :=
  match h with
  | h_general | h_C | h_CO | h_CON | h_matching_connection | h_matching_proxy_connection | h_matching_content_length
  | h_matching_transfer_encoding | h_matching_upgrade | h_connection | h_content_length | h_transfer_encoding
  | h_upgrade => true
  | _ => false
  end.
Definition value_state (h : header_states) : bool :=
  match h with
  | h_general | h_content_length_num | h_content_length_ws | h_matching_transfer_encoding_chunked
  | h_matching_connection_token_start | h_matching_connection_keep_alive | h_matching_connection_close
  | h_matching_connection_upgrade | h_matching_connection_token | h_transfer_encoding_chunked
  | h_connection_keep_alive | h_connection_close | h_connection_upgrade => true
  | _ => false
  end.

(** What holds of the parser in a state; [first] is the count of header bytes at the start of
    the size of a chunk. *)
Definition fits (first : Z) (s : state) (nread : Z) (p : http_parser) : Prop :=
  let chunked := has_flag p F_CHUNKED = true in
  let length := hp_content_length p in
  match s with
  | s_header_field => field_state (hp_header_state p) = true
  | s_header_value => value_state (hp_header_state p) = true
  | s_chunk_size_start => chunked /\ nread = first
  | s_chunk_size | s_chunk_parameters | s_chunk_size_almost_done => chunked /\ length < ULLONG_MAX
  | s_chunk_data => chunked /\ 0 < length < ULLONG_MAX
  | s_chunk_data_almost_done => chunked /\ length = 0
  | s_chunk_data_done => chunked
  | s_body_identity => 0 < length < ULLONG_MAX
  | _ => True
  end.

(** The only mark that may be set in a state *)
Definition mark_state (s : state) : option http_data_cb :=
  match s with
  | s_body_identity | s_body_identity_eof | s_chunk_data | s_chunk_data_almost_done => Some cb_body
  | _ => data_state s
  end.
Definition marked (s : state) (o : option bytes) : marks :=
  match mark_state s with Some cb => set_mark cb o no_marks | None => no_marks end.

Definition parser_fits (first : Z) (s : state) (nread : Z) (p : http_parser) : Prop :=
  hp_errno p = HPE_OK /\ 0 <= hp_content_length p <= ULLONG_MAX /\ fits first s nread p.
(** An error other than being paused, after which the parser does not go on *)
Definition broken (e : http_errno) : bool := match e with HPE_OK | HPE_PAUSED => false | _ => true end.
(** The parser between two calls *)
Definition stored (p : http_parser) : Prop := 0 <= hp_content_length p <= ULLONG_MAX /\ fits 0 (hp_state p) (hp_nread p) p.
Definition parser_ok (p : http_parser) : Prop := broken (hp_errno p) = true \/ stored p.

(** What a callback may do to the parser: [http_parser_init] and [http_parser_pause] *)
Definition touched (p p' : http_parser) : Prop := exists q e,
  (q = p \/ exists t, q = http_parser_init t) /\ broken e = false /\ p' = q <| hp_errno := e |>.
Record settings_ok {U} (settings : http_parser_settings U) : Prop := {
  so_cb cb p u : hp_errno p = HPE_OK -> exists r p' u', on_cb settings cb p u = Some (r, p', u') /\ touched p p';
  so_data cb p s u : hp_errno p = HPE_OK -> exists r p' u', on_data settings cb p s u = Some (r, p', u') /\ touched p p';
}.

Lemma init_stored t e : stored (http_parser_init t <| hp_errno := e |>).
Proof. by destruct t. Qed.
Lemma touched_stored p p' : stored p -> touched p p' -> stored p'.
Proof. intros Hp (q & e & [->|[t ->]] & _ & ->); [exact Hp|apply init_stored]. Qed.

Section Safety.
Context {U : Type} (settings : http_parser_settings U) (HS : settings_ok settings).
Implicit Types x : exec U.

Definition Inv (first : Z) (x : exec U) : Prop :=
  parser_fits first (x_state x) (x_nread x) (x_parser x) /\ exists o, x_marks x = marked (x_state x) o.

(** ** Cases *)

Definition ewp {A} (m : E U A) (Q : A -> exec U -> Prop) (x : exec U) : Prop :=
  match m x with Ok a x => Q a x | Exit _ x => parser_ok (x_parser x) | Failed => False end.

Lemma ewp_bind {A B} (m : E U A) (k : A -> E U B) Q x : ewp m (fun a => ewp (k a) Q) x -> ewp (ebind m k) Q x.
Proof. unfold ewp, ebind. by destruct (m x). Qed.
Lemma ewp_ret {A} (a : A) Q x : Q a x -> ewp (eret a) Q x.
Proof. done. Qed.
Lemma ewp_mono {A} (m : E U A) (Q Q' : A -> exec U -> Prop) x : ewp m Q x -> (forall a x', Q a x' -> Q' a x') -> ewp m Q' x.
Proof. unfold ewp. destruct (m x); auto. Qed.
Lemma ewp_parser Q x : Q (x_parser x) x -> ewp parser Q x.
Proof. done. Qed.
Lemma ewp_state Q x : Q (x_state x) x -> ewp CURRENT_STATE Q x.
Proof. done. Qed.
Lemma ewp_update f Q x : Q tt (x <| x_parser ::= f |>) -> ewp (update f) Q x.
Proof. done. Qed.
Lemma ewp_goto s Q x : Q tt (x <| x_state := s |>) -> ewp (UPDATE_STATE s) Q x.
Proof. done. Qed.
Lemma ewp_error {A} e (Q : A -> exec U -> Prop) x : broken e = true -> ewp (error e) Q x.
Proof. intros He. left. exact He. Qed.
Lemma ewp_require b e Q x : broken e = true -> (b = true -> Q tt x) -> ewp (require b e) Q x.
Proof. destruct b; intros He HQ; [by apply HQ|by apply ewp_error]. Qed.
Lemma ewp_strict b Q x : (b = false -> Q tt x) -> ewp (STRICT_CHECK b) Q x.
Proof. destruct b; intros HQ; [by apply ewp_error|by apply HQ]. Qed.
Lemma ewp_assert b Q x : b = true -> Q tt x -> ewp (assert b) Q x.
Proof. by intros ->. Qed.
Lemma ewp_reset Q x : Q tt (x <| x_nread := 0 |> <| x_parser ::= fun p => p <| hp_nread := 0 |> |>) -> ewp reset_nread Q x.
Proof. done. Qed.
Lemma ewp_count v Q x : (Q tt (x <| x_nread := wrap 32 (x_nread x + v) |>)) -> ewp (COUNT_HEADER_SIZE v) Q x.
Proof. unfold ewp, COUNT_HEADER_SIZE. intros HQ. destruct (_ <? _); [by apply (@ewp_error unit)|done]. Qed.
Lemma ewp_return {A} c (Q : A -> exec U -> Prop) x :
  0 <= hp_content_length (x_parser x) <= ULLONG_MAX -> fits 0 (x_state x) (x_nread x) (x_parser x) -> ewp (RETURN c) Q x.
Proof. intros H1 H2. right. split; [exact H1|exact H2]. Qed.

(** After a callback the parser is as it was, or it has been reset; or the function returns. *)
Lemma ewp_called e c r p u Q x : broken e = true -> stored (saved x) -> touched (saved x) p ->
  (hp_errno (x_parser x) = HPE_OK -> Q tt (x <| x_parser := saved x |> <| x_user := u |>)) -> hp_errno (x_parser x) = HPE_OK ->
  (forall t, Q tt (x <| x_parser := http_parser_init t |> <| x_state := hp_state (http_parser_init t) |> <| x_user := u |>)) ->
  ewp (called e c (Some (r, p, u))) Q x.
Proof.
  intros He Hs Ht HQ Ho HR. pose proof (touched_stored _ _ Hs Ht) as Hp. unfold ewp, called.
  destruct (r =? 0); cbv zeta; [|cbn; destruct e; try discriminate He; by left].
  destruct Ht as (q & e' & Hq & He' & ->). cbn [hp_errno fupd]. change (hp_errno (q <| hp_errno := e' |>)) with e'.
  destruct e'; try discriminate He'; [|by right].
  destruct Hq as [->|[t ->]].
  - specialize (HQ Ho). destruct x as [[] s n m u0]. cbn in Ho. subst. exact HQ.
  - specialize (HR t). destruct t; exact HR.
Qed.
Lemma ewp_notify c cb Q x : hp_errno (x_parser x) = HPE_OK -> stored (saved x) ->
  (forall u, Q tt (x <| x_parser := saved x |> <| x_user := u |>)) ->
  (forall t u, Q tt (x <| x_parser := http_parser_init t |> <| x_state := hp_state (http_parser_init t) |> <| x_user := u |>)) ->
  ewp (CALLBACK_NOTIFY_ settings c cb) Q x.
Proof.
  unfold ewp at 1, CALLBACK_NOTIFY_. intros He Hs HQ HR. rewrite He.
  destruct (so_cb _ HS cb (saved x) (x_user x) He) as (r & p & u & -> & Ht).
  apply (ewp_called (HPE_CB cb) c r p u); [done|done|done|intros _; apply HQ|done|intros t; apply HR].
Qed.
Lemma ewp_data c more cb Q x o : hp_errno (x_parser x) = HPE_OK -> x_marks x = set_mark cb o no_marks ->
  (o = None \/ stored (saved x)) ->
  (forall u p, p = x_parser x \/ p = saved x -> Q tt (x <| x_parser := p |> <| x_marks := no_marks |> <| x_user := u |>)) ->
  (forall t u, Q tt (x <| x_parser := http_parser_init t |> <| x_state := hp_state (http_parser_init t) |> <| x_marks := no_marks |>
                       <| x_user := u |>)) ->
  ewp (CALLBACK_DATA_ settings c more cb) Q x.
Proof.
  intros He Hm Hs HQ HR. unfold ewp at 1, CALLBACK_DATA_. rewrite He.
  destruct (mark_of cb (x_marks x)) as [s|] eqn:E.
  - assert (stored (saved x)) as Hst by (destruct Hs as [->|]; [rewrite Hm in E; by destruct cb|done]).
    destruct (so_data _ HS cb (saved x) (s ++ more) (x_user x) He) as (r & p & u & -> & Ht).
    apply (ewp_bind (called (HPE_CB_data cb) c (Some (r, p, u)))).
    apply (ewp_called (HPE_CB_data cb) c r p u); [done|done|done| |done|]; unfold ewp.
    + intros _. specialize (HQ u (saved x) (or_intror eq_refl)). destruct x as [q st n m u0]; cbn in Hm; subst m; destruct cb; exact HQ.
    + intros t. specialize (HR t u). destruct x as [q st n m u0]; cbn in Hm; subst m; destruct cb; exact HR.
  - specialize (HQ (x_user x) (x_parser x) (or_introl eq_refl)). rewrite Hm in *. destruct x as [p s n m u]. cbn in *.
    replace no_marks with m in HQ; [exact HQ|]. rewrite Hm. destruct cb; cbn in E; subst o; reflexivity.
Qed.
Lemma ewp_mark cb Q x o : x_marks x = set_mark cb o no_marks ->
  (forall o, Q tt (x <| x_marks := set_mark cb o no_marks |>)) -> ewp (MARK cb) Q x.
Proof.
  unfold ewp, MARK. intros Hm HQ. destruct (mark_of cb (x_marks x)) as [s|] eqn:E.
  - specialize (HQ o). destruct x as [p st n m u]. cbn in *. by rewrite Hm.
  - specialize (HQ (Some [])). destruct x as [p st n m u]. cbn in Hm. subst m. destruct cb; exact HQ.
Qed.

(** How often a state can lead to [REEXECUTE] *)
Definition rank (s : state) : nat :=
  match s with
  | s_header_value_lws | s_header_value_discard_lws => 4
  | s_header_field_start => 3
  | s_res_status_code | s_headers_almost_done | s_header_value | s_body_identity => 2
  | s_start_req_or_res | s_res_status_start => 1
  | _ => 0
  end.
Definition kept (s : state) (a : action) (x : exec U) : Prop :=
  match a with
  | Break => Inv 0 x
  | Reexecute => Inv 1 x /\ (rank (x_state x) < rank s)%nat
  end.

Definition by_byte (s : state) : bool :=
  match s with s_header_field | s_header_value | s_body_identity | s_body_identity_eof | s_chunk_data => false | _ => true end.
End Safety.

(** One step of a case *)
Ltac estep :=
  lazymatch goal with
  | |- ewp (ebind _ _) _ _ => apply ewp_bind
  | |- ewp (eret _) _ _ => apply ewp_ret
  | |- ewp parser _ _ => apply ewp_parser
  | |- ewp CURRENT_STATE _ _ => apply ewp_state
  | |- ewp (update _) _ _ => apply ewp_update
  | |- ewp (UPDATE_STATE _) _ _ => apply ewp_goto
  | |- ewp (error _) _ _ => apply ewp_error; reflexivity
  | |- ewp (require _ _) _ _ => apply ewp_require; [reflexivity|intros ?]
  | |- ewp (STRICT_CHECK _) _ _ => apply ewp_strict; intros ?
  | |- ewp (assert _) _ _ => apply ewp_assert
  | |- ewp (fun x => assert _ x) _ _ => apply ewp_assert
  | |- ewp reset_nread _ _ => apply ewp_reset
  | |- ewp (COUNT_HEADER_SIZE _) _ _ => apply ewp_count
  | |- ewp (RETURN _) _ _ => apply ewp_return
  | |- ewp (CALLBACK_NOTIFY_ _ _ _) _ _ => apply ewp_notify; [assumption|cbn; assumption| |intros ?|intros [] ?]
  | |- ewp (CALLBACK_DATA_ _ _ _ _) _ _ =>
      eapply ewp_data; [assumption|cbn; assumption|reflexivity|right|intros ?u ?p [->| ->]|intros [] ?]
  | |- ewp (MARK _) _ _ => eapply ewp_mark; [reflexivity|intros ?]
  | |- ewp (if ?b then _ else _) _ _ => destruct b eqn:?
  | |- ewp (match ?b with _ => _ end) _ _ => destruct b eqn:?
  end.

Create HintDb http.
#[export] Hint Unfold case_dead case_start_req_or_res case_res_or_resp_H case_start_res case_letter case_http_major
  case_http_dot case_http_minor case_res_http_end case_res_first_status_code case_res_status_code case_res_status_start
  case_res_status case_res_line_almost_done case_start_req case_req_method url_char case_req_spaces_before_url case_req_schema
  case_req_url case_req_http_start case_req_http_end case_req_line_almost_done case_header_field_start
  case_header_value_discard_ws case_header_value_discard_ws_almost_done case_header_value_discard_lws case_header_value_start
  case_header_almost_done case_header_value_lws case_headers_almost_done case_headers_done header_flag set_header_state
  add_flag case_message_done complete case_chunk_size_start case_chunk_size case_chunk_parameters case_chunk_size_almost_done
  case_chunk_data_almost_done case_chunk_data_done chunked break again goto REEXECUTE CALLBACK_NOTIFY CALLBACK_DATA
  CALLBACK_DATA_NOADVANCE CALLBACK_NOTIFY_NOADVANCE : http.

(** What is left is the invariant of a known state. *)
Ltac eclose :=
  unfold kept, Inv, parser_fits, stored in *; cbn -[has_flag] in *; unfold ULLONG_MAX in *;
  repeat match goal with
    | |- _ /\ _ => split
    | |- exists _, _ => eexists; reflexivity
    end; try done; try lia.
Ltac esolve := autounfold with http; repeat estep; try solve [eclose].

Section Cases.
Context {U : Type} (settings : http_parser_settings U) (HS : settings_ok settings).

(** *** URLs *)

Definition url_state (s : state) : bool := bool_decide (data_state s = Some cb_url).
Lemma parse_url_state s ch : parse_url_char s ch = s_dead \/ url_state (parse_url_char s ch) = true.
Proof. unfold parse_url_char. repeat case_match; auto; by right. Qed.
Lemma url_marked s o : url_state s = true -> marked s o = set_mark cb_url o no_marks.
Proof. destruct s; first [discriminate|reflexivity]. Qed.
Lemma url_fits s first n p : url_state s = true -> fits first s n p.
Proof. destruct s; first [discriminate|exact (fun _ => I)]. Qed.
Lemma url_char_ok s ch p n o u : hp_errno p = HPE_OK -> 0 <= hp_content_length p <= ULLONG_MAX ->
  ewp (url_char ch) (fun a x => a = Break /\ Inv 0 x) (MkExec p s n (set_mark cb_url o no_marks) u : exec U).
Proof.
  intros He Hl. autounfold with http. repeat estep. cbn in Heqb |- *. apply bool_decide_eq_false in Heqb. split; [done|].
  destruct (parse_url_state s ch) as [E|E]; [done|].
  split; [unfold parser_fits; cbn; split_and!; [done|lia|lia|by apply url_fits]|]. exists o. cbn. by rewrite url_marked.
Qed.
Lemma url_break s (x : exec U) a : a = Break /\ Inv 0 x -> kept s a x.
Proof. by intros [-> H]. Qed.

Lemma url_states_ok s ch (x : exec U) : url_state s = true -> x_state x = s -> Inv 1 x -> ewp (case_byte settings s ch) (kept s) x.
Proof.
  destruct x as [p st n m u]. intros Hs E [(He & Hl & _) [o Hm]]. cbn [x_state x_parser x_nread x_marks] in *. subst st m.
  rewrite url_marked by done.
  assert (ewp (url_char ch) (kept s) (MkExec p s n (set_mark cb_url o no_marks) u)) as W.
  { eapply ewp_mono; [by apply url_char_ok|]. intros a x. apply url_break. }
  destruct s; try discriminate Hs; cbn [case_byte]; unfold case_req_schema, case_req_url.
  all: repeat (match goal with |- ewp (url_char _) _ _ => exact W | |- ewp (UPDATE_STATE (if ?b then _ else _)) _ _ => destruct b
                 | |- ewp (break) _ _ => apply ewp_ret | |- ewp (CALLBACK_DATA _ _) _ _ => unfold CALLBACK_DATA | _ => estep end);
    try solve [eclose].
Qed.

(** *** Numbers *)

Lemma digit_bound ch : IS_NUM ch = true -> 0 <= digit ch <= 9.
Proof. intros Hn. destruct ch; first [discriminate Hn|by split]. Qed.
Lemma unhex_bound ch : unhex ch <> -1 -> 0 <= unhex ch <= 15.
Proof. intros Hn. destruct ch; vm_compute in Hn |- *; first [by destruct Hn|by split]. Qed.
Lemma more_digits l d b : 2 <= b <= 16 -> 0 <= l -> 0 <= d < b -> ((ULLONG_MAX - b) `div` b <? l) = false ->
  0 <= wrap 64 (l * b + d) < ULLONG_MAX.
Proof.
  unfold ULLONG_MAX. intros Hb Hl Hd Ho. apply Z.ltb_ge in Ho.
  assert (l * b <= 2 ^ 64 - 1 - b) by (pose proof (Z.mul_div_le (2 ^ 64 - 1 - b) b ltac:(lia)); nia).
  rewrite wrap_small; nia.
Qed.

Lemma set_flag_has p f g : 0 <= g -> 0 <= f -> has_flag p f = true -> Z.testbit (set_flag g (hp_flags p)) f = true.
Proof. unfold has_flag, set_flag. intros Hg Hf E. by rewrite Z.lor_spec, E. Qed.
Lemma new_message_start p : NEW_MESSAGE p = s_dead \/ NEW_MESSAGE p = s_start_req \/ NEW_MESSAGE p = s_start_res.
Proof. unfold NEW_MESSAGE, start_state. destruct (http_should_keep_alive p), (hp_type p); auto. Qed.

(** *** The other states *)

Definition line_state (s : state) : bool :=
  match s with
  | s_dead | s_start_req_or_res | s_res_or_resp_H | s_start_res | s_res_H | s_res_HT | s_res_HTT | s_res_HTTP
  | s_res_http_major | s_res_http_dot | s_res_http_minor | s_res_http_end | s_res_first_status_code | s_res_status_code
  | s_res_status_start | s_res_status | s_res_line_almost_done | s_start_req | s_req_method | s_req_http_start | s_req_http_H
  | s_req_http_HT | s_req_http_HTT | s_req_http_HTTP | s_req_http_major | s_req_http_dot | s_req_http_minor | s_req_http_end
  | s_req_line_almost_done => true
  | _ => false
  end.
Lemma line_states_ok s ch (x : exec U) : line_state s = true -> x_state x = s -> Inv 1 x -> ewp (case_byte settings s ch) (kept s) x.
Proof.
  destruct x as [p st n m u]. intros Hs E [(He & Hl & _) [o Hm]]. cbn [x_state x_parser x_nread x_marks] in *. subst st m.
  destruct s; try discriminate Hs; clear Hs; cbn [case_byte marked mark_state data_state]; esolve.
Qed.
Lemma spaces_ok ch (x : exec U) : x_state x = s_req_spaces_before_url -> Inv 1 x ->
  ewp (case_byte settings s_req_spaces_before_url ch) (kept s_req_spaces_before_url) x.
Proof.
  destruct x as [p st n m u]. intros E [(He & Hl & _) [o Hm]]. cbn [x_state x_parser x_nread x_marks] in *. subst st m.
  cbn [case_byte marked mark_state data_state]. unfold case_req_spaces_before_url, break. do 4 try estep; [eclose|].
  repeat estep; (eapply ewp_mono; [by apply url_char_ok|]; intros a x; apply url_break).
Qed.

Lemma first_field_state c : field_state (first_header_state c) = true.
Proof. unfold first_header_state. by repeat case_match. Qed.
Lemma connection_value_state c h : value_state h = true -> value_state (connection_state c h) = true.
Proof. unfold connection_state. by repeat case_match. Qed.

Definition header_state (s : state) : bool :=
  match s with
  | s_header_field_start | s_header_value_discard_ws | s_header_value_discard_ws_almost_done | s_header_value_discard_lws
  | s_header_value_start | s_header_almost_done | s_header_value_lws => true
  | _ => false
  end.
Lemma header_states_ok s ch (x : exec U) : header_state s = true -> x_state x = s -> Inv 1 x -> ewp (case_byte settings s ch) (kept s) x.
Proof.
  destruct x as [p st n m u]. intros Hs E [(He & Hl & _) [o Hm]]. cbn [x_state x_parser x_nread x_marks] in *. subst st m.
  destruct s; try discriminate Hs; clear Hs; cbn [case_byte marked mark_state data_state]; esolve; eclose;
    try match goal with
      | |- field_state _ = true => apply first_field_state
      | |- value_state (if ?b then _ else _) = true => by destruct b
      | |- value_state (connection_state _ _) = true => by apply connection_value_state
      | E : hp_header_state p = _ |- value_state (hp_header_state p) = true => by rewrite E
      | E : IS_NUM ch = true |- _ => apply digit_bound in E; lia
      end.
Qed.

(** The result of [on_headers_complete] does not matter to the invariant. *)
Lemma headers_complete_ok Q (x : exec U) : hp_errno (x_parser x) = HPE_OK ->
  0 <= hp_content_length (x_parser x) <= ULLONG_MAX ->
  (forall p u, broken (hp_errno p) = false -> 0 <= hp_content_length p <= ULLONG_MAX ->
    Q tt (x <| x_parser := p |> <| x_user := u |>)) ->
  ewp (headers_complete settings) Q x.
Proof.
  unfold ewp, headers_complete. intros He Hl HQ.
  destruct (so_cb _ HS cb_headers_complete (x_parser x) (x_user x) He) as (r & p & u & -> & (q & e & Hq & Hb & ->)).
  assert (0 <= hp_content_length q <= ULLONG_MAX) as Hq' by (destruct Hq as [->|[t ->]]; [done|by destruct t]).
  destruct x as [p s n m u0]. destruct (r =? 0); [by apply (HQ _ u)|]. destruct (r =? 2); [by eapply (HQ _ u)|].
  destruct (r =? 1); [by eapply (HQ _ u)|]. by left.
Qed.
(** A paused parser returns, another goes on. *)
Lemma return_if_paused_ok Q (x : exec U) : broken (hp_errno (x_parser x)) = false ->
  0 <= hp_content_length (x_parser x) <= ULLONG_MAX -> fits 0 (x_state x) (x_nread x) (x_parser x) ->
  (hp_errno (x_parser x) = HPE_OK -> Q tt x) -> ewp return_if_paused Q x.
Proof.
  intros Hb Hl Hf HQ. unfold return_if_paused. apply ewp_bind, ewp_parser.
  destruct (hp_errno (x_parser x)); try discriminate Hb; [by apply HQ|by apply ewp_return].
Qed.

Lemma plain_new_message p first n q : fits first (NEW_MESSAGE p) n q.
Proof. by destruct (new_message_start p) as [-> |[-> | ->]]. Qed.
Lemma plain_new_marks p : marked (NEW_MESSAGE p) None = no_marks.
Proof. by destruct (new_message_start p) as [-> |[-> | ->]]. Qed.

Lemma end_states_ok s ch (x : exec U) : match s with s_headers_almost_done | s_headers_done | s_message_done => true | _ => false end = true ->
  x_state x = s -> Inv 1 x -> ewp (case_byte settings s ch) (kept s) x.
Proof.
  destruct x as [p st n m u]. intros Hs E [(He & Hl & _) [o Hm]]. cbn [x_state x_parser x_nread x_marks] in *. subst st m.
  destruct s; try discriminate Hs; clear Hs; cbn [case_byte marked mark_state data_state]; esolve; eclose;
    try match goal with
      | |- fits _ (NEW_MESSAGE _) _ _ => apply plain_new_message
      | |- exists o, _ = marked (NEW_MESSAGE _) o => exists None; by rewrite plain_new_marks
      | |- ewp (headers_complete _) _ _ =>
          apply headers_complete_ok; [done|done|intros ?p ?u ? ?; apply ewp_bind, return_if_paused_ok; [done..|intros ?; eclose]]
      end.
Qed.

Definition chunk_state (s : state) : bool :=
  match s with
  | s_chunk_size_start | s_chunk_size | s_chunk_parameters | s_chunk_size_almost_done | s_chunk_data_almost_done
  | s_chunk_data_done => true
  | _ => false
  end.
Lemma chunk_states_ok s ch (x : exec U) : chunk_state s = true -> x_state x = s -> Inv 1 x -> ewp (case_byte settings s ch) (kept s) x.
Proof.
  destruct x as [p st n m u]. intros Hs E [(He & Hl & Hf) [o Hm]]. cbn [x_state x_parser x_nread x_marks] in *. subst st m.
  destruct s; try discriminate Hs; clear Hs; cbn [case_byte marked mark_state data_state fits] in *; esolve; eclose;
    try (exact (proj1 Hf)); try (rewrite (proj2 Hf); reflexivity);
    assert (unhex ch <> -1) as Hx%unhex_bound by lia; try lia;
    match goal with
    | E : negb ((_ - 16) `div` 16 <? _) = true |- _ =>
        apply negb_true_iff in E; pose proof (more_digits _ (unhex ch) 16 ltac:(lia) (proj1 Hl) ltac:(lia) E) as Hw;
        unfold ULLONG_MAX in Hw; lia
    end.
Qed.

Lemma byte_ok s ch (x : exec U) : by_byte s = true -> x_state x = s -> Inv 1 x -> ewp (case_byte settings s ch) (kept s) x.
Proof.
  intros Hs E HI. destruct (url_state s) eqn:?; [by apply url_states_ok|]. destruct (line_state s) eqn:?; [by apply line_states_ok|].
  destruct (header_state s) eqn:?; [by apply header_states_ok|]. destruct (chunk_state s) eqn:?; [by apply chunk_states_ok|].
  destruct s; try discriminate; first [by apply spaces_ok|by apply end_states_ok].
Qed.

(** ** The cases with loops *)

(** What a case does to the invariant; [s] is the data from the current byte on. *)
Definition good (st : state) (s : bytes) (o : @outcome U) : Prop :=
  match o with
  | OBreak x rest => Inv 0 x /\ (length rest < length s)%nat
  | OReexecute x ch rest => Inv 1 x /\ (rank (x_state x) < rank st)%nat /\ (length rest < length s)%nat
  | OExit x rest => parser_ok (x_parser x) /\ (length rest <= length s)%nat
  | OFailed => False
  end.

Lemma marked_advance s o l : advance_marks l (marked s o) = marked s (extend l o).
Proof. unfold marked. destruct (mark_state s) as [[]|]; by destruct o. Qed.
Lemma advance_inv first l (x : exec U) : Inv first x -> Inv first (x <| x_marks ::= advance_marks l |>).
Proof. intros [HI [o Hm]]. split; [exact HI|]. exists (extend l o). cbn. rewrite Hm. apply marked_advance. Qed.
Lemma at_byte_good st m ch rest s (x : exec U) : ewp m (kept st) x -> (length rest < length s)%nat -> good st s (at_byte ch rest (m x)).
Proof.
  unfold ewp. intros W Hl. destruct (m x) as [[]y|c y|]; cbn -[Inv] in *; [by split; [apply advance_inv|]|by destruct W| |done].
  destruct c; (split; [exact W|cbn; lia]).
Qed.

Lemma field_byte_state ch p p' : field_byte ch p = Some p' -> field_state (hp_header_state p') = true /\
  hp_errno p' = hp_errno p /\ hp_content_length p' = hp_content_length p.
Proof.
  unfold field_byte, matched, match_word. destruct (hp_header_state p) eqn:E; intros [= <-]; cbn;
    repeat case_match; try done; cbn; rewrite ?E; done.
Qed.
Lemma field_byte_some ch p : field_state (hp_header_state p) = true -> is_Some (field_byte ch p).
Proof. unfold field_byte. by destruct (hp_header_state p). Qed.

(** What a loop keeps for the next character *)
Definition field_next (ch : byte) (x : exec U) : exec U := x <| x_marks ::= advance_marks [ch] |>.
Definition in_state (st : state) (x : exec U) : Prop := Inv 1 x /\ x_state x = st.
Lemma in_state_next st ch x : in_state st x -> in_state st (field_next ch x).
Proof. intros [HI E]. split; [by apply advance_inv|done]. Qed.
Lemma in_state_header p' h (x : exec U) st : in_state st x -> (st = s_header_field \/ st = s_header_value) ->
  hp_errno p' = hp_errno (x_parser x) -> 0 <= hp_content_length p' <= ULLONG_MAX ->
  hp_header_state p' = h -> (if bool_decide (st = s_header_field) then field_state h else value_state h) = true ->
  in_state st (x <| x_parser := p' |>).
Proof.
  destruct x as [p s n m u]. intros [[(He & _ & _) Hm] E] Hst He' Hl Hh Hs. cbn in E, He', He. subst s.
  split; [|done]. split; [|exact Hm]. cbn. unfold parser_fits. rewrite He', He. split_and!; [done|lia|lia|]. 
  destruct Hst; subst st h; exact Hs.
Qed.

(** The invariant in the states that do not look at the count *)
Lemma in_state_count st n (x : exec U) : in_state st x -> st = s_header_field \/ st = s_header_value ->
  Inv 0 (x <| x_nread := n |>).
Proof.
  destruct x as [p s m k u]. intros [[HI Hm] E] Hs. cbn in E. subst s. split; [|exact Hm].
  by destruct Hs; subst st.
Qed.

Definition field_end (s : bytes) (r : res U loop_end) : Prop :=
  match r with
  | Ok (LEnd m) x' => in_state s_header_field x'
  | Ok (LStop m ch rest) x' => in_state s_header_field x' /\ (length rest < length s)%nat
  | _ => False
  end.
Lemma field_end_cons ch s r : field_end s r -> field_end (ch :: s) r.
Proof. destruct r as [[|]| |]; try done. intros [H1 H2]. split; [done|cbn; lia]. Qed.

Lemma field_loop_ok len s : forall skip n (x : exec U), in_state s_header_field x -> field_end s (field_loop len skip n s x).
Proof.
  induction s as [|ch s IH]; intros skip n x Hx; cbn [field_loop]; [done|].
  destruct skip as [|skip]; [|by apply field_end_cons, IH, in_state_next].
  destruct (nul (TOKEN ch)); [split; [done|cbn; lia]|].
  assert (field_state (hp_header_state (x_parser x)) = true) as Hf.
  { destruct Hx as [[(_ & _ & Hf) _] E]. by rewrite E in Hf. }
  destruct (field_byte_some ch (x_parser x) Hf) as [p' Ep]. destruct (field_byte_state _ _ _ Ep) as (H1 & H2 & H3).
  assert (in_state s_header_field (x <| x_parser := p' |>)) as Hp.
  { eapply in_state_header; [done|by left|done| |done|exact H1]. rewrite H3. apply Hx. }
  destruct (hp_header_state (x_parser x)); rewrite ?Ep; by apply field_end_cons, IH, in_state_next.
Qed.

Lemma field_ok len ch s (x : exec U) : in_state s_header_field x ->
  good s_header_field (ch :: s) (case_header_field settings len (ch :: s) x).
Proof.
  intros Hx. unfold case_header_field. pose proof (field_loop_ok len (ch :: s) O 0 x Hx) as Hl.
  destruct (field_loop len O 0 (ch :: s) x) as [[m|m c rest] x'| |]; [| |done..].
  - unfold COUNT_HEADER_SIZE. destruct (_ <? _); [split; [by left|cbn; lia]|]. split; [by eapply in_state_count; [|left]|cbn; lia].
  - destruct Hl as [Hx' Hl]. apply at_byte_good; [|done]. destruct Hx' as [[(He & Hcl & _) [o Hm]] Es].
    destruct x' as [p st n mk u]. cbn [x_state x_parser x_nread x_marks] in *. subst st mk.
    cbn [marked mark_state data_state]. esolve.
Qed.

(** *** Values *)

Lemma match_value_state word missed matching found i c : value_state missed = true -> value_state matching = true ->
  value_state found = true -> value_state (match_word word missed matching found i c) = true.
Proof. unfold match_word. by repeat case_match. Qed.

Lemma value_byte_ok h ch (x : exec U) : in_state s_header_value x -> value_state h = true -> h <> h_general ->
  ewp (value_byte h ch) (fun h' x' => value_state h' = true /\ in_state s_header_value x') x.
Proof.
  destruct x as [p st n m u]. intros [[(He & Hl & Hf) [o Hm]] Es] Hh Hg. cbn [x_state x_parser x_nread x_marks] in *. subst st m.
  destruct h; try discriminate Hh; try done; clear Hh Hg;
    unfold value_byte, content_length_num, content_length_digit, value_word, connection_token, set_header_state, add_flag;
    repeat match goal with |- ewp (SET_ERRNO _) _ _ => left; reflexivity | _ => estep end;
    unfold in_state; eclose;
    first [by apply match_value_state|by apply connection_value_state; repeat case_match|idtac];
    match goal with E : negb (IS_NUM ch) = false |- _ => apply negb_false_iff, digit_bound in E as Hd end;
    pose proof (more_digits _ (digit ch) 10 ltac:(lia) (proj1 Hl) ltac:(lia) ltac:(eassumption)) as Hw; unfold ULLONG_MAX in Hw; lia.
Qed.

Definition value_good (s : bytes) (v : @value_end U) : Prop :=
  match v with
  | VEnd m h x => value_state h = true /\ in_state s_header_value x
  | VStop m h ch rest x => value_state h = true /\ in_state s_header_value x /\ (CR ch || LF ch) = true /\ (length rest < length s)%nat
  | VExit x rest => parser_ok (x_parser x) /\ (length rest <= length s)%nat
  | VFailed => False
  end.
Lemma value_good_cons ch s v : value_good s v -> value_good (ch :: s) v.
Proof. destruct v; cbn [value_good length]; intuition lia. Qed.

Lemma value_loop_ok s : forall skip h n (x : exec U), value_state h = true -> in_state s_header_value x ->
  value_good s (value_loop skip h n s x).
Proof.
  induction s as [|ch s IH]; intros skip h n x Hh Hx; cbn [value_loop]; [done|].
  destruct skip as [|skip]; [|by apply value_good_cons, IH; [|apply in_state_next]].
  destruct (CR ch || LF ch) eqn:Ec; [by cbn; auto|].
  unfold require. destruct (hp_lenient (x_parser x) || IS_HEADER_CHAR ch); [cbn [eret]|split; [by left|done]].
  assert (h = h_general \/ h <> h_general) as [->|Hg] by (destruct (decide (h = h_general)); auto).
  { by apply value_good_cons, IH; [|apply in_state_next]. }
  pose proof (value_byte_ok h ch x Hx Hh Hg) as W. unfold ewp in W.
  destruct h; try done; (destruct (value_byte _ ch x) as [h' x'|c x'|]; [|by split|done]); destruct W as [W1 W2];
    by apply value_good_cons, IH; [|apply in_state_next].
Qed.

Lemma value_ok ch s (x : exec U) : in_state s_header_value x -> good s_header_value (ch :: s) (case_header_value settings (ch :: s) x).
Proof.
  intros Hx. unfold case_header_value.
  assert (value_state (hp_header_state (x_parser x)) = true) as Hf.
  { destruct Hx as [[(_ & _ & Hf) _] E]. by rewrite E in Hf. }
  pose proof (value_loop_ok (ch :: s) O _ 0 x Hf Hx) as Hv.
  destruct (value_loop O (hp_header_state (x_parser x)) 0 (ch :: s) x) as [m h x'|m h c rest x'|x' rest|]; [| |exact Hv|done].
  - destruct Hv as [Hh Hx']. unfold COUNT_HEADER_SIZE, set_header_state, update, ebind. 
    assert (in_state s_header_value (x' <| x_parser ::= fun p => p <| hp_header_state := h |> |>)) as Hx2.
    { eapply (in_state_header _ h); [exact Hx'|by right|done|apply Hx'|done|exact Hh]. }
    destruct (_ <? _); [split; [by left|cbn; lia]|]. split; [by eapply (in_state_count _ _ _ Hx2); right|cbn; lia].
  - destruct Hv as (Hh & Hx' & Hc & Hl). destruct Hx' as [[(He & Hcl & _) [o Hm]] Es].
    destruct x' as [p st n mk u]. cbn [x_state x_parser x_nread x_marks] in *. subst st mk.
    destruct (CR c); (apply at_byte_good; [|done]); cbn [marked mark_state data_state]; esolve.
Qed.

(** *** Bodies *)

Lemma last_take_drop n (s : bytes) : s <> [] -> (0 < n <= length s)%nat -> (length (drop n s) < length s)%nat.
Proof. intros Hs Hn. rewrite length_drop. lia. Qed.
Lemma to_read_bound p ch s : 0 < hp_content_length p -> (0 < to_read p (ch :: s) <= length (ch :: s))%nat /\
  Z.of_nat (to_read p (ch :: s)) <= hp_content_length p.
Proof. unfold to_read, zlen. cbn [length]. lia. Qed.
Lemma content_left l n : 0 < l < ULLONG_MAX -> 0 <= n <= l -> wrap 64 (l - n) = l - n.
Proof. unfold ULLONG_MAX. intros Hl Hn. apply wrap_small. lia. Qed.

Lemma mark_run cb p s n o (u : U) : MARK cb (MkExec p s n (set_mark cb o no_marks) u) =
  Ok tt (MkExec p s n (set_mark cb (Some (default [] o)) no_marks) u).
Proof. unfold MARK. destruct cb, o; reflexivity. Qed.

(** The outcomes of reading a piece of a body *)
Lemma body_break p st n o (u : U) k ch s first : parser_fits first st n p -> st = s_body_identity \/ st = s_body_identity_eof \/ st = s_chunk_data \/ st = s_chunk_data_almost_done ->
  first = 0 -> (0 < k)%nat ->
  good st (ch :: s) (OBreak (MkExec p st n (set_mark cb_body o no_marks) u <| x_marks ::= advance_marks (take k (ch :: s)) |>) (drop k (ch :: s))).
Proof.
  intros Hp Hst -> Hk. split; [|rewrite length_drop; cbn [length]; lia]. apply advance_inv. split; [exact Hp|].
  exists o. by destruct Hst as [->|[->|[->| ->]]].
Qed.

(** The parser after reading [k] bytes of the content *)
Definition content_read (k : nat) (p : http_parser) : http_parser :=
  p <| hp_content_length := hp_content_length p - Z.of_nat k |>.
Lemma take_run p st n o (u : U) k : 0 < hp_content_length p < ULLONG_MAX -> Z.of_nat k <= hp_content_length p ->
  (assert (body_length p) ;; MARK cb_body ;; take_content k) (MkExec p st n (set_mark cb_body o no_marks) u) =
  Ok tt (MkExec (content_read k p) st n (set_mark cb_body (Some (default [] o)) no_marks) u).
Proof.
  intros Hl Hk. unfold body_length.
  assert (negb (hp_content_length p =? 0) && negb (hp_content_length p =? ULLONG_MAX) = true) as -> by lia.
  unfold ebind at 1. cbn [assert eret]. unfold ebind. rewrite mark_run. unfold take_content, update, content_read.
  f_equal. destruct p. cbn in Hl, Hk. unfold fupd. cbn. by rewrite content_left by lia.
Qed.

Lemma body_ok ch s (x : exec U) : in_state s_body_identity x -> good s_body_identity (ch :: s) (case_body_identity settings (ch :: s) x).
Proof.
  intros [[(He & Hcl & Hf) [o Hm]] Es]. destruct x as [p st n mk u]. cbn [x_state x_parser x_nread x_marks] in *. subst st mk.
  cbn [fits] in Hf. destruct (to_read_bound p ch s ltac:(lia)) as [Hr Hr']. unfold case_body_identity. cbn [x_parser].
  set (k := to_read p (ch :: s)) in *. change (marked s_body_identity o) with (set_mark cb_body o no_marks).
  rewrite take_run by lia. cbv iota beta. cbn [x_parser]. change (hp_content_length (content_read k p)) with (hp_content_length p - Z.of_nat k).
  destruct (Z.eqb_spec (hp_content_length p - Z.of_nat k) 0) as [E|E].
  - match goal with |- good _ _ (match ?m ?x with _ => _ end) => assert (ewp m (fun _ x' => Inv 1 x' /\ (rank (x_state x') < 2)%nat) x) as W end.
    { apply ewp_bind, ewp_goto. eapply ewp_data; [done|done|reflexivity|right; eclose| |intros [] ?; eclose]. intros ?u ?p [->| ->]; eclose. }
    unfold ewp in W. destruct (_ ;; _)%exec as [[] x'|c x'|].
    + destruct W as [W1 W2]. cbn [good]. split_and!; [done|done|]. rewrite length_drop. cbn [length]. lia.
    + split; [done|]. cbn [length]. rewrite length_drop. cbn [length]. lia.
    + done.
  - apply (body_break _ _ _ _ _ _ _ _ 0); [|by left|done|lia]. split_and!; [done|cbn; lia..|]. cbn. lia.
Qed.

Lemma eof_ok ch s (x : exec U) : in_state s_body_identity_eof x -> good s_body_identity_eof (ch :: s) (case_body_identity_eof (ch :: s) x).
Proof.
  intros [[Hp [o Hm]] Es]. destruct x as [p st n mk u]. cbn [x_state x_parser x_nread x_marks] in *. subst st mk.
  unfold case_body_identity_eof. change (marked s_body_identity_eof o) with (set_mark cb_body o no_marks). rewrite mark_run.
  split; [|cbn; lia]. apply advance_inv. split; [exact Hp|]. by eexists.
Qed.

Lemma ebind_ok {A B} (m : E U A) (k : A -> E U B) x a x' : m x = Ok a x' -> ebind m k x = k a x'.
Proof. unfold ebind. by intros ->. Qed.
Lemma ebind_assoc {A B C} (m : E U A) (k : A -> E U B) (h : B -> E U C) x :
  ebind m (fun a => ebind (k a) h) x = ebind (ebind m k) h x.
Proof. unfold ebind. by destruct (m x). Qed.

Lemma chunk_data_ok ch s (x : exec U) : in_state s_chunk_data x -> good s_chunk_data (ch :: s) (case_chunk_data (ch :: s) x).
Proof.
  intros [[(He & Hcl & Hf) [o Hm]] Es]. destruct x as [p st n mk u]. cbn [x_state x_parser x_nread x_marks] in *. subst st mk.
  cbn [fits] in Hf. destruct Hf as [Hc Hf]. destruct (to_read_bound p ch s ltac:(lia)) as [Hr Hr']. unfold case_chunk_data. cbn [x_parser].
  set (k := to_read p (ch :: s)) in *. change (marked s_chunk_data o) with (set_mark cb_body o no_marks).
  erewrite (ebind_ok chunked); [|unfold chunked, ebind, parser; cbn [x_parser]; by rewrite Hc]. cbv beta.
  unfold ebind at 1. pose proof (take_run p s_chunk_data n o u k Hf Hr') as Ht. unfold ebind in Ht at 1.
  destruct (assert (body_length p) _) as [a x1|c x1|]; [|discriminate Ht..]. cbv beta iota in Ht |- *.
  rewrite ebind_assoc. rewrite (ebind_ok _ _ _ _ _ Ht). unfold ebind, parser. cbn [x_parser].
  change (hp_content_length (content_read k p)) with (hp_content_length p - Z.of_nat k).
  destruct (Z.eqb_spec (hp_content_length p - Z.of_nat k) 0) as [E|E].
  - apply (body_break _ _ _ _ _ _ _ _ 0); [|by auto|done|lia]. split_and!; [done|cbn; lia..|]. cbn -[has_flag]. split; [exact Hc|lia].
  - apply (body_break _ _ _ _ _ _ _ _ 0); [|by auto|done|lia]. split_and!; [done|cbn; lia..|]. cbn -[has_flag]. split; [exact Hc|lia].
Qed.

(** ** The whole parser *)

Lemma case_ok len ch rest (x : exec U) : Inv 1 x -> good (x_state x) (ch :: rest) (case settings len ch rest x).
Proof.
  intros HI. unfold case. assert (in_state (x_state x) x) as Hx by done. destruct (by_byte (x_state x)) eqn:Hb.
  - pose proof (byte_ok _ ch x Hb eq_refl HI) as W. destruct (x_state x); try discriminate Hb; (apply at_byte_good; [exact W|cbn; lia]).
  - destruct (x_state x); try discriminate Hb; [by apply field_ok|by apply value_ok|by apply chunk_data_ok|by apply body_ok|by apply eof_ok].
Qed.

Definition steps (s : bytes) (o : @outcome U) : Prop :=
  match o with
  | OBreak x rest => Inv 0 x /\ (length rest < length s)%nat
  | OExit x rest => parser_ok (x_parser x) /\ (length rest <= length s)%nat
  | _ => False
  end.
Lemma switch_ok fuel len s : forall ch rest (x : exec U), Inv 1 x -> (rank (x_state x) <= fuel)%nat -> (length rest < length s)%nat ->
  steps s (switch settings fuel len ch rest x).
Proof.
  induction fuel as [|fuel IH]; intros ch rest x HI Hr Hl; cbn [switch]; pose proof (case_ok len ch rest x HI) as Hg;
    (destruct (case settings len ch rest x) as [y r|y c r|y r|]; cbn [good length steps] in *).
  1,5: destruct Hg; split; [done|lia].
  2,5: destruct Hg; split; [done|lia].
  2,4: done.
  - destruct Hg as (_ & Hk & _). exfalso. lia.
  - destruct Hg as (HI' & Hk & Hl'). apply IH; [done|lia|lia].
Qed.
Lemma rank_bound s : (rank s <= reexecutions)%nat.
Proof. destruct s; cbn; unfold reexecutions; lia. Qed.

(** A state with at most one mark; if there is one, the count of header bytes does not matter. *)
Definition one_mark (x : exec U) : Prop :=
  parser_fits 0 (x_state x) (x_nread x) (x_parser x) /\ exists cb o, x_marks x = set_mark cb o no_marks /\
  (o = None \/ forall n, fits 0 (x_state x) n (x_parser x)).
Lemma inv_one_mark x : Inv 0 x -> one_mark x.
Proof.
  intros [Hp [o Hm]]. split; [done|]. unfold marked in Hm. destruct (mark_state (x_state x)) as [cb|] eqn:E; [|by exists cb_url, None; auto].
  exists cb, o. split; [done|]. right. intros n. destruct Hp as (_ & _ & Hf). by destruct (x_state x).
Qed.
Lemma one_mark_data c cb (x : exec U) : one_mark x -> ewp (CALLBACK_DATA_ settings c [] cb) (fun _ => one_mark) x.
Proof.
  intros [Hp (cb' & o & Hm & Ho)]. destruct x as [p s n m u]. cbn [x_state x_nread x_parser x_marks] in *. subst m.
  destruct (decide (cb = cb')) as [<-|Hn].
  - eapply ewp_data; [done|apply Hp|reflexivity| | |].
    + destruct Ho as [->|Hf]; [by left|right]. split; [apply Hp|apply Hf].
    + intros u' p' E. split; [|by exists cb, None; split; [destruct cb|left]].
      destruct Hp as (H1 & H2 & H3). destruct E as [->| ->]; [done|]. split_and!; [done|apply H2..|]. by destruct s.
    + intros t u'. split; [by destruct t|]. by exists cb, None; split; [destruct cb|left].
  - destruct Hp as (H1 & H2). unfold ewp, CALLBACK_DATA_. cbn [x_parser]. rewrite H1. cbn [x_marks].
    assert (mark_of cb (set_mark cb' o no_marks) = None) as -> by (by destruct cb, cb'). split; [done|]. by exists cb', o.
Qed.
Lemma leftover_ok (x : exec U) : Inv 0 x -> exists c x', leftover settings x = Exit c x' /\ parser_ok (x_parser x').
Proof.
  intros HI%inv_one_mark. assert (ewp (leftover settings) (fun _ _ => False) x) as W.
  { unfold leftover, CALLBACK_DATA_NOADVANCE. apply ewp_bind. apply (ewp_assert _ _ x).
    { destruct HI as [_ (cb & o & -> & _)]. by destruct cb, o. }
    do 5 (apply ewp_bind; eapply ewp_mono; [by apply one_mark_data|]; clear HI x; intros [] x HI).
    apply ewp_return; apply HI. }
  unfold ewp in W. destruct (leftover settings x) as [? ?|c x'|]; [done|by exists c, x'|done].
Qed.

Lemma loop_ok len fuel : forall s (x : exec U), Inv 0 x -> (length s <= fuel)%nat ->
  exists x' rest, loop settings fuel len s x = Some (x', rest) /\ parser_ok (x_parser x') /\ (length rest <= length s)%nat.
Proof.
  induction fuel as [|fuel IH]; intros [|ch rest] x HI Hl; cbn [length] in Hl; try lia; cbn [loop].
  1,2: destruct (leftover_ok x HI) as (c & x' & -> & Hx'); exists x', []; by split_and!.
  assert (ewp count_byte (fun _ => Inv 1) x) as W.
  { unfold count_byte. destruct HI as [(He & Hcl & Hf) Hm]. destruct x as [p s n m u]. cbn [x_state x_nread x_parser x_marks] in *.
    unfold ewp. cbn [x_state]. destruct (PARSING_HEADER s) eqn:Ep; [apply ewp_count|]; (split; [|exact Hm]); (split_and!; [done|apply Hcl..|]);
      destruct s; try done. cbn. split; [apply Hf|]. destruct Hf as [_ ->]. reflexivity. }
  unfold ewp in W. destruct (count_byte x) as [[] y|c y|]; [|by exists y, (ch :: rest)|done].
  pose proof (switch_ok reexecutions len (ch :: rest) ch rest y W (rank_bound _) ltac:(cbn; lia)) as Hs.
  destruct (switch settings reexecutions len ch rest y) as [z r| |z r|]; cbn [steps length] in Hs; [|done| |done].
  - destruct Hs as [Hz Hr]. destruct (IH r z Hz ltac:(lia)) as (x' & rest' & -> & Hx' & Hl'). exists x', rest'. split_and!; [done|done|cbn; lia].
  - destruct Hs as [Hz Hr]. exists z, r. by split_and!.
Qed.

Lemma enter_inv p (u : U) : hp_errno p = HPE_OK -> parser_ok p -> Inv 0 (enter p u).
Proof.
  intros He [Hn|Hp]; [by rewrite He in Hn|]. split; [split; [exact He|exact Hp]|]. unfold enter, first_marks, marked. cbn [x_state x_marks].
  destruct (hp_state p); first [by exists (Some [])|by exists None].
Qed.

Lemma execute_ok p (u : U) data : parser_ok p ->
  exists n p' u', http_parser_execute settings p u data = Some (n, p', u') /\ parser_ok p' /\ 0 <= n /\ (data <> [] -> n <= zlen data).
Proof.
  intros Hp. unfold http_parser_execute. destruct (decide (hp_errno p = HPE_OK)) as [He|He].
  2: { destruct (hp_errno p); try done; exists 0, p, u; (split_and!; [done|done|lia|]); unfold zlen; lia. }
  pose proof (enter_inv p u He Hp) as HI. rewrite He. destruct data as [|b data].
  - assert (forall n, 0 <= n -> exists n' p' u', Some (n, p <| hp_errno := HPE_INVALID_EOF_STATE |>, u) = Some (n', p', u') /\
      parser_ok p' /\ 0 <= n' /\ (@nil byte <> [] -> n' <= zlen (@nil byte))) as Hbad.
    { intros n Hn. exists n, (p <| hp_errno := HPE_INVALID_EOF_STATE |>), u. split_and!; [done|by left|done|done]. }
    destruct (hp_state p) eqn:Es; try (by apply Hbad); try (exists 0, p, u; by split_and!).
    assert (ewp (CALLBACK_NOTIFY_NOADVANCE settings cb_message_complete) (fun _ x => parser_ok (x_parser x)) (enter p u)) as W.
    { assert (stored (saved (enter p u))) as Hst by (destruct Hp as [Hp|Hp]; [by rewrite He in Hp|exact Hp]).
      apply ewp_notify; [done|done|done|intros u'; by right|intros t u'; right; by destruct t]. }
    unfold ewp in W. destruct (CALLBACK_NOTIFY_NOADVANCE _ _ _) as [[] x|c x|]; [| |done];
      (exists 0, (x_parser x), (x_user x); by split_and!).
  - destruct (loop_ok (zlen (b :: data)) (length (b :: data)) (b :: data) (enter p u) HI ltac:(lia)) as (x' & rest & -> & Hx & Hl).
    exists (zlen (b :: data) - zlen rest), (x_parser x'), (x_user x'). unfold zlen. split_and!; [done|done|lia|lia].
Qed.
End Cases.

Lemma init_ok t : parser_ok (http_parser_init t).
Proof. right. apply (init_stored t HPE_OK). Qed.

(** ** Slots *)

Lemma touched_refl p : broken (hp_errno p) = false -> touched p p.
Proof. intros Hb. exists p, (hp_errno p). split_and!; [by left|done|by destruct p]. Qed.
Lemma touched_trans p1 p2 p3 : touched p1 p2 -> touched p2 p3 -> touched p1 p3.
Proof.
  intros (q & e & Hq & _ & ->) (q' & e' & [->|Hq'] & He' & ->); [exists q, e'|exists q', e']; split_and!; try done. by right.
Qed.
Lemma touched_broken p p' : touched p p' -> broken (hp_errno p') = false.
Proof. by intros (q & e & _ & He & ->). Qed.

Section Streams.
Context {V : Type} (slot : http_signal -> http_parser -> V -> V * list slot_call).
Implicit Types h : HttpParser (V := V).

Lemma slot_run_ok call h : broken (hp_errno (m_parser h)) = false ->
  exists h', slot_run call h = Some h' /\ touched (m_parser h) (m_parser h').
Proof.
  intros Hb. destruct call as [|len|paused|type]; cbn [slot_run]; try (eexists; split; [done|by apply touched_refl]).
  - unfold Pause, http_parser_pause. destruct (hp_errno (m_parser h)); try discriminate Hb; eexists; (split; [done|]);
      (exists (m_parser h), (if paused then HPE_PAUSED else HPE_OK); split_and!; [by left|by destruct paused|done]).
  - eexists. split; [done|]. exists (http_parser_init type), HPE_OK. split_and!; [by right; exists type|done|done].
Qed.
Lemma slot_runs_ok calls h : broken (hp_errno (m_parser h)) = false ->
  exists h', slot_runs calls h = Some h' /\ touched (m_parser h) (m_parser h').
Proof.
  revert h. induction calls as [|call calls IH]; intros h Hb; cbn [slot_runs]; [exists h; split; [done|by apply touched_refl]|].
  destruct (slot_run_ok call h Hb) as (h1 & -> & T1). destruct (IH h1 (touched_broken _ _ T1)) as (h2 & E2 & T2).
  exists h2. split; [exact E2|by eapply touched_trans].
Qed.

(** A callback that does not fail *)
Definition cb_ok (f : HttpParser (V := V) -> option (Z * HttpParser)) : Prop := forall h, broken (hp_errno (m_parser h)) = false ->
  exists r h', f h = Some (r, h') /\ touched (m_parser h) (m_parser h').
Lemma cb_done r : cb_ok (fun h => Some (r h, h)).
Proof. intros h Hb. exists (r h), h. split; [done|by apply touched_refl]. Qed.
Lemma cb_emit (sig : HttpParser -> http_signal) k : cb_ok k -> cb_ok (fun h => emit slot (sig h) h ≫= k).
Proof.
  intros Hk h Hb. unfold emit. destruct (slot _ _ _) as [v calls].
  match goal with |- context [slot_runs calls ?h0] => destruct (slot_runs_ok calls h0 Hb) as (h1 & -> & T1) end.
  destruct (Hk h1 (touched_broken _ _ T1)) as (r & h2 & E2 & T2). exists r, h2. split; [exact E2|]. exact (touched_trans _ _ _ T1 T2).
Qed.
Lemma cb_collect f k : cb_ok k -> cb_ok (fun h => k (collect f h)).
Proof. intros Hk h Hb. exact (Hk (collect f h) Hb). Qed.
Lemma cb_if (b : HttpParser -> bool) k1 k2 : cb_ok k1 -> cb_ok k2 -> cb_ok (fun h => if b h then k1 h else k2 h).
Proof. intros H1 H2 h Hb. cbn. destruct (b h); [by apply H1|by apply H2]. Qed.
Lemma cb_emit_if st sig k : cb_ok k -> cb_ok (emit_if slot st sig k).
Proof.
  intros Hk. unfold emit_if. apply (cb_if (fun h => bool_decide (m_state (m_collector h) = st))); [|done].
  apply (cb_emit (fun h => sig (m_collector h))), (cb_if aborted); [apply (cb_done (fun _ => 1))|done].
Qed.
Lemma cb_emit_complete k : cb_ok k -> cb_ok (emit_complete slot k).
Proof. intros Hk. by do 3 apply cb_emit_if. Qed.
Lemma cb_result : cb_ok result.
Proof. apply (cb_done (fun h => if aborted h then 1 else 0)). Qed.
(** Data is appended to a buffer unless it is too long. *)
Lemma cb_append (b : HttpParser -> bool) f : cb_ok (fun h => if b h then Some (1, h) else Some (0, collect f h)).
Proof. apply cb_if; [apply (cb_done (fun _ => 1))|]. exact (cb_collect f _ (cb_done (fun _ => 0))). Qed.

Lemma callback_ok f p (c : Collector V) : cb_ok f -> hp_errno p = HPE_OK ->
  exists r p' c', callback f p c = Some (r, p', c') /\ touched p p'.
Proof.
  intros Hf He. unfold callback. destruct (Hf (MkHttpParser p c)) as (r & h & -> & T); [cbn; by rewrite He|]. by eexists r, _, _.
Qed.
Lemma settings_slots_ok : settings_ok (m_settings slot).
Proof.
  split; intros cb p.
  - intros c. apply callback_ok. destruct cb.
    + apply (cb_collect _ (fun h => emit slot messageBegin h ≫= result)), (cb_emit (fun _ => messageBegin)), cb_result.
    + apply cb_emit_complete, (cb_emit (fun h => headersComplete (http_should_keep_alive (m_parser h)))), cb_result.
    + apply (cb_emit (fun h => messageComplete (http_should_keep_alive (m_parser h)))), cb_result.
    + apply (cb_emit (fun h => chunkHeader (hp_content_length (m_parser h)))), cb_result.
    + apply (cb_emit (fun _ => chunkComplete)), cb_result.
  - intros s c. apply callback_ok. destruct cb.
    + apply (cb_append (fun h => m_maxLength (m_collector h) <? zlen (m_urlBuf (m_collector h)) + zlen s)).
    + apply (cb_append (fun h => m_maxLength (m_collector h) <? zlen (m_valueBuf (m_collector h)) + zlen s)).
    + apply cb_emit_complete, (cb_collect _ (fun h => if m_maxLength (m_collector h) <? zlen (m_fieldBuf (m_collector h)) + zlen s
        then Some (1, h) else Some (0, collect (fun c => c <| m_fieldBuf ::= fun b => b ++ s |>) h))), cb_append.
    + apply (cb_collect _ (fun h => if m_maxLength (m_collector h) <? zlen (m_valueBuf (m_collector h)) + zlen s
        then Some (1, h) else Some (0, collect (fun c => c <| m_valueBuf ::= fun b => b ++ s |>) h))), cb_append.
    + apply (cb_emit (fun h => body s (http_body_is_final (m_parser h)))), cb_result.
Qed.

(** ** Streams *)

(** What the owner of a parser does: it gives it the next piece of a stream, or calls one of
    the methods that a slot may call. *)
Inductive http_op := OpExecute (data : bytes) | OpCall (call : slot_call).
(** The operations one after the other, with what is left of each piece *)
Fixpoint feed (ops : list http_op) h : option (list bytes * HttpParser) :=
  match ops with
  | [] => Some ([], h)
  | OpExecute data :: ops => '(rest, h) ← Execute slot data h; '(rests, h) ← feed ops h; Some (rest :: rests, h)
  | OpCall call :: ops => h ← slot_run call h; feed ops h
  end.
(** A piece is not empty, which would be the end of the stream, and a parser with an error is
    not paused. *)
Definition http_permitted (op : http_op) h : bool :=
  match op with
  | OpExecute data => negb (bool_decide (data = []))
  | OpCall (call_Pause _) => negb (broken (hp_errno (m_parser h)))
  | OpCall _ => true
  end.
Fixpoint http_allowed (ops : list http_op) h : bool :=
  match ops with
  | [] => true
  | op :: ops =>
      http_permitted op h &&
      match feed [op] h with Some (_, h) => http_allowed ops h | None => true end
  end.
Definition pieces (ops : list http_op) : list bytes := omap (fun op => match op with OpExecute data => Some data | _ => None end) ops.

Lemma Execute_ok data h : data <> [] -> parser_ok (m_parser h) ->
  exists n h', Execute slot data h = Some (drop n data, h') /\ parser_ok (m_parser h').
Proof.
  intros Hd Hp. destruct (execute_ok (m_settings slot) settings_slots_ok _ (m_collector h) data Hp) as (n & p & c & E & Hp' & Hn & Hl).
  unfold Execute. rewrite E. specialize (Hl Hd). replace (zlen data <? n) with false by lia. by eexists _, _.
Qed.
Lemma call_ok call h : http_permitted (OpCall call) h = true -> parser_ok (m_parser h) ->
  exists h', slot_run call h = Some h' /\ parser_ok (m_parser h').
Proof.
  intros Hc Hp. destruct call as [|len|paused|type]; cbn [slot_run http_permitted] in *; try (eexists; split; [done|exact Hp]).
  - apply negb_true_iff in Hc. destruct (slot_run_ok (call_Pause paused) h Hc) as (h' & E & T). exists h'. split; [exact E|].
    right. eapply touched_stored; [|exact T]. destruct Hp as [Hp|Hp]; [congruence|done].
  - eexists. split; [done|]. apply init_ok.
Qed.

(** C8.  No assertion of the HTTP parser fails, whatever comes over the network and in whatever
    pieces.  Start a parser, and let its owner give it pieces of data that are not empty, and
    in between pause it, let it go on, reset it, abort or set its maximum length, pausing it
    only while it has no error.  Let the slots of its signals change a state of their own and
    do the same to the parser while it reads a piece; they do not call [Execute].  Then every
    piece is read to an end: no assertion fails and what is left is an end of the piece. *)
Theorem http_parser_safe t v ops : http_allowed ops (HttpParser_make t v) = true ->
  exists rests h, feed ops (HttpParser_make t v) = Some (rests, h) /\
    Forall2 (fun data rest => exists n, rest = drop n data) (pieces ops) rests.
Proof.
  pose proof (init_ok t) as Hp. change (http_parser_init t) with (m_parser (HttpParser_make t v)) in Hp. revert Hp.
  generalize (HttpParser_make t v). intros h Hp. revert h Hp. induction ops as [|op ops IH]; intros h Hp Ha; [by exists [], h|].
  cbn [http_allowed] in Ha. apply andb_true_iff in Ha as [Hop Ha]. destruct op as [data|call]; cbn [feed] in *.
  - apply negb_true_iff, bool_decide_eq_false in Hop. destruct (Execute_ok data h Hop Hp) as (n & h1 & E & Hp1). rewrite E in *. cbn in Ha |- *.
    destruct (IH h1 Hp1 Ha) as (rests & h2 & -> & El). exists (drop n data :: rests), h2. split; [done|]. constructor; [by exists n|done].
  - destruct (call_ok call h Hop Hp) as (h1 & E & Hp1). rewrite E in *. cbn in Ha |- *. by apply IH.
Qed.
End Streams.
