(* ===== verification/Sha1.v ===== *)
(** * Sha1: the hash of the WebSocket handshake ([wpiutil/cpp/sha1.cpp])

    [SHA1] hashes a message that comes in pieces.  Its buffer is modelled by the bytes that are
    in use.  The hash is proved to be the one of FIPS 180-4 for every message and however it is
    cut into pieces. *)

From S2P Require Import Prelude.

Local Open Scope Z_scope.

(** ** The code *)

Definition BLOCK_INTS : nat := 16.
Definition BLOCK_BYTES : nat := 64.

Record digest := MkDigest { d0 : Z; d1 : Z; d2 : Z; d3 : Z; d4 : Z }.
Record SHA1 := MkSHA1 { s_digest : digest; s_buffer : bytes; s_transforms : Z }.

Definition first_digest : digest := MkDigest 0x67452301 0xefcdab89 0x98badcfe 0x10325476 0xc3d2e1f0.
Definition reset : SHA1 := MkSHA1 first_digest [] 0.

Definition add32 (x y : Z) : Z := wrap 32 (x + y).
Definition rol (value bits : Z) : Z := Z.lor (wrap 32 (Z.shiftl value bits)) (Z.shiftr value (32 - bits)).

Definition int_at (block : list Z) (i : Z) : Z := default 0 (block !! Z.to_nat i).
Definition blk (block : list Z) (i : Z) : Z :=
  rol (Z.lxor (Z.lxor (Z.lxor (int_at block (Z.land (i + 13) 15)) (int_at block (Z.land (i + 8) 15)))
                 (int_at block (Z.land (i + 2) 15))) (int_at block i)) 1.

(** The working variables in the order in which a round has them: [v], [w], [x], [y], [z]; a
    round changes [w] and [z], and the next one has them one place further. *)
Record vars := MkVars { v_ : Z; w_ : Z; x_ : Z; y_ : Z; z_ : Z }.
Definition round (f : Z -> Z -> Z -> Z) (k : Z) (b : Z) (r : vars) : vars :=
  let z := wrap 32 (z_ r + (f (w_ r) (x_ r) (y_ r) + b + k + rol (v_ r) 5)) in
  let w := rol (w_ r) 30 in
  MkVars z (v_ r) w (x_ r) (y_ r).

Definition choose (w x y : Z) : Z := Z.lxor (Z.land w (Z.lxor x y)) y.
Definition parity (w x y : Z) : Z := Z.lxor (Z.lxor w x) y.
Definition majority (w x y : Z) : Z := Z.lor (Z.land (Z.lor w x) y) (Z.land w x).

Definition state := (list Z * vars)%type.
Definition R0 (i : Z) (s : state) : state := (s.1, round choose 0x5a827999 (int_at s.1 i) s.2).
(** [R1] to [R4]: the block gets its next word first. *)
Definition Rn (f : Z -> Z -> Z -> Z) (k : Z) (i : Z) (s : state) : state :=
  let block := <[Z.to_nat i := blk s.1 i]> s.1 in
  (block, round f k (int_at block i) s.2).
Definition R1 : Z -> state -> state := Rn choose 0x5a827999.
Definition R2 : Z -> state -> state := Rn parity 0x6ed9eba1.
Definition R3 : Z -> state -> state := Rn majority 0x8f1bbcdc.
Definition R4 : Z -> state -> state := Rn parity 0xca62c1d6.

(** The rounds from number [t] on, with index [t & 15] *)
Fixpoint rounds (R : Z -> state -> state) (n : nat) (t : Z) (s : state) : state :=
  match n with O => s | S n => rounds R n (t + 1) (R (Z.land t 15) s) end.

Definition do_transform (d : digest) (block : list Z) : list Z * digest :=
  let '(block, r) :=
    rounds R4 20 60 (rounds R3 20 40 (rounds R2 20 20 (rounds R1 4 16 (rounds R0 16 0
      (block, MkVars (d0 d) (d1 d) (d2 d) (d3 d) (d4 d)))))) in
  (block, MkDigest (add32 (d0 d) (v_ r)) (add32 (d1 d) (w_ r)) (add32 (d2 d) (x_ r)) (add32 (d3 d) (y_ r)) (add32 (d4 d) (z_ r))).

(** Four bytes, the most significant one first *)
Definition word_of (a b c d : byte) : Z :=
  Z.lor (Z.lor (Z.lor (ub d) (Z.shiftl (ub c) 8)) (Z.shiftl (ub b) 16)) (Z.shiftl (ub a) 24).
Fixpoint buffer_to_block (buffer : bytes) : list Z :=
  match buffer with
  | a :: b :: c :: d :: buffer => word_of a b c d :: buffer_to_block buffer
  | _ => []
  end.

(** [Update]: fills the buffer, and transforms it when it is full, until the data is read. *)
Fixpoint Update_loop (fuel : nat) (data : bytes) (s : SHA1) : SHA1 :=
  match fuel with
  | O => s
  | S fuel =>
      let n := (BLOCK_BYTES - length (s_buffer s))%nat in
      let buffer := s_buffer s ++ take n data in
      if (length buffer =? BLOCK_BYTES)%nat then
        Update_loop fuel (drop n data)
          (MkSHA1 (do_transform (s_digest s) (buffer_to_block buffer)).2 [] (wrap 64 (s_transforms s + 1)))
      else MkSHA1 (s_digest s) buffer (s_transforms s)
  end.
Definition Update (data : bytes) (s : SHA1) : SHA1 := Update_loop (S (length data)) data s.

(** The padding and the transformations at the end *)
Definition finalize (s : SHA1) : digest :=
  let total_bits := wrap 64 (wrap 64 (s_transforms s * Z.of_nat BLOCK_BYTES + zlen (s_buffer s)) * 8) in
  let buffer := s_buffer s ++ [u8 0x80] in
  let block := buffer_to_block (buffer ++ replicate (BLOCK_BYTES - length buffer) (u8 0)) in
  let '(block, d) :=
    if (BLOCK_BYTES - 8 <? length buffer)%nat then
      let '(block, d) := do_transform (s_digest s) block in
      (replicate (BLOCK_INTS - 2) 0 ++ drop (BLOCK_INTS - 2) block, d)
    else (block, s_digest s) in
  let block := <[(BLOCK_INTS - 1)%nat := wrap 32 total_bits]> block in
  let block := <[(BLOCK_INTS - 2)%nat := wrap 32 (Z.shiftr total_bits 32)]> block in
  (do_transform d block).2.

Definition digest_words (d : digest) : list Z := [d0 d; d1 d; d2 d; d3 d; d4 d].
Definition word_bytes (v : Z) : bytes := [u8 (Z.shiftr v 24); u8 (Z.shiftr v 16); u8 (Z.shiftr v 8); u8 v].
Definition hex_digit (v : Z) : byte := default (u8 0) (bytes_of_string "0123456789abcdef" !! Z.to_nat (Z.land v 0xf)).
Definition word_hex (v : Z) : bytes := (fun n => hex_digit (Z.shiftr v n)) <$> [28; 24; 20; 16; 12; 8; 4; 0].

Definition RawFinal (s : SHA1) : bytes * SHA1 := (concat (word_bytes <$> digest_words (finalize s)), reset).
Definition Final (s : SHA1) : bytes * SHA1 := (concat (word_hex <$> digest_words (finalize s)), reset).

Example sha1_abc : string_of_bytes (Final (Update (bytes_of_string "abc") reset)).1 = "a9993e364706816aba3e25717850c26c9cd0d89d".
Proof. vm_compute. reflexivity. Qed.
Example sha1_empty : string_of_bytes (Final reset).1 = "da39a3ee5e6b4b0d3255bfef95601890afd80709".
Proof. vm_compute. reflexivity. Qed.
Example sha1_two_blocks :
  string_of_bytes (Final (Update (bytes_of_string "mnopnopq") (Update (bytes_of_string "abcdbcdecdefdefgefghfghighijhijkijkljklmklmnlmno") reset))).1 =
  "84983e441c3bd26ebaae4aa1f95129e5e54670f1".
Proof. vm_compute. reflexivity. Qed.

(** ** FIPS 180-4 *)

Module Fips.
(** The functions and constants of the rounds *)
Definition Ch (x y z : Z) : Z := Z.lxor (Z.land x y) (Z.land (Z.lnot x) z).
Definition Parity (x y z : Z) : Z := Z.lxor (Z.lxor x y) z.
Definition Maj (x y z : Z) : Z := Z.lxor (Z.lxor (Z.land x y) (Z.land x z)) (Z.land y z).
Definition f (t : nat) : Z -> Z -> Z -> Z := if (t <? 20)%nat then Ch else if (t <? 40)%nat then Parity else if (t <? 60)%nat then Maj else Parity.
Definition K (t : nat) : Z :=
  if (t <? 20)%nat then 0x5a827999 else if (t <? 40)%nat then 0x6ed9eba1 else if (t <? 60)%nat then 0x8f1bbcdc else 0xca62c1d6.
Definition ROTL (n x : Z) : Z := Z.lor (wrap 32 (Z.shiftl x n)) (Z.shiftr x (32 - n)).

(** The message schedule, of which the first 16 words are those of the block *)
Definition word (W : list Z) (t : nat) : Z := default 0 (W !! t).
Fixpoint schedule (n : nat) (W : list Z) : list Z :=
  match n with
  | O => W
  | S n =>
      let t := length W in
      schedule n (W ++ [ROTL 1 (Z.lxor (Z.lxor (Z.lxor (word W (t - 3)) (word W (t - 8))) (word W (t - 14))) (word W (t - 16)))])
  end.

(** The working variables a, b, c, d, e and one step of them *)
Definition step (W : list Z) (t : nat) (r : vars) : vars :=
  let T := wrap 32 (ROTL 5 (v_ r) + f t (w_ r) (x_ r) (y_ r) + z_ r + K t + word W t) in
  MkVars T (v_ r) (ROTL 30 (w_ r)) (x_ r) (y_ r).
Definition compress (d : digest) (block : list Z) : digest :=
  let W := schedule 64 block in
  let r := foldl (fun r t => step W t r) (MkVars (d0 d) (d1 d) (d2 d) (d3 d) (d4 d)) (seq 0 80) in
  MkDigest (add32 (d0 d) (v_ r)) (add32 (d1 d) (w_ r)) (add32 (d2 d) (x_ r)) (add32 (d3 d) (y_ r)) (add32 (d4 d) (z_ r)).

(** The padded message, in blocks of 16 words *)
Definition length_bytes (bits : Z) : bytes := (fun n => u8 (Z.shiftr bits n)) <$> [56; 48; 40; 32; 24; 16; 8; 0].
Definition pad (m : bytes) : bytes :=
  m ++ [u8 0x80] ++ replicate (Z.to_nat ((55 - zlen m) mod 64)) (u8 0) ++ length_bytes (8 * zlen m).
Fixpoint blocks (n : nat) (m : bytes) : list (list Z) :=
  match n with O => [] | S n => buffer_to_block (take 64 m) :: blocks n (drop 64 m) end.
Definition hash (m : bytes) : digest :=
  let p := pad m in foldl compress first_digest (blocks (length p / 64) p).
End Fips.

(** * Sha1Proofs: the hash is the one of FIPS 180-4 *)

Local Open Scope Z_scope.

(** ** A block *)

Lemma choose_Ch x y z : choose x y z = Fips.Ch x y z.
Proof.
  apply Z.bits_inj'. intros n Hn. unfold choose, Fips.Ch. rewrite !Z.lxor_spec, !Z.land_spec, !Z.lxor_spec, Z.lnot_spec by done.
  by destruct (Z.testbit x n), (Z.testbit y n), (Z.testbit z n).
Qed.
Lemma majority_Maj x y z : majority x y z = Fips.Maj x y z.
Proof.
  apply Z.bits_inj'. intros n Hn. unfold majority, Fips.Maj. rewrite Z.lor_spec, !Z.lxor_spec, !Z.land_spec, Z.lor_spec.
  by destruct (Z.testbit x n), (Z.testbit y n), (Z.testbit z n).
Qed.

Lemma round_step f k W t r : (forall x y z, f x y z = Fips.f t x y z) -> k = Fips.K t ->
  round f k (Fips.word W t) r = Fips.step W t r.
Proof. intros Hf ->. unfold round, Fips.step. rewrite Hf. f_equal. f_equal. unfold Fips.ROTL, rol. lia. Qed.

(** The schedule extends the block by the recurrence. *)
Definition next_word (W : list Z) (t : nat) : Z :=
  Fips.ROTL 1 (Z.lxor (Z.lxor (Z.lxor (Fips.word W (t - 3)) (Fips.word W (t - 8))) (Fips.word W (t - 14))) (Fips.word W (t - 16))).
Lemma word_app W V t : (t < length W)%nat -> Fips.word (W ++ V) t = Fips.word W t.
Proof. intros Ht. unfold Fips.word. by rewrite lookup_app_l. Qed.
Lemma schedule_spec n : forall W, (16 <= length W)%nat ->
  exists V, Fips.schedule n W = W ++ V /\ length V = n /\
    forall t, (length W <= t < length W + n)%nat -> Fips.word (W ++ V) t = next_word (W ++ V) t.
Proof.
  induction n as [|n IH]; intros W HW; cbn [Fips.schedule]; [exists []; rewrite app_nil_r; repeat split; lia|].
  change (Fips.ROTL 1 _) with (next_word W (length W)).
  destruct (IH (W ++ [next_word W (length W)])) as (V & -> & HV & Hr); [rewrite length_app; lia|].
  exists (next_word W (length W) :: V). rewrite <- app_assoc in *. cbn [app] in *. split; [done|]. split; [cbn; lia|].
  intros t Ht. rewrite length_app in Hr. cbn [length] in Hr. destruct (decide (t = length W)) as [->|Hne]; [|apply Hr; lia].
  unfold Fips.word at 1. rewrite lookup_app_r, Nat.sub_diag by lia. cbn [lookup list_lookup default].
  unfold next_word. by rewrite !word_app by lia.
Qed.

(** The block of the code at round [t] has the last 16 words of the schedule, in turns. *)
Definition window (W : list Z) (t : nat) (block : list Z) : Prop :=
  length block = 16%nat /\ forall k, (t - 16 <= k < t)%nat -> Fips.word block (k mod 16) = Fips.word W k.

Lemma int_at_word block i : int_at block (Z.of_nat i) = Fips.word block i.
Proof. unfold int_at, Fips.word. by rewrite Nat2Z.id. Qed.
Lemma land15 t : Z.land (Z.of_nat t) 15 = Z.of_nat (t mod 16).
Proof. change 15 with (Z.ones 4). rewrite Z.land_ones by lia. by rewrite Nat2Z.inj_mod. Qed.
Lemma window_at W t block c : window W t block -> (16 <= t)%nat -> (1 <= c <= 16)%nat -> 
  int_at block (Z.land (Z.of_nat (t mod 16) + Z.of_nat (16 - c)) 15) = Fips.word W (t - c).
Proof.
  intros [_ Hw] Ht Hc. rewrite <- Nat2Z.inj_add, land15, int_at_word. rewrite <- (Hw (t - c)%nat) by lia. f_equal.
  rewrite Nat.Div0.add_mod_idemp_l. replace (t + (16 - c))%nat with ((t - c) + 1 * 16)%nat by lia. by rewrite Nat.Div0.mod_add.
Qed.
Lemma window_next W t block : window W t block -> (16 <= t)%nat -> Fips.word W t = next_word W t ->
  blk block (Z.of_nat (t mod 16)) = Fips.word W t /\ window W (S t) (<[(t mod 16)%nat := Fips.word W t]> block).
Proof.
  intros Hw Ht HW. split.
  - rewrite HW. unfold blk, next_word, Fips.ROTL, rol.
    pose proof (window_at W t block 3 Hw Ht ltac:(lia)) as E3. pose proof (window_at W t block 8 Hw Ht ltac:(lia)) as E8.
    pose proof (window_at W t block 14 Hw Ht ltac:(lia)) as E14. change (Z.of_nat (16 - 3)) with 13 in E3.
    change (Z.of_nat (16 - 8)) with 8 in E8. change (Z.of_nat (16 - 14)) with 2 in E14.
    rewrite E3, E8, E14.
    destruct Hw as [Hl Hw]. rewrite int_at_word. replace (t mod 16)%nat with ((t - 16) mod 16)%nat; [by rewrite Hw by lia|].
    replace t with ((t - 16) + 1 * 16)%nat at 2 by lia. by rewrite Nat.Div0.mod_add.
  - destruct Hw as [Hl Hw]. split; [by rewrite length_insert|]. intros k Hk. unfold Fips.word at 1.
    destruct (decide (k = t)) as [->|Hne].
    + rewrite list_lookup_insert_eq; [done|]. rewrite Hl. apply Nat.mod_upper_bound. lia.
    + rewrite list_lookup_insert_ne; [apply Hw; lia|]. intros E.
      pose proof (Nat.div_mod t 16 ltac:(lia)). pose proof (Nat.div_mod k 16 ltac:(lia)). lia.
Qed.

(** Rounds of the code are steps. *)
Definition code_rounds (R : Z -> state -> state) (W : list Z) (lo hi : nat) : Prop :=
  forall n t block r, (lo <= t)%nat -> (t + n <= hi)%nat -> window W (max 16 t) block ->
    exists block', window W (max 16 (t + n)) block' /\
      rounds R n (Z.of_nat t) (block, r) = (block', foldl (fun r t => Fips.step W t r) r (seq t n)).
Lemma rounds_spec R W lo hi :
  (forall t block r, (lo <= t < hi)%nat -> window W (max 16 t) block ->
    exists block', window W (max 16 (S t)) block' /\ R (Z.of_nat (t mod 16)) (block, r) = (block', Fips.step W t r)) ->
  code_rounds R W lo hi.
Proof.
  intros Hs n. induction n as [|n IH]; intros t block r Hlo Hhi Hw; cbn [rounds seq foldl].
  - exists block. by rewrite Nat.add_0_r.
  - rewrite land15. destruct (Hs t block r ltac:(lia) Hw) as (b & Hb & ->).
    replace (Z.of_nat t + 1) with (Z.of_nat (S t)) by lia. destruct (IH (S t) b (Fips.step W t r) ltac:(lia) ltac:(lia) Hb) as (b' & Hb' & E).
    exists b'. by rewrite Nat.add_succ_r.
Qed.

Lemma R0_rounds W : code_rounds R0 W 0 16.
Proof.
  apply rounds_spec. intros t block r Ht Hw. exists block. replace (max 16 (S t)) with 16%nat by lia.
  replace (max 16 t) with 16%nat in Hw by lia. split; [done|]. unfold R0. cbn [fst snd]. f_equal.
  destruct Hw as [_ Hw]. rewrite int_at_word, Hw by lia. apply round_step.
  - intros x y z. unfold Fips.f. destruct (Nat.ltb_spec t 20); [apply choose_Ch|lia].
  - unfold Fips.K. destruct (Nat.ltb_spec t 20); [done|lia].
Qed.
Lemma Rn_rounds f k W lo hi : (16 <= lo)%nat -> (hi <= 80)%nat ->
  (forall t, (lo <= t < hi)%nat -> (forall x y z, f x y z = Fips.f t x y z) /\ k = Fips.K t) ->
  (forall t, (16 <= t < 80)%nat -> Fips.word W t = next_word W t) -> code_rounds (Rn f k) W lo hi.
Proof.
  intros Hlo Hhi Hf HW. apply rounds_spec. intros t block r Ht Hw. rewrite Nat.max_r in Hw |- * by lia.
  destruct (window_next W t block Hw ltac:(lia) (HW t ltac:(lia))) as [Eb Hw']. eexists. split; [exact Hw'|].
  unfold Rn. cbn [fst snd]. rewrite Nat2Z.id, Eb. f_equal. rewrite int_at_word.
  unfold Fips.word at 1. rewrite list_lookup_insert_eq by (destruct Hw as [-> _]; apply Nat.mod_upper_bound; lia).
  destruct (Hf t Ht). by apply round_step.
Qed.

Lemma f_range t : (t < 80)%nat -> 
  ((16 <= t < 20)%nat -> (forall x y z, choose x y z = Fips.f t x y z) /\ 0x5a827999 = Fips.K t) /\
  ((20 <= t < 40)%nat -> (forall x y z, parity x y z = Fips.f t x y z) /\ 0x6ed9eba1 = Fips.K t) /\
  ((40 <= t < 60)%nat -> (forall x y z, majority x y z = Fips.f t x y z) /\ 0x8f1bbcdc = Fips.K t) /\
  ((60 <= t < 80)%nat -> (forall x y z, parity x y z = Fips.f t x y z) /\ 0xca62c1d6 = Fips.K t).
Proof.
  intros Ht. unfold Fips.f, Fips.K.
  split_and!; intros Hr; split; intros; repeat match goal with |- context [(t <? ?n)%nat] => destruct (Nat.ltb_spec t n) end;
    try lia; auto using choose_Ch, majority_Maj.
Qed.

(** The code after [t] rounds *)
Definition reaches (W : list Z) (r : vars) (t : nat) (s : state) : Prop :=
  exists block, s = (block, foldl (fun r t => Fips.step W t r) r (seq 0 t)) /\ window W (max 16 t) block.
Lemma reaches_rounds R W lo hi r t n s : code_rounds R W lo hi -> (lo <= t)%nat -> (t + n <= hi)%nat ->
  reaches W r t s -> reaches W r (t + n) (rounds R n (Z.of_nat t) s).
Proof.
  intros HR Hlo Hhi (block & -> & Hw). destruct (HR n t block (foldl (fun r t => Fips.step W t r) r (seq 0 t)) Hlo Hhi Hw) as (b & Hb & ->).
  exists b. split; [|done]. by rewrite <- foldl_app, <- seq_app.
Qed.

Lemma transform_spec d block : length block = 16%nat ->
  length (do_transform d block).1 = 16%nat /\ (do_transform d block).2 = Fips.compress d block.
Proof.
  intros Hl. unfold Fips.compress. destruct (schedule_spec 64 block ltac:(lia)) as (V & -> & HV & Hr). rewrite Hl in Hr.
  set (W := block ++ V) in *. unfold do_transform. set (r := MkVars _ _ _ _ _).
  assert (reaches W r 0 (block, r)) as H0.
  { exists block. split; [done|]. split; [done|]. intros k Hk. unfold W. by rewrite word_app, Nat.mod_small by lia. }
  apply (reaches_rounds R0 _ _ _ _ _ 16 _ (R0_rounds W)) in H0; [|lia..].
  apply (reaches_rounds R1 _ 16 20 _ _ 4) in H0; [|apply Rn_rounds; [lia|lia|intros; apply f_range; lia|done]|lia..].
  apply (reaches_rounds R2 _ 20 40 _ _ 20) in H0; [|apply Rn_rounds; [lia|lia|intros; apply f_range; lia|done]|lia..].
  apply (reaches_rounds R3 _ 40 60 _ _ 20) in H0; [|apply Rn_rounds; [lia|lia|intros; apply f_range; lia|done]|lia..].
  apply (reaches_rounds R4 _ 60 80 _ _ 20) in H0; [|apply Rn_rounds; [lia|lia|intros; apply f_range; lia|done]|lia..].
  destruct H0 as (b & E & Hb & _). cbn [Nat.add] in E. change (Z.of_nat 0) with 0 in E. change (Z.of_nat 16) with 16 in E.
  change (Z.of_nat 20) with 20 in E. change (Z.of_nat 40) with 40 in E. change (Z.of_nat 60) with 60 in E. by rewrite E.
Qed.
Lemma transform_compress d block : length block = 16%nat -> (do_transform d block).2 = Fips.compress d block.
Proof. apply transform_spec. Qed.

(** ** Messages *)

Lemma buffer_words n : forall b, length b = (4 * n)%nat -> length (buffer_to_block b) = n.
Proof.
  induction n as [|n IH]; intros [|b0 [|b1 [|b2 [|b3 b]]]] Hb; cbn in Hb; try lia; [done|]. cbn. f_equal. apply IH. lia.
Qed.
Lemma buffer_app n : forall a b, length a = (4 * n)%nat -> buffer_to_block (a ++ b) = buffer_to_block a ++ buffer_to_block b.
Proof.
  induction n as [|n IH]; intros [|b0 [|b1 [|b2 [|b3 a]]]] b Ha; cbn in Ha; try lia; [done|]. cbn. f_equal. apply IH. lia.
Qed.
Lemma blocks_app n : forall a b k, length a = (64 * n)%nat -> Fips.blocks (n + k) (a ++ b) = Fips.blocks n a ++ Fips.blocks k b.
Proof.
  induction n as [|n IH]; intros a b k Ha; cbn [Fips.blocks Nat.add]; [by destruct a|]. rewrite take_app_le, drop_app_le by lia.
  cbn [app]. f_equal. apply IH. rewrite length_drop. lia.
Qed.

(** The message that has been read *)
Definition read (m : bytes) (s : SHA1) : Prop :=
  exists q pre, m = pre ++ s_buffer s /\ length pre = (64 * q)%nat /\ (length (s_buffer s) < 64)%nat /\
    s_digest s = foldl Fips.compress first_digest (Fips.blocks q pre) /\ s_transforms s = wrap 64 (Z.of_nat q).

Lemma read_reset : read [] reset.
Proof. exists O, []. split_and!; [done|done|cbn; lia|done|done]. Qed.

Lemma Update_loop_read fuel : forall data m s, (length data < fuel)%nat -> read m s -> read (m ++ data) (Update_loop fuel data s).
Proof.
  induction fuel as [|fuel IH]; intros data m s Hf (q & pre & -> & Hp & Hb & Hd & Ht); [lia|]. cbn [Update_loop].
  unfold BLOCK_BYTES. set (n := (64 - length (s_buffer s))%nat). 
  destruct (Nat.eqb_spec (length (s_buffer s ++ take n data)) 64) as [E|E].
  - rewrite length_app, length_take in E. rewrite <- (take_drop n data) at 1. rewrite app_assoc. apply IH.
    { rewrite length_drop. lia. }
    exists (S q), (pre ++ s_buffer s ++ take n data). cbn [s_buffer s_digest s_transforms]. rewrite app_nil_r, app_assoc.
    split; [done|]. split; [rewrite !length_app, length_take; lia|]. split; [cbn; lia|]. split.
    + rewrite transform_compress; [|apply buffer_words; rewrite length_app, length_take; lia].
      rewrite <- app_assoc, <- Nat.add_1_r, blocks_app, foldl_app, <- Hd by done. cbn [Fips.blocks foldl].
      by rewrite (take_ge (s_buffer s ++ take n data)) by (rewrite length_app, length_take; lia).
    + rewrite Ht. unfold wrap. rewrite Z.add_mod_idemp_l by lia. f_equal. lia.
  - rewrite length_app, length_take in E. exists q, pre. cbn [s_buffer s_digest s_transforms]. rewrite (take_ge data) by lia.
    rewrite length_app. split_and!; [by rewrite app_assoc|done|lia|done|done].
Qed.
Lemma Update_read data m s : read m s -> read (m ++ data) (Update data s).
Proof. apply Update_loop_read. lia. Qed.

(** *** The end of the message *)

Lemma word_of_add a b c d : word_of a b c d = ub a * 2 ^ 24 + ub b * 2 ^ 16 + ub c * 2 ^ 8 + ub d.
Proof.
  pose proof (ub_range a). pose proof (ub_range b). pose proof (ub_range c). pose proof (ub_range d). unfold word_of.
  rewrite (Z.lor_comm (ub d)), lor_shiftl_add by lia. rewrite (Z.lor_comm _ (Z.shiftl (ub b) 16)), lor_shiftl_add by lia.
  rewrite (Z.lor_comm _ (Z.shiftl (ub a) 24)), lor_shiftl_add by lia. lia.
Qed.
Lemma word_of_u8 z : word_of (u8 (Z.shiftr z 24)) (u8 (Z.shiftr z 16)) (u8 (Z.shiftr z 8)) (u8 z) = wrap 32 z.
Proof.
  rewrite word_of_add, !ub_u8, !Z.shiftr_div_pow2 by lia. unfold wrap.
  change (2 ^ 8) with 256. change (2 ^ 16) with (256 * 256). change (2 ^ 24) with (256 * (256 * 256)).
  change (2 ^ 32) with (256 * (256 * (256 * 256))). rewrite !Z.rem_mul_r by lia. rewrite <- !Z.div_div by lia. lia.
Qed.
Lemma length_block bits : buffer_to_block (Fips.length_bytes bits) = [wrap 32 (Z.shiftr bits 32); wrap 32 bits].
Proof.
  unfold Fips.length_bytes. cbn [fmap list_fmap buffer_to_block].
  replace (Z.shiftr bits 0) with bits by (by rewrite Z.shiftr_0_r).
  assert (forall n, 0 <= n -> Z.shiftr bits (32 + n) = Z.shiftr (Z.shiftr bits 32) n) as E by (intros; by rewrite Z.shiftr_shiftr by lia).
  change 56 with (32 + 24). change 48 with (32 + 16). change 40 with (32 + 8). rewrite !E by lia. by rewrite !word_of_u8.
Qed.

(** A block with the last two words set *)
Definition with_length (bits : Z) (block : list Z) : list Z :=
  <[(BLOCK_INTS - 2)%nat := wrap 32 (Z.shiftr bits 32)]> (<[(BLOCK_INTS - 1)%nat := wrap 32 bits]> block).
Lemma with_length_app bits w x y : length w = 14%nat -> with_length bits (w ++ [x; y]) = w ++ buffer_to_block (Fips.length_bytes bits).
Proof.
  intros Hw. rewrite length_block. unfold with_length, BLOCK_INTS. cbn [Nat.sub]. rewrite !insert_app_r_alt by lia. rewrite Hw. done.
Qed.

Lemma replicate_words n : buffer_to_block (replicate (4 * n) (u8 0)) = replicate n 0.
Proof. induction n as [|n IH]; [done|]. replace (4 * S n)%nat with (S (S (S (S (4 * n))))) by lia. cbn [replicate buffer_to_block]. by rewrite IH. Qed.

(** The end of the message in one block and in two *)
Definition last_bytes (b : bytes) (zeros : nat) (bits : Z) : bytes := b ++ [u8 0x80] ++ replicate zeros (u8 0) ++ Fips.length_bytes bits.

Lemma one_block b bits : (length b <= 55)%nat ->
  with_length bits (buffer_to_block ((b ++ [u8 0x80]) ++ replicate (63 - length b) (u8 0))) =
  buffer_to_block (last_bytes b (55 - length b) bits).
Proof.
  intros Hb. unfold last_bytes. replace (63 - length b)%nat with (55 - length b + 8)%nat by lia.
  set (h := b ++ [u8 0x80] ++ replicate (55 - length b) (u8 0)). assert (length h = 56%nat) as Hh.
  { unfold h. rewrite !length_app, length_replicate. cbn [length]. lia. }
  rewrite replicate_add. replace ((b ++ _) ++ _ ++ _) with (h ++ replicate 8 (u8 0)) by (unfold h; by rewrite <- !app_assoc).
  replace (b ++ _ ++ _ ++ _) with (h ++ Fips.length_bytes bits) by (unfold h; by rewrite <- !app_assoc).
  rewrite !(buffer_app 14) by lia. change (buffer_to_block (replicate 8 (u8 0))) with [0; 0].
  apply with_length_app. by apply buffer_words.
Qed.
Lemma two_blocks b : (56 <= length b < 64)%nat -> forall bits, exists b1 b2, length b1 = 64%nat /\ length b2 = 64%nat /\
  last_bytes b (119 - length b) bits = b1 ++ b2 /\ b1 = (b ++ [u8 0x80]) ++ replicate (63 - length b) (u8 0) /\
  forall w, length w = 16%nat -> with_length bits (replicate 14 0 ++ drop 14 w) = buffer_to_block b2.
Proof.
  intros Hb bits. exists ((b ++ [u8 0x80]) ++ replicate (63 - length b) (u8 0)), (replicate 56 (u8 0) ++ Fips.length_bytes bits).
  split; [rewrite !length_app, length_replicate; cbn [length]; lia|]. split; [done|]. split.
  { unfold last_bytes. replace (119 - length b)%nat with (63 - length b + 56)%nat by lia. rewrite replicate_add. by rewrite <- !app_assoc. }
  split; [done|]. intros w Hw. rewrite (buffer_app 14) by done. change (replicate 56 (u8 0)) with (replicate (4 * 14) (u8 0)). rewrite replicate_words.
  pose proof (length_drop w 14) as Hd. rewrite Hw in Hd. destruct (drop 14 w) as [|x [|y [|]]]; try discriminate Hd. by apply with_length_app.
Qed.

Lemma pad_zeros q l : (l < 64)%nat -> Z.to_nat ((55 - (64 * Z.of_nat q + Z.of_nat l)) mod 64) = (if (l <=? 55)%nat then 55 - l else 119 - l)%nat.
Proof.
  intros Hl. destruct (Nat.leb_spec l 55).
  - replace (55 - (64 * Z.of_nat q + Z.of_nat l)) with ((55 - Z.of_nat l) + (- Z.of_nat q) * 64) by lia.
    rewrite Z.mod_add, Z.mod_small by lia. lia.
  - replace (55 - (64 * Z.of_nat q + Z.of_nat l)) with ((119 - Z.of_nat l) + (- Z.of_nat q - 1) * 64) by lia.
    rewrite Z.mod_add, Z.mod_small by lia. lia.
Qed.

Lemma finalize_hash m s : read m s -> 8 * zlen m < 2 ^ 64 -> finalize s = Fips.hash m.
Proof.
  intros (q & pre & Em & Hp & Hb & Hd & Ht) Hl.
  assert (zlen m = 64 * Z.of_nat q + Z.of_nat (length (s_buffer s))) as Hm by (rewrite Em, zlen_app; unfold zlen; lia).
  set (b := s_buffer s) in *. set (bits := 8 * zlen m) in *.
  assert (Fips.pad m = pre ++ last_bytes b (if (length b <=? 55)%nat then 55 - length b else 119 - length b)%nat bits) as Ep.
  { unfold Fips.pad. fold bits. rewrite Hm, pad_zeros by done. unfold last_bytes. by rewrite Em, <- app_assoc. }
  unfold Fips.hash. rewrite Ep. clear Ep. unfold finalize. fold b.
  assert (wrap 64 (wrap 64 (s_transforms s * Z.of_nat BLOCK_BYTES + zlen b) * 8) = bits) as ->.
  { rewrite Ht. unfold bits, zlen, BLOCK_BYTES in *. rewrite (wrap_small 64 (Z.of_nat q)) by lia.
    rewrite (wrap_small 64 (_ * Z.of_nat 64 + _)) by lia. rewrite wrap_small; lia. }
  replace (BLOCK_BYTES - length (b ++ [u8 128]))%nat with (63 - length b)%nat by (rewrite length_app; unfold BLOCK_BYTES; cbn [length]; lia).
  replace (BLOCK_BYTES - 8 <? length (b ++ [u8 128]))%nat with (negb (length b <=? 55)%nat).
  2: { rewrite length_app. unfold BLOCK_BYTES. cbn [length Nat.sub]. destruct (Nat.leb_spec (length b) 55), (Nat.ltb_spec 56 (length b + 1)); lia || done. }
  destruct (Nat.leb_spec (length b) 55) as [Hs|Hs]; cbn [negb].
  - change (<[_ := _]> (<[_ := _]> ?x)) with (with_length bits x). rewrite one_block by done.
    assert (length (last_bytes b (55 - length b) bits) = 64%nat) as Hb'.
    { unfold last_bytes. rewrite !length_app, length_replicate. cbn [length]. change (length (Fips.length_bytes bits)) with 8%nat. lia. }
    rewrite length_app, Hp, Hb'. replace ((64 * q + 64) / 64)%nat with (q + 1)%nat by (rewrite <- (Nat.mul_1_r 64) at 2; rewrite <- Nat.mul_add_distr_l, Nat.mul_comm, Nat.div_mul; lia).
    rewrite blocks_app, foldl_app, <- Hd by done. cbn [Fips.blocks foldl]. rewrite take_ge by lia.
    apply transform_compress. by apply buffer_words.
  - destruct (two_blocks b ltac:(lia) bits) as (b1 & b2 & H1 & H2 & -> & E1 & E2). rewrite <- E1.
    destruct (transform_spec (s_digest s) (buffer_to_block b1) ltac:(by apply buffer_words)) as [T1 T2].
    destruct (do_transform (s_digest s) (buffer_to_block b1)) as [w d]. cbn [fst snd] in T1, T2. subst d.
    change (<[_ := _]> (<[_ := _]> ?x)) with (with_length bits x). change (BLOCK_INTS - 2)%nat with 14%nat. rewrite E2 by done.
    rewrite !length_app, Hp, H1, H2. replace ((64 * q + (64 + 64)) / 64)%nat with (q + (1 + 1))%nat by (change (64 + 64)%nat with (64 * 2)%nat; rewrite <- Nat.mul_add_distr_l, Nat.mul_comm, Nat.div_mul; lia).
    rewrite !blocks_app, !foldl_app, <- Hd by done. cbn [Fips.blocks foldl]. rewrite !take_ge by lia.
    apply transform_compress. by apply buffer_words.
Qed.

(** C16.  The hash of a message is the one of FIPS 180-4, in however many pieces the message is
    given to [Update], and the object can be used for another message then. *)
Theorem sha1_hash pieces : zlen (concat pieces) < 2 ^ 61 ->
  RawFinal (foldl (fun s data => Update data s) reset pieces) =
    (concat (word_bytes <$> digest_words (Fips.hash (concat pieces))), reset).
Proof.
  intros Hl. unfold RawFinal. do 2 f_equal. f_equal. f_equal. apply finalize_hash; [|lia]. clear Hl.
  assert (forall m s, read m s -> read (m ++ concat pieces) (foldl (fun s data => Update data s) s pieces)) as H.
  { induction pieces as [|d pieces IH]; intros m s Hs; cbn [foldl concat]; [by rewrite app_nil_r|].
    rewrite app_assoc. apply IH. by apply Update_read. }
  exact (H [] reset read_reset).
Qed.
