(* ===== verification/WebSocket.v ===== *)
(** * WebSocket: the WebSocket connection ([wpinet/cpp/WebSocket.cpp], [WebSocket.h])

    A [WebSocket] is modelled by its members, the signals it has emitted and what it has written
    to the stream.  The slots of the signals do not call back into the socket.  The masking keys
    and the nonce, which the code draws at random, are arguments; the handshake of the client is
    read by [HttpParser], whose slots change the socket. *)

From Stdlib Require Import Strings.Ascii.
From S2P Require Import Prelude Base64 Sha1 Http.
Local Open Scope Z_scope.

(** ** Strings ([wpi/StringExtras.h]) *)

Definition is_blank (b : byte) : bool := ((9 <=? ub b) && (ub b <=? 13)) || (ub b =? 0x20).
Fixpoint ltrim (s : bytes) : bytes := match s with b :: t => if is_blank b then ltrim t else s | [] => [] end.
Definition rtrim (s : bytes) : bytes := rev (ltrim (rev s)).
Definition trim (s : bytes) : bytes := rtrim (ltrim s).
Definition to_lower (b : byte) : byte := if between b "A" "Z" then u8 (ub b + 32) else b.
Definition equals_lower (a b : bytes) : bool := bool_decide (to_lower <$> a = to_lower <$> b).
Definition lit (s : string) : bytes := bytes_of_string s.
Definition crlf : bytes := [u8 0x0d; u8 0x0a].

(** ** Sockets *)

Definition kOpCont : Z := 0x00.
Definition kOpText : Z := 0x01.
Definition kOpBinary : Z := 0x02.
Definition kOpClose : Z := 0x08.
Definition kOpPing : Z := 0x09.
Definition kOpPong : Z := 0x0a.
Definition kOpMask : Z := 0x0f.
Definition kFlagFin : Z := 0x80.
Definition kFlagMasking : Z := 0x80.
Definition kLenMask : Z := 0x7f.
Definition UINT64_MAX : Z := 2 ^ 64 - 1.

Inductive ws_state := CONNECTING | OPEN | CLOSING | FAILED | CLOSED.
#[global] Instance ws_state_eq_dec : EqDecision ws_state.
Proof. solve_decision. Defined.

Inductive ws_signal :=
| open (protocol : bytes)
| closed (code : Z) (reason : bytes)
| text (data : bytes) (fin : bool)
| binary (data : bytes) (fin : bool)
| ping (data : bytes)
| pong (data : bytes).

(** [ClientHandshakeData] without its parser *)
Record Handshake := MkHandshake {
  hs_key : bytes;
  hs_protocols : list bytes;
  hs_hasUpgrade : bool;
  hs_hasConnection : bool;
  hs_hasAccept : bool;
  hs_hasProtocol : bool;
}.
#[global] Instance eta_Handshake : Eta Handshake := fun h =>
  MkHandshake (hs_key h) (hs_protocols h) (hs_hasUpgrade h) (hs_hasConnection h) (hs_hasAccept h) (hs_hasProtocol h).

(** [w_signals] are the signals that were emitted, [w_written] the writes to the stream,
    [w_shutdowns] how often it was shut down, and [w_masks] how many masking keys were used. *)
Record WebSocket := MkWebSocket {
  w_server : bool;
  w_protocol : bytes;
  w_maxMessageSize : Z;
  w_combineFragments : bool;
  w_state : ws_state;
  w_header : bytes;
  w_headerSize : Z;
  w_payload : bytes;
  w_frameStart : Z;
  w_frameSize : Z;
  w_fragmentOpcode : Z;
  w_handshake : option Handshake;
  w_parser : option (http_parser * Collector unit);
  w_signals : list ws_signal;
  w_written : list bytes;
  w_shutdowns : nat;
  w_masks : nat;
}.
#[global] Instance eta_WebSocket : Eta WebSocket := fun w =>
  MkWebSocket (w_server w) (w_protocol w) (w_maxMessageSize w) (w_combineFragments w) (w_state w) (w_header w) (w_headerSize w)
    (w_payload w) (w_frameStart w) (w_frameSize w) (w_fragmentOpcode w) (w_handshake w) (w_parser w) (w_signals w)
    (w_written w) (w_shutdowns w) (w_masks w).

Definition WebSocket_make (server : bool) : WebSocket :=
  MkWebSocket server [] (128 * 1024) true CONNECTING [] 0 [] 0 UINT64_MAX 0 None None [] [] 0 0.
Definition emit_ws (s : ws_signal) (w : WebSocket) : WebSocket := w <| w_signals ::= fun l => l ++ [s] |>.
Definition write_ws (s : bytes) (w : WebSocket) : WebSocket := w <| w_written ::= fun l => l ++ [s] |>.

(** ** Sending *)

(** The masking keys, one for each frame of a client *)
Class Masks := mask_key : nat -> byte * byte * byte * byte.

(** The data, each byte with its byte of the key *)
Fixpoint apply_mask (key : byte * byte * byte * byte) (data : bytes) : bytes :=
  match data with
  | [] => []
  | b :: data => let '(k0, k1, k2, k3) := key in u8 (Z.lxor (ub b) (ub k0)) :: apply_mask (k1, k2, k3, k0) data
  end.

Record Frame := MkFrame { f_opcode : Z; f_data : list bytes }.

Definition big_endian (size : Z) (shifts : list Z) : bytes := (fun n => u8 (Z.land (Z.shiftr size n) 0xff)) <$> shifts.
Definition frame_header (server : bool) (opcode size : Z) : bytes :=
  let m := if server then 0x00 else kFlagMasking in
  u8 opcode ::
  (if size <? 126 then [u8 (Z.lor m size)]
   else if size <=? 0xffff then u8 (Z.lor m 126) :: big_endian size [8; 0]
   else u8 (Z.lor m 127) :: big_endian size [56; 48; 40; 32; 24; 16; 8; 0]).
Definition key_bytes (key : byte * byte * byte * byte) : bytes := let '(k0, k1, k2, k3) := key in [k0; k1; k2; k3].

Section Sending.
Context `{Masks}.

(** The bytes of a frame, and the masks that are used then *)
Definition WriteFrame (server : bool) (masks : nat) (f : Frame) : bytes * nat :=
  let data := concat (f_data f) in
  let header := frame_header server (f_opcode f) (zlen data) in
  if server then (header ++ data, masks)
  else (header ++ key_bytes (mask_key masks) ++ apply_mask (mask_key masks) data, S masks).
Fixpoint WriteFrames (server : bool) (masks : nat) (frames : list Frame) : bytes * nat :=
  match frames with
  | [] => ([], masks)
  | f :: frames =>
      let '(b, masks) := WriteFrame server masks f in
      let '(bs, masks) := WriteFrames server masks frames in (b ++ bs, masks)
  end.

(** An error is what the callback is called with at once. *)
Inductive ws_error := UV_EAGAIN | UV_ESHUTDOWN.
Definition SendFrames (frames : list Frame) (w : WebSocket) : option ws_error * WebSocket :=
  match w_state w with
  | OPEN =>
      let '(b, masks) := WriteFrames (w_server w) (w_masks w) frames in
      (None, write_ws b w <| w_masks := masks |>)
  | CONNECTING => (Some UV_EAGAIN, w)
  | _ => (Some UV_ESHUTDOWN, w)
  end.
Definition Send (opcode : Z) (data : list bytes) : WebSocket -> option ws_error * WebSocket := SendFrames [MkFrame opcode data].

Definition SendClose (code : Z) (reason : bytes) (w : WebSocket) : WebSocket :=
  let data := if code =? 1005 then [] else [[u8 (Z.shiftr code 8); u8 code] ++ reason] in
  (Send (Z.lor kFlagFin kOpClose) data w).2.

(** ** Closing *)

Definition SetClosed (code : Z) (reason : bytes) (failed : bool) (w : WebSocket) : WebSocket :=
  match w_state w with
  | FAILED | CLOSED => w
  | _ => emit_ws (closed code reason) (w <| w_state := if failed then FAILED else CLOSED |>)
  end.
Definition Shutdown (w : WebSocket) : WebSocket := w <| w_shutdowns ::= S |>.
Definition Close (code : Z) (reason : bytes) (w : WebSocket) : WebSocket :=
  let w := SendClose code reason w in
  match w_state w with FAILED | CLOSED => w | _ => w <| w_state := CLOSING |> end.
Definition Fail (code : Z) (reason : bytes) (w : WebSocket) : WebSocket :=
  match w_state w with
  | FAILED | CLOSED => w
  | _ => Shutdown (SetClosed code reason true (SendClose code reason w))
  end.
Definition Terminate (code : Z) (reason : bytes) (w : WebSocket) : WebSocket :=
  match w_state w with
  | FAILED | CLOSED => w
  | _ => Shutdown (SetClosed code reason false w)
  end.

(** ** The opening handshake *)

Definition AcceptHash (key : bytes) : bytes :=
  Base64Encode (RawFinal (Update (lit "258EAFA5-E914-47DA-95CA-C5AB0DC85B11") (Update key reset))).1.

(** Items separated by a comma and a space *)
Fixpoint comma_list (l : list bytes) : bytes :=
  match l with
  | [] => []
  | [x] => x
  | x :: l => x ++ lit ", " ++ comma_list l
  end.
Definition header_line (name value : bytes) : bytes := name ++ lit ": " ++ value ++ crlf.

Definition client_request (uri host key : bytes) (protocols : list bytes) (extraHeaders : list (bytes * bytes)) : bytes :=
  lit "GET " ++ uri ++ lit " HTTP/1.1" ++ crlf ++
  header_line (lit "Host") host ++
  header_line (lit "Upgrade") (lit "websocket") ++
  header_line (lit "Connection") (lit "Upgrade") ++
  header_line (lit "Sec-WebSocket-Key") key ++
  header_line (lit "Sec-WebSocket-Version") (lit "13") ++
  (match protocols with [] => [] | _ => header_line (lit "Sec-WebSocket-Protocol") (comma_list protocols) end) ++
  concat ((fun h => header_line h.1 h.2) <$> extraHeaders) ++
  crlf.

(** [StartClient]; [nonce] is the 16 random bytes. *)
Definition StartClient (nonce uri host : bytes) (protocols : list bytes) (extraHeaders : list (bytes * bytes)) (w : WebSocket) : WebSocket :=
  let key := Base64Encode nonce in
  write_ws (client_request uri host key protocols extraHeaders)
    (w <| w_handshake := Some (MkHandshake key protocols false false false false) |>
       <| w_parser := Some (http_parser_init HTTP_RESPONSE, MkCollector 1024 kStart [] [] [] false tt) |>).

(** The slots of the parser of the response *)
Definition set_handshake (f : Handshake -> Handshake) (w : WebSocket) : WebSocket :=
  w <| w_handshake ::= fun h => f <$> h |>.
Definition response_header (name value : bytes) (hs : Handshake) (w : WebSocket) : WebSocket :=
  let value := trim value in
  if equals_lower name (lit "upgrade") then
    if negb (equals_lower value (lit "websocket")) then Terminate 1002 (lit "invalid upgrade response value") w
    else set_handshake (fun h => h <| hs_hasUpgrade := true |>) w
  else if equals_lower name (lit "connection") then
    if negb (equals_lower value (lit "upgrade")) then Terminate 1002 (lit "invalid connection response value") w
    else set_handshake (fun h => h <| hs_hasConnection := true |>) w
  else if equals_lower name (lit "sec-websocket-accept") then
    if negb (bool_decide (value = AcceptHash (hs_key hs))) then Terminate 1002 (lit "invalid accept key") w
    else set_handshake (fun h => h <| hs_hasAccept := true |>) w
  else if equals_lower name (lit "sec-websocket-extensions") then
    match value with [] => w | _ => Terminate 1010 (lit "unsupported extension") w end
  else if equals_lower name (lit "sec-websocket-protocol") then
    if negb (existsb (equals_lower value) (hs_protocols hs)) then Terminate 1003 (lit "unsupported protocol") w
    else set_handshake (fun h => h <| hs_hasProtocol := true |>) w <| w_protocol := value |>
  else w.
Definition response_complete (hs : Handshake) (w : WebSocket) : WebSocket :=
  if negb (hs_hasUpgrade hs) || negb (hs_hasConnection hs) || negb (hs_hasAccept hs) ||
     (negb (hs_hasProtocol hs) && negb (bool_decide (hs_protocols hs = [])))
  then Terminate 1002 (lit "invalid response") w
  else match w_state w with CONNECTING => emit_ws (open (w_protocol w)) (w <| w_state := OPEN |>) | _ => w end.
Definition response_slot (sig : http_signal) (p : http_parser) (w : WebSocket) : WebSocket * list slot_call :=
  match w_handshake w with
  | None => (w, [])
  | Some hs =>
      (match sig with
       | status s => if hp_status_code p =? 101 then w else Terminate (hp_status_code p) s w
       | header name value => response_header name value hs w
       | headersComplete _ => response_complete hs w
       | _ => w
       end, [])
  end.

Definition with_slots {V V'} (v : V') (c : Collector V) : Collector V' :=
  MkCollector (m_maxLength c) (m_state c) (m_urlBuf c) (m_fieldBuf c) (m_valueBuf c) (m_aborted c) v.
(** [m_clientHandshake->parser.Execute(data)]: what is left of the data *)
Definition handshake_execute (data : bytes) (p : http_parser) (c : Collector unit) (w : WebSocket) : option (bytes * http_parser * WebSocket) :=
  match Execute response_slot data (MkHttpParser p (with_slots w c)) with
  | Some (rest, h) =>
      Some (rest, m_parser h, m_slots (m_collector h) <| w_parser := Some (m_parser h, with_slots tt (m_collector h)) |>)
  | None => None
  end.

(** The response of the server *)
Definition server_response (key protocol : bytes) : bytes :=
  lit "HTTP/1.1 101 Switching Protocols" ++ crlf ++
  header_line (lit "Upgrade") (lit "websocket") ++
  header_line (lit "Connection") (lit "Upgrade") ++
  header_line (lit "Sec-WebSocket-Accept") (AcceptHash key) ++
  (match protocol with [] => [] | _ => header_line (lit "Sec-WebSocket-Protocol") protocol end) ++
  crlf.
Definition version_response : bytes :=
  lit "HTTP/1.1 426 Upgrade Required" ++ crlf ++ header_line (lit "Upgrade") (lit "WebSocket") ++
  header_line (lit "Sec-WebSocket-Version") (lit "13") ++ crlf.

(** [StartServer] and, when its write is complete, [server_written] *)
Definition StartServer (key version protocol : bytes) (w : WebSocket) : WebSocket :=
  let w := w <| w_protocol := protocol |> in
  if bool_decide (version = lit "13") then write_ws (server_response key protocol) w else write_ws version_response w.
Definition server_written (version : bytes) (w : WebSocket) : WebSocket :=
  if bool_decide (version = lit "13") then
    match w_state w with CONNECTING => emit_ws (open (w_protocol w)) (w <| w_state := OPEN |>) | _ => w end
  else Terminate 1003 (lit "unsupported protocol version") w.

(** ** Receiving *)

Definition byte_at (s : bytes) (i : Z) : Z := ub (default (u8 0) (s !! Z.to_nat i)).
Definition masked (w : WebSocket) : bool := negb (Z.land (byte_at (w_header w) 1) kFlagMasking =? 0).
Definition len_field (w : WebSocket) : Z := Z.land (byte_at (w_header w) 1) kLenMask.

(** Moves bytes of the data to the header until it has [size] bytes. *)
Definition fill_header (size : Z) (data : bytes) (w : WebSocket) : bytes * WebSocket :=
  let n := Z.to_nat (Z.min (size - zlen (w_header w)) (zlen data)) in
  (drop n data, w <| w_header ::= fun h => h ++ take n data |>).

(** A step returns from [HandleIncoming], or goes on with the rest of the data. *)
Inductive ws_step :=
| Return (w : WebSocket)
| Go (data : bytes) (w : WebSocket).
Definition andThen (s : ws_step) (k : bytes -> WebSocket -> ws_step) : ws_step :=
  match s with Return w => Return w | Go data w => k data w end.

Definition first_bytes (data : bytes) (w : WebSocket) : ws_step :=
  if zlen (w_header w) <? 2 then
    let '(data, w) := fill_header 2 data w in
    if zlen (w_header w) <? 2 then Return w
    else if negb (Z.land (byte_at (w_header w) 0) 0x70 =? 0) then Return (Fail 1002 (lit "nonzero RSV") w)
    else Go data w
  else Go data w.
Definition header_size (w : WebSocket) : Z :=
  2 + (if len_field w =? 126 then 2 else if len_field w =? 127 then 8 else 0) + (if masked w then 4 else 0).
Definition calculate_size (data : bytes) (w : WebSocket) : ws_step :=
  if w_headerSize w =? 0 then
    let w := w <| w_headerSize := header_size w |> in
    if w_server w && negb (masked w) then Return (Fail 1002 (lit "client data not masked") w)
    else if negb (w_server w) && masked w then Return (Fail 1002 (lit "server data masked") w)
    else Go data w
  else Go data w.
Definition complete_header (data : bytes) (w : WebSocket) : ws_step :=
  if zlen (w_header w) <? w_headerSize w then
    let '(data, w) := fill_header (w_headerSize w) data w in
    if zlen (w_header w) <? w_headerSize w then Return w else Go data w
  else Go data w.
Fixpoint read_big_endian (n : nat) (i : Z) (h : bytes) (acc : Z) : Z :=
  match n with
  | O => acc
  | S n => read_big_endian n (i + 1) h (Z.lor (Z.shiftl acc 8) (byte_at h i))
  end.
Definition payload_length (w : WebSocket) : Z :=
  if len_field w =? 126 then read_big_endian 2 2 (w_header w) 0
  else if len_field w =? 127 then read_big_endian 8 2 (w_header w) 0
  else len_field w.
Definition start_payload (data : bytes) (w : WebSocket) : ws_step :=
  let w := w <| w_frameSize := payload_length w |> in
  if w_maxMessageSize w <? wrap 64 (zlen (w_payload w) + w_frameSize w) then Return (Fail 1009 (lit "message too large") w)
  else Go data w.
Definition read_header (data : bytes) (w : WebSocket) : ws_step :=
  if w_frameSize w =? UINT64_MAX then
    andThen (andThen (andThen (first_bytes data w) calculate_size) complete_header) start_payload
  else Go data w.

(** *** A complete frame *)

Definition frame_key (w : WebSocket) : byte * byte * byte * byte :=
  let k i := default (u8 0) (w_header w !! Z.to_nat (w_headerSize w - i)) in (k 4, k 3, k 2, k 1).
Definition unmask (w : WebSocket) : WebSocket :=
  if masked w then
    let n := Z.to_nat (w_frameStart w) in
    w <| w_payload ::= fun p => take n p ++ apply_mask (frame_key w) (drop n p) |>
  else w.

(** A message, or a piece of it if pieces are not combined *)
Definition deliver (opcode : Z) (fin : bool) (w : WebSocket) : WebSocket :=
  if negb (w_combineFragments w) || fin
  then emit_ws ((if opcode =? kOpText then text else binary) (w_payload w) fin) w
  else w.
Definition close_code (fin : bool) (w : WebSocket) : Z * bytes :=
  if negb fin then (1002, lit "cannot fragment control frames")
  else if zlen (w_payload w) <? 2 then (1005, [])
  else (Z.lor (Z.shiftl (byte_at (w_payload w) 0) 8) (byte_at (w_payload w) 1), drop 2 (w_payload w)).

(** [inl]: the connection has failed. *)
Definition handle_message (fin : bool) (opcode : Z) (w : WebSocket) : WebSocket + WebSocket :=
  if opcode =? kOpCont then
    if (w_fragmentOpcode w =? kOpText) || (w_fragmentOpcode w =? kOpBinary) then
      let w := deliver (w_fragmentOpcode w) fin w in
      inr (if fin then w <| w_fragmentOpcode := 0 |> else w)
    else inl (Fail 1002 (lit "invalid continuation message") w)
  else if (opcode =? kOpText) || (opcode =? kOpBinary) then
    if negb (w_fragmentOpcode w =? 0) then inl (Fail 1002 (lit "incomplete fragment") w)
    else
      let w := deliver opcode fin w in
      inr (if negb fin then w <| w_fragmentOpcode := opcode |> else w)
  else if opcode =? kOpClose then
    let '(code, reason) := close_code fin w in
    let w := match w_state w with CLOSING => w | _ => SendClose code reason w end in
    let w := SetClosed code reason false w in
    inr (if w_server w then Shutdown w else w)
  else if (opcode =? kOpPing) || (opcode =? kOpPong) then
    if negb fin then inl (Fail 1002 (lit "cannot fragment control frames") w)
    else inr (emit_ws (if opcode =? kOpPing then ping (w_payload w) else pong (w_payload w)) w)
  else inl (Fail 1002 (lit "invalid message opcode") w).

Definition next_message (fin : bool) (w : WebSocket) : WebSocket :=
  let w := w <| w_header := [] |> <| w_headerSize := 0 |> in
  let w := if negb (w_combineFragments w) || fin then w <| w_payload := [] |> else w in
  w <| w_frameStart := zlen (w_payload w) |> <| w_frameSize := UINT64_MAX |>.
Definition handle_frame (data : bytes) (w : WebSocket) : ws_step :=
  let w := unmask w in
  let fin := negb (Z.land (byte_at (w_header w) 0) kFlagFin =? 0) in
  match handle_message fin (Z.land (byte_at (w_header w) 0) kOpMask) w with
  | inl w => Return w
  | inr w => Go data (next_message fin w)
  end.
Definition read_payload (data : bytes) (w : WebSocket) : ws_step :=
  if w_frameSize w =? UINT64_MAX then Go data w
  else
    let need := wrap 64 (w_frameStart w + w_frameSize w - zlen (w_payload w)) in
    let toCopy := Z.min need (zlen data) in
    let w := w <| w_payload ::= fun p => p ++ take (Z.to_nat toCopy) data |> in
    let data := drop (Z.to_nat toCopy) data in
    if need - toCopy =? 0 then handle_frame data w else Go data w.

(** An iteration of the loop, and the loop; [None] is a loop that has not ended. *)
Definition frame_step (data : bytes) (w : WebSocket) : ws_step := andThen (read_header data w) read_payload.
Fixpoint message_loop (fuel : nat) (data : bytes) (w : WebSocket) : option WebSocket :=
  match data with
  | [] => Some w
  | _ =>
      match fuel with
      | O => None
      | S fuel => match frame_step data w with Return w => Some w | Go data w => message_loop fuel data w end
      end
  end.

(** [HandleIncoming]; [None] also stands for an assertion of the HTTP parser. *)
Definition HandleIncoming (fuel : nat) (data : bytes) (w : WebSocket) : option WebSocket :=
  match w_state w with
  | FAILED | CLOSED => Some w
  | CONNECTING =>
      match w_parser w with
      | None => Some (Terminate 1003 (lit "got data on server before response") w)
      | Some (p, c) =>
          match handshake_execute data p c w with
          | None => None
          | Some (data, p, w) =>
              if negb (bool_decide (hp_errno p = HPE_OK)) then Some (Terminate 1003 (lit "invalid response") w)
              else match w_state w with
                   | OPEN => message_loop fuel data (w <| w_handshake := None |> <| w_parser := None |>)
                   | _ => Some w
                   end
          end
      end
  | _ => message_loop fuel data w
  end.

(** The stream is closed, has an error or has ended; and the timer of the handshake *)
Definition stream_closed (w : WebSocket) : WebSocket := SetClosed 1006 (lit "handle closed") false w.
Definition stream_error (name : bytes) (w : WebSocket) : WebSocket := Terminate 1006 (lit "stream error: " ++ name) w.
Definition stream_end (w : WebSocket) : WebSocket := Terminate 1006 (lit "remote end closed connection") w.
Definition handshake_timeout (w : WebSocket) : WebSocket := Terminate 1006 (lit "connection timed out") w.
End Sending.
