(* ===== verification/WebSocketLoop.v ===== *)
(** * WebSocketLoop: the loop that reads frames

    What a socket does with the data it receives does not depend on how the data is cut into
    pieces, as long as the socket is not closed; and the loop over the data ends, but for one
    kind of frame. *)

From S2P Require Import Prelude Base64 Sha1 Http WebSocket.
Local Open Scope Z_scope.

Definition live (w : WebSocket) : bool := match w_state w with FAILED | CLOSED => false | _ => true end.

Section Loop.
Context `{Masks}.

Lemma SetClosed_dead code reason failed w : live (SetClosed code reason failed w) = false.
Proof. unfold SetClosed, live. destruct (w_state w) eqn:E; rewrite ?E; by destruct failed. Qed.
Lemma Fail_dead code reason w : live (Fail code reason w) = false.
Proof.
  unfold Fail. destruct (w_state w) eqn:E; try (unfold live; by rewrite E); change (live (Shutdown ?x)) with (live x); apply SetClosed_dead.
Qed.

(** ** Data in pieces *)

Lemma fill_header_more n a b w :
  zlen (w_header w) + zlen a <= n ->
  fill_header n (a ++ b) w = fill_header n b (w <| w_header ::= fun h => h ++ a |>).
Proof.
  intros Hle. unfold fill_header, fupd. cbn. rewrite !zlen_app. assert (0 <= zlen b) by (unfold zlen; lia).
  set (k := Z.to_nat (Z.min (n - (zlen (w_header w) + zlen a)) (zlen b))).
  replace (Z.to_nat (Z.min (n - zlen (w_header w)) (zlen a + zlen b))) with (length a + k)%nat by (unfold k, zlen in *; lia).
  by rewrite drop_app_add, take_app_add, app_assoc.
Qed.
Lemma fill_header_short n a w : zlen (w_header w) + zlen a <= n -> fill_header n a w = ([], w <| w_header ::= fun h => h ++ a |>).
Proof.
  intros Hle. unfold fill_header. rewrite Z.min_r by lia. unfold zlen. by rewrite Nat2Z.id, drop_all, firstn_all.
Qed.
Lemma fill_header_enough n a b w : n <= zlen (w_header w) + zlen a ->
  fill_header n (a ++ b) w = ((fill_header n a w).1 ++ b, (fill_header n a w).2).
Proof.
  intros Hle. unfold fill_header. rewrite zlen_app. assert (0 <= zlen b) by (unfold zlen; lia). rewrite !Z.min_l by lia. cbn.
  rewrite drop_app_le, take_app_le by (unfold zlen in *; lia). done.
Qed.
Lemma zlen_fill_header n a w : zlen (w_header w) <= n -> zlen (w_header (fill_header n a w).2) = Z.min n (zlen (w_header w) + zlen a).
Proof. intros Hle. unfold fill_header, fupd. cbn. rewrite zlen_app. unfold zlen in *. rewrite length_take. lia. Qed.

(** Sockets with the same payload *)
Record same_frame (w w' : WebSocket) : Prop := {
  sf_frameSize : w_frameSize w' = w_frameSize w;
  sf_frameStart : w_frameStart w' = w_frameStart w;
  sf_payload : w_payload w' = w_payload w;
  sf_max : w_maxMessageSize w' = w_maxMessageSize w;
}.

(** What a stage does with the first piece of the data: it passes the data on, it fails, or it
    goes on with the second piece where it was.  [Q] holds of the socket that it passes on. *)
Definition cut (f : bytes -> WebSocket -> ws_step) (Q : WebSocket -> Prop) (a b : bytes) (w : WebSocket) : Prop :=
  (exists r w', f a w = Go r w' /\ f (a ++ b) w = Go (r ++ b) w' /\ Q w') \/
  (exists w', f a w = Return w' /\ f (a ++ b) w = Return w' /\ live w' = false) \/
  (exists w', f a w = Return w' /\ f (a ++ b) w = f b w' /\ w_frameSize w' = w_frameSize w).

Lemma first_bytes_cut a b w :
  cut first_bytes (fun w' => 2 <= zlen (w_header w') /\ w_frameSize w' = w_frameSize w) a b w.
Proof.
  unfold cut, first_bytes at 1 2 3 4 5 6. destruct (Z.ltb_spec (zlen (w_header w)) 2) as [Hlt|Hge]; [|left; exists a, w; auto].
  destruct (Z.le_gt_cases 2 (zlen (w_header w) + zlen a)) as [Hle|Hgt].
  - rewrite (fill_header_enough _ a b) by done. pose proof (zlen_fill_header 2 a w ltac:(lia)) as Hz. destruct (fill_header 2 a w) as [r w'] eqn:Ef.
    cbn [fst snd] in *. rewrite Z.min_l in Hz by lia. rewrite Hz. cbn. destruct (negb _) eqn:En.
    + right; left. eexists. split_and!; [done|done|]. apply Fail_dead.
    + left. do 2 eexists. split_and!; [done|done|lia|]. unfold fill_header in Ef. by simplify_eq.
  - right; right. rewrite (fill_header_short _ a) by lia. rewrite (fill_header_more _ a) by lia.
    set (w' := w <| w_header ::= _ |>). assert (zlen (w_header w') = zlen (w_header w) + zlen a) as Hz by (unfold w', fupd; cbn; apply zlen_app).
    exists w'. unfold first_bytes. rewrite Hz. by destruct (Z.ltb_spec (zlen (w_header w) + zlen a) 2); [|lia].
Qed.
Lemma complete_header_cut a b w : 2 <= zlen (w_header w) -> cut complete_header (fun _ => True) a b w.
Proof.
  intros H2. unfold cut, complete_header at 1 2 3 4 5 6. destruct (Z.ltb_spec (zlen (w_header w)) (w_headerSize w)) as [Hlt|Hge]; [|left; exists a, w; auto].
  destruct (Z.le_gt_cases (w_headerSize w) (zlen (w_header w) + zlen a)) as [Hle|Hgt].
  - rewrite (fill_header_enough _ a b) by done. pose proof (zlen_fill_header (w_headerSize w) a w ltac:(lia)) as Hz.
    destruct (fill_header (w_headerSize w) a w) as [r w'] eqn:Ef. cbn [fst snd] in *. rewrite Z.min_l in Hz by lia.
    assert (w_headerSize w' = w_headerSize w) as Es by (unfold fill_header in Ef; by simplify_eq). rewrite Hz, Es, Z.ltb_irrefl. left. eauto 6.
  - right; right. rewrite (fill_header_short _ a) by lia. rewrite (fill_header_more _ a) by lia.
    set (w' := w <| w_header ::= _ |>). assert (zlen (w_header w') = zlen (w_header w) + zlen a) as Hz by (unfold w', fupd; cbn; apply zlen_app).
    exists w'. unfold complete_header. change (w_headerSize w') with (w_headerSize w). rewrite Hz. by destruct (Z.ltb_spec (zlen (w_header w) + zlen a) (w_headerSize w)); [|lia].
Qed.

(** The stages that do not read the data *)
Lemma calculate_size_pass w :
  (exists w', (forall data, calculate_size data w = Go data w') /\ w_headerSize w' <> 0 /\
     w_header w' = w_header w /\ same_frame w w' /\ (w_headerSize w <> 0 -> w' = w)) \/
  (exists w', (forall data, calculate_size data w = Return w') /\ live w' = false).
Proof.
  unfold calculate_size. destruct (Z.eqb_spec (w_headerSize w) 0) as [E|E]; [|left; exists w; by auto using same_frame].
  set (w' := w <| w_headerSize := header_size w |>).
  assert (header_size w <> 0) by (unfold header_size; repeat (destruct (_ =? _)); destruct (masked w); lia).
  destruct (w_server w' && _); [right; eexists; split; [done|apply Fail_dead]|].
  destruct (negb (w_server w') && _); [right; eexists; split; [done|apply Fail_dead]|]. left. by exists w'.
Qed.
Lemma start_payload_pass w :
  (exists w', forall data, start_payload data w = Go data w') \/ (exists w', (forall data, start_payload data w = Return w') /\ live w' = false).
Proof. unfold start_payload. destruct (_ <? _); [right; eexists; split; [done|apply Fail_dead]|left; eauto]. Qed.

(** Where the header is complete but for its last bytes, the stages before these pass. *)
Lemma read_header_resume data w : w_frameSize w = UINT64_MAX -> 2 <= zlen (w_header w) -> w_headerSize w <> 0 ->
  read_header data w = andThen (complete_header data w) start_payload.
Proof.
  intros E H2 Hn. unfold read_header. rewrite E. change (UINT64_MAX =? UINT64_MAX) with true. cbv iota. unfold first_bytes.
  destruct (Z.ltb_spec (zlen (w_header w)) 2); [lia|]. cbn [andThen]. unfold calculate_size. by destruct (Z.eqb_spec (w_headerSize w) 0).
Qed.

Lemma read_header_cut a b w : cut read_header (fun _ => True) a b w.
Proof.
  unfold cut, read_header at 1 2 3 4 5 6. destruct (Z.eqb_spec (w_frameSize w) UINT64_MAX) as [E|E]; [|left; exists a, w; auto].
  destruct (first_bytes_cut a b w) as [(r1 & w1 & E1 & E1' & H2 & F1)|[(w1 & E1 & E1' & D)|(w1 & E1 & E1' & F1)]]; rewrite !E1, ?E1'; cbn [andThen].
  2: { right; left; eauto. }
  2: { right; right. exists w1. split_and!; [done| |done]. unfold read_header. rewrite F1, E. done. }
  destruct (calculate_size_pass w1) as [(w2 & E2 & Hn & Hh & [F2 _ _ _] & _)|(w2 & E2 & D)]; rewrite !E2; cbn [andThen].
  2: { right; left; eauto. }
  rewrite <- Hh in H2.
  destruct (complete_header_cut r1 b w2 H2) as [(r3 & w3 & E3 & E3' & _)|[(w3 & E3 & E3' & D)|(w3 & E3 & E3' & F3)]]; rewrite !E3, ?E3'; cbn [andThen].
  2: { right; left; eauto. }
  2: { right; right. exists w3. split_and!; [done| |congruence]. rewrite read_header_resume; [done|congruence| |].
       all: unfold complete_header, fill_header, fupd in E3; repeat case_match; simplify_eq; cbn; rewrite ?zlen_app; unfold zlen in *; try lia; done. }
  destruct (start_payload_pass w3) as [(w4 & E4)|(w4 & E4 & D)]; rewrite !E4; [left|right; left]; eauto 6.
Qed.

Lemma handle_message_dead fin opcode w w' : handle_message fin opcode w = inl w' -> live w' = false.
Proof.
  unfold handle_message. intros E. repeat (case_match; simplify_eq; try (by apply Fail_dead)).
Qed.
Lemma handle_frame_pass w :
  (exists w', forall data, handle_frame data w = Go data w') \/ (exists w', (forall data, handle_frame data w = Return w') /\ live w' = false).
Proof.
  unfold handle_frame. destruct (handle_message _ _ _) eqn:E; [right|left]; eauto. eexists. split; [done|]. by eapply handle_message_dead.
Qed.

(** How many bytes of the payload are missing *)
Definition missing (w : WebSocket) : Z := wrap 64 (w_frameStart w + w_frameSize w - zlen (w_payload w)).
Lemma missing_range w : 0 <= missing w < 2 ^ 64.
Proof. apply Z.mod_pos_bound. lia. Qed.
Lemma missing_app a w : zlen a <= missing w -> missing (w <| w_payload ::= fun p => p ++ a |>) = missing w - zlen a.
Proof.
  intros Hle. pose proof (missing_range w) as Hr. unfold missing, fupd in *. cbn. rewrite zlen_app. rewrite Z.sub_add_distr. unfold wrap in *.
  rewrite Zminus_mod, <- Zminus_mod_idemp_l. rewrite Zminus_mod_idemp_r, Z.mod_mod by lia. apply Z.mod_small. unfold zlen in *. lia.
Qed.
Lemma read_payload_cut a b w :
  (exists r w', read_payload a w = Go r w' /\ read_payload (a ++ b) w = Go (r ++ b) w') \/
  (exists w', read_payload a w = Return w' /\ read_payload (a ++ b) w = Return w' /\ live w' = false) \/
  (exists w', read_payload a w = Go [] w' /\ read_payload (a ++ b) w = frame_step b w').
Proof.
  unfold read_payload at 1 2 3 4 5 6. destruct (Z.eqb_spec (w_frameSize w) UINT64_MAX) as [E|E]; [left; exists a, w; auto|].
  fold (missing w). pose proof (missing_range w) as Hr. rewrite zlen_app. assert (0 <= zlen b) by (unfold zlen; lia).
  destruct (Z.le_gt_cases (missing w) (zlen a)) as [Hle|Hgt].
  - rewrite !Z.min_l, Z.sub_diag by lia. cbn [Z.eqb]. rewrite drop_app_le, take_app_le by (unfold zlen in *; lia).
    match goal with |- context [handle_frame _ ?x] => destruct (handle_frame_pass x) as [(w' & E')|(w' & E' & D)] end; rewrite !E'; [left|right; left]; eauto.
  - right; right. rewrite (Z.min_r (missing w) (zlen a)) by lia.
    replace (Z.to_nat (zlen a)) with (length a) by (unfold zlen; lia). rewrite drop_all, firstn_all.
    destruct (Z.eqb_spec (missing w - zlen a) 0) as [|_]; [lia|]. eexists. split; [done|].
    unfold frame_step, read_header. set (w' := w <| w_payload ::= fun p => p ++ a |>). change (w_frameSize w') with (w_frameSize w).
    destruct (Z.eqb_spec (w_frameSize w) UINT64_MAX) as [|_]; [done|]. cbn [andThen]. unfold read_payload. change (w_frameSize w') with (w_frameSize w).
    destruct (Z.eqb_spec (w_frameSize w) UINT64_MAX) as [|_]; [done|].
    change (wrap 64 (w_frameStart w' + w_frameSize w - zlen (w_payload w'))) with (missing w').
    assert (missing w' = missing w - zlen a) as Hm by (apply missing_app; lia).
    rewrite Hm. set (k := Z.min (missing w - zlen a) (zlen b)).
    replace (Z.min (missing w) (zlen a + zlen b)) with (zlen a + k) by lia.
    replace (Z.to_nat (zlen a + k)) with (length a + Z.to_nat k)%nat by (unfold k, zlen in *; lia).
    rewrite drop_app_add, take_app_add. replace (missing w - (zlen a + k)) with (missing w - zlen a - k) by lia.
    unfold w', fupd. cbn. by rewrite app_assoc.
Qed.

Lemma frame_step_cut a b w :
  (exists r w', frame_step a w = Go r w' /\ frame_step (a ++ b) w = Go (r ++ b) w') \/
  (exists w', frame_step a w = Return w' /\ frame_step (a ++ b) w = Return w' /\ live w' = false) \/
  (exists w', (frame_step a w = Return w' \/ frame_step a w = Go [] w') /\ frame_step (a ++ b) w = frame_step b w').
Proof.
  unfold frame_step at 1 2 3 4 5 6 7.
  destruct (read_header_cut a b w) as [(r & w' & E & E' & _)|[(w' & E & E' & D)|(w' & E & E' & F)]]; rewrite !E, ?E'; cbn [andThen].
  - destruct (read_payload_cut r b w') as [?|[?|(w'' & E1 & E2)]]; [by left|by right; left|right; right; eauto].
  - right; left; eauto.
  - right; right. exists w'. by split; [left|].
Qed.

(** The data is read with some number of iterations. *)
Definition runs (data : bytes) (w w' : WebSocket) : Prop := exists fuel, message_loop fuel data w = Some w'.

Lemma message_loop_step fuel data w : data <> [] ->
  message_loop (S fuel) data w = match frame_step data w with Return w => Some w | Go data w => message_loop fuel data w end.
Proof. by destruct data. Qed.
Lemma message_loop_mono n m data w w' : message_loop n data w = Some w' -> (n <= m)%nat -> message_loop m data w = Some w'.
Proof.
  revert m data w. induction n as [|n IH]; intros m data w E Hle; destruct (decide (data = [])) as [->|Hd]; [by destruct m|by destruct data|by destruct m|].
  destruct m as [|m]; [lia|]. rewrite message_loop_step in E |- * by done. destruct (frame_step data w); [done|]. apply IH; [done|lia].
Qed.
Lemma runs_deterministic data w w1 w2 : runs data w w1 -> runs data w w2 -> w1 = w2.
Proof.
  intros [n1 E1] [n2 E2]. apply (message_loop_mono _ (n1 + n2)) in E1; [|lia]. apply (message_loop_mono _ (n1 + n2)) in E2; [|lia]. congruence.
Qed.
Lemma runs_nil w : runs [] w w.
Proof. by exists 0%nat. Qed.
Lemma runs_go data w r w' w2 : data <> [] -> frame_step data w = Go r w' -> runs data w w2 <-> runs r w' w2.
Proof.
  intros Hd E. split; intros [n En].
  - destruct n as [|n]; [by destruct data|]. rewrite message_loop_step, E in En by done. by exists n.
  - exists (S n). by rewrite message_loop_step, E.
Qed.
Lemma runs_same_step data w data' w' w2 : data <> [] -> data' <> [] -> frame_step data w = frame_step data' w' ->
  runs data w w2 <-> runs data' w' w2.
Proof.
  intros Hd Hd' E. split; intros [n En]; (destruct n as [|n]; [by destruct data, data'|]); rewrite message_loop_step in En by done;
    exists (S n); rewrite message_loop_step by done; first [by rewrite <- E|by rewrite E].
Qed.

(** A step leaves the state as it is, or closes the socket; and it keeps the settings. *)
Definition settings (w : WebSocket) : bool * Z * bool := (w_server w, w_maxMessageSize w, w_combineFragments w).
Definition moved (w w' : WebSocket) : Prop := (w_state w' = w_state w \/ live w' = false) /\ settings w' = settings w.
Definition moves (w : WebSocket) (s : ws_step) : Prop := match s with Return w' | Go _ w' => moved w w' end.
Lemma moved_refl w : moved w w.
Proof. by split; [left|]. Qed.
Lemma moved_trans w1 w2 w3 : moved w1 w2 -> moved w2 w3 -> moved w1 w3.
Proof. unfold moved, live. intros [[E1|E1] S1] [[E2|E2] S2]; (split; [rewrite ?E2; auto|congruence]). Qed.
Lemma moved_same w w1 w2 : moved w w1 -> w_state w2 = w_state w1 -> settings w2 = settings w1 -> moved w w2.
Proof. intros Hm E S. eapply moved_trans; [done|]. by split; [left|]. Qed.
Lemma SendClose_settings code reason w : settings (SendClose code reason w) = settings w.
Proof. unfold SendClose, Send, SendFrames. destruct (w_state w); try done. by destruct (WriteFrames _ _ _). Qed.
Lemma SetClosed_settings code reason f w : settings (SetClosed code reason f w) = settings w.
Proof. unfold SetClosed. by destruct (w_state w). Qed.
Lemma Fail_settings code reason w : settings (Fail code reason w) = settings w.
Proof.
  unfold Fail. destruct (w_state w); try done; change (settings (Shutdown ?x)) with (settings x); by rewrite SetClosed_settings, SendClose_settings.
Qed.
Lemma Fail_moved code reason w w' : moved w w' -> moved w (Fail code reason w').
Proof. intros [_ S]. split; [right; apply Fail_dead|]. by rewrite Fail_settings. Qed.
Lemma handle_close_moved c r f w : moved w (SetClosed c r f w) /\ moved w (SetClosed c r f (SendClose c r w)) /\
  moved w (Shutdown (SetClosed c r f w)) /\ moved w (Shutdown (SetClosed c r f (SendClose c r w))).
Proof.
  unfold moved. change (live (Shutdown ?x)) with (live x). change (settings (Shutdown ?x)) with (settings x).
  rewrite !SetClosed_settings, !SendClose_settings, !SetClosed_dead. by split_and!; auto.
Qed.
Lemma handle_message_moved fin opcode w : match handle_message fin opcode w with inl w' | inr w' => moved w w' end.
Proof.
  unfold handle_message, deliver, close_code.
  repeat (case_match; simplify_eq); try (apply Fail_moved, moved_refl); try apply handle_close_moved; by split; [left|].
Qed.
Lemma moves_andThen w s k : moves w s -> (forall data w', moved w w' -> moves w (k data w')) -> moves w (andThen s k).
Proof. destruct s; cbn; auto. Qed.
Lemma frame_step_moves data w : moves w (frame_step data w).
Proof.
  pose proof (moved_refl w) as Hrefl.
  apply moves_andThen; [unfold read_header; destruct (_ =? _); [|done]; repeat apply moves_andThen|].
  - unfold first_bytes, fill_header. repeat case_match; simplify_eq; try apply Fail_moved; by eapply moved_same.
  - intros data' w' E. unfold calculate_size. repeat case_match; try apply Fail_moved; by eapply moved_same.
  - intros data' w' E. unfold complete_header, fill_header. repeat case_match; simplify_eq; by eapply moved_same.
  - intros data' w' E. unfold start_payload. repeat case_match; try apply Fail_moved; by eapply moved_same.
  - intros data' w' E. unfold read_payload, handle_frame. destruct (_ =? _); [done|]. destruct (_ =? _); [|by eapply moved_same].
    match goal with |- context [handle_message ?f ?o ?x] => pose proof (handle_message_moved f o x) as Hx; assert (moved w x) as Ex end.
    { eapply moved_same; [exact E|..]; unfold unmask, fupd; by destruct (masked _). }
    destruct (handle_message _ _ _); cbn; [by eapply moved_trans|].
    eapply moved_same; [by eapply moved_trans|..]; unfold next_message, fupd; by destruct (_ || _).
Qed.
Lemma runs_moved data w w' : runs data w w' -> moved w w'.
Proof.
  intros [n E]. revert data w E. induction n as [|n IH]; intros data w E; (destruct (decide (data = [])) as [->|Hd]; [simplify_eq/=; apply moved_refl|]);
    [by destruct data|]. rewrite message_loop_step in E by done. pose proof (frame_step_moves data w) as Hs.
  destruct (frame_step data w) as [w1|r w1]; cbn in Hs; [by simplify_eq|]. eapply moved_trans; [done|by eapply IH].
Qed.
Lemma runs_dead data w w' : runs data w w' -> live w = false -> live w' = false.
Proof. intros Hr D. apply runs_moved in Hr as [[E|?] _]; [|done]. unfold live in *. by rewrite E. Qed.

(** Data that arrives in two pieces is read as if it had arrived at once. *)
Lemma runs_app a b w w1 w2 : runs a w w1 -> live w1 = true -> runs (a ++ b) w w2 <-> runs b w1 w2.
Proof.
  intros Ha L. destruct (decide (b = [])) as [->|Hb].
  { rewrite app_nil_r. split; intros Hr; [rewrite (runs_deterministic _ _ _ _ Ha Hr); apply runs_nil|].
    by rewrite (runs_deterministic _ _ _ _ Hr (runs_nil w1)). }
  destruct Ha as [fuel E]. revert a w E. induction fuel as [|fuel IH]; intros a w E.
  { destruct a; [|done]. by simplify_eq/=. }
  destruct (decide (a = [])) as [->|Ha]; [by simplify_eq/=|]. rewrite message_loop_step in E by done.
  assert (a ++ b <> []) as Hab by (by destruct a).
  destruct (frame_step_cut a b w) as [(r & w' & E1 & E2)|[(w' & E1 & _ & D)|(w' & [E1|E1] & E2)]]; rewrite E1 in E.
  - rewrite (runs_go (a ++ b) w _ _ _ Hab E2). by apply IH.
  - simplify_eq. congruence.
  - simplify_eq. by apply runs_same_step.
  - destruct fuel; simplify_eq/=; by apply runs_same_step.
Qed.
(** Where the whole of the data leaves the socket live, so does its beginning. *)
Lemma runs_prefix a b w w2 : runs (a ++ b) w w2 -> live w2 = true -> exists w1, runs a w w1 /\ live w1 = true.
Proof.
  intros Hr L. destruct (decide (b = [])) as [->|Hb]; [rewrite app_nil_r in Hr; eauto|].
  destruct Hr as [fuel E]. revert a w E. induction fuel as [|fuel IH]; intros a w E.
  { by destruct a, b. }
  destruct (decide (a = [])) as [->|Ha].
  { exists w. split; [apply runs_nil|]. destruct (live w) eqn:D; [done|]. rewrite (runs_dead b w w2) in L; [done|by exists (S fuel)|done]. }
  assert (a ++ b <> []) as Hab by (by destruct a). rewrite message_loop_step in E by done.
  destruct (frame_step_cut a b w) as [(r & w' & E1 & E2)|[(w' & E1 & E2 & D)|(w' & E1 & E2)]]; rewrite E2 in E.
  - destruct (IH _ _ E) as (w1 & Hr & L1). exists w1. split; [|done]. by apply (runs_go a w r w').
  - simplify_eq. congruence.
  - exists w'. split.
    + destruct E1 as [E1|E1]; exists 1%nat; rewrite message_loop_step, E1 by done; done.
    + destruct (live w') eqn:D; [done|]. rewrite (runs_dead b w' w2) in L; [done| |done]. exists (S fuel). by rewrite message_loop_step.
Qed.

(** ** The end of the loop *)

(** The next byte is read into the header, or into the payload. *)
Definition ready (w : WebSocket) : Prop :=
  if w_frameSize w =? UINT64_MAX then zlen (w_header w) < 2 \/ zlen (w_header w) < w_headerSize w else 0 < missing w.

(** A complete header whose length is the one that stands for an incomplete header *)
Record stuck (w : WebSocket) : Prop := {
  st_frameSize : w_frameSize w = UINT64_MAX;
  st_header : 2 <= zlen (w_header w);
  st_headerSize : w_headerSize w <> 0;
  st_complete : w_headerSize w <= zlen (w_header w);
  st_length : payload_length w = UINT64_MAX;
  st_limit : wrap 64 (zlen (w_payload w) + UINT64_MAX) <= w_maxMessageSize w;
}.
Lemma stuck_step data w : stuck w -> frame_step data w = Go data w.
Proof.
  intros [Hf H2 Hn Hc Hp Hl]. unfold frame_step. rewrite read_header_resume by done. unfold complete_header.
  destruct (Z.ltb_spec (zlen (w_header w)) (w_headerSize w)); [lia|]. cbn [andThen]. unfold start_payload. rewrite Hp.
  replace (w <| w_frameSize := UINT64_MAX |>) with w by (destruct w; cbn in *; by subst). rewrite Hf.
  destruct (Z.ltb_spec (w_maxMessageSize w) (wrap 64 (zlen (w_payload w) + UINT64_MAX))); [lia|]. cbn [andThen]. unfold read_payload. by rewrite Hf.
Qed.
Lemma stuck_never_returns data w : stuck w -> data <> [] -> forall fuel, message_loop fuel data w = None.
Proof.
  intros S Hd fuel. induction fuel as [|fuel IH]; [by destruct data|]. by rewrite message_loop_step, stuck_step.
Qed.

Lemma fill_header_same n data w : same_frame w (fill_header n data w).2.
Proof. done. Qed.
Lemma fill_header_reads n data w : zlen (w_header w) < n ->
  let r := fill_header n data w in
  (length r.1 <= length data)%nat /\ (data <> [] -> (length r.1 < length data)%nat) /\ w_headerSize r.2 = w_headerSize w.
Proof.
  intros Hn. cbv zeta. unfold fill_header. cbn. rewrite length_drop. split_and!; [lia| |done]. intros Hd.
  assert (length data <> 0%nat) by (by destruct data). unfold zlen in *. lia.
Qed.
Lemma first_bytes_ready data w : ready w -> data <> [] -> w_frameSize w = UINT64_MAX ->
  match first_bytes data w with
  | Return w' => live w' = true -> ready w'
  | Go r w' => same_frame w w' /\ 2 <= zlen (w_header w') /\ (length r <= length data)%nat /\
               ((length r < length data)%nat \/ zlen (w_header w') < w_headerSize w')
  end.
Proof.
  intros Hr Hd E. unfold ready in Hr. rewrite E in Hr. change (UINT64_MAX =? UINT64_MAX) with true in Hr. cbv iota in Hr. unfold first_bytes.
  destruct (Z.ltb_spec (zlen (w_header w)) 2) as [Hlt|Hge]; [|by split_and!; (done || lia || (intros; right; lia))].
  destruct (fill_header_reads 2 data w Hlt) as (Hl & Hl' & Hz). destruct (fill_header_same 2 data w) as [F1 F2 F3 F4].
  destruct (fill_header 2 data w) as [r w1]. cbn [fst snd] in *.
  destruct (Z.ltb_spec (zlen (w_header w1)) 2) as [H2|H2]; [intros _; unfold ready; rewrite F1, E; by left|].
  destruct (negb _); [by rewrite Fail_dead|]. split_and!; [done|lia|lia|auto].
Qed.
Lemma complete_header_ready data w : w_frameSize w = UINT64_MAX ->
  match complete_header data w with
  | Return w' => ready w'
  | Go r w' => same_frame w w' /\ w_headerSize w' = w_headerSize w /\ zlen (w_header w) <= zlen (w_header w') /\ w_headerSize w' <= zlen (w_header w') /\
               (length r <= length data)%nat /\ (zlen (w_header w) < w_headerSize w -> data <> [] -> (length r < length data)%nat)
  end.
Proof.
  intros E. unfold complete_header. destruct (Z.ltb_spec (zlen (w_header w)) (w_headerSize w)) as [Hlt|Hge]; [|by split_and!; (done || lia)].
  destruct (fill_header_reads _ data w Hlt) as (Hl & Hl' & Hz). destruct (fill_header_same (w_headerSize w) data w) as [F1 F2 F3 F4].
  pose proof (zlen_fill_header (w_headerSize w) data w ltac:(lia)) as Hm. assert (0 <= zlen data) by (unfold zlen; lia).
  destruct (fill_header (w_headerSize w) data w) as [r w1]. cbn [fst snd] in *.
  destruct (Z.ltb_spec (zlen (w_header w1)) (w_headerSize w1)) as [H2|H2]; [unfold ready; rewrite F1, E; by right|].
  split_and!; (done || lia || auto).
Qed.
Lemma read_header_ready data w : ready w -> data <> [] ->
  match read_header data w with
  | Return w' => live w' = true -> ready w'
  | Go r w' =>
      (length r <= length data)%nat /\ (w_frameSize w = UINT64_MAX -> (length r < length data)%nat) /\
      (w_frameSize w' = UINT64_MAX -> stuck w') /\ (w_frameSize w <> UINT64_MAX -> w' = w /\ r = data) /\ w_payload w' = w_payload w
  end.
Proof.
  intros Hr Hd. unfold read_header. destruct (Z.eqb_spec (w_frameSize w) UINT64_MAX) as [E|E]; [|by split_and!; (done || lia)].
  pose proof (first_bytes_ready data w Hr Hd E) as H1. destruct (first_bytes data w) as [w1|r1 w1]; cbn [andThen]; [done|].
  destruct H1 as ([F1 _ P1 _] & H2 & Hl1 & Hc1).
  destruct (calculate_size_pass w1) as [(w2 & E2 & Hn & Hh & [F2 _ P2 _] & Hs)|(w2 & E2 & D)]; rewrite E2; cbn [andThen]; [|congruence].
  rewrite <- Hh in H2. pose proof (complete_header_ready r1 w2 ltac:(congruence)) as H3.
  destruct (complete_header r1 w2) as [w3|r3 w3]; cbn [andThen]; [done|]. destruct H3 as ([_ _ P3 _] & Hz & Hle & Hcz & Hl3 & Hc3).
  unfold start_payload. set (w4 := w3 <| w_frameSize := payload_length w3 |>).
  destruct (Z.ltb_spec (w_maxMessageSize w4) (wrap 64 (zlen (w_payload w4) + w_frameSize w4))) as [|Hlim]; [by rewrite Fail_dead|].
  split_and!; [lia| | |done|change (w_payload w4) with (w_payload w3); congruence].
  - intros _. destruct Hc1 as [|Hc1]; [lia|]. assert (w2 = w1) as -> by (apply Hs; unfold zlen in *; lia).
    destruct (decide (r1 = [])) as [->|Hr1]; [|specialize (Hc3 Hc1 Hr1); lia]. destruct data; [done|]. cbn in *. lia.
  - intros E4. change (payload_length w3 = UINT64_MAX) in E4. split; change (w_headerSize w4) with (w_headerSize w3); change (w_header w4) with (w_header w3).
    + exact E4. + lia. + congruence. + done. + exact E4. + change (w_frameSize w4) with (payload_length w3) in Hlim. by rewrite E4 in Hlim.
Qed.
Lemma next_message_ready fin w : ready (next_message fin w).
Proof. unfold next_message, ready. by destruct (negb _ || fin); cbn; left. Qed.
Lemma next_message_payload fin w : w_combineFragments (next_message fin w) = true \/ w_payload (next_message fin w) = [].
Proof. unfold next_message. change (w_combineFragments (w <| w_header := [] |> <| w_headerSize := 0 |>)) with (w_combineFragments w). destruct (w_combineFragments w) eqn:E, fin; cbn; auto. Qed.
Lemma frame_step_ready data w : ready w -> data <> [] ->
  match frame_step data w with
  | Return w' => live w' = true -> ready w'
  | Go r w' => (length r < length data)%nat /\ (ready w' \/ stuck w') /\
               (w_frameSize w' = UINT64_MAX -> (w_frameSize w = UINT64_MAX /\ w_payload w' = w_payload w) \/ w_combineFragments w' = true \/ w_payload w' = [])
  end.
Proof.
  intros Hr Hd. unfold frame_step. pose proof (read_header_ready data w Hr Hd) as H1.
  destruct (read_header data w) as [w1|r w1]; cbn [andThen]; [done|]. destruct H1 as (Hl & Hl' & Hst & Hsame & Hpay).
  unfold read_payload. destruct (Z.eqb_spec (w_frameSize w1) UINT64_MAX) as [E1|E1].
  { assert (w_frameSize w = UINT64_MAX) as E; [|split_and!; auto]. destruct (decide (w_frameSize w = UINT64_MAX)) as [|E]; [done|].
    destruct (Hsame E). congruence. }
  fold (missing w1). set (n := Z.min (missing w1) (zlen r)). pose proof (missing_range w1) as Hm. assert (0 <= zlen r) by (unfold zlen; lia).
  assert (length (drop (Z.to_nat n) r) < length data)%nat as Hlen.
  { rewrite length_drop. destruct (decide (w_frameSize w = UINT64_MAX)) as [E|E]; [specialize (Hl' E); lia|].
    destruct (Hsame E) as [-> ->]. unfold ready in Hr. rewrite (proj2 (Z.eqb_neq _ _) E) in Hr. assert (length data <> 0%nat) by (by destruct data).
    unfold n, zlen in *. lia. }
  destruct (Z.eqb_spec (missing w1 - n) 0) as [E0|E0].
  - unfold handle_frame. destruct (handle_message _ _ _) eqn:Em; [apply handle_message_dead in Em; congruence|]. split_and!; [done|left; apply next_message_ready|].
    intros _. right. apply next_message_payload.
  - split_and!; [done| |done]. left. unfold ready. match goal with |- context [w_frameSize ?x =? _] => change (w_frameSize x) with (w_frameSize w1) end. rewrite (proj2 (Z.eqb_neq _ _) E1).
    assert (n = zlen r) as En by lia. rewrite En. replace (Z.to_nat (zlen r)) with (length r) by (unfold zlen; lia). rewrite firstn_all, missing_app by lia. lia.
Qed.

Lemma message_loop_ends_aux n : forall data w, (length data <= n)%nat -> ready w ->
  (exists w', message_loop n data w = Some w' /\ (live w' = true -> ready w' \/ stuck w')) \/
  (forall fuel, message_loop fuel data w = None).
Proof.
  induction n as [|n IH]; intros data w Hn Hr; (destruct (decide (data = [])) as [->|Hd]; [left; by eauto|]).
  { destruct data; cbn in *; [done|lia]. }
  rewrite message_loop_step by done. pose proof (frame_step_ready data w Hr Hd) as Hs. destruct (frame_step data w) as [w1|r w1] eqn:Ef; [left; eauto|].
  assert (forall x, (forall fuel, message_loop fuel r w1 = None) -> message_loop x data w = None) as Hx.
  { intros [|x] Hx; [by destruct data|]. by rewrite message_loop_step, Ef. }
  destruct Hs as (Hl & [Hr1|Hs1] & _).
  - destruct (IH r w1 ltac:(lia) Hr1) as [?|?]; [by left|right; auto].
  - destruct (decide (r = [])) as [->|Hne]; [left; exists w1; by destruct n; auto|]. right. intros fuel. apply Hx. by apply stuck_never_returns.
Qed.
(** The loop ends in as many iterations as there are bytes, or never. *)
Lemma message_loop_ends data w : ready w ->
  (exists w', message_loop (length data) data w = Some w' /\ (live w' = true -> ready w' \/ stuck w')) \/
  (forall fuel, message_loop fuel data w = None).
Proof. by apply message_loop_ends_aux. Qed.
Lemma runs_length data w w' : ready w \/ stuck w -> runs data w w' ->
  message_loop (length data) data w = Some w' /\ (live w' = true -> ready w' \/ stuck w').
Proof.
  intros [Hr|Hs] Hw.
  - destruct (message_loop_ends data w Hr) as [(w1 & E & Hl)|Hn].
    + by rewrite (runs_deterministic data w w' w1) by (done || by eexists).
    + destruct Hw as [n E]. by rewrite Hn in E.
  - destruct (decide (data = [])) as [->|Hd].
    + rewrite (runs_deterministic [] w w' w) by (done || apply runs_nil). auto.
    + destruct Hw as [n E]. by rewrite stuck_never_returns in E.
Qed.

(** ** The data of a connection *)

Definition established (w : WebSocket) : Prop := w_state w = OPEN \/ w_state w = CLOSING.
Fixpoint receive (pieces : list bytes) (w : WebSocket) : option WebSocket :=
  match pieces with
  | [] => Some w
  | data :: pieces => w ← HandleIncoming (length data) data w; receive pieces w
  end.

Lemma HandleIncoming_established fuel data w : established w -> HandleIncoming fuel data w = message_loop fuel data w.
Proof. unfold HandleIncoming. by intros [-> | ->]. Qed.
Lemma established_moved w w' : established w -> moved w w' -> live w' = true -> established w'.
Proof. intros Hw [[E|D] _] L; [unfold established in *; by rewrite E|congruence]. Qed.
Lemma receive_dead pieces w : live w = false -> receive pieces w = Some w.
Proof.
  intros D. induction pieces as [|p pieces IH]; cbn; [done|]. unfold HandleIncoming. unfold live in D. destruct (w_state w); done.
Qed.

Lemma receive_runs pieces : forall w w', established w -> ready w \/ stuck w -> live w' = true ->
  receive pieces w = Some w' <-> runs (concat pieces) w w'.
Proof.
  induction pieces as [|p pieces IH]; intros w w' Hw Hr L; cbn [receive concat].
  { split; [by intros [= ->]; apply runs_nil|]. intros Hx. f_equal. by rewrite (runs_deterministic _ _ _ _ Hx (runs_nil w)). }
  rewrite HandleIncoming_established by done. split.
  - intros E. apply bind_Some in E as (w1 & E1 & E2). assert (runs p w w1) as H1 by (by eexists).
    destruct (live w1) eqn:L1; [|rewrite receive_dead in E2 by done; congruence].
    rewrite (runs_app p (concat pieces) w w1) by done. apply IH; [|by eapply runs_length|done|done].
    eapply established_moved; [done|by eapply runs_moved|done].
  - intros Hx. destruct (runs_prefix p (concat pieces) w w' Hx L) as (w1 & H1 & L1).
    destruct (runs_length p w w1 Hr H1) as [-> Hr1]. cbn. apply IH; [|auto|done|by eapply runs_app].
    eapply established_moved; [done|by eapply runs_moved|done].
Qed.

(** Without combining fragments, no payload is pending between frames. *)
Record uncombined (w : WebSocket) : Prop := {
  un_combine : w_combineFragments w = false;
  un_max : w_maxMessageSize w < UINT64_MAX;
  un_payload : w_frameSize w = UINT64_MAX -> w_payload w = [];
}.
Lemma uncombined_not_stuck w : uncombined w -> ~ stuck w.
Proof.
  intros [_ Hm Hp] [Hf _ _ _ _ Hl]. rewrite (Hp Hf) in Hl. change (wrap 64 (zlen [] + UINT64_MAX)) with UINT64_MAX in Hl. lia.
Qed.
Lemma frame_step_uncombined data w r w' : ready w -> uncombined w -> data <> [] -> frame_step data w = Go r w' ->
  (length r < length data)%nat /\ ready w' /\ uncombined w'.
Proof.
  intros Hr [Hc Hm Hp] Hd E. pose proof (frame_step_ready data w Hr Hd) as Hs. pose proof (frame_step_moves data w) as S.
  rewrite E in Hs, S. destruct Hs as (Hl & Hs & Hx), S as [_ S]. unfold settings in S. simplify_eq.
  assert (uncombined w') as Hu.
  { split; [congruence|lia|]. intros Ef. destruct (Hx Ef) as [[Ef' ->]|[?|?]]; [auto|congruence|done]. }
  split_and!; [done| |done]. destruct Hs as [|Hs]; [done|]. by apply uncombined_not_stuck in Hs.
Qed.
Lemma message_loop_uncombined n : forall data w, (length data <= n)%nat -> ready w -> uncombined w -> is_Some (message_loop n data w).
Proof.
  induction n as [|n IH]; intros data w Hn Hr Hu; (destruct (decide (data = [])) as [->|Hd]; [done|]).
  { destruct data; cbn in *; [done|lia]. }
  rewrite message_loop_step by done. destruct (frame_step data w) as [w1|r w1] eqn:Ef; [done|].
  destruct (frame_step_uncombined data w r w1 Hr Hu Hd Ef) as (? & ? & ?). apply IH; [lia|done|done].
Qed.

(** C15. A connection that is established does the same with data whether it arrives at once or
    cut into pieces, as long as the data does not close it: the same messages are delivered,
    the same bytes are sent, and the socket has the same state. *)
Theorem incoming_in_pieces pieces pieces' w w' :
  established w -> ready w -> live w' = true -> concat pieces = concat pieces' ->
  receive pieces w = Some w' <-> receive pieces' w = Some w'.
Proof. intros Hw Hr L E. rewrite !receive_runs by auto. by rewrite E. Qed.

(** A socket that does not combine the fragments of messages handles all data: the loop over
    the data returns after at most as many iterations as there are bytes. *)
Theorem incoming_ends data w :
  established w -> ready w -> uncombined w -> exists w', HandleIncoming (length data) data w = Some w'.
Proof. intros Hw Hr Hu. rewrite HandleIncoming_established by done. by apply message_loop_uncombined. Qed.
End Loop.
