(* ===== verification/WebSocketProofs.v ===== *)
(** * WebSocketProofs: frames are received as they were sent

    The bytes of the frames of one side, cut into whatever pieces, make the other side emit the
    messages of the frames. *)

From S2P Require Import Prelude Base64 Sha1 Http WebSocket WebSocketLoop.
Local Open Scope Z_scope.

(** ** Bits and bytes *)

Lemma apply_mask_involutive data : forall key, apply_mask key (apply_mask key data) = data.
Proof.
  induction data as [|b data IH]; intros [[[k0 k1] k2] k3]; cbn; [done|]. rewrite IH. f_equal. apply (inj ub).
  rewrite !ub_u8. pose proof (ub_range b). pose proof (ub_range k0).
  assert (forall x y, 0 <= x < 256 -> 0 <= y < 256 -> 0 <= Z.lxor x y < 256) as Hx.
  { intros x y Hx Hy. split; [by apply Z.lxor_nonneg; split; intros; lia|].
    destruct (decide (Z.lxor x y = 0)) as [->|Hn]; [lia|]. apply Z.log2_lt_cancel. change (Z.log2 256) with 8.
    assert (0 <= Z.lxor x y) by (apply Z.lxor_nonneg; split; intros; lia).
    eapply Z.le_lt_trans; [by apply Z.log2_lxor; lia|]. destruct (decide (x = 0)) as [->|]; destruct (decide (y = 0)) as [->|];
      rewrite ?Z.max_l, ?Z.max_r by (cbn; apply Z.log2_nonneg); try (apply Z.log2_lt_pow2; lia); try done.
    apply Z.max_lub_lt; apply Z.log2_lt_pow2; lia. }
  rewrite (wrap_small 8 (Z.lxor (ub b) (ub k0))) by (by apply Hx).
  rewrite Z.lxor_assoc, Z.lxor_nilpotent, Z.lxor_0_r. by apply wrap_small.
Qed.
Lemma length_apply_mask data : forall key, length (apply_mask key data) = length data.
Proof. induction data as [|b data IH]; intros [[[k0 k1] k2] k3]; cbn; [done|]. by rewrite IH. Qed.

(** Numbers, the most significant byte first *)
Fixpoint shifts (n : nat) : list Z := match n with O => [] | S n => 8 * Z.of_nat n :: shifts n end.
Definition read_bytes (acc : Z) (l : bytes) : Z := foldl (fun acc b => Z.lor (Z.shiftl acc 8) (ub b)) acc l.
Lemma read_bytes_big_endian n size : forall acc, read_bytes acc (big_endian size (shifts n)) = acc * 2 ^ (8 * Z.of_nat n) + size mod 2 ^ (8 * Z.of_nat n).
Proof.
  induction n as [|n IH]; intros acc; [by rewrite Z.mod_1_r; cbn; lia|]. cbn [shifts]. unfold big_endian in *. cbn [fmap list_fmap read_bytes foldl].
  fold (read_bytes (Z.lor (Z.shiftl acc 8) (ub (u8 (Z.land (Z.shiftr size (8 * Z.of_nat n)) 255))))
          ((fun n => u8 (Z.land (Z.shiftr size n) 255)) <$> shifts n)). rewrite IH.
  set (k := 8 * Z.of_nat n). replace (8 * Z.of_nat (S n)) with (k + 8) by (unfold k; lia).
  change 255 with (Z.ones 8). rewrite Z.land_ones, ub_u8 by lia. unfold wrap. rewrite Z.mod_mod by lia.
  rewrite lor_shiftl_add by (try apply Z.mod_pos_bound; lia). rewrite Z.shiftr_div_pow2 by (unfold k; lia).
  rewrite Z.pow_add_r by (unfold k; lia). assert (0 < 2 ^ k) by (apply Z.pow_pos_nonneg; unfold k; lia).
  rewrite (Z.rem_mul_r size (2 ^ k)) by lia. lia.
Qed.

Lemma read_big_endian_bytes n : forall i h acc, 0 <= i -> (Z.to_nat i + n <= length h)%nat ->
  read_big_endian n i h acc = read_bytes acc (take n (drop (Z.to_nat i) h)).
Proof.
  induction n as [|n IH]; intros i h acc Hi Hl; cbn [read_big_endian]; [done|]. rewrite IH by lia.
  unfold byte_at. replace (Z.to_nat (i + 1)) with (S (Z.to_nat i)) by lia.
  destruct (lookup_lt_is_Some_2 h (Z.to_nat i)) as [b Eb]; [lia|]. rewrite Eb. cbn [default].
  by rewrite (drop_S _ _ _ Eb).
Qed.
Lemma zlen_big_endian size l : zlen (big_endian size l) = zlen l.
Proof. unfold zlen, big_endian. by rewrite length_fmap. Qed.

Lemma lor_mask m s : 0 <= s < 128 -> Z.lor (if m : bool then 0x80 else 0) s = (if m then 128 else 0) + s.
Proof.
  intros Hs. destruct m; [|done]. change 0x80 with (Z.shiftl 1 7). by rewrite lor_shiftl_add by lia.
Qed.
Lemma len_byte (m : bool) s : 0 <= s < 128 ->
  let b := ub (u8 (Z.lor (if m then 0x80 else 0) s)) in Z.land b 0x7f = s /\ (Z.land b 0x80 =? 0) = negb m.
Proof.
  intros Hs. cbv zeta. rewrite lor_mask, ub_u8, wrap_small by (done || (destruct m; lia)). change 0x7f with (Z.ones 7). rewrite Z.land_ones by lia.
  split; [destruct m; [rewrite Z.add_comm, Zplus_mod, Z.mod_same, Z.add_0_r, Z.mod_mod by lia|]; by apply Z.mod_small|].
  assert (Z.land ((if m then 128 else 0) + s) 128 = if m then 128 else 0) as ->; [|by destruct m].
  apply Z.bits_inj'. intros n Hn. rewrite Z.land_spec. change 128 with (2 ^ 7). rewrite (Z.pow2_bits_eqb 7) by lia.
  destruct (Z.eqb_spec 7 n) as [<-|Hne]; [|rewrite andb_false_r; destruct m; [by rewrite Z.pow2_bits_false|by rewrite Z.bits_0]].
  rewrite andb_true_r, Z.testbit_eqb by lia. destruct m.
  - replace ((2 ^ 7 + s) / 2 ^ 7) with 1 by (apply Z.div_unique with s; lia). by rewrite Z.pow2_bits_true.
  - by rewrite Z.div_small by lia.
Qed.

(** ** A frame *)

(** The socket is between two frames. *)
Record between_frames (w : WebSocket) : Prop := {
  bf_header : w_header w = [];
  bf_headerSize : w_headerSize w = 0;
  bf_frameStart : w_frameStart w = zlen (w_payload w);
  bf_frameSize : w_frameSize w = UINT64_MAX;
}.

(** What the length byte of a frame says, and the bytes of the length after it *)
Definition length_code (size : Z) : Z := if size <? 126 then size else if size <=? 0xffff then 126 else 127.
Definition length_bytes (size : Z) : bytes :=
  if size <? 126 then [] else if size <=? 0xffff then big_endian size (shifts 2) else big_endian size (shifts 8).
Lemma frame_header_split sv op size :
  frame_header sv op size = [u8 op; u8 (Z.lor (if negb sv then 0x80 else 0) (length_code size))] ++ length_bytes size.
Proof. unfold frame_header, length_code, length_bytes. destruct sv, (size <? 126), (size <=? 0xffff); done. Qed.
Lemma length_code_range size : 0 <= size -> 0 <= length_code size < 128.
Proof. unfold length_code. destruct (Z.ltb_spec size 126), (size <=? 0xffff); lia. Qed.
Lemma zlen_length_bytes size :
  zlen (length_bytes size) = if length_code size =? 126 then 2 else if length_code size =? 127 then 8 else 0.
Proof.
  unfold length_bytes, length_code. destruct (Z.ltb_spec size 126); [|by destruct (size <=? 0xffff)].
  destruct (Z.eqb_spec size 126), (Z.eqb_spec size 127); lia || done.
Qed.
Lemma read_length_bytes size b0 b1 l : 0 <= size < 2 ^ 64 ->
  (if length_code size =? 126 then read_big_endian 2 2 ([b0; b1] ++ length_bytes size ++ l) 0
   else if length_code size =? 127 then read_big_endian 8 2 ([b0; b1] ++ length_bytes size ++ l) 0 else length_code size) = size.
Proof.
  intros Hs. unfold length_bytes, length_code. destruct (Z.ltb_spec size 126).
  { destruct (Z.eqb_spec size 126), (Z.eqb_spec size 127); lia. }
  destruct (Z.leb_spec size 0xffff); cbn [Z.eqb Pos.eqb];
    (rewrite read_big_endian_bytes by (cbn; lia)); change (Z.to_nat 2) with 2%nat; cbn [app]; rewrite !skipn_cons, skipn_O.
  - rewrite take_app_length' by done. rewrite read_bytes_big_endian.
    change (2 ^ (8 * Z.of_nat 2)) with 65536. rewrite Z.mod_small; lia.
  - rewrite take_app_length' by done. rewrite read_bytes_big_endian.
    change (2 ^ (8 * Z.of_nat 8)) with (2 ^ 64). rewrite Z.mod_small; lia.
Qed.

Lemma fill_header_app n a b w : zlen (w_header w) + zlen a = n ->
  fill_header n (a ++ b) w = (b, w <| w_header ::= fun h => h ++ a |>).
Proof.
  intros E. unfold fill_header. rewrite zlen_app. assert (0 <= zlen b) by (unfold zlen; lia). rewrite Z.min_l by lia.
  replace (Z.to_nat (n - zlen (w_header w))) with (length a) by (unfold zlen in *; lia).
  by rewrite drop_app_length, take_app_length.
Qed.

(** The header of a frame with the key of a client, and the frame *)
Definition header_bytes (sv : bool) (op size : Z) (key : byte * byte * byte * byte) : bytes :=
  frame_header sv op size ++ (if sv then [] else key_bytes key).
Definition frame_bytes (sv : bool) (key : byte * byte * byte * byte) (op : Z) (data : bytes) : bytes :=
  header_bytes sv op (zlen data) key ++ (if sv then data else apply_mask key data).
Lemma header_masked sv op size key w : w_header w = header_bytes sv op size key -> 0 <= size -> masked w = negb sv.
Proof.
  intros E Hs. unfold masked. rewrite E. unfold header_bytes. rewrite frame_header_split.
  destruct (len_byte (negb sv) _ (length_code_range size Hs)) as [_ Hm]. cbv zeta in Hm.
  change (byte_at _ 1) with (ub (u8 (Z.lor (if negb sv then 0x80 else 0) (length_code size)))). unfold kFlagMasking.
  by rewrite Hm, !negb_involutive.
Qed.
Lemma header_length sv op size key w : w_header w = header_bytes sv op size key -> 0 <= size < 2 ^ 64 -> payload_length w = size.
Proof.
  intros E Hs. unfold payload_length, len_field. rewrite E. unfold header_bytes. rewrite frame_header_split, <- app_assoc.
  destruct (len_byte (negb sv) _ (length_code_range size ltac:(lia))) as [Hl _]. cbv zeta in Hl.
  change (byte_at _ 1) with (ub (u8 (Z.lor (if negb sv then 0x80 else 0) (length_code size)))). unfold kLenMask. rewrite Hl. by apply read_length_bytes.
Qed.
Lemma header_two sv op size key : 2 <= zlen (header_bytes sv op size key).
Proof. unfold header_bytes. rewrite frame_header_split, !zlen_app. change (zlen [_; _]) with 2. unfold zlen. lia. Qed.
Lemma header_key op size key w : w_header w = header_bytes false op size key -> w_headerSize w = zlen (w_header w) -> frame_key w = key.
Proof.
  intros E Hz. unfold frame_key. rewrite Hz, E. destruct key as [[[k0 k1] k2] k3]. unfold header_bytes. cbn [key_bytes].
  generalize (frame_header false op size). intros f. rewrite zlen_app. change (zlen [k0; k1; k2; k3]) with 4.
  assert (forall i : nat, (i < 4)%nat -> (f ++ [k0; k1; k2; k3]) !! Z.to_nat (zlen f + 4 - Z.of_nat (4 - i)) = [k0; k1; k2; k3] !! i) as Hi.
  { intros i Hi. replace (Z.to_nat (zlen f + 4 - Z.of_nat (4 - i))) with (length f + i)%nat by (unfold zlen; lia).
    rewrite lookup_app_r by lia. f_equal. lia. }
  pose proof (Hi 0%nat ltac:(lia)) as H0. pose proof (Hi 1%nat ltac:(lia)) as H1. pose proof (Hi 2%nat ltac:(lia)) as H2.
  pose proof (Hi 3%nat ltac:(lia)) as H3. change (Z.of_nat (4 - 0)) with 4 in H0.
  change (Z.of_nat (4 - 1)) with 3 in H1. change (Z.of_nat (4 - 2)) with 2 in H2. change (Z.of_nat (4 - 3)) with 1 in H3. by rewrite H0, H1, H2, H3.
Qed.

Lemma payload_eq w f g : f (w_payload w) = g (w_payload w) -> w <| w_payload ::= f |> = w <| w_payload ::= g |>.
Proof. unfold fupd. by intros ->. Qed.
Lemma payload_twice w f g : (w <| w_payload ::= f |>) <| w_payload ::= g |> = w <| w_payload ::= fun p => g (f p) |>.
Proof. done. Qed.

Section Frames.
Context `{Masks}.

Lemma first_bytes_go b0 b1 r w : w_header w = [] -> Z.land (ub b0) 0x70 = 0 ->
  first_bytes ([b0; b1] ++ r) w = Go r (w <| w_header := [b0; b1] |>).
Proof.
  intros Hh Hop. unfold first_bytes. rewrite Hh. change (zlen [] <? 2) with true. cbv iota. rewrite fill_header_app by (by rewrite Hh).
  unfold fupd. cbn [w_header app]. rewrite Hh. cbn [app w_header]. change (byte_at [b0; b1] 0) with (ub b0). by rewrite Hop.
Qed.
Lemma calculate_size_go data w : w_headerSize w = 0 -> masked w = w_server w ->
  calculate_size data w = Go data (w <| w_headerSize := header_size w |>).
Proof.
  intros Hz Hm. unfold calculate_size. rewrite Hz. cbn. change (masked (w <| w_headerSize := header_size w |>)) with (masked w).
  rewrite Hm. by destruct (w_server w).
Qed.
Lemma complete_header_go a r w : w_headerSize w = zlen (w_header w) + zlen a ->
  complete_header (a ++ r) w = Go r (w <| w_header ::= fun h => h ++ a |>).
Proof.
  intros Hz. unfold complete_header. destruct (Z.ltb_spec (zlen (w_header w)) (w_headerSize w)) as [Hlt|Hge].
  - rewrite fill_header_app by done. unfold fupd. cbn. by rewrite zlen_app, <- Hz, Z.ltb_irrefl.
  - destruct a; [|unfold zlen in *; cbn in *; lia]. unfold fupd. cbn. rewrite app_nil_r. by destruct w.
Qed.

Lemma read_header_frame sv op size key rest w :
  between_frames w -> w_server w = negb sv -> Z.land (ub (u8 op)) 0x70 = 0 -> 0 <= size < 2 ^ 64 ->
  wrap 64 (zlen (w_payload w) + size) <= w_maxMessageSize w ->
  read_header (header_bytes sv op size key ++ rest) w =
    Go rest (w <| w_header := header_bytes sv op size key |> <| w_headerSize := zlen (header_bytes sv op size key) |> <| w_frameSize := size |>).
Proof.
  intros [Hh Hz Hst Hfs] Hsv Hop Hs Hle. unfold header_bytes. rewrite frame_header_split. pose proof (length_code_range size ltac:(lia)) as Hr.
  destruct (len_byte (negb sv) _ Hr) as [Hl Hm]. cbv zeta in Hl, Hm.
  set (b1 := u8 (Z.lor (if negb sv then 0x80 else 0) (length_code size))) in *. set (kb := if sv then [] else key_bytes key).
  assert (zlen kb = if negb sv then 4 else 0) as Hk by (unfold kb; destruct sv, key as [[[??]?]?]; done).
  set (w1 := w <| w_header := [u8 op; b1] |>). assert (masked w1 = negb sv) as Hmm.
  { unfold masked. change (byte_at (w_header w1) 1) with (ub b1). unfold kFlagMasking. by rewrite Hm, !negb_involutive. }
  assert (len_field w1 = length_code size) as Hll by exact Hl.
  assert (header_size w1 = 2 + zlen (length_bytes size ++ kb)) as Hhs.
  { unfold header_size. rewrite Hmm, Hll, zlen_app, zlen_length_bytes, Hk. lia. }
  unfold read_header. rewrite Hfs. change (UINT64_MAX =? UINT64_MAX) with true. cbv iota. rewrite <- !app_assoc.
  rewrite first_bytes_go by done. cbn [andThen]. fold w1. rewrite calculate_size_go by (done || by rewrite Hmm). cbn [andThen].
  rewrite (app_assoc (length_bytes size)), complete_header_go by (by rewrite Hhs). cbn [andThen]. unfold start_payload.
  set (w2 := (w1 <| w_headerSize := header_size w1 |>) <| w_header ::= _ |>).
  assert (payload_length w2 = size) as ->.
  { apply (header_length sv op size key); [|done]. unfold header_bytes. rewrite frame_header_split. by rewrite <- app_assoc. }
  change (w_maxMessageSize (w2 <| w_frameSize := size |>)) with (w_maxMessageSize w).
  change (zlen (w_payload (w2 <| w_frameSize := size |>)) + w_frameSize (w2 <| w_frameSize := size |>)) with (zlen (w_payload w) + size).
  destruct (Z.ltb_spec (w_maxMessageSize w) (wrap 64 (zlen (w_payload w) + size))) as [Hlt|_]; [lia|].
  unfold w2, fupd. cbn. rewrite Hhs. do 2 f_equal. unfold zlen. cbn. lia.
Qed.

(** The socket when a frame is complete *)
Definition received (hdr data : bytes) (w : WebSocket) : WebSocket :=
  w <| w_header := hdr |> <| w_headerSize := zlen hdr |> <| w_frameSize := zlen data |> <| w_payload ::= fun p => p ++ data |>.
Definition frame_fits (data : bytes) (w : WebSocket) : Prop :=
  zlen (w_payload w) + zlen data <= w_maxMessageSize w /\ w_maxMessageSize w < UINT64_MAX.

Lemma frame_step_frame sv key op data rest w :
  between_frames w -> w_server w = negb sv -> Z.land (ub (u8 op)) 0x70 = 0 -> frame_fits data w ->
  let fin := negb (Z.land (ub (u8 op)) kFlagFin =? 0) in
  frame_step (frame_bytes sv key op data ++ rest) w =
    match handle_message fin (Z.land (ub (u8 op)) kOpMask) (received (header_bytes sv op (zlen data) key) data w) with
    | inl w => Return w
    | inr w => Go rest (next_message fin w)
    end.
Proof.
  intros Hb Hsv Hop [Hfit Hmax] fin. assert (0 <= zlen data) as Hs by (unfold zlen; lia). assert (0 <= zlen (w_payload w)) as Hp by (unfold zlen; lia).
  unfold frame_step, frame_bytes. rewrite <- app_assoc. unfold UINT64_MAX in Hmax.
  rewrite read_header_frame by (done || lia || (rewrite wrap_small; lia)). cbn [andThen].
  set (hdr := header_bytes sv op (zlen data) key). set (body := if sv then data else apply_mask key data).
  assert (length body = length data) as Hlen by (unfold body; destruct sv; [done|apply length_apply_mask]).
  destruct Hb as [Hh Hz Hst Hfs]. set (w1 := w <| w_header := hdr |> <| w_headerSize := zlen hdr |> <| w_frameSize := zlen data |>).
  unfold read_payload. change (w_frameSize w1) with (zlen data). change (w_frameStart w1) with (w_frameStart w). change (w_payload w1) with (w_payload w).
  destruct (Z.eqb_spec (zlen data) UINT64_MAX) as [?|_]; [unfold UINT64_MAX in *; lia|]. rewrite Hst.
  replace (zlen (w_payload w) + zlen data - zlen (w_payload w)) with (zlen data) by lia.
  rewrite wrap_small by (unfold UINT64_MAX in *; lia). rewrite zlen_app.
  rewrite Z.min_l by (unfold zlen; lia). rewrite Z.sub_diag. cbn [Z.eqb].
  replace (Z.to_nat (zlen data)) with (length body) by (unfold zlen; lia). rewrite drop_app_length, take_app_length.
  unfold handle_frame. assert (unmask (w1 <| w_payload ::= fun p => p ++ body |>) = received hdr data w) as ->.
  { change (received hdr data w) with (w1 <| w_payload ::= fun p => p ++ data |>). unfold unmask. set (w2 := w1 <| w_payload ::= _ |>).
    rewrite (header_masked sv op (zlen data) key) by done. unfold w2, body. destruct sv; [done|]. cbn [negb].
    rewrite (header_key op (zlen data) key) by done. rewrite payload_twice. apply payload_eq. change (w_payload w1) with (w_payload w).
    change (w_frameStart _) with (w_frameStart w). rewrite Hst. replace (Z.to_nat (zlen (w_payload w))) with (length (w_payload w)) by (unfold zlen; lia).
    by rewrite take_app_length, drop_app_length, apply_mask_involutive. }
  change (byte_at (w_header (received hdr data w)) 0) with (ub (u8 op)). done.
Qed.

(** ** Messages *)

(** A text or binary message in one or more fragments, each of them in buffers; a ping; a pong *)
Inductive ws_message :=
| Data (is_text : bool) (first : list bytes) (more : list (list bytes))
| Ping (data : list bytes)
| Pong (data : list bytes).
Definition data_opcode (t : bool) : Z := if t then kOpText else kOpBinary.
Definition data_signal (t : bool) : bytes -> bool -> ws_signal := if t then text else binary.

(** The frames that send a message *)
Fixpoint fragments (opcode : Z) (first : list bytes) (more : list (list bytes)) : list Frame :=
  match more with
  | [] => [MkFrame (Z.lor kFlagFin opcode) first]
  | next :: more => MkFrame opcode first :: fragments kOpCont next more
  end.
Definition frames_of (m : ws_message) : list Frame :=
  match m with
  | Data t first more => fragments (data_opcode t) first more
  | Ping data => [MkFrame (Z.lor kFlagFin kOpPing) data]
  | Pong data => [MkFrame (Z.lor kFlagFin kOpPong) data]
  end.

(** The signals that deliver it, with fragments combined or not *)
Fixpoint fragment_signals (t : bool) (first : list bytes) (more : list (list bytes)) : list ws_signal :=
  match more with
  | [] => [data_signal t (concat first) true]
  | next :: more => data_signal t (concat first) false :: fragment_signals t next more
  end.
Definition content (first : list bytes) (more : list (list bytes)) : bytes := concat (concat (first :: more)).
Definition signals_of (combine : bool) (m : ws_message) : list ws_signal :=
  match m with
  | Data t first more => if combine then [data_signal t (content first more) true] else fragment_signals t first more
  | Ping data => [ping (concat data)]
  | Pong data => [pong (concat data)]
  end.
Definition message_size (m : ws_message) : Z :=
  match m with Data _ first more => zlen (content first more) | Ping data | Pong data => zlen (concat data) end.

(** A socket that has received only complete messages *)
Record idle (w : WebSocket) : Prop := {
  id_state : established w;
  id_between : between_frames w;
  id_payload : w_payload w = [];
  id_fragment : w_fragmentOpcode w = 0;
  id_max : w_maxMessageSize w < UINT64_MAX;
}.
Definition emit_all (sigs : list ws_signal) (w : WebSocket) : WebSocket := w <| w_signals ::= fun l => l ++ sigs |>.
(** The socket with some of the fragments of a message *)
Definition amid (sigs : list ws_signal) (p : bytes) (f : Z) (w : WebSocket) : WebSocket :=
  emit_all sigs w <| w_payload := p |> <| w_frameStart := zlen p |> <| w_fragmentOpcode := f |>.
Lemma amid_between sigs p f w : idle w -> between_frames (amid sigs p f w).
Proof. by intros [_ [H1 H2 H3 H4] _ _ _]; split. Qed.

Definition next_mask (sv : bool) (masks : nat) : nat := if sv then masks else S masks.
Lemma WriteFrames_cons sv masks op d fs :
  (WriteFrames sv masks (MkFrame op d :: fs)).1 = frame_bytes sv (mask_key masks) op (concat d) ++ (WriteFrames sv (next_mask sv masks) fs).1.
Proof.
  cbn [WriteFrames]. unfold WriteFrame. cbn [f_data f_opcode]. unfold frame_bytes, header_bytes, next_mask.
  destruct sv; destruct (WriteFrames _ _ fs); cbn [fst]; by rewrite ?app_nil_r, <- ?app_assoc.
Qed.

(** One frame of a list of frames *)
Lemma runs_frame sv masks op d fs w w1 w2 :
  let fin := negb (Z.land (ub (u8 op)) kFlagFin =? 0) in
  between_frames w -> w_server w = negb sv -> Z.land (ub (u8 op)) 0x70 = 0 -> frame_fits (concat d) w ->
  (forall hdr, exists w', handle_message fin (Z.land (ub (u8 op)) kOpMask) (received hdr (concat d) w) = inr w' /\ next_message fin w' = w1) ->
  runs (WriteFrames sv masks (MkFrame op d :: fs)).1 w w2 <-> runs (WriteFrames sv (next_mask sv masks) fs).1 w1 w2.
Proof.
  intros fin Hb Hsv Hop Hfit Hh. rewrite WriteFrames_cons. destruct (Hh (header_bytes sv op (zlen (concat d)) (mask_key masks))) as (w' & E & En).
  apply runs_go; [done|]. rewrite frame_step_frame by done. fold fin. by rewrite E, En.
Qed.

(** What is left of the payload, and what is emitted, after a fragment *)
Definition emits (fin : bool) (w : WebSocket) : bool := negb (w_combineFragments w) || fin.
Lemma handle_fragment (t first fin : bool) hdr d sigs p w : idle w ->
  let f := if first then 0 else data_opcode t in
  exists w', handle_message fin (if first then data_opcode t else kOpCont) (received hdr d (amid sigs p f w)) = inr w' /\
    next_message fin w' = amid (sigs ++ (if emits fin w then [data_signal t (p ++ d) fin] else []))
                            (if emits fin w then [] else p ++ d) (if fin then 0 else data_opcode t) w.
Proof.
  intros [_ [Hh Hz Hst Hfs] Hp Hf _] f. destruct w. cbn in Hh, Hz, Hst, Hfs, Hp, Hf. subst. unfold f.
  destruct t, first, fin, w_combineFragments; lazy -[handle_message next_message zlen app UINT64_MAX]; eexists;
    (split; [lazy -[zlen app UINT64_MAX]; reflexivity|]); lazy -[zlen app UINT64_MAX]; by rewrite ?app_nil_r, ?app_assoc.
Qed.
Lemma runs_fragment (t first fin : bool) sv masks d fs sigs p w w2 : idle w -> w_server w = negb sv ->
  zlen p + zlen (concat d) <= w_maxMessageSize w ->
  let o := if first then data_opcode t else kOpCont in
  let f := if first then 0 else data_opcode t in
  runs (WriteFrames sv masks (MkFrame (if fin then Z.lor kFlagFin o else o) d :: fs)).1 (amid sigs p f w) w2 <->
  runs (WriteFrames sv (next_mask sv masks) fs).1
    (amid (sigs ++ (if emits fin w then [data_signal t (p ++ concat d) fin] else []))
       (if emits fin w then [] else p ++ concat d) (if fin then 0 else data_opcode t) w) w2.
Proof.
  intros Hi Hsv Hle o f. apply runs_frame; [by apply amid_between|done|by destruct t, first, fin|split; [done|apply Hi]|].
  intros hdr. destruct (handle_fragment t first fin hdr (concat d) sigs p w Hi) as (w' & E1 & E2). exists w'.
  unfold o, f. destruct t, first, fin; (split; [exact E1|exact E2]).
Qed.
Lemma handle_control (pg : bool) hdr d sigs w : idle w ->
  exists w', handle_message true (if pg then kOpPing else kOpPong) (received hdr d (amid sigs [] 0 w)) = inr w' /\
    next_message true w' = amid (sigs ++ [if pg then ping d else pong d]) [] 0 w.
Proof.
  intros [_ [Hh Hz Hst Hfs] Hp Hf _]. destruct w. cbn in Hh, Hz, Hst, Hfs, Hp, Hf. subst.
  destruct pg, w_combineFragments; lazy -[handle_message next_message zlen app UINT64_MAX]; eexists;
    (split; [lazy -[zlen app UINT64_MAX]; reflexivity|]); lazy -[zlen app UINT64_MAX]; by rewrite ?app_assoc.
Qed.
Lemma runs_control (pg : bool) sv masks d fs sigs w w2 : idle w -> w_server w = negb sv -> zlen (concat d) <= w_maxMessageSize w ->
  runs (WriteFrames sv masks (MkFrame (Z.lor kFlagFin (if pg then kOpPing else kOpPong)) d :: fs)).1 (amid sigs [] 0 w) w2 <->
  runs (WriteFrames sv (next_mask sv masks) fs).1 (amid (sigs ++ [if pg then ping (concat d) else pong (concat d)]) [] 0 w) w2.
Proof.
  intros Hi Hsv Hle. apply runs_frame; [by apply amid_between|done|by destruct pg|split; [done|apply Hi]|].
  intros hdr. destruct (handle_control pg hdr (concat d) sigs w Hi) as (w' & E1 & E2). exists w'. by destruct pg.
Qed.

Fixpoint masks_after (sv : bool) (masks : nat) (fs : list Frame) : nat :=
  match fs with [] => masks | _ :: fs => masks_after sv (next_mask sv masks) fs end.

(** The signals of the fragments that follow a pending payload *)
Fixpoint pending_signals (combine t : bool) (p : bytes) (first : list bytes) (more : list (list bytes)) : list ws_signal :=
  match more with
  | [] => [data_signal t (p ++ concat first) true]
  | next :: more =>
      if combine then pending_signals combine t (p ++ concat first) next more
      else data_signal t (p ++ concat first) false :: pending_signals combine t [] next more
  end.
Lemma pending_combined t more : forall p first, pending_signals true t p first more = [data_signal t (p ++ content first more) true].
Proof.
  unfold content. induction more as [|next more IH]; intros p first; cbn [pending_signals concat].
  - by rewrite app_nil_r.
  - rewrite IH. cbn [concat]. by rewrite !concat_app, <- !app_assoc.
Qed.
Lemma pending_uncombined t more : forall first, pending_signals false t [] first more = fragment_signals t first more.
Proof. induction more as [|next more IH]; intros first; cbn; [done|]. by rewrite IH. Qed.

Lemma runs_fragments t sv fs w w2 more : forall first d masks sigs p, idle w -> w_server w = negb sv ->
  zlen p + zlen (content d more) <= w_maxMessageSize w ->
  runs (WriteFrames sv masks (fragments (if first : bool then data_opcode t else kOpCont) d more ++ fs)).1
    (amid sigs p (if first then 0 else data_opcode t) w) w2 <->
  runs (WriteFrames sv (masks_after sv masks (fragments (if first then data_opcode t else kOpCont) d more)) fs).1
    (amid (sigs ++ pending_signals (w_combineFragments w) t p d more) [] 0 w) w2.
Proof.
  induction more as [|next more IH]; intros first d masks sigs p Hi Hsv Hle; cbn [fragments app masks_after pending_signals].
  - unfold content in Hle. cbn [concat] in Hle. rewrite app_nil_r in Hle.
    rewrite (runs_fragment t first true) by done. unfold emits. by rewrite orb_true_r.
  - assert (zlen (content d (next :: more)) = zlen (concat d) + zlen (content next more)) as Hc.
    { unfold content. cbn [concat]. by rewrite !concat_app, !zlen_app. }
    assert (0 <= zlen (content next more) /\ 0 <= zlen p /\ 0 <= zlen (concat d)) by (unfold zlen; lia).
    rewrite (runs_fragment t first false) by (done || lia). rewrite (IH false) by (done || (destruct (emits _ _); rewrite ?zlen_app; change (zlen []) with 0; lia)).
    unfold emits. rewrite orb_false_r. destruct (w_combineFragments w); cbn [negb]; rewrite ?app_nil_r; [done|]. by rewrite <- app_assoc.
Qed.
Lemma runs_message m sv fs w w2 masks sigs : idle w -> w_server w = negb sv -> message_size m <= w_maxMessageSize w ->
  runs (WriteFrames sv masks (frames_of m ++ fs)).1 (amid sigs [] 0 w) w2 <->
  runs (WriteFrames sv (masks_after sv masks (frames_of m)) fs).1 (amid (sigs ++ signals_of (w_combineFragments w) m) [] 0 w) w2.
Proof.
  intros Hi Hsv Hle. destruct m as [t first more|d|d]; cbn [frames_of signals_of message_size app] in *.
  - rewrite (runs_fragments t sv fs w w2 more true) by done.
    destruct (w_combineFragments w); [by rewrite pending_combined|by rewrite pending_uncombined].
  - by rewrite (runs_control true).
  - by rewrite (runs_control false).
Qed.
Lemma runs_messages ms : forall sv w masks sigs, idle w -> w_server w = negb sv -> Forall (fun m => message_size m <= w_maxMessageSize w) ms ->
  runs (WriteFrames sv masks (ms ≫= frames_of)).1 (amid sigs [] 0 w) (amid (sigs ++ (ms ≫= signals_of (w_combineFragments w))) [] 0 w).
Proof.
  induction ms as [|m ms IH]; intros sv w masks sigs Hi Hsv Hf; cbn [mbind list_bind].
  - rewrite app_nil_r. apply runs_nil.
  - inversion_clear Hf. rewrite runs_message by done. rewrite app_assoc. by apply IH.
Qed.

Lemma amid_idle sigs w : idle w -> amid sigs [] 0 w = emit_all sigs w.
Proof. intros [_ [Hh Hz Hst Hfs] Hp Hf _]. destruct w. cbn in Hh, Hz, Hst, Hfs, Hp, Hf. by subst. Qed.
Lemma idle_ready w : idle w -> ready w.
Proof. intros [_ [Hh Hz Hst Hfs] Hp Hf _]. unfold ready. rewrite Hfs, Hh. by left. Qed.
Lemma emit_all_live sigs w : established w -> live (emit_all sigs w) = true.
Proof. unfold live, emit_all. by intros [E|E]; cbn; rewrite E. Qed.

(** C5. The messages that an open socket sends with one call, text and binary ones in one or
    more fragments, pings and pongs, are written as one block of bytes; and when the other side
    receives this block, cut into pieces in any way, it emits just the signals of these
    messages, in order, with the data of the messages, and is otherwise as it was. *)
Theorem websocket_delivers s w ms :
  w_state s = OPEN -> idle w -> w_server w = negb (w_server s) ->
  Forall (fun m => message_size m <= w_maxMessageSize w) ms ->
  exists b s', SendFrames (ms ≫= frames_of) s = (None, s') /\ w_written s' = w_written s ++ [b] /\
    forall pieces, concat pieces = b -> receive pieces w = Some (emit_all (ms ≫= signals_of (w_combineFragments w)) w).
Proof.
  intros Hs Hi Hsv Hf. unfold SendFrames. rewrite Hs.
  pose proof (runs_messages ms (w_server s) w (w_masks s) [] Hi Hsv Hf) as Hr. rewrite !amid_idle in Hr by done.
  destruct (WriteFrames _ _ _) as [b masks]. exists b. eexists. split_and!; [done|done|]. intros pieces <-.
  apply receive_runs; [apply Hi|left; by apply idle_ready|apply emit_all_live, Hi|].
  cbn [fst] in Hr. rewrite app_nil_l in Hr. replace (emit_all [] w) with w in Hr; [done|].
  destruct w. unfold emit_all, fupd. cbn. by rewrite app_nil_r.
Qed.

(** C34. While a fragment of a message is pending, a frame whose length is written as the largest
    64-bit number passes the check of the size of the message, as the sum wraps around, and is
    then taken for a frame without a complete header: with any byte after it, the loop over the
    received data never ends. *)
Theorem endless_frame sv op key data w :
  established w -> between_frames w -> w_server w = negb sv -> Z.land (ub (u8 op)) 0x70 = 0 ->
  0 < zlen (w_payload w) <= w_maxMessageSize w -> zlen (w_payload w) < 2 ^ 64 -> data <> [] ->
  forall fuel, HandleIncoming fuel (header_bytes sv op UINT64_MAX key ++ data) w = None.
Proof.
  intros Hw Hb Hsv Hop Hp H64 Hd fuel. rewrite HandleIncoming_established by done.
  assert (header_bytes sv op UINT64_MAX key ++ data <> []) as Hne by done. destruct fuel as [|fuel]; [done|]. rewrite message_loop_step by done.
  assert (wrap 64 (zlen (w_payload w) + UINT64_MAX) = zlen (w_payload w) - 1) as Hwrap.
  { unfold wrap, UINT64_MAX. replace (zlen (w_payload w) + (2 ^ 64 - 1)) with (zlen (w_payload w) - 1 + 1 * 2 ^ 64) by lia. rewrite Z.mod_add by lia. apply Z.mod_small. lia. }
  unfold frame_step. rewrite read_header_frame by (done || lia || (unfold UINT64_MAX; lia)). cbn [andThen].
  set (hdr := header_bytes sv op UINT64_MAX key). set (w1 := w <| w_header := hdr |> <| w_headerSize := zlen hdr |> <| w_frameSize := UINT64_MAX |>).
  unfold read_payload. change (w_frameSize w1) with UINT64_MAX. change (UINT64_MAX =? UINT64_MAX) with true. cbv iota.
  apply stuck_never_returns; [|done]. split; change (w_header w1) with hdr; change (w_headerSize w1) with (zlen hdr); change (w_payload w1) with (w_payload w).
  - done.
  - apply header_two.
  - pose proof (header_two sv op UINT64_MAX key) as H2. fold hdr in H2. lia.
  - done.
  - by apply (header_length sv op UINT64_MAX key).
  - change (w_maxMessageSize w1) with (w_maxMessageSize w). lia.
Qed.
End Frames.
