(* ===== verification/WebSocketServer.v ===== *)
(** * WebSocketServer: the server side of the opening handshake
      ([wpinet/cpp/WebSocketServer.cpp], [WebSocketServer.h])

    A [WebSocketServer] reads an HTTP request, and answers it with an error or makes a
    [WebSocket] of the connection.  Its members are those of the code, and the stream is modelled
    by what was written to it. *)

From Stdlib Require Import Strings.Ascii.
From S2P Require Import Prelude Base64 Sha1 Http WebSocket.
Local Open Scope Z_scope.

(** ** Strings ([wpi/StringExtras.h]) *)

(** [s.find(separator)]: what is before and after the first separator *)
Definition find_separator (sep : bytes) : bytes -> option (bytes * bytes) :=
  fix go s :=
    if bool_decide (take (length sep) s = sep) then Some ([], drop (length sep) s)
    else match s with
         | [] => None
         | b :: t => '(before, after) ← go t; Some (b :: before, after)
         end.
(** [split] without limit; each turn but the last drops a separator, so the length of the string
    is enough fuel. *)
Fixpoint split_loop (fuel : nat) (sep : bytes) (keepEmpty : bool) (s : bytes) : list bytes :=
  let push p l := if keepEmpty || negb (bool_decide (p = [])) then p :: l else l in
  match fuel, find_separator sep s with
  | S fuel, Some (p, s) => push p (split_loop fuel sep keepEmpty s)
  | _, _ => push s []
  end.
Definition split (sep : bytes) (keepEmpty : bool) (s : bytes) : list bytes := split_loop (length s) sep keepEmpty s.

(** ** The helper *)

Record WebSocketServerHelper := MkHelper {
  h_gotHost : bool;
  h_websocket : bool;
  h_protocols : list bytes;
  h_key : bytes;
  h_version : bytes;
}.
#[global] Instance eta_Helper : Eta WebSocketServerHelper := fun h =>
  MkHelper (h_gotHost h) (h_websocket h) (h_protocols h) (h_key h) (h_version h).
Definition WebSocketServerHelper_make : WebSocketServerHelper := MkHelper false false [] [] [].

Definition helper_header (name value : bytes) (h : WebSocketServerHelper) : WebSocketServerHelper :=
  if equals_lower name (lit "host") then h <| h_gotHost := true |>
  else if equals_lower name (lit "upgrade") then
    if equals_lower value (lit "websocket") then h <| h_websocket := true |> else h
  else if equals_lower name (lit "sec-websocket-key") then h <| h_key := value |>
  else if equals_lower name (lit "sec-websocket-version") then h <| h_version := value |>
  else if equals_lower name (lit "sec-websocket-protocol") then
    let offered := filter (fun p => p <> []) (trim <$> split (lit ",") false value) in
    h <| h_protocols ::= fun l => l ++ offered |>
  else h.
Definition helper_is_upgrade (h : WebSocketServerHelper) : bool := h_gotHost h && h_websocket h.

(** The first of the protocols that the client offered *)
Definition MatchProtocol (protocols : list bytes) (h : WebSocketServerHelper) : bool * bytes :=
  match protocols, h_protocols h with
  | [], [] => (true, [])
  | _, _ =>
      match List.find (fun p => bool_decide (p ∈ h_protocols h)) protocols with
      | Some p => (true, p)
      | None => (false, [])
      end
  end.

(** ** The server *)

(** [s_socket] is the socket that the connection was upgraded to, [s_connected] the URL that the
    signal [connected] was emitted with. *)
Record WebSocketServer := MkServer {
  s_helper : WebSocketServerHelper;
  s_protocols : list bytes;
  s_checkUrl : option (bytes -> bool);
  s_checkHost : option (bytes -> bool);
  s_aborted : bool;
  s_written : list bytes;
  s_socket : option WebSocket;
  s_connected : option bytes;
}.
#[global] Instance eta_Server : Eta WebSocketServer := fun s =>
  MkServer (s_helper s) (s_protocols s) (s_checkUrl s) (s_checkHost s) (s_aborted s) (s_written s) (s_socket s) (s_connected s).

Definition decimal (code : Z) : bytes :=
  [u8 (48 + code / 100); u8 (48 + (code / 10) mod 10); u8 (48 + code mod 10)].
Definition Abort (code : Z) (reason : bytes) (s : WebSocketServer) : WebSocketServer :=
  if s_aborted s then s
  else s <| s_aborted := true |>
         <| s_written ::= fun l => l ++ [lit "HTTP/1.1 " ++ decimal code ++ lit " " ++ reason ++ crlf ++
                                         (if code =? 426 then lit "Upgrade: WebSocket" ++ crlf else []) ++ crlf] |>.

(** The slot of [upgrade] *)
Definition accept (s : WebSocketServer) : WebSocketServer :=
  if s_aborted s then s
  else
    let protocol := (MatchProtocol (s_protocols s) (s_helper s)).2 in
    let ws := StartServer (h_key (s_helper s)) (h_version (s_helper s)) protocol (WebSocket_make true) in
    s <| s_socket := Some ws |> <| s_written ::= fun l => l ++ w_written ws |>.

(** The slots of the parser: those of the helper, then those of the server *)
Definition request_slot (sig : http_signal) (p : http_parser) (s : WebSocketServer) : WebSocketServer * list slot_call :=
  (match sig with
   | header name value =>
       let s := s <| s_helper ::= helper_header name value |> in
       if equals_lower name (lit "host") then
         match s_checkHost s with
         | Some check => if check value then s else Abort 401 (lit "Unrecognized Host") s
         | None => s
         end
       else s
   | url u =>
       match s_checkUrl s with
       | Some check => if check u then s else Abort 404 (lit "Not Found") s
       | None => s
       end
   | headersComplete _ =>
       let s := if hp_is_upgrade p && helper_is_upgrade (s_helper s) then accept s else s in
       if negb (helper_is_upgrade (s_helper s)) || negb (hp_is_upgrade p) then Abort 426 (lit "Upgrade Required") s else s
   | _ => s
   end, []).

Definition server_make (protocols : list bytes) (checkUrl checkHost : option (bytes -> bool)) : HttpParser (V := WebSocketServer) :=
  HttpParser_make HTTP_REQUEST (MkServer WebSocketServerHelper_make protocols checkUrl checkHost false [] None None).

(** Data from the stream; once there is a socket the data goes to it. [None] is a failed
    assertion of the parser, or data of which it reads too much. *)
Definition set_server (s : WebSocketServer) (h : HttpParser) : HttpParser := MkHttpParser (m_parser h) (m_collector h <| m_slots := s |>).
Definition server_data `{Masks} (fuel : nat) (data : bytes) (h : HttpParser (V := WebSocketServer)) : option (HttpParser (V := WebSocketServer)) :=
  let s := m_slots (m_collector h) in
  match s_socket s with
  | Some ws => ws ← HandleIncoming fuel data ws; Some (set_server (s <| s_socket := Some ws |>) h)
  | None =>
      if s_aborted s then Some h
      else
        '(_, h) ← Execute request_slot data h;
        Some (if HasError h then set_server (Abort 400 (lit "Bad Request") (m_slots (m_collector h))) h else h)
  end.
(** The response is written: the socket is open, and [connected] is emitted. *)
Definition server_connected (h : HttpParser (V := WebSocketServer)) : HttpParser :=
  let s := m_slots (m_collector h) in
  match s_socket s with
  | Some ws =>
      let ws := server_written (h_version (s_helper s)) ws in
      set_server (s <| s_socket := Some ws |>
                    <| s_connected := match w_state ws with OPEN => Some (m_urlBuf (m_collector h)) | _ => s_connected s end |>) h
  | None => h
  end.

(** ** Protocols *)

(** The protocol is the first of the server's protocols that the client has offered. *)
Lemma match_protocol_first protocols h p : MatchProtocol protocols h = (true, p) -> protocols <> [] ->
  exists before after, protocols = before ++ p :: after /\ p ∈ h_protocols h /\ Forall (fun q => q ∉ h_protocols h) before.
Proof.
  unfold MatchProtocol. destruct protocols as [|q l]; [done|]. intros E _. revert E. generalize (q :: l). clear q l. intros l E.
  induction l as [|q l IH]; cbn in E; [done|]. case_bool_decide.
  - simplify_eq. by exists [], l.
  - destruct (IH E) as (before & after & -> & Hp & Hf). exists (q :: before), after. by split_and!; [done|done|constructor].
Qed.

(** A name in a list that is separated by commas *)
Definition item (s : bytes) : Prop := s <> [] /\ Forall (fun c => c <> u8 0x2c) s /\ trim s = s.

Lemma find_separator_app b s t : Forall (fun c => c <> b) s -> find_separator [b] (s ++ b :: t) = Some (s, t).
Proof.
  induction 1 as [|c s Hc Hf IH]; cbn; [by rewrite bool_decide_true|]. rewrite bool_decide_false by congruence. cbn in IH. by rewrite IH.
Qed.
Lemma find_separator_none b s : Forall (fun c => c <> b) s -> find_separator [b] s = None.
Proof. induction 1 as [|c s Hc Hf IH]; cbn; [done|]. rewrite bool_decide_false by congruence. cbn in IH. by rewrite IH. Qed.
Lemma split_last fuel b s : Forall (fun c => c <> b) s -> s <> [] -> split_loop fuel [b] false s = [s].
Proof. intros Hf Hs. destruct fuel; cbn [split_loop]; rewrite ?find_separator_none by done; by rewrite bool_decide_false. Qed.
Lemma trim_space s : trim (u8 0x20 :: s) = trim s.
Proof. done. Qed.
Lemma split_items l : forall fuel sp, Forall item l -> (length l <= fuel)%nat -> Forall (fun c => c = u8 0x20) sp ->
  trim <$> split_loop fuel (lit ",") false (match l with [] => [] | _ => sp ++ comma_list l end) = l.
Proof.
  induction l as [|x l IH]; intros fuel sp Hf Hl Hsp; [by destruct fuel|]. inversion_clear Hf as [|? ? (Hx & Hc & Ht) Hf'].
  assert (Forall (fun c => c <> u8 0x2c) (sp ++ x)) as Hs.
  { apply Forall_app. split; [|done]. eapply Forall_impl; [done|]. by intros ? ->. }
  assert (trim (sp ++ x) = x) as Htrim by (clear Hs; induction Hsp as [|c sp -> Hsp IHs]; [done|cbn [app]; by rewrite trim_space]).
  assert (sp ++ x <> []) as Hne by (by destruct sp). change (lit ",") with [u8 0x2c] in *. destruct l as [|y l].
  - cbn [comma_list]. rewrite split_last by done. cbn. by rewrite Htrim.
  - destruct fuel as [|fuel]; [cbn in Hl; lia|]. change (comma_list (x :: y :: l)) with (x ++ u8 0x2c :: [u8 0x20] ++ comma_list (y :: l)).
    rewrite (app_assoc sp). cbn [split_loop]. rewrite find_separator_app by done. rewrite bool_decide_false by done. cbn [orb negb fmap list_fmap].
    rewrite Htrim. f_equal. apply (IH fuel [u8 0x20]); [done|cbn in *; lia|by constructor].
Qed.
Lemma length_comma_list l : Forall item l -> (length l <= length (comma_list l))%nat.
Proof.
  induction 1 as [|x l (Hx & _) Hl IH]; [done|]. assert (length x <> 0%nat) by (by destruct x). destruct l as [|y l]; [cbn; lia|].
  change (comma_list (x :: y :: l)) with (x ++ lit ", " ++ comma_list (y :: l)). rewrite !length_app. cbn [length] in *. lia.
Qed.

(** The server finds the protocols that the client has written in its request. *)
Lemma protocols_read l h : Forall item l -> l <> [] ->
  h_protocols (helper_header (lit "Sec-WebSocket-Protocol") (comma_list l) h) = h_protocols h ++ l.
Proof.
  intros Hf Hl. unfold helper_header. change (equals_lower (lit "Sec-WebSocket-Protocol") (lit "host")) with false.
  change (equals_lower (lit "Sec-WebSocket-Protocol") (lit "upgrade")) with false.
  change (equals_lower (lit "Sec-WebSocket-Protocol") (lit "sec-websocket-key")) with false.
  change (equals_lower (lit "Sec-WebSocket-Protocol") (lit "sec-websocket-version")) with false.
  change (equals_lower (lit "Sec-WebSocket-Protocol") (lit "sec-websocket-protocol")) with true. cbv iota.
  change (h_protocols h ++ filter (fun p => p <> []) (trim <$> split (lit ",") false (comma_list l)) = h_protocols h ++ l). f_equal.
  unfold split. pose proof (split_items l (length (comma_list l)) [] Hf (length_comma_list l Hf) ltac:(constructor)) as E.
  destruct l as [|x l]; [done|]. cbn [app] in E. rewrite E. clear E. generalize dependent (x :: l). clear x l. intros l Hf _.
  induction Hf as [|x l (Hx & _) Hf IH]; [done|]. rewrite filter_cons_True by done. by rewrite IH.
Qed.
