(* ===== verification/NetExample.v ===== *)
(** * NetExample: a connection over the network, computed

    A client and a server of the WebSocket protocol, their opening handshake and what they send;
    and the theorems on them at work. *)

From Stdlib Require Import Strings.Ascii.
From S2P Require Import Prelude Base64 Sha1 Http HttpUrl.
From S2P Require Import HttpSafety WebSocket WebSocketLoop WebSocketProofs WebSocketServer.
Local Open Scope Z_scope.

Module NetExample.
#[local] Instance masks : Masks := fun n => (u8 (Z.of_nat n), u8 0x1b, u8 0xa7, u8 0x55).

(** The client sends its request, the server answers it. *)
Definition nonce : bytes := lit "0123456789abcdef".
Definition protocol : bytes := lit "networktables.first.wpi.edu".
Definition connecting : WebSocket :=
  StartClient nonce (lit "/nt/robot") (lit "10.1.2.3:5810") [lit "other"; protocol] [] (WebSocket_make false).
Definition request : bytes := concat (w_written connecting).
Definition listening : HttpParser := server_make [protocol] (Some (fun u => bool_decide (u = lit "/nt/robot"))) None.
Definition serve (pieces : list bytes) (h : HttpParser) : option HttpParser :=
  foldl (fun h data => h ≫= server_data (length data) data) (Some h) pieces.
Definition answered : HttpParser := default listening (serve [request] listening).
Definition state_of (h : HttpParser) : WebSocketServer := m_slots (m_collector h).
Definition response : bytes := concat (s_written (state_of answered)).
Definition connected : HttpParser := server_connected answered.

Definition server : WebSocket := default (WebSocket_make true) (s_socket (state_of connected)).
Definition client : WebSocket := default connecting (receive [response] connecting).

(** The handshake opens both sockets, also when it arrives byte by byte. *)
Example handshake_opens :
  response = server_response (Base64Encode nonce) protocol /\ s_written ∘ state_of <$> serve ((fun b => [b]) <$> request) listening = Some [response] /\
  s_connected (state_of connected) = Some (lit "/nt/robot") /\ w_state server = OPEN /\
  w_state client = OPEN /\ w_signals client = [open protocol] /\ receive ((fun b => [b]) <$> response) connecting = Some client.
Proof. vm_compute. done. Qed.
(** Another URL is not found. *)
Example handshake_other_url :
  s_written ∘ state_of <$> serve [client_request (lit "/x") (lit "h") (lit "k") [] []] listening = Some [lit "HTTP/1.1 404 Not Found" ++ crlf ++ crlf].
Proof. vm_compute. done. Qed.

(** It does not accept the one for another key. *)
Example handshake_other_key :
  w_signals <$> receive [server_response (Base64Encode (lit "0123456789abcdeX")) []] connecting = Some [closed 1002 (lit "invalid accept key")].
Proof. vm_compute. done. Qed.

Definition messages : list ws_message :=
  [Data true [lit "[{"; lit "}]"] []; Ping [lit "hi"]; Data false [lit "abc"] [[lit "de"]; [lit "f"; lit "g"]]; Pong []].

Example messages_signals : messages ≫= signals_of (w_combineFragments server) =
  [text (lit "[{}]") true; ping (lit "hi"); binary (lit "abcdefg") true; pong []].
Proof. vm_compute. done. Qed.
Lemma websocket_delivers_witness :
  exists b s', SendFrames (messages ≫= frames_of) client = (None, s') /\ w_written s' = w_written client ++ [b] /\
    forall pieces, concat pieces = b ->
      receive pieces server = Some (emit_all (messages ≫= signals_of (w_combineFragments server)) server).
Proof.
  apply (websocket_delivers client server messages); [vm_compute; reflexivity| |vm_compute; reflexivity|repeat (constructor; [vm_compute; discriminate|]); constructor].
  split; [left; vm_compute; reflexivity|split; vm_compute; reflexivity|vm_compute; reflexivity..].
Defined.

(** A fragment of a message is pending. *)
Definition fragment : bytes := (WriteFrames false 0 [MkFrame kOpText [lit "a"]]).1.
Definition pending : WebSocket := default server (receive [fragment] server).

Lemma incoming_in_pieces_witness :
  receive ((fun b => [b]) <$> fragment) server = Some pending <-> receive [fragment] server = Some pending.
Proof.
  apply incoming_in_pieces; [left; vm_compute; reflexivity|vm_compute; left; reflexivity|vm_compute; reflexivity|vm_compute; reflexivity].
Defined.

Lemma endless_frame_witness :
  receive [fragment] server = Some pending /\
  forall fuel, HandleIncoming fuel (header_bytes false kOpPing UINT64_MAX (u8 0, u8 0, u8 0, u8 0) ++ [u8 0]) pending = None.
Proof.
  split; [vm_compute; reflexivity|].
  apply endless_frame; [left; vm_compute; reflexivity|split; vm_compute; reflexivity|vm_compute; reflexivity|vm_compute; reflexivity|
                        vm_compute; split; [reflexivity|discriminate]|vm_compute; reflexivity|discriminate].
Defined.

Lemma incoming_ends_witness :
  exists w', HandleIncoming (length fragment) fragment (server <| w_combineFragments := false |>) = Some w'.
Proof. apply incoming_ends; [left; vm_compute; reflexivity|vm_compute; left; reflexivity|split; vm_compute; reflexivity]. Defined.

(** A ping between the fragments of a message is delivered with the fragment, which is lost. *)
Example ping_within_message :
  w_signals <$> receive [(WriteFrames false 0 [MkFrame kOpText [lit "ab"]; MkFrame (Z.lor kFlagFin kOpPing) [lit "!"];
                                               MkFrame (Z.lor kFlagFin kOpCont) [lit "cd"]]).1] server =
  Some (w_signals server ++ [ping (lit "ab!"); text (lit "cd") true]).
Proof. vm_compute. done. Qed.

(** Frames after a close frame are handled if they arrive with it. *)
Example text_after_close :
  let bytes := (WriteFrames false 0 [MkFrame (Z.lor kFlagFin kOpClose) []; MkFrame (Z.lor kFlagFin kOpText) [lit "x"]]).1 in
  w_signals <$> receive [bytes] server = Some (w_signals server ++ [closed 1005 []; text (lit "x") true]) /\
  w_signals <$> receive ((fun b => [b]) <$> bytes) server = Some (w_signals server ++ [closed 1005 []]).
Proof. vm_compute. done. Qed.

(** The limit for messages does not hold for a length that wraps around. *)
Example message_beyond_limit :
  match receive [(WriteFrames false 0 [MkFrame kOpText [lit "ab"]]).1; header_bytes false kOpPing (2 ^ 64 - 2) (u8 0, u8 0, u8 0, u8 0); replicate 20 (u8 0)] (server <| w_maxMessageSize := 10 |>) with
  | Some w => w_state w = OPEN /\ w_maxMessageSize w < zlen (w_payload w)
  | None => False
  end.
Proof. vm_compute. done. Qed.

Lemma sha1_hash_witness :
  RawFinal (Update (lit "c") (Update (lit "ab") reset)) =
    (concat (word_bytes <$> digest_words (Fips.hash (lit "abc"))), reset).
Proof. apply (sha1_hash [lit "ab"; lit "c"]). reflexivity. Defined.

(** A slot that notes the signals and pauses the parser at the end of the headers *)
Definition pausing_slot (sig : http_signal) (_ : http_parser) (l : list http_signal) : list http_signal * list slot_call :=
  (l ++ [sig], match sig with headersComplete _ => [call_Pause true] | _ => [] end).
Definition paused_session : list http_op :=
  [OpExecute (lit "GET /i HT"); OpExecute (lit "TP/1.1" ++ crlf ++ crlf); OpCall (call_Pause false); OpExecute [u8 0x0a]].
Lemma http_parser_safe_witness :
  exists rests h, feed pausing_slot paused_session (HttpParser_make HTTP_REQUEST []) = Some (rests, h) /\
    rests = [[]; [u8 0x0a]; []] /\ m_slots (m_collector h) = [messageBegin; url (lit "/i"); headersComplete true; messageComplete true].
Proof.
  destruct (http_parser_safe pausing_slot HTTP_REQUEST [] paused_session) as (rests & h & E & _); [vm_compute; reflexivity|].
  exists rests, h. split; [exact E|]. vm_compute in E. injection E as <- <-. split; reflexivity.
Defined.

Definition url_parts : parts :=
  MkParts (Some (MkAuthority (lit "http") (Some (lit "me:pw")) (lit "10.1.2.3") (Some (lit "5810")))) (lit "/nt/robot") (Some (lit "a=b?")) (Some (lit "top")).
Lemma url_roundtrip_witness :
  exists u, UrlParser (print_url url_parts) false = Good u /\ (forall f, get_field (print_url url_parts) f u = expected url_parts f) /\ port u = 5810.
Proof.
  apply (url_roundtrip url_parts). split.
  - split; [split; [discriminate|repeat constructor]|split; [discriminate|repeat constructor]|split; [discriminate|repeat constructor]|].
    split; [split; [discriminate|repeat constructor]|by eexists].
  - exists (lit "nt/robot"). split; [reflexivity|repeat constructor].
  - split; [discriminate|repeat constructor].
  - split; [discriminate|repeat constructor].
  - reflexivity.
Defined.
End NetExample.
